(* ===== verification/_CoqProject ===== *)
-Q . S2P
Prelude.v
Cmem.v
Lzcommon.v
Compression.v
Lz4.v
Crc32.v
Huffman.v
Inflate.v
Sched.v
Xxh64.v
Fse.v
ZstdLiterals.v
ZstdSequences.v
ZstdBlock.v
ZstdFrame.v
Dram.v
Decompression.v
Printf.v
Cstring.v
Fdt.v
Blockdev.v
Mmu.v
MmuTables.v
MmuStore.v
MmuMap.v
MmuUnmap.v
MmuRange.v
Gpt.v
Nvme.v
NvmePrp.v
NvmeQueue.v
NvmeWait.v
NvmeDev.v
NvmeBlk.v
NvmeBoot.v
NvmeInit.v
NvmeDrive.v
Elf.v
Spi.v
SpiXfer.v
BootOrder.v
RegExpr.v
RegLayout.v
RegBlob.v
RegRead.v
Idb.v
Flash.v
UsbLoad.v
Dwc3.v
HostCtl.v
Sdhci.v
Dwmmc.v
Memtest.v
