(* ===== verification/Prelude.v ===== *)
(** * A verification of levinboot's core

    levinboot is a bootloader for the RK3399.  It runs in two stages.  The
    SRAM stage ([src/sramstage], [src/dram]) brings up clocks and DRAM; the
    DRAM stage ([src/dramstage]) reads a payload from SD, eMMC, NVMe or SPI
    flash, decompresses it while it is still being read
    ([src/dramstage/decompression.c], [src/compression]), adjusts the device
    tree ([src/dramstage/transform_fdt.c]) and starts the kernel through the
    trusted firmware.  Both stages share drivers, a cooperative scheduler and
    console output ([src/lib]).

    This library models the parts of this program that compute: definitions
    are translated from the C code function by function, keep the names of the
    source, are executable, and are run on concrete inputs by the witnesses
    (among them frames made by the reference compressors).

    ** Files

    - [Prelude]: outcomes of C code ([res]: a value or a trap), machine
      integers with their wrap-around ([u8] ... [u64]), bits, little-endian
      words, arrays with bounds, loops over ranges, automation.
    - [Cmem]: byte-addressed memory as a finite map; accesses outside of its
      domain and misaligned word accesses trap.
    - [Lzcommon]: [lzcommon.c], the copy primitives.  [copy_words] and the
      shifted copies work in words of eight bytes and may write up to
      [LZCOMMON_BLOCK] bytes too many; they are equal to byte-wise copies
      ([lz_match]).
    - [Compression]: the interface of [compression.h].
    - [Lz4], [Crc32], [Huffman], [Inflate]: [lz4.c] and [inflate.c], the LZ4
      and gzip decompressors.
    - [Xxh64], [Fse], [ZstdLiterals], [ZstdSequences], [ZstdBlock],
      [ZstdFrame]: the zstd decompressor ([zstd.c], [zstd_fse.c],
      [zstd_literals.c], [zstd_sequences.c], [zstd_probe_literals.c] and their
      internal headers), bottom up.
    - [Decompression]: [decompression.c], the driver that connects a transfer
      with a decompressor; [Transfer] and [Decoder] are the interfaces, the
      LZ4 decoder and several transfers are instances.
    - [Blockdev]: the SD and eMMC drivers ([blk_sd.c], [blk_emmc.c]) over an
      arbitrary host controller, as instances of [Transfer].
    - [Sched]: [sched.c], the run queue and the wait lists, as operations on a
      heap of intrusive lists and as interleavings of several contexts.
    - [Dram]: [memorymap.c], [mirror.c], [read_size.c], the detection of the
      DRAM geometry and the registers that pass its size on.
    - [Printf]: [uart.c], number formatting and [vprintf].
    - [Cstring]: [string.c].
    - [Fdt]: [fdt.h] and [transform_fdt.c].
    - [Mmu]: [mmu.c] and the assembly routine of [mmu_asm.S] that writes all
      mappings, as a machine over its labels.  [MmuTables] (the tables as a
      tree, their invariant), [MmuStore] (writing and linking entries),
      [MmuMap], [MmuUnmap] and [MmuRange] hold the proofs.
    - [Gpt]: [boot_blockdev.c], the partition table, over an arbitrary block
      device ([BlockDevice]).
    - [Nvme]: [nvme.c], [nvme_xfer.c] and the block device of [blk_nvme.c],
      with the controller as a part of the machine.  [NvmePrp] (PRP lists),
      [NvmeQueue] (the queues and their invariant, the controller as a
      relation), [NvmeWait] (waiting), [NvmeDev] (a controller as a function),
      [NvmeBlk] (the driver as an instance of [BlockDevice]) and [NvmeBoot]
      (the whole path from the boot code to the disk) hold the proofs.
      [NvmeInit] is the start-up of a controller and its reset, [NvmeDrive]
      the start-up of the drive behind it.
    - [Elf]: the ELF loader of [commit.c].
    - [Spi]: [rkspi.c] and the transfer of [spi.c], with the controller and the
      flash memory as a part of the machine; [SpiXfer] holds the proofs.
    - [BootOrder]: the boot monitor of [main.c] and its protocol with the
      threads of the boot media, as interleavings.
    - [RegExpr], [RegLayout], [RegBlob], [RegRead]: the host tool regtool
      ([regtool.c], [regtool_rpn.c]), which computes the register values of the
      DRAM controller: value expressions, the layout of fields, the values of
      registers, and the reading of description files with the composition of
      all parts.
    - [Idb]: [rc4.h] and [idbtool.c], the images that the boot ROM reads.
    - [Flash]: [usb_loader-spi.c], erasing and programming of SPI flash, with the
      FIFO of the controller, over an arbitrary flash memory ([SpiFlash]).
    - [UsbLoad]: the loading protocol between [usbtool.c] and [usb_loader.c], and
      its composition with [Flash].
    - [HostCtl]: the block devices of [Blockdev] over a host controller that reads a
      card, an interface ([XferController]); [Sdhci] and [Dwmmc] implement it: the
      transfers of [sdhci.c] with [sdhci_common.c], and of [dwmmc_xfer.c] with
      [dwmmc_common.c], with the controllers as a part of the machine.
    - [Dwc3]: the control endpoint and the events of [dwc3.c], with the descriptors
      of [usb_loader.c].
    - [Memtest]: [memtest.c], the memory test, over an arbitrary memory.

    ** What the theorems show

    - Memory safety and exactness of the copy primitives, for overlapping
      source and destination and every distance (Lzcommon).
    - For LZ4, DEFLATE (with complete codes) and zstd (with offset codes up to
      25): the decoder accepts exactly the blocks of the format, as an inductive
      or functional definition of the format, and produces exactly their
      contents; the table builders implement canonical
      Huffman codes and FSE tables; the checksums equal their polynomial or
      textbook definitions for every way of cutting the input; encoders round
      trip; each error branch is reported as such.
    - The driver of the decompressors terminates and leaves the transfer
      exactly behind the consumed input, for every transfer and decoder that
      keep their contracts (Decompression); the block devices keep theirs, for
      every behaviour of the hardware (Blockdev).
    - The run queue is FIFO and loses nothing, and no wake-up is lost, in
      every interleaving (Sched).
    - The DRAM geometry found by probing is that of the memory behind the
      controller, and its size survives the encoding in two registers (Dram).
    - [vprintf] prints what its format string denotes, when the text fits its
      line buffer (Printf).
    - [transform_fdt] maps the flattening of a device tree to the flattening
      of the transformed tree (Fdt).
    - Mapping a range adds exactly the translations asked for and keeps the
      page tables well-formed, unmapping takes exactly these away again when the
      displacement is a multiple of 1 GiB, and the assembly routine agrees with the C version that documents it
      (MmuRange).
    - The partition that is booted is the first usable one of each type, which is
      the one of the documented rules when first entries are usable, on every
      device with 512-byte blocks, or an error is returned (Gpt).
    - An NVMe read command denotes the bytes of the buffers it was built from;
      requests are finished in the order and with the status of the
      completions, in every interleaving with the controller; waiting ends
      when the controller answers; transfers deliver the contents of the disk,
      and booting finds its payload, or they stop in the two ways that a weak
      compare-and-exchange allows (Nvme files).  Starting a drive that takes only
      correct administration commands leads to the state that transfers ask for,
      or fails for one of the listed reasons (NvmeDrive).
    - The ELF loader places the segments of a file, whose sizes are whole words,
      and stops on exactly the files that break a rule (Elf).
    - The interrupt handler of the SPI driver is safe for every behaviour of
      the controller; reads by interrupts and by polling deliver the contents
      of the flash memory (SpiXfer).
    - At most one boot medium loads at a time, every run of the boot threads
      ends, and the payload in memory is the one that was accepted (BootOrder).
    - Value expressions of regtool are evaluated as they are documented, with
      static types (RegExpr); the layout loop unrolls nested repetitions and
      places fields without overlap (RegLayout); printed registers hold the
      values of their fields and nothing else (RegBlob, RegRead).
    - Images with ID blocks of up to 4 MiB have the documented header and can be
      decrypted and read back (Idb); files that are sent by usbtool end up in memory
      or, if the SPI controller keeps up, in the flash memory (UsbLoad).
    - The bytes that SD and eMMC deliver are those of the card, from the pump down to
      the descriptors that the controllers walk, and errors are reported only for
      faults of the hardware (Sdhci, Dwmmc).
    - Supported control requests of USB are answered, and the others stop the
      device (Dwc3).
    - The memory test finds words that never read as written, and does not find
      faults of address lines inside a block (Memtest).

    Where the code goes wrong on inputs outside of a theorem's conditions, a lemma
    shows it on an example (for instance [unmap_displaced_asserts],
    [bss_not_cleared], [reset_unused_hangs], [tx_cmd_overflow]).

    ** Bounds and fuel

    Loops whose recursion is not structural take fuel.  The fuel is computed
    from the input (its length, the number of bytes left, the number of table
    entries), and each correctness theorem states that the function returns,
    so that the fuel is large enough; [TrapFuel] is never a result of a call
    that satisfies the hypotheses.  Integers are [Z] with the reduction of the
    C type written out where the C code can wrap.

    ** Modelling choices

    Pointers are addresses in one memory.  Where C leaves behaviour undefined
    and the code relies on it (word copies of overlapping ranges, reads a few
    bytes behind a buffer), the model does what the compiled code does and the
    hypotheses ask for the bytes to be accessible.  Debug output is left out,
    except in [Printf].  Hardware is a parameter: the DRAM behind its
    controller, the host controllers in [Blockdev] and [HostCtl], with the
    documented behaviour as a class.  The NVMe controller is a relation on the machine that it
    shares with the driver; it moves whenever the driver looks at a completion
    queue or at the status register.  A request of a host controller in flight may
    leave anything in its buffers until it is done, and weak compare-and-exchanges
    may fail at any time.  The PRP list and the buffers are separate
    memories there, and caches are left out: the driver flushes and invalidates
    the buffers around each request.

    ** Not modelled

    Register sequences (clocks, DRAM training, PCIe, the start-up of cards)
    and the other assembly are outside: their correctness depends on hardware
    that the repository does not describe.  The other host tools move data
    between files.  Weak memory orderings and the stack switch of the scheduler are
    not part of [Sched]. *)
From stdpp Require Export base numbers option list list_numbers tactics.
From Stdlib Require Export ZArith Lia Bool.

Open Scope Z_scope.

(** ** Outcomes of C code

    A run of a C function either returns or traps.  A trap is a behaviour that
    the code has to exclude: a failed [assert], an access outside of the
    objects that are accessible, a misaligned access, a call of [abort] or
    [die], a shift by an amount that is not less than the width, a remainder by 0.  [TrapFuel]
    marks a loop whose bound was too small in the model; the termination
    theorems show that the bounds used are large enough. *)
Inductive trap : Set :=
| TrapAssert
| TrapOob (addr : Z)
| TrapAlign (addr : Z)
| TrapShift
| TrapDiv
| TrapAbort
| TrapFuel.

Inductive res (A : Type) : Type :=
| Ok (a : A)
| Trap (t : trap).
Arguments Ok {A} a.
Arguments Trap {A} t.

(** Sequencing is stdpp's monad notation: [x ← e; k] and [e ;; k]. *)
#[export] Instance res_ret : MRet res := fun A a => Ok a.
#[export] Instance res_bind : MBind res := fun A B k r =>
  match r with Ok a => k a | Trap t => Trap t end.

(** [assert] of the C library: traps when the condition is false. *)
Definition c_assert (b : bool) : res unit :=
  if b then Ok tt else Trap TrapAssert.

Definition is_ok {A} (r : res A) : bool :=
  match r with Ok _ => true | Trap _ => false end.

Lemma bind_ok {A B} (r : res A) (k : A -> res B) b :
  (x ← r; k x) = Ok b <-> exists a, r = Ok a /\ k a = Ok b.
Proof.
  destruct r as [a | t]; simpl; split.
  - eauto.
  - by intros (? & [= ->] & ?).
  - done.
  - by intros (? & ? & ?).
Qed.

Lemma bind_assoc {A B C} (r : res A) (f : A -> res B) (g : B -> res C) :
  (y ← (x ← r; f x); g y) = (x ← r; y ← f x; g y).
Proof. by destruct r. Qed.

Lemma c_assert_true b : b = true -> c_assert b = Ok tt.
Proof. by intros ->. Qed.

(** ** Machine integers: [(u8)x], [(u16)x], [(u32)x], [(u64)x] *)
Definition u8 (x : Z) : Z := x mod 2 ^ 8.
Definition u16 (x : Z) : Z := x mod 2 ^ 16.
Definition u32 (x : Z) : Z := x mod 2 ^ 32.
Definition u64 (x : Z) : Z := x mod 2 ^ 64.

(** [x & m] for a mask, tested as a C condition. *)
Definition flag (x m : Z) : bool := negb (Z.land x m =? 0).

(** Lengths and positions are counted in [Z], like C's [size_t]. *)
Abbreviation zlen l := (Z.of_nat (length l)).

Definition is_byte (b : Z) : Prop := 0 <= b < 256.

(** Integer bounds turned into bounds of quotients and remainders for [lia]. *)
Ltac dlia := Z.to_euclidean_division_equations; lia.

(** Boolean comparisons with a known value. *)
Ltac zb :=
  first [ apply Z.ltb_lt | apply Z.leb_le | apply Z.eqb_eq
        | apply Z.ltb_ge | apply Z.leb_gt | apply Z.eqb_neq ]; lia.

(** Discharges one [assert] of the code. *)
Ltac assert_ok :=
  match goal with
  | |- context [c_assert ?b] =>
      rewrite (c_assert_true b) by (rewrite ?Z.geb_leb, ?Z.gtb_ltb; zb)
  end; cbn [mbind res_bind].

(** Splits a goal on the boolean comparisons it mentions, turned into
    propositions. *)
Ltac case_bool :=
  match goal with
  | |- context [?a <? ?b] => destruct (Z.ltb_spec a b)
  | |- context [?a <=? ?b] => destruct (Z.leb_spec a b)
  | |- context [?a =? ?b] => destruct (Z.eqb_spec a b)
  end.

Create HintDb word discriminated.

Lemma u8_range x : 0 <= u8 x < 256.
Proof. apply Z.mod_pos_bound; lia. Qed.
Lemma u16_range x : 0 <= u16 x < 65536.
Proof. apply Z.mod_pos_bound; lia. Qed.
Lemma u32_range x : 0 <= u32 x < 2 ^ 32.
Proof. apply Z.mod_pos_bound; lia. Qed.
Lemma u64_range x : 0 <= u64 x < 2 ^ 64.
Proof. apply Z.mod_pos_bound; lia. Qed.
Lemma u8_small x : 0 <= x < 256 -> u8 x = x.
Proof. apply Z.mod_small. Qed.
Lemma u16_small x : 0 <= x < 65536 -> u16 x = x.
Proof. apply Z.mod_small. Qed.
Lemma u32_small x : 0 <= x < 2 ^ 32 -> u32 x = x.
Proof. apply Z.mod_small. Qed.
Lemma u64_small x : 0 <= x < 2 ^ 64 -> u64 x = x.
Proof. apply Z.mod_small. Qed.
#[export] Hint Resolve u8_range u16_range u32_range u64_range : word.

Lemma b2z_01 b : 0 <= Z.b2z b <= 1.
Proof. destruct b; simpl; lia. Qed.

(** ** Bits *)

(** Bit-level extensionality for nonnegative positions, with the
    specifications of the operators pushed through. *)
Ltac bits_simpl :=
  repeat first
    [ rewrite Z.land_spec | rewrite Z.lor_spec | rewrite Z.lxor_spec
    | rewrite Z.shiftr_spec by lia | rewrite Z.shiftl_spec by lia
    | rewrite Z.lnot_spec by lia ].
Ltac bitwise :=
  apply Z.bits_inj'; intros ?n ?Hn; bits_simpl.

Lemma land_ones_mod x n : 0 <= n -> Z.land x (2 ^ n - 1) = x mod 2 ^ n.
Proof. intros. rewrite <- Z.land_ones by lia. by rewrite Z.ones_equiv, Z.sub_1_r. Qed.

Lemma testbit_small x n i : 0 <= x < 2 ^ n -> 0 <= n <= i -> Z.testbit x i = false.
Proof.
  intros Hx Hi. rewrite <- (Z.mod_small x (2 ^ n)) by done.
  apply Z.mod_pow2_bits_high. lia.
Qed.

(** Disjoint bits: [lor] is addition. *)
Lemma lor_add a b : Z.land a b = 0 -> Z.lor a b = a + b.
Proof. intros H. by rewrite Z.add_nocarry_lxor, Z.lxor_lor. Qed.

Lemma land_small_shiftl a b n : 0 <= n -> 0 <= a < 2 ^ n -> Z.land a (Z.shiftl b n) = 0.
Proof.
  intros Hn Ha. apply Z.bits_inj'; intros i Hi. rewrite Z.land_spec, Z.bits_0.
  destruct (Z.lt_ge_cases i n).
  - rewrite Z.shiftl_spec_low by lia. apply andb_false_r.
  - by rewrite (testbit_small a n i) by lia.
Qed.

Lemma lor_shiftl_add a b n :
  0 <= n -> 0 <= a < 2 ^ n -> Z.lor a (Z.shiftl b n) = a + b * 2 ^ n.
Proof.
  intros. rewrite lor_add by by apply land_small_shiftl.
  by rewrite Z.shiftl_mul_pow2.
Qed.

Lemma lor_bound a b n : 0 <= n -> 0 <= a < 2 ^ n -> 0 <= b < 2 ^ n -> 0 <= Z.lor a b < 2 ^ n.
Proof.
  intros Hn Ha Hb. split; [apply Z.lor_nonneg; lia |].
  destruct (Z.eq_dec (Z.lor a b) 0) as [-> | Hne]; [lia |].
  apply Z.log2_lt_cancel. rewrite Z.log2_lor, Z.log2_pow2 by lia.
  destruct (Z.eq_dec n 0) as [-> | ?].
  { assert (a = 0) by lia. assert (b = 0) by lia. subst. done. }
  destruct (Z.eq_dec a 0) as [-> | ?]; destruct (Z.eq_dec b 0) as [-> | ?];
    rewrite ?Z.max_r, ?Z.max_l by (simpl; try apply Z.log2_nonneg; lia);
    try (apply Z.log2_lt_pow2; lia); try (simpl; lia).
  apply Z.max_lub_lt; apply Z.log2_lt_pow2; lia.
Qed.

Lemma lxor_bound a b n : 0 <= n -> 0 <= a < 2 ^ n -> 0 <= b < 2 ^ n -> 0 <= Z.lxor a b < 2 ^ n.
Proof.
  intros Hn Ha Hb. split; [apply Z.lxor_nonneg; lia |].
  destruct (Z.lt_ge_cases (Z.lxor a b) (2 ^ n)) as [|Hge]; [done |].
  exfalso.
  assert (Z.lxor a b = Z.lxor a b mod 2 ^ n) as He.
  { apply Z.bits_inj'; intros i Hi. destruct (Z.lt_ge_cases i n).
    - by rewrite Z.mod_pow2_bits_low.
    - rewrite Z.mod_pow2_bits_high by lia. rewrite Z.lxor_spec.
      by rewrite !(testbit_small _ n) by lia. }
  pose proof (Z.mod_pos_bound (Z.lxor a b) (2 ^ n) ltac:(lia)). lia.
Qed.

Lemma shiftr_bound a n k : 0 <= k -> 0 <= n -> 0 <= a < 2 ^ n -> 0 <= Z.shiftr a k < 2 ^ n.
Proof.
  intros. rewrite Z.shiftr_div_pow2 by done. split; [apply Z.div_pos; lia |].
  apply Z.le_lt_trans with a; [| lia].
  rewrite <- (Z.div_1_r a) at 2. apply Z.div_le_compat_l; lia.
Qed.

Lemma flag_bit x k : 0 <= k -> flag x (2 ^ k) = Z.testbit x k.
Proof.
  intros Hk. unfold flag.
  destruct (Z.eqb_spec (Z.land x (2 ^ k)) 0) as [He | Hne]; simpl.
  - assert (Z.testbit (Z.land x (2 ^ k)) k = false) as Hb by (rewrite He; apply Z.bits_0).
    rewrite Z.land_spec, Z.pow2_bits_true, andb_true_r in Hb by done. done.
  - destruct (Z.testbit x k) eqn:Hb; [done |]. exfalso. apply Hne.
    apply Z.bits_inj'; intros i Hi. rewrite Z.land_spec, Z.bits_0, Z.pow2_bits_eqb by done.
    destruct (Z.eqb_spec k i) as [<- |]; [by rewrite Hb | apply andb_false_r].
Qed.

(** ** Little-endian words *)
Fixpoint le_val (l : list Z) : Z :=
  match l with [] => 0 | b :: l => b + 256 * le_val l end.

Fixpoint le_bytes (n : nat) (v : Z) : list Z :=
  match n with O => [] | S n => u8 v :: le_bytes n (Z.shiftr v 8) end.

Lemma le_bytes_length n v : length (le_bytes n v) = n.
Proof. revert v. induction n; simpl; auto. Qed.

Lemma le_bytes_is_byte n v : Forall is_byte (le_bytes n v).
Proof. revert v. induction n; simpl; constructor; auto. apply u8_range. Qed.

Lemma le_val_bound l : Forall is_byte l -> 0 <= le_val l < 2 ^ (8 * zlen l).
Proof.
  induction 1 as [|b l Hb Hl IH]; simpl; [lia |].
  unfold is_byte in Hb.
  replace (8 * Z.of_nat (S (length l))) with (8 * zlen l + 8) by lia.
  rewrite Z.pow_add_r by lia. lia.
Qed.

Lemma le_val_app l1 l2 : le_val (l1 ++ l2) = le_val l1 + 2 ^ (8 * zlen l1) * le_val l2.
Proof.
  induction l1 as [|b l1 IH]; simpl; [lia |].
  rewrite IH. replace (8 * Z.of_nat (S (length l1))) with (8 + 8 * zlen l1) by lia.
  rewrite Z.pow_add_r by lia. lia.
Qed.

Lemma le_bytes_val l : Forall is_byte l -> le_bytes (length l) (le_val l) = l.
Proof.
  induction 1 as [|b l Hb Hl IH]; simpl; [done |].
  unfold is_byte in Hb. f_equal.
  - unfold u8. rewrite (Z.mul_comm 256), Z.mod_add by lia. apply Z.mod_small; lia.
  - rewrite Z.shiftr_div_pow2 by lia. rewrite (Z.mul_comm 256), Z.div_add by lia.
    by rewrite Z.div_small, Z.add_0_l by lia.
Qed.

Lemma le_bytes_val_n n l : length l = n -> Forall is_byte l -> le_bytes n (le_val l) = l.
Proof. intros <-. apply le_bytes_val. Qed.

Lemma le_val_bytes n v : le_val (le_bytes n v) = v mod 2 ^ (8 * Z.of_nat n).
Proof.
  revert v. induction n as [|n IH]; intros v; simpl; [by rewrite Z.mod_1_r |].
  rewrite IH, Z.shiftr_div_pow2 by lia.
  replace (8 * Z.of_nat (S n)) with (8 + 8 * Z.of_nat n) by lia.
  rewrite Z.pow_add_r by lia. unfold u8. rewrite Z.rem_mul_r by lia. done.
Qed.

Lemma le_bytes_mod n v : le_bytes n (v mod 2 ^ (8 * Z.of_nat n)) = le_bytes n v.
Proof.
  rewrite <- le_val_bytes. rewrite <- (le_bytes_length n v) at 1.
  apply le_bytes_val, le_bytes_is_byte.
Qed.

Lemma le_val_take j l : Forall is_byte l -> (j <= length l)%nat ->
  le_val (take j l) = le_val l mod 2 ^ (8 * Z.of_nat j).
Proof.
  intros Hl Hj. rewrite <- (take_drop j l) at 2. rewrite le_val_app.
  rewrite length_take, Nat.min_l by done.
  rewrite (Z.mul_comm (2 ^ _)), Z.mod_add by lia. symmetry. apply Z.mod_small.
  pose proof (le_val_bound (take j l) (Forall_take _ _ _ Hl)) as H.
  by rewrite length_take, Nat.min_l in H by done.
Qed.

Lemma le_val_drop j l : Forall is_byte l -> (j <= length l)%nat ->
  le_val (drop j l) = Z.shiftr (le_val l) (8 * Z.of_nat j).
Proof.
  intros Hl Hj. rewrite Z.shiftr_div_pow2 by lia.
  rewrite <- (take_drop j l) at 2. rewrite le_val_app, length_take, Nat.min_l by done.
  rewrite (Z.mul_comm (2 ^ _)), Z.div_add by lia. rewrite Z.div_small; [lia |].
  pose proof (le_val_bound (take j l) (Forall_take _ _ _ Hl)) as H.
  by rewrite length_take, Nat.min_l in H by done.
Qed.

Lemma le_bytes_app a b v :
  le_bytes (a + b) v = le_bytes a v ++ le_bytes b (Z.shiftr v (8 * Z.of_nat a)).
Proof.
  revert v. induction a as [|a IH]; intros v; simpl.
  - by rewrite Z.shiftr_0_r.
  - rewrite IH. do 3 f_equal. rewrite Z.shiftr_shiftr by lia. f_equal. lia.
Qed.

Lemma le_bytes_take j l : Forall is_byte l -> (j <= length l)%nat ->
  le_bytes j (le_val l) = take j l.
Proof.
  intros Hl Hj. rewrite <- (le_bytes_val l) at 2 by done.
  replace (length l) with (j + (length l - j))%nat by lia.
  rewrite le_bytes_app, take_app_length'; [done | by rewrite le_bytes_length].
Qed.

(** Shifting a word in above the bytes that are already there. *)
Lemma le_val_shiftl_lor n l xs :
  Forall is_byte l -> Forall is_byte xs -> (length l <= n)%nat -> length xs = n ->
  Z.lor (Z.shiftl (le_val xs) (8 * zlen l) mod 2 ^ (8 * Z.of_nat n)) (le_val l)
  = le_val (l ++ take (n - length l) xs).
Proof.
  intros Hl Hxs Hn Hlen. pose proof (le_val_bound l Hl) as Hb.
  rewrite le_val_app, le_val_take by (done || lia).
  rewrite Z.lor_comm, Z.shiftl_mul_pow2 by lia.
  replace (8 * Z.of_nat n) with (8 * Z.of_nat (n - length l) + 8 * zlen l) by lia.
  rewrite Z.pow_add_r, Z.mul_mod_distr_r by lia.
  rewrite <- Z.shiftl_mul_pow2, lor_shiftl_add by lia. lia.
Qed.

Lemma le_bytes_pad l n : Forall is_byte l -> (length l <= n)%nat ->
  le_bytes n (le_val l) = l ++ le_bytes (n - length l) 0.
Proof.
  intros Hl Hn. replace n with (length l + (n - length l))%nat at 1 by lia.
  rewrite le_bytes_app, le_bytes_val by done. do 2 f_equal.
  pose proof (le_val_bound l Hl). rewrite Z.shiftr_div_pow2 by lia. by apply Z.div_small.
Qed.

(** ** Arrays

    An array is the list of its elements; an index outside of it traps. *)
Definition geti {A} (l : list A) (i : Z) : res A :=
  if i <? 0 then Trap (TrapOob i)
  else match l !! Z.to_nat i with Some v => Ok v | None => Trap (TrapOob i) end.

Definition seti {A} (l : list A) (i : Z) (v : A) : res (list A) :=
  if (0 <=? i) && (i <? zlen l) then Ok (<[Z.to_nat i := v]> l) else Trap (TrapOob i).

Lemma geti_ok {A} (l : list A) i v : 0 <= i -> l !! Z.to_nat i = Some v -> geti l i = Ok v.
Proof. intros Hi Hv. unfold geti. destruct (Z.ltb_spec i 0); [lia |]. by rewrite Hv. Qed.

Lemma geti_inv {A} (l : list A) i v : geti l i = Ok v -> 0 <= i < zlen l /\ l !! Z.to_nat i = Some v.
Proof.
  unfold geti. destruct (Z.ltb_spec i 0); [done |]. destruct (l !! _) eqn:Hv; [| done].
  intros [= ->]. apply lookup_lt_Some in Hv as ?. split; [lia | done].
Qed.

Lemma geti_in {A} (l : list A) i : 0 <= i < zlen l -> exists v, geti l i = Ok v /\ l !! Z.to_nat i = Some v.
Proof.
  intros Hi. destruct (lookup_lt_is_Some_2 l (Z.to_nat i)) as [v Hv]; [lia |].
  exists v. split; [by apply geti_ok; [lia |] | done].
Qed.

Lemma seti_ok {A} (l : list A) i v : 0 <= i < zlen l -> seti l i v = Ok (<[Z.to_nat i := v]> l).
Proof.
  intros Hi. unfold seti. assert ((0 <=? i) = true) as -> by zb.
  by assert ((i <? zlen l) = true) as -> by zb.
Qed.

(** ** Loops over a fixed range: [for (i = a; i < b; ++i)] *)
Fixpoint foldM {A B} (f : A -> B -> res A) (a : A) (l : list B) : res A :=
  match l with [] => Ok a | b :: l => a ← f a b; foldM f a l end.

Definition range (a b : Z) : list Z := seqZ a (b - a).

Lemma foldM_app {A B} (f : A -> B -> res A) a l1 l2 :
  foldM f a (l1 ++ l2) = (a ← foldM f a l1; foldM f a l2).
Proof.
  revert a. induction l1 as [|b l1 IH]; intros a; [done |]. simpl.
  destruct (f a b); simpl; [apply IH | done].
Qed.

(** The invariant rule for [for] loops. *)
Lemma foldM_range {A} (I : Z -> A -> Prop) (f : A -> Z -> res A) a lo hi :
  lo <= hi -> I lo a ->
  (forall i x, lo <= i < hi -> I i x -> exists y, f x i = Ok y /\ I (i + 1) y) ->
  exists z, foldM f a (range lo hi) = Ok z /\ I hi z.
Proof.
  unfold range. intros Hle. remember (Z.to_nat (hi - lo)) as n eqn:Hn.
  revert lo a Hle Hn. induction n as [|n IH]; intros lo a Hle Hn Ha Hstep.
  - rewrite seqZ_nil by lia. exists a. replace hi with lo by lia. done.
  - rewrite seqZ_cons by lia. simpl. destruct (Hstep lo a ltac:(lia) Ha) as (y & -> & Hy). simpl.
    replace (Z.succ lo) with (lo + 1) by lia. replace (Z.pred (hi - lo)) with (hi - (lo + 1)) by lia.
    apply IH; [lia | lia | done |]. intros i x Hi. apply Hstep. lia.
Qed.
