(* ===== verification/Cmem.v ===== *)
(** * Byte-addressed memory

    The decompressors work on raw pointers into buffers that overlap and that
    they read and write with different access sizes.  Memory is a finite map
    from addresses to bytes: an address is accessible when it is in the domain,
    and an access outside of the domain, or a word access at an address that is
    not a multiple of the word's size, traps. *)
From stdpp Require Export zmap.
From S2P Require Export Prelude.

Abbreviation mem := (Zmap Z).

(** ** Accesses *)
Definition ld8 (m : mem) (a : Z) : res Z :=
  match m !! a with Some v => Ok v | None => Trap (TrapOob a) end.

Definition st8 (m : mem) (a v : Z) : res mem :=
  match m !! a with Some _ => Ok (<[a := u8 v]> m) | None => Trap (TrapOob a) end.

Fixpoint ld (n : nat) (m : mem) (a : Z) : res (list Z) :=
  match n with
  | O => Ok []
  | S n => b ← ld8 m a; l ← ld n m (a + 1); Ok (b :: l)
  end.

Fixpoint st (m : mem) (a : Z) (l : list Z) : res mem :=
  match l with
  | [] => Ok m
  | b :: l => m ← st8 m a b; st m (a + 1) l
  end.

(** Dereference of a pointer to an [n]-byte little-endian word; C requires alignment. *)
Definition ldw (n : nat) (m : mem) (a : Z) : res Z :=
  if a mod Z.of_nat n =? 0 then l ← ld n m a; Ok (le_val l) else Trap (TrapAlign a).

Definition stw (n : nat) (m : mem) (a v : Z) : res mem :=
  if a mod Z.of_nat n =? 0 then st m a (le_bytes n v) else Trap (TrapAlign a).

(** [memcpy] takes the whole source before it writes, as the one load and one
    store do that the compiler emits for the fixed size used in this code. *)
Definition memcpy (m : mem) (dest src len : Z) : res mem :=
  l ← ld (Z.to_nat len) m src; st m dest l.

Definition memset (m : mem) (dest c len : Z) : res mem :=
  st m dest (replicate (Z.to_nat len) (u8 c)).

(** ** Views of memory *)
Definition accessible (m : mem) (a n : Z) : Prop :=
  forall x, a <= x < a + n -> is_Some (m !! x).

Definition mem_ok (m : mem) : Prop := forall a v, m !! a = Some v -> is_byte v.

Definition bytes_at (m : mem) (a : Z) (l : list Z) : Prop :=
  forall i, (i < length l)%nat -> m !! (a + Z.of_nat i) = l !! i.

(** The same addresses are accessible. *)
Definition same_dom (m m' : mem) : Prop := forall x, is_Some (m !! x) <-> is_Some (m' !! x).

(** Only [lo, hi) may differ. *)
Definition frame (m m' : mem) (lo hi : Z) : Prop :=
  forall x, ~ (lo <= x < hi) -> m' !! x = m !! x.

(** A memory that holds one buffer, and two disjoint buffers side by side. *)
Fixpoint mem_of (a : Z) (l : list Z) : mem :=
  match l with [] => ∅ | b :: l => <[a := b]> (mem_of (a + 1) l) end.

(** ** Lemmas *)
Lemma same_dom_refl m : same_dom m m.
Proof. done. Qed.
Lemma same_dom_trans m1 m2 m3 : same_dom m1 m2 -> same_dom m2 m3 -> same_dom m1 m3.
Proof. intros H1 H2 x. rewrite (H1 x). apply H2. Qed.
Lemma accessible_same_dom m m' a n : same_dom m m' -> accessible m a n -> accessible m' a n.
Proof. intros H Ha x Hx. by apply H, Ha. Qed.
Lemma accessible_sub m a n a' n' :
  accessible m a n -> a <= a' -> a' + n' <= a + n -> accessible m a' n'.
Proof. intros H ? ? x Hx. apply H. lia. Qed.
Lemma frame_refl m lo hi : frame m m lo hi.
Proof. done. Qed.
Lemma frame_trans m1 m2 m3 lo hi : frame m1 m2 lo hi -> frame m2 m3 lo hi -> frame m1 m3 lo hi.
Proof. intros H1 H2 x Hx. rewrite H2, H1 by done. done. Qed.
Lemma frame_weaken m1 m2 lo hi lo' hi' :
  frame m1 m2 lo hi -> lo' <= lo -> hi <= hi' -> frame m1 m2 lo' hi'.
Proof. intros H ? ? x Hx. apply H. lia. Qed.
#[export] Hint Resolve same_dom_refl frame_refl : word.

Lemma ld8_ok m a v : ld8 m a = Ok v <-> m !! a = Some v.
Proof. unfold ld8. destruct (m !! a); naive_solver. Qed.

Lemma ld8_eq m a v : m !! a = Some v -> ld8 m a = Ok v.
Proof. apply ld8_ok. Qed.

Lemma st8_ok m a v : is_Some (m !! a) -> st8 m a v = Ok (<[a := u8 v]> m).
Proof. intros [w Hw]. unfold st8. by rewrite Hw. Qed.

Lemma ld_inv n m a l : ld n m a = Ok l -> length l = n /\ bytes_at m a l.
Proof.
  revert a l. induction n as [|n IH]; simpl; intros a l H.
  - injection H as <-. split; [done |]. intros i Hi. simpl in Hi. lia.
  - apply bind_ok in H as (b & Hb & H). apply bind_ok in H as (l' & Hl & H).
    injection H as <-. apply ld8_ok in Hb. apply IH in Hl as [Hlen Hat].
    split; [simpl; lia |]. intros [|i] Hi.
    + by rewrite Z.add_0_r.
    + simpl in *. rewrite <- Hat by lia. f_equal. lia.
Qed.

Lemma ld_ok n m a : accessible m a (Z.of_nat n) ->
  exists l, ld n m a = Ok l /\ length l = n /\ bytes_at m a l.
Proof.
  revert a. induction n as [|n IH]; intros a Ha.
  - exists []. split; [done |]. split; [done |]. intros i Hi. simpl in Hi. lia.
  - destruct (Ha a ltac:(lia)) as [b Hb].
    destruct (IH (a + 1)) as (l & Hl & Hlen & Hat).
    { eapply accessible_sub; [exact Ha | lia | lia]. }
    exists (b :: l). simpl. unfold ld8. rewrite Hb. simpl. rewrite Hl. simpl.
    split; [done |]. split; [lia |]. intros [|i] Hi.
    + by rewrite Z.add_0_r.
    + simpl in *. rewrite <- Hat by lia. f_equal. lia.
Qed.

Lemma ld_bytes_at m a l : bytes_at m a l -> ld (length l) m a = Ok l.
Proof.
  revert a. induction l as [|b l IH]; intros a H; [done |]. simpl.
  pose proof (H 0%nat ltac:(simpl; lia)) as H0. rewrite Z.add_0_r in H0. simpl in H0.
  unfold ld8. rewrite H0. simpl. rewrite IH; [done |].
  intros i Hi. pose proof (H (S i) ltac:(simpl; lia)) as HS. simpl in HS. rewrite <- HS.
  f_equal. lia.
Qed.

Lemma bytes_at_is_byte m a l : mem_ok m -> bytes_at m a l -> Forall is_byte l.
Proof.
  intros Hm H. apply Forall_lookup. intros i b Hib.
  apply (Hm (a + Z.of_nat i)). rewrite <- Hib. apply H. by eapply lookup_lt_Some.
Qed.

(** What a run of stores leaves behind. *)
Lemma st_ok m a l : accessible m a (zlen l) -> Forall is_byte l ->
  exists m', st m a l = Ok m' /\ bytes_at m' a l /\ frame m m' a (a + zlen l).
Proof.
  revert m a. induction l as [|b l IH]; intros m a Ha Hl.
  - exists m. split; [done |]. split; [intros i Hi; simpl in Hi; lia | done].
  - apply Forall_cons_1 in Hl as [Hb Hl].
    destruct (IH (<[a := u8 b]> m) (a + 1)) as (m' & Hst & Hat & Hfr).
    { intros x Hx. rewrite lookup_insert_ne by lia. apply Ha. simpl. lia. }
    { done. }
    exists m'. simpl. rewrite st8_ok by (apply Ha; simpl; lia). simpl.
    split; [done |]. split.
    + intros [|i] Hi; simpl in *.
      * rewrite Z.add_0_r, Hfr by lia. rewrite lookup_insert_eq, u8_small by done. done.
      * rewrite <- Hat by lia. f_equal. lia.
    + intros x Hx. simpl in Hx. rewrite Hfr by lia. by rewrite lookup_insert_ne by lia.
Qed.

Lemma st_frame_dom m m' a l :
  accessible m a (zlen l) -> bytes_at m' a l -> frame m m' a (a + zlen l) -> same_dom m m'.
Proof.
  intros Ha Hat Hfr x. destruct (decide (a <= x < a + zlen l)) as [Hx | Hx].
  - split; intros _; [| by apply Ha].
    replace x with (a + Z.of_nat (Z.to_nat (x - a))) by lia.
    rewrite Hat by lia. apply lookup_lt_is_Some. lia.
  - by rewrite Hfr by lia.
Qed.

Lemma st_frame_mem_ok m m' a l :
  mem_ok m -> Forall is_byte l -> bytes_at m' a l -> frame m m' a (a + zlen l) -> mem_ok m'.
Proof.
  intros Hm Hl Hat Hfr x v Hv. destruct (decide (a <= x < a + zlen l)) as [Hx | Hx].
  - replace x with (a + Z.of_nat (Z.to_nat (x - a))) in Hv by lia.
    rewrite Hat in Hv by lia. by eapply Forall_lookup_1 in Hv.
  - rewrite Hfr in Hv by lia. by apply Hm in Hv.
Qed.

Lemma bytes_at_app m a l1 l2 :
  bytes_at m a (l1 ++ l2) <-> bytes_at m a l1 /\ bytes_at m (a + zlen l1) l2.
Proof.
  split.
  - intros H. split; intros i Hi.
    + rewrite H by (rewrite length_app; lia). by rewrite lookup_app_l by lia.
    + replace (a + zlen l1 + Z.of_nat i) with (a + Z.of_nat (length l1 + i)) by lia.
      rewrite H by (rewrite length_app; lia). rewrite lookup_app_r by lia. f_equal. lia.
  - intros [H1 H2] i Hi. rewrite length_app in Hi.
    destruct (decide (i < length l1)%nat).
    + rewrite H1 by lia. by rewrite lookup_app_l by lia.
    + rewrite lookup_app_r by lia. rewrite <- H2 by lia. f_equal. lia.
Qed.

Lemma bytes_at_frame m m' lo hi a l :
  frame m m' lo hi -> bytes_at m a l -> a + zlen l <= lo \/ hi <= a -> bytes_at m' a l.
Proof. intros Hf Hb Hd i Hi. rewrite Hf by lia. by apply Hb. Qed.

Lemma bytes_at_inj m a l1 l2 :
  bytes_at m a l1 -> bytes_at m a l2 -> length l1 = length l2 -> l1 = l2.
Proof.
  intros H1 H2 Hlen. apply list_eq_same_length with (length l1); [done | done |].
  intros i x y Hi Hx Hy. rewrite <- H1 in Hx by lia. rewrite <- H2 in Hy by lia. congruence.
Qed.

(** Word accesses. *)
Lemma ldw_aligned n m a : a mod Z.of_nat n = 0 -> ldw n m a = (l ← ld n m a; Ok (le_val l)).
Proof. intros H. unfold ldw. by rewrite H. Qed.

Lemma stw_aligned n m a v : a mod Z.of_nat n = 0 -> stw n m a v = st m a (le_bytes n v).
Proof. intros H. unfold stw. by rewrite H. Qed.

Lemma ldw_ok n m a : accessible m a (Z.of_nat n) -> a mod Z.of_nat n = 0 ->
  exists l, ldw n m a = Ok (le_val l) /\ length l = n /\ bytes_at m a l.
Proof.
  intros Ha Hal. unfold ldw. rewrite Hal. simpl.
  destruct (ld_ok n m a Ha) as (l & -> & ? & ?). eauto.
Qed.

Lemma stw_ok n m a v : accessible m a (Z.of_nat n) -> a mod Z.of_nat n = 0 ->
  exists m', stw n m a v = Ok m' /\ bytes_at m' a (le_bytes n v) /\ frame m m' a (a + Z.of_nat n).
Proof.
  intros Ha Hal. unfold stw. rewrite Hal. simpl.
  destruct (st_ok m a (le_bytes n v)) as (m' & -> & Hat & Hfr);
    [by rewrite le_bytes_length | apply le_bytes_is_byte |].
  rewrite le_bytes_length in Hfr. eauto.
Qed.

Lemma ldw_1 m a : ldw 1 m a = ld8 m a.
Proof.
  unfold ldw. change (Z.of_nat 1) with 1. rewrite Z.mod_1_r. simpl.
  destruct (ld8 m a); simpl; [| done]. by rewrite Z.mul_0_r, Z.add_0_r.
Qed.

Lemma u8_idemp v : u8 (u8 v) = u8 v.
Proof. apply u8_small, u8_range. Qed.

Lemma stw_1 m a v : stw 1 m a v = st8 m a v.
Proof.
  unfold stw. change (Z.of_nat 1) with 1. rewrite Z.mod_1_r. simpl.
  unfold st8. destruct (m !! a); simpl; [| done]. by rewrite u8_idemp.
Qed.

Lemma move_byte {A} m p hi (k : mem -> res A) :
  (w ← ldw 1 m p; m ← stw 1 m hi w; k m) = (b ← ld8 m p; m ← st8 m hi b; k m).
Proof. rewrite ldw_1. destruct (ld8 m p); simpl; [by rewrite stw_1 | done]. Qed.

Lemma bytes_at_cons m a b l :
  bytes_at m a (b :: l) <-> m !! a = Some b /\ bytes_at m (a + 1) l.
Proof.
  change (b :: l) with ([b] ++ l). rewrite bytes_at_app. simpl.
  change (Z.of_nat 1) with 1. split; intros [H1 H2]; (split; [| done]).
  - pose proof (H1 0%nat ltac:(simpl; lia)) as H. by rewrite Z.add_0_r in H.
  - intros [|i] Hi; simpl in *; [by rewrite Z.add_0_r | lia].
Qed.

Lemma bytes_at_accessible m a l : bytes_at m a l -> accessible m a (zlen l).
Proof.
  intros H x Hx. replace x with (a + Z.of_nat (Z.to_nat (x - a))) by lia.
  rewrite H by lia. apply lookup_lt_is_Some. lia.
Qed.

Lemma mem_of_lookup a l x :
  mem_of a l !! x = if (a <=? x) && (x <? a + zlen l) then l !! Z.to_nat (x - a) else None.
Proof.
  revert a. induction l as [|b l IH]; intros a; simpl.
  - rewrite lookup_empty. by destruct (_ && _).
  - rewrite lookup_insert. case_decide as Hx.
    + subst. assert ((x <=? x) = true) as -> by zb.
      assert ((x <? x + Z.of_nat (S (length l))) = true) as -> by zb.
      simpl. by rewrite Z.sub_diag.
    + rewrite IH.
      destruct (Z.leb_spec (a + 1) x), (Z.leb_spec a x); simpl; try lia; [| done].
      destruct (Z.ltb_spec x (a + 1 + zlen l)), (Z.ltb_spec x (a + Z.of_nat (S (length l))));
        try lia; [| done].
      replace (Z.to_nat (x - a)) with (S (Z.to_nat (x - (a + 1)))) by lia. done.
Qed.

Lemma mem_of_bytes_at a l : bytes_at (mem_of a l) a l.
Proof.
  intros i Hi. rewrite mem_of_lookup.
  assert ((a <=? a + Z.of_nat i) = true) as -> by zb.
  assert ((a + Z.of_nat i <? a + zlen l) = true) as -> by zb.
  simpl. f_equal. lia.
Qed.

Lemma mem_of_ok a l : Forall is_byte l -> mem_ok (mem_of a l).
Proof.
  intros Hl x v. rewrite mem_of_lookup. destruct (_ && _); [| done].
  intros H. by eapply Forall_lookup_1 in H.
Qed.

Lemma mem_of_accessible a l x n : a <= x -> x + n <= a + zlen l -> accessible (mem_of a l) x n.
Proof.
  intros Hx Hn. eapply accessible_sub; [apply bytes_at_accessible, mem_of_bytes_at | lia | lia].
Qed.

(** A part of the buffer. *)
Lemma mem_of_sub a l1 l2 l3 x : x = a + zlen l1 -> bytes_at (mem_of a (l1 ++ l2 ++ l3)) x l2.
Proof.
  intros ->. pose proof (mem_of_bytes_at a (l1 ++ l2 ++ l3)) as H.
  apply bytes_at_app in H as [_ H]. by apply bytes_at_app in H as [H _].
Qed.

Lemma accessible_ld8 m a n x : mem_ok m -> accessible m a n -> a <= x < a + n ->
  exists v, ld8 m x = Ok v /\ m !! x = Some v /\ is_byte v.
Proof.
  intros Hok Ha Hx. destruct (Ha x Hx) as [v Hv]. exists v.
  split; [by apply ld8_eq |]. split; [done |]. by apply (Hok x).
Qed.
