(* ===== verification/Lzcommon.v ===== *)
(** * Copy primitives of the decompressors ([src/compression/lzcommon.c])

    [copy] moves [length] bytes with aligned 8-byte accesses whatever the
    alignment of its arguments; [lzcommon_literal_copy] and
    [lzcommon_match_copy] are the two routines that the decompressors call. *)
From S2P Require Export Cmem.

(** ** Definitions *)
Definition LZCOMMON_BLOCK : Z := 8.

(** [((u64)p + 7) & ~(u64)7] *)
Definition align_up8 (p : Z) : Z := Z.land (u64 (p + 7)) (u64 (Z.lnot 7)).
(** [(~(u64)p + 1) & 7], stored in a [u8] *)
Definition align_off (p : Z) : Z := u8 (Z.land (u64 (u64 (Z.lnot p) + 1)) 7).

(** [while (src64 < end) *dest64++ = *src64++;] *)
Fixpoint copy_words (fuel : nat) (m : mem) (dest64 src64 end_ : Z) : res mem :=
  if src64 <? end_ then
    match fuel with
    | O => Trap TrapFuel
    | S fuel =>
        x ← ldw 8 m src64;
        m ← stw 8 m dest64 x;
        copy_words fuel m (dest64 + 8) (src64 + 8) end_
    end
  else Ok m.

(** The branch for equal alignment: one access of each power of two up to the
    first aligned address, then whole words. *)
Definition copy_aligned (m : mem) (dest src src_align_off end_ length : Z) : res mem :=
  '(m, dest, src) ←
    (if flag src_align_off 1
     then b ← ld8 m src; m ← st8 m dest b; Ok (m, dest + 1, src + 1)
     else Ok (m, dest, src));
  '(m, dest, src) ←
    (if flag src_align_off 2
     then w ← ldw 2 m src; m ← stw 2 m dest w; Ok (m, dest + 2, src + 2)
     else Ok (m, dest, src));
  '(m, dest, src) ←
    (if flag src_align_off 4
     then w ← ldw 4 m src; m ← stw 4 m dest w; Ok (m, dest + 4, src + 4)
     else Ok (m, dest, src));
  copy_words (Z.to_nat length) m dest src end_.

(** The bytes of the source up to its first aligned address, gathered in
    [bits]; returns [(bits, shift, src)]. *)
Definition copy_load_prefix (m : mem) (src src_align_off : Z) : res (Z * Z * Z) :=
  let shift := 0 in
  let bits := 0 in
  '(bits, shift, src) ←
    (if flag src_align_off 1
     then b ← ld8 m src; Ok (Z.lor bits b, u8 (shift + 8), src + 1)
     else Ok (bits, shift, src));
  '(bits, shift, src) ←
    (if flag src_align_off 2
     then w ← ldw 2 m src; Ok (Z.lor bits (u64 (Z.shiftl w shift)), u8 (shift + 16), src + 2)
     else Ok (bits, shift, src));
  if flag src_align_off 4
  then w ← ldw 4 m src; Ok (Z.lor bits (u64 (Z.shiftl w shift)), u8 (shift + 32), src + 4)
  else Ok (bits, shift, src).

(** The low bytes of [bits] written up to the destination's first aligned
    address; returns [(m, bits, shift, dest)]. *)
Definition copy_store_prefix (m : mem) (dest dest_align_off bits shift : Z)
    : res (mem * Z * Z * Z) :=
  '(m, bits, shift, dest) ←
    (if flag dest_align_off 1
     then m ← st8 m dest (u8 bits); Ok (m, Z.shiftr bits 8, u8 (shift - 8), dest + 1)
     else Ok (m, bits, shift, dest));
  '(m, bits, shift, dest) ←
    (if flag dest_align_off 2
     then m ← stw 2 m dest (u16 bits); Ok (m, Z.shiftr bits 16, u8 (shift - 16), dest + 2)
     else Ok (m, bits, shift, dest));
  if flag dest_align_off 4
  then m ← stw 4 m dest (u32 bits); Ok (m, Z.shiftr bits 32, u8 (shift - 32), dest + 4)
  else Ok (m, bits, shift, dest).

(** The word loop of the unequal alignment; returns [(m, bits, dest64, src64)]. *)
Fixpoint copy_shift_words (fuel : nat) (m : mem) (dest64 src64 end_ shift bits : Z)
    : res (mem * Z * Z * Z) :=
  if src64 <? end_ then
    match fuel with
    | O => Trap TrapFuel
    | S fuel =>
        x ← ldw 8 m src64;
        let val := Z.lor (u64 (Z.shiftl x shift)) bits in
        m ← stw 8 m dest64 val;
        copy_shift_words fuel m (dest64 + 8) (src64 + 8) end_ shift (Z.shiftr x (64 - shift))
    end
  else Ok (m, bits, dest64, src64).

(** The branch for unequal alignment. *)
Definition copy_shifted (m : mem) (dest src src_align_off dest_align_off end_ dest_end length : Z)
    : res mem :=
  '(bits, shift, src) ← copy_load_prefix m src src_align_off;
  c_assert (Z.land src 7 =? 0);;
  let src64 := src in
  bits ← (if src_align_off <? dest_align_off
          then x ← ldw 8 m src64; Ok (Z.lor bits (u64 (Z.shiftl x shift)))
          else Ok bits);
  '(m, bits, shift, dest) ← copy_store_prefix m dest dest_align_off bits shift;
  c_assert (Z.land dest 7 =? 0);;
  let shift := Z.land shift 0x38 in
  c_assert (negb (shift =? 0));;
  '(bits, src64) ← (if src_align_off <? dest_align_off
                    then x ← ldw 8 m src64; Ok (Z.shiftr x (64 - shift), src64 + 8)
                    else Ok (bits, src64));
  '(m, bits, dest64, src64) ←
    copy_shift_words (Z.to_nat length) m dest src64 end_ shift bits;
  if (end_ - src64) / 8 <? (dest_end - dest64) / 8
  then stw 8 m dest64 bits
  else Ok m.

Definition copy (m : mem) (dest src length : Z) : res mem :=
  let end_ := align_up8 (src + length) in
  let dest_end := align_up8 (dest + length) in
  let src_align_off := align_off src in
  let dest_align_off := align_off dest in
  if src_align_off =? dest_align_off
  then copy_aligned m dest src src_align_off end_ length
  else copy_shifted m dest src src_align_off dest_align_off end_ dest_end length.

Definition lzcommon_literal_copy (m : mem) (dest src length : Z) : res mem :=
  if length <? LZCOMMON_BLOCK then memcpy m dest src LZCOMMON_BLOCK
  else copy m dest src length.

(** [while (length--) *dest++ = *src++;] *)
Fixpoint byte_copy (n : nat) (m : mem) (dest src : Z) : res mem :=
  match n with
  | O => Ok m
  | S n => b ← ld8 m src; m ← st8 m dest b; byte_copy n m (dest + 1) (src + 1)
  end.

Definition lzcommon_match_copy (m : mem) (dest dist length : Z) : res mem :=
  let src := dest - dist in
  if dist >=? length then lzcommon_literal_copy m dest src length
  else if dist =? 1 then b ← ld8 m src; memset m dest b length
  else byte_copy (Z.to_nat length) m dest src.

(** ** Alignment arithmetic *)
Lemma align_up8_spec p : 0 <= p -> p + 7 < 2 ^ 64 -> align_up8 p = 8 * ((p + 7) / 8).
Proof.
  intros Hp Hb. unfold align_up8. rewrite u64_small by lia.
  replace (u64 (Z.lnot 7)) with (Z.shiftl (Z.ones 61) 3) by reflexivity.
  transitivity (Z.shiftl (Z.shiftr (p + 7) 3) 3).
  - apply Z.bits_inj'; intros i Hi. rewrite Z.land_spec.
    destruct (Z.lt_ge_cases i 3).
    + rewrite !Z.shiftl_spec_low by lia. apply andb_false_r.
    + rewrite !Z.shiftl_spec by lia. rewrite Z.shiftr_spec by lia.
      rewrite Z.testbit_ones_nonneg by lia.
      destruct (Z.ltb_spec (i - 3) 61).
      * rewrite andb_true_r. f_equal. lia.
      * rewrite andb_false_r. replace (i - 3 + 3) with i by lia.
        symmetry. apply testbit_small with 64; lia.
  - rewrite Z.shiftr_div_pow2, Z.shiftl_mul_pow2 by lia. change (2 ^ 3) with 8. lia.
Qed.

Lemma align_off_spec p : align_off p = (- p) mod 8.
Proof.
  unfold align_off. change 7 with (2 ^ 3 - 1). rewrite land_ones_mod by lia.
  rewrite u8_small by dlia. unfold u64, Z.lnot. rewrite Z.add_mod_idemp_l by lia.
  replace (Z.pred (- p) + 1) with (- p) by lia.
  rewrite Z.mod_mod_divide; [done |].
  exists (2 ^ 61). reflexivity.
Qed.

Lemma land7 x : Z.land x 7 = x mod 8.
Proof. change 7 with (2 ^ 3 - 1). by rewrite land_ones_mod by lia. Qed.

(** [shift &= 0x38] after the two prefixes: the byte distance modulo a word. *)
Lemma shift_mask d : Z.land (u8 (8 * d)) 0x38 = 8 * (d mod 8).
Proof.
  replace (u8 (8 * d)) with (Z.shiftl (d mod 32) 3)
    by (rewrite Z.shiftl_mul_pow2 by lia; unfold u8; dlia).
  change 0x38 with (Z.shiftl 7 3). rewrite <- Z.shiftl_land, land7, Z.shiftl_mul_pow2 by lia.
  rewrite Z.mod_mod_divide by by exists 4. lia.
Qed.

(** ** What has been copied so far

    [m] is [m0] after the first [hi - dest] bytes of the destination have been
    written: those below [dest + len] are the source's bytes of [m0], and
    nothing outside of [dest, hi) has changed. *)
Record copied (m0 m : mem) (dest src len hi : Z) : Prop := {
  copied_data : forall x, dest <= x < hi -> x < dest + len -> m !! x = m0 !! (x - dest + src);
  copied_frame : frame m0 m dest hi;
  copied_dom : same_dom m0 m;
  copied_ok : mem_ok m;
}.

(** The destination does not start inside the source. *)
Definition no_overlap (dest src len : Z) : Prop := dest <= src \/ src + len <= dest.

Section Copied.
Context (m0 : mem) (dest src len : Z).
Hypothesis Hno : no_overlap dest src len.
Implicit Types m : mem.

Lemma copied_init : mem_ok m0 -> copied m0 m0 dest src len dest.
Proof. intros H. constructor; [lia | apply frame_refl | apply same_dom_refl | done]. Qed.

(** Storing the next bytes. *)
Lemma copied_st m hi l : copied m0 m dest src len hi ->
  dest <= hi -> accessible m0 hi (zlen l) -> Forall is_byte l ->
  (forall i, (i < length l)%nat -> hi + Z.of_nat i < dest + len ->
     l !! i = m0 !! (hi + Z.of_nat i - dest + src)) ->
  exists m', st m hi l = Ok m' /\ copied m0 m' dest src len (hi + zlen l).
Proof.
  intros [Hd Hf Hdom Hok] Hhi Hacc Hl Hdata.
  destruct (st_ok m hi l) as (m' & Hst & Hat & Hfr); [| done |].
  { by eapply accessible_same_dom. }
  exists m'. split; [done |]. constructor.
  - intros x Hx Hlt. destruct (decide (x < hi)).
    + rewrite Hfr by lia. apply Hd; lia.
    + replace x with (hi + Z.of_nat (Z.to_nat (x - hi))) by lia.
      rewrite Hat by lia. apply Hdata; lia.
  - eapply frame_trans; (eapply frame_weaken; [eassumption | lia | lia]).
  - eapply same_dom_trans; [exact Hdom |]. eapply st_frame_dom; eauto.
    by eapply accessible_same_dom.
  - eapply st_frame_mem_ok; eauto.
Qed.

(** Source bytes that have not been loaded yet are still the original ones. *)
Lemma copied_src m hi x : copied m0 m dest src len hi ->
  hi - dest <= x - src -> x < src + len -> m !! x = m0 !! x.
Proof.
  intros [Hd Hf Hdom Hok] Hp Hx. apply Hf. unfold no_overlap in Hno. lia.
Qed.

(** A load sees the source in the part that is ahead of the writes. *)
Lemma copied_ld m hi p n : copied m0 m dest src len hi ->
  accessible m0 p (Z.of_nat n) ->
  exists l, ld n m p = Ok l /\ length l = n /\ Forall is_byte l /\
    forall i, (i < n)%nat -> hi - dest <= p + Z.of_nat i - src ->
      p + Z.of_nat i < src + len -> l !! i = m0 !! (p + Z.of_nat i).
Proof.
  intros Hc Hacc.
  destruct (ld_ok n m p) as (l & Hl & Hlen & Hat).
  { eapply accessible_same_dom; [apply (copied_dom _ _ _ _ _ _ Hc) | done]. }
  exists l. repeat split; [done | done | |].
  - eapply bytes_at_is_byte; [apply (copied_ok _ _ _ _ _ _ Hc) | done].
  - intros i Hi Hp Hlt. rewrite <- Hat by lia. apply (copied_src _ hi); [done | lia | lia].
Qed.

(** A word moved from [p] to [hi]. *)
Lemma copied_word n m hi p : copied m0 m dest src len hi ->
  p - src = hi - dest -> dest <= hi ->
  hi mod Z.of_nat n = 0 -> p mod Z.of_nat n = 0 ->
  accessible m0 p (Z.of_nat n) -> accessible m0 hi (Z.of_nat n) ->
  exists x m', ldw n m p = Ok x /\ stw n m hi x = Ok m' /\
    copied m0 m' dest src len (hi + Z.of_nat n).
Proof.
  intros Hc Hp Hhi Ha1 Ha2 Hr Hw.
  destruct (copied_ld m hi p n) as (l & Hl & Hlen & Hb & Hdata); [done | done |].
  destruct (copied_st m hi l) as (m' & Hst & Hc'); [done | done | by rewrite Hlen | done | |].
  { intros i Hi Hlt. rewrite Hdata by lia. f_equal. lia. }
  exists (le_val l), m'. unfold ldw, stw. rewrite Ha1, Ha2, Hl. simpl.
  rewrite <- Hlen, le_bytes_val by done. by rewrite Hst.
Qed.
End Copied.

(** An alignment offset is the sum of the accesses made for its bits. *)
Lemma align_off_bits a : 0 <= a < 8 ->
  a = Z.b2z (flag a 1) + 2 * Z.b2z (flag a 2) + 4 * Z.b2z (flag a 4).
Proof.
  intros Ha.
  assert (a = 0 \/ a = 1 \/ a = 2 \/ a = 3 \/ a = 4 \/ a = 5 \/ a = 6 \/ a = 7) as Hc by lia.
  by decompose [or] Hc; subst.
Qed.

Section CopyProof.
Context (m0 : mem) (dest src len : Z).
Let E : Z := 8 * ((src + len + 7) / 8).
Let D : Z := 8 * ((dest + len + 7) / 8).
Hypothesis Hlen : 8 <= len.
Hypothesis Hno : no_overlap dest src len.
Hypothesis Hok : mem_ok m0.
Hypothesis Hsrc : accessible m0 src (E - src).
Hypothesis Hdest : accessible m0 dest (D - dest).

Let Cp (m : mem) (hi : Z) : Prop := copied m0 m dest src len hi.

Lemma copy_words_ok fuel m hi p : Cp m hi ->
  p - src = hi - dest -> p mod 8 = 0 -> hi mod 8 = 0 -> src <= p -> p <= E ->
  (E - p) / 8 <= Z.of_nat fuel ->
  exists m', copy_words fuel m hi p E = Ok m' /\ Cp m' (hi + (E - p)).
Proof.
  revert m hi p. induction fuel as [|fuel IH]; intros m hi p Hc Hp Ha1 Ha2 Hge Hle Hf.
  - assert (p = E) as -> by (subst E; dlia). exists m. simpl.
    rewrite Z.ltb_irrefl. split; [done |]. by replace (hi + (E - E)) with hi by lia.
  - simpl. destruct (Z.ltb_spec p E) as [Hlt | Hge'].
    + assert (p + 8 <= E) as HpE by (subst E; dlia).
      assert (hi + 8 <= D) as HhD by (subst D E; dlia).
      destruct (copied_word m0 dest src len Hno 8 m hi p) as (x & m' & Hx & Hm' & Hc');
        [done | done | lia | done | done | | |].
      { apply (accessible_sub _ _ _ p 8 Hsrc); lia. }
      { apply (accessible_sub _ _ _ hi 8 Hdest); lia. }
      rewrite Hx. simpl. rewrite Hm'. simpl.
      destruct (IH m' (hi + 8) (p + 8)) as (m'' & Hm'' & Hc'');
        [exact Hc' | lia | dlia | dlia | lia | lia | dlia |].
      exists m''. split; [done |]. by replace (hi + (E - p)) with (hi + 8 + (E - (p + 8))) by lia.
    + exists m. split; [done |]. replace (hi + (E - p)) with hi by lia. done.
Qed.

(** One conditional access of the alignment prefix. *)
Lemma copy_aligned_step n (f : bool) m hi p : Cp m hi ->
  p - src = hi - dest -> dest <= hi -> 0 < Z.of_nat n ->
  (f = true -> p mod Z.of_nat n = 0 /\ hi mod Z.of_nat n = 0) ->
  (f = true -> p + Z.of_nat n <= E /\ hi + Z.of_nat n <= D) ->
  exists m', (if f then w ← ldw n m p; m ← stw n m hi w;
                        Ok (m, hi + Z.of_nat n, p + Z.of_nat n)
              else Ok (m, hi, p))
    = Ok (m', hi + Z.of_nat n * Z.b2z f, p + Z.of_nat n * Z.b2z f)
    /\ Cp m' (hi + Z.of_nat n * Z.b2z f).
Proof.
  intros Hc Hp Hhi Hn Hal Hb. destruct f; simpl.
  - destruct Hal as [Ha1 Ha2]; [done |]. destruct Hb; [done |].
    destruct (copied_word m0 dest src len Hno n m hi p) as (x & m' & Hx & Hm' & Hc');
      [done | done | lia | done | done | | |].
    { apply (accessible_sub _ _ _ p (Z.of_nat n) Hsrc); lia. }
    { apply (accessible_sub _ _ _ hi (Z.of_nat n) Hdest); lia. }
    exists m'. rewrite Hx. simpl. rewrite Hm'. simpl. rewrite !Z.mul_1_r. done.
  - exists m. rewrite !Z.mul_0_r, !Z.add_0_r. done.
Qed.

Lemma copy_aligned_ok : (- src) mod 8 = (- dest) mod 8 ->
  exists m', copy_aligned m0 dest src ((- src) mod 8) E len = Ok m' /\ Cp m' D.
Proof.
  intros Heq. set (sa := (- src) mod 8) in *.
  assert (0 <= sa < 8) as Hsa by (subst sa; dlia).
  pose proof (align_off_bits sa Hsa) as Hbits. unfold copy_aligned.
  set (f1 := flag sa 1) in *; set (f2 := flag sa 2) in *; set (f4 := flag sa 4) in *.
  destruct (copy_aligned_step 1 f1 m0 dest src) as (m1 & H1 & C1);
    [by apply copied_init | lia | lia | lia | intros _; split; apply Z.mod_1_r
    | subst E D; intros _; dlia |].
  rewrite move_byte in H1. change (Z.of_nat 1) with 1 in H1. rewrite H1. clear H1. cbn [mbind res_bind].
  destruct (copy_aligned_step 2 f2 m1 (dest + 1 * Z.b2z f1) (src + 1 * Z.b2z f1))
    as (m2 & H2 & C2); [exact C1 | lia | destruct f1; simpl; lia | lia | | |].
  { intros ->. subst sa. destruct f1, f4; simpl in *; split; dlia. }
  { intros _. subst E D. destruct f1; simpl; dlia. }
  change (Z.of_nat 2) with 2 in H2. rewrite H2. clear H2. cbn [mbind res_bind].
  destruct (copy_aligned_step 4 f4 m2 (dest + 1 * Z.b2z f1 + 2 * Z.b2z f2)
    (src + 1 * Z.b2z f1 + 2 * Z.b2z f2)) as (m3 & H3 & C3);
    [exact C2 | lia | destruct f1, f2; simpl; lia | lia | | |].
  { intros ->. subst sa. destruct f1, f2; simpl in *; split; dlia. }
  { intros _. subst E D. destruct f1, f2; simpl; dlia. }
  change (Z.of_nat 4) with 4 in H3. rewrite H3. clear H3. cbn [mbind res_bind].
  destruct (copy_words_ok (Z.to_nat len) m3 (dest + sa) (src + sa)) as (m4 & H4 & C4).
  - replace (dest + sa) with (dest + 1 * Z.b2z f1 + 2 * Z.b2z f2 + 4 * Z.b2z f4) by lia. exact C3.
  - lia.
  - subst sa. dlia.
  - subst sa. dlia.
  - lia.
  - subst E. dlia.
  - subst E. dlia.
  - exists m4. split.
    + rewrite <- H4. f_equal; lia.
    + replace D with (dest + sa + (E - (src + sa))); [exact C4 |]. subst D E sa. dlia.
Qed.

(** [l] holds the source's bytes from [p] on, as far as they are source bytes. *)
Let src_bytes (l : list Z) (p : Z) : Prop :=
  forall i, (i < length l)%nat -> p + Z.of_nat i < src + len -> l !! i = m0 !! (p + Z.of_nat i).

Lemma src_bytes_app l1 l2 p :
  src_bytes l1 p -> src_bytes l2 (p + zlen l1) -> src_bytes (l1 ++ l2) p.
Proof.
  intros H1 H2 i Hi Hlt. rewrite length_app in Hi. destruct (decide (i < length l1)%nat).
  - rewrite lookup_app_l by lia. apply H1; lia.
  - rewrite lookup_app_r by lia. rewrite H2 by lia. f_equal. lia.
Qed.

Lemma src_bytes_take l p n : src_bytes l p -> src_bytes (take n l) p.
Proof.
  intros H i Hi Hlt. rewrite length_take in Hi. rewrite lookup_take_lt by lia. apply H; lia.
Qed.

Lemma src_bytes_drop l p n : src_bytes l p -> src_bytes (drop n l) (p + Z.of_nat n).
Proof.
  intros H i Hi Hlt. rewrite length_drop in Hi. rewrite lookup_drop. rewrite H by lia.
  f_equal. lia.
Qed.

(** One conditional load of the source's prefix. *)
Lemma copy_load_step n (f : bool) l : (0 < n)%nat -> Forall is_byte l -> src_bytes l src ->
  (f = true -> zlen l + Z.of_nat n <= 8 /\ (src + zlen l) mod Z.of_nat n = 0) ->
  (f = true -> src + zlen l + Z.of_nat n <= E) ->
  exists l', (if f then w ← ldw n m0 (src + zlen l);
                     Ok (Z.lor (le_val l) (u64 (Z.shiftl w (8 * zlen l))),
                         u8 (8 * zlen l + 8 * Z.of_nat n), src + zlen l + Z.of_nat n)
              else Ok (le_val l, 8 * zlen l, src + zlen l))
    = Ok (le_val l', 8 * zlen l', src + zlen l')
    /\ Forall is_byte l' /\ src_bytes l' src /\ zlen l' = zlen l + Z.of_nat n * Z.b2z f.
Proof.
  intros Hn Hl Hs Hal Hb. destruct f; simpl; [| exists l; repeat split; done || lia].
  destruct Hal as [H8 Hal]; [done |]. specialize (Hb eq_refl).
  destruct (ldw_ok n m0 (src + zlen l)) as (xs & Hx & Hxl & Hat);
    [apply (accessible_sub _ _ _ _ _ Hsrc); lia | done |].
  exists (l ++ xs). rewrite Hx. simpl.
  assert (Forall is_byte xs) as Hxs by by eapply bytes_at_is_byte.
  pose proof (le_val_bound l Hl). pose proof (le_val_bound xs Hxs) as Hxb.
  rewrite length_app, le_val_app.
  repeat split; [| by apply Forall_app_2 | | lia].
  - assert (Z.shiftl (le_val xs) (8 * zlen l) < 2 ^ 64).
    { rewrite Z.shiftl_mul_pow2 by lia.
      apply Z.lt_le_trans with (2 ^ (8 * zlen xs) * 2 ^ (8 * zlen l)).
      - apply Z.mul_lt_mono_pos_r; lia.
      - rewrite <- Z.pow_add_r by lia. apply Z.pow_le_mono_r; lia. }
    rewrite u64_small by (split; [apply Z.shiftl_nonneg; lia | done]).
    rewrite lor_shiftl_add by lia. rewrite u8_small by lia.
    do 2 f_equal; [f_equal; lia | lia].
  - apply src_bytes_app; [done |]. intros i Hi _. symmetry. by apply Hat.
Qed.

Lemma copy_load_byte (f : bool) : src + 1 <= E ->
  exists l, (if f then b ← ld8 m0 src; Ok (Z.lor 0 b, u8 (0 + 8), src + 1) else Ok (0, 0, src))
    = Ok (le_val l, 8 * zlen l, src + zlen l)
    /\ Forall is_byte l /\ src_bytes l src /\ zlen l = Z.b2z f.
Proof.
  intros HE. destruct f.
  - destruct (Hsrc src ltac:(lia)) as [b Hb]. exists [b]. unfold ld8. rewrite Hb. simpl.
    repeat split.
    + by rewrite Z.mul_0_r, Z.add_0_r.
    + constructor; [by apply (Hok src) | constructor].
    + intros [|i] Hi _; simpl in *; [by rewrite Z.add_0_r | lia].
  - exists []. simpl. rewrite Z.add_0_r. repeat split; [constructor |].
    intros i Hi. simpl in Hi. lia.
Qed.

Lemma copy_load_prefix_ok sa : 0 <= sa < 8 -> (src + sa) mod 8 = 0 ->
  exists l, copy_load_prefix m0 src sa = Ok (le_val l, 8 * sa, src + sa) /\
    Forall is_byte l /\ src_bytes l src /\ zlen l = sa.
Proof.
  intros Hsa Hal. pose proof (align_off_bits sa Hsa) as Hbits. unfold copy_load_prefix.
  set (f1 := flag sa 1) in *; set (f2 := flag sa 2) in *; set (f4 := flag sa 4) in *.
  destruct (copy_load_byte f1) as (l1 & -> & B1 & S1 & L1); [subst E; dlia |].
  cbn [mbind res_bind].
  destruct (copy_load_step 2 f2 l1) as (l2 & H2 & B2 & S2 & L2);
    [lia | done | done | | subst E; intros _; destruct f1; simpl in *; dlia |].
  { intros ->. destruct f1, f4; simpl in *; split; dlia. }
  change (8 * Z.of_nat 2) with 16 in H2. change (Z.of_nat 2) with 2 in H2, L2.
  rewrite H2. clear H2. cbn [mbind res_bind].
  destruct (copy_load_step 4 f4 l2) as (l4 & H4 & B4 & S4 & L4);
    [lia | done | done | | subst E; intros _; destruct f1, f2; simpl in *; dlia |].
  { intros ->. destruct f1, f2; simpl in *; split; dlia. }
  change (8 * Z.of_nat 4) with 32 in H4. change (Z.of_nat 4) with 4 in H4, L4.
  rewrite H4. exists l4. repeat split; [| done | done | lia].
  do 2 f_equal; [f_equal |]; lia.
Qed.

(** One conditional store of the destination's prefix. *)
Lemma copy_store_step n (f : bool) m hi L p shift : Cp m hi -> (0 < n)%nat ->
  hi - dest = p - src -> dest <= hi -> Forall is_byte L -> src_bytes L p ->
  (f = true -> (n <= length L)%nat /\ hi mod Z.of_nat n = 0 /\ hi + Z.of_nat n <= D) ->
  let k := Z.of_nat n * Z.b2z f in
  exists m', (if f then m ← stw n m hi (le_val L mod 2 ^ (8 * Z.of_nat n));
                     Ok (m, Z.shiftr (le_val L) (8 * Z.of_nat n),
                         u8 (u8 shift - 8 * Z.of_nat n), hi + Z.of_nat n)
              else Ok (m, le_val L, u8 shift, hi))
    = Ok (m', le_val (drop (Z.to_nat k) L), u8 (shift - 8 * k), hi + k) /\ Cp m' (hi + k).
Proof.
  intros Hc Hn Hp Hhi HL HsL Hf. destruct f; simpl.
  - destruct Hf as (Hlen' & Hal & HD); [done |]. rewrite Z.mul_1_r, Nat2Z.id.
    destruct (copied_st m0 dest src len m hi (take n L)) as (m' & Hst & Hc').
    + done.
    + done.
    + rewrite length_take, Nat.min_l by done. apply (accessible_sub _ _ _ _ _ Hdest); lia.
    + by apply Forall_take.
    + intros i Hi Hlt. rewrite (src_bytes_take L p n HsL i Hi) by lia. f_equal. lia.
    + rewrite length_take, Nat.min_l in Hc' by done.
      exists m'. unfold stw. rewrite Hal. simpl.
      rewrite le_bytes_mod, le_bytes_take by done. rewrite Hst. simpl.
      rewrite le_val_drop by done. split; [| done]. do 2 f_equal. f_equal.
      unfold u8. by rewrite Zminus_mod_idemp_l.
  - exists m. rewrite Z.mul_0_r, Z.add_0_r, Z.sub_0_r. simpl. done.
Qed.

Lemma copy_store_prefix_ok da L shift : 0 <= da < 8 -> (dest + da) mod 8 = 0 ->
  Forall is_byte L -> src_bytes L src -> da <= zlen L ->
  exists m', copy_store_prefix m0 dest da (le_val L) (u8 shift)
    = Ok (m', le_val (drop (Z.to_nat da) L), u8 (shift - 8 * da), dest + da) /\ Cp m' (dest + da).
Proof.
  intros Hda Hal HL HsL HlenL. pose proof (align_off_bits da Hda) as Hbits.
  unfold copy_store_prefix.
  set (f1 := flag da 1) in *; set (f2 := flag da 2) in *; set (f4 := flag da 4) in *.
  destruct (copy_store_step 1 f1 m0 dest L src shift) as (m1 & H1 & C1);
    [by apply copied_init | lia | lia | lia | done | done | |].
  { intros ->. rewrite Z.mod_1_r. subst D. destruct f2, f4; simpl in *; dlia. }
  rewrite stw_1 in H1. change (8 * Z.of_nat 1) with 8 in H1. change (Z.of_nat 1) with 1 in H1, C1.
  change (le_val L mod 2 ^ 8) with (u8 (le_val L)) in H1.
  rewrite H1. clear H1. cbn [mbind res_bind].
  pose proof (b2z_01 f1) as Hf1. pose proof (b2z_01 f2) as Hf2. pose proof (b2z_01 f4) as Hf4.
  set (k1 := 1 * Z.b2z f1) in *. set (L1 := drop (Z.to_nat k1) L).
  assert (0 <= k1) as Hk1 by lia.
  assert (src_bytes L1 (src + k1)) as HsL1.
  { replace (src + k1) with (src + Z.of_nat (Z.to_nat k1)) by lia. by apply src_bytes_drop. }
  assert (zlen L1 = zlen L - k1) as HL1 by (subst L1; rewrite length_drop; lia).
  destruct (copy_store_step 2 f2 m1 (dest + k1) L1 (src + k1) (shift - 8 * k1)) as (m2 & H2 & C2);
    [done | lia | lia | lia | by apply Forall_drop | done | |].
  { intros Ef. subst k1 D. rewrite Ef in *. destruct f1, f4; simpl in *; dlia. }
  change (8 * Z.of_nat 2) with 16 in H2. change (Z.of_nat 2) with 2 in H2, C2.
  change (le_val L1 mod 2 ^ 16) with (u16 (le_val L1)) in H2.
  rewrite H2. clear H2. cbn [mbind res_bind].
  set (k2 := 2 * Z.b2z f2) in *. set (L2 := drop (Z.to_nat k2) L1).
  assert (0 <= k2) as Hk2 by lia.
  assert (src_bytes L2 (src + k1 + k2)) as HsL2.
  { replace (src + k1 + k2) with (src + k1 + Z.of_nat (Z.to_nat k2)) by lia. by apply src_bytes_drop. }
  assert (zlen L2 = zlen L1 - k2) as HL2.
  { subst L2. rewrite length_drop. lia. }
  destruct (copy_store_step 4 f4 m2 (dest + k1 + k2) L2 (src + k1 + k2) (shift - 8 * k1 - 8 * k2))
    as (m4 & H4 & C4); [done | lia | lia | lia | by apply Forall_drop, Forall_drop | done | |].
  { intros Ef. subst k1 k2 D. rewrite Ef in *. destruct f1, f2; simpl in *; dlia. }
  change (8 * Z.of_nat 4) with 32 in H4. change (Z.of_nat 4) with 4 in H4, C4.
  change (le_val L2 mod 2 ^ 32) with (u32 (le_val L2)) in H4.
  rewrite H4. set (k4 := 4 * Z.b2z f4) in *. exists m4.
  assert (0 <= k4) as Hk4 by lia.
  replace (dest + k1 + k2 + k4) with (dest + da) in * by lia. split; [| done].
  subst L2 L1. rewrite !drop_drop. do 2 f_equal. f_equal; [f_equal |].
  - do 2 f_equal. lia.
  - f_equal. lia.
Qed.

(** The word loop carries [k] loaded bytes that are not written yet. *)
Lemma copy_shift_words_ok fuel m hi p l k : Cp m hi ->
  zlen l = k -> 0 < k < 8 -> Forall is_byte l -> src_bytes l (p - k) ->
  p - k - src = hi - dest -> p mod 8 = 0 -> hi mod 8 = 0 -> dest <= hi -> p <= E ->
  (E - p) / 8 <= Z.of_nat fuel ->
  exists m' l', copy_shift_words fuel m hi p E (8 * k) (le_val l)
      = Ok (m', le_val l', hi + (E - p), E) /\
    Cp m' (hi + (E - p)) /\ zlen l' = k /\ Forall is_byte l' /\ src_bytes l' (E - k).
Proof.
  revert m hi p l. induction fuel as [|fuel IH];
    intros m hi p l Hc Hk Hk8 Hl Hs Hp Ha1 Ha2 Hhi Hle Hf.
  - assert (p = E) as -> by (subst E; dlia). exists m, l. simpl.
    rewrite Z.ltb_irrefl. replace (hi + (E - E)) with hi by lia. done.
  - simpl. destruct (Z.ltb_spec p E) as [Hlt | Hge].
    2: { assert (p = E) as -> by lia. exists m, l. replace (hi + (E - E)) with hi by lia. done. }
    assert (p + 8 <= E) as HpE by (subst E; dlia).
    assert (hi + 8 <= D) as HhD by (subst D E; dlia).
    destruct (copied_ld m0 dest src len Hno m hi p 8) as (xs & Hx & Hxl & Hxb & Hxd);
      [done | apply (accessible_sub _ _ _ _ _ Hsrc); lia |].
    rewrite (ldw_aligned 8) by done. rewrite Hx. simpl.
    change (u64 (Z.shiftl (le_val xs) (8 * k)))
      with (Z.shiftl (le_val xs) (8 * k) mod 2 ^ (8 * Z.of_nat 8)).
    rewrite <- Hk, le_val_shiftl_lor by (done || lia). rewrite (stw_aligned 8) by done.
    assert (src_bytes xs p) as Hsx by (intros i Hi Hlt'; apply Hxd; lia).
    set (L := l ++ take (8 - length l) xs).
    assert (length L = 8)%nat as HL by (subst L; rewrite length_app, length_take; lia).
    assert (Forall is_byte L) as HLb by (apply Forall_app_2; [done | by apply Forall_take]).
    rewrite le_bytes_val_n by done.
    destruct (copied_st m0 dest src len m hi L) as (m' & Hst & Hc'); [done | done | | done | |].
    { rewrite HL. apply (accessible_sub _ _ _ _ _ Hdest); lia. }
    { intros i Hi Hlt'. assert (src_bytes L (p - k)) as HsL.
      { apply src_bytes_app; [done |]. apply src_bytes_take. by replace (p - k + zlen l) with p by lia. }
      rewrite HsL by lia. f_equal. lia. }
    rewrite Hst. simpl. rewrite HL in Hc'.
    replace (64 - 8 * zlen l) with (8 * Z.of_nat (8 - length l)) by lia.
    rewrite <- le_val_drop by (done || lia).
    destruct (IH m' (hi + 8) (p + 8) (drop (8 - length l) xs))
      as (m'' & l'' & Hr & Hc'' & Hk'' & Hb'' & Hs'');
      [exact Hc' | rewrite length_drop; lia | lia | by apply Forall_drop | | lia | dlia | dlia | lia | lia | dlia |].
    { replace (p + 8 - k) with (p + Z.of_nat (8 - length l)) by lia. by apply src_bytes_drop. }
    exists m'', l''. rewrite Hk, Hr. replace (hi + 8 + (E - (p + 8))) with (hi + (E - p)) in * by lia. done.
Qed.

(** The tail of the shifted copy: word loop and last partial word. *)
Lemma copy_shift_tail_ok m hi p l k : Cp m hi ->
  zlen l = k -> 0 < k < 8 -> Forall is_byte l -> src_bytes l (p - k) ->
  p - k - src = hi - dest -> p mod 8 = 0 -> hi mod 8 = 0 -> dest <= hi -> src <= p <= E ->
  exists m' hi', ('(m, bits, dest64, src64) ←
      copy_shift_words (Z.to_nat len) m hi p E (8 * k) (le_val l);
    if (E - src64) / 8 <? (D - dest64) / 8 then stw 8 m dest64 bits else Ok m) = Ok m' /\
    Cp m' hi' /\ dest + len <= hi' <= D.
Proof.
  intros Hc Hk Hk8 Hl Hs Hp Ha1 Ha2 Hhi Hle.
  destruct (copy_shift_words_ok (Z.to_nat len) m hi p l k) as (m' & l' & -> & Hc' & Hk' & Hb' & Hs');
    [done | done | done | done | done | done | done | done | done | lia | subst E; dlia |].
  cbn [mbind res_bind]. rewrite Z.sub_diag. set (hi' := hi + (E - p)) in *.
  assert (hi' mod 8 = 0) as Ha' by (subst hi' E; dlia).
  assert (hi' = dest + (E - k - src)) as Ehi by (subst hi'; lia).
  assert (dest <= hi') by (subst hi'; lia).
  assert (src + len <= E < src + len + 8) as HE by (subst E; dlia).
  clearbody hi' E.
  assert (hi' <= D) by (subst D; dlia).
  destruct (Z.ltb_spec (0 / 8) ((D - hi') / 8)) as [Hlt | Hge].
  - assert (hi' + 8 <= D) by (subst D; dlia).
    destruct (copied_st m0 dest src len m' hi' (le_bytes 8 (le_val l'))) as (m'' & Hst & Hc'').
    + done.
    + done.
    + rewrite le_bytes_length. apply (accessible_sub _ _ _ _ _ Hdest); lia.
    + apply le_bytes_is_byte.
    + intros i Hi Hlt'. rewrite le_bytes_pad by (done || lia).
      rewrite lookup_app_l by lia. rewrite Hs' by lia. f_equal. lia.
    + exists m'', (hi' + 8). rewrite (stw_aligned 8) by done. rewrite Hst.
      rewrite le_bytes_length in Hc''. split; [done |]. split; [exact Hc'' | lia].
  - exists m', hi'. split; [done |]. split; [done |]. subst D. dlia.
Qed.

Lemma copy_shifted_ok : (- src) mod 8 <> (- dest) mod 8 ->
  exists m' hi', copy_shifted m0 dest src ((- src) mod 8) ((- dest) mod 8) E D len = Ok m' /\
    Cp m' hi' /\ dest + len <= hi' <= D.
Proof.
  intros Hne. set (sa := (- src) mod 8) in *. set (da := (- dest) mod 8) in *.
  assert (0 <= sa < 8) as Hsa by (subst sa; dlia).
  assert (0 <= da < 8) as Hda by (subst da; dlia).
  assert ((src + sa) mod 8 = 0) as Hs8 by (subst sa; dlia).
  assert ((dest + da) mod 8 = 0) as Hd8 by (subst da; dlia).
  assert (src + 8 + sa <= E) as HE by (subst E; dlia).
  unfold copy_shifted.
  destruct (copy_load_prefix_ok sa) as (l1 & -> & B1 & S1 & L1); [done | done |].
  cbn [mbind res_bind]. rewrite land7, Hs8. cbn [c_assert Z.eqb mbind res_bind].
  destruct (Z.ltb_spec sa da) as [Hlt | Hge].
  - (* the source reaches its alignment first *)
    destruct (ldw_ok 8 m0 (src + sa)) as (xs & Hx & Hxl & Hat);
      [apply (accessible_sub _ _ _ _ _ Hsrc); lia | done |].
    assert (Forall is_byte xs) as Hxb by by eapply bytes_at_is_byte.
    rewrite Hx. cbn [mbind res_bind].
    rewrite Z.lor_comm, <- L1.
    change (u64 (Z.shiftl (le_val xs) (8 * zlen l1)))
      with (Z.shiftl (le_val xs) (8 * zlen l1) mod 2 ^ (8 * Z.of_nat 8)).
    rewrite le_val_shiftl_lor by (done || lia). rewrite L1.
    set (L := l1 ++ take (8 - length l1) xs).
    destruct (copy_store_prefix_ok da L (8 * sa)) as (m1 & H1 & C1); [done | done | | | |].
    { apply Forall_app_2; [done | by apply Forall_take]. }
    { apply src_bytes_app; [done |]. apply src_bytes_take. intros i Hi _. rewrite L1. symmetry. by apply Hat. }
    { subst L. rewrite length_app, length_take. lia. }
    rewrite u8_small in H1 by lia. rewrite H1. cbn [mbind res_bind].
    rewrite land7, Hd8. cbn [c_assert Z.eqb mbind res_bind].
    set (k := 8 + sa - da).
    replace (8 * sa - 8 * da) with (8 * (sa - da)) by lia. rewrite shift_mask.
    replace ((sa - da) mod 8) with k by (subst k; dlia).
    assert ((8 * k =? 0) = false) as -> by lia. cbn [c_assert negb mbind res_bind].
    destruct (copied_ld m0 dest src len Hno m1 (dest + da) (src + sa) 8)
      as (ys & Hy & Hyl & Hyb & Hyd); [done | apply (accessible_sub _ _ _ _ _ Hsrc); lia |].
    rewrite (ldw_aligned 8) by done. rewrite Hy. cbn [mbind res_bind].
    replace (64 - 8 * k) with (8 * Z.of_nat (Z.to_nat (da - sa))) by lia.
    rewrite <- le_val_drop by (done || lia).
    apply copy_shift_tail_ok; [done | rewrite length_drop; lia | lia | by apply Forall_drop
      | | lia | dlia | done | lia | lia].
    intros i Hi Hlt'. rewrite length_drop in Hi. rewrite lookup_drop, Hyd by lia. f_equal. lia.
  - (* the destination reaches its alignment first *)
    cbn [mbind res_bind].
    destruct (copy_store_prefix_ok da l1 (8 * sa)) as (m1 & H1 & C1); [done.. | lia |].
    rewrite u8_small in H1 by lia. rewrite H1. cbn [mbind res_bind].
    rewrite land7, Hd8. cbn [c_assert Z.eqb mbind res_bind].
    replace (8 * sa - 8 * da) with (8 * (sa - da)) by lia. rewrite shift_mask.
    replace ((sa - da) mod 8) with (sa - da) by dlia.
    assert ((8 * (sa - da) =? 0) = false) as -> by lia. cbn [c_assert negb mbind res_bind].
    apply copy_shift_tail_ok; [done | rewrite length_drop; lia | lia | by apply Forall_drop
      | | lia | done | done | lia | lia].
    replace (src + sa - (sa - da)) with (src + Z.of_nat (Z.to_nat da)) by lia.
    by apply src_bytes_drop.
Qed.
End CopyProof.

(** ** Specification of the copies

    The reference semantics of an LZ77 match: append, [n] times, the byte that
    lies [dist] bytes before the end of the output. *)
Fixpoint lz_match (n : nat) (out : list Z) (dist : Z) : list Z :=
  match n with
  | O => out
  | S n => lz_match n (out ++ [nth (length out - Z.to_nat dist) out 0]) dist
  end.

Lemma lz_match_length n out dist : length (lz_match n out dist) = (length out + n)%nat.
Proof.
  revert out. induction n as [|n IH]; intros out; simpl; [lia |].
  rewrite IH, length_app. simpl. lia.
Qed.

Lemma lz_match_prefix n out dist i :
  (i < length out)%nat -> lz_match n out dist !! i = out !! i.
Proof.
  revert out. induction n as [|n IH]; intros out Hi; simpl; [done |].
  rewrite IH by (rewrite length_app; lia). by rewrite lookup_app_l.
Qed.

(** Byte [i] of a match in closed form. *)
Lemma lz_match_lookup n out dist i : 1 <= dist <= zlen out -> (i < n)%nat ->
  lz_match n out dist !! (length out + i)%nat
  = out !! (length out - Z.to_nat dist + i mod Z.to_nat dist)%nat.
Proof.
  intros Hd. revert out i Hd. induction n as [|n IH]; intros out i Hd Hi; [lia |].
  simpl. set (d := Z.to_nat dist) in *.
  set (out' := out ++ [nth (length out - d) out 0]).
  assert (length out' = S (length out)) as Hl' by (subst out'; rewrite length_app; simpl; lia).
  assert (1 <= d <= length out)%nat as Hd' by lia.
  assert (out' !! length out = out !! (length out - d)%nat) as Hlast.
  { subst out'. rewrite lookup_app_r, Nat.sub_diag by lia. simpl.
    destruct (lookup_lt_is_Some_2 out (length out - d)) as [x Hx]; [lia |].
    rewrite Hx. f_equal. by apply nth_lookup_Some. }
  destruct i as [|i].
  - rewrite Nat.add_0_r, lz_match_prefix by lia. rewrite Hlast.
    by rewrite Nat.Div0.mod_0_l, Nat.add_0_r.
  - replace (length out + S i)%nat with (length out' + i)%nat by lia.
    rewrite IH by lia. fold d. rewrite Hl'.
    assert (d <> 0)%nat by lia.
    destruct (Nat.eq_dec (S (i mod d)) d) as [He | Hne].
    + replace (S (length out) - d + i mod d)%nat with (length out) by lia.
      rewrite Hlast. f_equal.
      replace (S i mod d)%nat with O; [lia |].
      pose proof (Nat.div_mod_eq i d). rewrite <- (Nat.Div0.mod_mul (S (i / d)) d).
      f_equal. lia.
    + pose proof (Nat.mod_upper_bound i d ltac:(done)).
      replace (S i mod d)%nat with (S (i mod d)).
      * subst out'. rewrite lookup_app_l by lia. f_equal. lia.
      * pose proof (Nat.div_mod_eq i d).
        apply (Nat.mod_unique (S i) d (i / d)%nat); lia.
Qed.

(** ** Correctness of the copies *)
Lemma copy_ok m dest src len :
  8 <= len -> 0 <= dest -> 0 <= src -> dest + len + 8 <= 2 ^ 64 -> src + len + 8 <= 2 ^ 64 ->
  no_overlap dest src len -> mem_ok m ->
  accessible m src (align_up8 (src + len) - src) ->
  accessible m dest (align_up8 (dest + len) - dest) ->
  exists m' hi, copy m dest src len = Ok m' /\ copied m m' dest src len hi /\
    dest + len <= hi <= align_up8 (dest + len).
Proof.
  intros Hlen Hd Hs Hbd Hbs Hno Hok Has Had.
  rewrite align_up8_spec in Has, Had |- * by lia.
  unfold copy. rewrite !align_up8_spec, !align_off_spec by lia.
  destruct (Z.eqb_spec ((- src) mod 8) ((- dest) mod 8)) as [He | Hne].
  - destruct (copy_aligned_ok m dest src len) as (m' & Hm' & Hc); [done.. |].
    exists m', (8 * ((dest + len + 7) / 8)). split; [done |]. split; [done |]. dlia.
  - by apply copy_shifted_ok.
Qed.

(** Both routines need, and may write, up to [LZCOMMON_BLOCK] bytes more than
    they are asked to copy. *)
Lemma literal_copy_ok m dest src len :
  0 <= len -> 0 <= dest -> 0 <= src -> dest + len + 8 <= 2 ^ 64 -> src + len + 8 <= 2 ^ 64 ->
  no_overlap dest src len -> mem_ok m ->
  accessible m src (len + LZCOMMON_BLOCK) -> accessible m dest (len + LZCOMMON_BLOCK) ->
  exists m' hi, lzcommon_literal_copy m dest src len = Ok m' /\ copied m m' dest src len hi /\
    dest + len <= hi <= dest + len + LZCOMMON_BLOCK.
Proof.
  unfold LZCOMMON_BLOCK. intros Hlen Hd Hs Hbd Hbs Hno Hok Has Had.
  unfold lzcommon_literal_copy, LZCOMMON_BLOCK. destruct (Z.ltb_spec len 8).
  - unfold memcpy. change (Z.to_nat 8) with 8%nat.
    destruct (ld_ok 8 m src) as (l & Hl & Hll & Hat);
      [apply (accessible_sub _ _ _ _ _ Has); lia |]. rewrite Hl. simpl.
    assert (Forall is_byte l) by by eapply bytes_at_is_byte.
    destruct (st_ok m dest l) as (m' & Hm' & Hat' & Hfr);
      [rewrite Hll; apply (accessible_sub _ _ _ _ _ Had); lia | done |].
    exists m', (dest + 8). split; [done |]. split; [| lia]. rewrite Hll in Hfr. constructor.
    + intros x Hx _. replace x with (dest + Z.of_nat (Z.to_nat (x - dest))) by lia.
      rewrite Hat' by lia. rewrite <- Hat by lia. f_equal. lia.
    + done.
    + eapply st_frame_dom; [| eassumption | by rewrite Hll].
      rewrite Hll. apply (accessible_sub _ _ _ _ _ Had); lia.
    + eapply st_frame_mem_ok; [done | eassumption | eassumption | by rewrite Hll].
  - destruct (copy_ok m dest src len) as (m' & hi & Hm' & Hc & Hhi); [done.. | | |].
    + rewrite align_up8_spec by lia. apply (accessible_sub _ _ _ _ _ Has); dlia.
    + rewrite align_up8_spec by lia. apply (accessible_sub _ _ _ _ _ Had); dlia.
    + rewrite align_up8_spec in Hhi by lia. exists m', hi.
      split; [done |]. split; [done |]. dlia.
Qed.

(** The bytes of a match, as [lz_match] describes them. *)
Definition match_result (m m' : mem) (base : Z) (out : list Z) (dist len : Z) : Prop :=
  bytes_at m' base (lz_match (Z.to_nat len) out dist) /\
  frame m m' (base + zlen out) (base + zlen out + len + LZCOMMON_BLOCK) /\
  same_dom m m' /\ mem_ok m'.

Section MatchCopy.
Context (base dist : Z).
Hypothesis Hdist : 1 <= dist.

(** The byte-by-byte loop follows the reference one step at a time. *)
Lemma byte_copy_ok n m out : mem_ok m -> bytes_at m base out -> dist <= zlen out ->
  accessible m base (zlen out + Z.of_nat n) ->
  exists m', byte_copy n m (base + zlen out) (base + zlen out - dist) = Ok m' /\
    bytes_at m' base (lz_match n out dist) /\
    frame m m' (base + zlen out) (base + zlen out + Z.of_nat n) /\ same_dom m m' /\ mem_ok m'.
Proof.
  revert m out. induction n as [|n IH]; intros m out Hok Hat Hd Hacc.
  - exists m. simpl. split_and!; [done | done | apply frame_refl | apply same_dom_refl | done].
  - simpl. destruct (lookup_lt_is_Some_2 out (length out - Z.to_nat dist)) as [b Hb]; [lia |].
    assert (m !! (base + zlen out - dist) = Some b) as Hmb.
    { rewrite <- Hb, <- Hat by lia. f_equal. lia. }
    assert (is_byte b) as Hbb by by apply (Hok _ _ Hmb).
    unfold ld8. rewrite Hmb. simpl. rewrite st8_ok by (apply Hacc; lia). simpl.
    rewrite (nth_lookup_Some _ _ _ _ Hb). rewrite u8_small by done.
    set (m1 := <[base + zlen out:=b]> m). set (out1 := out ++ [b]).
    assert (length out1 = S (length out)) as Hl1 by (subst out1; rewrite length_app; simpl; lia).
    assert (same_dom m m1) as Hdom1.
    { intros x. subst m1. destruct (decide (x = base + zlen out)) as [-> |].
      - rewrite lookup_insert_eq. split; [eauto |]. intros _. apply Hacc. lia.
      - by rewrite lookup_insert_ne. }
    destruct (IH m1 out1) as (m' & Hm' & Hat' & Hfr & Hdom & Hok').
    + intros x v. subst m1. rewrite lookup_insert. case_decide; [by intros [= <-] | apply Hok].
    + apply bytes_at_app. split.
      * intros i Hi. subst m1. rewrite lookup_insert_ne by lia. by apply Hat.
      * intros [|i] Hi; simpl in *; [| lia]. rewrite Z.add_0_r. apply lookup_insert_eq.
    + lia.
    + eapply accessible_same_dom; [exact Hdom1 |]. eapply accessible_sub; [exact Hacc | lia | lia].
    + exists m'. rewrite Hl1 in Hm', Hfr. split; [rewrite <- Hm'; f_equal; lia |].
      split; [done |]. split; [| split; [by eapply same_dom_trans | done]].
      intros x Hx. rewrite Hfr by lia. subst m1. by rewrite lookup_insert_ne by lia.
Qed.

(** Data that matches the closed form of [lz_match] is its result. *)
Lemma match_result_closed m m' out len hi : 0 <= len -> bytes_at m base out ->
  dist <= zlen out ->
  (forall i, (i < Z.to_nat len)%nat -> m' !! (base + zlen out + Z.of_nat i)
     = m !! (base + zlen out - dist + Z.of_nat i mod dist)) ->
  frame m m' (base + zlen out) hi -> hi <= base + zlen out + len + LZCOMMON_BLOCK ->
  same_dom m m' -> mem_ok m' -> match_result m m' base out dist len.
Proof.
  intros Hlen Hat Hd Hdata Hfr Hhi Hdom Hok'. split; [| split; [| done]].
  - intros j Hj. rewrite lz_match_length in Hj. destruct (decide (j < length out)%nat).
    + rewrite lz_match_prefix by done. rewrite Hfr by lia. by apply Hat.
    + replace j with (length out + (j - length out))%nat by lia.
      rewrite lz_match_lookup by lia. set (i := (j - length out)%nat).
      replace (base + Z.of_nat (length out + i)) with (base + zlen out + Z.of_nat i) by lia.
      rewrite Hdata by lia.
      assert (Z.of_nat (i mod Z.to_nat dist) = Z.of_nat i mod dist) as Hmod.
      { rewrite Nat2Z.inj_mod, Z2Nat.id by lia. done. }
      pose proof (Z.mod_pos_bound (Z.of_nat i) dist ltac:(lia)).
      rewrite <- Hat by lia. f_equal. lia.
  - eapply frame_weaken; [exact Hfr | lia | lia].
Qed.
End MatchCopy.

Lemma match_copy_ok m base out dist len : 0 <= base -> 0 <= len -> 1 <= dist <= zlen out ->
  base + zlen out + len + 8 <= 2 ^ 64 -> mem_ok m -> bytes_at m base out ->
  accessible m base (zlen out + len + LZCOMMON_BLOCK) ->
  exists m', lzcommon_match_copy m (base + zlen out) dist len = Ok m' /\
    match_result m m' base out dist len.
Proof.
  intros Hb Hlen Hdist Hbound Hok Hat Hacc. unfold lzcommon_match_copy.
  assert (accessible m (base + zlen out) (len + LZCOMMON_BLOCK)) as Hd
    by (eapply accessible_sub; [exact Hacc | lia | lia]).
  rewrite Z.geb_leb. destruct (Z.leb_spec len dist) as [Hle | Hgt].
  - destruct (literal_copy_ok m (base + zlen out) (base + zlen out - dist) len)
      as (m' & hi & Hm' & [Hdata Hfr Hdom Hok'] & Hhi);
      [lia | lia | lia | lia | lia | unfold no_overlap; lia | done
      | eapply accessible_sub; [exact Hacc | lia | lia] | done |].
    exists m'. split; [done |].
    apply (match_result_closed base dist ltac:(lia) m m' out len hi);
      [done | done | lia | | done | lia | done | done].
    intros i Hi. rewrite Hdata by lia. rewrite Z.mod_small by lia. f_equal. lia.
  - destruct (Z.eqb_spec dist 1) as [-> | Hne].
    + destruct (Hacc (base + zlen out - 1) ltac:(unfold LZCOMMON_BLOCK; lia)) as [b Hmb].
      unfold ld8. rewrite Hmb. simpl. unfold memset.
      assert (is_byte b) by by apply (Hok _ _ Hmb). rewrite u8_small by done.
      assert (Forall is_byte (replicate (Z.to_nat len) b)) as Hrep.
      { by apply Forall_replicate. }
      destruct (st_ok m (base + zlen out) (replicate (Z.to_nat len) b)) as (m' & Hm' & Hat' & Hfr);
        [rewrite length_replicate; eapply accessible_sub; [exact Hd | lia | unfold LZCOMMON_BLOCK; lia] | done |].
      exists m'. split; [done |].
      pose proof Hfr as Hfr'. rewrite length_replicate in Hfr'.
      apply (match_result_closed base 1 ltac:(lia) m m' out len (base + zlen out + len));
        [done | done | lia | | by rewrite Z2Nat.id in Hfr' by lia | unfold LZCOMMON_BLOCK; lia | |].
      * intros i Hi. rewrite Hat' by (rewrite length_replicate; lia).
        rewrite Z.mod_1_r, Z.add_0_r, Hmb.
        apply lookup_replicate_2. lia.
      * eapply st_frame_dom; eauto. rewrite length_replicate.
        eapply accessible_sub; [exact Hd | lia | unfold LZCOMMON_BLOCK; lia].
      * eapply st_frame_mem_ok; eauto.
    + destruct (byte_copy_ok base dist ltac:(lia) (Z.to_nat len) m out)
        as (m' & Hm' & Hat' & Hfr & Hdom & Hok');
        [done | done | lia | eapply accessible_sub; [exact Hacc | lia | unfold LZCOMMON_BLOCK; lia] |].
      exists m'. split; [done |]. split; [done |]. split; [| done].
      eapply frame_weaken; [exact Hfr | lia | unfold LZCOMMON_BLOCK; lia].
Qed.

(** The byte loop between disjoint buffers. *)
Lemma byte_copy_disjoint l m dest src : mem_ok m -> bytes_at m src l ->
  accessible m dest (zlen l) -> src + zlen l <= dest \/ dest + zlen l <= src ->
  exists m', byte_copy (length l) m dest src = Ok m' /\ bytes_at m' dest l /\
    frame m m' dest (dest + zlen l) /\ same_dom m m' /\ mem_ok m'.
Proof.
  revert m dest src. induction l as [|b l IH]; intros m dest src Hok Hat Hacc Hd.
  - exists m. simpl. split_and!; [done | intros i Hi; simpl in Hi; lia | apply frame_refl
      | apply same_dom_refl | done].
  - simpl zlen in *. apply bytes_at_cons in Hat as [Hb Hat].
    assert (is_byte b) as Hbb by by apply (Hok _ _ Hb).
    simpl. rewrite (ld8_eq _ _ _ Hb). simpl. rewrite st8_ok by (apply Hacc; lia). simpl.
    rewrite u8_small by done. set (m1 := <[dest:=b]> m).
    assert (same_dom m m1) as Hdom1.
    { intros x. subst m1. destruct (decide (x = dest)) as [-> |].
      - rewrite lookup_insert_eq. split; [eauto |]. intros _. apply Hacc. lia.
      - by rewrite lookup_insert_ne. }
    destruct (IH m1 (dest + 1) (src + 1)) as (m' & Hm' & Hat' & Hfr & Hdom & Hok').
    + intros x v. subst m1. rewrite lookup_insert. case_decide; [by intros [= <-] | apply Hok].
    + intros i Hi. subst m1. rewrite lookup_insert_ne by lia. by apply Hat.
    + eapply accessible_same_dom; [exact Hdom1 |]. eapply accessible_sub; [exact Hacc | lia | lia].
    + lia.
    + exists m'. split_and!; [done | | | by eapply same_dom_trans | done].
      * apply bytes_at_cons. split; [| done]. rewrite Hfr by lia. apply lookup_insert_eq.
      * intros x Hx. rewrite Hfr by lia. subst m1. by rewrite lookup_insert_ne by lia.
Qed.

(** ** The state of a decoder between two copies

    [w] is what lies between [ws] (the start of the window) and the output
    pointer, [input] what is left of the input at [in_].  The input is not in
    the part of the output buffer that may still be written. *)
Record lz_inv (ws out_end : Z) (m : mem) (w : list Z) (in_ : Z) (input : list Z) : Prop := {
  inv_ok : mem_ok m;
  inv_win : bytes_at m ws w;
  inv_in : bytes_at m in_ input;
  inv_acc_w : accessible m ws (out_end + LZCOMMON_BLOCK - ws);
  inv_acc_i : accessible m in_ (zlen input + LZCOMMON_BLOCK);
  inv_disj : in_ + zlen input <= ws + zlen w \/ out_end + LZCOMMON_BLOCK <= in_;
  inv_pos : 0 <= ws /\ 0 <= in_;
  inv_out : ws + zlen w <= out_end;
  inv_top : out_end + LZCOMMON_BLOCK <= 2 ^ 64 /\ in_ + zlen input + LZCOMMON_BLOCK <= 2 ^ 64;
}.

(** What a step of the decoder may change. *)
Definition lz_frame (out_end : Z) (m m' : mem) (out : Z) : Prop :=
  frame m m' out (out_end + LZCOMMON_BLOCK) /\ same_dom m m'.

Lemma lz_frame_refl out_end m out : lz_frame out_end m m out.
Proof. split; [apply frame_refl | apply same_dom_refl]. Qed.

Lemma lz_frame_trans out_end m1 m2 m3 o1 o2 : o1 <= o2 ->
  lz_frame out_end m1 m2 o1 -> lz_frame out_end m2 m3 o2 -> lz_frame out_end m1 m3 o1.
Proof.
  intros Ho [H1 D1] [H2 D2]. split; [| by eapply same_dom_trans].
  eapply frame_trans; [exact H1 |]. eapply frame_weaken; [exact H2 | lia | lia].
Qed.

Section LzInv.
Context (ws out_end : Z).
Implicit Types (m : mem) (w input : list Z).

Lemma lz_inv_drop m w in_ a rest :
  lz_inv ws out_end m w in_ (a ++ rest) -> lz_inv ws out_end m w (in_ + zlen a) rest.
Proof.
  intros [Hok Hw Hi Haw Hai Hd Hp Ho Ht]. rewrite length_app in *. constructor; try done; try lia.
  - by apply bytes_at_app in Hi as [_ ?].
  - eapply accessible_sub; [exact Hai | lia | lia].
Qed.

(** The invariant after the output has grown to [w']. *)
Lemma lz_inv_grow m m' w w' in_ input :
  lz_inv ws out_end m w in_ input -> lz_frame out_end m m' (ws + zlen w) ->
  mem_ok m' -> bytes_at m' ws w' -> zlen w <= zlen w' -> ws + zlen w' <= out_end ->
  lz_inv ws out_end m' w' in_ input.
Proof.
  intros [Hok Hw Hi Haw Hai Hd Hp Ho Ht] [Hf Hdom] Hok' Hw' Hle Hle'.
  constructor; try done; try lia; try (by eapply accessible_same_dom).
  eapply bytes_at_frame; [exact Hf | done | lia].
Qed.

Lemma lz_inv_literals m w in_ lits rest : lz_inv ws out_end m w in_ (lits ++ rest) ->
  ws + zlen w + zlen lits <= out_end ->
  exists m', lzcommon_literal_copy m (ws + zlen w) in_ (zlen lits) = Ok m' /\
    lz_inv ws out_end m' (w ++ lits) (in_ + zlen lits) rest /\
    lz_frame out_end m m' (ws + zlen w).
Proof.
  intros Hinv Hle. pose proof Hinv as [Hok Hw Hi Haw Hai Hd Hp Ho Ht]. rewrite length_app in *.
  destruct (literal_copy_ok m (ws + zlen w) in_ (zlen lits))
    as (m' & hi & Hm' & [Hdata Hfr Hdom Hok'] & Hhi);
    [lia | lia | lia | unfold LZCOMMON_BLOCK in *; lia | unfold LZCOMMON_BLOCK in *; lia
    | unfold no_overlap, LZCOMMON_BLOCK in *; lia | done
    | eapply accessible_sub; [exact Hai | lia | lia]
    | eapply accessible_sub; [exact Haw | lia | lia] |].
  assert (lz_frame out_end m m' (ws + zlen w)) as Hfr'.
  { split; [eapply frame_weaken; [exact Hfr | lia | lia] | done]. }
  exists m'. split; [done |]. split; [| done].
  apply (lz_inv_drop m' (w ++ lits) in_ lits rest).
  apply (lz_inv_grow m m' w); [done | done | done | | rewrite length_app; lia | rewrite length_app; lia].
  apply bytes_at_app. split.
  - eapply bytes_at_frame; [exact Hfr | done | lia].
  - apply bytes_at_app in Hi as [Hi _]. intros i Hlt. rewrite Hdata by lia.
    rewrite <- Hi by lia. f_equal. lia.
Qed.

Lemma lz_inv_match m w in_ input dist len : lz_inv ws out_end m w in_ input ->
  1 <= dist <= zlen w -> 0 <= len -> ws + zlen w + len <= out_end ->
  exists m', lzcommon_match_copy m (ws + zlen w) dist len = Ok m' /\
    lz_inv ws out_end m' (lz_match (Z.to_nat len) w dist) in_ input /\
    lz_frame out_end m m' (ws + zlen w).
Proof.
  intros Hinv Hd Hlen Hle. pose proof Hinv as [Hok Hw Hi Haw Hai _ Hp Ho Ht].
  destruct (match_copy_ok m ws w dist len) as (m' & Hm' & Hat & Hfr & Hdom & Hok');
    [lia | lia | lia | unfold LZCOMMON_BLOCK in *; lia | done | done
    | eapply accessible_sub; [exact Haw | lia | lia] |].
  assert (lz_frame out_end m m' (ws + zlen w)) as Hfr'.
  { split; [eapply frame_weaken; [exact Hfr | lia | lia] | done]. }
  exists m'. split; [done |]. split; [| done].
  apply (lz_inv_grow m m' w); [done | done | done | done | |]; rewrite lz_match_length; lia.
Qed.
End LzInv.

(** A concrete layout with the invariant: the window at address 0, room up to
    [oe], and the input behind the slack of the output buffer. *)
Definition lz_layout (oe : Z) (w input : list Z) : mem :=
  mem_of 0 (w ++ replicate (Z.to_nat (oe + LZCOMMON_BLOCK) - length w) 0 ++ input
              ++ replicate (Z.to_nat LZCOMMON_BLOCK) 0).

Lemma lz_layout_inv oe w input : Forall is_byte w -> Forall is_byte input -> zlen w <= oe ->
  oe + zlen input < 2 ^ 63 -> lz_inv 0 oe (lz_layout oe w input) w (oe + LZCOMMON_BLOCK) input.
Proof.
  intros Hw Hi Ho Ht. unfold lz_layout, LZCOMMON_BLOCK in *.
  assert (forall n, Forall is_byte (replicate n 0)) as Hz
    by (intros n; apply Forall_replicate; unfold is_byte; lia).
  constructor; unfold LZCOMMON_BLOCK in *; try lia.
  - apply mem_of_ok. rewrite !Forall_app. auto.
  - by apply (mem_of_sub 0 [] w).
  - rewrite app_assoc. apply mem_of_sub. rewrite length_app, length_replicate. lia.
  - apply mem_of_accessible; [lia |]. rewrite !length_app, !length_replicate. lia.
  - apply mem_of_accessible; [lia |]. rewrite !length_app, !length_replicate. lia.
Qed.

(** ** Main results *)

(** [copy], which moves bytes with aligned 8-byte accesses and shifts when
    source and destination are aligned differently, returns without a trap
    (no failed assertion, no misaligned access, no access beyond the 8-byte
    block that holds the last byte) for every pair of alignments and every
    length of at least 8.  It leaves the [len] bytes of the source at the
    destination, also when the destination overlaps the source from below,
    changes nothing outside of the destination rounded up to a block, and
    keeps memory well-formed. *)
Theorem copy_correct m dest src len :
  8 <= len -> 0 <= dest -> 0 <= src -> dest + len + 8 <= 2 ^ 64 -> src + len + 8 <= 2 ^ 64 ->
  no_overlap dest src len -> mem_ok m ->
  accessible m src (align_up8 (src + len) - src) ->
  accessible m dest (align_up8 (dest + len) - dest) ->
  exists m', copy m dest src len = Ok m' /\
    (forall i, 0 <= i < len -> m' !! (dest + i) = m !! (src + i)) /\
    frame m m' dest (align_up8 (dest + len)) /\ same_dom m m' /\ mem_ok m'.
Proof.
  intros. destruct (copy_ok m dest src len) as (m' & hi & Hm' & [Hd Hf Hdom Hok] & Hhi); [done.. |].
  exists m'. split_and!; [done | | eapply frame_weaken; [exact Hf | lia | lia] | done | done].
  intros i Hi. rewrite Hd by lia. f_equal. lia.
Qed.

Lemma copy_correct_witness :
  exists m', copy (mem_of 8 (le_bytes 64 (2 ^ 500 - 12345))) 13 42 19 = Ok m' /\
    (forall i, 0 <= i < 19 -> m' !! (13 + i) = mem_of 8 (le_bytes 64 (2 ^ 500 - 12345)) !! (42 + i)) /\
    frame (mem_of 8 (le_bytes 64 (2 ^ 500 - 12345))) m' 13 (align_up8 (13 + 19)) /\
    same_dom (mem_of 8 (le_bytes 64 (2 ^ 500 - 12345))) m' /\ mem_ok m'.
Proof.
  apply (copy_correct (mem_of 8 (le_bytes 64 (2 ^ 500 - 12345))) 13 42 19);
    try lia; [left; lia | apply mem_of_ok, le_bytes_is_byte | |];
    (apply mem_of_accessible; [lia |]; rewrite le_bytes_length; vm_compute; discriminate).
Defined.

(** [lzcommon_literal_copy] copies exactly the [length] bytes asked for,
    for every length, as long as the destination does not start inside the
    source; the garbage it leaves stays within [LZCOMMON_BLOCK] bytes behind
    the copy, and it never touches memory further away. *)
Theorem literal_copy_correct m dest src len :
  0 <= len -> 0 <= dest -> 0 <= src -> dest + len + 8 <= 2 ^ 64 -> src + len + 8 <= 2 ^ 64 ->
  no_overlap dest src len -> mem_ok m ->
  accessible m src (len + LZCOMMON_BLOCK) -> accessible m dest (len + LZCOMMON_BLOCK) ->
  exists m', lzcommon_literal_copy m dest src len = Ok m' /\
    (forall i, 0 <= i < len -> m' !! (dest + i) = m !! (src + i)) /\
    frame m m' dest (dest + len + LZCOMMON_BLOCK) /\ same_dom m m' /\ mem_ok m'.
Proof.
  intros. destruct (literal_copy_ok m dest src len) as (m' & hi & Hm' & [Hd Hf Hdom Hok] & Hhi); [done.. |].
  exists m'. split_and!; [done | | eapply frame_weaken; [exact Hf | lia | lia] | done | done].
  intros i Hi. rewrite Hd by lia. f_equal. lia.
Qed.

Lemma literal_copy_correct_witness :
  exists m', lzcommon_literal_copy (mem_of 0 (le_bytes 32 (3 ^ 150))) 20 3 4 = Ok m' /\
    (forall i, 0 <= i < 4 -> m' !! (20 + i) = mem_of 0 (le_bytes 32 (3 ^ 150)) !! (3 + i)) /\
    frame (mem_of 0 (le_bytes 32 (3 ^ 150))) m' 20 (20 + 4 + LZCOMMON_BLOCK) /\
    same_dom (mem_of 0 (le_bytes 32 (3 ^ 150))) m' /\ mem_ok m'.
Proof.
  apply (literal_copy_correct (mem_of 0 (le_bytes 32 (3 ^ 150))) 20 3 4);
    try lia; [right; lia | apply mem_of_ok, le_bytes_is_byte | |];
    (apply mem_of_accessible; [lia |]; rewrite le_bytes_length; vm_compute; discriminate).
Defined.

(** C31: [lzcommon_match_copy] implements an LZ77 match.  Whatever the distance
    (overlapping matches, distance one, distances below the block size), the
    output [out] that ends at [dest] is extended to [lz_match length out dist],
    the byte-by-byte reference semantics, and at most [LZCOMMON_BLOCK] bytes
    behind it are overwritten. *)
Theorem match_copy_correct m base out dist len :
  0 <= base -> 0 <= len -> 1 <= dist <= zlen out ->
  base + zlen out + len + 8 <= 2 ^ 64 -> mem_ok m -> bytes_at m base out ->
  accessible m base (zlen out + len + LZCOMMON_BLOCK) ->
  exists m', lzcommon_match_copy m (base + zlen out) dist len = Ok m' /\
    bytes_at m' base (lz_match (Z.to_nat len) out dist) /\
    frame m m' (base + zlen out) (base + zlen out + len + LZCOMMON_BLOCK) /\
    same_dom m m' /\ mem_ok m'.
Proof. apply match_copy_ok. Qed.

Lemma match_copy_correct_witness :
  let m := mem_of 0 ([7; 8; 9] ++ replicate 30 0) in
  lz_match (Z.to_nat 7) [7; 8; 9] 2 = [7; 8; 9; 8; 9; 8; 9; 8; 9; 8] /\
  exists m', lzcommon_match_copy m (0 + zlen [7; 8; 9]) 2 7 = Ok m' /\
    bytes_at m' 0 (lz_match (Z.to_nat 7) [7; 8; 9] 2) /\
    frame m m' (0 + zlen [7; 8; 9]) (0 + zlen [7; 8; 9] + 7 + LZCOMMON_BLOCK) /\
    same_dom m m' /\ mem_ok m'.
Proof.
  intros m. split; [reflexivity |].
  apply (match_copy_correct m 0 [7; 8; 9] 2 7); [lia | lia | simpl; lia | simpl; lia | | |].
  - apply mem_of_ok. repeat constructor; unfold is_byte; lia.
  - apply (mem_of_sub 0 [] [7; 8; 9]). done.
  - apply mem_of_accessible; [lia |]. vm_compute. discriminate.
Defined.
