(* ===== verification/Compression.v ===== *)
(** * The decompressor interface ([src/compression/compression.h])

    Status codes, the part of the decoder state that clients see, and the
    contract between a decompressor and the code that drives it. *)
From S2P Require Export Lzcommon.

(** ** Status codes *)
Inductive compr_probe_status : Set :=
| COMPR_PROBE_SIZE_UNKNOWN
| COMPR_PROBE_SIZE_KNOWN (size : Z)  (** with the value stored in [*size] *)
| COMPR_PROBE_NOT_ENOUGH_DATA
| COMPR_PROBE_WRONG_MAGIC
| COMPR_PROBE_UNIMPLEMENTED_FEATURE
| COMPR_PROBE_RESERVED_FEATURE.

#[export] Instance compr_probe_status_eq_dec : EqDecision compr_probe_status.
Proof. solve_decision. Defined.

(** [status <= COMPR_PROBE_LAST_SUCCESS] *)
Definition probe_success (s : compr_probe_status) : bool :=
  match s with COMPR_PROBE_SIZE_UNKNOWN | COMPR_PROBE_SIZE_KNOWN _ => true | _ => false end.

Definition DECODE_ERR : Z := 0.
Definition DECODE_NEED_MORE_SPACE : Z := 1.
Definition DECODE_NEED_MORE_DATA : Z := 2.
Definition NUM_DECODE_STATUS : Z := 3.

(** ** State shared with the client

    [F] names the decode functions of one decompressor; [None] is the null
    pointer that marks a finished stream. *)
Record decompressor_state (F : Type) : Type := {
  decode : option F;
  window_start : Z;
  out : Z;
  out_end : Z;
}.
Arguments decode {F} _.
Arguments window_start {F} _.
Arguments out {F} _.
Arguments out_end {F} _.

Section SetState.
Context {F : Type}.
Definition set_decode (d : option F) (st : decompressor_state F) : decompressor_state F :=
  {| decode := d; window_start := window_start st; out := out st; out_end := out_end st |}.
Definition set_out (o : Z) (st : decompressor_state F) : decompressor_state F :=
  {| decode := decode st; window_start := window_start st; out := o; out_end := out_end st |}.
Definition set_window_start (w : Z) (st : decompressor_state F) : decompressor_state F :=
  {| decode := decode st; window_start := w; out := out st; out_end := out_end st |}.
End SetState.

(** ** Reading headers: [in[0] | (u32)in[1] << 8 | ...] *)
Definition ld16le (m : mem) (a : Z) : res Z :=
  b0 ← ld8 m a; b1 ← ld8 m (a + 1);
  Ok (Z.lor b0 (u16 (Z.shiftl b1 8))).

Definition ld32le (m : mem) (a : Z) : res Z :=
  b0 ← ld8 m a; b1 ← ld8 m (a + 1); b2 ← ld8 m (a + 2); b3 ← ld8 m (a + 3);
  Ok (Z.lor (Z.lor (Z.lor b0 (Z.shiftl b1 8)) (Z.shiftl b2 16)) (Z.shiftl b3 24)).

Definition ld64le (m : mem) (a : Z) : res Z :=
  b0 ← ld8 m a; b1 ← ld8 m (a + 1); b2 ← ld8 m (a + 2); b3 ← ld8 m (a + 3);
  b4 ← ld8 m (a + 4); b5 ← ld8 m (a + 5); b6 ← ld8 m (a + 6); b7 ← ld8 m (a + 7);
  Ok (Z.lor (Z.lor (Z.lor (Z.lor (Z.lor (Z.lor (Z.lor b0 (Z.shiftl b1 8)) (Z.shiftl b2 16))
     (Z.shiftl b3 24)) (Z.shiftl b4 32)) (Z.shiftl b5 40)) (Z.shiftl b6 48)) (Z.shiftl b7 56)).

Lemma ld_words m a l : bytes_at m a l -> forall i, (i < length l)%nat -> ld8 m (a + Z.of_nat i) = Ok (nth i l 0).
Proof.
  intros Hat i Hi. apply ld8_eq. rewrite Hat by done. apply lookup_lt_is_Some in Hi as [x Hx].
  rewrite Hx. f_equal. symmetry. by apply nth_lookup_Some.
Qed.

(** The header fields are little-endian words. *)
Lemma lor_byte_step v b n : 0 <= n -> 0 <= v < 2 ^ n -> Z.lor v (Z.shiftl b n) = v + b * 2 ^ n.
Proof. intros. by apply lor_shiftl_add. Qed.

Ltac load_bytes Hat :=
  repeat (apply bytes_at_cons in Hat as [?Hld Hat]);
  repeat match goal with H : _ !! ?a = Some ?b |- context [ld8 _ ?a'] =>
    replace a' with a by lia; rewrite (ld8_eq _ _ _ H); cbn [mbind res_bind]; clear H end.

(** Innermost first, so that the bounds are those of sums. *)
Ltac lor_bytes :=
  repeat match goal with
  | |- context [Z.lor ?v (Z.shiftl ?b ?n)] =>
      lazymatch v with context [Z.lor _ _] => fail | _ => rewrite (lor_byte_step v b n) by lia end
  end.

Lemma ld16le_ok m a l : mem_ok m -> bytes_at m a l -> length l = 2%nat -> ld16le m a = Ok (le_val l).
Proof.
  intros Hok Hat Hl. apply (bytes_at_is_byte _ _ _ Hok) in Hat as Hb.
  destruct l as [|b0 [|b1 [|]]]; try done. unfold is_byte in Hb.
  repeat apply Forall_cons_1 in Hb as [? Hb]. unfold ld16le. load_bytes Hat. simpl le_val. f_equal.
  rewrite u16_small by (rewrite Z.shiftl_mul_pow2 by lia; lia). rewrite lor_byte_step by lia. lia.
Qed.

Lemma ld32le_ok m a l : mem_ok m -> bytes_at m a l -> length l = 4%nat -> ld32le m a = Ok (le_val l).
Proof.
  intros Hok Hat Hl. apply (bytes_at_is_byte _ _ _ Hok) in Hat as Hb.
  destruct l as [|b0 [|b1 [|b2 [|b3 [|]]]]]; try done. unfold is_byte in Hb.
  repeat apply Forall_cons_1 in Hb as [? Hb]. unfold ld32le. load_bytes Hat. simpl le_val. f_equal.
  lor_bytes. lia.
Qed.

Lemma ld64le_ok m a l : mem_ok m -> bytes_at m a l -> length l = 8%nat -> ld64le m a = Ok (le_val l).
Proof.
  intros Hok Hat Hl. apply (bytes_at_is_byte _ _ _ Hok) in Hat as Hb.
  destruct l as [|b0 [|b1 [|b2 [|b3 [|b4 [|b5 [|b6 [|b7 [|]]]]]]]]]; try done. unfold is_byte in Hb.
  repeat apply Forall_cons_1 in Hb as [? Hb]. unfold ld64le. load_bytes Hat. simpl le_val. f_equal.
  lor_bytes. lia.
Qed.
