(* ===== verification/Lz4.v ===== *)
(** * LZ4 ([src/compression/lz4.c])

    Frame probing and initialisation, the block and trailer decoders, and the
    block decompressor with its memory accesses. *)
From S2P Require Export Compression.

(** ** Block decompression *)

(** [do {copy += add = *in++; check(end - in >= copy);} while (add == 255);]
    Returns [None] when the check fails and [(copy, in)] otherwise. *)
Fixpoint lz4_extend_copy (fuel : nat) (m : mem) (in_ end_ copy : Z) : res (option (Z * Z)) :=
  match fuel with
  | O => Trap TrapFuel
  | S fuel =>
      add ← ld8 m in_;
      let copy := u32 (copy + add) in
      let in_ := in_ + 1 in
      if end_ - in_ <? copy then Ok None
      else if add =? 255 then lz4_extend_copy fuel m in_ end_ copy
      else Ok (Some (copy, in_))
  end.

(** The extension bytes of the match length. *)
Fixpoint lz4_extend_length (fuel : nat) (m : mem) (in_ max_final_block_start restsize length : Z)
    : res (option (Z * Z)) :=
  match fuel with
  | O => Trap TrapFuel
  | S fuel =>
      add ← ld8 m in_;
      let length := u32 (length + add) in
      let in_ := in_ + 1 in
      if restsize <? length then Ok None
      else if max_final_block_start <? in_ then Ok None
      else if add =? 255 then lz4_extend_length fuel m in_ max_final_block_start restsize length
      else Ok (Some (length, in_))
  end.

(** The [while (1)] loop over sequences.  Returns the end of the output, or
    [None] for a null pointer. *)
Fixpoint lz4_sequences (fuel : nat) (m : mem) (in_ end_ out out_end window_start : Z)
    : res (option Z * mem) :=
  match fuel with
  | O => Trap TrapFuel
  | S fuel =>
      let max_final_block_start := end_ - 6 in
      c_assert (in_ <=? max_final_block_start);;
      c_assert (out_end - out >=? 5);;
      token ← ld8 m in_;
      let in_ := in_ + 1 in
      let copy := Z.shiftr token 4 in
      let length := Z.land token 15 in
      ext ← (if copy =? 15 then lz4_extend_copy (Z.to_nat (end_ - in_)) m in_ end_ copy
             else Ok (Some (copy, in_)));
      match ext with
      | None => Ok (None, m)
      | Some (copy, in_) =>
          if out_end - out <? copy then Ok (None, m)
          else if end_ - in_ <? u32 (copy + 8) then
            if negb (end_ - in_ =? copy) then Ok (None, m)
            else if negb (length =? 0) then Ok (None, m)
            else
              m ← lzcommon_literal_copy m out in_ copy;
              Ok (Some (out + copy), m)
          else
            m ← lzcommon_literal_copy m out in_ copy;
            let in_ := in_ + copy in
            let out := out + copy in
            b0 ← ld8 m in_;
            b1 ← ld8 m (in_ + 1);
            let dist := Z.lor b0 (u16 (Z.shiftl b1 8)) in
            let in_ := in_ + 2 in
            if dist =? 0 then Ok (None, m)
            else if out - window_start <? dist then Ok (None, m)
            else
              let length := length + 4 in
              if out_end - out <? length + 5 then Ok (None, m)
              else
                ext ← (if length =? 19
                       then lz4_extend_length (Z.to_nat (end_ - in_)) m in_ max_final_block_start
                              (u32 (out_end - out - 5)) length
                       else if max_final_block_start <? in_ then Ok None
                       else Ok (Some (length, in_)));
                match ext with
                | None => Ok (None, m)
                | Some (length, in_) =>
                    m ← lzcommon_match_copy m out dist length;
                    lz4_sequences fuel m in_ end_ (out + length) out_end window_start
                end
      end
  end.

Definition lz4_decompress_block (m : mem) (in_ end_ out out_end window_start : Z)
    : res (option Z * mem) :=
  c_assert (out_end - out <=? 2 ^ 31);;
  if end_ <=? in_ then Ok (None, m)
  else if end_ - in_ <? 6 then
    token ← ld8 m in_;
    let in_ := in_ + 1 in
    if negb ((end_ - in_) * 16 =? token) then Ok (None, m)
    else
      let token := Z.shiftr token 4 in
      if out_end - out <? token then Ok (None, m)
      else
        m ← byte_copy (Z.to_nat token) m out in_;
        Ok (Some (out + token), m)
  else lz4_sequences (Z.to_nat (end_ - in_)) m in_ end_ out out_end window_start.

(** ** Frames *)
Definition FBINDEP : Z := 32.
Definition FBCHECKSUM : Z := 16.
Definition FCSIZE : Z := 8.
Definition FCCHECKSUM : Z := 4.
Definition FRESERVED : Z := 2.
Definition FDICTID : Z := 1.

Definition lz4_probe (m : mem) (in_ end_ : Z) : res compr_probe_status :=
  if end_ - in_ <? 4 then Ok COMPR_PROBE_NOT_ENOUGH_DATA
  else
  b0 ← ld8 m in_; b1 ← ld8 m (in_ + 1); b2 ← ld8 m (in_ + 2); b3 ← ld8 m (in_ + 3);
  if negb (b0 =? 4) || negb (b1 =? 34) || negb (b2 =? 77) || negb (b3 =? 24)
  then Ok COMPR_PROBE_WRONG_MAGIC
  else if end_ - in_ <? 7 then Ok COMPR_PROBE_NOT_ENOUGH_DATA
  else
  flags ← ld8 m (in_ + 4); bd ← ld8 m (in_ + 5);
  let in_ := in_ + 6 in
  let version := Z.shiftr flags 6 in
  if negb (version =? 1) then Ok COMPR_PROBE_RESERVED_FEATURE
  else if flag flags FRESERVED then Ok COMPR_PROBE_RESERVED_FEATURE
  else if flag flags FDICTID then Ok COMPR_PROBE_UNIMPLEMENTED_FEATURE
  else if flag bd 0x8f then Ok COMPR_PROBE_RESERVED_FEATURE
  else
  let block_size_field := Z.land (Z.shiftr bd 4) 7 in
  if block_size_field <? 4 then Ok COMPR_PROBE_RESERVED_FEATURE
  else if flag flags FCSIZE then
    if end_ - in_ <? 9 then Ok COMPR_PROBE_NOT_ENOUGH_DATA
    else
      csize ← ld64le m in_;
      (* [csize <= SIZE_MAX] always holds for a 64-bit [size_t] *)
      Ok (COMPR_PROBE_SIZE_KNOWN csize)
  else Ok COMPR_PROBE_SIZE_UNKNOWN.

Inductive lz4_decode_func : Set := Lz4DecodeBlock | Lz4DecodeTrailer.

Record lz4_dec_state : Type := {
  lz4_st : decompressor_state lz4_decode_func;
  max_block_size : Z;
  flags : Z;
}.

Definition lz4_set_st (st : decompressor_state lz4_decode_func) (s : lz4_dec_state) : lz4_dec_state :=
  {| lz4_st := st; max_block_size := max_block_size s; flags := flags s |}.

Definition lz4_decode_trailer (m : mem) (s : lz4_dec_state) (in_ end_ : Z)
    : res (Z * lz4_dec_state * mem) :=
  let s := lz4_set_st (set_decode None (lz4_st s)) s in
  if flag (flags s) FCCHECKSUM then
    if end_ - in_ <? 4 then Ok (DECODE_ERR, s, m)
    else Ok (NUM_DECODE_STATUS + 4, s, m)
  else Ok (NUM_DECODE_STATUS, s, m).

Definition lz4_decode_block (m : mem) (s : lz4_dec_state) (in_ end_ : Z)
    : res (Z * lz4_dec_state * mem) :=
  if end_ - in_ <? 4 then Ok (DECODE_ERR, s, m)
  else
  block_size ← ld32le m in_;
  let in_ := in_ + 4 in
  let actual_block_size := Z.land block_size 0x7fffffff in
  if actual_block_size =? 0 then
    Ok (NUM_DECODE_STATUS + 4, lz4_set_st (set_decode (Some Lz4DecodeTrailer) (lz4_st s)) s, m)
  else if max_block_size s <? actual_block_size then Ok (DECODE_ERR, s, m)
  else if end_ - in_ <? actual_block_size then Ok (DECODE_NEED_MORE_DATA, s, m)
  else
  let total_size := u32 (actual_block_size + 4) in
  let total_size := if flag (flags s) FBCHECKSUM then total_size + 4 else total_size in
  let o := out (lz4_st s) in
  let oe := out_end (lz4_st s) in
  let ws := window_start (lz4_st s) in
  if oe - o <? actual_block_size then Ok (DECODE_NEED_MORE_SPACE, s, m)
  else
  '(r, m) ← (if flag block_size (2 ^ 31) then
               m ← lzcommon_literal_copy m o in_ actual_block_size;
               Ok (Some (o + actual_block_size), m)
             else
               let out_limit := if oe - o <? max_block_size s then oe else o + max_block_size s in
               lz4_decompress_block m in_ (in_ + block_size) o out_limit ws);
  match r with
  | None => Ok (DECODE_ERR, s, m)
  | Some o' =>
      let st := set_out o' (lz4_st s) in
      let st := if flag (flags s) FBINDEP then set_window_start o' st else st in
      Ok (NUM_DECODE_STATUS + total_size, lz4_set_st st s, m)
  end.

(** [state] is uninitialised memory before the call: its client-visible part
    is passed in and only [decode] is set. *)
Definition lz4_init (m : mem) (st : decompressor_state lz4_decode_func) (in_ end_ : Z)
    : res (Z * lz4_dec_state) :=
  c_assert (end_ - in_ >=? 7);;
  flags ← ld8 m (in_ + 4);
  bd ← ld8 m (in_ + 5);
  let block_size_field := Z.land (Z.shiftr bd 4) 7 in
  let s := {| lz4_st := set_decode (Some Lz4DecodeBlock) st;
              max_block_size := u32 (Z.shiftl 256 (2 * block_size_field));
              flags := flags |} in
  let in_ := if flag flags FCSIZE then in_ + 8 else in_ in
  Ok (in_ + 7, s).

(** ** The LZ4 block format

    A length of 15 or more is a nibble of 15 followed by extension bytes. *)
Inductive ext_bytes : Z -> Z -> list Z -> Prop :=
| ext_last acc b : 0 <= b < 255 -> ext_bytes acc (acc + b) [b]
| ext_more acc n l : ext_bytes (acc + 255) n l -> ext_bytes acc n (255 :: l).

Inductive len_code : Z -> Z -> list Z -> Prop :=
| len_short n : 0 <= n < 15 -> len_code n n []
| len_long n l : ext_bytes 15 n l -> len_code 15 n l.

(** [lz4_block cap input w w']: decoding [input] extends the window [w] to
    [w'], which has at most [cap] bytes.  A block ends with literals; as the
    format's end-of-block rules demand, five bytes of room and the six input
    bytes that encode a five-byte literal run must remain after each match. *)
Inductive lz4_block (cap : Z) : list Z -> list Z -> list Z -> Prop :=
| lz4_last token ext lits w :
    len_code (Z.shiftr token 4) (zlen lits) ext -> Z.land token 15 = 0 ->
    zlen w + zlen lits <= cap ->
    lz4_block cap (token :: ext ++ lits) w (w ++ lits)
| lz4_seq token ext lits d0 d1 ext2 mlen rest w w' :
    len_code (Z.shiftr token 4) (zlen lits) ext ->
    1 <= d0 + 256 * d1 <= zlen (w ++ lits) ->
    len_code (Z.land token 15) mlen ext2 ->
    zlen (w ++ lits) + (mlen + 4) + 5 <= cap -> 6 <= zlen rest ->
    lz4_block cap rest (lz_match (Z.to_nat (mlen + 4)) (w ++ lits) (d0 + 256 * d1)) w' ->
    lz4_block cap (token :: ext ++ lits ++ d0 :: d1 :: ext2 ++ rest) w w'.

Lemma ext_bytes_ge acc n l : ext_bytes acc n l -> acc <= n /\ (1 <= length l)%nat.
Proof. induction 1; simpl in *; lia. Qed.

Lemma token_nibbles b : is_byte b -> 0 <= Z.shiftr b 4 <= 15 /\ 0 <= Z.land b 15 <= 15.
Proof.
  unfold is_byte. intros Hb. rewrite Z.shiftr_div_pow2 by lia.
  replace (Z.land b 15) with (b mod 16) by (symmetry; apply (land_ones_mod b 4); lia).
  change (2 ^ 4) with 16. dlia.
Qed.

Lemma extend_copy_ok fuel m in_ end_ copy input :
  mem_ok m -> bytes_at m in_ input -> end_ = in_ + zlen input ->
  (1 <= length input <= fuel)%nat -> 15 <= copy -> copy + 255 * zlen input < 2 ^ 32 ->
  exists r, lz4_extend_copy fuel m in_ end_ copy = Ok r /\
    forall copy' in', r = Some (copy', in') ->
      exists ext rest, input = ext ++ rest /\ ext_bytes copy copy' ext /\
        in' = in_ + zlen ext /\ copy' <= zlen rest.
Proof.
  intros Hok. revert in_ copy input.
  induction fuel as [|fuel IH]; intros in_ copy input Hat -> Hlen Hc Hb; [lia |].
  destruct input as [|b input]; simpl in Hlen; [lia |].
  apply bytes_at_cons in Hat as [Hb0 Hat]. assert (is_byte b) as Hbb by by apply (Hok _ _ Hb0).
  unfold is_byte in Hbb. simpl zlen in *. simpl. unfold ld8. rewrite Hb0. simpl.
  rewrite u32_small by lia.
  destruct (Z.ltb_spec (in_ + Z.of_nat (S (length input)) - (in_ + 1)) (copy + b)) as [|Hge].
  { eexists. split; [done |]. done. }
  destruct (Z.eqb_spec b 255) as [-> | Hne].
  - destruct (IH (in_ + 1) (copy + 255) input) as (r & Hr & Hspec); [done | lia | lia | lia | lia |].
    exists r. split; [rewrite <- Hr; f_equal; lia |]. intros copy' in' ->.
    destruct (Hspec _ _ eq_refl) as (ext & rest & -> & Hext & -> & Hle).
    exists (255 :: ext), rest. repeat split; [by constructor | simpl; lia | done].
  - eexists. split; [done |]. intros copy' in' [= <- <-].
    exists [b], input. repeat split; [by constructor; lia | simpl; lia].
Qed.

Lemma extend_length_ok fuel m in_ end_ restsize len input :
  mem_ok m -> bytes_at m in_ input -> end_ = in_ + zlen input ->
  (6 <= length input <= fuel)%nat -> 0 <= len -> len + 255 * zlen input < 2 ^ 32 ->
  exists r, lz4_extend_length fuel m in_ (end_ - 6) restsize len = Ok r /\
    forall len' in', r = Some (len', in') ->
      exists ext rest, input = ext ++ rest /\ ext_bytes len len' ext /\
        in' = in_ + zlen ext /\ len' <= restsize /\ 6 <= zlen rest.
Proof.
  intros Hok. revert in_ len input.
  induction fuel as [|fuel IH]; intros in_ len input Hat -> Hlen Hc Hb; [lia |].
  destruct input as [|b input]; simpl in Hlen; [lia |].
  apply bytes_at_cons in Hat as [Hb0 Hat]. assert (is_byte b) as Hbb by by apply (Hok _ _ Hb0).
  unfold is_byte in Hbb. simpl zlen in *. simpl. unfold ld8. rewrite Hb0. simpl.
  rewrite u32_small by lia.
  destruct (Z.ltb_spec restsize (len + b)) as [|Hge]; [eexists; split; [done |]; done |].
  destruct (Z.ltb_spec (in_ + Z.of_nat (S (length input)) - 6) (in_ + 1)) as [|Hge'];
    [eexists; split; [done |]; done |].
  destruct (Z.eqb_spec b 255) as [-> | Hne].
  - destruct (IH (in_ + 1) (len + 255) input) as (r & Hr & Hspec); [done | lia | lia | lia | lia |].
    exists r. split; [rewrite <- Hr; f_equal; lia |]. intros len' in' ->.
    destruct (Hspec _ _ eq_refl) as (ext & rest & -> & Hext & -> & Hle & H6).
    exists (255 :: ext), rest. repeat split; [by constructor | simpl; lia | done | done].
  - eexists. split; [done |]. intros len' in' [= <- <-].
    exists [b], input. repeat split; [by constructor; lia | simpl; lia | lia].
Qed.

Lemma ext_bytes_shift acc n l d : ext_bytes acc n l -> ext_bytes (acc + d) (n + d) l.
Proof.
  induction 1.
  - replace (acc + b + d) with (acc + d + b) by lia. by constructor.
  - constructor. by replace (acc + d + 255) with (acc + 255 + d) by lia.
Qed.

(** The two lengths of a token, with their extension bytes. *)
Lemma token_copy_ok m in_ end_ inp copy : mem_ok m -> bytes_at m in_ inp ->
  end_ = in_ + zlen inp -> 5 <= zlen inp <= 2 ^ 23 -> 0 <= copy <= 15 ->
  exists r, (if copy =? 15 then lz4_extend_copy (Z.to_nat (end_ - in_)) m in_ end_ copy
             else Ok (Some (copy, in_))) = Ok r /\
    forall copy' in', r = Some (copy', in') ->
      exists ext rest, inp = ext ++ rest /\ len_code copy copy' ext /\
        in' = in_ + zlen ext /\ 0 <= copy' <= 2 ^ 23.
Proof.
  intros Hok Hat -> Hlen Hc. destruct (Z.eqb_spec copy 15) as [-> | Hne].
  - destruct (extend_copy_ok (Z.to_nat (in_ + zlen inp - in_)) m in_ (in_ + zlen inp) 15 inp)
      as (r & Hr & Hspec); [done | done | done | lia | lia | lia |].
    exists r. split; [done |]. intros copy' in' ->.
    destruct (Hspec _ _ eq_refl) as (ext & rest & -> & Hext & -> & Hle).
    exists ext, rest. rewrite length_app in Hlen. apply ext_bytes_ge in Hext as Hge.
    split_and!; [done | by constructor | done | lia | lia].
  - eexists. split; [done |]. intros copy' in' [= <- <-].
    exists [], inp. simpl. split_and!; [done | constructor; lia | lia | lia | lia].
Qed.

Lemma token_length_ok m in_ end_ inp len restsize : mem_ok m -> bytes_at m in_ inp ->
  end_ = in_ + zlen inp -> 6 <= zlen inp <= 2 ^ 23 -> 0 <= len <= 15 -> len + 4 <= restsize ->
  exists r, (if len + 4 =? 19
             then lz4_extend_length (Z.to_nat (end_ - in_)) m in_ (end_ - 6) restsize (len + 4)
             else if end_ - 6 <? in_ then Ok None
             else Ok (Some (len + 4, in_))) = Ok r /\
    forall len' in', r = Some (len', in') ->
      exists ext rest, inp = ext ++ rest /\ len_code len (len' - 4) ext /\
        in' = in_ + zlen ext /\ 4 <= len' <= restsize /\ 6 <= zlen rest.
Proof.
  intros Hok Hat -> Hlen Hc Hr. destruct (Z.eqb_spec (len + 4) 19) as [Heq | Hne].
  - destruct (extend_length_ok (Z.to_nat (in_ + zlen inp - in_)) m in_ (in_ + zlen inp) restsize
      (len + 4) inp) as (r & Hr' & Hspec); [done | done | done | lia | lia | lia |].
    exists r. split; [done |]. intros len' in' ->.
    destruct (Hspec _ _ eq_refl) as (ext & rest & -> & Hext & -> & Hle & H6).
    exists ext, rest. apply ext_bytes_ge in Hext as Hge.
    apply (ext_bytes_shift _ _ _ (-4)) in Hext.
    assert (len = 15) as -> by lia.
    split_and!; [done | constructor; exact Hext | done | lia | lia | done].
  - destruct (Z.ltb_spec (in_ + zlen inp - 6) in_); [eexists; split; [done |]; done |].
    eexists. split; [done |]. intros len' in' [= <- <-].
    exists [], inp. simpl. split_and!; [done | | lia | lia | lia | lia].
    replace (len + 4 - 4) with len by lia. constructor. lia.
Qed.

Lemma lor_bytes_le b0 b1 : is_byte b0 -> is_byte b1 ->
  Z.lor b0 (u16 (Z.shiftl b1 8)) = b0 + 256 * b1.
Proof.
  unfold is_byte. intros H0 H1.
  rewrite u16_small by (rewrite Z.shiftl_mul_pow2 by lia; change (2 ^ 8) with 256; lia).
  rewrite lor_shiftl_add by (change (2 ^ 8) with 256; lia). change (2 ^ 8) with 256. lia.
Qed.

(** ** Soundness of the sequence loop *)
Definition lz4_post (ws out_end : Z) (m : mem) (w input : list Z) (r : option Z) (m' : mem) : Prop :=
  lz_frame out_end m m' (ws + zlen w) /\ mem_ok m' /\
  forall o', r = Some o' ->
    exists w', lz4_block (out_end - ws) input w w' /\ o' = ws + zlen w' /\ o' <= out_end /\ bytes_at m' ws w'.

(** A check that fails returns null and leaves the memory as it is. *)
Ltac lz4_fail := eexists None, _; try unfold lz4_post; split_and!; [done | apply lz_frame_refl | done | done].

(** The match part of a sequence, up to the next iteration. *)
Definition lz4_match_part (ws out_end : Z) (rec : mem -> Z -> Z -> res (option Z * mem)) (m : mem)
    (in_ end_ out length : Z) : res (option Z * mem) :=
  b0 ← ld8 m in_;
  b1 ← ld8 m (in_ + 1);
  let dist := Z.lor b0 (u16 (Z.shiftl b1 8)) in
  let in_ := in_ + 2 in
  if dist =? 0 then Ok (None, m)
  else if out - ws <? dist then Ok (None, m)
  else
    let length := length + 4 in
    if out_end - out <? length + 5 then Ok (None, m)
    else
      ext ← (if length =? 19
             then lz4_extend_length (Z.to_nat (end_ - in_)) m in_ (end_ - 6)
                    (u32 (out_end - out - 5)) length
             else if end_ - 6 <? in_ then Ok None
             else Ok (Some (length, in_)));
      match ext with
      | None => Ok (None, m)
      | Some (length, in_) =>
          m ← lzcommon_match_copy m out dist length;
          rec m in_ (out + length)
      end.

Section Lz4Loop.
Context (ws out_end : Z).

Lemma lz4_post_none m m' w input : lz_frame out_end m m' (ws + zlen w) -> mem_ok m' ->
  lz4_post ws out_end m w input None m'.
Proof. intros. split; [done |]. split; [done |]. done. Qed.

Lemma lz4_match_part_ok rec m w in_ end_ inp length :
  lz_inv ws out_end m w in_ inp -> end_ = in_ + zlen inp -> 8 <= zlen inp <= 2 ^ 23 ->
  0 <= length <= 15 -> out_end - (ws + zlen w) <= 2 ^ 31 ->
  (forall m' w' rest in', lz_inv ws out_end m' w' in' rest -> end_ = in' + zlen rest ->
     6 <= zlen rest <= zlen inp -> ws + zlen w' + 5 <= out_end -> zlen w <= zlen w' ->
     exists r m'', rec m' in' (ws + zlen w') = Ok (r, m'') /\
       lz4_post ws out_end m' w' rest r m'') ->
  exists r m', lz4_match_part ws out_end rec m in_ end_ (ws + zlen w) length = Ok (r, m') /\
    lz_frame out_end m m' (ws + zlen w) /\ mem_ok m' /\
    forall o', r = Some o' -> exists d0 d1 ext2 mlen rest w',
      inp = d0 :: d1 :: ext2 ++ rest /\ 1 <= d0 + 256 * d1 <= zlen w /\
      len_code length mlen ext2 /\
      zlen w + (mlen + 4) + 5 <= out_end - ws /\ 6 <= zlen rest /\
      lz4_block (out_end - ws) rest (lz_match (Z.to_nat (mlen + 4)) w (d0 + 256 * d1)) w' /\
      o' = ws + zlen w' /\ o' <= out_end /\ bytes_at m' ws w'.
Proof.
  intros Hinv -> Hlen Hl Hout Hrec. pose proof (inv_ok _ _ _ _ _ _ Hinv) as Hok.
  destruct inp as [|d0 [|d1 inp]]; [simpl in Hlen; lia | simpl in Hlen; lia |].
  pose proof (inv_in _ _ _ _ _ _ Hinv) as Hat.
  apply bytes_at_cons in Hat as [H0 Hat]. apply bytes_at_cons in Hat as [H1 Hat].
  assert (is_byte d0) as Hb0 by by apply (Hok _ _ H0).
  assert (is_byte d1) as Hb1 by by apply (Hok _ _ H1).
  unfold lz4_match_part, ld8. rewrite H0. cbn [mbind res_bind]. rewrite H1. cbn [mbind res_bind].
  rewrite lor_bytes_le by done. set (dist := d0 + 256 * d1).
  destruct (Z.eqb_spec dist 0); [lz4_fail |].
  replace (ws + zlen w - ws) with (zlen w) by lia.
  destruct (Z.ltb_spec (zlen w) dist); [lz4_fail |].
  destruct (Z.ltb_spec (out_end - (ws + zlen w)) (length + 4 + 5));
    [lz4_fail |].
  rewrite u32_small by lia. simpl zlen in *.
  replace (in_ + Z.of_nat (S (S (Datatypes.length inp)))) with (in_ + 2 + zlen inp) by lia.
  destruct (token_length_ok m (in_ + 2) (in_ + 2 + zlen inp) inp length (out_end - (ws + zlen w) - 5))
    as (ext & -> & Hext);
    [done | by replace (in_ + 2) with (in_ + 1 + 1) by lia | done | lia | done | lia |].
  cbn [mbind res_bind]. destruct ext as [[len' in']|];
    [| lz4_fail].
  destruct (Hext _ _ eq_refl) as (ext2 & rest & -> & Hcode & -> & Hlen' & H6).
  rewrite length_app in *. unfold is_byte in *.
  destruct (lz_inv_match ws out_end m w in_ (d0 :: d1 :: ext2 ++ rest) dist len')
    as (m1 & Hm1 & Hinv1 & Hfr1); [done | lia | lia | lia |].
  rewrite Hm1. cbn [mbind res_bind].
  apply (lz_inv_drop ws out_end m1 _ in_ (d0 :: d1 :: ext2) rest) in Hinv1.
  set (w1 := lz_match (Z.to_nat len') w dist) in *.
  assert (zlen w1 = zlen w + len') as Hw1 by (subst w1; rewrite lz_match_length; lia).
  simpl zlen in Hinv1.
  destruct (Hrec m1 w1 rest (in_ + Z.of_nat (S (S (Datatypes.length ext2)))))
    as (r & m2 & Hr & Hfr2 & Hok2 & Hres); [done | lia | lia | lia | lia |].
  exists r, m2. split.
  { rewrite <- Hr. f_equal; lia. }
  split_and!.
  - eapply lz_frame_trans; [| exact Hfr1 | exact Hfr2]. lia.
  - done.
  - intros o' ->. destruct (Hres _ eq_refl) as (w' & Hblk & ? & ? & ?).
    exists d0, d1, ext2, (len' - 4), rest, w'. split_and!; try done; try lia.
    by replace (len' - 4 + 4) with len' by lia.
Qed.

Lemma lz4_sequences_ok fuel m w in_ end_ input :
  lz_inv ws out_end m w in_ input -> end_ = in_ + zlen input ->
  6 <= zlen input <= 2 ^ 23 -> zlen input <= Z.of_nat fuel ->
  ws + zlen w + 5 <= out_end -> out_end - (ws + zlen w) <= 2 ^ 31 ->
  exists r m', lz4_sequences fuel m in_ end_ (ws + zlen w) out_end ws = Ok (r, m') /\
    lz4_post ws out_end m w input r m'.
Proof.
  revert m w in_ input.
  induction fuel as [|fuel IH]; intros m w in_ input Hinv -> Hlen Hfuel Hsp Hout; [lia |].
  destruct input as [|token inp]; [simpl in Hlen; lia |]. simpl zlen in *.
  pose proof (inv_ok _ _ _ _ _ _ Hinv) as Hok.
  pose proof (inv_in _ _ _ _ _ _ Hinv) as Hat. apply bytes_at_cons in Hat as [Htok Hat].
  destruct (token_nibbles token) as [Hn1 Hn2]; [by apply (Hok _ _ Htok) |].
  cbn [lz4_sequences].
  do 2 assert_ok.
  rewrite (ld8_eq _ _ _ Htok). cbn [mbind res_bind].
  set (end_ := in_ + Z.of_nat (S (length inp))) in *.
  destruct (token_copy_ok m (in_ + 1) end_ inp (Z.shiftr token 4)) as (ext & Hext & Hspec);
    [done | done | subst end_; lia | lia | done |].
  rewrite Hext. clear Hext. cbn [mbind res_bind].
  destruct ext as [[copy in']|]; [| lz4_fail].
  destruct (Hspec _ _ eq_refl) as (ext & rest & Hinp & Hcode & -> & Hcopy).
  assert (end_ = in_ + 1 + zlen ext + zlen rest) as Hend
    by (subst end_ inp; rewrite length_app; lia).
  clearbody end_. subst inp. rewrite length_app in *.
  destruct (Z.ltb_spec (out_end - (ws + zlen w)) copy); [lz4_fail |].
  rewrite u32_small by lia.
  destruct (Z.ltb_spec (end_ - (in_ + 1 + zlen ext)) (copy + 8)) as [Hfin | Hmore].
  - (* the final literals *)
    destruct (Z.eqb_spec (end_ - (in_ + 1 + zlen ext)) copy) as [Heq |]; [| lz4_fail].
    destruct (Z.eqb_spec (Z.land token 15) 0); [| lz4_fail]. cbn [negb].
    assert (copy = zlen rest) as -> by lia.
    destruct (lz_inv_literals ws out_end m w (in_ + 1 + zlen ext) rest [])
      as (m1 & Hm1 & Hinv1 & Hfr); [| lia |].
    { rewrite app_nil_r. replace (in_ + 1 + zlen ext) with (in_ + zlen (token :: ext)) by (simpl; lia).
      by apply lz_inv_drop. }
    rewrite Hm1. cbn [mbind res_bind].
    exists (Some (ws + zlen w + zlen rest)), m1. split; [done |]. split; [done |].
    split; [by apply (inv_ok _ _ _ _ _ _ Hinv1) |]. intros o' [= <-].
    exists (w ++ rest). rewrite length_app.
    split_and!; [by constructor; [done | done | lia] | lia | lia | by apply (inv_win _ _ _ _ _ _ Hinv1)].
  - (* literals and a match *)
    set (lits := take (Z.to_nat copy) rest). set (rest' := drop (Z.to_nat copy) rest).
    assert (rest = lits ++ rest') as Hrest by (subst lits rest'; by rewrite take_drop).
    assert (copy = zlen lits) as Hlits by (subst lits; rewrite length_take; lia).
    rewrite Hrest, Hlits in *. rewrite length_app in *. clearbody lits rest'. clear Hrest rest copy Hlits.
    destruct (lz_inv_literals ws out_end m w (in_ + 1 + zlen ext) lits rest')
      as (m1 & Hm1 & Hinv1 & Hfr1); [| lia |].
    { replace (in_ + 1 + zlen ext) with (in_ + zlen (token :: ext)) by (simpl; lia).
      by apply lz_inv_drop. }
    rewrite Hm1. cbn [mbind res_bind].
    destruct (lz4_match_part_ok (fun m i o => lz4_sequences fuel m i end_ o out_end ws) m1 (w ++ lits)
      (in_ + 1 + zlen ext + zlen lits) end_ rest' (Z.land token 15))
      as (r & m2 & Hr & Hfr2 & Hok2 & Hres);
      [done | lia | lia | done | rewrite length_app; lia | |].
    { intros m' w' rest'' in' Hi He Hl1 Hl2 Hl3. apply IH; [done | done | lia | lia | done |].
      rewrite length_app in Hl3. lia. }
    rewrite length_app, Nat2Z.inj_add in Hr, Hfr2, Hres.
    exists r, m2. split; [rewrite <- Hr; unfold lz4_match_part; by rewrite Z.add_assoc |].
    split; [eapply lz_frame_trans; [| exact Hfr1 | exact Hfr2]; lia |]. split; [done |].
    intros o' ->. destruct (Hres _ eq_refl) as
      (d0 & d1 & ext2 & mlen & rest & w' & -> & Hd & Hc2 & Hcap & H6 & Hblk & ? & ? & ?).
    exists w'. split_and!; try done.
    eapply lz4_seq; try done; rewrite length_app, Nat2Z.inj_add in *; lia.
Qed.
End Lz4Loop.

Lemma lz4_decompress_block_ok ws out_end m w in_ end_ input :
  lz_inv ws out_end m w in_ input -> end_ = in_ + zlen input -> zlen input <= 2 ^ 23 ->
  zlen input <= out_end - (ws + zlen w) <= 2 ^ 31 ->
  exists r m', lz4_decompress_block m in_ end_ (ws + zlen w) out_end ws = Ok (r, m') /\
    lz4_post ws out_end m w input r m'.
Proof.
  intros Hinv -> Hlen Hout. pose proof (inv_ok _ _ _ _ _ _ Hinv) as Hok.
  unfold lz4_decompress_block. assert_ok.
  destruct (Z.leb_spec (in_ + zlen input) in_); [lz4_fail |].
  replace (in_ + zlen input - in_) with (zlen input) by lia.
  destruct (Z.ltb_spec (zlen input) 6).
  2: { apply lz4_sequences_ok; [done | done | lia | lia | lia | lia]. }
  destruct input as [|token lits]; [simpl in *; lia |]. simpl zlen in *.
  pose proof (inv_in _ _ _ _ _ _ Hinv) as Hat. apply bytes_at_cons in Hat as [Htok Hat].
  assert (is_byte token) as Hb by by apply (Hok _ _ Htok).
  rewrite (ld8_eq _ _ _ Htok). cbn [mbind res_bind].
  destruct (Z.eqb_spec ((in_ + Z.of_nat (S (length lits)) - (in_ + 1)) * 16) token) as [Heq |];
    [| lz4_fail]. cbn [negb].
  assert (token = zlen lits * 16) as -> by lia. clear Heq.
  assert (Z.shiftr (zlen lits * 16) 4 = zlen lits) as Hsh
    by (rewrite Z.shiftr_div_pow2 by lia; change (2 ^ 4) with 16; by rewrite Z.div_mul).
  rewrite Hsh. destruct (Z.ltb_spec (out_end - (ws + zlen w)) (zlen lits)); [lz4_fail |].
  pose proof Hinv as [_ Hw _ Haw Hai Hd Hp Ho Ht]. simpl zlen in *.
  destruct (byte_copy_disjoint lits m (ws + zlen w) (in_ + 1)) as (m' & Hm' & Hat' & Hfr & Hdom & Hok');
    [done | done | eapply accessible_sub; [exact Haw | lia | unfold LZCOMMON_BLOCK; lia]
    | unfold LZCOMMON_BLOCK in *; lia |].
  rewrite Nat2Z.id, Hm'. cbn [mbind res_bind]. eexists _, m'. split; [done |].
  split; [| split; [done |]].
  - split; [| done]. eapply frame_weaken; [exact Hfr | lia | unfold LZCOMMON_BLOCK; lia].
  - intros o' [= <-]. exists (w ++ lits). rewrite length_app. split_and!; [| lia | lia |].
    + apply (lz4_last _ _ []); [| | lia].
      * rewrite Hsh. constructor. lia.
      * change 15 with (2 ^ 4 - 1). rewrite land_ones_mod by lia. apply Z.mod_mul. lia.
    + apply bytes_at_app. split; [| done]. eapply bytes_at_frame; [exact Hfr | done | lia].
Qed.

(** ** Completeness: every well-formed block is accepted *)
Lemma extend_copy_complete fuel m in_ end_ copy n ext rest :
  ext_bytes copy n ext -> bytes_at m in_ (ext ++ rest) -> end_ = in_ + zlen (ext ++ rest) ->
  (length ext <= fuel)%nat -> 0 <= copy -> n < 2 ^ 32 -> n <= zlen rest ->
  lz4_extend_copy fuel m in_ end_ copy = Ok (Some (n, in_ + zlen ext)).
Proof.
  intros Hext. revert fuel in_ end_.
  induction Hext as [acc b Hb | acc n l Hext IH]; intros fuel in_ end_ Hat -> Hf Hc Hn Hr;
    destruct fuel as [|fuel]; simpl in Hf; try lia;
    simpl app in Hat; apply bytes_at_cons in Hat as [H0 Hat];
    cbn [lz4_extend_copy]; rewrite (ld8_eq _ _ _ H0); cbn [mbind res_bind];
    rewrite length_app; simpl length.
  - rewrite u32_small by lia. destruct (Z.ltb_spec (in_ + Z.of_nat (1 + length rest) - (in_ + 1)) (acc + b));
      [lia |]. destruct (Z.eqb_spec b 255); [lia |]. do 3 f_equal.
  - apply ext_bytes_ge in Hext as Hge. rewrite u32_small by lia.
    destruct (Z.ltb_spec (in_ + Z.of_nat (S (length l) + length rest) - (in_ + 1)) (acc + 255)); [lia |].
    rewrite Z.eqb_refl.
    rewrite IH; [do 3 f_equal; lia | done | rewrite length_app; lia | lia | lia | lia | lia].
Qed.

Lemma extend_length_complete fuel m in_ end_ restsize len n ext rest :
  ext_bytes len n ext -> bytes_at m in_ (ext ++ rest) -> end_ = in_ + zlen (ext ++ rest) ->
  (length ext <= fuel)%nat -> 0 <= len -> n < 2 ^ 32 -> n <= restsize -> 6 <= zlen rest ->
  lz4_extend_length fuel m in_ (end_ - 6) restsize len = Ok (Some (n, in_ + zlen ext)).
Proof.
  intros Hext. revert fuel in_ end_.
  induction Hext as [acc b Hb | acc n l Hext IH]; intros fuel in_ end_ Hat -> Hf Hc Hn Hr H6;
    destruct fuel as [|fuel]; simpl in Hf; try lia;
    simpl app in Hat; apply bytes_at_cons in Hat as [H0 Hat];
    cbn [lz4_extend_length]; rewrite (ld8_eq _ _ _ H0); cbn [mbind res_bind];
    rewrite length_app; simpl length.
  - rewrite u32_small by lia. destruct (Z.ltb_spec restsize (acc + b)); [lia |].
    destruct (Z.ltb_spec (in_ + Z.of_nat (1 + length rest) - 6) (in_ + 1)); [lia |].
    destruct (Z.eqb_spec b 255); [lia |]. done.
  - apply ext_bytes_ge in Hext as Hge. rewrite u32_small by lia.
    destruct (Z.ltb_spec restsize (acc + 255)); [lia |].
    destruct (Z.ltb_spec (in_ + Z.of_nat (S (length l) + length rest) - 6) (in_ + 1)); [lia |].
    rewrite Z.eqb_refl.
    replace (in_ + Z.of_nat (S (length l) + length rest) - 6) with (in_ + 1 + zlen (l ++ rest) - 6)
      by (rewrite length_app; lia).
    rewrite (IH fuel (in_ + 1) (in_ + 1 + zlen (l ++ rest)));
      [do 3 f_equal; lia | done | done | lia | lia | lia | lia | lia].
Qed.

Lemma len_code_nonneg k n l : len_code k n l -> 0 <= k <= 15 /\ k <= n.
Proof. destruct 1 as [|n l Hext]; [lia |]. apply ext_bytes_ge in Hext. lia. Qed.

Lemma token_copy_complete m in_ end_ copy n ext rest :
  len_code copy n ext -> bytes_at m in_ (ext ++ rest) -> end_ = in_ + zlen (ext ++ rest) ->
  n < 2 ^ 32 -> n <= zlen rest ->
  (if copy =? 15 then lz4_extend_copy (Z.to_nat (end_ - in_)) m in_ end_ copy
   else Ok (Some (copy, in_))) = Ok (Some (n, in_ + zlen ext)).
Proof.
  intros Hc Hat He Hn Hr. destruct Hc as [n Hs | n l Hext].
  - destruct (Z.eqb_spec n 15); [lia |]. simpl. do 3 f_equal. lia.
  - rewrite Z.eqb_refl. eapply extend_copy_complete; try done.
    subst. rewrite length_app. lia.
Qed.

Lemma token_length_complete m in_ end_ restsize len n ext rest :
  len_code len n ext -> bytes_at m in_ (ext ++ rest) -> end_ = in_ + zlen (ext ++ rest) ->
  n + 4 < 2 ^ 32 -> n + 4 <= restsize -> 6 <= zlen rest ->
  (if len + 4 =? 19
   then lz4_extend_length (Z.to_nat (end_ - in_)) m in_ (end_ - 6) restsize (len + 4)
   else if end_ - 6 <? in_ then Ok None
   else Ok (Some (len + 4, in_))) = Ok (Some (n + 4, in_ + zlen ext)).
Proof.
  intros Hc Hat He Hn Hr H6. destruct Hc as [n Hs | n l Hext].
  - destruct (Z.eqb_spec (n + 4) 19); [lia |]. simpl in *. subst.
    destruct (Z.ltb_spec (in_ + zlen rest - 6) in_); [lia |]. do 3 f_equal. lia.
  - rewrite Z.eqb_refl. apply (ext_bytes_shift _ _ _ 4) in Hext.
    eapply extend_length_complete; try done.
    subst. rewrite length_app. lia.
Qed.

Section Lz4Complete.
Context (ws out_end : Z).

(** The match of a well-formed sequence is performed and the loop goes on. *)
Lemma lz4_match_part_complete rec m w in_ end_ d0 d1 ext2 rest len mlen :
  lz_inv ws out_end m w in_ (d0 :: d1 :: ext2 ++ rest) ->
  end_ = in_ + zlen (d0 :: d1 :: ext2 ++ rest) ->
  1 <= d0 + 256 * d1 <= zlen w -> len_code len mlen ext2 ->
  zlen w + (mlen + 4) + 5 <= out_end - ws -> 6 <= zlen rest ->
  out_end - (ws + zlen w) <= 2 ^ 31 ->
  let w' := lz_match (Z.to_nat (mlen + 4)) w (d0 + 256 * d1) in
  let in' := in_ + zlen (d0 :: d1 :: ext2) in
  exists m', lz_inv ws out_end m' w' in' rest /\ zlen w' = zlen w + mlen + 4 /\
    lz4_match_part ws out_end rec m in_ end_ (ws + zlen w) len = rec m' in' (ws + zlen w').
Proof.
  intros Hinv -> Hd Hcode Hcap H6 Hout w' in'.
  pose proof (inv_in _ _ _ _ _ _ Hinv) as Hat. pose proof (inv_ok _ _ _ _ _ _ Hinv) as Hok.
  apply bytes_at_cons in Hat as [Hb0 Hat]. apply bytes_at_cons in Hat as [Hb1 Hat].
  pose proof (len_code_nonneg _ _ _ Hcode) as Hn. unfold lz4_match_part.
  rewrite (ld8_eq _ _ _ Hb0). cbn [mbind res_bind]. rewrite (ld8_eq _ _ _ Hb1). cbn [mbind res_bind].
  rewrite lor_bytes_le by (eapply Hok; done). set (dist := d0 + 256 * d1) in *.
  destruct (Z.eqb_spec dist 0); [lia |].
  destruct (Z.ltb_spec (ws + zlen w - ws) dist); [lia |].
  destruct (Z.ltb_spec (out_end - (ws + zlen w)) (len + 4 + 5)); [lia |].
  rewrite u32_small by lia. simpl zlen in *.
  rewrite (token_length_complete m (in_ + 2) (in_ + Z.of_nat (S (S (length (ext2 ++ rest))))) _ _ mlen ext2 rest)
    by (done || lia || by replace (in_ + 2) with (in_ + 1 + 1) by lia).
  cbn [mbind res_bind].
  destruct (lz_inv_match ws out_end m w _ _ dist (mlen + 4) Hinv) as (m' & -> & Hinv' & _);
    [lia | lia | lia |].
  apply (lz_inv_drop ws out_end m' _ _ (d0 :: d1 :: ext2) rest) in Hinv'.
  assert (zlen w' = zlen w + mlen + 4) as Hw' by (subst w'; rewrite lz_match_length; lia).
  exists m'. split_and!; [done | done |]. cbn [mbind res_bind].
  subst in'. simpl zlen. f_equal; lia.
Qed.

Lemma lz4_sequences_complete input w w' : lz4_block (out_end - ws) input w w' ->
  forall fuel m in_ end_,
  lz_inv ws out_end m w in_ input -> end_ = in_ + zlen input ->
  6 <= zlen input <= 2 ^ 23 -> zlen input <= Z.of_nat fuel ->
  ws + zlen w + 5 <= out_end -> out_end - (ws + zlen w) <= 2 ^ 31 ->
  exists m', lz4_sequences fuel m in_ end_ (ws + zlen w) out_end ws
             = Ok (Some (ws + zlen w'), m') /\ bytes_at m' ws w'.
Proof.
  induction 1 as [token ext lits w Hcode Hz Hcap
                 |token ext lits d0 d1 ext2 mlen rest w w' Hcode Hd Hcode2 Hcap H6 Hblk IH];
    intros fuel m in_ end_ Hinv -> Hlen Hfuel Hsp Hout;
    (destruct fuel as [|fuel]; [lia |]); simpl zlen in *; rewrite length_app in *;
    pose proof (inv_in _ _ _ _ _ _ Hinv) as Hat; apply bytes_at_cons in Hat as [Htok Hat];
    cbn [lz4_sequences]; do 2 assert_ok; rewrite (ld8_eq _ _ _ Htok); cbn [mbind res_bind];
    apply (lz_inv_drop ws out_end m w in_ (token :: ext)) in Hinv as Hinv0;
    replace (in_ + zlen (token :: ext)) with (in_ + 1 + zlen ext) in Hinv0 by (simpl; lia).
  - rewrite (token_copy_complete m (in_ + 1) _ _ (zlen lits) ext lits)
      by (done || lia || (rewrite length_app; lia)).
    cbn [mbind res_bind].
    destruct (Z.ltb_spec (out_end - (ws + zlen w)) (zlen lits)); [lia |].
    rewrite u32_small by lia.
    match goal with |- context [?a <? zlen lits + 8] => destruct (Z.ltb_spec a (zlen lits + 8)); [| lia] end.
    match goal with |- context [?a =? zlen lits] => destruct (Z.eqb_spec a (zlen lits)); [| lia] end.
    rewrite Hz. cbn [negb Z.eqb].
    destruct (lz_inv_literals ws out_end m w (in_ + 1 + zlen ext) lits []) as (m1 & -> & Hinv1 & _);
      [by rewrite app_nil_r | lia |].
    cbn [mbind res_bind]. exists m1. rewrite length_app. split; [do 3 f_equal; lia |].
    by apply (inv_win _ _ _ _ _ _ Hinv1).
  - assert (zlen (d0 :: d1 :: ext2 ++ rest) = 2 + zlen ext2 + zlen rest) as Htl
      by (simpl; rewrite length_app; lia).
    rewrite !length_app, Nat2Z.inj_add in *.
    pose proof (len_code_nonneg _ _ _ Hcode2).
    rewrite (token_copy_complete m (in_ + 1) _ _ (zlen lits) ext (lits ++ d0 :: d1 :: ext2 ++ rest))
      by (done || rewrite ?length_app; lia).
    cbn [mbind res_bind].
    destruct (Z.ltb_spec (out_end - (ws + zlen w)) (zlen lits)); [lia |].
    rewrite u32_small by lia.
    match goal with |- context [?a <? zlen lits + 8] => destruct (Z.ltb_spec a (zlen lits + 8)); [lia |] end.
    destruct (lz_inv_literals ws out_end m w _ lits _ Hinv0) as (m1 & -> & Hinv1 & _); [lia |].
    cbn [mbind res_bind].
    set (end_ := in_ + Z.of_nat (S (length ext + (length lits + length (d0 :: d1 :: ext2 ++ rest))))) in *.
    destruct (lz4_match_part_complete (fun m i o => lz4_sequences fuel m i end_ o out_end ws)
      m1 (w ++ lits) _ end_ d0 d1 ext2 rest (Z.land token 15) mlen Hinv1) as (m2 & Hinv2 & Hw2 & Hstep);
      [subst end_; lia | rewrite length_app; lia | done | rewrite length_app; lia | done
      | rewrite length_app; lia |].
    rewrite length_app in Hw2.
    destruct (IH fuel m2 _ end_ Hinv2) as (m' & Hm' & Hat');
      [subst end_; simpl in *; lia | lia | lia | lia | lia |].
    exists m'. split; [| done]. rewrite <- Hm', <- Hstep, length_app, Nat2Z.inj_add, Z.add_assoc. done.
Qed.

Lemma lz4_block_short cap input w w' : lz4_block cap input w w' -> zlen input < 6 ->
  Forall is_byte input ->
  exists lits, input = zlen lits * 16 :: lits /\ w' = w ++ lits /\ zlen w + zlen lits <= cap.
Proof.
  destruct 1 as [token ext lits w Hcode Hz Hcap | token ext lits d0 d1 ext2 mlen rest w w'];
    simpl; rewrite !length_app; [| simpl; rewrite length_app; lia].
  intros Hlen [Hb _]%Forall_cons_1. inversion Hcode as [n Hs Heq | n l Hext%ext_bytes_ge]; subst.
  - exists lits. split_and!; [| done | done]. f_equal. unfold is_byte in Hb.
    rewrite Z.shiftr_div_pow2 in * by lia. change 15 with (2 ^ 4 - 1) in Hz.
    rewrite land_ones_mod in Hz by lia. dlia.
  - lia.
Qed.

Lemma lz4_decompress_block_complete m w in_ end_ input w' :
  lz_inv ws out_end m w in_ input -> end_ = in_ + zlen input -> zlen input <= 2 ^ 23 ->
  zlen input <= out_end - (ws + zlen w) <= 2 ^ 31 -> lz4_block (out_end - ws) input w w' ->
  exists m', lz4_decompress_block m in_ end_ (ws + zlen w) out_end ws
             = Ok (Some (ws + zlen w'), m') /\ bytes_at m' ws w'.
Proof.
  intros Hinv -> Hlen Hout Hblk. unfold lz4_decompress_block. assert_ok.
  assert (1 <= zlen input) by (destruct Hblk; simpl; lia).
  destruct (Z.leb_spec (in_ + zlen input) in_); [lia |].
  destruct (Z.ltb_spec (in_ + zlen input - in_) 6) as [H6 | H6];
    [| apply (lz4_sequences_complete _ _ _ Hblk); [done | done | lia | lia | lia | lia]].
  pose proof Hinv as [Hok Hw Hat Haw Hai Hd Hp Ho Ht].
  destruct (lz4_block_short _ _ _ _ Hblk) as (lits & -> & -> & Hcap);
    [lia | by eapply bytes_at_is_byte |].
  apply bytes_at_cons in Hat as [Htok Hat]. simpl zlen in *.
  rewrite (ld8_eq _ _ _ Htok). cbn [mbind res_bind].
  replace (in_ + Z.of_nat (S (length lits)) - (in_ + 1)) with (zlen lits) by lia.
  rewrite Z.eqb_refl. cbn [negb]. rewrite Z.shiftr_div_pow2 by lia.
  change (2 ^ 4) with 16. rewrite Z.div_mul by lia.
  destruct (Z.ltb_spec (out_end - (ws + zlen w)) (zlen lits)); [lia |].
  destruct (byte_copy_disjoint lits m (ws + zlen w) (in_ + 1)) as (m' & Hm' & Hat' & Hfr & _);
    [done | done | eapply accessible_sub; [exact Haw | lia | unfold LZCOMMON_BLOCK; lia]
    | unfold LZCOMMON_BLOCK in *; lia |].
  rewrite Nat2Z.id, Hm'. cbn [mbind res_bind]. exists m'.
  rewrite length_app. split; [do 3 f_equal; lia |].
  apply bytes_at_app. split; [| done]. eapply bytes_at_frame; [exact Hfr | done | lia].
Qed.
End Lz4Complete.

(** ** The block decoder of a frame

    What one call of [decode_block] does, on every branch: the returned code,
    the new state and the new contents of the window. *)
Definition lz4_advance (s : lz4_dec_state) (o : Z) : lz4_dec_state :=
  let st := set_out o (lz4_st s) in
  lz4_set_st (if flag (flags s) FBINDEP then set_window_start o st else st) s.

Definition lz4_total (s : lz4_dec_state) (n : Z) : Z :=
  if flag (flags s) FBCHECKSUM then n + 8 else n + 4.

(** The room that a compressed block may fill, counted from the window start. *)
Definition lz4_cap (s : lz4_dec_state) : Z :=
  Z.min (out_end (lz4_st s)) (out (lz4_st s) + max_block_size s) - window_start (lz4_st s).

Inductive lz4_block_spec (s : lz4_dec_state) (w : list Z) : list Z -> Z -> lz4_dec_state -> list Z -> Prop :=
| spec_short input : zlen input < 4 -> lz4_block_spec s w input DECODE_ERR s w
| spec_end hdr rest : length hdr = 4%nat -> le_val hdr mod 2 ^ 31 = 0 ->
    lz4_block_spec s w (hdr ++ rest) (NUM_DECODE_STATUS + 4)
      (lz4_set_st (set_decode (Some Lz4DecodeTrailer) (lz4_st s)) s) w
| spec_too_large hdr rest : length hdr = 4%nat -> max_block_size s < le_val hdr mod 2 ^ 31 ->
    lz4_block_spec s w (hdr ++ rest) DECODE_ERR s w
| spec_more_data hdr rest : length hdr = 4%nat -> le_val hdr mod 2 ^ 31 <= max_block_size s ->
    zlen rest < le_val hdr mod 2 ^ 31 -> lz4_block_spec s w (hdr ++ rest) DECODE_NEED_MORE_DATA s w
| spec_more_space hdr data rest : length hdr = 4%nat -> le_val hdr mod 2 ^ 31 = zlen data ->
    0 < zlen data <= max_block_size s -> out_end (lz4_st s) - out (lz4_st s) < zlen data ->
    lz4_block_spec s w (hdr ++ data ++ rest) DECODE_NEED_MORE_SPACE s w
| spec_raw hdr data rest : length hdr = 4%nat -> le_val hdr = 2 ^ 31 + zlen data ->
    0 < zlen data <= max_block_size s -> zlen data <= out_end (lz4_st s) - out (lz4_st s) ->
    lz4_block_spec s w (hdr ++ data ++ rest) (NUM_DECODE_STATUS + lz4_total s (zlen data))
      (lz4_advance s (out (lz4_st s) + zlen data)) (w ++ data)
| spec_compressed hdr data rest w' : length hdr = 4%nat -> le_val hdr = zlen data ->
    0 < zlen data <= max_block_size s -> zlen data <= out_end (lz4_st s) - out (lz4_st s) ->
    lz4_block (lz4_cap s) data w w' ->
    lz4_block_spec s w (hdr ++ data ++ rest) (NUM_DECODE_STATUS + lz4_total s (zlen data))
      (lz4_advance s (window_start (lz4_st s) + zlen w')) w'
| spec_corrupt hdr data rest : length hdr = 4%nat -> le_val hdr = zlen data ->
    0 < zlen data <= max_block_size s -> zlen data <= out_end (lz4_st s) - out (lz4_st s) ->
    (forall w', ~ lz4_block (lz4_cap s) data w w') ->
    lz4_block_spec s w (hdr ++ data ++ rest) DECODE_ERR s w.

(** The state between two calls: the window holds [w] and [input] is next. *)
Record lz4_ready (m : mem) (s : lz4_dec_state) (w : list Z) (in_ : Z) (input : list Z) : Prop := {
  ready_inv : lz_inv (window_start (lz4_st s)) (out_end (lz4_st s)) m w in_ input;
  ready_out : out (lz4_st s) = window_start (lz4_st s) + zlen w;
  ready_max : 0 <= max_block_size s <= 2 ^ 22;
}.

Lemma size_field v : 0 <= v < 2 ^ 32 ->
  Z.land v 0x7fffffff = v mod 2 ^ 31 /\
  (flag v (2 ^ 31) = true /\ v = 2 ^ 31 + v mod 2 ^ 31 \/ flag v (2 ^ 31) = false /\ v = v mod 2 ^ 31).
Proof.
  intros Hv. split; [apply (land_ones_mod v 31); lia |].
  rewrite flag_bit by lia. pose proof (Z.testbit_spec' v 31 ltac:(lia)) as Ht.
  destruct (Z.testbit v 31); simpl in Ht; [left | right]; split; try done; dlia.
Qed.

(** A shorter limit than the end of the output buffer is still in the buffer. *)
Lemma lz_inv_limit ws oe oe' m w in_ input : lz_inv ws oe m w in_ input ->
  oe' <= oe -> ws + zlen w <= oe' -> lz_inv ws oe' m w in_ input.
Proof.
  intros [Hok Hw Hi Haw Hai Hd Hp Ho Ht] Hle Hge. constructor; try done; try lia.
  eapply accessible_sub; [exact Haw | lia | lia].
Qed.

Lemma lz_inv_take ws oe m w in_ l1 l2 : lz_inv ws oe m w in_ (l1 ++ l2) -> lz_inv ws oe m w in_ l1.
Proof.
  intros [Hok Hw Hi Haw Hai Hd Hp Ho Ht]. rewrite length_app in *.
  apply bytes_at_app in Hi as [Hi _]. constructor; try done; try lia.
  eapply accessible_sub; [exact Hai | lia | lia].
Qed.

(** The compressed branch, with the exact answer of the block decompressor. *)
Lemma lz4_compressed_ok m s w in_ data : lz4_ready m s w in_ data ->
  0 < zlen data <= max_block_size s -> zlen data <= out_end (lz4_st s) - out (lz4_st s) ->
  exists r m', lz4_decompress_block m in_ (in_ + zlen data) (out (lz4_st s))
      (if out_end (lz4_st s) - out (lz4_st s) <? max_block_size s then out_end (lz4_st s)
       else out (lz4_st s) + max_block_size s) (window_start (lz4_st s)) = Ok (r, m') /\
    lz_frame (out_end (lz4_st s)) m m' (out (lz4_st s)) /\ mem_ok m' /\
    ((exists w', lz4_block (lz4_cap s) data w w' /\ r = Some (window_start (lz4_st s) + zlen w') /\
        bytes_at m' (window_start (lz4_st s)) w') \/
     r = None /\ forall w', ~ lz4_block (lz4_cap s) data w w').
Proof.
  intros [Hinv Ho Hm] Hd Hsp. unfold lz4_cap.
  set (limit := if _ <? _ then _ else _).
  assert (limit = Z.min (out_end (lz4_st s)) (out (lz4_st s) + max_block_size s)) as Hl
    by (subst limit; case_bool; lia).
  rewrite <- Hl. clearbody limit. rewrite Ho in *.
  pose proof (lz_inv_limit _ _ limit _ _ _ _ Hinv ltac:(lia) ltac:(lia)) as Hinv'.
  destruct (lz4_decompress_block_ok (window_start (lz4_st s)) limit m w in_ _ data Hinv' eq_refl)
    as (r & m' & Hr & Hfr & Hok & Hs); [lia | lia |].
  exists r, m'. split_and!; [done | | done |].
  - destruct Hfr as [Hf Hdom]. split; [| done]. eapply frame_weaken; [exact Hf | lia | lia].
  - destruct r as [o'|].
    + left. destruct (Hs _ eq_refl) as (w' & Hb & -> & _ & Hat). by exists w'.
    + right. split; [done |]. intros w' Hb.
      destruct (lz4_decompress_block_complete _ limit m w in_ _ data w' Hinv' eq_refl)
        as (m'' & Hr' & _); [lia | lia | done |]. rewrite Hr in Hr'. done.
Qed.

Lemma lz4_decode_block_ok m s w in_ end_ input : lz4_ready m s w in_ input -> end_ = in_ + zlen input ->
  exists r s' m' w', lz4_decode_block m s in_ end_ = Ok (r, s', m') /\
    lz4_block_spec s w input r s' w' /\ bytes_at m' (window_start (lz4_st s)) w' /\
    lz_frame (out_end (lz4_st s)) m m' (out (lz4_st s)) /\ mem_ok m'.
Proof.
  intros Hready ->. pose proof Hready as [Hinv Ho Hm].
  pose proof Hinv as [Hok Hw Hi Haw Hai Hd Hp Hoe Ht].
  assert (forall r s', lz4_block_spec s w input r s' w -> exists r0 s0 m' w', Ok (r, s', m) = Ok (r0, s0, m') /\
    lz4_block_spec s w input r0 s0 w' /\ bytes_at m' (window_start (lz4_st s)) w' /\
    lz_frame (out_end (lz4_st s)) m m' (out (lz4_st s)) /\ mem_ok m') as Hstop.
  { intros r s' Hs. exists r, s', m, w. split_and!; try done. }
  unfold lz4_decode_block. replace (in_ + zlen input - in_) with (zlen input) by lia.
  destruct (Z.ltb_spec (zlen input) 4) as [H4 | H4]; [by apply Hstop, spec_short |].
  rewrite <- (take_drop 4 input) in Hi, Hai, Hinv, Hstop |- *.
  set (hdr := take 4 input) in *. set (body := drop 4 input) in *.
  assert (length hdr = 4%nat) as Hhdr by (subst hdr; rewrite length_take; lia).
  clearbody hdr body. apply bytes_at_app in Hi as [Hi Hib]. rewrite length_app, Hhdr in *.
  apply (bytes_at_is_byte _ _ _ Hok) in Hi as Hbytes.
  apply le_val_bound in Hbytes as Hv. rewrite Hhdr in Hv. change (8 * Z.of_nat 4) with 32 in Hv.
  rewrite (ld32le_ok _ _ hdr) by done. cbn [mbind res_bind].
  destruct (size_field (le_val hdr) Hv) as [-> Hbit]. set (n := le_val hdr mod 2 ^ 31) in *.
  assert (0 <= n < 2 ^ 31) as Hn by (subst n; dlia).
  assert (le_val hdr mod 2 ^ 31 = n) as Hmod by done. clearbody n.
  destruct (Z.eqb_spec n 0) as [Hz | Hz]; [apply Hstop, spec_end; [done | congruence] |].
  destruct (Z.ltb_spec (max_block_size s) n); [apply Hstop, spec_too_large; [done | lia] |].
  destruct (Z.ltb_spec (in_ + Z.of_nat (4 + length body) - (in_ + 4)) n);
    [apply Hstop, spec_more_data; [done | lia | lia] |].
  rewrite u32_small by lia.
  rewrite <- (take_drop (Z.to_nat n) body) in Hib, Hinv, Hstop |- *.
  set (data := take (Z.to_nat n) body) in *. set (rest := drop (Z.to_nat n) body) in *.
  assert (n = zlen data) as Hnd by (subst data; rewrite length_take; lia).
  clearbody data rest. rewrite Hnd in *.
  destruct (Z.ltb_spec (out_end (lz4_st s) - out (lz4_st s)) (zlen data));
    [apply Hstop, spec_more_space; [done | done | lia | lia] |].
  replace (if flag (flags s) FBCHECKSUM then zlen data + 4 + 4 else zlen data + 4)
    with (lz4_total s (zlen data)) by (unfold lz4_total; destruct (flag (flags s) FBCHECKSUM); lia).
  apply lz_inv_drop in Hinv as Hinv1. rewrite Hhdr in Hinv1. change (Z.of_nat 4) with 4 in Hinv1.
  destruct Hbit as [[-> Hbit] | [-> Hbit]].
  - rewrite Ho. destruct (lz_inv_literals _ _ m w (in_ + 4) data rest Hinv1) as (m1 & -> & Hinv2 & Hfr); [lia |].
    cbn [mbind res_bind]. eexists _, _, m1, (w ++ data). split_and!; [done | | | done |].
    + rewrite <- Ho. apply spec_raw; [done | done | lia | lia].
    + by apply (inv_win _ _ _ _ _ _ Hinv2).
    + by apply (inv_ok _ _ _ _ _ _ Hinv2).
  - apply lz_inv_take in Hinv1 as Hinv2. rewrite Hbit.
    destruct (lz4_compressed_ok m s w (in_ + 4) data) as (r & m1 & -> & Hfr & Hok1 & Hr);
      [by constructor | lia | lia |]. cbn [mbind res_bind].
    destruct Hr as [(w' & Hb & -> & Hat) | [-> Hno]].
    + eexists _, _, m1, w'. split_and!; try done. apply spec_compressed; try done; lia.
    + eexists _, _, m1, w. split_and!; try done; [apply spec_corrupt; try done; lia |].
      destruct Hfr as [Hfr _]. eapply bytes_at_frame; [exact Hfr | done | lia].
Qed.

(** ** A reference encoder *)
Fixpoint lz4_ext (fuel : nat) (n : Z) : list Z :=
  match fuel with
  | O => [n]
  | S fuel => if n <? 255 then [n] else 255 :: lz4_ext fuel (n - 255)
  end.

(** The nibble of a length and its extension bytes. *)
Definition lz4_nibble (n : Z) : Z := Z.min n 15.
Definition lz4_len (n : Z) : list Z := if n <? 15 then [] else lz4_ext (Z.to_nat n) (n - 15).

(** A sequence: literals, then a match of [mlen] bytes (4 or more) at [dist]. *)
Record lz4_sequence : Type := { seq_lits : list Z; seq_dist : Z; seq_mlen : Z }.

Fixpoint lz4_encode (seqs : list lz4_sequence) (last : list Z) : list Z :=
  match seqs with
  | [] => 16 * lz4_nibble (zlen last) :: lz4_len (zlen last) ++ last
  | q :: seqs =>
      16 * lz4_nibble (zlen (seq_lits q)) + lz4_nibble (seq_mlen q - 4)
      :: lz4_len (zlen (seq_lits q)) ++ seq_lits q
         ++ seq_dist q mod 256 :: seq_dist q / 256 :: lz4_len (seq_mlen q - 4) ++ lz4_encode seqs last
  end.

Fixpoint lz4_expand (w : list Z) (seqs : list lz4_sequence) (last : list Z) : list Z :=
  match seqs with
  | [] => w ++ last
  | q :: seqs => lz4_expand (lz_match (Z.to_nat (seq_mlen q)) (w ++ seq_lits q) (seq_dist q)) seqs last
  end.

(** Every match starts in the window and leaves the room that the format
    demands. *)
Fixpoint lz4_encodable (cap : Z) (w : list Z) (seqs : list lz4_sequence) (last : list Z) : bool :=
  match seqs with
  | [] => zlen w + zlen last <=? cap
  | q :: seqs =>
      let w1 := w ++ seq_lits q in
      (1 <=? seq_dist q) && (seq_dist q <=? zlen w1) && (seq_dist q <? 65536) && (4 <=? seq_mlen q)
      && (zlen w1 + seq_mlen q + 5 <=? cap)
      && lz4_encodable cap (lz_match (Z.to_nat (seq_mlen q)) w1 (seq_dist q)) seqs last
  end.

Lemma lz4_ext_ok fuel acc n : 0 <= n -> n <= Z.of_nat fuel -> ext_bytes acc (acc + n) (lz4_ext fuel n).
Proof.
  revert acc n. induction fuel as [|fuel IH]; intros acc n Hn Hf; simpl.
  - constructor. lia.
  - destruct (Z.ltb_spec n 255); [constructor; lia |]. constructor.
    replace (acc + n) with (acc + 255 + (n - 255)) by lia. apply IH; lia.
Qed.

Lemma lz4_len_ok n : 0 <= n -> len_code (lz4_nibble n) n (lz4_len n).
Proof.
  intros Hn. unfold lz4_nibble, lz4_len. destruct (Z.ltb_spec n 15).
  - rewrite Z.min_l by lia. constructor. lia.
  - rewrite Z.min_r by lia. constructor. replace n with (15 + (n - 15)) at 1 by lia.
    apply lz4_ext_ok; lia.
Qed.

Lemma lz4_token a b : 0 <= b <= 15 -> Z.shiftr (16 * a + b) 4 = a /\ Z.land (16 * a + b) 15 = b.
Proof.
  intros Hb. rewrite Z.shiftr_div_pow2 by lia. change 15 with (2 ^ 4 - 1).
  rewrite land_ones_mod by lia. change (2 ^ 4) with 16. dlia.
Qed.

Lemma lz4_encode_length seqs last : 5 <= zlen last -> 6 <= zlen (lz4_encode seqs last).
Proof.
  induction seqs as [|q seqs IH]; intros H; simpl; rewrite !length_app; [lia |].
  simpl. rewrite length_app. specialize (IH H). lia.
Qed.

Lemma lz4_encode_block cap seqs last w : 5 <= zlen last ->
  lz4_encodable cap w seqs last = true ->
  lz4_block cap (lz4_encode seqs last) w (lz4_expand w seqs last).
Proof.
  intros Hlast. revert w. induction seqs as [|q seqs IH]; intros w; simpl.
  - intros H%Z.leb_le. destruct (lz4_token (lz4_nibble (zlen last)) 0 ltac:(lia)) as [Hs Hl].
    rewrite Z.add_0_r in Hs, Hl. apply lz4_last; [rewrite Hs; apply lz4_len_ok; lia | done | lia].
  - rewrite !andb_true_iff, !Z.leb_le, Z.ltb_lt. intros (((((H1 & H2) & H3) & H4) & H5) & H6).
    destruct (lz4_token (lz4_nibble (zlen (seq_lits q))) (lz4_nibble (seq_mlen q - 4))) as [Hs Hl];
      [unfold lz4_nibble; lia |].
    assert (seq_dist q mod 256 + 256 * (seq_dist q / 256) = seq_dist q) as Hdist by dlia.
    eapply (lz4_seq cap _ _ _ _ _ _ (seq_mlen q - 4)).
    + rewrite Hs. apply lz4_len_ok. lia.
    + lia.
    + rewrite Hl. apply lz4_len_ok. lia.
    + lia.
    + by apply lz4_encode_length.
    + rewrite Hdist. replace (seq_mlen q - 4 + 4) with (seq_mlen q) by lia. by apply IH.
Qed.

(** ** Main results *)

(** C5: [decompress_block] of [lz4.c] is exactly a decoder of the LZ4 block
    format.  On every input, well-formed or not, it terminates without a trap
    (no failed assertion, no read before the window or beyond the input and
    its 8 bytes of slack, no write beyond the output limit and its slack); it
    returns an end pointer if and only if the input is a well-formed block
    whose output fits, and then the window holds the decoded bytes; the window
    contents before the output pointer are never modified. *)
Theorem lz4_decompress_block_correct ws out_end m w in_ input :
  lz_inv ws out_end m w in_ input -> zlen input <= 2 ^ 23 ->
  zlen input <= out_end - (ws + zlen w) <= 2 ^ 31 ->
  exists r m', lz4_decompress_block m in_ (in_ + zlen input) (ws + zlen w) out_end ws = Ok (r, m') /\
    frame m m' (ws + zlen w) (out_end + LZCOMMON_BLOCK) /\ same_dom m m' /\ mem_ok m' /\
    forall w', lz4_block (out_end - ws) input w w' <-> r = Some (ws + zlen w') /\ bytes_at m' ws w'.
Proof.
  intros Hinv Hlen Hout.
  destruct (lz4_decompress_block_ok ws out_end m w in_ _ input Hinv eq_refl Hlen Hout)
    as (r & m' & Hr & [Hf Hd] & Hok & Hs).
  exists r, m'. split_and!; [done | done | done | done |]. intros w'. split.
  - intros Hb. destruct (lz4_decompress_block_complete ws out_end m w in_ _ input w' Hinv eq_refl Hlen Hout Hb)
      as (m'' & Hr' & Hat). rewrite Hr in Hr'. by injection Hr' as -> ->.
  - intros [-> Hat]. destruct (Hs _ eq_refl) as (w0 & Hb & He & _ & Hat0).
    replace w' with w0; [done |]. eapply bytes_at_inj; [exact Hat0 | exact Hat | lia].
Qed.

Definition lz4_ex_input : list Z := [0x16; 97; 1; 0; 0x50; 98; 99; 100; 101; 102].
Definition lz4_ex_output : list Z := [97; 97; 97; 97; 97; 97; 97; 97; 97; 97; 97; 98; 99; 100; 101; 102].

Lemma lz4_ex_inv : lz_inv 0 64 (lz_layout 64 [] lz4_ex_input) [] (64 + LZCOMMON_BLOCK) lz4_ex_input.
Proof.
  apply lz_layout_inv; [constructor | | simpl; lia | simpl; lia].
  repeat constructor; unfold is_byte; lia.
Qed.

Lemma lz4_decompress_block_correct_witness :
  let m := lz_layout 64 [] lz4_ex_input in
  exists r m', lz4_decompress_block m (64 + LZCOMMON_BLOCK) (64 + LZCOMMON_BLOCK + zlen lz4_ex_input)
                 (0 + zlen (@nil Z)) 64 0 = Ok (r, m') /\
    frame m m' (0 + zlen (@nil Z)) (64 + LZCOMMON_BLOCK) /\ same_dom m m' /\ mem_ok m' /\
    forall w', lz4_block (64 - 0) lz4_ex_input [] w' <-> r = Some (0 + zlen w') /\ bytes_at m' 0 w'.
Proof.
  intros m. apply (lz4_decompress_block_correct 0 64 m [] (64 + LZCOMMON_BLOCK) lz4_ex_input);
    [apply lz4_ex_inv | simpl; lia | simpl; lia].
Defined.

(** round trip.  Whatever literals, match distances and match lengths an
    encoder chooses, as long as matches start in the window and leave the room
    the format demands at the end of a block, [decompress_block] turns the
    encoded block back into the bytes it stands for. *)
Theorem lz4_roundtrip ws out_end m w in_ seqs last :
  lz_inv ws out_end m w in_ (lz4_encode seqs last) ->
  zlen (lz4_encode seqs last) <= 2 ^ 23 ->
  zlen (lz4_encode seqs last) <= out_end - (ws + zlen w) <= 2 ^ 31 ->
  5 <= zlen last -> lz4_encodable (out_end - ws) w seqs last = true ->
  exists m', lz4_decompress_block m in_ (in_ + zlen (lz4_encode seqs last)) (ws + zlen w) out_end ws
             = Ok (Some (ws + zlen (lz4_expand w seqs last)), m') /\
    bytes_at m' ws (lz4_expand w seqs last).
Proof.
  intros Hinv Hlen Hout Hlast Henc.
  apply (lz4_decompress_block_complete ws out_end m w in_ _ _ _ Hinv eq_refl Hlen Hout).
  by apply lz4_encode_block.
Qed.

Definition lz4_ex_seqs : list lz4_sequence := [{| seq_lits := [97]; seq_dist := 1; seq_mlen := 10 |}].

Lemma lz4_roundtrip_witness :
  let m := lz_layout 64 [] lz4_ex_input in let last := [98; 99; 100; 101; 102] in
  lz4_encode lz4_ex_seqs last = lz4_ex_input /\ lz4_expand [] lz4_ex_seqs last = lz4_ex_output /\
  exists m', lz4_decompress_block m (64 + LZCOMMON_BLOCK)
      (64 + LZCOMMON_BLOCK + zlen (lz4_encode lz4_ex_seqs last)) (0 + zlen (@nil Z)) 64 0
             = Ok (Some (0 + zlen (lz4_expand [] lz4_ex_seqs last)), m') /\
    bytes_at m' 0 (lz4_expand [] lz4_ex_seqs last).
Proof.
  intros m last. split; [reflexivity |]. split; [reflexivity |].
  apply (lz4_roundtrip 0 64 m [] (64 + LZCOMMON_BLOCK) lz4_ex_seqs last);
    [exact lz4_ex_inv | vm_compute; discriminate | vm_compute; split; discriminate
    | simpl; lia | reflexivity].
Defined.

(** one call of the LZ4 frame's [decode_block] does what its specification
    says on every branch: it tells truncated input, a lack of output space, an
    oversized block, a stored block, a compressed block, a corrupt block and
    the end mark apart, advances [out] and (with independent blocks)
    [window_start], and reports the bytes it has consumed.  It never traps and
    only writes between [out] and the end of the output buffer's slack. *)
Theorem lz4_decode_block_correct m s w in_ input : lz4_ready m s w in_ input ->
  exists r s' m' w', lz4_decode_block m s in_ (in_ + zlen input) = Ok (r, s', m') /\
    lz4_block_spec s w input r s' w' /\ bytes_at m' (window_start (lz4_st s)) w' /\
    frame m m' (out (lz4_st s)) (out_end (lz4_st s) + LZCOMMON_BLOCK) /\ same_dom m m' /\ mem_ok m'.
Proof.
  intros H. destruct (lz4_decode_block_ok m s w in_ _ input H eq_refl)
    as (r & s' & m' & w' & Hr & Hs & Hat & [Hf Hd] & Hok).
  by exists r, s', m', w'.
Qed.

Definition lz4_ex_frame : list Z := [10; 0; 0; 0] ++ lz4_ex_input ++ [0; 0; 0; 0].
Definition lz4_ex_state : lz4_dec_state :=
  {| lz4_st := {| decode := Some Lz4DecodeBlock; window_start := 0; out := 0; out_end := 64 |};
     max_block_size := 2 ^ 16; flags := 64 |}.

Lemma lz4_decode_block_correct_witness :
  let m := lz_layout 64 [] lz4_ex_frame in let in_ := 64 + LZCOMMON_BLOCK in
  exists r s' m' w', lz4_decode_block m lz4_ex_state in_ (in_ + zlen lz4_ex_frame) = Ok (r, s', m') /\
    lz4_block_spec lz4_ex_state [] lz4_ex_frame r s' w' /\
    bytes_at m' (window_start (lz4_st lz4_ex_state)) w' /\
    frame m m' (out (lz4_st lz4_ex_state)) (out_end (lz4_st lz4_ex_state) + LZCOMMON_BLOCK) /\
    same_dom m m' /\ mem_ok m'.
Proof.
  intros m in_. apply (lz4_decode_block_correct m lz4_ex_state [] in_ lz4_ex_frame). constructor.
  - apply lz_layout_inv; [constructor | | simpl; lia | simpl; lia].
    repeat constructor; unfold is_byte; lia.
  - reflexivity.
  - simpl. lia.
Defined.

(** The four block sizes of the format. *)
Lemma lz4_block_sizes bd : is_byte bd -> (Z.land (Z.shiftr bd 4) 7 <? 4) = false ->
  u32 (Z.shiftl 256 (2 * Z.land (Z.shiftr bd 4) 7)) ∈ [2 ^ 16; 2 ^ 18; 2 ^ 20; 2 ^ 22].
Proof.
  intros _ H%Z.ltb_ge. set (f := Z.land _ 7) in *.
  assert (f < 8) by (subst f; rewrite land7; dlia).
  assert (f = 4 \/ f = 5 \/ f = 6 \/ f = 7) as Hf by lia. clearbody f.
  destruct Hf as [-> | [-> | [-> | ->]]]; vm_compute; repeat constructor.
Qed.

Ltac ld8_step Hok Hacc :=
  match goal with |- context [ld8 ?m ?a] =>
    let v := fresh "b" in let Hv := fresh "Hv" in
    destruct (accessible_ld8 m _ _ a Hok Hacc ltac:(lia)) as (v & -> & Hv & ?);
    cbn [mbind res_bind]
  end.

(** a frame header that [probe] accepts can be initialised: [init] does not
    trap, starts behind the header with the block decoder installed, selects
    one of the four block sizes of the format (64 KiB to 4 MiB) and consumes
    no more than the input, and a content size that [probe] reports is the
    little-endian field of the header. *)
Theorem lz4_probe_init m st in_ end_ s : mem_ok m -> accessible m in_ (end_ - in_) ->
  lz4_probe m in_ end_ = Ok s -> probe_success s = true ->
  exists in' d, lz4_init m st in_ end_ = Ok (in', d) /\ in' = in_ + 7 + (if flag (flags d) FCSIZE then 8 else 0) /\
    in' <= end_ /\ decode (lz4_st d) = Some Lz4DecodeBlock /\
    max_block_size d ∈ [2 ^ 16; 2 ^ 18; 2 ^ 20; 2 ^ 22] /\
    (forall size, s = COMPR_PROBE_SIZE_KNOWN size ->
       exists l, bytes_at m (in_ + 6) l /\ length l = 8%nat /\ size = le_val l).
Proof.
  intros Hok Hacc. unfold lz4_probe.
  destruct (Z.ltb_spec (end_ - in_) 4); [by intros [= <-] |]. do 4 ld8_step Hok Hacc.
  destruct (_ || _); [by intros [= <-] |].
  destruct (Z.ltb_spec (end_ - in_) 7); [by intros [= <-] |]. do 2 ld8_step Hok Hacc.
  destruct (negb _); [by intros [= <-] |].
  destruct (flag _ FRESERVED); [by intros [= <-] |].
  destruct (flag _ FDICTID); [by intros [= <-] |].
  destruct (flag _ 0x8f); [by intros [= <-] |].
  destruct (_ <? 4) eqn:Hbs; [by intros [= <-] |].
  apply lz4_block_sizes in Hbs; [| done].
  unfold lz4_init. assert_ok. rewrite (ld8_eq m (in_ + 4) b4), (ld8_eq m (in_ + 5) b3) by done.
  cbn [mbind res_bind].
  destruct (flag b4 FCSIZE) eqn:Hf.
  - destruct (Z.ltb_spec (end_ - (in_ + 6)) 9); [by intros [= <-] |].
    destruct (ld_ok 8 m (in_ + 6)) as (l & _ & Hl & Hat);
      [eapply accessible_sub; [exact Hacc | lia | lia] |].
    rewrite (ld64le_ok _ _ l) by done. intros [= <-] _. eexists _, _. split; [done |].
    cbn [flags max_block_size lz4_st decode set_decode]. rewrite Hf.
    split_and!; [lia | lia | done | done |]. intros size [= <-]. by exists l.
  - intros [= <-] _. eexists _, _. split; [done |].
    cbn [flags max_block_size lz4_st decode set_decode]. rewrite Hf.
    split_and!; [lia | lia | done | done |]. done.
Qed.

Lemma lz4_probe_init_witness :
  let m := mem_of 0 [4; 34; 77; 24; 0x68; 0x40; 16; 0; 0; 0; 0; 0; 0; 0; 0; 0; 0] in
  let st := {| decode := None; window_start := 100; out := 100; out_end := 200 |} in
  exists in' d, lz4_init m st 0 17 = Ok (in', d) /\ in' = 0 + 7 + (if flag (flags d) FCSIZE then 8 else 0) /\
    in' <= 17 /\ decode (lz4_st d) = Some Lz4DecodeBlock /\
    max_block_size d ∈ [2 ^ 16; 2 ^ 18; 2 ^ 20; 2 ^ 22] /\
    (forall size, COMPR_PROBE_SIZE_KNOWN 16 = COMPR_PROBE_SIZE_KNOWN size ->
       exists l, bytes_at m (0 + 6) l /\ length l = 8%nat /\ size = le_val l).
Proof.
  intros m st. apply (lz4_probe_init m st 0 17 (COMPR_PROBE_SIZE_KNOWN 16)).
  - apply mem_of_ok. repeat constructor; unfold is_byte; lia.
  - apply mem_of_accessible; simpl; lia.
  - vm_compute. reflexivity.
  - reflexivity.
Defined.
