(* ===== verification/Crc32.v ===== *)
(** * CRC-32 of gzip streams ([crc32_byte] and the table of [src/compression/inflate.c])

    The decompressor updates its checksum with one table lookup per output
    byte.  The table is built by [crc32_byte]; the result is compared here with
    the bit-serial shift register that defines the checksum. *)
From S2P Require Export Prelude.

(** ** Definitions *)

(** One iteration of [crc32_byte]: [(input >> 1) ^ (input & 1 ? poly : 0)]. *)
Definition crc32_step (poly input : Z) : Z :=
  Z.lxor (Z.shiftr input 1) (if flag input 1 then poly else 0).

Definition crc32_byte (input poly : Z) : Z := Nat.iter 8 (crc32_step poly) input.

Definition crc32_poly : Z := 0xedb88320.

(** [for_array(i, st->crc_table) {st->crc_table[i] = crc32_byte(i, poly);}] *)
Definition crc_table : list Z := map (fun i => crc32_byte i crc32_poly) (range 0 256).

(** [crc = crc >> 8 ^ st->crc_table[(u8)crc ^ c]] *)
Definition crc_update (table : list Z) (crc c : Z) : res Z :=
  t ← geti table (Z.lxor (u8 crc) c);
  Ok (Z.lxor (Z.shiftr crc 8) t).

(** ** The bit-serial definition

    Feeds one bit, the bits of a byte from the lowest, and the bytes of a
    message. *)
Definition crc_feed_bit (poly crc : Z) (b : bool) : Z :=
  Z.lxor (Z.shiftr crc 1) (if xorb (Z.testbit crc 0) b then poly else 0).

Fixpoint bits_of (n : nat) (c : Z) : list bool :=
  match n with O => [] | S n => Z.testbit c 0 :: bits_of n (Z.shiftr c 1) end.

Definition crc_feed (poly crc : Z) (msg : list Z) : Z :=
  foldl (crc_feed_bit poly) crc (mjoin (map (bits_of 8) msg)).

(** ** Linearity *)
Lemma lxor_if (a b : bool) p :
  Z.lxor (if a then p else 0) (if b then p else 0) = if xorb a b then p else 0.
Proof. destruct a, b; simpl; rewrite ?Z.lxor_nilpotent, ?Z.lxor_0_r, ?Z.lxor_0_l; done. Qed.

Lemma flag_1 x : flag x 1 = Z.testbit x 0.
Proof. apply (flag_bit x 0). lia. Qed.

Lemma crc32_step_lxor poly a b :
  crc32_step poly (Z.lxor a b) = Z.lxor (crc32_step poly a) (crc32_step poly b).
Proof.
  unfold crc32_step. rewrite !flag_1, Z.lxor_spec, Z.shiftr_lxor, <- lxor_if.
  rewrite !Z.lxor_assoc. f_equal. rewrite <- !Z.lxor_assoc. f_equal. apply Z.lxor_comm.
Qed.

Lemma crc32_iter_lxor poly n a b :
  Nat.iter n (crc32_step poly) (Z.lxor a b)
  = Z.lxor (Nat.iter n (crc32_step poly) a) (Nat.iter n (crc32_step poly) b).
Proof. induction n as [|n IH]; [done |]. simpl. by rewrite IH, crc32_step_lxor. Qed.

(** A shift register whose low bits are zero only shifts. *)
Lemma crc32_iter_shift poly n x : (n <= 8)%nat ->
  Nat.iter n (crc32_step poly) (Z.shiftl x 8) = Z.shiftl x (8 - Z.of_nat n).
Proof.
  induction n as [|n IH]; intros Hn; [done |]. rewrite Nat.iter_succ, IH by lia.
  unfold crc32_step. rewrite flag_1, Z.shiftl_spec_low by lia. rewrite Z.lxor_0_r.
  rewrite Z.shiftr_shiftl_l by lia. f_equal. lia.
Qed.

(** Splitting off the low byte. *)
Lemma low_byte_split x : x = Z.lxor (Z.shiftl (Z.shiftr x 8) 8) (u8 x).
Proof.
  apply Z.bits_inj'; intros n Hn. rewrite Z.lxor_spec. unfold u8. destruct (Z.lt_ge_cases n 8).
  - rewrite Z.shiftl_spec_low, Z.mod_pow2_bits_low by lia. by rewrite xorb_false_l.
  - rewrite Z.shiftl_spec, Z.shiftr_spec, Z.mod_pow2_bits_high by lia.
    rewrite xorb_false_r. f_equal. lia.
Qed.

Lemma crc32_byte_split x poly : crc32_byte x poly = Z.lxor (Z.shiftr x 8) (crc32_byte (u8 x) poly).
Proof.
  unfold crc32_byte. rewrite (low_byte_split x) at 1.
  rewrite crc32_iter_lxor, crc32_iter_shift by lia. by rewrite Z.shiftl_0_r.
Qed.

(** ** The table *)
Lemma lxor_byte a b : is_byte a -> is_byte b -> is_byte (Z.lxor a b).
Proof. intros. by apply (lxor_bound a b 8). Qed.

Lemma crc_table_lookup i : is_byte i -> crc_table !! Z.to_nat i = Some (crc32_byte i crc32_poly).
Proof.
  intros Hi. unfold is_byte in Hi. unfold crc_table, range. rewrite list_lookup_fmap, lookup_seqZ_lt by lia.
  simpl. do 2 f_equal. lia.
Qed.

Lemma u8_lxor a b : u8 (Z.lxor a b) = Z.lxor (u8 a) (u8 b).
Proof.
  unfold u8. apply Z.bits_inj'; intros i Hi. rewrite Z.lxor_spec. destruct (Z.lt_ge_cases i 8).
  - by rewrite !Z.mod_pow2_bits_low, Z.lxor_spec by lia.
  - by rewrite !Z.mod_pow2_bits_high by lia.
Qed.

Lemma crc_update_ok crc c : is_byte c -> crc_update crc_table crc c = Ok (crc32_byte (Z.lxor crc c) crc32_poly).
Proof.
  intros Hc. unfold crc_update.
  assert (is_byte (Z.lxor (u8 crc) c)) as Hi by (apply lxor_byte; [apply u8_range | done]).
  assert (0 <= Z.lxor (u8 crc) c) as Hpos by (unfold is_byte in Hi; lia).
  rewrite (geti_ok _ _ _ Hpos (crc_table_lookup _ Hi)). simpl. f_equal.
  rewrite (crc32_byte_split (Z.lxor crc c)), u8_lxor, (u8_small c) by done. f_equal.
  rewrite Z.shiftr_lxor. unfold is_byte in Hc.
  replace (Z.shiftr c 8) with 0; [by rewrite Z.lxor_0_r |].
  rewrite Z.shiftr_div_pow2 by lia. symmetry. apply Z.div_small. lia.
Qed.

(** ** Table driven = bit serial *)
Lemma crc_feed_bit_step poly crc c :
  Z.lxor (crc_feed_bit poly crc (Z.testbit c 0)) (Z.shiftr c 1) = crc32_step poly (Z.lxor crc c).
Proof.
  unfold crc_feed_bit, crc32_step. rewrite flag_1, Z.shiftr_lxor, Z.lxor_spec.
  rewrite !Z.lxor_assoc. f_equal. apply Z.lxor_comm.
Qed.

Lemma crc_feed_bits poly n crc c : 0 <= c < 2 ^ Z.of_nat n ->
  foldl (crc_feed_bit poly) crc (bits_of n c) = Nat.iter n (crc32_step poly) (Z.lxor crc c).
Proof.
  revert crc c. induction n as [|n IH]; intros crc c Hc.
  - simpl in *. replace c with 0 by lia. by rewrite Z.lxor_0_r.
  - cbn [bits_of foldl]. rewrite Nat.iter_succ_r, <- crc_feed_bit_step. apply IH.
    rewrite Z.shiftr_div_pow2 by lia. rewrite Nat2Z.inj_succ, Z.pow_succ_r in Hc by lia.
    change (2 ^ 1) with 2. dlia.
Qed.

(** One byte at the beginning and at the end of a message. *)
Lemma crc_feed_cons crc l c : is_byte c ->
  crc_feed crc32_poly crc (c :: l) = crc_feed crc32_poly (crc32_byte (Z.lxor crc c) crc32_poly) l.
Proof.
  intros Hc. unfold crc_feed. cbn [map mjoin list_join]. rewrite foldl_app. f_equal.
  unfold crc32_byte. by rewrite crc_feed_bits.
Qed.

Lemma crc_feed_snoc crc l c : is_byte c ->
  crc_feed crc32_poly crc (l ++ [c]) = crc32_byte (Z.lxor (crc_feed crc32_poly crc l) c) crc32_poly.
Proof.
  intros Hc. unfold crc_feed. rewrite map_app, join_app, foldl_app.
  cbn [map mjoin list_join]. rewrite app_nil_r. unfold crc32_byte. by rewrite crc_feed_bits.
Qed.

(** C34: the table-driven update that the gzip decoder performs for every
    output byte computes the bit-serial CRC-32 with the reversed polynomial
    0xedb88320: for every message and every starting value, folding the
    update never indexes outside of the 256-entry table that [init] builds
    with [crc32_byte], and equals shifting the message bit by bit. *)
Theorem crc_update_correct crc msg : Forall is_byte msg ->
  foldM (crc_update crc_table) crc msg = Ok (crc_feed crc32_poly crc msg).
Proof.
  intros Hmsg. unfold crc_feed. revert crc. induction Hmsg as [|c msg Hc Hmsg IH]; intros crc; [done |].
  cbn [foldM map mjoin list_join]. rewrite crc_update_ok by done. cbn [mbind res_bind].
  rewrite IH, foldl_app. f_equal. f_equal. unfold crc32_byte. by rewrite crc_feed_bits.
Qed.

(** The check value of the standard: CRC-32 of the string 123456789. *)
Lemma crc_update_correct_witness :
  crc_feed crc32_poly 0xffffffff [49; 50; 51; 52; 53; 54; 55; 56; 57] = Z.lxor 0xcbf43926 0xffffffff /\
  foldM (crc_update crc_table) 0xffffffff [49; 50; 51; 52; 53; 54; 55; 56; 57]
  = Ok (crc_feed crc32_poly 0xffffffff [49; 50; 51; 52; 53; 54; 55; 56; 57]).
Proof.
  split; [vm_compute; reflexivity |].
  apply (crc_update_correct 0xffffffff [49; 50; 51; 52; 53; 54; 55; 56; 57]).
  repeat constructor; unfold is_byte; lia.
Defined.
