(* ===== verification/Huffman.v ===== *)
(** * Huffman codes of DEFLATE ([src/compression/inflate.c])

    [construct_codes] assigns bit-reversed canonical codes to symbols,
    [construct_dectable] builds the 2048-entry decoding table with its side
    lists for codes longer than 11 bits, [huff_lookup] is the symbol decoder
    that [huff_block] contains twice (for literals and for distances), and
    [huff_with_extra] and [decode_lengths] read the code lengths of a dynamic
    block. *)
From S2P Require Export Cmem.

(** ** [construct_codes] *)

(** [while (code & 1 << pos) {code &= ~(1 << pos); if (!pos) goto end; pos -= 1;}
    code |= 1 << pos;]  The flag of the result tells that [end] is reached. *)
Fixpoint cc_incr (pos : nat) (code : Z) : Z * bool :=
  let bit := Z.shiftl 1 (Z.of_nat pos) in
  if flag code bit then
    let code := u16 (Z.land code (Z.lnot bit)) in
    match pos with O => (code, true) | S pos => cc_incr pos code end
  else (u16 (Z.lor code bit), false).

Record cc_state : Type := {
  cc_codes : list Z;
  cc_code : Z;
  cc_allocated : Z;
  cc_end : bool;
}.

Definition cc_sym (lengths : list Z) (len : Z) (st : cc_state) (sym : Z) : res cc_state :=
  if cc_end st then Ok st
  else
  l ← geti lengths sym;
  if negb (l =? len) then Ok st
  else
  codes ← seti (cc_codes st) sym (cc_code st);
  let '(code, e) := cc_incr (Z.to_nat (len - 1)) (cc_code st) in
  Ok {| cc_codes := codes; cc_code := code; cc_allocated := u16 (cc_allocated st + 1); cc_end := e |}.

(** The first loop: counts the symbols in use and clears the other codes. *)
Definition cc_count (lengths : list Z) (st : Z * list Z) (sym : Z) : res (Z * list Z) :=
  let '(active_syms, codes) := st in
  l ← geti lengths sym;
  if negb (l =? 0) then Ok (u16 (active_syms + 1), codes)
  else codes ← seti codes sym 0; Ok (active_syms, codes).

Definition construct_codes (num_symbols : Z) (lengths codes : list Z) : res (list Z) :=
  '(active_syms, codes) ← foldM (cc_count lengths) (0, codes) (range 0 num_symbols);
  st ← foldM (fun st len => foldM (cc_sym lengths len) st (range 0 num_symbols))
         {| cc_codes := codes; cc_code := 0; cc_allocated := 0; cc_end := false |} (range 1 16);
  c_assert (active_syms =? cc_allocated st);;
  Ok (cc_codes st).

(** ** [construct_dectable] *)

(** [for_range(i, 0, 2048u >> len) {dectable[i << len | code] = len | sym << 4;}] *)
Definition dt_fill (len code sym : Z) (dectable : list Z) : res (list Z) :=
  foldM (fun t i => seti t (Z.lor (Z.shiftl i len) code) (u16 (Z.lor len (Z.shiftl sym 4))))
    dectable (range 0 (Z.shiftr 2048 len)).

Definition dt_sym (lengths codes : list Z) (st : list Z * list Z) (sym : Z) : res (list Z * list Z) :=
  let '(dectable, overlength_count) := st in
  len ← geti lengths sym;
  if len =? 0 then Ok st
  else
  code ← geti codes sym;
  if len <=? 11 then dectable ← dt_fill len code sym dectable; Ok (dectable, overlength_count)
  else
  c_assert (len <=? 15);;
  n ← geti overlength_count (len - 12);
  overlength_count ← seti overlength_count (len - 12) (u16 (n + 1));
  dectable ← seti dectable (Z.land code 0x7ff) 12;
  Ok (dectable, overlength_count).

(** Offsets of the overlength lists: [(overlength_offsets, overlength_count, off)]. *)
Definition dt_offset (st : list Z * list Z * Z) (len : Z) : res (list Z * list Z * Z) :=
  let '(offsets, count, off) := st in
  offsets ← seti offsets len off;
  n ← geti count len;
  count ← seti count len 0;
  Ok (offsets, count, u16 (off + n)).

Definition dt_over (lengths codes offsets : list Z) (st : list Z * list Z) (sym : Z)
    : res (list Z * list Z) :=
  let '(symbols, count) := st in
  len ← geti lengths sym;
  if len <? 12 then Ok st
  else
  n ← geti count (len - 12);
  count ← seti count (len - 12) (u16 (n + 1));
  o ← geti offsets (len - 12);
  let idx := u16 (n + o) in
  o1 ← geti offsets (len - 11);
  c_assert (idx <? o1);;
  code ← geti codes sym;
  symbols ← seti symbols idx (Z.lor sym (Z.shiftl code 9));
  Ok (symbols, count).

(** Returns [(dectable, overlength_offsets, overlength_symbols)]. *)
Definition construct_dectable (num_symbols : Z) (lengths codes dectable offsets symbols : list Z)
    : res (list Z * list Z * list Z) :=
  let overlength_count := replicate 4 0 in
  dectable ← foldM (fun t i => seti t i 10) dectable (range 0 2048);
  '(dectable, overlength_count) ←
    foldM (dt_sym lengths codes) (dectable, overlength_count) (range 0 num_symbols);
  '(offsets, overlength_count, off) ← foldM dt_offset (offsets, overlength_count, 0) (range 0 4);
  offsets ← seti offsets 4 off;
  '(symbols, overlength_count) ←
    foldM (dt_over lengths codes offsets) (symbols, overlength_count) (range 0 num_symbols);
  foldM (fun _ len => o ← geti offsets len; n ← geti overlength_count len;
                      o1 ← geti offsets (len + 1); c_assert (o + n =? o1)) tt (range 0 4);;
  Ok (dectable, offsets, symbols).

(** ** Decoding one symbol *)
Inductive lookup_result : Set :=
| LookupSym (sym len : Z)
| LookupNeedData
| LookupErr.

(** [for_range(i, oloff[len - 12], oloff[len - 11]) {...}]: the symbol of the
    entry of the list whose code is [suffix]. *)
Fixpoint over_search (symbols : list Z) (idxs : list Z) (suffix : Z) : res (option Z) :=
  match idxs with
  | [] => Ok None
  | i :: idxs =>
      x ← geti symbols i;
      if Z.shiftr x 9 =? suffix then Ok (Some (Z.land x 0x1ff))
      else over_search symbols idxs suffix
  end.

(** [while (1) {...; if (++len == 4) return DECODE_ERR;}] from [len = 12]. *)
Fixpoint over_loop (fuel : nat) (offsets symbols : list Z) (bits num_bits len : Z) : res lookup_result :=
  match fuel with
  | O => Trap TrapFuel
  | S fuel =>
      if num_bits <? len then Ok LookupNeedData
      else
      let suffix := Z.land bits (Z.shiftl 1 len - 1) in
      lo ← geti offsets (len - 12);
      hi ← geti offsets (len - 11);
      r ← over_search symbols (range lo hi) suffix;
      match r with
      | Some sym => Ok (LookupSym sym len)
      | None => if len + 1 =? 4 then Ok LookupErr
                else over_loop fuel offsets symbols bits num_bits (len + 1)
      end
  end.

(** Lines 428-452 and 478-502: the table lookup with its overlength search. *)
Definition huff_lookup (dectable offsets symbols : list Z) (bits num_bits : Z) : res lookup_result :=
  val ← geti dectable (Z.land bits 0x7ff);
  let len := Z.land val 0xf in
  if 11 <? len then over_loop 24 offsets symbols bits num_bits 12
  else if num_bits <? len then Ok LookupNeedData
  else Ok (LookupSym (Z.shiftr val 4) len).

(** ** Reading code lengths *)
Record huffman_state : Type := {
  hs_ptr : option Z;  (** [None] is the null pointer *)
  hs_bits : Z;
  hs_val : Z;
  hs_num_bits : Z;
}.

Definition ERR_OUT_OF_DATA : Z := 1.
Definition ERR_FIRST_REP : Z := 2.
Definition ERR_REP_TOO_LONG : Z := 3.
Definition ERR_FILL_TOO_LONG : Z := 4.
Definition ERR_CODE_UNASSIGNED : Z := 5.
Definition NO_ERROR : Z := 0.

Definition hs_fail (h : huffman_state) (err : Z) : huffman_state :=
  {| hs_ptr := None; hs_bits := hs_bits h; hs_val := err; hs_num_bits := hs_num_bits h |}.
Definition hs_with_val (h : huffman_state) (v : Z) : huffman_state :=
  {| hs_ptr := hs_ptr h; hs_bits := hs_bits h; hs_val := v; hs_num_bits := hs_num_bits h |}.
(** [SHIFT(n)] *)
Definition hs_shift (h : huffman_state) (n : Z) : huffman_state :=
  {| hs_ptr := hs_ptr h; hs_bits := Z.shiftr (hs_bits h) n; hs_val := hs_val h;
     hs_num_bits := u8 (hs_num_bits h - n) |}.
(** [huff.bits |= *huff.ptr++ << huff.num_bits; huff.num_bits += 8;] *)
Definition hs_byte (m : mem) (h : huffman_state) (ptr : Z) : res huffman_state :=
  b ← ld8 m ptr;
  Ok {| hs_ptr := Some (ptr + 1); hs_bits := Z.lor (hs_bits h) (u32 (Z.shiftl b (hs_num_bits h)));
        hs_val := hs_val h; hs_num_bits := u8 (hs_num_bits h + 8) |}.

(** [while ((len = (val = dectable[huff.bits & 0x7ff]) & 0xf) > huff.num_bits) {...}]
    Returns the state with [val], or the state to return when data runs out. *)
Fixpoint hw_code (fuel : nat) (m : mem) (end_ : Z) (dectable : list Z) (h : huffman_state)
    : res (huffman_state * option Z) :=
  match fuel with
  | O => Trap TrapFuel
  | S fuel =>
      val ← geti dectable (Z.land (hs_bits h) 0x7ff);
      if hs_num_bits h <? Z.land val 0xf then
        match hs_ptr h with
        | None => Trap (TrapOob 0)
        | Some ptr =>
            if end_ <=? ptr then Ok (hs_fail h ERR_OUT_OF_DATA, None)
            else h ← hs_byte m h ptr; hw_code fuel m end_ dectable h
        end
      else Ok (h, Some val)
  end.

(** The search among the overlength codes, [for_range(len, 12, 16) {...}]. *)
Fixpoint hw_over (lens : list Z) (m : mem) (end_ : Z) (offsets symbols : list Z) (h : huffman_state)
    : res (huffman_state * option Z) :=
  match lens with
  | [] => Ok (hs_fail h ERR_CODE_UNASSIGNED, None)
  | len :: lens =>
      '(h, ok) ← (if hs_num_bits h <? len then
                    match hs_ptr h with
                    | None => Trap (TrapOob 0)
                    | Some ptr =>
                        if end_ <=? ptr then Ok (hs_fail h ERR_OUT_OF_DATA, false)
                        else h ← hs_byte m h ptr; Ok (h, true)
                    end
                  else Ok (h, true));
      if negb ok then Ok (h, None)
      else
      let suffix := Z.land (hs_bits h) (Z.shiftl 1 len - 1) in
      lo ← geti offsets (len - 12);
      hi ← geti offsets (len - 11);
      r ← over_search symbols (range lo hi) suffix;
      match r with
      | Some sym => Ok (hs_shift h len, Some sym)
      | None => hw_over lens m end_ offsets symbols h
      end
  end.

(** [while (huff.num_bits < extra) {...}] *)
Fixpoint hw_extra (fuel : nat) (m : mem) (end_ extra : Z) (h : huffman_state) : res (huffman_state * bool) :=
  match fuel with
  | O => Trap TrapFuel
  | S fuel =>
      if hs_num_bits h <? extra then
        match hs_ptr h with
        | None => Trap (TrapOob 0)
        | Some ptr =>
            if end_ <=? ptr then Ok (hs_fail h ERR_OUT_OF_DATA, false)
            else h ← hs_byte m h ptr; hw_extra fuel m end_ extra h
        end
      else Ok (h, true)
  end.

Definition huff_with_extra (m : mem) (h : huffman_state) (end_ : Z)
    (dectable extra_bit_table baseline_table overlength_offsets overlength_symbols : list Z)
    : res huffman_state :=
  '(h, val) ← hw_code 3 m end_ dectable h;
  match val with
  | None => Ok h
  | Some val =>
      let len := Z.land val 0xf in
      '(h, sym) ← (if len <? 12 then Ok (hs_shift h len, Some (Z.shiftr val 4))
                   else hw_over (range 12 16) m end_ overlength_offsets overlength_symbols h);
      match sym with
      | None => Ok h
      | Some sym =>
          if sym <? hs_val h then Ok (hs_with_val h sym)
          else
          let idx := sym - hs_val h in
          extra ← geti extra_bit_table idx;
          base ← geti baseline_table idx;
          '(h, ok) ← hw_extra 3 m end_ extra h;
          if negb ok then Ok h
          else
          let v := u32 (hs_val h + (base + Z.land (hs_bits h) (Z.shiftl 1 extra - 1))) in
          Ok (hs_shift (hs_with_val h v) extra)
      end
  end.

Definition clength_extra : list Z := [2; 3; 7].
Definition clength_base : list Z := [0; 4; 12].
Definition REP_BASE : Z := 16.
Definition FILL_BASE : Z := REP_BASE + 4.

(** [while (sym < end) {lengths[sym] = lengths[sym - 1]; sym += 1;}] and
    [while (sym < end) {lengths[sym++] = 0;}] *)
Definition rep_lengths (lengths : list Z) (sym end_ : Z) : res (list Z) :=
  foldM (fun l i => p ← geti l (i - 1); seti l i p) lengths (range sym end_).
Definition fill_lengths (lengths : list Z) (sym end_ : Z) : res (list Z) :=
  foldM (fun l i => seti l i 0) lengths (range sym end_).

(** The loop over [sym]; returns the state and the array. *)
Fixpoint decode_lengths_loop (fuel : nat) (m : mem) (end_ : Z) (dectable : list Z) (num_symbols sym : Z)
    (h : huffman_state) (lengths : list Z) : res (huffman_state * list Z) :=
  if negb (sym <? num_symbols) then Ok (hs_with_val h NO_ERROR, lengths)
  else
  match fuel with
  | O => Trap TrapFuel
  | S fuel =>
      h ← huff_with_extra m (hs_with_val h REP_BASE) end_ dectable clength_extra clength_base [] [];
      match hs_ptr h with
      | None => Ok (h, lengths)
      | Some _ =>
          let length_code := hs_val h in
          if length_code <? REP_BASE then
            lengths ← seti lengths sym (u8 length_code);
            decode_lengths_loop fuel m end_ dectable num_symbols (sym + 1) h lengths
          else if length_code <? FILL_BASE then
            let rep := length_code - REP_BASE + 3 in
            if sym =? 0 then Ok (hs_with_val h ERR_FIRST_REP, lengths)
            else
            let e := sym + rep in
            if num_symbols <? e then Ok (hs_with_val h ERR_REP_TOO_LONG, lengths)
            else
            lengths ← rep_lengths lengths sym e;
            decode_lengths_loop fuel m end_ dectable num_symbols e h lengths
          else
            let rep := length_code - FILL_BASE + 3 in
            let e := sym + rep in
            if num_symbols <? e then Ok (hs_with_val h ERR_FILL_TOO_LONG, lengths)
            else
            lengths ← fill_lengths lengths sym e;
            decode_lengths_loop fuel m end_ dectable num_symbols e h lengths
      end
  end.

Definition decode_lengths (m : mem) (h : huffman_state) (end_ : Z) (dectable lengths : list Z)
    : res (huffman_state * list Z) :=
  let num_symbols := hs_val h in
  decode_lengths_loop (Z.to_nat num_symbols) m end_ dectable num_symbols 0 h lengths.

(** ** Bit reversal *)
Fixpoint bitrev (n : nat) (x : Z) : Z :=
  match n with
  | O => 0
  | S n => Z.lor (Z.shiftl (Z.b2z (Z.testbit x 0)) (Z.of_nat n)) (bitrev n (Z.shiftr x 1))
  end.

Lemma b2z_testbit_high b i : 0 < i -> Z.testbit (Z.b2z b) i = false.
Proof. intros Hi. apply testbit_small with 1; [destruct b; simpl; lia | lia]. Qed.

Lemma bitrev_testbit n x i : 0 <= i ->
  Z.testbit (bitrev n x) i = (i <? Z.of_nat n) && Z.testbit x (Z.of_nat n - 1 - i).
Proof.
  revert x. induction n as [|n IH]; intros x Hi.
  - cbn [bitrev]. rewrite Z.bits_0. by destruct (Z.ltb_spec i (Z.of_nat 0)); [lia |].
  - cbn [bitrev]. rewrite Z.lor_spec, IH by done.
    destruct (Z.lt_trichotomy i (Z.of_nat n)) as [Hlt | [-> | Hgt]].
    + rewrite Z.shiftl_spec_low by done. assert ((i <? Z.of_nat n) = true) as -> by zb.
      assert ((i <? Z.of_nat (S n)) = true) as -> by zb. simpl.
      rewrite Z.shiftr_spec by lia. f_equal. lia.
    + rewrite Z.shiftl_spec, Z.sub_diag, Z.b2z_bit0 by lia. rewrite Z.ltb_irrefl.
      assert ((Z.of_nat n <? Z.of_nat (S n)) = true) as -> by zb. rewrite orb_false_r, andb_true_l.
      f_equal. lia.
    + rewrite Z.shiftl_spec, b2z_testbit_high by lia.
      assert ((i <? Z.of_nat n) = false) as -> by zb.
      by assert ((i <? Z.of_nat (S n)) = false) as -> by zb.
Qed.

Lemma bitrev_range n x : 0 <= bitrev n x < 2 ^ Z.of_nat n.
Proof.
  revert x. induction n as [|n IH]; intros x; cbn [bitrev]; [simpl; lia |].
  specialize (IH (Z.shiftr x 1)). rewrite Nat2Z.inj_succ, Z.pow_succ_r by lia.
  rewrite Z.lor_comm, lor_shiftl_add by lia. destruct (Z.testbit x 0); simpl; lia.
Qed.

(** Equality of bit strings, bit by bit. *)
Ltac bit_ext :=
  let i := fresh "i" in
  apply Z.bits_inj'; intros i ?;
  repeat rewrite bitrev_testbit by lia.

Lemma bitrev_mod n x : bitrev n (x mod 2 ^ Z.of_nat n) = bitrev n x.
Proof.
  bit_ext. destruct (Z.ltb_spec i (Z.of_nat n)); [| done]. simpl.
  by rewrite Z.mod_pow2_bits_low by lia.
Qed.

Lemma bitrev_involutive n x : 0 <= x < 2 ^ Z.of_nat n -> bitrev n (bitrev n x) = x.
Proof.
  intros Hx. bit_ext. destruct (Z.ltb_spec i (Z.of_nat n)); simpl.
  - rewrite bitrev_testbit by lia.
    assert ((Z.of_nat n - 1 - i <? Z.of_nat n) = true) as -> by zb. simpl. f_equal. lia.
  - symmetry. apply testbit_small with (Z.of_nat n); lia.
Qed.

(** A code of [L] bits, left-aligned in [n] bits. *)
Lemma bitrev_align n L c : 0 <= L <= Z.of_nat n -> bitrev n (c * 2 ^ (Z.of_nat n - L)) = bitrev (Z.to_nat L) c.
Proof.
  intros HL. bit_ext. rewrite <- Z.shiftl_mul_pow2 by lia.
  destruct (Z.ltb_spec i (Z.of_nat n)), (Z.ltb_spec i (Z.of_nat (Z.to_nat L))); simpl; try lia.
  - rewrite Z.shiftl_spec by lia. f_equal. lia.
  - rewrite Z.shiftl_spec by lia. apply Z.testbit_neg_r. lia.
Qed.

Lemma bitrev_shiftr n L x : 0 <= L <= Z.of_nat n ->
  Z.shiftr (bitrev n x) (Z.of_nat n - L) = bitrev (Z.to_nat L) x.
Proof.
  intros HL. bit_ext. rewrite Z.shiftr_spec, bitrev_testbit by lia.
  destruct (Z.ltb_spec (i + (Z.of_nat n - L)) (Z.of_nat n)), (Z.ltb_spec i (Z.of_nat (Z.to_nat L)));
    simpl; try lia. f_equal. lia.
Qed.

(** ** Incrementing a reversed code *)
Lemma pow2_testbit k i : 0 <= k -> Z.testbit (2 ^ k) i = (k =? i).
Proof. intros. by apply Z.pow2_bits_eqb. Qed.

Lemma bitrev_set n F k : 0 <= k < Z.of_nat n ->
  bitrev n (Z.lor F (2 ^ k)) = Z.lor (bitrev n F) (2 ^ (Z.of_nat n - 1 - k)).
Proof.
  intros Hk. bit_ext. rewrite !Z.lor_spec, !pow2_testbit, bitrev_testbit by lia.
  destruct (Z.ltb_spec i (Z.of_nat n)); simpl.
  - f_equal. destruct (Z.eqb_spec k (Z.of_nat n - 1 - i)), (Z.eqb_spec (Z.of_nat n - 1 - k) i); try done; lia.
  - symmetry. apply Z.eqb_neq. lia.
Qed.

Lemma bitrev_clear n F k : 0 <= k < Z.of_nat n ->
  bitrev n (Z.ldiff F (2 ^ k)) = Z.land (bitrev n F) (Z.lnot (2 ^ (Z.of_nat n - 1 - k))).
Proof.
  intros Hk. bit_ext. rewrite Z.ldiff_spec, Z.land_spec, Z.lnot_spec, !pow2_testbit, bitrev_testbit by lia.
  destruct (Z.ltb_spec i (Z.of_nat n)); simpl; [| done].
  f_equal. f_equal. destruct (Z.eqb_spec k (Z.of_nat n - 1 - i)), (Z.eqb_spec (Z.of_nat n - 1 - k) i); try done; lia.
Qed.

Lemma set_bit_add F k : 0 <= k -> Z.testbit F k = false -> Z.lor F (2 ^ k) = F + 2 ^ k.
Proof.
  intros Hk Hb. apply lor_add. apply Z.bits_inj'; intros i Hi.
  rewrite Z.land_spec, pow2_testbit, Z.bits_0 by done.
  destruct (Z.eqb_spec k i) as [<- |]; [by rewrite Hb | apply andb_false_r].
Qed.

Lemma clear_bit_sub F k : 0 <= k -> Z.testbit F k = true -> Z.ldiff F (2 ^ k) = F - 2 ^ k.
Proof.
  intros Hk Hb. rewrite Z.sub_nocarry_ldiff; [done |]. apply Z.bits_inj'; intros i Hi.
  rewrite Z.ldiff_spec, pow2_testbit, Z.bits_0 by done.
  destruct (Z.eqb_spec k i) as [<- |]; [by rewrite Hb | done].
Qed.

Lemma testbit_divide F k : 0 <= k -> (2 ^ k | F) ->
  (Z.testbit F k = true -> (2 ^ (k + 1) | F - 2 ^ k)) /\ (Z.testbit F k = false -> (2 ^ (k + 1) | F)).
Proof.
  intros Hk [q ->]. rewrite <- Z.shiftl_mul_pow2, Z.shiftl_spec, Z.sub_diag by lia.
  rewrite Z.bit0_odd, Z.shiftl_mul_pow2 by lia.
  rewrite Z.pow_add_r by lia. change (2 ^ 1) with 2. split; intros Hq.
  - apply Z.odd_spec in Hq as [q' ->]. exists q'. lia.
  - rewrite <- Z.negb_even in Hq. apply negb_false_iff, Z.even_spec in Hq as [q' ->]. exists q'. lia.
Qed.

(** The carry loop adds one in the last place of a left-aligned code of
    [pos + 1] bits; overflow reaches [end]. *)
Lemma cc_incr_ok pos F : (pos < 15)%nat -> 0 <= F < 2 ^ 15 -> (2 ^ (14 - Z.of_nat pos) | F) ->
  cc_incr pos (bitrev 15 F) =
    if F + 2 ^ (14 - Z.of_nat pos) <? 2 ^ 15
    then (bitrev 15 (F + 2 ^ (14 - Z.of_nat pos)), false) else (0, true).
Proof.
  revert F. induction pos as [|pos IH]; intros F Hpos HF Hdiv; cbn [cc_incr];
    match type of Hdiv with (2 ^ ?e | F) => set (k := e) in * end; rewrite Z.shiftl_1_l, flag_bit, bitrev_testbit by lia;
    (match goal with |- context [?a <? Z.of_nat 15] =>
       assert ((a <? Z.of_nat 15) = true) as -> by zb end);
    cbn [andb];
    (match goal with |- context [Z.testbit F ?a] => replace a with k by lia end);
    destruct (testbit_divide F k ltac:(lia) Hdiv) as [Hd1 Hd0];
    destruct (Z.testbit F k) eqn:Hb.
  - subst k. simpl Z.sub in *.
    assert (F = 2 ^ 14) as ->.
    { destruct (Hd1 eq_refl) as [q Hq]. change (14 + 1) with 15 in *. lia. }
    reflexivity.
  - rewrite <- set_bit_add by done. rewrite bitrev_set by lia.
    replace (Z.of_nat 15 - 1 - k) with (Z.of_nat 0) by lia.
    assert (Z.lor F (2 ^ k) < 2 ^ 15) as Hlt.
    { apply (lor_bound F (2 ^ k) 15); [lia | lia |]. split; [lia |]. apply Z.pow_lt_mono_r; lia. }
    assert ((Z.lor F (2 ^ k) <? 2 ^ 15) = true) as -> by zb. f_equal. apply u16_small.
    change 65536 with (2 ^ 16). apply lor_bound; [lia | pose proof (bitrev_range 15 F); lia | lia].
  - replace (2 ^ Z.of_nat (S pos)) with (2 ^ (Z.of_nat 15 - 1 - k)) by (f_equal; lia).
    rewrite <- bitrev_clear, clear_bit_sub by (done || lia).
    rewrite u16_small by (pose proof (bitrev_range 15 (F - 2 ^ k)); lia).
    assert (0 <= F - 2 ^ k) as Hge.
    { rewrite <- clear_bit_sub by (done || lia). apply Z.ldiff_nonneg. lia. }
    rewrite IH by (try lia; replace (14 - Z.of_nat pos) with (k + 1) by lia; auto).
    replace (F - 2 ^ k + 2 ^ (14 - Z.of_nat pos)) with (F + 2 ^ k); [done |].
    replace (14 - Z.of_nat pos) with (k + 1) by lia. rewrite Z.pow_add_r by lia. lia.
  - rewrite <- set_bit_add by (done || lia). rewrite bitrev_set by lia.
    replace (Z.of_nat 15 - 1 - k) with (Z.of_nat (S pos)) by lia.
    assert (0 <= 2 ^ k < 2 ^ 15) by (split; [lia |]; apply Z.pow_lt_mono_r; lia).
    assert (Z.lor F (2 ^ k) < 2 ^ 15) as Hlt by (apply (lor_bound F (2 ^ k) 15); lia).
    assert ((Z.lor F (2 ^ k) <? 2 ^ 15) = true) as -> by zb. f_equal. apply u16_small.
    change 65536 with (2 ^ 16).
    assert (2 ^ Z.of_nat (S pos) < 2 ^ 16) by (apply Z.pow_lt_mono_r; lia).
    apply lor_bound; [lia | pose proof (bitrev_range 15 F); lia | lia].
Qed.

(** ** Sums over the symbols of an alphabet *)
Fixpoint sum_from (g : Z -> Z -> Z) (i : Z) (l : list Z) : Z :=
  match l with [] => 0 | x :: l => g i x + sum_from g (i + 1) l end.

Lemma sum_from_ext g h i l :
  (forall k x, l !! k = Some x -> g (i + Z.of_nat k) x = h (i + Z.of_nat k) x) ->
  sum_from g i l = sum_from h i l.
Proof.
  revert i. induction l as [|x l IH]; intros i H; [done |]. simpl. f_equal.
  - pose proof (H 0%nat x eq_refl) as H0. by rewrite Z.add_0_r in H0.
  - apply IH. intros k y Hk. pose proof (H (S k) y Hk) as HS.
    replace (i + Z.of_nat (S k)) with (i + 1 + Z.of_nat k) in HS by lia. done.
Qed.

Lemma sum_from_add g h i l : sum_from (fun j x => g j x + h j x) i l = sum_from g i l + sum_from h i l.
Proof. revert i. induction l as [|x l IH]; intros i; simpl; [lia |]. rewrite IH. lia. Qed.

Lemma sum_from_scale c g i l : sum_from (fun j x => c * g j x) i l = c * sum_from g i l.
Proof. revert i. induction l as [|x l IH]; intros i; simpl; [lia |]. rewrite IH. lia. Qed.

Lemma sum_from_le g h i l :
  (forall k x, l !! k = Some x -> g (i + Z.of_nat k) x <= h (i + Z.of_nat k) x) ->
  sum_from g i l <= sum_from h i l.
Proof.
  revert i. induction l as [|x l IH]; intros i H; [simpl; lia |]. simpl.
  pose proof (H 0%nat x eq_refl) as H0. rewrite Z.add_0_r in H0.
  assert (sum_from g (i + 1) l <= sum_from h (i + 1) l); [| lia].
  apply IH. intros k y Hk. pose proof (H (S k) y Hk) as HS.
  replace (i + Z.of_nat (S k)) with (i + 1 + Z.of_nat k) in HS by lia. done.
Qed.

Lemma sum_from_const c i l : sum_from (fun _ _ => c) i l = c * zlen l.
Proof. revert i. induction l as [|x l IH]; intros i; simpl; [lia |]. rewrite IH. lia. Qed.

Lemma sum_from_bounds g c i l :
  (forall k x, l !! k = Some x -> 0 <= g (i + Z.of_nat k) x <= c) -> 0 <= sum_from g i l <= c * zlen l.
Proof.
  intros H. rewrite <- (sum_from_const c i l). split.
  - replace 0 with (sum_from (fun _ _ => 0) i l) by (rewrite sum_from_const; lia).
    apply sum_from_le. intros k x Hk. by apply H.
  - apply sum_from_le. intros k x Hk. by apply H.
Qed.

(** One term of a sum. *)
Lemma sum_from_single k c i l x : l !! k = Some x ->
  sum_from (fun j _ => if j =? i + Z.of_nat k then c else 0) i l = c.
Proof.
  revert i k. induction l as [|y l IH]; intros i [|k] Hk; simplify_eq/=.
  - rewrite Z.add_0_r, Z.eqb_refl.
    rewrite (sum_from_ext _ (fun _ _ => 0)), sum_from_const; [lia |].
    intros k' z _. destruct (Z.eqb_spec (i + 1 + Z.of_nat k') i); lia.
  - destruct (Z.eqb_spec i (i + Z.of_nat (S k))); [lia |].
    replace (i + Z.of_nat (S k)) with (i + 1 + Z.of_nat k) by lia. rewrite IH by done. lia.
Qed.

Lemma sum_from_term g i l k x : (forall k x, l !! k = Some x -> 0 <= g (i + Z.of_nat k) x) ->
  l !! k = Some x -> g (i + Z.of_nat k) x <= sum_from g i l.
Proof.
  intros Hpos Hk. rewrite <- (sum_from_single k (g (i + Z.of_nat k) x) i l x Hk).
  apply sum_from_le. intros k' y Hk'. destruct (Z.eqb_spec (i + Z.of_nat k') (i + Z.of_nat k)) as [He |].
  - assert (k' = k) as -> by lia. rewrite Hk in Hk'. injection Hk' as ->. lia.
  - by apply Hpos.
Qed.

(** ** Canonical codes (RFC 1951, 3.2.2) *)
Definition bl_count (lengths : list Z) (bits : Z) : Z :=
  sum_from (fun _ x => if x =? bits then 1 else 0) 0 lengths.

(** [code = (code + bl_count[bits-1]) << 1; next_code[bits] = code;] with
    [bl_count[0] = 0]. *)
Fixpoint next_code (lengths : list Z) (bits : nat) : Z :=
  match bits with
  | O => 0
  | S b => 2 * (next_code lengths b + match b with O => 0 | _ => bl_count lengths (Z.of_nat b) end)
  end.

(** The number of symbols of length [len] that come before [sym]. *)
Definition rank (lengths : list Z) (len sym : Z) : Z :=
  sum_from (fun i x => if (x =? len) && (i <? sym) then 1 else 0) 0 lengths.

(** The code that step 3 of the RFC's algorithm gives to [sym], whose length is [len]. *)
Definition rfc_code (lengths : list Z) (sym len : Z) : Z :=
  next_code lengths (Z.to_nat len) + rank lengths len sym.

(** The part of the code space that is in use, in units of [2 ^ -15]. *)
Definition kraft (lengths : list Z) : Z :=
  sum_from (fun _ x => if 0 <? x then 2 ^ (15 - x) else 0) 0 lengths.

Definition valid_lengths (lengths : list Z) : Prop := Forall (fun x => 0 <= x <= 15) lengths.

(** Symbols come in the order of their length, then of their number. *)
Definition before (len sym i x : Z) : bool := (0 <? x) && ((x <? len) || (x =? len) && (i <? sym)).
Definition ksum (lengths : list Z) (len sym : Z) : Z :=
  sum_from (fun i x => if before len sym i x then 2 ^ (15 - x) else 0) 0 lengths.
Definition kcount (lengths : list Z) (len sym : Z) : Z :=
  sum_from (fun i x => if before len sym i x then 1 else 0) 0 lengths.
Definition active (lengths : list Z) : Z := sum_from (fun _ x => if 0 <? x then 1 else 0) 0 lengths.

(** Case analysis on the comparisons of a goal about sums. *)
Ltac cases_bool :=
  repeat match goal with
  | |- context [?a <? ?b] => destruct (Z.ltb_spec a b)
  | |- context [?a =? ?b] => destruct (Z.eqb_spec a b)
  end; simpl; try lia; try done.

Section Canonical.
Context (lengths : list Z).
Hypothesis Hvalid : valid_lengths lengths.

Lemma length_valid k x : lengths !! k = Some x -> 0 <= x <= 15.
Proof. intros Hk. eapply Forall_lookup_1 in Hvalid; [| exact Hk]. done. Qed.

Lemma next_code_sum b : (1 <= b <= 15)%nat ->
  sum_from (fun _ x => if (0 <? x) && (x <? Z.of_nat b) then 2 ^ (15 - x) else 0) 0 lengths
  = next_code lengths b * 2 ^ (15 - Z.of_nat b).
Proof.
  induction b as [|b IH]; intros Hb; [lia |].
  destruct b as [|b].
  - simpl next_code. rewrite (sum_from_ext _ (fun _ _ => 0)), sum_from_const; [lia |].
    intros k x Hk. cases_bool.
  - set (b' := S b) in *. cbn [next_code]. fold (next_code lengths b').
    replace (match b' with O => 0 | _ => bl_count lengths (Z.of_nat b') end)
      with (bl_count lengths (Z.of_nat b')) by done.
    replace (2 * (next_code lengths b' + bl_count lengths (Z.of_nat b')) * 2 ^ (15 - Z.of_nat (S b')))
      with (next_code lengths b' * 2 ^ (15 - Z.of_nat b') + 2 ^ (15 - Z.of_nat b') * bl_count lengths (Z.of_nat b')).
    2: { replace (15 - Z.of_nat b') with (15 - Z.of_nat (S b') + 1) by lia. rewrite Z.pow_add_r by lia. lia. }
    rewrite <- IH by lia. unfold bl_count. rewrite <- sum_from_scale, <- sum_from_add.
    apply sum_from_ext. intros k x Hk. cases_bool. subst. lia.
Qed.

(** The position in the code space of the codes before [(len, sym)]. *)
Lemma ksum_rfc len sym : 1 <= len <= 15 ->
  ksum lengths len sym = rfc_code lengths sym len * 2 ^ (15 - len).
Proof.
  intros Hlen. unfold ksum, rfc_code, rank. rewrite Z.mul_add_distr_r.
  pose proof (next_code_sum (Z.to_nat len) ltac:(lia)) as Hnc. rewrite Z2Nat.id in Hnc by lia.
  rewrite <- Hnc.
  rewrite (Z.mul_comm _ (2 ^ (15 - len))), <- sum_from_scale, <- sum_from_add.
  apply sum_from_ext. intros k x Hk. unfold before. cases_bool.
  subst. lia.
Qed.

Lemma ksum_divide len sym : 1 <= len <= 15 -> (2 ^ (15 - len) | ksum lengths len sym).
Proof. intros. rewrite ksum_rfc by done. apply Z.divide_factor_r. Qed.

(** The next symbol. *)
Lemma before_step len sym k x : 1 <= len -> lengths !! Z.to_nat sym = Some x -> 0 <= sym ->
  forall y, lengths !! k = Some y ->
  before len (sym + 1) (0 + Z.of_nat k) y =
  before len sym (0 + Z.of_nat k) y || (x =? len) && (0 + Z.of_nat k =? 0 + Z.of_nat (Z.to_nat sym)).
Proof.
  intros Hlen Hsym Hs y Hy. unfold before.
  destruct (decide (Z.of_nat k = sym)) as [He | Hne].
  - assert (k = Z.to_nat sym) as -> by lia. rewrite Hsym in Hy. injection Hy as ->. cases_bool.
  - cases_bool.
Qed.

Lemma sum_step (w : Z -> Z) len sym x : 1 <= len -> lengths !! Z.to_nat sym = Some x -> 0 <= sym ->
  sum_from (fun i y => if before len (sym + 1) i y then w y else 0) 0 lengths
  = sum_from (fun i y => if before len sym i y then w y else 0) 0 lengths + (if x =? len then w len else 0).
Proof.
  intros Hlen Hsym Hs. destruct (Z.eqb_spec x len) as [-> | Hne].
  - rewrite <- (sum_from_single (Z.to_nat sym) (w len) 0 lengths len Hsym) at 1.
    rewrite <- sum_from_add. apply sum_from_ext. intros k y Hk.
    rewrite (before_step len sym k len Hlen Hsym Hs y Hk), Z.eqb_refl.
    destruct (Z.eqb_spec (0 + Z.of_nat k) (0 + Z.of_nat (Z.to_nat sym))) as [He |].
    + assert (k = Z.to_nat sym) as -> by lia. rewrite Hsym in Hk. injection Hk as <-.
      unfold before. cases_bool.
    + rewrite andb_false_r, orb_false_r. destruct (before _ _ _ _); lia.
  - rewrite Z.add_0_r. apply sum_from_ext. intros k y Hk.
    rewrite (before_step len sym k x Hlen Hsym Hs y Hk).
    destruct (Z.eqb_spec x len); [done |]. by rewrite orb_false_r.
Qed.

(** The first symbol of the next length. *)
Lemma sum_next (w : Z -> Z) len :
  sum_from (fun i y => if before (len + 1) 0 i y then w y else 0) 0 lengths
  = sum_from (fun i y => if before len (zlen lengths) i y then w y else 0) 0 lengths.
Proof.
  apply sum_from_ext. intros k y Hk. apply lookup_lt_Some in Hk. unfold before. cases_bool.
Qed.

(** What is left of the code space and of the symbols. *)
Lemma rest_weight len sym :
  kraft lengths - ksum lengths len sym
  = sum_from (fun i x => if (0 <? x) && negb (before len sym i x) then 2 ^ (15 - x) else 0) 0 lengths.
Proof.
  unfold kraft, ksum. match goal with |- ?a - ?b = ?c => enough (a = b + c) by lia end.
  rewrite <- sum_from_add. apply sum_from_ext. intros k x Hk. unfold before. cases_bool.
Qed.

Lemma rest_count len sym :
  active lengths - kcount lengths len sym
  = sum_from (fun i x => if (0 <? x) && negb (before len sym i x) then 1 else 0) 0 lengths.
Proof.
  unfold active, kcount. match goal with |- ?a - ?b = ?c => enough (a = b + c) by lia end.
  rewrite <- sum_from_add. apply sum_from_ext. intros k x Hk. unfold before. cases_bool.
Qed.

Lemma rest_nonneg len sym : 0 <= kraft lengths - ksum lengths len sym.
Proof.
  rewrite rest_weight. eapply proj1, (sum_from_bounds _ (2 ^ 15)). intros k x Hk.
  apply length_valid in Hk. destruct (_ && _); [| lia].
  split; [lia | apply Z.pow_le_mono_r; lia].
Qed.

Lemma rest_symbol len sym k x : lengths !! k = Some x -> 0 < x ->
  before len sym (Z.of_nat k) x = false -> 2 ^ (15 - x) <= kraft lengths - ksum lengths len sym.
Proof.
  intros Hk Hx Hb. rewrite rest_weight.
  pose proof (sum_from_term (fun i x => if (0 <? x) && negb (before len sym i x) then 2 ^ (15 - x) else 0)
    0 lengths k x) as Ht. cbn beta in Ht. rewrite Z.add_0_l, Hb in Ht.
  assert ((0 <? x) = true) as Hx' by zb. rewrite Hx' in Ht. apply Ht; [| done].
  intros k' y Hk'. destruct ((0 <? y) && _); [apply Z.pow_nonneg |]; lia.
Qed.

Lemma rest_zero len sym : kraft lengths - ksum lengths len sym = 0 ->
  active lengths = kcount lengths len sym /\
  forall k x, lengths !! k = Some x -> 0 < x -> before len sym (Z.of_nat k) x = true.
Proof.
  intros Hz. assert (forall k x, lengths !! k = Some x -> 0 < x -> before len sym (Z.of_nat k) x = true) as Hall.
  { intros k x Hk Hx. destruct (before _ _ _ _) eqn:Hb; [done |].
    pose proof (rest_symbol len sym k x Hk Hx Hb). apply length_valid in Hk. lia. }
  split; [| done]. enough (active lengths - kcount lengths len sym = 0) by lia.
  rewrite rest_count, (sum_from_ext _ (fun _ _ => 0)), sum_from_const; [lia |].
  intros k x Hk. rewrite Z.add_0_l. destruct (Z.ltb_spec 0 x); [| done]. by rewrite (Hall k x).
Qed.

Lemma rest_pos len sym : 0 < kraft lengths - ksum lengths len sym -> kcount lengths len sym < active lengths.
Proof.
  intros Hp. enough (kraft lengths - ksum lengths len sym <= 2 ^ 14 * (active lengths - kcount lengths len sym))
    by lia.
  rewrite rest_weight, rest_count, <- sum_from_scale. apply sum_from_le. intros k x Hk.
  apply length_valid in Hk. destruct (Z.ltb_spec 0 x); simpl; [| lia].
  destruct (negb _); [| lia]. rewrite Z.mul_1_r. apply Z.pow_le_mono_r; lia.
Qed.

Lemma active_bound : 0 <= active lengths <= zlen lengths.
Proof.
  rewrite <- (Z.mul_1_l (zlen lengths)). apply sum_from_bounds. intros k x _. destruct (0 <? x); lia.
Qed.

Lemma kcount_bound len sym : 0 <= kcount lengths len sym <= zlen lengths.
Proof.
  rewrite <- (Z.mul_1_l (zlen lengths)). apply sum_from_bounds. intros k x _.
  destruct (before _ _ _ _); lia.
Qed.
Lemma ksum_nonneg len sym : 0 <= ksum lengths len sym.
Proof.
  unfold ksum. eapply proj1, (sum_from_bounds _ (2 ^ 15)). intros k x Hk.
  apply length_valid in Hk. destruct (before _ _ _ _); [| lia].
  split; [lia | apply Z.pow_le_mono_r; lia].
Qed.

Lemma before_all k x : lengths !! k = Some x -> before 16 0 (Z.of_nat k) x = (0 <? x).
Proof. intros Hk. apply length_valid in Hk. unfold before. cases_bool. Qed.

End Canonical.

(** ** Correctness of [construct_codes] *)
Section ConstructCodes.
Context (lengths codes0 : list Z).
Hypothesis Hvalid : valid_lengths lengths.
Hypothesis Hcodes0 : length codes0 = length lengths.
Hypothesis Hsmall : zlen lengths < 65536.

(** After the symbols before [(len, sym)]. *)
Definition codes_upto (codes : list Z) (len sym : Z) : Prop :=
  length codes = length lengths /\
  forall k x, lengths !! k = Some x ->
    codes !! k = if before len sym (Z.of_nat k) x then Some (bitrev 15 (ksum lengths x (Z.of_nat k)))
                 else codes0 !! k.

Definition cc_inv (len sym : Z) (st : cc_state) : Prop :=
  exists l s, codes_upto (cc_codes st) l s /\ cc_allocated st = kcount lengths l s /\
    if cc_end st then ksum lengths l s = 2 ^ 15
    else l = len /\ s = sym /\ 0 <= ksum lengths len sym < 2 ^ 15 /\
         cc_code st = bitrev 15 (ksum lengths len sym).

Lemma codes_upto_step codes len sym : 1 <= len -> 0 <= sym -> lengths !! Z.to_nat sym = Some len ->
  codes_upto codes len sym ->
  codes_upto (<[Z.to_nat sym := bitrev 15 (ksum lengths len sym)]> codes) len (sym + 1).
Proof.
  intros Hlen Hs Hsym [Hl Hc]. split; [by rewrite length_insert |]. intros k x Hk.
  pose proof (before_step lengths len sym k len Hlen Hsym Hs x Hk) as Hb.
  rewrite !Z.add_0_l, Z.eqb_refl in Hb. cbn [andb] in Hb. rewrite Hb. apply lookup_lt_Some in Hk as Hlt.
  destruct (Z.eqb_spec (Z.of_nat k) (Z.of_nat (Z.to_nat sym))) as [He | Hne].
  - assert (k = Z.to_nat sym) as -> by lia. rewrite orb_true_r.
    rewrite list_lookup_insert_eq by lia. rewrite Hsym in Hk. injection Hk as <-.
    by rewrite Z2Nat.id by lia.
  - rewrite orb_false_r, list_lookup_insert_ne by lia. by apply Hc.
Qed.

Lemma codes_upto_skip codes len sym x : 1 <= len -> 0 <= sym -> lengths !! Z.to_nat sym = Some x ->
  x <> len -> codes_upto codes len sym -> codes_upto codes len (sym + 1).
Proof.
  intros Hlen Hs Hsym Hx [Hl Hc]. split; [done |]. intros k y Hk.
  pose proof (before_step lengths len sym k x Hlen Hsym Hs y Hk) as Hb.
  rewrite !Z.add_0_l in Hb. destruct (Z.eqb_spec x len); [done |].
  rewrite orb_false_r in Hb. rewrite Hb. by apply Hc.
Qed.

(** Codes of the same length fill the code space exactly. *)
Lemma ksum_room len sym : 1 <= len <= 15 -> ksum lengths len sym < 2 ^ 15 ->
  ksum lengths len sym + 2 ^ (15 - len) <= 2 ^ 15.
Proof.
  intros Hlen Hk. destruct (ksum_divide lengths len sym Hlen) as [q Hq].
  assert (2 ^ 15 = 2 ^ len * 2 ^ (15 - len)) as H15 by (rewrite <- Z.pow_add_r by lia; f_equal; lia).
  assert (0 < 2 ^ (15 - len)) by (apply Z.pow_pos_nonneg; lia).
  set (W := 2 ^ (15 - len)) in *. rewrite Hq, H15 in *.
  apply Z.mul_lt_mono_pos_r in Hk; [| done].
  replace (q * W + W) with ((q + 1) * W) by lia. apply Z.mul_le_mono_nonneg_r; lia.
Qed.

Lemma cc_sym_ok len sym st : 1 <= len <= 15 -> 0 <= sym < zlen lengths -> cc_inv len sym st ->
  exists st', cc_sym lengths len st sym = Ok st' /\ cc_inv len (sym + 1) st'.
Proof.
  intros Hlen Hsym Hinv. pose proof Hinv as (l & s & Hc & Ha & Hst). unfold cc_sym.
  destruct (cc_end st) eqn:Hend.
  { exists st. split; [done |]. exists l, s. by rewrite Hend. }
  destruct Hst as (-> & -> & Hk & Hcode).
  destruct (geti_in lengths sym Hsym) as (x & -> & Hx). cbn [mbind res_bind].
  assert (ksum lengths len (sym + 1) = ksum lengths len sym + if x =? len then 2 ^ (15 - len) else 0) as Hsum
    by (apply (sum_step lengths (fun y => 2 ^ (15 - y))); [lia | done | lia]).
  assert (kcount lengths len (sym + 1) = kcount lengths len sym + if x =? len then 1 else 0) as Hcnt
    by (apply (sum_step lengths (fun _ => 1)); [lia | done | lia]).
  destruct (Z.eqb_spec x len) as [-> | Hne]; cbn [negb].
  - destruct Hc as [Hl Hc]. rewrite seti_ok by lia. cbn [mbind res_bind].
    pose proof (ksum_divide lengths len sym Hlen) as Hdiv. rewrite Hcode.
    replace (15 - len) with (14 - Z.of_nat (Z.to_nat (len - 1))) in Hdiv by lia.
    rewrite (cc_incr_ok (Z.to_nat (len - 1)) _ ltac:(lia) Hk Hdiv).
    replace (14 - Z.of_nat (Z.to_nat (len - 1))) with (15 - len) by lia. rewrite <- Hsum.
    pose proof (kcount_bound lengths len (sym + 1)). pose proof (kcount_bound lengths len sym).
    destruct (Z.ltb_spec (ksum lengths len (sym + 1)) (2 ^ 15)).
    + eexists. split; [done |]. exists len, (sym + 1). cbn.
      split_and!; [apply codes_upto_step; done || lia | rewrite u16_small; lia | done | done | by apply ksum_nonneg | done | done].
    + eexists. split; [done |]. exists len, (sym + 1). cbn.
      split_and!; [apply codes_upto_step; done || lia | rewrite u16_small; lia |].
      pose proof (ksum_room len sym Hlen ltac:(lia)). lia.
  - exists st. split; [done |]. exists len, (sym + 1). rewrite Hend, Hsum, Hcnt, !Z.add_0_r.
    split_and!; [by eapply codes_upto_skip; [lia | lia | ..] | done | done | done | lia | lia | done].
Qed.

Lemma codes_upto_ext codes len sym len' sym' :
  (forall k x, lengths !! k = Some x -> before len' sym' (Z.of_nat k) x = before len sym (Z.of_nat k) x) ->
  codes_upto codes len sym -> codes_upto codes len' sym'.
Proof. intros Hb [Hl Hc]. split; [done |]. intros k x Hk. rewrite Hb by done. by apply Hc. Qed.

Lemma cc_inv_next len st : cc_inv len (zlen lengths) st -> cc_inv (len + 1) 0 st.
Proof.
  intros (l & s & Hc & Ha & Hst). destruct (cc_end st) eqn:Hend.
  - exists l, s. by rewrite Hend.
  - destruct Hst as (-> & -> & Hk & Hcode). exists (len + 1), 0. rewrite Hend.
    assert (ksum lengths (len + 1) 0 = ksum lengths len (zlen lengths)) as ->
      by apply (sum_next lengths (fun y => 2 ^ (15 - y))).
    assert (kcount lengths (len + 1) 0 = kcount lengths len (zlen lengths)) as ->
      by apply (sum_next lengths (fun _ => 1)).
    split_and!; try done; try lia. eapply codes_upto_ext; [| exact Hc].
    intros k x Hk'. apply lookup_lt_Some in Hk'. unfold before. cases_bool.
Qed.

Lemma cc_loop_ok : exists st,
  foldM (fun st len => foldM (cc_sym lengths len) st (range 0 (zlen lengths)))
    {| cc_codes := codes0; cc_code := 0; cc_allocated := 0; cc_end := false |} (range 1 16) = Ok st /\
  cc_inv 16 0 st.
Proof.
  apply (foldM_range (fun len st => cc_inv len 0 st)); [lia | |].
  - assert (forall k x, lengths !! k = Some x -> before 1 0 (0 + Z.of_nat k) x = false) as Hb
      by (intros k x _; unfold before; cases_bool).
    exists 1, 0. cbn.
    assert (ksum lengths 1 0 = 0) as ->
      by (unfold ksum; rewrite (sum_from_ext _ (fun _ _ => 0)), sum_from_const;
          [lia | intros k x Hk; by rewrite (Hb k x)]).
    assert (kcount lengths 1 0 = 0) as ->
      by (unfold kcount; rewrite (sum_from_ext _ (fun _ _ => 0)), sum_from_const;
          [lia | intros k x Hk; by rewrite (Hb k x)]).
    split_and!; try done. split; [done |]. intros k x Hk. specialize (Hb k x Hk).
    rewrite Z.add_0_l in Hb. by rewrite Hb.
  - intros len st Hlen Hinv.
    destruct (foldM_range (fun sym st => cc_inv len sym st) (cc_sym lengths len) st 0 (zlen lengths))
      as (st' & Hst' & Hinv'); [lia | done | intros; apply cc_sym_ok; [lia | lia | done] |].
    exists st'. split; [done |]. by apply cc_inv_next.
Qed.

(** The state in which the loops end: all symbols have their codes, or the
    codes were exhausted before. *)
Lemma cc_final st : cc_inv 16 0 st ->
  if kraft lengths <=? 2 ^ 15 then
    active lengths = cc_allocated st /\ length (cc_codes st) = length lengths /\
    forall k x, lengths !! k = Some x -> cc_codes st !! k =
      if 0 <? x then Some (bitrev 15 (ksum lengths x (Z.of_nat k))) else codes0 !! k
  else active lengths <> cc_allocated st.
Proof.
  intros (l & s & [Hl Hc] & Ha & Hst).
  assert (cc_end st = false -> kraft lengths - ksum lengths l s = 0 /\ ksum lengths l s < 2 ^ 15) as Hfull.
  { intros He. rewrite He in Hst. destruct Hst as (-> & -> & Hk & _). split; [| lia].
    rewrite rest_weight, (sum_from_ext _ (fun _ _ => 0)), sum_from_const; [lia |].
    intros k x Hk'. rewrite Z.add_0_l, (before_all lengths Hvalid k x Hk'). by destruct (0 <? x). }
  pose proof (rest_nonneg lengths Hvalid l s) as Hnn.
  destruct (Z.leb_spec (kraft lengths) (2 ^ 15)) as [Hle | Hgt].
  - assert (kraft lengths - ksum lengths l s = 0) as Hz.
    { destruct (cc_end st); [lia | by apply Hfull]. }
    destruct (rest_zero lengths Hvalid l s Hz) as [Hact Hall]. split_and!; [lia | done |].
    intros k x Hk. rewrite (Hc k x Hk). destruct (Z.ltb_spec 0 x) as [Hx | Hx].
    + by rewrite (Hall k x).
    + replace (before l s (Z.of_nat k) x) with false; [done |]. unfold before. cases_bool.
  - destruct (cc_end st).
    + pose proof (rest_pos lengths Hvalid l s). lia.
    + destruct Hfull; [done |]. lia.
Qed.
End ConstructCodes.

Lemma cc_count_ok lengths codes : valid_lengths lengths -> length codes = length lengths ->
  zlen lengths < 65536 ->
  exists codes', foldM (cc_count lengths) (0, codes) (range 0 (zlen lengths)) = Ok (active lengths, codes') /\
    length codes' = length lengths /\
    forall k, lengths !! k = Some 0 -> codes' !! k = Some 0.
Proof.
  intros Hv Hl Hs.
  destruct (foldM_range (fun sym '(a, c) =>
     a = sum_from (fun i x => if (0 <? x) && (i <? sym) then 1 else 0) 0 lengths /\
     length c = length lengths /\ forall k, (Z.of_nat k < sym) -> lengths !! k = Some 0 -> c !! k = Some 0)
     (cc_count lengths) (0, codes) 0 (zlen lengths)) as ([a c] & Hf & Ha & Hlc & Hc).
  - lia.
  - split_and!; [| done | lia].
    rewrite (sum_from_ext _ (fun _ _ => 0)), sum_from_const; [lia |].
    intros k x _. destruct (Z.ltb_spec (0 + Z.of_nat k) 0); [lia |]. by rewrite andb_false_r.
  - intros sym [a c] Hsym (Ha & Hlc & Hc). unfold cc_count.
    destruct (geti_in lengths sym Hsym) as (x & -> & Hx). cbn [mbind res_bind].
    assert (sum_from (fun i y => if (0 <? y) && (i <? sym + 1) then 1 else 0) 0 lengths
            = a + if 0 <? x then 1 else 0) as Hsum.
    { rewrite Ha. rewrite <- (sum_from_single (Z.to_nat sym) (if 0 <? x then 1 else 0) 0 lengths x Hx).
      rewrite <- sum_from_add. apply sum_from_ext. intros k y Hk.
      destruct (Z.eqb_spec (0 + Z.of_nat k) (0 + Z.of_nat (Z.to_nat sym))) as [He |].
      - assert (k = Z.to_nat sym) as -> by lia. rewrite Hx in Hk. injection Hk as ->. cases_bool.
      - cases_bool. }
    pose proof (length_valid lengths Hv _ _ Hx).
    destruct (Z.eqb_spec x 0) as [-> | Hne]; cbn [negb].
    + rewrite seti_ok by lia. eexists. split; [done |]. split_and!.
      * rewrite Hsum. simpl. lia.
      * by rewrite length_insert.
      * intros k Hk Hk0. destruct (decide (k = Z.to_nat sym)) as [-> | ?].
        -- rewrite list_lookup_insert_eq by lia. done.
        -- rewrite list_lookup_insert_ne by done. apply Hc; [lia | done].
    + eexists. split; [done |].
      assert (forall j, 0 <= sum_from (fun i y => if (0 <? y) && (i <? j) then 1 else 0) 0 lengths <= 1 * zlen lengths)
        as Hb by (intros j; apply sum_from_bounds; intros k y _; destruct ((0 <? y) && _); lia).
      pose proof (Hb sym). pose proof (Hb (sym + 1)).
      assert ((0 <? x) = true) as Hx0 by zb. rewrite Hx0 in Hsum. split_and!; [rewrite u16_small by lia; lia | done |].
      intros k Hk Hk0. apply Hc; [| done]. assert (k <> Z.to_nat sym) by congruence. lia.
  - exists c. rewrite Hf. split_and!; [| done |].
    + do 2 f_equal. rewrite Ha. apply sum_from_ext. intros k x Hk. apply lookup_lt_Some in Hk. cases_bool.
    + intros k Hk. apply Hc; [| done]. apply lookup_lt_Some in Hk. lia.
Qed.

(** [construct_codes] computes the canonical code of RFC 1951, with the bits of
    each code reversed, or traps when the lengths oversubscribe the code. *)
Lemma construct_codes_ok lengths codes : valid_lengths lengths -> length codes = length lengths ->
  zlen lengths < 65536 ->
  if kraft lengths <=? 2 ^ 15 then
    exists codes', construct_codes (zlen lengths) lengths codes = Ok codes' /\
      length codes' = length lengths /\
      forall k x, lengths !! k = Some x ->
        codes' !! k = Some (if 0 <? x then bitrev (Z.to_nat x) (rfc_code lengths (Z.of_nat k) x) else 0)
  else construct_codes (zlen lengths) lengths codes = Trap TrapAssert.
Proof.
  intros Hv Hl Hs. unfold construct_codes.
  destruct (cc_count_ok lengths codes Hv Hl Hs) as (codes0 & -> & Hl0 & Hz). cbn [mbind res_bind].
  destruct (cc_loop_ok lengths codes0 Hv Hl0 Hs) as (st & -> & Hinv). cbn [mbind res_bind].
  pose proof (cc_final lengths codes0 Hv Hl0 st Hinv) as Hfin.
  destruct (kraft lengths <=? 2 ^ 15).
  - destruct Hfin as (-> & Hlen & Hc). rewrite Z.eqb_refl. cbn. exists (cc_codes st).
    split_and!; [done | done |]. intros k x Hk. rewrite (Hc k x Hk).
    pose proof (length_valid lengths Hv _ _ Hk).
    destruct (Z.ltb_spec 0 x).
    + rewrite ksum_rfc by lia. change (15 - x) with (Z.of_nat 15 - x). by rewrite bitrev_align by lia.
    + apply Hz. rewrite Hk. f_equal. lia.
  - apply Z.eqb_neq in Hfin. by rewrite Hfin.
Qed.

(** ** Prefix codes *)
Definition codes_for (lengths codes : list Z) : Prop :=
  length codes = length lengths /\
  forall k x, lengths !! k = Some x ->
    codes !! k = Some (if 0 <? x then bitrev (Z.to_nat x) (rfc_code lengths (Z.of_nat k) x) else 0).

(** The bits [V], read from the lowest one, start with the code of symbol [k]. *)
Definition code_matches (lengths : list Z) (V : Z) (k : nat) (x : Z) : Prop :=
  lengths !! k = Some x /\ 0 < x /\ V mod 2 ^ x = bitrev (Z.to_nat x) (rfc_code lengths (Z.of_nat k) x).

Section PrefixCode.
Context (lengths : list Z).
Hypothesis Hvalid : valid_lengths lengths.
Hypothesis Hkraft : kraft lengths <= 2 ^ 15.

Lemma before_self k x : before x (Z.of_nat k) (Z.of_nat k) x = false.
Proof. unfold before. cases_bool. Qed.

Lemma ksum_code k x : lengths !! k = Some x -> 0 < x ->
  0 <= ksum lengths x (Z.of_nat k) /\ ksum lengths x (Z.of_nat k) + 2 ^ (15 - x) <= 2 ^ 15.
Proof.
  intros Hk Hx. pose proof (rest_symbol lengths x (Z.of_nat k) k x Hk Hx (before_self k x)).
  pose proof (ksum_nonneg lengths Hvalid x (Z.of_nat k)). lia.
Qed.

Lemma rfc_code_range k x : lengths !! k = Some x -> 0 < x -> 0 <= rfc_code lengths (Z.of_nat k) x < 2 ^ x.
Proof.
  intros Hk Hx. pose proof (ksum_code k x Hk Hx) as [H0 H1]. pose proof (length_valid lengths Hvalid k x Hk).
  rewrite ksum_rfc in H0, H1 by lia. set (c := rfc_code _ _ _) in *.
  assert (0 < 2 ^ (15 - x)) as HW by (apply Z.pow_pos_nonneg; lia).
  assert (2 ^ 15 = 2 ^ x * 2 ^ (15 - x)) as H15 by (rewrite <- Z.pow_add_r by lia; f_equal; lia).
  set (W := 2 ^ (15 - x)) in *. rewrite H15 in H1. split.
  - apply (Z.mul_le_mono_pos_r _ _ W); lia.
  - apply (Z.mul_lt_mono_pos_r W); lia.
Qed.

(** A match places the reversed bits in the interval of the symbol. *)
Lemma match_interval V k x : code_matches lengths V k x ->
  ksum lengths x (Z.of_nat k) <= bitrev 15 V < ksum lengths x (Z.of_nat k) + 2 ^ (15 - x).
Proof.
  intros (Hk & Hx & Hm). pose proof (length_valid lengths Hvalid k x Hk).
  pose proof (rfc_code_range k x Hk Hx) as Hr.
  assert (bitrev 15 V / 2 ^ (15 - x) = rfc_code lengths (Z.of_nat k) x) as Hd.
  { rewrite <- Z.shiftr_div_pow2 by lia. rewrite (bitrev_shiftr 15 x) by lia.
    rewrite <- bitrev_mod, Z2Nat.id, Hm by lia. apply bitrev_involutive. by rewrite Z2Nat.id by lia. }
  rewrite ksum_rfc by lia. rewrite <- Hd.
  assert (0 < 2 ^ (15 - x)) by (apply Z.pow_pos_nonneg; lia).
  pose proof (Z.div_mod (bitrev 15 V) (2 ^ (15 - x)) ltac:(lia)).
  pose proof (Z.mod_pos_bound (bitrev 15 V) (2 ^ (15 - x)) ltac:(lia)). lia.
Qed.

(** Codes that come later occupy a later interval. *)
Lemma ksum_mono k x k' x' : lengths !! k = Some x -> 0 < x ->
  x < x' \/ x = x' /\ (k < k')%nat ->
  ksum lengths x (Z.of_nat k) + 2 ^ (15 - x) <= ksum lengths x' (Z.of_nat k').
Proof.
  intros Hk Hx Hord. unfold ksum at 1.
  rewrite <- (sum_from_single k (2 ^ (15 - x)) 0 lengths x Hk), <- sum_from_add.
  apply sum_from_le. intros j y Hj. unfold before.
  destruct (Z.eqb_spec (0 + Z.of_nat j) (0 + Z.of_nat k)) as [He |].
  - assert (j = k) as -> by lia. rewrite Hk in Hj. injection Hj as <-. cases_bool.
  - pose proof (Z.pow_nonneg 2 (15 - y) ltac:(lia)). cases_bool.
Qed.

(** No bit string starts with the codes of two symbols. *)
Lemma code_unique V k x k' x' :
  code_matches lengths V k x -> code_matches lengths V k' x' -> k = k'.
Proof.
  intros H1 H2. pose proof (match_interval _ _ _ H1). pose proof (match_interval _ _ _ H2).
  destruct H1 as (Hk1 & Hx1 & _), H2 as (Hk2 & Hx2 & _).
  destruct (decide (k = k')) as [| Hne]; [done | exfalso].
  destruct (Z.lt_trichotomy x x') as [Hlt | [-> | Hgt]].
  - pose proof (ksum_mono k x k' x' Hk1 Hx1 ltac:(lia)). lia.
  - destruct (Nat.lt_trichotomy k k') as [Hlt | [-> | Hgt]]; [| done |].
    + pose proof (ksum_mono k x' k' x' Hk1 Hx1 ltac:(lia)). lia.
    + pose proof (ksum_mono k' x' k x' Hk2 Hx2 ltac:(lia)). lia.
  - pose proof (ksum_mono k' x' k x Hk2 Hx2 ltac:(lia)). lia.
Qed.

(** A match depends on the low bits only. *)
Lemma code_matches_mod V n k x : x <= n -> code_matches lengths V k x <-> code_matches lengths (V mod 2 ^ n) k x.
Proof.
  intros Hn. unfold code_matches.
  destruct (decide (0 < x)) as [Hx |]; [| intuition lia].
  replace (V mod 2 ^ n mod 2 ^ x) with (V mod 2 ^ x); [done |].
  rewrite Z.mod_mod_divide; [done |]. exists (2 ^ (n - x)). rewrite <- Z.pow_add_r by lia. f_equal. lia.
Qed.
End PrefixCode.

(** ** Correctness of [construct_dectable] *)
Lemma dt_fill_ok len code sym t : 0 <= len <= 11 -> 0 <= code < 2 ^ len -> 0 <= sym < 2048 ->
  length t = 2048%nat ->
  exists t', dt_fill len code sym t = Ok t' /\ length t' = 2048%nat /\
    forall j, 0 <= j < 2048 ->
      t' !! Z.to_nat j = if j mod 2 ^ len =? code then Some (len + 16 * sym) else t !! Z.to_nat j.
Proof.
  intros Hlen Hcode Hsym Ht. unfold dt_fill.
  assert (u16 (Z.lor len (Z.shiftl sym 4)) = len + 16 * sym) as ->.
  { rewrite lor_shiftl_add by (change (2 ^ 4) with 16; lia). rewrite u16_small; change (2 ^ 4) with 16; lia. }
  assert (Z.shiftr 2048 len = 2 ^ (11 - len)) as ->.
  { rewrite Z.shiftr_div_pow2 by lia. change 2048 with (2 ^ 11). rewrite Z.pow_sub_r by lia. done. }
  assert (0 < 2 ^ len) by (apply Z.pow_pos_nonneg; lia).
  assert (2 ^ (11 - len) * 2 ^ len = 2048) as H11.
  { rewrite <- Z.pow_add_r by lia. change 2048 with (2 ^ 11). f_equal. lia. }
  destruct (foldM_range (fun n t' => length t' = 2048%nat /\ forall j, 0 <= j < 2048 ->
      t' !! Z.to_nat j = if (j mod 2 ^ len =? code) && (j / 2 ^ len <? n)
                         then Some (len + 16 * sym) else t !! Z.to_nat j)
    (fun t i => seti t (Z.lor (Z.shiftl i len) code) (len + 16 * sym)) t 0 (2 ^ (11 - len)))
    as (t' & Hf & Hl & Hj).
  - apply Z.pow_nonneg. lia.
  - split; [done |]. intros j Hj. destruct (Z.ltb_spec (j / 2 ^ len) 0); [| by rewrite andb_false_r].
    pose proof (Z.div_pos j (2 ^ len)). lia.
  - intros n t' Hn [Hl Hj].
    rewrite Z.lor_comm, lor_shiftl_add by lia.
    assert (n * 2 ^ len + 2 ^ len <= 2048) by (rewrite <- H11; nia).
    rewrite seti_ok by (rewrite Hl; lia). eexists. split; [done |].
    split; [by rewrite length_insert |]. intros j Hj'.
    destruct (decide (j = code + n * 2 ^ len)) as [-> | Hne].
    + rewrite list_lookup_insert_eq by lia. rewrite Z.mod_add, Z.div_add by lia.
      rewrite Z.mod_small, Z.div_small, Z.eqb_refl by lia.
      by assert ((0 + n <? n + 1) = true) as -> by zb.
    + rewrite list_lookup_insert_ne by lia. rewrite Hj by done.
      destruct (Z.eqb_spec (j mod 2 ^ len) code) as [He |]; [| done]. simpl.
      assert (j / 2 ^ len <> n).
      { intros <-. apply Hne. rewrite <- He. pose proof (Z.div_mod j (2 ^ len) ltac:(lia)). lia. }
      cases_bool.
  - exists t'. split_and!; [done | done |]. intros j Hj'. rewrite Hj by done.
    destruct (j mod 2 ^ len =? code); [| done]. simpl.
    assert (j / 2 ^ len < 2 ^ (11 - len)) as Hlt by (apply Z.div_lt_upper_bound; lia).
    by assert ((j / 2 ^ len <? 2 ^ (11 - len)) = true) as -> by zb.
Qed.

(** What the decoding table says about the symbols below [n]. *)
Definition short_match (lengths : list Z) (i : Z) (k : nat) (x : Z) : Prop :=
  code_matches lengths i k x /\ x <= 11.
Definition long_match (lengths : list Z) (i : Z) (k : nat) (x : Z) : Prop :=
  lengths !! k = Some x /\ 11 < x /\ i = bitrev (Z.to_nat x) (rfc_code lengths (Z.of_nat k) x) mod 2048.

Record table_upto (lengths : list Z) (n : Z) (t : list Z) : Prop := {
  tab_len : length t = 2048%nat;
  tab_short : forall i k x, 0 <= i < 2048 -> Z.of_nat k < n -> short_match lengths i k x ->
    t !! Z.to_nat i = Some (x + 16 * Z.of_nat k);
  tab_long : forall i k x, Z.of_nat k < n -> long_match lengths i k x -> t !! Z.to_nat i = Some 12;
  tab_all : forall i, 0 <= i < 2048 ->
    t !! Z.to_nat i = Some 10 \/
    (exists k x, Z.of_nat k < n /\ short_match lengths i k x /\ t !! Z.to_nat i = Some (x + 16 * Z.of_nat k)) \/
    (exists k x, Z.of_nat k < n /\ long_match lengths i k x /\ t !! Z.to_nat i = Some 12);
}.

Section Dectable.
Context (lengths codes : list Z).
Hypothesis Hvalid : valid_lengths lengths.
Hypothesis Hkraft : kraft lengths <= 2 ^ 15.
Hypothesis Hcodes : codes_for lengths codes.
Hypothesis Hsyms : zlen lengths <= 512.

(** A long code agrees with no short one. *)
Lemma short_long i k x k' x' : short_match lengths i k x -> long_match lengths i k' x' -> False.
Proof.
  intros [Hm Hx] (Hk' & Hx' & ->). set (c := bitrev _ _) in *.
  change 2048 with (2 ^ 11) in Hm. rewrite <- code_matches_mod in Hm by lia.
  assert (code_matches lengths c k' x') as Hm'.
  { split_and!; [done | lia |]. subst c. apply Z.mod_small.
    pose proof (bitrev_range (Z.to_nat x') (rfc_code lengths (Z.of_nat k') x')). by rewrite Z2Nat.id in * by lia. }
  pose proof (code_unique lengths Hvalid Hkraft _ _ _ _ _ Hm Hm') as ->.
  destruct Hm as (Hk & _). rewrite Hk in Hk'. injection Hk' as ->. lia.
Qed.

Lemma short_unique i k x k' x' : short_match lengths i k x -> short_match lengths i k' x' -> k = k' /\ x = x'.
Proof.
  intros [Hm Hx] [Hm' Hx']. pose proof (code_unique lengths Hvalid Hkraft _ _ _ _ _ Hm Hm') as ->.
  destruct Hm as (Hk & _), Hm' as (Hk' & _). rewrite Hk in Hk'. by injection Hk' as ->.
Qed.

Lemma code_lookup k x : lengths !! k = Some x -> 0 < x ->
  codes !! k = Some (bitrev (Z.to_nat x) (rfc_code lengths (Z.of_nat k) x)).
Proof. intros Hk Hx. destruct Hcodes as [_ H]. rewrite (H k x Hk). by assert ((0 <? x) = true) as -> by zb. Qed.

(** Counts of the overlength codes below [n]. *)
Definition counts_upto (n : Z) (count : list Z) : Prop :=
  length count = 4%nat /\ forall j, 0 <= j < 4 -> count !! Z.to_nat j = Some (rank lengths (12 + j) n).

Lemma rank_step len sym x : lengths !! Z.to_nat sym = Some x -> 0 <= sym ->
  rank lengths len (sym + 1) = rank lengths len sym + if x =? len then 1 else 0.
Proof.
  intros Hx Hs. unfold rank.
  rewrite <- (sum_from_single (Z.to_nat sym) (if x =? len then 1 else 0) 0 lengths x Hx), <- sum_from_add.
  apply sum_from_ext. intros k y Hk.
  destruct (Z.eqb_spec (0 + Z.of_nat k) (0 + Z.of_nat (Z.to_nat sym))) as [He |].
  - assert (k = Z.to_nat sym) as -> by lia. rewrite Hx in Hk. injection Hk as <-. cases_bool.
  - cases_bool.
Qed.

Lemma rank_bound len sym : 0 <= rank lengths len sym <= 512.
Proof.
  unfold rank. pose proof (sum_from_bounds (fun i x => if (x =? len) && (i <? sym) then 1 else 0) 1 0 lengths).
  enough (0 <= sum_from (fun i x => if (x =? len) && (i <? sym) then 1 else 0) 0 lengths <= 1 * zlen lengths) by lia.
  apply H. intros k x _. destruct ((x =? len) && _); lia.
Qed.

Lemma counts_step n count x : 0 <= n -> lengths !! Z.to_nat n = Some x -> counts_upto n count -> 12 <= x <= 15 ->
  exists c, geti count (x - 12) = Ok c /\ c = rank lengths x n /\
    seti count (x - 12) (u16 (c + 1)) = Ok (<[Z.to_nat (x - 12) := c + 1]> count) /\
    counts_upto (n + 1) (<[Z.to_nat (x - 12) := c + 1]> count).
Proof.
  intros Hn Hx [Hl Hc] Hx'. pose proof (rank_bound x n). exists (rank lengths x n).
  pose proof (Hc (x - 12) ltac:(lia)) as Hcx. replace (12 + (x - 12)) with x in Hcx by lia.
  split_and!; [apply geti_ok; [lia | done] | done | rewrite seti_ok, u16_small by lia; done |].
  split; [by rewrite length_insert |].
  - intros j Hj. rewrite (rank_step _ _ x) by done. destruct (Z.eqb_spec x (12 + j)) as [He | Hne].
    + replace (Z.to_nat (x - 12)) with (Z.to_nat j) by lia. rewrite list_lookup_insert_eq by lia. by rewrite He.
    + rewrite list_lookup_insert_ne by lia. rewrite Z.add_0_r. by apply Hc.
Qed.

Lemma counts_skip n count x : 0 <= n -> lengths !! Z.to_nat n = Some x -> counts_upto n count -> x < 12 ->
  counts_upto (n + 1) count.
Proof.
  intros Hn Hx [Hl Hc] Hx'. split; [done |]. intros j Hj. rewrite (rank_step _ _ x) by done.
  destruct (Z.eqb_spec x (12 + j)); [lia |]. rewrite Z.add_0_r. by apply Hc.
Qed.

Lemma lt_succ_cases (k : nat) n : 0 <= n -> Z.of_nat k < n + 1 -> Z.of_nat k < n \/ k = Z.to_nat n.
Proof. lia. Qed.

Lemma table_zero n t : 0 <= n -> lengths !! Z.to_nat n = Some 0 ->
  table_upto lengths n t -> table_upto lengths (n + 1) t.
Proof.
  intros Hn Hz [Hl Hs Hlg Ha].
  assert (forall k, k = Z.to_nat n -> forall i x, ~ short_match lengths i k x /\ ~ long_match lengths i k x) as Hno.
  { intros k -> i x. split; [intros [(Hk & Hx & _) _] | intros (Hk & Hx & _)];
      rewrite Hz in Hk; injection Hk as <-; lia. }
  constructor; [done | | |].
  - intros i k x Hi [Hk | Hk]%lt_succ_cases Hm; [by apply Hs | | done]. by destruct (Hno k Hk i x).
  - intros i k x [Hk | Hk]%lt_succ_cases Hm; [by eapply Hlg | | done]. by destruct (Hno k Hk i x).
  - intros i Hi. destruct (Ha i Hi) as [H | [(k & x & Hk & H) | (k & x & Hk & H)]]; [by left | |];
      [right; left | right; right]; exists k, x; (split; [lia | done]).
Qed.

Lemma table_short_step n t t' x : 0 <= n -> lengths !! Z.to_nat n = Some x -> 0 < x <= 11 ->
  length t' = 2048%nat ->
  (forall j, 0 <= j < 2048 -> t' !! Z.to_nat j =
     if j mod 2 ^ x =? bitrev (Z.to_nat x) (rfc_code lengths n x) then Some (x + 16 * n) else t !! Z.to_nat j) ->
  table_upto lengths n t -> table_upto lengths (n + 1) t'.
Proof.
  intros Hn Hx Hx' Hl' Hj [Hl Hs Hlg Ha].
  assert (forall i, i mod 2 ^ x = bitrev (Z.to_nat x) (rfc_code lengths n x) ->
            short_match lengths i (Z.to_nat n) x) as Hown.
  { intros i Hi. split; [| lia]. split_and!; [done | lia |]. by rewrite Z2Nat.id by lia. }
  constructor; [done | | |].
  - intros i k y Hi Hk Hm. rewrite Hj by done.
    destruct (Z.eqb_spec (i mod 2 ^ x) (bitrev (Z.to_nat x) (rfc_code lengths n x))) as [He | Hne].
    + destruct (short_unique i k y (Z.to_nat n) x Hm (Hown i He)) as [-> ->]. f_equal. lia.
    + apply Hs; [done | | done]. destruct (lt_succ_cases k n Hn Hk) as [| ->]; [done |].
      destruct Hm as [(Hk' & _ & Hm) _]. rewrite Hx in Hk'. injection Hk' as <-.
      rewrite Z2Nat.id in Hm by lia. done.
  - intros i k y Hk Hm. assert (0 <= i < 2048) as Hi by (destruct Hm as (_ & _ & ->); apply Z.mod_pos_bound; lia).
    rewrite Hj by done.
    destruct (Z.eqb_spec (i mod 2 ^ x) (bitrev (Z.to_nat x) (rfc_code lengths n x))) as [He | Hne].
    + by destruct (short_long _ _ _ _ _ (Hown i He) Hm).
    + apply (Hlg i k y); [| done]. destruct (lt_succ_cases k n Hn Hk) as [| ->]; [done |].
      destruct Hm as (Hk' & Hy & _). rewrite Hx in Hk'. injection Hk' as <-. lia.
  - intros i Hi. rewrite Hj by done.
    destruct (Z.eqb_spec (i mod 2 ^ x) (bitrev (Z.to_nat x) (rfc_code lengths n x))) as [He | Hne].
    + right. left. exists (Z.to_nat n), x. rewrite Z2Nat.id by lia. split_and!; [lia | by apply Hown | done].
    + destruct (Ha i Hi) as [H | [(k & y & Hk & H) | (k & y & Hk & H)]]; [by left | |];
        [right; left | right; right]; exists k, y; (split; [lia | done]).
Qed.

Lemma table_long_step n t x : 0 <= n -> lengths !! Z.to_nat n = Some x -> 12 <= x ->
  table_upto lengths n t ->
  table_upto lengths (n + 1)
    (<[Z.to_nat (bitrev (Z.to_nat x) (rfc_code lengths n x) mod 2048) := 12]> t).
Proof.
  intros Hn Hx Hx' [Hl Hs Hlg Ha]. set (j := _ mod 2048).
  assert (0 <= j < 2048) as Hj by (subst j; apply Z.mod_pos_bound; lia).
  assert (long_match lengths j (Z.to_nat n) x) as Hown
    by (split_and!; [done | lia | by rewrite Z2Nat.id by lia]).
  constructor.
  - by rewrite length_insert.
  - intros i k y Hi Hk Hm. destruct (decide (i = j)) as [-> | Hne].
    { by destruct (short_long _ _ _ _ _ Hm Hown). }
    rewrite list_lookup_insert_ne by lia. apply Hs; [done | | done].
    destruct (lt_succ_cases k n Hn Hk) as [| ->]; [done |].
    destruct Hm as [(Hk' & _) Hy]. rewrite Hx in Hk'. injection Hk' as <-. lia.
  - intros i k y Hk Hm. destruct (decide (i = j)) as [-> | Hne].
    { rewrite list_lookup_insert_eq by lia. done. }
    assert (0 <= i) by (destruct Hm as (_ & _ & ->); apply Z.mod_pos_bound; lia).
    rewrite list_lookup_insert_ne by lia. apply (Hlg i k y); [| done].
    destruct (lt_succ_cases k n Hn Hk) as [| ->]; [done |].
    destruct Hm as (Hk' & _ & Hm). rewrite Hx in Hk'. injection Hk' as <-.
    rewrite Z2Nat.id in Hm by lia. done.
  - intros i Hi. destruct (decide (i = j)) as [-> | Hne].
    + right. right. exists (Z.to_nat n), x. rewrite list_lookup_insert_eq by lia. split_and!; [lia | done | done].
    + rewrite list_lookup_insert_ne by lia.
      destruct (Ha i Hi) as [H | [(k & y & Hk & H) | (k & y & Hk & H)]]; [by left | |];
        [right; left | right; right]; exists k, y; (split; [lia | done]).
Qed.

Lemma dt_sym_ok n t count : 0 <= n < zlen lengths -> table_upto lengths n t -> counts_upto n count ->
  exists t' count', dt_sym lengths codes (t, count) n = Ok (t', count') /\
    table_upto lengths (n + 1) t' /\ counts_upto (n + 1) count'.
Proof.
  intros Hn Ht Hc. unfold dt_sym. destruct (geti_in lengths n Hn) as (x & -> & Hx). cbn [mbind res_bind].
  pose proof (length_valid lengths Hvalid _ _ Hx).
  destruct (Z.eqb_spec x 0) as [-> | Hne].
  { exists t, count. split_and!; [done | by apply table_zero; [lia | |] | by eapply counts_skip; [lia | ..]]. }
  rewrite (geti_ok codes n _ ltac:(lia) (code_lookup _ _ Hx ltac:(lia))). cbn [mbind res_bind].
  rewrite Z2Nat.id by lia. set (c := bitrev _ _) in *.
  pose proof (bitrev_range (Z.to_nat x) (rfc_code lengths n x)) as Hr. fold c in Hr. rewrite Z2Nat.id in Hr by lia.
  destruct (Z.leb_spec x 11).
  - destruct (dt_fill_ok x c n t) as (t' & -> & Hl' & Hj); [lia | done | lia | apply Ht |].
    exists t', count. split_and!; [done | by eapply (table_short_step n t t' x); [lia | done | lia | ..]
      | by eapply counts_skip; [lia | done | | lia]].
  - assert_ok. destruct (counts_step n count x) as (cnt & -> & Hcnt & Hset & Hc'); [lia | done | done | lia |].
    cbn [mbind res_bind]. rewrite Hset. cbn [mbind res_bind].
    change 0x7ff with (2 ^ 11 - 1). rewrite land_ones_mod by lia. change (2 ^ 11) with 2048.
    pose proof (Z.mod_pos_bound c 2048 ltac:(lia)).
    rewrite seti_ok by (rewrite (tab_len _ _ _ Ht); lia). eexists _, _. split_and!; [done | | done].
    by apply table_long_step; [lia | | lia |].
Qed.

(** ** The lists of overlength codes *)
Definition over_off (len : Z) : Z :=
  sum_from (fun _ x => if (12 <=? x) && (x <? len) then 1 else 0) 0 lengths.

Lemma over_off_step len : 12 <= len -> over_off (len + 1) = over_off len + bl_count lengths len.
Proof.
  intros Hlen. unfold over_off, bl_count. rewrite <- sum_from_add. apply sum_from_ext. intros k x _.
  destruct (Z.leb_spec 12 x), (Z.ltb_spec x (len + 1)), (Z.ltb_spec x len), (Z.eqb_spec x len); simpl; lia.
Qed.

Lemma over_off_bound len : 0 <= over_off len <= zlen lengths.
Proof.
  rewrite <- (Z.mul_1_l (zlen lengths)). apply sum_from_bounds. intros k x _.
  destruct ((12 <=? x) && _); lia.
Qed.

Lemma over_off_12 : over_off 12 = 0.
Proof.
  unfold over_off. rewrite (sum_from_ext _ (fun _ _ => 0)), sum_from_const; [lia |].
  intros k x _. destruct (Z.leb_spec 12 x), (Z.ltb_spec x 12); simpl; lia.
Qed.

Lemma rank_all len : rank lengths len (zlen lengths) = bl_count lengths len.
Proof. apply sum_from_ext. intros k x Hk. apply lookup_lt_Some in Hk. cases_bool. Qed.

Lemma rank_mono len k x n : lengths !! k = Some x -> Z.of_nat k < n ->
  rank lengths len (Z.of_nat k) + (if x =? len then 1 else 0) <= rank lengths len n.
Proof.
  intros Hk Hn. unfold rank.
  rewrite <- (sum_from_single k (if x =? len then 1 else 0) 0 lengths x Hk), <- sum_from_add.
  apply sum_from_le. intros j y Hj.
  destruct (Z.eqb_spec (0 + Z.of_nat j) (0 + Z.of_nat k)) as [He |].
  - assert (j = k) as -> by lia. rewrite Hk in Hj. injection Hj as <-. cases_bool.
  - cases_bool.
Qed.

(** Every position of a list belongs to a symbol. *)
Lemma rank_surj len c n : 0 <= n <= zlen lengths -> 0 <= c < rank lengths len n ->
  exists k, lengths !! k = Some len /\ rank lengths len (Z.of_nat k) = c /\ Z.of_nat k < n.
Proof.
  intros Hn. remember (Z.to_nat n) as m eqn:Hm. revert n Hn Hm c.
  induction m as [|m IH]; intros n Hn Hm c Hc.
  - assert (rank lengths len n = 0); [| lia]. unfold rank.
    rewrite (sum_from_ext _ (fun _ _ => 0)), sum_from_const; [lia |].
    intros k x _. destruct (Z.ltb_spec (0 + Z.of_nat k) n); [lia |]. by rewrite andb_false_r.
  - destruct (lookup_lt_is_Some_2 lengths m) as [x Hx]; [lia |].
    replace n with (Z.of_nat m + 1) in Hc by lia.
    rewrite (rank_step len (Z.of_nat m) x) in Hc by (rewrite ?Nat2Z.id; done || lia).
    destruct (decide (c < rank lengths len (Z.of_nat m))) as [Hlt | Hge].
    + destruct (IH (Z.of_nat m) ltac:(lia) ltac:(lia) c ltac:(lia)) as (k & Hk & Hr & Hkn).
      exists k. split_and!; [done | done | lia].
    + destruct (Z.eqb_spec x len) as [He |]; [| lia]. rewrite He in Hx.
      exists m. split_and!; [done | lia | lia].
Qed.

Definition offsets_ok (offsets : list Z) : Prop :=
  length offsets = 5%nat /\ forall j, 0 <= j < 5 -> offsets !! Z.to_nat j = Some (over_off (12 + j)).

Lemma dt_offset_ok offsets count : length offsets = 5%nat -> counts_upto (zlen lengths) count ->
  exists offsets' count', foldM dt_offset (offsets, count, 0) (range 0 4)
      = Ok (offsets', count', over_off 16) /\ length offsets' = 5%nat /\
    (forall j, 0 <= j < 4 -> offsets' !! Z.to_nat j = Some (over_off (12 + j))) /\
    length count' = 4%nat /\ (forall j, 0 <= j < 4 -> count' !! Z.to_nat j = Some 0).
Proof.
  intros Hlo [Hlc Hc].
  destruct (foldM_range (fun n '(offsets, count, off) =>
      length offsets = 5%nat /\ length count = 4%nat /\ off = over_off (12 + n) /\
      (forall j, 0 <= j < n -> offsets !! Z.to_nat j = Some (over_off (12 + j)) /\ count !! Z.to_nat j = Some 0) /\
      (forall j, n <= j < 4 -> count !! Z.to_nat j = Some (bl_count lengths (12 + j))))
    dt_offset (offsets, count, 0) 0 4) as ([[o c] off] & Hf & Hl1 & Hl2 & -> & Hdone & _).
  - lia.
  - split_and!; [done | done | exact (eq_sym over_off_12) | lia |].
    intros j Hj. rewrite Hc by lia. by rewrite rank_all.
  - intros n [[o c] off] Hn (Hl1 & Hl2 & -> & Hdone & Htodo). unfold dt_offset.
    rewrite seti_ok by lia. cbn [mbind res_bind].
    rewrite (geti_ok c n _ ltac:(lia) (Htodo n ltac:(lia))). cbn [mbind res_bind].
    rewrite seti_ok by lia. cbn [mbind res_bind].
    pose proof (over_off_bound (12 + n + 1)) as Hb. rewrite over_off_step in Hb by lia.
    pose proof (over_off_bound (12 + n)). pose proof (rank_bound (12 + n) (zlen lengths)). rewrite rank_all in *.
    rewrite u16_small by lia. eexists. split; [done |]. split_and!.
    + by rewrite length_insert.
    + by rewrite length_insert.
    + rewrite <- over_off_step by lia. f_equal. lia.
    + intros j Hj. destruct (decide (j = n)) as [-> | ?].
      * rewrite !list_lookup_insert_eq by lia. done.
      * rewrite !list_lookup_insert_ne by lia. apply Hdone. lia.
    + intros j Hj. rewrite list_lookup_insert_ne by lia. apply Htodo. lia.
  - exists o, c. split_and!; [done | done | | done |]; intros j Hj; by apply Hdone.
Qed.

Definition over_entry (k : nat) (x : Z) : Z :=
  Z.of_nat k + 512 * bitrev (Z.to_nat x) (rfc_code lengths (Z.of_nat k) x).

Definition over_upto (n : Z) (symbols : list Z) : Prop :=
  forall k x, Z.of_nat k < n -> lengths !! k = Some x -> 12 <= x ->
    symbols !! Z.to_nat (over_off x + rank lengths x (Z.of_nat k)) = Some (over_entry k x).

(** Positions of different symbols differ. *)
Lemma over_pos_lt k x len : lengths !! k = Some x -> 12 <= x < len -> 
  over_off x + rank lengths x (Z.of_nat k) < over_off len.
Proof.
  intros Hk Hx. apply Z.lt_le_trans with (over_off (x + 1)).
  - rewrite over_off_step by lia. rewrite <- rank_all.
    pose proof (rank_mono x k x (zlen lengths) Hk) as Hm. rewrite Z.eqb_refl in Hm.
    apply lookup_lt_Some in Hk. specialize (Hm ltac:(lia)). lia.
  - apply sum_from_le. intros j y _.
    destruct (Z.leb_spec 12 y), (Z.ltb_spec y (x + 1)), (Z.ltb_spec y len); simpl; lia.
Qed.

Lemma over_pos_inj k x k' x' : lengths !! k = Some x -> lengths !! k' = Some x' -> 12 <= x -> 12 <= x' ->
  (k < k')%nat -> over_off x + rank lengths x (Z.of_nat k) <> over_off x' + rank lengths x' (Z.of_nat k').
Proof.
  intros Hk Hk' Hx Hx' Hlt. pose proof (rank_bound x (Z.of_nat k)). pose proof (rank_bound x' (Z.of_nat k')).
  destruct (Z.lt_trichotomy x x') as [H1 | [<- | H1]].
  - pose proof (over_pos_lt k x x' Hk ltac:(lia)). lia.
  - pose proof (rank_mono x k x (Z.of_nat k') Hk ltac:(lia)) as Hm. rewrite Z.eqb_refl in Hm. lia.
  - pose proof (over_pos_lt k' x' x Hk' ltac:(lia)). lia.
Qed.

Lemma dt_over_ok n offsets symbols count : 0 <= n < zlen lengths -> offsets_ok offsets ->
  length symbols = length lengths -> over_upto n symbols -> counts_upto n count ->
  exists symbols' count', dt_over lengths codes offsets (symbols, count) n = Ok (symbols', count') /\
    length symbols' = length lengths /\ over_upto (n + 1) symbols' /\ counts_upto (n + 1) count'.
Proof.
  intros Hn [Hlo Ho] Hls Hu Hc. unfold dt_over.
  destruct (geti_in lengths n Hn) as (x & -> & Hx). cbn [mbind res_bind].
  pose proof (length_valid lengths Hvalid _ _ Hx).
  destruct (Z.ltb_spec x 12).
  { exists symbols, count. split_and!; [done | done | | by eapply counts_skip; [lia | ..]].
    intros k y Hk Hy Hy'. apply Hu; [| done | done].
    destruct (lt_succ_cases k n ltac:(lia) Hk) as [| ->]; [done |]. rewrite Hx in Hy. injection Hy as <-. lia. }
  destruct (counts_step n count x) as (c & -> & -> & Hset & Hc'); [lia | done | done | lia |].
  cbn [mbind res_bind]. rewrite Hset. cbn [mbind res_bind].
  rewrite (geti_ok offsets (x - 12) (over_off x)) by (lia || (rewrite Ho by lia; do 2 f_equal; lia)).
  cbn [mbind res_bind].
  rewrite (geti_ok offsets (x - 11) (over_off (x + 1))) by (lia || (rewrite Ho by lia; do 2 f_equal; lia)).
  cbn [mbind res_bind].
  pose proof (over_pos_lt (Z.to_nat n) x (x + 1) Hx ltac:(lia)) as Hpos. rewrite Z2Nat.id in Hpos by lia.
  pose proof (over_off_bound (x + 1)). pose proof (over_off_bound x). pose proof (rank_bound x n).
  rewrite u16_small by lia. assert_ok.
  rewrite (geti_ok codes n _ ltac:(lia) (code_lookup _ _ Hx ltac:(lia))). cbn [mbind res_bind].
  rewrite Z2Nat.id by lia. rewrite lor_shiftl_add by (change (2 ^ 9) with 512; lia). change (2 ^ 9) with 512.
  rewrite seti_ok by lia. eexists _, _. split_and!; [done | by rewrite length_insert | | done].
  intros k y Hk Hy Hy'. destruct (lt_succ_cases k n ltac:(lia) Hk) as [Hlt | ->].
  - pose proof (over_pos_inj k y (Z.to_nat n) x Hy Hx ltac:(lia) ltac:(lia) ltac:(lia)) as Hne.
    rewrite Z2Nat.id in Hne by lia. pose proof (over_off_bound y). pose proof (rank_bound y (Z.of_nat k)).
    rewrite list_lookup_insert_ne by lia. by apply Hu.
  - rewrite Hx in Hy. injection Hy as <-. rewrite Z2Nat.id, (Z.add_comm (over_off x)) by lia.
    rewrite list_lookup_insert_eq by lia. unfold over_entry. rewrite Z2Nat.id by lia. f_equal. lia.
Qed.

Lemma rank_0 len : rank lengths len 0 = 0.
Proof.
  unfold rank. rewrite (sum_from_ext _ (fun _ _ => 0)), sum_from_const; [lia |].
  intros k x _. destruct (Z.ltb_spec (0 + Z.of_nat k) 0); [lia |]. by rewrite andb_false_r.
Qed.

(** The tables that the symbol decoder relies on. *)
Record dec_tables (t offsets symbols : list Z) : Prop := {
  dec_table : table_upto lengths (zlen lengths) t;
  dec_offsets : offsets_ok offsets;
  dec_over : over_upto (zlen lengths) symbols;
  dec_len : length symbols = length lengths;
}.

Lemma construct_dectable_ok t0 offsets0 symbols0 : length t0 = 2048%nat -> length offsets0 = 5%nat ->
  length symbols0 = length lengths ->
  exists t offsets symbols,
    construct_dectable (zlen lengths) lengths codes t0 offsets0 symbols0 = Ok (t, offsets, symbols) /\
    dec_tables t offsets symbols.
Proof.
  intros Ht Ho Hs. unfold construct_dectable.
  destruct (foldM_range (fun n t => length t = 2048%nat /\ forall i, 0 <= i < n -> t !! Z.to_nat i = Some 10)
    (fun t i => seti t i 10) t0 0 2048) as (t1 & -> & Hl1 & H10); [lia | split; [done | lia] | |].
  { intros i t Hi [Hl H]. rewrite seti_ok by lia. eexists. split; [done |]. split; [by rewrite length_insert |].
    intros j Hj. destruct (decide (j = i)) as [-> |]; [by rewrite list_lookup_insert_eq by lia |].
    rewrite list_lookup_insert_ne by lia. apply H. lia. }
  cbn [mbind res_bind].
  destruct (foldM_range (fun n '(t, c) => table_upto lengths n t /\ counts_upto n c)
    (dt_sym lengths codes) (t1, replicate 4 0) 0 (zlen lengths)) as ([t c] & -> & Htab & Hc); [lia | | |].
  { split.
    - constructor; [done | lia | lia | by left; apply H10].
    - split; [done |]. intros j Hj. rewrite rank_0. by apply lookup_replicate_2; lia. }
  { intros n [t c] Hn [H1 H2]. destruct (dt_sym_ok n t c Hn H1 H2) as (t' & c' & ? & ? & ?). by exists (t', c'). }
  cbn [mbind res_bind].
  destruct (dt_offset_ok offsets0 c Ho Hc) as (o & c' & -> & Hlo & Hoff & Hlc & Hz). cbn [mbind res_bind].
  rewrite seti_ok by lia. cbn [mbind res_bind]. set (o' := <[_ := _]> o).
  assert (offsets_ok o') as Hok.
  { subst o'. split; [by rewrite length_insert |]. intros j Hj. destruct (decide (j = 4)) as [-> |].
    - by rewrite list_lookup_insert_eq by lia.
    - rewrite list_lookup_insert_ne by lia. apply Hoff. lia. }
  clearbody o'.
  destruct (foldM_range (fun n '(s, c) => length s = length lengths /\ over_upto n s /\ counts_upto n c)
    (dt_over lengths codes o') (symbols0, c') 0 (zlen lengths)) as ([s c''] & -> & Hls & Hu & Hc''); [lia | | |].
  { split_and!; [done | intros k x Hk; lia |]. split; [done |]. intros j Hj. rewrite rank_0. by apply Hz. }
  { intros n [s c''] Hn (H1 & H2 & H3). destruct (dt_over_ok n o' s c'' Hn Hok H1 H2 H3) as (s' & d & ? & ? & ? & ?).
    by exists (s', d). }
  cbn [mbind res_bind].
  destruct (foldM_range (fun _ (_ : unit) => True) (fun _ len => o ← geti o' len; n ← geti c'' len;
     o1 ← geti o' (len + 1); c_assert (o + n =? o1)) tt 0 4) as ([] & -> & _); [lia | done | |].
  { intros j [] Hj _. exists tt. destruct Hok as [_ Hok], Hc'' as [_ Hc''].
    rewrite (geti_ok o' j _ ltac:(lia) (Hok j ltac:(lia))). cbn [mbind res_bind].
    rewrite (geti_ok c'' j _ ltac:(lia) (Hc'' j ltac:(lia))). cbn [mbind res_bind].
    rewrite (geti_ok o' (j + 1) _ ltac:(lia) (Hok (j + 1) ltac:(lia))). cbn [mbind res_bind].
    rewrite rank_all. replace (12 + (j + 1)) with (12 + j + 1) by lia. rewrite over_off_step, Z.eqb_refl by lia. done. }
  exists t, o', s. split; [done |]. by constructor.
Qed.
End Dectable.

(** ** Correctness of the symbol decoder *)
Lemma over_search_ok symbols lo n suffix :
  (forall i, lo <= i < lo + Z.of_nat n -> exists e, geti symbols i = Ok e) ->
  exists r, over_search symbols (seqZ lo (Z.of_nat n)) suffix = Ok r /\
    match r with
    | Some sym => exists i e, lo <= i < lo + Z.of_nat n /\ geti symbols i = Ok e /\
        Z.shiftr e 9 = suffix /\ sym = Z.land e 0x1ff
    | None => forall i e, lo <= i < lo + Z.of_nat n -> geti symbols i = Ok e -> Z.shiftr e 9 <> suffix
    end.
Proof.
  revert lo. induction n as [|n IH]; intros lo Hin.
  - exists None. split; [done |]. intros i e Hi. lia.
  - rewrite seqZ_cons by lia. cbn [over_search].
    destruct (Hin lo ltac:(lia)) as [e He]. rewrite He. cbn [mbind res_bind].
    destruct (Z.eqb_spec (Z.shiftr e 9) suffix) as [Heq | Hne].
    + eexists. split; [done |]. exists lo, e. split_and!; [lia | lia | done | done | done].
    + replace (Z.pred (Z.of_nat (S n))) with (Z.of_nat n) by lia.
      destruct (IH (Z.succ lo)) as (r & Hr & Hspec); [intros i Hi; apply Hin; lia |].
      exists r. split; [done |]. destruct r as [sym|].
      * destruct Hspec as (i & e' & Hi & ?). exists i, e'. split; [lia | done].
      * intros i e' Hi He'. destruct (decide (i = lo)) as [-> |]; [congruence |].
        apply (Hspec i); [lia | done].
Qed.

Section Lookup.
Context (lengths t offsets symbols : list Z).
Hypothesis Hvalid : valid_lengths lengths.
Hypothesis Hkraft : kraft lengths <= 2 ^ 15.
Hypothesis Hsyms : zlen lengths <= 512.
Hypothesis Htab : dec_tables lengths t offsets symbols.

Lemma over_entry_parts k x : lengths !! k = Some x ->
  Z.shiftr (over_entry lengths k x) 9 = bitrev (Z.to_nat x) (rfc_code lengths (Z.of_nat k) x) /\
  Z.land (over_entry lengths k x) 0x1ff = Z.of_nat k.
Proof.
  intros Hk. apply lookup_lt_Some in Hk. unfold over_entry.
  set (c := bitrev _ _). rewrite Z.shiftr_div_pow2 by lia. change 0x1ff with (2 ^ 9 - 1).
  rewrite land_ones_mod by lia. change (2 ^ 9) with 512. dlia.
Qed.

(** The list of one length: searching it finds the symbol that matches. *)
Lemma over_list_ok V len : 12 <= len <= 15 ->
  exists lo hi r, geti offsets (len - 12) = Ok lo /\ geti offsets (len - 11) = Ok hi /\
    over_search symbols (range lo hi) (V mod 2 ^ len) = Ok r /\
    match r with
    | Some sym => exists k, sym = Z.of_nat k /\ code_matches lengths V k len
    | None => forall k, ~ code_matches lengths V k len
    end.
Proof.
  intros Hlen. destruct Htab as [_ [Hlo Ho] Hu Hls].
  exists (over_off lengths len), (over_off lengths (len + 1)).
  pose proof (over_off_step lengths len ltac:(lia)) as Hstep. rewrite <- rank_all in Hstep.
  pose proof (rank_bound lengths Hsyms len (zlen lengths)).
  assert (forall c, 0 <= c < rank lengths len (zlen lengths) -> exists k, lengths !! k = Some len /\
     rank lengths len (Z.of_nat k) = c /\
     geti symbols (over_off lengths len + c) = Ok (over_entry lengths k len)) as Hentry.
  { intros c Hc. destruct (rank_surj lengths len c (zlen lengths) ltac:(lia) Hc) as (k & Hk & Hr & Hkn).
    exists k. split_and!; [done | done |]. pose proof (over_off_bound lengths len).
    apply geti_ok; [lia |]. rewrite <- Hr. apply Hu; [lia | done | lia]. }
  destruct (over_search_ok symbols (over_off lengths len) (Z.to_nat (rank lengths len (zlen lengths)))
    (V mod 2 ^ len)) as (r & Hr & Hspec).
  { intros i Hi. destruct (Hentry (i - over_off lengths len) ltac:(lia)) as (k & _ & _ & He).
    replace (over_off lengths len + (i - over_off lengths len)) with i in He by lia. eauto. }
  exists r. split_and!.
  - apply geti_ok; [lia |]. rewrite Ho by lia. do 2 f_equal. lia.
  - apply geti_ok; [lia |]. rewrite Ho by lia. do 2 f_equal. lia.
  - unfold range. rewrite <- Hr. do 2 f_equal. lia.
  - destruct r as [sym|].
    + destruct Hspec as (i & e & Hi & He & Hs & ->).
      destruct (Hentry (i - over_off lengths len) ltac:(lia)) as (k & Hk & _ & He').
      replace (over_off lengths len + (i - over_off lengths len)) with i in He' by lia.
      rewrite He in He'. injection He' as ->. destruct (over_entry_parts k len Hk) as [H1 H2].
      exists k. split; [done |]. split_and!; [done | lia | by rewrite <- Hs, H1].
    + intros k (Hk & _ & Hm). destruct (over_entry_parts k len Hk) as [H1 H2].
      apply lookup_lt_Some in Hk as Hlt.
      pose proof (rank_mono lengths len k len (zlen lengths) Hk ltac:(lia)) as Hmono. rewrite Z.eqb_refl in Hmono.
      pose proof (over_off_bound lengths len). pose proof (rank_bound lengths Hsyms len (Z.of_nat k)).
      apply (Hspec (over_off lengths len + rank lengths len (Z.of_nat k)) (over_entry lengths k len)); [lia | |].
      * apply geti_ok; [lia |]. apply Hu; [lia | done | lia].
      * by rewrite H1.
Qed.

Lemma suffix_mod V len : 0 <= len -> Z.land V (Z.shiftl 1 len - 1) = V mod 2 ^ len.
Proof. intros. by rewrite Z.shiftl_1_l, land_ones_mod. Qed.

(** The overlength search for bits that start with the code of symbol [k]. *)
Lemma over_loop_match V nb k x fuel len : code_matches lengths V k x -> 12 <= len <= x ->
  x - len < Z.of_nat fuel ->
  over_loop fuel offsets symbols V nb len = Ok (if nb <? x then LookupNeedData else LookupSym (Z.of_nat k) x).
Proof.
  intros Hm. revert len. induction fuel as [|fuel IH]; intros len Hlen Hf; [lia |].
  pose proof Hm as (Hk & Hx0 & _). pose proof (length_valid lengths Hvalid _ _ Hk). cbn [over_loop].
  destruct (Z.ltb_spec nb len).
  { by assert ((nb <? x) = true) as -> by zb. }
  destruct (over_list_ok V len ltac:(lia)) as (lo & hi & r & -> & -> & Hr & Hspec). cbn [mbind res_bind].
  rewrite suffix_mod, Hr by lia. cbn [mbind res_bind]. destruct r as [sym|].
  - destruct Hspec as (k' & -> & Hm').
    pose proof (code_unique lengths Hvalid Hkraft _ _ _ _ _ Hm Hm') as <-.
    destruct Hm' as (Hk' & _). rewrite Hk in Hk'. injection Hk' as ->.
    by assert ((nb <? len) = false) as -> by zb.
  - destruct (Z.eqb_spec (len + 1) 4); [lia |]. apply IH; [| lia].
    destruct (decide (len = x)) as [-> |]; [by destruct (Hspec k) | lia].
Qed.

Lemma table_value V : exists i, i = V mod 2048 /\ 0 <= i < 2048 /\ Z.land V 0x7ff = i /\
  (forall k x, x <= 11 -> code_matches lengths V k x <-> short_match lengths i k x).
Proof.
  exists (V mod 2048). split; [done |]. split; [apply Z.mod_pos_bound; lia |].
  split; [apply (land_ones_mod V 11); lia |]. intros k x Hx. unfold short_match.
  rewrite (code_matches_mod lengths V 11) by lia. change (2 ^ 11) with 2048. intuition.
Qed.

(** Any bits that start with the code of a symbol are decoded to that symbol,
    as soon as all bits of the code are there. *)
Lemma huff_lookup_match V nb k x : code_matches lengths V k x ->
  huff_lookup t offsets symbols V nb = Ok (if nb <? x then LookupNeedData else LookupSym (Z.of_nat k) x).
Proof.
  intros Hm. pose proof Hm as (Hk & Hx0 & Hv). pose proof (length_valid lengths Hvalid _ _ Hk).
  apply lookup_lt_Some in Hk as Hlt. destruct Htab as [Ht _ _ _]. unfold huff_lookup.
  destruct (table_value V) as (i & Hi & Hir & -> & Hshort).
  destruct (decide (x <= 11)) as [Hx | Hx].
  - rewrite (geti_ok t i (x + 16 * Z.of_nat k)); [| lia |].
    2: { apply (tab_short _ _ _ Ht); [lia | lia | by apply Hshort]. }
    cbn [mbind res_bind]. change 0xf with (2 ^ 4 - 1). rewrite land_ones_mod, Z.shiftr_div_pow2 by lia.
    change (2 ^ 4) with 16.
    replace ((x + 16 * Z.of_nat k) mod 16) with x by dlia.
    replace ((x + 16 * Z.of_nat k) / 16) with (Z.of_nat k) by dlia.
    destruct (Z.ltb_spec 11 x); [lia |]. by destruct (nb <? x).
  - rewrite (geti_ok t i 12); [| lia |].
    2: { apply (tab_long _ _ _ Ht i k x); [lia |]. split_and!; [done | lia |].
         rewrite <- Hv, Hi. change 2048 with (2 ^ 11). rewrite Z.mod_mod_divide; [done |].
         exists (2 ^ (x - 11)). rewrite <- Z.pow_add_r by lia. f_equal. lia. }
    cbn [mbind res_bind]. change (11 <? Z.land 12 0xf) with true. cbv iota.
    apply over_loop_match; [done | lia | lia].
Qed.

(** Bits that start with no code: the decoder takes 10 bits for symbol 0, waits
    for more data or, with 16 bits at hand, indexes beyond the offsets. *)
Lemma huff_lookup_nomatch V nb : (forall k x, ~ code_matches lengths V k x) ->
  huff_lookup t offsets symbols V nb = Ok (if nb <? 10 then LookupNeedData else LookupSym 0 10) \/
  huff_lookup t offsets symbols V nb = if nb <? 16 then Ok LookupNeedData else Trap (TrapOob 5).
Proof.
  intros Hno. pose proof Htab as [Ht [Hlo Ho] _ _]. unfold huff_lookup.
  destruct (table_value V) as (i & Hi & Hir & -> & Hshort).
  destruct (tab_all _ _ _ Ht i Hir) as [H10 | [(k & x & _ & Hm & _) | (k & x & _ & _ & H12)]].
  - left. rewrite (geti_ok t i 10) by (done || lia). cbn [mbind res_bind].
    change (Z.land 10 0xf) with 10. change (11 <? 10) with false. cbv iota. by destruct (nb <? 10).
  - destruct (Hno k x). apply Hshort; [apply Hm | done].
  - right. rewrite (geti_ok t i 12) by (done || lia).
    cbn [mbind res_bind]. change (11 <? Z.land 12 0xf) with true. cbv iota.
    assert (forall fuel len, 12 <= len <= 16 -> 16 - len < Z.of_nat fuel ->
      over_loop fuel offsets symbols V nb len = if nb <? 16 then Ok LookupNeedData else Trap (TrapOob 5)) as Hl;
      [| by apply Hl].
    induction fuel as [|fuel IH]; intros len Hlen Hf; [lia |]. cbn [over_loop].
    destruct (Z.ltb_spec nb len); [by assert ((nb <? 16) = true) as -> by zb |].
    destruct (decide (len = 16)) as [-> |].
    + assert ((nb <? 16) = false) as -> by zb.
      rewrite (geti_ok offsets (16 - 12) _ ltac:(lia) (Ho 4 ltac:(lia))). cbn [mbind res_bind].
      unfold geti. change (16 - 11 <? 0) with false. cbv iota. by rewrite lookup_ge_None_2 by (simpl; lia).
    + destruct (over_list_ok V len ltac:(lia)) as (lo & hi & r & -> & -> & Hr & Hspec). cbn [mbind res_bind].
      rewrite suffix_mod, Hr by lia. cbn [mbind res_bind]. destruct r as [sym|].
      * destruct Hspec as (k' & _ & Hm'). by destruct (Hno k' len).
      * destruct (Z.eqb_spec (len + 1) 4); [lia |]. apply IH; lia.
Qed.
End Lookup.

(** ** Complete codes *)
Section Complete.
Context (lengths : list Z).
Hypothesis Hvalid : valid_lengths lengths.

(** The intervals of the codes tile the used part of the code space. *)
Lemma ksum_cover_len R len n : 1 <= len -> 0 <= n <= zlen lengths -> ksum lengths len 0 <= R < ksum lengths len n ->
  exists k, lengths !! k = Some len /\
    ksum lengths len (Z.of_nat k) <= R < ksum lengths len (Z.of_nat k) + 2 ^ (15 - len).
Proof.
  intros Hlen Hn. remember (Z.to_nat n) as m eqn:Hm. revert n Hn Hm.
  induction m as [|m IH]; intros n Hn Hm HR.
  - replace n with 0 in HR by lia. lia.
  - destruct (lookup_lt_is_Some_2 lengths m) as [x Hx]; [lia |].
    assert (ksum lengths len n = ksum lengths len (Z.of_nat m) + if x =? len then 2 ^ (15 - len) else 0) as Hs.
    { replace n with (Z.of_nat m + 1) by lia. apply (sum_step lengths (fun y => 2 ^ (15 - y))); [lia | | lia].
      by rewrite Nat2Z.id. }
    destruct (decide (R < ksum lengths len (Z.of_nat m))) as [Hlt | Hge].
    + apply (IH (Z.of_nat m)); lia.
    + destruct (Z.eqb_spec x len) as [He |]; [| lia]. rewrite He in Hx. exists m. split; [done | lia].
Qed.

Lemma ksum_cover R : 0 <= R < kraft lengths -> exists k x, lengths !! k = Some x /\ 0 < x /\
  ksum lengths x (Z.of_nat k) <= R < ksum lengths x (Z.of_nat k) + 2 ^ (15 - x).
Proof.
  intros HR.
  assert (forall n, (n <= 15)%nat -> R < ksum lengths (1 + Z.of_nat n) 0 -> exists k x, lengths !! k = Some x /\ 0 < x /\
    ksum lengths x (Z.of_nat k) <= R < ksum lengths x (Z.of_nat k) + 2 ^ (15 - x)) as Hmain.
  { induction n as [|n IH]; intros Hn Hlt.
    - exfalso. change (1 + Z.of_nat 0) with 1 in Hlt. assert (ksum lengths 1 0 = 0); [| lia]. unfold ksum.
      rewrite (sum_from_ext _ (fun _ _ => 0)), sum_from_const; [lia |]. intros k x _. unfold before. cases_bool.
    - set (len := 1 + Z.of_nat n) in *. replace (1 + Z.of_nat (S n)) with (len + 1) in Hlt by lia.
      destruct (decide (R < ksum lengths len 0)) as [Hl | Hge]; [apply IH; [lia | done] |].
      assert (ksum lengths (len + 1) 0 = ksum lengths len (zlen lengths)) as Heq
        by apply (sum_next lengths (fun y => 2 ^ (15 - y))).
      destruct (ksum_cover_len R len (zlen lengths)) as (k & Hk & Hr); [lia | lia | lia |].
      exists k, len. split_and!; [done | lia | apply Hr | apply Hr]. }
  apply (Hmain 15%nat); [lia |]. replace (ksum lengths (1 + Z.of_nat 15) 0) with (kraft lengths); [apply HR |].
  apply sum_from_ext. intros k x Hk. change (1 + Z.of_nat 15) with 16.
  rewrite Z.add_0_l, (before_all lengths Hvalid k x Hk). done.
Qed.

Lemma complete_match V : kraft lengths = 2 ^ 15 -> exists k x, code_matches lengths V k x.
Proof.
  intros Hk. pose proof (bitrev_range 15 V) as Hr. change (Z.of_nat 15) with 15 in Hr.
  destruct (ksum_cover (bitrev 15 V) ltac:(lia)) as (k & x & Hx & Hpos & Hint).
  pose proof (length_valid lengths Hvalid _ _ Hx). exists k, x. split_and!; [done | done |].
  rewrite ksum_rfc in Hint by lia. set (c := rfc_code _ _ _) in *.
  assert (0 < 2 ^ (15 - x)) by (apply Z.pow_pos_nonneg; lia).
  assert (bitrev (Z.to_nat x) V = c) as <-.
  { rewrite <- (bitrev_shiftr 15 x) by lia. rewrite Z.shiftr_div_pow2 by lia. change (Z.of_nat 15) with 15.
    symmetry. apply (Z.div_unique_pos _ _ _ (bitrev 15 V - c * 2 ^ (15 - x))); lia. }
  rewrite <- (bitrev_mod (Z.to_nat x) V), Z2Nat.id by lia. symmetry. apply bitrev_involutive.
  rewrite Z2Nat.id by lia. apply Z.mod_pos_bound. apply Z.pow_pos_nonneg; lia.
Qed.
End Complete.

(** ** Main results *)

(** [construct_codes] assigns the canonical Huffman code of RFC 1951
    (3.2.2) with the bits of each code reversed, whatever the code lengths, as
    long as they do not oversubscribe the code space; if they do, and only
    then, its final assertion fails. *)
Theorem construct_codes_correct lengths codes :
  valid_lengths lengths -> length codes = length lengths -> zlen lengths < 65536 ->
  (kraft lengths <= 2 ^ 15 ->
   exists codes', construct_codes (zlen lengths) lengths codes = Ok codes' /\ length codes' = length lengths /\
     forall k x, lengths !! k = Some x ->
       codes' !! k = Some (if 0 <? x then bitrev (Z.to_nat x) (rfc_code lengths (Z.of_nat k) x) else 0)) /\
  (2 ^ 15 < kraft lengths -> construct_codes (zlen lengths) lengths codes = Trap TrapAssert).
Proof.
  intros Hv Hl Hs. pose proof (construct_codes_ok lengths codes Hv Hl Hs) as H.
  destruct (Z.leb_spec (kraft lengths) (2 ^ 15)); split; intros; done || lia.
Qed.

(** The example of RFC 1951: lengths (3, 3, 3, 3, 3, 2, 4, 4). *)
Lemma construct_codes_correct_witness :
  let lengths := [3; 3; 3; 3; 3; 2; 4; 4] in
  construct_codes 8 lengths (replicate 8 0) = Ok [2; 6; 1; 5; 3; 0; 7; 15] /\
  (kraft lengths <= 2 ^ 15 ->
   exists codes', construct_codes (zlen lengths) lengths (replicate 8 0) = Ok codes' /\
     length codes' = length lengths /\
     forall k x, lengths !! k = Some x ->
       codes' !! k = Some (if 0 <? x then bitrev (Z.to_nat x) (rfc_code lengths (Z.of_nat k) x) else 0)) /\
  (2 ^ 15 < kraft lengths -> construct_codes (zlen lengths) lengths (replicate 8 0) = Trap TrapAssert).
Proof.
  intros lengths. split; [vm_compute; reflexivity |].
  apply (construct_codes_correct lengths (replicate 8 0)); [| reflexivity | simpl; lia].
  repeat constructor; lia.
Defined.

(** C32: Huffman decoding inverts encoding.  For every set of code lengths that
    is not oversubscribed, [construct_codes] and [construct_dectable] succeed,
    and the symbol decoder of [huff_block], looking at any bits that start with
    the code of a symbol, returns that symbol and its length as soon as all its
    bits are there, and otherwise asks for more data; this holds for short
    codes and for codes of 12 to 15 bits, which go through the overlength
    lists.  When the code is complete, the decoder never traps or fails,
    whatever the bits. *)
Theorem huff_decode_correct lengths codes0 t0 offsets0 symbols0 :
  valid_lengths lengths -> zlen lengths <= 512 -> kraft lengths <= 2 ^ 15 ->
  length codes0 = length lengths -> length t0 = 2048%nat -> length offsets0 = 5%nat ->
  length symbols0 = length lengths ->
  exists codes t offsets symbols,
    construct_codes (zlen lengths) lengths codes0 = Ok codes /\
    construct_dectable (zlen lengths) lengths codes t0 offsets0 symbols0 = Ok (t, offsets, symbols) /\
    (forall sym len code V num_bits, lengths !! sym = Some len -> 0 < len -> codes !! sym = Some code ->
       V mod 2 ^ len = code ->
       huff_lookup t offsets symbols V num_bits
       = Ok (if num_bits <? len then LookupNeedData else LookupSym (Z.of_nat sym) len)) /\
    (kraft lengths = 2 ^ 15 -> forall V num_bits, exists r, huff_lookup t offsets symbols V num_bits = Ok r /\ r <> LookupErr).
Proof.
  intros Hv Hs Hk Hc0 Ht0 Ho0 Hs0. pose proof (construct_codes_ok lengths codes0 Hv Hc0 ltac:(lia)) as Hc.
  assert ((kraft lengths <=? 2 ^ 15) = true) as Hle by zb. rewrite Hle in Hc.
  destruct Hc as (codes & Hcodes & Hlen & Hval).
  assert (codes_for lengths codes) as Hfor by done.
  destruct (construct_dectable_ok lengths codes Hv Hk Hfor Hs t0 offsets0 symbols0 Ht0 Ho0 Hs0)
    as (t & offsets & symbols & Hdt & Htab).
  exists codes, t, offsets, symbols. split_and!; [done | done | |].
  - intros sym len code V nb Hsym Hlen0 Hcode Hm.
    apply (huff_lookup_match lengths t offsets symbols Hv Hk Hs Htab).
    split_and!; [done | done |]. rewrite Hm. rewrite (Hval sym len Hsym) in Hcode.
    assert ((0 <? len) = true) as H0 by zb. rewrite H0 in Hcode. by injection Hcode.
  - intros Hfull V nb. destruct (complete_match lengths Hv V Hfull) as (k & x & Hm).
    eexists. split; [by apply (huff_lookup_match lengths t offsets symbols Hv Hk Hs Htab) |].
    by destruct (nb <? x).
Qed.

Lemma huff_decode_correct_witness :
  let lengths := [1; 2; 3; 4; 5; 6; 7; 8; 9; 10; 11; 12; 13; 14; 15; 15] in
  exists codes t offsets symbols,
    construct_codes (zlen lengths) lengths (replicate 16 0) = Ok codes /\
    construct_dectable (zlen lengths) lengths codes (replicate 2048 0) (replicate 5 0) (replicate 16 0)
      = Ok (t, offsets, symbols) /\
    (forall sym len code V num_bits, lengths !! sym = Some len -> 0 < len -> codes !! sym = Some code ->
       V mod 2 ^ len = code ->
       huff_lookup t offsets symbols V num_bits
       = Ok (if num_bits <? len then LookupNeedData else LookupSym (Z.of_nat sym) len)) /\
    (kraft lengths = 2 ^ 15 -> forall V num_bits, exists r, huff_lookup t offsets symbols V num_bits = Ok r /\ r <> LookupErr).
Proof.
  intros lengths. apply (huff_decode_correct lengths (replicate 16 0) (replicate 2048 0) (replicate 5 0) (replicate 16 0)).
  - repeat constructor; lia.
  - simpl. lia.
  - vm_compute. discriminate.
  - reflexivity.
  - reflexivity.
  - reflexivity.
  - reflexivity.
Defined.

(** an incomplete code with codes longer than 11 bits makes the symbol
    decoder read outside of its arrays: the check that should end the search
    compares the length with 4 although it starts at 12.  Two symbols of 12
    and 13 bits, and an input of eleven zero bits followed by five one bits. *)
Theorem huff_lookup_incomplete_oob :
  match (codes ← construct_codes 2 [12; 13] [0; 0];
         construct_dectable 2 [12; 13] codes (replicate 2048 0) (replicate 5 0) [0; 0]) with
  | Ok (t, offsets, symbols) => huff_lookup t offsets symbols 0xf800 16
  | Trap e => Trap e
  end = Trap (TrapOob 5).
Proof. vm_compute. reflexivity. Qed.
