(* ===== verification/Inflate.v ===== *)
(** * gzip and DEFLATE ([src/compression/inflate.c])

    Header probing and initialisation, and the four decode functions of the
    gzip decompressor: [block_start], [raw_block], [huff_block] and [trailer].
    The Huffman tables come from [Huffman.v], the checksum from [Crc32.v]. *)
From S2P Require Export Compression Crc32 Huffman.

Definition lit_extra : list Z := [1; 1; 1; 1; 2; 2; 2; 2; 3; 3; 3; 3; 4; 4; 4; 4; 5; 5; 5; 5; 0].
Definition dist_extra : list Z :=
  [1; 1; 2; 2; 3; 3; 4; 4; 5; 5; 6; 6; 7; 7; 8; 8; 9; 9; 10; 10; 11; 11; 12; 12; 13; 13].

Definition FHCRC : Z := 2.
Definition FEXTRA : Z := 4.
Definition FNAME : Z := 8.
Definition FCOMMENT : Z := 16.
Definition FRESERVED_MASK : Z := 0xe0.

(** [strnlen] of the C library: the number of bytes before the first zero, at
    most [n]. *)
Fixpoint strnlen (n : nat) (m : mem) (s : Z) : res Z :=
  match n with
  | O => Ok 0
  | S n => c ← ld8 m s; if c =? 0 then Ok 0 else r ← strnlen n m (s + 1); Ok (1 + r)
  end.

(** ** Probing *)

(** One zero-terminated field of the header; [None] when it is not complete. *)
Definition probe_string (m : mem) (present : bool) (content end_ : Z) : res (option Z) :=
  if present then
    n ← strnlen (Z.to_nat (end_ - content)) m content;
    let content := content + n in
    if end_ <=? content then Ok None else Ok (Some (content + 1))
  else Ok (Some content).

Definition gzip_probe (m : mem) (in_ end_ : Z) : res compr_probe_status :=
  if end_ - in_ <? 2 then Ok COMPR_PROBE_NOT_ENOUGH_DATA
  else
  b0 ← ld8 m in_; b1 ← ld8 m (in_ + 1);
  if negb (b0 =? 31) || negb (b1 =? 139) then Ok COMPR_PROBE_WRONG_MAGIC
  else if end_ - in_ <? 18 then Ok COMPR_PROBE_NOT_ENOUGH_DATA
  else
  b2 ← ld8 m (in_ + 2);
  if negb (b2 =? 8) then Ok COMPR_PROBE_RESERVED_FEATURE
  else
  flags ← ld8 m (in_ + 3);
  let content := in_ + 10 in
  if flag flags FRESERVED_MASK then Ok COMPR_PROBE_RESERVED_FEATURE
  else
  c ← (if flag flags FEXTRA then
         length ← ld16le m content;
         let content := content + 2 in
         if end_ - content <? length then Ok None else Ok (Some (content + length))
       else Ok (Some content));
  match c with
  | None => Ok COMPR_PROBE_NOT_ENOUGH_DATA
  | Some content =>
  c ← probe_string m (flag flags FNAME) content end_;
  match c with
  | None => Ok COMPR_PROBE_NOT_ENOUGH_DATA
  | Some content =>
  c ← probe_string m (flag flags FCOMMENT) content end_;
  match c with
  | None => Ok COMPR_PROBE_NOT_ENOUGH_DATA
  | Some content =>
  if flag flags FHCRC && (end_ - content <? 2) then Ok COMPR_PROBE_NOT_ENOUGH_DATA
  else Ok COMPR_PROBE_SIZE_UNKNOWN
  end end end.

(** ** State *)
Inductive gzip_decode_func : Set := GzBlockStart | GzRawBlock | GzHuffBlock | GzTrailer.

(** The arrays that belong to one alphabet ([lit_*] and [dist_*]). *)
Record huff_tables : Type := {
  ht_lengths : list Z;
  ht_codes : list Z;
  ht_overlength : list Z;
  ht_oloff : list Z;
  ht_dectable : list Z;
}.

Record gzip_dec_state : Type := {
  gz_st : decompressor_state gzip_decode_func;
  gz_crc_table : list Z;
  gz_crc : Z;
  gz_isize : Z;
  gz_skip_bits : Z;
  gz_last_block : bool;
  gz_lit : huff_tables;
  gz_dist : huff_tables;
  gz_lit_base : list Z;
  gz_dist_base : list Z;
}.

Definition gz_set_st (st : decompressor_state gzip_decode_func) (s : gzip_dec_state) : gzip_dec_state :=
  {| gz_st := st; gz_crc_table := gz_crc_table s; gz_crc := gz_crc s; gz_isize := gz_isize s;
     gz_skip_bits := gz_skip_bits s; gz_last_block := gz_last_block s; gz_lit := gz_lit s;
     gz_dist := gz_dist s; gz_lit_base := gz_lit_base s; gz_dist_base := gz_dist_base s |}.
Definition gz_set_sums (crc isize : Z) (s : gzip_dec_state) : gzip_dec_state :=
  {| gz_st := gz_st s; gz_crc_table := gz_crc_table s; gz_crc := crc; gz_isize := isize;
     gz_skip_bits := gz_skip_bits s; gz_last_block := gz_last_block s; gz_lit := gz_lit s;
     gz_dist := gz_dist s; gz_lit_base := gz_lit_base s; gz_dist_base := gz_dist_base s |}.
Definition gz_set_skip (skip : Z) (s : gzip_dec_state) : gzip_dec_state :=
  {| gz_st := gz_st s; gz_crc_table := gz_crc_table s; gz_crc := gz_crc s; gz_isize := gz_isize s;
     gz_skip_bits := skip; gz_last_block := gz_last_block s; gz_lit := gz_lit s;
     gz_dist := gz_dist s; gz_lit_base := gz_lit_base s; gz_dist_base := gz_dist_base s |}.
Definition gz_set_last (last : bool) (s : gzip_dec_state) : gzip_dec_state :=
  {| gz_st := gz_st s; gz_crc_table := gz_crc_table s; gz_crc := gz_crc s; gz_isize := gz_isize s;
     gz_skip_bits := gz_skip_bits s; gz_last_block := last; gz_lit := gz_lit s;
     gz_dist := gz_dist s; gz_lit_base := gz_lit_base s; gz_dist_base := gz_dist_base s |}.
Definition gz_set_tables (lit dist : huff_tables) (s : gzip_dec_state) : gzip_dec_state :=
  {| gz_st := gz_st s; gz_crc_table := gz_crc_table s; gz_crc := gz_crc s; gz_isize := gz_isize s;
     gz_skip_bits := gz_skip_bits s; gz_last_block := gz_last_block s; gz_lit := lit;
     gz_dist := dist; gz_lit_base := gz_lit_base s; gz_dist_base := gz_dist_base s |}.

(** ** Trailer *)
Definition gzip_trailer (m : mem) (s : gzip_dec_state) (in_ end_ : Z) : res (Z * gzip_dec_state * mem) :=
  let in_start := in_ in
  if end_ =? in_ then Ok (DECODE_NEED_MORE_DATA, s, m)
  else
  let in_ := if negb (gz_skip_bits s =? 0) then in_ + 1 else in_ in
  if end_ - in_ <? 8 then Ok (DECODE_NEED_MORE_DATA, s, m)
  else
  crc_read ← ld32le m in_;
  let crc := Z.lxor (gz_crc s) 0xffffffff in
  if negb (crc_read =? crc) then Ok (DECODE_ERR, s, m)
  else
  let in_ := in_ + 4 in
  isize ← ld32le m in_;
  let in_ := in_ + 4 in
  if negb (gz_isize s =? isize) then Ok (DECODE_ERR, s, m)
  else Ok (NUM_DECODE_STATUS + (in_ - in_start), gz_set_st (set_decode None (gz_st s)) s, m).

(** ** Stored blocks *)

(** [while (in < end) {u8 c = *out++ = *in++; crc = crc >> 8 ^ st->crc_table[(u8)crc ^ c];}]
    Returns [(m, crc)]. *)
Fixpoint raw_copy (n : nat) (m : mem) (table : list Z) (in_ out crc : Z) : res (mem * Z) :=
  match n with
  | O => Ok (m, crc)
  | S n =>
      c ← ld8 m in_;
      m ← st8 m out c;
      crc ← crc_update table crc c;
      raw_copy n m table (in_ + 1) (out + 1) crc
  end.

Definition gz_after_block (s : gzip_dec_state) : option gzip_decode_func :=
  if negb (gz_last_block s) then Some GzBlockStart else Some GzTrailer.

Definition raw_block (m : mem) (s : gzip_dec_state) (in_ end_ : Z) : res (Z * gzip_dec_state * mem) :=
  if end_ - in_ <? 4 then Ok (DECODE_NEED_MORE_DATA, s, m)
  else
  len ← ld16le m in_;
  nlen ← ld16le m (in_ + 2);
  let diff := u16 (Z.lxor len (Z.lnot nlen)) in
  if negb (diff =? 0) then Ok (DECODE_ERR, s, m)
  else
  let in_ := in_ + 4 in
  if end_ - in_ <? len then Ok (DECODE_NEED_MORE_DATA, s, m)
  else if out_end (gz_st s) - out (gz_st s) <? len then Ok (DECODE_NEED_MORE_SPACE, s, m)
  else
  '(m, crc) ← raw_copy (Z.to_nat len) m (gz_crc_table s) in_ (out (gz_st s)) (gz_crc s);
  let st := set_out (out (gz_st s) + len) (set_decode (gz_after_block s) (gz_st s)) in
  Ok (NUM_DECODE_STATUS + 4 + len, gz_set_sums crc (u32 (gz_isize s + len)) (gz_set_st st s), m).

(** ** The bit container: [(ptr, bits, num_bits)] *)
Definition GUARANTEED_BITS : Z := 25.

Record bit_state : Type := { bs_ptr : Z; bs_bits : Z; bs_num : Z }.

(** [bits >>= n; num_bits -= n;] *)
Definition bs_shift (b : bit_state) (n : Z) : bit_state :=
  {| bs_ptr := bs_ptr b; bs_bits := Z.shiftr (bs_bits b) n; bs_num := u8 (bs_num b - n) |}.

(** [REFILL_LOOP]: at most four bytes are read. *)
Fixpoint refill_loop (fuel : nat) (m : mem) (end_ : Z) (b : bit_state) : res bit_state :=
  if (bs_num b <? GUARANTEED_BITS) && (bs_ptr b <? end_) then
    match fuel with
    | O => Trap TrapFuel
    | S fuel =>
        c ← ld8 m (bs_ptr b);
        refill_loop fuel m end_
          {| bs_ptr := bs_ptr b + 1; bs_bits := Z.lor (bs_bits b) (u32 (Z.shiftl c (bs_num b)));
             bs_num := u8 (bs_num b + 8) |}
    end
  else Ok b.

(** [REFILL] with the unaligned load of AArch64: the last four bytes before the
    new [ptr] are loaded again and shifted into place. *)
Definition refill (m : mem) (end_ : Z) (b : bit_state) : res bit_state :=
  let read_bits := u8 (32 - bs_num b) in
  let read_bytes := read_bits / 8 in
  if bs_ptr b =? end_ then Ok b
  else
  let read_bytes := u8 (if end_ - bs_ptr b >=? read_bytes then read_bytes else end_ - bs_ptr b) in
  let num_bits := u8 (bs_num b + 8 * read_bytes) in
  let ptr := bs_ptr b + read_bytes in
  l ← ld 4 m (ptr - 4);
  if num_bits <? 1 then Trap TrapShift
  else Ok {| bs_ptr := ptr; bs_bits := Z.shiftr (le_val l) (32 - num_bits); bs_num := num_bits |}.

(** ** Huffman-coded blocks *)

(** [do {u8 c = *out = *(out - dist); out += 1; crc = ...;} while (--length);]
    Returns [(m, crc)]. *)
Fixpoint match_copy_crc (n : nat) (m : mem) (table : list Z) (out dist crc : Z) : res (mem * Z) :=
  match n with
  | O => Ok (m, crc)
  | S n =>
      c ← ld8 m (out - dist);
      m ← st8 m out c;
      crc ← crc_update table crc c;
      match_copy_crc n m table (out + 1) dist crc
  end.

Inductive huff_exit : Type :=
| HuffReturn (code : Z) (m : mem)  (** [return] from within the loop: the state is not saved *)
| HuffInterrupted (code : Z) (saved : bit_state) (m : mem) (out crc : Z)
| HuffEnd (b : bit_state) (m : mem) (out crc : Z).

(** What one iteration leaves to the next one. *)
Inductive huff_step : Type :=
| HuffNext (b : bit_state) (m : mem) (out crc : Z)
| HuffExit (e : huff_exit).

Section HuffBlock.
Context (s : gzip_dec_state) (end_ : Z).

(** Lines 504-516: the distance of a match from its symbol.  [None] when bits
    are missing. *)
Definition huff_distance (m : mem) (b : bit_state) (sym : Z) : res (option (Z * bit_state)) :=
  let dist := sym + 1 in
  if 5 <=? dist then
    num_extra ← geti dist_extra (dist - 5);
    base ← geti (gz_dist_base s) (dist - 5);
    b ← refill m end_ b;
    let dist := base + Z.land (bs_bits b) (Z.shiftl 1 num_extra - 1) in
    if bs_num b <? num_extra then Ok None
    else Ok (Some (dist, bs_shift b num_extra))
  else Ok (Some (dist, b)).

(** Lines 463-474: the length of a match from its symbol. *)
Definition huff_length (b : bit_state) (lit : Z) : res (option (Z * bit_state)) :=
  let length := lit - 257 + 3 in
  if 11 <=? length then
    num_extra ← geti lit_extra (length - 11);
    base ← geti (gz_lit_base s) (length - 11);
    let length := base + Z.land (bs_bits b) (Z.shiftl 1 num_extra - 1) in
    if bs_num b <? num_extra then Ok None
    else Ok (Some (length, bs_shift b num_extra))
  else Ok (Some (length, b)).

(** Lines 462-531, a match; [saved] is the bit container to return to. *)
Definition huff_match (m : mem) (saved b : bit_state) (lit out crc : Z) : res huff_step :=
  let more_data := Ok (HuffExit (HuffInterrupted DECODE_NEED_MORE_DATA saved m out crc)) in
  r ← huff_length b lit;
  match r with
  | None => more_data
  | Some (length, b) =>
      b ← refill m end_ b;
      r ← huff_lookup (ht_dectable (gz_dist s)) (ht_oloff (gz_dist s)) (ht_overlength (gz_dist s))
            (bs_bits b) (bs_num b);
      match r with
      | LookupErr => Ok (HuffExit (HuffReturn DECODE_ERR m))
      | LookupNeedData => more_data
      | LookupSym sym len =>
          r ← huff_distance m (bs_shift b len) sym;
          match r with
          | None => more_data
          | Some (dist, b) =>
              if out - window_start (gz_st s) <? dist then Ok (HuffExit (HuffReturn DECODE_ERR m))
              else if length =? 258 then Ok (HuffExit (HuffReturn DECODE_ERR m))
              else
              let length := if 258 <=? length then 258 else length in
              if out_end (gz_st s) - out <? length
              then Ok (HuffExit (HuffInterrupted DECODE_NEED_MORE_SPACE saved m out crc))
              else
              '(m, crc) ← match_copy_crc (Z.to_nat length) m (gz_crc_table s) out dist crc;
              b ← refill m end_ b;
              Ok (HuffNext b m (out + length) crc)
          end
      end
  end.

(** The body of the [while (1)] loop. *)
Definition huff_iter (m : mem) (b : bit_state) (out crc : Z) : res huff_step :=
  let saved := b in
  r ← huff_lookup (ht_dectable (gz_lit s)) (ht_oloff (gz_lit s)) (ht_overlength (gz_lit s))
        (bs_bits b) (bs_num b);
  match r with
  | LookupErr => Ok (HuffExit (HuffReturn DECODE_ERR m))
  | LookupNeedData => Ok (HuffExit (HuffInterrupted DECODE_NEED_MORE_DATA saved m out crc))
  | LookupSym lit len =>
      let b := bs_shift b len in
      if lit <? 256 then
        if out_end (gz_st s) <=? out
        then Ok (HuffExit (HuffInterrupted DECODE_NEED_MORE_SPACE saved m out crc))
        else
        m ← st8 m out lit;
        crc ← crc_update (gz_crc_table s) crc lit;
        b ← refill m end_ b;
        Ok (HuffNext b m (out + 1) crc)
      else if 256 <? lit then huff_match m saved b lit out crc
      else Ok (HuffExit (HuffEnd b m out crc))
  end.

Fixpoint huff_loop (fuel : nat) (m : mem) (b : bit_state) (out crc : Z) : res huff_exit :=
  match fuel with
  | O => Trap TrapFuel
  | S fuel =>
      r ← huff_iter m b out crc;
      match r with
      | HuffExit e => Ok e
      | HuffNext b m out crc => huff_loop fuel m b out crc
      end
  end.
End HuffBlock.

(** [res = NUM_DECODE_STATUS + (ptr - in - (num_bits + 7) / 8)] *)
Definition bits_consumed (in_ : Z) (b : bit_state) : Z := bs_ptr b - in_ - (bs_num b + 7) / 8.

(** Lines 552-560: the state that a call leaves behind. *)
Definition huff_finish (s : gzip_dec_state) (b : bit_state) (o crc : Z) : gzip_dec_state :=
  let s1 := gz_set_skip ((8 - bs_num b) mod 8) s in
  let s2 := gz_set_sums crc (u32 (gz_isize s + (o - out (gz_st s)))) s1 in
  let st := set_out o (gz_st s2) in
  gz_set_st (if 32768 <? o - window_start st then set_window_start (o - 32768) st else st) s2.

(** At most one iteration per input bit: every symbol takes at least one. *)
Definition huff_block (m : mem) (s : gzip_dec_state) (in_ end_ : Z) : res (Z * gzip_dec_state * mem) :=
  if end_ - in_ <? 4 then Ok (DECODE_NEED_MORE_DATA, s, m)
  else
  b ← refill_loop 4 m end_ {| bs_ptr := in_; bs_bits := 0; bs_num := 0 |};
  let b := bs_shift b (gz_skip_bits s) in
  e ← huff_loop s end_ (Z.to_nat (8 * (end_ - in_)) + 1) m b (out (gz_st s)) (gz_crc s);
  match e with
  | HuffReturn code m => Ok (code, s, m)
  | HuffInterrupted code saved m o crc =>
      let code := if out (gz_st s) <? o then NUM_DECODE_STATUS + bits_consumed in_ saved else code in
      Ok (code, huff_finish s saved o crc, m)
  | HuffEnd b m o crc =>
      let s' := gz_set_st (set_decode (gz_after_block s) (gz_st s)) s in
      Ok (NUM_DECODE_STATUS + bits_consumed in_ b, huff_finish s' b o crc, m)
  end.

(** ** Block headers *)
Definition hclen_order : list Z := [16; 17; 18; 0; 8; 7; 9; 6; 10; 5; 11; 4; 12; 3; 13; 2; 14; 1; 15].

(** [for_range(i, 0, hclen) {...}]: the lengths of the code length code.
    [None] when bits are missing. *)
Fixpoint read_clens (order : list Z) (m : mem) (end_ : Z) (b : bit_state) (lengths2 : list Z)
    : res (option (bit_state * list Z)) :=
  match order with
  | [] => Ok (Some (b, lengths2))
  | i :: order =>
      b ← refill m end_ b;
      if bs_num b <? 3 then Ok None
      else
      lengths2 ← seti lengths2 i (Z.land (bs_bits b) 7);
      read_clens order m end_ (bs_shift b 3) lengths2
  end.

(** The arrays of an alphabet after [construct_codes] and [construct_dectable]. *)
Definition build_tables (num_symbols : Z) (t : huff_tables) : res huff_tables :=
  codes ← construct_codes num_symbols (ht_lengths t) (ht_codes t);
  '(dectable, oloff, overlength) ←
    construct_dectable num_symbols (ht_lengths t) codes (ht_dectable t) (ht_oloff t) (ht_overlength t);
  Ok {| ht_lengths := ht_lengths t; ht_codes := codes; ht_overlength := overlength;
        ht_oloff := oloff; ht_dectable := dectable |}.

Definition ht_set_lengths (l : list Z) (t : huff_tables) : huff_tables :=
  {| ht_lengths := l; ht_codes := ht_codes t; ht_overlength := ht_overlength t;
     ht_oloff := ht_oloff t; ht_dectable := ht_dectable t |}.

(** The code length code shares the distance table; its lengths and codes are
    local arrays. *)
Definition build_clen_table (lengths2 : list Z) (t : huff_tables) : res huff_tables :=
  length_codes ← construct_codes 19 lengths2 (replicate 19 0);
  '(dectable, oloff, overlength) ←
    construct_dectable 19 lengths2 length_codes (ht_dectable t) (ht_oloff t) (ht_overlength t);
  Ok {| ht_lengths := ht_lengths t; ht_codes := ht_codes t; ht_overlength := overlength;
        ht_oloff := oloff; ht_dectable := dectable |}.

(** What the header of a dynamic block comes to: an early return with the
    state as it is then, or the tables and the bits behind the header. *)
Inductive dyn_result : Type :=
| DynReturn (code : Z) (s : gzip_dec_state)
| DynTables (b : bit_state) (s : gzip_dec_state).

(** Lines 624-641. *)
Definition dynamic_tables (m : mem) (s : gzip_dec_state) (end_ : Z) (b : bit_state) (hlit hdist : Z)
    : res dyn_result :=
  let huff := {| hs_ptr := Some (bs_ptr b); hs_bits := bs_bits b; hs_val := hlit; hs_num_bits := bs_num b |} in
  '(huff, l) ← decode_lengths m huff end_ (ht_dectable (gz_dist s)) (ht_lengths (gz_lit s));
  let s := gz_set_tables (ht_set_lengths l (gz_lit s)) (gz_dist s) s in
  match hs_ptr huff with
  | None => Ok (DynReturn DECODE_NEED_MORE_DATA s)
  | Some _ =>
  if negb (hs_val huff =? NO_ERROR) then Ok (DynReturn DECODE_ERR s)
  else
  l ← fill_lengths l hlit 286;
  let s := gz_set_tables (ht_set_lengths l (gz_lit s)) (gz_dist s) s in
  '(huff, d) ← decode_lengths m (hs_with_val huff hdist) end_ (ht_dectable (gz_dist s)) (ht_lengths (gz_dist s));
  let s := gz_set_tables (gz_lit s) (ht_set_lengths d (gz_dist s)) s in
  match hs_ptr huff with
  | None => Ok (DynReturn DECODE_NEED_MORE_DATA s)
  | Some ptr =>
  if negb (hs_val huff =? NO_ERROR) then Ok (DynReturn DECODE_ERR s)
  else
  d ← fill_lengths d hdist 30;
  lit ← build_tables 286 (gz_lit s);
  dist ← build_tables 30 (ht_set_lengths d (gz_dist s));
  Ok (DynTables {| bs_ptr := ptr; bs_bits := hs_bits huff; bs_num := hs_num_bits huff |}
        (gz_set_tables lit dist s))
  end
  end.

Definition dynamic_header (m : mem) (s : gzip_dec_state) (end_ : Z) (b : bit_state) : res dyn_result :=
  b ← refill m end_ b;
  if bs_num b <? 14 then Ok (DynReturn DECODE_NEED_MORE_DATA s)
  else
  let hlit := Z.land (bs_bits b) 31 + 257 in
  let hdist := Z.land (Z.shiftr (bs_bits b) 5) 31 + 1 in
  let hclen := Z.land (Z.shiftr (bs_bits b) 10) 15 + 4 in
  let b := bs_shift b 14 in
  if 286 <? hlit then Ok (DynReturn DECODE_ERR s)
  else if 30 <? hdist then Ok (DynReturn DECODE_ERR s)
  else
  r ← read_clens (take (Z.to_nat hclen) hclen_order) m end_ b (replicate 19 0);
  match r with
  | None => Ok (DynReturn DECODE_NEED_MORE_DATA s)
  | Some (b, lengths2) =>
      lengths2 ← foldM (fun l i => seti l i 0) lengths2 (drop (Z.to_nat hclen) hclen_order);
      dist ← build_clen_table lengths2 (gz_dist s);
      dynamic_tables m (gz_set_tables (gz_lit s) dist s) end_ b hlit hdist
  end.

(** *** The fixed code *)
Definition bitrev_nibble : list Z :=
  [0x0; 0x8; 0x4; 0xc; 0x2; 0xa; 0x6; 0xe; 0x1; 0x9; 0x5; 0xd; 0x3; 0xb; 0x7; 0xf].

(** [u16 rev] of line 651 and the entry that the conditional expression of
    lines 652-656 selects. *)
Definition fixed_lit_rev (i : Z) : res Z :=
  a ← geti bitrev_nibble (Z.land (Z.shiftr i 1) 15);
  b ← geti bitrev_nibble (Z.land (Z.shiftr i 5) 15);
  Ok (Z.lor (Z.lor (Z.land (Z.shiftl i 8) 0x100) (Z.shiftl a 4)) b).

Definition fixed_lit_val (rev : Z) : Z :=
  u16 (if rev <? 0x5f then Z.lor (Z.shiftl (Z.shiftr rev 2 + 256) 4) 7
       else if rev <? 0x17f then Z.lor (Z.shiftl (Z.shiftr rev 1 - 0x30) 4) 8
       else if rev <? 0x18b then Z.lor (Z.shiftl (Z.shiftr rev 1 - 0xc0 + 280) 4) 8
       else if rev <? 0x18f then 10
       else Z.lor (Z.shiftl (rev - 0x190 + 144) 4) 9).

Definition fixed_dist_rev (i : Z) : res Z :=
  a ← geti bitrev_nibble (Z.land (Z.shiftr i 1) 15);
  Ok (Z.lor (Z.land (Z.shiftl i 4) 0x10) a).

Definition fixed_dist_val (rev : Z) : Z := if rev <? 30 then Z.lor (Z.shiftl rev 4) 5 else 10.

(** One iteration of the loops over 512 entries, which store each value four times. *)
Definition fixed_store (rev : Z -> res Z) (val : Z -> Z) (t : list Z) (i : Z) : res (list Z) :=
  r ← rev i;
  let v := val r in
  t ← seti t (i + 512) v; t ← seti t i v; t ← seti t (i + 1536) v; seti t (i + 1024) v.

Definition fixed_lit_table (t : list Z) : res (list Z) :=
  t ← foldM (fixed_store fixed_lit_rev fixed_lit_val) t (range 0 512);
  v0 ← geti t 0; c_assert (v0 =? 0x1007);;
  vc ← geti t 0xc; c_assert (vc =? 0x8);;
  v3 ← geti t 0x3; c_assert (v3 =? Z.lor (Z.shiftl 280 4) 8);;
  v13 ← geti t 0x13; c_assert (v13 =? 0x909);;
  Ok t.

Definition fixed_dist_table (t : list Z) : res (list Z) :=
  foldM (fixed_store fixed_dist_rev fixed_dist_val) t (range 0 512).

Definition ht_fixed (table : list Z) (t : huff_tables) : huff_tables :=
  {| ht_lengths := ht_lengths t; ht_codes := ht_codes t; ht_overlength := ht_overlength t;
     ht_oloff := replicate 5 0; ht_dectable := table |}.

Definition fixed_tables (s : gzip_dec_state) : res gzip_dec_state :=
  lit ← fixed_lit_table (ht_dectable (gz_lit s));
  dist ← fixed_dist_table (ht_dectable (gz_dist s));
  Ok (gz_set_tables (ht_fixed lit (gz_lit s)) (ht_fixed dist (gz_dist s)) s).

Definition block_start (m : mem) (s : gzip_dec_state) (in_ end_ : Z) : res (Z * gzip_dec_state * mem) :=
  if end_ - in_ <? 4 then Ok (DECODE_NEED_MORE_DATA, s, m)
  else
  b ← refill_loop 4 m end_ {| bs_ptr := in_; bs_bits := 0; bs_num := 0 |};
  let b := bs_shift b (gz_skip_bits s) in
  if bs_num b <? 3 then Ok (DECODE_NEED_MORE_DATA, s, m)
  else
  let block_header := Z.land (bs_bits b) 7 in
  let b := bs_shift b 3 in
  let s := gz_set_last (negb (Z.land block_header 1 =? 0)) s in
  let btype := Z.shiftr block_header 1 in
  if btype =? 0 then
    let s := gz_set_skip 0 (gz_set_st (set_decode (Some GzRawBlock) (gz_st s)) s) in
    Ok (NUM_DECODE_STATUS + (bs_ptr b - in_ - bs_num b / 8), s, m)
  else if 2 <? btype then Ok (DECODE_ERR, s, m)
  else
  r ← (if btype =? 2 then dynamic_header m s end_ b
       else s ← fixed_tables s; Ok (DynTables b s));
  match r with
  | DynReturn code s => Ok (code, s, m)
  | DynTables b s =>
      let s := gz_set_skip ((8 - bs_num b) mod 8) (gz_set_st (set_decode (Some GzHuffBlock) (gz_st s)) s) in
      Ok (NUM_DECODE_STATUS + bits_consumed in_ b, s, m)
  end.

(** ** Initialisation *)

(** The tables of base values: [base += 1 << extra[i]]. *)
Fixpoint base_table (base : Z) (extra : list Z) : list Z :=
  match extra with [] => [] | e :: extra => base :: base_table (u16 (base + Z.shiftl 1 e)) extra end.

(** [do {...} while (++ptr < content);] over the header bytes. *)
Fixpoint header_crc (n : nat) (m : mem) (ptr crc : Z) : res Z :=
  match n with
  | O => Ok crc
  | S n => c ← ld8 m ptr; crc ← crc_update crc_table crc c; header_crc n m (ptr + 1) crc
  end.

Definition init_string (m : mem) (present : bool) (content end_ : Z) : res Z :=
  if present then
    n ← strnlen (Z.to_nat (end_ - content)) m content;
    let content := content + n in
    c_assert (content <? end_);;
    Ok (content + 1)
  else Ok content.

(** Returns the decode pointer ([None] for null) and the state.  [s0] holds the
    contents of the state's memory before the call. *)
Definition gzip_init (m : mem) (s0 : gzip_dec_state) (in_ end_ : Z) : res (option Z * gzip_dec_state) :=
  c_assert (end_ - in_ >=? 18);;
  flags ← ld8 m (in_ + 3);
  let content := in_ + 10 in
  content ← (if flag flags FEXTRA then
               length ← ld16le m content;
               let content := content + 2 in
               c_assert (end_ - content <=? length);;
               Ok (content + length)
             else Ok content);
  content ← init_string m (flag flags FNAME) content end_;
  content ← init_string m (flag flags FCOMMENT) content end_;
  let s := {| gz_st := gz_st s0; gz_crc_table := crc_table; gz_crc := gz_crc s0; gz_isize := gz_isize s0;
     gz_skip_bits := gz_skip_bits s0; gz_last_block := gz_last_block s0; gz_lit := gz_lit s0;
     gz_dist := gz_dist s0; gz_lit_base := gz_lit_base s0; gz_dist_base := gz_dist_base s0 |} in
  c ← (if flag flags FHCRC then
         if end_ - content <? 2 then Ok None
         else
         hcrc ← ld16le m content;
         hcrc_comp ← header_crc (Z.to_nat (content - in_)) m in_ 0xffffffff;
         if negb (u16 hcrc_comp =? hcrc) then Ok None
         else Ok (Some (content + 2))
       else Ok (Some content));
  match c with
  | None => Ok (None, s)
  | Some content =>
      if end_ - content <=? 8 then Ok (None, s)
      else
      Ok (Some content,
          {| gz_st := set_decode (Some GzBlockStart) (gz_st s); gz_crc_table := crc_table;
             gz_crc := 0xffffffff; gz_isize := 0; gz_skip_bits := 0; gz_last_block := false;
             gz_lit := gz_lit s; gz_dist := gz_dist s;
             gz_lit_base := base_table 11 lit_extra; gz_dist_base := base_table 5 dist_extra |})
  end.

(** ** The decode function that the state selects *)
Definition gzip_decode (m : mem) (s : gzip_dec_state) (in_ end_ : Z) : res (Z * gzip_dec_state * mem) :=
  match decode (gz_st s) with
  | None => Trap (TrapOob 0)
  | Some GzBlockStart => block_start m s in_ end_
  | Some GzRawBlock => raw_block m s in_ end_
  | Some GzHuffBlock => huff_block m s in_ end_
  | Some GzTrailer => gzip_trailer m s in_ end_
  end.

(** ** The bit container

    [n] bytes of the input have been loaded and [pos] bits consumed; the
    container holds the bits in between. *)
Record binv (in_ : Z) (input : list Z) (n : nat) (pos : Z) (b : bit_state) : Prop := {
  bi_ptr : bs_ptr b = in_ + Z.of_nat n;
  bi_n : (n <= length input)%nat;
  bi_num : bs_num b = 8 * Z.of_nat n - pos;
  bi_pos : 0 <= pos <= 8 * Z.of_nat n;
  bi_max : bs_num b <= 32;
  bi_bits : bs_bits b = Z.shiftr (le_val (take n input)) pos;
}.

Section Bits.
Context (m : mem) (in_ : Z) (input : list Z).
Hypothesis Hok : mem_ok m.
Hypothesis Hat : bytes_at m in_ input.

Lemma input_bytes : Forall is_byte input.
Proof. by eapply bytes_at_is_byte. Qed.

Lemma le_val_take_pos n : 0 <= le_val (take n input) < 2 ^ (8 * zlen (take n input)).
Proof. apply le_val_bound, Forall_take, input_bytes. Qed.

(** The stream as one number. *)
Lemma container_stream n pos b : binv in_ input n pos b ->
  bs_bits b = Z.shiftr (le_val input) pos mod 2 ^ bs_num b.
Proof.
  intros [Hp Hn Hnum Hpos Hmax ->]. rewrite le_val_take by (done || apply input_bytes).
  rewrite Hnum. apply Z.bits_inj'; intros i Hi. rewrite Z.shiftr_spec by lia.
  destruct (Z.lt_ge_cases (i + pos) (8 * Z.of_nat n)).
  - rewrite !Z.mod_pow2_bits_low by lia. by rewrite Z.shiftr_spec by lia.
  - by rewrite !Z.mod_pow2_bits_high by lia.
Qed.

Lemma binv_shift n pos b k : binv in_ input n pos b -> 0 <= k <= bs_num b ->
  binv in_ input n (pos + k) (bs_shift b k).
Proof.
  intros [Hp Hn Hnum Hpos Hmax Hb] Hk. constructor; cbn; try lia.
  - unfold u8. rewrite Z.mod_small; lia.
  - unfold u8. rewrite Z.mod_small; lia.
  - rewrite Hb, Z.shiftr_shiftr by lia. done.
Qed.

(** One byte appended above the bits that are there. *)
Lemma binv_byte n pos b c : binv in_ input n pos b -> bs_num b < 25 -> input !! n = Some c ->
  binv in_ input (S n) pos
    {| bs_ptr := bs_ptr b + 1; bs_bits := Z.lor (bs_bits b) (u32 (Z.shiftl c (bs_num b)));
       bs_num := u8 (bs_num b + 8) |}.
Proof.
  intros [Hp Hn Hnum Hpos Hmax Hb] Hlt Hc. apply lookup_lt_Some in Hc as Hlen.
  assert (is_byte c) as Hcb by (eapply Forall_lookup_1; [apply input_bytes | exact Hc]). unfold is_byte in Hcb.
  constructor; cbn; try lia.
  - unfold u8. rewrite Z.mod_small; lia.
  - unfold u8. rewrite Z.mod_small; lia.
  - assert (0 <= Z.shiftl c (bs_num b) < 2 ^ 32) as Hsm.
    { rewrite Z.shiftl_mul_pow2 by lia. split; [apply Z.mul_nonneg_nonneg; [lia | apply Z.pow_nonneg; lia] |].
      apply Z.lt_le_trans with (2 ^ 8 * 2 ^ bs_num b).
      - apply Z.mul_lt_mono_pos_r; [apply Z.pow_pos_nonneg; lia | lia].
      - rewrite <- Z.pow_add_r by lia. apply Z.pow_le_mono_r; lia. }
    rewrite u32_small by done. erewrite take_S_r by exact Hc.
    rewrite le_val_app, length_take, Nat.min_l by lia. cbn [le_val]. rewrite Z.mul_0_r, Z.add_0_r.
    pose proof (le_val_take_pos n) as Hb0. rewrite length_take, Nat.min_l in Hb0 by lia.
    rewrite (Z.mul_comm _ c), <- lor_shiftl_add, Z.shiftr_lor by lia.
    rewrite Hb. f_equal. rewrite Z.shiftr_shiftl_l by lia. f_equal. lia.
Qed.

Lemma refill_loop_ok fuel n pos b : binv in_ input n pos b -> 32 - bs_num b < 8 * (Z.of_nat fuel + 1) ->
  exists b' n', refill_loop fuel m (in_ + zlen input) b = Ok b' /\ binv in_ input n' pos b' /\ (n <= n')%nat /\
    (25 <= bs_num b' \/ n' = length input) /\
    Z.of_nat n' = Z.of_nat n + Z.min ((32 - bs_num b) / 8) (zlen input - Z.of_nat n).
Proof.
  revert n b. induction fuel as [|fuel IH]; intros n b Hb Hf; pose proof Hb as [Hp Hn Hnum Hpos Hmax Hbits];
    cbn [refill_loop].
  - exists b, n. destruct (Z.ltb_spec (bs_num b) GUARANTEED_BITS) as [Hlt | Hge]; unfold GUARANTEED_BITS in *; [lia |].
    cbn [andb]. split_and!; [done | done | lia | lia | dlia].
  - destruct (Z.ltb_spec (bs_num b) GUARANTEED_BITS) as [Hlt | Hge]; unfold GUARANTEED_BITS in *; cbn [andb].
    2: { exists b, n. split_and!; [done | done | lia | lia | dlia]. }
    destruct (Z.ltb_spec (bs_ptr b) (in_ + zlen input)) as [Hin | Hout].
    2: { exists b, n. split_and!; [done | done | lia | lia | dlia]. }
    destruct (lookup_lt_is_Some_2 input n) as [c Hc]; [lia |].
    rewrite Hp, (ld8_eq m (in_ + Z.of_nat n) c) by (rewrite Hat by lia; done). cbn [mbind res_bind].
    pose proof (binv_byte n pos b c Hb Hlt Hc) as Hb'. rewrite Hp in Hb'.
    destruct (IH (S n) _ Hb') as (b' & n' & Hr & Hbi & Hle & Hfull & Hcnt).
    { cbn. unfold u8. rewrite Z.mod_small; lia. }
    exists b', n'. split_and!; [done | done | lia | done |].
    rewrite Hcnt. cbn. unfold u8. rewrite Z.mod_small by lia. dlia.
Qed.

(** The unaligned reload gives the same container as the byte loop. *)
Lemma refill_ok n pos b : binv in_ input n pos b -> (4 <= n)%nat ->
  exists b' n', refill m (in_ + zlen input) b = Ok b' /\ binv in_ input n' pos b' /\ (n <= n')%nat /\
    (25 <= bs_num b' \/ n' = length input) /\
    Z.of_nat n' = Z.of_nat n + Z.min ((32 - bs_num b) / 8) (zlen input - Z.of_nat n).
Proof.
  intros [Hp Hn Hnum Hpos Hmax Hb] H4. unfold refill.
  rewrite (u8_small (32 - bs_num b)) by lia.
  destruct (Z.eqb_spec (bs_ptr b) (in_ + zlen input)) as [He | Hne].
  { exists b, n. split_and!; [done | done | lia | lia | dlia]. }
  set (rb := Z.min ((32 - bs_num b) / 8) (zlen input - Z.of_nat n)).
  assert (u8 (if in_ + zlen input - bs_ptr b >=? (32 - bs_num b) / 8 then (32 - bs_num b) / 8
              else in_ + zlen input - bs_ptr b) = rb) as ->.
  { rewrite Z.geb_leb. destruct (Z.leb_spec ((32 - bs_num b) / 8) (in_ + zlen input - bs_ptr b));
      rewrite u8_small; subst rb; dlia. }
  assert (0 <= rb <= 4 /\ rb <= zlen input - Z.of_nat n /\ bs_num b + 8 * rb <= 32) as Hrb by (subst rb; dlia).
  set (n' := (n + Z.to_nat rb)%nat). assert (Z.of_nat n' = Z.of_nat n + rb) as Hn' by lia.
  rewrite (u8_small (bs_num b + 8 * rb)) by lia.
  assert (bytes_at m (bs_ptr b + rb - 4) (drop (n' - 4) (take n' input))) as Hl4.
  { rewrite <- (take_drop n' input) in Hat. apply bytes_at_app in Hat as [Hat' _].
    rewrite <- (take_drop (n' - 4) (take n' input)) in Hat'. apply bytes_at_app in Hat' as [_ Hat'].
    rewrite !length_take in Hat'. replace (bs_ptr b + rb - 4) with (in_ + Z.of_nat ((n' - 4) `min` (n' `min` length input))) by lia.
    done. }
  assert (length (drop (n' - 4) (take n' input)) = 4%nat) as Hlen4 by (rewrite length_drop, length_take; lia).
  pose proof (ld_bytes_at _ _ _ Hl4) as Hld. rewrite Hlen4 in Hld. rewrite Hld. cbn [mbind res_bind].
  assert (1 <= bs_num b + 8 * rb) as Hge1 by (subst rb; dlia).
  destruct (Z.ltb_spec (bs_num b + 8 * rb) 1); [lia |].
  eexists _, n'. split; [done |]. split_and!; [| lia | cbn | lia].
  2: { subst rb. dlia. }
  constructor; cbn; try lia.
  rewrite le_val_drop by (try apply Forall_take, input_bytes; rewrite length_take; lia).
  rewrite Z.shiftr_shiftr by lia. f_equal. lia.
Qed.

(** A container is determined by its position. *)
Lemma binv_unique n pos b b' : binv in_ input n pos b -> binv in_ input n pos b' -> b = b'.
Proof.
  intros [Hp _ Hn _ _ Hb] [Hp' _ Hn' _ _ Hb']. destruct b, b'. cbn in *. congruence.
Qed.

Lemma binv_init : binv in_ input 0 0 {| bs_ptr := in_; bs_bits := 0; bs_num := 0 |}.
Proof. constructor; cbn; try lia; done. Qed.
End Bits.

(** ** The DEFLATE format (RFC 1951, 3.2.5) *)
Definition rfc_len_base : list Z :=
  [3; 4; 5; 6; 7; 8; 9; 10; 11; 13; 15; 17; 19; 23; 27; 31; 35; 43; 51; 59; 67; 83; 99; 115; 131; 163; 195; 227; 258].
Definition rfc_len_extra : list Z :=
  [0; 0; 0; 0; 0; 0; 0; 0; 1; 1; 1; 1; 2; 2; 2; 2; 3; 3; 3; 3; 4; 4; 4; 4; 5; 5; 5; 5; 0].
Definition rfc_dist_base : list Z :=
  [1; 2; 3; 4; 5; 7; 9; 13; 17; 25; 33; 49; 65; 97; 129; 193; 257; 385; 513; 769; 1025; 1537; 2049; 3073;
   4097; 6145; 8193; 12289; 16385; 24577].
Definition rfc_dist_extra : list Z :=
  [0; 0; 0; 0; 1; 1; 2; 2; 3; 3; 4; 4; 5; 5; 6; 6; 7; 7; 8; 8; 9; 9; 10; 10; 11; 11; 12; 12; 13; 13].

(** [n] bits of the stream [V] at position [pos]. *)
Definition bits_at (V pos n : Z) : Z := Z.shiftr V pos mod 2 ^ n.

(** A symbol of an alphabet with its extra bits: the value and the bits taken. *)
Definition with_extra (bases extras : list Z) (V pos : Z) (k : nat) : option (Z * Z) :=
  base ← bases !! k; extra ← extras !! k;
  Some (base + bits_at V pos extra, extra).

(** The symbols of a compressed block: a literal, the end of the block, or a match
    with its length symbol, its length and its distance. *)
Inductive symbol : Type := SymLit (k : nat) | SymEnd | SymMatch (k : nat) (len d : Z).

(** The symbol at position [pos] and the position behind it.  Behind the end of the
    input [V] has zero bits. *)
Inductive symbol_at (lit dist : list Z) (V pos : Z) : symbol -> Z -> Prop :=
| at_lit k x : code_matches lit (Z.shiftr V pos) k x -> (k < 256)%nat -> symbol_at lit dist V pos (SymLit k) (pos + x)
| at_end x : code_matches lit (Z.shiftr V pos) 256 x -> symbol_at lit dist V pos SymEnd (pos + x)
| at_match k x len lx k2 x2 d dx :
    code_matches lit (Z.shiftr V pos) k x -> (257 <= k)%nat ->
    with_extra rfc_len_base rfc_len_extra V (pos + x) (k - 257) = Some (len, lx) ->
    code_matches dist (Z.shiftr V (pos + x + lx)) k2 x2 ->
    with_extra rfc_dist_base rfc_dist_extra V (pos + x + lx + x2) k2 = Some (d, dx) ->
    symbol_at lit dist V pos (SymMatch k len d) (pos + x + lx + x2 + dx).

(** A match that RFC 1951 does not allow: one from before the output, or the length 258
    with symbol 284. *)
Definition corrupt (w : list Z) (y : symbol) : Prop :=
  match y with SymMatch k len d => zlen w < d \/ k = 284%nat /\ len = 258 | _ => False end.
(** The bytes that a symbol adds. *)
Definition symbol_size (y : symbol) : Z := match y with SymLit _ => 1 | SymEnd => 0 | SymMatch _ len _ => len end.

(** One literal or one match of a compressed block: [(pos, window)] before and
    after. *)
Inductive deflate_step (lit dist : list Z) (V : Z) : Z * list Z -> Z * list Z -> Prop :=
| deflate_lit pos w k e : symbol_at lit dist V pos (SymLit k) e -> deflate_step lit dist V (pos, w) (e, w ++ [Z.of_nat k])
| deflate_match pos w k len d e : symbol_at lit dist V pos (SymMatch k len d) e -> ~ corrupt w (SymMatch k len d) ->
    deflate_step lit dist V (pos, w) (e, lz_match (Z.to_nat len) w d).

(** ** Pieces of a compressed block *)
Lemma code_matches_bits lengths V k x num : x <= num ->
  code_matches lengths (V mod 2 ^ num) k x -> code_matches lengths V k x.
Proof. intros Hx. by apply code_matches_mod. Qed.

(** The alphabet that a set of tables decodes: complete, as DEFLATE demands. *)
Record alphabet (n : Z) (t : huff_tables) : Prop := {
  al_valid : valid_lengths (ht_lengths t);
  al_kraft : kraft (ht_lengths t) = 2 ^ 15;
  al_len : zlen (ht_lengths t) = n;
  al_tables : dec_tables (ht_lengths t) (ht_dectable t) (ht_oloff t) (ht_overlength t);
}.

Lemma bits_at_range U pos e : 0 <= e -> 0 <= bits_at U pos e < 2 ^ e.
Proof. intros. apply Z.mod_pos_bound. apply Z.pow_pos_nonneg; lia. Qed.

Lemma code_length lengths U k x : valid_lengths lengths -> code_matches lengths U k x -> 0 < x <= 15.
Proof. intros Hv (Hk & Hx & _). unfold valid_lengths in Hv. rewrite Forall_lookup in Hv. specialize (Hv _ _ Hk). cbn in Hv. lia. Qed.

Section Pieces.
Context (m : mem) (in_ : Z) (input : list Z).
Hypothesis Hok : mem_ok m.
Hypothesis Hat : bytes_at m in_ input.
Let V : Z := le_val input.

(** The container has at least 25 bits, or all that are left. *)
Definition full (n : nat) (b : bit_state) : Prop := 25 <= bs_num b \/ n = length input.

(** All of the rest of the stream. *)
Lemma container_all pos b : binv in_ input (length input) pos b -> bs_bits b = Z.shiftr V pos /\ bs_num b = 8 * zlen input - pos.
Proof. intros [_ _ Hnum _ _ Hb]. rewrite firstn_all in Hb. done. Qed.

(** The symbol at the current position, or not enough bits. *)
Lemma lookup_ok N t n pos b : alphabet N t -> N <= 512 -> binv in_ input n pos b -> full n b ->
  exists r k x, huff_lookup (ht_dectable t) (ht_oloff t) (ht_overlength t) (bs_bits b) (bs_num b) = Ok r /\
    code_matches (ht_lengths t) (Z.shiftr V pos) k x /\ 0 < x <= 15 /\ Z.of_nat k < N /\
    (r = LookupNeedData /\ n = length input /\ 8 * zlen input < pos + x \/ r = LookupSym (Z.of_nat k) x /\ x <= bs_num b).
Proof.
  intros [Hv Hk Hl Ht] HN Hb Hfull.
  destruct (complete_match (ht_lengths t) Hv (bs_bits b) Hk) as (k & x & Hm). pose proof (code_length _ _ _ _ Hv Hm) as Hx.
  pose proof Hm as (Hkx & _). apply lookup_lt_Some in Hkx.
  rewrite (huff_lookup_match (ht_lengths t) _ _ _ Hv ltac:(lia) ltac:(lia) Ht _ _ k x Hm).
  eexists _, k, x. split; [done |]. destruct (Z.ltb_spec (bs_num b) x) as [Hlt | Hge].
  - destruct Hfull as [? | ->]; [lia |]. destruct (container_all pos b Hb) as [E1 E2]. rewrite E1 in Hm. split_and!; try done; try lia. left. split_and!; (done || lia).
  - split_and!; try done; try lia; [| by right].
    rewrite (container_stream m in_ input Hok Hat n pos b Hb) in Hm. by eapply code_matches_bits.
Qed.

(** Extra bits, read as a number. *)
Lemma container_bits n pos b e : binv in_ input n pos b -> 0 <= e <= bs_num b ->
  Z.land (bs_bits b) (Z.shiftl 1 e - 1) = bits_at V pos e.
Proof.
  intros Hb He. rewrite suffix_mod by lia. rewrite (container_stream m in_ input Hok Hat n pos b Hb).
  unfold bits_at. rewrite Z.mod_mod_divide; [done |].
  exists (2 ^ (bs_num b - e)). rewrite <- Z.pow_add_r by lia. f_equal. lia.
Qed.
End Pieces.

(** The tables of [init] against the tables of the RFC. *)
Lemma len_tables j : (j < 29)%nat -> exists base e, rfc_len_base !! j = Some base /\ rfc_len_extra !! j = Some e /\
  0 <= e <= 5 /\ 3 <= base /\
  (if (j <? 8)%nat then e = 0 /\ base = Z.of_nat j + 3
   else lit_extra !! (j - 8)%nat = Some e /\
     base_table 11 lit_extra !! (j - 8)%nat = Some (if (j =? 28)%nat then 259 else base) /\
     base + 2 ^ e <= 259 /\ (j = 28%nat -> e = 0 /\ base = 258) /\ (j <> 28%nat -> base + 2 ^ e = 259 -> j = 27%nat)).
Proof.
  intros Hj.
  do 29 (destruct j as [|j]; [eexists _, _; split; [reflexivity |]; split; [reflexivity |];
    vm_compute; intuition congruence |]). lia.
Qed.

Lemma dist_tables j : (j < 30)%nat -> exists base e, rfc_dist_base !! j = Some base /\ rfc_dist_extra !! j = Some e /\
  0 <= e <= 13 /\ 1 <= base /\
  (if (j <? 4)%nat then e = 0 /\ base = Z.of_nat j + 1
   else dist_extra !! (j - 4)%nat = Some e /\ base_table 5 dist_extra !! (j - 4)%nat = Some base).
Proof.
  intros Hj.
  do 30 (destruct j as [|j]; [eexists _, _; split; [reflexivity |]; split; [reflexivity |];
    vm_compute; intuition congruence |]). lia.
Qed.

Section HuffBlockOk.
Context (s : gzip_dec_state) (in_ : Z) (input : list Z).
Let V : Z := le_val input.
Let ws : Z := window_start (gz_st s).
Let oe : Z := out_end (gz_st s).
Let lit : list Z := ht_lengths (gz_lit s).
Let dist : list Z := ht_lengths (gz_dist s).
Let end_ : Z := in_ + zlen input.
Hypothesis Hlit : alphabet 286 (gz_lit s).
Hypothesis Hdist : alphabet 30 (gz_dist s).
Hypothesis Hlbase : gz_lit_base s = base_table 11 lit_extra.
Hypothesis Hdbase : gz_dist_base s = base_table 5 dist_extra.
Hypothesis Hcrct : gz_crc_table s = crc_table.

Lemma huff_length_ok m n pos b (k : nat) : mem_ok m -> bytes_at m in_ input -> binv in_ input n pos b ->
  (257 <= k < 286)%nat ->
  exists len lx, with_extra rfc_len_base rfc_len_extra V pos (k - 257) = Some (len, lx) /\ 0 <= lx <= 5 /\ 3 <= len /\
   (huff_length s b (Z.of_nat k) = Ok None /\ bs_num b < lx \/
    exists L b', huff_length s b (Z.of_nat k) = Ok (Some (L, b')) /\ binv in_ input n (pos + lx) b' /\ bs_num b' = bs_num b - lx /\
      (L = 258 <-> k = 284%nat /\ len = 258) /\ (L <> 258 -> (if 258 <=? L then 258 else L) = len)).
Proof.
  intros Hok Hat Hb Hk. set (j := (k - 257)%nat).
  destruct (len_tables j ltac:(lia)) as (base & e & Hbase & He & Her & Hb3 & Htab).
  assert (with_extra rfc_len_base rfc_len_extra V pos j = Some (base + bits_at V pos e, e)) as Hw
    by (unfold with_extra; by rewrite Hbase, He).
  pose proof (bits_at_range V pos e ltac:(lia)) as Hba.
  exists (base + bits_at V pos e), e. split; [exact Hw |]. split; [lia |]. split; [lia |].
  unfold huff_length. destruct (Nat.ltb_spec j 8) as [Hj | Hj].
  - destruct Htab as [-> ->]. assert ((11 <=? Z.of_nat k - 257 + 3) = false) as -> by zb.
    right. exists (Z.of_nat k - 257 + 3), b. change (2 ^ 0) with 1 in Hba. rewrite Z.add_0_r.
    split_and!; [done | done | lia | lia |]. intros _. destruct (Z.leb_spec 258 (Z.of_nat k - 257 + 3)); lia.
  - destruct Htab as (Hx & Hlb & Hmax & H28 & H27). assert ((11 <=? Z.of_nat k - 257 + 3) = true) as -> by zb.
    replace (Z.of_nat k - 257 + 3 - 11) with (Z.of_nat (j - 8)) by lia.
    rewrite (geti_ok lit_extra _ e) by (lia || by rewrite Nat2Z.id). cbn [mbind res_bind].
    rewrite Hlbase, (geti_ok (base_table 11 lit_extra) _ (if (j =? 28)%nat then 259 else base))
      by (lia || by rewrite Nat2Z.id).
    cbn [mbind res_bind]. destruct (Z.ltb_spec (bs_num b) e); [by left |]. right.
    rewrite (container_bits m in_ input Hok Hat n pos b e Hb) by lia.
    eexists _, _. split; [done |]. split; [by apply binv_shift; [| lia] |].
    split; [cbn [bs_shift bs_num]; pose proof (bi_max _ _ _ _ _ Hb); rewrite u8_small by lia; lia |].
    fold V. destruct (Nat.eqb_spec j 28) as [E28 | N28].
    + destruct (H28 E28) as [-> ->]. change (2 ^ 0) with 1 in Hba. split; [lia |].
      intros _. destruct (Z.leb_spec 258 (259 + bits_at V pos 0)); lia.
    + split; [| intros ?; destruct (Z.leb_spec 258 (base + bits_at V pos e)); lia].
      split; [| lia]. intros HL258. assert (j = 27%nat) by (apply H27; [done | lia]). lia.
Qed.

Lemma huff_distance_ok m n pos b (k : nat) : mem_ok m -> bytes_at m in_ input -> binv in_ input n pos b ->
  (4 <= n)%nat -> (k < 30)%nat ->
  exists d dx, with_extra rfc_dist_base rfc_dist_extra V pos k = Some (d, dx) /\ 0 <= dx /\ 1 <= d /\
   (huff_distance s end_ m b (Z.of_nat k) = Ok None /\ 8 * zlen input < pos + dx \/
    exists b' n', huff_distance s end_ m b (Z.of_nat k) = Ok (Some (d, b')) /\ binv in_ input n' (pos + dx) b' /\ (4 <= n')%nat).
Proof.
  intros Hok Hat Hb H4 Hk.
  destruct (dist_tables k Hk) as (base & e & Hbase & He & Her & Hb1 & Htab).
  assert (with_extra rfc_dist_base rfc_dist_extra V pos k = Some (base + bits_at V pos e, e)) as Hw
    by (unfold with_extra; by rewrite Hbase, He).
  pose proof (bits_at_range V pos e ltac:(lia)) as Hba.
  exists (base + bits_at V pos e), e. split; [exact Hw |]. split; [lia |]. split; [lia |].
  unfold huff_distance. destruct (Nat.ltb_spec k 4) as [Hj | Hj].
  - destruct Htab as [-> ->]. assert ((5 <=? Z.of_nat k + 1) = false) as -> by zb.
    right. exists b, n. change (2 ^ 0) with 1 in Hba. rewrite Z.add_0_r. split_and!; [| done | done].
    do 3 f_equal. lia.
  - destruct Htab as (Hx & Hdb). assert ((5 <=? Z.of_nat k + 1) = true) as -> by zb.
    replace (Z.of_nat k + 1 - 5) with (Z.of_nat (k - 4)) by lia.
    rewrite (geti_ok dist_extra _ e) by (lia || by rewrite Nat2Z.id). cbn [mbind res_bind].
    rewrite Hdbase, (geti_ok (base_table 5 dist_extra) _ base) by (lia || by rewrite Nat2Z.id).
    cbn [mbind res_bind].
    destruct (refill_ok m in_ input Hok Hat n pos b Hb H4) as (b' & n' & Hr & Hb' & Hn' & Hfull & _).
    unfold end_. rewrite Hr. cbn [mbind res_bind].
    destruct (Z.ltb_spec (bs_num b') e).
    { left. split; [done |]. destruct Hfull as [? | ->]; [lia |]. destruct (container_all in_ input pos b' Hb'). lia. }
    right. rewrite (container_bits m in_ input Hok Hat n' pos b' e Hb') by lia.
    eexists _, n'. split; [done |]. split; [by apply binv_shift; [| lia] | lia].
Qed.

(** A distance can be decoded from any position, with zero bits behind the input. *)
Lemma distance_exists P : exists k x d dx, code_matches dist (Z.shiftr V P) k x /\ with_extra rfc_dist_base rfc_dist_extra V (P + x) k = Some (d, dx) /\ 0 < x /\ 0 <= dx.
Proof.
  destruct Hdist as [Hv Hk Hl Ht]. destruct (complete_match (ht_lengths (gz_dist s)) Hv (Z.shiftr V P) Hk) as (k & x & Hm). pose proof (code_length _ _ _ _ Hv Hm). pose proof Hm as (Hkx & _). apply lookup_lt_Some in Hkx.
  destruct (dist_tables k ltac:(lia)) as (base & e & Hbase & He & Her & _). exists k, x, (base + bits_at V (P + x) e), e.
  split; [done |]. split; [unfold with_extra; by rewrite Hbase, He |]. lia.
Qed.

(** The bytes of a match, with their checksum. *)
Lemma match_copy_crc_ok m n w d crc : mem_ok m -> bytes_at m ws w -> accessible m ws (oe - ws) ->
  1 <= d <= zlen w -> ws + zlen w + Z.of_nat n <= oe ->
  exists m', match_copy_crc n m crc_table (ws + zlen w) d crc
      = Ok (m', crc_feed crc32_poly crc (drop (length w) (lz_match n w d))) /\
    bytes_at m' ws (lz_match n w d) /\ frame m m' (ws + zlen w) oe /\ same_dom m m' /\ mem_ok m'.
Proof.
  revert m w crc. induction n as [|n IH]; intros m w crc Hok Hw Hacc Hd Hroom; cbn [match_copy_crc lz_match].
  - exists m. rewrite drop_all. split_and!; [done | done | apply frame_refl | apply same_dom_refl | done].
  - set (i := (length w - Z.to_nat d)%nat). destruct (lookup_lt_is_Some_2 w i) as [c Hc]; [lia |].
    assert (nth i w 0 = c) as Hnth by by apply nth_lookup_Some.
    assert (m !! (ws + zlen w - d) = Some c) as Hmc.
    { replace (ws + zlen w - d) with (ws + Z.of_nat i) by lia. rewrite Hw by lia. done. }
    assert (is_byte c) as Hcb by by apply (Hok _ _ Hmc).
    rewrite (ld8_eq _ _ _ Hmc). cbn [mbind res_bind].
    rewrite st8_ok by (apply Hacc; lia). cbn [mbind res_bind]. rewrite (u8_small c) by done.
    rewrite crc_update_ok by done. cbn [mbind res_bind].
    set (m1 := <[ws + zlen w := c]> m). rewrite Hnth. set (w1 := w ++ [c]).
    assert (zlen w1 = zlen w + 1) as Hl1 by (subst w1; rewrite length_app; simpl; lia).
    assert (frame m m1 (ws + zlen w) oe) as Hf1.
    { intros x Hx. subst m1. rewrite lookup_insert_ne by lia. done. }
    assert (same_dom m m1) as Hd1.
    { intros x. subst m1. destruct (decide (x = ws + zlen w)) as [-> |].
      - rewrite lookup_insert_eq. split; [eauto |]. intros _. apply Hacc. lia.
      - by rewrite lookup_insert_ne. }
    destruct (IH m1 w1 (crc32_byte (Z.lxor crc c) crc32_poly)) as (m' & Hm' & Hat' & Hf' & Hd' & Hok').
    + intros x v. subst m1. rewrite lookup_insert. case_decide; [by intros [= <-] | apply Hok].
    + subst w1. apply bytes_at_app. split; [eapply bytes_at_frame; [exact Hf1 | done | lia] |].
      apply bytes_at_cons. subst m1. rewrite lookup_insert_eq. split; [done |]. intros j Hj. simpl in Hj. lia.
    + by eapply accessible_same_dom.
    + lia.
    + lia.
    + exists m'. replace (ws + zlen w + 1) with (ws + zlen w1) by lia. rewrite Hm'.
      split_and!; [| done | eapply frame_trans; [exact Hf1 | eapply frame_weaken; [exact Hf' | lia | lia]]
        | by eapply same_dom_trans | done].
      f_equal. f_equal. pose proof (lz_match_length n w1 d) as Hll.
      assert (drop (length w) (lz_match n w1 d) = c :: drop (length w1) (lz_match n w1 d)) as ->.
      { replace (length w1) with (S (length w)) by lia. rewrite (drop_S _ c); [done |].
        rewrite lz_match_prefix by lia. subst w1. rewrite lookup_app_r, Nat.sub_diag by lia. done. }
      by rewrite crc_feed_cons.
Qed.

(** ** The loop of a compressed block *)
Context (m0 : mem) (w0 : list Z) (pos0 : Z).
Hypothesis Hacc0 : accessible m0 ws (oe - ws).
Hypothesis Hdisj : end_ <= ws + zlen w0 \/ oe <= in_.

Record hstate (m : mem) (b : bit_state) (o crc : Z) (n : nat) (pos : Z) (w : list Z) : Prop := {
  h_ok : mem_ok m;
  h_in : bytes_at m in_ input;
  h_win : bytes_at m ws w;
  h_out : o = ws + zlen w;
  h_room : o <= oe;
  h_frame : frame m0 m (ws + zlen w0) oe;
  h_dom : same_dom m0 m;
  h_bits : binv in_ input n pos b;
  h_n : (4 <= n)%nat;
  h_full : full input n b;
  h_prefix : w0 `prefix_of` w;
  h_crc : crc = crc_feed crc32_poly (gz_crc s) (drop (length w0) w);
  h_steps : rtc (deflate_step lit dist V) (pos0, w0) (pos, w);
}.

(** Memory after an error. *)
Definition mem_safe (m : mem) : Prop := frame m0 m (ws + zlen w0) oe /\ same_dom m0 m /\ mem_ok m.

Lemma hstate_safe m b o crc n pos w : hstate m b o crc n pos w -> mem_safe m.
Proof. intros H. split_and!; [apply (h_frame _ _ _ _ _ _ _ H) | apply (h_dom _ _ _ _ _ _ _ H) | apply (h_ok _ _ _ _ _ _ _ H)]. Qed.

(** Why decoding cannot go on at [pos] with the window [w]: the next symbol reaches
    behind the input, or what it adds behind the output space. *)
Definition stopped (code pos : Z) (w : list Z) : Prop :=
  exists y e, symbol_at lit dist V pos y e /\
    (code = DECODE_NEED_MORE_DATA /\ 8 * zlen input < e \/
     code = DECODE_NEED_MORE_SPACE /\ e <= 8 * zlen input /\ ~ corrupt w y /\ oe - ws < zlen w + symbol_size y).
(** Corrupt data were found behind what was decoded. *)
Definition corrupt_data : Prop :=
  exists pos w y e, rtc (deflate_step lit dist V) (pos0, w0) (pos, w) /\ symbol_at lit dist V pos y e /\ e <= 8 * zlen input /\ corrupt w y.

(** What an exit from the loop tells. *)
Definition exit_ok (e : huff_exit) : Prop :=
  match e with
  | HuffReturn code m => code = DECODE_ERR /\ mem_safe m /\ corrupt_data
  | HuffInterrupted code b m o crc => exists n pos w, hstate m b o crc n pos w /\ stopped code pos w
  | HuffEnd b m o crc =>
      exists b0 n pos w x, hstate m b0 o crc n pos w /\ binv in_ input n (pos + x) b /\
        symbol_at lit dist V pos SymEnd (pos + x)
  end.

Definition step_ok (pos : Z) (r : huff_step) : Prop :=
  match r with
  | HuffNext b m o crc => exists n pos' w, hstate m b o crc n pos' w /\ pos < pos'
  | HuffExit e => exit_ok e
  end.

Lemma crc_feed_app crc l1 l2 : crc_feed crc32_poly crc (l1 ++ l2) = crc_feed crc32_poly (crc_feed crc32_poly crc l1) l2.
Proof. unfold crc_feed. rewrite map_app, join_app, foldl_app. done. Qed.

(** Output appended to the window. *)
Lemma hstate_extend m m' b b' o o' crc n n' pos pos' w w' : hstate m b o crc n pos w ->
  w `prefix_of` w' -> bytes_at m' ws w' -> frame m m' o oe -> same_dom m m' -> mem_ok m' ->
  o' = ws + zlen w' -> o' <= oe -> binv in_ input n' pos' b' -> (4 <= n')%nat -> full input n' b' ->
  deflate_step lit dist V (pos, w) (pos', w') ->
  hstate m' b' o' (crc_feed crc32_poly crc (drop (length w) w')) n' pos' w'.
Proof.
  intros [Hok Hi Hw -> Hr Hf Hd Hb Hn Hfl Hp -> Hs] Hpre Hw' Hf' Hd' Hok' -> Ho' Hb' Hn' Hfl' Hstep.
  apply prefix_length in Hp as Hlen. constructor; try done.
  - eapply bytes_at_frame; [exact Hf' | done |]. unfold end_ in *. lia.
  - eapply frame_trans; [exact Hf |]. eapply frame_weaken; [exact Hf' | lia | lia].
  - by eapply same_dom_trans.
  - by etrans.
  - rewrite <- crc_feed_app. f_equal. destruct Hpre as [l ->].
    rewrite (drop_app_length' w) by done. rewrite drop_app_le by lia. done.
  - eapply rtc_r; [exact Hs | done].
Qed.

Lemma lz_match_extends n w d : w `prefix_of` lz_match n w d.
Proof.
  revert w. induction n as [|n IH]; intros w; cbn [lz_match]; [done |].
  etrans; [by apply prefix_app_r | apply IH].
Qed.

Lemma huff_match_ok m b o crc n pos w b1 x (k : nat) : hstate m b o crc n pos w ->
  code_matches lit (Z.shiftr V pos) k x -> 0 < x <= 15 -> (257 <= k < 286)%nat -> binv in_ input n (pos + x) b1 -> bs_num b1 = bs_num b - x ->
  exists r, huff_match s end_ m b b1 (Z.of_nat k) o crc = Ok r /\ step_ok pos r.
Proof.
  intros Hh Hm Hx Hk Hb1 Hnum1. pose proof Hh as [Hok Hi Hw -> Hroom Hf Hd Hb Hn Hfl Hp _ Hsteps].
  assert (forall y e, symbol_at lit dist V pos y e -> 8 * zlen input < e -> exists r, Ok (HuffExit (HuffInterrupted DECODE_NEED_MORE_DATA b m (ws + zlen w) crc)) = Ok r /\ step_ok pos r) as Hmore.
  { intros y e Hy He. eexists. split; [done |]. exists n, pos, w. split; [done |]. exists y, e. split; [done |]. by left. }
  unfold huff_match.
  destruct (huff_length_ok m n (pos + x) b1 k Hok Hi Hb1 Hk) as (len & lx & Hlen & Hlx & Hl3 & [[-> Hshort] | (L & b2 & -> & Hb2 & Hnum2 & HLc & HL)]); cbn [mbind res_bind].
  { destruct (distance_exists (pos + x + lx)) as (k2 & x2 & d & dx & Hm2 & Hd2 & ? & ?).
    apply (Hmore (SymMatch k len d) (pos + x + lx + x2 + dx)); [by eapply at_match; try done; lia |].
    destruct Hfl as [? | ->]; [lia |]. destruct (container_all in_ input _ _ Hb1). lia. }
  destruct (refill_ok m in_ input Hok Hi n _ b2 Hb2 Hn) as (b3 & n3 & Hr3 & Hb3 & Hn3 & Hfull3 & _).
  fold end_ in Hr3. rewrite Hr3. cbn [mbind res_bind].
  destruct (lookup_ok m in_ input Hok Hi 30 (gz_dist s) n3 _ b3 Hdist ltac:(lia) Hb3 Hfull3)
    as (r & k2 & x2 & -> & Hm2 & Hx2 & Hk2 & [(-> & _ & Hshort) | [-> Hx2']]); cbn [mbind res_bind].
  { destruct (dist_tables k2 ltac:(lia)) as (base & e & Hbase & He & Her & _).
    apply (Hmore (SymMatch k len (base + bits_at V (pos + x + lx + x2) e)) (pos + x + lx + x2 + e)); [| lia].
    eapply at_match; try done; try lia. unfold with_extra. by rewrite Hbase, He. }
  pose proof (binv_shift in_ input n3 _ b3 x2 Hb3 ltac:(lia)) as Hb4.
  destruct (huff_distance_ok m n3 _ _ k2 Hok Hi Hb4 ltac:(lia) ltac:(lia)) as
    (d & dx & Hd5 & Hdx & Hd1 & [[-> Hshort] | (b5 & n5 & -> & Hb5 & Hn5)]); cbn [mbind res_bind];
    (assert (symbol_at lit dist V pos (SymMatch k len d) (pos + x + lx + x2 + dx)) as Hsym by (by eapply at_match; try done; lia)).
  { by apply (Hmore _ _ Hsym). }
  assert (pos + x + lx + x2 + dx <= 8 * zlen input) as Hend by (destruct Hb5; lia).
  fold ws oe. replace (ws + zlen w - ws) with (zlen w) by lia.
  destruct (Z.ltb_spec (zlen w) d) as [Hfar | Hnear].
  { eexists. split; [done |]. split; [done |]. split; [by eapply hstate_safe |]. exists pos, w, (SymMatch k len d), (pos + x + lx + x2 + dx). split_and!; try done. by left. }
  destruct (Z.eqb_spec L 258) as [HL' | HL'].
  { eexists. split; [done |]. split; [done |]. split; [by eapply hstate_safe |]. exists pos, w, (SymMatch k len d), (pos + x + lx + x2 + dx). split_and!; try done. right. by apply HLc. }
  assert (~ corrupt w (SymMatch k len d)) as Hgood by (intros [? | ?]; [lia | by apply HL', HLc]).
  rewrite (HL HL'). destruct (Z.ltb_spec (oe - (ws + zlen w)) len).
  { eexists. split; [done |]. exists n, pos, w. split; [done |]. exists (SymMatch k len d), (pos + x + lx + x2 + dx). split; [done |]. right. cbn [symbol_size]. split_and!; (done || lia). }
  rewrite Hcrct. destruct (match_copy_crc_ok m (Z.to_nat len) w d crc) as (m' & -> & Hw' & Hf' & Hd' & Hok');
    [done | done | by eapply accessible_same_dom | lia | lia |].
  cbn [mbind res_bind].
  assert (bytes_at m' in_ input) as Hi'.
  { eapply bytes_at_frame; [exact Hf' | done |]. apply prefix_length in Hp. unfold end_ in *. lia. }
  destruct (refill_ok m' in_ input Hok' Hi' n5 _ b5 Hb5 Hn5) as (b6 & n6 & Hr6 & Hb6 & Hn6 & Hfull6 & _).
  fold end_ in Hr6. rewrite Hr6. cbn [mbind res_bind]. pose proof (lz_match_length (Z.to_nat len) w d) as Hlm.
  eexists. split; [done |]. exists n6, (pos + x + lx + x2 + dx), (lz_match (Z.to_nat len) w d).
  split; [| lia]. eapply hstate_extend; try done; try lia.
  - apply lz_match_extends.
  - by eapply deflate_match.
Qed.

(** There is a symbol at any position, and it has at least the bits of its code. *)
Lemma symbol_exists pos k x : code_matches lit (Z.shiftr V pos) k x -> (k < 286)%nat -> exists y e, symbol_at lit dist V pos y e /\ pos + x <= e.
Proof.
  intros Hm Hk. destruct (Nat.lt_trichotomy k 256) as [Hlt | [-> | Hgt]].
  - exists (SymLit k), (pos + x). split; [by apply at_lit | lia].
  - exists SymEnd, (pos + x). split; [by apply at_end | lia].
  - destruct (len_tables (k - 257) ltac:(lia)) as (base & e & Hbase & He & Her & _). destruct (distance_exists (pos + x + e)) as (k2 & x2 & d & dx & Hm2 & Hd2 & ? & ?).
    exists (SymMatch k (base + bits_at V (pos + x) e) d), (pos + x + e + x2 + dx). split; [| lia]. eapply at_match; try done; try lia. unfold with_extra. by rewrite Hbase, He.
Qed.

Lemma huff_iter_ok m b o crc n pos w : hstate m b o crc n pos w ->
  exists r, huff_iter s end_ m b o crc = Ok r /\ step_ok pos r.
Proof.
  intros Hh. pose proof Hh as [Hok Hi Hw Ho Hroom Hf Hd Hb Hn Hfl Hp _ _]. unfold huff_iter.
  destruct (lookup_ok m in_ input Hok Hi 286 (gz_lit s) n pos b Hlit ltac:(lia) Hb Hfl)
    as (r & k & x & -> & Hm & Hx & Hk & [(-> & _ & Hshort) | [-> Hx']]); cbn [mbind res_bind].
  { eexists. split; [done |]. exists n, pos, w. split; [done |]. destruct (symbol_exists pos k x Hm ltac:(lia)) as (y & e & Hy & He).
    exists y, e. split; [done |]. left. split; [done | lia]. }
  pose proof (binv_shift in_ input n pos b x Hb ltac:(lia)) as Hb1.
  destruct (Z.ltb_spec (Z.of_nat k) 256) as [Hlt | Hge].
  - fold oe. destruct (Z.leb_spec oe o).
    { eexists. split; [done |]. exists n, pos, w. split; [done |]. exists (SymLit k), (pos + x). split; [by apply at_lit; [| lia] |]. right. cbn. destruct Hb1. split_and!; (done || lia). }
    assert (accessible m ws (oe - ws)) as Hacc by by eapply accessible_same_dom.
    rewrite st8_ok by (apply Hacc; lia). cbn [mbind res_bind].
    rewrite Hcrct, crc_update_ok by (unfold is_byte; lia). cbn [mbind res_bind].
    rewrite (u8_small (Z.of_nat k)) by lia.
    set (m1 := <[o := Z.of_nat k]> m).
    assert (frame m m1 o oe) as Hf1 by (intros y Hy; subst m1; by rewrite lookup_insert_ne by lia).
    assert (same_dom m m1) as Hd1.
    { intros y. subst m1. destruct (decide (y = o)) as [-> |]; [| by rewrite lookup_insert_ne].
      rewrite lookup_insert_eq. split; [eauto |]. intros _. apply Hacc. lia. }
    assert (mem_ok m1) as Hok1.
    { intros y v. subst m1. rewrite lookup_insert. case_decide; [| apply Hok]. intros [= <-]. unfold is_byte. lia. }
    assert (bytes_at m1 ws (w ++ [Z.of_nat k])) as Hw1.
    { apply bytes_at_app. split; [eapply bytes_at_frame; [exact Hf1 | done | lia] |].
      apply bytes_at_cons. subst m1 o. rewrite lookup_insert_eq. split; [done |].
      intros j Hj. simpl in Hj. lia. }
    assert (bytes_at m1 in_ input) as Hi1.
    { eapply bytes_at_frame; [exact Hf1 | done |]. apply prefix_length in Hp. unfold end_ in *. lia. }
    destruct (refill_ok m1 in_ input Hok1 Hi1 n _ _ Hb1 Hn) as (b2 & n2 & Hr2 & Hb2 & Hn2 & Hfull2 & _).
    unfold end_. rewrite Hr2. cbn [mbind res_bind]. eexists. split; [done |].
    exists n2, (pos + x), (w ++ [Z.of_nat k]). split; [| lia].
    replace (crc32_byte (Z.lxor crc (Z.of_nat k)) crc32_poly)
      with (crc_feed crc32_poly crc (drop (length w) (w ++ [Z.of_nat k]))).
    2: { rewrite drop_app_length. apply (crc_feed_snoc crc []). unfold is_byte. lia. }
    eapply hstate_extend; try done; try lia.
    + by apply prefix_app_r.
    + rewrite length_app. simpl. lia.
    + by apply deflate_lit, at_lit; [| lia].
  - destruct (Z.ltb_spec 256 (Z.of_nat k)).
    + eapply huff_match_ok; try done; try lia. cbn [bs_shift bs_num]. pose proof (bi_max _ _ _ _ _ Hb). apply u8_small. lia.
    + assert (k = 256%nat) as -> by lia. eexists. split; [done |]. exists b, n, pos, w, x. split; [done |]. split; [done |]. by apply at_end.
Qed.

Lemma huff_loop_ok fuel m b o crc n pos w : hstate m b o crc n pos w ->
  8 * zlen input - pos < Z.of_nat fuel ->
  exists e, huff_loop s end_ fuel m b o crc = Ok e /\ exit_ok e.
Proof.
  revert m b o crc n pos w. induction fuel as [|fuel IH]; intros m b o crc n pos w Hh Hf.
  - destruct (h_bits _ _ _ _ _ _ _ Hh). lia.
  - cbn [huff_loop]. destruct (huff_iter_ok _ _ _ _ _ _ _ Hh) as (r & -> & Hr). cbn [mbind res_bind].
    destruct r as [b' m' o' crc' | e]; [| by exists e].
    destruct Hr as (n' & pos' & w' & Hh' & Hlt). eapply IH; [exact Hh' | lia].
Qed.

(** The position of a container in whole bytes and remaining bits. *)
Lemma bits_consumed_ok n pos b : binv in_ input n pos b ->
  bits_consumed in_ b = pos / 8 /\ (8 - bs_num b) mod 8 = pos mod 8.
Proof. intros [Hp Hn Hnum Hpos _ _]. unfold bits_consumed. rewrite Hp, Hnum. dlia. Qed.

(** The state after a call that went from [w0] to [w]. *)
Definition huff_state_ok (s' : gzip_dec_state) (w : list Z) : Prop :=
  out (gz_st s') = ws + zlen w /\ out_end (gz_st s') = oe /\ ws + zlen w <= oe /\
  gz_crc s' = crc_feed crc32_poly (gz_crc s) (drop (length w0) w) /\
  gz_isize s' = u32 (gz_isize s + (zlen w - zlen w0)) /\
  window_start (gz_st s') = (if 32768 <? zlen w then ws + zlen w - 32768 else ws) /\
  gz_last_block s' = gz_last_block s /\ gz_lit s' = gz_lit s /\ gz_dist s' = gz_dist s.

(** What a call of [huff_block] has decoded: all of the block, or a part of it
    that ends between two symbols, where decoding cannot go on. *)
Definition huff_result (r : Z) (s' : gzip_dec_state) (pos : Z) (w : list Z) : Prop :=
  (exists e, symbol_at lit dist V pos SymEnd e /\ e <= 8 * zlen input /\ decode (gz_st s') = gz_after_block s /\
     r = NUM_DECODE_STATUS + e / 8 /\ gz_skip_bits s' = e mod 8) \/
  (decode (gz_st s') = decode (gz_st s) /\ gz_skip_bits s' = pos mod 8 /\
   exists code, stopped code pos w /\ r = if zlen w0 <? zlen w then NUM_DECODE_STATUS + pos / 8 else code).

Lemma huff_finish_ok s1 m b0 b o crc n pos w : hstate m b0 o crc n pos w ->
  out (gz_st s) = ws + zlen w0 ->
  window_start (gz_st s1) = ws -> out_end (gz_st s1) = oe -> out (gz_st s1) = out (gz_st s) ->
  gz_isize s1 = gz_isize s -> gz_last_block s1 = gz_last_block s -> gz_lit s1 = gz_lit s -> gz_dist s1 = gz_dist s ->
  huff_state_ok (huff_finish s1 b o crc) w.
Proof.
  intros [Hok Hi Hw -> Hroom Hf Hd Hb Hn Hfl Hp Hcrc Hs] H0 H1 H2 H3 H4 H5 H6 H7. unfold huff_finish.
  cbn [gz_set_skip gz_set_sums gz_set_st gz_st set_out window_start]. rewrite H1.
  replace (ws + zlen w - ws) with (zlen w) by lia.
  unfold huff_state_ok. destruct (32768 <? zlen w); cbn; rewrite ?H1, ?H2, ?H3, ?H4, ?H5, ?H6, ?H7, ?H0;
    (split_and!; try done; f_equal; lia).
Qed.

Lemma huff_finish_fields s1 b o crc :
  decode (gz_st (huff_finish s1 b o crc)) = decode (gz_st s1) /\
  gz_skip_bits (huff_finish s1 b o crc) = (8 - bs_num b) mod 8.
Proof. unfold huff_finish. cbv zeta. destruct (Z.ltb 32768 _); split; reflexivity. Qed.

Lemma huff_block_ok : mem_ok m0 -> bytes_at m0 in_ input -> bytes_at m0 ws w0 ->
  out (gz_st s) = ws + zlen w0 -> out (gz_st s) <= oe -> pos0 = gz_skip_bits s -> 0 <= pos0 < 8 ->
  exists r s' m', huff_block m0 s in_ end_ = Ok (r, s', m') /\ mem_safe m' /\
    (zlen input < 4 /\ r = DECODE_NEED_MORE_DATA /\ s' = s /\ m' = m0 \/ r = DECODE_ERR /\ s' = s /\ corrupt_data \/
     exists pos w, rtc (deflate_step lit dist V) (pos0, w0) (pos, w) /\ pos <= 8 * zlen input /\
       bytes_at m' ws w /\ huff_state_ok s' w /\ huff_result r s' pos w).
Proof.
  intros Hok Hi Hw Ho Hoe Hpos0 Hskip. unfold huff_block.
  assert (mem_safe m0) as Hsafe0 by (split_and!; [apply frame_refl | apply same_dom_refl | done]).
  destruct (Z.ltb_spec (end_ - in_) 4) as [H4 | H4]; unfold end_ in H4.
  { eexists _, _, _. split; [done |]. split; [done |]. left. split_and!; [lia | done | done | done]. }
  destruct (refill_loop_ok m0 in_ input Hok Hi 4 0 0 _ (binv_init in_ input) ltac:(cbn; lia))
    as (b & n & Hr & Hb & _ & _ & Hn). cbn [bs_num] in Hn. change ((32 - 0) / 8) with 4 in Hn.
  assert (n = 4%nat) as -> by lia. fold end_ in Hr. rewrite Hr. cbn [mbind res_bind].
  assert (bs_num b = 32) as H32 by (rewrite (bi_num _ _ _ _ _ Hb); lia).
  pose proof (binv_shift in_ input 4 0 b pos0 Hb ltac:(lia)) as Hb0. rewrite Hpos0 in Hb0 |- *.
  assert (hstate m0 (bs_shift b (gz_skip_bits s)) (out (gz_st s)) (gz_crc s) 4 pos0 w0) as Hh.
  { constructor; try done; try lia; [by rewrite Hpos0 | left; cbn [bs_shift bs_num]; rewrite u8_small; lia | by rewrite drop_all]. }
  destruct (huff_loop_ok (Z.to_nat (8 * (end_ - in_)) + 1) _ _ _ _ _ _ _ Hh) as (e & -> & He);
    [unfold end_; lia |].
  cbn [mbind res_bind]. destruct e as [code m' | code saved m' o crc | b1 m' o crc].
  - destruct He as (-> & Hs & Hc). eexists _, _, m'. split; [done |]. split; [done |]. right. by left.
  - destruct He as (n & pos & w & Hh' & Hstop). eexists _, _, m'. split; [done |].
    split; [by eapply hstate_safe |]. right. right. exists pos, w. pose proof (h_bits _ _ _ _ _ _ _ Hh') as Hb'.
    split_and!; [by rewrite <- Hpos0; apply (h_steps _ _ _ _ _ _ _ Hh') | destruct Hb'; lia
      | apply (h_win _ _ _ _ _ _ _ Hh') | by eapply huff_finish_ok |].
    right. destruct (bits_consumed_ok _ _ _ Hb') as [Hc Hs].
    pose proof (h_out _ _ _ _ _ _ _ Hh') as Ho'. rewrite Ho', Ho.
    destruct (huff_finish_fields s saved (ws + zlen w) crc) as [-> ->]. split_and!; [done | done |]. exists code. split; [done |].
    replace (ws + zlen w0 <? ws + zlen w) with (zlen w0 <? zlen w)
      by (destruct (Z.ltb_spec (zlen w0) (zlen w)), (Z.ltb_spec (ws + zlen w0) (ws + zlen w)); done || lia).
    destruct (zlen w0 <? zlen w); [by rewrite Hc | done].
  - destruct He as (b2 & n & pos & w & x & Hh' & Hb' & Hm). eexists _, _, m'. split; [done |].
    split; [by eapply hstate_safe |]. right. right. exists pos, w.
    split_and!; [by rewrite <- Hpos0; apply (h_steps _ _ _ _ _ _ _ Hh') | destruct (h_bits _ _ _ _ _ _ _ Hh'); lia
      | apply (h_win _ _ _ _ _ _ _ Hh') | by eapply huff_finish_ok |].
    left. exists (pos + x). destruct (bits_consumed_ok _ _ _ Hb') as [Hc Hs]. rewrite Hc.
    match goal with |- context [huff_finish ?s1 ?b ?o ?c] => destruct (huff_finish_fields s1 b o c) as [-> ->] end.
    split_and!; try done. destruct Hb'. lia.
Qed.
End HuffBlockOk.

(** ** Stored blocks *)
Lemma ones_complement a b : 0 <= a < 65536 -> 0 <= b < 65536 ->
  u16 (Z.lxor a (Z.lnot b)) = 0 <-> a + b = 65535.
Proof.
  intros Ha Hb.
  assert (Z.lxor a (Z.lnot b) = Z.lnot (Z.lxor a b)) as -> by (rewrite <- !Z.lxor_m1_r; by rewrite Z.lxor_assoc).
  pose proof (lxor_bound a b 16 ltac:(lia) Ha Hb) as Hx.
  assert (Z.lxor a b = 65535 <-> a + b = 65535) as <-.
  { split.
    - intros H. rewrite <- H. apply Z.add_nocarry_lxor. apply Z.bits_inj'; intros i Hi.
      rewrite Z.land_spec, Z.bits_0.
      assert (Z.testbit (Z.lxor a b) i = Z.testbit (Z.ones 16) i) as Hbit by (rewrite H; done).
      rewrite Z.lxor_spec, Z.testbit_ones_nonneg in Hbit by lia.
      destruct (Z.ltb_spec i 16); [by destruct (Z.testbit a i), (Z.testbit b i) |].
      rewrite (testbit_small a 16 i) by lia. done.
    - intros H. replace b with (Z.ones 16 - a) by (change (Z.ones 16) with 65535; lia).
      rewrite Z.sub_nocarry_ldiff.
      + apply Z.bits_inj'; intros i Hi. rewrite Z.lxor_spec, Z.ldiff_spec.
        change 65535 with (Z.ones 16). rewrite Z.testbit_ones_nonneg by lia.
        destruct (Z.ltb_spec i 16); [by destruct (Z.testbit a i) | by rewrite (testbit_small a 16 i) by lia].
      + apply Z.bits_inj'; intros i Hi. rewrite Z.ldiff_spec, Z.bits_0, Z.testbit_ones_nonneg by lia.
        destruct (Z.ltb_spec i 16); [apply andb_false_r | by rewrite (testbit_small a 16 i) by lia]. }
  unfold u16, Z.lnot. split; intros H.
  - set (x := Z.lxor a b) in *. clearbody x. dlia.
  - rewrite H. reflexivity.
Qed.

Lemma raw_copy_ok l m in_ o crc : mem_ok m -> bytes_at m in_ l -> accessible m o (zlen l) ->
  in_ + zlen l <= o \/ o + zlen l <= in_ ->
  exists m', raw_copy (length l) m crc_table in_ o crc = Ok (m', crc_feed crc32_poly crc l) /\
    bytes_at m' o l /\ frame m m' o (o + zlen l) /\ same_dom m m' /\ mem_ok m'.
Proof.
  revert m in_ o crc. induction l as [|c l IH]; intros m in_ o crc Hok Hat Hacc Hdj.
  - exists m. split_and!; [done | intros i Hi; simpl in Hi; lia | apply frame_refl | apply same_dom_refl | done].
  - apply bytes_at_cons in Hat as [Hc Hat]. simpl zlen in *. cbn [length raw_copy].
    assert (is_byte c) as Hcb by by apply (Hok _ _ Hc).
    rewrite (ld8_eq _ _ _ Hc). cbn [mbind res_bind]. rewrite st8_ok by (apply Hacc; lia). cbn [mbind res_bind].
    rewrite (u8_small c) by done. rewrite crc_update_ok by done. cbn [mbind res_bind].
    set (m1 := <[o := c]> m).
    assert (same_dom m m1) as Hd1.
    { intros y. subst m1. destruct (decide (y = o)) as [-> |]; [| by rewrite lookup_insert_ne].
      rewrite lookup_insert_eq. split; [eauto |]. intros _. apply Hacc. lia. }
    destruct (IH m1 (in_ + 1) (o + 1) (crc32_byte (Z.lxor crc c) crc32_poly)) as (m' & -> & Hat' & Hf & Hd & Hok').
    + intros y v. subst m1. rewrite lookup_insert. case_decide; [by intros [= <-] | apply Hok].
    + intros i Hi. subst m1. rewrite lookup_insert_ne by lia. by apply Hat.
    + eapply accessible_same_dom; [exact Hd1 |]. eapply accessible_sub; [exact Hacc | lia | lia].
    + lia.
    + exists m'. split_and!.
      * by rewrite crc_feed_cons.
      * apply bytes_at_cons. split; [| done]. rewrite Hf by lia. subst m1. by rewrite lookup_insert_eq.
      * intros y Hy. rewrite Hf by lia. subst m1. by rewrite lookup_insert_ne by lia.
      * by eapply same_dom_trans.
      * done.
Qed.

(** What one call of [raw_block] does on every branch. *)
Inductive raw_spec (s : gzip_dec_state) (w : list Z) : list Z -> Z -> gzip_dec_state -> list Z -> Prop :=
| raw_short input : zlen input < 4 -> raw_spec s w input DECODE_NEED_MORE_DATA s w
| raw_corrupt len nlen rest : length len = 2%nat -> length nlen = 2%nat ->
    le_val len + le_val nlen <> 65535 -> raw_spec s w (len ++ nlen ++ rest) DECODE_ERR s w
| raw_more_data len nlen rest : length len = 2%nat -> length nlen = 2%nat ->
    le_val len + le_val nlen = 65535 -> zlen rest < le_val len ->
    raw_spec s w (len ++ nlen ++ rest) DECODE_NEED_MORE_DATA s w
| raw_more_space len nlen rest : length len = 2%nat -> length nlen = 2%nat ->
    le_val len + le_val nlen = 65535 -> le_val len <= zlen rest ->
    out_end (gz_st s) - out (gz_st s) < le_val len ->
    raw_spec s w (len ++ nlen ++ rest) DECODE_NEED_MORE_SPACE s w
| raw_data len nlen data rest s' : length len = 2%nat -> length nlen = 2%nat ->
    le_val len + le_val nlen = 65535 -> zlen data = le_val len ->
    zlen data <= out_end (gz_st s) - out (gz_st s) ->
    s' = gz_set_sums (crc_feed crc32_poly (gz_crc s) data) (u32 (gz_isize s + zlen data))
           (gz_set_st (set_out (out (gz_st s) + zlen data) (set_decode (gz_after_block s) (gz_st s))) s) ->
    raw_spec s w (len ++ nlen ++ data ++ rest) (NUM_DECODE_STATUS + 4 + zlen data) s' (w ++ data).

(** The state between two calls: window, input and output do not overlap. *)
Record gz_ready (m : mem) (s : gzip_dec_state) (w : list Z) (in_ : Z) (input : list Z) : Prop := {
  gr_ok : mem_ok m;
  gr_in : bytes_at m in_ input;
  gr_win : bytes_at m (window_start (gz_st s)) w;
  gr_acc : accessible m (window_start (gz_st s)) (out_end (gz_st s) - window_start (gz_st s));
  gr_out : out (gz_st s) = window_start (gz_st s) + zlen w;
  gr_room : out (gz_st s) <= out_end (gz_st s);
  gr_disj : in_ + zlen input <= out (gz_st s) \/ out_end (gz_st s) <= in_;
  gr_crc : gz_crc_table s = crc_table;
}.

Lemma raw_block_ok m s w in_ input : gz_ready m s w in_ input ->
  exists r s' m' w', raw_block m s in_ (in_ + zlen input) = Ok (r, s', m') /\ raw_spec s w input r s' w' /\
    bytes_at m' (window_start (gz_st s)) w' /\ frame m m' (out (gz_st s)) (out_end (gz_st s)) /\
    same_dom m m' /\ mem_ok m'.
Proof.
  intros [Hok Hi Hw Hacc Ho Hroom Hdj Hct]. unfold raw_block.
  assert (forall r, raw_spec s w input r s w -> exists r' s' m' w', Ok (r, s, m) = Ok (r', s', m') /\
    raw_spec s w input r' s' w' /\ bytes_at m' (window_start (gz_st s)) w' /\
    frame m m' (out (gz_st s)) (out_end (gz_st s)) /\ same_dom m m' /\ mem_ok m') as Hstop
    by (intros r Hr; exists r, s, m, w; split_and!; done).
  destruct (Z.ltb_spec (in_ + zlen input - in_) 4); [apply Hstop, raw_short; lia |].
  rewrite <- (take_drop 2 input) in Hi, Hdj, Hstop |- *. set (len := take 2 input) in *.
  rewrite <- (take_drop 2 (drop 2 input)) in Hi, Hdj, Hstop |- *. set (nlen := take 2 (drop 2 input)) in *.
  set (rest := drop 2 (drop 2 input)) in *.
  assert (length len = 2%nat) as Hl1 by (subst len; rewrite length_take; lia).
  assert (length nlen = 2%nat) as Hl2 by (subst nlen; rewrite length_take, length_drop; lia).
  clearbody len nlen rest.
  apply bytes_at_app in Hi as [Hi1 Hi]. apply bytes_at_app in Hi as [Hi2 Hi3]. rewrite !length_app, Hl1, Hl2 in *.
  change (Z.of_nat 2) with 2 in *.
  rewrite (ld16le_ok m in_ len), (ld16le_ok m (in_ + 2) nlen) by done. cbn [mbind res_bind].
  pose proof (le_val_bound len (bytes_at_is_byte _ _ _ Hok Hi1)) as Hv1.
  pose proof (le_val_bound nlen (bytes_at_is_byte _ _ _ Hok Hi2)) as Hv2. rewrite Hl1 in Hv1. rewrite Hl2 in Hv2.
  change (2 ^ (8 * 2)) with 65536 in *. change (2 ^ (8 * Z.of_nat 2)) with 65536 in *.
  pose proof (ones_complement (le_val len) (le_val nlen) Hv1 Hv2) as Hcompl.
  destruct (Z.eqb_spec (u16 (Z.lxor (le_val len) (Z.lnot (le_val nlen)))) 0) as [Hz | Hz]; cbn [negb].
  2: { apply Hstop, raw_corrupt; [done | done | by rewrite <- Hcompl]. }
  apply Hcompl in Hz.
  match goal with |- context [?a <? le_val len] => destruct (Z.ltb_spec a (le_val len)) end.
  { apply Hstop, raw_more_data; [done | done | done | lia]. }
  destruct (Z.ltb_spec (out_end (gz_st s) - out (gz_st s)) (le_val len)).
  { apply Hstop, raw_more_space; [done | done | done | lia | done]. }
  set (data := take (Z.to_nat (le_val len)) rest). assert (zlen data = le_val len) as Hdl by (subst data; rewrite length_take; lia).
  assert (bytes_at m (in_ + 4) data) as Hid.
  { rewrite <- (take_drop (Z.to_nat (le_val len)) rest) in Hi3. apply bytes_at_app in Hi3 as [Hi3 _].
    by replace (in_ + 4) with (in_ + 2 + 2) by lia. }
  destruct (raw_copy_ok data m (in_ + 4) (out (gz_st s)) (gz_crc s) Hok Hid) as (m' & Hm' & Hat' & Hf & Hd & Hok').
  { eapply accessible_sub; [exact Hacc | lia | lia]. }
  { lia. }
  rewrite Hct. replace (Z.to_nat (le_val len)) with (length data) by lia. rewrite Hm'. cbn [mbind res_bind].
  eexists _, _, m', (w ++ data). split; [done |]. rewrite <- Hdl. split_and!.
  - rewrite <- (take_drop (Z.to_nat (le_val len)) rest). by apply raw_data; [| | | | lia |].
  - apply bytes_at_app. split; [eapply bytes_at_frame; [exact Hf | done | lia] | by rewrite <- Ho].
  - eapply frame_weaken; [exact Hf | lia | lia].
  - done.
  - done.
Qed.

(** ** The fixed code *)
Definition fixed_lengths : list Z := replicate 144 8 ++ replicate 112 9 ++ replicate 24 7 ++ replicate 8 8.

(** The table entry that RFC 1951 asks for: the symbol whose code starts the
    index, and 10 (a 10-bit code for symbol 0) for the reserved symbols 286 and
    287, as [construct_dectable] marks unassigned codes. *)
Fixpoint fixed_search (sym : Z) (lengths codes : list Z) (i : Z) : Z :=
  match lengths, codes with
  | len :: lengths, code :: codes =>
      if i mod 2 ^ len =? code then (if sym <? 286 then len + 16 * sym else 10)
      else fixed_search (sym + 1) lengths codes i
  | _, _ => 10
  end.

Definition fixed_reference (i : Z) : Z :=
  match construct_codes 288 fixed_lengths (replicate 288 0) with
  | Ok codes => fixed_search 0 fixed_lengths codes i
  | Trap _ => -1
  end.

Definition fixed_wrong : list Z := [0x5f; 0x17f; 0x18b; 0x18f].

Definition fixed_check (t codes : list Z) : bool :=
  forallb (fun i => match t !! Z.to_nat i with
                    | Some v => Bool.eqb (v =? fixed_search 0 fixed_lengths codes i)
                                  (negb (existsb (Z.eqb (bitrev 9 i)) fixed_wrong))
                    | None => false
                    end) (range 0 2048).

Lemma fixed_check_ok :
  match fixed_lit_table (replicate 2048 0), construct_codes 288 fixed_lengths (replicate 288 0) with
  | Ok t, Ok codes => fixed_check t codes
  | _, _ => false
  end = true.
Proof. vm_compute. reflexivity. Qed.

(** ** Examples for the witnesses *)
Definition gz_ex_lit : list Z := replicate 255 8 ++ [9; 9] ++ replicate 29 0.
Definition gz_ex_dist : list Z := [1; 1] ++ replicate 28 0.

Definition no_tables : huff_tables :=
  {| ht_lengths := []; ht_codes := []; ht_overlength := []; ht_oloff := []; ht_dectable := [] |}.
Definition fresh_tables (lengths : list Z) : huff_tables :=
  {| ht_lengths := lengths; ht_codes := replicate (length lengths) 0; ht_overlength := replicate (length lengths) 0;
     ht_oloff := replicate 5 0; ht_dectable := replicate 2048 0 |}.
Definition tables_of (lengths : list Z) : huff_tables :=
  match build_tables (zlen lengths) (fresh_tables lengths) with Ok t => t | Trap _ => no_tables end.

Definition gz_ex_state (lit dist : huff_tables) (skip : Z) : gzip_dec_state :=
  {| gz_st := {| decode := Some GzHuffBlock; window_start := 0; out := 0; out_end := 64 |};
     gz_crc_table := crc_table; gz_crc := 0xffffffff; gz_isize := 0; gz_skip_bits := skip; gz_last_block := true;
     gz_lit := lit; gz_dist := dist; gz_lit_base := base_table 11 lit_extra;
     gz_dist_base := base_table 5 dist_extra |}.

(** Tables built from complete lengths are an alphabet. *)
Lemma build_tables_alphabet t n : valid_lengths (ht_lengths t) -> kraft (ht_lengths t) = 2 ^ 15 ->
  zlen (ht_lengths t) = n -> n <= 512 -> length (ht_codes t) = length (ht_lengths t) ->
  length (ht_overlength t) = length (ht_lengths t) -> length (ht_oloff t) = 5%nat ->
  length (ht_dectable t) = 2048%nat ->
  exists t', build_tables n t = Ok t' /\ alphabet n t' /\ ht_lengths t' = ht_lengths t.
Proof.
  intros Hv Hk Hn Hs Hc Hov Hof Hd. unfold build_tables. rewrite <- Hn.
  pose proof (construct_codes_ok (ht_lengths t) (ht_codes t) Hv Hc ltac:(lia)) as H.
  assert ((kraft (ht_lengths t) <=? 2 ^ 15) = true) as Hle by zb. rewrite Hle in H.
  destruct H as (codes & -> & Hlen & Hval). cbn [mbind res_bind].
  destruct (construct_dectable_ok (ht_lengths t) codes Hv ltac:(lia) ltac:(done) ltac:(lia)
    (ht_dectable t) (ht_oloff t) (ht_overlength t) Hd Hof Hov) as (t' & o & sy & -> & Htab).
  cbn [mbind res_bind]. eexists. split; [done |]. split; [by constructor | done].
Qed.

Lemma tables_of_alphabet lengths : valid_lengths lengths -> kraft lengths = 2 ^ 15 -> zlen lengths <= 512 ->
  alphabet (zlen lengths) (tables_of lengths).
Proof.
  intros Hv Hk Hs. destruct (build_tables_alphabet (fresh_tables lengths) (zlen lengths)) as (t & Ht & Ha & _);
    try done; cbn; try by rewrite length_replicate.
  unfold tables_of. by rewrite Ht.
Qed.

Lemma gz_ex_lit_alphabet : alphabet 286 (tables_of gz_ex_lit).
Proof.
  apply (tables_of_alphabet gz_ex_lit); [| vm_compute; reflexivity | vm_compute; discriminate].
  apply Forall_app; split; [apply Forall_replicate; lia |].
  apply Forall_app; split; [repeat constructor; lia | apply Forall_replicate; lia].
Qed.

Lemma gz_ex_dist_alphabet : alphabet 30 (tables_of gz_ex_dist).
Proof.
  apply (tables_of_alphabet gz_ex_dist); [| vm_compute; reflexivity | vm_compute; discriminate].
  apply Forall_app; split; [repeat constructor; lia | apply Forall_replicate; lia].
Qed.

(** ** Main results *)

(** refilling the bit container with one unaligned 32-bit load, as on
    AArch64, gives exactly the container of the portable byte loop, at every
    position of the stream and also at its end; both leave at least 25 bits or
    all the bits that remain. *)
Theorem refill_equivalent m in_ input n pos b : mem_ok m -> bytes_at m in_ input ->
  binv in_ input n pos b -> (4 <= n)%nat ->
  exists b', refill m (in_ + zlen input) b = Ok b' /\ refill_loop 4 m (in_ + zlen input) b = Ok b' /\
    (25 <= bs_num b' \/ bs_ptr b' = in_ + zlen input) /\
    bs_bits b' = Z.shiftr (le_val input) pos mod 2 ^ bs_num b'.
Proof.
  intros Hok Hat Hb Hn.
  destruct (refill_ok m in_ input Hok Hat n pos b Hb Hn) as (b' & n' & Hr & Hb' & _ & Hfull & Hn').
  pose proof Hb as [_ _ Hnum Hpos _ _].
  destruct (refill_loop_ok m in_ input Hok Hat 4 n pos b Hb ltac:(lia)) as (b2 & n2 & Hr2 & Hb2 & _ & _ & Hn2).
  assert (n2 = n') as -> by lia. rewrite (binv_unique in_ input n' pos b2 b' Hb2 Hb') in Hr2.
  exists b'. split_and!; [done | done | | by eapply container_stream].
  destruct Hfull as [| ->]; [by left | right]. apply (bi_ptr _ _ _ _ _ Hb').
Qed.

Lemma refill_equivalent_witness :
  let input := [1; 2; 3; 4; 5; 6; 7; 8] in
  let b := {| bs_ptr := 104; bs_bits := 0x40; bs_num := 12 |} in
  exists b', refill (mem_of 100 input) (100 + zlen input) b = Ok b' /\
    refill_loop 4 (mem_of 100 input) (100 + zlen input) b = Ok b' /\
    (25 <= bs_num b' \/ bs_ptr b' = 100 + zlen input) /\
    bs_bits b' = Z.shiftr (le_val input) 20 mod 2 ^ bs_num b'.
Proof.
  intros input b. apply (refill_equivalent (mem_of 100 input) 100 input 4 20 b).
  - apply mem_of_ok. repeat constructor; unfold is_byte; lia.
  - apply mem_of_bytes_at.
  - constructor; cbn; lia || reflexivity.
  - lia.
Defined.

(** [raw_block] implements stored blocks on every branch: it detects a
    corrupt length, asks for more input or output space without touching
    anything, and otherwise appends exactly the stored bytes to the window,
    advances the checksum and the size by them and selects the next decode
    function; it writes only between [out] and the end of what it copies. *)
Theorem raw_block_correct m s w in_ input : gz_ready m s w in_ input ->
  exists r s' m' w', raw_block m s in_ (in_ + zlen input) = Ok (r, s', m') /\ raw_spec s w input r s' w' /\
    bytes_at m' (window_start (gz_st s)) w' /\ frame m m' (out (gz_st s)) (out_end (gz_st s)) /\
    same_dom m m' /\ mem_ok m'.
Proof. apply raw_block_ok. Qed.

Definition raw_ex : list Z := [3; 0; 0xfc; 0xff; 10; 20; 30; 99].

Lemma raw_block_correct_witness :
  let s := gz_ex_state no_tables no_tables 0 in let m := lz_layout 64 [] raw_ex in
  exists r s' m' w', raw_block m s 72 (72 + zlen raw_ex) = Ok (r, s', m') /\ raw_spec s [] raw_ex r s' w' /\
    bytes_at m' (window_start (gz_st s)) w' /\ frame m m' (out (gz_st s)) (out_end (gz_st s)) /\
    same_dom m m' /\ mem_ok m'.
Proof.
  intros s m. apply (raw_block_correct m s [] 72 raw_ex).
  destruct (lz_layout_inv 64 [] raw_ex) as [Hok Hw Hi Haw Hai Hd Hp Ho Ht];
    [constructor | repeat constructor; unfold is_byte; lia | simpl; lia | simpl; lia |].
  constructor; cbn; try done; try lia. by apply (accessible_sub _ _ _ 0 64 Haw).
Defined.

(** C4: [huff_block] decodes DEFLATE.  With the tables of two complete codes, one for
    286 literals and lengths and one for 30 distances, and any input, it terminates
    without a trap, reads nothing but the input and the window and writes nothing but
    the output space.  It reports corrupt data only if decoding by RFC 1951 gets to a
    match from before the output or to the length 258 with symbol 284; otherwise the
    output it has produced is the sequence of literals and matches that RFC 1951
    assigns to the bits consumed so far, up to the end of the block or to a symbol that
    is not wholly in the input or whose bytes do not fit the output space; the result
    tells which if nothing was added.  The checksum and the size follow the output, and
    the position (bytes consumed and bits to skip) is the one behind the last decoded
    symbol, so that the call can be continued.  Inputs of less than four bytes are not
    looked at. *)
Theorem huff_block_correct m s w in_ input :
  alphabet 286 (gz_lit s) -> alphabet 30 (gz_dist s) ->
  gz_lit_base s = base_table 11 lit_extra -> gz_dist_base s = base_table 5 dist_extra ->
  gz_ready m s w in_ input -> 0 <= gz_skip_bits s < 8 ->
  exists r s' m', huff_block m s in_ (in_ + zlen input) = Ok (r, s', m') /\
    (frame m m' (window_start (gz_st s) + zlen w) (out_end (gz_st s)) /\ same_dom m m' /\ mem_ok m') /\
    (zlen input < 4 /\ r = DECODE_NEED_MORE_DATA /\ s' = s /\ m' = m \/
     r = DECODE_ERR /\ s' = s /\ corrupt_data s input w (gz_skip_bits s) \/
     exists pos w',
       rtc (deflate_step (ht_lengths (gz_lit s)) (ht_lengths (gz_dist s)) (le_val input))
         (gz_skip_bits s, w) (pos, w') /\ pos <= 8 * zlen input /\
       bytes_at m' (window_start (gz_st s)) w' /\ huff_state_ok s w s' w' /\ huff_result s input w r s' pos w').
Proof.
  intros Hl Hd Hlb Hdb [Hok Hi Hw Hacc Ho Hroom Hdj Hct] Hskip.
  apply (huff_block_ok s in_ input Hl Hd Hlb Hdb Hct m w (gz_skip_bits s)); try done. by rewrite <- Ho.
Qed.

(** A block with the literals 1 and 2 and the end mark. *)
Definition huff_ex_input : list Z := [0x80; 0x40; 0xff; 0x01; 0; 0; 0; 0].

Lemma huff_block_correct_witness :
  let m := lz_layout 64 [] huff_ex_input in
  let s := gz_ex_state (tables_of gz_ex_lit) (tables_of gz_ex_dist) 0 in
  exists r s' m', huff_block m s 72 (72 + zlen huff_ex_input) = Ok (r, s', m') /\
    (frame m m' (window_start (gz_st s) + zlen (@nil Z)) (out_end (gz_st s)) /\ same_dom m m' /\ mem_ok m') /\
    exists pos w',
       rtc (deflate_step (ht_lengths (gz_lit s)) (ht_lengths (gz_dist s)) (le_val huff_ex_input))
         (gz_skip_bits s, []) (pos, w') /\ pos <= 8 * zlen huff_ex_input /\
       bytes_at m' (window_start (gz_st s)) w' /\ huff_state_ok s [] s' w' /\
       huff_result s huff_ex_input [] r s' pos w'.
Proof.
  intros m s. destruct (huff_block_correct m s [] 72 huff_ex_input) as (r & s' & m' & Hr & Hm & Hres);
    [exact gz_ex_lit_alphabet | exact gz_ex_dist_alphabet | reflexivity | reflexivity | | cbn; lia |].
  - destruct (lz_layout_inv 64 [] huff_ex_input) as [Hok Hw Hi Haw Hai Hd Hp Ho Ht];
      [constructor | repeat constructor; unfold is_byte; lia | simpl; lia | simpl; lia |].
    constructor; cbn; try done; try lia. by apply (accessible_sub _ _ _ 0 64 Haw).
  - assert (match huff_block m s 72 (72 + zlen huff_ex_input) with Ok (r, _, _) => r =? NUM_DECODE_STATUS + 3 | Trap _ => false end = true) as Hc by (vm_compute; reflexivity).
    exists r, s', m'. split; [exact Hr |]. split; [exact Hm |]. rewrite Hr in Hc. apply Z.eqb_eq in Hc. destruct Hres as [(Hlen & _) | [(Herr & _) | Hres]]; [cbn in Hlen; lia | rewrite Hc in Herr; discriminate Herr | exact Hres].
Defined.

(** the table of the fixed code differs from RFC 1951 at exactly the
    indices whose reversed nine bits are 0x5f, 0x17f, 0x18b or 0x18f, because
    four comparisons in its construction are off by one.  Everywhere else
    the entries are those of the canonical fixed code. *)
Theorem fixed_table_divergence :
  exists t, fixed_lit_table (replicate 2048 0) = Ok t /\
    forall i, 0 <= i < 2048 ->
      (geti t i = Ok (fixed_reference i) <-> ~ In (bitrev 9 i) fixed_wrong).
Proof.
  pose proof fixed_check_ok as Hc. unfold fixed_reference.
  destruct (fixed_lit_table (replicate 2048 0)) as [t|]; [| done].
  destruct (construct_codes 288 fixed_lengths (replicate 288 0)) as [codes|]; [| done].
  exists t. split; [done |]. intros i Hi. unfold fixed_check in Hc. rewrite forallb_forall in Hc.
  specialize (Hc i). unfold range in Hc. rewrite <- list_elem_of_In, elem_of_seqZ in Hc.
  specialize (Hc ltac:(lia)). destruct (t !! Z.to_nat i) as [v|] eqn:Hv; [| done].
  rewrite (geti_ok t i v) by (done || lia). apply Bool.eqb_prop in Hc.
  assert (existsb (Z.eqb (bitrev 9 i)) fixed_wrong = true <-> In (bitrev 9 i) fixed_wrong) as Hex.
  { rewrite existsb_exists. split.
    - intros (x & Hx & He%Z.eqb_eq). by rewrite He.
    - intros Hx. exists (bitrev 9 i). by rewrite Z.eqb_refl. }
  rewrite <- Hex. destruct (existsb _ _); destruct (Z.eqb_spec v (fixed_search 0 fixed_lengths codes i)) as [-> | Hne];
    try done; split; intros H; done || congruence.
Qed.

(** The five bytes are a valid DEFLATE stream: the literal 97 and a match of
    length 102 at distance 1. *)
Definition length_279_stream : list Z := [75; 164; 15; 0; 0].

(** consequence of the divergence.  On the valid stream
    [length_279_stream] (a fixed block whose length symbol 279 is followed by
    two one bits), [block_start] succeeds and [huff_block] then indexes
    [lit_extra], an array of 21 elements, at 3830. *)
Theorem fixed_279_out_of_bounds :
  let m := lz_layout 200 [] length_279_stream in
  let s := gz_ex_state (fresh_tables (replicate 286 0)) (fresh_tables (replicate 30 0)) 0 in
  match block_start m s 208 213 with
  | Ok (r, s', m') => r = NUM_DECODE_STATUS /\ gz_skip_bits s' = 3 /\ huff_block m' s' 208 213 = Trap (TrapOob 3830)
  | Trap _ => False
  end.
Proof. vm_compute. done. Qed.
