(* ===== verification/Sched.v ===== *)
(** * Run queues and wait lists ([src/lib/sched.c], [src/include/runqueue.h])

    Runnables are linked through their [next] pointers.  A [sched_runnable_list]
    is a lock-free stack that any context may push to; a [sched_runqueue] owns
    such a stack of fresh entries and a private queue that the fresh entries
    are moved to, in reverse order, when a runnable is taken.  The heap of
    [next] pointers is explicit, since the queue works on shared nodes. *)
From stdpp Require Export zmap relations fin_map_dom mapset.
From S2P Require Export Prelude.

(** The [next] pointer of every runnable; 0 is the null pointer. *)
Abbreviation heap := (Zmap Z).

Definition next_of (h : heap) (p : Z) : res Z :=
  match h !! p with Some n => Ok n | None => Trap (TrapOob p) end.

Definition set_next (h : heap) (p v : Z) : res heap :=
  match h !! p with Some _ => Ok (<[p := v]> h) | None => Trap (TrapOob p) end.

(** What [tail] points to: nothing, [&rq->head], or the [next] of a runnable. *)
Inductive slot : Set := SlotNull | SlotHead | SlotNext (p : Z).

Record sched_runqueue : Type := { fresh : Z; head : Z; tail : slot }.

(** ** Operations, run without interference *)

(** The loop of [sched_queue_many] when its compare-exchange succeeds: returns
    the heap and the new head of the list. *)
Definition sched_queue_many (h : heap) (list_head first last : Z) : res (heap * Z) :=
  let next := list_head in
  h ← set_next h last next;
  Ok (h, first).

Definition sched_queue_single (h : heap) (list_head runnable : Z) : res (heap * Z) :=
  sched_queue_many h list_head runnable runnable.

(** [while (last->next) {last = last->next;}] *)
Fixpoint find_last (fuel : nat) (h : heap) (last : Z) : res Z :=
  match fuel with
  | O => Trap TrapFuel
  | S fuel => n ← next_of h last; if n =? 0 then Ok last else find_last fuel h n
  end.

(** Returns [(heap, dest, src)]. *)
Definition sched_queue_list (h : heap) (dest src : Z) : res (heap * Z * Z) :=
  let head := src in
  let src := 0 in
  if head =? 0 then Ok (h, dest, src)
  else
  last ← find_last (size h) h head;
  '(h, dest) ← sched_queue_many h dest head last;
  Ok (h, dest, src).

(** [do {tmp = fresh->next; fresh->next = next; next = fresh; fresh = tmp;} while (fresh);] *)
Fixpoint reverse_fresh (fuel : nat) (h : heap) (fresh next : Z) : res (heap * Z) :=
  match fuel with
  | O => Trap TrapFuel
  | S fuel =>
      tmp ← next_of h fresh;
      h ← set_next h fresh next;
      if tmp =? 0 then Ok (h, fresh) else reverse_fresh fuel h tmp fresh
  end.

(** [*old_tail = next] *)
Definition store_slot (h : heap) (rq : sched_runqueue) (s : slot) (v : Z) : res (heap * sched_runqueue) :=
  match s with
  | SlotNull => Trap (TrapOob 0)
  | SlotHead => Ok (h, {| fresh := fresh rq; head := v; tail := tail rq |})
  | SlotNext p => h ← set_next h p v; Ok (h, rq)
  end.

(** The first half of [sched_unqueue]: moves the fresh entries to the queue. *)
Definition absorb_fresh (h : heap) (rq : sched_runqueue) : res (heap * sched_runqueue) :=
  let f := fresh rq in
  let rq := {| fresh := 0; head := head rq; tail := tail rq |} in
  if f =? 0 then Ok (h, rq)
  else
  let old_tail := match tail rq with SlotNull => SlotHead | t => t end in
  let rq := {| fresh := 0; head := head rq; tail := SlotNext f |} in
  '(h, next) ← reverse_fresh (size h) h f 0;
  store_slot h rq old_tail next.

(** Returns the runnable (0 for none), the heap and the queue. *)
Definition sched_unqueue (h : heap) (rq : sched_runqueue) : res (Z * heap * sched_runqueue) :=
  '(h, rq) ← absorb_fresh h rq;
  let r := head rq in
  if r =? 0 then Ok (0, h, rq)
  else
  n ← next_of h r;
  Ok (r, h, {| fresh := fresh rq; head := n; tail := if n =? 0 then SlotHead else tail rq |}).

(** ** Linked lists in the heap *)
Fixpoint lseg (h : heap) (p : Z) (l : list Z) (q : Z) : Prop :=
  match l with
  | [] => p = q
  | x :: l => p = x /\ x <> 0 /\ exists n, h !! x = Some n /\ lseg h n l q
  end.

Abbreviation chain h p l := (lseg h p l 0).

(** A segment only depends on the runnables in it. *)
Lemma lseg_mono h h' p l q : lseg h p l q -> (forall y, y ∈ l -> h' !! y = h !! y) -> lseg h' p l q.
Proof.
  revert p. induction l as [|y l IH]; intros p; [done |]. simpl. intros (-> & Hy & n & Hn & Hl) Hm.
  split_and!; [done | done |]. exists n. rewrite Hm by constructor. split; [done |].
  apply IH; [done |]. intros z Hz. apply Hm. by constructor.
Qed.

Lemma lseg_frame h p l q x v : lseg h p l q -> x ∉ l -> lseg (<[x := v]> h) p l q.
Proof. intros Hl Hx. apply lseg_mono with h; [done |]. intros y Hy. rewrite lookup_insert_ne; [done | by intros ->]. Qed.

Lemma lseg_app h p l1 l2 q : lseg h p (l1 ++ l2) q <-> exists r, lseg h p l1 r /\ lseg h r l2 q.
Proof.
  revert p. induction l1 as [|x l1 IH]; intros p; simpl.
  - split; [eauto | by intros (? & -> & ?)].
  - split.
    + intros (-> & Hx & n & Hn & (r & H1 & H2)%IH). eauto 10.
    + intros (r & (-> & Hx & n & Hn & H1) & H2). split_and!; [done | done |]. exists n.
      split; [done |]. apply IH. eauto.
Qed.

Lemma chain_last h p l x : chain h p (l ++ [x]) -> h !! x = Some 0 /\ x <> 0.
Proof. intros (r & _ & (-> & Hx & n & Hn & Hq))%lseg_app. simpl in Hq. by subst. Qed.

(** Redirecting the last [next] of a list. *)
Lemma lseg_relink h p l x q r : lseg h p (l ++ [x]) q -> NoDup (l ++ [x]) ->
  lseg (<[x := r]> h) p (l ++ [x]) r.
Proof.
  intros (y & H1 & (-> & Hx & n & Hn & _))%lseg_app Hnd.
  apply list.NoDup_app in Hnd as (_ & Hni & _). apply lseg_app. exists x. split.
  - apply lseg_frame; [done |]. intros Hin. apply (Hni x Hin). by constructor.
  - simpl. split_and!; [done | done |]. exists r. by rewrite lookup_insert_eq.
Qed.

Lemma chain_nil h p l : chain h p l -> (p =? 0) = bool_decide (l = []).
Proof.
  destruct l as [|x l]; cbn [lseg].
  - intros ->. done.
  - intros (-> & Hx & _). rewrite bool_decide_eq_false_2 by done. by apply Z.eqb_neq.
Qed.

Lemma chain_size h p l : chain h p l -> NoDup l -> (length l <= size h)%nat.
Proof.
  intros Hc Hnd.
  assert ((list_to_set l : Zset) ⊆ dom h) as Hsub.
  { intros x Hx%elem_of_list_to_set. revert p Hc. induction l as [|y l IH]; intros p; [by apply not_elem_of_nil in Hx |].
    simpl. intros (-> & Hy & n & Hn & Hl). apply elem_of_cons in Hx as [-> | Hx]; [by apply elem_of_dom |].
    apply list.NoDup_cons in Hnd as [_ Hnd]. by eapply IH. }
  apply subseteq_size in Hsub. rewrite size_list_to_set, size_dom in Hsub by done. done.
Qed.

Lemma find_last_ok h l x p fuel : chain h p (l ++ [x]) -> (length l < fuel)%nat -> find_last fuel h p = Ok x.
Proof.
  revert p fuel. induction l as [|y l IH]; intros p [|fuel] Hc Hf; simpl in Hf; try lia; cbn [find_last].
  - destruct Hc as (-> & Hx & n & Hn & Hq). simpl in Hq. subst n. unfold next_of. rewrite Hn. done.
  - destruct Hc as (-> & Hy & n & Hn & Hl). unfold next_of. rewrite Hn. simpl.
    rewrite (chain_nil h n (l ++ [x])) by done. rewrite bool_decide_eq_false_2 by by destruct l.
    apply IH; [done | lia].
Qed.

Lemma reverse_fresh_ok h l acc x next fuel : chain h x l -> chain h next acc -> l <> [] ->
  NoDup (l ++ acc) -> (length l <= fuel)%nat ->
  exists h' p, reverse_fresh fuel h x next = Ok (h', p) /\ chain h' p (reverse l ++ acc) /\
    (forall y, y ∉ l -> h' !! y = h !! y) /\ dom h' = dom h.
Proof.
  revert h x next acc fuel. induction l as [|y l IH]; intros h x next acc [|fuel] Hx Hn Hne Hnd Hf;
    simpl in Hf; try done; try lia.
  destruct Hx as (-> & Hy & n & Hyn & Hl). cbn [reverse_fresh]. unfold next_of, set_next. rewrite Hyn. simpl.
  set (h1 := <[y := next]> h). apply list.NoDup_cons in Hnd as [Hni Hnd]. rewrite not_elem_of_app in Hni.
  assert (chain h1 y (y :: acc)) as Hacc.
  { simpl. split_and!; [done | done |]. exists next. subst h1. rewrite lookup_insert_eq. split; [done |].
    apply lseg_frame; [done | by destruct Hni]. }
  assert (chain h1 n l) as Hl1 by (apply lseg_frame; [done | by destruct Hni]).
  assert (dom h1 = dom h) as Hdom1.
  { subst h1. apply dom_insert_lookup_L. eauto. }
  destruct (decide (l = [])) as [-> | Hne'].
  - simpl in Hl. subst n. exists h1, y. split_and!; [done | done | | done].
    intros z Hz. subst h1. apply not_elem_of_cons in Hz as [Hz _]. by rewrite lookup_insert_ne.
  - rewrite (chain_nil h n l) by done. rewrite bool_decide_eq_false_2 by done.
    destruct (IH h1 n y (y :: acc) fuel Hl1 Hacc Hne') as (h' & p & Hr & Hc & Hfr & Hdom).
    { rewrite <- Permutation_middle. apply list.NoDup_cons. split; [by rewrite not_elem_of_app | done]. }
    { lia. }
    exists h', p. rewrite reverse_cons, <- (assoc_L (++)). split_and!; [done | done | | congruence].
    intros z [Hz1 Hz2]%not_elem_of_cons. rewrite Hfr by done. subst h1. by rewrite lookup_insert_ne.
Qed.

(** ** The abstract queue

    [q] is the private queue in order, [f] the fresh entries, newest first. *)
Record rq_rep (h : heap) (rq : sched_runqueue) (q f : list Z) : Prop := {
  rep_queue : chain h (head rq) q;
  rep_fresh : chain h (fresh rq) f;
  rep_nodup : NoDup (q ++ f);
  rep_tail : match list.last q with None => tail rq = SlotNull \/ tail rq = SlotHead | Some x => tail rq = SlotNext x end;
}.

(** The order in which the runnables will run. *)
Definition rq_order (q f : list Z) : list Z := q ++ reverse f.

Lemma absorb_fresh_ok h rq q f : rq_rep h rq q f ->
  exists h' rq', absorb_fresh h rq = Ok (h', rq') /\ rq_rep h' rq' (rq_order q f) [] /\ dom h' = dom h /\
    (forall y, y ∉ q ++ f -> h' !! y = h !! y).
Proof.
  intros [Hq Hf Hnd Ht]. unfold absorb_fresh, rq_order. rewrite (chain_nil _ _ f Hf).
  destruct (decide (f = [])) as [-> | Hne]; [rewrite bool_decide_eq_true_2 by done | rewrite bool_decide_eq_false_2 by done].
  { eexists _, _. split; [done |]. rewrite reverse_nil, app_nil_r in *. split; [| done].
    constructor; [done | done | by rewrite app_nil_r | done]. }
  apply list.NoDup_app in Hnd as (Hndq & Hdj & Hndf).
  destruct (reverse_fresh_ok h f [] (fresh rq) 0 (size h)) as (h1 & p & Hr & Hc & Hfr & Hdom);
    [done | done | done | by rewrite app_nil_r | by eapply chain_size |].
  rewrite app_nil_r in Hc. cbn [tail fresh head]. rewrite Hr. cbn [mbind res_bind].
  destruct f as [|z f]; [done |]. destruct Hf as (Hz & Hz0 & _). rewrite reverse_cons in *.
  assert (NoDup (q ++ reverse f ++ [z])) as Hnd'.
  { rewrite <- reverse_cons, reverse_Permutation. by apply list.NoDup_app. }
  destruct q as [|x q _] using rev_ind.
  - simpl in Ht. replace (match tail rq with SlotNull => SlotHead | t => t end) with SlotHead by by destruct Ht as [-> | ->].
    eexists _, _. split; [done |]. split_and!; [| done | intros y Hy; by apply Hfr].
    constructor; cbn; [done | done | by rewrite app_nil_r | by rewrite last_snoc, Hz].
  - rewrite last_snoc in Ht. rewrite Ht. cbn [store_slot]. unfold set_next.
    assert (x ∉ z :: f) as Hxf by (apply Hdj; rewrite elem_of_app; right; by constructor).
    destruct (chain_last _ _ _ _ Hq) as [Hx0 Hxn]. rewrite Hfr, Hx0 by done. cbn [mbind res_bind].
    eexists _, _. split; [done |]. split_and!.
    + constructor; cbn; [| done | by rewrite app_nil_r | by rewrite (assoc_L (++)), last_snoc, Hz].
      apply lseg_app. exists p. split.
      * apply lseg_relink with 0; [| done]. apply lseg_mono with h; [done |]. intros y Hy. apply Hfr. by apply Hdj.
      * apply lseg_frame; [done |]. rewrite <- reverse_cons, elem_of_reverse. done.
    + rewrite dom_insert_lookup_L; [done |]. rewrite Hfr by done. eauto.
    + intros y Hy. rewrite !not_elem_of_app, list_elem_of_singleton in Hy.
      rewrite lookup_insert_ne by (intros <-; tauto). apply Hfr. tauto.
Qed.

(** [sched_unqueue] takes the runnable that has waited longest. *)
Lemma sched_unqueue_ok h rq q f : rq_rep h rq q f ->
  exists r h' rq', sched_unqueue h rq = Ok (r, h', rq') /\ dom h' = dom h /\
    (forall y, y ∉ q ++ f -> h' !! y = h !! y) /\
    match rq_order q f with
    | [] => r = 0 /\ rq_rep h' rq' [] []
    | x :: rest => r = x /\ x <> 0 /\ rq_rep h' rq' rest []
    end.
Proof.
  intros Hrep. unfold sched_unqueue.
  destruct (absorb_fresh_ok h rq q f Hrep) as (h' & rq' & -> & [Hq Hf Hnd Ht] & Hdom & Hfr). cbn [mbind res_bind].
  destruct (rq_order q f) as [|x rest].
  - simpl in Hq. rewrite Hq. eexists _, _, _. by split_and!.
  - destruct Hq as (-> & Hx & n & Hn & Hl). destruct (Z.eqb_spec x 0); [done |].
    unfold next_of. rewrite Hn. cbn [mbind res_bind]. eexists _, _, _. split; [done |]. split; [done |]. split; [done |].
    split_and!; [done | done |]. apply list.NoDup_cons in Hnd as [_ Hnd].
    constructor; cbn; [done | done | done |]. rewrite (chain_nil _ _ rest Hl).
    destruct rest as [|y rest]; [by right |]. rewrite bool_decide_eq_false_2 by done.
    destruct (list.last (y :: rest)) as [z|] eqn:Hlast; [| by apply last_None in Hlast].
    by rewrite last_cons, Hlast in Ht.
Qed.

(** Queueing a segment of runnables that are linked already. *)
Lemma sched_queue_many_ok h p l seg first x : chain h p l -> lseg h first (seg ++ [x]) 0 ->
  NoDup ((seg ++ [x]) ++ l) ->
  exists h', sched_queue_many h p first x = Ok (h', first) /\ chain h' first ((seg ++ [x]) ++ l) /\
    (forall y, y <> x -> h' !! y = h !! y).
Proof.
  intros Hp Hs Hnd. apply list.NoDup_app in Hnd as (Hnds & Hdj & _). unfold sched_queue_many, set_next.
  destruct (chain_last _ _ _ _ Hs) as [Hx _]. rewrite Hx. cbn [mbind res_bind]. eexists. split; [done |]. split.
  - apply lseg_app. exists p. split; [by eapply lseg_relink |]. apply lseg_frame; [done |].
    apply Hdj. rewrite elem_of_app. right. by constructor.
  - intros y Hy. by rewrite lookup_insert_ne.
Qed.

(** Moving a wait list: its entries come before those of the destination. *)
Lemma sched_queue_list_ok h d s ld ls : chain h d ld -> chain h s ls -> NoDup (ls ++ ld) ->
  exists h' d', sched_queue_list h d s = Ok (h', d', 0) /\ chain h' d' (ls ++ ld) /\
    (forall y, y ∉ ls -> h' !! y = h !! y).
Proof.
  intros Hd Hs Hnd. unfold sched_queue_list. rewrite (chain_nil _ _ ls Hs).
  destruct ls as [|x ls _] using rev_ind; [rewrite bool_decide_eq_true_2 by done; by eauto |].
  rewrite bool_decide_eq_false_2 by by destruct ls.
  pose proof Hnd as Hnd'. apply list.NoDup_app in Hnd' as (Hnds & _ & _).
  rewrite (find_last_ok h ls x s) by (done || (pose proof (chain_size _ _ _ Hs Hnds) as Hsz; rewrite length_app in Hsz; simpl in Hsz; lia)).
  cbn [mbind res_bind]. destruct (sched_queue_many_ok h d ld ls s x Hd Hs Hnd) as (h' & -> & Hc & Hfr).
  cbn [mbind res_bind]. eexists _, _. split_and!; [done | done |]. intros y Hy. apply Hfr. intros ->.
  apply Hy. rewrite elem_of_app. right. by constructor.
Qed.

(** ** Concurrent use

    Any number of contexts (threads, interrupt handlers, other processors)
    execute [sched_queue_many] on the fresh list of a run queue while its owner
    executes [sched_unqueue].  Each atomic access is one step; the
    compare-exchange may fail spuriously.  The owner's work between its
    exchange and its return only touches runnables it owns. *)
Inductive pc : Set :=
| Ready                (** before the load of [list->head] *)
| Loaded (next : Z)    (** before [last->next = next] *)
| Stored (next : Z)    (** before the compare-exchange *)
| Finished.

(** [seg] lists the runnables from [first] to [last]. *)
Record proc : Type := { p_pc : pc; p_first : Z; p_last : Z; p_seg : list Z }.

Definition pending (p : proc) : list Z := match p_pc p with Finished => [] | _ => p_seg p end.
Definition with_pc (p : proc) (c : pc) : proc :=
  {| p_pc := c; p_first := p_first p; p_last := p_last p; p_seg := p_seg p |}.

Record config : Type := {
  c_heap : heap;
  c_fresh : Z;                 (** [rq->fresh.head] *)
  c_head : Z;
  c_tail : slot;
  c_taken : option Z;          (** what the owner's exchange returned *)
  c_procs : list proc;
  c_pushed : list Z;           (** history: runnables queued, in queueing order *)
  c_popped : list Z;           (** history: runnables taken *)
}.

Definition pending_all (ps : list proc) : list Z := mjoin (map pending ps).

Inductive sched_step : config -> config -> Prop :=
| step_spawn c p seg :
    p_seg p = seg -> p_pc p = Ready -> p_last p ∈ seg -> list.last seg = Some (p_last p) ->
    (exists z, lseg (c_heap c) (p_first p) seg z) -> NoDup seg ->
    (forall x q t f, x ∈ seg -> chain (c_heap c) (c_head c) q -> chain (c_heap c) (default 0 (c_taken c)) t ->
       chain (c_heap c) (c_fresh c) f -> x ∉ q ++ t ++ f ++ pending_all (c_procs c)) ->
    sched_step c {| c_heap := c_heap c; c_fresh := c_fresh c; c_head := c_head c; c_tail := c_tail c;
      c_taken := c_taken c; c_procs := c_procs c ++ [p]; c_pushed := c_pushed c; c_popped := c_popped c |}
| step_env c x v :   (** a context links runnables that are in no queue *)
    (forall q t f, chain (c_heap c) (c_head c) q -> chain (c_heap c) (default 0 (c_taken c)) t ->
       chain (c_heap c) (c_fresh c) f -> x ∉ q ++ t ++ f ++ pending_all (c_procs c)) ->
    sched_step c {| c_heap := <[x := v]> (c_heap c); c_fresh := c_fresh c; c_head := c_head c; c_tail := c_tail c;
      c_taken := c_taken c; c_procs := c_procs c; c_pushed := c_pushed c; c_popped := c_popped c |}
| step_load c i p :
    c_procs c !! i = Some p -> p_pc p = Ready ->
    sched_step c {| c_heap := c_heap c; c_fresh := c_fresh c; c_head := c_head c; c_tail := c_tail c;
      c_taken := c_taken c; c_procs := <[i := with_pc p (Loaded (c_fresh c))]> (c_procs c);
      c_pushed := c_pushed c; c_popped := c_popped c |}
| step_store c i p next h' :
    c_procs c !! i = Some p -> p_pc p = Loaded next -> set_next (c_heap c) (p_last p) next = Ok h' ->
    sched_step c {| c_heap := h'; c_fresh := c_fresh c; c_head := c_head c; c_tail := c_tail c;
      c_taken := c_taken c; c_procs := <[i := with_pc p (Stored next)]> (c_procs c);
      c_pushed := c_pushed c; c_popped := c_popped c |}
| step_cas_ok c i p :
    c_procs c !! i = Some p -> p_pc p = Stored (c_fresh c) ->
    sched_step c {| c_heap := c_heap c; c_fresh := p_first p; c_head := c_head c; c_tail := c_tail c;
      c_taken := c_taken c; c_procs := <[i := with_pc p Finished]> (c_procs c);
      c_pushed := c_pushed c ++ reverse (p_seg p); c_popped := c_popped c |}
| step_cas_fail c i p next :
    c_procs c !! i = Some p -> p_pc p = Stored next ->
    sched_step c {| c_heap := c_heap c; c_fresh := c_fresh c; c_head := c_head c; c_tail := c_tail c;
      c_taken := c_taken c; c_procs := <[i := with_pc p (Loaded (c_fresh c))]> (c_procs c);
      c_pushed := c_pushed c; c_popped := c_popped c |}
| step_exchange c :
    c_taken c = None ->
    sched_step c {| c_heap := c_heap c; c_fresh := 0; c_head := c_head c; c_tail := c_tail c;
      c_taken := Some (c_fresh c); c_procs := c_procs c; c_pushed := c_pushed c; c_popped := c_popped c |}
| step_unqueue c f r h' rq' :
    c_taken c = Some f ->
    sched_unqueue (c_heap c) {| fresh := f; head := c_head c; tail := c_tail c |} = Ok (r, h', rq') ->
    sched_step c {| c_heap := h'; c_fresh := c_fresh c; c_head := head rq'; c_tail := tail rq';
      c_taken := None; c_procs := c_procs c; c_pushed := c_pushed c;
      c_popped := if r =? 0 then c_popped c else c_popped c ++ [r] |}.

(** An empty queue on a heap of runnables. *)
Definition sched_init (h : heap) : config :=
  {| c_heap := h; c_fresh := 0; c_head := 0; c_tail := SlotNull; c_taken := None; c_procs := [];
     c_pushed := []; c_popped := [] |}.

(** *** The invariant *)
Definition proc_ok (h : heap) (p : proc) : Prop :=
  p_pc p <> Finished ->
  list.last (p_seg p) = Some (p_last p) /\
  exists z, lseg h (p_first p) (p_seg p) z /\ match p_pc p with Stored next => z = next | _ => True end.

Record cinv (c : config) (q t f : list Z) : Prop := {
  ci_rep : rq_rep (c_heap c) {| fresh := default 0 (c_taken c); head := c_head c; tail := c_tail c |} q t;
  ci_fresh : chain (c_heap c) (c_fresh c) f;
  ci_nodup : NoDup (q ++ t ++ f ++ pending_all (c_procs c));
  ci_procs : Forall (proc_ok (c_heap c)) (c_procs c);
  ci_hist : c_pushed c = c_popped c ++ q ++ reverse t ++ reverse f;
}.

Lemma chain_det h p l l' : chain h p l -> chain h p l' -> l = l'.
Proof.
  revert p l'. induction l as [|x l IH]; intros p [|y l']; simpl.
  - done.
  - by intros -> (<- & ? & _).
  - by intros (-> & ? & _) ->.
  - intros (-> & Hx & n & Hn & Hl) (<- & _ & n' & Hn' & Hl'). f_equal. rewrite Hn in Hn'. injection Hn' as ->.
    by eapply IH.
Qed.

#[local] Arguments pending_all : simpl never.

Lemma pending_app ps1 ps2 : pending_all (ps1 ++ ps2) = pending_all ps1 ++ pending_all ps2.
Proof. unfold pending_all. by rewrite map_app, join_app. Qed.

Lemma pending_insert ps i p p' : ps !! i = Some p ->
  pending p ++ pending_all (<[i := p']> ps) ≡ₚ pending p' ++ pending_all ps.
Proof.
  intros Hi. rewrite <- (take_drop_middle _ _ _ Hi).
  assert (length (take i ps) = i) as Hl by (rewrite length_take; apply lookup_lt_Some in Hi; lia).
  rewrite insert_app_r_alt by lia. rewrite Hl, Nat.sub_diag. cbn [list_insert insert].
  rewrite !pending_app. unfold pending_all. cbn [map mjoin list_join].
  rewrite !(assoc_L (++)). rewrite (Permutation_app_comm (pending p ++ _)), (Permutation_app_comm (pending p' ++ _)).
  solve_Permutation.
Qed.

Lemma proc_ok_mono h h' p : proc_ok h p -> (forall y, y ∈ pending p -> h' !! y = h !! y) -> proc_ok h' p.
Proof.
  unfold proc_ok, pending. intros Hp Hx Hnf. destruct (Hp Hnf) as [Hl (z & Hz & Hs)]. split; [done |].
  exists z. split; [| done]. apply lseg_mono with h; [done |]. by destruct (p_pc p).
Qed.

Lemma rq_rep_frame h rq q t x v : rq_rep h rq q t -> x ∉ q ++ t -> rq_rep (<[x := v]> h) rq q t.
Proof.
  intros [Hq Hf Hnd Ht] Hx. rewrite not_elem_of_app in Hx. constructor; try done; apply lseg_frame; tauto.
Qed.

Lemma pending_elem ps i p x : ps !! i = Some p -> x ∈ pending p -> x ∈ pending_all ps.
Proof.
  intros Hi Hx. unfold pending_all. apply list_elem_of_join. exists (pending p). split; [done |].
  apply (list_elem_of_fmap_2 pending). by apply list_elem_of_lookup_2 with i.
Qed.

Lemma procs_mono h h' ps : Forall (proc_ok h) ps -> (forall y, y ∈ pending_all ps -> h' !! y = h !! y) ->
  Forall (proc_ok h') ps.
Proof.
  intros Hps Hm. apply Forall_lookup. intros i p Hi. pose proof (Forall_lookup_1 _ _ _ _ Hps Hi) as Hp.
  apply proc_ok_mono with h; [done |]. intros y Hy. apply Hm. by eapply pending_elem.
Qed.

(** The other contexts own other runnables. *)
Lemma procs_insert h h' ps i p p' : Forall (proc_ok h) ps -> NoDup (pending_all ps) -> ps !! i = Some p ->
  (forall y, y ∉ pending p -> h' !! y = h !! y) -> proc_ok h' p' -> Forall (proc_ok h') (<[i := p']> ps).
Proof.
  intros Hps Hnd Hi Hfr Hp'. rewrite <- (take_drop_middle _ _ _ Hi) in Hps, Hnd. rewrite insert_take_drop by by eapply lookup_lt_Some.
  rewrite pending_app in Hnd. unfold pending_all in Hnd at 2. cbn [map mjoin list_join] in Hnd. fold (pending_all (drop (S i) ps)) in Hnd.
  apply list.NoDup_app in Hnd as (_ & Hd1 & Hnd). apply list.NoDup_app in Hnd as (_ & Hd2 & _).
  apply Forall_app in Hps as [H1 H2]. apply Forall_inv_tail in H2.
  apply Forall_app. split; [| constructor; [done |]].
  - apply procs_mono with h; [done |]. intros y Hy. apply Hfr. intros Hp. apply (Hd1 y Hy). rewrite elem_of_app. by left.
  - apply procs_mono with h; [done |]. intros y Hy. apply Hfr. intros Hp. by apply (Hd2 y Hp).
Qed.

Lemma last_elem (l : list Z) x : list.last l = Some x -> exists l', l = l' ++ [x].
Proof. apply last_Some. Qed.

(** A step of a queueing context that moves no runnable. *)
Lemma cinv_pc c q t f i p pc' : cinv c q t f -> c_procs c !! i = Some p -> p_pc p <> Finished -> pc' <> Finished ->
  proc_ok (c_heap c) (with_pc p pc') ->
  cinv {| c_heap := c_heap c; c_fresh := c_fresh c; c_head := c_head c; c_tail := c_tail c;
          c_taken := c_taken c; c_procs := <[i := with_pc p pc']> (c_procs c);
          c_pushed := c_pushed c; c_popped := c_popped c |} q t f.
Proof.
  intros [Hr Hf Hnd Hp Hh] Hi Hnf Hnf' Hok. constructor; try done; cbn.
  - pose proof (pending_insert (c_procs c) i p (with_pc p pc') Hi) as Hperm.
    assert (pending (with_pc p pc') = pending p) as He by (unfold pending; cbn; by destruct (p_pc p), pc').
    rewrite He in Hperm. apply Permutation_app_inv_l in Hperm. by rewrite Hperm.
  - by apply Forall_insert.
Qed.

Lemma cinv_init h : cinv (sched_init h) [] [] [].
Proof. constructor; cbn; try done; [| constructor]. constructor; cbn; [done | done | constructor | by left]. Qed.

Lemma cinv_store c q t f i p next h' : cinv c q t f -> c_procs c !! i = Some p -> p_pc p = Loaded next ->
  set_next (c_heap c) (p_last p) next = Ok h' ->
  cinv {| c_heap := h'; c_fresh := c_fresh c; c_head := c_head c; c_tail := c_tail c;
      c_taken := c_taken c; c_procs := <[i := with_pc p (Stored next)]> (c_procs c);
      c_pushed := c_pushed c; c_popped := c_popped c |} q t f.
Proof.
  intros [Hr Hf Hnd Hp Hh] Hi Hpc Hset. pose proof (Forall_lookup_1 _ _ _ _ Hp Hi) as Hpp.
  destruct Hpp as [Hl (z & Hz & _)]; [by rewrite Hpc |]. destruct (proj1 (last_Some _ _) Hl) as [seg Hseg].
  assert (pending p = seg ++ [p_last p]) as Hpend by (unfold pending; by rewrite Hpc).
  unfold set_next in Hset. destruct (c_heap c !! p_last p); [| done]. injection Hset as <-.
  assert (p_last p ∈ pending p) as Hlp by (rewrite Hpend, elem_of_app; right; by constructor).
  pose proof (pending_elem _ _ _ _ Hi Hlp) as Hpa.
  pose proof Hnd as Hnd0. apply list.NoDup_app in Hnd0 as (_ & H1 & Hnd0). apply list.NoDup_app in Hnd0 as (_ & H2 & Hnd0).
  apply list.NoDup_app in Hnd0 as (_ & H3 & Hndp).
  assert ((p_last p ∉ q) /\ (p_last p ∉ t) /\ (p_last p ∉ f)) as (Hnq & Hnt & Hnf).
  { split_and!; intros Hx; [apply (H1 _ Hx) | apply (H2 _ Hx) | apply (H3 _ Hx)]; rewrite ?elem_of_app; tauto. }
  pose proof (pending_insert (c_procs c) i p (with_pc p (Stored next)) Hi) as Hperm.
  assert (pending (with_pc p (Stored next)) = pending p) as He by (unfold pending; cbn; by rewrite Hpc).
  rewrite He in Hperm. apply Permutation_app_inv_l in Hperm.
  constructor; cbn; [apply rq_rep_frame; [done | rewrite not_elem_of_app; tauto] | apply lseg_frame; tauto
    | by rewrite Hperm | | done].
  apply procs_insert with (c_heap c) p; [done | done | done | |].
  - intros y Hy. rewrite lookup_insert_ne; [done | by intros <-].
  - intros _. cbn. split; [done |]. exists next. split; [| done]. rewrite Hseg in Hz |- *. apply lseg_relink with z; [done |].
    rewrite <- Hpend. clear - Hi Hndp. rewrite <- (take_drop_middle _ _ _ Hi), pending_app in Hndp.
    unfold pending_all in Hndp at 2. cbn [map mjoin list_join] in Hndp.
    apply list.NoDup_app in Hndp as (_ & _ & Hndp). by apply list.NoDup_app in Hndp as [? _].
Qed.

Lemma cinv_cas c q t f i p : cinv c q t f -> c_procs c !! i = Some p -> p_pc p = Stored (c_fresh c) ->
  cinv {| c_heap := c_heap c; c_fresh := p_first p; c_head := c_head c; c_tail := c_tail c;
      c_taken := c_taken c; c_procs := <[i := with_pc p Finished]> (c_procs c);
      c_pushed := c_pushed c ++ reverse (p_seg p); c_popped := c_popped c |} q t (p_seg p ++ f).
Proof.
  intros [Hr Hf Hnd Hp Hh] Hi Hpc. pose proof (Forall_lookup_1 _ _ _ _ Hp Hi) as Hpp.
  destruct Hpp as [Hl (z & Hz & Hzn)]; [by rewrite Hpc |]. rewrite Hpc in Hzn. subst z.
  pose proof (pending_insert (c_procs c) i p (with_pc p Finished) Hi) as Hperm.
  assert (pending p = p_seg p) as Hpend by (unfold pending; by rewrite Hpc).
  unfold pending at 2 in Hperm. cbn [with_pc p_pc] in Hperm. rewrite Hpend in Hperm. cbn [app] in Hperm.
  constructor; cbn; [done | apply lseg_app; by exists (c_fresh c) | | by apply Forall_insert | ].
  - assert (q ++ t ++ (p_seg p ++ f) ++ pending_all (<[i := with_pc p Finished]> (c_procs c)) ≡ₚ
            q ++ t ++ f ++ pending_all (c_procs c)) as ->; [| done].
    rewrite <- Hperm. solve_Permutation.
  - rewrite Hh, reverse_app, <- !(assoc_L (++)). done.
Qed.

Lemma cinv_exchange c q t f : cinv c q t f -> c_taken c = None ->
  cinv {| c_heap := c_heap c; c_fresh := 0; c_head := c_head c; c_tail := c_tail c;
      c_taken := Some (c_fresh c); c_procs := c_procs c; c_pushed := c_pushed c; c_popped := c_popped c |} q f [].
Proof.
  intros [[Hq Ht Hqt Htl] Hf Hnd Hp Hh] Htk. rewrite Htk in Ht. cbn in *.
  assert (t = []) as -> by (destruct t; [done | by destruct Ht as (<- & ? & _)]). rewrite reverse_nil in Hh.
  constructor; cbn; try done; [| by rewrite Hh, app_nil_r].
  constructor; cbn; try done. rewrite !app_assoc in Hnd. cbn in Hnd. rewrite app_nil_r in Hnd. by apply list.NoDup_app in Hnd as [? _].
Qed.

Lemma cinv_unqueue c q t f fr : cinv c q t f -> c_taken c = Some fr ->
  exists r h' rq', sched_unqueue (c_heap c) {| fresh := fr; head := c_head c; tail := c_tail c |} = Ok (r, h', rq') /\
  (r = 0 <-> rq_order q t = []) /\
  cinv {| c_heap := h'; c_fresh := c_fresh c; c_head := head rq'; c_tail := tail rq';
      c_taken := None; c_procs := c_procs c; c_pushed := c_pushed c;
      c_popped := if r =? 0 then c_popped c else c_popped c ++ [r] |} (list.tail (rq_order q t)) [] f.
Proof.
  intros [Hr Hf Hnd Hp Hh] Htk. rewrite Htk in Hr. cbn in Hr.
  destruct (sched_unqueue_ok _ _ _ _ Hr) as (r & h' & rq' & Hun & _ & Hfr & Hm). exists r, h', rq'. split; [done |].
  assert (NoDup (rq_order q t ++ f ++ pending_all (c_procs c))) as Hnd'.
  { unfold rq_order. rewrite reverse_Permutation. by rewrite <- (assoc_L (++)). }
  rewrite (assoc_L (++)) in Hnd. apply list.NoDup_app in Hnd as (_ & Hdj & _).
  assert (forall y, y ∈ f ++ pending_all (c_procs c) -> h' !! y = c_heap c !! y) as Hm'.
  { intros y Hy. apply Hfr. intros Hin. by apply (Hdj y). }
  assert (chain h' (c_fresh c) f) as Hf'.
  { apply lseg_mono with (c_heap c); [done |]. intros y Hy. apply Hm'. rewrite elem_of_app. by left. }
  assert (Forall (proc_ok h') (c_procs c)) as Hp'.
  { apply procs_mono with (c_heap c); [done |]. intros y Hy. apply Hm'. rewrite elem_of_app. by right. }
  assert (c_pushed c = c_popped c ++ rq_order q t ++ reverse f) as Hh' by (unfold rq_order; by rewrite Hh, <- !(assoc_L (++))).
  destruct (rq_order q t) as [|x rest].
  - destruct Hm as [-> Hrep]. split; [done |]. constructor; cbn; try done. destruct Hrep; constructor; done.
  - destruct Hm as (-> & Hx & Hrep). split; [by split; intros |]. cbn [list.tail].
    constructor; cbn; try done.
    + destruct Hrep; by constructor.
    + by apply list.NoDup_cons in Hnd' as [_ ?].
    + destruct (Z.eqb_spec x 0); [done |]. by rewrite Hh', <- (assoc_L (++)).
Qed.

Lemma sched_step_inv c c' : sched_step c c' -> (exists q t f, cinv c q t f) -> exists q t f, cinv c' q t f.
Proof.
  intros Hstep (q & t & f & Hinv). pose proof Hinv as [Hr Hf Hnd Hp Hh]. pose proof Hr as [Hq Ht _ Htl]. cbn in Hq, Ht.
  destruct Hstep as [c p seg Hseg Hpc Hin Hlast [z Hz] Hnds Hfresh | c x v Hx | c i p Hi Hpc | c i p next h' Hi Hpc Hset
    | c i p Hi Hpc | c i p next Hi Hpc | c Htk | c fr r h' rq' Htk Hun].
  - exists q, t, f. constructor; try done; cbn.
    + rewrite pending_app. unfold pending_all at 2. cbn [map mjoin list_join]. rewrite app_nil_r.
      unfold pending at 1. rewrite Hpc, Hseg.
      replace (q ++ t ++ f ++ pending_all (c_procs c) ++ seg) with ((q ++ t ++ f ++ pending_all (c_procs c)) ++ seg)
        by (by rewrite <- !(assoc_L (++))).
      apply list.NoDup_app. split_and!; [done | | done]. intros x Hx Hxs. by apply (Hfresh x q t f).
    + apply Forall_app. split; [done |]. constructor; [| constructor]. intros _. rewrite Hseg, Hpc. split; [done |]. by exists z.
  - exists q, t, f. specialize (Hx q t f Hq Ht Hf). rewrite !not_elem_of_app in Hx.
    constructor; cbn; [apply rq_rep_frame; [done | rewrite not_elem_of_app; tauto] | apply lseg_frame; tauto
      | done | | done].
    apply procs_mono with (c_heap c); [done |]. intros y Hy. rewrite lookup_insert_ne; [done |]. intros <-. tauto.
  - exists q, t, f. apply cinv_pc; [done | done | by rewrite Hpc | done |].
    pose proof (Forall_lookup_1 _ _ _ _ Hp Hi) as Hpp. intros _. destruct Hpp as [Hl (z & Hz & _)]; [by rewrite Hpc |].
    split; [done |]. by exists z.
  - exists q, t, f. by eapply cinv_store.
  - exists q, t, (p_seg p ++ f). by apply cinv_cas.
  - exists q, t, f. apply cinv_pc; [done | done | by rewrite Hpc | done |].
    pose proof (Forall_lookup_1 _ _ _ _ Hp Hi) as Hpp. intros _. destruct Hpp as [Hl (z & Hz & _)]; [by rewrite Hpc |].
    split; [done |]. by exists z.
  - exists q, f, []. by eapply cinv_exchange.
  - destruct (cinv_unqueue _ _ _ _ _ Hinv Htk) as (r0 & h0 & rq0 & Hun0 & _ & Hc). rewrite Hun in Hun0.
    injection Hun0 as <- <- <-. eauto.
Qed.

(** *** Main theorem on the run queue *)
Definition sched_reachable (h : heap) : config -> Prop := rtc sched_step (sched_init h).

Lemma sched_reachable_inv h c : sched_reachable h c -> exists q t f, cinv c q t f.
Proof.
  intros Hr. refine (rtc_ind_r (R := sched_step) (fun c => exists q t f, cinv c q t f) (sched_init h) _ _ c Hr).
  - exists [], [], []. apply cinv_init.
  - intros x y _ Hs IH. by eapply sched_step_inv.
Qed.

(** C3: Whatever the interleaving of queueing contexts and the owner, in every
    reachable state the runnables queued so far are those taken so far, in the
    same order, followed by those still queued, none of them twice; a queueing
    context that has loaded the head can always store its [next]; and when the
    owner has exchanged the fresh list, [sched_unqueue] completes and returns
    the runnable that has waited longest, null exactly when there is none. *)
Theorem sched_queue_fifo h c : sched_reachable h c ->
  exists q t f, chain (c_heap c) (c_head c) q /\ chain (c_heap c) (default 0 (c_taken c)) t /\
    chain (c_heap c) (c_fresh c) f /\ NoDup (q ++ t ++ f) /\
    c_pushed c = c_popped c ++ rq_order q t ++ reverse f /\
    (forall i p next, c_procs c !! i = Some p -> p_pc p = Loaded next ->
       exists h', set_next (c_heap c) (p_last p) next = Ok h') /\
    (forall fr, c_taken c = Some fr -> exists r h' rq',
       sched_unqueue (c_heap c) {| fresh := fr; head := c_head c; tail := c_tail c |} = Ok (r, h', rq') /\
       r = default 0 (list.head (rq_order q t)) /\ (r = 0 <-> rq_order q t = [])).
Proof.
  intros (q & t & f & Hinv)%sched_reachable_inv. pose proof Hinv as [[Hq Ht _ _] Hf Hnd Hp Hh]. exists q, t, f.
  split_and!; [done | done | done | | | |].
  - rewrite !app_assoc in Hnd. rewrite !app_assoc. by apply list.NoDup_app in Hnd as [? _].
  - unfold rq_order. by rewrite Hh, <- !(assoc_L (++)).
  - intros i p next Hi Hpc. pose proof (Forall_lookup_1 _ _ _ _ Hp Hi) as Hpp.
    destruct Hpp as [Hl (z & Hz & _)]; [by rewrite Hpc |]. destruct (proj1 (last_Some _ _) Hl) as [seg Hseg].
    rewrite Hseg in Hz. apply lseg_app in Hz as (y & _ & (-> & _ & n & Hn & _)). unfold set_next. rewrite Hn. by eauto.
  - intros fr Htk. destruct (cinv_unqueue _ _ _ _ _ Hinv Htk) as (r & h' & rq' & Hun & Hr0 & _).
    exists r, h', rq'. split_and!; [done | | done].
    destruct (sched_unqueue_ok (c_heap c) {| fresh := fr; head := c_head c; tail := c_tail c |} q t)
      as (r1 & h1 & rq1 & Hun1 & _ & _ & Hm); [destruct Hinv as [Hi _ _ _ _]; rewrite Htk in Hi; exact Hi |].
    rewrite Hun in Hun1. injection Hun1 as <- <- <-. destruct (rq_order q t); [tauto |]. cbn. tauto.
Qed.

(** ** Waiting for a variable *)

(** [call_cc] suspends the caller and passes its continuation on. *)
Definition yield_finish (h : heap) (rq_fresh continuation : Z) : res (heap * Z) :=
  sched_queue_single h rq_fresh continuation.

Definition sched_thread_preempted (h : heap) (rq_fresh thread : Z) : res (heap * Z) :=
  sched_queue_single h rq_fresh thread.

(** Returns [(heap, fresh list of the run queue, wait list)]. *)
Definition sched_finish_u32 (h : heap) (rq_fresh list continuation reg mask expected : Z) : res (heap * Z * Z) :=
  '(h, list) ← sched_queue_single h list continuation;
  let val := Z.land reg (Z.ones 32) in
  if negb (Z.land val mask =? expected) then sched_queue_list h rq_fresh list else Ok (h, rq_fresh, list).

Definition sched_finish_u8 (h : heap) (rq_fresh list continuation reg mask expected : Z) : res (heap * Z * Z) :=
  '(h, list) ← sched_queue_single h list continuation;
  let val := Z.land reg (Z.ones 8) in
  if negb (Z.land val mask =? expected) then sched_queue_list h rq_fresh list else Ok (h, rq_fresh, list).

Definition sched_finish_u8ptr (h : heap) (rq_fresh list continuation ptr expected : Z) : res (heap * Z * Z) :=
  '(h, list) ← sched_queue_single h list continuation;
  let val := ptr in
  if negb (val =? expected) then sched_queue_list h rq_fresh list else Ok (h, rq_fresh, list).

(** The 16-bit variable is loaded into a [u8]. *)
Definition finish_u16 (h : heap) (rq_fresh list continuation reg mask expected : Z) : res (heap * Z * Z) :=
  '(h, list) ← sched_queue_single h list continuation;
  let val := Z.land (Z.land reg (Z.ones 16)) (Z.ones 8) in
  if negb (Z.land val mask =? expected) then sched_queue_list h rq_fresh list else Ok (h, rq_fresh, list).

(** *** Waiters and notifiers, interleaved

    A notifier stores the variable and then moves the wait list to the run
    queue with [sched_queue_list]; a waiter runs [sched_finish_u32].  Lists are
    abstract here: each is changed by one atomic instruction at a time, which
    the heap-level theorems above justify. *)
Definition finish_again (mask expected val : Z) : bool :=
  negb (Z.land (Z.land val (Z.ones 32)) mask =? expected).

Inductive wpc : Set :=
| WStart                    (** before [sched_queue_single] *)
| WQueued                   (** before the load *)
| WMove                     (** before the exchange of [sched_queue_list] *)
| WHolds (l : list Z)       (** before the entries taken are queued *)
| WDone.

(** A context that waits with a continuation, or one that notifies. *)
Record agent : Type := { a_pc : wpc; a_cont : Z }.

Record wstate : Type := {
  w_val : Z;                (** the variable *)
  w_list : list Z;          (** the wait list *)
  w_run : list Z;           (** the run queue *)
  w_agents : list agent;
  w_waiting : list Z;       (** history: every continuation queued *)
}.

Definition set_agent (s : wstate) (i : nat) (a : agent) (l run waiting : list Z) : wstate :=
  {| w_val := w_val s; w_list := l; w_run := run; w_agents := <[i := a]> (w_agents s); w_waiting := waiting |}.

Inductive wait_step (mask expected : Z) : wstate -> wstate -> Prop :=
| wait_begin s k :
    wait_step mask expected s
      {| w_val := w_val s; w_list := w_list s; w_run := w_run s;
         w_agents := w_agents s ++ [{| a_pc := WStart; a_cont := k |}]; w_waiting := w_waiting s |}
| wait_queue s i k :
    w_agents s !! i = Some {| a_pc := WStart; a_cont := k |} ->
    wait_step mask expected s (set_agent s i {| a_pc := WQueued; a_cont := k |} (k :: w_list s) (w_run s) (k :: w_waiting s))
| wait_load s i k :
    w_agents s !! i = Some {| a_pc := WQueued; a_cont := k |} ->
    wait_step mask expected s
      (set_agent s i {| a_pc := if finish_again mask expected (w_val s) then WMove else WDone; a_cont := k |}
         (w_list s) (w_run s) (w_waiting s))
| wait_take s i k :   (** the exchange, by a waiter or a notifier *)
    w_agents s !! i = Some {| a_pc := WMove; a_cont := k |} ->
    wait_step mask expected s
      (set_agent s i {| a_pc := WHolds (w_list s); a_cont := k |} [] (w_run s) (w_waiting s))
| wait_give s i k l :
    w_agents s !! i = Some {| a_pc := WHolds l; a_cont := k |} ->
    wait_step mask expected s
      (set_agent s i {| a_pc := WDone; a_cont := k |} (w_list s) (l ++ w_run s) (w_waiting s))
| notify_store s v :   (** the notifier's store; [sched_queue_list] is next *)
    wait_step mask expected s
      {| w_val := v; w_list := w_list s; w_run := w_run s;
         w_agents := w_agents s ++ [{| a_pc := WMove; a_cont := 0 |}]; w_waiting := w_waiting s |}.

Definition wait_init (v : Z) : wstate := {| w_val := v; w_list := []; w_run := []; w_agents := []; w_waiting := [] |}.

Definition held (a : agent) : list Z := match a_pc a with WHolds l => l | _ => [] end.
Definition held_all (l : list agent) : list Z := mjoin (map held l).
#[local] Arguments held_all : simpl never.

(** Some context still has to look at the list. *)
Definition will_look (a : agent) : Prop := match a_pc a with WQueued | WMove => True | _ => False end.

Record winv (mask expected : Z) (s : wstate) : Prop := {
  wi_list : w_list s = [] \/ finish_again mask expected (w_val s) = false \/ Exists will_look (w_agents s);
  wi_all : w_waiting s ≡ₚ w_list s ++ held_all (w_agents s) ++ w_run s;
}.

Lemma held_app l1 l2 : held_all (l1 ++ l2) = held_all l1 ++ held_all l2.
Proof. unfold held_all. by rewrite map_app, join_app. Qed.

Lemma held_insert l i a a' : l !! i = Some a -> held a ++ held_all (<[i := a']> l) ≡ₚ held a' ++ held_all l.
Proof.
  intros Hi. rewrite <- (take_drop_middle _ _ _ Hi) at 2. rewrite insert_take_drop by by eapply lookup_lt_Some.
  rewrite !held_app. change (held_all (a :: drop (S i) l)) with (held a ++ held_all (drop (S i) l)).
  change (held_all (a' :: drop (S i) l)) with (held a' ++ held_all (drop (S i) l)). solve_Permutation.
Qed.

Lemma will_look_insert l i a : will_look a -> (i < length l)%nat -> Exists will_look (<[i := a]> l).
Proof.
  intros Ha Hi. apply Exists_exists. exists a. split; [| done]. apply list_elem_of_In, list_elem_of_lookup. exists i.
  by apply list_lookup_insert_eq.
Qed.

Lemma wait_step_inv mask expected s s' : wait_step mask expected s s' -> winv mask expected s -> winv mask expected s'.
Proof.
  intros Hs [Hl Ha]. destruct Hs as [s k | s i k Hi | s i k Hi | s i k Hi | s i k l Hi | s v]; constructor; cbn.
  - destruct Hl as [? | [? | ?]]; [by left | by right; left |]. right; right. apply Exists_app. by left.
  - by rewrite held_app, app_nil_r.
  - right; right. apply will_look_insert; [done | by eapply lookup_lt_Some].
  - pose proof (held_insert (w_agents s) i _ {| a_pc := WQueued; a_cont := k |} Hi) as Hp. cbn in Hp. by rewrite Hp, Ha.
  - destruct (finish_again mask expected (w_val s)) eqn:Hf; [| by right; left].
    right; right. apply will_look_insert; [done | by eapply lookup_lt_Some].
  - pose proof (held_insert (w_agents s) i _
      {| a_pc := if finish_again mask expected (w_val s) then WMove else WDone; a_cont := k |} Hi) as Hp.
    destruct (finish_again _ _ _); cbn in Hp; by rewrite Hp, Ha.
  - by left.
  - pose proof (held_insert (w_agents s) i _ {| a_pc := WHolds (w_list s); a_cont := k |} Hi) as Hp. cbn in Hp.
    rewrite Hp, Ha. solve_Permutation.
  - destruct Hl as [? | [? | He]]; [by left | by right; left |]. right; right.
    apply Exists_exists in He as (a & Hin & Hw). apply list_elem_of_In, list_elem_of_lookup in Hin as [j Hj].
    apply Exists_exists. exists a. split; [| done]. apply list_elem_of_In, list_elem_of_lookup. exists j.
    rewrite list_lookup_insert_ne; [done |]. intros ->. rewrite Hj in Hi. injection Hi as ->. done.
  - pose proof (held_insert (w_agents s) i _ {| a_pc := WDone; a_cont := k |} Hi) as Hp. cbn in Hp.
    rewrite Ha, <- Hp. solve_Permutation.
  - right; right. apply Exists_app. right. by constructor.
  - by rewrite held_app, app_nil_r.
Qed.

(** C35: No wake-up is lost.  In every interleaving of waiters
    ([sched_finish_u32]) and notifiers (a store followed by
    [sched_queue_list]), once all of them have finished, either the variable
    has the value the waiters wait on, or the wait list is empty and every
    continuation that was queued is on the run queue exactly once. *)
Theorem sched_no_lost_wakeup mask expected v s : rtc (wait_step mask expected) (wait_init v) s ->
  (forall a, a ∈ w_agents s -> a_pc a = WDone) ->
  w_waiting s ≡ₚ w_list s ++ w_run s /\
  (finish_again mask expected (w_val s) = true -> w_list s = [] /\ w_run s ≡ₚ w_waiting s).
Proof.
  intros Hr Hdone. assert (winv mask expected s) as [Hl Ha].
  { assert (winv mask expected (wait_init v)) as H0 by (constructor; [by left | done]).
    induction Hr as [|x y z Hs _ IH]; [done |]. apply IH; [done |]. by eapply wait_step_inv. }
  assert (held_all (w_agents s) = []) as Hh.
  { clear - Hdone. unfold held_all. induction (w_agents s) as [|a l IH]; [done |]. cbn [map mjoin list_join].
    unfold held at 1. rewrite (Hdone a) by constructor. apply IH. intros b Hb. apply Hdone. by constructor. }
  rewrite Hh in Ha. split; [done |]. intros Hf. assert (w_list s = []) as He.
  { destruct Hl as [? | [? | (a & Hin & Hw)%Exists_exists]]; [done | congruence |].
    apply list_elem_of_In in Hin. unfold will_look in Hw. by rewrite (Hdone a Hin) in Hw. }
  split; [done |]. by rewrite Ha, He.
Qed.

(** What [sched_finish_u32] does when it is not disturbed. *)
Lemma sched_finish_ok h rq_fresh list cont lq lw (again : bool) : chain h rq_fresh lq -> chain h list lw ->
  is_Some (h !! cont) -> cont <> 0 -> NoDup (cont :: lw ++ lq) ->
  exists h' rq' list',
    ('(h, list) ← sched_queue_single h list cont;
     if again then sched_queue_list h rq_fresh list else Ok (h, rq_fresh, list)) = Ok (h', rq', list') /\
    chain h' rq' (if again then cont :: lw ++ lq else lq) /\ chain h' list' (if again then [] else cont :: lw).
Proof.
  intros Hq Hw [n Hn] Hc Hnd. pose proof Hnd as [Hni Hnd']%list.NoDup_cons. rewrite not_elem_of_app in Hni.
  unfold sched_queue_single, sched_queue_many, set_next. rewrite Hn. cbn [mbind res_bind].
  assert (chain (<[cont := list]> h) cont (cont :: lw)) as Hw'.
  { cbn. split_and!; [done | done |]. exists list. rewrite lookup_insert_eq. split; [done |]. apply lseg_frame; tauto. }
  assert (chain (<[cont := list]> h) rq_fresh lq) as Hq' by (apply lseg_frame; tauto).
  destruct again; [| eauto 6].
  destruct (sched_queue_list_ok _ rq_fresh cont lq (cont :: lw) Hq' Hw') as (h' & d & Hl & Hd & _); [done |].
  rewrite Hl. eexists _, _, _. split_and!; [done | done | done].
Qed.

(** [sched_finish_u32] puts the continuation on the wait list when the
    masked 32-bit value is the expected one, and otherwise moves the whole wait
    list, the continuation included, to the run queue. *)
Theorem sched_finish_u32_correct h rq_fresh list cont reg mask expected lq lw :
  chain h rq_fresh lq -> chain h list lw -> is_Some (h !! cont) -> cont <> 0 -> NoDup (cont :: lw ++ lq) ->
  exists h' rq' list', sched_finish_u32 h rq_fresh list cont reg mask expected = Ok (h', rq', list') /\
    chain h' rq' (if finish_again mask expected reg then cont :: lw ++ lq else lq) /\
    chain h' list' (if finish_again mask expected reg then [] else cont :: lw).
Proof. intros. by apply (sched_finish_ok h rq_fresh list cont lq lw (finish_again mask expected reg)). Qed.

(** The wait on a 16-bit variable ignores its high byte: a waiter for a bit
    of the high byte to become set goes to sleep whatever the value is, also
    when the bit is set already. *)
Theorem finish_u16_high_byte h rq_fresh list cont reg mask :
  0 <= reg < 2^16 -> Z.land mask (Z.ones 8) = 0 ->
  finish_u16 h rq_fresh list cont reg mask 0 =
    ('(h, list) ← sched_queue_single h list cont; Ok (h, rq_fresh, list)).
Proof.
  intros Hr Hm. unfold finish_u16. destruct (sched_queue_single h list cont) as [[h' l']|]; [| done]. cbn [mbind res_bind].
  replace (Z.land (Z.land (Z.land reg (Z.ones 16)) (Z.ones 8)) mask) with 0; [done |].
  rewrite <- Z.land_assoc, (Z.land_comm (Z.ones 8) mask), Hm. by rewrite Z.land_0_r.
Qed.

(** A run queue on which a context has queued runnable 1, after losing a race
    with the queueing of runnable 2 and the owner's exchange. *)
Definition demo_heap : heap := <[1 := 0]> (<[2 := 0]> ∅).
Definition demo_proc (c : pc) (x : Z) : proc := {| p_pc := c; p_first := x; p_last := x; p_seg := [x] |}.
Definition demo_config : config :=
  {| c_heap := <[1 := 0]> (<[2 := 0]> demo_heap); c_fresh := 0; c_head := 0; c_tail := SlotNull; c_taken := Some 2;
     c_procs := [demo_proc (Loaded 0) 1; demo_proc Finished 2]; c_pushed := [2]; c_popped := [] |}.

Lemma demo_spawn_ok c x : c_head c = 0 -> c_taken c = None -> c_fresh c = 0 -> c_procs c = [] \/ c_procs c = [demo_proc Ready 1] ->
  x <> 0 -> x <> 1 \/ c_procs c = [] -> is_Some (c_heap c !! x) ->
  sched_step c {| c_heap := c_heap c; c_fresh := c_fresh c; c_head := c_head c; c_tail := c_tail c;
      c_taken := c_taken c; c_procs := c_procs c ++ [demo_proc Ready x]; c_pushed := c_pushed c; c_popped := c_popped c |}.
Proof.
  intros Hh Ht Hf Hp Hx Hx1 [n Hn]. apply step_spawn with [x]; cbn; try done; [by constructor | | by apply NoDup_singleton |].
  - exists n. split_and!; [done | done |]. by exists n.
  - intros y q t f ->%list_elem_of_singleton Hq Htt Hff. rewrite Hh in Hq. rewrite Ht in Htt. rewrite Hf in Hff. cbn in Htt.
    rewrite (chain_det _ _ _ [] Hq eq_refl), (chain_det _ _ _ [] Htt eq_refl), (chain_det _ _ _ [] Hff eq_refl). cbn.
    destruct Hp as [-> | Hp]; [apply not_elem_of_nil |]. rewrite Hp in *. destruct Hx1; [| done].
    unfold pending_all. cbn. by rewrite list_elem_of_singleton.
Qed.

Lemma demo_reachable : sched_reachable demo_heap demo_config.
Proof.
  eapply rtc_l; [apply demo_spawn_ok with (x := 1); cbn; auto; by vm_compute |]. cbn.
  eapply rtc_l; [apply demo_spawn_ok with (x := 2); cbn; auto; by vm_compute |]. cbn.
  eapply rtc_l; [by apply (step_load _ 0%nat (demo_proc Ready 1)) |]. cbn.
  eapply rtc_l; [by apply (step_load _ 1%nat (demo_proc Ready 2)) |]. cbn.
  eapply rtc_l; [by apply (step_store _ 1%nat (demo_proc (Loaded 0) 2) 0) |]. cbn.
  eapply rtc_l; [by apply (step_store _ 0%nat (demo_proc (Loaded 0) 1) 0) |]. cbn.
  eapply rtc_l; [by apply (step_cas_ok _ 1%nat (demo_proc (Stored 0) 2)) |]. cbn.
  eapply rtc_l; [by apply step_exchange |]. cbn.
  eapply rtc_l; [by apply (step_cas_fail _ 0%nat (demo_proc (Stored 0) 1) 0) |]. cbn.
  apply rtc_refl.
Qed.

Lemma sched_queue_fifo_witness :
  exists r h' rq', sched_unqueue (c_heap demo_config) {| fresh := 2; head := 0; tail := SlotNull |} = Ok (r, h', rq').
Proof.
  destruct (sched_queue_fifo demo_heap demo_config demo_reachable) as (q & t & f & _ & _ & _ & _ & _ & _ & H).
  destruct (H 2 eq_refl) as (r & h' & rq' & Hu & _). exists r, h', rq'. exact Hu.
Defined.

(** One waiter queues before the notifier stores, one loads after it. *)
Definition demo_wait : wstate :=
  {| w_val := 1; w_list := []; w_run := [7]; w_agents := [{| a_pc := WDone; a_cont := 7 |}; {| a_pc := WDone; a_cont := 0 |}];
     w_waiting := [7] |}.

Lemma demo_wait_reachable : rtc (wait_step 1 0) (wait_init 0) demo_wait.
Proof.
  eapply rtc_l; [apply wait_begin with (k := 7) |]. cbn.
  eapply rtc_l; [by apply (wait_queue _ _ _ 0%nat 7) |]. cbn.
  eapply rtc_l; [by apply (wait_load _ _ _ 0%nat 7) |]. cbn.
  eapply rtc_l; [apply notify_store with (v := 1) |]. cbn.
  eapply rtc_l; [by apply (wait_take _ _ _ 1%nat 0) |]. cbn.
  eapply rtc_l; [by apply (wait_give _ _ _ 1%nat 0 [7]) |]. cbn.
  apply rtc_refl.
Qed.

Lemma sched_no_lost_wakeup_witness : w_list demo_wait = [] /\ w_run demo_wait ≡ₚ [7].
Proof.
  apply (sched_no_lost_wakeup 1 0 0 demo_wait demo_wait_reachable); [| reflexivity].
  intros a Ha. cbn in Ha. apply elem_of_cons in Ha as [-> | ->%list_elem_of_singleton]; reflexivity.
Defined.

Lemma sched_finish_u32_correct_witness :
  exists h' rq' list', sched_finish_u32 demo_heap 0 2 1 5 4 0 = Ok (h', rq', list') /\
    chain h' rq' [1; 2] /\ chain h' list' [].
Proof.
  apply (sched_finish_u32_correct demo_heap 0 2 1 5 4 0 [] [2]); cbn; try done.
  - split; [done |]. split; [done |]. by exists 0.
  - apply (bool_decide_unpack _). vm_compute. exact I.
Defined.

Lemma finish_u16_high_byte_witness :
  finish_u16 demo_heap 0 0 1 256 256 0 = ('(h, list) ← sched_queue_single demo_heap 0 1; Ok (h, 0, list)).
Proof. apply (finish_u16_high_byte demo_heap 0 0 1 256 256); [lia | reflexivity]. Defined.
