(* ===== verification/Xxh64.v ===== *)
(** * XXH64, the content checksum of zstd frames ([src/compression/zstd.c])

    The decoder feeds its output block by block; the state keeps up to 31 bytes
    that do not fill a stripe.  The streaming interface is shown to compute the
    one-shot hash of everything that was fed. *)
From S2P Require Export Prelude.

(** ** Definitions *)
Definition XXH64_SEED : Z := 0.

Definition xxh64_primes : list Z :=
  [11400714785074694791; 14029467366897019727; 1609587929392839161; 9650029242287828579; 2870177450012600261].
Definition prime (i : nat) : Z := nth i xxh64_primes 0.

(** [x << r | x >> (64 - r)] *)
Definition rotl64 (x r : Z) : Z := Z.lor (u64 (Z.shiftl x r)) (Z.shiftr x (64 - r)).

Definition xxh64_step (state : Z) : Z := u64 (rotl64 state 31 * prime 0).
Definition xxh64_shuffle (val : Z) : Z := xxh64_step (u64 (val * prime 1)).
Definition xxh64_round (state val : Z) : Z := xxh64_step (u64 (state + u64 (val * prime 1))).
Definition xxh64_mergestep (state : Z) : Z := u64 (state * prime 0 + prime 3).
Definition xxh64_merge (state val : Z) : Z := xxh64_mergestep (Z.lxor state (xxh64_shuffle val)).

(** The four lanes of [state] and a state of the hash; [buf] holds 32 bytes. *)
Record lanes : Type := { lane0 : Z; lane1 : Z; lane2 : Z; lane3 : Z }.
Record xxh64_state : Type := { x_buf : list Z; x_state : lanes; x_len : Z; x_offset : Z; x_long_hash : bool }.

(** [ldle64a(buf + i)] *)
Definition word64 (buf : list Z) (i : nat) : Z := le_val (take 8 (drop (8 * i) buf)).

Definition round_lanes (s : lanes) (buf : list Z) : lanes :=
  {| lane0 := xxh64_round (lane0 s) (word64 buf 0); lane1 := xxh64_round (lane1 s) (word64 buf 1);
     lane2 := xxh64_round (lane2 s) (word64 buf 2); lane3 := xxh64_round (lane3 s) (word64 buf 3) |}.

Definition xxh64_init (buf : list Z) : xxh64_state :=
  {| x_buf := buf; x_offset := 0; x_len := 0; x_long_hash := false;
     x_state := {| lane0 := u64 (XXH64_SEED + prime 0 + prime 1); lane1 := u64 (XXH64_SEED + prime 1);
                   lane2 := XXH64_SEED; lane3 := u64 (XXH64_SEED - prime 0) |} |}.

(** [memcpy((u8 * )state->buf + off, data, n)] *)
Definition buf_write (buf : list Z) (off : Z) (data : list Z) : list Z :=
  take (Z.to_nat off) buf ++ data ++ drop (Z.to_nat off + length data) buf.

(** [while (size >= 32)]: returns the lanes and the bytes left. *)
Fixpoint stripes (fuel : nat) (s : lanes) (data : list Z) : lanes * list Z :=
  match fuel with
  | O => (s, data)
  | S fuel => if 32 <=? zlen data then stripes fuel (round_lanes s data) (drop 32 data) else (s, data)
  end.

(** [data] is the [size] bytes at [buf]. *)
Definition xxh64_update (state : xxh64_state) (data : list Z) : res xxh64_state :=
  let size := zlen data in
  let len := u64 (x_len state + size) in
  let xxh_offset := x_offset state in
  if (size <=? 32) && (xxh_offset + size <? 32) then
    Ok {| x_buf := buf_write (x_buf state) xxh_offset data; x_state := x_state state; x_len := len;
          x_offset := u8 (xxh_offset + size); x_long_hash := x_long_hash state |}
  else
  let fillup := u8 (32 - xxh_offset) in
  c_assert (fillup <=? size) ;;
  let buf := buf_write (x_buf state) xxh_offset (take (Z.to_nat fillup) data) in
  let data := drop (Z.to_nat fillup) data in
  let '(s, data) := stripes (length data) (round_lanes (x_state state) buf) data in
  Ok {| x_buf := buf_write buf 0 data; x_state := s; x_len := len; x_offset := u8 (zlen data); x_long_hash := true |}.

(** The merge of the lanes. *)
Definition xxh64_lanes (s : lanes) : Z :=
  let '(a, b, c, d) := (lane0 s, lane1 s, lane2 s, lane3 s) in
  let xxh64 := u64 (rotl64 a 1 + rotl64 b 7 + rotl64 c 12 + rotl64 d 18) in
  let xxh64 := xxh64_merge xxh64 a in
  let xxh64 := xxh64_merge xxh64 b in
  let xxh64 := xxh64_merge xxh64 c in
  xxh64_merge xxh64 d.

(** The loop bodies for 8, 4 and 1 bytes, and the last mixing. *)
Definition xxh64_8 (h dw : Z) : Z := xxh64_mergestep (rotl64 (Z.lxor h (xxh64_shuffle dw)) 27).
Definition xxh64_4 (h w : Z) : Z := u64 (rotl64 (Z.lxor h (u64 (w * prime 0))) 23 * prime 1 + prime 2).
Definition xxh64_1 (h b : Z) : Z := u64 (rotl64 (Z.lxor h (u64 (b * prime 4))) 11 * prime 0).
Definition xxh64_mix (h : Z) : Z :=
  let h := Z.lxor h (Z.shiftr h 33) in
  let h := u64 (h * prime 1) in
  let h := Z.lxor h (Z.shiftr h 29) in
  let h := u64 (h * prime 2) in
  Z.lxor h (Z.shiftr h 32).

Definition xxh64_finalize (state : xxh64_state) : res Z :=
  let xxh64 := if x_long_hash state then xxh64_lanes (x_state state) else u64 (XXH64_SEED + prime 4) in
  let xxh64 := u64 (xxh64 + x_len state) in
  let single_rounds := Z.shiftr (x_offset state) 3 in
  c_assert (single_rounds <? 4) ;;
  let xxh64 := foldl (fun h i => xxh64_8 h (word64 (x_buf state) i)) xxh64 (seq 0 (Z.to_nat single_rounds)) in
  let ptr := drop (8 * Z.to_nat single_rounds) (x_buf state) in
  let '(xxh64, ptr) :=
    if flag (x_offset state) 4 then (xxh64_4 xxh64 (le_val (take 4 ptr)), drop 4 ptr) else (xxh64, ptr) in
  let byte_rounds := Z.land (x_offset state) 3 in
  Ok (xxh64_mix (foldl xxh64_1 xxh64 (take (Z.to_nat byte_rounds) ptr))).

(** ** The one-shot hash *)
Fixpoint xxh64_tail (fuel : nat) (h : Z) (data : list Z) : Z :=
  match fuel with
  | O => h
  | S fuel =>
      if 8 <=? zlen data then xxh64_tail fuel (xxh64_8 h (le_val (take 8 data))) (drop 8 data)
      else if 4 <=? zlen data then xxh64_tail fuel (xxh64_4 h (le_val (take 4 data))) (drop 4 data)
      else match data with [] => h | b :: data => xxh64_tail fuel (xxh64_1 h b) data end
  end.

Definition xxh64_oneshot (data : list Z) : Z :=
  let '(s, rest) := stripes (length data) (x_state (xxh64_init [])) data in
  let h := if 32 <=? zlen data then xxh64_lanes s else u64 (XXH64_SEED + prime 4) in
  xxh64_mix (xxh64_tail (length rest) (u64 (h + u64 (zlen data))) rest).

(** Published test vectors. *)
Example xxh64_empty : xxh64_oneshot [] = 0xef46db3751d8e999.
Proof. vm_compute. reflexivity. Qed.
Example xxh64_abc : xxh64_oneshot [0x61; 0x62; 0x63] = 0x44bc2cf5ad770999.
Proof. vm_compute. reflexivity. Qed.

(** ** Stripes *)
Fixpoint nstripes (n : nat) (s : lanes) (data : list Z) : lanes :=
  match n with O => s | S n => nstripes n (round_lanes s data) (drop 32 data) end.

Lemma word64_app d x i : (8 * i + 8 <= length d)%nat -> word64 (d ++ x) i = word64 d i.
Proof.
  intros Hi. unfold word64. rewrite drop_app_le by lia. rewrite take_app_le; [done |]. rewrite length_drop. lia.
Qed.

Lemma round_lanes_app s d x : (32 <= length d)%nat -> round_lanes s (d ++ x) = round_lanes s d.
Proof. intros Hd. unfold round_lanes. by rewrite !word64_app by lia. Qed.

Lemma nstripes_ext n s d x : (32 * n <= length d)%nat -> nstripes n s (d ++ x) = nstripes n s d.
Proof.
  revert s d. induction n as [|n IH]; intros s d Hd; [done |]. simpl. rewrite round_lanes_app by lia.
  rewrite drop_app_le by lia. apply IH. rewrite length_drop. lia.
Qed.

Lemma nstripes_add n k s d : nstripes (n + k) s d = nstripes k (nstripes n s d) (drop (32 * n) d).
Proof.
  revert s d. induction n as [|n IH]; intros s d; [done |]. cbn [nstripes Nat.add]. rewrite IH, drop_drop. do 2 f_equal. lia.
Qed.

Lemma stripes_nstripes fuel s d : (length d <= 32 * fuel + 31)%nat ->
  stripes fuel s d = (nstripes (length d / 32) s d, drop (32 * (length d / 32)) d).
Proof.
  revert s d. induction fuel as [|fuel IH]; intros s d Hf; cbn [stripes].
  - rewrite Nat.div_small by lia. done.
  - destruct (Z.leb_spec 32 (zlen d)).
    + rewrite IH by (rewrite length_drop; lia). rewrite length_drop.
      replace (length d / 32)%nat with (S ((length d - 32) / 32))%nat.
      * cbn [nstripes]. rewrite drop_drop. do 2 f_equal. lia.
      * replace (length d) with (1 * 32 + (length d - 32))%nat at 2 by lia. rewrite Nat.div_add_l by lia. lia.
    + rewrite Nat.div_small by lia. done.
Qed.

(** ** The state after [data] was fed *)
Definition lanes0 : lanes := x_state (xxh64_init []).

Record xrep (st : xxh64_state) (data : list Z) : Prop := {
  xr_buf : length (x_buf st) = 32%nat;
  xr_rest : take (length data mod 32) (x_buf st) = drop (32 * (length data / 32)) data;
  xr_state : x_state st = nstripes (length data / 32) lanes0 data;
  xr_len : x_len st = u64 (zlen data);
  xr_offset : x_offset st = Z.of_nat (length data mod 32);
  xr_long : x_long_hash st = (32 <=? zlen data);
}.

Lemma xrep_init buf : length buf = 32%nat -> xrep (xxh64_init buf) [].
Proof. intros Hb. constructor; done. Qed.

Lemma buf_write_length buf off d : (Z.to_nat off + length d <= length buf)%nat -> length (buf_write buf off d) = length buf.
Proof. intros H. unfold buf_write. rewrite !length_app, length_take, length_drop. lia. Qed.

Lemma buf_write_take buf off d : (Z.to_nat off + length d <= length buf)%nat ->
  take (Z.to_nat off + length d) (buf_write buf off d) = take (Z.to_nat off) buf ++ d.
Proof.
  intros H. unfold buf_write. rewrite app_assoc, take_app_length'; [done |]. rewrite length_app, length_take. lia.
Qed.

Lemma divmod_add a b : (a mod 32 + b < 32)%nat -> ((a + b) / 32 = a / 32 /\ (a + b) mod 32 = a mod 32 + b)%nat.
Proof.
  intros H. pose proof (Nat.Div0.div_mod a 32) as Ha.
  split; symmetry; [apply Nat.div_unique with (a mod 32 + b)%nat | apply Nat.mod_unique with (a / 32)%nat]; lia.
Qed.

Lemma u64_add_l a b : u64 (u64 a + b) = u64 (a + b).
Proof. apply Z.add_mod_idemp_l. lia. Qed.

Lemma rest_length (d : list Z) : length (drop (32 * (length d / 32)) d) = (length d mod 32)%nat.
Proof. rewrite length_drop. pose proof (Nat.div_mod (length d) 32 ltac:(lia)). lia. Qed.

Lemma xrep_small st data new : xrep st data -> (length data mod 32 + length new < 32)%nat ->
  exists st', xxh64_update st new = Ok st' /\ xrep st' (data ++ new).
Proof.
  intros [Hb Hr Hs Hl Ho Hg] Hn. destruct (divmod_add _ _ Hn) as [Hd Hm].
  unfold xxh64_update. rewrite Ho. assert ((zlen new <=? 32) = true) as -> by zb.
  assert ((Z.of_nat (length data mod 32) + zlen new <? 32) = true) as -> by zb. cbn [andb].
  eexists. split; [done |]. pose proof (Nat.Div0.div_mod (length data) 32).
  constructor; cbn [x_buf x_state x_len x_offset x_long_hash]; rewrite ?length_app, ?Hd, ?Hm.
  - rewrite buf_write_length; lia.
  - pose proof (buf_write_take (x_buf st) (Z.of_nat (length data mod 32)) new) as Ht. rewrite Nat2Z.id in Ht.
    rewrite Ht by lia. rewrite Hr, drop_app_le by lia. done.
  - rewrite nstripes_ext by lia. done.
  - rewrite Hl, u64_add_l. f_equal. lia.
  - rewrite u8_small by lia. lia.
  - rewrite Hg. destruct (Z.leb_spec 32 (zlen data)), (Z.leb_spec 32 (Z.of_nat (length data + length new))); try done; lia.
Qed.

Lemma xrep_large st data new : xrep st data -> (32 <= length data mod 32 + length new)%nat ->
  exists st', xxh64_update st new = Ok st' /\ xrep st' (data ++ new).
Proof.
  intros [Hb Hr Hs Hl Ho Hg] Hn. unfold xxh64_update. rewrite Ho.
  pose proof (Nat.Div0.div_mod (length data) 32) as Hdm. pose proof (Nat.mod_upper_bound (length data) 32 ltac:(lia)) as Hub.
  set (r := (length data mod 32)%nat) in *. set (n := (length data / 32)%nat) in *.
  replace ((zlen new <=? 32) && (Z.of_nat r + zlen new <? 32)) with false
    by (symmetry; apply andb_false_iff; right; zb).
  rewrite u8_small by lia. assert_ok. replace (Z.to_nat (32 - Z.of_nat r)) with (32 - r)%nat by lia.
  set (fill := take (32 - r) new). set (new' := drop (32 - r) new).
  assert (length fill = 32 - r)%nat as Hlf by (unfold fill; rewrite length_take; lia).
  assert (buf_write (x_buf st) (Z.of_nat r) fill = drop (32 * n) data ++ fill) as ->.
  { unfold buf_write. rewrite Nat2Z.id, Hr, (drop_ge (x_buf st)) by lia. by rewrite app_nil_r. }
  assert (length (drop (32 * n) data) = r) as Hlr by apply rest_length.
  assert (length new = 32 - r + length new')%nat as Hln by (unfold new'; rewrite length_drop; lia).
  rewrite stripes_nstripes by lia. set (k := (length new' / 32)%nat).
  pose proof (Nat.Div0.div_mod (length new') 32) as Hdk. pose proof (Nat.mod_upper_bound (length new') 32 ltac:(lia)) as Hubk.
  fold k in Hdk.
  assert (length (data ++ new) = 32 * (n + S k) + length new' mod 32)%nat as Htot by (rewrite length_app; lia).
  assert (length (data ++ new) / 32 = n + S k)%nat as Hdiv by (symmetry; eapply Nat.div_unique; [exact Hubk | exact Htot]).
  assert (length (data ++ new) mod 32 = length new' mod 32)%nat as Hmod by (symmetry; eapply Nat.mod_unique; [exact Hubk | exact Htot]).
  assert (length (drop (32 * k) new') = length new' mod 32)%nat as Hlrest by apply rest_length.
  assert (drop (32 * (n + S k)) (data ++ new) = drop (32 * k) new') as Hrest.
  { rewrite drop_app_ge by lia. unfold new'. rewrite drop_drop. f_equal. lia. }
  eexists. split; [done |]. constructor; cbn [x_buf x_state x_len x_offset x_long_hash]; rewrite ?Hdiv, ?Hmod.
  - rewrite buf_write_length; rewrite ?length_app; lia.
  - rewrite Hrest. pose proof (buf_write_take (drop (32 * n) data ++ fill) 0 (drop (32 * k) new')) as Ht.
    change (Z.to_nat 0) with 0%nat in Ht. cbn [Nat.add take app] in Ht. rewrite Hlrest in Ht. apply Ht.
    rewrite length_app. lia.
  - rewrite Hs, nstripes_add. change (S k) with (1 + k)%nat. rewrite nstripes_add. cbn [nstripes].
    rewrite nstripes_ext by lia. rewrite drop_app_le by lia.
    replace (drop (32 * n) data ++ new) with ((drop (32 * n) data ++ fill) ++ new')
      by (unfold fill, new'; by rewrite <- app_assoc, take_drop).
    rewrite (round_lanes_app _ (drop (32 * n) data ++ fill) new') by (rewrite length_app; lia). f_equal.
    rewrite drop_app_length' by (rewrite length_app; lia). done.
  - rewrite Hl, u64_add_l, length_app. f_equal. lia.
  - rewrite Hlrest, u8_small by lia. done.
  - symmetry. apply Z.leb_le. rewrite length_app. lia.
Qed.

Lemma xrep_update st data new : xrep st data -> exists st', xxh64_update st new = Ok st' /\ xrep st' (data ++ new).
Proof.
  intros H. destruct (decide (length data mod 32 + length new < 32)%nat); [by apply xrep_small | apply xrep_large; [done | lia]].
Qed.

(** ** Finalization *)
Lemma word64_shift d i : word64 (drop 8 d) i = word64 d (S i).
Proof. unfold word64. rewrite drop_drop. do 3 f_equal. lia. Qed.

Lemma xxh64_tail_words n fuel h d : (8 * n <= length d)%nat -> (length d <= fuel)%nat ->
  xxh64_tail fuel h d
  = xxh64_tail (fuel - n) (foldl (fun h i => xxh64_8 h (word64 d i)) h (seq 0 n)) (drop (8 * n) d).
Proof.
  revert fuel h d. induction n as [|n IH]; intros fuel h d Hd Hf; [by rewrite Nat.sub_0_r |].
  destruct fuel as [|fuel]; [lia |]. cbn [xxh64_tail]. assert ((8 <=? zlen d) = true) as -> by zb.
  rewrite IH by (rewrite length_drop; lia). rewrite drop_drop. cbn [seq foldl Nat.sub].
  replace (8 + 8 * n)%nat with (8 * S n)%nat by lia. f_equal.
  change (word64 d 0) with (le_val (take 8 d)). rewrite <- seq_shift.
  assert (forall l a, foldl (fun h i => xxh64_8 h (word64 (drop 8 d) i)) a l =
                      foldl (fun h i => xxh64_8 h (word64 d i)) a (map S l)) as He; [| apply He].
  induction l as [|i l IHl]; intros a; [done |]. cbn [foldl map]. by rewrite IHl, word64_shift.
Qed.

Lemma xxh64_tail_bytes fuel h d : (length d < 4)%nat -> (length d <= fuel)%nat ->
  xxh64_tail fuel h d = foldl xxh64_1 h d.
Proof.
  revert fuel h. induction d as [|b d IH]; intros fuel h Hd Hf; destruct fuel as [|fuel]; simpl in Hd, Hf; try done; try lia.
  cbn [xxh64_tail]. assert ((8 <=? zlen (b :: d)) = false) as -> by (simpl; zb).
  assert ((4 <=? zlen (b :: d)) = false) as -> by (simpl; zb). cbn [foldl]. apply IH; lia.
Qed.

Lemma flag_4 x : 0 <= x -> flag x 4 = (4 <=? x mod 8).
Proof.
  intros Hx. change 4 with (2 ^ 2) at 1. rewrite flag_bit by lia. rewrite Z.testbit_odd, Z.shiftr_div_pow2 by lia.
  change (2 ^ 2) with 4. rewrite Zodd_mod. destruct (Z.leb_spec 4 (x mod 8)).
  - apply Z.eqb_eq. dlia.
  - apply Z.eqb_neq. dlia.
Qed.

(** Eight, four and one bytes at a time, from a buffer with [rest] at its start. *)
Lemma xxh64_finalize_ok st rest junk : x_buf st = rest ++ junk -> (length rest < 32)%nat -> x_offset st = zlen rest ->
  xxh64_finalize st = Ok (xxh64_mix (xxh64_tail (length rest)
    (u64 ((if x_long_hash st then xxh64_lanes (x_state st) else u64 (XXH64_SEED + prime 4)) + x_len st)) rest)).
Proof.
  intros Hb Hl Ho. unfold xxh64_finalize. rewrite Ho, Hb, Z.shiftr_div_pow2 by lia. change (2 ^ 3) with 8.
  pose proof (Z.div_mod (zlen rest) 8 ltac:(lia)) as Hdm. pose proof (Z.mod_pos_bound (zlen rest) 8 ltac:(lia)) as Hmb.
  assert_ok. set (h := u64 _). set (n := Z.to_nat (zlen rest / 8)).
  assert (8 * n + Z.to_nat (zlen rest mod 8) = length rest)%nat as Hn by lia.
  rewrite (xxh64_tail_words n) by lia.
  assert (foldl (fun h i => xxh64_8 h (word64 (rest ++ junk) i)) h (seq 0 n)
        = foldl (fun h i => xxh64_8 h (word64 rest i)) h (seq 0 n)) as ->.
  { assert (forall l a, Forall (fun i => i < n)%nat l -> foldl (fun h i => xxh64_8 h (word64 (rest ++ junk) i)) a l
        = foldl (fun h i => xxh64_8 h (word64 rest i)) a l) as He.
    { induction l as [|i l IH]; intros a Hi; [done |]. apply Forall_cons_1 in Hi as [Hi Hl']. cbn [foldl].
      rewrite word64_app by lia. by apply IH. }
    apply He, Forall_forall. intros i Hi%in_seq. lia. }
  set (h1 := foldl _ _ _). rewrite flag_4 by lia. rewrite drop_app_le by lia. set (d := drop (8 * n) rest).
  assert (length d = Z.to_nat (zlen rest mod 8)) as Hd by (unfold d; rewrite length_drop; lia).
  change 3 with (2 ^ 2 - 1). rewrite land_ones_mod by lia. change (2 ^ 2) with 4.
  destruct (Z.leb_spec 4 (zlen rest mod 8)).
  - assert (exists fuel, (length rest - n = S fuel)%nat) as [fuel Hf] by (exists (length rest - n - 1)%nat; lia).
    rewrite Hf. cbn [xxh64_tail]. assert ((8 <=? zlen d) = false) as -> by zb. assert ((4 <=? zlen d) = true) as -> by zb.
    rewrite take_app_le, drop_app_le by lia. rewrite xxh64_tail_bytes by (rewrite length_drop; lia).
    rewrite take_app_length'; [done |]. rewrite length_drop. dlia.
  - rewrite xxh64_tail_bytes by lia. rewrite take_app_length'; [done |]. dlia.
Qed.

Lemma xrep_finalize st data : xrep st data -> xxh64_finalize st = Ok (xxh64_oneshot data).
Proof.
  intros [Hbuf Hr Hs Hl Ho Hg]. pose proof (Nat.mod_upper_bound (length data) 32 ltac:(lia)) as Hub.
  rewrite (xxh64_finalize_ok st (drop (32 * (length data / 32)) data) (drop (length data mod 32) (x_buf st))).
  - unfold xxh64_oneshot. rewrite stripes_nstripes by lia. rewrite Hg, Hs, Hl. done.
  - by rewrite <- Hr, take_drop.
  - by rewrite rest_length.
  - by rewrite rest_length.
Qed.

(** C33: Feeding data block by block gives the one-shot hash: from the initial
    state, any sequence of [xxh64_update] calls succeeds, and [xxh64_finalize]
    then returns the XXH64 of the concatenation, wherever the block boundaries
    are; no assertion fails. *)
Theorem xxh64_stream_correct buf blocks : length buf = 32%nat ->
  exists st, foldM xxh64_update (xxh64_init buf) blocks = Ok st /\
    xxh64_finalize st = Ok (xxh64_oneshot (mjoin blocks)).
Proof.
  intros Hb. assert (forall blocks st data, xrep st data ->
    exists st', foldM xxh64_update st blocks = Ok st' /\ xrep st' (data ++ mjoin blocks)) as Hall.
  { induction blocks0 as [|new bl IH]; intros st data Hst; cbn [foldM mjoin list_join]; [rewrite app_nil_r; eauto |].
    destruct (xrep_update st data new Hst) as (st' & -> & Hst'). cbn [mbind res_bind].
    destruct (IH st' (data ++ new) Hst') as (st'' & -> & Hst''). exists st''. by rewrite <- app_assoc in Hst''. }
  destruct (Hall blocks _ [] (xrep_init buf Hb)) as (st & -> & Hst). exists st. split; [done |]. cbn [app] in Hst.
  by apply xrep_finalize.
Qed.

Lemma xxh64_stream_correct_witness :
  exists st, foldM xxh64_update (xxh64_init (replicate 32 7)) [[0x61]; []; [0x62; 0x63]] = Ok st /\
    xxh64_finalize st = Ok 0x44bc2cf5ad770999.
Proof.
  destruct (xxh64_stream_correct (replicate 32 7) [[0x61]; []; [0x62; 0x63]] eq_refl) as (st & Hst & Hf).
  exists st. split; [exact Hst |]. rewrite Hf. vm_compute. reflexivity.
Defined.
