(* ===== verification/Fse.v ===== *)
(** * Finite state entropy tables of zstd ([src/compression/zstd_fse.c])

    [fse_decode_distribution] reads a normalized distribution, coded with
    truncated binary numbers, and [fse_build_table] builds the decoding table of
    a distribution.  A weight is the probability plus one, so that 0 stands for
    the probability "less than one". *)
From S2P Require Export Cmem.

(** ** Definitions *)

(** [check(expr, ...)]: returns a null pointer when the condition fails. *)
Definition check {A} (b : bool) (k : res (option A)) : res (option A) := if b then k else Ok None.

(** [__builtin_clz] on a positive 32-bit number. *)
Definition clz32 (x : Z) : Z := 31 - Z.log2 x.

Definition trunc_length (range : Z) : Z := u8 (clz32 1 - clz32 range).
Definition trunc_cutoff (range length : Z) : Z := u32 (Z.shiftl 2 length - range).

(** The bit reader: bits, their number, and the next byte. *)
Record bitreader : Type := { br_bits : Z; br_num : Z; br_in : Z }.

(** [bits |= *in++ << num_bits; num_bits += 8;] *)
Definition br_fetch (m : mem) (end_ : Z) (r : bitreader) : res (option bitreader) :=
  check (1 <=? end_ - br_in r) (
  b ← ld8 m (br_in r);
  Ok (Some {| br_bits := u32 (Z.lor (br_bits r) (Z.shiftl b (br_num r))); br_num := u8 (br_num r + 8); br_in := br_in r + 1 |})).

Definition br_drop (n : Z) (r : bitreader) : bitreader :=
  {| br_bits := Z.shiftr (br_bits r) n; br_num := u8 (br_num r - n); br_in := br_in r |}.

(** [while (num_bits < length)] *)
Fixpoint br_fill (fuel : nat) (m : mem) (end_ length : Z) (r : bitreader) : res (option bitreader) :=
  match fuel with
  | O => Trap TrapFuel
  | S fuel =>
      if br_num r <? length then
        o ← br_fetch m end_ r;
        match o with None => Ok None | Some r => br_fill fuel m end_ length r end
      else Ok (Some r)
  end.

(** One value below [entries_left + 2], in a truncated binary code. *)
Definition fse_value (m : mem) (end_ entries_left : Z) (r : bitreader) : res (option (Z * bitreader)) :=
  let length := trunc_length (entries_left + 2) in
  let mask := Z.shiftl 1 length - 1 in
  let cutoff := trunc_cutoff (entries_left + 2) length in
  o ← br_fill 4 m end_ length r;
  match o with
  | None => Ok None
  | Some r =>
      let val := Z.land (br_bits r) mask in
      let r := br_drop length r in
      if cutoff <=? val then
        o ← (if br_num r <? 1 then br_fetch m end_ r else Ok (Some r));
        match o with
        | None => Ok None
        | Some r =>
            let val := u32 (val + if flag (br_bits r) 1 then Z.shiftl 1 length - cutoff else 0) in
            Ok (Some (val, br_drop 1 r))
        end
      else Ok (Some (val, r))
  end.

(** [for_range(i, 0, rep) {weights[++sym] = 1;}] *)
Definition fse_zeros (weights : list Z) (sym rep : Z) : res (list Z) :=
  foldM (fun w i => seti w (sym + 1 + i) 1) weights (range 0 rep).

(** [do {...} while (rep == 3)] after a weight of 1. *)
Fixpoint fse_repeat (fuel : nat) (m : mem) (end_ max_sym sym : Z) (weights : list Z) (r : bitreader)
    : res (option (Z * list Z * bitreader)) :=
  match fuel with
  | O => Trap TrapFuel
  | S fuel =>
      o ← (if br_num r <? 2 then br_fetch m end_ r else Ok (Some r));
      match o with
      | None => Ok None
      | Some r =>
          let rep := Z.land (br_bits r) 3 in
          let r := br_drop 2 r in
          check (sym + rep <=? max_sym) (
          weights ← fse_zeros weights sym rep;
          if rep =? 3 then fse_repeat fuel m end_ max_sym (sym + rep) weights r
          else Ok (Some (sym + rep, weights, r)))
      end
  end.

(** [for_range(sym, 0, max_sym)] *)
Fixpoint fse_symbols (fuel : nat) (m : mem) (end_ max_sym sym entries_left : Z) (weights : list Z) (r : bitreader)
    : res (option (Z * list Z)) :=
  match fuel with
  | O => Trap TrapFuel
  | S fuel =>
      if negb (sym <? max_sym) then Ok None
      else
      o ← fse_value m end_ entries_left r;
      match o with
      | None => Ok None
      | Some (val, r) =>
          weights ← seti weights sym val;
          if negb (val =? 1) then
            c_assert ((val =? 0) || (val - 1 <=? entries_left)) ;;
            let entries_left := u32 (entries_left - if val =? 0 then 1 else val - 1) in
            if entries_left =? 0 then
              weights ← foldM (fun w i => seti w i 1) weights (range (sym + 1) max_sym);
              Ok (Some (br_in r, weights))
            else fse_symbols fuel m end_ max_sym (sym + 1) entries_left weights r
          else
            o ← fse_repeat (S (Z.to_nat max_sym)) m end_ max_sym sym weights r;
            match o with
            | None => Ok None
            | Some (sym, weights, r) => fse_symbols fuel m end_ max_sym (sym + 1) entries_left weights r
            end
      end
  end.

(** Returns the position after the distribution, [*log_ptr] and [weights]. *)
Definition fse_decode_distribution (m : mem) (in_ end_ max_sym : Z) (weights : list Z) : res (option (Z * Z * list Z)) :=
  check (1 <=? end_ - in_) (
  bits ← ld8 m in_;
  let log := u8 (Z.land bits 15 + 5) in
  let r := {| br_bits := Z.shiftr bits 4; br_num := 4; br_in := in_ + 1 |} in
  let entries_left := Z.shiftl 1 log in
  o ← fse_symbols (S (Z.to_nat max_sym)) m end_ max_sym 0 entries_left weights r;
  match o with None => Ok None | Some (in_, weights) => Ok (Some (in_, log, weights)) end).

(** *** Building a table *)

(** [table[mask - num_lt1] = log | sym << 5] for the symbols of weight 0. *)
Definition fse_lt1 (log mask : Z) (distribution : list Z) (st : list Z * Z) (sym : Z) : res (list Z * Z) :=
  let '(table, num_lt1) := st in
  d ← geti distribution sym;
  if d =? 0 then
    table ← seti table (mask - num_lt1) (Z.lor log (Z.shiftl sym 5));
    Ok (table, u8 (num_lt1 + 1))
  else Ok (table, num_lt1).

(** [do {pos += step; pos &= mask;} while (pos > mask - num_lt1);] *)
Fixpoint fse_advance (fuel : nat) (step mask num_lt1 pos : Z) : res Z :=
  match fuel with
  | O => Trap TrapFuel
  | S fuel =>
      let pos := Z.land (u32 (pos + step)) mask in
      if u32 (mask - num_lt1) <? pos then fse_advance fuel step mask num_lt1 pos else Ok pos
  end.

(** The columns [num_bits], [cutoff] and [counter] are lists with one element per symbol. *)
Record fse_cols : Type := { fc_bits : list Z; fc_cutoff : list Z; fc_counter : list Z }.

(** One symbol of the spreading loop. *)
Definition fse_spread (log mask step num_lt1 : Z) (distribution : list Z) (st : fse_cols * list Z * Z) (sym : Z)
    : res (fse_cols * list Z * Z) :=
  let '(c, table, pos) := st in
  prob ← geti distribution sym;
  counter ← seti (fc_counter c) sym 0;
  if prob <=? 1 then
    nb ← seti (fc_bits c) sym log;
    cu ← seti (fc_cutoff c) sym (Z.shiftl 1 log);
    Ok ({| fc_bits := nb; fc_cutoff := cu; fc_counter := counter |}, table, pos)
  else
  let len := trunc_length (prob - 1) in
  nb ← seti (fc_bits c) sym (u8 (log - len));
  cu ← seti (fc_cutoff c) sym (trunc_cutoff (prob - 1) len);
  '(table, pos) ← foldM (fun '(table, pos) (_ : Z) =>
      table ← seti table pos sym;
      pos ← fse_advance (Z.to_nat (mask + 1)) step mask num_lt1 pos;
      Ok (table, pos)) (table, pos) (range 0 (prob - 1));
  Ok ({| fc_bits := nb; fc_cutoff := cu; fc_counter := counter |}, table, pos).

(** One entry of the last loop. *)
Definition fse_finish (log mask num_sym : Z) (distribution : list Z) (st : fse_cols * list Z) (i : Z)
    : res (fse_cols * list Z) :=
  let '(c, table) := st in
  sym ← geti table i;
  c_assert (sym <? num_sym) ;;
  d ← geti distribution sym;
  c_assert (1 <? d) ;;
  this_num_bits ← geti (fc_bits c) sym;
  this_cutoff ← geti (fc_cutoff c) sym;
  this_counter ← geti (fc_counter c) sym;
  counter ← seti (fc_counter c) sym (u32 (this_counter + 1));
  let '(read_bits, base) :=
    if this_counter <? this_cutoff
    then (this_num_bits, u32 (this_counter + Z.shiftl 1 (log - this_num_bits) - this_cutoff))
    else (u32 (this_num_bits - 1), u32 (this_counter - this_cutoff)) in
  let base := u32 (Z.shiftl base read_bits) in
  c_assert (base <? mask) ;;
  table ← seti table i (Z.lor (Z.lor read_bits (Z.shiftl sym 5)) (u32 (Z.shiftl base 11)));
  Ok ({| fc_bits := fc_bits c; fc_cutoff := fc_cutoff c; fc_counter := counter |}, table).

(** [junk] is what the uninitialized columns hold. *)
Definition fse_build_table (junk : fse_cols) (log num_sym : Z) (distribution table : list Z) : res (list Z) :=
  c_assert ((5 <=? log) && (log <=? 20) && (num_sym <=? 64)) ;;
  let mask := Z.shiftl 1 log - 1 in
  let step := Z.lor (Z.shiftl 5 (log - 3)) 3 in
  '(table, num_lt1) ← foldM (fse_lt1 log mask distribution) (table, 0) (range 0 num_sym);
  '(c, table, pos) ← foldM (fse_spread log mask step num_lt1 distribution) (junk, table, 0) (range 0 num_sym);
  c_assert (pos =? 0) ;;
  '(_, table) ← foldM (fse_finish log mask num_sym distribution) (c, table) (range 0 (Z.shiftl 1 log - num_lt1));
  Ok table.

(** The fields of an entry ([zstd_internal.h]). *)
Definition fse_bits (entry : Z) : Z := Z.land entry 31.
Definition fse_sym (entry : Z) : Z := Z.land (Z.shiftr entry 5) 63.
Definition fse_base (entry : Z) : Z := Z.shiftr entry 11.

(** ** Specification of a table *)

(** Cells of the table per weight, and those that the spreading fills. *)
Definition cells (w : Z) : Z := if w =? 0 then 1 else w - 1.
Definition spread_cells (w : Z) : nat := if w <=? 1 then 0 else Z.to_nat (w - 1).
Definition weight (distribution : list Z) (s : Z) : Z := nth (Z.to_nat s) distribution 0.

Definition zsum (l : list Z) : Z := foldr Z.add 0 l.
Definition total_cells (distribution : list Z) (num_sym : Z) : Z :=
  zsum (map (fun s => cells (weight distribution s)) (range 0 num_sym)).

(** The symbols of weight 0, and the symbols in the order of spreading. *)
Definition lt1_syms (distribution : list Z) (n : Z) : list Z :=
  filter (fun s => weight distribution s = 0) (range 0 n).
Definition spread_syms (distribution : list Z) (n : Z) : list Z :=
  mjoin (map (fun s => replicate (spread_cells (weight distribution s)) s) (range 0 n)).

(** The step of RFC 8878, 4.1.1: half the size plus an eighth plus 3. *)
Definition fse_step (size : Z) : Z := size / 2 + size / 8 + 3.

(** The cells in the order of spreading: multiples of the step, less the cells
    at the end, which belong to the symbols of weight 0. *)
Definition fse_visit (size step high k : Z) : list Z :=
  filter (fun p => p <= high) (map (fun i => (i * step) mod size) (range 0 k)).

Definition entry_at (table : list Z) (i : Z) : Z := nth (Z.to_nat i) table 0.

Record fse_table_ok (log num_sym : Z) (distribution table : list Z) : Prop := {
  (** the entry of a cell stays inside of the table *)
  ft_range : forall i, 0 <= i < 2 ^ log ->
    0 <= fse_sym (entry_at table i) < num_sym /\ 0 <= fse_base (entry_at table i) /\
    fse_base (entry_at table i) + 2 ^ fse_bits (entry_at table i) <= 2 ^ log;
  (** symbols are spread as the format demands *)
  ft_spread : map (fun p => fse_sym (entry_at table p))
      (fse_visit (2 ^ log) (fse_step (2 ^ log)) (2 ^ log - 1 - zlen (lt1_syms distribution num_sym)) (2 ^ log))
    = spread_syms distribution num_sym;
  ft_lt1 : forall j s, lt1_syms distribution num_sym !! j = Some s ->
    fse_sym (entry_at table (2 ^ log - 1 - Z.of_nat j)) = s;
  (** every symbol with a cell leads to every state from exactly one cell *)
  ft_states : forall s state, 0 <= s < num_sym -> weight distribution s <> 1 -> 0 <= state < 2 ^ log ->
    exists i, (0 <= i < 2 ^ log /\ fse_sym (entry_at table i) = s /\
      fse_base (entry_at table i) <= state < fse_base (entry_at table i) + 2 ^ fse_bits (entry_at table i)) /\
    forall i', 0 <= i' < 2 ^ log -> fse_sym (entry_at table i') = s ->
      fse_base (entry_at table i') <= state < fse_base (entry_at table i') + 2 ^ fse_bits (entry_at table i') -> i' = i;
}.

(** ** The fields of an entry *)
Lemma entry_fields rb sym base : 0 <= rb < 32 -> 0 <= sym < 64 -> 0 <= base < 2 ^ 21 ->
  let e := Z.lor (Z.lor rb (Z.shiftl sym 5)) (u32 (Z.shiftl base 11)) in
  fse_bits e = rb /\ fse_sym e = sym /\ fse_base e = base.
Proof.
  intros Hr Hs Hb e. assert (e = rb + sym * 32 + base * 2048) as He.
  { unfold e. rewrite u32_small by (rewrite Z.shiftl_mul_pow2 by lia; lia).
    rewrite (lor_shiftl_add rb) by lia. rewrite lor_shiftl_add by lia. lia. }
  unfold fse_bits, fse_sym, fse_base. rewrite He. change 31 with (2 ^ 5 - 1). change 63 with (2 ^ 6 - 1).
  rewrite !land_ones_mod, !Z.shiftr_div_pow2 by lia. change (2 ^ 5) with 32. change (2 ^ 6) with 64. change (2 ^ 11) with 2048.
  split_and!; dlia.
Qed.

Lemma entry_fields_lt1 log sym : 0 <= log < 32 -> 0 <= sym < 64 ->
  let e := Z.lor log (Z.shiftl sym 5) in fse_bits e = log /\ fse_sym e = sym /\ fse_base e = 0.
Proof.
  intros Hl Hs. pose proof (entry_fields log sym 0 Hl Hs ltac:(lia)) as H. change (u32 (Z.shiftl 0 11)) with 0 in H.
  by rewrite Z.lor_0_r in H.
Qed.

(** ** The states of one symbol

    A symbol with [n] cells: the [c]-th of them reads [sub_bits] bits and
    starts at [sub_base]. *)
Section SubStates.
Context (log n : Z).
Definition sub_len : Z := Z.log2 n.
Definition sub_cutoff : Z := 2 * 2 ^ sub_len - n.
Definition sub_bits (c : Z) : Z := if c <? sub_cutoff then log - sub_len else log - sub_len - 1.
Definition sub_base (c : Z) : Z :=
  (if c <? sub_cutoff then c + 2 ^ sub_len - sub_cutoff else c - sub_cutoff) * 2 ^ sub_bits c.

Hypothesis Hn : 1 <= n <= 2 ^ log.
Hypothesis Hlog : 0 <= log.

Lemma sub_len_ok : 0 <= sub_len <= log /\ 2 ^ sub_len <= n < 2 * 2 ^ sub_len /\ 2 ^ log = 2 ^ sub_len * 2 ^ (log - sub_len).
Proof.
  unfold sub_len. pose proof (Z.log2_spec n ltac:(lia)) as Hs. rewrite Z.pow_succ_r in Hs by apply Z.log2_nonneg.
  assert (0 <= Z.log2 n <= log) as Hl.
  { split; [apply Z.log2_nonneg |]. rewrite <- (Z.log2_pow2 log) by lia. apply Z.log2_le_mono. lia. }
  split; [done |]. split; [lia |]. rewrite <- Z.pow_add_r by lia. f_equal. lia.
Qed.

Lemma sub_cutoff_ok : 1 <= sub_cutoff <= n.
Proof. unfold sub_cutoff. destruct sub_len_ok as (_ & ? & _). lia. Qed.

Lemma sub_bits_ok c : 0 <= c < n -> 0 <= sub_bits c <= log.
Proof.
  intros Hc. unfold sub_bits. destruct sub_len_ok as (Hl & Hp & He). unfold sub_cutoff in *. case_bool; [lia |].
  assert (sub_len <> log); [| lia]. intros Heq. rewrite Heq in *. lia.
Qed.

Lemma sub_base_bound c : 0 <= c < n -> 0 <= sub_base c /\ sub_base c + 2 ^ sub_bits c <= 2 ^ log.
Proof.
  intros Hc. pose proof (sub_bits_ok c Hc) as Hb. unfold sub_base, sub_bits in *. destruct sub_len_ok as (Hl & Hp & He).
  unfold sub_cutoff in *. revert Hb. case_bool; intros Hb.
  - rewrite He. split; [apply Z.mul_nonneg_nonneg; lia |].
    transitivity ((c + 2 ^ sub_len - (2 * 2 ^ sub_len - n) + 1) * 2 ^ (log - sub_len)); [lia |].
    apply Z.mul_le_mono_nonneg_r; lia.
  - replace (log - sub_len) with ((log - sub_len - 1) + 1) in He by lia. rewrite (Z.pow_add_r 2 _ 1) in He by lia.
    split; [apply Z.mul_nonneg_nonneg; lia |].
    transitivity ((c - (2 * 2 ^ sub_len - n) + 1) * 2 ^ (log - sub_len - 1)); [lia |].
    transitivity (2 * 2 ^ sub_len * 2 ^ (log - sub_len - 1)); [apply Z.mul_le_mono_nonneg_r; lia |]. rewrite He. lia.
Qed.

(** The cells' state ranges partition the states. *)
Lemma sub_states state : 0 <= state < 2 ^ log ->
  exists c, (0 <= c < n /\ sub_base c <= state < sub_base c + 2 ^ sub_bits c) /\
    forall c', 0 <= c' < n -> sub_base c' <= state < sub_base c' + 2 ^ sub_bits c' -> c' = c.
Proof.
  intros Hst. destruct sub_len_ok as (Hl & Hp & He). pose proof sub_cutoff_ok as Hcu.
  set (B := 2 ^ (log - sub_len)) in *. assert (0 < B) as HB by (unfold B; lia).
  set (low := (n - 2 ^ sub_len) * B).
  assert (forall c, 0 <= c < sub_cutoff -> sub_base c = low + c * B /\ sub_bits c = log - sub_len) as Hhi.
  { intros c Hc. unfold sub_base, sub_bits. assert ((c <? sub_cutoff) = true) as -> by zb. fold B.
    unfold low, sub_cutoff. split; [ring | done]. }
  destruct (Z.lt_ge_cases state low) as [Hlow | Hge].
  - (* the short reads *)
    assert (sub_len < log) as Hlt.
    { destruct (Z.eq_dec sub_len log) as [Heq | ?]; [| lia]. exfalso. unfold low in Hlow.
      assert (n <= 2 ^ sub_len) by (rewrite Heq; lia).
      assert ((n - 2 ^ sub_len) * B <= 0) by (apply Z.mul_nonpos_nonneg; lia). lia. }
    set (H := 2 ^ (log - sub_len - 1)). assert (B = 2 * H) as HBH.
    { unfold B, H. rewrite <- Z.pow_succ_r by lia. f_equal. lia. }
    assert (0 < H) by (unfold H; lia).
    assert (forall c, sub_cutoff <= c < n -> sub_base c = (c - sub_cutoff) * H /\ sub_bits c = log - sub_len - 1) as Hlo.
    { intros c Hc. unfold sub_base, sub_bits. assert ((c <? sub_cutoff) = false) as -> by zb. done. }
    assert (low = (n - sub_cutoff) * H) as Hlw by (unfold low, sub_cutoff; rewrite HBH; ring).
    pose proof (Z.div_mod state H ltac:(lia)) as Hdm. pose proof (Z.mod_pos_bound state H ltac:(lia)) as Hmb.
    assert (0 <= state / H < n - sub_cutoff) as Hq by (split; [apply Z.div_pos; lia | apply Z.div_lt_upper_bound; lia]).
    exists (sub_cutoff + state / H). split.
    + split; [lia |]. destruct (Hlo (sub_cutoff + state / H) ltac:(lia)) as [-> ->]. fold H. lia.
    + intros c' Hc' Hin. destruct (Z.lt_ge_cases c' sub_cutoff) as [Hlt' | Hge'].
      * destruct (Hhi c' ltac:(lia)) as [Hb' _]. rewrite Hb' in Hin. assert (0 <= c' * B) by (apply Z.mul_nonneg_nonneg; lia). lia.
      * destruct (Hlo c' ltac:(lia)) as [Hb' Hbits']. rewrite Hb', Hbits' in Hin. fold H in Hin.
        assert (state / H = c' - sub_cutoff); [| lia]. symmetry. apply Z.div_unique with (state - (c' - sub_cutoff) * H); lia.
  - pose proof (Z.div_mod (state - low) B ltac:(lia)) as Hdm. pose proof (Z.mod_pos_bound (state - low) B ltac:(lia)) as Hmb.
    assert (low + sub_cutoff * B = 2 ^ log) as Htop by (rewrite He; unfold low, sub_cutoff; ring).
    assert (0 <= (state - low) / B < sub_cutoff) as Hq by (split; [apply Z.div_pos; lia | apply Z.div_lt_upper_bound; lia]).
    exists ((state - low) / B). split.
    + split; [lia |]. destruct (Hhi ((state - low) / B) ltac:(lia)) as [-> ->]. fold B. lia.
    + intros c' Hc' Hin. destruct (Z.lt_ge_cases c' sub_cutoff) as [Hlt' | Hge'].
      * destruct (Hhi c' ltac:(lia)) as [Hb' Hbits']. rewrite Hb', Hbits' in Hin. fold B in Hin.
        symmetry. symmetry. apply Z.div_unique with (state - low - c' * B); lia.
      * exfalso. unfold sub_base, sub_bits in Hin. assert ((c' <? sub_cutoff) = false) as Hf by zb. rewrite Hf in Hin.
        pose proof (sub_bits_ok c' Hc') as Hbn. unfold sub_bits in Hbn. rewrite Hf in Hbn.
        assert (B = 2 * 2 ^ (log - sub_len - 1)) as HBH.
        { unfold B. rewrite <- Z.pow_succ_r by lia. f_equal. lia. }
        assert ((c' - sub_cutoff + 1) * 2 ^ (log - sub_len - 1) <= (n - sub_cutoff) * 2 ^ (log - sub_len - 1))
          by (apply Z.mul_le_mono_nonneg_r; lia).
        assert (low = (n - sub_cutoff) * 2 ^ (log - sub_len - 1)) by (unfold low, sub_cutoff; rewrite HBH; ring). lia.
Qed.
End SubStates.

(** ** The walk over the cells *)
Lemma range_snoc a b : a <= b -> range a (b + 1) = range a b ++ [b].
Proof.
  intros H. unfold range. replace (b + 1 - a) with (b - a + 1) by lia. rewrite seqZ_app by lia. f_equal.
  replace (a + (b - a)) with b by lia. rewrite seqZ_cons by lia. by rewrite seqZ_nil by lia.
Qed.

Lemma range_split a b c : a <= b <= c -> range a c = range a b ++ range b c.
Proof.
  intros H. unfold range. replace (c - a) with ((b - a) + (c - b)) by lia. rewrite seqZ_app by lia. do 2 f_equal. lia.
Qed.

Lemma range_elem a b x : x ∈ range a b <-> a <= x < b.
Proof. unfold range. rewrite elem_of_seqZ. lia. Qed.

Lemma range_length a b : length (range a b) = Z.to_nat (b - a).
Proof. apply length_seqZ. Qed.

Lemma range_NoDup a b : NoDup (range a b).
Proof. apply NoDup_seqZ. Qed.

Lemma filter_all (P : Z -> Prop) `{forall x, Decision (P x)} l : Forall P l -> filter P l = l.
Proof. induction 1 as [|x l Hx _ IH]; [done |]. by rewrite filter_cons_True, IH. Qed.

Lemma filter_none (P : Z -> Prop) `{forall x, Decision (P x)} l : Forall (fun x => ~ P x) l -> filter P l = [].
Proof. induction 1 as [|x l Hx _ IH]; [done |]. by rewrite filter_cons_False, IH. Qed.

Section Visit.
Context (size step : Z).
Hypothesis Hsize : 1 <= size.
Hypothesis Hstep : Z.gcd size step = 1.

Definition cell (k : Z) : Z := (k * step) mod size.

Lemma cell_range k : 0 <= cell k < size.
Proof. apply Z.mod_pos_bound. lia. Qed.

Lemma cell_inj j k : 0 <= j < size -> 0 <= k < size -> cell j = cell k -> j = k.
Proof.
  intros Hj Hk He. assert (size | (j - k) * step) as Hd.
  { apply Z.mod_divide; [lia |]. replace ((j - k) * step) with (j * step - k * step) by ring.
    unfold cell in He. rewrite Zminus_mod, He, Z.sub_diag. apply Z.mod_0_l. lia. }
  rewrite Z.mul_comm in Hd. apply Z.gauss in Hd; [| done]. destruct Hd as [q Hq].
  assert (q = 0); [| lia]. nia.
Qed.

Lemma cell_next k : (cell k + step) mod size = cell (k + 1).
Proof. unfold cell. rewrite Z.add_mod_idemp_l by lia. f_equal. ring. Qed.

Lemma cell_size : cell size = 0.
Proof. unfold cell. by rewrite Z.mul_comm, Z.mod_mul by lia. Qed.

Context (high : Z).
Abbreviation visit := (fse_visit size step high).

Lemma visit_succ k : 0 <= k -> visit (k + 1) = visit k ++ (if decide (cell k <= high) then [cell k] else []).
Proof.
  intros Hk. unfold fse_visit. rewrite range_snoc, map_app, list.filter_app by lia. f_equal.
Qed.

Hypothesis Hhigh : -1 <= high < size.

Lemma visit_perm : visit size ≡ₚ range 0 (high + 1).
Proof.
  unfold fse_visit. assert (map (fun i => (i * step) mod size) (range 0 size) ≡ₚ range 0 size) as ->.
  { apply NoDup_Permutation_bis.
    - apply NoDup_ListNoDup. apply NoDup_fmap_2_strong; [| apply range_NoDup].
      intros x y Hx%range_elem Hy%range_elem He. by apply cell_inj.
    - by rewrite length_map.
    - intros x Hx. apply in_map_iff in Hx as (i & <- & _). apply list_elem_of_In, range_elem. apply cell_range. }
  rewrite (range_split 0 (high + 1) size) by lia. rewrite list.filter_app.
  rewrite (filter_all _ (range 0 _)), (filter_none _ (range (high + 1) _)); [by rewrite app_nil_r | |].
  - apply Forall_forall. intros x Hx%list_elem_of_In%range_elem. lia.
  - apply Forall_forall. intros x Hx%list_elem_of_In%range_elem. lia.
Qed.
End Visit.

Lemma nth_some (l : list Z) i : 0 <= i < zlen l -> l !! Z.to_nat i = Some (nth (Z.to_nat i) l 0).
Proof. intros Hi. destruct (nth_lookup_or_length l (Z.to_nat i) 0); [done | lia]. Qed.

Lemma geti_nth (l : list Z) i : 0 <= i < zlen l -> geti l i = Ok (entry_at l i).
Proof. intros Hi. apply geti_ok; [lia |]. by apply nth_some. Qed.

Lemma entry_at_insert (l : list Z) i j v : 0 <= i < zlen l -> 0 <= j ->
  entry_at (<[Z.to_nat i := v]> l) j = if i =? j then v else entry_at l j.
Proof.
  intros Hi Hj. unfold entry_at. rewrite !nth_lookup. destruct (Z.eqb_spec i j) as [<- | Hne].
  - rewrite list_lookup_insert_eq by lia. done.
  - rewrite list_lookup_insert_ne by lia. done.
Qed.

(** ** Occurrences in a list *)
Definition occ (s : Z) (l : list Z) : nat := length (filter (fun x => x = s) l).

Lemma occ_app s l1 l2 : occ s (l1 ++ l2) = (occ s l1 + occ s l2)%nat.
Proof. unfold occ. by rewrite list.filter_app, length_app. Qed.

Lemma occ_one s x : occ s [x] = if decide (x = s) then 1%nat else 0%nat.
Proof. unfold occ. rewrite filter_cons. by case_decide. Qed.

Lemma occ_perm s l1 l2 : l1 ≡ₚ l2 -> occ s l1 = occ s l2.
Proof. intros H. unfold occ. by rewrite H. Qed.

Lemma occ_replicate s n x : occ s (replicate n x) = if decide (x = s) then n else 0%nat.
Proof.
  induction n as [|n IH]; [by case_decide |]. change (replicate (S n) x) with ([x] ++ replicate n x).
  rewrite occ_app, occ_one, IH. by case_decide.
Qed.

(** The [c]-th occurrence. *)
Lemma occ_nth s l c : (c < occ s l)%nat -> exists i, l !! i = Some s /\ occ s (take i l) = c.
Proof.
  induction l as [|x l IH] using rev_ind; intros Hc; [cbn in Hc; lia |].
  rewrite occ_app, occ_one in Hc. destruct (decide (c < occ s l)%nat) as [Hlt | Hge].
  - destruct (IH Hlt) as (i & Hi & Ho). exists i. apply lookup_lt_Some in Hi as Hil. rewrite lookup_app_l, take_app_le by lia. done.
  - case_decide; [| lia]. subst x. exists (length l). rewrite lookup_app_r, Nat.sub_diag, take_app_length by lia.
    split; [done | lia].
Qed.

Lemma occ_take_inj s l i j : l !! i = Some s -> l !! j = Some s -> occ s (take i l) = occ s (take j l) -> i = j.
Proof.
  assert (forall i j, (i < j)%nat -> l !! i = Some s -> l !! j = Some s -> occ s (take i l) <> occ s (take j l)) as H.
  { intros i' j' Hlt Hi Hj. replace j' with (S i' + (j' - S i'))%nat by lia.
    apply lookup_lt_Some in Hj as Hjl.
    rewrite <- (take_drop (S i') (take (S i' + (j' - S i')) l)), take_take, occ_app.
    rewrite Nat.min_l by lia. rewrite (take_S_r _ _ s) by done. rewrite occ_app, occ_one. case_decide; [lia | done]. }
  intros Hi Hj He. destruct (Nat.lt_trichotomy i j) as [Hlt | [-> | Hlt]]; [| done |]; exfalso; eapply H; eauto.
Qed.

(** ** Sums of cells *)
Lemma zsum_app l1 l2 : zsum (l1 ++ l2) = zsum l1 + zsum l2.
Proof. unfold zsum. induction l1 as [|x l1 IH]; [done |]. cbn [app foldr]. rewrite IH. lia. Qed.

Lemma lt1_succ D s : 0 <= s -> lt1_syms D (s + 1) = lt1_syms D s ++ (if decide (weight D s = 0) then [s] else []).
Proof. intros Hs. unfold lt1_syms. rewrite range_snoc, list.filter_app by lia. f_equal. Qed.

Lemma spread_succ D s : 0 <= s -> spread_syms D (s + 1) = spread_syms D s ++ replicate (spread_cells (weight D s)) s.
Proof.
  intros Hs. unfold spread_syms. rewrite range_snoc, map_app, join_app by lia. f_equal. cbn [map mjoin list_join].
  apply app_nil_r.
Qed.

Lemma prefix_len {A} (f : Z -> list A) (g : Z -> list A) a b :
  (forall s, 0 <= s -> f (s + 1) = f s ++ g s) -> 0 <= a <= b -> (length (f a) <= length (f b))%nat.
Proof.
  intros Hf Hab. replace b with (a + Z.of_nat (Z.to_nat (b - a))) by lia. induction (Z.to_nat (b - a)) as [|n IH].
  - by rewrite Z.add_0_r.
  - replace (a + Z.of_nat (S n)) with (a + Z.of_nat n + 1) by lia. rewrite Hf, length_app by lia. lia.
Qed.

Lemma total_split D n : 0 <= n -> (forall s, 0 <= s < n -> 0 <= weight D s) ->
  total_cells D n = zlen (lt1_syms D n) + zlen (spread_syms D n).
Proof.
  intros Hn. pattern n. apply natlike_ind; [done | | done]. clear n Hn. intros n Hn IH Hw.
  replace (Z.succ n) with (n + 1) in * by lia. rewrite lt1_succ, spread_succ, !length_app, length_replicate by lia.
  unfold total_cells in *. rewrite range_snoc, map_app, zsum_app, IH by (lia || (intros; apply Hw; lia)).
  cbn [map zsum foldr]. specialize (Hw n ltac:(lia)). unfold cells, spread_cells.
  case_decide as Hz; destruct (Z.eqb_spec (weight D n) 0); try done; destruct (Z.leb_spec (weight D n) 1); cbn [length]; lia.
Qed.

Lemma spread_elem D n s : s ∈ spread_syms D n -> 0 <= s < n /\ 1 < weight D s.
Proof.
  unfold spread_syms. intros (l & Hl & Hin)%list_elem_of_join. apply list_elem_of_fmap in Hin as (x & -> & Hx%range_elem).
  apply elem_of_replicate in Hl as [-> Hne]. split; [done |]. unfold spread_cells in Hne.
  destruct (Z.leb_spec (weight D x) 1); [done | lia].
Qed.

Lemma occ_spread D n s : 0 <= n -> occ s (spread_syms D n) = if decide (0 <= s < n) then spread_cells (weight D s) else 0%nat.
Proof.
  intros Hn. pattern n. apply natlike_ind; [| | done].
  - cbn. case_decide; [lia | done].
  - clear n Hn. intros n Hn IH. replace (Z.succ n) with (n + 1) by lia. rewrite spread_succ, occ_app, IH, occ_replicate by lia.
    repeat case_decide; subst; try lia.
Qed.

Lemma lt1_elem D n s : s ∈ lt1_syms D n <-> weight D s = 0 /\ 0 <= s < n.
Proof. unfold lt1_syms. by rewrite list_elem_of_filter, range_elem. Qed.

Lemma lt1_NoDup D n : NoDup (lt1_syms D n).
Proof. apply list.NoDup_filter, range_NoDup. Qed.

Lemma trunc_length_ok n : 1 <= n < 2 ^ 32 -> trunc_length n = sub_len n.
Proof.
  intros Hn. unfold trunc_length, clz32, sub_len. change (Z.log2 1) with 0. rewrite u8_small; [lia |].
  pose proof (Z.log2_nonneg n). assert (Z.log2 n < 32) by (apply Z.log2_lt_pow2; lia). lia.
Qed.

Lemma trunc_cutoff_ok n : 1 <= n < 2 ^ 31 -> trunc_cutoff n (sub_len n) = sub_cutoff n.
Proof.
  intros Hn. unfold trunc_cutoff, sub_cutoff. rewrite Z.shiftl_mul_pow2 by apply Z.log2_nonneg. apply u32_small.
  unfold sub_len. pose proof (Z.log2_spec n ltac:(lia)) as Hs. rewrite Z.pow_succ_r in Hs by apply Z.log2_nonneg. lia.
Qed.

(** ** Building the table of a normalized distribution *)
Section Build.
Context (log num_sym : Z) (D : list Z).
Hypothesis Hlog : 5 <= log <= 20.
Hypothesis Hns : 0 <= num_sym <= 64.
Hypothesis HD : num_sym <= zlen D.
Hypothesis Hw : forall s, 0 <= s < num_sym -> 0 <= weight D s <= 2 ^ log.
Hypothesis Htot : total_cells D num_sym = 2 ^ log.

Let size : Z := 2 ^ log.
Let step : Z := fse_step size.
Let n0 : Z := zlen (lt1_syms D num_sym).
Let high : Z := size - 1 - n0.

Lemma size_bound : 32 <= size <= 2 ^ 20.
Proof. unfold size. change 32 with (2 ^ 5). split; apply Z.pow_le_mono_r; lia. Qed.

Lemma size_mask : Z.shiftl 1 log - 1 = size - 1.
Proof. by rewrite Z.shiftl_1_l. Qed.

Lemma step_eq : Z.lor (Z.shiftl 5 (log - 3)) 3 = step.
Proof.
  rewrite Z.lor_comm. replace (Z.shiftl 5 (log - 3)) with (Z.shiftl (5 * 2 ^ (log - 5)) 2).
  - rewrite lor_shiftl_add by lia. unfold step, fse_step, size. replace log with (log - 5 + 5) at 2 3 by lia.
    rewrite Z.pow_add_r by lia. change (2 ^ 5) with 32. change (2 ^ 2) with 4. set (x := 2 ^ (log - 5)). clearbody x. dlia.
  - rewrite !Z.shiftl_mul_pow2 by lia. rewrite <- Z.mul_assoc, <- Z.pow_add_r by lia. do 2 f_equal. lia.
Qed.

Lemma step_coprime : Z.gcd size step = 1.
Proof.
  apply Z.coprime_pow_l; [lia |]. apply Z.coprime_prime_l; [apply Z.prime_2 |]. intros [q Hq].
  rewrite <- step_eq in Hq. assert (Z.testbit (Z.lor (Z.shiftl 5 (log - 3)) 3) 0 = true) as Hb.
  { rewrite Z.lor_spec. apply orb_true_r. }
  rewrite Hq, Z.mul_comm, Z.testbit_even_0 in Hb. done.
Qed.

Lemma step_bound : 0 < step <= 2 ^ 20.
Proof. unfold step, fse_step. pose proof size_bound. dlia. Qed.

Lemma n0_eq : n0 + zlen (spread_syms D num_sym) = size.
Proof. unfold n0, size. rewrite <- Htot. symmetry. apply total_split; [lia |]. intros s Hs. apply Hw. done. Qed.

Lemma high_eq : high + 1 = zlen (spread_syms D num_sym) /\ -1 <= high < size.
Proof. unfold high. pose proof n0_eq. lia. Qed.

Lemma weight_geti s : 0 <= s < num_sym -> geti D s = Ok (weight D s).
Proof.
  intros Hs. unfold weight. apply geti_ok; [lia |]. apply nth_some. lia.
Qed.

(** *** The symbols of weight 0 *)
Lemma lt1_loop (t0 : list Z) : size <= zlen t0 ->
  exists t1, foldM (fse_lt1 log (size - 1) D) (t0, 0) (range 0 num_sym) = Ok (t1, n0) /\ length t1 = length t0 /\
    forall j z, lt1_syms D num_sym !! j = Some z -> entry_at t1 (size - 1 - Z.of_nat j) = Z.lor log (Z.shiftl z 5).
Proof.
  intros Hlen. pose proof size_bound. pose proof high_eq as [_ Hh]. unfold high in Hh.
  destruct (foldM_range (fun s '(t, n) => n = zlen (lt1_syms D s) /\ length t = length t0 /\
      forall j z, lt1_syms D s !! j = Some z -> entry_at t (size - 1 - Z.of_nat j) = Z.lor log (Z.shiftl z 5))
    (fse_lt1 log (size - 1) D) (t0, 0) 0 num_sym) as ([t n] & Hrun & Hn & Hl & Hz).
  - lia.
  - split_and!; [done | done |]. intros j z Hj. done.
  - intros s [t n] Hs (-> & Hl & Hz). unfold fse_lt1. rewrite weight_geti by done. cbn [mbind res_bind].
    pose proof (prefix_len (lt1_syms D) _ (s + 1) num_sym (lt1_succ D) ltac:(lia)) as Hle.
    rewrite lt1_succ in Hle |- * by lia. rewrite length_app in Hle.
    destruct (Z.eqb_spec (weight D s) 0) as [Hz0 | Hz0].
    + rewrite decide_True in Hle |- * by done. cbn [length] in Hle. fold n0 in Hle.
      rewrite seti_ok by (unfold n0 in *; lia). cbn [mbind res_bind]. eexists. split; [done |].
      cbv beta iota. rewrite length_insert, length_app. cbn [length]. split_and!; [| done |].
      * rewrite u8_small; [lia |]. unfold lt1_syms. pose proof (length_filter (fun s => weight D s = 0) (range 0 s)).
        rewrite range_length in *. lia.
      * intros j z Hj. rewrite entry_at_insert by (unfold n0 in *; lia || (apply lookup_lt_Some in Hj; rewrite length_app in Hj; cbn in Hj; unfold n0 in *; lia)).
        destruct (decide (j < length (lt1_syms D s))%nat) as [Hlt | Hge].
        -- rewrite lookup_app_l in Hj by done. assert ((size - 1 - zlen (lt1_syms D s) =? size - 1 - Z.of_nat j) = false) as -> by zb.
           by apply Hz.
        -- apply lookup_lt_Some in Hj as Hjl. rewrite length_app in Hjl. cbn in Hjl.
           assert (j = length (lt1_syms D s)) as -> by lia. rewrite Z.eqb_refl.
           rewrite lookup_app_r, Nat.sub_diag in Hj by lia. by injection Hj as ->.
    + rewrite decide_False by done. rewrite app_nil_r. eexists. split; [done |]. done.
  - exists t. rewrite Hrun, Hn. done.
Qed.

(** *** Spreading the other symbols *)
Local Abbreviation pos_of k := (cell size step k).
Local Abbreviation visited k := (fse_visit size step high k).

Lemma mask_land x : Z.land x (size - 1) = x mod size.
Proof. unfold size. apply land_ones_mod. lia. Qed.

Lemma fse_advance_ok fuel k : 0 <= high -> 0 <= k < size -> size - k <= Z.of_nat fuel ->
  exists k', k < k' <= size /\ fse_advance fuel step (size - 1) n0 (pos_of k) = Ok (pos_of k') /\
    pos_of k' <= high /\ visited k' = visited (k + 1).
Proof.
  intros Hh. pose proof size_bound as Hsz. pose proof step_bound. revert k.
  induction fuel as [|fuel IH]; intros k Hk Hf; [lia |]. cbn [fse_advance].
  pose proof (cell_range size step ltac:(lia) k) as Hr.
  rewrite mask_land, (u32_small (_ + step)), cell_next by lia. rewrite u32_small by (unfold high in Hh; unfold n0 in *; lia).
  replace (size - 1 - n0) with high by done. destruct (Z.ltb_spec high (pos_of (k + 1))) as [Hd | Ha].
  - destruct (Z.eq_dec (k + 1) size) as [He | Hne]; [rewrite He, cell_size in Hd by lia; lia |].
    destruct (IH (k + 1)) as (k' & Hk' & Hrun & Hp & Hv); [lia | lia |]. exists k'. split; [lia |].
    split; [done |]. split; [done |]. rewrite Hv, visit_succ by lia. rewrite decide_False by lia. by rewrite app_nil_r.
  - exists (k + 1). split_and!; [lia | lia | done | lia | done].
Qed.

(** [W] are the symbols written so far; the cells past [high] are those of [t1]. *)
Definition spread_inv (t1 : list Z) (W t : list Z) (pos : Z) : Prop :=
  length t = length t1 /\ (forall p, high < p -> entry_at t p = entry_at t1 p) /\
  exists k, 0 <= k <= size /\ pos = pos_of k /\ (0 <= high -> pos_of k <= high) /\
    (high < 0 -> k = 0) /\ map (entry_at t) (visited k) = W.

Lemma visited_full : zlen (visited size) = high + 1.
Proof.
  pose proof high_eq as [_ Hh]. pose proof size_bound.
  assert (visited size ≡ₚ range 0 (high + 1)) as Hp by (apply visit_perm; [lia | apply step_coprime | lia]).
  rewrite Hp, range_length. lia.
Qed.

Lemma visited_len_mono k k' : 0 <= k <= k' -> (length (visited k) <= length (visited k'))%nat.
Proof. intros Hk. apply (prefix_len (fse_visit size step high) _ k k' (visit_succ size step high)). done. Qed.

Lemma visited_elem k p : p ∈ visited k -> 0 <= p <= high /\ exists i, 0 <= i < k /\ p = pos_of i.
Proof.
  unfold fse_visit. intros [Hp Hin]%list_elem_of_filter. apply list_elem_of_fmap in Hin as (i & -> & Hi%range_elem).
  pose proof (cell_range size step ltac:(pose proof size_bound; lia) i). split; [unfold cell in *; lia | by exists i].
Qed.

Lemma spread_write t1 W t pos sym : spread_inv t1 W t pos -> size <= zlen t1 -> zlen W < high + 1 ->
  exists t' pos', seti t pos sym = Ok t' /\ fse_advance (Z.to_nat size) step (size - 1) n0 pos = Ok pos' /\
    spread_inv t1 (W ++ [sym]) t' pos'.
Proof.
  intros (Hl & Hfr & k & Hk & -> & Hp & _ & HW) Ht HWl. pose proof size_bound as Hsz. pose proof high_eq as [_ Hh].
  specialize (Hp ltac:(lia)). assert (k < size) as Hks.
  { destruct (Z.eq_dec k size) as [-> |]; [| lia]. exfalso. rewrite <- HW, length_map, visited_full in HWl. lia. }
  pose proof (cell_range size step ltac:(lia) k) as Hr.
  destruct (fse_advance_ok (Z.to_nat size) k) as (k' & Hk' & Hadv & Hp' & Hv); [lia | lia | lia |].
  rewrite Hadv, seti_ok by lia. eexists _, _. split; [done |]. split; [done |].
  split; [by rewrite length_insert |]. split.
  { intros p Hpp. rewrite entry_at_insert by lia. assert ((pos_of k =? p) = false) as -> by zb. by apply Hfr. }
  exists k'. split_and!; [lia | lia | done | done | lia |]. rewrite Hv, visit_succ by lia. rewrite decide_True by lia.
  rewrite map_app. f_equal.
  - rewrite <- HW. apply map_ext_in. intros p Hpin%list_elem_of_In.
    destruct (visited_elem k p Hpin) as (Hpr & i & Hi & ->). rewrite entry_at_insert by lia.
    destruct (Z.eqb_spec (pos_of k) (pos_of i)) as [He |]; [| done].
    apply cell_inj in He; [lia | lia | apply step_coprime | lia | lia].
  - cbn [map]. rewrite entry_at_insert, Z.eqb_refl by lia. done.
Qed.

Lemma spread_symbol t1 W t pos sym n : spread_inv t1 W t pos -> size <= zlen t1 -> 0 <= n -> zlen W + n <= high + 1 ->
  exists t' pos', foldM (fun '(table, pos) (_ : Z) => table ← seti table pos sym;
      pos ← fse_advance (Z.to_nat size) step (size - 1) n0 pos; Ok (table, pos)) (t, pos) (range 0 n) = Ok (t', pos') /\
    spread_inv t1 (W ++ replicate (Z.to_nat n) sym) t' pos'.
Proof.
  intros Hinv Ht Hn HWn.
  destruct (foldM_range (fun i '(t, pos) => spread_inv t1 (W ++ replicate (Z.to_nat i) sym) t pos)
    (fun '(table, pos) (_ : Z) => table ← seti table pos sym;
      pos ← fse_advance (Z.to_nat size) step (size - 1) n0 pos; Ok (table, pos)) (t, pos) 0 n) as ([t' pos'] & Hrun & Hres).
  - done.
  - cbn. by rewrite app_nil_r.
  - intros i [u q] Hi Hu. destruct (spread_write t1 _ u q sym Hu Ht) as (u' & q' & Hs & Ha & Hu').
    { rewrite length_app, length_replicate. lia. }
    rewrite Hs. cbn [mbind res_bind]. rewrite Ha. cbn [mbind res_bind]. eexists. split; [done |]. cbv beta iota.
    replace (Z.to_nat (i + 1)) with (Z.to_nat i + 1)%nat by lia. by rewrite replicate_add, app_assoc.
  - eexists _, _. split; [exact Hrun | done].
Qed.

(** The columns of the symbols below [s]. *)
Record cols_ok (c : fse_cols) (s : Z) : Prop := {
  co_len : num_sym <= zlen (fc_bits c) /\ num_sym <= zlen (fc_cutoff c) /\ num_sym <= zlen (fc_counter c);
  co_counter : forall x, 0 <= x < s -> entry_at (fc_counter c) x = 0;
  co_bits : forall x, 0 <= x < s -> 1 < weight D x -> entry_at (fc_bits c) x = log - sub_len (weight D x - 1);
  co_cutoff : forall x, 0 <= x < s -> 1 < weight D x -> entry_at (fc_cutoff c) x = sub_cutoff (weight D x - 1);
}.

Lemma spread_loop junk t1 : num_sym <= zlen (fc_bits junk) -> num_sym <= zlen (fc_cutoff junk) ->
  num_sym <= zlen (fc_counter junk) -> size <= zlen t1 ->
  exists c t2 pos, foldM (fse_spread log (size - 1) step n0 D) (junk, t1, 0) (range 0 num_sym) = Ok (c, t2, pos) /\
    cols_ok c num_sym /\ spread_inv t1 (spread_syms D num_sym) t2 pos.
Proof.
  intros Hj1 Hj2 Hj3 Ht. pose proof size_bound as Hsz. pose proof high_eq as [Hhe Hh].
  destruct (foldM_range (fun s '(c, t, pos) => cols_ok c s /\ spread_inv t1 (spread_syms D s) t pos)
    (fse_spread log (size - 1) step n0 D) (junk, t1, 0) 0 num_sym) as ([[c t] pos] & Hrun & Hres).
  - lia.
  - split; [constructor; [done | | |]; intros; lia |]. split; [done |]. split; [done |]. exists 0.
    assert (pos_of 0 = 0) as Hp0 by (unfold cell; by rewrite Z.mul_0_l, Z.mod_0_l by lia).
    split_and!; [lia | lia | by rewrite Hp0 | by rewrite Hp0 | done | done].
  - intros s [[c t] pos] Hs [[Hcl Hcc Hcb Hcu] Hinv]. unfold fse_spread. rewrite weight_geti by done. cbn [mbind res_bind].
    rewrite (seti_ok (fc_counter c)) by lia. cbn [mbind res_bind]. pose proof (Hw s Hs) as Hws.
    assert (forall (l : list Z) v x, num_sym <= zlen l -> 0 <= x -> entry_at (<[Z.to_nat s := v]> l) x = if s =? x then v else entry_at l x) as Hins.
    { intros l v x Hl Hx. by apply entry_at_insert; [lia |]. }
    rewrite spread_succ by lia. unfold spread_cells.
    destruct (Z.leb_spec (weight D s) 1) as [Hle | Hgt].
    + rewrite (seti_ok (fc_bits c)), (seti_ok (fc_cutoff c)) by lia. cbn [mbind res_bind]. eexists. split; [done |].
      split; [| by rewrite app_nil_r]. constructor; cbn [fc_bits fc_cutoff fc_counter]; rewrite ?length_insert; [lia | | |];
        intros x Hx; rewrite Hins by lia; destruct (Z.eqb_spec s x) as [<- |]; intros; try done; try lia; auto with lia.
    + rewrite trunc_length_ok by (unfold size in *; lia). rewrite trunc_cutoff_ok by (unfold size in *; lia).
      destruct (sub_len_ok log (weight D s - 1)) as (Hsl & _); [lia | lia |].
      rewrite (seti_ok (fc_bits c)), (seti_ok (fc_cutoff c)) by lia. cbn [mbind res_bind].
      rewrite (u8_small (log - _)) by lia. replace (Z.to_nat (size - 1 + 1)) with (Z.to_nat size) by lia.
      pose proof (prefix_len (spread_syms D) _ (s + 1) num_sym (spread_succ D) ltac:(lia)) as Hpl.
      rewrite spread_succ, length_app, length_replicate in Hpl by lia. unfold spread_cells in Hpl.
      destruct (Z.leb_spec (weight D s) 1); [lia |].
      destruct (spread_symbol t1 (spread_syms D s) t pos s (weight D s - 1) Hinv Ht) as (t' & pos' & Hrun & Hinv'); [lia | lia |].
      rewrite Hrun. cbn [mbind res_bind]. eexists. split; [done |]. split; [| exact Hinv'].
      constructor; cbn [fc_bits fc_cutoff fc_counter]; rewrite ?length_insert; [lia | | |];
        intros x Hx; rewrite Hins by lia; destruct (Z.eqb_spec s x) as [<- |]; intros; try done; try lia; auto with lia.
  - exists c, t, pos. done.
Qed.

(** *** The entries *)
Lemma spread_done t1 t2 pos : spread_inv t1 (spread_syms D num_sym) t2 pos ->
  pos = 0 /\ map (entry_at t2) (visited size) = spread_syms D num_sym.
Proof.
  intros (_ & _ & k & Hk & -> & Hp & Hneg & HW). pose proof high_eq as [Hhe Hh]. pose proof size_bound.
  pose proof visited_full as Hvf. destruct (Z.lt_ge_cases high 0) as [Hlt | Hge].
  - rewrite Hneg in HW |- * by done. split; [unfold cell; by rewrite Z.mul_0_l, Z.mod_0_l by lia |].
    assert (spread_syms D num_sym = []) as -> by (apply length_zero_iff_nil; lia).
    assert (visited size = []) as -> by (apply length_zero_iff_nil; lia). done.
  - destruct (Z.eq_dec k size) as [-> | Hne]; [by rewrite cell_size by lia |]. exfalso.
    pose proof (visited_len_mono (k + 1) size ltac:(lia)) as Hm. rewrite visit_succ in Hm by lia.
    rewrite decide_True in Hm by auto. rewrite length_app in Hm. cbn [length] in Hm.
    apply (f_equal length) in HW. rewrite length_map in HW. lia.
Qed.

Lemma spread_perm t2 : map (entry_at t2) (visited size) = spread_syms D num_sym ->
  map (entry_at t2) (range 0 (high + 1)) ≡ₚ spread_syms D num_sym.
Proof.
  intros <-. pose proof high_eq as [_ Hh]. pose proof size_bound.
  rewrite <- (visit_perm size step); [done | lia | apply step_coprime | lia].
Qed.

(** The entry of the [c]-th cell of a symbol. *)
Definition cell_entry (s c : Z) : Z :=
  Z.lor (Z.lor (sub_bits log (weight D s - 1) c) (Z.shiftl s 5)) (u32 (Z.shiftl (sub_base log (weight D s - 1) c) 11)).

(** How often the symbol of cell [i] occurs before it. *)
Definition rank (t2 : list Z) (i s : Z) : Z := Z.of_nat (occ s (map (entry_at t2) (range 0 i))).

Lemma rank_succ t2 i s : 0 <= i -> rank t2 (i + 1) s = rank t2 i s + (if entry_at t2 i =? s then 1 else 0).
Proof.
  intros Hi. unfold rank. rewrite range_snoc, map_app, occ_app by lia. cbn [map]. rewrite occ_one.
  destruct (Z.eqb_spec (entry_at t2 i) s); case_decide; lia.
Qed.

Lemma cell_sym t2 i : map (entry_at t2) (visited size) = spread_syms D num_sym -> 0 <= i < high + 1 ->
  let s := entry_at t2 i in 0 <= s < num_sym /\ 1 < weight D s <= size /\ 0 <= rank t2 i s < weight D s - 1.
Proof.
  intros HW Hi s. assert (s ∈ spread_syms D num_sym) as Hs.
  { rewrite <- (spread_perm t2 HW). apply list_elem_of_fmap_2, range_elem. done. }
  apply spread_elem in Hs as [Hs Hws]. split; [done |]. split; [by split; [| apply Hw] |]. unfold rank. split; [lia |].
  pose proof (occ_perm s _ _ (spread_perm t2 HW)) as Ho. rewrite occ_spread in Ho by lia. rewrite decide_True in Ho by done.
  rewrite (range_split 0 (i + 1)), map_app, occ_app, range_snoc, map_app, occ_app in Ho by lia. cbn [map] in Ho.
  rewrite occ_one, decide_True in Ho by done. unfold spread_cells in Ho. destruct (Z.leb_spec (weight D s) 1); lia.
Qed.

(** [base < mask] holds since no symbol has the whole table. *)
Lemma sub_base_mask n c : 1 <= n < size -> 0 <= c < n -> sub_base log n c < size - 1.
Proof.
  intros Hn Hc. destruct (sub_base_bound log n ltac:(unfold size in Hn; lia) ltac:(lia) c Hc) as [_ Hb].
  pose proof (sub_bits_ok log n ltac:(unfold size in Hn; lia) ltac:(lia) c Hc) as Hbits.
  destruct (Z.eq_dec (sub_bits log n c) 0) as [He | Hne].
  - destruct (sub_len_ok log n) as (Hl & Hp & Hsz); [unfold size in Hn; lia | lia |]. unfold sub_base, sub_bits, sub_cutoff in *.
    revert He Hb. case_bool; intros He Hb.
    + exfalso. replace (sub_len n) with log in Hp by lia. fold size in Hp. lia.
    + assert (2 * 2 ^ sub_len n = size) as Hs2.
      { unfold size. replace log with (sub_len n + 1) by lia. rewrite Z.pow_add_r by lia. lia. }
      rewrite He. lia.
  - fold size in Hb. assert (2 ^ 1 <= 2 ^ sub_bits log n c) by (apply Z.pow_le_mono_r; lia). lia.
Qed.

(** One cell of the last loop. *)
Lemma fse_finish_ok t2 c t i : map (entry_at t2) (visited size) = spread_syms D num_sym -> 0 <= i < high + 1 ->
  size <= zlen t -> entry_at t i = entry_at t2 i ->
  num_sym <= zlen (fc_bits c) -> num_sym <= zlen (fc_cutoff c) -> num_sym <= zlen (fc_counter c) ->
  (forall x, 0 <= x < num_sym -> entry_at (fc_counter c) x = rank t2 i x) ->
  (forall x, 0 <= x < num_sym -> 1 < weight D x -> entry_at (fc_bits c) x = log - sub_len (weight D x - 1)) ->
  (forall x, 0 <= x < num_sym -> 1 < weight D x -> entry_at (fc_cutoff c) x = sub_cutoff (weight D x - 1)) ->
  let s := entry_at t2 i in
  fse_finish log (size - 1) num_sym D (c, t) i
  = Ok ({| fc_bits := fc_bits c; fc_cutoff := fc_cutoff c; fc_counter := <[Z.to_nat s := rank t2 i s + 1]> (fc_counter c) |},
        <[Z.to_nat i := cell_entry s (rank t2 i s)]> t).
Proof.
  intros HW Hi Ht Hti Hb1 Hb2 Hb3 Hcnt Hbits Hcut s. destruct (cell_sym t2 i HW Hi) as (Hs & Hws & Hr). fold s in Hs, Hws, Hr.
  pose proof high_eq as [_ Hh]. pose proof size_bound as Hsz. unfold fse_finish.
  rewrite geti_nth, Hti by lia. fold s. cbn [mbind res_bind]. assert_ok. rewrite weight_geti by done. cbn [mbind res_bind]. assert_ok.
  rewrite !geti_nth by lia. cbn [mbind res_bind]. rewrite Hcnt, Hbits, Hcut by (done || lia).
  rewrite seti_ok by lia. cbn [mbind res_bind]. set (n := weight D s - 1). set (k := rank t2 i s).
  assert (1 <= n < size) as Hn by (subst n; pose proof (Hw s Hs); unfold size in *; lia).
  assert (0 <= k < n) as Hk by (subst k n; lia).
  destruct (sub_len_ok log n) as (Hsl & Hp & Hpow); [unfold size in Hn; lia | lia |].
  pose proof (sub_bits_ok log n ltac:(unfold size in Hn; lia) ltac:(lia) k Hk) as Hbk.
  destruct (sub_base_bound log n ltac:(unfold size in Hn; lia) ltac:(lia) k Hk) as [Hbb1 Hbb2].
  pose proof (sub_base_mask n k Hn Hk) as Hmask. fold size in Hbb2, Hpow.
  rewrite (u32_small (k + 1)) by lia.
  assert ((if k <? sub_cutoff n then (log - sub_len n, u32 (k + Z.shiftl 1 (log - (log - sub_len n)) - sub_cutoff n))
           else (u32 (log - sub_len n - 1), u32 (k - sub_cutoff n)))
          = (sub_bits log n k, sub_base log n k / 2 ^ sub_bits log n k)) as ->.
  { unfold sub_base. rewrite Z.div_mul by lia. unfold sub_bits in *. replace (log - (log - sub_len n)) with (sub_len n) by lia.
    rewrite Z.shiftl_1_l. revert Hbk. unfold sub_cutoff. case_bool; intros Hbk; rewrite !u32_small by lia; done. }
  cbn [fst snd].
  assert (u32 (Z.shiftl (sub_base log n k / 2 ^ sub_bits log n k) (sub_bits log n k)) = sub_base log n k) as ->.
  { rewrite Z.shiftl_mul_pow2 by lia. unfold sub_base at 1. rewrite Z.div_mul by lia. fold (sub_base log n k). apply u32_small. lia. }
  assert_ok. rewrite seti_ok by lia. done.
Qed.

Lemma finish_loop t2 c : map (entry_at t2) (visited size) = spread_syms D num_sym -> size <= zlen t2 -> cols_ok c num_sym ->
  exists c' t, foldM (fse_finish log (size - 1) num_sym D) (c, t2) (range 0 (size - n0)) = Ok (c', t) /\ length t = length t2 /\
    (forall i, 0 <= i <= high -> entry_at t i = cell_entry (entry_at t2 i) (rank t2 i (entry_at t2 i))) /\
    (forall i, high < i -> entry_at t i = entry_at t2 i).
Proof.
  intros HW Ht [(Hl1 & Hl2 & Hl3) Hcc Hcb Hcu]. pose proof high_eq as [_ Hh]. pose proof size_bound as Hsz.
  replace (size - n0) with (high + 1) by (unfold high; lia).
  destruct (foldM_range (fun i '(c', t) => fc_bits c' = fc_bits c /\ fc_cutoff c' = fc_cutoff c /\
      length (fc_counter c') = length (fc_counter c) /\ length t = length t2 /\
      (forall x, 0 <= x < num_sym -> entry_at (fc_counter c') x = rank t2 i x) /\
      (forall j, 0 <= j < i -> entry_at t j = cell_entry (entry_at t2 j) (rank t2 j (entry_at t2 j))) /\
      (forall j, i <= j -> entry_at t j = entry_at t2 j))
    (fse_finish log (size - 1) num_sym D) (c, t2) 0 (high + 1)) as ([c' t] & Hrun & _ & _ & _ & Hlt & _ & Hlo & Hhi).
  - lia.
  - split_and!; try done; intros x Hx; lia.
  - intros i [c' t] Hi (Hb & Hu & Hlc & Hlt & Hcnt & Hlo & Hhi). cbv beta iota in *.
    rewrite (fse_finish_ok t2) by (rewrite ?Hb, ?Hu; (done || lia || by apply Hhi)).
    eexists. split; [done |]. cbn [fc_bits fc_cutoff fc_counter]. rewrite !length_insert.
    destruct (cell_sym t2 i HW Hi) as (Hs & _). split_and!; [done | done | done | done | | |].
    + intros x Hx. rewrite entry_at_insert, rank_succ, Hcnt by lia. destruct (Z.eqb_spec (entry_at t2 i) x) as [-> |]; lia.
    + intros j Hj. rewrite entry_at_insert by lia. destruct (Z.eqb_spec i j) as [-> |]; [done | apply Hlo; lia].
    + intros j Hj. rewrite entry_at_insert by lia. assert ((i =? j) = false) as -> by zb. apply Hhi. lia.
  - exists c', t. split; [done |]. split; [done |]. split; [intros i Hi; apply Hlo; lia | intros i Hi; apply Hhi; lia].
Qed.

(** *** Putting it together *)
Lemma lt1_cell i : high < i < size -> exists j z, lt1_syms D num_sym !! j = Some z /\ i = size - 1 - Z.of_nat j /\ 0 <= z < num_sym /\ weight D z = 0.
Proof.
  intros Hi. unfold high in Hi. destruct (lookup_lt_is_Some_2 (lt1_syms D num_sym) (Z.to_nat (size - 1 - i))) as [z Hz]; [unfold n0 in Hi; lia |].
  exists (Z.to_nat (size - 1 - i)), z. split; [done |]. split; [lia |]. apply list_elem_of_lookup_2 in Hz. apply lt1_elem in Hz. tauto.
Qed.

Lemma cell_entry_fields s c : 0 <= s < num_sym -> 1 < weight D s -> 0 <= c < weight D s - 1 ->
  fse_sym (cell_entry s c) = s /\ fse_bits (cell_entry s c) = sub_bits log (weight D s - 1) c /\
  fse_base (cell_entry s c) = sub_base log (weight D s - 1) c /\
  0 <= sub_base log (weight D s - 1) c /\ sub_base log (weight D s - 1) c + 2 ^ sub_bits log (weight D s - 1) c <= size.
Proof.
  intros Hs Hws Hc. pose proof (Hw s Hs) as Hwb. pose proof size_bound.
  pose proof (sub_bits_ok log (weight D s - 1) ltac:(lia) ltac:(lia) c Hc) as Hb.
  destruct (sub_base_bound log (weight D s - 1) ltac:(lia) ltac:(lia) c Hc) as [H1 H2]. fold size in H2.
  assert (0 < 2 ^ sub_bits log (weight D s - 1) c) by lia.
  destruct (entry_fields (sub_bits log (weight D s - 1) c) s (sub_base log (weight D s - 1) c)) as (E1 & E2 & E3); [lia | lia | lia |].
  unfold cell_entry. split_and!; [done | done | done | done | lia].
Qed.

Lemma table_ok t1 t2 t : map (entry_at t2) (visited size) = spread_syms D num_sym ->
  (forall j z, lt1_syms D num_sym !! j = Some z -> entry_at t1 (size - 1 - Z.of_nat j) = Z.lor log (Z.shiftl z 5)) ->
  (forall p, high < p -> entry_at t2 p = entry_at t1 p) ->
  (forall i, 0 <= i <= high -> entry_at t i = cell_entry (entry_at t2 i) (rank t2 i (entry_at t2 i))) ->
  (forall i, high < i -> entry_at t i = entry_at t2 i) -> fse_table_ok log num_sym D t.
Proof.
  intros HW Hlt1 Hhi2 Hlo Hhi. pose proof high_eq as [Hhe Hh]. pose proof size_bound as Hsz.
  assert (forall i, 0 <= i <= high -> let s := entry_at t2 i in let c := rank t2 i s in
      0 <= s < num_sym /\ 1 < weight D s /\ 0 <= c < weight D s - 1 /\ fse_sym (entry_at t i) = s /\
      fse_bits (entry_at t i) = sub_bits log (weight D s - 1) c /\ fse_base (entry_at t i) = sub_base log (weight D s - 1) c /\
      0 <= sub_base log (weight D s - 1) c /\ sub_base log (weight D s - 1) c + 2 ^ sub_bits log (weight D s - 1) c <= size) as Hlow.
  { intros i Hi s c. destruct (cell_sym t2 i HW ltac:(lia)) as (Hs & Hws & Hr). rewrite Hlo by done.
    destruct (cell_entry_fields s c) as (E1 & E2 & E3 & E4 & E5); [done | apply Hws | done |]. split_and!; try done; first [apply Hs | apply Hws | apply Hr | lia]. }
  assert (forall j z, lt1_syms D num_sym !! j = Some z -> high < size - 1 - Z.of_nat j < size /\
      fse_sym (entry_at t (size - 1 - Z.of_nat j)) = z /\ fse_bits (entry_at t (size - 1 - Z.of_nat j)) = log /\
      fse_base (entry_at t (size - 1 - Z.of_nat j)) = 0) as Hup.
  { intros j z Hj. apply lookup_lt_Some in Hj as Hjl. apply list_elem_of_lookup_2 in Hj as Hz. apply lt1_elem in Hz as [_ Hz].
    split; [unfold high, n0; lia |]. rewrite Hhi, Hhi2, (Hlt1 j z) by (done || (unfold high, n0; lia)).
    destruct (entry_fields_lt1 log z) as (E1 & E2 & E3); [lia | lia |]. done. }
  constructor; fold size.
  - intros i Hi. destruct (Z.le_gt_cases i high) as [Hle | Hgt].
    + destruct (Hlow i ltac:(lia)) as (Hs & _ & _ & -> & -> & -> & ? & ?). done.
    + destruct (lt1_cell i ltac:(lia)) as (j & z & Hj & -> & Hz & _). destruct (Hup j z Hj) as (_ & -> & -> & ->).
      split_and!; [lia | lia | lia | done].
  - fold n0. fold high. rewrite <- HW. apply map_ext_in. intros p Hp%list_elem_of_In. apply visited_elem in Hp as [Hp _].
    destruct (Hlow p Hp) as (_ & _ & _ & -> & _). done.
  - intros j s Hj. apply (Hup j s Hj).
  - intros s state Hs Hne Hst. destruct (Z.eq_dec (weight D s) 0) as [Hz | Hz].
    + assert (s ∈ lt1_syms D num_sym) as (j & Hj)%list_elem_of_lookup by (by apply lt1_elem).
      exists (size - 1 - Z.of_nat j). destruct (Hup j s Hj) as (Hr & E1 & E2 & E3). split.
      * rewrite E1, E2, E3. fold size. lia.
      * intros i' Hi' Hsym _. destruct (Z.le_gt_cases i' high) as [Hle | Hgt].
        -- destruct (Hlow i' ltac:(lia)) as (_ & Hws & _ & Hsy & _). rewrite Hsy in Hsym. rewrite Hsym in Hws. lia.
        -- destruct (lt1_cell i' ltac:(lia)) as (j' & z & Hj' & -> & _). destruct (Hup j' z Hj') as (_ & Hsy & _).
           rewrite Hsy in Hsym. subst z. by rewrite (NoDup_lookup _ _ _ _ (lt1_NoDup D num_sym) Hj Hj').
    + pose proof (Hw s Hs) as Hws. fold size in Hws.
      destruct (sub_states log (weight D s - 1) ltac:(unfold size in Hws; lia) ltac:(lia) state ltac:(unfold size in Hst; lia)) as (c & [Hc Hin] & Huniq).
      destruct (occ_nth s (map (entry_at t2) (range 0 (high + 1))) (Z.to_nat c)) as (i & Hi & Hocc).
      { rewrite (occ_perm _ _ _ (spread_perm t2 HW)), occ_spread, decide_True by lia. unfold spread_cells.
        destruct (Z.leb_spec (weight D s) 1); lia. }
      assert (forall k, (k < length (range 0 (high + 1)))%nat -> take k (map (entry_at t2) (range 0 (high + 1))) = map (entry_at t2) (range 0 (Z.of_nat k))) as Htake.
      { intros k Hk. rewrite range_length in Hk. rewrite (range_split 0 (Z.of_nat k)), map_app by lia.
        apply take_app_length'. rewrite length_map, range_length. lia. }
      assert (forall k, 0 <= k <= high -> map (entry_at t2) (range 0 (high + 1)) !! Z.to_nat k = Some (entry_at t2 k)) as Hlk.
      { intros k Hk. rewrite list_lookup_fmap. unfold range. rewrite lookup_seqZ_lt by lia. cbn. do 2 f_equal. lia. }
      apply lookup_lt_Some in Hi as Hil. rewrite length_map in Hil. rewrite Htake in Hocc by done. rewrite range_length in Hil.
      pose proof (Hlk (Z.of_nat i) ltac:(lia)) as Hi2. rewrite Nat2Z.id, Hi in Hi2. injection Hi2 as His.
      exists (Z.of_nat i). destruct (Hlow (Z.of_nat i) ltac:(lia)) as (_ & _ & _ & E1 & E2 & E3 & _). rewrite <- His in E1, E2, E3.
      assert (rank t2 (Z.of_nat i) s = c) as Hrk by (unfold rank; rewrite Hocc; lia). rewrite Hrk in E2, E3. split.
      * rewrite E1, E2, E3. split; [lia | done].
      * intros i' Hi' Hsym Hin'. destruct (Z.le_gt_cases i' high) as [Hle | Hgt].
        -- destruct (Hlow i' ltac:(lia)) as (_ & _ & Hr' & E1' & E2' & E3' & _). rewrite E1' in Hsym. rewrite Hsym in Hr', E2', E3'.
           rewrite E2', E3' in Hin'. apply Huniq in Hin' as Hrc; [| done].
           assert (Z.to_nat i' = i) as <-; [| lia]. eapply occ_take_inj; [rewrite Hlk by lia; by rewrite Hsym | exact Hi |].
           rewrite !Htake by (rewrite range_length; lia). rewrite Hocc, Z2Nat.id by lia. unfold rank in Hrc. lia.
        -- destruct (lt1_cell i' ltac:(lia)) as (j' & z & Hj' & -> & _ & Hz'). destruct (Hup j' z Hj') as (_ & Hsy & _). congruence.
Qed.

Lemma build_ok junk t0 : size <= zlen t0 -> num_sym <= zlen (fc_bits junk) -> num_sym <= zlen (fc_cutoff junk) ->
  num_sym <= zlen (fc_counter junk) ->
  exists t, fse_build_table junk log num_sym D t0 = Ok t /\ length t = length t0 /\ fse_table_ok log num_sym D t.
Proof.
  intros Ht Hj1 Hj2 Hj3. unfold fse_build_table.
  rewrite c_assert_true by (rewrite !andb_true_iff; split_and!; zb). cbn [mbind res_bind].
  rewrite size_mask, step_eq. destruct (lt1_loop t0 Ht) as (t1 & Hrun1 & Hl1 & Hlt1). rewrite Hrun1. cbn [mbind res_bind].
  destruct (spread_loop junk t1 Hj1 Hj2 Hj3 ltac:(lia)) as (c & t2 & pos & Hrun2 & Hc & Hinv). rewrite Hrun2. cbn [mbind res_bind].
  destruct (spread_done t1 t2 pos Hinv) as [-> HW]. assert_ok. rewrite Z.shiftl_1_l. fold size.
  destruct Hinv as (Hl2 & Hhi2 & _).
  destruct (finish_loop t2 c HW ltac:(lia) Hc) as (c' & t & Hrun3 & Hl3 & Hlo & Hhi). rewrite Hrun3. cbn [mbind res_bind].
  exists t. split; [done |]. split; [lia |]. by eapply table_ok.
Qed.
End Build.

(** ** Reading a distribution *)
Section Distribution.
Context (m : mem) (lo end_ : Z).
Hypothesis Hok : mem_ok m.
Hypothesis Hacc : accessible m lo (end_ - lo).

Definition br_ok (r : bitreader) : Prop := 0 <= br_num r <= 27 /\ lo <= br_in r <= end_.

Lemma br_fetch_ok r : br_ok r -> br_num r < 20 ->
  exists o, br_fetch m end_ r = Ok o /\ match o with None => True | Some r' => br_ok r' /\ br_num r' = br_num r + 8 end.
Proof.
  intros [Hn Hi] Hlt. unfold br_fetch, check. destruct (Z.leb_spec 1 (end_ - br_in r)); [| by exists None].
  destruct (accessible_ld8 m lo (end_ - lo) (br_in r) Hok Hacc ltac:(lia)) as (v & -> & _ & _). cbn [mbind res_bind].
  eexists. split; [done |]. unfold br_ok. cbn [br_num br_in]. rewrite u8_small by lia. split; [split; lia | lia].
Qed.

Lemma br_drop_ok n r : br_ok r -> 0 <= n <= br_num r -> br_ok (br_drop n r) /\ br_num (br_drop n r) = br_num r - n.
Proof. intros [Hn Hi] Hle. unfold br_ok, br_drop. cbn [br_num br_in]. rewrite u8_small by lia. split; [split; lia | lia]. Qed.

Lemma br_fill_ok fuel length r : br_ok r -> 0 <= length <= 20 -> length - br_num r <= 8 * (Z.of_nat fuel - 1) ->
  (0 < fuel)%nat ->
  exists o, br_fill fuel m end_ length r = Ok o /\ match o with None => True | Some r' => br_ok r' /\ length <= br_num r' end.
Proof.
  revert r. induction fuel as [|fuel IH]; intros r Hr Hl Hf Hpos; [lia |]. cbn [br_fill].
  destruct (Z.ltb_spec (br_num r) length) as [Hlt | Hge]; [| exists (Some r); by split; [| split]].
  destruct (br_fetch_ok r Hr ltac:(lia)) as (o & -> & Ho). cbn [mbind res_bind].
  destruct o as [r'|]; [| by exists None]. destruct Ho as [Hr' Hn']. apply IH; [done | done | lia | lia].
Qed.

Lemma fse_value_ok n r : br_ok r -> 1 <= n <= 2 ^ 20 ->
  exists o, fse_value m end_ n r = Ok o /\ match o with None => True | Some (v, r') => br_ok r' /\ 0 <= v <= n + 1 end.
Proof.
  intros Hr Hn. unfold fse_value. assert (1 <= n + 2 < 2 ^ 31) as Hn2 by lia.
  assert (trunc_length (n + 2) = sub_len (n + 2)) as -> by (apply trunc_length_ok; lia).
  rewrite trunc_cutoff_ok by lia. destruct (sub_len_ok 21 (n + 2)) as (Hl & Hp & _); [lia | lia |].
  set (l := sub_len (n + 2)) in *. assert (l <= 20) as Hl20.
  { unfold l, sub_len. assert (Z.log2 (n + 2) < 21); [| lia]. apply Z.log2_lt_pow2; lia. }
  assert (sub_cutoff (n + 2) = 2 * 2 ^ l - (n + 2)) as Hcut by done. set (cut := sub_cutoff (n + 2)) in *.
  destruct (br_fill_ok 4 l r Hr) as (o & -> & Ho); [lia | destruct Hr; lia | lia |]. cbn [mbind res_bind].
  destruct o as [r1|]; [| by exists None]. destruct Ho as [Hr1 Hn1].
  rewrite Z.shiftl_1_l, land_ones_mod by lia. set (v := br_bits r1 mod 2 ^ l).
  assert (0 <= v < 2 ^ l) as Hv by (apply Z.mod_pos_bound; lia).
  destruct (br_drop_ok l r1 Hr1 ltac:(lia)) as [Hr2 Hn2']. set (r2 := br_drop l r1) in *.
  destruct (Z.leb_spec cut v) as [Hcv | Hcv]; [| eexists; split; [done |]; split; [done | lia]].
  assert (exists o, (if br_num r2 <? 1 then br_fetch m end_ r2 else Ok (Some r2)) = Ok o /\
    match o with None => True | Some r' => br_ok r' /\ 1 <= br_num r' end) as (o & -> & Ho).
  { destruct (Z.ltb_spec (br_num r2) 1) as [Hlt | Hge]; [| exists (Some r2); by split].
    destruct (br_fetch_ok r2 Hr2 ltac:(lia)) as (o & -> & Ho). exists o. split; [done |]. destruct o; [| done].
    destruct Ho as [? Hb]. split; [done |]. destruct Hr2. lia. }
  cbn [mbind res_bind]. destruct o as [r3|]; [| by exists None]. destruct Ho as [Hr3 Hn3].
  destruct (br_drop_ok 1 r3 Hr3 ltac:(lia)) as [Hr4 _]. eexists. split; [done |]. split; [done |].
  rewrite u32_small; destruct (flag (br_bits r3) 1); lia.
Qed.

(** Weights that a run of symbols has set to 1. *)
Lemma set_ones (f : Z -> Z) W a n : 0 <= a -> 0 <= n -> (forall i, f i = a + i) -> a + n <= zlen W ->
  exists W', foldM (fun w i => seti w (f i) 1) W (range 0 n) = Ok W' /\ length W' = length W /\
    forall s, 0 <= s -> weight W' s = if (a <=? s) && (s <? a + n) then 1 else weight W s.
Proof.
  intros Ha Hn Hf Hl.
  destruct (foldM_range (fun k w => length w = length W /\
      forall s, 0 <= s -> weight w s = if (a <=? s) && (s <? a + k) then 1 else weight W s)
    (fun w i => seti w (f i) 1) W 0 n) as (W' & Hrun & Hres); [lia | | | by exists W'].
  - split; [done |]. intros s Hs. destruct (Z.leb_spec a s), (Z.ltb_spec s (a + 0)); cbn; try done; lia.
  - intros i w Hi [Hlw Hw]. rewrite Hf, seti_ok by lia. eexists. split; [done |]. rewrite length_insert. split; [done |].
    intros s Hs. change (weight (<[Z.to_nat (a + i) := 1]> w) s) with (entry_at (<[Z.to_nat (a + i) := 1]> w) s).
    rewrite entry_at_insert by lia. change (entry_at w s) with (weight w s). rewrite Hw by done.
    destruct (Z.eqb_spec (a + i) s), (Z.leb_spec a s), (Z.ltb_spec s (a + i)), (Z.ltb_spec s (a + (i + 1))); cbn; try done; lia.
Qed.

Lemma total_ext D D' n : 0 <= n -> (forall s, 0 <= s < n -> weight D' s = weight D s) -> total_cells D' n = total_cells D n.
Proof.
  intros Hn H. unfold total_cells. f_equal. apply map_ext_in. intros s Hs%list_elem_of_In%range_elem. by rewrite H.
Qed.

Lemma total_ones D a b : 0 <= a <= b -> (forall s, a <= s < b -> weight D s = 1) -> total_cells D b = total_cells D a.
Proof.
  intros Hab H. unfold total_cells. rewrite (range_split 0 a b), map_app, zsum_app by lia.
  assert (zsum (map (fun s => cells (weight D s)) (range a b)) = 0) as ->; [| lia].
  assert (forall l, (forall s, s ∈ l -> weight D s = 1) -> zsum (map (fun s => cells (weight D s)) l) = 0) as Hz.
  { induction l as [|s l IH]; intros Hl; [done |]. cbn. rewrite (Hl s) by constructor. cbn. apply IH. intros x Hx. apply Hl. by constructor. }
  apply Hz. intros s Hs%range_elem. by apply H.
Qed.

Lemma total_succ D s : 0 <= s -> total_cells D (s + 1) = total_cells D s + cells (weight D s).
Proof. intros Hs. unfold total_cells. rewrite range_snoc, map_app, zsum_app by lia. cbn. lia. Qed.

Context (max_sym : Z).

(** The weights set so far, for symbols up to [sym], leave [left] cells. *)
Definition dist_inv (log : Z) (sym left : Z) (W : list Z) : Prop :=
  0 <= sym /\ total_cells W sym + left = 2 ^ log /\ 1 <= left /\
  forall s, 0 <= s < sym -> 0 <= weight W s <= 2 ^ log + 1.

Lemma fse_repeat_ok log left (W0 : list Z) fuel sym W r : br_ok r -> max_sym < zlen W -> 0 <= sym <= max_sym -> dist_inv log (sym + 1) left W ->
  max_sym - sym < Z.of_nat fuel -> length W = length W0 ->
  exists o, fse_repeat fuel m end_ max_sym sym W r = Ok o /\
    match o with
    | None => True
    | Some (sym', W', r') => br_ok r' /\ length W' = length W0 /\ sym <= sym' <= max_sym /\ dist_inv log (sym' + 1) left W'
    end.
Proof.
  revert sym W r. induction fuel as [|fuel IH]; intros sym W r Hr HW Hs Hinv Hf Hlen; [lia |]. cbn [fse_repeat].
  assert (exists o, (if br_num r <? 2 then br_fetch m end_ r else Ok (Some r)) = Ok o /\
    match o with None => True | Some r' => br_ok r' /\ 2 <= br_num r' end) as (o & -> & Ho).
  { destruct (Z.ltb_spec (br_num r) 2) as [Hlt | Hge]; [| exists (Some r); by split].
    destruct (br_fetch_ok r Hr ltac:(lia)) as (o & -> & Ho). exists o. split; [done |]. destruct o; [| done].
    destruct Ho as [? Hb]. split; [done |]. destruct Hr. lia. }
  cbn [mbind res_bind]. destruct o as [r1|]; [| by exists None]. destruct Ho as [Hr1 Hn1].
  assert (Z.land (br_bits r1) 3 = br_bits r1 mod 4) as -> by (apply (land_ones_mod _ 2); lia). set (rep := br_bits r1 mod 4).
  assert (0 <= rep < 4) as Hrep by (apply Z.mod_pos_bound; lia).
  destruct (br_drop_ok 2 r1 Hr1 ltac:(lia)) as [Hr2 _]. unfold check.
  destruct (Z.leb_spec (sym + rep) max_sym) as [Hle |]; [| by exists None].
  unfold fse_zeros. destruct (set_ones (fun i => sym + 1 + i) W (sym + 1) rep) as (W' & -> & HlW & HW'); [lia | lia | done | lia |].
  cbn [mbind res_bind]. destruct Hinv as (_ & Ht & Hl1 & Hb).
  assert (dist_inv log (sym + rep + 1) left W') as Hinv'.
  { split; [lia |]. rewrite (total_ones W' (sym + 1)) by (lia || (intros s Hss; rewrite HW' by lia;
      destruct (Z.leb_spec (sym + 1) s), (Z.ltb_spec s (sym + 1 + rep)); cbn; done || lia)).
    split; [rewrite (total_ext W W') by (lia || (intros s Hss; rewrite HW' by lia; destruct (Z.leb_spec (sym + 1) s); cbn; done || lia)); lia |].
    split; [lia |]. intros s Hss. rewrite HW' by lia. pose proof (Z.pow_nonneg 2 log ltac:(lia)).
    destruct (Z.leb_spec (sym + 1) s); cbn [andb]; [destruct (Z.ltb_spec s (sym + 1 + rep)); [lia | lia] | apply Hb; lia]. }
  destruct (Z.eqb_spec rep 3) as [H3 | H3].
  - destruct (IH (sym + rep) W' (br_drop 2 r1)) as (o & Hrun & Ho); [done | lia | lia | done | lia | lia |].
    rewrite Hrun. exists o. split; [done |]. destruct o as [[[sym' W''] r']|]; [| done].
    destruct Ho as (? & ? & ? & ?). split_and!; (done || lia).
  - eexists. split; [done |]. split_and!; (done || lia).
Qed.

Lemma fse_symbols_ok log fuel sym left W r : 5 <= log <= 20 -> br_ok r -> max_sym < zlen W -> 0 <= sym <= max_sym + 1 -> dist_inv log sym left W ->
  max_sym - sym < Z.of_nat fuel -> (0 < fuel)%nat ->
  exists o, fse_symbols fuel m end_ max_sym sym left W r = Ok o /\
    match o with
    | None => True
    | Some (in_, W') => lo <= in_ <= end_ /\ length W' = length W /\ total_cells W' max_sym = 2 ^ log /\
        forall s, 0 <= s < max_sym -> 0 <= weight W' s <= 2 ^ log + 1
    end.
Proof.
  intros Hlog. revert sym left W r. induction fuel as [|fuel IH]; intros sym left W r Hr HW Hs Hinv Hf Hf0; [lia |]. cbn [fse_symbols].
  destruct (Z.ltb_spec sym max_sym) as [Hlt | Hge]; cbn [negb]; [| by exists None].
  pose proof Hinv as (_ & Ht & Hl1 & Hb).
  assert (0 <= total_cells W sym) as Htn.
  { rewrite total_split; [lia | lia |]. intros s Hss. by apply Hb. }
  assert (2 ^ log <= 2 ^ 20) as Hpow by (apply Z.pow_le_mono_r; lia).
  destruct (fse_value_ok left r Hr ltac:(lia)) as (o & -> & Ho). cbn [mbind res_bind].
  destruct o as [[v r1]|]; [| by exists None]. destruct Ho as [Hr1 Hv].
  rewrite seti_ok by lia. cbn [mbind res_bind]. set (W1 := <[Z.to_nat sym := v]> W).
  assert (forall s, 0 <= s -> weight W1 s = if sym =? s then v else weight W s) as HW1.
  { intros s Hss. by apply entry_at_insert; [lia |]. }
  assert (length W1 = length W) as HlW1 by apply length_insert.
  assert (total_cells W1 (sym + 1) = total_cells W sym + cells v) as Ht1.
  { rewrite total_succ by lia. rewrite HW1, Z.eqb_refl by lia. f_equal. apply total_ext; [lia |]. intros s Hss. rewrite HW1 by lia.
    by assert ((sym =? s) = false) as -> by zb. }
  assert (forall s, 0 <= s < sym + 1 -> 0 <= weight W1 s <= 2 ^ log + 1) as Hb1.
  { intros s Hss. rewrite HW1 by lia. destruct (Z.eqb_spec sym s); [lia | apply Hb; lia]. }
  unfold cells in Ht1. destruct (Z.eqb_spec v 1) as [-> | Hv1]; cbn [negb].
  - destruct (fse_repeat_ok log left W1 (S (Z.to_nat max_sym)) sym W1 r1) as (o & -> & Ho); [done | lia | lia | | lia | done |].
    { split; [lia |]. rewrite Ht1. cbn. split_and!; [lia | lia | done]. }
    cbn [mbind res_bind]. destruct o as [[[sym' W2] r2]|]; [| by exists None]. destruct Ho as (Hr2 & Hl2 & Hs2 & Hinv2).
    destruct (IH (sym' + 1) left W2 r2) as (o & -> & Ho); [done | lia | lia | done | lia | lia |]. exists o. split; [done |].
    destruct o as [[in_ W']|]; [| done]. destruct Ho as (? & ? & ? & ?). split_and!; (done || lia).
  - rewrite c_assert_true by (apply orb_true_iff; destruct (Z.eqb_spec v 0); [by left | right; zb]). cbn [mbind res_bind].
    assert (u32 (left - (if v =? 0 then 1 else v - 1)) = left - (if v =? 0 then 1 else v - 1)) as ->
      by (apply u32_small; destruct (Z.eqb_spec v 0); lia).
    set (left' := left - (if v =? 0 then 1 else v - 1)) in *.
    destruct (Z.eqb_spec left' 0) as [Hl0 | Hl0].
    + assert (exists W2, foldM (fun w i => seti w i 1) W1 (range (sym + 1) max_sym) = Ok W2 /\ length W2 = length W1 /\
        forall s, 0 <= s -> weight W2 s = if (sym + 1 <=? s) && (s <? max_sym) then 1 else weight W1 s) as (W2 & -> & Hl2 & HW2).
      { destruct (set_ones (fun i => sym + 1 + i) W1 (sym + 1) (max_sym - (sym + 1))) as (W2 & Hrun & Hl2 & HW2); [lia | lia | done | lia |].
        exists W2. split.
        - rewrite <- Hrun. assert (forall l w, foldM (fun w i => seti w i 1) w (map (Z.add (sym + 1)) l) =
            foldM (fun w i => seti w (sym + 1 + i) 1) w l) as Hmap.
          { induction l as [|x l IHl]; intros w; [done |]. cbn [map foldM]. destruct (seti w (sym + 1 + x) 1); cbn; [apply IHl | done]. }
          rewrite <- Hmap. f_equal. unfold range. rewrite Z.sub_0_r. pose proof (fmap_add_seqZ (sym + 1) 0 (max_sym - (sym + 1))) as Hq. rewrite Z.add_0_r in Hq. symmetry. exact Hq.
        - split; [done |]. intros s Hss. rewrite HW2 by done. by replace (sym + 1 + (max_sym - (sym + 1))) with max_sym by lia. }
      cbn [mbind res_bind]. eexists. split; [done |]. split; [destruct Hr1; lia |]. split; [lia |]. split.
      * rewrite (total_ones W2 (sym + 1)) by (lia || (intros s Hss; rewrite HW2 by lia;
          destruct (Z.leb_spec (sym + 1) s), (Z.ltb_spec s max_sym); cbn; done || lia)).
        rewrite (total_ext W1 W2) by (lia || (intros s Hss; rewrite HW2 by lia; destruct (Z.leb_spec (sym + 1) s); cbn; done || lia)).
        rewrite Ht1. unfold left' in Hl0. destruct (Z.eqb_spec v 0); lia.
      * intros s Hss. rewrite HW2 by lia. destruct (Z.leb_spec (sym + 1) s); cbn [andb].
        -- destruct (Z.ltb_spec s max_sym); [lia | lia].
        -- apply Hb1. lia.
    + destruct (IH (sym + 1) left' W1 r1) as (o & -> & Ho); [done | lia | lia | | lia | lia |].
      { split; [lia |]. unfold left' in *. split_and!; [destruct (Z.eqb_spec v 0); lia | destruct (Z.eqb_spec v 0); lia | done]. }
      exists o. split; [done |]. destruct o as [[in_ W']|]; [| done]. destruct Ho as (? & ? & ? & ?). split_and!; (done || lia).
Qed.
End Distribution.

Lemma distribution_safe m in_ end_ max_sym weights :
  mem_ok m -> in_ <= end_ -> accessible m in_ (end_ - in_) -> 0 <= max_sym < zlen weights ->
  exists o, fse_decode_distribution m in_ end_ max_sym weights = Ok o /\
    match o with
    | None => True
    | Some (next, log, w) => in_ <= next <= end_ /\ 5 <= log <= 20 /\ length w = length weights /\
        total_cells w max_sym = 2 ^ log /\ forall s, 0 <= s < max_sym -> 0 <= weight w s <= 2 ^ log + 1
    end.
Proof.
  intros Hok Hie Hacc Hms. unfold fse_decode_distribution, check.
  destruct (Z.leb_spec 1 (end_ - in_)) as [Hge |]; [| by exists None].
  destruct (accessible_ld8 m in_ (end_ - in_) in_ Hok Hacc ltac:(lia)) as (b & -> & _ & Hb). cbn [mbind res_bind].
  assert (Z.land b 15 = b mod 16) as -> by (apply (land_ones_mod _ 4); lia).
  assert (0 <= b mod 16 < 16) as Hb16 by (apply Z.mod_pos_bound; lia). rewrite u8_small by lia. set (log := b mod 16 + 5).
  rewrite Z.shiftl_1_l.
  destruct (fse_symbols_ok m in_ end_ Hok Hacc max_sym log (S (Z.to_nat max_sym)) 0 (2 ^ log) weights
    {| br_bits := Z.shiftr b 4; br_num := 4; br_in := in_ + 1 |}) as (o & -> & Ho).
  - lia.
  - split; cbn; lia.
  - lia.
  - lia.
  - split; [lia |]. split; [done |]. split; [assert (0 < 2 ^ log) by (apply Z.pow_pos_nonneg; lia); lia |]. intros; lia.
  - lia.
  - lia.
  - cbn [mbind res_bind]. destruct o as [[next w]|]; [| by exists None]. eexists. split; [done |].
    destruct Ho as (? & ? & ? & ?). split_and!; (done || lia).
Qed.

(** ** Theorems *)

(** C39: [fse_build_table] turns every normalized distribution (at most 64
    symbols, the cells of the symbols add up to the table size, no symbol owns
    the whole table) into a correct decoding table, without failing an
    assertion or leaving the table: symbols are spread as RFC 8878 demands, no
    entry leads outside of the table, and each symbol reaches every state from
    exactly one of its cells, which is what makes decoding invert encoding. *)
Theorem fse_build_table_correct junk log num_sym distribution table :
  5 <= log <= 20 -> 0 <= num_sym <= 64 -> num_sym <= zlen distribution ->
  (forall s, 0 <= s < num_sym -> 0 <= weight distribution s <= 2 ^ log) ->
  total_cells distribution num_sym = 2 ^ log -> 2 ^ log <= zlen table ->
  zlen (fc_bits junk) = 64 -> zlen (fc_cutoff junk) = 64 -> zlen (fc_counter junk) = 64 ->
  exists t, fse_build_table junk log num_sym distribution table = Ok t /\ length t = length table /\
    fse_table_ok log num_sym distribution t.
Proof. intros. apply build_ok; (done || lia). Qed.

(** C40: [fse_decode_distribution] is safe on every input when the array has
    room for [max_sym + 1] weights: it terminates, never reads outside of the
    input, fails no assertion, and a distribution it accepts is normalized. *)
Theorem fse_decode_distribution_safe m in_ end_ max_sym weights :
  mem_ok m -> in_ <= end_ -> accessible m in_ (end_ - in_) -> 0 <= max_sym < zlen weights ->
  exists o, fse_decode_distribution m in_ end_ max_sym weights = Ok o /\
    match o with
    | None => True
    | Some (next, log, w) => in_ <= next <= end_ /\ 5 <= log <= 20 /\ length w = length weights /\
        total_cells w max_sym = 2 ^ log /\ forall s, 0 <= s < max_sym -> 0 <= weight w s <= 2 ^ log + 1
    end.
Proof. apply distribution_safe. Qed.

(** With an array of exactly [max_sym] weights, as for the weights of a
    Huffman tree (12), three bytes of input make the zero-repeat loop store one
    element past the end of the array. *)
Theorem fse_repeat_out_of_bounds :
  fse_decode_distribution (mem_of 0 [0x10; 0xfe; 0x01]) 0 3 12 (replicate 12 0) = Trap (TrapOob 12).
Proof. vm_compute. reflexivity. Qed.

(** Two bytes code the distribution with one symbol that owns the whole table;
    it is accepted, but its last entry fails [assert(base < mask)]. *)
Theorem fse_single_symbol_asserts :
  let w := 33 :: replicate 35 1 ++ replicate 28 0 in
  fse_decode_distribution (mem_of 0 [0xf0; 0x0f]) 0 2 36 (replicate 64 0) = Ok (Some (2, 5, w)) /\
  fse_build_table {| fc_bits := replicate 64 0; fc_cutoff := replicate 64 0; fc_counter := replicate 64 0 |}
    5 36 w (replicate 512 0) = Trap TrapAssert.
Proof. split; vm_compute; reflexivity. Qed.

(** The default distribution of offset codes ([dist_settings]). *)
Definition demo_weights : list Z :=
  [2; 2; 2; 2; 2; 2; 3; 3; 3; 2; 2; 2; 2; 2; 2; 2; 2; 2; 2; 2; 2; 2; 2; 2; 0; 0; 0; 0; 0].
Definition demo_junk : fse_cols := {| fc_bits := replicate 64 0; fc_cutoff := replicate 64 0; fc_counter := replicate 64 0 |}.

Lemma demo_weights_ok s : 0 <= s < 29 -> 0 <= weight demo_weights s <= 2 ^ 5.
Proof.
  intros Hs. assert (forallb (fun s => (0 <=? weight demo_weights s) && (weight demo_weights s <=? 32)) (range 0 29) = true) as H
    by reflexivity.
  rewrite forallb_forall in H. specialize (H s (proj1 (list_elem_of_In _ _) (proj2 (range_elem 0 29 s) Hs))). lia.
Qed.

Lemma fse_build_table_correct_witness :
  exists t, fse_build_table demo_junk 5 29 demo_weights (replicate 256 7) = Ok t /\ length t = length (replicate 256 7) /\
    fse_table_ok 5 29 demo_weights t.
Proof.
  apply (fse_build_table_correct demo_junk 5 29 demo_weights (replicate 256 7)).
  - lia.
  - lia.
  - discriminate.
  - exact demo_weights_ok.
  - vm_compute. reflexivity.
  - discriminate.
  - reflexivity.
  - reflexivity.
  - reflexivity.
Defined.

Lemma fse_decode_distribution_safe_witness :
  exists o, fse_decode_distribution (mem_of 100 [0xf0; 0x0f; 0]) 100 103 52 (replicate 64 0) = Ok o /\
    match o with
    | None => True
    | Some (next, log, w) => 100 <= next <= 103 /\ 5 <= log <= 20 /\ length w = length (replicate 64 0) /\
        total_cells w 52 = 2 ^ log /\ forall s, 0 <= s < 52 -> 0 <= weight w s <= 2 ^ log + 1
    end.
Proof.
  apply (fse_decode_distribution_safe (mem_of 100 [0xf0; 0x0f; 0]) 100 103 52 (replicate 64 0)).
  - apply mem_of_ok. repeat constructor; discriminate.
  - discriminate.
  - apply mem_of_accessible; discriminate.
  - split; [discriminate | reflexivity].
Defined.
