(* ===== verification/ZstdLiterals.v ===== *)
(** * Literals of zstd blocks
      ([src/compression/zstd_literals.c], [src/compression/zstd_probe_literals.c])

    The header of a literals section, the Huffman tree description and the
    Huffman-coded literal streams, which are read backwards from their end. *)
From S2P Require Export Fse Compression.

(** ** The literals section header *)
Definition ZSTD_RAW_LITERALS : Z := 1.
Definition ZSTD_RLE_LITERALS : Z := 2.
Definition ZSTD_TREELESS : Z := 4.
Definition ZSTD_TRUNCATED : Z := 8.
Definition ZSTD_1STREAM : Z := 16.
Definition ZSTD_NO_TREE_DESC_MASK : Z :=
  Z.lor (Z.lor (Z.lor ZSTD_RAW_LITERALS ZSTD_RLE_LITERALS) ZSTD_TREELESS) ZSTD_TRUNCATED.

Definition Treeless_Literals_Block : Z := 3.

(** The pointers and the size are only set when [flags] is not [ZSTD_TRUNCATED]. *)
Record literals_probe : Type := { lp_start : Z; lp_end : Z; lp_size : Z; lp_flags : Z }.

Definition lp_truncated : literals_probe := {| lp_start := 0; lp_end := 0; lp_size := 0; lp_flags := ZSTD_TRUNCATED |}.

Definition zstd_probe_literals (m : mem) (in_ end_ : Z) : res literals_probe :=
  lsh0 ← ld8 m in_;
  let in_ := in_ + 1 in
  let literals_block_type := Z.land lsh0 3 in
  if 2 <=? literals_block_type then
    let flags := if literals_block_type =? Treeless_Literals_Block then ZSTD_TREELESS else 0 in
    let size_format := Z.land (Z.shiftr lsh0 2) 3 in
    if end_ - in_ <? 2 then Ok lp_truncated
    else
    b0 ← ld8 m in_;
    let in_ := in_ + 1 in
    let regen_size := Z.lor (Z.shiftr lsh0 4) (Z.shiftl b0 4) in
    let finish (in_ regen_size comp_size flags : Z) :=
      if end_ - in_ <? comp_size then Ok lp_truncated
      else Ok {| lp_start := in_; lp_end := in_ + comp_size; lp_size := regen_size; lp_flags := flags |} in
    if size_format <? 2 then
      let flags := if size_format =? 0 then Z.lor flags ZSTD_1STREAM else flags in
      b1 ← ld8 m in_;
      finish (in_ + 1) (Z.land regen_size 0x3ff) (Z.lor (Z.shiftr regen_size 10) (Z.shiftl b1 2)) flags
    else if end_ - in_ <? size_format then Ok lp_truncated
    else if size_format =? 2 then
      c0 ← ld8 m in_; c1 ← ld8 m (in_ + 1);
      finish (in_ + size_format) (Z.lor regen_size (Z.land (Z.shiftl c0 12) 0x3000))
        (Z.lor (Z.shiftr c0 2) (Z.shiftl c1 6)) flags
    else
      c_assert (size_format =? 3) ;;
      c0 ← ld8 m in_; c1 ← ld8 m (in_ + 1); c2 ← ld8 m (in_ + 2);
      finish (in_ + size_format) (Z.lor regen_size (Z.land (Z.shiftl c0 12) 0x3f000))
        (Z.lor (Z.lor (Z.shiftr c0 6) (Z.shiftl c1 2)) (Z.shiftl c2 10)) flags
  else
    let finish (in_ size : Z) :=
      if flag lsh0 1 then
        if end_ - in_ <? 1 then Ok lp_truncated
        else Ok {| lp_start := in_; lp_end := in_ + 1; lp_size := size; lp_flags := ZSTD_RLE_LITERALS |}
      else
        if end_ - in_ <? size then Ok lp_truncated
        else Ok {| lp_start := in_; lp_end := in_ + size; lp_size := size; lp_flags := ZSTD_RAW_LITERALS |} in
    if negb (flag lsh0 4) then finish in_ (Z.shiftr lsh0 3)
    else if negb (flag lsh0 8) then
      if end_ - in_ <? 1 then Ok lp_truncated
      else
      b0 ← ld8 m in_;
      finish (in_ + 1) (Z.lor (Z.shiftr lsh0 4) (Z.shiftl b0 4))
    else
      if end_ - in_ <? 2 then Ok lp_truncated
      else
      b0 ← ld8 m in_; b1 ← ld8 m (in_ + 1);
      finish (in_ + 2) (Z.lor (Z.lor (Z.shiftr lsh0 4) (Z.shiftl b0 4)) (Z.shiftl b1 12)).

(** ** Decoding tables *)
Record huff_entry : Type := { he_sym : Z; he_len : Z }.

Record dectables : Type := {
  huff_depth : Z; copy_log : Z; length_log : Z; dist_log : Z;
  t_dist1 : Z; t_dist2 : Z; t_dist3 : Z;
  huff_table : list huff_entry;
  copy_table : list Z; length_table : list Z; dist_table : list Z;
}.

Definition set_huff (depth : Z) (table : list huff_entry) (t : dectables) : dectables :=
  {| huff_depth := depth; copy_log := copy_log t; length_log := length_log t; dist_log := dist_log t;
     t_dist1 := t_dist1 t; t_dist2 := t_dist2 t; t_dist3 := t_dist3 t; huff_table := table;
     copy_table := copy_table t; length_table := length_table t; dist_table := dist_table t |}.

(** ** The Huffman tree description *)

(** [x >> n] on a 32-bit register of AArch64; C leaves [n = 32] undefined. *)
Definition shr32 (x n : Z) : Z := Z.shiftr x (n mod 32).
Definition MASK31 (n : Z) : Z := Z.shiftl 1 n - 1.

(** Weights read so far: the array, [num] and [sum]. *)
Record weight_acc : Type := { wa_weights : list Z; wa_num : Z; wa_sum : Z }.

(** [sum += 1 << (weights[num++] = w) >> 1] *)
Definition add_weight (w : Z) (a : weight_acc) : res weight_acc :=
  weights ← seti (wa_weights a) (wa_num a) (u8 w);
  Ok {| wa_weights := weights; wa_num := u8 (wa_num a + 1); wa_sum := u32 (wa_sum a + Z.shiftr (Z.shiftl 1 w) 1) |}.

(** The reader of FSE-coded weights: [bits], [num_bits], [weights_end]. *)
Record wreader : Type := { wr_bits : Z; wr_num : Z; wr_end : Z }.

(** [entry = fse_table[(bits >> (num_bits -= fse_bits(entry)) & MASK31(fse_bits(entry))) + fse_base(entry)]] *)
Definition update_entry (fse_table : list Z) (r : wreader) (entry : Z) : res (wreader * Z) :=
  let num_bits := u32 (wr_num r - fse_bits entry) in
  e ← geti fse_table (Z.land (shr32 (wr_bits r) num_bits) (MASK31 (fse_bits entry)) + fse_base entry);
  Ok ({| wr_bits := wr_bits r; wr_num := num_bits; wr_end := wr_end r |}, e).

(** [bits = bits << 8 | *--weights_end; num_bits += 8;] *)
Definition wr_fetch (m : mem) (r : wreader) : res wreader :=
  b ← ld8 m (wr_end r - 1);
  Ok {| wr_bits := Z.lor (u32 (Z.shiftl (wr_bits r) 8)) b; wr_num := u32 (wr_num r + 8); wr_end := wr_end r - 1 |}.

(** [while (num_bits <= 24 && in < weights_end)] *)
Fixpoint wr_fill (fuel : nat) (m : mem) (in_ : Z) (r : wreader) : res wreader :=
  match fuel with
  | O => Trap TrapFuel
  | S fuel =>
      if (wr_num r <=? 24) && (in_ <? wr_end r) then r ← wr_fetch m r; wr_fill fuel m in_ r else Ok r
  end.

(** The first loop, while more than 24 bits are available. *)
Fixpoint weights_bulk (fuel : nat) (m : mem) (in_ : Z) (fse_table : list Z) (r : wreader) (even odd : Z) (a : weight_acc)
    : res (option (wreader * Z * Z * weight_acc)) :=
  match fuel with
  | O => Trap TrapFuel
  | S fuel =>
      r ← wr_fill 5 m in_ r;
      if wr_num r <=? 24 then Ok (Some (r, even, odd, a))
      else
      a ← add_weight (fse_sym even) a;
      a ← add_weight (fse_sym odd) a;
      check (wa_num a <? 254) (
      '(r, even) ← update_entry fse_table r even;
      '(r, odd) ← update_entry fse_table r odd;
      weights_bulk fuel m in_ fse_table r even odd a)
  end.

(** The second loop, until the bits run out. *)
Fixpoint weights_tail (fuel : nat) (fse_table : list Z) (r : wreader) (even odd : Z) (a : weight_acc)
    : res (option weight_acc) :=
  match fuel with
  | O => Trap TrapFuel
  | S fuel =>
      check (wa_num a <=? 253) (
      a ← add_weight (fse_sym even) a;
      if wr_num r <? fse_bits even then a ← add_weight (fse_sym odd) a; Ok (Some a)
      else
      '(r, even) ← update_entry fse_table r even;
      check (wa_num a <=? 253) (
      a ← add_weight (fse_sym odd) a;
      if wr_num r <? fse_bits odd then a ← add_weight (fse_sym even) a; Ok (Some a)
      else
      '(r, odd) ← update_entry fse_table r odd;
      weights_tail fuel fse_table r even odd a))
  end.

(** [if (header < 128)]: FSE-coded weights; [in_] is after the header.  The
    local arrays [fse_weights], [fse_table], [weights] and the columns of
    [fse_build_table] are uninitialized: [junk]. *)
Record tree_junk : Type := { j_fse_weights : list Z; j_fse_table : list Z; j_weights : list Z; j_cols : fse_cols; j_order : list Z }.

Definition fse_weights_desc (junk : tree_junk) (m : mem) (in_ end_ header : Z) : res (option (Z * weight_acc)) :=
  let weights_end := in_ + header in
  let huff_start := weights_end in
  o ← fse_decode_distribution m in_ end_ 12 (j_fse_weights junk);
  match o with
  | None => Ok None
  | Some (in_, fse_log, fse_weights) =>
      check (fse_log <=? 6) (
      fse_table ← fse_build_table (j_cols junk) fse_log 12 fse_weights (j_fse_table junk);
      check (header <=? end_ - in_) (
      check (2 <? header) (
      b1 ← ld8 m (weights_end - 1);
      b0 ← ld8 m (weights_end - 2);
      let bits := Z.lor (Z.shiftl b1 8) b0 in
      let weights_end := weights_end - 2 in
      check (0x100 <=? bits) (
      let num_bits := u32 (clz32 1 - clz32 bits) in
      let start r :=
        let n1 := u32 (wr_num r - fse_log) in
        let state_even := u8 (Z.land (shr32 (wr_bits r) n1) (MASK31 fse_log)) in
        let n2 := u32 (n1 - fse_log) in
        let state_odd := u8 (Z.land (shr32 (wr_bits r) n2) (MASK31 fse_log)) in
        c_assert ((state_even <? Z.shiftl 1 fse_log) && (state_odd <? Z.shiftl 1 fse_log)) ;;
        even ← geti fse_table state_even;
        odd ← geti fse_table state_odd;
        let r := {| wr_bits := wr_bits r; wr_num := n2; wr_end := wr_end r |} in
        o ← weights_bulk 129 m in_ fse_table r even odd {| wa_weights := j_weights junk; wa_num := 0; wa_sum := 0 |};
        match o with
        | None => Ok None
        | Some (r, even, odd, a) =>
            o ← weights_tail 129 fse_table r even odd a;
            match o with None => Ok None | Some a => Ok (Some (huff_start, a)) end
        end in
      let r := {| wr_bits := bits; wr_num := num_bits; wr_end := weights_end |} in
      if num_bits <? 2 * fse_log then
        check (in_ <? weights_end) (
        r ← wr_fetch m r;
        c_assert (2 * fse_log <? wr_num r) ;;
        start r)
      else start r))))
  end.

(** [else]: direct weights, two per byte. *)
Definition direct_pair (m : mem) (in_ : Z) (a : weight_acc) (i : Z) : res weight_acc :=
  byte ← ld8 m (in_ + i);
  let w1 := Z.shiftr byte 4 in
  let w2 := Z.land byte 15 in
  weights ← seti (wa_weights a) (2 * i) w1;
  let sum := u32 (wa_sum a + Z.shiftr (Z.shiftl 1 w1) 1) in
  weights ← seti weights (2 * i + 1) w2;
  let sum := u32 (sum + Z.shiftr (Z.shiftl 1 w2) 1) in
  Ok {| wa_weights := weights; wa_num := wa_num a; wa_sum := sum |}.

Definition direct_weights (junk : tree_junk) (m : mem) (in_ end_ header : Z) : res (option (Z * weight_acc)) :=
  let num := header - 127 in
  check ((num + 1) / 2 <=? end_ - in_) (
  a ← foldM (direct_pair m in_) {| wa_weights := j_weights junk; wa_num := num; wa_sum := 0 |} (range 0 (num / 2));
  let in_ := in_ + num / 2 in
  if flag num 1 then
    b ← ld8 m in_;
    let w := Z.shiftr b 4 in
    weights ← seti (wa_weights a) (num - 1) w;
    Ok (Some (in_ + 1, {| wa_weights := weights; wa_num := num; wa_sum := u32 (wa_sum a + Z.shiftr (Z.shiftl 1 w) 1) |}))
  else Ok (Some (in_, a))).

(** [__builtin_ctz] on a positive 32-bit number. *)
Fixpoint ctz_pos (p : positive) : Z := match p with xO p => 1 + ctz_pos p | _ => 0 end.
Definition ctz32 (x : Z) : Z := match x with Zpos p => ctz_pos p | _ => 32 end.

(** [while (sum > (1u << maxbits)) {maxbits += 1;}] *)
Fixpoint find_maxbits (fuel : nat) (sum maxbits : Z) : res Z :=
  match fuel with
  | O => Trap TrapFuel
  | S fuel => if Z.shiftl 1 maxbits <? sum then find_maxbits fuel sum (maxbits + 1) else Ok maxbits
  end.

(** [do {...} while (--j)]: moves larger weights up; returns the hole. *)
Fixpoint sort_shift (fuel : nat) (w : Z) (weights order : list Z) (j : Z) : res (list Z * list Z * Z) :=
  match fuel with
  | O => Trap TrapFuel
  | S fuel =>
      wp ← geti weights (j - 1);
      if wp <=? w then Ok (weights, order, j)
      else
      weights ← seti weights j wp;
      op ← geti order (j - 1);
      order ← seti order j op;
      let j := j - 1 in
      if j =? 0 then Ok (weights, order, j) else sort_shift fuel w weights order j
  end.

Definition sort_step (st : list Z * list Z) (i : Z) : res (list Z * list Z) :=
  let '(weights, order) := st in
  w ← geti weights i;
  '(weights, order, j) ←
    (if 0 <? i then
       '(weights, order, j) ← sort_shift 256 w weights order i;
       weights ← seti weights j w;
       Ok (weights, order, j)
     else Ok (weights, order, i));
  order ← seti order j i;
  Ok (weights, order).

(** [for_range(j, 0, num_entries)]: fills the entries of one code. *)
Definition fill_code (sym len : Z) (st : list huff_entry * Z) (_ : Z) : res (list huff_entry * Z) :=
  let '(table, code) := st in
  c_assert (code <? 2048) ;;
  table ← seti table code {| he_sym := sym; he_len := len |};
  Ok (table, u16 (code + 1)).

Definition fill_symbol (maxbits : Z) (weights order : list Z) (st : list huff_entry * Z) (i : Z) : res (list huff_entry * Z) :=
  let '(table, code) := st in
  sym ← geti order i;
  weight ← geti weights i;
  if weight =? 0 then Ok (table, code)
  else
  let len := u8 (maxbits + 1 - weight) in
  let num_entries := u16 (Z.shiftl 1 (11 - len)) in
  c_assert (code mod num_entries =? 0) ;;
  foldM (fill_code sym len) (table, code) (range 0 num_entries).

(** From the weights to the table. *)
Definition huff_build (junk : tree_junk) (a : weight_acc) (tables : dectables) : res (option dectables) :=
  check (negb (wa_sum a =? 0)) (
  let lastweight := ctz32 (wa_sum a) + 1 in
  let sum := u32 (wa_sum a + Z.shiftr (Z.shiftl 1 lastweight) 1) in
  weights ← seti (wa_weights a) (wa_num a) (u8 lastweight);
  weights ← foldM (fun w i => seti w i 0) weights (range (wa_num a + 1) 256);
  maxbits ← find_maxbits 32 sum lastweight;
  check (sum =? Z.shiftl 1 maxbits) (
  check (maxbits <=? 11) (
  '(weights, order) ← foldM sort_step (weights, j_order junk) (range 0 256);
  '(table, code) ← foldM (fill_symbol maxbits weights order) (huff_table tables, 0) (range 0 256);
  c_assert (code =? 2048) ;;
  Ok (Some (set_huff maxbits table tables))))).

Definition zstd_decode_tree_description (junk : tree_junk) (m : mem) (in_ end_ : Z) (tables : dectables)
    : res (option (Z * dectables)) :=
  check (1 <=? end_ - in_) (
  header ← ld8 m in_;
  let in_ := in_ + 1 in
  o ← (if header <? 128 then fse_weights_desc junk m in_ end_ header else direct_weights junk m in_ end_ header);
  match o with
  | None => Ok None
  | Some (in_, a) =>
      o ← huff_build junk a tables;
      match o with None => Ok None | Some tables => Ok (Some (in_, tables)) end
  end).

(** ** Literal streams *)

(** [do {bits |= *--end << (shift -= 8);} while (shift >= 8 && in < end)] *)
Fixpoint lit_refill (fuel : nat) (m : mem) (in_ end_ bits shift : Z) : res (Z * Z * Z) :=
  match fuel with
  | O => Trap TrapFuel
  | S fuel =>
      let end_ := end_ - 1 in
      b ← ld8 m end_;
      let shift := u8 (shift - 8) in
      let bits := u32 (Z.lor bits (Z.shiftl b shift)) in
      if (8 <=? shift) && (in_ <? end_) then lit_refill fuel m in_ end_ bits shift else Ok (end_, bits, shift)
  end.

(** [while ((len = (entry = table + (bits >> 21))->len) > (32 - shift))] *)
Fixpoint lit_lookup (fuel : nat) (m : mem) (table : list huff_entry) (in_ end_ bits shift : Z)
    : res (option (huff_entry * Z * Z * Z)) :=
  match fuel with
  | O => Trap TrapFuel
  | S fuel =>
      entry ← geti table (Z.shiftr bits 21);
      if 32 - shift <? he_len entry then
        check (in_ <? end_) (
        '(end_, bits, shift) ← lit_refill 5 m in_ end_ bits shift;
        lit_lookup fuel m table in_ end_ bits shift)
      else Ok (Some (entry, end_, bits, shift))
  end.

(** [do {...} while (out < out_end)] *)
Fixpoint lit_loop (fuel : nat) (m : mem) (table : list huff_entry) (in_ end_ bits shift out out_end : Z)
    : res (bool * mem) :=
  match fuel with
  | O => Trap TrapFuel
  | S fuel =>
      o ← lit_lookup 5 m table in_ end_ bits shift;
      match o with
      | None => Ok (false, m)
      | Some (entry, end_, bits, shift) =>
          let len := he_len entry in
          let shift := u8 (shift + len) in
          let bits := u32 (Z.shiftl bits len) in
          m ← st8 m out (he_sym entry);
          let out := out + 1 in
          if out <? out_end then lit_loop fuel m table in_ end_ bits shift out out_end
          else Ok ((end_ =? in_) && (shift =? 32), m)
      end
  end.

Definition zstd_decompress_literal_stream (m : mem) (in_ end_ out out_end : Z) (table : list huff_entry) : res (bool * mem) :=
  c_assert (out <? out_end) ;;
  if negb (in_ <? end_) then Ok (false, m)
  else
  let end_ := end_ - 1 in
  last_byte ← ld8 m end_;
  if last_byte =? 0 then Ok (false, m)
  else
  let num_bits := u8 (clz32 1 - clz32 last_byte) in
  let shift := u8 (32 - num_bits) in
  let bits := if num_bits =? 0 then 0 else u32 (Z.shiftl last_byte (32 - num_bits)) in
  lit_loop (Z.to_nat (out_end - out)) m table in_ end_ bits shift out out_end.

Definition zstd_decode_huff_4streams (m : mem) (in_ end_ out out_end : Z) (table : list huff_entry) : res (bool * mem) :=
  if negb (10 <=? end_ - in_) then Ok (false, m)
  else
  size1 ← ld16le m in_; size2 ← ld16le m (in_ + 2); size3 ← ld16le m (in_ + 4);
  let in_ := in_ + 6 in
  if negb (size1 + size2 + size3 + 1 <=? end_ - in_) then Ok (false, m)
  else
  let regen_size := u32 (out_end - out) in
  let decomp_size123 := u32 (regen_size + 3) / 4 in
  '(ok, m) ← zstd_decompress_literal_stream m in_ (in_ + size1) out (out + decomp_size123) table;
  if negb ok then Ok (false, m)
  else
  let out := out + decomp_size123 in
  let in_ := in_ + size1 in
  '(ok, m) ← zstd_decompress_literal_stream m in_ (in_ + size2) out (out + decomp_size123) table;
  if negb ok then Ok (false, m)
  else
  let out := out + decomp_size123 in
  let in_ := in_ + size2 in
  '(ok, m) ← zstd_decompress_literal_stream m in_ (in_ + size3) out (out + decomp_size123) table;
  if negb ok then Ok (false, m)
  else
  let out := out + decomp_size123 in
  let in_ := in_ + size3 in
  zstd_decompress_literal_stream m in_ end_ out out_end table.

(** ** Bit strings, most significant bit first *)
Fixpoint bv (l : list bool) : Z :=
  match l with [] => 0 | b :: l => Z.b2z b * 2 ^ zlen l + bv l end.

Fixpoint bits_msb (n : nat) (x : Z) : list bool :=
  match n with O => [] | S n => Z.testbit x (Z.of_nat n) :: bits_msb n x end.

Lemma bv_bound l : 0 <= bv l < 2 ^ zlen l.
Proof.
  induction l as [|b l IH]; [cbn; lia |]. cbn [bv length]. rewrite Nat2Z.inj_succ, Z.pow_succ_r by lia.
  pose proof (b2z_01 b). nia.
Qed.

Lemma bv_app l1 l2 : bv (l1 ++ l2) = bv l1 * 2 ^ zlen l2 + bv l2.
Proof.
  induction l1 as [|b l1 IH]; [done |]. cbn [app bv]. rewrite IH, length_app, Nat2Z.inj_add, Z.pow_add_r by lia. ring.
Qed.

Lemma bv_zeros n : bv (replicate n false) = 0.
Proof. induction n as [|n IH]; [done |]. cbn. rewrite IH. lia. Qed.

Lemma bits_msb_length n x : length (bits_msb n x) = n.
Proof. induction n; cbn; auto. Qed.

Lemma bits_msb_bv n x : bv (bits_msb n x) = x mod 2 ^ Z.of_nat n.
Proof.
  induction n as [|n IH]; [cbn; by rewrite Z.mod_1_r |]. cbn [bits_msb bv]. rewrite IH, bits_msb_length.
  rewrite Nat2Z.inj_succ, Z.pow_succ_r, (Z.mul_comm 2) by lia. rewrite Z.rem_mul_r by lia.
  rewrite Z.testbit_spec' by lia. ring.
Qed.

Lemma bv_drop k l : (k <= length l)%nat -> bv (drop k l) = bv l mod 2 ^ (zlen l - Z.of_nat k).
Proof.
  intros Hk. rewrite <- (take_drop k l) at 2. rewrite bv_app, length_drop.
  replace (Z.of_nat (length l - k)) with (zlen l - Z.of_nat k) by lia. rewrite Z.add_comm, Z.mod_add by lia.
  symmetry. apply Z.mod_small. pose proof (bv_bound (drop k l)) as Hb. rewrite length_drop in Hb.
  by replace (Z.of_nat (length l - k)) with (zlen l - Z.of_nat k) in Hb by lia.
Qed.

Lemma bv_take k l : (k <= length l)%nat -> bv (take k l) = bv l / 2 ^ (zlen l - Z.of_nat k).
Proof.
  intros Hk. rewrite <- (take_drop k l) at 2. rewrite bv_app, length_drop.
  replace (Z.of_nat (length l - k)) with (zlen l - Z.of_nat k) by lia. rewrite Z.add_comm, Z.div_add by lia.
  rewrite Z.div_small; [lia |]. pose proof (bv_bound (drop k l)) as Hb. rewrite length_drop in Hb.
  by replace (Z.of_nat (length l - k)) with (zlen l - Z.of_nat k) in Hb by lia.
Qed.

Lemma bv_inj l1 l2 : length l1 = length l2 -> bv l1 = bv l2 -> l1 = l2.
Proof.
  revert l2. induction l1 as [|b l1 IH]; intros [|c l2] Hl Hv; try done. cbn [bv length] in *. injection Hl as Hl.
  pose proof (bv_bound l1) as H1. pose proof (bv_bound l2) as H2. rewrite Hl in *.
  assert (b = c) as ->; [destruct b, c; cbn [Z.b2z] in *; (done || lia) |]. f_equal. apply IH; [done | lia].
Qed.

(** ** What a literal stream means *)

(** The entry for the bits at the front, padded with zeros. *)
Definition index11 (bs : list bool) : Z := bv (take 11 (bs ++ replicate 11 false)).

(** A decoding table for codes of at most 11 bits: entries agree when their
    indices start with the same code. *)
Record prefix_table (table : list huff_entry) : Prop := {
  pt_len : length table = 2048%nat;
  pt_ok : forall i e, table !! i = Some e -> 1 <= he_len e <= 11 /\ is_byte (he_sym e);
  pt_prefix : forall i j e, table !! Z.to_nat i = Some e -> 0 <= i < 2048 -> 0 <= j < 2048 ->
    i / 2 ^ (11 - he_len e) = j / 2 ^ (11 - he_len e) -> table !! Z.to_nat j = Some e;
}.

(** Reads [n] symbols, which have to use up all bits. *)
Fixpoint huff_symbols (table : list huff_entry) (n : nat) (bs : list bool) : option (list Z) :=
  match n with
  | O => match bs with [] => Some [] | _ => None end
  | S n =>
      match table !! Z.to_nat (index11 bs) with
      | None => None
      | Some e =>
          if he_len e <=? zlen bs then
            match huff_symbols table n (drop (Z.to_nat (he_len e)) bs) with
            | Some l => Some (he_sym e :: l)
            | None => None
            end
          else None
      end
  end.

(** The bits of a stream: below the highest set bit of the last byte, then the
    other bytes from the last to the first. *)
Definition bytes_bits (l : list Z) : list bool := mjoin (map (bits_msb 8) (reverse l)).
Definition stream_bits (l : list Z) (last : Z) : list bool := bits_msb (Z.to_nat (Z.log2 last)) last ++ bytes_bits l.

Definition huff_stream (table : list huff_entry) (n : nat) (stream : list Z) : option (list Z) :=
  match list.last stream with
  | None => None
  | Some b => if b =? 0 then None else huff_symbols table n (stream_bits (removelast stream) b)
  end.

(** ** The bit buffer

    [bits] holds the bits [buf], most significant first, above [shift] zeros. *)
Definition buf_ok (buf : list bool) (bits shift : Z) : Prop :=
  shift = 32 - zlen buf /\ 0 <= shift /\ bits = bv buf * 2 ^ shift.

Lemma buf_index buf bits shift : buf_ok buf bits shift -> Z.shiftr bits 21 = index11 buf.
Proof.
  intros (Hs & Hp & ->). unfold index11. rewrite Z.shiftr_div_pow2 by lia.
  rewrite bv_take by (rewrite length_app, length_replicate; lia). rewrite bv_app, bv_zeros, length_app, length_replicate.
  rewrite Z.add_0_r, Hs. change (Z.of_nat 11) with 11. replace (Z.of_nat (length buf + 11) - 11) with (zlen buf) by lia.
  destruct (Z.le_gt_cases (zlen buf) 11).
  - replace (32 - zlen buf) with (21 + (11 - zlen buf)) by lia. rewrite Z.pow_add_r by lia.
    replace (bv buf * (2 ^ 21 * 2 ^ (11 - zlen buf))) with (bv buf * 2 ^ (11 - zlen buf) * 2 ^ 21) by ring.
    rewrite Z.div_mul by lia. replace 11 with (zlen buf + (11 - zlen buf)) at 2 by lia. rewrite Z.pow_add_r by lia.
    replace (bv buf * (2 ^ zlen buf * 2 ^ (11 - zlen buf))) with (bv buf * 2 ^ (11 - zlen buf) * 2 ^ zlen buf) by ring.
    by rewrite Z.div_mul by lia.
  - replace (2 ^ 21) with (2 ^ (32 - zlen buf) * 2 ^ (zlen buf - 11)) by (rewrite <- Z.pow_add_r by lia; f_equal; lia).
    rewrite (Z.mul_comm (bv buf)), Z.div_mul_cancel_l by lia.
    replace (2 ^ zlen buf) with (2 ^ 11 * 2 ^ (zlen buf - 11)) by (rewrite <- Z.pow_add_r by lia; f_equal; lia).
    rewrite (Z.mul_comm (bv buf)), Z.div_mul_cancel_l by lia. done.
Qed.

Lemma index11_bound bs : 0 <= index11 bs < 2048.
Proof.
  unfold index11. pose proof (bv_bound (take 11 (bs ++ replicate 11 false))) as H.
  rewrite length_take, length_app, length_replicate, Nat.min_l in H by lia. done.
Qed.

(** More bits behind those of a code do not change its entry. *)
Lemma index11_prefix bs more k : 0 <= k <= 11 -> k <= zlen bs ->
  index11 bs / 2 ^ (11 - k) = index11 (bs ++ more) / 2 ^ (11 - k).
Proof.
  intros Hk Hl. unfold index11.
  assert (forall l, (11 <= length l)%nat -> bv (take 11 l) / 2 ^ (11 - k) = bv (take (Z.to_nat k) l)) as H.
  { intros l Hl'.
    replace (take (Z.to_nat k) l) with (take (Z.to_nat k) (take 11 l)) by (rewrite take_take; f_equal; lia).
    rewrite (bv_take (Z.to_nat k) (take 11 l)) by (rewrite length_take; lia). rewrite length_take. do 2 f_equal. lia. }
  rewrite !H by (rewrite !length_app, length_replicate; lia). f_equal.
  rewrite <- app_assoc, !take_app_le by lia. done.
Qed.

Lemma buf_refill buf bits shift b : buf_ok buf bits shift -> 8 <= shift -> is_byte b ->
  buf_ok (buf ++ bits_msb 8 b) (u32 (Z.lor bits (Z.shiftl b (u8 (shift - 8))))) (u8 (shift - 8)).
Proof.
  intros (Hs & Hp & ->) H8 Hb. unfold is_byte in Hb. rewrite u8_small by lia.
  assert (Z.lor (bv buf * 2 ^ shift) (Z.shiftl b (shift - 8)) = (bv buf * 2 ^ 8 + b) * 2 ^ (shift - 8)) as ->.
  { rewrite <- !Z.shiftl_mul_pow2 by lia. replace shift with (8 + (shift - 8)) at 1 by lia.
    rewrite <- Z.shiftl_shiftl by lia. rewrite <- Z.shiftl_lor. f_equal. rewrite Z.lor_comm, lor_shiftl_add by lia.
    rewrite Z.shiftl_mul_pow2 by lia. lia. }
  assert (bv (buf ++ bits_msb 8 b) = bv buf * 2 ^ 8 + b) as Hbv.
  { rewrite bv_app, bits_msb_length, bits_msb_bv. change (2 ^ Z.of_nat 8) with 256. rewrite Z.mod_small by lia. done. }
  split; [rewrite length_app, bits_msb_length; lia |]. split; [lia |]. rewrite Hbv. apply u32_small.
  pose proof (bv_bound (buf ++ bits_msb 8 b)) as Hbd. rewrite Hbv, length_app, bits_msb_length in Hbd.
  replace (Z.of_nat (length buf + 8)) with (32 - (shift - 8)) in Hbd by lia.
  replace (2 ^ 32) with (2 ^ (32 - (shift - 8)) * 2 ^ (shift - 8)) by (rewrite <- Z.pow_add_r by lia; f_equal; lia).
  assert (0 < 2 ^ (shift - 8)) by lia. nia.
Qed.

Lemma buf_consume buf bits shift len : buf_ok buf bits shift -> 0 <= len <= zlen buf ->
  buf_ok (drop (Z.to_nat len) buf) (u32 (Z.shiftl bits len)) (u8 (shift + len)).
Proof.
  intros (Hs & Hp & ->) Hl. rewrite u8_small by lia. split; [rewrite length_drop; lia |]. split; [lia |].
  rewrite bv_drop by lia. unfold u32. rewrite Z2Nat.id by lia.
  rewrite Z.shiftl_mul_pow2, <- Z.mul_assoc, <- Z.pow_add_r by lia.
  replace (2 ^ 32) with (2 ^ (zlen buf - len) * 2 ^ (shift + len)) by (rewrite <- Z.pow_add_r by lia; f_equal; lia).
  by rewrite Z.mul_mod_distr_r by lia.
Qed.

(** ** The loops *)
Lemma bytes_bits_snoc l b : bytes_bits (l ++ [b]) = bits_msb 8 b ++ bytes_bits l.
Proof. unfold bytes_bits. by rewrite reverse_app. Qed.

Lemma lit_refill_ok fuel m in_ R buf bits shift : mem_ok m -> bytes_at m in_ R -> R <> [] -> buf_ok buf bits shift ->
  8 <= shift -> shift < 8 * Z.of_nat fuel + 8 ->
  exists buf' R' bits' shift', lit_refill fuel m in_ (in_ + zlen R) bits shift = Ok (in_ + zlen R', bits', shift') /\
    buf_ok buf' bits' shift' /\ bytes_at m in_ R' /\ buf' ++ bytes_bits R' = buf ++ bytes_bits R /\
    (length R' <= length R)%nat /\ (R' = [] \/ 25 <= zlen buf').
Proof.
  intros Hok. revert R buf bits shift. induction fuel as [|fuel IH]; intros R buf bits shift HR Hne Hb H8 Hf; [lia |].
  cbn [lit_refill]. destruct R as [|b R _] using rev_ind; [done |].
  rewrite length_app. cbn [length]. replace (in_ + Z.of_nat (length R + 1) - 1) with (in_ + zlen R) by lia.
  apply bytes_at_app in HR as [HR Hbl]. apply bytes_at_cons in Hbl as [Hbl _].
  rewrite (ld8_eq _ _ _ Hbl). cbn [mbind res_bind]. pose proof (Hok _ _ Hbl) as Hbyte.
  pose proof (buf_refill _ _ _ b Hb H8 Hbyte) as Hb'. set (shift' := u8 (shift - 8)) in *. set (bits' := u32 _) in *.
  assert (shift' = shift - 8) as Hs' by (unfold shift'; apply u8_small; destruct Hb; lia).
  assert ((buf ++ bits_msb 8 b) ++ bytes_bits R = buf ++ bytes_bits (R ++ [b])) as Heq
    by by rewrite bytes_bits_snoc, app_assoc.
  destruct (Z.leb_spec 8 shift') as [Hge | Hlt]; cbn [andb].
  - destruct (Z.ltb_spec in_ (in_ + zlen R)) as [Hin | Hin].
    + assert (R <> []) as HneR by (intros ->; cbn in Hin; lia).
      destruct (IH R (buf ++ bits_msb 8 b) bits' shift' HR HneR Hb' Hge ltac:(lia)) as (buf2 & R2 & bits2 & shift2 & Hrun & ? & ? & He & ? & ?).
      exists buf2, R2, bits2, shift2. rewrite Hrun. split_and!; try done; [by rewrite He | lia].
    + assert (R = []) as -> by (destruct R; [done | cbn in Hin; lia]).
      exists (buf ++ bits_msb 8 b), [], bits', shift'. split_and!; try done; [cbn; lia | by left].
  - exists (buf ++ bits_msb 8 b), R, bits', shift'. split_and!; try done; [lia |]. right. destruct Hb' as (? & ? & ?). lia.
Qed.

Section Stream.
Context (table : list huff_entry).
Hypothesis Htab : prefix_table table.

Lemma table_at i : 0 <= i < 2048 -> exists e, geti table i = Ok e /\ table !! Z.to_nat i = Some e /\ 1 <= he_len e <= 11 /\ is_byte (he_sym e).
Proof.
  intros Hi. destruct (geti_in table i) as (e & Hg & Hl); [rewrite (pt_len _ Htab); lia |].
  exists e. split; [done |]. split; [done |]. by apply (pt_ok _ Htab _ _ Hl).
Qed.

Lemma table_prefix bs more e : table !! Z.to_nat (index11 bs) = Some e -> he_len e <= zlen bs ->
  table !! Z.to_nat (index11 (bs ++ more)) = Some e.
Proof.
  intros He Hl. destruct (pt_ok _ Htab _ _ He) as [Hlen _].
  apply (pt_prefix _ Htab (index11 bs)); [done | apply index11_bound | apply index11_bound |].
  apply index11_prefix; lia.
Qed.

(** The result of a lookup, for the bits [bs] of buffer and memory. *)
Definition lookup_post (m : mem) (in_ : Z) (R : list Z) (bs : list bool) (r : res (option (huff_entry * Z * Z * Z))) : Prop :=
  exists e, table !! Z.to_nat (index11 bs) = Some e /\
    if he_len e <=? zlen bs then
      exists buf' R' bits' shift', r = Ok (Some (e, in_ + zlen R', bits', shift')) /\ buf_ok buf' bits' shift' /\
        bytes_at m in_ R' /\ buf' ++ bytes_bits R' = bs /\ (length R' <= length R)%nat /\ he_len e <= zlen buf'
    else r = Ok None.

Lemma lit_lookup_last fuel m in_ R buf bits shift : bytes_at m in_ R -> buf_ok buf bits shift -> R = [] \/ 25 <= zlen buf ->
  lookup_post m in_ R (buf ++ bytes_bits R) (lit_lookup (S fuel) m table in_ (in_ + zlen R) bits shift).
Proof.
  intros HR Hb Hlast. cbn [lit_lookup]. rewrite (buf_index _ _ _ Hb).
  destruct (table_at (index11 buf) (index11_bound buf)) as (e & -> & He & Hel & _). cbn [mbind res_bind].
  pose proof Hb as (Hs & _ & _). destruct (Z.ltb_spec (32 - shift) (he_len e)) as [Hlt | Hge].
  - destruct Hlast as [-> | ?]; [| lia]. cbn [bytes_bits reverse rev_append map mjoin list_join]. rewrite app_nil_r.
    exists e. split; [done |]. assert ((he_len e <=? zlen buf) = false) as -> by zb.
    unfold check. assert ((in_ <? in_ + zlen (@nil Z)) = false) as -> by (cbn; zb). done.
  - exists e. split; [apply table_prefix; [done | lia] |].
    assert ((he_len e <=? zlen (buf ++ bytes_bits R)) = true) as -> by (rewrite length_app; zb).
    exists buf, R, bits, shift. split_and!; try done. lia.
Qed.

Lemma lit_lookup_ok fuel m in_ R buf bits shift : mem_ok m -> bytes_at m in_ R -> buf_ok buf bits shift ->
  lookup_post m in_ R (buf ++ bytes_bits R) (lit_lookup (S (S fuel)) m table in_ (in_ + zlen R) bits shift).
Proof.
  intros Hok HR Hb. destruct (decide (R = [])) as [-> | Hne]; [by apply lit_lookup_last; [| | left] |].
  destruct (Z.le_gt_cases 25 (zlen buf)) as [Hge | Hlt]; [by apply lit_lookup_last; [| | right] |].
  remember (S fuel) as f eqn:Hf. cbn [lit_lookup]. rewrite (buf_index _ _ _ Hb).
  destruct (table_at (index11 buf) (index11_bound buf)) as (e & -> & He & Hel & _). cbn [mbind res_bind].
  pose proof Hb as (Hs & _ & _). destruct (Z.ltb_spec (32 - shift) (he_len e)) as [Hlt' | Hge'].
  - unfold check. assert ((in_ <? in_ + zlen R) = true) as -> by (destruct R; [done | cbn; zb]).
    destruct (lit_refill_ok 5 m in_ R buf bits shift) as (buf' & R' & bits' & shift' & Hrun & Hb' & HR' & Heq & Hle & Hlast);
      [done | done | done | done | lia | lia |].
    rewrite Hrun. cbn [mbind res_bind]. rewrite <- Heq. subst f.
    destruct (lit_lookup_last fuel m in_ R' buf' bits' shift' HR' Hb' Hlast) as (e' & He' & Hpost). exists e'. split; [done |].
    destruct (he_len e' <=? _); [| done]. destruct Hpost as (b2 & R2 & bi2 & s2 & Hrun2 & ? & ? & ? & ? & ?).
    exists b2, R2, bi2, s2. split_and!; try done. lia.
  - exists e. split; [apply table_prefix; [done | lia] |].
    assert ((he_len e <=? zlen (buf ++ bytes_bits R)) = true) as -> by (rewrite length_app; zb).
    exists buf, R, bits, shift. split_and!; try done. lia.
Qed.

(** [n] symbols. *)
Definition stream_post (n : nat) (m : mem) (out : Z) (o : option (list Z)) (r : res (bool * mem)) : Prop :=
  exists m', frame m m' out (out + Z.of_nat n) /\ mem_ok m' /\ same_dom m m' /\
    match o with Some l => r = Ok (true, m') /\ bytes_at m' out l /\ length l = n | None => r = Ok (false, m') end.

Lemma lit_loop_ok n m in_ R buf bits shift out : mem_ok m -> bytes_at m in_ R -> buf_ok buf bits shift -> (0 < n)%nat ->
  accessible m out (Z.of_nat n) -> in_ + zlen R <= out \/ out + Z.of_nat n <= in_ ->
  stream_post n m out (huff_symbols table n (buf ++ bytes_bits R))
    (lit_loop n m table in_ (in_ + zlen R) bits shift out (out + Z.of_nat n)).
Proof.
  revert m R buf bits shift out. induction n as [|n IH]; intros m R buf bits shift out Hok HR Hb Hn Hacc Hdisj; [lia |].
  cbn [lit_loop huff_symbols].
  destruct (lit_lookup_ok 3 m in_ R buf bits shift Hok HR Hb) as (e & He & Hpost). rewrite He.
  destruct (pt_ok _ Htab _ _ He) as [Hel Hes].
  destruct (Z.leb_spec (he_len e) (zlen (buf ++ bytes_bits R))) as [Hle | Hgt].
  2: { rewrite Hpost. cbn [mbind res_bind]. exists m. split_and!; done. }
  destruct Hpost as (buf' & R' & bits' & shift' & Hrun & Hb' & HR' & Heq & HRl & Hlen). rewrite Hrun. cbn [mbind res_bind].
  rewrite st8_ok by (apply Hacc; lia). cbn [mbind res_bind]. rewrite (u8_small (he_sym e)) by done.
  pose proof (buf_consume _ _ _ (he_len e) Hb' ltac:(lia)) as Hb2.
  set (m1 := <[out := he_sym e]> m).
  assert (frame m m1 out (out + 1)) as Hfr1 by (intros x Hx; apply lookup_insert_ne; lia).
  assert (mem_ok m1) as Hok1.
  { intros a v. unfold m1. rewrite lookup_insert. case_decide; [by intros [= <-] | apply Hok]. }
  assert (same_dom m m1) as Hd1.
  { intros x. unfold m1. rewrite lookup_insert. case_decide as Hx; [| done]. subst x. split; [done |]. intros _. apply Hacc. lia. }
  assert (m1 !! out = Some (he_sym e)) as Hm1 by apply lookup_insert_eq.
  assert (drop (Z.to_nat (he_len e)) (buf ++ bytes_bits R) = drop (Z.to_nat (he_len e)) buf' ++ bytes_bits R') as ->
    by (rewrite <- Heq, drop_app_le; [done | lia]).
  destruct n as [|n].
  - destruct (Z.ltb_spec (out + 1) (out + Z.of_nat 1)); [lia |]. cbn [huff_symbols].
    exists m1. split; [done |]. split; [done |]. split; [done |]. destruct Hb2 as (Hs2 & Hs2' & _).
    set (buf2 := drop (Z.to_nat (he_len e)) buf') in *.
    destruct (buf2 ++ bytes_bits R') eqn:Happ.
    + apply app_eq_nil in Happ as [Hb0 HR0]. rewrite Hb0 in Hs2. cbn in Hs2.
      assert (R' = []) as ->.
      { destruct R' as [|x R' _] using rev_ind; [done |]. rewrite bytes_bits_snoc in HR0. done. }
      rewrite Hs2. assert ((in_ + zlen (@nil Z) =? in_) = true) as -> by (cbn; zb). cbn [andb].
      split_and!; [done | | done]. apply bytes_at_cons. split; [done |]. intros i Hi. cbn in Hi. lia.
    + do 2 f_equal. apply andb_false_iff. destruct (decide (R' = [])) as [-> | HneR].
      * right. apply Z.eqb_neq. cbn in Happ. rewrite app_nil_r in Happ. rewrite Happ in Hs2. cbn in Hs2. lia.
      * left. apply Z.eqb_neq. destruct R'; [done | cbn; lia].
  - destruct (Z.ltb_spec (out + 1) (out + Z.of_nat (S (S n)))); [| lia].
    replace (out + Z.of_nat (S (S n))) with (out + 1 + Z.of_nat (S n)) by lia.
    destruct (IH m1 R' (drop (Z.to_nat (he_len e)) buf') (u32 (Z.shiftl bits' (he_len e))) (u8 (shift' + he_len e)) (out + 1))
      as (m2 & Hfr2 & Hok2 & Hd2 & Hres); [done | | done | lia | | lia |].
    { eapply bytes_at_frame; [exact Hfr1 | done | lia]. }
    { eapply accessible_same_dom; [exact Hd1 |]. eapply accessible_sub; [exact Hacc | lia | lia]. }
    exists m2. split.
    { eapply frame_trans; [eapply frame_weaken; [exact Hfr1 | lia | lia] | eapply frame_weaken; [exact Hfr2 | lia | lia]]. }
    split; [done |]. split; [by eapply same_dom_trans |].
    destruct (huff_symbols table (S n) _) as [l|]; [| done]. destruct Hres as (-> & Hat & Hl).
    split; [done |]. split; [| cbn; lia]. apply bytes_at_cons. split; [| done]. rewrite Hfr2 by lia. done.
Qed.

Lemma last_removelast (l : list Z) b : list.last l = Some b -> l = removelast l ++ [b].
Proof. intros [l' ->]%last_Some. by rewrite removelast_last. Qed.

Lemma first_buf b : 1 <= b < 256 -> let n := Z.log2 b in
  buf_ok (bits_msb (Z.to_nat n) b) (if n =? 0 then 0 else u32 (Z.shiftl b (32 - n))) (32 - n).
Proof.
  intros Hb n. assert (0 <= n < 8) as Hn by (split; [apply Z.log2_nonneg | apply Z.log2_lt_pow2; lia]).
  assert (zlen (bits_msb (Z.to_nat n) b) = n) as Hl by (rewrite bits_msb_length; lia).
  split; [lia |]. split; [lia |]. destruct (Z.eqb_spec n 0) as [-> | Hne]; [done |].
  rewrite bits_msb_bv, Z2Nat.id by lia. unfold u32. rewrite Z.shiftl_mul_pow2 by lia.
  replace (2 ^ 32) with (2 ^ n * 2 ^ (32 - n)) by (rewrite <- Z.pow_add_r by lia; f_equal; lia).
  by rewrite Z.mul_mod_distr_r by lia.
Qed.

Lemma literal_stream_ok m in_ stream out n : mem_ok m -> bytes_at m in_ stream -> (0 < n)%nat ->
  accessible m out (Z.of_nat n) -> in_ + zlen stream <= out \/ out + Z.of_nat n <= in_ ->
  stream_post n m out (huff_stream table n stream)
    (zstd_decompress_literal_stream m in_ (in_ + zlen stream) out (out + Z.of_nat n) table).
Proof.
  intros Hok Hat Hn Hacc Hdisj. unfold zstd_decompress_literal_stream, huff_stream. assert_ok.
  destruct (list.last stream) as [b|] eqn:Hlast.
  2: { apply last_None in Hlast as ->. cbn [length]. assert ((in_ <? in_ + Z.of_nat 0) = false) as -> by zb. cbn [negb].
       exists m. split_and!; done. }
  apply last_removelast in Hlast. set (R := removelast stream) in *. rewrite Hlast, length_app. cbn [length].
  rewrite Hlast in Hat. apply bytes_at_app in Hat as [HR Hb]. apply bytes_at_cons in Hb as [Hb _]. pose proof (Hok _ _ Hb) as Hby.
  assert ((in_ <? in_ + Z.of_nat (length R + 1)) = true) as -> by zb. cbn [negb].
  replace (in_ + Z.of_nat (length R + 1) - 1) with (in_ + zlen R) by lia. rewrite (ld8_eq _ _ _ Hb). cbn [mbind res_bind].
  destruct (Z.eqb_spec b 0) as [-> | Hne]; [exists m; split_and!; done |]. unfold is_byte in Hby.
  assert (0 <= Z.log2 b < 8) as Hlg by (split; [apply Z.log2_nonneg | apply Z.log2_lt_pow2; lia]).
  assert (u8 (clz32 1 - clz32 b) = Z.log2 b) as -> by (unfold clz32; change (Z.log2 1) with 0; rewrite u8_small; lia).
  rewrite u8_small by lia. replace (Z.to_nat (out + Z.of_nat n - out)) with n by lia. unfold stream_bits.
  apply lit_loop_ok; try done; [apply first_buf; lia |].
  apply (f_equal length) in Hlast. rewrite length_app in Hlast. cbn in Hlast. lia.
Qed.

(** Four streams, each but the last with a quarter of the symbols, rounded up. *)
Definition huff_4streams (n : nat) (s1 s2 s3 s4 : list Z) : option (list Z) :=
  let d := ((n + 3) / 4)%nat in
  match huff_stream table d s1, huff_stream table d s2, huff_stream table d s3, huff_stream table (n - 3 * d) s4 with
  | Some l1, Some l2, Some l3, Some l4 => Some (l1 ++ l2 ++ l3 ++ l4)
  | _, _, _, _ => None
  end.

(** A stream that is decoded after others have been written. *)
Lemma next_stream m0 m out0 off in_ stream n : frame m0 m out0 (out0 + off) -> mem_ok m -> same_dom m0 m -> 0 <= off ->
  bytes_at m0 in_ stream -> (0 < n)%nat -> accessible m0 (out0 + off) (Z.of_nat n) ->
  in_ + zlen stream <= out0 \/ out0 + off + Z.of_nat n <= in_ ->
  exists m', frame m0 m' out0 (out0 + (off + Z.of_nat n)) /\ frame m m' (out0 + off) (out0 + off + Z.of_nat n) /\ mem_ok m' /\ same_dom m0 m' /\
    match huff_stream table n stream with
    | Some l => zstd_decompress_literal_stream m in_ (in_ + zlen stream) (out0 + off) (out0 + off + Z.of_nat n) table = Ok (true, m') /\
        bytes_at m' (out0 + off) l /\ length l = n
    | None => zstd_decompress_literal_stream m in_ (in_ + zlen stream) (out0 + off) (out0 + off + Z.of_nat n) table = Ok (false, m')
    end.
Proof.
  intros Hfr Hok Hd Hoff Hat Hn Hacc Hdisj.
  destruct (literal_stream_ok m in_ stream (out0 + off) n) as (m' & Hfr' & Hok' & Hd' & Hres); [done | | done | | lia |].
  - eapply bytes_at_frame; [exact Hfr | done | lia].
  - by eapply accessible_same_dom.
  - exists m'. split; [eapply frame_trans; eapply frame_weaken; try eassumption; lia |]. split; [done |]. split; [done |].
    split; [by eapply same_dom_trans |]. done.
Qed.

End Stream.

(** [zstd_decompress_literal_stream] decodes a Huffman-coded literal stream
    exactly as the format demands.  For every decoding table of codes of at
    most 11 bits and every input, it terminates without a trap; it returns true
    exactly when the bits below the end mark, read backwards, are the codes of
    as many symbols as there is space, and then the output is these symbols.
    Nothing but the output range is written. *)
Theorem zstd_literal_stream_correct table m in_ stream out n :
  prefix_table table -> mem_ok m -> bytes_at m in_ stream -> (0 < n)%nat ->
  accessible m out (Z.of_nat n) -> in_ + zlen stream <= out \/ out + Z.of_nat n <= in_ ->
  exists m', frame m m' out (out + Z.of_nat n) /\
    match huff_stream table n stream with
    | Some l => zstd_decompress_literal_stream m in_ (in_ + zlen stream) out (out + Z.of_nat n) table = Ok (true, m') /\
        bytes_at m' out l /\ length l = n
    | None => zstd_decompress_literal_stream m in_ (in_ + zlen stream) out (out + Z.of_nat n) table = Ok (false, m')
    end.
Proof.
  intros Ht Hok Hat Hn Hacc Hd. destruct (literal_stream_ok table Ht m in_ stream out n) as (m' & Hfr & _ & _ & Hres); try done.
  exists m'. done.
Qed.

(** [zstd_decode_huff_4streams] splits its input at the three sizes of the
    jump table and decodes the four streams one behind the other, the first
    three to a quarter of the size, rounded up.  The statement is for sizes
    that leave the fourth stream at least one symbol. *)
Theorem zstd_4streams_correct table m in_ s1 s2 s3 s4 out n :
  prefix_table table -> mem_ok m ->
  let jump := le_bytes 2 (zlen s1) ++ le_bytes 2 (zlen s2) ++ le_bytes 2 (zlen s3) in
  let input := jump ++ s1 ++ s2 ++ s3 ++ s4 in
  bytes_at m in_ input -> zlen s1 < 2 ^ 16 -> zlen s2 < 2 ^ 16 -> zlen s3 < 2 ^ 16 -> s4 <> [] -> 10 <= zlen input ->
  (3 * ((n + 3) / 4) < n)%nat -> Z.of_nat n < 2 ^ 31 ->
  accessible m out (Z.of_nat n) -> in_ + zlen input <= out \/ out + Z.of_nat n <= in_ ->
  exists m', frame m m' out (out + Z.of_nat n) /\
    match huff_4streams table n s1 s2 s3 s4 with
    | Some l => zstd_decode_huff_4streams m in_ (in_ + zlen input) out (out + Z.of_nat n) table = Ok (true, m') /\
        bytes_at m' out l /\ length l = n
    | None => zstd_decode_huff_4streams m in_ (in_ + zlen input) out (out + Z.of_nat n) table = Ok (false, m')
    end.
Proof.
  intros Ht Hok jump input Hat H1 H2 H3 H4 H10 Hq Hn Hacc Hdisj. unfold zstd_decode_huff_4streams, huff_4streams.
  assert (length jump = 6%nat) as Hj by (unfold jump; by rewrite !length_app, !le_bytes_length).
  assert (zlen input = 6 + zlen s1 + zlen s2 + zlen s3 + zlen s4) as Hlen by (unfold input; rewrite !length_app, Hj; lia).
  assert (1 <= zlen s4) as Hl4 by (destruct s4; [done | cbn; lia]).
  unfold input in Hat. apply bytes_at_app in Hat as [Hjump Hat]. rewrite Hj in Hat. change (Z.of_nat 6) with 6 in Hat.
  apply bytes_at_app in Hat as [Ha1 Hat]. apply bytes_at_app in Hat as [Ha2 Hat]. apply bytes_at_app in Hat as [Ha3 Ha4].
  assert ((10 <=? in_ + zlen input - in_) = true) as -> by zb. cbn [negb].
  assert (forall v, 0 <= v < 2 ^ 16 -> le_val (le_bytes 2 v) = v) as Hle2
    by (intros v Hv; rewrite le_val_bytes; apply Z.mod_small; done).
  unfold jump in Hjump. apply bytes_at_app in Hjump as [Hj1 Hj2]. apply bytes_at_app in Hj2 as [Hj2 Hj3].
  rewrite le_bytes_length in Hj2. rewrite !le_bytes_length in Hj3. change (Z.of_nat 2) with 2 in Hj2, Hj3. replace (in_ + 2 + 2) with (in_ + 4) in Hj3 by lia.
  rewrite (ld16le_ok _ _ _ Hok Hj1), (ld16le_ok _ _ _ Hok Hj2), (ld16le_ok _ _ _ Hok Hj3) by apply le_bytes_length.
  cbn [mbind res_bind]. rewrite !Hle2 by lia.
  assert ((zlen s1 + zlen s2 + zlen s3 + 1 <=? in_ + zlen input - (in_ + 6)) = true) as -> by zb. cbn [negb].
  rewrite (u32_small (out + Z.of_nat n - out)) by lia. rewrite u32_small by lia.
  replace (out + Z.of_nat n - out) with (Z.of_nat n) by lia. set (d := ((n + 3) / 4)%nat) in *.
  assert ((Z.of_nat n + 3) / 4 = Z.of_nat d) as -> by (unfold d; rewrite Nat2Z.inj_div, Nat2Z.inj_add; done).
  assert (0 < d)%nat as Hd by (unfold d; destruct n; [lia |]; apply Nat.div_str_pos; lia).
  destruct (next_stream table Ht m m out 0 (in_ + 6) s1 d) as (m1 & Hf1 & Hg1 & Hok1 & Hd1 & Hr1);
    [rewrite Z.add_0_r; done | done | done | lia | done | done | eapply accessible_sub; [exact Hacc | lia | lia] | lia |].
  rewrite !Z.add_0_r in Hr1, Hg1. rewrite Z.add_0_l in Hf1.
  destruct (huff_stream table d s1) as [l1|].
  2: { rewrite Hr1. cbn [mbind res_bind negb]. exists m1. split; [eapply frame_weaken; [exact Hf1 | lia | lia] | done]. }
  destruct Hr1 as (-> & Hat1 & Hlen1). cbn [mbind res_bind negb].
  destruct (next_stream table Ht m m1 out (Z.of_nat d) (in_ + 6 + zlen s1) s2 d) as (m2 & Hf2 & Hg2 & Hok2 & Hd2 & Hr2);
    [done | done | done | lia | done | done | eapply accessible_sub; [exact Hacc | lia | lia] | lia |].
  destruct (huff_stream table d s2) as [l2|].
  2: { rewrite Hr2. cbn [mbind res_bind negb]. exists m2. split; [eapply frame_weaken; [exact Hf2 | lia | lia] | done]. }
  destruct Hr2 as (-> & Hat2 & Hlen2). cbn [mbind res_bind negb].
  replace (out + Z.of_nat d + Z.of_nat d) with (out + (Z.of_nat d + Z.of_nat d)) in * by lia.
  destruct (next_stream table Ht m m2 out (Z.of_nat d + Z.of_nat d) (in_ + 6 + zlen s1 + zlen s2) s3 d) as (m3 & Hf3 & Hg3 & Hok3 & Hd3 & Hr3);
    [done | done | done | lia | done | done | eapply accessible_sub; [exact Hacc | lia | lia] | lia |].
  destruct (huff_stream table d s3) as [l3|].
  2: { rewrite Hr3. cbn [mbind res_bind negb]. exists m3. split; [eapply frame_weaken; [exact Hf3 | lia | lia] | done]. }
  destruct Hr3 as (-> & Hat3 & Hlen3). cbn [mbind res_bind negb].
  replace (out + (Z.of_nat d + Z.of_nat d) + Z.of_nat d) with (out + (Z.of_nat d + Z.of_nat d + Z.of_nat d)) in * by lia.
  destruct (next_stream table Ht m m3 out (Z.of_nat d + Z.of_nat d + Z.of_nat d) (in_ + 6 + zlen s1 + zlen s2 + zlen s3) s4 (n - 3 * d))
    as (m4 & Hf4 & Hg4 & Hok4 & Hd4 & Hr4);
    [done | done | done | lia | done | lia | eapply accessible_sub; [exact Hacc | lia | lia] | lia |].
  replace (in_ + 6 + zlen s1 + zlen s2 + zlen s3 + zlen s4) with (in_ + zlen input) in Hr4 by lia.
  replace (out + (Z.of_nat d + Z.of_nat d + Z.of_nat d) + Z.of_nat (n - 3 * d)) with (out + Z.of_nat n) in * by lia.
  exists m4. split; [eapply frame_weaken; [exact Hf4 | lia | lia] |].
  destruct (huff_stream table (n - 3 * d) s4) as [l4|]; [| done]. destruct Hr4 as (-> & Hat4 & Hlen4).
  split; [done |]. split; [| rewrite !length_app; lia]. rewrite !bytes_at_app. rewrite Hlen1, Hlen2, Hlen3.
  split_and!.
  - eapply bytes_at_frame; [exact Hg4 | | lia]. eapply bytes_at_frame; [exact Hg3 | | lia].
    eapply bytes_at_frame; [exact Hg2 | exact Hat1 | lia].
  - eapply bytes_at_frame; [exact Hg4 | | lia]. eapply bytes_at_frame; [exact Hg3 | exact Hat2 | lia].
  - eapply bytes_at_frame; [exact Hg4 | | lia]. replace (out + Z.of_nat d + Z.of_nat d) with (out + (Z.of_nat d + Z.of_nat d)) by lia. exact Hat3.
  - replace (out + Z.of_nat d + Z.of_nat d + Z.of_nat d) with (out + (Z.of_nat d + Z.of_nat d + Z.of_nat d)) by lia. exact Hat4.
Qed.

(** ** From weights to the table

    [W] holds the 256 weights.  The symbols in the order of the sort: by
    weight, and by value among equal weights. *)
Definition bucket (W : list Z) (i w : Z) : list Z := filter (fun s => entry_at W s = w) (range 0 i).
Definition sorted_syms (W : list Z) (i : Z) : list Z := mjoin (map (bucket W i) (range 0 256)).

Lemma bucket_succ W i w : 0 <= i -> bucket W (i + 1) w = bucket W i w ++ (if decide (entry_at W i = w) then [i] else []).
Proof. intros Hi. unfold bucket. rewrite range_snoc, list.filter_app by lia. f_equal. Qed.

Lemma bucket_elem W i w s : s ∈ bucket W i w <-> entry_at W s = w /\ 0 <= s < i.
Proof. unfold bucket. by rewrite list_elem_of_filter, range_elem. Qed.

(** The symbols with weights in [a, b). *)
Definition buckets (W : list Z) (i a b : Z) : list Z := mjoin (map (bucket W i) (range a b)).

Lemma buckets_split W i a b c : a <= b <= c -> buckets W i a c = buckets W i a b ++ buckets W i b c.
Proof. intros H. unfold buckets. by rewrite (range_split a b c), map_app, join_app. Qed.

Lemma buckets_one W i w : buckets W i w (w + 1) = bucket W i w.
Proof.
  unfold buckets, range. replace (w + 1 - w) with 1 by lia. rewrite seqZ_cons, seqZ_nil by lia. cbn [map mjoin list_join].
  apply app_nil_r.
Qed.

Lemma buckets_elem W i a b s : s ∈ buckets W i a b <-> a <= entry_at W s < b /\ 0 <= s < i.
Proof.
  unfold buckets. rewrite list_elem_of_join. split.
  - intros (l & Hs & (w & -> & Hw%range_elem)%list_elem_of_fmap). apply bucket_elem in Hs as [<- ?]. done.
  - intros [Hw Hs]. exists (bucket W i (entry_at W s)). split; [by apply bucket_elem |]. apply list_elem_of_fmap_2. by apply range_elem.
Qed.

Lemma buckets_same W i a b : 0 <= i -> ~ (a <= entry_at W i < b) -> buckets W (i + 1) a b = buckets W i a b.
Proof.
  intros Hi Hn. unfold buckets. f_equal. apply map_ext_in. intros w Hw%list_elem_of_In%range_elem.
  rewrite bucket_succ by done. rewrite decide_False by lia. apply app_nil_r.
Qed.

(** Inserting symbol [i]: behind those of weight at most its own. *)
Lemma sorted_succ W i : 0 <= i -> 0 <= entry_at W i < 256 -> let w := entry_at W i in
  sorted_syms W i = buckets W i 0 (w + 1) ++ buckets W i (w + 1) 256 /\
  sorted_syms W (i + 1) = buckets W i 0 (w + 1) ++ [i] ++ buckets W i (w + 1) 256.
Proof.
  intros Hi Hw w. change (sorted_syms W i) with (buckets W i 0 256). change (sorted_syms W (i + 1)) with (buckets W (i + 1) 0 256).
  split; [apply buckets_split; lia |].
  rewrite (buckets_split W (i + 1) 0 (w + 1) 256), (buckets_split W (i + 1) 0 w (w + 1)) by lia.
  rewrite (buckets_same W i 0 w), (buckets_same W i (w + 1) 256) by lia. rewrite buckets_one, bucket_succ by lia.
  rewrite decide_True by done. rewrite (buckets_split W i 0 w (w + 1)), buckets_one by lia. by rewrite <- !app_assoc.
Qed.

Lemma sorted_length W i : 0 <= i -> (forall s, 0 <= s < i -> 0 <= entry_at W s < 256) -> zlen (sorted_syms W i) = i.
Proof.
  intros Hi. pattern i. apply natlike_ind; [| | done].
  - intros _. unfold sorted_syms. induction (range 0 256) as [|x l IH]; [done |]. cbn [map mjoin list_join]. by rewrite length_app.
  - clear i Hi. intros i Hi IH Hw. replace (Z.succ i) with (i + 1) in * by lia.
    destruct (sorted_succ W i Hi (Hw i ltac:(lia))) as [H1 H2]. rewrite H2. rewrite H1 in IH. rewrite !length_app in *. cbn [length].
    specialize (IH ltac:(intros; apply Hw; lia)). lia.
Qed.

Lemma sorted_perm W : (forall s, 0 <= s < 256 -> 0 <= entry_at W s < 256) -> sorted_syms W 256 ≡ₚ range 0 256.
Proof.
  intros Hw. symmetry. apply NoDup_Permutation_bis.
  - apply NoDup_ListNoDup, range_NoDup.
  - pose proof (sorted_length W 256 ltac:(lia) Hw). rewrite range_length. lia.
  - intros s Hs. apply list_elem_of_In. apply list_elem_of_In, range_elem in Hs.
    change (sorted_syms W 256) with (buckets W 256 0 256). apply buckets_elem. split; [by apply Hw | done].
Qed.

(** *** The insertion sort *)

(** Positions below [j] hold the sequence, those from [j + 1] to [i] its shifted rest. *)
Definition hole (arr seq : list Z) (i j : Z) : Prop :=
  (forall p, 0 <= p < j -> entry_at arr p = entry_at seq p) /\ (forall p, j < p <= i -> entry_at arr p = entry_at seq (p - 1)).

Lemma hole_shift arr seq i j : 0 < j <= i -> i < zlen arr -> hole arr seq i j ->
  hole (<[Z.to_nat j := entry_at seq (j - 1)]> arr) seq i (j - 1).
Proof.
  intros Hj Hl [Hlo Hhi]. split; intros p Hp; rewrite entry_at_insert by lia.
  - assert ((j =? p) = false) as -> by zb. apply Hlo. lia.
  - destruct (Z.eqb_spec j p) as [-> |]; [done | apply Hhi; lia].
Qed.

Lemma sort_shift_ok fuel w i j (a : nat) weights order seqw seqo : Z.of_nat a <= j <= i -> 0 < j -> j <= Z.of_nat fuel ->
  zlen weights = 256 -> zlen order = 256 -> i < 256 ->
  hole weights seqw i j -> hole order seqo i j ->
  (forall p, Z.of_nat a <= p < j -> w < entry_at seqw p) -> (0 < Z.of_nat a -> entry_at seqw (Z.of_nat a - 1) <= w) ->
  exists weights' order', sort_shift fuel w weights order j = Ok (weights', order', Z.of_nat a) /\
    zlen weights' = 256 /\ zlen order' = 256 /\ hole weights' seqw i (Z.of_nat a) /\ hole order' seqo i (Z.of_nat a) /\
    (forall p, i < p -> entry_at weights' p = entry_at weights p).
Proof.
  revert j weights order. induction fuel as [|fuel IH]; intros j weights order Hj H0 Hf Hlw Hlo Hi Hw Ho Hgt Hle; [lia |].
  cbn [sort_shift]. rewrite (geti_nth weights) by lia. cbn [mbind res_bind].
  rewrite (proj1 Hw) by lia. destruct (Z.eq_dec j (Z.of_nat a)) as [-> | Hne].
  - assert ((entry_at seqw (Z.of_nat a - 1) <=? w) = true) as -> by (apply Z.leb_le, Hle; lia).
    eexists _, _. split_and!; try done.
  - assert ((entry_at seqw (j - 1) <=? w) = false) as -> by (apply Z.leb_gt, Hgt; lia).
    rewrite (seti_ok weights) by lia. cbn [mbind res_bind]. rewrite (geti_nth order) by lia. cbn [mbind res_bind].
    rewrite (proj1 Ho) by lia. rewrite (seti_ok order) by lia. cbn [mbind res_bind].
    pose proof (hole_shift weights seqw i j ltac:(lia) ltac:(lia) Hw) as Hw'.
    pose proof (hole_shift order seqo i j ltac:(lia) ltac:(lia) Ho) as Ho'.
    destruct (Z.eqb_spec (j - 1) 0) as [Hz | Hnz].
    + assert (Z.of_nat a = j - 1) as Ha by lia. rewrite Ha. eexists _, _. split; [done |]. rewrite !length_insert.
      split_and!; try done. intros p Hp. rewrite entry_at_insert by lia. by assert ((j =? p) = false) as -> by zb.
    + destruct (IH (j - 1) (<[Z.to_nat j := entry_at seqw (j - 1)]> weights) (<[Z.to_nat j := entry_at seqo (j - 1)]> order))
        as (w' & o' & Hrun & ? & ? & ? & ? & Hrest); try done; try lia; rewrite ?length_insert; try done.
      { intros p Hp. apply Hgt. lia. }
      rewrite Hrun. eexists _, _. split_and!; try done. intros p Hp. rewrite Hrest by done. rewrite entry_at_insert by lia.
      by assert ((j =? p) = false) as -> by zb.
Qed.

Lemma entry_at_app_l l1 l2 p : 0 <= p < zlen l1 -> entry_at (l1 ++ l2) p = entry_at l1 p.
Proof. intros Hp. unfold entry_at. rewrite app_nth1; [done | lia]. Qed.
Lemma entry_at_app_r l1 l2 p : zlen l1 <= p -> entry_at (l1 ++ l2) p = entry_at l2 (p - zlen l1).
Proof. intros Hp. unfold entry_at. rewrite app_nth2 by lia. f_equal. lia. Qed.
Lemma entry_at_map f l p : 0 <= p < zlen l -> entry_at (map f l) p = f (entry_at l p).
Proof. intros Hp. unfold entry_at. rewrite (nth_indep _ 0 (f 0)) by (rewrite length_map; lia). apply map_nth. Qed.
Lemma entry_at_in l p : 0 <= p < zlen l -> entry_at l p ∈ l.
Proof. intros Hp. apply list_elem_of_In. apply nth_In. lia. Qed.

(** The arrays after the first [i] rounds. *)
Definition sort_inv (W : list Z) (i : Z) (weights order : list Z) : Prop :=
  zlen weights = 256 /\ zlen order = 256 /\
  (forall p, 0 <= p < i -> entry_at order p = entry_at (sorted_syms W i) p) /\
  (forall p, 0 <= p < i -> entry_at weights p = entry_at W (entry_at (sorted_syms W i) p)) /\
  (forall p, i <= p < 256 -> entry_at weights p = entry_at W p).

Lemma sort_step_ok W i weights order : (forall s, 0 <= s < 256 -> 0 <= entry_at W s < 256) -> 0 <= i < 256 ->
  sort_inv W i weights order ->
  exists weights' order', sort_step (weights, order) i = Ok (weights', order') /\ sort_inv W (i + 1) weights' order'.
Proof.
  intros HW Hi (Hlw & Hlo & Ho & Hw & Hrest). unfold sort_step. rewrite geti_nth by lia. cbn [mbind res_bind].
  rewrite Hrest by lia. set (w := entry_at W i).
  pose proof (sorted_length W i ltac:(lia) ltac:(intros; apply HW; lia)) as Hlen.
  pose proof (sorted_length W (i + 1) ltac:(lia) ltac:(intros; apply HW; lia)) as Hlen1.
  destruct (sorted_succ W i ltac:(lia) (HW i Hi)) as [Hs0 Hs1]. fold w in Hs0, Hs1.
  set (A := buckets W i 0 (w + 1)) in *. set (B := buckets W i (w + 1) 256) in *.
  assert (zlen A + zlen B = i) as HAB by (rewrite Hs0, length_app in Hlen; lia).
  set (seqw := map (entry_at W) (sorted_syms W i)).
  assert (forall p, 0 <= p < i -> entry_at seqw p = entry_at W (entry_at (sorted_syms W i) p)) as Hsw
    by (intros p Hp; apply entry_at_map; lia).
  (* the state after the shift *)
  assert (exists weights1 order1, (if 0 <? i then '(weights, order, j) ← sort_shift 256 w weights order i;
       weights ← seti weights j w; Ok (weights, order, j) else Ok (weights, order, i)) = Ok (weights1, order1, zlen A) /\
     zlen weights1 = 256 /\ zlen order1 = 256 /\ hole order1 (sorted_syms W i) i (zlen A) /\
     (forall p, 0 <= p < zlen A -> entry_at weights1 p = entry_at seqw p) /\ entry_at weights1 (zlen A) = w /\
     (forall p, zlen A < p <= i -> entry_at weights1 p = entry_at seqw (p - 1)) /\
     (forall p, i < p -> entry_at weights1 p = entry_at weights p)) as (weights1 & order1 & -> & Hl1 & Hl2 & Hh & Hw1 & Hw2 & Hw3 & Hw4).
  { destruct (Z.ltb_spec 0 i) as [Hpos | Hz].
    - destruct (sort_shift_ok 256 w i i (length A) weights order seqw (sorted_syms W i)) as (w1 & o1 & -> & Hl1 & Hl2 & [Hh1 Hh2] & Hh3 & Hh4);
        try lia.
      + split; [intros p Hp; rewrite Hw, Hsw by lia; done | intros; lia].
      + split; [intros p Hp; apply Ho; lia | intros; lia].
      + intros p Hp. rewrite Hsw, Hs0, entry_at_app_r by lia.
        assert (entry_at B (p - zlen A) ∈ B) as Hin by (apply entry_at_in; lia). apply buckets_elem in Hin. lia.
      + intros Ha. rewrite Hsw, Hs0, entry_at_app_l by lia.
        assert (entry_at A (zlen A - 1) ∈ A) as Hin by (apply entry_at_in; lia). apply buckets_elem in Hin. lia.
      + cbn [mbind res_bind]. rewrite seti_ok by lia. cbn [mbind res_bind]. eexists _, _. split; [done |]. rewrite length_insert.
        split_and!; try done.
        * intros p Hp. rewrite entry_at_insert by lia. assert ((zlen A =? p) = false) as -> by zb. by apply Hh1.
        * rewrite entry_at_insert, Z.eqb_refl by lia. done.
        * intros p Hp. rewrite entry_at_insert by lia. assert ((zlen A =? p) = false) as -> by zb. by apply Hh2.
        * intros p Hp. rewrite entry_at_insert by lia. assert ((zlen A =? p) = false) as -> by zb. by apply Hh4.
    - assert (i = 0) as -> by lia. assert (zlen A = 0) as HA by lia. rewrite HA. eexists _, _. split; [done |].
      split_and!; try done; try (intros; lia); [split; intros; lia | rewrite Hrest by lia; done]. }
  cbn [mbind res_bind]. rewrite seti_ok by lia. cbn [mbind res_bind]. eexists _, _. split; [done |].
  assert (forall p, 0 <= p < i + 1 -> entry_at (<[Z.to_nat (zlen A) := i]> order1) p = entry_at (sorted_syms W (i + 1)) p) as Hord.
  { intros p Hp. rewrite entry_at_insert by lia. rewrite Hs1. destruct (Z.eqb_spec (zlen A) p) as [<- | Hne].
    - rewrite entry_at_app_r, Z.sub_diag by lia. done.
    - destruct (Z.lt_ge_cases p (zlen A)) as [Hlt | Hge].
      + rewrite (proj1 Hh) by lia. rewrite Hs0, !entry_at_app_l by lia. done.
      + rewrite (proj2 Hh) by lia. rewrite Hs0, !entry_at_app_r by (cbn [length]; lia). f_equal. cbn [length]. lia. }
  unfold sort_inv. rewrite length_insert. split_and!; [done | done | done | | ].
  - intros p Hp. rewrite <- Hord by done. rewrite entry_at_insert by lia. destruct (Z.eqb_spec (zlen A) p) as [<- | Hne]; [done |].
    destruct (Z.lt_ge_cases p (zlen A)) as [Hlt | Hge].
    + rewrite Hw1 by lia. rewrite Hsw by lia. by rewrite (proj1 Hh) by lia.
    + rewrite Hw3 by lia. rewrite Hsw by lia. by rewrite (proj2 Hh) by lia.
  - intros p Hp. rewrite Hw4 by lia. apply Hrest. lia.
Qed.

Lemma sort_ok W order : (forall s, 0 <= s < 256 -> 0 <= entry_at W s < 256) -> zlen W = 256 -> zlen order = 256 ->
  exists weights' order', foldM sort_step (W, order) (range 0 256) = Ok (weights', order') /\ sort_inv W 256 weights' order'.
Proof.
  intros HW Hl Ho.
  destruct (foldM_range (fun i '(weights, order) => sort_inv W i weights order) sort_step (W, order) 0 256) as ([w o] & Hrun & Hres).
  - lia.
  - split_and!; try done; intros; lia.
  - intros i [w o] Hi Hinv. destruct (sort_step_ok W i w o HW Hi Hinv) as (w' & o' & -> & H). by exists (w', o').
  - by exists w, o.
Qed.

(** *** Filling the table *)
Definition half (w : Z) : Z := Z.shiftr (Z.shiftl 1 w) 1.

Lemma half_eq w : 0 <= w -> half w = if w =? 0 then 0 else 2 ^ (w - 1).
Proof.
  intros Hw. unfold half. rewrite Z.shiftl_1_l, Z.shiftr_div_pow2 by lia. destruct (Z.eqb_spec w 0) as [-> | Hne]; [done |].
  replace w with (w - 1 + 1) at 1 by lia. rewrite Z.pow_add_r by lia. by rewrite Z.div_mul by lia.
Qed.

Definition code_len (maxbits : Z) (W : list Z) (s : Z) : Z := maxbits + 1 - entry_at W s.

(** The table entries of a symbol, and of all symbols in the order of the sort. *)
Definition code_entries (maxbits : Z) (W : list Z) (s : Z) : list huff_entry :=
  if entry_at W s =? 0 then []
  else replicate (Z.to_nat (2 ^ (11 - code_len maxbits W s))) {| he_sym := s; he_len := code_len maxbits W s |}.
Definition canonical_table (maxbits : Z) (W : list Z) : list huff_entry :=
  mjoin (map (code_entries maxbits W) (sorted_syms W 256)).

Lemma join_lookup {A} (f : Z -> list A) l x : (x < length (mjoin (map f l)))%nat ->
  exists l1 s l2, l = l1 ++ s :: l2 /\ (length (mjoin (map f l1)) <= x < length (mjoin (map f l1)) + length (f s))%nat.
Proof.
  induction l as [|s l IH] using rev_ind; intros Hx; [cbn in Hx; lia |].
  rewrite map_app, join_app, length_app in Hx. destruct (decide (x < length (mjoin (map f l)))%nat) as [Hlt | Hge].
  - destruct (IH Hlt) as (l1 & s' & l2 & -> & H). exists l1, s', (l2 ++ [s]). by rewrite <- app_assoc.
  - exists l, s, []. split; [done |]. cbn [map mjoin list_join] in Hx. rewrite app_nil_r in Hx. lia.
Qed.

Section Fill.
Context (maxbits : Z) (W : list Z).
Hypothesis Hmax : 1 <= maxbits <= 11.
Hypothesis HW : forall s, 0 <= s < 256 -> 0 <= entry_at W s <= maxbits.
Hypothesis Hsum : zsum (map (fun s => half (entry_at W s)) (range 0 256)) = 2 ^ maxbits.

Let O : list Z := sorted_syms W 256.
Let ce : Z -> list huff_entry := code_entries maxbits W.

Lemma O_elem s : s ∈ O <-> 0 <= s < 256.
Proof.
  change O with (buckets W 256 0 256). rewrite buckets_elem. split; [tauto |]. intros Hs. split; [| done].
  pose proof (HW s Hs). lia.
Qed.

Lemma ce_length s : 0 <= s < 256 -> zlen (ce s) = half (entry_at W s) * 2 ^ (11 - maxbits).
Proof.
  intros Hs. pose proof (HW s Hs) as Hw. unfold ce, code_entries. rewrite half_eq by lia.
  destruct (Z.eqb_spec (entry_at W s) 0) as [_ | Hne]; [done |]. rewrite length_replicate, Z2Nat.id by lia.
  rewrite <- Z.pow_add_r by lia. f_equal. unfold code_len. lia.
Qed.

Lemma join_length l : (forall s, s ∈ l -> 0 <= s < 256) ->
  zlen (mjoin (map ce l)) = zsum (map (fun s => half (entry_at W s)) l) * 2 ^ (11 - maxbits).
Proof.
  induction l as [|s l IH]; intros Hl; [done |]. change (mjoin (map ce (s :: l))) with (ce s ++ mjoin (map ce l)).
  change (zsum (map (fun s => half (entry_at W s)) (s :: l))) with (half (entry_at W s) + zsum (map (fun s => half (entry_at W s)) l)).
  rewrite length_app, Nat2Z.inj_add, ce_length by (apply Hl; constructor). rewrite IH by (intros x Hx; apply Hl; by constructor). ring.
Qed.

Lemma zsum_perm l1 l2 : l1 ≡ₚ l2 -> zsum l1 = zsum l2.
Proof. unfold zsum. induction 1; cbn [foldr]; lia. Qed.

Lemma canonical_length : zlen (mjoin (map ce O)) = 2048.
Proof.
  rewrite join_length by (intros s; apply O_elem).
  rewrite (zsum_perm _ (map (fun s => half (entry_at W s)) (range 0 256))).
  - rewrite Hsum, <- Z.pow_add_r by lia. by replace (maxbits + (11 - maxbits)) with 11 by lia.
  - unfold O. rewrite sorted_perm; [done |]. intros s Hs. pose proof (HW s Hs). lia.
Qed.

(** Codes start at a multiple of their number of entries. *)
Lemma code_aligned l1 s l2 : O = l1 ++ s :: l2 -> entry_at W s <> 0 ->
  zlen (mjoin (map ce l1)) mod 2 ^ (11 - code_len maxbits W s) = 0.
Proof.
  intros HO Hne. assert (0 <= s < 256) as Hs by (apply O_elem; rewrite HO, elem_of_app; right; constructor).
  pose proof (HW s Hs) as Hw. set (w := entry_at W s) in *. assert (code_len maxbits W s = maxbits + 1 - w) as Hcl by done.
  set (c := 2 ^ (11 - code_len maxbits W s)). assert (0 < c) as Hc by (unfold c; apply Z.pow_pos_nonneg; lia).
  assert (forall x, x ∈ s :: l2 -> 0 <= x < 256 /\ w <= entry_at W x) as Hsuf.
  { intros x Hx. assert (0 <= x < 256) as Hx256 by (apply O_elem; rewrite HO, elem_of_app; by right). split; [done |].
    assert (O = buckets W 256 0 w ++ buckets W 256 w 256) as Hsp by (apply buckets_split; lia).
    assert (length (buckets W 256 0 w) <= length l1)%nat as Hla.
    { destruct (decide (length (buckets W 256 0 w) <= length l1)%nat); [done |]. exfalso.
      assert (O !! length l1 = Some s) as Hl by (rewrite HO; apply list_lookup_middle; done).
      rewrite Hsp, lookup_app_l in Hl by lia. apply list_elem_of_lookup_2, buckets_elem in Hl. lia. }
    assert (x ∈ buckets W 256 w 256) as Hin.
    { apply list_elem_of_lookup in Hx as [k Hk].
      assert (O !! (length l1 + k)%nat = Some x) as Hl by (rewrite HO, lookup_app_r by lia; rewrite <- Hk; f_equal; lia).
      rewrite Hsp, lookup_app_r in Hl by lia. by apply list_elem_of_lookup_2 in Hl. }
    apply buckets_elem in Hin. lia. }
  assert (forall l, (forall x, x ∈ l -> 0 <= x < 256 /\ w <= entry_at W x) -> (c | zlen (mjoin (map ce l)))) as Hdiv.
  { induction l as [|x l IH]; intros Hl; [exists 0; done |]. cbn [map mjoin list_join]. rewrite length_app, Nat2Z.inj_add.
    apply Z.divide_add_r; [| apply IH; intros y Hy; apply Hl; by constructor]. destruct (Hl x ltac:(constructor)) as [Hx Hwx].
    rewrite ce_length, half_eq by (done || apply HW; done). destruct (Z.eqb_spec (entry_at W x) 0); [lia |].
    exists (2 ^ (entry_at W x - w)). unfold c. rewrite <- !Z.pow_add_r by (pose proof (HW x Hx); lia). f_equal. lia. }
  pose proof canonical_length as Htot. rewrite HO, map_app, join_app, length_app, Nat2Z.inj_add in Htot.
  apply Z.mod_divide; [lia |]. replace (zlen (mjoin (map ce l1))) with (2048 - zlen (mjoin (map ce (s :: l2)))) by lia.
  apply Z.divide_sub_r; [| by apply Hdiv]. exists (2 ^ code_len maxbits W s). unfold c. rewrite <- Z.pow_add_r by lia.
  by replace (code_len maxbits W s + (11 - code_len maxbits W s)) with 11 by lia.
Qed.

Lemma canonical_prefix : prefix_table (canonical_table maxbits W).
Proof.
  pose proof canonical_length as Hlen. change (mjoin (map ce O)) with (canonical_table maxbits W) in Hlen.
  assert (forall i e, canonical_table maxbits W !! i = Some e -> exists l1 s l2, O = l1 ++ s :: l2 /\ entry_at W s <> 0 /\
      e = {| he_sym := s; he_len := code_len maxbits W s |} /\
      (length (mjoin (map ce l1)) <= i < length (mjoin (map ce l1)) + Z.to_nat (2 ^ (11 - code_len maxbits W s)))%nat /\
      forall j, (length (mjoin (map ce l1)) <= j < length (mjoin (map ce l1)) + Z.to_nat (2 ^ (11 - code_len maxbits W s)))%nat ->
        canonical_table maxbits W !! j = Some e) as Hat.
  { intros i e Hi. destruct (join_lookup ce O i) as (l1 & s & l2 & HO & Hr).
    { apply lookup_lt_Some in Hi. exact Hi. }
    assert (forall j, (length (mjoin (map ce l1)) <= j < length (mjoin (map ce l1)) + length (ce s))%nat ->
      canonical_table maxbits W !! j = ce s !! (j - length (mjoin (map ce l1)))%nat) as Hj.
    { intros j Hj. unfold canonical_table. fold ce. fold O. rewrite HO, map_app, join_app. rewrite lookup_app_r by lia.
      cbn [map mjoin list_join]. by rewrite lookup_app_l by lia. }
    destruct (Z.eq_dec (entry_at W s) 0) as [Hz | Hne].
    { assert (ce s = []) as He by (unfold ce, code_entries; by rewrite Hz). rewrite He in Hr. cbn [length] in Hr. lia. }
    assert (ce s = replicate (Z.to_nat (2 ^ (11 - code_len maxbits W s))) {| he_sym := s; he_len := code_len maxbits W s |}) as Hce.
    { unfold ce, code_entries. by assert ((entry_at W s =? 0) = false) as -> by zb. }
    rewrite Hce, length_replicate in Hr, Hj.
    rewrite (Hj i Hr), lookup_replicate_2 in Hi by lia. injection Hi as <-.
    exists l1, s, l2. split_and!; try done; try lia. intros j Hjr. rewrite (Hj j Hjr), lookup_replicate_2 by lia. done. }
  constructor.
  - lia.
  - intros i e Hi. destruct (Hat i e Hi) as (l1 & s & l2 & HO & Hne & -> & _). cbn [he_len he_sym].
    assert (0 <= s < 256) as Hs by (apply O_elem; rewrite HO, elem_of_app; right; constructor).
    pose proof (HW s Hs). unfold code_len, is_byte. lia.
  - intros i j e Hi Hir Hjr Heq. destruct (Hat _ e Hi) as (l1 & s & l2 & HO & Hne & -> & Hr & Hall). cbn [he_len] in Heq.
    apply Hall. pose proof (code_aligned l1 s l2 HO Hne) as Hal. set (c := 2 ^ (11 - code_len maxbits W s)) in *.
    assert (0 <= s < 256) as Hs by (apply O_elem; rewrite HO, elem_of_app; right; constructor).
    assert (0 < c) as Hc by (unfold c, code_len; pose proof (HW s Hs); apply Z.pow_pos_nonneg; lia).
    apply Z.mod_divide in Hal as [q Hq]; [| lia].
    assert (i / c = q) as Hiq by (symmetry; apply Z.div_unique with (i - q * c); lia).
    pose proof (Z.div_mod j c ltac:(lia)) as Hdm. pose proof (Z.mod_pos_bound j c ltac:(lia)) as Hmb. rewrite <- Heq, Hiq in Hdm. lia.
Qed.

(** Filling one code. *)
Lemma fill_code_ok sym len P R n : length (P ++ R) = 2048%nat -> 0 <= n <= zlen R ->
  exists R', foldM (fill_code sym len) (P ++ R, zlen P) (range 0 n) =
    Ok (P ++ replicate (Z.to_nat n) {| he_sym := sym; he_len := len |} ++ R', zlen P + n) /\
    length (P ++ replicate (Z.to_nat n) {| he_sym := sym; he_len := len |} ++ R') = 2048%nat.
Proof.
  intros HPR Hn. set (e := {| he_sym := sym; he_len := len |}).
  destruct (foldM_range (fun k '(t, code) => code = zlen P + k /\ exists R', t = P ++ replicate (Z.to_nat k) e ++ R' /\ length t = 2048%nat)
    (fill_code sym len) (P ++ R, zlen P) 0 n) as ([t code] & -> & -> & R' & -> & Hl).
  - lia.
  - split; [lia |]. by exists R.
  - intros k [t code] Hk [-> (R' & -> & Hl)]. unfold fill_code. rewrite !length_app, length_replicate in Hl. rewrite length_app in HPR.
    assert_ok. destruct R' as [|y R']; [cbn in Hl; lia |].
    rewrite seti_ok by (rewrite !length_app, length_replicate; lia). cbn [mbind res_bind]. eexists. split; [done |].
    split; [rewrite u16_small; lia |]. exists R'. rewrite length_insert, !length_app, length_replicate. split; [| lia].
    replace (Z.to_nat (zlen P + k)) with (length (P ++ replicate (Z.to_nat k) e) + 0)%nat by (rewrite length_app, length_replicate; lia).
    rewrite app_assoc, insert_app_r. cbn [list_insert insert]. replace (Z.to_nat (k + 1)) with (Z.to_nat k + 1)%nat by lia.
    rewrite replicate_add, <- !app_assoc. done.
  - exists R'. done.
Qed.

Lemma fill_ok weights order T0 : zlen T0 = 2048 -> sort_inv W 256 weights order ->
  foldM (fill_symbol maxbits weights order) (T0, 0) (range 0 256) = Ok (canonical_table maxbits W, 2048).
Proof.
  intros HT (Hlw & Hlo & Ho & Hwt & _). pose proof canonical_length as Hcl.
  assert (zlen O = 256) as HlO by (apply sorted_length; [lia |]; intros s Hs; pose proof (HW s Hs); lia).
  destruct (foldM_range (fun i '(t, code) => exists R, t = mjoin (map ce (take (Z.to_nat i) O)) ++ R /\ length t = 2048%nat /\
      code = zlen (mjoin (map ce (take (Z.to_nat i) O)))) (fill_symbol maxbits weights order) (T0, 0) 0 256) as ([t code] & Hrun & Hres).
  - lia.
  - exists T0. change (Z.to_nat 0) with 0%nat. rewrite take_0. cbn. split_and!; (done || lia).
  - intros i [t code] Hi (R & -> & Hl & ->). unfold fill_symbol. rewrite !geti_nth by lia. cbn [mbind res_bind].
    rewrite Ho, Hwt by lia. fold O. set (s := entry_at O i).
    assert (O !! Z.to_nat i = Some s) as Hlk by (apply nth_some; lia).
    assert (0 <= s < 256) as Hs by (apply O_elem; by apply list_elem_of_lookup_2 in Hlk).
    pose proof (HW s Hs) as Hw. set (P := mjoin (map ce (take (Z.to_nat i) O))) in *.
    replace (Z.to_nat (i + 1)) with (S (Z.to_nat i)) by lia. rewrite (take_S_r _ _ s Hlk), map_app, join_app. fold P.
    cbn [map mjoin list_join]. rewrite app_nil_r.
    destruct (Z.eqb_spec (entry_at W s) 0) as [Hz | Hne].
    + eexists. split; [done |]. exists R. unfold ce, code_entries. rewrite Hz. cbn. by rewrite app_nil_r.
    + rewrite u8_small by lia. replace (maxbits + 1 - entry_at W s) with (code_len maxbits W s) by done.
      assert (1 <= code_len maxbits W s <= 11) as Hcb by (unfold code_len; lia).
      assert (0 < 2 ^ (11 - code_len maxbits W s) <= 2 ^ 10) as Hpow.
      { split; [apply Z.pow_pos_nonneg; lia | apply Z.pow_le_mono_r; lia]. }
      rewrite Z.shiftl_1_l, u16_small by lia. pose proof (take_drop_middle _ _ _ Hlk) as Hmid.
      rewrite c_assert_true by (apply Z.eqb_eq; by apply (code_aligned _ s _ (eq_sym Hmid))). cbn [mbind res_bind].
      assert (ce s = replicate (Z.to_nat (2 ^ (11 - code_len maxbits W s))) {| he_sym := s; he_len := code_len maxbits W s |}) as Hce.
      { unfold ce, code_entries. by assert ((entry_at W s =? 0) = false) as -> by zb. }
      assert (zlen P + zlen (ce s) <= 2048) as Hfit.
      { rewrite <- Hmid, map_app, join_app, length_app in Hcl. fold P in Hcl. cbn [map mjoin list_join] in Hcl. rewrite length_app in Hcl. lia. }
      rewrite Hce, length_replicate in Hfit. rewrite length_app in Hl.
      destruct (fill_code_ok s (code_len maxbits W s) P R (2 ^ (11 - code_len maxbits W s))) as (R' & -> & HlR); [rewrite length_app; lia | lia |].
      eexists. split; [done |]. exists R'. rewrite Hce, <- app_assoc. split_and!; [done | done |]. rewrite length_app, length_replicate. lia.
  - rewrite Hrun. destruct Hres as (R & -> & Hl & ->). rewrite take_ge in * by lia. change (mjoin (map ce O)) with (canonical_table maxbits W) in *.
    rewrite length_app in Hl. assert (R = []) as -> by (apply length_zero_iff_nil; lia). rewrite app_nil_r. do 2 f_equal. done.
Qed.
End Fill.

(** *** The implied last weight *)
Definition weights_sum (W : list Z) (n : Z) : Z := zsum (map (fun s => half (entry_at W s)) (range 0 n)).

Record acc_ok (a : weight_acc) : Prop := {
  ao_len : zlen (wa_weights a) = 256;
  ao_num : 0 <= wa_num a <= 255;
  ao_range : forall s, 0 <= s < wa_num a -> 0 <= entry_at (wa_weights a) s <= 15;
  ao_sum : wa_sum a = weights_sum (wa_weights a) (wa_num a);
}.

(** [W] completes the weights with a last weight [lw] to a tree of depth [maxbits]. *)
Record completes (a : weight_acc) (W : list Z) (lw maxbits : Z) : Prop := {
  cp_len : zlen W = 256;
  cp_given : forall s, 0 <= s < wa_num a -> entry_at W s = entry_at (wa_weights a) s;
  cp_last : entry_at W (wa_num a) = lw;
  cp_rest : forall s, wa_num a < s < 256 -> entry_at W s = 0;
  cp_sum : 1 <= lw /\ 1 <= maxbits <= 11 /\ wa_sum a + 2 ^ (lw - 1) = 2 ^ maxbits;
}.

Lemma ctz_pos_ok p : exists q, Zpos p = 2 ^ ctz_pos p * (2 * q + 1) /\ 0 <= ctz_pos p /\ 0 <= q.
Proof.
  induction p as [p IH | p IH |]; cbn [ctz_pos].
  - exists (Zpos p). lia.
  - destruct IH as (q & Hq & Hc & Hq0). exists q. split; [| lia]. rewrite Z.pow_add_r by lia. lia.
  - exists 0. lia.
Qed.

Lemma ctz32_ok x : 0 < x -> exists q, x = 2 ^ ctz32 x * (2 * q + 1) /\ 0 <= ctz32 x /\ 0 <= q.
Proof. intros Hx. destruct x; try lia. apply ctz_pos_ok. Qed.

(** A number has one number of trailing zeros. *)
Lemma ctz_unique a b q r : 0 <= a -> 0 <= b -> 2 ^ a * (2 * q + 1) = 2 ^ b * (2 * r + 1) -> a = b.
Proof.
  assert (forall a b q r, 0 <= a -> a < b -> 2 ^ a * (2 * q + 1) = 2 ^ b * (2 * r + 1) -> False) as H.
  { clear. intros a b q r Ha Hab He. replace b with (a + (1 + (b - a - 1))) in He by lia. rewrite !Z.pow_add_r in He by lia.
    rewrite <- Z.mul_assoc in He. apply Z.mul_reg_l in He; [| lia]. change (2 ^ 1) with 2 in He. lia. }
  intros Ha Hb He. destruct (Z.lt_trichotomy a b) as [Hlt | [? | Hgt]]; [| done |]; exfalso.
  - by apply (H a b q r).
  - by apply (H b a r q).
Qed.

Lemma ctz_pow_diff x b mb : 0 < x -> 0 <= b -> 0 <= mb -> x + 2 ^ b = 2 ^ mb -> ctz32 x = b.
Proof.
  intros Hx Hb Hmb He. destruct (ctz32_ok x Hx) as (q & Hq & Hc & Hq0).
  assert (b < mb) as Hlt by (apply (Z.pow_lt_mono_r_iff 2); lia).
  apply (ctz_unique _ _ q (2 ^ (mb - b - 1) - 1)); [done | done |]. rewrite <- Hq.
  replace (2 * (2 ^ (mb - b - 1) - 1) + 1) with (2 * 2 ^ (mb - b - 1) - 1) by lia.
  rewrite <- Z.pow_succ_r by lia. replace (Z.succ (mb - b - 1)) with (mb - b) by lia.
  rewrite Z.mul_sub_distr_l, <- Z.pow_add_r by lia. replace (b + (mb - b)) with mb by lia. lia.
Qed.

Lemma find_maxbits_ok fuel sum k : 0 < sum -> 0 <= k -> sum <= 2 ^ (k + Z.of_nat fuel - 1) -> (0 < fuel)%nat ->
  exists mb, find_maxbits fuel sum k = Ok mb /\ k <= mb /\ sum <= 2 ^ mb /\ (k < mb -> 2 ^ (mb - 1) < sum).
Proof.
  revert k. induction fuel as [|fuel IH]; intros k Hs Hk Hf Hpos; [lia |]. cbn [find_maxbits]. rewrite Z.shiftl_1_l.
  destruct (Z.ltb_spec (2 ^ k) sum) as [Hlt | Hge].
  - destruct fuel as [|fuel].
    { exfalso. replace (k + Z.of_nat 1 - 1) with k in Hf by lia. lia. }
    destruct (IH (k + 1)) as (mb & -> & Hmb & Hle & Hmin); [done | lia | by replace (k + 1 + Z.of_nat (S fuel) - 1) with (k + Z.of_nat (S (S fuel)) - 1) by lia | lia |].
    exists mb. split_and!; [done | lia | done |]. intros _. destruct (Z.eq_dec mb (k + 1)) as [-> |]; [| apply Hmin; lia].
    by replace (k + 1 - 1) with k by lia.
  - exists k. split_and!; [done | lia | done | lia].
Qed.

Lemma weights_sum_succ W n : 0 <= n -> weights_sum W (n + 1) = weights_sum W n + half (entry_at W n).
Proof. intros Hn. unfold weights_sum. rewrite range_snoc, map_app, zsum_app by lia. cbn [map zsum foldr]. lia. Qed.

Lemma weights_sum_ext W W' n : (forall s, 0 <= s < n -> entry_at W' s = entry_at W s) -> weights_sum W' n = weights_sum W n.
Proof. intros H. unfold weights_sum. f_equal. apply map_ext_in. intros s Hs%list_elem_of_In%range_elem. by rewrite H. Qed.

Lemma weights_sum_bound W n s : 0 <= s < n -> (forall s, 0 <= s < n -> 0 <= entry_at W s) -> half (entry_at W s) <= weights_sum W n.
Proof.
  intros Hs HW. unfold weights_sum. rewrite (range_split 0 s n), (range_split s (s + 1) n), !map_app, !zsum_app by lia.
  assert (forall l, (forall x, x ∈ l -> 0 <= x < n) -> 0 <= zsum (map (fun s => half (entry_at W s)) l)) as Hpos.
  { induction l as [|x l IH]; intros Hl; [done |]. cbn [map zsum foldr]. fold (zsum (map (fun s => half (entry_at W s)) l)).
    assert (0 <= half (entry_at W x)).
    { pose proof (HW x (Hl x ltac:(constructor))). rewrite half_eq by done. destruct (_ =? 0); [lia | apply Z.pow_nonneg; lia]. }
    specialize (IH ltac:(intros y Hy; apply Hl; by constructor)). lia. }
  pose proof (Hpos (range 0 s) ltac:(intros x Hx%range_elem; lia)). pose proof (Hpos (range (s + 1) n) ltac:(intros x Hx%range_elem; lia)).
  replace (range s (s + 1)) with [s]; [cbn [map zsum foldr]; lia |]. unfold range. replace (s + 1 - s) with 1 by lia. by rewrite seqZ_cons, seqZ_nil by lia.
Qed.

Lemma weights_sum_upper W n : 0 <= n <= 255 -> (forall s, 0 <= s < n -> 0 <= entry_at W s <= 15) -> 0 <= weights_sum W n <= n * 2 ^ 14.
Proof.
  intros Hn. pattern n. apply natlike_ind; [| | lia].
  - intros _. change (weights_sum W 0) with 0. lia.
  - clear n Hn. intros n Hn IH HW. replace (Z.succ n) with (n + 1) in * by lia. rewrite weights_sum_succ by lia.
    specialize (IH ltac:(intros; apply HW; lia)). pose proof (HW n ltac:(lia)) as Hw. rewrite half_eq by lia.
    destruct (Z.eqb_spec (entry_at W n) 0); [lia |].
    assert (0 < 2 ^ (entry_at W n - 1) <= 2 ^ 14) by (split; [apply Z.pow_pos_nonneg | apply Z.pow_le_mono_r]; lia). lia.
Qed.

(** The weights of a complete tree are at most its depth. *)
Lemma completes_ok a W lw maxbits : acc_ok a -> completes a W lw maxbits -> 0 < wa_sum a ->
  (forall s, 0 <= s < 256 -> 0 <= entry_at W s <= maxbits) /\ weights_sum W 256 = 2 ^ maxbits.
Proof.
  intros [Hl Hn Hr Hs] [Wl Wg Wn Wr (Hlw & Hmb & Hsum)] Hpos.
  assert (weights_sum W (wa_num a) = wa_sum a) as HsW by (rewrite Hs; by apply weights_sum_ext).
  assert (weights_sum W 256 = 2 ^ maxbits) as Htot.
  { unfold weights_sum in *. rewrite (range_split 0 (wa_num a + 1) 256), map_app, zsum_app by lia.
    fold (weights_sum W (wa_num a + 1)). rewrite weights_sum_succ by lia. unfold weights_sum. rewrite HsW, Wn, half_eq by lia.
    assert ((lw =? 0) = false) as -> by zb.
    assert (forall l, (forall x, x ∈ l -> entry_at W x = 0) -> zsum (map (fun s => half (entry_at W s)) l) = 0) as Hz.
    { induction l as [|x l IH]; intros Hx; [done |]. cbn [map zsum foldr]. rewrite (Hx x) by constructor. cbn. apply IH. intros y Hy. apply Hx. by constructor. }
    rewrite Hz by (intros x Hx%range_elem; apply Wr; lia). lia. }
  split; [| done].
  assert (forall s, 0 <= s < 256 -> 0 <= entry_at W s) as Hnn.
  { intros s Hss. destruct (Z.lt_trichotomy s (wa_num a)) as [Hlt | [-> | Hgt]]; [rewrite Wg by lia; apply Hr; lia | lia | rewrite Wr by lia; lia]. }
  assert (forall w, 1 <= w -> 2 ^ (w - 1) < 2 ^ maxbits -> w <= maxbits) as Hexp.
  { intros w Hw Hlt. assert (w - 1 < maxbits); [| lia]. apply (Z.pow_lt_mono_r_iff 2); lia. }
  intros s Hss. split; [by apply Hnn |]. destruct (Z.lt_trichotomy s (wa_num a)) as [Hlt | [-> | Hgt]].
  - pose proof (weights_sum_bound W (wa_num a) s ltac:(lia) ltac:(intros; apply Hnn; lia)) as Hb. rewrite HsW, half_eq in Hb by (apply Hnn; lia).
    destruct (Z.eqb_spec (entry_at W s) 0); [lia |]. apply Hexp; [pose proof (Hnn s Hss); lia |].
    assert (0 < 2 ^ (lw - 1)) by (apply Z.pow_pos_nonneg; lia). lia.
  - rewrite Wn. apply Hexp; lia.
  - rewrite Wr by lia. lia.
Qed.

(** From weights to decoding table: [huff_build] (the second half of
    [zstd_decode_tree_description]) never fails an assertion.  It accepts the
    weights exactly when one more weight completes them to a tree of depth at
    most 11, and the table is then the canonical code: symbols sorted by weight
    and value, each with a number of consecutive entries that its length
    determines; the table satisfies what the stream decoder needs. *)
Theorem huff_build_correct junk a tables : acc_ok a -> zlen (j_order junk) = 256 -> length (huff_table tables) = 2048%nat ->
  exists o, huff_build junk a tables = Ok o /\
    match o with
    | Some t => exists W lw maxbits, completes a W lw maxbits /\ t = set_huff maxbits (canonical_table maxbits W) tables /\
        prefix_table (huff_table t)
    | None => ~ (0 < wa_sum a /\ exists lw maxbits, 1 <= lw /\ maxbits <= 11 /\ wa_sum a + 2 ^ (lw - 1) = 2 ^ maxbits)
    end.
Proof.
  intros Ha Ho Ht. pose proof Ha as [Hl Hn Hr Hs]. unfold huff_build, check.
  pose proof (weights_sum_upper _ _ Hn Hr) as Hup. rewrite <- Hs in Hup.
  destruct (Z.eqb_spec (wa_sum a) 0) as [Hz | Hnz]; cbn [negb]; [exists None; split; [done | lia] |].
  destruct (ctz32_ok (wa_sum a) ltac:(lia)) as (q & Hq & Hc & Hq0). set (c := ctz32 (wa_sum a)) in *.
  assert (c < 22) as Hc22.
  { apply (Z.pow_lt_mono_r_iff 2); [lia | lia |]. assert (2 ^ c <= wa_sum a) by nia. lia. }
  assert (0 < 2 ^ c <= wa_sum a) as Hpc by (split; [lia | nia]).
  assert (Z.shiftr (Z.shiftl 1 (c + 1)) 1 = 2 ^ c) as Hhalf.
  { pose proof (half_eq (c + 1) ltac:(lia)) as Hh. unfold half in Hh. rewrite Hh. assert ((c + 1 =? 0) = false) as -> by zb. f_equal. lia. }
  rewrite Hhalf, u32_small by lia. rewrite seti_ok by lia. cbn [mbind res_bind]. rewrite u8_small by lia.
  set (W1 := <[Z.to_nat (wa_num a) := c + 1]> (wa_weights a)).
  assert (zlen W1 = 256) as HlW1 by (unfold W1; by rewrite length_insert).
  destruct (foldM_range (fun i w => zlen w = 256 /\ (forall s, 0 <= s <= wa_num a -> entry_at w s = entry_at W1 s) /\
      (forall s, wa_num a < s < i -> entry_at w s = 0)) (fun w i => seti w i 0) W1 (wa_num a + 1) 256) as (W & -> & HlW & HWlo & HWhi).
  - lia.
  - split_and!; [done | done |]. intros; lia.
  - intros i w Hi (Hlw & H1 & H2). rewrite seti_ok by lia. eexists. split; [done |]. rewrite length_insert. split; [done |]. split.
    + intros s Hss. rewrite entry_at_insert by lia. assert ((i =? s) = false) as -> by zb. by apply H1.
    + intros s Hss. rewrite entry_at_insert by lia. destruct (Z.eqb_spec i s); [done | apply H2; lia].
  - cbn [mbind res_bind].
    destruct (find_maxbits_ok 32 (wa_sum a + 2 ^ c) (c + 1)) as (mb & -> & Hmb & Hle & Hmin).
    { lia. } { lia. } { transitivity (2 ^ 31); [lia | apply Z.pow_le_mono_r; lia]. } { lia. }
    cbn [mbind res_bind]. rewrite Z.shiftl_1_l.
    assert (~ (wa_sum a + 2 ^ c = 2 ^ mb /\ mb <= 11) ->
      ~ (0 < wa_sum a /\ exists lw maxbits, 1 <= lw /\ maxbits <= 11 /\ wa_sum a + 2 ^ (lw - 1) = 2 ^ maxbits)) as Hrej.
    { intros Hno [Hp (lw & maxbits & Hlw & Hm & He)]. apply Hno.
      assert (0 <= maxbits) as Hm0 by (destruct (Z.le_gt_cases 0 maxbits); [done |]; rewrite (Z.pow_neg_r 2 maxbits) in He by lia; assert (0 < 2 ^ (lw - 1)) by (apply Z.pow_pos_nonneg; lia); lia).
      assert (c = lw - 1) as Hclw by (by apply (ctz_pow_diff _ _ maxbits); lia). rewrite <- Hclw in He.
      assert (mb = maxbits) as ->; [| lia].
      destruct (Z.lt_trichotomy mb maxbits) as [Hlt | [? | Hgt]]; [| done |]; exfalso.
      - assert (2 ^ mb < 2 ^ maxbits) by (apply Z.pow_lt_mono_r; lia). lia.
      - assert (c + 1 < mb); [| assert (2 ^ maxbits <= 2 ^ (mb - 1)) by (apply Z.pow_le_mono_r; lia); specialize (Hmin ltac:(lia)); lia].
        destruct (Z.le_gt_cases (c + 1) maxbits); [lia |]. exfalso.
        assert (2 ^ maxbits <= 2 ^ c) by (apply Z.pow_le_mono_r; lia). lia. }
    destruct (Z.eqb_spec (wa_sum a + 2 ^ c) (2 ^ mb)) as [Heq | Hneq]; [| exists None; split; [done | apply Hrej; tauto]].
    destruct (Z.leb_spec mb 11) as [H11 | H11]; [| exists None; split; [done | apply Hrej; lia]].
    assert (completes a W (c + 1) mb) as Hcomp.
    { constructor; [done | | | done |].
      - intros s Hss. rewrite HWlo by lia. unfold W1. rewrite entry_at_insert by lia. by assert ((wa_num a =? s) = false) as -> by zb.
      - rewrite HWlo by lia. unfold W1. by rewrite entry_at_insert, Z.eqb_refl by lia.
      - split; [lia |]. split; [lia |]. replace (c + 1 - 1) with c by lia. done. }
    destruct (completes_ok a W (c + 1) mb Ha Hcomp ltac:(lia)) as [HWb HWs].
    destruct (sort_ok W (j_order junk)) as (w' & o' & -> & Hsort); [intros s Hss; pose proof (HWb s Hss); lia | done | done |].
    cbn [mbind res_bind]. rewrite (fill_ok mb W ltac:(lia) HWb HWs w' o' (huff_table tables)) by (done || lia). cbn [mbind res_bind].
    assert_ok. eexists. split; [done |]. exists W, (c + 1), mb. split; [done |]. split; [done |].
    apply canonical_prefix; [lia | done | done].
Qed.

(** ** The literals section header of RFC 8878, 3.1.1.3.1.1

    [l] is the block from the header on; the fields are taken from the header
    as one little-endian number.  [None] is a header or content that is cut off. *)
Definition lit_header_spec (l : list Z) : option (Z * Z * Z * Z) :=
  let h n := le_val (take n l) in
  let ty := h 1%nat mod 4 in
  let fmt := h 1%nat / 4 mod 4 in
  let '(hdr, regen, content, flags) :=
    if 2 <=? ty then
      let bits := if fmt <? 2 then 10 else if fmt =? 2 then 14 else 18 in
      let hdr := if fmt <? 2 then 3%nat else if fmt =? 2 then 4%nat else 5%nat in
      (hdr, h hdr / 2 ^ 4 mod 2 ^ bits, h hdr / 2 ^ (4 + bits) mod 2 ^ bits,
       Z.lor (if ty =? 3 then ZSTD_TREELESS else 0) (if fmt =? 0 then ZSTD_1STREAM else 0))
    else
      let '(hdr, size) := if fmt mod 2 =? 0 then (1%nat, h 1%nat / 2 ^ 3)
                          else if fmt =? 1 then (2%nat, h 2%nat / 2 ^ 4) else (3%nat, h 3%nat / 2 ^ 4) in
      (hdr, size, if ty =? 1 then 1 else size, if ty =? 1 then ZSTD_RLE_LITERALS else ZSTD_RAW_LITERALS) in
  if (Z.of_nat hdr <=? zlen l) && (content <=? zlen l - Z.of_nat hdr) then Some (Z.of_nat hdr, content, regen, flags) else None.

Definition lit_header_result (in_ : Z) (o : option (Z * Z * Z * Z)) : literals_probe :=
  match o with
  | None => lp_truncated
  | Some (hdr, content, regen, flags) =>
      {| lp_start := in_ + hdr; lp_end := in_ + hdr + content; lp_size := regen; lp_flags := flags |}
  end.

Lemma land_mod x n k : 0 <= n -> k = 2 ^ n - 1 -> Z.land x k = x mod 2 ^ n.
Proof. intros Hn ->. by apply land_ones_mod. Qed.

Lemma flag_pow x k m : 0 <= k -> m = 2 ^ k -> flag x m = (x / 2 ^ k mod 2 =? 1).
Proof.
  intros Hk ->. rewrite flag_bit by done. destruct (Z.testbit x k) eqn:Hb.
  - symmetry. apply Z.eqb_eq. rewrite <- Z.testbit_spec' by done. by rewrite Hb.
  - symmetry. apply Z.eqb_neq. rewrite <- Z.testbit_spec' by done. by rewrite Hb.
Qed.

(** The bit fields of the code, as numbers. *)
Lemma lit_regen b0 b1 : 0 <= b0 < 256 -> 0 <= b1 < 256 -> Z.lor (b0 / 16) (Z.shiftl b1 4) = b0 / 16 + b1 * 16.
Proof. intros H0 H1. rewrite lor_shiftl_add by dlia. done. Qed.

Lemma lit_fields10 b0 b1 b2 : 0 <= b0 < 256 -> 0 <= b1 < 256 -> 0 <= b2 < 256 ->
  let r := Z.lor (b0 / 16) (Z.shiftl b1 4) in let h := b0 + 256 * (b1 + 256 * b2) in
  Z.land r 0x3ff = h / 2 ^ 4 mod 2 ^ 10 /\ Z.lor (Z.shiftr r 10) (Z.shiftl b2 2) = h / 2 ^ (4 + 10) mod 2 ^ 10.
Proof.
  intros H0 H1 H2 r h. unfold r. rewrite lit_regen by done. rewrite (land_mod _ 10) by (done || lia).
  rewrite Z.shiftr_div_pow2 by lia. change (2 ^ 4) with 16. change (2 ^ 10) with 1024. change (2 ^ (4 + 10)) with 16384.
  split; [unfold h; dlia |]. rewrite lor_shiftl_add by dlia. change (2 ^ 2) with 4. unfold h. dlia.
Qed.

Lemma lor_land_high r c k n : 0 <= k -> 0 <= n -> 0 <= r < 2 ^ k -> 0 <= c ->
  Z.lor r (Z.land (Z.shiftl c k) (2 ^ k * (2 ^ n - 1))) = r + (c mod 2 ^ n) * 2 ^ k.
Proof.
  intros Hk Hn Hr Hc. replace (2 ^ k * (2 ^ n - 1)) with (Z.shiftl (2 ^ n - 1) k) by (rewrite Z.shiftl_mul_pow2 by lia; lia).
  rewrite <- Z.shiftl_land, land_ones_mod by lia. by rewrite lor_shiftl_add.
Qed.

Lemma lit_fields14 b0 b1 c0 c1 : 0 <= b0 < 256 -> 0 <= b1 < 256 -> 0 <= c0 < 256 -> 0 <= c1 < 256 ->
  let r := Z.lor (b0 / 16) (Z.shiftl b1 4) in let h := b0 + 256 * (b1 + 256 * (c0 + 256 * c1)) in
  Z.lor r (Z.land (Z.shiftl c0 12) 0x3000) = h / 2 ^ 4 mod 2 ^ 14 /\
  Z.lor (Z.shiftr c0 2) (Z.shiftl c1 6) = h / 2 ^ (4 + 14) mod 2 ^ 14.
Proof.
  intros H0 H1 H2 H3 r h. unfold r. rewrite lit_regen by done. change 0x3000 with (2 ^ 12 * (2 ^ 2 - 1)).
  rewrite lor_land_high by dlia. rewrite Z.shiftr_div_pow2 by lia. rewrite lor_shiftl_add by dlia.
  change (2 ^ 4) with 16. change (2 ^ 14) with 16384. change (2 ^ (4 + 14)) with 262144. change (2 ^ 2) with 4.
  change (2 ^ 12) with 4096. change (2 ^ 6) with 64. unfold h. split; dlia.
Qed.

Lemma lit_fields18 b0 b1 c0 c1 c2 : 0 <= b0 < 256 -> 0 <= b1 < 256 -> 0 <= c0 < 256 -> 0 <= c1 < 256 -> 0 <= c2 < 256 ->
  let r := Z.lor (b0 / 16) (Z.shiftl b1 4) in let h := b0 + 256 * (b1 + 256 * (c0 + 256 * (c1 + 256 * c2))) in
  Z.lor r (Z.land (Z.shiftl c0 12) 0x3f000) = h / 2 ^ 4 mod 2 ^ 18 /\
  Z.lor (Z.lor (Z.shiftr c0 6) (Z.shiftl c1 2)) (Z.shiftl c2 10) = h / 2 ^ (4 + 18) mod 2 ^ 18.
Proof.
  intros H0 H1 H2 H3 H4 r h. unfold r. rewrite lit_regen by done. change 0x3f000 with (2 ^ 12 * (2 ^ 6 - 1)).
  rewrite lor_land_high by dlia. rewrite Z.shiftr_div_pow2 by lia. rewrite (lor_shiftl_add (c0 / 2 ^ 6)) by dlia.
  rewrite lor_shiftl_add by dlia. change (2 ^ 4) with 16. change (2 ^ 18) with 262144. change (2 ^ (4 + 18)) with 4194304.
  change (2 ^ 2) with 4. change (2 ^ 12) with 4096. change (2 ^ 6) with 64. change (2 ^ 10) with 1024. unfold h. split; dlia.
Qed.

(** [zstd_probe_literals] parses every literals section header as RFC 8878
    lays it out, for all four block types and all size formats: the fields are
    those of the header read as one little-endian number, the content lies
    inside of the block, and a cut-off header or content is reported as
    truncated without reading past the end of the block. *)
Theorem zstd_probe_literals_correct m in_ l : mem_ok m -> bytes_at m in_ l -> l <> [] ->
  zstd_probe_literals m in_ (in_ + zlen l) = Ok (lit_header_result in_ (lit_header_spec l)).
Proof.
  intros Hok Hat Hne. pose proof (bytes_at_is_byte _ _ _ Hok Hat) as Hby.
  destruct l as [|b0 l]; [done |]. apply Forall_cons_1 in Hby as [Hb0 Hby]. apply bytes_at_cons in Hat as [Hm0 Hat].
  unfold zstd_probe_literals, lit_header_spec. rewrite (ld8_eq _ _ _ Hm0). cbn [mbind res_bind].
  cbn [take le_val]. rewrite Z.mul_0_r, !Z.add_0_r.
  rewrite (land_mod b0 2 3) by (done || lia). rewrite (land_mod (Z.shiftr b0 2) 2 3) by (done || lia).
  rewrite !Z.shiftr_div_pow2 by lia. unfold is_byte in *. change (2 ^ 2) with 4. change (2 ^ 3) with 8. change (2 ^ 4) with 16.
  assert (flag b0 1 = (b0 mod 4 mod 2 =? 1)) as Hf1.
  { rewrite (flag_pow b0 0) by (done || lia). rewrite Z.div_1_r. f_equal. dlia. }
  assert (flag b0 4 = negb (b0 / 4 mod 4 mod 2 =? 0)) as Hf4.
  { rewrite (flag_pow b0 2) by (done || lia). change (2 ^ 2) with 4.
    destruct (Z.eqb_spec (b0 / 4 mod 2) 1), (Z.eqb_spec (b0 / 4 mod 4 mod 2) 0); try done; exfalso; dlia. }
  assert (flag b0 8 = negb (b0 / 4 mod 4 <? 2)) as Hf8.
  { rewrite (flag_pow b0 3) by (done || lia). change (2 ^ 3) with 8.
    destruct (Z.eqb_spec (b0 / 8 mod 2) 1), (Z.ltb_spec (b0 / 4 mod 4) 2); try done; exfalso; dlia. }
  pose proof (Z.mod_pos_bound b0 4 ltac:(lia)) as Hty. pose proof (Z.mod_pos_bound (b0 / 4) 4 ltac:(lia)) as Hfmt.
  assert (0 <= b0 / 16 < 16) as Hb016 by dlia.
  set (ty := b0 mod 4) in *. set (fmt := b0 / 4 mod 4) in *.
  assert (forall hdr content (regen flags : Z), (hdr <= 5)%nat -> 0 <= content ->
    (if (Z.of_nat hdr <=? zlen (b0 :: l)) && (content <=? zlen (b0 :: l) - Z.of_nat hdr) then Some (Z.of_nat hdr, content, regen, flags) else None)
    = (if in_ + zlen (b0 :: l) - (in_ + Z.of_nat hdr) <? 0 then None
       else if in_ + zlen (b0 :: l) - (in_ + Z.of_nat hdr) <? content then None else Some (Z.of_nat hdr, content, regen, flags))) as Hfin.
  { intros hdr content regen flags Hh Hcn.
    destruct (Z.leb_spec (Z.of_nat hdr) (zlen (b0 :: l))), (Z.leb_spec content (zlen (b0 :: l) - Z.of_nat hdr)),
      (Z.ltb_spec (in_ + zlen (b0 :: l) - (in_ + Z.of_nat hdr)) 0), (Z.ltb_spec (in_ + zlen (b0 :: l) - (in_ + Z.of_nat hdr)) content); cbn; try done; lia. }
  destruct (Z.leb_spec 2 ty) as [Hc | Hr].
  - change Treeless_Literals_Block with 3.
    destruct (Z.ltb_spec (in_ + zlen (b0 :: l) - (in_ + 1)) 2) as [Hs | Hs]; cbn [length] in Hs.
    { replace (Z.of_nat (if fmt <? 2 then 3 else if fmt =? 2 then 4 else 5) <=? zlen (b0 :: l)) with false; [done |].
      symmetry. apply Z.leb_gt. cbn [length]. destruct (fmt <? 2), (fmt =? 2); lia. }
    destruct l as [|b1 [|b2 l]]; [cbn in Hs; lia | cbn in Hs; lia |].
    apply Forall_cons_1 in Hby as [Hb1 Hby]. apply Forall_cons_1 in Hby as [Hb2 Hby].
    apply bytes_at_cons in Hat as [Hm1 Hat]. apply bytes_at_cons in Hat as [Hm2 Hat].
    rewrite (ld8_eq _ _ _ Hm1). cbn [mbind res_bind].
    destruct (Z.ltb_spec fmt 2) as [Hf2 | Hf2].
    + rewrite (ld8_eq _ _ _ Hm2). cbn [mbind res_bind]. destruct (lit_fields10 b0 b1 b2 Hb0 Hb1 Hb2) as [-> ->].
      cbn [take le_val]. rewrite Z.mul_0_r, Z.add_0_r. set (h := b0 + 256 * (b1 + 256 * b2)).
      rewrite Hfin by (lia || (apply Z.mod_pos_bound; lia)).
      replace (in_ + 1 + 1 + 1) with (in_ + Z.of_nat 3) by lia.
      destruct (Z.ltb_spec (in_ + zlen (b0 :: b1 :: b2 :: l) - (in_ + Z.of_nat 3)) 0) as [Hx | _]; [cbn in Hx; lia |].
      destruct (_ <? _); [done |]. cbn [lit_header_result]. do 2 f_equal.
      destruct (fmt =? 0); [done | by rewrite Z.lor_0_r].
    + replace (fmt =? 0) with false by (symmetry; zb). rewrite Z.lor_0_r.
      destruct (Z.eqb_spec fmt 2) as [He2 | He2].
      * destruct (Z.ltb_spec (in_ + zlen (b0 :: b1 :: b2 :: l) - (in_ + 1 + 1)) fmt) as [Hx | Hx]; cbn [length] in Hx.
        { replace (Z.of_nat 4 <=? zlen (b0 :: b1 :: b2 :: l)) with false by (symmetry; apply Z.leb_gt; cbn [length]; lia). done. }
        destruct l as [|b3 l]; [cbn in Hx; lia |]. apply Forall_cons_1 in Hby as [Hb3 Hby]. apply bytes_at_cons in Hat as [Hm3 Hat].
        rewrite (ld8_eq _ _ _ Hm2), (ld8_eq _ _ _ Hm3). cbn [mbind res_bind]. destruct (lit_fields14 b0 b1 b2 b3 Hb0 Hb1 Hb2 Hb3) as [-> ->].
        cbn [take le_val]. rewrite Z.mul_0_r, Z.add_0_r. set (h := b0 + _). rewrite Hfin by (lia || (apply Z.mod_pos_bound; lia)).
        replace (in_ + 1 + 1 + fmt) with (in_ + Z.of_nat 4) by lia.
        destruct (Z.ltb_spec (in_ + zlen (b0 :: b1 :: b2 :: b3 :: l) - (in_ + Z.of_nat 4)) 0) as [Hy | _]; [cbn in Hy; lia |].
        destruct (_ <? _); done.
      * assert_ok. destruct (Z.ltb_spec (in_ + zlen (b0 :: b1 :: b2 :: l) - (in_ + 1 + 1)) fmt) as [Hx | Hx]; cbn [length] in Hx.
        { replace (Z.of_nat 5 <=? zlen (b0 :: b1 :: b2 :: l)) with false by (symmetry; apply Z.leb_gt; cbn [length]; lia). done. }
        destruct l as [|b3 [|b4 l]]; [cbn in Hx; lia | cbn in Hx; lia |].
        apply Forall_cons_1 in Hby as [Hb3 Hby]. apply bytes_at_cons in Hat as [Hm3 Hat].
        apply Forall_cons_1 in Hby as [Hb4 Hby]. apply bytes_at_cons in Hat as [Hm4 Hat].
        replace (in_ + 1 + 1 + 1 + 1) with (in_ + 1 + 1 + 2) in Hm4 by lia.
        rewrite (ld8_eq _ _ _ Hm2), (ld8_eq _ _ _ Hm3). cbn [mbind res_bind]. rewrite (ld8_eq _ _ _ Hm4). cbn [mbind res_bind].
        destruct (lit_fields18 b0 b1 b2 b3 b4 Hb0 Hb1 Hb2 Hb3 Hb4) as [-> ->].
        cbn [take le_val]. rewrite Z.mul_0_r, Z.add_0_r. set (h := b0 + _). rewrite Hfin by (lia || (apply Z.mod_pos_bound; lia)).
        replace (in_ + 1 + 1 + fmt) with (in_ + Z.of_nat 5) by lia.
        destruct (Z.ltb_spec (in_ + zlen (b0 :: b1 :: b2 :: b3 :: b4 :: l) - (in_ + Z.of_nat 5)) 0) as [Hy | _]; [cbn in Hy; lia |].
        destruct (_ <? _); done.
  - rewrite Hf1, Hf4, Hf8, !negb_involutive. replace (ty mod 2) with ty by dlia.
    assert (forall hdr size, (hdr <= 3)%nat -> 0 <= size -> (hdr <= length (b0 :: l))%nat ->
      (if ty =? 1 then
         if in_ + zlen (b0 :: l) - (in_ + Z.of_nat hdr) <? 1 then Ok lp_truncated
         else Ok {| lp_start := in_ + Z.of_nat hdr; lp_end := in_ + Z.of_nat hdr + 1; lp_size := size; lp_flags := ZSTD_RLE_LITERALS |}
       else
         if in_ + zlen (b0 :: l) - (in_ + Z.of_nat hdr) <? size then Ok lp_truncated
         else Ok {| lp_start := in_ + Z.of_nat hdr; lp_end := in_ + Z.of_nat hdr + size; lp_size := size; lp_flags := ZSTD_RAW_LITERALS |})
      = Ok (lit_header_result in_ (if (Z.of_nat hdr <=? zlen (b0 :: l)) && ((if ty =? 1 then 1 else size) <=? zlen (b0 :: l) - Z.of_nat hdr)
          then Some (Z.of_nat hdr, (if ty =? 1 then 1 else size), size, if ty =? 1 then ZSTD_RLE_LITERALS else ZSTD_RAW_LITERALS) else None))) as Hraw.
    { intros hdr size Hh Hsz Hl. rewrite Hfin by (lia || (destruct (ty =? 1); lia)).
      destruct (Z.ltb_spec (in_ + zlen (b0 :: l) - (in_ + Z.of_nat hdr)) 0); [lia |].
      destruct (ty =? 1); [destruct (_ <? 1); cbn; auto | destruct (_ <? size); cbn; auto]. }
    destruct (Z.eqb_spec (fmt mod 2) 0) as [He | He].
    + apply (Hraw 1%nat); [lia | dlia | cbn; lia].
    + destruct (Z.ltb_spec fmt 2) as [Hf2 | Hf2].
      * assert ((fmt =? 1) = true) as -> by (apply Z.eqb_eq; dlia).
        destruct (Z.ltb_spec (in_ + zlen (b0 :: l) - (in_ + 1)) 1) as [Hx | Hx]; cbn [length] in Hx.
        { replace (Z.of_nat 2 <=? zlen (b0 :: l)) with false by (symmetry; apply Z.leb_gt; cbn [length]; lia). done. }
        destruct l as [|b1 l]; [cbn in Hx; lia |]. apply Forall_cons_1 in Hby as [Hb1 Hby]. apply bytes_at_cons in Hat as [Hm1 Hat].
        rewrite (ld8_eq _ _ _ Hm1). cbn [mbind res_bind]. rewrite lit_regen by done. cbn [take le_val]. rewrite Z.mul_0_r, Z.add_0_r.
        replace ((b0 + 256 * b1) / 16) with (b0 / 16 + b1 * 16) by dlia. replace (in_ + 1 + 1) with (in_ + Z.of_nat 2) by lia.
        apply (Hraw 2%nat); [lia | lia | cbn; lia].
      * assert ((fmt =? 1) = false) as -> by zb.
        destruct (Z.ltb_spec (in_ + zlen (b0 :: l) - (in_ + 1)) 2) as [Hx | Hx]; cbn [length] in Hx.
        { replace (Z.of_nat 3 <=? zlen (b0 :: l)) with false by (symmetry; apply Z.leb_gt; cbn [length]; lia). done. }
        destruct l as [|b1 [|b2 l]]; [cbn in Hx; lia | cbn in Hx; lia |].
        apply Forall_cons_1 in Hby as [Hb1 Hby]. apply bytes_at_cons in Hat as [Hm1 Hat].
        apply Forall_cons_1 in Hby as [Hb2 Hby]. apply bytes_at_cons in Hat as [Hm2 Hat].
        rewrite (ld8_eq _ _ _ Hm1), (ld8_eq _ _ _ Hm2). cbn [mbind res_bind]. rewrite lit_regen by done.
        rewrite lor_shiftl_add by lia. cbn [take le_val]. rewrite Z.mul_0_r, Z.add_0_r. change (2 ^ 12) with 4096.
        replace ((b0 + 256 * (b1 + 256 * b2)) / 16) with (b0 / 16 + b1 * 16 + b2 * 4096) by dlia.
        replace (in_ + 1 + 2) with (in_ + Z.of_nat 3) by lia. apply (Hraw 3%nat); [lia | lia | cbn; lia].
Qed.

(** ** Examples *)

(** Two symbols of one bit each. *)
Definition demo_W : list Z := [1; 1] ++ replicate 254 0.
Definition demo_table : list huff_entry := canonical_table 1 demo_W.

Lemma demo_W_range s : 0 <= s < 256 -> 0 <= entry_at demo_W s <= 1.
Proof.
  intros Hs. assert (forallb (fun s => (0 <=? entry_at demo_W s) && (entry_at demo_W s <=? 1)) (range 0 256) = true) as H
    by (vm_compute; reflexivity).
  rewrite forallb_forall in H. specialize (H s (proj1 (list_elem_of_In _ _) (proj2 (range_elem 0 256 s) Hs))). lia.
Qed.

Lemma demo_table_ok : prefix_table demo_table.
Proof. apply canonical_prefix; [lia | exact demo_W_range | vm_compute; reflexivity]. Qed.

Lemma demo_stream : huff_stream demo_table 2 [5] = Some [0; 1].
Proof. vm_compute. reflexivity. Qed.

Lemma bytes_ok (l : list Z) : forallb (fun b => (0 <=? b) && (b <? 256)) l = true -> Forall is_byte l.
Proof.
  intros H. apply Forall_forall. intros b Hb. rewrite forallb_forall in H. specialize (H b Hb). unfold is_byte. lia.
Qed.

Lemma zstd_literal_stream_correct_witness :
  exists m', zstd_decompress_literal_stream (mem_of 0 [5; 77; 77]) 0 1 1 3 demo_table = Ok (true, m') /\ bytes_at m' 1 [0; 1].
Proof.
  destruct (zstd_literal_stream_correct demo_table (mem_of 0 [5; 77; 77]) 0 [5] 1 2) as (m' & _ & H).
  - exact demo_table_ok.
  - apply mem_of_ok, bytes_ok. reflexivity.
  - exact (mem_of_sub 0 [] [5] [77; 77] 0 eq_refl).
  - lia.
  - apply mem_of_accessible; [lia | discriminate].
  - left. discriminate.
  - rewrite demo_stream in H. destruct H as (H1 & H2 & _). exists m'. split; [exact H1 | exact H2].
Defined.

Lemma demo_4streams : huff_4streams demo_table 8 [5] [5] [5] [5] = Some [0; 1; 0; 1; 0; 1; 0; 1].
Proof. vm_compute. reflexivity. Qed.

Lemma zstd_4streams_correct_witness :
  exists m', zstd_decode_huff_4streams (mem_of 0 ([1; 0; 1; 0; 1; 0; 5; 5; 5; 5] ++ replicate 8 77)) 0 10 10 18 demo_table = Ok (true, m') /\
    bytes_at m' 10 [0; 1; 0; 1; 0; 1; 0; 1].
Proof.
  destruct (zstd_4streams_correct demo_table (mem_of 0 ([1; 0; 1; 0; 1; 0; 5; 5; 5; 5] ++ replicate 8 77)) 0 [5] [5] [5] [5] 10 8) as (m' & _ & H).
  - exact demo_table_ok.
  - apply mem_of_ok, bytes_ok. reflexivity.
  - exact (mem_of_sub 0 [] [1; 0; 1; 0; 1; 0; 5; 5; 5; 5] (replicate 8 77) 0 eq_refl).
  - reflexivity.
  - reflexivity.
  - reflexivity.
  - discriminate.
  - discriminate.
  - cbn. lia.
  - reflexivity.
  - apply mem_of_accessible; discriminate.
  - left. discriminate.
  - rewrite demo_4streams in H. destruct H as (H1 & H2 & _). exists m'. split; [exact H1 | exact H2].
Defined.

(** The example of RFC 8878, 4.2.1: weights 4, 3, 2, 0, 1 and an implied 1. *)
Definition demo_acc : weight_acc := {| wa_weights := [4; 3; 2; 0; 1] ++ replicate 251 9; wa_num := 5; wa_sum := 15 |}.
Definition demo_tree_junk : tree_junk :=
  {| j_fse_weights := []; j_fse_table := []; j_weights := []; j_cols := demo_junk; j_order := replicate 256 0 |}.
Definition demo_tables : dectables :=
  {| huff_depth := 0; copy_log := 255; length_log := 255; dist_log := 255; t_dist1 := 1; t_dist2 := 4; t_dist3 := 8;
     huff_table := replicate 2048 {| he_sym := 0; he_len := 0 |}; copy_table := []; length_table := []; dist_table := [] |}.

Lemma demo_acc_ok : acc_ok demo_acc.
Proof.
  constructor; [reflexivity | cbn; lia | | vm_compute; reflexivity].
  intros s Hs. cbn in Hs.
  assert (forallb (fun s => (0 <=? entry_at (wa_weights demo_acc) s) && (entry_at (wa_weights demo_acc) s <=? 15)) (range 0 5) = true) as H
    by (vm_compute; reflexivity).
  rewrite forallb_forall in H. specialize (H s (proj1 (list_elem_of_In _ _) (proj2 (range_elem 0 5 s) Hs))). lia.
Qed.

Lemma huff_build_correct_witness :
  exists o, huff_build demo_tree_junk demo_acc demo_tables = Ok o /\
    match o with
    | Some t => exists W lw maxbits, completes demo_acc W lw maxbits /\
        t = set_huff maxbits (canonical_table maxbits W) demo_tables /\ prefix_table (huff_table t)
    | None => ~ (0 < wa_sum demo_acc /\
        exists lw maxbits, 1 <= lw /\ maxbits <= 11 /\ wa_sum demo_acc + 2 ^ (lw - 1) = 2 ^ maxbits)
    end.
Proof. apply (huff_build_correct demo_tree_junk demo_acc demo_tables); [exact demo_acc_ok | reflexivity | reflexivity]. Defined.

Lemma zstd_probe_literals_correct_witness :
  zstd_probe_literals (mem_of 100 [0x2a; 0x01; 0x10; 0; 7; 8; 9; 10]) 100 108
  = Ok {| lp_start := 104; lp_end := 108; lp_size := 18; lp_flags := 0 |}.
Proof.
  refine (eq_trans (zstd_probe_literals_correct (mem_of 100 [0x2a; 0x01; 0x10; 0; 7; 8; 9; 10]) 100
    [0x2a; 0x01; 0x10; 0; 7; 8; 9; 10] _ _ _) _).
  - apply mem_of_ok, bytes_ok. reflexivity.
  - apply mem_of_bytes_at.
  - discriminate.
  - vm_compute. reflexivity.
Defined.

(** Four streams for three literals: the first three streams are decoded, one
    byte each, and the fourth fails the assertion that there is space left. *)
Theorem zstd_4streams_short_asserts :
  zstd_decode_huff_4streams (mem_of 0 ([1; 0; 1; 0; 1; 0; 3; 3; 3; 3] ++ replicate 8 77)) 0 10 10 13 demo_table = Trap TrapAssert.
Proof. vm_compute. reflexivity. Qed.
