(* ===== verification/ZstdSequences.v ===== *)
(** * Sequences of zstd blocks ([src/compression/zstd_sequences.c])

    Sequences are read backwards from a bit stream with three interleaved FSE
    states, through a 64-bit buffer that is refilled with one unaligned load
    (AArch64) or byte by byte. *)
From S2P Require Export ZstdLiterals.

(** ** Definitions *)
Definition xtra (a b : Z) : Z := Z.lor a (Z.shiftl b 24).

Definition ctable_copy : list Z :=
  [0; 1; 2; 3; 4; 5; 6; 7; 8; 9; 10; 11; 12; 13; 14; 15;
   xtra 16 1; xtra 18 1; xtra 20 1; xtra 22 1;
   xtra 24 2; xtra 28 2; xtra 32 3; xtra 40 3;
   xtra 48 4; xtra 64 6; xtra 128 7; xtra 256 8;
   xtra 512 9; xtra 1024 10; xtra 2048 11; xtra 4096 12;
   xtra 8192 13; xtra 16384 14; xtra 32768 15; xtra 65536 16].

Definition ctable_length : list Z :=
  [0; 1; 2; 3; 4; 5; 6; 7; 8; 9; 10; 11; 12; 13; 14; 15; 16; 17; 18;
   19; 20; 21; 22; 23; 24; 25; 26; 27; 28; 29; 30; 31;
   xtra 32 1; xtra 34 1; xtra 36 1; xtra 38 1;
   xtra 40 2; xtra 44 2; xtra 48 3; xtra 56 3;
   xtra 64 4; xtra 80 4; xtra 96 5; xtra 128 7;
   xtra 256 8; xtra 512 9; xtra 1024 10; xtra 2048 11;
   xtra 4096 12; xtra 8192 13; xtra 16384 14; xtra 32768 15;
   xtra 65536 16].

(** [bits], [num_bits] and [ptr]. *)
Record seq_buf : Type := { sb_bits : Z; sb_num : Z; sb_ptr : Z }.

(** [REFILL] with [LDLE64U]. *)
Definition seq_refill (m : mem) (start total_bits : Z) (b : seq_buf) : res (option seq_buf) :=
  let read_bytes := u32 (8 - (sb_num b + 7) / 8) in
  let read_bytes := if sb_ptr b - start <? read_bytes then sb_ptr b - start else read_bytes in
  let ptr := sb_ptr b - read_bytes in
  l ← ld 8 m ptr;
  let num_bits := u32 (sb_num b + read_bytes * 8) in
  check (total_bits <=? num_bits) (
  Ok (Some {| sb_bits := le_val l; sb_num := num_bits; sb_ptr := ptr |})).

(** [bits = bits << 8 | *--ptr; num_bits += 8;] *)
Definition seq_fetch (m : mem) (b : seq_buf) : res seq_buf :=
  v ← ld8 m (sb_ptr b - 1);
  Ok {| sb_bits := Z.lor (u64 (Z.shiftl (sb_bits b) 8)) v; sb_num := u32 (sb_num b + 8); sb_ptr := sb_ptr b - 1 |}.

(** [do {...} while (num_bits <= 56 && start < ptr)] and the [while] loop of [init_sequences]. *)
Fixpoint seq_fill (fuel : nat) (m : mem) (start : Z) (b : seq_buf) : res seq_buf :=
  match fuel with
  | O => Trap TrapFuel
  | S fuel => if (sb_num b <=? 56) && (start <? sb_ptr b) then b ← seq_fetch m b; seq_fill fuel m start b else Ok b
  end.

(** The portable [REFILL]. *)
Definition seq_refill_portable (m : mem) (start total_bits : Z) (b : seq_buf) : res (option seq_buf) :=
  if sb_num b <? total_bits then
    check ((total_bits - sb_num b + 7) / 8 <=? sb_ptr b - start) (
    b ← seq_fetch m b;
    b ← seq_fill 9 m start b;
    Ok (Some b))
  else Ok (Some b).

(** [x >> n] on a 64-bit register of AArch64; C leaves [n = 64] undefined. *)
Definition shr64 (x n : Z) : Z := Z.shiftr x (n mod 64).

(** [DECODE3]: the buffer and three fields; [refill] is one of the two variants. *)
Definition decode3 (refill : Z -> seq_buf -> res (option seq_buf)) (bits_a bits_b bits_c : Z) (b : seq_buf)
    : res (option (seq_buf * Z * Z * Z)) :=
  let total_bits := u32 (bits_a + bits_b + bits_c) in
  o ← refill total_bits b;
  match o with
  | None => Ok None
  | Some b =>
      let tmp1 := shr64 (sb_bits b) (sb_num b - total_bits) in
      let tmp2 := u32 (shr64 (sb_bits b) (sb_num b - bits_a)) in
      let tmp3 := u32 (shr64 tmp1 bits_c) in
      Ok (Some ({| sb_bits := sb_bits b; sb_num := u32 (sb_num b - total_bits); sb_ptr := sb_ptr b |},
        Z.land tmp2 (MASK31 bits_a), Z.land tmp3 (MASK31 bits_b), Z.land tmp1 (MASK31 bits_c)))
  end.

(** [bits_left] of the C struct is never used. *)
Record sequences_state : Type := {
  ss_buf : seq_buf;
  ss_dist1 : Z; ss_dist2 : Z; ss_dist3 : Z;
  entry_copy : Z; entry_length : Z; entry_dist : Z;
}.

Section Refill.
Context (refill : mem -> Z -> Z -> seq_buf -> res (option seq_buf)).

Definition init_sequences (m : mem) (start ptr : Z) (tables : dectables) : res (option sequences_state) :=
  check (1 <=? ptr - start) (
  let ptr := ptr - 1 in
  last_byte ← ld8 m ptr;
  check (negb (last_byte =? 0)) (
  let b := {| sb_bits := last_byte; sb_num := u32 (clz32 1 - clz32 last_byte); sb_ptr := ptr |} in
  b ← seq_fill 9 m start b;
  o ← decode3 (refill m start) (copy_log tables) (dist_log tables) (length_log tables) b;
  match o with
  | None => Ok None
  | Some (b, state_copy, state_dist, state_length) =>
      Ok (Some {| ss_buf := b; ss_dist1 := u32 (t_dist1 tables); ss_dist2 := u32 (t_dist2 tables); ss_dist3 := u32 (t_dist3 tables);
        entry_copy := u32 (Z.shiftl state_copy 11); entry_length := u32 (Z.shiftl state_length 11);
        entry_dist := u32 (Z.shiftl state_dist 11) |})
  end)).

(** The repeat-offset history of [pack_sequence]: [None] for an offset of zero. *)
Definition pack_dist (d1 d2 d3 copy dist : Z) : res (option (Z * Z * Z)) :=
  '(used_dist, d2, d3) ←
    (if 3 <? dist then Ok (u32 (dist - 3), d1, d2)
     else if copy =? 0 then
       if dist =? 3 then Ok (u32 (d1 - 1), d1, d2)
       else if dist =? 1 then Ok (d2, d1, d3)
       else c_assert (dist =? 2) ;; Ok (d3, d1, d2)
     else
       if dist =? 1 then Ok (d1, d2, d3)
       else if dist =? 2 then Ok (d2, d1, d3)
       else Ok (d3, d1, d2));
  check (negb (used_dist =? 0)) (Ok (Some (used_dist, d2, d3))).

Definition pack_sequence (s : sequences_state) (copy length dist : Z) : res (option (sequences_state * Z)) :=
  o ← pack_dist (ss_dist1 s) (ss_dist2 s) (ss_dist3 s) copy dist;
  match o with
  | None => Ok None
  | Some (d1, d2, d3) =>
      c_assert ((copy <? 0x20000) && (length <? 0x20000)) ;;
      Ok (Some ({| ss_buf := ss_buf s; ss_dist1 := d1; ss_dist2 := d2; ss_dist3 := d3;
                   entry_copy := entry_copy s; entry_length := entry_length s; entry_dist := entry_dist s |},
        Z.lor (Z.lor copy (Z.shiftl length 17)) (u64 (Z.shiftl (d1 - 1) 34))))
  end.

(** One iteration of [decode_sequences]. *)
Definition decode_sequence (m : mem) (start : Z) (tables : dectables) (s : sequences_state)
    : res (option (sequences_state * Z)) :=
  o ← decode3 (refill m start) (Z.land (entry_copy s) 31) (Z.land (entry_length s) 31) (Z.land (entry_dist s) 31) (ss_buf s);
  match o with
  | None => Ok None
  | Some (b, state_copy, state_length, state_dist) =>
      let state_copy := u32 (state_copy + fse_base (entry_copy s)) in
      let state_length := u32 (state_length + fse_base (entry_length s)) in
      let state_dist := u32 (state_dist + fse_base (entry_dist s)) in
      ec ← geti (copy_table tables) state_copy;
      ed ← geti (dist_table tables) state_dist;
      el ← geti (length_table tables) state_length;
      let sym_copy := Z.land (Z.shiftr ec 5) 63 in
      let sym_dist := Z.land (Z.shiftr ed 5) 63 in
      let sym_length := Z.land (Z.shiftr el 5) 63 in
      const_length ← geti ctable_length sym_length;
      const_copy ← geti ctable_copy sym_copy;
      o ← decode3 (refill m start) sym_dist (Z.shiftr const_length 24) (Z.shiftr const_copy 24) b;
      match o with
      | None => Ok None
      | Some (b, extra_dist, extra_length, extra_copy) =>
          let extra_dist := u32 (extra_dist + u32 (Z.shiftl 1 sym_dist)) in
          let extra_copy := u32 (extra_copy + Z.land const_copy 0xffffff) in
          let extra_length := u32 (extra_length + Z.land const_length 0xffffff) in
          pack_sequence {| ss_buf := b; ss_dist1 := ss_dist1 s; ss_dist2 := ss_dist2 s; ss_dist3 := ss_dist3 s;
              entry_copy := ec; entry_length := el; entry_dist := ed |} extra_copy extra_length extra_dist
      end
  end.

(** [do {...} while (--num_seq)]: the packed sequences.  With no sequence to
    decode the counter would wrap around and 2^64 rounds follow; the caller
    tests for that, here it is a trap. *)
Fixpoint decode_sequences (num_seq : nat) (m : mem) (start : Z) (tables : dectables) (s : sequences_state)
    : res (option (sequences_state * list Z)) :=
  match num_seq with
  | O => Trap TrapFuel
  | S num_seq =>
      o ← decode_sequence m start tables s;
      match o with
      | None => Ok None
      | Some (s, v) =>
          match num_seq with
          | O => Ok (Some (s, [v]))
          | _ =>
              o ← decode_sequences num_seq m start tables s;
              match o with None => Ok None | Some (s, l) => Ok (Some (s, v :: l)) end
          end
      end
  end.
End Refill.

Definition set_dists (d1 d2 d3 : Z) (t : dectables) : dectables :=
  {| huff_depth := huff_depth t; copy_log := copy_log t; length_log := length_log t; dist_log := dist_log t;
     t_dist1 := d1; t_dist2 := d2; t_dist3 := d3; huff_table := huff_table t;
     copy_table := copy_table t; length_table := length_table t; dist_table := dist_table t |}.

Definition finish_sequences (s : sequences_state) (start : Z) (tables : dectables) : option dectables :=
  if (sb_num (ss_buf s) =? 0) && (sb_ptr (ss_buf s) =? start)
  then Some (set_dists (ss_dist1 s) (ss_dist2 s) (ss_dist3 s) tables) else None.

(** The fields of a packed sequence, as [decompress_block] takes them apart. *)
Definition seq_copy (sequence : Z) : Z := u32 (Z.land sequence 0x1ffff).
Definition seq_length (sequence : Z) : Z := u32 (u32 (Z.land (Z.shiftr sequence 17) 0x1ffff) + 3).
Definition seq_dist (sequence : Z) : Z := u32 (Z.shiftr sequence 34 + 1).

(** ** The bit stream as a number

    The stream [S] is the number [V]; what remains to be read are its low [N]
    bits, from the highest to the lowest. *)
Definition bitfield (V N n : Z) : Z := V / 2 ^ (N - n) mod 2 ^ n.

Section Reader.
Context (m : mem) (start : Z) (S : list Z).
Hypothesis Hok : mem_ok m.
Hypothesis HS : bytes_at m start S.
Hypothesis H8 : accessible m start 8.

Let V : Z := le_val S.

(** [k] bytes are left in memory; the low [num] bits of the buffer continue them. *)
Record sbuf_ok (b : seq_buf) (k : Z) : Prop := {
  sb_k : 0 <= k <= zlen S;
  sb_at : sb_ptr b = start + k;
  sb_n : 0 <= sb_num b <= 64;
  sb_fits : sb_num b + 8 * k <= 8 * zlen S;
  sb_val : sb_bits b mod 2 ^ sb_num b = V / 2 ^ (8 * k) mod 2 ^ sb_num b;
}.

Definition left_bits (b : seq_buf) (k : Z) : Z := sb_num b + 8 * k.

Lemma S_bytes : Forall is_byte S.
Proof. by eapply bytes_at_is_byte. Qed.

Lemma V_drop k : 0 <= k <= zlen S -> V / 2 ^ (8 * k) = le_val (drop (Z.to_nat k) S).
Proof.
  intros Hk. rewrite (le_val_drop (Z.to_nat k) S S_bytes) by lia. rewrite Z2Nat.id, Z.shiftr_div_pow2 by lia. done.
Qed.

(** One more byte from memory. *)
Lemma V_byte k : 1 <= k <= zlen S -> exists v, m !! (start + k - 1) = Some v /\ is_byte v /\
  V / 2 ^ (8 * (k - 1)) = V / 2 ^ (8 * k) * 256 + v.
Proof.
  intros Hk. destruct (lookup_lt_is_Some_2 S (Z.to_nat (k - 1))) as [v Hv]; [lia |]. exists v.
  assert (is_byte v) as Hbv by (by eapply Forall_lookup_1 in Hv; [| apply S_bytes]).
  split; [rewrite <- Hv, <- HS by lia; f_equal; lia |]. split; [done |].
  rewrite !V_drop by lia. replace (Z.to_nat k) with (Datatypes.S (Z.to_nat (k - 1))) by lia. rewrite (drop_S _ v _ Hv). cbn [le_val]. lia.
Qed.

Lemma pow_split a b : 0 <= a -> 0 <= b -> 2 ^ (a + b) = 2 ^ a * 2 ^ b.
Proof. intros. by apply Z.pow_add_r. Qed.

Lemma seq_fetch_ok b k : sbuf_ok b k -> 1 <= k -> sb_num b <= 56 ->
  exists b', seq_fetch m b = Ok b' /\ sbuf_ok b' (k - 1) /\ sb_num b' = sb_num b + 8.
Proof.
  intros [Hk Hp Hn Hf Hv] H1 H56. destruct (V_byte k ltac:(lia)) as (v & Hm & Hbv & HV). unfold seq_fetch.
  replace (sb_ptr b - 1) with (start + k - 1) by lia. rewrite (ld8_eq _ _ _ Hm). cbn [mbind res_bind].
  eexists. split; [done |]. rewrite u32_small by lia. split; [| done]. constructor; cbn [sb_ptr sb_num sb_bits]; try lia.
  unfold is_byte in Hbv. unfold u64.
  assert (Z.lor (Z.shiftl (sb_bits b) 8 mod 2 ^ 64) v mod 2 ^ (sb_num b + 8) = (sb_bits b * 256 + v) mod 2 ^ (sb_num b + 8)) as ->.
  { assert (Z.shiftl (sb_bits b) 8 mod 2 ^ 64 = Z.shiftl (sb_bits b mod 2 ^ 56) 8) as ->.
    { rewrite !Z.shiftl_mul_pow2 by lia. change (2 ^ 64) with (2 ^ 56 * 2 ^ 8). by rewrite Z.mul_mod_distr_r by lia. }
    rewrite Z.lor_comm, lor_shiftl_add by lia.
    replace (2 ^ 56) with (2 ^ sb_num b * 2 ^ (56 - sb_num b)) by (rewrite <- pow_split by lia; f_equal; lia).
    rewrite pow_split by lia. change (2 ^ 8) with 256. rewrite (Z.rem_mul_r (sb_bits b)) by lia.
    set (x := sb_bits b mod 2 ^ sb_num b). set (y := (sb_bits b / 2 ^ sb_num b) mod 2 ^ (56 - sb_num b)).
    replace (v + (x + 2 ^ sb_num b * y) * 256) with (x * 256 + v + y * (2 ^ sb_num b * 256)) by ring.
    rewrite Z.mod_add by lia. replace (sb_bits b * 256 + v) with (x * 256 + v + sb_bits b / 2 ^ sb_num b * (2 ^ sb_num b * 256)).
    - by rewrite Z.mod_add by lia.
    - unfold x. pose proof (Z.div_mod (sb_bits b) (2 ^ sb_num b) ltac:(lia)). lia. }
  rewrite HV, pow_split by lia. change (2 ^ 8) with 256.
  assert (forall z, (z * 256 + v) mod (2 ^ sb_num b * 256) = (z mod 2 ^ sb_num b) * 256 + v) as Hmod.
  { intros z. pose proof (Z.div_mod z (2 ^ sb_num b) ltac:(lia)) as Hd. pose proof (Z.mod_pos_bound z (2 ^ sb_num b) ltac:(lia)).
    symmetry. apply Z.mod_unique with (z / 2 ^ sb_num b); [left; nia | lia]. }
  rewrite !Hmod. by rewrite Hv.
Qed.

Lemma seq_fill_ok fuel b k : sbuf_ok b k -> 64 < sb_num b + 8 * Z.of_nat fuel ->
  exists b' k', seq_fill fuel m start b = Ok b' /\ sbuf_ok b' k' /\ left_bits b' k' = left_bits b k /\ (57 <= sb_num b' \/ k' = 0).
Proof.
  revert b k. induction fuel as [|fuel IH]; intros b k Hb Hf; [destruct Hb; lia |]. cbn [seq_fill].
  pose proof Hb as [Hk Hp Hn _ _]. rewrite Hp. destruct (Z.leb_spec (sb_num b) 56) as [Hle | Hgt]; cbn [andb].
  - destruct (Z.ltb_spec start (start + k)) as [Hlt | Hge].
    + destruct (seq_fetch_ok b k Hb ltac:(lia) Hle) as (b' & -> & Hb' & Hn'). cbn [mbind res_bind].
      destruct (IH b' (k - 1) Hb' ltac:(lia)) as (b2 & k2 & -> & ? & Hl & ?). exists b2, k2. split_and!; try done.
      rewrite Hl. unfold left_bits. lia.
    + exists b, k. split_and!; try done. right. lia.
  - exists b, k. split_and!; try done. left. lia.
Qed.

(** What a refill has to do: fail exactly when the stream is too short. *)
Definition refill_spec (refill : mem -> Z -> Z -> seq_buf -> res (option seq_buf)) : Prop :=
  forall b k total, sbuf_ok b k -> 0 <= total <= 57 ->
    if total <=? left_bits b k then
      exists b' k', refill m start total b = Ok (Some b') /\ sbuf_ok b' k' /\ left_bits b' k' = left_bits b k /\ total <= sb_num b'
    else refill m start total b = Ok None.

Lemma portable_refill_ok : refill_spec seq_refill_portable.
Proof.
  intros b k total Hb Ht. pose proof Hb as [Hk Hp Hn _ _]. unfold seq_refill_portable, left_bits in *.
  destruct (Z.ltb_spec (sb_num b) total) as [Hlt | Hge].
  - unfold check. rewrite Hp. replace (start + k - start) with k by lia.
    destruct (Z.leb_spec ((total - sb_num b + 7) / 8) k) as [Hle | Hgt].
    + assert ((total <=? sb_num b + 8 * k) = true) as -> by (apply Z.leb_le; dlia).
      destruct (seq_fetch_ok b k Hb) as (b1 & -> & Hb1 & Hn1); [dlia | lia |]. cbn [mbind res_bind].
      destruct (seq_fill_ok 9 b1 (k - 1) Hb1 ltac:(lia)) as (b2 & k2 & -> & Hb2 & Hl2 & Hor). cbn [mbind res_bind].
      exists b2, k2. unfold left_bits in *. split_and!; [done | done | lia |]. destruct Hor as [? | ->]; [lia |]. dlia.
    + by assert ((total <=? sb_num b + 8 * k) = false) as -> by (apply Z.leb_gt; dlia).
  - assert ((total <=? sb_num b + 8 * k) = true) as -> by zb. exists b, k. split_and!; (done || lia).
Qed.

(** The 8 bytes at position [k] of the stream. *)
Lemma load_ok k n : 0 <= k <= zlen S -> 0 <= n <= 64 -> n + 8 * k <= 8 * zlen S -> k = 0 \/ k + 8 <= zlen S ->
  exists l, ld 8 m (start + k) = Ok l /\ le_val l mod 2 ^ n = V / 2 ^ (8 * k) mod 2 ^ n.
Proof.
  intros Hk Hn Hf Hor.
  destruct (ld_ok 8 m (start + k)) as (l & -> & Hl & Hat).
  { destruct Hor as [-> | Hle]; [by rewrite Z.add_0_r |]. eapply accessible_sub; [by apply bytes_at_accessible | lia | lia]. }
  exists l. split; [done |]. rewrite V_drop by lia. set (T := drop (Z.to_nat k) S).
  assert (bytes_at m (start + k) T) as HT.
  { pose proof HS as HS'. rewrite <- (take_drop (Z.to_nat k) S) in HS'. apply bytes_at_app in HS' as [_ HS'].
    rewrite length_take, Nat.min_l in HS' by lia. by replace (start + Z.of_nat (Z.to_nat k)) with (start + k) in HS' by lia. }
  set (q := Nat.min 8 (length T)). assert (length T = Z.to_nat (zlen S - k)) as HlT by (unfold T; rewrite length_drop; lia).
  assert (take q l = take q T) as Heq.
  { apply bytes_at_inj with m (start + k); [| | rewrite !length_take; lia].
    - pose proof Hat as H. rewrite <- (take_drop q l) in H. by apply bytes_at_app in H as [H _].
    - pose proof HT as H. rewrite <- (take_drop q T) in H. by apply bytes_at_app in H as [H _]. }
  assert (n <= 8 * Z.of_nat q) as Hnq by lia.
  assert (forall x, x mod 2 ^ n = x mod 2 ^ (8 * Z.of_nat q) mod 2 ^ n) as Hmm.
  { intros x. replace (8 * Z.of_nat q) with (n + (8 * Z.of_nat q - n)) by lia. rewrite pow_split by lia.
    rewrite Z.rem_mul_r by lia. rewrite (Z.mul_comm (2 ^ n)), Z.mod_add, Z.mod_mod by lia. done. }
  rewrite (Hmm (le_val l)), (Hmm (le_val T)). rewrite <- !le_val_take; [by rewrite Heq | | lia | | lia].
  - by eapply bytes_at_is_byte.
  - by eapply bytes_at_is_byte.
Qed.

Lemma load_refill_ok : refill_spec seq_refill.
Proof.
  intros b k total Hb Ht. pose proof Hb as [Hk Hp Hn Hf Hv]. unfold seq_refill, left_bits in *. rewrite Hp.
  assert (u32 (8 - (sb_num b + 7) / 8) = 8 - (sb_num b + 7) / 8) as -> by (apply u32_small; dlia).
  replace (start + k - start) with k by lia. set (r0 := 8 - (sb_num b + 7) / 8).
  assert (0 <= r0 <= 8 /\ 57 <= sb_num b + 8 * r0 <= 64) as Hr0 by (unfold r0; dlia).
  set (r := if k <? r0 then k else r0). assert (0 <= r <= k /\ r <= r0 /\ (r = k \/ r = r0)) as Hr.
  { unfold r. destruct (Z.ltb_spec k r0); lia. }
  replace (start + k - r) with (start + (k - r)) by lia.
  destruct (load_ok (k - r) (sb_num b + 8 * r)) as (l & -> & Hlv); [lia | lia | lia | lia |]. cbn [mbind res_bind].
  rewrite u32_small by lia. unfold check. replace (sb_num b + r * 8) with (sb_num b + 8 * r) by lia.
  destruct (Z.leb_spec total (sb_num b + 8 * r)) as [Hle | Hgt].
  - assert ((total <=? sb_num b + 8 * k) = true) as -> by zb. eexists _, (k - r). split; [done |]. cbn [sb_num].
    split; [constructor; cbn [sb_ptr sb_num sb_bits]; (done || lia) |]. lia.
  - by assert ((total <=? sb_num b + 8 * k) = false) as -> by zb.
Qed.

(** ** Three fields at once *)
Lemma div_mod_low x y n a c : 0 <= a -> 0 <= c -> a + c <= n -> x mod 2 ^ n = y mod 2 ^ n -> x / 2 ^ a mod 2 ^ c = y / 2 ^ a mod 2 ^ c.
Proof.
  intros Ha Hc Hn He. assert (forall z, z / 2 ^ a mod 2 ^ c = (z mod 2 ^ n) / 2 ^ a mod 2 ^ c) as H.
  { intros z. replace n with (a + (c + (n - a - c))) by lia. rewrite !pow_split by lia.
    rewrite (Z.rem_mul_r z (2 ^ a)) by lia. rewrite (Z.mul_comm (2 ^ a)), Z.add_comm, Z.div_add_l by lia.
    rewrite (Z.div_small (z mod 2 ^ a)) by (apply Z.mod_pos_bound; lia). rewrite Z.add_0_r.
    rewrite Z.rem_mul_r by lia. rewrite (Z.mul_comm (2 ^ c)), Z.mod_add, Z.mod_mod by lia. done. }
  by rewrite (H x), (H y), He.
Qed.

Lemma mask31 x n : 0 <= n -> Z.land x (MASK31 n) = x mod 2 ^ n.
Proof. intros Hn. unfold MASK31. rewrite Z.shiftl_1_l. by apply land_ones_mod. Qed.

Lemma u32_mod x n : 0 <= n <= 32 -> u32 x mod 2 ^ n = x mod 2 ^ n.
Proof.
  intros Hn. unfold u32. replace 32 with (n + (32 - n)) by lia. rewrite pow_split by lia. rewrite Z.rem_mul_r by lia.
  rewrite (Z.mul_comm (2 ^ n)), Z.mod_add, Z.mod_mod by lia. done.
Qed.

(** A field of the buffer. *)
Lemma buf_field b k pos n : sbuf_ok b k -> 0 <= n -> 0 <= pos -> pos + n <= sb_num b ->
  shr64 (sb_bits b) pos mod 2 ^ n = V / 2 ^ (8 * k + pos) mod 2 ^ n.
Proof.
  intros [Hk Hp Hn Hf Hv] H0 Hpos Hle. unfold shr64. destruct (Z.eq_dec n 0) as [-> | Hne].
  - by rewrite !Z.mod_1_r.
  - rewrite (Z.mod_small pos 64) by lia. rewrite Z.shiftr_div_pow2 by lia.
    rewrite pow_split, <- Z.div_div by lia. by apply (div_mod_low _ _ (sb_num b)).
Qed.

Lemma decode3_ok refill b k a c d : refill_spec refill -> sbuf_ok b k -> 0 <= a <= 31 -> 0 <= c <= 31 -> 0 <= d <= 31 -> a + c + d <= 57 ->
  let N := left_bits b k in
  if a + c + d <=? N then
    exists b' k', decode3 (refill m start) a c d b
      = Ok (Some (b', bitfield V N a, bitfield V (N - a) c, bitfield V (N - a - c) d)) /\
      sbuf_ok b' k' /\ left_bits b' k' = N - (a + c + d)
  else decode3 (refill m start) a c d b = Ok None.
Proof.
  intros Href Hb Ha Hc Hd Ht N. unfold decode3. rewrite u32_small by lia.
  specialize (Href b k (a + c + d) Hb ltac:(lia)). fold N in Href. destruct (Z.leb_spec (a + c + d) N) as [Hle | Hgt].
  2: { rewrite Href. done. }
  destruct Href as (b' & k' & -> & Hb' & Hl' & Htot). cbn [mbind res_bind]. pose proof Hb' as [Hk Hp Hn Hf Hv].
  rewrite !mask31, !u32_mod by lia. unfold left_bits in Hl'.
  assert (8 * k' + sb_num b' = N) as HN by lia.
  assert (shr64 (shr64 (sb_bits b') (sb_num b' - (a + c + d))) d mod 2 ^ c = bitfield V (N - a) c) as ->.
  { unfold bitfield. unfold shr64 at 1. rewrite (Z.mod_small d 64), Z.shiftr_div_pow2 by lia.
    destruct (Z.eq_dec c 0) as [-> | Hne]; [by rewrite !Z.mod_1_r |].
    unfold shr64. rewrite (Z.mod_small (_ - _) 64) by lia. rewrite Z.shiftr_div_pow2, Z.div_div, <- pow_split by lia.
    replace (sb_num b' - (a + c + d) + d) with (sb_num b' - a - c) by lia.
    replace (N - a - c) with (8 * k' + (sb_num b' - a - c)) by lia. rewrite pow_split, <- Z.div_div by lia.
    apply (div_mod_low _ _ (sb_num b')); (done || lia). }
  rewrite !(buf_field b' k') by (done || lia). unfold bitfield.
  replace (8 * k' + (sb_num b' - a)) with (N - a) by lia. replace (8 * k' + (sb_num b' - (a + c + d))) with (N - a - c - d) by lia.
  eexists _, k'. split; [done |]. rewrite u32_small by lia. split.
  - constructor; cbn [sb_ptr sb_num sb_bits]; try (done || lia).
    pose proof (div_mod_low _ _ (sb_num b') 0 (sb_num b' - (a + c + d)) ltac:(lia) ltac:(lia) ltac:(lia) Hv) as H. by rewrite !Z.div_1_r in H.
  - unfold left_bits. cbn [sb_num]. lia.
Qed.
End Reader.

(** ** Sequences in RFC 8878 *)

(** Repeated offsets (3.1.1.5): the offset and the new history. *)
Definition rep_offset (r1 r2 r3 copy dist : Z) : option (Z * Z * Z) :=
  let idx := dist - 1 + (if copy =? 0 then 1 else 0) in
  let '(off, r2, r3) :=
    if 3 <? dist then (dist - 3, r1, r2)
    else if idx =? 0 then (r1, r2, r3)
    else if idx =? 1 then (r2, r1, r3)
    else if idx =? 2 then (r3, r1, r2)
    else (r1 - 1, r1, r2) in
  if off =? 0 then None else Some (off, r2, r3).

(** Baselines and extra bits of the literal length and match length codes (3.1.1.3.2.1.1). *)
Definition LL_codes : list (Z * Z) :=
  map (fun i => (i, 0)) (range 0 16) ++
  [(16, 1); (18, 1); (20, 1); (22, 1); (24, 2); (28, 2); (32, 3); (40, 3); (48, 4); (64, 6); (128, 7); (256, 8);
   (512, 9); (1024, 10); (2048, 11); (4096, 12); (8192, 13); (16384, 14); (32768, 15); (65536, 16)].
Definition ML_codes : list (Z * Z) :=
  map (fun i => (i + 3, 0)) (range 0 32) ++
  [(35, 1); (37, 1); (39, 1); (41, 1); (43, 2); (47, 2); (51, 3); (59, 3); (67, 4); (83, 4); (99, 5); (131, 7); (259, 8);
   (515, 9); (1027, 10); (2051, 11); (4099, 12); (8195, 13); (16387, 14); (32771, 15); (65539, 16)].

(** What is left to read, the current entries and the history. *)
Record seq_state : Type := { q_left : Z; q_copy : Z; q_length : Z; q_dist : Z; q_r1 : Z; q_r2 : Z; q_r3 : Z }.

Definition code_of (codes : list (Z * Z)) (c : Z) : Z * Z := nth (Z.to_nat c) codes (0, 0).

(** One sequence: (literal length, match length, offset). *)
Definition seq_spec (V : Z) (tables : dectables) (q : seq_state) : option (Z * Z * Z * seq_state) :=
  let N := q_left q in
  let '(bc, bl, bd) := (fse_bits (q_copy q), fse_bits (q_length q), fse_bits (q_dist q)) in
  if N <? bc + bl + bd then None
  else
  let ec := entry_at (copy_table tables) (bitfield V N bc + fse_base (q_copy q)) in
  let el := entry_at (length_table tables) (bitfield V (N - bc) bl + fse_base (q_length q)) in
  let ed := entry_at (dist_table tables) (bitfield V (N - bc - bl) bd + fse_base (q_dist q)) in
  let N := N - (bc + bl + bd) in
  let '(ll, llx) := code_of LL_codes (fse_sym ec) in
  let '(ml, mlx) := code_of ML_codes (fse_sym el) in
  let ofx := fse_sym ed in
  if N <? ofx + mlx + llx then None
  else
  let dist := 2 ^ ofx + bitfield V N ofx in
  let length := ml + bitfield V (N - ofx) mlx in
  let copy := ll + bitfield V (N - ofx - mlx) llx in
  match rep_offset (q_r1 q) (q_r2 q) (q_r3 q) copy dist with
  | None => None
  | Some (off, r2, r3) =>
      Some (copy, length, off, {| q_left := N - (ofx + mlx + llx); q_copy := ec; q_length := el; q_dist := ed;
                                  q_r1 := off; q_r2 := r2; q_r3 := r3 |})
  end.

Fixpoint seqs_spec (n : nat) (V : Z) (tables : dectables) (q : seq_state) : option (list (Z * Z * Z) * seq_state) :=
  match n with
  | O => Some ([], q)
  | S n =>
      match seq_spec V tables q with
      | None => None
      | Some (c, l, o, q) =>
          match seqs_spec n V tables q with None => None | Some (r, q) => Some ((c, l, o) :: r, q) end
      end
  end.

(** The whole bit stream: initial states, [n] sequences, nothing left over. *)
Definition sequences_spec (n : nat) (S : list Z) (tables : dectables) : option (list (Z * Z * Z) * (Z * Z * Z)) :=
  match list.last S with
  | None => None
  | Some b =>
      if b =? 0 then None
      else
      let N := 8 * (zlen S - 1) + Z.log2 b in
      let V := le_val S in
      let '(bc, bd, bl) := (copy_log tables, dist_log tables, length_log tables) in
      if N <? bc + bd + bl then None
      else
      match seqs_spec n V tables {| q_left := N - (bc + bd + bl);
          q_copy := Z.shiftl (bitfield V N bc) 11; q_dist := Z.shiftl (bitfield V (N - bc) bd) 11;
          q_length := Z.shiftl (bitfield V (N - bc - bd) bl) 11;
          q_r1 := t_dist1 tables; q_r2 := t_dist2 tables; q_r3 := t_dist3 tables |} with
      | None => None
      | Some (l, q) => if q_left q =? 0 then Some (l, (q_r1 q, q_r2 q, q_r3 q)) else None
      end
  end.

(** The three steps of the code. *)
Definition run_sequences (refill : mem -> Z -> Z -> seq_buf -> res (option seq_buf)) (n : nat) (m : mem) (start end_ : Z)
    (tables : dectables) : res (option (list Z * dectables)) :=
  o ← init_sequences refill m start end_ tables;
  match o with
  | None => Ok None
  | Some s =>
      o ← decode_sequences refill n m start tables s;
      match o with
      | None => Ok None
      | Some (s, l) =>
          match finish_sequences s start tables with None => Ok None | Some t => Ok (Some (l, t)) end
      end
  end.

(** Tables whose entries stay inside of them, with known codes; offset codes
    above 25 need more bits at once than the buffer guarantees. *)
Definition entries_ok (log max_sym : Z) (table : list Z) : Prop :=
  0 <= log <= 9 /\ 2 ^ log <= zlen table /\
  forall i, 0 <= i < 2 ^ log -> let e := entry_at table i in
    0 <= e < 2 ^ 32 /\ 0 <= fse_sym e <= max_sym /\ fse_bits e <= 9 /\ fse_base e + 2 ^ fse_bits e <= 2 ^ log.

Record seq_tables_ok (t : dectables) : Prop := {
  st_copy : entries_ok (copy_log t) 35 (copy_table t);
  st_length : entries_ok (length_log t) 52 (length_table t);
  st_dist : entries_ok (dist_log t) 25 (dist_table t);
  st_d1 : 1 <= t_dist1 t <= 2 ^ 30;
  st_d2 : 1 <= t_dist2 t <= 2 ^ 30;
  st_d3 : 1 <= t_dist3 t <= 2 ^ 30;
}.

(** ** The history *)
Lemma pack_dist_ok r1 r2 r3 copy dist : 1 <= r1 < 2 ^ 32 -> 1 <= dist < 2 ^ 32 ->
  pack_dist r1 r2 r3 copy dist = Ok (rep_offset r1 r2 r3 copy dist).
Proof.
  intros Hr Hd. unfold pack_dist, rep_offset, check. destruct (Z.ltb_spec 3 dist) as [Hgt | Hle].
  - cbn [mbind res_bind]. rewrite u32_small by lia. assert ((dist - 3 =? 0) = false) as -> by zb. done.
  - rewrite (u32_small (r1 - 1)) by lia. set (y := r1 - 1). clearbody y.
    assert (dist = 1 \/ dist = 2 \/ dist = 3) as [-> | [-> | ->]] by lia; destruct (copy =? 0); cbn; by destruct r1, r2, r3, y.
Qed.

(** ** Packing *)
Lemma pack_fields copy length dist : 0 <= copy < 2 ^ 17 -> 0 <= length < 2 ^ 17 -> 1 <= dist <= 2 ^ 30 ->
  let v := Z.lor (Z.lor copy (Z.shiftl length 17)) (u64 (Z.shiftl (dist - 1) 34)) in
  seq_copy v = copy /\ seq_length v = length + 3 /\ seq_dist v = dist.
Proof.
  intros Hc Hl Hd v. assert (v = copy + length * 2 ^ 17 + (dist - 1) * 2 ^ 34) as Hv.
  { unfold v. rewrite u64_small by (rewrite Z.shiftl_mul_pow2 by lia; lia).
    rewrite (lor_shiftl_add copy) by lia. rewrite lor_shiftl_add by lia. done. }
  unfold seq_copy, seq_length, seq_dist. rewrite Hv. rewrite !(land_mod _ 17 0x1ffff) by (done || lia). rewrite !Z.shiftr_div_pow2 by lia.
  change (2 ^ 17) with 131072 in *. change (2 ^ 34) with 17179869184 in *.
  assert ((copy + length * 131072 + (dist - 1) * 17179869184) mod 131072 = copy) as -> by dlia.
  assert ((copy + length * 131072 + (dist - 1) * 17179869184) / 131072 mod 131072 = length) as -> by dlia.
  assert ((copy + length * 131072 + (dist - 1) * 17179869184) / 17179869184 = dist - 1) as -> by dlia.
  rewrite (u32_small length), (u32_small copy) by lia. rewrite !u32_small by lia. split_and!; lia.
Qed.

(** The constant tables of the code against those of the format. *)
Lemma ctable_copy_ok c : 0 <= c <= 35 -> let '(b, x) := code_of LL_codes c in
  exists v, geti ctable_copy c = Ok v /\ Z.land v 0xffffff = b /\ Z.shiftr v 24 = x /\ 0 <= b < 2 ^ 17 /\ 0 <= x <= 16 /\ b + 2 ^ x <= 2 ^ 17.
Proof.
  intros Hc. assert (forallb (fun c => let '(b, x) := code_of LL_codes c in
      match geti ctable_copy c with Ok v => (Z.land v 0xffffff =? b) && (Z.shiftr v 24 =? x) && (0 <=? b) && (b <? 2 ^ 17) && (0 <=? x) && (x <=? 16) && (b + 2 ^ x <=? 2 ^ 17)
      | _ => false end) (range 0 36) = true) as H by (vm_compute; reflexivity).
  rewrite forallb_forall in H. specialize (H c (proj1 (list_elem_of_In _ _) (proj2 (range_elem 0 36 c) ltac:(lia)))).
  destruct (code_of LL_codes c) as [b x]. destruct (geti ctable_copy c) as [v|]; [| done]. exists v. split; [done |]. lia.
Qed.

Lemma ctable_length_ok c : 0 <= c <= 52 -> let '(b, x) := code_of ML_codes c in
  exists v, geti ctable_length c = Ok v /\ Z.land v 0xffffff = b - 3 /\ Z.shiftr v 24 = x /\ 3 <= b < 2 ^ 17 /\ 0 <= x <= 16 /\ b - 3 + 2 ^ x <= 2 ^ 17.
Proof.
  intros Hc. assert (forallb (fun c => let '(b, x) := code_of ML_codes c in
      match geti ctable_length c with Ok v => (Z.land v 0xffffff =? b - 3) && (Z.shiftr v 24 =? x) && (3 <=? b) && (b <? 2 ^ 17) && (0 <=? x) && (x <=? 16) && (b - 3 + 2 ^ x <=? 2 ^ 17)
      | _ => false end) (range 0 53) = true) as H by (vm_compute; reflexivity).
  rewrite forallb_forall in H. specialize (H c (proj1 (list_elem_of_In _ _) (proj2 (range_elem 0 53 c) ltac:(lia)))).
  destruct (code_of ML_codes c) as [b x]. destruct (geti ctable_length c) as [v|]; [| done]. exists v. split; [done |]. lia.
Qed.

Lemma bitfield_bound V N n : 0 <= n -> 0 <= bitfield V N n < 2 ^ n.
Proof. intros Hn. apply Z.mod_pos_bound. lia. Qed.

(** ** The decoder refines the format *)
Section Refine.
Context (m : mem) (start : Z) (S : list Z) (tables : dectables) (refill : mem -> Z -> Z -> seq_buf -> res (option seq_buf)).
Hypothesis Hrefill : refill_spec m start S refill.
Hypothesis Htab : seq_tables_ok tables.

Let V : Z := le_val S.

Definition entry_ok (log e : Z) : Prop :=
  0 <= fse_bits e <= 9 /\ 0 <= fse_base e /\ fse_base e + 2 ^ fse_bits e <= 2 ^ log.

Record srep (s : sequences_state) (q : seq_state) (k : Z) : Prop := {
  sr_buf : sbuf_ok start S (ss_buf s) k;
  sr_left : left_bits (ss_buf s) k = q_left q;
  sr_copy : entry_copy s = q_copy q /\ entry_ok (copy_log tables) (q_copy q);
  sr_length : entry_length s = q_length q /\ entry_ok (length_log tables) (q_length q);
  sr_dist : entry_dist s = q_dist q /\ entry_ok (dist_log tables) (q_dist q);
  sr_reps : ss_dist1 s = q_r1 q /\ ss_dist2 s = q_r2 q /\ ss_dist3 s = q_r3 q;
  sr_bounds : 1 <= q_r1 q <= 2 ^ 30 /\ 1 <= q_r2 q <= 2 ^ 30 /\ 1 <= q_r3 q <= 2 ^ 30;
}.

Lemma table_step log max_sym table e x : entries_ok log max_sym table -> entry_ok log e -> 0 <= x < 2 ^ fse_bits e ->
  let i := x + fse_base e in
  u32 i = i /\ geti table i = Ok (entry_at table i) /\ entry_ok log (entry_at table i) /\ 0 <= fse_sym (entry_at table i) <= max_sym.
Proof.
  intros (Hlog & Hlen & Hall) (Hb & Hba & Hsum) Hx i. assert (0 <= i < 2 ^ log) as Hi by (unfold i; lia).
  assert (2 ^ log <= 2 ^ 9) by (apply Z.pow_le_mono_r; lia).
  destruct (Hall i Hi) as (He & Hs & Hbb & Hss). split; [apply u32_small; lia |].
  split; [apply geti_nth; lia |]. split; [| done]. split; [| split; [| done]].
  - split; [| done]. unfold fse_bits. apply Z.land_nonneg. lia.
  - unfold fse_base. apply Z.shiftr_nonneg. lia.
Qed.

Lemma rep_offset_bounds r1 r2 r3 copy dist off r2' r3' : 1 <= r1 <= 2 ^ 30 -> 1 <= r2 <= 2 ^ 30 -> 1 <= r3 <= 2 ^ 30 ->
  1 <= dist <= 2 ^ 30 -> rep_offset r1 r2 r3 copy dist = Some (off, r2', r3') ->
  1 <= off <= 2 ^ 30 /\ 1 <= r2' <= 2 ^ 30 /\ 1 <= r3' <= 2 ^ 30.
Proof.
  intros H1 H2 H3 Hd. unfold rep_offset. set (idx := dist - 1 + _).
  destruct (Z.ltb_spec 3 dist); [destruct (Z.eqb_spec (dist - 3) 0); [done |]; intros [= <- <- <-]; lia |].
  destruct (Z.eqb_spec idx 0); [destruct (Z.eqb_spec r1 0); [done |]; intros [= <- <- <-]; lia |].
  destruct (Z.eqb_spec idx 1); [destruct (Z.eqb_spec r2 0); [done |]; intros [= <- <- <-]; lia |].
  destruct (Z.eqb_spec idx 2); [destruct (Z.eqb_spec r3 0); [done |]; intros [= <- <- <-]; lia |].
  destruct (Z.eqb_spec (r1 - 1) 0); [done |]. intros [= <- <- <-]. lia.
Qed.

Lemma decode_sequence_ok s q k : srep s q k ->
  match seq_spec V tables q with
  | None => decode_sequence refill m start tables s = Ok None
  | Some (c, l, o, q') => exists s' v k', decode_sequence refill m start tables s = Ok (Some (s', v)) /\ srep s' q' k' /\
      seq_copy v = c /\ seq_length v = l /\ seq_dist v = o /\ 1 <= o
  end.
Proof.
  intros [Hb Hl [Hc Hec] [Hle Hel] [Hd Hed] (Hr1 & Hr2 & Hr3) (Hb1 & Hb2 & Hb3)]. unfold seq_spec, decode_sequence.
  destruct Htab as [Tc Tl Td _ _ _]. rewrite Hc, Hle, Hd. fold (fse_bits (q_copy q)) (fse_bits (q_length q)) (fse_bits (q_dist q)).
  set (bc := fse_bits (q_copy q)) in *. set (bl := fse_bits (q_length q)) in *. set (bd := fse_bits (q_dist q)) in *.
  assert (0 <= bc <= 9 /\ 0 <= bl <= 9 /\ 0 <= bd <= 9) as Hbits by (split_and!; [apply Hec | apply Hec | apply Hel | apply Hel | apply Hed | apply Hed]).
  pose proof (decode3_ok m start S refill (ss_buf s) k bc bl bd Hrefill Hb ltac:(lia) ltac:(lia) ltac:(lia) ltac:(lia)) as Hd3.
  cbv zeta in Hd3. rewrite Hl in Hd3. fold V in Hd3. set (N := q_left q) in *.
  destruct (Z.leb_spec (bc + bl + bd) N) as [Hle1 | Hgt1].
  2: { assert ((N <? bc + bl + bd) = true) as -> by zb. by rewrite Hd3. }
  assert ((N <? bc + bl + bd) = false) as -> by zb. destruct Hd3 as (b1 & k1 & -> & Hb1' & Hl1). cbn [mbind res_bind].
  destruct (table_step _ _ _ (q_copy q) (bitfield V N bc) Tc Hec (bitfield_bound V N bc ltac:(lia))) as (-> & -> & Hec' & Hsc).
  destruct (table_step _ _ _ (q_length q) (bitfield V (N - bc) bl) Tl Hel (bitfield_bound V _ bl ltac:(lia))) as (-> & -> & Hel' & Hsl).
  destruct (table_step _ _ _ (q_dist q) (bitfield V (N - bc - bl) bd) Td Hed (bitfield_bound V _ bd ltac:(lia))) as (-> & -> & Hed' & Hsd).
  cbn [mbind res_bind]. set (ec := entry_at (copy_table tables) _) in *. set (el := entry_at (length_table tables) _) in *.
  set (ed := entry_at (dist_table tables) _) in *. fold (fse_sym ec) (fse_sym el) (fse_sym ed).
  pose proof (ctable_copy_ok (fse_sym ec) Hsc) as Hcc. destruct (code_of LL_codes (fse_sym ec)) as [ll llx].
  pose proof (ctable_length_ok (fse_sym el) Hsl) as Hcl. destruct (code_of ML_codes (fse_sym el)) as [ml mlx].
  destruct Hcc as (vc & -> & Hvc & Hxc & Hllb & Hllx & Hllm). destruct Hcl as (vl & -> & Hvl & Hxl & Hmlb & Hmlx & Hmlm).
  cbn [mbind res_bind]. rewrite Hxc, Hxl, Hvc, Hvl. set (ofx := fse_sym ed) in *. set (N1 := N - (bc + bl + bd)) in *.
  pose proof (decode3_ok m start S refill b1 k1 ofx mlx llx Hrefill Hb1' ltac:(lia) ltac:(lia) ltac:(lia) ltac:(lia)) as Hd3.
  cbv zeta in Hd3. rewrite Hl1 in Hd3. fold V in Hd3. destruct (Z.leb_spec (ofx + mlx + llx) N1) as [Hle2 | Hgt2].
  2: { assert ((N1 <? ofx + mlx + llx) = true) as -> by zb. by rewrite Hd3. }
  assert ((N1 <? ofx + mlx + llx) = false) as -> by zb. destruct Hd3 as (b2 & k2 & -> & Hb2' & Hl2). cbn [mbind res_bind].
  pose proof (bitfield_bound V N1 ofx ltac:(lia)) as Bd. pose proof (bitfield_bound V (N1 - ofx) mlx ltac:(lia)) as Bl.
  pose proof (bitfield_bound V (N1 - ofx - mlx) llx ltac:(lia)) as Bc.
  assert (0 < 2 ^ ofx <= 2 ^ 25) as Hofx by (split; [apply Z.pow_pos_nonneg; lia | apply Z.pow_le_mono_r; lia]).
  rewrite Z.shiftl_1_l, (u32_small (2 ^ ofx)) by lia. rewrite !u32_small by lia.
  set (dist := bitfield V N1 ofx + 2 ^ ofx). replace (2 ^ ofx + bitfield V N1 ofx) with dist by (unfold dist; lia).
  set (copy := bitfield V (N1 - ofx - mlx) llx + ll). replace (ll + bitfield V (N1 - ofx - mlx) llx) with copy by (unfold copy; lia).
  set (len := bitfield V (N1 - ofx) mlx + (ml - 3)). replace (ml + bitfield V (N1 - ofx) mlx) with (len + 3) by (unfold len; lia).
  unfold pack_sequence. cbn [ss_dist1 ss_dist2 ss_dist3]. rewrite Hr1, Hr2, Hr3. rewrite pack_dist_ok by (unfold dist; lia). cbn [mbind res_bind].
  destruct (rep_offset (q_r1 q) (q_r2 q) (q_r3 q) copy dist) as [[[off r2'] r3']|] eqn:Hrep; [| done].
  destruct (rep_offset_bounds _ _ _ copy dist _ _ _ Hb1 Hb2 Hb3 ltac:(unfold dist; lia) Hrep) as (Ho & Hr2b & Hr3b).
  rewrite c_assert_true by (apply andb_true_iff; split; zb || (unfold copy, len; zb)). cbn [mbind res_bind].
  destruct (pack_fields copy len off ltac:(unfold copy; lia) ltac:(unfold len; lia) Ho) as (P1 & P2 & P3).
  eexists _, _, k2. split; [done |]. split; [| split_and!; (done || lia)].
  constructor; cbn [ss_buf q_left entry_copy entry_length entry_dist q_copy q_length q_dist ss_dist1 ss_dist2 ss_dist3 q_r1 q_r2 q_r3]; done.
Qed.

Lemma decode_sequences_ok n s q k : (0 < n)%nat -> srep s q k ->
  match seqs_spec n V tables q with
  | None => decode_sequences refill n m start tables s = Ok None
  | Some (l, q') => exists s' vs k', decode_sequences refill n m start tables s = Ok (Some (s', vs)) /\ srep s' q' k' /\
      map (fun v => (seq_copy v, seq_length v, seq_dist v)) vs = l /\ Forall (fun v => 1 <= seq_dist v) vs
  end.
Proof.
  intros Hn. revert s q k. induction n as [|n IH]; [lia |]. intros s q k Hs; cbn [seqs_spec decode_sequences].
  pose proof (decode_sequence_ok s q k Hs) as H1. destruct (seq_spec V tables q) as [[[[c l] o] q1]|]; [| by rewrite H1].
  destruct H1 as (s1 & v & k1 & -> & Hs1 & Hc & Hl & Ho & Ho1). cbn [mbind res_bind].
  destruct n as [| n].
  { cbn [seqs_spec]. exists s1, [v], k1. split_and!; [done | done | cbn [map]; by rewrite Hc, Hl, Ho | constructor; [lia | done]]. }
  pose proof (IH ltac:(lia) s1 q1 k1 Hs1) as H2. destruct (seqs_spec (Datatypes.S n) V tables q1) as [[r q2]|]; [| by rewrite H2].
  destruct H2 as (s2 & vs & k2 & -> & Hs2 & Hm & Hf). cbn [mbind res_bind]. exists s2, (v :: vs), k2. split_and!; [done | done | |].
  - cbn [map]. by rewrite Hm, Hc, Hl, Ho.
  - constructor; [lia | done].
Qed.
End Refine.

Lemma initial_entry log st : 0 <= log <= 9 -> 0 <= st < 2 ^ log ->
  u32 (Z.shiftl st 11) = Z.shiftl st 11 /\ entry_ok log (Z.shiftl st 11).
Proof.
  intros Hl Hs. assert (2 ^ log <= 2 ^ 9) by (apply Z.pow_le_mono_r; lia). rewrite Z.shiftl_mul_pow2 by lia.
  split; [apply u32_small; lia |]. unfold entry_ok, fse_bits, fse_base. rewrite (land_mod _ 5 31) by (done || lia).
  rewrite Z.shiftr_div_pow2, Z.div_mul by lia. replace ((st * 2 ^ 11) mod 2 ^ 5) with 0; [lia |].
  symmetry. change (2 ^ 11) with (2 ^ 6 * 2 ^ 5). rewrite Z.mul_assoc. apply Z.mod_mul. lia.
Qed.

Lemma init_sequences_ok m start S tables refill : mem_ok m -> bytes_at m start S -> refill_spec m start S refill -> seq_tables_ok tables ->
  forall b, list.last S = Some b -> b <> 0 ->
  let N := 8 * (zlen S - 1) + Z.log2 b in let V := le_val S in
  let '(bc, bd, bl) := (copy_log tables, dist_log tables, length_log tables) in
  if N <? bc + bd + bl then init_sequences refill m start (start + zlen S) tables = Ok None
  else exists s k, init_sequences refill m start (start + zlen S) tables = Ok (Some s) /\
    srep start S tables s {| q_left := N - (bc + bd + bl);
          q_copy := Z.shiftl (bitfield V N bc) 11; q_dist := Z.shiftl (bitfield V (N - bc) bd) 11;
          q_length := Z.shiftl (bitfield V (N - bc - bd) bl) 11;
          q_r1 := t_dist1 tables; q_r2 := t_dist2 tables; q_r3 := t_dist3 tables |} k.
Proof.
  intros Hok HS Href Htab b Hlast Hb0 N V. pose proof Htab as [(Lc & _ & _) (Ll & _ & _) (Ld & _ & _) H1 H2 H3].
  apply last_removelast in Hlast as HSe. set (R := removelast S) in *.
  assert (length S = length R + 1)%nat as HlS by (rewrite HSe at 1; rewrite length_app; done).
  assert (is_byte b /\ m !! (start + zlen R) = Some b) as [Hbyte Hm].
  { pose proof HS as HS'. rewrite HSe in HS'. apply bytes_at_app in HS' as [_ HS']. apply bytes_at_cons in HS' as [Hm _].
    split; [by eapply Hok | done]. }
  unfold is_byte in Hbyte. unfold init_sequences, check.
  assert ((1 <=? start + zlen S - start) = true) as -> by zb. replace (start + zlen S - 1) with (start + zlen R) by lia.
  rewrite (ld8_eq _ _ _ Hm). cbn [mbind res_bind]. assert ((b =? 0) = false) as -> by zb. cbn [negb].
  assert (0 <= Z.log2 b < 8) as Hlg by (split; [apply Z.log2_nonneg | apply Z.log2_lt_pow2; lia]).
  assert (u32 (clz32 1 - clz32 b) = Z.log2 b) as -> by (unfold clz32; change (Z.log2 1) with 0; rewrite u32_small; lia).
  set (b0 := {| sb_bits := b; sb_num := Z.log2 b; sb_ptr := start + zlen R |}).
  assert (sbuf_ok start S b0 (zlen R)) as Hb0ok.
  { constructor; cbn [sb_ptr sb_num sb_bits b0]; try lia. f_equal. rewrite (V_drop m start S Hok HS) by lia.
    rewrite Nat2Z.id, HSe, drop_app_length. cbn [le_val]. lia. }
  destruct (seq_fill_ok m start S Hok HS 9 b0 (zlen R) Hb0ok ltac:(cbn; lia)) as (b1 & k1 & -> & Hb1 & Hl1 & _). cbn [mbind res_bind].
  pose proof (decode3_ok m start S refill b1 k1 (copy_log tables) (dist_log tables) (length_log tables) Href Hb1
    ltac:(lia) ltac:(lia) ltac:(lia) ltac:(lia)) as Hd3. cbv zeta in Hd3.
  assert (left_bits b1 k1 = N) as HN by (rewrite Hl1; unfold left_bits, N; cbn; lia). rewrite HN in Hd3. fold V in Hd3.
  destruct (Z.leb_spec (copy_log tables + dist_log tables + length_log tables) N) as [Hle | Hgt].
  2: { assert ((N <? copy_log tables + dist_log tables + length_log tables) = true) as -> by zb. by rewrite Hd3. }
  assert ((N <? copy_log tables + dist_log tables + length_log tables) = false) as -> by zb.
  destruct Hd3 as (b2 & k2 & -> & Hb2 & Hl2). cbn [mbind res_bind].
  destruct (initial_entry (copy_log tables) (bitfield V N (copy_log tables))) as [-> Ec]; [lia | apply bitfield_bound; lia |].
  destruct (initial_entry (dist_log tables) (bitfield V (N - copy_log tables) (dist_log tables))) as [-> Ed]; [lia | apply bitfield_bound; lia |].
  destruct (initial_entry (length_log tables) (bitfield V (N - copy_log tables - dist_log tables) (length_log tables))) as [-> El]; [lia | apply bitfield_bound; lia |].
  rewrite !u32_small by lia. eexists _, k2. split; [done |].
  constructor; cbn [ss_buf q_left entry_copy entry_length entry_dist q_copy q_length q_dist ss_dist1 ss_dist2 ss_dist3 q_r1 q_r2 q_r3]; done.
Qed.

Lemma init_sequences_zero m start S tables refill : bytes_at m start S -> list.last S = Some 0 ->
  init_sequences refill m start (start + zlen S) tables = Ok None.
Proof.
  intros HS Hlast. apply last_removelast in Hlast as HSe. set (R := removelast S) in *. rewrite HSe in HS |- *.
  apply bytes_at_app in HS as [_ HS]. apply bytes_at_cons in HS as [Hm _]. unfold init_sequences, check. rewrite length_app. cbn [length].
  assert ((1 <=? start + Z.of_nat (length R + 1) - start) = true) as -> by zb.
  replace (start + Z.of_nat (length R + 1) - 1) with (start + zlen R) by lia. by rewrite (ld8_eq _ _ _ Hm).
Qed.

Lemma finish_sequences_ok start S tables s q k : srep start S tables s q k ->
  finish_sequences s start tables = if q_left q =? 0 then Some (set_dists (q_r1 q) (q_r2 q) (q_r3 q) tables) else None.
Proof.
  intros [Hb Hl _ _ _ (Hr1 & Hr2 & Hr3) _]. unfold finish_sequences.
  pose proof Hb as [Hk Hp Hn _ _]. unfold left_bits in Hl. rewrite Hp, Hr1, Hr2, Hr3.
  destruct (Z.eqb_spec (q_left q) 0) as [Hz | Hnz].
  - assert ((sb_num (ss_buf s) =? 0) = true) as -> by zb. by assert ((start + k =? start) = true) as -> by zb.
  - replace ((sb_num (ss_buf s) =? 0) && (start + k =? start)) with false; [done |].
    symmetry. apply andb_false_iff. destruct (Z.eqb_spec (sb_num (ss_buf s)) 0); [right; zb | by left].
Qed.

(** C38: The sequence decoder implements the sequence section of RFC 8878.  For
    every bit stream, every positive number of sequences and all FSE tables that
    are well formed and hold no offset codes above 25, [init_sequences], [decode_sequences] and [finish_sequences]
    succeed exactly when the stream consists of the three initial states and
    that many sequences with nothing left over, and then deliver their literal
    lengths, match lengths and offsets (through the history of repeated
    offsets) and the new history.  This holds for the refill by one unaligned
    load and for the portable one; no access leaves the stream or its first 8
    bytes.  The code admits offset codes up to 28 (offsets of 64 MiB and more);
    [offset_code_28_fails] shows a valid stream with such a code that is
    rejected. *)
Theorem zstd_sequences_correct refill n m start S tables : (0 < n)%nat ->
  mem_ok m -> bytes_at m start S -> accessible m start 8 ->
  seq_tables_ok tables -> refill = seq_refill \/ refill = seq_refill_portable ->
  match sequences_spec n S tables with
  | None => run_sequences refill n m start (start + zlen S) tables = Ok None
  | Some (l, (r1, r2, r3)) => exists vs, run_sequences refill n m start (start + zlen S) tables = Ok (Some (vs, set_dists r1 r2 r3 tables)) /\
      map (fun v => (seq_copy v, seq_length v, seq_dist v)) vs = l
  end.
Proof.
  intros Hn Hok HS H8 Htab Hor.
  assert (refill_spec m start S refill) as Href by (destruct Hor as [-> | ->]; [by apply load_refill_ok | by apply portable_refill_ok]).
  unfold sequences_spec, run_sequences. destruct (list.last S) as [b|] eqn:Hlast.
  2: { apply last_None in Hlast as ->. unfold init_sequences, check. assert ((1 <=? start + zlen (@nil Z) - start) = false) as -> by (cbn; zb). done. }
  destruct (Z.eqb_spec b 0) as [-> | Hne].
  { by rewrite (init_sequences_zero m start S tables refill HS Hlast). }
  pose proof (init_sequences_ok m start S tables refill Hok HS Href Htab b Hlast Hne) as Hinit. cbv zeta beta iota in Hinit |- *.
  set (N := 8 * (zlen S - 1) + Z.log2 b) in *. destruct (N <? _); [by rewrite Hinit |].
  destruct Hinit as (s & k & -> & Hs). cbn [mbind res_bind].
  pose proof (decode_sequences_ok m start S tables refill Href Htab n s _ k Hn Hs) as Hdec.
  destruct (seqs_spec n (le_val S) tables _) as [[l q]|]; [| by rewrite Hdec].
  destruct Hdec as (s' & vs & k' & -> & Hs' & Hm & _). cbn [mbind res_bind]. rewrite (finish_sequences_ok _ _ _ _ _ _ Hs').
  destruct (q_left q =? 0); [by exists vs | done].
Qed.

(** One sequence with tables of a single code: one literal, a match of length 3
    at offset 2. *)
Definition demo_seq_tables : dectables :=
  {| huff_depth := 0; copy_log := 0; length_log := 0; dist_log := 0; t_dist1 := 1; t_dist2 := 4; t_dist3 := 8;
     huff_table := []; copy_table := [32]; length_table := [0]; dist_table := [64] |}.

Lemma demo_entries_ok sym max_sym : 0 <= sym <= max_sym -> max_sym < 64 -> entries_ok 0 max_sym [sym * 32].
Proof.
  intros Hs Hm. split; [lia |]. split; [cbn; lia |]. intros i Hi. assert (i = 0) as -> by lia. cbn zeta.
  destruct (entry_fields 0 sym 0) as (E1 & E2 & E3); [lia | lia | lia |]. change (u32 (Z.shiftl 0 11)) with 0 in *.
  rewrite Z.lor_0_r, Z.lor_0_l, Z.shiftl_mul_pow2 in E1, E2, E3 by lia. change (2 ^ 5) with 32 in *.
  change (entry_at [sym * 32] 0) with (sym * 32). rewrite E1, E2, E3. lia.
Qed.

Lemma demo_seq_tables_ok : seq_tables_ok demo_seq_tables.
Proof.
  constructor; cbn; try lia; [exact (demo_entries_ok 1 35 ltac:(lia) ltac:(lia)) | exact (demo_entries_ok 0 52 ltac:(lia) ltac:(lia))
    | exact (demo_entries_ok 2 25 ltac:(lia) ltac:(lia))].
Qed.

Lemma zstd_sequences_correct_witness :
  exists vs, run_sequences seq_refill 1 (mem_of 0 [5; 0; 0; 0; 0; 0; 0; 0]) 0 1 demo_seq_tables
    = Ok (Some (vs, set_dists 2 1 4 demo_seq_tables)) /\ map (fun v => (seq_copy v, seq_length v, seq_dist v)) vs = [(1, 3, 2)].
Proof.
  refine (zstd_sequences_correct seq_refill 1 (mem_of 0 [5; 0; 0; 0; 0; 0; 0; 0]) 0 [5] demo_seq_tables _ _ _ _ _ _).
  - lia.
  - apply mem_of_ok, bytes_ok. reflexivity.
  - exact (mem_of_sub 0 [] [5] [0; 0; 0; 0; 0; 0; 0] 0 eq_refl).
  - apply mem_of_accessible; discriminate.
  - exact demo_seq_tables_ok.
  - left. reflexivity.
Defined.

(** Three sequences with the literal length code 34, the match length code 52
    and the offset code 28, which need 59 bits at once: the format defines them
    and the portable refill reads them, but the refill by one load guarantees no
    more than 57 bits and rejects the stream. *)
Definition wide_tables : dectables :=
  {| huff_depth := 0; copy_log := 0; length_log := 0; dist_log := 0; t_dist1 := 1; t_dist2 := 4; t_dist3 := 8;
     huff_table := []; copy_table := [34 * 32]; length_table := [52 * 32]; dist_table := [28 * 32] |}.
Definition wide_stream : list Z := replicate 22 0 ++ [2].

Lemma offset_code_28_fails :
  sequences_spec 3 wide_stream wide_tables
    = Some (replicate 3 (2 ^ 15, 2 ^ 16 + 3, 2 ^ 28 - 3), (2 ^ 28 - 3, 2 ^ 28 - 3, 2 ^ 28 - 3)) /\
  run_sequences seq_refill 3 (mem_of 0 wide_stream) 0 23 wide_tables = Ok None /\
  run_sequences seq_refill_portable 3 (mem_of 0 wide_stream) 0 23 wide_tables <> Ok None.
Proof. vm_compute. done. Qed.
