(* ===== verification/ZstdBlock.v ===== *)
(** * Compressed blocks of zstd ([src/compression/zstd.c])

    The set-up of the decoding tables of a block, the choice of the literals
    decoder, and the execution of sequences.  Literals, sequences and entropy
    tables are in their own files, frames in [ZstdFrame]. *)
From S2P Require Export ZstdSequences.

(** ** Entropy tables of a block *)
Definition Predefined_Mode : Z := 0.
Definition RLE_Mode : Z := 1.
Definition FSE_Compressed_Mode : Z := 2.
Definition Repeat_Mode : Z := 3.
Definition TABLE_NOT_AVAILABLE : Z := 255.

(** [title] is only used in messages. *)
Record table_settings : Type := { ts_log : Z; ts_sym : Z; ts_max_log : Z; ts_predef_distr : list Z }.

Definition length_settings : table_settings :=
  {| ts_log := 6; ts_max_log := 9; ts_sym := 53;
     ts_predef_distr :=
       [1; 4; 3; 2;  2; 2; 2; 2;
        2; 1; 1; 1;  1; 1; 1; 1;
        1; 1; 1; 1;  1; 1; 1; 1;
        1; 1; 1; 1;  1; 1; 1; 1;
        1; 1; 1; 1;  1; 1; 1; 1;
        1; 1; 1; 1;  1; 1; 0; 0;
        0; 0; 0; 0;  0] |}.

Definition copy_settings : table_settings :=
  {| ts_log := 6; ts_max_log := 9; ts_sym := 36;
     ts_predef_distr :=
       [4; 3; 2; 2;  2; 2; 2; 2;
        2; 2; 2; 2;  2; 1; 1; 1;
        2; 2; 2; 2;  2; 2; 2; 2;
        2; 3; 2; 1;  1; 1; 1; 1;
        0; 0; 0; 0] |}.

Definition dist_settings : table_settings :=
  {| ts_log := 5; ts_max_log := 8; ts_sym := 29;
     ts_predef_distr :=
       [1; 1; 1; 1;  1; 1; 2; 2;
        2; 1; 1; 1;  1; 1; 1; 1;
        1; 1; 1; 1;  1; 1; 1; 1;
        0; 0; 0; 0;  0] |}.

(** Local arrays start uninitialized: [weights] of [handle_decoding_table] and
    the arrays of the callees. *)
Record block_junk : Type := { b_weights : list Z; b_cols : fse_cols; b_tree : tree_junk }.

(** [for_range(i, 0, settings->sym)] *)
Definition predef_weight (settings : table_settings) (weights : list Z) (i : Z) : res (list Z) :=
  w ← geti (ts_predef_distr settings) i;
  seti weights i (if w =? 0 then 0 else w + 1).

(** Returns the position after the table description, [*log] and [table]. *)
Definition handle_decoding_table (junk : block_junk) (m : mem) (in_ end_ mode log : Z) (table : list Z)
    (settings : table_settings) : res (option (Z * Z * list Z)) :=
  let build in_ log weights :=
    check (log <=? ts_max_log settings) (
    table ← fse_build_table (b_cols junk) log (ts_sym settings) weights table;
    Ok (Some (in_, log, table))) in
  if mode =? Predefined_Mode then
    weights ← foldM (predef_weight settings) (b_weights junk) (range 0 (ts_sym settings));
    build in_ (ts_log settings) weights
  else if mode =? RLE_Mode then
    check (in_ <? end_) (
    sym ← ld8 m in_;
    let in_ := in_ + 1 in
    check (sym <? ts_sym settings) (
    table ← seti table 0 (Z.shiftl sym 5);
    Ok (Some (in_, 0, table))))
  else if mode =? FSE_Compressed_Mode then
    c_assert (ts_sym settings <=? 64) ;;
    o ← fse_decode_distribution m in_ end_ (ts_sym settings) (b_weights junk);
    match o with
    | None => Ok None
    | Some (in_, log, weights) => build in_ log weights
    end
  else if mode =? Repeat_Mode then
    check (negb (log =? TABLE_NOT_AVAILABLE)) (
    Ok (Some (in_, log, table)))
  else Trap TrapAbort.

(** ** Literals *)
Definition decode_literals (m : mem) (in_ end_ out out_end flags : Z) (tables : dectables) : res (bool * mem) :=
  if flag flags ZSTD_RAW_LITERALS then
    m ← lzcommon_literal_copy m out in_ (out_end - out); Ok (true, m)
  else if flag flags ZSTD_RLE_LITERALS then
    b ← ld8 m in_;
    m ← memset m out b (out_end - out); Ok (true, m)
  else if flag flags ZSTD_1STREAM then
    zstd_decompress_literal_stream m in_ end_ out out_end (huff_table tables)
  else zstd_decode_huff_4streams m in_ end_ out out_end (huff_table tables).

(** ** Compressed blocks *)

(** The output position, the literals that are left, and memory. *)
Record exec_state : Type := { ex_out : Z; ex_lit : Z; ex_size : Z; ex_mem : mem }.

(** The body of [for_range(i, 0, seq_this_round)]: [inl] is an early return. *)
Definition exec_sequence (out_end window_start sequence : Z) (s : exec_state) : res ((Z * mem) + exec_state) :=
  let copy := seq_copy sequence in
  let length := seq_length sequence in
  let dist := seq_dist sequence in
  let '(out, literal_ptr, size, m) := (ex_out s, ex_lit s, ex_size s, ex_mem s) in
  if negb (copy <=? size) then Ok (inl (DECODE_ERR, m))
  else if out_end - out <? u32 (length + size) then Ok (inl (DECODE_NEED_MORE_SPACE, m))
  else
  m ← lzcommon_literal_copy m out literal_ptr copy;
  let out := out + copy in
  let literal_ptr := literal_ptr + copy in
  let size := u32 (size - copy) in
  if negb (dist <=? out - window_start) then Ok (inl (DECODE_ERR, m))
  else
  m ← lzcommon_match_copy m out dist length;
  Ok (inr {| ex_out := out + length; ex_lit := literal_ptr; ex_size := size; ex_mem := m |}).

Fixpoint exec_sequences (out_end window_start : Z) (seqs : list Z) (s : exec_state) : res ((Z * mem) + exec_state) :=
  match seqs with
  | [] => Ok (inr s)
  | sequence :: seqs =>
      r ← exec_sequence out_end window_start sequence s;
      match r with inl e => Ok (inl e) | inr s => exec_sequences out_end window_start seqs s end
  end.

Section Block.
(** The variant of [REFILL], and what the uninitialized local arrays hold. *)
Context (refill : mem -> Z -> Z -> seq_buf -> res (option seq_buf)) (junk : block_junk).

(** [while (num_seq)]: rounds of at most 128 sequences. *)
Fixpoint seq_rounds (fuel : nat) (in_ out_end window_start : Z) (tables : dectables) (num_seq : Z)
    (seqstate : sequences_state) (s : exec_state) : res ((Z * mem) + (sequences_state * exec_state)) :=
  if num_seq =? 0 then Ok (inr (seqstate, s))
  else
  match fuel with
  | O => Trap TrapFuel
  | S fuel =>
      let seq_this_round := if num_seq <? 128 then num_seq else 128 in
      o ← decode_sequences refill (Z.to_nat seq_this_round) (ex_mem s) in_ tables seqstate;
      match o with
      | None => Ok (inl (DECODE_ERR, ex_mem s))
      | Some (seqstate, sequence_buffer) =>
          r ← exec_sequences out_end window_start sequence_buffer s;
          match r with
          | inl e => Ok (inl e)
          | inr s => seq_rounds fuel in_ out_end window_start tables (num_seq - seq_this_round) seqstate s
          end
      end
  end.

(** From [init_sequences] to the end of [decompress_block].  The [memcpy] of
    the last literals may overlap its destination from above, for which the
    forward copy of [src/aarch64/string.S] is as good as a copy through a buffer. *)
Definition block_sequences (m : mem) (in_ end_ out_start out out_end literal_ptr size num_seq window_start : Z)
    (tables : dectables) : res (Z * dectables * mem) :=
  o ← init_sequences refill m in_ end_ tables;
  match o with
  | None => Ok (DECODE_ERR, tables, m)
  | Some seqstate =>
      r ← seq_rounds (Z.to_nat num_seq) in_ out_end window_start tables num_seq seqstate
            {| ex_out := out; ex_lit := literal_ptr; ex_size := size; ex_mem := m |};
      match r with
      | inl (e, m) => Ok (e, tables, m)
      | inr (seqstate, s) =>
          match finish_sequences seqstate in_ tables with
          | None => Ok (DECODE_ERR, tables, ex_mem s)
          | Some tables =>
              m ← memcpy (ex_mem s) (ex_out s) (ex_lit s) (ex_size s);
              Ok (NUM_DECODE_STATUS + (ex_out s + ex_size s - out_start), tables, m)
          end
      end
  end.

(** [Number_of_Sequences]: [in_] is after the first byte. *)
Definition block_num_seq (m : mem) (in_ end_ num_seq : Z) : res (option (Z * Z)) :=
  if 128 <=? num_seq then
    if num_seq =? 255 then
      check (3 <=? end_ - in_) (
      n ← ld16le m in_;
      Ok (Some (in_ + 2, u32 (n + 0x7f00))))
    else
      check (2 <=? end_ - in_) (
      b ← ld8 m in_;
      Ok (Some (in_ + 1, Z.lor (u32 (Z.shiftl (num_seq - 128) 8)) b)))
  else check (1 <=? end_ - in_) (Ok (Some (in_, num_seq))).

Definition set_copy (log : Z) (table : list Z) (t : dectables) : dectables :=
  {| huff_depth := huff_depth t; copy_log := log; length_log := length_log t; dist_log := dist_log t;
     t_dist1 := t_dist1 t; t_dist2 := t_dist2 t; t_dist3 := t_dist3 t; huff_table := huff_table t;
     copy_table := table; length_table := length_table t; dist_table := dist_table t |}.
Definition set_dist (log : Z) (table : list Z) (t : dectables) : dectables :=
  {| huff_depth := huff_depth t; copy_log := copy_log t; length_log := length_log t; dist_log := log;
     t_dist1 := t_dist1 t; t_dist2 := t_dist2 t; t_dist3 := t_dist3 t; huff_table := huff_table t;
     copy_table := copy_table t; length_table := length_table t; dist_table := table |}.
Definition set_length (log : Z) (table : list Z) (t : dectables) : dectables :=
  {| huff_depth := huff_depth t; copy_log := copy_log t; length_log := log; dist_log := dist_log t;
     t_dist1 := t_dist1 t; t_dist2 := t_dist2 t; t_dist3 := t_dist3 t; huff_table := huff_table t;
     copy_table := copy_table t; length_table := table; dist_table := dist_table t |}.

(** The three calls of [handle_decoding_table]. *)
Definition block_tables (m : mem) (in_ end_ scm : Z) (tables : dectables) : res (option Z * dectables) :=
  o ← handle_decoding_table junk m in_ end_ (Z.land (Z.shiftr scm 6) 3) (copy_log tables) (copy_table tables) copy_settings;
  match o with
  | None => Ok (None, tables)
  | Some (in_, log, table) =>
  let tables := set_copy log table tables in
  o ← handle_decoding_table junk m in_ end_ (Z.land (Z.shiftr scm 4) 3) (dist_log tables) (dist_table tables) dist_settings;
  match o with
  | None => Ok (None, tables)
  | Some (in_, log, table) =>
  let tables := set_dist log table tables in
  o ← handle_decoding_table junk m in_ end_ (Z.land (Z.shiftr scm 2) 3) (length_log tables) (length_table tables) length_settings;
  match o with
  | None => Ok (None, tables)
  | Some (in_, log, table) => Ok (Some in_, set_length log table tables)
  end end end.

(** Returns the status, the tables and memory.  When [handle_decoding_table]
    fails it may have changed [*log] already; the block fails then with
    [DECODE_ERR] and the tables are not used any more, so this is left out.
    [DECODE_ERR] is also the value of a null pointer.  A null pointer from [zstd_decode_tree_description] is
    not checked by the code and is address 0 here. *)
Definition decompress_block (m : mem) (in_ end_ out out_end : Z) (tables : dectables) (window_start : Z)
    : res (Z * dectables * mem) :=
  let out_start := out in
  if negb (1 <=? end_ - in_) then Ok (DECODE_ERR, tables, m)
  else
  probe ← zstd_probe_literals m in_ end_;
  lit ← (if negb (flag (lp_flags probe) ZSTD_NO_TREE_DESC_MASK) then
           o ← zstd_decode_tree_description (b_tree junk) m (lp_start probe) (lp_end probe) tables;
           match o with None => Ok (Some (0, tables)) | Some (p, tables) => Ok (Some (p, tables)) end
         else if flag (lp_flags probe) ZSTD_TREELESS then
           if negb (huff_depth tables =? 0) then Ok (Some (lp_start probe, tables)) else Ok None
         else if flag (lp_flags probe) ZSTD_TRUNCATED then Ok None
         else Ok (Some (lp_start probe, tables)));
  match lit with
  | None => Ok (DECODE_ERR, tables, m)
  | Some (literal_start, tables) =>
  let in_ := lp_end probe in
  if out_end - out <? lp_size probe then Ok (DECODE_NEED_MORE_SPACE, tables, m)
  else if negb (1 <=? end_ - in_) then Ok (DECODE_ERR, tables, m)
  else
  num_seq ← ld8 m in_;
  let in_ := in_ + 1 in
  if num_seq =? 0 then
    '(ok, m) ← decode_literals m literal_start (lp_end probe) out (out + lp_size probe) (lp_flags probe) tables;
    if negb ok then Ok (DECODE_ERR, tables, m) else Ok (NUM_DECODE_STATUS + lp_size probe, tables, m)
  else
  '(ok, literal_ptr, m) ←
    (if flag (lp_flags probe) ZSTD_RAW_LITERALS then Ok (true, lp_end probe - lp_size probe, m)
     else
       let ptr := out_end + LZCOMMON_BLOCK - lp_size probe in
       '(ok, m) ← decode_literals m literal_start (lp_end probe) ptr (ptr + lp_size probe) (lp_flags probe) tables;
       Ok (ok, ptr, m));
  if negb ok then Ok (DECODE_ERR, tables, m)
  else
  o ← block_num_seq m in_ end_ num_seq;
  match o with
  | None => Ok (DECODE_ERR, tables, m)
  | Some (in_, num_seq) =>
  scm ← ld8 m in_;
  let in_ := in_ + 1 in
  if negb (scm mod 4 =? 0) then Ok (DECODE_ERR, tables, m)
  else
  '(o, tables) ← block_tables m in_ end_ scm tables;
  match o with
  | None => Ok (DECODE_ERR, tables, m)
  | Some in_ =>
      block_sequences m in_ end_ out_start out out_end literal_ptr (lp_size probe) num_seq window_start tables
  end end end.
End Block.

(** ** Executing sequences

    The reference: a sequence appends literals and then a match; whatever
    literals are left at the end of the block are appended.  [cap] bounds the
    bytes from the start of the window; the code wants room for all literals
    that are left on top of a match. *)
Inductive exec_result : Set := ExecDone (w : list Z) | ExecErr | ExecSpace.

Definition exec_step (cap : Z) (sq : Z * Z * Z) (lits w : list Z) : exec_result + (list Z * list Z) :=
  let '(copy, length, dist) := sq in
  if zlen lits <? copy then inl ExecErr
  else if cap <? zlen w + length + zlen lits then inl ExecSpace
  else
  let w := w ++ take (Z.to_nat copy) lits in
  if zlen w <? dist then inl ExecErr
  else inr (drop (Z.to_nat copy) lits, lz_match (Z.to_nat length) w dist).

Fixpoint exec_steps (cap : Z) (seqs : list (Z * Z * Z)) (lits w : list Z) : exec_result + (list Z * list Z) :=
  match seqs with
  | [] => inr (lits, w)
  | sq :: seqs => match exec_step cap sq lits w with inl e => inl e | inr (lits, w) => exec_steps cap seqs lits w end
  end.

Definition exec_spec (cap : Z) (seqs : list (Z * Z * Z)) (lits w : list Z) : exec_result :=
  match exec_steps cap seqs lits w with inl e => e | inr (lits, w) => ExecDone (w ++ lits) end.

Lemma exec_steps_app cap s1 s2 lits w :
  exec_steps cap (s1 ++ s2) lits w =
  match exec_steps cap s1 lits w with inl e => inl e | inr (lits, w) => exec_steps cap s2 lits w end.
Proof.
  revert lits w. induction s1 as [|sq s1 IH]; intros lits w; [done |]. cbn [app exec_steps].
  destruct (exec_step cap sq lits w) as [e | [l' w']]; [done | apply IH].
Qed.

Lemma exec_steps_not_done cap seqs : forall lits w w', exec_steps cap seqs lits w <> inl (ExecDone w').
Proof.
  induction seqs as [|[[c l] d] seqs IH]; intros lits w w'; cbn [exec_steps]; [done |]. unfold exec_step.
  repeat (destruct (_ <? _); [done |]). apply IH.
Qed.

Lemma seqs_spec_add a b V tables q :
  seqs_spec (a + b) V tables q =
  match seqs_spec a V tables q with
  | None => None
  | Some (l1, q) => match seqs_spec b V tables q with None => None | Some (l2, q) => Some (l1 ++ l2, q) end
  end.
Proof.
  revert q. induction a as [|a IH]; intros q; cbn [Nat.add seqs_spec]; [by destruct (seqs_spec b V tables q) as [[]|] |].
  destruct (seq_spec V tables q) as [[[[c l] o] q1]|]; [| done]. rewrite IH.
  destruct (seqs_spec a V tables q1) as [[l1 q2]|]; [| done]. by destruct (seqs_spec b V tables q2) as [[l2 q3]|].
Qed.

Lemma seq_copy_range v : 0 <= seq_copy v < 2 ^ 17.
Proof.
  unfold seq_copy. rewrite (land_mod v 17 0x1ffff) by (done || lia).
  pose proof (Z.mod_pos_bound v (2 ^ 17) ltac:(lia)). rewrite u32_small by lia. done.
Qed.

Lemma seq_length_range v : 3 <= seq_length v < 2 ^ 17 + 3.
Proof.
  unfold seq_length. rewrite (land_mod _ 17 0x1ffff) by (done || lia).
  pose proof (Z.mod_pos_bound (Z.shiftr v 17) (2 ^ 17) ltac:(lia)). rewrite (u32_small (_ mod _)) by lia. rewrite u32_small by lia. lia.
Qed.

Section Exec.
Context (ws oe : Z).

(** The literals that are left are either outside of the output buffer or at
    its very end, where the output reaches them last. *)
Record exec_inv (m : mem) (w : list Z) (lp : Z) (lits : list Z) : Prop := {
  ei_lz : lz_inv ws (oe - zlen lits) m w lp lits;
  ei_acc : accessible m ws (oe + LZCOMMON_BLOCK - ws);
  ei_top : oe + LZCOMMON_BLOCK <= 2 ^ 64;
}.

Definition exec_at (m : mem) (w : list Z) (lp : Z) (lits : list Z) : exec_state :=
  {| ex_out := ws + zlen w; ex_lit := lp; ex_size := zlen lits; ex_mem := m |}.

(** Copying literals may overwrite literals that were copied before, and the
    ones being copied, but not those that follow. *)
Lemma exec_literals m w lp L1 L2 : exec_inv m w lp (L1 ++ L2) -> ws + zlen w + zlen (L1 ++ L2) <= oe ->
  exists m', lzcommon_literal_copy m (ws + zlen w) lp (zlen L1) = Ok m' /\
    exec_inv m' (w ++ L1) (lp + zlen L1) L2 /\ lz_frame oe m m' (ws + zlen w).
Proof.
  intros [Hlz Hacc Htop] Hroom. pose proof Hlz as [Hok Hw Hi Haw Hai Hd Hp Ho Ht]. unfold LZCOMMON_BLOCK in *. rewrite length_app in *.
  destruct (literal_copy_ok m (ws + zlen w) lp (zlen L1)) as (m' & hi & Hm' & [Hdata Hfr Hdom Hok'] & Hhi); unfold LZCOMMON_BLOCK in *;
    [lia | lia | lia | lia | lia | unfold no_overlap; lia | done | eapply accessible_sub; [exact Hai | lia | lia]
    | eapply accessible_sub; [exact Hacc | lia | lia] |].
  assert (lz_frame oe m m' (ws + zlen w)) as Hfr'.
  { split; [eapply frame_weaken; [exact Hfr | unfold LZCOMMON_BLOCK; lia | unfold LZCOMMON_BLOCK; lia] | done]. }
  exists m'. split; [done |]. split; [| done].
  apply bytes_at_app in Hi as [Hi1 Hi2].
  assert (accessible m' ws (oe + 8 - ws)) as Hacc' by (eapply accessible_same_dom; done).
  constructor; [| done | done]. constructor; unfold LZCOMMON_BLOCK in *; rewrite ?length_app.
  - done.
  - apply bytes_at_app. split; [eapply bytes_at_frame; [exact Hfr | done | lia] |].
    intros i Hlt. rewrite Hdata by lia. rewrite <- Hi1 by lia. f_equal. lia.
  - eapply bytes_at_frame; [exact Hfr | done | lia].
  - eapply accessible_sub; [exact Hacc' | lia | lia].
  - eapply accessible_same_dom; [exact Hdom |]. eapply accessible_sub; [exact Hai | lia | lia].
  - lia.
  - lia.
  - lia.
  - lia.
Qed.

Lemma exec_sequence_ok v m w lp lits : exec_inv m w lp lits -> zlen lits < 2 ^ 31 -> 1 <= seq_dist v ->
  match exec_step (oe - ws) (seq_copy v, seq_length v, seq_dist v) lits w with
  | inr (lits', w') => exists m', let lp' := lp + zlen lits - zlen lits' in
      exec_sequence oe ws v (exec_at m w lp lits) = Ok (inr (exec_at m' w' lp' lits')) /\
      exec_inv m' w' lp' lits' /\ lz_frame oe m m' (ws + zlen w) /\ zlen w <= zlen w' /\ zlen lits' <= zlen lits
  | inl e => exists m', exec_sequence oe ws v (exec_at m w lp lits) =
      Ok (inl (match e with ExecSpace => DECODE_NEED_MORE_SPACE | _ => DECODE_ERR end, m'))
  end.
Proof.
  intros Hinv Hsz Hdist. pose proof (ei_acc _ _ _ _ Hinv) as Hacc. pose proof (ei_top _ _ _ _ Hinv) as Htop. pose proof (seq_copy_range v) as Hc. pose proof (seq_length_range v) as Hl.
  unfold exec_step, exec_sequence, exec_at. cbn [ex_out ex_lit ex_size ex_mem].
  set (c := seq_copy v) in *. set (n := seq_length v) in *. set (d := seq_dist v) in *.
  destruct (Z.ltb_spec (zlen lits) c) as [Hlt | Hge].
  { assert ((c <=? zlen lits) = false) as -> by zb. cbn [negb]. eauto. }
  assert ((c <=? zlen lits) = true) as -> by zb. cbn [negb]. rewrite u32_small by lia.
  destruct (Z.ltb_spec (oe - ws) (zlen w + n + zlen lits)) as [Hlt | Hge2].
  { assert ((oe - (ws + zlen w) <? n + zlen lits) = true) as -> by zb. eauto. }
  assert ((oe - (ws + zlen w) <? n + zlen lits) = false) as -> by zb.
  set (L1 := take (Z.to_nat c) lits). set (L2 := drop (Z.to_nat c) lits).
  assert (lits = L1 ++ L2) as HL by (symmetry; apply take_drop).
  assert (zlen L1 = c) as H1 by (unfold L1; rewrite length_take; lia).
  assert (zlen L2 = zlen lits - c) as H2 by (unfold L2; rewrite length_drop; lia).
  rewrite HL in Hinv. destruct (exec_literals m w lp L1 L2 Hinv) as (m1 & Hm1 & Hinv1 & Hf1); [rewrite <- HL; lia |].
  assert (zlen (L1 ++ L2) = zlen lits) as HlL by (by rewrite <- HL). clear Hinv.
  rewrite H1 in Hm1. rewrite Hm1. cbn [mbind res_bind].
  replace (ws + zlen w + c) with (ws + zlen (w ++ L1)) by (rewrite length_app; lia).
  replace (ws + zlen (w ++ L1) - ws) with (zlen (w ++ L1)) by lia. rewrite length_app, Nat2Z.inj_add, H1.
  destruct (Z.ltb_spec (zlen w + c) d) as [Hfar | Hnear].
  { assert ((d <=? zlen w + c) = false) as -> by zb. cbn [negb]. eauto. }
  assert ((d <=? zlen w + c) = true) as -> by zb. cbn [negb].
  pose proof (ei_lz _ _ _ _ Hinv1) as Hinv2.
  destruct (lz_inv_match ws _ m1 _ _ _ d n Hinv2) as (m2 & Hm2 & Hinv3 & Hf2); [rewrite length_app; lia | lia | rewrite length_app; lia |].
  rewrite length_app, Nat2Z.inj_add, H1 in Hm2. rewrite Z.add_assoc in Hm2 |- *. rewrite Hm2. cbn [mbind res_bind].
  exists m2. cbv zeta. rewrite lz_match_length, length_app, u32_small by lia.
  replace (lp + zlen lits - zlen L2) with (lp + c) by lia.
  assert (lz_frame oe m m2 (ws + zlen w)) as Hfr.
  { destruct Hf1 as [Ha Hb]. destruct Hf2 as [Hc2 Hd2]. split; [| by eapply same_dom_trans].
    eapply frame_trans; [eapply frame_weaken; [exact Ha | lia | lia] | eapply frame_weaken; [exact Hc2 | rewrite length_app; lia | lia]]. }
  split_and!; [do 3 f_equal; lia | | done | lia | lia].
  constructor; [by rewrite <- H1 | | done]. eapply accessible_same_dom; [apply Hfr | exact Hacc].
Qed.

Lemma exec_sequences_ok vs : forall m w lp lits, exec_inv m w lp lits -> zlen lits < 2 ^ 31 -> Forall (fun v => 1 <= seq_dist v) vs ->
  match exec_steps (oe - ws) (map (fun v => (seq_copy v, seq_length v, seq_dist v)) vs) lits w with
  | inr (lits', w') => exists m', let lp' := lp + zlen lits - zlen lits' in
      exec_sequences oe ws vs (exec_at m w lp lits) = Ok (inr (exec_at m' w' lp' lits')) /\
      exec_inv m' w' lp' lits' /\ lz_frame oe m m' (ws + zlen w) /\ zlen w <= zlen w' /\ zlen lits' <= zlen lits
  | inl e => exists m', exec_sequences oe ws vs (exec_at m w lp lits) =
      Ok (inl (match e with ExecSpace => DECODE_NEED_MORE_SPACE | _ => DECODE_ERR end, m'))
  end.
Proof.
  induction vs as [|v vs IH]; intros m w lp lits Hinv Hsz Hall; cbn [map exec_steps exec_sequences].
  - exists m. cbv zeta. replace (lp + zlen lits - zlen lits) with lp by lia.
    split_and!; [done | done | apply lz_frame_refl | lia | lia].
  - apply Forall_cons_1 in Hall as [Hv Hall]. pose proof (exec_sequence_ok v m w lp lits Hinv Hsz Hv) as Hs.
    destruct (exec_step _ _ lits w) as [e | [lits' w']]; [destruct Hs as (m' & ->); by exists m' |].
    destruct Hs as (m' & -> & Hinv' & Hf & Hw & Hl). cbn [mbind res_bind].
    pose proof (IH m' w' _ lits' Hinv' ltac:(lia) Hall) as Hr.
    destruct (exec_steps _ _ lits' w') as [e | [l2 w2]]; [exact Hr |].
    destruct Hr as (m2 & Hr & Hinv2 & Hf2 & Hw2 & Hl2). exists m2. cbv zeta in *.
    replace (lp + zlen lits - zlen lits' + zlen lits' - zlen l2) with (lp + zlen lits - zlen l2) in * by lia.
    split_and!; [exact Hr | done | | lia | lia]. eapply lz_frame_trans; [| exact Hf | exact Hf2]. lia.
Qed.
End Exec.

Definition exec_status (e : exec_result) : Z :=
  match e with ExecSpace => DECODE_NEED_MORE_SPACE | _ => DECODE_ERR end.

Section Rounds.
Context (ws oe start : Z) (S : list Z) (tables : dectables) (refill : mem -> Z -> Z -> seq_buf -> res (option seq_buf)).
Hypothesis Hor : refill = seq_refill \/ refill = seq_refill_portable.
Hypothesis Htab : seq_tables_ok tables.

(** The bit stream is readable and not in the way of the output. *)
Record stream_inv (m : mem) (out : Z) : Prop := {
  si_ok : mem_ok m;
  si_at : bytes_at m start S;
  si_acc : accessible m start 8;
  si_disj : start + zlen S <= out \/ oe + LZCOMMON_BLOCK <= start;
}.

Lemma stream_refill m out : stream_inv m out -> refill_spec m start S refill.
Proof. intros [Hok Hat Hacc _]. destruct Hor as [-> | ->]; [by apply load_refill_ok | by apply portable_refill_ok]. Qed.

Lemma stream_frame m m' out out' : stream_inv m out -> lz_frame oe m m' out -> mem_ok m' -> out <= out' -> stream_inv m' out'.
Proof.
  intros [Hok Hat Hacc Hd] [Hf Hdom] Hok' Hle. constructor; [done | | by eapply accessible_same_dom | lia].
  eapply bytes_at_frame; [exact Hf | done | lia].
Qed.

Lemma seq_rounds_ok fuel : forall n m w lp lits s q k, (n <= fuel)%nat -> stream_inv m (ws + zlen w) ->
  exec_inv ws oe m w lp lits -> zlen lits < 2 ^ 31 -> srep start S tables s q k ->
  let run := seq_rounds refill fuel start oe ws tables (Z.of_nat n) s (exec_at ws m w lp lits) in
  match seqs_spec n (le_val S) tables q with
  | None => exists e m', run = Ok (inl (e, m')) /\ 0 <= e < NUM_DECODE_STATUS
  | Some (l, q') =>
      match exec_steps (oe - ws) l lits w with
      | inl e => exists m', run = Ok (inl (exec_status e, m'))
      | inr (lits', w') => exists m' s' k', let lp' := lp + zlen lits - zlen lits' in
          run = Ok (inr (s', exec_at ws m' w' lp' lits')) /\ srep start S tables s' q' k' /\
          exec_inv ws oe m' w' lp' lits' /\ lz_frame oe m m' (ws + zlen w) /\ zlen lits' <= zlen lits /\ zlen w <= zlen w'
      end
  end.
Proof.
  assert (forall e, 0 <= exec_status e < NUM_DECODE_STATUS) as Hst by (intros []; unfold exec_status, NUM_DECODE_STATUS, DECODE_ERR, DECODE_NEED_MORE_SPACE; lia).
  induction fuel as [|fuel IH]; intros n m w lp lits s q k Hn Hstr Hinv Hsz Hs run; unfold run; cbn [seq_rounds].
  { assert (n = 0%nat) as -> by lia. cbn. exists m, s, k. replace (lp + zlen lits - zlen lits) with lp by lia.
    split_and!; (done || apply lz_frame_refl || lia). }
  destruct (Z.eqb_spec (Z.of_nat n) 0) as [Hz | Hnz].
  { assert (n = 0%nat) as -> by lia. cbn. exists m, s, k. replace (lp + zlen lits - zlen lits) with lp by lia.
    split_and!; (done || apply lz_frame_refl || lia). }
  set (a := Nat.min n 128). assert ((if Z.of_nat n <? 128 then Z.of_nat n else 128) = Z.of_nat a) as ->
    by (unfold a; destruct (Z.ltb_spec (Z.of_nat n) 128); lia).
  assert (n = a + (n - a))%nat as Hna by (unfold a; lia). rewrite Nat2Z.id.
  pose proof (decode_sequences_ok m start S tables refill (stream_refill _ _ Hstr) Htab a s q k ltac:(unfold a; lia) Hs) as Hdec.
  replace (Z.of_nat n - Z.of_nat a) with (Z.of_nat (n - a)) by (unfold a; lia).
  replace (seqs_spec n (le_val S) tables q) with (seqs_spec (a + (n - a)) (le_val S) tables q) by (by rewrite <- Hna).
  rewrite seqs_spec_add. cbn [ex_mem exec_at].
  destruct (seqs_spec a (le_val S) tables q) as [[l1 q1]|].
  2: { rewrite Hdec. cbn [mbind res_bind]. eexists _, _. split; [done |]. apply (Hst ExecErr). }
  destruct Hdec as (s1 & vs & k1 & -> & Hs1 & Hmap & Hdist). cbn [mbind res_bind].
  pose proof (exec_sequences_ok ws oe vs m w lp lits Hinv Hsz Hdist) as Hex. rewrite Hmap in Hex.
  destruct (exec_steps (oe - ws) l1 lits w) as [e | [lits1 w1]] eqn:He1.
  { destruct Hex as (m' & ->). cbn [mbind res_bind]. destruct (seqs_spec (n - a) _ _ q1) as [[l2 q2]|].
    - rewrite exec_steps_app, He1. by exists m'.
    - eexists _, _. split; [done |]. apply Hst. }
  destruct Hex as (m1 & -> & Hinv1 & Hf1 & Hw1 & Hl1). cbn [mbind res_bind].
  assert (stream_inv m1 (ws + zlen w1)) as Hstr1.
  { eapply stream_frame; [exact Hstr | exact Hf1 | apply (ei_lz _ _ _ _ _ _ Hinv1) | lia]. }
  pose proof (IH (n - a)%nat m1 w1 _ lits1 s1 q1 k1 ltac:(unfold a; lia) Hstr1 Hinv1 ltac:(lia) Hs1) as Hrec. cbv zeta in Hrec.
  destruct (seqs_spec (n - a) _ _ q1) as [[l2 q2]|]; [| exact Hrec].
  rewrite exec_steps_app, He1. destruct (exec_steps (oe - ws) l2 lits1 w1) as [e | [lits2 w2]]; [exact Hrec |].
  destruct Hrec as (m2 & s2 & k2 & Hr & Hs2 & Hinv2 & Hf2 & Hl2 & Hw2). exists m2, s2, k2. cbv zeta in *.
  replace (lp + zlen lits - zlen lits1 + zlen lits1 - zlen lits2) with (lp + zlen lits - zlen lits2) in * by lia.
  split_and!; [exact Hr | done | done | | lia | lia]. eapply lz_frame_trans; [| exact Hf1 | exact Hf2]. lia.
Qed.
End Rounds.

(** The [memcpy] of the last literals. *)
Lemma exec_rest ws oe m w lp lits : exec_inv ws oe m w lp lits ->
  exists m', memcpy m (ws + zlen w) lp (zlen lits) = Ok m' /\ bytes_at m' ws (w ++ lits) /\
    lz_frame oe m m' (ws + zlen w) /\ mem_ok m'.
Proof.
  intros [[Hok Hw Hi Haw Hai Hd Hp Ho Ht] Hacc Htop]. unfold memcpy. rewrite Nat2Z.id, (ld_bytes_at _ _ _ Hi). cbn [mbind res_bind].
  pose proof (bytes_at_is_byte _ _ _ Hok Hi) as Hb.
  destruct (st_ok m (ws + zlen w) lits) as (m' & -> & Hat & Hfr); [eapply accessible_sub; [exact Hacc | lia | unfold LZCOMMON_BLOCK; lia] | done |].
  exists m'. split; [done |]. split_and!.
  - apply bytes_at_app. split; [| done]. eapply bytes_at_frame; [exact Hfr | done | lia].
  - split; [eapply frame_weaken; [exact Hfr | lia | unfold LZCOMMON_BLOCK; lia] |].
    eapply st_frame_dom; [| exact Hat | exact Hfr]. eapply accessible_sub; [exact Hacc | lia | unfold LZCOMMON_BLOCK; lia].
  - eapply st_frame_mem_ok; done.
Qed.

(** C2: Executing the sequences of a block is LZ77.  For every bit stream, in
    both variants of the reader, the rounds of 128 sequences with their
    interleaved copies leave [exec_spec] of the decoded sequences behind the
    window: the block fails exactly when the reference does, with the same
    reason, no copy touches memory outside of the room that was granted or
    destroys literals that are still needed (they lie outside of the buffer, or
    at its end, where output grows towards them), and the history of offsets is
    kept for the next block.  A malformed bit stream ends in a status, not in a
    trap. *)
Theorem zstd_execute_correct refill n m start S tables ws oe w lp lits :
  refill = seq_refill \/ refill = seq_refill_portable -> seq_tables_ok tables ->
  exec_inv ws oe m w lp lits -> stream_inv oe start S m (ws + zlen w) -> zlen lits < 2 ^ 31 ->
  let run := block_sequences refill m start (start + zlen S) (ws + zlen w) (ws + zlen w) oe lp (zlen lits) (Z.of_nat n) ws tables in
  match sequences_spec n S tables with
  | None => exists e m', run = Ok (e, tables, m') /\ 0 <= e < NUM_DECODE_STATUS
  | Some (l, (r1, r2, r3)) =>
      match exec_spec (oe - ws) l lits w with
      | ExecDone w' => exists m', run = Ok (NUM_DECODE_STATUS + (zlen w' - zlen w), set_dists r1 r2 r3 tables, m') /\
          bytes_at m' ws w' /\ lz_frame oe m m' (ws + zlen w) /\ mem_ok m'
      | e => exists m', run = Ok (exec_status e, tables, m')
      end
  end.
Proof.
  intros Hor Htab Hinv Hstr Hsz run. unfold run, sequences_spec, block_sequences.
  pose proof (stream_refill oe start S refill Hor _ _ Hstr) as Href. pose proof Hstr as [Hok HS _ _].
  assert (0 <= DECODE_ERR < NUM_DECODE_STATUS) as Herr by (unfold DECODE_ERR, NUM_DECODE_STATUS; lia).
  destruct (list.last S) as [b|] eqn:Hlast.
  2: { apply last_None in Hlast as ->. unfold init_sequences, check.
       assert ((1 <=? start + zlen (@nil Z) - start) = false) as -> by (cbn; zb). cbn [mbind res_bind]. eauto. }
  destruct (Z.eqb_spec b 0) as [-> | Hne].
  { rewrite (init_sequences_zero m start S tables refill HS Hlast). cbn [mbind res_bind]. eauto. }
  pose proof (init_sequences_ok m start S tables refill Hok HS Href Htab b Hlast Hne) as Hinit. cbv zeta beta iota in Hinit |- *.
  set (N := 8 * (zlen S - 1) + Z.log2 b) in *. destruct (N <? _); [rewrite Hinit; cbn [mbind res_bind]; eauto |].
  destruct Hinit as (s & k & -> & Hs). cbn [mbind res_bind]. rewrite Nat2Z.id. set (q0 := {| q_left := _ |}) in *.
  pose proof (seq_rounds_ok ws oe start S tables refill Hor Htab n n m w lp lits s q0 k ltac:(lia) Hstr Hinv Hsz Hs) as Hr.
  cbv zeta in Hr. fold (exec_at ws m w lp lits). destruct (seqs_spec n (le_val S) tables q0) as [[l q]|].
  2: { destruct Hr as (e & m' & -> & He). cbn [mbind res_bind]. eauto. }
  unfold exec_spec. destruct (exec_steps (oe - ws) l lits w) as [e | [lits' w']] eqn:Hex.
  { destruct Hr as (m' & ->). cbn [mbind res_bind]. assert (0 <= exec_status e < NUM_DECODE_STATUS) by
      (destruct e; unfold exec_status, NUM_DECODE_STATUS, DECODE_ERR, DECODE_NEED_MORE_SPACE; lia).
    assert (forall w', e <> ExecDone w') as Hnd by (intros w' ->; by eapply exec_steps_not_done).
    destruct (q_left q =? 0); [| by exists (exec_status e), m'].
    destruct e as [w0 | |]; [exfalso; by apply (Hnd w0) | |]; rewrite Hex; by exists m'. }
  destruct Hr as (m' & s' & k' & -> & Hs' & Hinv' & Hf' & Hl' & Hw'). cbn [mbind res_bind].
  rewrite (finish_sequences_ok _ _ _ _ _ _ Hs'). destruct (q_left q =? 0); [| eauto]. rewrite Hex.
  destruct (exec_rest ws oe m' w' _ lits' Hinv') as (m2 & Hm2 & Hat & Hf2 & Hok2). cbn [exec_at ex_mem ex_out ex_lit ex_size].
  rewrite Hm2. cbn [mbind res_bind]. exists m2. split_and!; [do 3 f_equal; rewrite length_app; lia | done | | done].
  eapply lz_frame_trans; [| exact Hf' | exact Hf2]. lia.
Qed.

(** ** Decoding tables *)
Definition known_settings (ts : table_settings) : Prop := ts = copy_settings \/ ts = dist_settings \/ ts = length_settings.

Definition predef_weights (ts : table_settings) : list Z := map (fun w => if w =? 0 then 0 else w + 1) (ts_predef_distr ts).

(** The predefined distributions are normalized. *)
Lemma known_settings_ok ts : known_settings ts ->
  5 <= ts_log ts <= ts_max_log ts /\ ts_max_log ts <= 9 /\ 1 <= ts_sym ts <= 53 /\ zlen (ts_predef_distr ts) = ts_sym ts /\
  total_cells (predef_weights ts) (ts_sym ts) = 2 ^ ts_log ts /\
  forall s, 0 <= s < ts_sym ts -> 0 <= weight (predef_weights ts) s <= 2 ^ ts_log ts.
Proof.
  intros Hts. assert (forallb (fun s => (0 <=? weight (predef_weights ts) s) && (weight (predef_weights ts) s <=? 2 ^ ts_log ts)) (range 0 (ts_sym ts)) = true) as H
    by (destruct Hts as [-> | [-> | ->]]; vm_compute; reflexivity).
  split_and!; try (destruct Hts as [-> | [-> | ->]]; vm_compute; done).
  - intros s Hs. rewrite forallb_forall in H. specialize (H s (proj1 (list_elem_of_In _ _) (proj2 (range_elem 0 (ts_sym ts) s) Hs))). lia.
Qed.

Lemma fse_table_entries log num_sym D t : log <= 9 -> 0 <= log -> 2 ^ log <= zlen t -> fse_table_ok log num_sym D t ->
  entries_ok log (num_sym - 1) t.
Proof.
  intros Hl H0 Hlen Ht. split; [lia |]. split; [done |]. intros i Hi. cbv zeta.
  destruct (ft_range _ _ _ _ Ht i Hi) as (Hs & Hb & Hr). set (e := entry_at t i) in *.
  assert (0 <= fse_bits e) as Hfb by (unfold fse_bits; apply Z.land_nonneg; lia).
  assert (2 ^ log <= 2 ^ 9) by (apply Z.pow_le_mono_r; lia). assert (0 < 2 ^ fse_bits e) by (apply Z.pow_pos_nonneg; lia).
  split; [| split; [lia |]; split; [| lia]].
  - unfold fse_base in Hb, Hr. rewrite Z.shiftr_div_pow2 in Hb, Hr by lia. clear -Hb Hr H H1. set (b := 2 ^ fse_bits e) in *. clearbody b. dlia.
  - apply (Z.pow_le_mono_r_iff 2); [lia | lia |]. lia.
Qed.

Lemma total_cells_ext D1 D2 n : (forall s, 0 <= s < n -> weight D1 s = weight D2 s) -> total_cells D1 n = total_cells D2 n.
Proof.
  intros H. unfold total_cells. f_equal. apply map_ext_in. intros s Hs%list_elem_of_In%range_elem. by rewrite H.
Qed.

Lemma predef_loop ts weights : known_settings ts -> ts_sym ts <= zlen weights ->
  exists D, foldM (predef_weight ts) weights (range 0 (ts_sym ts)) = Ok D /\ length D = length weights /\
    forall s, 0 <= s < ts_sym ts -> weight D s = weight (predef_weights ts) s.
Proof.
  intros Hts Hlen. destruct (known_settings_ok ts Hts) as (_ & _ & Hs & Hp & _ & _).
  destruct (foldM_range (fun i D => length D = length weights /\ forall s, 0 <= s < i -> weight D s = weight (predef_weights ts) s)
    (predef_weight ts) weights 0 (ts_sym ts)) as (D & -> & HlD & HD); [lia | split; [done | intros; lia] | | by exists D].
  intros i D Hi [HlD HD]. unfold predef_weight. rewrite geti_nth by lia. cbn [mbind res_bind]. rewrite seti_ok by lia. eexists. split; [done |].
  rewrite length_insert. split; [done |]. intros s Hss. unfold weight. fold (entry_at (<[Z.to_nat i:=if entry_at (ts_predef_distr ts) i =? 0 then 0 else entry_at (ts_predef_distr ts) i + 1]> D) s).
  rewrite entry_at_insert by lia. destruct (Z.eqb_spec i s) as [-> | Hne]; [| apply HD; lia].
  unfold predef_weights, entry_at. symmetry. exact (map_nth (fun w => if w =? 0 then 0 else w + 1) (ts_predef_distr ts) 0 (Z.to_nat s)).
Qed.

Definition junk_ok (junk : block_junk) : Prop :=
  zlen (b_weights junk) = 64 /\ zlen (fc_bits (b_cols junk)) = 64 /\ zlen (fc_cutoff (b_cols junk)) = 64 /\
  zlen (fc_counter (b_cols junk)) = 64.

(** What a table description may leave behind, by mode. *)
Definition table_result (ts : table_settings) (mode in_ end_ log : Z) (table : list Z) (in' log' : Z) (table' : list Z) : Prop :=
  in_ <= in' <= end_ /\ length table' = length table /\ entries_ok log' (ts_sym ts - 1) table' /\
  (mode = Predefined_Mode -> in' = in_ /\ log' = ts_log ts /\
     exists D, fse_table_ok log' (ts_sym ts) D table' /\ forall s, 0 <= s < ts_sym ts -> weight D s = weight (predef_weights ts) s) /\
  (mode = RLE_Mode -> in' = in_ + 1 /\ log' = 0) /\
  (mode = FSE_Compressed_Mode -> log' <= ts_max_log ts /\
     exists D, fse_table_ok log' (ts_sym ts) D table' /\ total_cells D (ts_sym ts) = 2 ^ log') /\
  (mode = Repeat_Mode -> in' = in_ /\ log' = log /\ table' = table).

Section Tables.
Context (junk : block_junk) (table : list Z) (ts : table_settings).
Hypothesis Hts : known_settings ts.
Hypothesis Hj : junk_ok junk.
Hypothesis Htl : 2 ^ ts_max_log ts <= zlen table.

(** Building a table from a normalized distribution. *)
Lemma build_entries l D : 5 <= l <= ts_max_log ts -> zlen D = 64 -> total_cells D (ts_sym ts) = 2 ^ l ->
  (forall s, 0 <= s < ts_sym ts -> 0 <= weight D s <= 2 ^ l) ->
  exists t, fse_build_table (b_cols junk) l (ts_sym ts) D table = Ok t /\ length t = length table /\
    fse_table_ok l (ts_sym ts) D t /\ entries_ok l (ts_sym ts - 1) t.
Proof.
  intros Hl HD Htot Hw. destruct (known_settings_ok ts Hts) as (_ & Hm & Hs & _). destruct Hj as (_ & J1 & J2 & J3).
  assert (2 ^ l <= 2 ^ ts_max_log ts) by (apply Z.pow_le_mono_r; lia).
  destruct (build_ok l (ts_sym ts) D ltac:(lia) ltac:(lia) ltac:(lia) Hw Htot (b_cols junk) table) as (t & Ht & Hlen & Hft); [lia.. |].
  exists t. split_and!; [done | done | done |]. apply (fse_table_entries _ _ D); [lia | lia | lia | done].
Qed.

Lemma rle_entries sym : 0 <= sym < ts_sym ts -> entries_ok 0 (ts_sym ts - 1) (<[Z.to_nat 0 := Z.shiftl sym 5]> table).
Proof.
  intros Hs. destruct (known_settings_ok ts Hts) as (_ & _ & Hn & _).
  assert (0 < 2 ^ ts_max_log ts) by (apply Z.pow_pos_nonneg; destruct (known_settings_ok ts Hts); lia).
  split; [lia |]. split; [rewrite length_insert; lia |]. intros i Hi. change (2 ^ 0) with 1 in *. assert (i = 0) as -> by lia. cbv zeta.
  rewrite entry_at_insert by lia. rewrite Z.eqb_refl, Z.shiftl_mul_pow2 by lia. unfold fse_bits, fse_sym, fse_base.
  rewrite !Z.shiftr_div_pow2 by lia. rewrite (land_mod _ 5 31), (land_mod _ 6 63) by (done || lia).
  change (2 ^ 5) with 32. change (2 ^ 6) with 64. change (2 ^ 11) with 2048. rewrite Z.mod_mul, Z.div_mul by lia.
  rewrite (Z.mod_small sym) by lia. rewrite Z.div_small by lia. cbn. lia.
Qed.
End Tables.

(** [handle_decoding_table] is safe and right in all four modes and for
    the three tables of a block: it consumes only bytes of its input, and a
    table it leaves sends no state outside of the table and no symbol outside
    of the alphabet.  The predefined mode builds the table of the predefined
    distribution, the compressed mode the table of the (normalized)
    distribution that was read, the repeat mode keeps the table; RLE mode makes
    a table with one state.  Distributions in which one symbol owns the whole
    table are excluded. *)
Theorem handle_decoding_table_correct junk m in_ end_ mode log table ts :
  known_settings ts -> junk_ok junk -> mem_ok m -> in_ <= end_ -> accessible m in_ (end_ - in_) ->
  2 ^ ts_max_log ts <= zlen table -> 0 <= mode <= 3 ->
  (log <> TABLE_NOT_AVAILABLE -> entries_ok log (ts_sym ts - 1) table) ->
  (forall next l D, fse_decode_distribution m in_ end_ (ts_sym ts) (b_weights junk) = Ok (Some (next, l, D)) ->
     forall s, 0 <= s < ts_sym ts -> weight D s <= 2 ^ l) ->
  exists o, handle_decoding_table junk m in_ end_ mode log table ts = Ok o /\
    match o with
    | None => mode <> Predefined_Mode
    | Some (in', log', table') => table_result ts mode in_ end_ log table in' log' table'
    end.
Proof.
  intros Hts Hj Hok Hie Hacc Htl Hmode Hrep Hsingle. destruct (known_settings_ok ts Hts) as (Hl & Hm & Hs & Hp & Htot & Hw).
  pose proof Hj as (J0 & _). unfold handle_decoding_table, check, table_result, Predefined_Mode, RLE_Mode, FSE_Compressed_Mode, Repeat_Mode.
  assert (mode = 0 \/ mode = 1 \/ mode = 2 \/ mode = 3) as [-> | [-> | [-> | ->]]] by lia; cbn [Z.eqb Pos.eqb].
  - destruct (predef_loop ts (b_weights junk) Hts ltac:(lia)) as (D & -> & HlD & HD). cbn [mbind res_bind].
    assert ((ts_log ts <=? ts_max_log ts) = true) as -> by zb.
    destruct (build_entries junk table ts Hts Hj Htl (ts_log ts) D) as (t & -> & Hlt & Hft & He); [lia | lia | | |].
    { rewrite <- Htot. by apply total_cells_ext. }
    { intros s Hss. rewrite HD by lia. by apply Hw. }
    cbn [mbind res_bind]. eexists. split; [done |]. cbv beta iota. split_and!; try (done || lia). intros _. split_and!; [done | done | by exists D].
  - destruct (Z.ltb_spec in_ end_) as [Hlt |]; [| by exists None].
    destruct (accessible_ld8 m in_ (end_ - in_) in_ Hok Hacc ltac:(lia)) as (b & -> & _ & Hb). cbn [mbind res_bind]. unfold is_byte in Hb.
    destruct (Z.ltb_spec b (ts_sym ts)) as [Hbs |]; [| by exists None].
    assert (0 < 2 ^ ts_max_log ts) by (apply Z.pow_pos_nonneg; lia). rewrite seti_ok by lia. cbn [mbind res_bind].
    eexists. split; [done |]. cbv beta iota. split_and!; try (done || lia); [by rewrite length_insert | by apply rle_entries; [| | lia]].
  - assert ((ts_sym ts <=? 64) = true) as -> by zb. cbn [c_assert mbind res_bind].
    destruct (distribution_safe m in_ end_ (ts_sym ts) (b_weights junk) Hok Hie Hacc ltac:(lia)) as (o & Ho & Hspec).
    rewrite Ho. cbn [mbind res_bind]. destruct o as [[[next l] D]|]; [| by exists None]. destruct Hspec as (Hn & Hl2 & HlD & HtD & HwD).
    destruct (Z.leb_spec l (ts_max_log ts)) as [Hle |]; [| by exists None].
    destruct (build_entries junk table ts Hts Hj Htl l D) as (t & -> & Hlt & Hft & He); [lia | lia | done | |].
    { intros s Hss. split; [apply HwD; lia | by eapply Hsingle]. }
    cbn [mbind res_bind]. eexists. split; [done |]. cbv beta iota. split_and!; try (done || lia). intros _. split; [done | by exists D].
  - unfold TABLE_NOT_AVAILABLE in *. destruct (Z.eqb_spec log 255) as [-> | Hne]; cbn [negb]; [by exists None |].
    eexists. split; [done |]. cbv beta iota. split_and!; try (done || lia). by apply Hrep.
Qed.

(** ** Concrete runs *)

(** A window of two bytes, two literals at the end of the buffer and one
    sequence: one literal, a match of length 3 at offset 2. *)
Definition demo_exec_mem : mem := mem_of 0 ([7; 8] ++ replicate 20 0 ++ [9; 10] ++ replicate 8 0 ++ [5] ++ replicate 7 0).

Lemma demo_exec_ok : exec_inv 0 16 demo_exec_mem [7; 8] 22 [9; 10] /\ stream_inv 16 32 [5] demo_exec_mem (0 + zlen [7; 8]).
Proof.
  assert (mem_ok demo_exec_mem) as Hok by (apply mem_of_ok, bytes_ok; reflexivity).
  split; [constructor; [constructor |..] | constructor]; unfold LZCOMMON_BLOCK; cbn [length]; try done; try lia.
  - exact (mem_of_sub 0 [] [7; 8] _ 0 eq_refl).
  - exact (mem_of_sub 0 ([7; 8] ++ replicate 20 0) [9; 10] (replicate 8 0 ++ [5] ++ replicate 7 0) 22 eq_refl).
  - apply mem_of_accessible; [lia | vm_compute; discriminate].
  - apply mem_of_accessible; [lia | vm_compute; discriminate].
  - apply mem_of_accessible; [lia | vm_compute; discriminate].
  - exact (mem_of_sub 0 ([7; 8] ++ replicate 20 0 ++ [9; 10] ++ replicate 8 0) [5] (replicate 7 0) 32 eq_refl).
  - apply mem_of_accessible; [lia | vm_compute; discriminate].
Qed.

Lemma zstd_execute_correct_witness :
  exists m', block_sequences seq_refill demo_exec_mem 32 33 2 2 16 22 2 1 0 demo_seq_tables
    = Ok (NUM_DECODE_STATUS + (7 - 2), set_dists 2 1 4 demo_seq_tables, m') /\
    bytes_at m' 0 [7; 8; 9; 8; 9; 8; 10] /\ lz_frame 16 demo_exec_mem m' 2 /\ mem_ok m'.
Proof.
  exact (zstd_execute_correct seq_refill 1 demo_exec_mem 32 [5] demo_seq_tables 0 16 [7; 8] 22 [9; 10]
    (or_introl eq_refl) demo_seq_tables_ok (proj1 demo_exec_ok) (proj2 demo_exec_ok) eq_refl).
Defined.

Definition demo_block_junk : block_junk :=
  {| b_weights := replicate 64 3; b_cols := demo_junk;
     b_tree := {| j_fse_weights := replicate 13 3; j_fse_table := replicate 64 3; j_weights := replicate 256 3;
                  j_cols := demo_junk; j_order := replicate 256 3 |} |}.

(** RLE mode with offset code 2. *)
Lemma handle_decoding_table_correct_witness :
  exists o, handle_decoding_table demo_block_junk (mem_of 0 [2]) 0 1 RLE_Mode TABLE_NOT_AVAILABLE (replicate 256 7) dist_settings = Ok o /\
    match o with
    | None => RLE_Mode <> Predefined_Mode
    | Some (in', log', table') => table_result dist_settings RLE_Mode 0 1 TABLE_NOT_AVAILABLE (replicate 256 7) in' log' table'
    end.
Proof.
  apply (handle_decoding_table_correct demo_block_junk (mem_of 0 [2]) 0 1 RLE_Mode TABLE_NOT_AVAILABLE (replicate 256 7) dist_settings).
  - right. left. reflexivity.
  - split; [reflexivity |]. split; [reflexivity |]. split; reflexivity.
  - apply mem_of_ok, bytes_ok. reflexivity.
  - discriminate.
  - apply mem_of_accessible; discriminate.
  - discriminate.
  - split; discriminate.
  - intros H. destruct (H eq_refl).
  - intros next l D H. vm_compute in H. discriminate H.
Defined.
