(* ===== verification/ZstdFrame.v ===== *)
(** * Zstandard frames ([src/compression/zstd.c])

    Frame headers, the dispatch over block types, the sliding window and the
    trailer with the content checksum. *)
From S2P Require Export Xxh64 ZstdBlock.

(** ** Definitions *)
Definition Single_Segment_Flag : Z := 0x20.
Definition Frame_Header_Descriptor_RESERVED : Z := 8.
Definition Content_Checksum_Flag : Z := 4.

Definition Raw_Block : Z := 0.
Definition RLE_Block : Z := 1.
Definition Compressed_Block : Z := 2.

(** [fcs_field_size], computed alike by [probe] and [init]. *)
Definition fcs_size (frame_header_desc : Z) : Z :=
  let fcs_field_size := Z.shiftr frame_header_desc 6 in
  if flag frame_header_desc Single_Segment_Flag || negb (fcs_field_size =? 0)
  then u8 (Z.shiftl 1 fcs_field_size) else fcs_field_size.

(** The [switch] with its fallthroughs, starting from 0. *)
Definition fcs_value (m : mem) (in_ fcs_field_size : Z) : res Z :=
  size ← (if fcs_field_size =? 8 then
            b4 ← ld8 m (in_ + 4); b5 ← ld8 m (in_ + 5); b6 ← ld8 m (in_ + 6); b7 ← ld8 m (in_ + 7);
            Ok (Z.lor (Z.lor (Z.lor (Z.shiftl b4 32) (Z.shiftl b5 40)) (Z.shiftl b6 48)) (Z.shiftl b7 56))
          else Ok 0);
  size ← (if 4 <=? fcs_field_size then
            b2 ← ld8 m (in_ + 2); b3 ← ld8 m (in_ + 3);
            Ok (Z.lor size (Z.lor (Z.shiftl b2 16) (Z.shiftl b3 24)))
          else Ok size);
  size ← (if 2 <=? fcs_field_size then
            b1 ← ld8 m (in_ + 1);
            let size := Z.lor size (Z.shiftl b1 8) in
            Ok (if fcs_field_size =? 2 then u64 (size + 0x100) else size)
          else Ok size);
  b0 ← ld8 m in_;
  Ok (Z.lor size b0).

Definition zstd_probe (m : mem) (in_ end_ : Z) : res compr_probe_status :=
  if end_ - in_ <? 4 then Ok COMPR_PROBE_NOT_ENOUGH_DATA
  else
  magic ← ld32le m in_;
  if negb (magic =? 0xfd2fb528) then Ok COMPR_PROBE_WRONG_MAGIC
  else if end_ - in_ <? 6 then Ok COMPR_PROBE_NOT_ENOUGH_DATA
  else
  frame_header_desc ← ld8 m (in_ + 4);
  if flag frame_header_desc Frame_Header_Descriptor_RESERVED then Ok COMPR_PROBE_RESERVED_FEATURE
  else if flag frame_header_desc 3 then Ok COMPR_PROBE_UNIMPLEMENTED_FEATURE
  else
  let fcs_field_size := fcs_size frame_header_desc in
  let single := flag frame_header_desc Single_Segment_Flag in
  let frame_header_size := u8 (fcs_field_size + if single then 0 else 1) in
  let in_ := in_ + 5 in
  if end_ - in_ <? frame_header_size then Ok COMPR_PROBE_NOT_ENOUGH_DATA
  else
  (* [window_size] is computed but not used *)
  let in_ := if single then in_ else in_ + 1 in
  if fcs_field_size =? 0 then Ok COMPR_PROBE_SIZE_UNKNOWN
  else if (fcs_field_size =? 1) || (fcs_field_size =? 2) || (fcs_field_size =? 4) || (fcs_field_size =? 8) then
    size ← fcs_value m in_ fcs_field_size;
    Ok (COMPR_PROBE_SIZE_KNOWN size)
  else Trap TrapAbort.

Inductive zstd_decode_func : Set := ZstdDecodeBlock | ZstdDecodeTrailer.

Record zstd_dec_state : Type := {
  zstd_st : decompressor_state zstd_decode_func;
  tables : dectables;
  xxh64 : xxh64_state;
  window_size : Z;
  have_content_checksum : bool;
}.

Definition zstd_set_st (st : decompressor_state zstd_decode_func) (s : zstd_dec_state) : zstd_dec_state :=
  {| zstd_st := st; tables := tables s; xxh64 := xxh64 s; window_size := window_size s;
     have_content_checksum := have_content_checksum s |}.

Definition zstd_decode_trailer (m : mem) (s : zstd_dec_state) (in_ end_ : Z) : res (Z * zstd_dec_state) :=
  let s := zstd_set_st (set_decode None (zstd_st s)) s in
  if have_content_checksum s then
    if end_ - in_ <? 4 then Ok (DECODE_NEED_MORE_DATA, s)
    else
    h ← xxh64_finalize (xxh64 s);
    csum ← ld32le m in_;
    if negb (Z.land h 0xffffffff =? csum) then Ok (DECODE_ERR, s)
    else Ok (NUM_DECODE_STATUS + 4, s)
  else Ok (NUM_DECODE_STATUS, s).

Section Frame.
Context (refill : mem -> Z -> Z -> seq_buf -> res (option seq_buf)) (junk : block_junk).

(** The [switch] over the block type: [inl] is an early return; otherwise
    [decomp_size], [total_size], the tables and memory. *)
Definition block_content (m : mem) (s : zstd_dec_state) (in_ end_ block_type block_size : Z)
    : res (Z * dectables * mem + Z * Z * dectables * mem) :=
  let out := out (zstd_st s) in
  let out_end := out_end (zstd_st s) in
  let total_size := block_size + 3 in
  if block_type =? Raw_Block then
    if out_end - out <? block_size then Ok (inl (DECODE_NEED_MORE_SPACE, tables s, m))
    else if end_ - in_ <? block_size then Ok (inl (DECODE_NEED_MORE_DATA, tables s, m))
    else
    m ← lzcommon_literal_copy m out in_ block_size;
    Ok (inr (block_size, total_size, tables s, m))
  else if block_type =? RLE_Block then
    if out_end - out <? block_size then Ok (inl (DECODE_NEED_MORE_SPACE, tables s, m))
    else if end_ - in_ <? 1 then Ok (inl (DECODE_NEED_MORE_DATA, tables s, m))
    else
    m ← (if negb (block_size =? 0) then
           b ← ld8 m in_;
           m ← st8 m out b;
           lzcommon_match_copy m (out + 1) 1 (u32 (block_size - 1))
         else Ok m);
    Ok (inr (block_size, 4, tables s, m))
  else if block_type =? Compressed_Block then
    if end_ - in_ <? block_size then Ok (inl (DECODE_NEED_MORE_DATA, tables s, m))
    else
    '(r, t, m) ← decompress_block refill junk m in_ (in_ + block_size) out (out_end - LZCOMMON_BLOCK) (tables s)
                   (window_start (zstd_st s));
    if r <? NUM_DECODE_STATUS then Ok (inl (r, t, m))
    else Ok (inr (r - NUM_DECODE_STATUS, total_size, t, m))
  else Ok (inl (DECODE_ERR, tables s, m)).

Definition set_tables (t : dectables) (s : zstd_dec_state) : zstd_dec_state :=
  {| zstd_st := zstd_st s; tables := t; xxh64 := xxh64 s; window_size := window_size s;
     have_content_checksum := have_content_checksum s |}.
Definition set_xxh64 (x : xxh64_state) (s : zstd_dec_state) : zstd_dec_state :=
  {| zstd_st := zstd_st s; tables := tables s; xxh64 := x; window_size := window_size s;
     have_content_checksum := have_content_checksum s |}.

Definition zstd_decode_block (m : mem) (s : zstd_dec_state) (in_ end_ : Z) : res (Z * zstd_dec_state * mem) :=
  if end_ - in_ <? 3 then Ok (DECODE_NEED_MORE_DATA, s, m)
  else
  block_header0 ← ld8 m in_;
  b1 ← ld8 m (in_ + 1);
  b2 ← ld8 m (in_ + 2);
  let last_block := flag block_header0 1 in
  let block_size := Z.lor (Z.lor (Z.shiftr block_header0 3) (Z.shiftl b1 5)) (Z.shiftl b2 13) in
  let in_ := in_ + 3 in
  let o := out (zstd_st s) in
  if out_end (zstd_st s) - o <=? LZCOMMON_BLOCK then Ok (DECODE_NEED_MORE_SPACE, s, m)
  else
  r ← block_content m s in_ end_ (Z.land (Z.shiftr block_header0 1) 3) block_size;
  match r with
  | inl (status, t, m) => Ok (status, set_tables t s, m)
  | inr (decomp_size, total_size, t, m) =>
      let s := set_tables t s in
      s ← (if have_content_checksum s then
             data ← ld (Z.to_nat decomp_size) m o;
             x ← xxh64_update (xxh64 s) data;
             Ok (set_xxh64 x s)
           else Ok s);
      let o := o + decomp_size in
      let st := set_out o (zstd_st s) in
      let st := if window_size s <? u64 (o - window_start st) then set_window_start (o - window_size s) st else st in
      let st := if last_block then set_decode (Some ZstdDecodeTrailer) st else st in
      Ok (NUM_DECODE_STATUS + total_size, zstd_set_st st s, m)
  end.
End Frame.

(** [st0] and [t] are the state before the call: only some fields are set. *)
Definition zstd_init (m : mem) (st0 : decompressor_state zstd_decode_func) (t : dectables) (xbuf : list Z) (in_ end_ : Z)
    : res (Z * zstd_dec_state) :=
  c_assert (end_ - in_ >=? 6) ;;
  frame_header_desc ← ld8 m (in_ + 4);
  let fcs_field_size := fcs_size frame_header_desc in
  let single := flag frame_header_desc Single_Segment_Flag in
  let frame_header_size := u8 (fcs_field_size + if single then 0 else 1) in
  c_assert (end_ - in_ >? 5 + frame_header_size) ;;
  let in_ := in_ + 5 in
  '(in_, window_size) ←
    (if negb single then
       b ← ld8 m in_;
       Ok (in_ + 1, u64 (Z.shiftl (Z.shiftl (Z.lor 8 (Z.land b 7)) 7) (Z.shiftr b 3)))
     else if (fcs_field_size =? 1) || (fcs_field_size =? 2) || (fcs_field_size =? 4) || (fcs_field_size =? 8) then
       v ← fcs_value m in_ fcs_field_size;
       Ok (in_, v)
     else Trap TrapAbort);
  let in_ := in_ + fcs_field_size in
  let t := set_dists 1 4 8 (set_huff 0 (huff_table t)
    (set_dist TABLE_NOT_AVAILABLE (dist_table t) (set_length TABLE_NOT_AVAILABLE (length_table t)
    (set_copy TABLE_NOT_AVAILABLE (copy_table t) t)))) in
  Ok (in_, {| zstd_st := set_decode (Some ZstdDecodeBlock) st0; tables := t; xxh64 := xxh64_init xbuf;
              window_size := window_size; have_content_checksum := flag frame_header_desc Content_Checksum_Flag |}).


(** ** The frame header in RFC 8878 (3.1.1.1) *)
Definition byte_at (l : list Z) (i : nat) : Z := nth i l 0.
Definition hdr_single (d : Z) : bool := d / 32 mod 2 =? 1.
Definition hdr_win_len (d : Z) : nat := if hdr_single d then 0 else 1.
Definition hdr_fcs_len (d : Z) : nat := if d / 64 =? 0 then (if hdr_single d then 1 else 0) else Z.to_nat (2 ^ (d / 64)).
Definition hdr_len (d : Z) : nat := 5 + hdr_win_len d + hdr_fcs_len d.

Definition hdr_content_size (l : list Z) : Z :=
  let d := byte_at l 4 in
  le_val (take (hdr_fcs_len d) (drop (5 + hdr_win_len d) l)) + if Nat.eqb (hdr_fcs_len d) 2 then 256 else 0.

(** [Window_Size]: an eighth of a power of two, one to fifteen times. *)
Definition hdr_window_size (l : list Z) : Z :=
  if hdr_single (byte_at l 4) then hdr_content_size l
  else let b := byte_at l 5 in let base := 2 ^ (10 + b / 8) in base + base / 8 * (b mod 8).

Definition probe_spec (l : list Z) : compr_probe_status :=
  let d := byte_at l 4 in
  if zlen l <? 4 then COMPR_PROBE_NOT_ENOUGH_DATA
  else if negb (le_val (take 4 l) =? 0xfd2fb528) then COMPR_PROBE_WRONG_MAGIC
  else if zlen l <? 6 then COMPR_PROBE_NOT_ENOUGH_DATA
  else if d / 8 mod 2 =? 1 then COMPR_PROBE_RESERVED_FEATURE
  else if negb (d mod 4 =? 0) then COMPR_PROBE_UNIMPLEMENTED_FEATURE
  else if zlen l <? Z.of_nat (hdr_len d) then COMPR_PROBE_NOT_ENOUGH_DATA
  else if Nat.eqb (hdr_fcs_len d) 0 then COMPR_PROBE_SIZE_UNKNOWN
  else COMPR_PROBE_SIZE_KNOWN (hdr_content_size l).

Lemma fcs_size_ok d : is_byte d -> fcs_size d = Z.of_nat (hdr_fcs_len d) /\ u8 (fcs_size d + if flag d Single_Segment_Flag then 0 else 1) = Z.of_nat (hdr_win_len d + hdr_fcs_len d) /\
  flag d Single_Segment_Flag = hdr_single d /\ In (hdr_fcs_len d) [0; 1; 2; 4; 8]%nat.
Proof.
  intros Hd. unfold is_byte in Hd. unfold fcs_size, hdr_fcs_len, hdr_win_len, hdr_single, Single_Segment_Flag.
  rewrite (flag_pow d 5 32) by (done || lia). change (2 ^ 5) with 32. rewrite Z.shiftr_div_pow2 by lia. change (2 ^ 6) with 64.
  assert (d / 64 = 0 \/ d / 64 = 1 \/ d / 64 = 2 \/ d / 64 = 3) as [-> | [-> | [-> | ->]]] by dlia;
    destruct (d / 32 mod 2 =? 1); cbn; tauto.
Qed.

Lemma fcs_value_ok m in_ l : mem_ok m -> bytes_at m in_ l -> In (length l) [1; 2; 4; 8]%nat ->
  fcs_value m in_ (zlen l) = Ok (le_val l + if Nat.eqb (length l) 2 then 256 else 0).
Proof.
  intros Hok Hat Hl. pose proof (bytes_at_is_byte _ _ _ Hok Hat) as Hb. unfold is_byte in Hb.
  destruct l as [|b0 [|b1 [|b2 [|b3 [|b4 [|b5 [|b6 [|b7 [|]]]]]]]]]; try (exfalso; cbn in Hl; lia); clear Hl;
    repeat (apply Forall_cons_1 in Hb as [? Hb]); unfold fcs_value; cbn [length];
    change (Z.of_nat 1) with 1; change (Z.of_nat 2) with 2; change (Z.of_nat 4) with 4; change (Z.of_nat 8) with 8;
    cbn [Z.eqb Pos.eqb Z.leb Z.compare Pos.compare Pos.compare_cont Nat.eqb];
    cbn [mbind res_bind]; load_bytes Hat; cbn [mbind res_bind]; f_equal; cbn [le_val].
  - rewrite ?Z.lor_0_l. lia.
  - rewrite ?Z.lor_0_l. rewrite Z.shiftl_mul_pow2, u64_small by lia. change (2 ^ 8) with 256.
    replace (b1 * 256 + 256) with (Z.shiftl (b1 + 1) 8) by (rewrite Z.shiftl_mul_pow2; lia).
    rewrite Z.lor_comm, lor_byte_step by lia. lia.
  - rewrite ?Z.lor_0_l. rewrite (Z.lor_comm (Z.lor _ _) b0). rewrite (Z.lor_comm _ (Z.shiftl b1 8)), !Z.lor_assoc. lor_bytes. lia.
  - rewrite (Z.lor_comm (Z.lor _ _) b0). rewrite (Z.lor_comm _ (Z.shiftl b1 8)), (Z.lor_comm _ (Z.lor (Z.shiftl b2 16) _)), !Z.lor_assoc.
    lor_bytes. lia.
Qed.

Lemma window_bits b : is_byte b ->
  u64 (Z.shiftl (Z.shiftl (Z.lor 8 (Z.land b 7)) 7) (Z.shiftr b 3)) = 2 ^ (10 + b / 8) + 2 ^ (10 + b / 8) / 8 * (b mod 8).
Proof.
  unfold is_byte. intros Hb. rewrite (land_mod b 3 7) by (done || lia). rewrite Z.shiftr_div_pow2 by lia. change (2 ^ 3) with 8.
  assert (0 <= b mod 8 < 8) as Hm by (apply Z.mod_pos_bound; lia). assert (0 <= b / 8 < 32) as He by dlia.
  set (e := b / 8) in *. set (x := b mod 8) in *. clearbody e x.
  replace (Z.lor 8 x) with (x + 1 * 2 ^ 3) by (rewrite Z.lor_comm; rewrite <- lor_shiftl_add by lia; done).
  rewrite !Z.shiftl_mul_pow2 by lia. rewrite !Z.pow_add_r by lia. change (2 ^ 10) with (128 * 8). change (2 ^ 7) with 128. change (2 ^ 3) with 8.
  replace (128 * 8 * 2 ^ e) with (128 * 2 ^ e * 8) by lia. rewrite Z.div_mul by lia.
  assert (0 < 2 ^ e <= 2 ^ 31) by (split; [apply Z.pow_pos_nonneg; lia | apply Z.pow_le_mono_r; lia]).
  rewrite u64_small by nia. lia.
Qed.

(** The state [init] leaves: no table and no hash yet, the default offsets. *)
Definition init_spec (l : list Z) (st0 : decompressor_state zstd_decode_func) (t : dectables) (xbuf : list Z) : zstd_dec_state :=
  {| zstd_st := set_decode (Some ZstdDecodeBlock) st0;
     tables := {| huff_depth := 0; copy_log := TABLE_NOT_AVAILABLE; length_log := TABLE_NOT_AVAILABLE; dist_log := TABLE_NOT_AVAILABLE;
                  t_dist1 := 1; t_dist2 := 4; t_dist3 := 8; huff_table := huff_table t;
                  copy_table := copy_table t; length_table := length_table t; dist_table := dist_table t |};
     xxh64 := xxh64_init xbuf; window_size := hdr_window_size l;
     have_content_checksum := byte_at l 4 / 4 mod 2 =? 1 |}.

Section Header.
Context (m : mem) (in_ : Z) (l : list Z).
Hypothesis Hok : mem_ok m.
Hypothesis Hat : bytes_at m in_ l.

Lemma hdr_byte i : (i < length l)%nat -> ld8 m (in_ + Z.of_nat i) = Ok (byte_at l i) /\ is_byte (byte_at l i).
Proof.
  intros Hi. split; [by apply ld_words |]. unfold byte_at. pose proof (bytes_at_is_byte _ _ _ Hok Hat) as Hb.
  apply lookup_lt_is_Some in Hi as [x Hx]. rewrite (nth_lookup_Some _ _ _ _ Hx). by eapply Forall_lookup_1 in Hx.
Qed.

Lemma hdr_sub i n : (i + n <= length l)%nat -> bytes_at m (in_ + Z.of_nat i) (take n (drop i l)) /\ length (take n (drop i l)) = n.
Proof.
  intros Hi. split; [| rewrite length_take, length_drop; lia].
  intros j Hj. rewrite length_take, length_drop in Hj. rewrite lookup_take_lt, lookup_drop by lia.
  rewrite <- Hat by lia. f_equal. lia.
Qed.

Lemma hdr_fcs d : d = byte_at l 4 -> (6 <= length l)%nat -> (hdr_len d <= length l)%nat -> hdr_fcs_len d <> 0%nat ->
  fcs_value m (in_ + 5 + Z.of_nat (hdr_win_len d)) (Z.of_nat (hdr_fcs_len d)) = Ok (hdr_content_size l).
Proof.
  intros -> H6 Hl Hn. set (d := byte_at l 4) in *. destruct (fcs_size_ok d) as (_ & _ & _ & Hin); [by apply (hdr_byte 4); lia |].
  unfold hdr_len in Hl. destruct (hdr_sub (5 + hdr_win_len d) (hdr_fcs_len d) ltac:(lia)) as [Hs Hsl].
  replace (in_ + 5 + Z.of_nat (hdr_win_len d)) with (in_ + Z.of_nat (5 + hdr_win_len d)) by lia.
  rewrite <- Hsl at 1. rewrite (fcs_value_ok _ _ _ Hok Hs) by (rewrite Hsl; cbn in Hin |- *; intuition lia).
  unfold hdr_content_size. fold d. by rewrite Hsl.
Qed.

Lemma probe_ok : zstd_probe m in_ (in_ + zlen l) = Ok (probe_spec l).
Proof.
  unfold zstd_probe, probe_spec. replace (in_ + zlen l - in_) with (zlen l) by lia.
  destruct (Z.ltb_spec (zlen l) 4) as [|H4]; [done |]. destruct (hdr_sub 0 4 ltac:(lia)) as [Hs Hsl].
  rewrite Z.add_0_r in Hs. rewrite drop_0 in Hs, Hsl. rewrite (ld32le_ok _ _ _ Hok Hs Hsl). cbn [mbind res_bind].
  destruct (negb _); [done |]. destruct (Z.ltb_spec (zlen l) 6) as [|H6]; [done |].
  destruct (hdr_byte 4 ltac:(lia)) as [Hb4 Hd]. change (Z.of_nat 4) with 4 in Hb4. rewrite Hb4. cbn [mbind res_bind]. set (d := byte_at l 4) in *.
  unfold Frame_Header_Descriptor_RESERVED. rewrite (flag_pow d 3 8) by (done || lia). change (2 ^ 3) with 8.
  destruct (d / 8 mod 2 =? 1); [done |]. unfold flag at 1. rewrite (land_mod d 2 3) by (done || lia). change (2 ^ 2) with 4.
  destruct (negb (d mod 4 =? 0)); [done |]. destruct (fcs_size_ok d Hd) as (Hf & Hu & Hs1 & Hin). rewrite Hu, Hf, Hs1.
  replace (in_ + zlen l - (in_ + 5) <? Z.of_nat (hdr_win_len d + hdr_fcs_len d)) with (zlen l <? Z.of_nat (hdr_len d))
    by (apply Bool.eq_iff_eq_true; rewrite !Z.ltb_lt; unfold hdr_len; lia).
  destruct (Z.ltb_spec (zlen l) (Z.of_nat (hdr_len d))) as [|Hlen]; [done |].
  assert ((if hdr_single d then in_ + 5 else in_ + 5 + 1) = in_ + 5 + Z.of_nat (hdr_win_len d)) as -> by (unfold hdr_win_len; destruct (hdr_single d); lia).
  pose proof (fun H0 => hdr_fcs d eq_refl ltac:(lia) ltac:(lia) H0) as Hv.
  destruct (hdr_fcs_len d) as [|n] eqn:Hn; [done |]. cbn [Nat.eqb]. rewrite Hv by done. cbn [mbind res_bind].
  cbn in Hin. destruct Hin as [? | [<- | [<- | [<- | [<- | []]]]]]; done.
Qed.

Lemma init_ok st0 t xbuf : probe_success (probe_spec l) = true -> Z.of_nat (hdr_len (byte_at l 4)) < zlen l ->
  zstd_init m st0 t xbuf in_ (in_ + zlen l) = Ok (in_ + Z.of_nat (hdr_len (byte_at l 4)), init_spec l st0 t xbuf).
Proof.
  intros Hp Hlt. assert (6 <= zlen l) as H6 by (unfold hdr_len in Hlt; destruct (Z.ltb_spec (zlen l) 6); [|done];
    unfold probe_spec in Hp; destruct (zlen l <? 4); [done |]; destruct (negb _); [done |]; assert ((zlen l <? 6) = true) as Hx by zb; by rewrite Hx in Hp).
  unfold zstd_init. replace (in_ + zlen l - in_) with (zlen l) by lia. assert_ok.
  destruct (hdr_byte 4 ltac:(lia)) as [Hb4 Hd]. change (Z.of_nat 4) with 4 in Hb4. rewrite Hb4. cbn [mbind res_bind]. set (d := byte_at l 4) in *.
  destruct (fcs_size_ok d Hd) as (Hf & Hu & Hs1 & Hin). rewrite Hu, Hf, Hs1. unfold hdr_len in Hlt |- *.
  rewrite (c_assert_true (_ >? _)) by (rewrite Z.gtb_ltb; zb). cbn [mbind res_bind].
  unfold Content_Checksum_Flag. rewrite (flag_pow d 2 4) by (done || lia). change (2 ^ 2) with 4.
  pose proof (fun H0 => hdr_fcs d eq_refl ltac:(lia) ltac:(unfold hdr_len; lia) H0) as Hv. unfold init_spec, hdr_window_size. fold d.
  destruct (hdr_single d) eqn:Hsg; cbn [negb].
  - unfold hdr_win_len in *. rewrite Hsg in *. rewrite Z.add_0_r in Hv.
    assert (hdr_fcs_len d <> 0%nat) as Hn.
    { unfold hdr_fcs_len. rewrite Hsg. destruct (Z.eqb_spec (d / 64) 0); [done |]. assert (0 < 2 ^ (d / 64)); [| lia].
      apply Z.pow_pos_nonneg; [lia |]. unfold is_byte in Hd. dlia. }
    rewrite Hv by done. replace ((Z.of_nat (hdr_fcs_len d) =? 1) || _ || _ || _) with true.
    2: { cbn in Hin. destruct Hin as [? | [<- | [<- | [<- | [<- | []]]]]]; [congruence | done..]. }
    cbn [mbind res_bind]. do 2 f_equal. lia.
  - destruct (hdr_byte 5 ltac:(lia)) as [Hb5 Hbb]. change (Z.of_nat 5) with 5 in Hb5. rewrite Hb5. cbn [mbind res_bind].
    rewrite (window_bits _ Hbb). do 2 f_equal. unfold hdr_win_len. rewrite Hsg. lia.
Qed.
End Header.

(** [probe] and [init] implement the frame header of RFC 8878 and agree.
    On every input [probe] returns the status that the format prescribes, with
    the content size where the header has one; when it succeeds and at least
    one byte follows the header, [init] fails no assertion, stops right behind
    the header, and sets up the window size, the checksum flag, the default
    repeat offsets and tables marked as unavailable. *)
Theorem zstd_probe_init m in_ l : mem_ok m -> bytes_at m in_ l ->
  zstd_probe m in_ (in_ + zlen l) = Ok (probe_spec l) /\
  (probe_success (probe_spec l) = true -> Z.of_nat (hdr_len (byte_at l 4)) < zlen l -> forall st0 t xbuf,
   zstd_init m st0 t xbuf in_ (in_ + zlen l) = Ok (in_ + Z.of_nat (hdr_len (byte_at l 4)), init_spec l st0 t xbuf)).
Proof.
  intros Hok Hat. split; [by apply probe_ok |]. intros Hp Hl st0 t xbuf. by apply init_ok.
Qed.

(** [probe] accepts a header that ends with the input, on which [init] fails
    its assertion. *)
Theorem zstd_init_asserts st0 t xbuf :
  let m := mem_of 0 [0x28; 0xb5; 0x2f; 0xfd; 0x20; 33] in
  zstd_probe m 0 6 = Ok (COMPR_PROBE_SIZE_KNOWN 33) /\ zstd_init m st0 t xbuf 0 6 = Trap TrapAssert.
Proof. split; vm_compute; reflexivity. Qed.

(** ** Blocks of a frame *)

(** [w] is the window in memory, [data] everything that was decoded so far. *)
Record zframe (m : mem) (s : zstd_dec_state) (w data : list Z) : Prop := {
  zf_out : out (zstd_st s) = window_start (zstd_st s) + zlen w;
  zf_win : bytes_at m (window_start (zstd_st s)) w;
  zf_hash : have_content_checksum s = true -> xrep (xxh64 s) data;
}.

(** The last [n] elements. *)
Definition last_n (n : Z) (l : list Z) : list Z := drop (length l - Z.to_nat n) l.

(** Content and encoded size of a raw or RLE block. *)
Definition simple_block (ty size : Z) (body : list Z) : option (list Z * Z) :=
  if ty =? Raw_Block then
    if zlen body <? size then None else Some (take (Z.to_nat size) body, size + 3)
  else match body with [] => None | b :: _ => Some (replicate (Z.to_nat size) b, 4) end.

Definition blk_last (h0 : Z) : bool := h0 mod 2 =? 1.
Definition blk_type (h0 : Z) : Z := h0 / 2 mod 4.
Definition blk_size (h0 h1 h2 : Z) : Z := le_val [h0; h1; h2] / 8.

Lemma blk_header h0 h1 h2 : is_byte h0 -> is_byte h1 -> is_byte h2 ->
  Z.lor (Z.lor (Z.shiftr h0 3) (Z.shiftl h1 5)) (Z.shiftl h2 13) = blk_size h0 h1 h2 /\
  0 <= blk_size h0 h1 h2 < 2 ^ 21 /\ Z.land (Z.shiftr h0 1) 3 = blk_type h0 /\ flag h0 1 = blk_last h0.
Proof.
  unfold is_byte, blk_size, blk_type, blk_last. intros H0 H1 H2. rewrite !Z.shiftr_div_pow2 by lia.
  rewrite (lor_shiftl_add (h0 / 2 ^ 3) h1 5), (lor_shiftl_add _ h2 13), (land_mod _ 2 3), (flag_pow h0 0 1) by (done || dlia).
  cbn [le_val]. rewrite Z.div_1_r. split_and!; try done; dlia.
Qed.

Lemma lz_match_one n w b : lz_match n (w ++ [b]) 1 = w ++ replicate (S n) b.
Proof.
  revert w. induction n as [|n IH]; intros w; [done |]. cbn [lz_match].
  rewrite length_app. cbn [length]. change (Z.to_nat 1) with 1%nat. rewrite Nat.add_sub, app_nth2, Nat.sub_diag by lia. cbn [nth].
  rewrite IH, <- app_assoc. done.
Qed.

(** One byte, repeated. *)
Lemma rle_copy ws oe m w in_ body b n : lz_inv ws oe m w in_ (b :: body) -> 0 < n -> n <= oe - (ws + zlen w) -> n < 2 ^ 32 ->
  exists m', (v ← ld8 m in_; m ← st8 m (ws + zlen w) v; lzcommon_match_copy m (ws + zlen w + 1) 1 (u32 (n - 1))) = Ok m' /\
    bytes_at m' ws (w ++ replicate (Z.to_nat n) b) /\ lz_frame oe m m' (ws + zlen w) /\ mem_ok m'.
Proof.
  intros Hinv Hn Hroom H32. pose proof Hinv as [Hok Hw Hi Haw Hai Hd Hp Ho Ht]. unfold LZCOMMON_BLOCK in *. apply bytes_at_cons in Hi as [Hb Hi].
  rewrite (ld8_eq _ _ _ Hb). cbn [mbind res_bind]. pose proof (Hok _ _ Hb) as Hbyte.
  destruct (st_ok m (ws + zlen w) [b]) as (m1 & Hm1 & Hat1 & Hf1); [eapply accessible_sub; [exact Haw | lia | cbn; lia] | by constructor |].
  cbn [st] in Hm1. destruct (st8 m (ws + zlen w) b) as [m1'|]; [| done]. cbn [mbind res_bind] in Hm1 |- *. injection Hm1 as ->.
  cbn [length] in Hf1. assert (same_dom m m1) as Hd1 by (apply (st_frame_dom m m1 (ws + zlen w) [b]); [eapply accessible_sub; [exact Haw | lia | cbn; lia] | done | done]).
  assert (mem_ok m1) as Hok1 by (apply (st_frame_mem_ok m m1 (ws + zlen w) [b]); [exact Hok | by constructor | done | done]).
  rewrite u32_small by lia. destruct (match_copy_ok m1 ws (w ++ [b]) 1 (n - 1)) as (m2 & Hm2 & Hat2 & Hf2 & Hd2 & Hok2); rewrite ?length_app; cbn [length];
    [lia | lia | lia | lia | done | | eapply accessible_sub; [eapply accessible_same_dom; [exact Hd1 | exact Haw] | lia | unfold LZCOMMON_BLOCK; cbn [length]; lia] |].
  { apply bytes_at_app. split; [| done]. eapply bytes_at_frame; [exact Hf1 | done | lia]. }
  rewrite length_app in Hm2, Hf2. cbn [length] in Hm2, Hf2. exists m2. split; [rewrite <- Hm2; f_equal; lia |]. split_and!.
  - rewrite lz_match_one in Hat2. by replace (S (Z.to_nat (n - 1))) with (Z.to_nat n) in Hat2 by lia.
  - split; [| by eapply same_dom_trans]. unfold LZCOMMON_BLOCK in *.
    eapply frame_trans; [eapply frame_weaken; [exact Hf1 | lia | lia] | eapply frame_weaken; [exact Hf2 | lia | lia]].
  - done.
Qed.

Lemma block_content_simple refill junk m s in_ end_ ty size body w : let ws := window_start (zstd_st s) in let oe := out_end (zstd_st s) in
  lz_inv ws oe m w in_ body -> out (zstd_st s) = ws + zlen w -> end_ = in_ + zlen body ->
  ty = Raw_Block \/ ty = RLE_Block -> 0 <= size < 2 ^ 21 ->
  if oe - (ws + zlen w) <? size then block_content refill junk m s in_ end_ ty size = Ok (inl (DECODE_NEED_MORE_SPACE, tables s, m))
  else match simple_block ty size body with
       | None => block_content refill junk m s in_ end_ ty size = Ok (inl (DECODE_NEED_MORE_DATA, tables s, m))
       | Some (d, n) => exists m', block_content refill junk m s in_ end_ ty size = Ok (inr (size, n, tables s, m')) /\ zlen d = size /\
           bytes_at m' ws (w ++ d) /\ lz_frame oe m m' (ws + zlen w) /\ mem_ok m'
       end.
Proof.
  intros ws oe Hinv Hout -> Hty Hsize. unfold block_content, simple_block. rewrite Hout. fold oe ws.
  replace (in_ + zlen body - in_) with (zlen body) by lia.
  destruct Hty as [-> | ->]; unfold Raw_Block, RLE_Block; cbn [Z.eqb Pos.eqb]; (destruct (Z.ltb_spec (oe - (ws + zlen w)) size) as [|Hroom]; [done |]).
  - destruct (Z.ltb_spec (zlen body) size) as [|Hlen]; [done |]. rewrite <- (take_drop (Z.to_nat size) body) in Hinv.
    assert (zlen (take (Z.to_nat size) body) = size) as Hl by (rewrite length_take; lia).
    destruct (lz_inv_literals ws oe m w in_ _ _ Hinv) as (m' & Hm' & Hinv' & Hf); [lia |]. rewrite Hl in Hm', Hinv'. rewrite Hm'. cbn [mbind res_bind].
    exists m'. split; [do 4 f_equal; lia |]. split; [done |]. destruct Hinv' as [Hok' Hw' _ _ _ _ _ _ _]. done.
  - destruct body as [|b body].
    { by assert ((zlen (@nil Z) <? 1) = true) as -> by done. }
    assert ((zlen (b :: body) <? 1) = false) as -> by (cbn [length]; zb).
    destruct (Z.eqb_spec size 0) as [-> | Hnz]; cbn [negb].
    + cbn [mbind res_bind]. exists m. split; [done |]. split; [done |]. cbn. rewrite app_nil_r. destruct Hinv as [Hok Hw _ _ _ _ _ _ _].
      split_and!; [done | apply lz_frame_refl | done].
    + destruct (rle_copy ws oe m w in_ body b size Hinv) as (m' & Hm' & Hat & Hf & Hok'); [lia | lia | lia |]. rewrite Hm'. cbn [mbind res_bind].
      exists m'. split; [done |]. split; [by rewrite length_replicate; lia |]. done.
Qed.

(** The state after a block: output and hash advance, the window slides. *)
Definition commit_state (s : zstd_dec_state) (t : dectables) (x : xxh64_state) (d_len : Z) (last : bool) : zstd_dec_state :=
  let st := zstd_st s in
  let o := out st + d_len in
  {| zstd_st := {| decode := if last then Some ZstdDecodeTrailer else decode st;
                   window_start := if window_size s <? o - window_start st then o - window_size s else window_start st;
                   out := o; out_end := out_end st |};
     tables := t; xxh64 := x; window_size := window_size s; have_content_checksum := have_content_checksum s |}.

Lemma set_tables_id s : set_tables (tables s) s = s.
Proof. by destruct s. Qed.

Lemma zframe_commit m m' s t x w data d last : zframe m s w data -> bytes_at m' (window_start (zstd_st s)) (w ++ d) ->
  (have_content_checksum s = true -> xrep x (data ++ d)) -> 0 <= window_size s ->
  zframe m' (commit_state s t x (zlen d) last)
    (if window_size s <? zlen (w ++ d) then last_n (window_size s) (w ++ d) else w ++ d) (data ++ d).
Proof.
  intros [Ho Hw Hx] Hat Hx' Hws. unfold commit_state. constructor; cbn [zstd_st out window_start have_content_checksum xxh64]; [| | done].
  all: rewrite Ho; replace (window_start (zstd_st s) + zlen w + zlen d - window_start (zstd_st s)) with (zlen (w ++ d)) by (rewrite length_app; lia);
    destruct (Z.ltb_spec (window_size s) (zlen (w ++ d))) as [Hlt | Hge].
  - unfold last_n. rewrite length_drop. rewrite length_app in *. lia.
  - rewrite length_app. lia.
  - unfold last_n. rewrite <- (take_drop (length (w ++ d) - Z.to_nat (window_size s)) (w ++ d)) in Hat.
    apply bytes_at_app in Hat as [_ Hat]. rewrite length_take in Hat. set (L := drop _ _) in *.
    replace (window_start (zstd_st s) + zlen w + zlen d - window_size s) with
      (window_start (zstd_st s) + Z.of_nat ((length (w ++ d) - Z.to_nat (window_size s)) `min` length (w ++ d))); [done |].
    rewrite length_app in *. lia.
  - done.
Qed.

(** A raw or RLE block is decoded as the format says, on every branch.
    Without room or input [zstd_decode_block] asks for more and changes
    nothing.  Otherwise the content is appended to the window, the consumed
    size is that of the block, the content enters the hash, the window slides
    so that at most [window_size] bytes are kept, the last block switches to
    the trailer, and no byte outside of the room behind the window changes. *)
Theorem zstd_simple_block_correct refill junk m s in_ h0 h1 h2 body w data :
  let st := zstd_st s in
  let ws := window_start st in let oe := out_end st in
  let ty := blk_type h0 in let size := blk_size h0 h1 h2 in
  lz_inv ws oe m w in_ (h0 :: h1 :: h2 :: body) -> zframe m s w data -> ty = Raw_Block \/ ty = RLE_Block -> 0 <= window_size s ->
  let run := zstd_decode_block refill junk m s in_ (in_ + 3 + zlen body) in
  if (oe - out st <=? LZCOMMON_BLOCK) || (oe - out st <? size) then run = Ok (DECODE_NEED_MORE_SPACE, s, m)
  else match simple_block ty size body with
       | None => run = Ok (DECODE_NEED_MORE_DATA, s, m)
       | Some (d, n) => exists x m', let s' := commit_state s (tables s) x (zlen d) (blk_last h0) in
           run = Ok (NUM_DECODE_STATUS + n, s', m') /\ bytes_at m' ws (w ++ d) /\ lz_frame oe m m' (ws + zlen w) /\ mem_ok m' /\
           zframe m' s' (if window_size s <? zlen (w ++ d) then last_n (window_size s) (w ++ d) else w ++ d) (data ++ d)
       end.
Proof.
  intros st ws oe ty size Hinv Hz Hty Hwin run. unfold run, zstd_decode_block. pose proof Hz as [Ho Hw Hx]. fold st ws in Ho. fold st. fold oe.
  pose proof Hinv as [Hok _ Hi _ _ _ Hp Hroom0 Htop]. pose proof (bytes_at_is_byte _ _ _ Hok Hi) as Hby.
  apply Forall_cons_1 in Hby as [B0 Hby]. apply Forall_cons_1 in Hby as [B1 Hby]. apply Forall_cons_1 in Hby as [B2 _].
  assert ((in_ + 3 + zlen body - in_ <? 3) = false) as -> by zb.
  pose proof Hi as Hi'. apply bytes_at_cons in Hi' as [M0 Hi']. apply bytes_at_cons in Hi' as [M1 Hi']. apply bytes_at_cons in Hi' as [M2 _].
  replace (in_ + 1 + 1) with (in_ + 2) in M2 by lia. rewrite (ld8_eq _ _ _ M0), (ld8_eq _ _ _ M1), (ld8_eq _ _ _ M2). cbn [mbind res_bind].
  destruct (blk_header h0 h1 h2 B0 B1 B2) as (-> & Hsz & -> & ->). fold ty size.
  destruct (Z.leb_spec (oe - out st) LZCOMMON_BLOCK) as [|Hbig]; cbn [orb]; [done |].
  assert (lz_inv ws oe m w (in_ + 3) body) as Hinv3 by (apply (lz_inv_drop ws oe m w in_ [h0; h1; h2] body Hinv)).
  pose proof (block_content_simple refill junk m s (in_ + 3) (in_ + 3 + zlen body) ty size body w Hinv3 Ho eq_refl Hty Hsz) as Hc.
  fold st ws oe in Hc. rewrite <- Ho in Hc. destruct (Z.ltb_spec (oe - out st) size) as [|Hfit].
  { rewrite Hc. cbn [mbind res_bind]. by rewrite set_tables_id. }
  destruct (simple_block ty size body) as [[d n]|]; [| rewrite Hc; cbn [mbind res_bind]; by rewrite set_tables_id].
  destruct Hc as (m' & -> & Hd & Hat & Hf & Hok'). cbn [mbind res_bind]. rewrite set_tables_id.
  apply bytes_at_app in Hat as Hat'. destruct Hat' as [_ Hatd]. rewrite <- Ho in Hatd.
  assert (u64 (out st + size - ws) = out st + size - ws) as Hu by (apply u64_small; unfold LZCOMMON_BLOCK in *; lia).
  rewrite <- Hd in Hu |- *. rewrite Nat2Z.id.
  destruct (have_content_checksum s) eqn:Hck; cbn [mbind res_bind].
  - rewrite (ld_bytes_at _ _ _ Hatd). cbn [mbind res_bind]. destruct (xrep_update _ _ d (Hx eq_refl)) as (x & -> & Hx'). cbn [mbind res_bind].
    exists x, m'. cbv zeta. split_and!; [| done | by rewrite Ho in Hf | done | by apply (zframe_commit m)].
    do 3 f_equal. unfold commit_state, zstd_set_st, set_xxh64, set_out, set_window_start, set_decode. cbn. fold st. rewrite Hck. fold ws. rewrite Hu.
    by destruct (window_size s <? _), (blk_last h0).
  - exists (xxh64 s), m'. cbv zeta. split_and!; [| done | by rewrite Ho in Hf | done | by apply (zframe_commit m); [| | by rewrite Hck |]].
    do 3 f_equal. unfold commit_state, zstd_set_st, set_out, set_window_start, set_decode. cbn. fold st. rewrite Hck. fold ws. rewrite Hu.
    by destruct (window_size s <? _), (blk_last h0).
Qed.

(** The trailer accepts exactly the right checksum: with a content
    checksum, the frame ends successfully if and only if the four bytes are the
    low half of the XXH64 of everything that was decoded; without one it ends
    without reading; and the decoder stops in every case. *)
Theorem zstd_trailer_correct m s in_ l w data : mem_ok m -> bytes_at m in_ l -> zframe m s w data ->
  let s' := zstd_set_st (set_decode None (zstd_st s)) s in
  zstd_decode_trailer m s in_ (in_ + zlen l) = Ok
    (if have_content_checksum s then
       if zlen l <? 4 then DECODE_NEED_MORE_DATA
       else if xxh64_oneshot data mod 2 ^ 32 =? le_val (take 4 l) then NUM_DECODE_STATUS + 4 else DECODE_ERR
     else NUM_DECODE_STATUS, s').
Proof.
  intros Hok Hat [_ _ Hx] s'. unfold zstd_decode_trailer. fold s'. change (have_content_checksum s') with (have_content_checksum s).
  destruct (have_content_checksum s); [| done]. replace (in_ + zlen l - in_) with (zlen l) by lia.
  destruct (Z.ltb_spec (zlen l) 4) as [|H4]; [done |]. change (xxh64 s') with (xxh64 s). rewrite (xrep_finalize _ _ (Hx eq_refl)). cbn [mbind res_bind].
  destruct (hdr_sub m in_ l Hat 0 4 ltac:(lia)) as [Hs Hsl]. rewrite Z.add_0_r in Hs. rewrite drop_0 in Hs, Hsl.
  rewrite (ld32le_ok _ _ _ Hok Hs Hsl). cbn [mbind res_bind]. rewrite (land_mod _ 32 0xffffffff) by (done || lia). by destruct (_ =? _).
Qed.

(** ** Concrete runs *)
Definition demo_tables : dectables :=
  {| huff_depth := 9; copy_log := 9; length_log := 9; dist_log := 9; t_dist1 := 99; t_dist2 := 99; t_dist3 := 99;
     huff_table := replicate 2048 {| he_sym := 0; he_len := 0 |};
     copy_table := replicate 512 0; length_table := replicate 512 0; dist_table := replicate 256 0 |}.

Lemma zstd_probe_init_witness :
  let l := [0x28; 0xb5; 0x2f; 0xfd; 0x20; 33; 0] in let m := mem_of 0 l in
  zstd_probe m 0 7 = Ok (COMPR_PROBE_SIZE_KNOWN 33) /\
  forall st0 t xbuf, zstd_init m st0 t xbuf 0 7 = Ok (6, init_spec l st0 t xbuf).
Proof.
  intros l m. destruct (zstd_probe_init m 0 l) as [H1 H2].
  - apply mem_of_ok, bytes_ok. reflexivity.
  - apply mem_of_bytes_at.
  - split; [exact H1 |]. exact (H2 eq_refl eq_refl).
Defined.

(** A decoder in the middle of a frame: three bytes in the window, an RLE
    block of five bytes to decode. *)
Definition demo_state (xs : xxh64_state) : zstd_dec_state :=
  {| zstd_st := {| decode := Some ZstdDecodeBlock; window_start := 0; out := 3; out_end := 20 |};
     tables := demo_tables; xxh64 := xs; window_size := 4; have_content_checksum := true |}.

Lemma demo_frame : exists xs, xxh64_update (xxh64_init (replicate 32 1)) [1; 2; 3] = Ok xs /\
  zframe (lz_layout 20 [1; 2; 3] [43; 0; 0; 77]) (demo_state xs) [1; 2; 3] [1; 2; 3].
Proof.
  destruct (xrep_update _ _ [1; 2; 3] (xrep_init (replicate 32 1) eq_refl)) as (xs & Hxs & Hrep). exists xs. split; [done |].
  constructor; [done | | done]. exact (inv_win _ _ _ _ _ _ (lz_layout_inv 20 [1; 2; 3] [43; 0; 0; 77] ltac:(by apply bytes_ok) ltac:(by apply bytes_ok) ltac:(done) ltac:(done))).
Qed.

Lemma zstd_simple_block_correct_witness : exists xs x m',
  let m := lz_layout 20 [1; 2; 3] [43; 0; 0; 77] in
  zstd_decode_block seq_refill demo_block_junk m (demo_state xs) 28 32
    = Ok (NUM_DECODE_STATUS + 4, commit_state (demo_state xs) demo_tables x 5 true, m') /\
  bytes_at m' 0 [1; 2; 3; 77; 77; 77; 77; 77] /\ window_start (zstd_st (commit_state (demo_state xs) demo_tables x 5 true)) = 4.
Proof.
  destruct demo_frame as (xs & _ & Hz). exists xs.
  destruct (zstd_simple_block_correct seq_refill demo_block_junk (lz_layout 20 [1; 2; 3] [43; 0; 0; 77]) (demo_state xs) 28 43 0 0 [77] [1; 2; 3] [1; 2; 3])
    as (x & m' & Hrun & Hat & _).
  - apply lz_layout_inv; [by apply bytes_ok | by apply bytes_ok | done | done].
  - exact Hz.
  - right. reflexivity.
  - discriminate.
  - exists x, m'. split; [exact Hrun |]. split; [exact Hat | reflexivity].
Defined.

Lemma zstd_trailer_correct_witness : exists xs,
  let m := lz_layout 20 [1; 2; 3] [43; 0; 0; 77] in
  zstd_decode_trailer m (demo_state xs) 28 (28 + zlen [43; 0; 0; 77])
    = Ok (DECODE_ERR, zstd_set_st (set_decode None (zstd_st (demo_state xs))) (demo_state xs)).
Proof.
  destruct demo_frame as (xs & _ & Hz). exists xs. intros m.
  pose proof (lz_layout_inv 20 [1; 2; 3] [43; 0; 0; 77] ltac:(by apply bytes_ok) ltac:(by apply bytes_ok) ltac:(done) ltac:(done)) as Hinv.
  rewrite (zstd_trailer_correct m (demo_state xs) 28 [43; 0; 0; 77] [1; 2; 3] [1; 2; 3] (inv_ok _ _ _ _ _ _ Hinv) (inv_in _ _ _ _ _ _ Hinv) Hz).
  vm_compute. reflexivity.
Defined.
