(* ===== verification/Dram.v ===== *)
(** * DRAM geometry ([src/dram/memorymap.c], [src/dram/mirror.c], [src/dram/read_size.c])

    The sramstage finds out how many column, bank and row bits a channel has by
    looking for address lines that alias, programs the memory map, and passes
    the geometry on in two scratch registers, from which later stages compute
    the size of the memory. *)
From S2P Require Export Cmem.

(** ** Definitions *)

(** [u8] fields. *)
Record sdram_geometry : Type := { csmask : Z; width : Z; col : Z; bank : Z; cs0_row : Z; cs1_row : Z }.

(** Register blocks of a channel, indexed by 32-bit word. *)
Record dmc_regs : Type := { pctl : mem; pi : mem; msch : mem }.

Definition reg (r : mem) (i : Z) : Z := default 0 (r !! i).

Definition set_pctl (i v : Z) (r : dmc_regs) : dmc_regs := {| pctl := <[i := v]> (pctl r); pi := pi r; msch := msch r |}.
Definition set_pi (i v : Z) (r : dmc_regs) : dmc_regs := {| pctl := pctl r; pi := <[i := v]> (pi r); msch := msch r |}.
Definition set_msch (i v : Z) (r : dmc_regs) : dmc_regs := {| pctl := pctl r; pi := pi r; msch := <[i := v]> (msch r) |}.

(** [SET_BITS32(number, value)]: the mask in the upper, the value in the lower half. *)
Definition SET_BITS32 (number value : Z) : Z :=
  Z.lor (u64 (Z.shiftl (Z.shiftl 1 number - 1) 32)) (Z.land (u32 value) (Z.shiftl 1 number - 1)).

Definition clrset32 (v clear set : Z) : Z := Z.lor (Z.land v (u32 (Z.lnot clear))) set.
Definition apply32v (v op : Z) : Z := clrset32 v (u32 (Z.shiftr op 32)) (u32 op).

Definition apply_pctl (i op : Z) (r : dmc_regs) : dmc_regs := set_pctl i (apply32v (reg (pctl r) i) op) r.
Definition apply_pi (i op : Z) (r : dmc_regs) : dmc_regs := set_pi i (apply32v (reg (pi r) i) op) r.

Definition MSCH_DDRCONF : Z := 2.
Definition MSCH_DDRSIZE : Z := 3.
Definition MSCH_TIMING1 : Z := 4.
Definition MSCH_TIMING2 : Z := 5.
Definition MSCH_TIMING3 : Z := 6.
Definition MSCH_DEV2DEV : Z := 7.
Definition MSCH_DDRMODE : Z := 0x110 / 4.
Definition MIRROR_TEST_ADDR : Z := 0x100.

Record msch_config : Type := { timing1 : Z; timing2 : Z; timing3 : Z; dev2dev : Z; ddrmode : Z }.

Definition set_memory_map (geo : sdram_geometry) (r : dmc_regs) : res dmc_regs :=
  let bk_diff := u32 (3 - bank geo) in
  let col_diff := u32 (12 - col geo) in
  let row_diff := u32 (16 - cs0_row geo) in
  let reduc := if negb (width geo =? 2) then 1 else 0 in
  let csm := csmask geo in
  c_assert (col_diff <=? 4) ;;
  c_assert (bk_diff <=? 1) ;;
  let col_op := SET_BITS32 4 col_diff in
  let bk_row_op := Z.lor (u64 (Z.shiftl (SET_BITS32 2 bk_diff) 16)) (u64 (Z.shiftl (SET_BITS32 3 row_diff) 24)) in
  let r := apply_pctl 191 col_op r in
  let r := apply_pctl 190 bk_row_op r in
  let r := apply_pctl 196 (Z.lor (SET_BITS32 2 csm) (u64 (Z.shiftl (SET_BITS32 1 reduc) 16))) r in
  let r := apply_pi 199 col_op r in
  let r := apply_pi 155 bk_row_op r in
  let csm := Z.lor csm (u32 (Z.shiftl csm 2)) in
  Ok (apply_pi 41 (u64 (Z.shiftl (SET_BITS32 4 csm) 24)) r).

Section Probe.
(** The memory behind the controller: its state, and 32-bit accesses, which
    depend on the configuration of the controller. *)
Context {D : Type} (dram_write : dmc_regs -> Z -> Z -> D -> D) (dram_read : dmc_regs -> Z -> D -> Z).

Definition pattern0 : Z := 0.
Definition pattern1 : Z := 0xf00f55aa.

Definition test_mirror (r : dmc_regs) (addr bit : Z) (d : D) : res (bool * D) :=
  let mirror := Z.lxor addr (Z.shiftl 1 bit) in
  let d := dram_write r addr pattern0 d in
  let d := dram_write r mirror pattern1 d in
  let a := dram_read r addr d in
  let b := dram_read r mirror d in
  if b =? pattern1 then
    if a =? pattern0 then Ok (false, d)
    else if a =? pattern1 then Ok (true, d)
    else Trap TrapAbort
  else Trap TrapAbort.

(** [while (test_mirror(addr, off + bits)) {if (bits == min) {die();} bits -= 1;}] *)
Fixpoint probe_bits (fuel : nat) (r : dmc_regs) (addr off min bits : Z) (d : D) : res (Z * D) :=
  match fuel with
  | O => Trap TrapFuel
  | S fuel =>
      '(mirrored, d) ← test_mirror r addr (off + bits) d;
      if negb mirrored then Ok (bits, d)
      else if bits =? min then Trap TrapAbort
      else probe_bits fuel r addr off min (bits - 1) d
  end.

Definition set_geo (csm w c b r0 r1 : Z) : sdram_geometry :=
  {| csmask := csm; width := w; col := c; bank := b; cs0_row := r0; cs1_row := r1 |}.

(** The size of the second rank; [geo->cs1_row] is set when there is one. *)
Definition probe_cs1 (r : dmc_regs) (row_shift cs0_row_bits cs0_size : Z) (geo : sdram_geometry) (d : D)
    : res (dmc_regs * Z * sdram_geometry * D) :=
  if flag (csmask geo) 2 then
    let r := set_msch MSCH_DDRSIZE (Z.lor cs0_size (u32 (Z.shiftl (u32 (4096 / 32 - cs0_size)) 8))) r in
    let test_addr := u32 (MIRROR_TEST_ADDR + u32 (Z.shiftl cs0_size 25)) in
    '(cs1_row_bits, d) ← probe_bits 8 r test_addr (row_shift - 1) 12 cs0_row_bits d;
    Ok (r, u32 (Z.shiftl 1 (cs1_row_bits + row_shift - 25)),
        set_geo (csmask geo) (width geo) (col geo) (bank geo) (cs0_row geo) cs1_row_bits, d)
  else Ok (r, 0, geo, d).

Definition channel_post_init (cfg : msch_config) (r : dmc_regs) (geo : sdram_geometry) (d : D)
    : res (dmc_regs * sdram_geometry * D) :=
  let csm := csmask geo in
  if csm =? 0 then Ok (r, geo, d)
  else
  c_assert (csm <? 4) ;;
  c_assert (flag csm 1) ;;
  let w := width geo in
  let geo := set_geo csm w 12 3 13 13 in
  c_assert ((1 <=? w) && (w <=? 2)) ;;
  r ← set_memory_map geo r;
  let r := set_msch MSCH_DDRSIZE (4096 / 32) r in
  let r := set_msch MSCH_DDRCONF (if w =? 2 then 0x0303 else 0x0202) r in
  '(col_bits, d) ← probe_bits 4 r MIRROR_TEST_ADDR (w - 1) 9 12 d;
  let geo := set_geo csm w col_bits 3 13 13 in
  let bank_shift := w + col_bits in
  c_assert ((11 <=? bank_shift) && (bank_shift <=? 14)) ;;
  let ddrconf := bank_shift - 11 in
  '(mirrored, d) ← test_mirror r MIRROR_TEST_ADDR (w + 14) d;
  let bank_bits := if mirrored : bool then 2 else 3 in
  let row_shift := w + col_bits + bank_bits in
  let max_row_bits := if 32 <? row_shift + 16 then 32 - row_shift else 16 in
  let geo := set_geo csm w col_bits bank_bits max_row_bits 13 in
  r ← set_memory_map geo r;
  let r := set_msch MSCH_DDRCONF (Z.lor ddrconf (Z.shiftl ddrconf 8)) r in
  let r := set_msch MSCH_DDRSIZE (4096 / 32) r in
  '(cs0_row_bits, d) ← probe_bits 8 r MIRROR_TEST_ADDR (row_shift - 1) 12 max_row_bits d;
  let geo := set_geo csm w col_bits bank_bits cs0_row_bits 13 in
  let cs0_size := u32 (Z.shiftl 1 (cs0_row_bits + row_shift - 25)) in
  '(r, cs1_size, geo, d) ← probe_cs1 r row_shift cs0_row_bits cs0_size geo d;
  let ddrsize := Z.lor cs0_size (u32 (Z.shiftl cs1_size 8)) in
  r ← set_memory_map geo r;
  let r := set_msch MSCH_DDRCONF ddrconf r in
  let r := set_msch MSCH_DDRSIZE ddrsize r in
  let r := set_msch MSCH_TIMING1 (timing1 cfg) r in
  let r := set_msch MSCH_TIMING2 (timing2 cfg) r in
  let r := set_msch MSCH_TIMING3 (timing3 cfg) r in
  let r := set_msch MSCH_DEV2DEV (dev2dev cfg) r in
  let r := set_msch MSCH_DDRMODE (ddrmode cfg) r in
  Ok (r, geo, d).
End Probe.

(** *** The scratch registers *)
Definition LPDDR4 : Z := 7.

(** [block_infos] and [reg3_infos] of a channel. *)
Definition channel_infos (g : sdram_geometry) : res (Z * Z) :=
  let bw := Z.shiftr 2 (width g) in
  let dbw := 1 in
  let block_infos := Z.shiftl (if csmask g =? 3 then 1 else 0) 11 in
  let col_diff := u32 (col g - 9) in
  c_assert (col_diff <=? 3) ;;
  let block_infos := Z.lor block_infos (Z.shiftl col_diff 9) in
  let reg3_infos := col_diff in
  let bank_diff := u32 (3 - bank g) in
  c_assert (bank_diff <=? 1) ;;
  let block_infos := Z.lor block_infos (Z.shiftl bank_diff 8) in
  let cs0_row_diff := u32 (cs0_row g - 13) in
  let cs1_row_diff := u32 (cs1_row g - 13) in
  c_assert ((12 <=? cs0_row g) && (cs0_row g <=? 19)) ;;
  let block_infos := Z.lor block_infos (Z.land (u32 (Z.shiftl cs0_row_diff 6)) 0xc0) in
  let reg3_infos := Z.lor reg3_infos (Z.land (u32 (Z.shiftl cs0_row_diff 3)) 0x20) in
  c_assert ((12 <=? cs1_row g) && (cs1_row g <=? 19)) ;;
  let block_infos := Z.lor block_infos (Z.land (u32 (Z.shiftl cs1_row_diff 4)) 0x30) in
  let reg3_infos := Z.lor reg3_infos (Z.land (u32 (Z.shiftl cs1_row_diff 2)) 0x10) in
  Ok (Z.lor block_infos (Z.lor (Z.shiftl bw 2) dbw), reg3_infos).

(** One round of [for_range(i, 0, 2)]. *)
Definition encode_channel (i : Z) (g : sdram_geometry) (osregs : Z * Z) : res (Z * Z) :=
  let '(osreg2, osreg3) := osregs in
  if csmask g =? 0 then Ok (osreg2, osreg3)
  else
  '(block_infos, reg3_infos) ← channel_infos g;
  Ok (Z.lor osreg2 (Z.lor (u32 (Z.shiftl block_infos (16 * i))) (Z.shiftl 1 (28 + i))),
      Z.lor osreg3 (u32 (Z.shiftl reg3_infos (2 * i)))).

(** [OS_REG2] and [OS_REG3] for the two channels. *)
Definition encode_dram_size (geo0 geo1 : sdram_geometry) : res (Z * Z) :=
  let active g := if negb (csmask g =? 0) then 1 else 0 in
  let osreg2 := Z.lor (u32 (Z.shiftl (u32 (active geo0 + active geo1 - 1)) 12)) (Z.shiftl LPDDR4 13) in
  regs ← encode_channel 0 geo0 (osreg2, 0x20000000);
  encode_channel 1 geo1 regs.

Definition rank_size (rows_lower rows_upper col_diff : Z) : Z :=
  let row_bits := Z.land (Z.lor (Z.land rows_upper 4) (Z.land rows_lower 3) + 1) 7 + 12 in
  let col_bits := Z.land col_diff 3 + 9 in
  u64 (Z.shiftl (Z.shiftl 1 row_bits) col_bits).

Definition channel_size (osreg2 osreg3 i : Z) : Z :=
  if negb (flag osreg2 (Z.shiftl 1 (28 + i))) then 0
  else
  let block_infos := Z.land (Z.shiftr osreg2 (16 * i)) 0xfff in
  let reg3_infos := Z.land (Z.shiftr osreg3 (2 * i)) 0x33 in
  let ch_size := rank_size (Z.shiftr block_infos 6) (Z.shiftr reg3_infos 3) (Z.shiftr block_infos 9) in
  let ch_size :=
    if flag block_infos 0x800
    then u64 (ch_size + rank_size (Z.shiftr block_infos 4) (Z.shiftr reg3_infos 2) reg3_infos) else ch_size in
  let ch_size :=
    if flag osreg2 (Z.shiftl (Z.shiftl 1 30) i) then u64 (Z.shiftr ch_size 1 + Z.shiftr ch_size 2) else ch_size in
  let bank_bits := 3 - Z.land (Z.shiftr block_infos 8) 1 in
  let width_bits := Z.shiftr 2 (Z.land (Z.shiftr block_infos 2) 3) in
  u64 (Z.shiftl (u64 (Z.shiftl ch_size bank_bits)) width_bits).

Definition dram_size (osreg2 osreg3 : Z) : Z :=
  let total_size := u64 (channel_size osreg2 osreg3 0 + channel_size osreg2 osreg3 1) in
  if 0xf8000000 <=? total_size then 0xf8000000 else u32 total_size.

(** ** Encoding and decoding the size *)

(** Geometries the code supports. *)
Record geo_ok (g : sdram_geometry) : Prop := {
  go_cs : csmask g = 1 \/ csmask g = 3;
  go_width : 1 <= width g <= 2;
  go_col : 9 <= col g <= 12;
  go_bank : 2 <= bank g <= 3;
  go_row0 : 12 <= cs0_row g <= 19;
  go_row1 : 12 <= cs1_row g <= 19;
}.

Definition inactive (g : sdram_geometry) : Prop := csmask g = 0.

(** Bytes of a rank and of a channel. *)
Definition rank_bytes (g : sdram_geometry) (rows : Z) : Z := 2 ^ (rows + col g + bank g + width g).
Definition geo_bytes (g : sdram_geometry) : Z :=
  if csmask g =? 0 then 0 else rank_bytes g (cs0_row g) + if csmask g =? 3 then rank_bytes g (cs1_row g) else 0.

(** All supported geometries, for exhaustive checks. *)
Definition all_geos : list sdram_geometry :=
  flat_map (fun c => flat_map (fun w => flat_map (fun cl => flat_map (fun b => flat_map (fun r0 => map (fun r1 =>
    set_geo c w cl b r0 r1) (range 12 20)) (range 12 20)) (range 2 4)) (range 9 13)) (range 1 3)) [1; 3].

Lemma in_range a b x : a <= x < b -> In x (range a b).
Proof. intros Hx. apply list_elem_of_In, elem_of_seqZ. lia. Qed.

Lemma all_geos_complete g : geo_ok g -> In g all_geos.
Proof.
  intros [Hc Hw Hl Hb H0 H1]. destruct g as [c w cl b r0 r1]. cbn in Hc, Hw, Hl, Hb, H0, H1. unfold all_geos.
  rewrite in_flat_map. exists c. split; [cbn; lia |]. rewrite in_flat_map. exists w. split; [apply in_range; lia |].
  rewrite in_flat_map. exists cl. split; [apply in_range; lia |]. rewrite in_flat_map. exists b. split; [apply in_range; lia |].
  rewrite in_flat_map. exists r0. split; [apply in_range; lia |]. rewrite in_map_iff. exists r1. split; [done | apply in_range; lia].
Qed.

(** What [channel_size] does with the two fields of a channel. *)
Definition size_of_infos (block_infos reg3_infos : Z) : Z :=
  let ch_size := rank_size (Z.shiftr block_infos 6) (Z.shiftr reg3_infos 3) (Z.shiftr block_infos 9) in
  let ch_size :=
    if flag block_infos 0x800
    then u64 (ch_size + rank_size (Z.shiftr block_infos 4) (Z.shiftr reg3_infos 2) reg3_infos) else ch_size in
  let bank_bits := 3 - Z.land (Z.shiftr block_infos 8) 1 in
  let width_bits := Z.shiftr 2 (Z.land (Z.shiftr block_infos 2) 3) in
  u64 (Z.shiftl (u64 (Z.shiftl ch_size bank_bits)) width_bits).

Definition infos_check (g : sdram_geometry) : bool :=
  match channel_infos g with
  | Ok (b, r) => (0 <=? b) && (b <? 2 ^ 12) && (0 <=? r) && (r <? 2 ^ 6) && (Z.land r 0x33 =? r) && (size_of_infos b r =? geo_bytes g)
  | Trap _ => false
  end.

Lemma infos_ok g : geo_ok g -> exists b r, channel_infos g = Ok (b, r) /\ 0 <= b < 2 ^ 12 /\ 0 <= r < 2 ^ 6 /\ Z.land r 0x33 = r /\
  size_of_infos b r = geo_bytes g.
Proof.
  intros Hg. assert (forallb infos_check all_geos = true) as H by (vm_compute; reflexivity).
  rewrite forallb_forall in H. specialize (H g (all_geos_complete g Hg)). unfold infos_check in H.
  destruct (channel_infos g) as [[b r]|]; [| done]. exists b, r. split; [done |]. lia.
Qed.

(** The field of a channel in [OS_REG2] and [OS_REG3]. *)
Lemma field_lor a b k m : Z.land (Z.shiftr (Z.lor a b) k) m = Z.lor (Z.land (Z.shiftr a k) m) (Z.land (Z.shiftr b k) m).
Proof. by rewrite Z.shiftr_lor, Z.land_lor_distr_l. Qed.

Lemma flag_lor a b m : flag (Z.lor a b) m = flag a m || flag b m.
Proof.
  unfold flag. rewrite Z.land_lor_distr_l. destruct (Z.eqb_spec (Z.land a m) 0) as [-> | Ha]; cbn [negb orb]; [by rewrite Z.lor_0_l |].
  destruct (Z.eqb_spec (Z.lor (Z.land a m) (Z.land b m)) 0) as [H0 |]; [| done]. apply Z.lor_eq_0_iff in H0 as [? _]. done.
Qed.

Lemma flag_small a n k : 0 <= a < 2 ^ n -> 0 <= n <= k -> flag a (2 ^ k) = false.
Proof. intros Ha Hk. rewrite flag_bit by lia. by apply (testbit_small a n). Qed.

Lemma flag_shiftl a n i k : 0 <= a < 2 ^ n -> 0 <= i -> 0 <= n -> n + i <= k -> flag (Z.shiftl a i) (2 ^ k) = false.
Proof.
  intros Ha Hi Hn Hk. apply (flag_small _ (n + i)); [| lia]. rewrite Z.shiftl_mul_pow2, Z.pow_add_r by lia. assert (0 < 2 ^ i) by (apply Z.pow_pos_nonneg; lia). nia.
Qed.

Lemma field_small a n m : 0 <= a < 2 ^ n -> 0 <= n -> m = 2 ^ n - 1 -> Z.land a m = a.
Proof. intros Ha Hn ->. rewrite land_ones_mod by lia. by apply Z.mod_small. Qed.

(** The words that [encode_dram_size] builds: [a0] and [a1] say which channels are active. *)
Definition os2 (base : Z) (a0 a1 : bool) (b0 b1 : Z) : Z :=
  Z.lor (Z.lor base (if a0 then Z.lor b0 (2 ^ 28) else 0)) (if a1 then Z.lor (Z.shiftl b1 16) (2 ^ 29) else 0).
Definition os3 (a0 a1 : bool) (r0 r1 : Z) : Z :=
  Z.lor (Z.lor 0x20000000 (if a0 then r0 else 0)) (if a1 then Z.shiftl r1 2 else 0).

Section Decode.
Context (base b0 b1 r0 r1 : Z) (a0 a1 : bool).
Hypothesis Hbase : base = 0xe000 \/ base = 0xf000.
Hypothesis Hb0 : 0 <= b0 < 2 ^ 12.
Hypothesis Hb1 : 0 <= b1 < 2 ^ 12.
Hypothesis Hr0 : 0 <= r0 < 2 ^ 6 /\ Z.land r0 0x33 = r0.
Hypothesis Hr1 : 0 <= r1 < 2 ^ 6 /\ Z.land r1 0x33 = r1.

(** The columns of the two channels in [OS_REG3] do not collide. *)
Lemma reg3_apart r : Z.land r 0x33 = r -> Z.land (Z.shiftl r 2) 0x33 = 0 /\ Z.land (Z.shiftr r 2) 0x33 = 0.
Proof.
  intros Hr. rewrite <- Hr. split; bitwise; rewrite Z.bits_0.
  - destruct (Z.lt_ge_cases n 2); [rewrite Z.testbit_neg_r by lia; done |].
    destruct (Z.lt_ge_cases n 8) as [|Hge]; [| rewrite (testbit_small 0x33 6 n) by lia; apply andb_false_r].
    assert (n = 2 \/ n = 3 \/ n = 4 \/ n = 5 \/ n = 6 \/ n = 7) as [-> | [-> | [-> | [-> | [-> | ->]]]]] by lia; cbn; by rewrite ?andb_false_r.
  - destruct (Z.lt_ge_cases n 6) as [|Hge]; [| rewrite (testbit_small 0x33 6 n) by lia; apply andb_false_r].
    assert (n = 0 \/ n = 1 \/ n = 2 \/ n = 3 \/ n = 4 \/ n = 5) as [-> | [-> | [-> | [-> | [-> | ->]]]]] by lia; cbn; by rewrite ?andb_false_r.
Qed.

Lemma channel0_decode : channel_size (os2 base a0 a1 b0 b1) (os3 a0 a1 r0 r1) 0 = if a0 then size_of_infos b0 r0 else 0.
Proof.
  unfold channel_size, os2, os3. change (Z.shiftl 1 (28 + 0)) with (2 ^ 28). change (Z.shiftl (Z.shiftl 1 30) 0) with (2 ^ 30).
  change (16 * 0) with 0. change (2 * 0) with 0. rewrite !flag_lor.
  assert (flag base (2 ^ 28) = false /\ flag base (2 ^ 30) = false /\ Z.land (Z.shiftr base 0) 0xfff = 0) as (-> & -> & Hz)
    by (destruct Hbase as [-> | ->]; done).
  assert (flag (if a1 then Z.lor (Z.shiftl b1 16) (2 ^ 29) else 0) (2 ^ 28) = false) as ->
    by (destruct a1; [rewrite flag_lor, (flag_shiftl b1 12) by lia; done | done]).
  assert (flag (if a1 then Z.lor (Z.shiftl b1 16) (2 ^ 29) else 0) (2 ^ 30) = false) as ->
    by (destruct a1; [rewrite flag_lor, (flag_shiftl b1 12) by lia; done | done]).
  destruct a0; [| done]. rewrite !flag_lor, !(flag_small b0 12) by lia. cbn [orb negb]. change (flag (2 ^ 28) (2 ^ 28)) with true.
  change (flag (2 ^ 28) (2 ^ 30)) with false. cbn [orb negb].
  rewrite !field_lor, Hz, !Z.shiftr_0_r, Z.lor_0_l. rewrite (field_small b0 12) by (done || lia). change (Z.land (2 ^ 28) 0xfff) with 0.
  change (Z.land 0x20000000 0x33) with 0. rewrite (proj2 Hr0), Z.lor_0_l, Z.lor_0_r.
  assert (Z.land (if a1 then Z.shiftl r1 2 else 0) 0x33 = 0) as -> by (destruct a1; [apply reg3_apart, Hr1 | done]).
  assert (Z.land (if a1 then Z.lor (Z.shiftl b1 16) (2 ^ 29) else 0) 0xfff = 0) as ->.
  { destruct a1; [| done]. rewrite Z.land_lor_distr_l. change (Z.land (2 ^ 29) 0xfff) with 0. rewrite Z.lor_0_r, Z.land_comm. by apply land_small_shiftl. }
  rewrite !Z.lor_0_r. done.
Qed.

Lemma channel1_decode : channel_size (os2 base a0 a1 b0 b1) (os3 a0 a1 r0 r1) 1 = if a1 then size_of_infos b1 r1 else 0.
Proof.
  unfold channel_size, os2, os3. change (Z.shiftl 1 (28 + 1)) with (2 ^ 29). change (Z.shiftl (Z.shiftl 1 30) 1) with (2 ^ 31).
  change (16 * 1) with 16. change (2 * 1) with 2. rewrite !flag_lor.
  assert (flag base (2 ^ 29) = false /\ flag base (2 ^ 31) = false /\ Z.land (Z.shiftr base 16) 0xfff = 0) as (-> & -> & Hz)
    by (destruct Hbase as [-> | ->]; done).
  assert (flag (if a0 then Z.lor b0 (2 ^ 28) else 0) (2 ^ 29) = false) as ->
    by (destruct a0; [rewrite flag_lor, (flag_small b0 12) by lia; done | done]).
  assert (flag (if a0 then Z.lor b0 (2 ^ 28) else 0) (2 ^ 31) = false) as ->
    by (destruct a0; [rewrite flag_lor, (flag_small b0 12) by lia; done | done]).
  destruct a1; [| done]. rewrite !flag_lor, !(flag_shiftl b1 12) by lia. cbn [orb negb]. change (flag (2 ^ 29) (2 ^ 29)) with true.
  change (flag (2 ^ 29) (2 ^ 31)) with false. cbn [orb negb].
  rewrite !field_lor, Hz, Z.lor_0_l. rewrite !Z.shiftr_shiftl_l by lia. rewrite !Z.sub_diag, !Z.shiftl_0_r.
  rewrite (field_small b1 12) by (done || lia). change (Z.land (Z.shiftr (2 ^ 29) 16) 0xfff) with 0.
  change (Z.land (Z.shiftr 0x20000000 2) 0x33) with 0. rewrite (proj2 Hr1), Z.lor_0_l.
  assert (Z.land (Z.shiftr (if a0 then r0 else 0) 2) 0x33 = 0) as -> by (destruct a0; [apply reg3_apart, Hr0 | done]).
  assert (Z.land (Z.shiftr (if a0 then Z.lor b0 (2 ^ 28) else 0) 16) 0xfff = 0) as ->.
  { destruct a0; [| done]. rewrite field_lor. change (Z.land (Z.shiftr (2 ^ 28) 16) 0xfff) with 0.
    rewrite Z.lor_0_r, Z.shiftr_div_pow2, Z.div_small by lia. done. }
  rewrite !Z.lor_0_l, !Z.lor_0_r. done.
Qed.
End Decode.

Lemma geo_bytes_bound g : geo_ok g -> 0 < geo_bytes g <= 2 ^ 37.
Proof.
  intros [Hc Hw Hl Hb H0 H1]. unfold geo_bytes, rank_bytes.
  assert (0 < 2 ^ (cs0_row g + col g + bank g + width g) <= 2 ^ 36) by (split; [apply Z.pow_pos_nonneg; lia | apply Z.pow_le_mono_r; lia]).
  assert (0 < 2 ^ (cs1_row g + col g + bank g + width g) <= 2 ^ 36) by (split; [apply Z.pow_pos_nonneg; lia | apply Z.pow_le_mono_r; lia]).
  destruct Hc as [-> | ->]; cbn [Z.eqb Pos.eqb]; lia.
Qed.

Lemma encode_channel_ok i g o2 o3 : i = 0 \/ i = 1 -> inactive g \/ geo_ok g ->
  exists b r, encode_channel i g (o2, o3) = Ok (Z.lor o2 (if negb (csmask g =? 0) then Z.lor (Z.shiftl b (16 * i)) (2 ^ (28 + i)) else 0),
      Z.lor o3 (if negb (csmask g =? 0) then Z.shiftl r (2 * i) else 0)) /\
    0 <= b < 2 ^ 12 /\ (0 <= r < 2 ^ 6 /\ Z.land r 0x33 = r) /\ (if negb (csmask g =? 0) then size_of_infos b r else 0) = geo_bytes g.
Proof.
  intros Hi [Hin | Hg]; unfold encode_channel.
  - unfold inactive in Hin. unfold geo_bytes. rewrite Hin. exists 0, 0. cbn [Z.eqb negb]. rewrite !Z.lor_0_r. done.
  - assert ((csmask g =? 0) = false) as -> by (destruct (go_cs g Hg) as [-> | ->]; done). cbn [negb].
    destruct (infos_ok g Hg) as (b & r & -> & Hb & Hr & Hm & Hs). cbn [mbind res_bind]. exists b, r. split; [| done].
    rewrite !Z.shiftl_mul_pow2 by lia. rewrite Z.mul_1_l. rewrite !u32_small; [done | | ]; destruct Hi as [-> | ->]; cbn; lia.
Qed.

(** C36: The size survives the hand-over between boot stages.  For every
    supported geometry of the two channels, of which at least one is active,
    [encode_dram_size] fails no assertion, and [dram_size] computes from the
    two scratch registers the number of bytes of all ranks of both channels,
    clipped to the end of the DRAM window. *)
Theorem dram_size_roundtrip g0 g1 : inactive g0 \/ geo_ok g0 -> inactive g1 \/ geo_ok g1 -> ~ (inactive g0 /\ inactive g1) ->
  exists osreg2 osreg3, encode_dram_size g0 g1 = Ok (osreg2, osreg3) /\
    dram_size osreg2 osreg3 = Z.min 0xf8000000 (geo_bytes g0 + geo_bytes g1).
Proof.
  intros H0 H1 Hn. unfold encode_dram_size. set (base := Z.lor _ _).
  destruct (encode_channel_ok 0 g0 base 0x20000000 ltac:(by left) H0) as (b0 & r0 & -> & Hb0 & Hr0 & S0). cbn [mbind res_bind].
  match goal with |- context [encode_channel 1 g1 (?a, ?b)] =>
    destruct (encode_channel_ok 1 g1 a b ltac:(by right) H1) as (b1 & r1 & -> & Hb1 & Hr1 & S1) end.
  eexists _, _. split; [done |].
  assert (base = 0xe000 \/ base = 0xf000) as Hbase.
  { unfold base, inactive in *. destruct (Z.eqb_spec (csmask g0) 0), (Z.eqb_spec (csmask g1) 0); cbn [negb]; [tauto | left | left | right]; reflexivity. }
  change (16 * 0) with 0. change (16 * 1) with 16. change (2 * 0) with 0. change (2 * 1) with 2. change (28 + 0) with 28. change (28 + 1) with 29.
  rewrite !Z.shiftl_0_r. unfold dram_size.
  pose proof (channel0_decode base b0 b1 r0 r1 (negb (csmask g0 =? 0)) (negb (csmask g1 =? 0)) Hbase Hb0 Hb1 Hr0 Hr1) as C0.
  pose proof (channel1_decode base b0 b1 r0 r1 (negb (csmask g0 =? 0)) (negb (csmask g1 =? 0)) Hbase Hb0 Hb1 Hr0 Hr1) as C1.
  unfold os2, os3 in C0, C1. rewrite C0, C1, S0, S1.
  assert (0 <= geo_bytes g0 <= 2 ^ 37 /\ 0 <= geo_bytes g1 <= 2 ^ 37) as [B0 B1].
  { assert (forall g, inactive g \/ geo_ok g -> 0 <= geo_bytes g <= 2 ^ 37) as H; [| by split; apply H].
    intros g [Hi | Hg]; [unfold geo_bytes; rewrite Hi; cbn; lia | pose proof (geo_bytes_bound g Hg); lia]. }
  rewrite u64_small by lia. destruct (Z.leb_spec 0xf8000000 (geo_bytes g0 + geo_bytes g1)); [lia |]. rewrite u32_small by lia. lia.
Qed.

Lemma dram_size_roundtrip_witness :
  exists osreg2 osreg3, encode_dram_size (set_geo 3 2 10 3 15 15) (set_geo 0 0 0 0 0 0) = Ok (osreg2, osreg3) /\
    dram_size osreg2 osreg3 = 2 ^ 31.
Proof.
  apply (dram_size_roundtrip (set_geo 3 2 10 3 15 15) (set_geo 0 0 0 0 0 0)).
  - right. constructor; cbn; lia.
  - left. reflexivity.
  - intros [H _]. discriminate H.
Defined.

(** ** Probing the geometry *)

(** Columns, banks and rows that a register block is configured for. *)
Definition map_fields (r : dmc_regs) (c b rows : Z) : Prop :=
  Z.land (reg (pctl r) 191) 15 = 12 - c /\ Z.land (Z.shiftr (reg (pctl r) 190) 16) 3 = 3 - b /\
  Z.land (Z.shiftr (reg (pctl r) 190) 24) 7 = 16 - rows.

Lemma field_update v clear set k m : Z.land (Z.shiftr (u32 (Z.lnot clear)) k) m = 0 ->
  Z.land (Z.shiftr (clrset32 v clear set) k) m = Z.land (Z.shiftr set k) m.
Proof.
  intros Hc. unfold clrset32. rewrite field_lor, Z.shiftr_land, <- Z.land_assoc, Hc, Z.land_0_r. apply Z.lor_0_l.
Qed.

Lemma reg_insert m i v : reg (<[i := v]> m) i = v.
Proof. unfold reg. by rewrite lookup_insert_eq. Qed.
Lemma reg_insert_ne m i j v : i <> j -> reg (<[i := v]> m) j = reg m j.
Proof. intros H. unfold reg. by rewrite lookup_insert_ne. Qed.

(** [set_memory_map] programs its geometry and leaves the scheduler alone. *)
Lemma set_memory_map_ok geo r : 9 <= col geo <= 12 -> 2 <= bank geo <= 3 -> 12 <= cs0_row geo <= 16 ->
  exists r', set_memory_map geo r = Ok r' /\ map_fields r' (col geo) (bank geo) (cs0_row geo) /\ msch r' = msch r.
Proof.
  intros Hc Hb Hr. unfold set_memory_map. rewrite (u32_small (3 - bank geo)), (u32_small (12 - col geo)), (u32_small (16 - cs0_row geo)) by lia.
  rewrite (c_assert_true (12 - col geo <=? 4)), (c_assert_true (3 - bank geo <=? 1)) by zb. cbn [mbind res_bind].
  eexists. split; [done |]. split; [| done]. unfold map_fields, apply_pi, apply_pctl, set_pi, set_pctl. cbn [pctl pi msch].
  rewrite (reg_insert_ne _ 196 191), (reg_insert_ne _ 196 190), (reg_insert_ne _ 190 191), reg_insert by lia.
  rewrite !(reg_insert_ne _ 191 190), reg_insert by lia. unfold apply32v.
  split; [| split].
  - rewrite <- (Z.shiftr_0_r (clrset32 _ _ _)).
    assert (col geo = 9 \/ col geo = 10 \/ col geo = 11 \/ col geo = 12) as [-> | [-> | [-> | ->]]] by lia; by rewrite field_update.
  - assert (bank geo = 2 \/ bank geo = 3) as [-> | ->] by lia;
    assert (cs0_row geo = 12 \/ cs0_row geo = 13 \/ cs0_row geo = 14 \/ cs0_row geo = 15 \/ cs0_row geo = 16)
      as [-> | [-> | [-> | [-> | ->]]]] by lia; by rewrite field_update.
  - assert (bank geo = 2 \/ bank geo = 3) as [-> | ->] by lia;
    assert (cs0_row geo = 12 \/ cs0_row geo = 13 \/ cs0_row geo = 14 \/ cs0_row geo = 15 \/ cs0_row geo = 16)
      as [-> | [-> | [-> | [-> | ->]]]] by lia; by rewrite field_update.
Qed.

(** The memory that the code finds: an address selects a cell, depending on
    the configuration, and a cell holds what was last written to it. *)
Class Dram {D : Type} (dram_write : dmc_regs -> Z -> Z -> D -> D) (dram_read : dmc_regs -> Z -> D -> Z) (cell : dmc_regs -> Z -> Z) : Prop := {
  dram_law : forall r a b v d, dram_read r a (dram_write r b v d) = if cell r a =? cell r b then v else dram_read r a d;
}.

(** Toggling an address bit does not select another cell. *)
Definition alias (cell : dmc_regs -> Z -> Z) (r : dmc_regs) (addr bit : Z) : bool :=
  cell r addr =? cell r (Z.lxor addr (2 ^ bit)).

(** Size of a rank in units of 32 MiB. *)
Definition rank_units (g : sdram_geometry) (rows : Z) : Z := 2 ^ (rows + (width g + col g + bank g) - 25).

(** How a channel with geometry [g] decodes addresses: a bit of the configured
    column, bank or row that the devices lack has no effect. *)
Record channel_hw (g : sdram_geometry) (cell : dmc_regs -> Z -> Z) : Prop := {
  hw_col : forall r c, map_fields r 12 3 13 -> reg (msch r) MSCH_DDRCONF = (if width g =? 2 then 0x0303 else 0x0202) -> 9 <= c <= 12 ->
    alias cell r MIRROR_TEST_ADDR (width g - 1 + c) = (col g <? c);
  hw_bank : forall r, map_fields r 12 3 13 -> reg (msch r) MSCH_DDRCONF = (if width g =? 2 then 0x0303 else 0x0202) ->
    alias cell r MIRROR_TEST_ADDR (width g + 14) = (bank g =? 2);
  hw_row0 : forall r mr n, map_fields r (col g) (bank g) mr -> let k := width g + col g - 11 in
    reg (msch r) MSCH_DDRCONF = Z.lor k (Z.shiftl k 8) -> reg (msch r) MSCH_DDRSIZE = 128 -> 12 <= n <= mr ->
    alias cell r MIRROR_TEST_ADDR (width g + col g + bank g - 1 + n) = (cs0_row g <? n);
  hw_row1 : forall r mr n, map_fields r (col g) (bank g) mr -> let k := width g + col g - 11 in let u := rank_units g (cs0_row g) in
    reg (msch r) MSCH_DDRCONF = Z.lor k (Z.shiftl k 8) -> reg (msch r) MSCH_DDRSIZE = Z.lor u (Z.shiftl (128 - u) 8) -> 12 <= n <= cs0_row g ->
    alias cell r (MIRROR_TEST_ADDR + rank_bytes g (cs0_row g)) (width g + col g + bank g - 1 + n) = (cs1_row g <? n);
}.

Section Detect.
Context {D : Type} (dram_write : dmc_regs -> Z -> Z -> D -> D) (dram_read : dmc_regs -> Z -> D -> Z) (cell : dmc_regs -> Z -> Z).
Context `{Hd : !Dram dram_write dram_read cell}.

Lemma test_mirror_ok r addr bit d : 0 <= bit -> exists d', test_mirror dram_write dram_read r addr bit d = Ok (alias cell r addr bit, d').
Proof.
  intros Hb. unfold test_mirror, alias. rewrite Z.shiftl_1_l. rewrite !dram_law, !Z.eqb_refl.
  destruct (Z.eqb_spec (cell r addr) (cell r (Z.lxor addr (2 ^ bit)))); cbn; eauto.
Qed.

Lemma probe_bits_ok fuel r addr off lo actual : forall bits d, (bits - actual < Z.of_nat fuel) -> lo <= actual <= bits -> 0 <= off -> 0 <= lo ->
  (forall n, lo <= n <= bits -> alias cell r addr (off + n) = (actual <? n)) ->
  exists d', probe_bits dram_write dram_read fuel r addr off lo bits d = Ok (actual, d').
Proof.
  induction fuel as [|fuel IH]; intros bits d Hf Ha Ho Hl Hal; [lia |]. cbn [probe_bits].
  destruct (test_mirror_ok r addr (off + bits) d ltac:(lia)) as (d1 & ->). cbn [mbind res_bind]. rewrite Hal by lia.
  destruct (Z.ltb_spec actual bits) as [Hlt | Hge]; cbn [negb].
  - assert ((bits =? lo) = false) as -> by zb. apply IH; [lia | lia | lia | lia |]. intros n Hn. apply Hal. lia.
  - assert (bits = actual) as -> by lia. eauto.
Qed.
End Detect.

(** A geometry that [channel_post_init] can find: rows of at least 2 KiB
    over the bus, at most 4 GiB per channel, the second rank not larger than the first. *)
Record detectable (g : sdram_geometry) : Prop := {
  dt_ok : geo_ok g;
  dt_rows : cs1_row g <= cs0_row g <= 16;
  dt_bank_shift : 11 <= width g + col g;
  dt_size : cs0_row g + (width g + col g + bank g) <= 32;
  dt_size1 : csmask g = 3 -> cs0_row g + (width g + col g + bank g) <= 31;
}.

(** What [channel_post_init] stores in [geo]. *)
Definition detected (g : sdram_geometry) : sdram_geometry :=
  set_geo (csmask g) (width g) (col g) (bank g) (cs0_row g) (if csmask g =? 3 then cs1_row g else 13).

Section Detection.
Context {D : Type} (dram_write : dmc_regs -> Z -> Z -> D -> D) (dram_read : dmc_regs -> Z -> D -> Z) (cell : dmc_regs -> Z -> Z).
Context `{Hd : !Dram dram_write dram_read cell}.
Context (g : sdram_geometry).
Hypothesis Hg : detectable g.
Hypothesis Hhw : channel_hw g cell.

Lemma units_ok rows : 12 <= rows <= cs0_row g -> u32 (Z.shiftl 1 (rows + (width g + col g + bank g) - 25)) = rank_units g rows /\
  1 <= rank_units g rows <= 128 /\ rank_units g rows * 2 ^ 25 = rank_bytes g rows.
Proof.
  intros Hr. destruct Hg as [[Hc Hw Hl Hb H0 H1] Hrows Hbs Hsz _]. unfold rank_units, rank_bytes.
  set (e := rows + (width g + col g + bank g) - 25). assert (0 <= e <= 7) as He by (unfold e; lia). rewrite Z.shiftl_1_l.
  assert (0 < 2 ^ e <= 2 ^ 7) by (split; [apply Z.pow_pos_nonneg; lia | apply Z.pow_le_mono_r; lia]).
  rewrite u32_small by lia. split; [done |]. split; [lia |]. rewrite <- Z.pow_add_r by lia. f_equal. unfold e. lia.
Qed.

Lemma probe_cs1_ok r d mr : map_fields r (col g) (bank g) mr -> let k := width g + col g - 11 in
  reg (msch r) MSCH_DDRCONF = Z.lor k (Z.shiftl k 8) ->
  exists r' d', probe_cs1 dram_write dram_read r (width g + col g + bank g) (cs0_row g) (rank_units g (cs0_row g))
      (set_geo (csmask g) (width g) (col g) (bank g) (cs0_row g) 13) d
    = Ok (r', if csmask g =? 3 then rank_units g (cs1_row g) else 0, detected g, d').
Proof.
  intros Hm k Hk. pose proof Hg as [[Hc Hw Hl Hb H0 H1] Hrows Hbs Hsz Hsz1]. unfold probe_cs1, detected. cbn [csmask width col bank cs0_row].
  destruct (units_ok (cs0_row g) ltac:(lia)) as (_ & Hu & Hub).
  destruct Hc as [Hc | Hc]; rewrite Hc; cbn [Z.eqb Pos.eqb flag]; [exists r, d; done |].
  change (flag 3 2) with true. cbv iota. set (u := rank_units g (cs0_row g)) in *.
  assert (u <= 64) as Hu64. { unfold u, rank_units. apply (Z.pow_le_mono_r 2 _ 6); [lia | specialize (Hsz1 Hc); lia]. }
  change (4096 / 32) with 128. rewrite (u32_small (128 - u)) by lia. rewrite (u32_small (Z.shiftl (128 - u) 8)) by (rewrite Z.shiftl_mul_pow2; lia).
  rewrite (Z.shiftl_mul_pow2 u 25) by lia. rewrite Hub, (u32_small (rank_bytes _ _)) by lia.
  rewrite u32_small by (unfold MIRROR_TEST_ADDR; lia). set (r' := set_msch _ _ r).
  destruct (probe_bits_ok dram_write dram_read cell 8 r' (MIRROR_TEST_ADDR + rank_bytes g (cs0_row g)) (width g + col g + bank g - 1) 12 (cs1_row g) (cs0_row g) d)
    as (d' & ->); [lia | lia | lia | lia | |].
  { intros n Hn. apply (hw_row1 g cell Hhw r' mr); [done | | | lia]; unfold r', set_msch; cbn [msch].
    - by rewrite reg_insert_ne by (unfold MSCH_DDRSIZE, MSCH_DDRCONF; lia).
    - by rewrite reg_insert. }
  cbn [mbind res_bind]. destruct (units_ok (cs1_row g) ltac:(lia)) as (-> & _). exists r', d'. done.
Qed.

Lemma detect_ok cfg r d geo : csmask geo = csmask g -> width geo = width g ->
  exists r' d', channel_post_init dram_write dram_read cfg r geo d = Ok (r', detected g, d') /\
    map_fields r' (col g) (bank g) (cs0_row g) /\ reg (msch r') MSCH_DDRCONF = width g + col g - 11 /\
    reg (msch r') MSCH_DDRSIZE = Z.lor (rank_units g (cs0_row g)) (Z.shiftl (if csmask g =? 3 then rank_units g (cs1_row g) else 0) 8).
Proof.
  intros Hcs Hwi. pose proof Hg as [[Hc Hw Hl Hb H0 H1] Hrows Hbs Hsz Hsz1]. unfold channel_post_init. rewrite Hcs, Hwi.
  assert ((csmask g =? 0) = false /\ (csmask g <? 4) = true /\ flag (csmask g) 1 = true) as (-> & -> & ->) by (destruct Hc as [-> | ->]; done).
  cbn [c_assert mbind res_bind]. rewrite (c_assert_true ((1 <=? width g) && _)) by (apply andb_true_iff; split; zb). cbn [mbind res_bind].
  destruct (set_memory_map_ok (set_geo (csmask g) (width g) 12 3 13 13) r) as (r1 & -> & Hf1 & _); [cbn; lia.. |]. cbn [mbind res_bind col bank cs0_row set_geo] in *.
  set (r1' := set_msch MSCH_DDRCONF _ _).
  assert (reg (msch r1') MSCH_DDRCONF = if width g =? 2 then 0x0303 else 0x0202) as Hconf1 by (unfold r1', set_msch; cbn [msch]; apply reg_insert).
  destruct (probe_bits_ok dram_write dram_read cell 4 r1' MIRROR_TEST_ADDR (width g - 1) 9 (col g) 12 d) as (d1 & ->); [lia | lia | lia | lia | |].
  { intros n Hn. by apply (hw_col g cell Hhw). }
  cbn [mbind res_bind]. rewrite (c_assert_true ((11 <=? _) && _)) by (apply andb_true_iff; split; zb). cbn [mbind res_bind].
  destruct (test_mirror_ok dram_write dram_read cell r1' MIRROR_TEST_ADDR (width g + 14) d1 ltac:(lia)) as (d2 & ->). cbn [mbind res_bind].
  rewrite (hw_bank g cell Hhw r1' Hf1 Hconf1).
  assert ((if bank g =? 2 then 2 else 3) = bank g) as -> by (destruct (Z.eqb_spec (bank g) 2); lia).
  set (mr := if 32 <? _ then _ else 16). assert (cs0_row g <= mr <= 16) as Hmr by (unfold mr; destruct (Z.ltb_spec 32 (width g + col g + bank g + 16)); lia).
  destruct (set_memory_map_ok (set_geo (csmask g) (width g) (col g) (bank g) mr 13) r1') as (r2 & -> & Hf2 & _); [cbn; lia.. |]. cbn [mbind res_bind col bank cs0_row set_geo] in *.
  change (4096 / 32) with 128. set (k := width g + col g - 11). set (r2' := set_msch MSCH_DDRSIZE 128 _).
  assert (reg (msch r2') MSCH_DDRCONF = Z.lor k (Z.shiftl k 8) /\ reg (msch r2') MSCH_DDRSIZE = 128) as [Hconf2 Hsize2].
  { unfold r2', set_msch; cbn [msch]. rewrite reg_insert, reg_insert_ne, reg_insert by (unfold MSCH_DDRSIZE, MSCH_DDRCONF; lia). done. }
  destruct (probe_bits_ok dram_write dram_read cell 8 r2' MIRROR_TEST_ADDR (width g + col g + bank g - 1) 12 (cs0_row g) mr d2) as (d3 & ->); [lia | lia | lia | lia | |].
  { intros n Hn. by apply (hw_row0 g cell Hhw r2' mr). }
  cbn [mbind res_bind]. destruct (units_ok (cs0_row g) ltac:(lia)) as (-> & Hu & _).
  destruct (probe_cs1_ok r2' d3 mr Hf2 Hconf2) as (r3 & d4 & ->). cbn [mbind res_bind].
  destruct (set_memory_map_ok (detected g) r3) as (r4 & -> & Hf4 & _); [cbn; lia.. |]. cbn [mbind res_bind].
  eexists _, d4. split; [done |]. split; [exact Hf4 |]. unfold set_msch. cbn [msch].
  unfold MSCH_DDRSIZE, MSCH_DDRCONF, MSCH_TIMING1, MSCH_TIMING2, MSCH_TIMING3, MSCH_DEV2DEV, MSCH_DDRMODE. change (0x110 / 4) with 68.
  split; [repeat rewrite reg_insert_ne by lia; apply reg_insert |]. repeat rewrite reg_insert_ne by lia. rewrite reg_insert.
  f_equal. apply u32_small. destruct (csmask g =? 3); [| change (Z.shiftl 0 8) with 0; lia].
  destruct (units_ok (cs1_row g) ltac:(lia)) as (_ & Hu1 & _). rewrite Z.shiftl_mul_pow2; lia.
Qed.
End Detection.

(** Detection finds the real geometry.  On a channel whose devices ignore
    exactly the address bits they lack, and with any previous register values,
    [channel_post_init] terminates without dying or failing an assertion and
    returns the columns, banks and rows of the devices; the memory map
    registers are programmed for them and [MSCH_DDRSIZE] holds the sizes of the
    ranks.  The geometry it reports is one that [encode_dram_size] accepts, and
    it has the size of the devices. *)
Theorem channel_post_init_correct {D} (dram_write : dmc_regs -> Z -> Z -> D -> D) (dram_read : dmc_regs -> Z -> D -> Z)
    (cell : dmc_regs -> Z -> Z) g cfg r d geo :
  Dram dram_write dram_read cell -> detectable g -> channel_hw g cell -> csmask geo = csmask g -> width geo = width g ->
  (exists r' d', channel_post_init dram_write dram_read cfg r geo d = Ok (r', detected g, d') /\
    map_fields r' (col g) (bank g) (cs0_row g) /\ reg (msch r') MSCH_DDRCONF = width g + col g - 11 /\
    reg (msch r') MSCH_DDRSIZE = Z.lor (rank_units g (cs0_row g)) (Z.shiftl (if csmask g =? 3 then rank_units g (cs1_row g) else 0) 8)) /\
  geo_ok (detected g) /\ geo_bytes (detected g) = geo_bytes g.
Proof.
  intros Hd Hg Hhw Hcs Hwi. split; [by apply (detect_ok dram_write dram_read cell) |].
  pose proof (dt_ok g Hg) as [Hc Hw Hl Hb H0 H1]. split.
  - constructor; unfold detected; cbn; try done; try lia. destruct (csmask g =? 3); lia.
  - unfold geo_bytes, rank_bytes, detected. cbn. by destruct (csmask g =? 3).
Qed.

(** A 32-bit channel with two ranks of 1 GiB and 512 MiB. *)
Definition demo_geo : sdram_geometry := set_geo 3 2 10 3 15 14.
Definition demo_cell (r : dmc_regs) (a : Z) : Z :=
  if reg (msch r) MSCH_DDRCONF =? 0x0303 then Z.ldiff a 0x3000
  else if reg (msch r) MSCH_DDRSIZE =? 128 then Z.ldiff a (2 ^ 30)
  else if 2 ^ 30 <=? a then Z.ldiff a (2 ^ 29) else a.
Definition demo_write (r : dmc_regs) (a v : Z) (d : mem) : mem := <[demo_cell r a := v]> d.
Definition demo_read (r : dmc_regs) (a : Z) (d : mem) : Z := default 0 (d !! demo_cell r a).

#[export] Instance demo_dram : Dram demo_write demo_read demo_cell.
Proof.
  constructor. intros r a b v d. unfold demo_read, demo_write. destruct (Z.eqb_spec (demo_cell r a) (demo_cell r b)) as [-> | Hne].
  - by rewrite lookup_insert_eq.
  - by rewrite lookup_insert_ne.
Qed.

Lemma demo_detectable : detectable demo_geo.
Proof. constructor; cbn; try lia. constructor; cbn; lia. Qed.

Lemma demo_hw : channel_hw demo_geo demo_cell.
Proof.
  constructor; cbn [width col bank cs0_row cs1_row csmask demo_geo set_geo Z.eqb Pos.eqb]; unfold alias, demo_cell.
  - intros r c _ -> Hc. assert (c = 9 \/ c = 10 \/ c = 11 \/ c = 12) as [-> | [-> | [-> | ->]]] by lia; reflexivity.
  - intros r _ ->. reflexivity.
  - intros r mr n (_ & _ & Hm) -> -> Hn. assert (0 <= Z.land (Z.shiftr (reg (pctl r) 190) 24) 7) by (apply Z.land_nonneg; lia).
    assert (n = 12 \/ n = 13 \/ n = 14 \/ n = 15 \/ n = 16) as [-> | [-> | [-> | [-> | ->]]]] by lia; reflexivity.
  - intros r mr n _ -> -> Hn. assert (n = 12 \/ n = 13 \/ n = 14 \/ n = 15) as [-> | [-> | [-> | ->]]] by lia; reflexivity.
Qed.

Definition demo_cfg : msch_config := {| timing1 := 1; timing2 := 2; timing3 := 3; dev2dev := 4; ddrmode := 5 |}.

Lemma channel_post_init_correct_witness :
  (exists r' d', channel_post_init demo_write demo_read demo_cfg {| pctl := ∅; pi := ∅; msch := ∅ |} (set_geo 3 2 0 0 0 0) ∅ = Ok (r', demo_geo, d') /\
    map_fields r' 10 3 15 /\ reg (msch r') MSCH_DDRCONF = 1 /\ reg (msch r') MSCH_DDRSIZE = 0x1020) /\
  geo_ok demo_geo /\ geo_bytes demo_geo = 3 * 2 ^ 29.
Proof.
  exact (channel_post_init_correct demo_write demo_read demo_cell demo_geo demo_cfg {| pctl := ∅; pi := ∅; msch := ∅ |} ∅ (set_geo 3 2 0 0 0 0)
    demo_dram demo_detectable demo_hw eq_refl eq_refl).
Defined.
