(* ===== verification/Decompression.v ===== *)
(** * Driving the decompressors
      ([src/dramstage/decompression.c], [src/include/async.h], [src/include/iost.h])

    The dramstage decompresses its payload while it is still being read: it
    asks a transfer for more data, hands what is there to a decoder, and tells
    the transfer how much was consumed.  The driver is modelled against two
    interfaces, of the transfer and of a decompressor; what the driver needs
    from them are classes, which the dummy transfer and the LZ4 decoder
    satisfy. *)
From S2P Require Export Lz4 Inflate ZstdFrame.
From stdpp Require Import strings.

Open Scope Z_scope.

(** ** Definitions *)
Definition IOST_OK : Z := 0.
Definition IOST_TRANSIENT : Z := 1.
Definition IOST_INVALID : Z := 2.
Definition IOST_LOCAL : Z := 3.
Definition IOST_GLOBAL : Z := 4.

Record async_buf : Type := { b_start : Z; b_end : Z }.

(** [async->pump(async, consume, min_size)]: the transfer is an object with a
    state of its own.  What it will deliver is in memory from the start; the
    decoders read only up to [b_end], except for up to a block of bytes whose
    value is not used. *)
Definition pump_func (A : Type) : Type := A -> Z -> Z -> A * async_buf.

(** A transfer of data that is in memory already. *)
Definition async_pump_dummy : pump_func async_buf := fun buf consume _ =>
  let buf := {| b_start := b_start buf + consume; b_end := b_end buf |} in (buf, buf).

(** A decompressor: [D] is its state; [d_running] is [state->decode != 0] and
    [d_decode] calls it. *)
Record decompressor : Type := {
  D : Type;
  d_probe : mem -> Z -> Z -> res compr_probe_status;
  d_init : mem -> Z -> Z -> res (option Z * D);
  d_output : Z -> Z -> D -> D;
  d_running : D -> bool;
  d_decode : mem -> D -> Z -> Z -> res (Z * D * mem);
  d_out : D -> Z;
}.

Definition decode_status_msg : list string :=
  ["decoding error"; "decoding can't proceed without more output space"; "decoding can't proceed without more input data"]%string.

Section Driver.
Context {A : Type} (pump : pump_func A).

(** [if (buf.end < buf.start) {return buf.start - buf.end;}] *)
Definition pump_failed (buf : async_buf) : bool := b_end buf <? b_start buf.
Definition pump_error (buf : async_buf) : Z := b_start buf - b_end buf.

(** [do {...} while ((size_t)(buf.end - buf.start) > size)] *)
Fixpoint async_wait_loop (fuel : nat) (a : A) (buf : async_buf) : res (Z * A) :=
  match fuel with
  | O => Trap TrapFuel
  | S fuel =>
      let size := u64 (b_end buf - b_start buf) in
      let '(a, buf) := pump a 0 (u64 (size + 1)) in
      if pump_failed buf then Ok (pump_error buf, a)
      else if size <? u64 (b_end buf - b_start buf) then async_wait_loop fuel a buf
      else Ok (IOST_OK, a)
  end.

Definition async_wait (fuel : nat) (a : A) : res (Z * A) :=
  let '(a, buf) := pump a 0 0 in async_wait_loop fuel a buf.

(** The [while] loop around [probe]: [inl] is an early return. *)
Fixpoint probe_loop (fuel : nat) (d : decompressor) (m : mem) (a : A) (buf : async_buf)
    : res (Z * A + compr_probe_status * A * async_buf) :=
  match fuel with
  | O => Trap TrapFuel
  | S fuel =>
      status ← d_probe d m (b_start buf) (b_end buf);
      if decide (status = COMPR_PROBE_NOT_ENOUGH_DATA) then
        let '(a, buf) := pump a 0 (u64 (b_end buf - b_start buf + 1)) in
        if pump_failed buf then Ok (inl (pump_error buf, a)) else probe_loop fuel d m a buf
      else Ok (inr (status, a, buf))
  end.

(** [while (state->decode)]; a failure prints [decode_status_msg[res]]. *)
Fixpoint decode_loop (fuel : nat) (d : decompressor) (m : mem) (s : D d) (a : A) (buf : async_buf)
    : res (Z * D d * mem * A) :=
  if negb (d_running d s) then Ok (IOST_OK, s, m, a)
  else
  match fuel with
  | O => Trap TrapFuel
  | S fuel =>
      if b_start buf =? 0 then Ok (IOST_INVALID, s, m, a)
      else
      '(r, s, m) ← d_decode d m s (b_start buf) (b_end buf);
      if r =? DECODE_NEED_MORE_DATA then
        let min_size := u64 (b_end buf - b_start buf + 1) in
        let '(a, buf) := pump a 0 min_size in
        if pump_failed buf then Ok (pump_error buf, s, m, a)
        else if min_size <=? u64 (b_end buf - b_start buf) then decode_loop fuel d m s a buf
        else _ ← geti decode_status_msg r; Ok (IOST_INVALID, s, m, a)
      else if NUM_DECODE_STATUS <? r then
        let consume := r - NUM_DECODE_STATUS in
        let '(a, buf) := pump a consume (u64 (b_end buf - b_start buf - consume)) in
        if pump_failed buf then Ok (pump_error buf, s, m, a) else decode_loop fuel d m s a buf
      else _ ← geti decode_status_msg r; Ok (IOST_INVALID, s, m, a)
  end.

(** The rest of the body of [for_array(i, formats)], after a successful probe.
    Returns the status, the new [*out_end], memory and the transfer. *)
Definition decompress_with (fuel : nat) (d : decompressor) (m : mem) (out out_end : Z) (a : A) (buf : async_buf)
    : res (Z * Z * mem * A) :=
  '(data, s) ← d_init d m (b_start buf) (b_end buf);
  match data with
  | None => Trap TrapAssert
  | Some data =>
      let '(a, buf) := pump a (data - b_start buf) 0 in
      if pump_failed buf then Ok (pump_error buf, out_end, m, a)
      else
      '(r, s, m, a) ← decode_loop fuel d m (d_output d out out_end s) a buf;
      Ok (r, (if r =? IOST_OK then d_out d s else out_end), m, a)
  end.

(** [for_array(i, formats)]; the state buffer is large enough for all formats. *)
Fixpoint try_formats (fuel : nat) (formats : list decompressor) (m : mem) (out out_end : Z) (a : A) (buf : async_buf)
    : res (Z * Z * mem * A) :=
  match formats with
  | [] => Ok (IOST_INVALID, out_end, m, a)
  | d :: formats =>
      r ← probe_loop fuel d m a buf;
      match r with
      | inl (e, a) => Ok (e, out_end, m, a)
      | inr (status, a, buf) =>
          if probe_success status then decompress_with fuel d m out out_end a buf
          else try_formats fuel formats m out out_end a buf
      end
  end.

(** [wait] is the build option [ASYNC_WAIT]. *)
Definition decompress (wait : bool) (fuel : nat) (formats : list decompressor) (m : mem) (a : A) (out out_end : Z)
    : res (Z * Z * mem * A) :=
  '(r, a) ← (if wait then async_wait fuel a else Ok (IOST_OK, a));
  if negb (r =? IOST_OK) then Ok (r, out_end, m, a)
  else
  let '(a, buf) := pump a 0 1 in
  if pump_failed buf then Ok (pump_error buf, out_end, m, a)
  else try_formats fuel formats m out out_end a buf.

(** *** The payload *)
Record payload_desc : Type := {
  elf_start : Z; elf_end : Z; fdt_start : Z; fdt_end : Z;
  kernel_start : Z; kernel_end : Z; initcpio_start : Z; initcpio_end : Z;
}.
Definition set_elf_end (e : Z) (p : payload_desc) : payload_desc :=
  {| elf_start := elf_start p; elf_end := e; fdt_start := fdt_start p; fdt_end := fdt_end p;
     kernel_start := kernel_start p; kernel_end := kernel_end p; initcpio_start := initcpio_start p; initcpio_end := initcpio_end p |}.
Definition set_fdt_end (e : Z) (p : payload_desc) : payload_desc :=
  {| elf_start := elf_start p; elf_end := elf_end p; fdt_start := fdt_start p; fdt_end := e;
     kernel_start := kernel_start p; kernel_end := kernel_end p; initcpio_start := initcpio_start p; initcpio_end := initcpio_end p |}.
Definition set_kernel_end (e : Z) (p : payload_desc) : payload_desc :=
  {| elf_start := elf_start p; elf_end := elf_end p; fdt_start := fdt_start p; fdt_end := fdt_end p;
     kernel_start := kernel_start p; kernel_end := e; initcpio_start := initcpio_start p; initcpio_end := initcpio_end p |}.
Definition set_initcpio_end (e : Z) (p : payload_desc) : payload_desc :=
  {| elf_start := elf_start p; elf_end := elf_end p; fdt_start := fdt_start p; fdt_end := fdt_end p;
     kernel_start := kernel_start p; kernel_end := kernel_end p; initcpio_start := initcpio_start p; initcpio_end := e |}.
Definition fdt_addr : Z := 0x00100000.
Definition payload_addr : Z := 0x00280000.
Definition initcpio_addr : Z := 0x08000000.

(** [initcpio] is the build option [CONFIG_DRAMSTAGE_INITCPIO]. *)
Definition decompress_payload (initcpio wait : bool) (fuel : nat) (formats : list decompressor) (m : mem) (a : A) (p : payload_desc)
    : res (Z * payload_desc * mem * A) :=
  '(r, e, m, a) ← decompress wait fuel formats m a (elf_start p) (elf_end p - LZCOMMON_BLOCK);
  let p := set_elf_end e p in
  if negb (r =? IOST_OK) then Ok (r, p, m, a)
  else
  '(r, e, m, a) ← decompress wait fuel formats m a fdt_addr (fdt_end p - LZCOMMON_BLOCK);
  let p := set_fdt_end e p in
  if negb (r =? IOST_OK) then Ok (r, p, m, a)
  else
  '(r, e, m, a) ← decompress wait fuel formats m a payload_addr (kernel_end p - LZCOMMON_BLOCK);
  let p := set_kernel_end e p in
  if negb (r =? IOST_OK) then Ok (r, p, m, a)
  else if negb initcpio then Ok (IOST_OK, p, m, a)
  else
  '(r, e, m, a) ← decompress wait fuel formats m a initcpio_addr (initcpio_end p - LZCOMMON_BLOCK);
  Ok (r, set_initcpio_end e p, m, a).
End Driver.

(** *** The three formats

    [junk] is what the buffer for the decoder state holds. *)
Definition with_output {F} (out out_end : Z) (st : decompressor_state F) : decompressor_state F :=
  {| decode := decode st; window_start := out; out := out; out_end := out_end |}.
Definition is_running {F} (st : decompressor_state F) : bool := match decode st with Some _ => true | None => false end.

Definition lz4_decode (m : mem) (s : lz4_dec_state) (in_ end_ : Z) : res (Z * lz4_dec_state * mem) :=
  match decode (lz4_st s) with
  | Some Lz4DecodeBlock => lz4_decode_block m s in_ end_
  | Some Lz4DecodeTrailer => lz4_decode_trailer m s in_ end_
  | None => Trap TrapAbort
  end.

Definition lz4_decompressor (junk : decompressor_state lz4_decode_func) : decompressor := {|
  D := lz4_dec_state;
  d_probe := lz4_probe;
  d_init := fun m in_ end_ => '(p, s) ← lz4_init m junk in_ end_; Ok (Some p, s);
  d_output := fun o oe s => lz4_set_st (with_output o oe (lz4_st s)) s;
  d_running := fun s => is_running (lz4_st s);
  d_decode := lz4_decode;
  d_out := fun s => out (lz4_st s);
|}.

Definition gzip_decompressor (junk : gzip_dec_state) : decompressor := {|
  D := gzip_dec_state;
  d_probe := gzip_probe;
  d_init := fun m in_ end_ => gzip_init m junk in_ end_;
  d_output := fun o oe s => gz_set_st (with_output o oe (gz_st s)) s;
  d_running := fun s => is_running (gz_st s);
  d_decode := gzip_decode;
  d_out := fun s => out (gz_st s);
|}.

Definition zstd_decode (refill : mem -> Z -> Z -> seq_buf -> res (option seq_buf)) (junk : block_junk)
    (m : mem) (s : zstd_dec_state) (in_ end_ : Z) : res (Z * zstd_dec_state * mem) :=
  match decode (zstd_st s) with
  | Some ZstdDecodeBlock => zstd_decode_block refill junk m s in_ end_
  | Some ZstdDecodeTrailer => '(r, s) ← zstd_decode_trailer m s in_ end_; Ok (r, s, m)
  | None => Trap TrapAbort
  end.

Definition zstd_decompressor (refill : mem -> Z -> Z -> seq_buf -> res (option seq_buf)) (junk : block_junk)
    (st0 : decompressor_state zstd_decode_func) (t : dectables) (xbuf : list Z) : decompressor := {|
  D := zstd_dec_state;
  d_probe := zstd_probe;
  d_init := fun m in_ end_ => '(p, s) ← zstd_init m st0 t xbuf in_ end_; Ok (Some p, s);
  d_output := fun o oe s => zstd_set_st (with_output o oe (zstd_st s)) s;
  d_running := fun s => is_running (zstd_st s);
  d_decode := zstd_decode refill junk;
  d_out := fun s => out (zstd_st s);
|}.

(** ** What the driver relies on

    [transfer_view a s e L]: the transfer [a] has handed out the bytes between [s] and
    [e] of a source that ends at [L].  A pump either fails, or advances past
    the consumed bytes and delivers at least what was asked for, unless the
    source ends. *)
Class Transfer {A : Type} (pump : pump_func A) : Type := {
  transfer_view : A -> Z -> Z -> Z -> Prop;
  pump_ok a s e L consume min_size : transfer_view a s e L -> 0 <= consume <= e - s ->
    forall a' buf, pump a consume min_size = (a', buf) ->
    pump_failed buf = true \/
    b_start buf = s + consume /\ e <= b_end buf <= L /\
      (min_size <= b_end buf - b_start buf \/ b_end buf = L) /\
      transfer_view a' (b_start buf) (b_end buf) L;
}.

(** [decoder_at m s p L]: the decoder may be called at [p] with any part of
    the input that ends at [L].  A call consumes no more than it was given,
    and the driver can tell its answers apart. *)
Class Decoder (d : decompressor) : Type := {
  decoder_at : mem -> D d -> Z -> Z -> Prop;
  decoder_bounds m s p L : decoder_at m s p L -> 0 < p <= L /\ L < 2 ^ 64;
  decode_ok m s p e L : decoder_at m s p L -> d_running d s = true -> p <= e <= L ->
    exists r s' m', d_decode d m s p e = Ok (r, s', m') /\ 0 <= r /\ r <> NUM_DECODE_STATUS /\
      (r = DECODE_NEED_MORE_DATA -> decoder_at m' s' p L) /\
      (NUM_DECODE_STATUS < r -> r - NUM_DECODE_STATUS <= e - p /\ decoder_at m' s' (p + (r - NUM_DECODE_STATUS)) L);
}.

#[export, program] Instance dummy_transfer : Transfer async_pump_dummy := {|
  transfer_view a s e L := a = {| b_start := s; b_end := e |} /\ e = L |}.
Next Obligation.
  intros a s e L consume min_size [-> ->] Hc a' buf H. unfold async_pump_dummy in H. simplify_eq. right.
  cbn [b_start b_end]. split_and!; try done; lia.
Qed.

(** *** The LZ4 decoder

    Frames with a content checksum and without block checksums. *)
Lemma lz4_block_grows cap input w w' : lz4_block cap input w w' -> zlen w <= zlen w' <= Z.max cap (zlen w).
Proof.
  induction 1 as [| token ext lits d0 d1 ext2 mlen rest w w' H1 H2 H3 H4 H5 H6 IH].
  - rewrite length_app in *. lia.
  - pose proof (len_code_nonneg _ _ _ H3).
    rewrite lz_match_length, length_app in *. lia.
Qed.

Lemma lz_inv_reset ws oe m w in_ input : lz_inv ws oe m w in_ input -> lz_inv (ws + zlen w) oe m [] in_ input.
Proof.
  intros [Hok Hw Hi Haw Hai Hd Hp Ho Ht]. constructor; cbn [length]; try done; try lia.
  - intros i Hlt. cbn in Hlt. lia.
  - eapply accessible_sub; [exact Haw | lia | lia].
Qed.

Record lz4_at (m : mem) (s : lz4_dec_state) (p L : Z) (w input : list Z) : Prop := {
  at_ready : lz4_ready m s w p input;
  at_input : zlen input = L - p;
  at_pos : 0 < p;
  at_ccheck : flag (flags s) FCCHECKSUM = true;
  at_bcheck : flag (flags s) FBCHECKSUM = false;
}.

Lemma lz4_at_decode m s f p L w input : lz4_at m s p L w input ->
  lz4_at m (lz4_set_st (set_decode f (lz4_st s)) s) p L w input.
Proof. intros [[H1 H2 H3] H4 H5 H6 H7]. constructor; [constructor | ..]; done. Qed.

Lemma lz4_at_drop m s p L w input n : lz4_at m s p L w input -> 0 <= n <= zlen input ->
  lz4_at m s (p + n) L w (drop (Z.to_nat n) input).
Proof.
  intros [[H1 H2 H3] H4 H5 H6 H7] Hn.
  assert (n = zlen (take (Z.to_nat n) input)) as En by (rewrite length_take; lia).
  constructor; [constructor | ..]; try done; try lia; [| rewrite length_drop; lia].
  rewrite En at 1. apply lz_inv_drop. by rewrite take_drop.
Qed.

(** The window after a block. *)
Lemma lz4_at_advance m m' s p L w w' input : lz4_at m s p L w input ->
  lz_frame (out_end (lz4_st s)) m m' (out (lz4_st s)) -> mem_ok m' -> bytes_at m' (window_start (lz4_st s)) w' ->
  zlen w <= zlen w' -> window_start (lz4_st s) + zlen w' <= out_end (lz4_st s) ->
  exists w2, lz4_at m' (lz4_advance s (window_start (lz4_st s) + zlen w')) p L w2 input.
Proof.
  intros [[H1 H2 H3] H4 H5 H6 H7] Hf Hok Hb Hle Hoe. rewrite H2 in Hf.
  pose proof (lz_inv_grow _ _ m m' w w' p input H1 Hf Hok Hb Hle Hoe) as Hinv.
  unfold lz4_advance. destruct (flag (flags s) FBINDEP) eqn:Hi.
  - exists []. constructor; [constructor | ..]; try done; [by apply lz_inv_reset | cbn; lia].
  - exists w'. by constructor; [constructor | ..].
Qed.

Lemma lz4_at_frame m m' s p L w input : lz4_at m s p L w input ->
  lz_frame (out_end (lz4_st s)) m m' (out (lz4_st s)) -> mem_ok m' -> bytes_at m' (window_start (lz4_st s)) w ->
  lz4_at m' s p L w input.
Proof.
  intros [[H1 H2 H3] H4 H5 H6 H7] Hf Hok Hb. rewrite H2 in Hf. constructor; [constructor | ..]; try done.
  apply (lz_inv_grow _ _ m m' w w p input H1 Hf Hok Hb); [lia | apply H1].
Qed.

Definition lz4_here (m : mem) (s : lz4_dec_state) (p L : Z) : Prop := exists w input, lz4_at m s p L w input.

(** The answers of a decoder that the driver can use. *)
Definition decoder_answer {S} (P : mem -> S -> Z -> Prop) (p e r : Z) (s' : S) (m' : mem) : Prop :=
  0 <= r /\ r <> NUM_DECODE_STATUS /\
  (r = DECODE_NEED_MORE_DATA -> P m' s' p) /\
  (NUM_DECODE_STATUS < r -> r - NUM_DECODE_STATUS <= e - p /\ P m' s' (p + (r - NUM_DECODE_STATUS))).

Lemma answer_error {S} (P : mem -> S -> Z -> Prop) p e r s' m' : 0 <= r < 2 -> decoder_answer P p e r s' m'.
Proof. intros. unfold decoder_answer, NUM_DECODE_STATUS, DECODE_NEED_MORE_DATA. split_and!; lia. Qed.

Lemma answer_more {S} (P : mem -> S -> Z -> Prop) p e s' m' : P m' s' p ->
  decoder_answer P p e DECODE_NEED_MORE_DATA s' m'.
Proof. intros. unfold decoder_answer, NUM_DECODE_STATUS, DECODE_NEED_MORE_DATA. split_and!; try lia; done. Qed.

Lemma answer_consume {S} (P : mem -> S -> Z -> Prop) p e n s' m' : 0 < n <= e - p -> P m' s' (p + n) ->
  decoder_answer P p e (NUM_DECODE_STATUS + n) s' m'.
Proof.
  intros Hn HP. unfold decoder_answer, NUM_DECODE_STATUS, DECODE_NEED_MORE_DATA. split_and!; try lia.
  intros _. replace (3 + n - 3) with n by lia. split; [lia | done].
Qed.

Lemma lz4_at_block m m' s p e L w w' input r s' :
  lz4_at m s p L w input -> p <= e <= L ->
  lz4_block_spec s w (take (Z.to_nat (e - p)) input) r s' w' ->
  lz_frame (out_end (lz4_st s)) m m' (out (lz4_st s)) -> mem_ok m' -> bytes_at m' (window_start (lz4_st s)) w' ->
  decoder_answer (fun m s p => lz4_here m s p L) p e r s' m'.
Proof.
  intros Hat He Hspec Hf Hok Hb. pose proof Hat as [[H1 H2 H3] H4 H5 H6 H7]. pose proof (inv_out _ _ _ _ _ _ H1) as Hout.
  remember (take (Z.to_nat (e - p)) input) as inp eqn:Ei.
  assert (zlen inp <= e - p /\ zlen inp <= zlen input) as [Hl Hl'] by (rewrite Ei, length_take; lia).
  assert (forall w2 s2 n, lz4_at m' s2 p L w2 input -> 0 < n <= zlen inp ->
    decoder_answer (fun m s p => lz4_here m s p L) p e (NUM_DECODE_STATUS + n) s2 m') as Hgo.
  { intros w2 s2 n H Hn. apply answer_consume; [lia |]. exists w2, (drop (Z.to_nat n) input). apply lz4_at_drop; [done | lia]. }
  assert (forall w2 n, zlen w <= zlen w2 -> window_start (lz4_st s) + zlen w2 <= out_end (lz4_st s) ->
    bytes_at m' (window_start (lz4_st s)) w2 -> 0 < n <= zlen inp ->
    decoder_answer (fun m s p => lz4_here m s p L) p e (NUM_DECODE_STATUS + n)
      (lz4_advance s (window_start (lz4_st s) + zlen w2)) m') as Hadv.
  { intros w2 n Hle Hoe Hb2 Hn. destruct (lz4_at_advance m m' s p L w w2 input) as [w3 H]; try done. by apply (Hgo w3). }
  destruct Hspec as [| hdr rest Hh | | | | hdr data rest Hh | hdr data rest w' Hh Hv Hd Hs Hblk |];
    try (apply answer_error; unfold DECODE_ERR, DECODE_NEED_MORE_SPACE; lia); rewrite ?length_app in Hl, Hl', Hgo, Hadv.
  - apply (Hgo w); [by apply lz4_at_decode, (lz4_at_frame m) | lia].
  - apply answer_more. exists w, input. by apply (lz4_at_frame m).
  - replace (out (lz4_st s) + zlen data) with (window_start (lz4_st s) + zlen (w ++ data)) by (rewrite length_app; lia).
    apply Hadv; unfold lz4_total; rewrite ?H7, ?length_app; try lia; done.
  - pose proof (lz4_block_grows _ _ _ _ Hblk) as Hg. unfold lz4_cap in Hg.
    apply Hadv; unfold lz4_total; rewrite ?H7; try lia; done.
Qed.

Lemma lz4_decode_answer m s p e L w input : lz4_at m s p L w input -> is_running (lz4_st s) = true -> p <= e <= L ->
  exists r s' m', lz4_decode m s p e = Ok (r, s', m') /\ decoder_answer (fun m s p => lz4_here m s p L) p e r s' m'.
Proof.
  intros Hat Hrun He. pose proof Hat as [[H1 H2 H3] H4 H5 H6 H7].
  unfold lz4_decode. unfold is_running in Hrun. destruct (decode (lz4_st s)) as [[] |]; [| | done].
  - destruct (lz4_decode_block_ok m s w p e (take (Z.to_nat (e - p)) input)) as (r & s' & m' & w' & Hr & Hs & Hb & Hf & Hok).
    { constructor; try done. apply (lz_inv_take _ _ _ _ _ _ (drop (Z.to_nat (e - p)) input)). by rewrite take_drop. }
    { rewrite length_take. lia. }
    exists r, s', m'. split; [done |]. by apply (lz4_at_block m m' s p e L w w' input).
  - unfold lz4_decode_trailer. cbn [lz4_set_st flags]. rewrite H6. case_bool.
    + eexists _, _, _. split; [done |]. apply answer_error. unfold DECODE_ERR. lia.
    + eexists _, _, _. split; [done |]. apply answer_consume; [lia |].
      exists w, (drop (Z.to_nat 4) input). apply lz4_at_drop; [by apply lz4_at_decode | lia].
Qed.

#[export, program] Instance lz4_decoder junk : Decoder (lz4_decompressor junk) := {| decoder_at := lz4_here |}.
Next Obligation.
  intros junk m s p L (w & input & [[H1 _ _] H2 H3 _ _]). pose proof (inv_top _ _ _ _ _ _ H1).
  assert (LZCOMMON_BLOCK = 8) by done. lia.
Qed.
Next Obligation. intros junk m s p e L (w & input & H) Hr He. by apply (lz4_decode_answer m s p e L w input). Qed.

(** ** The driver *)
Section Termination.
Context {A : Type} (pump : pump_func A) `{T : !Transfer pump} (d : decompressor) `{!Decoder d}.

(** How a run of the decoding loop ends: with the decoder done and the
    transfer just behind what it consumed, or with a reported failure. *)
Definition loop_result (L : Z) (r : Z) (s : D d) (m : mem) (a : A) : Prop :=
  (r = IOST_OK /\ d_running d s = false /\
    exists p e, decoder_at m s p L /\ p <= e <= L /\ transfer_view a p e L) \/
  r = IOST_INVALID \/
  (exists buf, pump_failed buf = true /\ r = pump_error buf).

Lemma decode_loop_ok fuel m s a buf L :
  transfer_view a (b_start buf) (b_end buf) L -> decoder_at m s (b_start buf) L -> b_start buf <= b_end buf <= L ->
  (L - b_start buf) + (L - b_end buf) < Z.of_nat fuel ->
  exists r s' m' a', decode_loop pump fuel d m s a buf = Ok (r, s', m', a') /\ loop_result L r s' m' a'.
Proof.
  induction fuel as [| fuel IH] in m, s, a, buf |- *; intros Hv Hd Hb Hf; [lia |]. cbn [decode_loop].
  destruct (d_running d s) eqn:Hr; cbn [negb].
  2: { exists IOST_OK, s, m, a. split; [done |]. left. split_and!; try done. by exists (b_start buf), (b_end buf). }
  pose proof (decoder_bounds m s _ L Hd) as [Hp HL].
  destruct (Z.eqb_spec (b_start buf) 0) as [H0 | _]; [lia |].
  destruct (decode_ok m s _ (b_end buf) L Hd Hr Hb) as (r & s' & m' & -> & Hr0 & Hr3 & Hmore & Hcons).
  cbn [mbind res_bind].
  assert (forall (a : A), r < 3 -> exists r' s2 m2 a2, (_ ← geti decode_status_msg r; Ok (IOST_INVALID, s', m', a)) = Ok (r', s2, m2, a2) /\
    loop_result L r' s2 m2 a2) as Hfail.
  { intros a2 Hlt. exists IOST_INVALID, s', m', a2. split; [| by right; left].
    assert (r = 0 \/ r = 1 \/ r = 2) as [-> | [-> | ->]] by lia; done. }
  unfold NUM_DECODE_STATUS, DECODE_NEED_MORE_DATA in *.
  destruct (Z.eqb_spec r 2) as [-> | Hr2].
  - rewrite (u64_small (b_end buf - b_start buf + 1)) by lia.
    destruct (pump a 0 _) as [a' buf'] eqn:Hpump.
    destruct (pump_ok a _ _ L 0 _ Hv ltac:(lia) a' buf' Hpump) as [Hx | (Hs & He & Hmin & Hv')].
    { rewrite Hx. eexists _, _, _, _. split; [done |]. right. right. by exists buf'. }
    destruct (pump_failed buf') eqn:Hx; [eexists _, _, _, _; split; [done |]; right; right; by exists buf' |].
    rewrite (u64_small (b_end buf' - b_start buf')) by lia.
    case_bool; [| apply Hfail; lia].
    apply IH; try done; try lia. replace (b_start buf') with (b_start buf) by lia. by apply Hmore.
  - case_bool; [| apply Hfail; lia]. destruct (Hcons ltac:(lia)) as [Hle Hd'].
    destruct (pump a (r - 3) _) as [a' buf'] eqn:Hpump.
    destruct (pump_ok a _ _ L (r - 3) _ Hv ltac:(lia) a' buf' Hpump) as [Hx | (Hs & He & Hmin & Hv')].
    { rewrite Hx. eexists _, _, _, _. split; [done |]. right. right. by exists buf'. }
    destruct (pump_failed buf') eqn:Hx; [eexists _, _, _, _; split; [done |]; right; right; by exists buf' |].
    apply IH; try done; try lia. by rewrite Hs.
Qed.
End Termination.

(** *** Boundary behaviour of the driver *)

(** The trailers of LZ4 and zstd answer [NUM_DECODE_STATUS] when there is no
    content checksum; the driver takes this for a failure and looks up its
    message behind the end of the table. *)
Lemma no_checksum_oob {A} (pump : pump_func A) d fuel m s a buf s' m' :
  d_running d s = true -> b_start buf <> 0 ->
  d_decode d m s (b_start buf) (b_end buf) = Ok (NUM_DECODE_STATUS, s', m') ->
  decode_loop pump (S fuel) d m s a buf = Trap (TrapOob NUM_DECODE_STATUS).
Proof. intros Hr H0 Hd. cbn [decode_loop]. rewrite Hr. destruct (Z.eqb_spec (b_start buf) 0); [done |]. cbn [negb]. by rewrite Hd. Qed.

Lemma lz4_no_checksum {A} (pump : pump_func A) junk fuel m s a buf :
  decode (lz4_st s) = Some Lz4DecodeTrailer -> flag (flags s) FCCHECKSUM = false -> b_start buf <> 0 ->
  decode_loop pump (S fuel) (lz4_decompressor junk) m s a buf = Trap (TrapOob NUM_DECODE_STATUS).
Proof.
  intros Hd Hf H0. eapply (no_checksum_oob pump (lz4_decompressor junk) fuel m s); [| done |].
  - cbn. unfold is_running. by rewrite Hd.
  - cbn. unfold lz4_decode, lz4_decode_trailer. rewrite Hd. cbn [lz4_set_st flags]. by rewrite Hf.
Qed.

(** An input that is shorter than a magic number is probed for ever. *)
Lemma short_input_hangs junk fuel m buf : b_end buf - b_start buf < 4 -> b_start buf <= b_end buf ->
  probe_loop async_pump_dummy fuel (lz4_decompressor junk) m buf buf = Trap TrapFuel.
Proof.
  intros Hs Hle. induction fuel as [| fuel IH]; [done |]. cbn [probe_loop lz4_decompressor d_probe]. unfold lz4_probe.
  destruct (Z.ltb_spec (b_end buf - b_start buf) 4); [| lia]. cbn [mbind res_bind].
  rewrite decide_True by done. unfold async_pump_dummy at 1. cbn [pump_failed b_start b_end]. rewrite Z.add_0_r.
  unfold pump_failed. cbn [b_start b_end]. destruct (Z.ltb_spec (b_end buf) (b_start buf)); [lia |].
  destruct buf; apply IH.
Qed.

(** A transfer that delivers no more than it was asked for. *)
Record eager_buf : Type := { eb_start : Z; eb_end : Z; eb_limit : Z }.
Definition exact_pump : pump_func eager_buf := fun a consume min_size =>
  let s := eb_start a + consume in
  let e := Z.max (eb_end a) (Z.min (eb_limit a) (s + min_size)) in
  ({| eb_start := s; eb_end := e; eb_limit := eb_limit a |}, {| b_start := s; b_end := e |}).

#[export, program] Instance exact_transfer : Transfer exact_pump := {|
  transfer_view a s e L := a = {| eb_start := s; eb_end := e; eb_limit := L |} /\ s <= e <= L |}.
Next Obligation.
  intros a s e L consume min_size [-> Hle] Hc a' buf H. unfold exact_pump in H. cbn in H. simplify_eq. right.
  cbn [b_start b_end]. split_and!; try done; lia.
Qed.

(** A frame with one compressed block, end mark and content checksum. *)
Definition demo_lz4_file : list Z := [4; 34; 77; 24; 0x44; 0x40; 0] ++ lz4_ex_frame ++ [1; 2; 3; 4].
Definition demo_junk {F} : decompressor_state F := {| decode := None; window_start := 0; out := 0; out_end := 0 |}.
Definition demo_formats : list decompressor :=
  [lz4_decompressor demo_junk; zstd_decompressor seq_refill demo_block_junk demo_junk demo_tables (replicate 32 0)].
Definition demo_mem (oe : Z) (i : list Z) : mem := mem_of 8 (replicate (Z.to_nat oe + 16) 0 ++ i ++ replicate 16 0).

(** A frame of the zstd reference compressor, with content checksum. *)
Definition demo_zstd_frame : list Z := [
  40; 181; 47; 253; 100; 4; 0; 173; 4; 0; 2; 73; 27; 23; 112; 171; 14; 36; 193; 162; 49; 113; 44; 237; 123;
  154; 30; 96; 177; 206; 21; 8; 23; 1; 85; 231; 5; 22; 232; 83; 64; 191; 162; 213; 67; 174; 78; 65; 244; 180;
  233; 39; 160; 65; 48; 237; 227; 184; 144; 170; 142; 189; 70; 215; 241; 60; 97; 161; 97; 18; 49; 188; 100;
  154; 243; 219; 231; 202; 235; 180; 229; 35; 182; 105; 250; 228; 170; 56; 49; 208; 226; 129; 126; 177; 43;
  11; 236; 202; 245; 65; 206; 123; 68; 195; 117; 238; 102; 81; 36; 98; 250; 229; 55; 15; 147; 19; 163; 73;
  198; 123; 20; 1; 14; 0; 59; 2; 159; 119; 192; 198; 146; 220; 23; 197; 102; 60; 98; 53; 66; 80; 99; 154; 6;
  18; 113; 225; 71; 187; 100; 8; 175; 98; 200; 32; 248; 70; 33; 162; 202; 137; 112; 91; 146].

(** Its content. *)
Definition demo_zstd_text : list Z := [
  84; 104; 101; 32; 113; 117; 105; 99; 107; 32; 98; 114; 111; 119; 110; 32; 102; 111; 120; 32; 106; 117; 109;
  112; 115; 32; 111; 118; 101; 114; 32; 116; 104; 101; 32; 108; 97; 122; 121; 32; 100; 111; 103; 46; 32; 84;
  104; 101; 32; 113; 117; 105; 99; 107; 32; 98; 114; 111; 119; 110; 32; 100; 111; 103; 32; 106; 117; 109;
  112; 115; 32; 111; 118; 101; 114; 32; 116; 104; 101; 32; 108; 97; 122; 121; 32; 102; 111; 120; 59; 32; 112;
  97; 99; 107; 32; 109; 121; 32; 98; 111; 120; 32; 119; 105; 116; 104; 32; 102; 105; 118; 101; 32; 100; 111;
  122; 101; 110; 32; 108; 105; 113; 117; 111; 114; 32; 106; 117; 103; 115; 46; 32; 72; 111; 119; 32; 118;
  101; 120; 105; 110; 103; 108; 121; 32; 113; 117; 105; 99; 107; 32; 100; 97; 102; 116; 32; 122; 101; 98;
  114; 97; 115; 32; 106; 117; 109; 112; 33; 32; 84; 104; 101; 32; 102; 105; 118; 101; 32; 98; 111; 120; 105;
  110; 103; 32; 119; 105; 122; 97; 114; 100; 115; 32; 106; 117; 109; 112; 32; 113; 117; 105; 99; 107; 108;
  121; 32; 111; 118; 101; 114; 32; 116; 104; 101; 32; 108; 97; 122; 121; 32; 100; 111; 103; 32; 97; 110; 100;
  32; 116; 104; 101; 32; 113; 117; 105; 99; 107; 32; 102; 111; 120; 44; 32; 97; 110; 100; 32; 112; 97; 99;
  107; 32; 116; 104; 101; 32; 98; 111; 120; 46; 32].

(** The outcome of a run: the status, the output, and what is left of the input. *)
Definition outcome {A} (n : nat) (r : res (Z * Z * mem * A)) : res (Z * list Z * A) :=
  '(r, e, m, a) ← r; l ← ld n m 8; Ok (r, (if r =? IOST_OK then take (Z.to_nat (e - 8)) l else []), a).

(** The driver finds the format and decompresses the whole frame. *)
Lemma decompress_zstd_example :
  let a := {| b_start := 624; b_end := 624 + zlen demo_zstd_frame |} in
  outcome 500 (decompress async_pump_dummy true 20 demo_formats (demo_mem 600 demo_zstd_frame) a 8 600)
    = Ok (IOST_OK, demo_zstd_text, {| b_start := b_end a; b_end := b_end a |}).
Proof. vm_compute. reflexivity. Qed.

(** The same LZ4 frame decodes when it is in memory, and fails when the
    transfer delivers only what was asked for: four bytes of a block header
    are required without asking for them. *)
Lemma decompress_depends_on_arrival :
  let L := 124 + zlen demo_lz4_file in
  outcome 50 (decompress async_pump_dummy false 20 demo_formats (demo_mem 100 demo_lz4_file) {| b_start := 124; b_end := L |} 8 100)
    = Ok (IOST_OK, lz4_ex_output, {| b_start := L; b_end := L |}) /\
  outcome 50 (decompress exact_pump false 60 demo_formats (demo_mem 100 demo_lz4_file) {| eb_start := 124; eb_end := 124; eb_limit := L |} 8 100)
    = Ok (IOST_INVALID, [], {| eb_start := 131; eb_end := 131; eb_limit := L |}).
Proof. vm_compute. split; reflexivity. Qed.

(** C6: the decoding loop of the driver always returns.  For any transfer and
    any decompressor that keep their promises, [decode_loop] finishes within
    as many rounds as there are bytes left to consume plus bytes left to
    deliver: either the decoder is done and the transfer stands exactly behind
    the bytes it consumed, or the driver reports the failure of the transfer
    or of the decoder. *)
Theorem decode_loop_terminates {A : Type} (pump : pump_func A) `{!Transfer pump} (d : decompressor) `{!Decoder d} m s a buf L :
  transfer_view a (b_start buf) (b_end buf) L -> decoder_at m s (b_start buf) L -> b_start buf <= b_end buf <= L ->
  exists r s' m' a',
    decode_loop pump (Z.to_nat (2 * L - b_start buf - b_end buf + 1)) d m s a buf = Ok (r, s', m', a') /\
    loop_result pump d L r s' m' a'.
Proof. intros Hv Hd Hb. by apply decode_loop_ok; try lia. Qed.

Definition demo_lz4_body : list Z := lz4_ex_frame ++ [1; 2; 3; 4].
Definition demo_lz4_state : lz4_dec_state :=
  {| lz4_st := lz4_st lz4_ex_state; max_block_size := 2 ^ 16; flags := 68 |}.

Lemma decode_loop_terminates_witness :
  let p := 64 + LZCOMMON_BLOCK in let L := p + zlen demo_lz4_body in
  exists r s' m' a',
    decode_loop exact_pump (Z.to_nat (2 * L - p - p + 1)) (lz4_decompressor demo_junk) (lz_layout 64 [] demo_lz4_body)
      demo_lz4_state {| eb_start := p; eb_end := p; eb_limit := L |} {| b_start := p; b_end := p |} = Ok (r, s', m', a') /\
    loop_result exact_pump (lz4_decompressor demo_junk) L r s' m' a'.
Proof.
  intros p L. apply (decode_loop_terminates exact_pump (lz4_decompressor demo_junk) _ demo_lz4_state _ {| b_start := p; b_end := p |} L).
  - split; [reflexivity |]. vm_compute. split; discriminate.
  - exists [], demo_lz4_body. constructor; [constructor | ..]; try reflexivity; [| cbn; lia].
    apply (lz_layout_inv 64 [] demo_lz4_body); [constructor | | cbn; lia | cbn; lia]. repeat constructor; unfold is_byte; lia.
  - vm_compute. split; discriminate.
Defined.
