(* ===== verification/Printf.v ===== *)
(** * Console output ([src/lib/uart.c], [src/include/format.h])

    [fmt_hex], [fmt_dec] and [vprintf].  The text of the current line is
    collected in a buffer on the stack, [CONFIG_BUF_SIZE] bytes long, and
    written to the console at the end of each line.  A panic is an outcome of
    its own, because it prints a message; a store outside of the buffer
    traps. *)
From S2P Require Export Prelude.
From stdpp Require Import strings.

Open Scope Z_scope.

Fixpoint chars (s : string) : list Z :=
  match s with EmptyString => [] | String a s => Z.of_N (Ascii.N_of_ascii a) :: chars s end.

(** [Panic con]: [plat_panic] was called when the console had received [con]. *)
Inductive pr (A : Type) : Type :=
| Go (a : A)
| Panic (con : list Z).
Arguments Go {A} a.
Arguments Panic {A} con.

Definition pr_bind {A B} (r : res (pr A)) (k : A -> res (pr B)) : res (pr B) :=
  match r with Ok (Go a) => k a | Ok (Panic con) => Ok (Panic con) | Trap t => Trap t end.

(** [let? x := e in k] goes on unless [e] panicked. *)
Notation "'let?' x := e 'in' k" := (pr_bind e (fun x => k)) (at level 10, x name, e at level 100, k at level 200).
Notation "'let?' ' x := e 'in' k" := (pr_bind e (fun p => match p with x => k end)) (at level 10, x pattern, e at level 100, k at level 200).

(** The arguments of a variadic call, by their C type. *)
Inductive va_arg : Type :=
| VInt (z : Z)
| VLong (z : Z)
| VStr (s : list Z).

(** ** Numbers *)
Definition clzll (v : Z) : Z := 63 - Z.log2 v.

(** [while (1) {...; shift -= 4;}], with [shift = 4 * n] *)
Fixpoint hex_loop (n : nat) (val : Z) : list Z :=
  let d := u8 (Z.land (Z.shiftr val (4 * Z.of_nat n)) 0xf) in
  let c := u8 (if 10 <=? d then 97 - 10 + d else 48 + d) in
  c :: match n with O => [] | S n => hex_loop n val end.

(** [char buf[24]] is filled from its end: more than 24 digits would leave it. *)
Fixpoint dec_loop (room : nat) (val : Z) (ptr : list Z) : res (list Z) :=
  match room with
  | O => Trap (TrapOob (-1))
  | S room =>
      let ptr := 48 + val mod 10 :: ptr in
      let val := val / 10 in
      if val =? 0 then Ok ptr else dec_loop room val ptr
  end.

Section Buffer.
(** [CONFIG_BUF_SIZE] *)
Variable bufsz : Z.

(** [line] is what is between [buf] and [out]; [end - out] bytes are left. *)
Definition space (line : list Z) : Z := bufsz - zlen line.

(** The padding and the digits, or [None] when they do not fit. *)
Definition fmt_put (digits : list Z) (pad width : Z) (line : list Z) : option (list Z) :=
  match
    (if zlen digits <? width then
       let padlength := width - zlen digits in
       if space line <? padlength then None else Some (line ++ replicate (Z.to_nat padlength) pad)
     else Some line)
  with
  | None => None
  | Some line => if space line <? zlen digits then None else Some (line ++ digits)
  end.

Definition fmt_hex (val pad width : Z) (line : list Z) : option (list Z) :=
  let shift := if val =? 0 then 0 else 60 - Z.land (clzll val) (Z.lnot 3) in
  fmt_put (hex_loop (Z.to_nat (shift / 4)) val) pad width line.

Definition fmt_dec (val pad width : Z) (line : list Z) : res (option (list Z)) :=
  digits ← dec_loop 24 val [];
  Ok (fmt_put digits pad width line).

(** ** [vprintf] *)
Definition format_overflow {A} (con : list Z) : res (pr A) :=
  Ok (Panic (con ++ chars "ERROR: formatting overflow" ++ [13; 10])).

(** Leaves the console with the line; [out] is [buf] afterwards. *)
Definition end_line (con line : list Z) : res (pr (list Z)) :=
  if zlen line =? bufsz - 2 then format_overflow con
  else if bufsz <? zlen line + 2 then Trap (TrapOob (zlen line))
  else Ok (Go (con ++ line ++ [13; 10])).

(** [if (out == end) {format_overflow();} *out++ = c;] *)
Definition put (con line : list Z) (c : Z) : res (pr (list Z)) :=
  if zlen line =? bufsz then format_overflow con else Ok (Go (line ++ [c])).

Fixpoint put_str (con line str : list Z) : res (pr (list Z * list Z)) :=
  match str with
  | [] => Ok (Go (con, line))
  | c :: str =>
      if c =? 10 then let? con := end_line con line in put_str con [] str
      else let? line := put con line c in put_str con line str
  end.

(** [c = *fmt++]; a format string ends with a zero byte. *)
Definition next (fmt : list Z) : Z * list Z :=
  match fmt with [] => (0, []) | c :: fmt => (c, fmt) end.

Fixpoint width_loop (con line fmt : list Z) (c width : Z) : res (pr (Z * Z * list Z)) :=
  if (48 <=? c) && (c <=? 57) then
    let width := u64 (width * 10 + c - 48) in
    if space line <? width then
      Ok (Panic (con ++ chars "BUG: field width too large for buffer" ++ [13; 10]))
    else
    match fmt with
    | [] => Ok (Go (0, width, []))
    | c :: fmt => width_loop con line fmt c width
    end
  else Ok (Go (c, width, fmt)).

Definition take_int (va : list va_arg) : res (Z * list va_arg) :=
  match va with VInt z :: va => Ok (z, va) | _ => Trap TrapAbort end.
Definition take_long (va : list va_arg) : res (Z * list va_arg) :=
  match va with VLong z :: va => Ok (u64 z, va) | _ => Trap TrapAbort end.

(** The length modifier: the argument, converted to [u64], and the next character. *)
Definition take_value (c : Z) (fmt : list Z) (va : list va_arg) : res (Z * Z * list Z * list va_arg) :=
  if c =? 122 then
    '(value, va) ← take_long va; let '(c, fmt) := next fmt in Ok (value, c, fmt, va)
  else if c =? 108 then
    let '(c, fmt) := next fmt in
    '(value, va) ← take_long va;
    let '(c, fmt) := if c =? 108 then next fmt else (c, fmt) in Ok (value, c, fmt, va)
  else if c =? 104 then
    '(value, va) ← take_int va;
    let value := u64 ((value + 2 ^ 31) mod 2 ^ 32 - 2 ^ 31) in
    let '(c, fmt) := next fmt in
    let '(c, fmt) := if c =? 104 then next fmt else (c, fmt) in Ok (value, c, fmt, va)
  else
    '(value, va) ← take_int va; Ok (u32 value, c, fmt, va).

Record pstate : Type := { con : list Z; line : list Z; printed : Z }.

(** What follows a percent sign: [c] is the character behind it. *)
Definition conversion (c : Z) (fmt : list Z) (va : list va_arg) (s : pstate)
    : res (pr (pstate * list Z * list va_arg)) :=
  if c =? 37 then
    let? l := put (con s) (line s) 37 in
    Ok (Go ({| con := con s; line := l; printed := printed s |}, fmt, va))
  else
  let pad := if c =? 48 then 48 else 32 in
  let '(c, fmt) := if c =? 48 then next fmt else (c, fmt) in
  let? '(c, width, fmt) := width_loop (con s) (line s) fmt c 0 in
  if c =? 115 then
    match va with
    | VStr str :: va =>
        let? '(k, l) := put_str (con s) (line s) str in
        Ok (Go ({| con := k; line := l; printed := printed s |}, fmt, va))
    | _ => Trap TrapAbort
    end
  else if c =? 99 then
    '(z, va) ← take_int va;
    let? l := put (con s) (line s) (u8 z) in
    Ok (Go ({| con := con s; line := l; printed := printed s |}, fmt, va))
  else
  '(value, c, fmt, va) ← take_value c fmt va;
  if (c =? 117) || (c =? 120) then
    o ← (if c =? 117 then fmt_dec value pad width (line s) else Ok (fmt_hex value pad width (line s)));
    match o with
    | None => format_overflow (con s)
    | Some l => Ok (Go ({| con := con s; line := l; printed := printed s |}, fmt, va))
    end
  else Ok (Panic (con s ++ line s ++ chars "BUG: unknown conversion specification" ++ [13; 10])).

Fixpoint vprintf_loop (fuel : nat) (fmt : list Z) (va : list va_arg) (s : pstate) : res (pr pstate) :=
  match fuel with
  | O => Trap TrapFuel
  | S fuel =>
      let '(c, fmt) := next fmt in
      if c =? 0 then Ok (Go s)
      else if c =? 37 then
        let '(c, fmt) := next fmt in
        let? '(s, fmt, va) := conversion c fmt va s in vprintf_loop fuel fmt va s
      else if c =? 10 then
        let? k := end_line (con s) (line s) in
        (* [out = buf] comes before [printed += out - buf + 2] *)
        vprintf_loop fuel fmt va {| con := k; line := []; printed := printed s + 2 |}
      else
        let? l := put (con s) (line s) c in
        vprintf_loop fuel fmt va {| con := con s; line := l; printed := printed s |}
  end.

(** The console contents afterwards and the returned value. *)
Definition vprintf (k fmt : list Z) (va : list va_arg) : res (pr (list Z * Z)) :=
  let? s := vprintf_loop (S (length fmt)) fmt va {| con := k; line := []; printed := 0 |} in
  let p := if 0 <? zlen (line s) then printed s + zlen (line s) else printed s in
  Ok (Go (con s ++ line s, Z.min p (2 ^ 31 - 1))).

Definition putchar (k : list Z) (c : Z) : list Z * Z := (k ++ [u8 c], 1).
Definition puts (k str : list Z) : res (pr (list Z * Z)) := vprintf k (chars "%s" ++ [10]) [VStr str].
Definition die {A} (k fmt : list Z) (va : list va_arg) : res (pr A) :=
  let? '(k, _) := vprintf k fmt va in Ok (Panic k).
End Buffer.

(** ** What is printed

    The numeral of [v] to the base [b], without leading zeros. *)
Definition digit_char (d : Z) : Z := if 10 <=? d then 87 + d else 48 + d.

Fixpoint numeral_loop (fuel : nat) (b v : Z) : list Z :=
  match fuel with
  | O => []
  | S fuel => (if v <? b then [] else numeral_loop fuel b (v / b)) ++ [digit_char (v mod b)]
  end.
Definition numeral (b v : Z) : list Z := numeral_loop 64 b v.

Definition digit_of (c : Z) : Z := if 97 <=? c then c - 87 else c - 48.
Definition numeral_val (b : Z) (l : list Z) : Z := foldl (fun a c => a * b + digit_of c) 0 l.

Lemma numeral_loop_val fuel b v : 2 <= b <= 16 -> 0 <= v < 2 ^ Z.of_nat fuel -> numeral_val b (numeral_loop fuel b v) = v.
Proof.
  intros Hb. induction fuel as [| fuel IH] in v |- *; intros Hv; [change (2 ^ Z.of_nat 0) with 1 in Hv; cbn; lia |].
  replace (Z.of_nat (S fuel)) with (Z.succ (Z.of_nat fuel)) in Hv by lia. rewrite Z.pow_succ_r in Hv by lia.
  pose proof (Z.mod_pos_bound v b ltac:(lia)) as Hm. pose proof (Z.div_mod v b ltac:(lia)) as Hdm.
  assert (digit_of (digit_char (v mod b)) = v mod b) as Hd
    by (unfold digit_of, digit_char; destruct (Z.leb_spec 10 (v mod b)); case_bool; lia).
  cbn [numeral_loop]. unfold numeral_val in *. rewrite foldl_app. cbn [foldl]. rewrite Hd. case_bool.
  - cbn [foldl]. rewrite Z.mod_small by lia. lia.
  - rewrite IH; [lia |]. split; [apply Z.div_pos; lia |]. apply Z.div_lt_upper_bound; nia.
Qed.

(** The numeral means its value. *)
Lemma numeral_value b v : 2 <= b <= 16 -> 0 <= v < 2 ^ 64 -> numeral_val b (numeral b v) = v.
Proof. intros. by apply numeral_loop_val. Qed.

Lemma numeral_loop_fuel f1 f2 b v : 2 <= b -> 0 <= v < 2 ^ Z.of_nat f1 -> v < 2 ^ Z.of_nat f2 -> (0 < f1)%nat -> (0 < f2)%nat ->
  numeral_loop f1 b v = numeral_loop f2 b v.
Proof.
  intros Hb. induction f1 as [| f1 IH] in f2, v |- *; intros Hv Hv2 H1 H2; [lia |]. destruct f2 as [| f2]; [lia |].
  cbn [numeral_loop]. f_equal. case_bool; [done |].
  replace (Z.of_nat (S f1)) with (Z.succ (Z.of_nat f1)) in Hv by lia.
  replace (Z.of_nat (S f2)) with (Z.succ (Z.of_nat f2)) in Hv2 by lia. rewrite Z.pow_succ_r in Hv, Hv2 by lia.
  apply IH.
  - split; [apply Z.div_pos; lia |]. apply Z.div_lt_upper_bound; nia.
  - apply Z.div_lt_upper_bound; nia.
  - destruct f1; [change (2 ^ Z.of_nat 0) with 1 in Hv |]; lia.
  - destruct f2; [change (2 ^ Z.of_nat 0) with 1 in Hv2 |]; lia.
Qed.

Lemma numeral_loop_S fuel b v :
  numeral_loop (S fuel) b v = (if v <? b then [] else numeral_loop fuel b (v / b)) ++ [digit_char (v mod b)].
Proof. done. Qed.

Lemma numeral_step b v : 2 <= b -> 0 <= v < 2 ^ 64 ->
  numeral b v = (if v <? b then [] else numeral b (v / b)) ++ [digit_char (v mod b)].
Proof.
  intros Hb Hv. unfold numeral. change 64%nat with (S 63) at 1. rewrite numeral_loop_S.
  destruct (Z.ltb_spec v b); [done |].
  assert (0 <= v / b < 2 ^ 63) by (split; [apply Z.div_pos; lia | apply Z.div_lt_upper_bound; nia]).
  rewrite (numeral_loop_fuel 63 64 b (v / b)) by lia. reflexivity.
Qed.

Lemma dec_loop_ok room v ptr : 0 <= v < 10 ^ Z.of_nat room -> v < 2 ^ 64 -> (0 < room)%nat ->
  dec_loop room v ptr = Ok (numeral 10 v ++ ptr).
Proof.
  induction room as [| room IH] in v, ptr |- *; intros Hv H64 Hr; [lia |]. cbn [dec_loop].
  replace (Z.of_nat (S room)) with (Z.succ (Z.of_nat room)) in Hv by lia. rewrite Z.pow_succ_r in Hv by lia.
  pose proof (Z.mod_pos_bound v 10 ltac:(lia)). pose proof (Z.div_mod v 10 ltac:(lia)).
  assert (digit_char (v mod 10) = 48 + v mod 10) as Hd by (unfold digit_char; case_bool; lia).
  rewrite numeral_step, Hd by lia. destruct (Z.eqb_spec (v / 10) 0) as [Hz | Hz].
  - destruct (Z.ltb_spec v 10); [done | lia].
  - destruct (Z.ltb_spec v 10); [lia |]. rewrite IH by (destruct room; lia). by rewrite <- app_assoc.
Qed.

Lemma hex_char d : 0 <= d < 16 -> u8 (if 10 <=? d then 97 - 10 + d else 48 + d) = digit_char d.
Proof. intros Hd. unfold digit_char. case_bool; rewrite u8_small by lia; lia. Qed.

Lemma hex_digit v n : 0 <= n -> u8 (Z.land (Z.shiftr v (4 * n)) 0xf) = v / 16 ^ n mod 16.
Proof.
  intros Hn. rewrite (land_ones_mod _ 4), Z.shiftr_div_pow2, Z.pow_mul_r by lia. change (2 ^ 4) with 16.
  apply u8_small. pose proof (Z.mod_pos_bound (v / 16 ^ n) 16 ltac:(lia)). lia.
Qed.

Lemma hex_loop_snoc n v : hex_loop (S n) v = hex_loop n (v / 16) ++ [digit_char (v mod 16)].
Proof.
  induction n as [| n IH].
  - cbn [hex_loop app]. rewrite !hex_digit, !hex_char by (lia || apply Z.mod_pos_bound; lia).
    by rewrite !Z.pow_0_r, !Z.div_1_r.
  - replace (hex_loop (S (S n)) v) with (digit_char (v / 16 ^ Z.of_nat (S (S n)) mod 16) :: hex_loop (S n) v).
    2: { cbn [hex_loop]. by rewrite !hex_digit, !hex_char by (lia || apply Z.mod_pos_bound; lia). }
    rewrite IH. cbn [hex_loop]. rewrite !hex_digit, !hex_char by (lia || apply Z.mod_pos_bound; lia).
    rewrite Z.div_div by lia. rewrite <- Z.pow_succ_r by lia.
    by replace (Z.of_nat (S (S n))) with (Z.succ (Z.of_nat (S n))) by lia.
Qed.

Lemma hex_loop_ok n v : 0 <= v < 2 ^ 64 -> v < 16 ^ (Z.of_nat n + 1) -> (n = 0%nat \/ 16 ^ Z.of_nat n <= v) ->
  hex_loop n v = numeral 16 v.
Proof.
  induction n as [| n IH] in v |- *; intros H64 Hv Hn; rewrite numeral_step by lia.
  - change (16 ^ (Z.of_nat 0 + 1)) with 16 in Hv. destruct (Z.ltb_spec v 16); [| lia].
    cbn [hex_loop]. rewrite hex_digit, hex_char by (lia || apply Z.mod_pos_bound; lia). by rewrite Z.pow_0_r, Z.div_1_r.
  - destruct Hn as [| Hn]; [done |].
    replace (Z.of_nat (S n) + 1) with (Z.succ (Z.of_nat n + 1)) in Hv by lia.
    replace (Z.of_nat (S n)) with (Z.succ (Z.of_nat n)) in Hn by lia. rewrite Z.pow_succ_r in Hv, Hn by lia.
    pose proof (Z.pow_pos_nonneg 16 (Z.of_nat n) ltac:(lia) ltac:(lia)).
    destruct (Z.ltb_spec v 16); [nia |].
    rewrite hex_loop_snoc, IH; [done | | | right; apply Z.div_le_lower_bound; lia];
      [split; [apply Z.div_pos; lia |] |]; apply Z.div_lt_upper_bound; lia.
Qed.

(** *** Format strings as lists of items *)
Inductive len_mod : Set := LmNone | LmZ | LmL | LmLL | LmH | LmHH.

Inductive item : Type :=
| ILit (c : Z)
| IPercent
| IStr (s : list Z)
| IChr (c : Z)
| INum (hex zero : bool) (width : list Z) (lm : len_mod) (v : Z).

Definition lm_chars (lm : len_mod) : list Z :=
  match lm with LmNone => [] | LmZ => [122] | LmL => [108] | LmLL => [108; 108] | LmH => [104] | LmHH => [104; 104] end.

Definition item_fmt (i : item) : list Z :=
  match i with
  | ILit c => [c]
  | IPercent => [37; 37]
  | IStr _ => [37; 115]
  | IChr _ => [37; 99]
  | INum hex zero width lm _ =>
      37 :: (if zero then [48] else []) ++ map (fun d => 48 + d) width ++ lm_chars lm ++ [if hex then 120 else 117]
  end.

Definition item_args (i : item) : list va_arg :=
  match i with
  | ILit _ | IPercent => []
  | IStr s => [VStr s]
  | IChr c => [VInt c]
  | INum _ _ _ (LmNone | LmH | LmHH) v => [VInt v]
  | INum _ _ _ _ v => [VLong v]
  end.

Definition width_val (acc : Z) (width : list Z) : Z := foldl (fun w d => w * 10 + d) acc width.

(** The numbers of the type that a length modifier stands for. *)
Definition lm_bound (lm : len_mod) : Z :=
  match lm with LmNone => 2 ^ 32 | LmH => 2 ^ 16 | LmHH => 2 ^ 8 | _ => 2 ^ 64 end.

Definition item_ok (i : item) : Prop :=
  match i with
  | ILit c => c <> 0 /\ c <> 37
  | INum _ zero width lm v =>
      Forall (fun d => 0 <= d <= 9) width /\ (zero = false -> forall d w, width = d :: w -> d <> 0) /\ 0 <= v < lm_bound lm
  | _ => True
  end.

(** What is sent: characters, and line ends in place of newlines. *)
Inductive event : Set := EvChar (c : Z) | EvLine.

Definition char_event (c : Z) : event := if c =? 10 then EvLine else EvChar c.

Definition item_events (i : item) : list event :=
  match i with
  | ILit c => [char_event c]
  | IPercent => [EvChar 37]
  | IStr s => map char_event s
  | IChr c => [EvChar (u8 c)]
  | INum hex zero width _ v =>
      let digits := numeral (if hex then 16 else 10) v in
      map EvChar (replicate (Z.to_nat (width_val 0 width - zlen digits)) (if zero then 48 else 32) ++ digits)
  end.

Definition event_bytes (e : event) : list Z := match e with EvChar c => [c] | EvLine => [13; 10] end.

(** Each line has room in the buffer, which must have a byte to spare for the
    line end: [n] bytes of the current line are used. *)
Fixpoint fits (bufsz n : Z) (evs : list event) : Prop :=
  match evs with
  | [] => True
  | EvChar _ :: evs => n < bufsz /\ fits bufsz (n + 1) evs
  | EvLine :: evs => n + 2 < bufsz /\ fits bufsz 0 evs
  end.

Definition step_event (s : list Z * list Z) (e : event) : list Z * list Z :=
  match e with EvChar c => (s.1, s.2 ++ [c]) | EvLine => (s.1 ++ s.2 ++ [13; 10], []) end.
Definition run_events (s : list Z * list Z) (evs : list event) : list Z * list Z := foldl step_event s evs.

Lemma run_events_bytes evs s :
  (run_events s evs).1 ++ (run_events s evs).2 = s.1 ++ s.2 ++ flat_map event_bytes evs.
Proof.
  induction evs as [| e evs IH] in s |- *; [cbn; by rewrite app_nil_r |].
  unfold run_events in *. cbn [foldl]. rewrite IH. destruct e; cbn; by rewrite <- !app_assoc.
Qed.

Lemma run_chars l s : run_events s (map EvChar l) = (s.1, s.2 ++ l).
Proof.
  induction l as [| c l IH] in s |- *; [cbn; destruct s; by rewrite app_nil_r |].
  unfold run_events in *. cbn [map foldl]. rewrite IH. cbn. by rewrite <- app_assoc.
Qed.

Lemma fits_chars bufsz n l evs : fits bufsz n (map EvChar l ++ evs) ->
  (l = [] \/ n + zlen l <= bufsz) /\ fits bufsz (n + zlen l) evs.
Proof.
  induction l as [| c l IH] in n |- *; cbn [map app fits].
  - intros H. split; [by left |]. by replace (n + zlen (@nil Z)) with n by (cbn; lia).
  - intros [Hn H]. destruct (IH _ H) as [Hl Hf]. split.
    + right. destruct Hl as [-> | Hl]; cbn [length]; lia.
    + replace (n + zlen (c :: l)) with (n + 1 + zlen l) by (cbn [length]; lia). done.
Qed.

Section Correct.
Context (bufsz : Z) (Hb : 0 <= bufsz < 2 ^ 64).

Lemma put_ok con line c : zlen line < bufsz -> put bufsz con line c = Ok (Go (line ++ [c])).
Proof. intros H. unfold put. destruct (Z.eqb_spec (zlen line) bufsz); [lia | done]. Qed.

Lemma end_line_ok con line : zlen line + 2 < bufsz -> end_line bufsz con line = Ok (Go (con ++ line ++ [13; 10])).
Proof.
  intros H. unfold end_line. destruct (Z.eqb_spec (zlen line) (bufsz - 2)); [lia |].
  destruct (Z.ltb_spec bufsz (zlen line + 2)); [lia | done].
Qed.

Lemma put_str_ok s con line evs : fits bufsz (zlen line) (map char_event s ++ evs) ->
  put_str bufsz con line s = Ok (Go (run_events (con, line) (map char_event s))) /\
  fits bufsz (zlen (run_events (con, line) (map char_event s)).2) evs.
Proof.
  unfold run_events. induction s as [| c s IH] in con, line |- *; intros Hf; [done |].
  cbn [map app put_str foldl] in *. unfold char_event at 1 in Hf. unfold char_event at 1 3.
  destruct (Z.eqb_spec c 10) as [-> | Hc]; cbn [fits] in Hf; destruct Hf as [Hn Hf].
  - rewrite end_line_ok by done. cbn [pr_bind]. by apply IH.
  - rewrite put_ok by done. cbn [pr_bind]. apply IH. by rewrite length_app, Nat2Z.inj_add.
Qed.

Lemma fmt_put_ok digits pad width line :
  zlen line + Z.max width (zlen digits) <= bufsz ->
  fmt_put bufsz digits pad width line = Some (line ++ replicate (Z.to_nat (width - zlen digits)) pad ++ digits).
Proof.
  intros H. unfold fmt_put, space. destruct (Z.ltb_spec (zlen digits) width).
  - destruct (Z.ltb_spec (bufsz - zlen line) (width - zlen digits)); [lia |].
    rewrite length_app, length_replicate. case_bool; [lia |]. by rewrite <- app_assoc.
  - case_bool; [lia |]. by replace (Z.to_nat (width - zlen digits)) with 0%nat by lia.
Qed.

Lemma fmt_hex_ok v pad width line : 0 <= v < 2 ^ 64 -> zlen line + Z.max width (zlen (numeral 16 v)) <= bufsz ->
  fmt_hex bufsz v pad width line
    = Some (line ++ replicate (Z.to_nat (width - zlen (numeral 16 v))) pad ++ numeral 16 v).
Proof.
  intros Hv H. unfold fmt_hex. set (shift := if v =? 0 then _ else _).
  assert (shift / 4 = Z.log2 v / 4) as ->.
  { subst shift. destruct (Z.eqb_spec v 0) as [-> | Hv0]; [done |]. unfold clzll.
    assert (0 <= Z.log2 v < 64) as HL by (split; [apply Z.log2_nonneg | apply Z.log2_lt_pow2; lia]).
    replace (Z.land (63 - Z.log2 v) (Z.lnot 3)) with ((63 - Z.log2 v) / 4 * 4); [dlia |].
    change 3 with (Z.ones 2). rewrite <- Z.ldiff_land, Z.ldiff_ones_r, Z.shiftl_mul_pow2, Z.shiftr_div_pow2 by lia. done. }
  assert (0 <= Z.log2 v) as HL by apply Z.log2_nonneg.
  rewrite (hex_loop_ok _ v Hv); [by apply fmt_put_ok | |].
  - rewrite Z2Nat.id by (apply Z.div_pos; lia). change 16 with (2 ^ 4). rewrite <- Z.pow_mul_r by dlia.
    destruct (Z.eq_dec v 0) as [-> |]; [reflexivity |]. apply Z.log2_lt_pow2; [lia | dlia].
  - destruct (Z.eq_dec v 0) as [-> |]; [by left |]. right.
    rewrite Z2Nat.id by (apply Z.div_pos; lia). change 16 with (2 ^ 4). rewrite <- Z.pow_mul_r by dlia.
    apply Z.log2_le_pow2; [lia | dlia].
Qed.

Lemma fmt_dec_ok v pad width line : 0 <= v < 2 ^ 64 -> zlen line + Z.max width (zlen (numeral 10 v)) <= bufsz ->
  fmt_dec bufsz v pad width line
    = Ok (Some (line ++ replicate (Z.to_nat (width - zlen (numeral 10 v))) pad ++ numeral 10 v)).
Proof.
  intros Hv H. unfold fmt_dec. rewrite dec_loop_ok, app_nil_r by (change (10 ^ Z.of_nat 24) with 1000000000000000000000000; lia).
  cbn [mbind res_bind]. by rewrite fmt_put_ok.
Qed.

Lemma width_loop_stop con line fmt c width : (48 <=? c) && (c <=? 57) = false ->
  width_loop bufsz con line fmt c width = Ok (Go (c, width, fmt)).
Proof. intros H. destruct fmt; cbn [width_loop]; by rewrite H. Qed.

Lemma width_val_ge w acc : 0 <= acc -> Forall (fun d => 0 <= d <= 9) w -> acc <= width_val acc w.
Proof.
  intros Ha Hw. induction Hw as [| d w Hd Hw IH] in acc, Ha |- *; cbn; [lia |].
  unfold width_val in IH. specialize (IH (acc * 10 + d)). lia.
Qed.

Lemma width_loop_ok w con line c fmt acc c0 f0 :
  Forall (fun d => 0 <= d <= 9) w -> (48 <=? c) && (c <=? 57) = false -> 0 <= acc ->
  width_val acc w <= space bufsz line -> next (map (fun d => 48 + d) w ++ c :: fmt) = (c0, f0) ->
  width_loop bufsz con line f0 c0 acc = Ok (Go (c, width_val acc w, fmt)).
Proof.
  intros Hw Hc. induction Hw as [| d w Hd Hw IH] in acc, c0, f0 |- *; intros Ha Hs Hn.
  { cbn in Hn. simplify_eq. by apply width_loop_stop. }
  cbn [map app next] in Hn. simplify_eq. cbn [width_val foldl] in Hs |- *.
  assert (acc * 10 + d <= width_val (acc * 10 + d) w) as Hge by (apply width_val_ge; [lia | done]).
  assert ((48 <=? 48 + d) && (48 + d <=? 57) = true) as Hd' by (apply andb_true_intro; split; zb).
  assert (u64 (acc * 10 + (48 + d) - 48) = acc * 10 + d) as Hu.
  { unfold width_val, space in *. rewrite u64_small; lia. }
  destruct (map (fun d => 48 + d) w ++ c :: fmt) as [| c1 f1] eqn:Hf; [by destruct w |].
  cbn [width_loop]. rewrite Hd', Hu. unfold width_val in *.
  destruct (Z.ltb_spec (space bufsz line) (acc * 10 + d)); [lia |]. by apply IH; [lia | lia |].
Qed.

Lemma take_value_ok lm (hex : bool) v c f tail va zero width : 0 <= v < lm_bound lm ->
  next (lm_chars lm ++ [if hex then 120 else 117] ++ tail) = (c, f) ->
  take_value c f (item_args (INum hex zero width lm v) ++ va) = Ok (v, if hex then 120 else 117, tail, va).
Proof.
  intros Hv Hn. destruct lm, hex; cbn in Hn, Hv; simplify_eq; cbn; rewrite ?u32_small, ?u64_small by lia; try done;
    rewrite (Z.mod_small (v + 2147483648)) by lia; rewrite u64_small by lia; do 4 f_equal; lia.
Qed.

Lemma next_lm lm (hex : bool) tail : exists c f, next (lm_chars lm ++ [if hex then 120 else 117] ++ tail) = (c, f) /\
  lm_chars lm ++ [if hex then 120 else 117] ++ tail = c :: f /\ (48 <=? c) && (c <=? 57) = false /\
  (c =? 115) = false /\ (c =? 99) = false /\ (c =? 48) = false /\ (c =? 37) = false.
Proof. destruct lm, hex; cbn; eauto 10. Qed.

(** The state after an item. *)
Definition after (s : pstate) (evs : list event) : pstate :=
  let r := run_events (con s, line s) evs in {| con := r.1; line := r.2; printed := printed s |}.

Lemma conversion_num (hex zero : bool) width lm v c f tail va s evs :
  let i := INum hex zero width lm v in
  item_ok i -> fits bufsz (zlen (line s)) (item_events i ++ evs) ->
  next ((if zero then [48] else []) ++ map (fun d => 48 + d) width ++ lm_chars lm ++ [if hex then 120 else 117] ++ tail) = (c, f) ->
  conversion bufsz c f (item_args i ++ va) s = Ok (Go (after s (item_events i), tail, va)).
Proof.
  intros i (Hw & Hz & Hv) Hf Hn. subst i. destruct (next_lm lm hex tail) as (c1 & f1 & Hn1 & Hl1 & Hd1 & H115 & H99 & H48 & H37).
  rewrite Hl1 in Hn. unfold item_events in Hf. apply fits_chars in Hf as [Hroom _].
  set (digits := numeral (if hex then 16 else 10) v) in *.
  assert (digits <> []) as Hne.
  { subst digits. rewrite numeral_step by (destruct hex, lm; cbn in Hv; lia). by destruct (if _ <? _ then _ else _). }
  assert (zlen (line s) + Z.max (width_val 0 width) (zlen digits) <= bufsz) as Hroom'.
  { destruct Hroom as [Hx | Hx]; [by apply app_nil in Hx as [_ ?] |]. rewrite length_app, length_replicate in Hx. lia. }
  assert ((c =? 37) = false /\ (if c =? 48 then 48 else 32) = (if zero then 48 else 32) /\
    exists c2 f2, (if c =? 48 then next f else (c, f)) = (c2, f2) /\ next (map (fun d => 48 + d) width ++ c1 :: f1) = (c2, f2))
    as (Hp & Hpad & c2 & f2 & Hn2 & Hn3).
  { destruct zero.
    - cbn in Hn. simplify_eq. split_and!; [done | done |].
      destruct (next (map (fun d => 48 + d) width ++ c1 :: f1)) as [c2 f2] eqn:Hx. exists c2, f2. by rewrite Z.eqb_refl.
    - cbn [app] in Hn. assert ((c =? 48) = false /\ (c =? 37) = false) as [Hc48 Hc37].
      { destruct width as [| d w]; cbn in Hn; simplify_eq; [done |]. specialize (Hz eq_refl d w eq_refl).
        inversion Hw; subst. split; apply Z.eqb_neq; lia. }
      rewrite Hc48, Hc37. split_and!; [done | done |]. by exists c, f. }
  unfold conversion. rewrite Hp, Hpad, Hn2.
  rewrite (width_loop_ok width (con s) (line s) c1 f1 0 c2 f2 Hw Hd1) by (unfold space; done || lia).
  cbn [pr_bind]. rewrite H115, H99, (take_value_ok lm hex v c1 f1 tail va zero width Hv Hn1). cbn [mbind res_bind].
  assert (0 <= v < 2 ^ 64) as H64 by (destruct lm; cbn in Hv; lia).
  unfold after. cbn [item_events]. rewrite run_chars. cbn [fst snd].
  destruct hex; cbn [Z.eqb Pos.eqb orb]; [rewrite fmt_hex_ok by done | rewrite fmt_dec_ok by done]; done.
Qed.

Lemma conversion_ok i c f tail va s evs : item_ok i -> fits bufsz (zlen (line s)) (item_events i ++ evs) ->
  item_fmt i ++ tail = 37 :: c :: f ->
  conversion bufsz c f (item_args i ++ va) s = Ok (Go (after s (item_events i), tail, va)).
Proof.
  destruct i as [c0 | | str | c0 | hex zero width lm v]; intros Hok Hf Hfmt; cbn [item_fmt app] in Hfmt.
  - destruct Hok as [_ Hok]. by injection Hfmt.
  - simplify_eq. cbn in Hf. destruct Hf as [Hf _]. unfold conversion. cbn [Z.eqb Pos.eqb]. by rewrite put_ok.
  - simplify_eq. destruct (put_str_ok str (con s) (line s) evs Hf) as [Hs _].
    unfold conversion. cbn [Z.eqb Pos.eqb]. rewrite width_loop_stop by done. cbn [pr_bind Z.eqb Pos.eqb item_args app].
    rewrite Hs. cbn [pr_bind]. unfold after. cbn [item_events]. by destruct (run_events _ _).
  - simplify_eq. cbn in Hf. destruct Hf as [Hf _]. unfold conversion. cbn [Z.eqb Pos.eqb].
    rewrite width_loop_stop by done. cbn [pr_bind Z.eqb Pos.eqb item_args app take_int mbind res_bind]. by rewrite put_ok.
  - apply (conversion_num hex zero width lm v c f tail va s evs Hok Hf).
    injection Hfmt as Hfmt. rewrite <- !app_assoc in Hfmt. cbn [app]. cbn [app] in Hfmt. by rewrite Hfmt.
Qed.
End Correct.

(** ** The main loop *)
Lemma item_fmt_cons i tail : item_ok i ->
  (exists c, i = ILit c) \/ exists c f, item_fmt i ++ tail = 37 :: c :: f.
Proof.
  destruct i as [c | | s | c | hex zero width lm v]; intros _; [left; eauto | right; cbn; eauto ..].
  destruct zero; [cbn; eauto |]. destruct width as [| d w]; [| cbn; eauto]. destruct lm, hex; cbn; eauto.
Qed.

Lemma fits_run bufsz evs1 evs2 k l : fits bufsz (zlen l) (evs1 ++ evs2) ->
  fits bufsz (zlen (run_events (k, l) evs1).2) evs2.
Proof.
  unfold run_events. induction evs1 as [| [c |] evs1 IH] in k, l |- *; cbn [app fits foldl]; [done | |]; intros [_ H].
  - apply IH. by rewrite length_app, Nat2Z.inj_add.
  - by apply IH.
Qed.

Lemma vprintf_loop_ok bufsz items fuel s : 0 <= bufsz < 2 ^ 64 -> Forall item_ok items ->
  fits bufsz (zlen (line s)) (flat_map item_events items) -> (length (flat_map item_fmt items) < fuel)%nat ->
  exists p, vprintf_loop bufsz fuel (flat_map item_fmt items) (flat_map item_args items) s
    = Ok (Go (let r := run_events (con s, line s) (flat_map item_events items) in {| con := r.1; line := r.2; printed := p |})).
Proof.
  intros Hb Hok. induction Hok as [| i items Hi Hok IH] in fuel, s |- *; intros Hf Hfuel; (destruct fuel as [| fuel]; [lia |]).
  { exists (printed s). by destruct s. }
  cbn [flat_map] in *. rewrite length_app in Hfuel.
  assert (forall s', con s' = (run_events (con s, line s) (item_events i)).1 -> line s' = (run_events (con s, line s) (item_events i)).2 ->
    (length (item_fmt i) >= 1)%nat ->
    exists p, vprintf_loop bufsz fuel (flat_map item_fmt items) (flat_map item_args items) s' = Ok (Go (
      let r := run_events (con s, line s) (item_events i ++ flat_map item_events items) in {| con := r.1; line := r.2; printed := p |})))
    as Hgo.
  { intros s' Hc Hl Hlen. destruct (IH fuel s') as [p Hp]; [rewrite Hl; by apply fits_run | lia |].
    exists p. rewrite Hp. unfold run_events in *. rewrite foldl_app, Hc, Hl. by destruct (foldl step_event _ (item_events i)). }
  destruct (item_fmt_cons i (flat_map item_fmt items) Hi) as [[c ->] | (c & f & Hfmt)].
  - destruct Hi as [H0 H37]. cbn [item_fmt item_args app vprintf_loop next].
    destruct (Z.eqb_spec c 0); [done |]. destruct (Z.eqb_spec c 37); [done |].
    cbn [item_events app] in Hf. unfold char_event in Hf.
    destruct (Z.eqb_spec c 10) as [-> | Hc]; cbn [fits] in Hf; destruct Hf as [Hn Hf].
    + rewrite end_line_ok by done. cbn [pr_bind]. apply Hgo; cbn; done || lia.
    + rewrite put_ok by done. cbn [pr_bind]. apply Hgo; cbn; unfold char_event;
        try (destruct (Z.eqb_spec c 10); [done |]); done || lia.
  - rewrite Hfmt. cbn [vprintf_loop next]. cbn [Z.eqb Pos.eqb].
    rewrite (conversion_ok bufsz Hb i c f _ _ s _ Hi Hf Hfmt). cbn [pr_bind].
    apply Hgo; [done | done |]. destruct i; cbn; lia.
Qed.

(** Two bytes short of a full line, [end_line] stores behind the buffer; with
    exactly two bytes left it gives up although they suffice. *)
Lemma end_line_overruns bufsz k line : bufsz - 2 < zlen line -> end_line bufsz k line = Trap (TrapOob (zlen line)).
Proof.
  intros H. unfold end_line. destruct (Z.eqb_spec (zlen line) (bufsz - 2)); [lia |].
  destruct (Z.ltb_spec bufsz (zlen line + 2)); [done | lia].
Qed.

Lemma vprintf_overruns : vprintf 128 [] (replicate 127 97 ++ [10]) [] = Trap (TrapOob 127).
Proof. vm_compute. reflexivity. Qed.

(** The returned number of characters leaves out the characters of complete lines. *)
Lemma vprintf_miscounts : vprintf 128 [] (chars "abc" ++ [10]) [] = Ok (Go (chars "abc" ++ [13; 10], 2)).
Proof. vm_compute. reflexivity. Qed.

(** [%h] and [%hh] do not convert the argument: a number that is no value of
    the type is printed as it is, where C prints 1. *)
Lemma vprintf_short_not_converted : vprintf 128 [] (chars "%hx") [VInt 0x10001] = Ok (Go (chars "10001", 5)).
Proof. vm_compute. reflexivity. Qed.

(** C37: [vprintf] prints what its format string says.  For every sequence of
    literal characters, percent signs, strings, characters and unsigned
    numbers (decimal or hexadecimal, with any padding, field width and length
    modifier), with arguments that are values of the types the conversions ask
    for, whose characters fit the line buffer with at least three bytes of it
    free at each newline, the console receives exactly the text the sequence
    denotes, with a carriage return before each newline, and no access leaves
    the line buffer.  Lines that leave fewer bytes free are those of
    [vprintf_overruns] and [end_line_overruns]; arguments of [%h] and [%hh]
    beyond the type those of [vprintf_short_not_converted]. *)
Theorem vprintf_correct bufsz k items : 0 <= bufsz < 2 ^ 64 -> Forall item_ok items ->
  fits bufsz 0 (flat_map item_events items) ->
  exists r, vprintf bufsz k (flat_map item_fmt items) (flat_map item_args items)
    = Ok (Go (k ++ flat_map event_bytes (flat_map item_events items), r)).
Proof.
  intros Hb Hok Hf. unfold vprintf.
  destruct (vprintf_loop_ok bufsz items (S (length (flat_map item_fmt items))) {| con := k; line := []; printed := 0 |} Hb Hok Hf)
    as [p ->]; [lia |].
  cbn [pr_bind con line]. eexists. do 2 f_equal. cbn zeta. f_equal. apply (run_events_bytes _ (k, [])).
Qed.

Definition demo_items : list item :=
  [ILit 64; INum true true [8] LmNone 0xff8c0000; ILit 58; INum false false [1; 2] LmZ 12345; IStr [111; 10; 107]; IChr 33; IPercent; ILit 10].

Lemma vprintf_correct_witness :
  exists r, vprintf 128 [] (flat_map item_fmt demo_items) (flat_map item_args demo_items)
    = Ok (Go ([] ++ flat_map event_bytes (flat_map item_events demo_items), r)).
Proof.
  apply (vprintf_correct 128 [] demo_items).
  - lia.
  - unfold demo_items. repeat constructor; try lia; try discriminate; cbn; try lia; intros; simplify_eq; lia.
  - vm_compute. repeat split.
Defined.
