(* ===== verification/Cstring.v ===== *)
(** * String functions ([src/lib/string.c])

    The C library functions that the bootloader brings itself.  A pointer is
    what can be read through it: the bytes of memory behind an address, or
    those of a literal. *)
From S2P Require Export Cmem.

(** ** Definitions *)
Definition ptr : Type := Z -> res Z.
Definition at_addr (m : mem) (a : Z) : ptr := fun i => ld8 m (a + i).
Definition literal (l : list Z) : ptr := geti l.

Fixpoint strnlen_from (n : nat) (s : ptr) (i : Z) : res Z :=
  match n with
  | O => Ok i
  | S n => c ← s i; if c =? 0 then Ok i else strnlen_from n s (i + 1)
  end.
Definition strnlen (s : ptr) (maxlen : Z) : res Z := strnlen_from (Z.to_nat maxlen) s 0.

(** The characters are compared as [unsigned char]. *)
Fixpoint strncmp_from (n : nat) (a b : ptr) (i : Z) : res Z :=
  match n with
  | O => Ok 0
  | S n =>
      c0 ← a i; c1 ← b i;
      if negb (c0 =? c1) then Ok (c0 - c1)
      else if c0 =? 0 then Ok (- c1)
      else if c1 =? 0 then Ok c0
      else strncmp_from n a b (i + 1)
  end.
Definition strncmp (a b : ptr) (maxlen : Z) : res Z := strncmp_from (Z.to_nat maxlen) a b 0.

Fixpoint memcmp_from (n : nat) (a b : ptr) (i : Z) : res Z :=
  match n with
  | O => Ok 0
  | S n => c0 ← a i; c1 ← b i; if negb (c0 =? c1) then Ok (c0 - c1) else memcmp_from n a b (i + 1)
  end.
Definition memcmp (a b : ptr) (maxlen : Z) : res Z := memcmp_from (Z.to_nat maxlen) a b 0.

(** [while (1)]: ends at the first difference or terminator. *)
Fixpoint strcmp_from (fuel : nat) (a b : ptr) (i : Z) : res Z :=
  match fuel with
  | O => Trap TrapFuel
  | S fuel =>
      c0 ← a i; c1 ← b i;
      if negb (c0 =? c1) then Ok (c0 - c1)
      else if (c0 =? 0) || (c1 =? 0) then Ok 0
      else strcmp_from fuel a b (i + 1)
  end.
Definition strcmp (fuel : nat) (a b : ptr) : res Z := strcmp_from fuel a b 0.

(** ** Reference definitions *)

(** Lexicographic order of byte strings. *)
Fixpoint lex (x y : list Z) : comparison :=
  match x, y with
  | [], [] => Eq
  | [], _ :: _ => Lt
  | _ :: _, [] => Gt
  | a :: x, b :: y => match Z.compare a b with Eq => lex x y | c => c end
  end.

(** A C result that has the sign of a comparison. *)
Definition has_sign (r : Z) (c : comparison) : Prop := Z.compare r 0 = c.

(** The bytes [l] can be read through [p], from offset [i]. *)
Definition reads (p : ptr) (i : Z) (l : list Z) : Prop := forall k c, l !! k = Some c -> p (i + Z.of_nat k) = Ok c.

(** The C string [x]: its bytes, which are not zero, and a terminator. *)
Definition c_chars (x : list Z) : Prop := Forall (fun c => 0 < c < 256) x.

(** ** Lemmas *)
Lemma reads_cons p i c l : reads p i (c :: l) <-> p i = Ok c /\ reads p (i + 1) l.
Proof.
  split.
  - intros H. split; [rewrite <- (Z.add_0_r i); by apply (H 0%nat) |].
    intros k d Hk. replace (i + 1 + Z.of_nat k) with (i + Z.of_nat (S k)) by lia. by apply H.
  - intros [H0 H] [| k] d Hd; [cbn in Hd; simplify_eq; by rewrite Z.add_0_r |].
    replace (i + Z.of_nat (S k)) with (i + 1 + Z.of_nat k) by lia. by apply H.
Qed.

Lemma reads_app p i x y : reads p i (x ++ y) <-> reads p i x /\ reads p (i + zlen x) y.
Proof.
  induction x as [| c x IH] in i |- *; cbn [app length].
  - rewrite Z.add_0_r. split; [intros H; by split; [intros k d Hk |] | by intros [_ H]].
  - rewrite !reads_cons, IH. replace (i + Z.of_nat (S (length x))) with (i + 1 + zlen x) by lia. naive_solver.
Qed.

Lemma reads_mem m a l : bytes_at m a l -> reads (at_addr m a) 0 l.
Proof.
  intros H k c Hk. unfold at_addr. apply ld8_eq. rewrite Z.add_0_l, H; [done | by apply lookup_lt_Some in Hk].
Qed.

Lemma reads_literal l : reads (literal l) 0 l.
Proof. intros k c Hk. unfold literal. apply geti_ok; [lia |]. by replace (Z.to_nat (0 + Z.of_nat k)) with k by lia. Qed.

Lemma strnlen_ok n s i x rest : reads s i (x ++ 0 :: rest) -> Forall (fun c => c <> 0) x ->
  strnlen_from n s i = Ok (i + Z.min (Z.of_nat n) (zlen x)).
Proof.
  intros H Hx. induction Hx as [| c x Hc Hx IH] in n, i, H |- *; (destruct n as [| n]; [cbn; f_equal; lia |]); cbn [strnlen_from];
    cbn [app] in H; apply reads_cons in H as [Hr H]; rewrite Hr; cbn [mbind res_bind].
  - cbn. f_equal. lia.
  - destruct (Z.eqb_spec c 0); [lia |]. rewrite IH by done. cbn [length]. f_equal. lia.
Qed.

(** Without a terminator in reach the limit is returned. *)
Lemma strnlen_full n s i x : reads s i x -> Forall (fun c => c <> 0) x -> (n <= length x)%nat ->
  strnlen_from n s i = Ok (i + Z.of_nat n).
Proof.
  intros H Hx. induction Hx as [| c x Hc Hx IH] in n, i, H |- *; intros Hn; (destruct n as [| n]; [cbn; f_equal; lia |]); cbn [strnlen_from].
  - cbn in Hn. lia.
  - apply reads_cons in H as [-> H]. cbn [mbind res_bind]. destruct (Z.eqb_spec c 0); [lia |].
    rewrite IH by (done || cbn in Hn; lia). f_equal. lia.
Qed.

Lemma has_sign_sub a b : a <> b -> has_sign (a - b) (Z.compare a b).
Proof. intros H. unfold has_sign. destruct (Z.compare_spec a b); [lia | apply Z.compare_lt_iff; lia | apply Z.compare_gt_iff; lia]. Qed.

Lemma compare_ne a b x y : a <> b -> match Z.compare a b with Eq => lex x y | c => c end = Z.compare a b.
Proof. intros H. destruct (Z.compare_spec a b); done. Qed.

Lemma strncmp_ok n a b i x y rx ry : reads a i (x ++ 0 :: rx) -> reads b i (y ++ 0 :: ry) -> c_chars x -> c_chars y ->
  exists r, strncmp_from n a b i = Ok r /\ has_sign r (lex (take n x) (take n y)).
Proof.
  intros Ha Hb Hx. induction Hx as [| c x Hc Hx IH] in n, i, y, Ha, Hb |- *; intros Hy;
    (destruct n as [| n]; [by exists 0; rewrite !take_0 |]); cbn [strncmp_from];
    cbn [app] in Ha; apply reads_cons in Ha as [Ra Ha]; rewrite Ra; cbn [mbind res_bind];
    destruct Hy as [| d y Hd Hy]; cbn [app] in Hb; apply reads_cons in Hb as [Rb Hb]; rewrite Rb; cbn [mbind res_bind].
  - by exists 0.
  - destruct (Z.eqb_spec 0 d); [lia |]. exists (0 - d). split; [done |]. cbn. by apply Z.compare_lt_iff; lia.
  - destruct (Z.eqb_spec c 0); [lia |]. exists (c - 0). split; [done |]. cbn. by apply Z.compare_gt_iff; lia.
  - cbn [take firstn lex]. destruct (Z.eqb_spec c d) as [<- | Hne]; cbn [negb].
    + destruct (Z.eqb_spec c 0); [lia |]. rewrite Z.compare_refl. by apply IH.
    + exists (c - d). split; [done |]. rewrite compare_ne by done. by apply has_sign_sub.
Qed.

Lemma memcmp_ok n a b i x y : reads a i x -> reads b i y -> length x = n -> length y = n ->
  exists r, memcmp_from n a b i = Ok r /\ has_sign r (lex x y).
Proof.
  intros Ha Hb Hx Hy. induction n as [| n IH] in i, x, y, Ha, Hb, Hx, Hy |- *;
    destruct x as [| c x], y as [| d y]; try done; [by exists 0 |].
  apply reads_cons in Ha as [Ra Ha]. apply reads_cons in Hb as [Rb Hb]. cbn [memcmp_from lex]. rewrite Ra, Rb. cbn [mbind res_bind].
  destruct (Z.eqb_spec c d) as [<- | Hne]; cbn [negb].
  - rewrite Z.compare_refl. apply IH; try done; cbn in Hx, Hy; lia.
  - exists (c - d). split; [done |]. rewrite compare_ne by done. by apply has_sign_sub.
Qed.

Lemma strcmp_ok fuel a b i x y : reads a i (x ++ [0]) -> reads b i (y ++ [0]) -> c_chars x -> c_chars y ->
  (length x < fuel)%nat -> exists r, strcmp_from fuel a b i = Ok r /\ has_sign r (lex x y).
Proof.
  intros Ha Hb Hx. induction Hx as [| c x Hc Hx IH] in fuel, i, y, Ha, Hb |- *; intros Hy Hf; (destruct fuel as [| fuel]; [lia |]);
    cbn [strcmp_from]; cbn [app] in Ha; apply reads_cons in Ha as [Ra Ha]; rewrite Ra; cbn [mbind res_bind];
    destruct Hy as [| d y Hd Hy]; cbn [app] in Hb; apply reads_cons in Hb as [Rb Hb]; rewrite Rb; cbn [mbind res_bind].
  - by exists 0.
  - destruct (Z.eqb_spec 0 d); [lia |]. exists (0 - d). split; [done |]. cbn. by apply Z.compare_lt_iff; lia.
  - destruct (Z.eqb_spec c 0); [lia |]. exists (c - 0). split; [done |]. cbn. by apply Z.compare_gt_iff; lia.
  - cbn [lex]. destruct (Z.eqb_spec c d) as [<- | Hne]; cbn [negb].
    + destruct (Z.eqb_spec c 0); [lia |]. cbn [orb]. rewrite Z.compare_refl. apply IH; try done. cbn in Hf. lia.
    + exists (c - d). split; [done |]. rewrite compare_ne by done. by apply has_sign_sub.
Qed.

Lemma lex_eq x y : lex x y = Eq <-> x = y.
Proof.
  induction x as [| a x IH] in y |- *; destruct y as [| b y]; cbn; try done.
  destruct (Z.compare_spec a b) as [-> | H | H]; [rewrite IH; naive_solver | |]; split; try done; intros [=]; lia.
Qed.
