(* ===== verification/Fdt.v ===== *)
(** * The flattened device tree
      ([src/include/fdt.h], [src/dramstage/transform_fdt.c])

    Before the kernel is started, [transform_fdt] copies the device tree of
    the payload into another buffer: it drops the old memory node and the
    properties of [/chosen] that it replaces, and inserts a memory node, the
    location of the initial file system and entropy.

    The input is read from memory.  The output buffer is the list of the bytes
    written so far, which starts with a header of 64 bytes that is filled in at
    the end; [cap] is its size in bytes, a multiple of four. *)
From S2P Require Export Cstring.
From stdpp Require Import strings.

Open Scope Z_scope.

(** ** Big-endian words *)
Definition be_bytes (n : nat) (v : Z) : list Z := rev (le_bytes n v).
Definition be_val (l : list Z) : Z := le_val (rev l).

(** A load of a big-endian word; pointers to words are aligned. *)
Definition ld_be32 (m : mem) (a : Z) : res Z := l ← ld 4 m a; Ok (be_val l).

Definition FDT_CMD_NODE : Z := 1.
Definition FDT_CMD_NODE_END : Z := 2.
Definition FDT_CMD_PROP : Z := 3.
Definition FDT_CMD_NOP : Z := 4.
Definition FDT_CMD_END : Z := 9.

Definition fdt_has_zero_byte (v : Z) : bool :=
  let v := u32 (Z.lnot v) in
  let v := Z.land (Z.land v 0x0f0f0f0f) (Z.shiftr v 4) in
  let v := Z.land v (Z.shiftr v 2) in
  let v := Z.land v (Z.shiftr v 1) in
  negb (v =? 0).

(** The size of a token in bytes, 0 if it is not valid. *)
Definition fdt_token_size (m : mem) (start end_ : Z) : res Z :=
  if end_ <=? start then Ok 0
  else
  let space := end_ - start in
  cmd ← ld_be32 m start;
  let start := start + 4 in
  if cmd =? FDT_CMD_NODE then
    namelen ← strnlen (at_addr m start) space;
    Ok (if negb (namelen =? space) then u32 (5 + namelen) else 0)
  else if cmd =? FDT_CMD_NODE_END then Ok 4
  else if cmd =? FDT_CMD_PROP then
    if space <? 12 then Ok 0
    else
    len ← ld_be32 m start;
    if space <? u32 (12 + len) then Ok 0 else Ok (u32 (12 + len))
  else if cmd =? FDT_CMD_NOP then Ok 4
  else Ok 0.

(** ** Inserted strings *)
Fixpoint text (s : string) : list Z :=
  match s with EmptyString => [] | String a s => Z.of_N (Ascii.N_of_ascii a) :: text s end.

Definition insstr : list (list Z) :=
  [text "device_type"; text "reg"; text "linux,initrd-start"; text "linux,initrd-end"; text "kaslr-seed"; text "rng-seed"].

(** [INSSTR_OFF_...]: each string is followed by a terminator. *)
Definition insstr_off (i : nat) : Z := zlen (flat_map (fun s => s ++ [0]) (take i insstr)).
Definition INSSTR_OFF_DEVICE_TYPE : Z := insstr_off 0.
Definition INSSTR_OFF_REG : Z := insstr_off 1.
Definition INSSTR_OFF_INITRD_START : Z := insstr_off 2.
Definition INSSTR_OFF_INITRD_END : Z := insstr_off 3.
Definition INSSTR_OFF_KASLR_SEED : Z := insstr_off 4.
Definition INSSTR_OFF_RNG_SEED : Z := insstr_off 5.

Definition inserted_strings : list Z := flat_map (fun s => s ++ [0]) insstr ++ [0].

Record fdt_addendum : Type := {
  fdt_address : Z; initcpio_start : Z; initcpio_end : Z; dram_start : Z; dram_size : Z;
  entropy : list Z; boot_cpu : Z;
}.
Definition entropy_words (info : fdt_addendum) : Z := zlen (entropy info).

(** ** Insertions *)
Section Output.
(** The size of the output buffer in bytes. *)
Variable cap : Z.

(** [out_end - out], in words *)
Definition room (out : list Z) : Z := (cap - zlen out) / 4.

Definition word (v : Z) : list Z := be_bytes 4 v.

(** [for_range(i, 0, n) {*out++ = 0;}] with an unsigned [n]: a count that does
    not fit the buffer runs over its end. *)
Definition zero_words (n : Z) (out : list Z) : res (list Z) :=
  if cap <? zlen out + 4 * u32 n then Trap (TrapOob cap)
  else Ok (out ++ replicate (Z.to_nat (4 * u32 n)) 0).

(** [*out++ = v], for a value that is stored as it is *)
Definition store (l out : list Z) : res (list Z) :=
  if cap <? zlen out + zlen l then Trap (TrapOob cap) else Ok (out ++ l).

Definition insert_initrd (out : list Z) (info : fdt_addendum) (addr_cells string_offset : Z) : res (option (list Z)) :=
  if initcpio_start info =? initcpio_end info then Ok (Some out)
  else if room out <? 6 then Ok None
  else if room out - 6 <? u32 (2 * addr_cells) then Ok None
  else
  out ← store (word 3 ++ word (u32 (4 * addr_cells)) ++ word (u32 (string_offset + INSSTR_OFF_INITRD_START))) out;
  out ← zero_words (addr_cells - 1) out;
  out ← store (word (u32 (initcpio_start info)) ++ word 3 ++ word (u32 (4 * addr_cells)) ++ word (u32 (string_offset + INSSTR_OFF_INITRD_END))) out;
  out ← zero_words (addr_cells - 1) out;
  out ← store (word (u32 (initcpio_end info))) out;
  Ok (Some out).

(** The words of entropy are stored without conversion. *)
Definition raw_words (l : list Z) : list Z := flat_map (le_bytes 4) l.

Definition insert_entropy (out : list Z) (info : fdt_addendum) (string_offset : Z) : res (option (list Z)) :=
  if entropy_words info <? 2 then Ok (Some out)
  else if room out <? 5 then Ok None
  else
  out ← store (word 3 ++ word 8 ++ word (u32 (string_offset + INSSTR_OFF_KASLR_SEED)) ++ raw_words (take 2 (entropy info))) out;
  if entropy_words info <=? 2 then Ok (Some out)
  else if room out <? 3 then Ok None
  else if room out - 3 <? entropy_words info - 2 then Ok None
  else
  out ← store (word 3 ++ word (u32 (4 * (entropy_words info - 2))) ++ word (u32 (string_offset + INSSTR_OFF_RNG_SEED))
                ++ raw_words (drop 2 (entropy info))) out;
  Ok (Some out).

Definition insert_chosen_props (out : list Z) (info : fdt_addendum) (addr_cells string_offset : Z) : res (option (list Z)) :=
  o ← insert_initrd out info addr_cells string_offset;
  match o with
  | None => Ok None
  | Some out => insert_entropy out info string_offset
  end.

(** [cells - i > 2 ? 0 : be32(v >> ((cells - i - 1) * 32))] for [i] from 0 *)
Definition cell_words (cells v : Z) : list Z :=
  flat_map (fun i => let i := Z.of_nat i in
    if 2 <? cells - i then [0; 0; 0; 0] else word (u32 (Z.shiftr v ((cells - i - 1) * 32)))) (seq 0 (Z.to_nat cells)).

Definition insert_memory_node (out : list Z) (info : fdt_addendum) (addr_cells size_cells string_size : Z) : res (option (list Z)) :=
  if ((0 <? dram_start info) && (addr_cells =? 0))
     || ((0xffffffff <? dram_start info) && (addr_cells <? 2))
     || ((0 <? dram_size info) && (size_cells =? 0))
     || ((0xffffffff <? dram_size info) && (size_cells <? 2))
     || (room out <? u32 (12 + addr_cells + size_cells))
  then Ok None
  else
  out ← store (word FDT_CMD_NODE ++ text "memory" ++ [0; 0] ++ word FDT_CMD_PROP ++ word 7) out;
  out ← store (word (u32 (string_size + INSSTR_OFF_DEVICE_TYPE))) out;
  out ← store (text "memory" ++ [0; 0] ++ word FDT_CMD_PROP) out;
  out ← store (word (u32 ((addr_cells + size_cells) * 4)) ++ word (u32 (string_size + INSSTR_OFF_REG))) out;
  out ← store (cell_words addr_cells (dram_start info)) out;
  out ← store (cell_words size_cells (dram_size info)) out;
  out ← store (word FDT_CMD_NODE_END) out;
  Ok (Some out).

(** ** [transform_fdt] *)
Definition FDT_MAGIC : Z := 0xd00dfeed.

(** The output header: offsets and sizes are known at the end.  [junk] is what
    the two words behind it hold. *)
Definition out_header (info : fdt_addendum) (junk : list Z) (struct_off string_off string_size : Z) : list Z :=
  let totalsize := u32 (string_off + string_size) in
  word FDT_MAGIC ++ word totalsize ++ word struct_off ++ word string_off ++ word 48 ++ word 17 ++ word 16
  ++ word (boot_cpu info) ++ word string_size ++ word (u32 (string_off - struct_off - 4))
  ++ junk ++ be_bytes 8 (fdt_address info) ++ be_bytes 8 totalsize.

(** [while (1)] over the reservation entries; a double word is copied as it is. *)
Fixpoint copy_reservations (fuel : nat) (m : mem) (resv resv_end : Z) (out : list Z) : res (option (list Z)) :=
  match fuel with
  | O => Trap TrapFuel
  | S fuel =>
      if (resv_end - resv) / 8 <? 2 then Ok None
      else
      start ← ld 8 m resv; length_ ← ld 8 m (resv + 8);
      if room out <? 4 then Ok None
      else if le_val length_ =? 0 then
        out ← store (replicate 16 0) out; Ok (Some out)
      else
        out ← store (start ++ length_) out;
        copy_reservations fuel m (resv + 16) resv_end out
  end.

Record walk : Type := {
  toks : Z; path : list Z; skip_len : Z; addr_cells : Z; size_cells : Z; in_chosen : bool; out : list Z;
}.
Definition set_written (o : list Z) (w : walk) : walk :=
  {| toks := toks w; path := path w; skip_len := skip_len w; addr_cells := addr_cells w; size_cells := size_cells w; in_chosen := in_chosen w; out := o |}.
Definition set_path (p : list Z) (w : walk) : walk :=
  {| toks := toks w; path := p; skip_len := skip_len w; addr_cells := addr_cells w; size_cells := size_cells w; in_chosen := in_chosen w; out := out w |}.
Definition set_skip (k : Z) (w : walk) : walk :=
  {| toks := toks w; path := path w; skip_len := k; addr_cells := addr_cells w; size_cells := size_cells w; in_chosen := in_chosen w; out := out w |}.
Definition set_cells (ac sc : Z) (w : walk) : walk :=
  {| toks := toks w; path := path w; skip_len := skip_len w; addr_cells := ac; size_cells := sc; in_chosen := in_chosen w; out := out w |}.
Definition set_chosen (b : bool) (w : walk) : walk :=
  {| toks := toks w; path := path w; skip_len := skip_len w; addr_cells := addr_cells w; size_cells := size_cells w; in_chosen := b; out := out w |}.
Definition set_toks (t : Z) (w : walk) : walk :=
  {| toks := t; path := path w; skip_len := skip_len w; addr_cells := addr_cells w; size_cells := size_cells w; in_chosen := in_chosen w; out := out w |}.

(** [while (path[--path_len - 1]) {}]: the remaining length *)
Fixpoint pop_path (fuel : nat) (path : list Z) (path_len : Z) : res Z :=
  match fuel with
  | O => Trap TrapFuel
  | S fuel =>
      let path_len := path_len - 1 in
      c ← geti path (path_len - 1);
      if c =? 0 then Ok path_len else pop_path fuel path path_len
  end.

(** The property names are [char[24]] arrays. *)
Definition replaced_props : list (list Z) :=
  map (fun s => s ++ replicate (24 - length s) 0)
    [text "linux,initrd-start"; text "linux,initrd-end"; text "kaslr-seed"; text "rng-seed"].

Section Walk.
Context (m : mem) (info : fdt_addendum) (toks_end str string_size : Z).

(** [0 == strncmp(str + offset, name, string_size - offset)] *)
Definition name_is (offset : Z) (name : list Z) : res bool :=
  r ← strncmp (at_addr m (str + offset)) (literal name) (string_size - offset); Ok (r =? 0).

Fixpoint any_name (offset : Z) (names : list (list Z)) : res bool :=
  match names with
  | [] => Ok false
  | n :: names => b ← name_is offset n; c ← any_name offset names; Ok (b || c)
  end.

Definition node_token (size : Z) (w : walk) : res (option walk) :=
  let path_len := zlen (path w) in
  mem_node ← (if (path_len =? 1) && (size =? 11)
              then r ← memcmp (at_addr m (toks w + 4)) (literal (text "memory" ++ [0])) 7; Ok (r =? 0)
              else Ok false);
  let w := if negb mem_node then w else set_skip path_len w in
  if 256 - path_len <? size - 4 then Ok None
  else
  name ← ld (Z.to_nat (size - 4)) m (toks w + 4);
  let w := set_path (path w ++ name) w in
  chosen ← (if zlen (path w) =? 8
            then r ← memcmp (literal (path w)) (literal (0 :: text "chosen" ++ [0])) 8; Ok (r =? 0)
            else Ok false);
  Ok (Some (if negb chosen then w else set_chosen true w)).

Definition end_token (w : walk) : res (option walk) :=
  let path_len := zlen (path w) in
  if 1 <? path_len then
    n ← pop_path (length (path w)) (path w) path_len;
    Ok (Some (set_path (take (Z.to_nat n) (path w)) w))
  else if path_len =? 1 then
    o ← insert_memory_node (out w) info (addr_cells w) (size_cells w) string_size;
    match o with
    | None => Ok None
    | Some o => Ok (Some (set_path [] (set_written o w)))
    end
  else Ok None.

Definition prop_token (size : Z) (w : walk) : res (option walk) :=
  let path_len := zlen (path w) in
  offset ← ld_be32 m (toks w + 8);
  if string_size <=? offset then Ok None
  else if (path_len =? 1) && (size =? 16) then
    is_addr ← name_is offset (text "#address-cells" ++ [0]);
    if negb is_addr then
      is_size ← name_is offset (text "#size-cells" ++ [0]);
      if negb is_size then Ok (Some w)
      else if negb (size_cells w =? 0) then Ok None
      else
      c ← ld_be32 m (toks w + 12);
      if 4 <? c then Ok None else Ok (Some (set_cells (addr_cells w) c w))
    else if negb (addr_cells w =? 0) then Ok None
    else
    c ← ld_be32 m (toks w + 12);
    if 4 <? c then Ok None else Ok (Some (set_cells c (size_cells w) w))
  else if in_chosen w then
    b ← any_name offset replaced_props;
    Ok (Some (if negb b then w else set_skip path_len w))
  else Ok (Some w).

(** The properties of [/chosen] are complete. *)
Definition leave_chosen (cmd : Z) (w : walk) : res (option walk) :=
  if in_chosen w && negb (cmd =? FDT_CMD_PROP) then
    o ← insert_chosen_props (out w) info (addr_cells w) string_size;
    match o with
    | None => Ok None
    | Some o => Ok (Some (set_chosen false (set_written o w)))
    end
  else Ok (Some w).

(** The token is copied unless it is skipped. *)
Definition copy_token (size_words : Z) (w : walk) : res (option walk) :=
  o ← (if skip_len w =? 0 then
         if room (out w) <? size_words then Ok None
         else
         l ← ld (Z.to_nat (size_words * 4)) m (toks w);
         o ← store l (out w);
         Ok (Some (set_written o w))
       else Ok (Some w));
  match o with
  | None => Ok None
  | Some w =>
      let w := set_toks (toks w + 4 * size_words) w in
      Ok (Some (if zlen (path w) <=? skip_len w then set_skip 0 w else w))
  end.

(** The body of [do {...} while (path_len)], [None] for [return false]. *)
Definition walk_token (w : walk) : res (option walk) :=
  size ← fdt_token_size m (toks w) toks_end;
  if size =? 0 then Ok None
  else
  let size_words := u32 (size + 3) / 4 in
  cmd ← ld_be32 m (toks w);
  if cmd =? FDT_CMD_NOP then Ok (Some (set_toks (toks w + 4) w))
  else
  o ← leave_chosen cmd w;
  match o with
  | None => Ok None
  | Some w =>
      o ← (if cmd =? FDT_CMD_NODE then node_token size w
           else if cmd =? FDT_CMD_NODE_END then end_token w
           else c_assert (cmd =? FDT_CMD_PROP);; prop_token size w);
      match o with
      | None => Ok None
      | Some w => copy_token size_words w
      end
  end.

Fixpoint walk_tokens (fuel : nat) (w : walk) : res (option walk) :=
  match fuel with
  | O => Trap TrapFuel
  | S fuel =>
      o ← walk_token w;
      match o with
      | None => Ok None
      | Some w => if zlen (path w) =? 0 then Ok (Some w) else walk_tokens fuel w
      end
  end.
End Walk.

(** The part of [transform_fdt] behind the checks of the header.  [None] stands
    for [return false]; [Some l] is the whole output. *)
Definition transform_body (m : mem) (info : fdt_addendum) (junk : list Z) (toks0 toks_end str string_size resv resv_end : Z)
    : res (option (list Z)) :=
  if cap / 4 <? 20 then Ok None
  else
  (* the header and the reservation of the tree itself, 64 bytes, come last *)
  let out0 := replicate 64 0 ++
    (if initcpio_start info =? initcpio_end info then []
     else be_bytes 8 (initcpio_start info) ++ be_bytes 8 (u64 (initcpio_end info - initcpio_start info))) in
  o ← copy_reservations (S (Z.to_nat ((resv_end - resv) / 16))) m resv resv_end out0;
  match o with
  | None => Ok None
  | Some out1 =>
      let out_struct_offset := zlen out1 in
      o ← walk_tokens m info toks_end str string_size (S (Z.to_nat ((toks_end - toks0) / 4)))
            {| toks := toks0; path := []; skip_len := 0; addr_cells := 0; size_cells := 0; in_chosen := false; out := out1 |};
      match o with
      | None => Ok None
      | Some w =>
          cmd ← ld_be32 m (toks w);
          if negb (cmd =? FDT_CMD_END) then Ok None
          else if room (out w) <=? 0 then Ok None
          else
          out2 ← store (word FDT_CMD_END) (out w);
          let out_string_offset := zlen out2 in
          let out_string_size := u32 (zlen inserted_strings + string_size) in
          if (out_string_size <? string_size) || (room out2 * 4 <? out_string_size) then Ok None
          else
          strings ← ld (Z.to_nat string_size) m str;
          out3 ← store (strings ++ inserted_strings) out2;
          Ok (Some (out_header info junk out_struct_offset out_string_offset out_string_size ++ drop 64 out3))
      end
  end.

Definition transform_fdt (m : mem) (header in_end : Z) (info : fdt_addendum) (junk : list Z) : res (option (list Z)) :=
  c_assert (cap / 4 <=? 0x40000000);;
  magic ← ld_be32 m header;
  if negb (magic =? FDT_MAGIC) then Ok None
  else
  version ← ld_be32 m (header + 20); compatible ← ld_be32 m (header + 24);
  if (version <? compatible) || (version <? 16) || (17 <? compatible) then Ok None
  else
  let in_size := in_end - header in
  totalsize ← ld_be32 m (header + 4);
  if in_size <? totalsize then Ok None
  else
  struct_offset ← ld_be32 m (header + 8);
  if negb (struct_offset mod 4 =? 0) || (in_size <? struct_offset) then Ok None
  else
  let toks0 := header + struct_offset in
  let toks_end := header + in_size / 4 * 4 in
  struct_size ← (if 17 <=? version then ld_be32 m (header + 36) else Ok (toks_end - toks0));
  if (17 <=? version) && (negb (struct_size mod 4 =? 0) || ((toks_end - toks0) / 4 <? struct_size / 4)) then Ok None
  else
  let toks_end := toks0 + struct_size in
  cmd ← ld_be32 m toks0; name ← ld 4 m (toks0 + 4);
  if negb (cmd =? FDT_CMD_NODE) || negb (le_val name =? 0) then Ok None
  else
  string_size ← ld_be32 m (header + 32); string_offset ← ld_be32 m (header + 12);
  if (totalsize <=? string_offset) || (totalsize <? u32 (string_offset + string_size))
     || (u32 (string_offset + string_size) <? string_offset) then Ok None
  else
  let str := header + string_offset in
  reserved_offset ← ld_be32 m (header + 16);
  if negb (reserved_offset mod 8 =? 0) || (totalsize <=? reserved_offset) then Ok None
  else
  let resv := header + reserved_offset in
  let resv_end := resv + (totalsize - reserved_offset) / 8 * 8 in
  transform_body m info junk toks0 toks_end str string_size resv resv_end.
End Output.

(** ** Device trees

    A property refers to its name by the offset in the strings block. *)
Record fprop : Type := { p_name : Z; p_data : list Z }.
Inductive tree : Type := Node (name : list Z) (props : list fprop) (kids : list tree).

Definition pad4 (l : list Z) : list Z := l ++ replicate (Z.to_nat ((- zlen l) mod 4)) 0.

Definition flat_prop (p : fprop) : list Z :=
  word FDT_CMD_PROP ++ word (zlen (p_data p)) ++ word (p_name p) ++ pad4 (p_data p).

(** The structure block. *)
Fixpoint flat (t : tree) : list Z :=
  match t with
  | Node name props kids =>
      word FDT_CMD_NODE ++ pad4 (name ++ [0]) ++ flat_map flat_prop props ++ flat_map flat kids ++ word FDT_CMD_NODE_END
  end.

Section TreeInd.
Variable P : tree -> Prop.
Hypothesis HP : forall name props kids, Forall P kids -> P (Node name props kids).
Fixpoint tree_induction (t : tree) : P t :=
  match t with
  | Node name props kids =>
      HP name props kids ((fix go (l : list tree) : Forall P l :=
        match l with [] => List.Forall_nil _ | k :: l => List.Forall_cons _ _ _ (tree_induction k) (go l) end) kids)
  end.
End TreeInd.

(** *** Words *)
Lemma be_bytes_length n v : length (be_bytes n v) = n.
Proof. unfold be_bytes. by rewrite length_rev, le_bytes_length. Qed.

Lemma be_val_bytes n v : be_val (be_bytes n v) = v mod 2 ^ (8 * Z.of_nat n).
Proof. unfold be_val, be_bytes. by rewrite rev_involutive, le_val_bytes. Qed.

Lemma word_length v : zlen (word v) = 4.
Proof. unfold word. by rewrite be_bytes_length. Qed.

Lemma ld_be32_ok m a v rest : bytes_at m a (word v ++ rest) -> 0 <= v < 2 ^ 32 -> ld_be32 m a = Ok v.
Proof.
  intros H Hv. apply bytes_at_app in H as [H _]. unfold ld_be32.
  replace 4%nat with (length (word v)) by apply be_bytes_length. rewrite (ld_bytes_at _ _ _ H).
  cbn [mbind res_bind]. unfold word. rewrite be_val_bytes. f_equal. apply Z.mod_small. done.
Qed.

Lemma pad4_length l : zlen (pad4 l) = 4 * ((zlen l + 3) / 4).
Proof. unfold pad4. rewrite length_app, length_replicate. dlia. Qed.

Lemma flat_prop_length p : zlen (flat_prop p) = 4 * ((12 + zlen (p_data p) + 3) / 4).
Proof. unfold flat_prop. rewrite !length_app, !Nat2Z.inj_add, !word_length, pad4_length. dlia. Qed.

(** *** Tokens *)
Lemma size_node m a e n rest : bytes_at m a (word FDT_CMD_NODE ++ n ++ 0 :: rest) -> Forall (fun c => c <> 0) n ->
  a + 4 + zlen n < e -> e - a < 2 ^ 32 -> fdt_token_size m a e = Ok (5 + zlen n).
Proof.
  intros H Hn He H32. unfold fdt_token_size. destruct (Z.leb_spec e a); [lia |].
  rewrite (ld_be32_ok m a FDT_CMD_NODE _ H) by (unfold FDT_CMD_NODE; lia). cbn [mbind res_bind]. rewrite Z.eqb_refl.
  apply bytes_at_app in H as [_ H]. rewrite word_length in H.
  unfold strnlen. rewrite (strnlen_ok _ _ 0 n rest (reads_mem _ _ _ H) Hn). cbn [mbind res_bind].
  replace (0 + Z.min (Z.of_nat (Z.to_nat (e - a))) (zlen n)) with (zlen n) by lia.
  destruct (Z.eqb_spec (zlen n) (e - a)); [lia |]. cbn [negb]. by rewrite u32_small by lia.
Qed.

Lemma size_end m a e rest : bytes_at m a (word FDT_CMD_NODE_END ++ rest) -> a < e -> fdt_token_size m a e = Ok 4.
Proof.
  intros H He. unfold fdt_token_size. destruct (Z.leb_spec e a); [lia |].
  rewrite (ld_be32_ok m a FDT_CMD_NODE_END _ H) by (unfold FDT_CMD_NODE_END; lia). done.
Qed.

Lemma size_prop m a e p rest : bytes_at m a (flat_prop p ++ rest) -> a + zlen (flat_prop p) <= e -> e - a < 2 ^ 32 ->
  fdt_token_size m a e = Ok (12 + zlen (p_data p)).
Proof.
  intros H He H32. pose proof (flat_prop_length p) as Hlen. unfold flat_prop in H. rewrite <- !app_assoc in H.
  unfold fdt_token_size. destruct (Z.leb_spec e a); [dlia |].
  rewrite (ld_be32_ok m a FDT_CMD_PROP _ H) by (unfold FDT_CMD_PROP; lia). cbn [mbind res_bind].
  change (FDT_CMD_PROP =? FDT_CMD_NODE) with false. change (FDT_CMD_PROP =? FDT_CMD_NODE_END) with false.
  rewrite Z.eqb_refl. cbv iota. destruct (Z.ltb_spec (e - a) 12); [dlia |].
  apply bytes_at_app in H as [_ H]. rewrite word_length in H. rewrite (ld_be32_ok m (a + 4) _ _ H) by dlia.
  cbn [mbind res_bind]. rewrite u32_small by dlia. destruct (Z.ltb_spec (e - a) (12 + zlen (p_data p))); [dlia | done].
Qed.

(** *** The effect of a token *)
Lemma walk_ext a b : toks a = toks b -> path a = path b -> skip_len a = skip_len b -> addr_cells a = addr_cells b ->
  size_cells a = size_cells b -> in_chosen a = in_chosen b -> out a = out b -> a = b.
Proof. destruct a, b. cbn. by intros -> -> -> -> -> -> ->. Qed.

Lemma pop_path_ok fuel p n r : last p = Some 0 -> Forall (fun c => c <> 0) n -> (length n < fuel)%nat ->
  pop_path fuel (p ++ n ++ r) (zlen p + zlen n + 1) = Ok (zlen p).
Proof.
  intros Hp. induction n as [| c n IH] using rev_ind in fuel, r |- *; intros Hn Hf; (destruct fuel as [| fuel]; [lia |]); cbn [pop_path].
  - rewrite last_lookup in Hp. rewrite (geti_ok _ _ 0); [cbn; f_equal; lia | |].
    + apply lookup_lt_Some in Hp. cbn [length]. lia.
    + cbn [length app]. apply lookup_lt_Some in Hp as Hlt. rewrite lookup_app_l by lia. rewrite <- Hp. f_equal. lia.
  - apply Forall_app in Hn as [Hn Hc]. inversion Hc; subst. rewrite length_app in *. cbn [length] in *.
    rewrite (geti_ok _ _ c); [| lia |].
    + cbn [mbind res_bind]. destruct (Z.eqb_spec c 0); [done |]. rewrite <- app_assoc.
      replace (zlen p + Z.of_nat (length n + 1) + 1 - 1) with (zlen p + zlen n + 1) by lia. apply IH; [done | lia].
    + rewrite lookup_app_r by lia. rewrite <- app_assoc. rewrite lookup_app_r by lia.
      by replace (Z.to_nat (zlen p + Z.of_nat (length n + 1) + 1 - 1 - 1) - length p - length n)%nat with 0%nat by lia.
Qed.

Section Steps.
Context (cap : Z) (m : mem) (info : fdt_addendum) (e str ssize : Z).

(** The walk behind a token [l] that was copied or skipped. *)
Definition advance (l : list Z) (w : walk) : walk :=
  {| toks := toks w + zlen l; path := path w;
     skip_len := (if zlen (path w) <=? skip_len w then 0 else skip_len w);
     addr_cells := addr_cells w; size_cells := size_cells w; in_chosen := in_chosen w;
     out := (if skip_len w =? 0 then out w ++ l else out w) |}.

Definition fits_out (l : list Z) (w : walk) : Prop := skip_len w = 0 -> zlen (out w) + zlen l <= cap.

Lemma store_ok l o : zlen o + zlen l <= cap -> store cap l o = Ok (o ++ l).
Proof. intros H. unfold store. destruct (Z.ltb_spec cap (zlen o + zlen l)); [lia | done]. Qed.

Lemma room_ok o n : zlen o + 4 * n <= cap -> (room cap o <? n) = false.
Proof. intros H. unfold room. apply Z.ltb_ge. dlia. Qed.

Lemma copy_token_ok l sw w : zlen l = 4 * sw -> bytes_at m (toks w) l -> fits_out l w ->
  copy_token cap m sw w = Ok (Some (advance l w)).
Proof.
  intros Hl Hb Hf. unfold copy_token, advance. destruct (Z.eqb_spec (skip_len w) 0) as [H0 | H0].
  - specialize (Hf H0). rewrite room_ok by lia.
    replace (Z.to_nat (sw * 4)) with (length l) by lia. rewrite (ld_bytes_at _ _ _ Hb). cbn [mbind res_bind].
    rewrite store_ok by done. cbn. rewrite Hl. by case_bool.
  - cbn. rewrite Hl. by case_bool.
Qed.

Lemma memcmp_eq a b x y n : reads a 0 x -> reads b 0 y -> zlen x = n -> zlen y = n ->
  exists r, memcmp a b n = Ok r /\ (r =? 0) = bool_decide (x = y).
Proof.
  intros Ha Hb Hx Hy. unfold memcmp. destruct (memcmp_ok (Z.to_nat n) a b 0 x y) as (r & Hr & Hs); try done; try lia.
  exists r. split; [done |]. unfold has_sign in Hs. destruct (Z.eqb_spec r 0) as [-> | Hne]; symmetry.
  - apply bool_decide_eq_true. by apply lex_eq.
  - apply bool_decide_eq_false. intros ->. rewrite (proj2 (lex_eq y y) eq_refl) in Hs. by apply Z.compare_eq_iff in Hs.
Qed.

Definition memory_name : list Z := text "memory".
Definition chosen_path : list Z := 0 :: text "chosen" ++ [0].

(** The walk inside a node that begins. *)
Definition enter (n : list Z) (w : walk) : walk :=
  let w := if (zlen (path w) =? 1) && bool_decide (n = memory_name) then set_skip 1 w else w in
  let w := set_path (path w ++ n ++ [0]) w in
  if bool_decide (path w = chosen_path) then set_chosen true w else w.

Lemma node_token_ok n w rest : bytes_at m (toks w + 4) (n ++ 0 :: rest) -> zlen (path w) + zlen n + 1 <= 256 ->
  node_token m (5 + zlen n) w = Ok (Some (enter n w)).
Proof.
  intros Hb Hp. unfold node_token, enter.
  assert (bytes_at m (toks w + 4) (n ++ [0])) as Hb1.
  { replace (n ++ 0 :: rest) with ((n ++ [0]) ++ rest) in Hb by by rewrite <- app_assoc. by apply bytes_at_app in Hb as [? _]. }
  set (c := (zlen (path w) =? 1) && bool_decide (n = memory_name)).
  assert ((if (zlen (path w) =? 1) && (5 + zlen n =? 11)
           then r ← memcmp (at_addr m (toks w + 4)) (literal (text "memory" ++ [0])) 7; Ok (r =? 0) else Ok false) = Ok c) as ->.
  { subst c. destruct (zlen (path w) =? 1); [| done]. cbn [andb]. destruct (Z.eqb_spec (5 + zlen n) 11) as [H11 | H11].
    - destruct (memcmp_eq (at_addr m (toks w + 4)) (literal (text "memory" ++ [0])) (n ++ [0]) (text "memory" ++ [0]) 7)
        as (r & -> & Hr); [by apply reads_mem | apply reads_literal | rewrite length_app; cbn; lia | done |].
      cbn [mbind res_bind]. rewrite Hr. f_equal. apply bool_decide_ext. split; [apply app_inj_tail | by intros ->].
    - f_equal. symmetry. apply bool_decide_eq_false. intros ->. by apply H11. }
  cbn [mbind res_bind].
  set (w1 := if negb c then w else _).
  replace (if c then set_skip 1 w else w) with w1.
  2: { subst w1. destruct c eqn:Hc; [| done]. subst c. apply andb_prop in Hc as [Hc _]. apply Z.eqb_eq in Hc. cbn. by rewrite Hc. }
  assert (path w1 = path w /\ toks w1 = toks w) as [Hpw Htw] by (subst w1; by destruct c).
  destruct (Z.ltb_spec (256 - zlen (path w)) (5 + zlen n - 4)); [lia |].
  replace (Z.to_nat (5 + zlen n - 4)) with (length (n ++ [0])) by (rewrite length_app; cbn; lia).
  rewrite Htw, (ld_bytes_at _ _ _ Hb1). cbn [mbind res_bind]. cbn [path set_path].
  set (p' := path w1 ++ n ++ [0]).
  assert ((if zlen p' =? 8 then r ← memcmp (literal p') (literal (0 :: text "chosen" ++ [0])) 8; Ok (r =? 0) else Ok false)
    = Ok (bool_decide (p' = chosen_path))) as ->.
  { destruct (Z.eqb_spec (zlen p') 8) as [H8 | H8].
    - destruct (memcmp_eq (literal p') (literal chosen_path) p' chosen_path 8) as (r & Hr & Hr'); try apply reads_literal; try done.
      unfold chosen_path in Hr at 1. rewrite Hr. cbn [mbind res_bind]. by rewrite Hr'.
    - f_equal. symmetry. apply bool_decide_eq_false. intros Hx. rewrite Hx in H8. by apply H8. }
  cbn [mbind res_bind]. by destruct (bool_decide (p' = chosen_path)).
Qed.

Context (Hss : 0 <= ssize < 2 ^ 31).

Lemma words_of size (l : list Z) : zlen l = 4 * ((size + 3) / 4) -> 0 <= size < 2 ^ 32 - 3 -> zlen l = 4 * (u32 (size + 3) / 4).
Proof. intros H Hs. by rewrite u32_small by lia. Qed.

Abbreviation step w := (walk_token cap m info e str ssize w).
Abbreviation leave cmd w := (leave_chosen cap info ssize cmd w).

Definition node_head (n : list Z) : list Z := word FDT_CMD_NODE ++ pad4 (n ++ [0]).

Lemma node_head_length n : zlen (node_head n) = 4 * ((5 + zlen n + 3) / 4).
Proof.
  unfold node_head. rewrite length_app, Nat2Z.inj_add, word_length, pad4_length, length_app. cbn [length].
  rewrite Nat2Z.inj_add. change (Z.of_nat 1) with 1. dlia.
Qed.

Lemma enter_toks n w : toks (enter n w) = toks w.
Proof. unfold enter. cbv zeta. by destruct (_ && _), (bool_decide (path _ = _)). Qed.

Lemma step_node n w w1 rest : bytes_at m (toks w) (node_head n ++ rest) -> Forall (fun c => c <> 0) n ->
  toks w + zlen (node_head n) <= e -> e - toks w < 2 ^ 31 ->
  leave FDT_CMD_NODE w = Ok (Some w1) -> toks w1 = toks w -> zlen (path w1) + zlen n + 1 <= 256 ->
  fits_out (node_head n) (enter n w1) ->
  step w = Ok (Some (advance (node_head n) (enter n w1))).
Proof.
  intros Hb Hn He H32 Hl Ht Hp Hf. pose proof (node_head_length n) as Hlen.
  assert (bytes_at m (toks w) (word FDT_CMD_NODE ++ n ++ 0 :: replicate (Z.to_nat ((- zlen (n ++ [0])) mod 4)) 0 ++ rest)) as Hb1.
  { unfold node_head, pad4 in Hb. by rewrite <- !app_assoc in Hb. }
  unfold walk_token. rewrite (size_node _ _ _ n _ Hb1) by (done || dlia). cbn [mbind res_bind].
  destruct (Z.eqb_spec (5 + zlen n) 0); [lia |].
  rewrite (ld_be32_ok _ _ FDT_CMD_NODE _ Hb1) by (unfold FDT_CMD_NODE; lia). cbn [mbind res_bind].
  change (FDT_CMD_NODE =? FDT_CMD_NOP) with false. cbv iota. rewrite Hl. cbn [mbind res_bind]. rewrite Z.eqb_refl.
  apply bytes_at_app in Hb1 as [_ Hb1]. rewrite word_length, <- Ht in Hb1.
  rewrite (node_token_ok n w1 _ Hb1) by done. cbn [mbind res_bind].
  apply copy_token_ok; [apply words_of; [done | dlia] | | done].
  assert (toks (enter n w1) = toks w1) as -> by apply enter_toks.
  rewrite Ht. by apply bytes_at_app in Hb as [? _].
Qed.

Lemma step_end n p w w1 rest : bytes_at m (toks w) (word FDT_CMD_NODE_END ++ rest) -> toks w + 4 <= e ->
  leave FDT_CMD_NODE_END w = Ok (Some w1) -> toks w1 = toks w -> path w1 = p ++ n ++ [0] ->
  last p = Some 0 -> Forall (fun c => c <> 0) n -> fits_out (word FDT_CMD_NODE_END) w1 ->
  step w = Ok (Some (advance (word FDT_CMD_NODE_END) (set_path p w1))).
Proof.
  intros Hb He Hl Ht Hp Hlast Hn Hf. unfold walk_token. rewrite (size_end _ _ _ _ Hb) by lia. cbn [mbind res_bind].
  change (4 =? 0) with false. cbv iota. rewrite (ld_be32_ok _ _ FDT_CMD_NODE_END _ Hb) by (unfold FDT_CMD_NODE_END; lia).
  cbn [mbind res_bind]. change (FDT_CMD_NODE_END =? FDT_CMD_NOP) with false. cbv iota. rewrite Hl. cbn [mbind res_bind].
  change (FDT_CMD_NODE_END =? FDT_CMD_NODE) with false. rewrite Z.eqb_refl. cbv iota.
  assert (1 <= zlen p) as Hp1 by (destruct p; [done | cbn [length]; lia]).
  assert (zlen (path w1) = zlen p + zlen n + 1) as Hlen by (rewrite Hp, !length_app; cbn [length]; lia).
  unfold end_token. destruct (Z.ltb_spec 1 (zlen (path w1))); [| lia].
  rewrite Hlen. rewrite Hp at 2. rewrite (pop_path_ok _ p n [0]) by (done || lia). cbn [mbind res_bind].
  replace (take (Z.to_nat (zlen p)) (path w1)) with p by (rewrite Hp, Nat2Z.id; by rewrite take_app_length).
  apply copy_token_ok; [by rewrite word_length | | done]. cbn. rewrite Ht. by apply bytes_at_app in Hb as [? _].
Qed.

Lemma step_prop p w w1 rest : bytes_at m (toks w) (flat_prop p ++ rest) -> toks w + zlen (flat_prop p) <= e -> e - toks w < 2 ^ 31 ->
  prop_token m str ssize (12 + zlen (p_data p)) w = Ok (Some w1) -> toks w1 = toks w -> fits_out (flat_prop p) w1 ->
  step w = Ok (Some (advance (flat_prop p) w1)).
Proof.
  intros Hb He H32 Hp Ht Hf. pose proof (flat_prop_length p) as Hlen. unfold walk_token.
  rewrite (size_prop _ _ _ p _ Hb) by (done || lia). cbn [mbind res_bind].
  destruct (Z.eqb_spec (12 + zlen (p_data p)) 0); [lia |].
  assert (ld_be32 m (toks w) = Ok FDT_CMD_PROP) as ->.
  { unfold flat_prop in Hb. rewrite <- !app_assoc in Hb. apply (ld_be32_ok _ _ FDT_CMD_PROP _ Hb). unfold FDT_CMD_PROP. lia. }
  cbn [mbind res_bind]. change (FDT_CMD_PROP =? FDT_CMD_NOP) with false. cbv iota.
  assert (leave FDT_CMD_PROP w = Ok (Some w)) as -> by (unfold leave_chosen; by rewrite andb_false_r).
  cbn [mbind res_bind]. change (FDT_CMD_PROP =? FDT_CMD_NODE) with false. change (FDT_CMD_PROP =? FDT_CMD_NODE_END) with false. cbv iota.
  rewrite c_assert_true by done. cbn [mbind res_bind]. rewrite Hp. cbn [mbind res_bind].
  apply copy_token_ok; [apply words_of; [done | dlia] | | done]. rewrite Ht. by apply bytes_at_app in Hb as [? _].
Qed.

Lemma prop_offset p w rest : bytes_at m (toks w) (flat_prop p ++ rest) -> 0 <= p_name p < 2 ^ 32 ->
  ld_be32 m (toks w + 8) = Ok (p_name p).
Proof.
  intros Hb Hn. unfold flat_prop in Hb. rewrite <- !app_assoc in Hb.
  apply bytes_at_app in Hb as [_ Hb]. rewrite word_length in Hb.
  apply bytes_at_app in Hb as [_ Hb]. rewrite word_length in Hb.
  replace (toks w + 4 + 4) with (toks w + 8) in Hb by lia. by apply (ld_be32_ok _ _ _ _ Hb).
Qed.

(** *** Runs of tokens *)
Inductive walks : nat -> walk -> walk -> Prop :=
| walks_refl w : walks 0 w w
| walks_step n w w1 w2 : step w = Ok (Some w1) -> path w1 <> [] -> walks n w1 w2 -> walks (S n) w w2.

Lemma walks_one w w1 : step w = Ok (Some w1) -> path w1 <> [] -> walks 1 w w1.
Proof. intros H Hp. eapply walks_step; [done | done | constructor]. Qed.

Lemma walks_trans n1 n2 w1 w2 w3 : walks n1 w1 w2 -> walks n2 w2 w3 -> walks (n1 + n2) w1 w3.
Proof. induction 1; cbn; [done |]. intros. eapply walks_step; eauto. Qed.

Lemma walks_run n w w' f : walks n w w' -> walk_tokens cap m info e str ssize (n + f) w = walk_tokens cap m info e str ssize f w'.
Proof.
  induction 1 as [| n w w1 w2 Hs Hp Hw IH]; [done |]. cbn [walk_tokens Nat.add]. rewrite Hs. cbn [mbind res_bind].
  destruct (Z.eqb_spec (zlen (path w1)) 0); [by destruct (path w1) | done].
Qed.

(** Behind the bytes [l], in the same node. *)
Definition moved (l : list Z) (w : walk) : walk :=
  {| toks := toks w + zlen l; path := path w; skip_len := skip_len w; addr_cells := addr_cells w; size_cells := size_cells w;
     in_chosen := in_chosen w; out := (if skip_len w =? 0 then out w ++ l else out w) |}.

Lemma advance_moved l w : skip_len w < zlen (path w) -> advance l w = moved l w.
Proof. intros H. unfold advance, moved. destruct (Z.leb_spec (zlen (path w)) (skip_len w)); [lia | done]. Qed.

Lemma moved_app l1 l2 w : moved l2 (moved l1 w) = moved (l1 ++ l2) w.
Proof.
  unfold moved. cbn. rewrite length_app. f_equal; [lia |]. case_bool; [by rewrite <- app_assoc | done].
Qed.

Lemma moved_nil w : moved [] w = w.
Proof. unfold moved. destruct w; cbn. f_equal; [lia |]. case_bool; by rewrite ?app_nil_r. Qed.

Lemma moved_path l p w : moved l (set_path p w) = set_path p (moved l w).
Proof. done. Qed.

Lemma set_path_path p q w : path w = q -> set_path q (set_path p w) = w.
Proof. intros <-. by destruct w. Qed.

Lemma fits_moved l1 l2 w : fits_out (l1 ++ l2) w -> fits_out l2 (moved l1 w).
Proof.
  intros H H0. cbn in H0. specialize (H H0). cbn. rewrite H0. cbn. rewrite length_app in *. lia.
Qed.

Lemma fits_app_l l1 l2 w : fits_out (l1 ++ l2) w -> fits_out l1 w.
Proof. intros H H0. specialize (H H0). rewrite length_app in H. lia. Qed.

(** What is at the walk's position, within the structure block. *)
Definition at_toks (w : walk) (l : list Z) : Prop :=
  exists rest, bytes_at m (toks w) (l ++ rest) /\ toks w + zlen l <= e /\ e - toks w < 2 ^ 31.

Lemma at_moved w l1 l2 : at_toks w (l1 ++ l2) -> at_toks (moved l1 w) l2.
Proof.
  intros (rest & Hb & He & H31). exists rest. rewrite <- app_assoc in Hb. apply bytes_at_app in Hb as [_ Hb].
  rewrite length_app in He. cbn. split_and!; [done | lia | lia].
Qed.

Lemma at_app_l w l1 l2 : at_toks w (l1 ++ l2) -> at_toks w l1.
Proof.
  intros (rest & Hb & He & H31). exists (l2 ++ rest). rewrite app_assoc. rewrite length_app in He. split_and!; [done | lia | lia].
Qed.

Definition prop_ok (p : fprop) : Prop := 0 <= p_name p < ssize.

Inductive tree_wf : Z -> tree -> Prop :=
| wf_node plen n ps ks : Forall (fun c => c <> 0) n -> plen + zlen n + 1 <= 256 -> Forall prop_ok ps ->
    Forall (tree_wf (plen + zlen n + 1)) ks -> tree_wf plen (Node n ps ks).

Definition chosen_name : list Z := text "chosen".

Lemma not_chosen p n : last p = Some 0 -> head p = Some 0 -> (zlen p = 1 -> n <> chosen_name) -> p ++ n ++ [0] <> chosen_path.
Proof.
  intros Hl Hh H1 Heq. destruct p as [| c p]; [done |]. cbn in Hh. simplify_eq.
  destruct (decide (p = [])) as [-> | Hne].
  { apply (H1 eq_refl), (app_inj_tail n chosen_name 0 0). by injection Heq. }
  rewrite last_lookup in Hl. cbn [length Nat.pred] in Hl.
  assert (length ((0 :: p) ++ n ++ [0]) = 8%nat) as Hlen by by rewrite Heq.
  rewrite !length_app in Hlen. cbn [length] in Hlen.
  assert (1 <= length p)%nat by (destruct p; [done | cbn; lia]).
  assert (chosen_path !! length p = Some 0) as Hc by (rewrite <- Heq, lookup_app_l; [done | cbn; lia]).
  assert (length p = 1 \/ length p = 2 \/ length p = 3 \/ length p = 4 \/ length p = 5 \/ length p = 6)%nat as Hcases by lia.
  by destruct Hcases as [Hx | [Hx | [Hx | [Hx | [Hx | Hx]]]]]; rewrite Hx in Hc.
Qed.

(** An ordinary node, not one that is replaced. *)
Lemma enter_plain n w : last (path w) = Some 0 -> head (path w) = Some 0 ->
  (zlen (path w) = 1 -> n <> memory_name /\ n <> chosen_name) -> enter n w = set_path (path w ++ n ++ [0]) w.
Proof.
  intros Hl Hh H1. unfold enter.
  replace ((zlen (path w) =? 1) && bool_decide (n = memory_name)) with false.
  2: { destruct (Z.eqb_spec (zlen (path w)) 1) as [E | E]; [| done]. destruct (H1 E). symmetry. by apply bool_decide_eq_false. }
  cbn [set_path path]. rewrite bool_decide_eq_false_2; [done |]. apply not_chosen; [done | done |]. intros E. by apply H1.
Qed.

Lemma leave_plain cmd w : in_chosen w = false -> leave cmd w = Ok (Some w).
Proof. intros H. unfold leave_chosen. by rewrite H. Qed.

(** Inside of a node below the root, nothing is special. *)
Lemma plain_props ps w : at_toks w (flat_map flat_prop ps) -> Forall prop_ok ps -> in_chosen w = false ->
  1 < zlen (path w) -> skip_len w < zlen (path w) -> fits_out (flat_map flat_prop ps) w ->
  walks (length ps) w (moved (flat_map flat_prop ps) w).
Proof.
  intros Ha Hps Hch Hp Hk Hf. induction Hps as [| p ps Hpok Hps IH] in w, Ha, Hch, Hp, Hk, Hf |- *.
  { cbn. rewrite moved_nil. constructor. }
  cbn [flat_map length] in *. pose proof (at_app_l _ _ _ Ha) as (rest & Hb & He & H31).
  eapply walks_step with (w1 := moved (flat_prop p) w).
  - rewrite (step_prop p w w rest Hb He H31); [by rewrite advance_moved | | done | by eapply fits_app_l].
    unfold prop_token. rewrite (prop_offset p w rest Hb) by (unfold prop_ok in Hpok; lia). cbn [mbind res_bind].
    destruct (Z.leb_spec ssize (p_name p)); [unfold prop_ok in Hpok; lia |].
    destruct (Z.eqb_spec (zlen (path w)) 1); [lia |]. cbn [andb]. by rewrite Hch.
  - cbn. by destruct (path w).
  - rewrite <- moved_app. apply IH; try done; [by apply at_moved | by apply fits_moved].
Qed.

Lemma zlen_word_pos n l : 4 <= zlen (node_head n ++ l).
Proof. rewrite length_app, Nat2Z.inj_add, node_head_length. dlia. Qed.

Lemma flat_eq n ps ks : flat (Node n ps ks)
  = node_head n ++ (flat_map flat_prop ps ++ flat_map flat ks) ++ word FDT_CMD_NODE_END.
Proof. cbn [flat]. unfold node_head. by rewrite <- !app_assoc. Qed.

(** A subtree is copied as it is, or skipped as a whole. *)
Definition plain_tree (t : tree) : Prop := forall w,
  at_toks w (flat t) -> tree_wf (zlen (path w)) t -> in_chosen w = false ->
  last (path w) = Some 0 -> head (path w) = Some 0 -> 0 <= skip_len w < zlen (path w) -> fits_out (flat t) w ->
  (zlen (path w) = 1 -> match t with Node n _ _ => n <> memory_name /\ n <> chosen_name end) ->
  exists n, walks n w (moved (flat t) w) /\ 4 * Z.of_nat n <= zlen (flat t).

Lemma plain_kids ks w : Forall plain_tree ks -> at_toks w (flat_map flat ks) -> Forall (tree_wf (zlen (path w))) ks ->
  in_chosen w = false -> last (path w) = Some 0 -> head (path w) = Some 0 -> 1 < zlen (path w) -> 0 <= skip_len w < zlen (path w) ->
  fits_out (flat_map flat ks) w -> exists n, walks n w (moved (flat_map flat ks) w) /\ 4 * Z.of_nat n <= zlen (flat_map flat ks).
Proof.
  intros Hks. induction Hks as [| k ks Hk Hks IH] in w |- *; intros Ha Hwf Hch Hl Hh Hp Hs Hf.
  { exists 0%nat. cbn. rewrite moved_nil. split; [constructor | lia]. }
  cbn [flat_map] in *. inversion Hwf as [| ? ? Hwk Hwks]; subst.
  destruct (Hk w) as (n1 & W1 & L1); try done; [by eapply at_app_l | by eapply fits_app_l | intros; lia |].
  destruct (IH (moved (flat k) w)) as (n2 & W2 & L2); try done; [by apply at_moved | by apply fits_moved |].
  exists (n1 + n2)%nat. rewrite <- moved_app. split; [by eapply walks_trans | rewrite length_app; lia].
Qed.

Lemma props_count ps : 4 * zlen ps <= zlen (flat_map flat_prop ps).
Proof.
  induction ps as [| p ps IH]; [cbn; lia |]. cbn [flat_map length]. rewrite length_app, Nat2Z.inj_add, flat_prop_length. dlia.
Qed.

(** The rest of a node behind its head. *)
Lemma node_rest n p ps ks w : Forall plain_tree ks ->
  path w = p ++ n ++ [0] -> last p = Some 0 -> head p = Some 0 -> Forall (fun c => c <> 0) n ->
  at_toks w ((flat_map flat_prop ps ++ flat_map flat ks) ++ word FDT_CMD_NODE_END) ->
  Forall prop_ok ps -> Forall (tree_wf (zlen (path w))) ks -> in_chosen w = false -> 0 <= skip_len w < zlen (path w) ->
  fits_out ((flat_map flat_prop ps ++ flat_map flat ks) ++ word FDT_CMD_NODE_END) w ->
  exists k, walks (S k) w (advance (word FDT_CMD_NODE_END) (set_path p (moved (flat_map flat_prop ps ++ flat_map flat ks) w))) /\
    4 * Z.of_nat (S k) <= zlen (flat_map flat_prop ps ++ flat_map flat ks) + 4.
Proof.
  intros Hks Hp Hl Hh Hn Ha Hps Hwf Hch Hk Hf.
  assert (1 <= zlen p) as Hp1 by (destruct p; [done | cbn [length]; lia]).
  assert (zlen (path w) = zlen p + zlen n + 1) as Hlen by (rewrite Hp, !length_app; cbn [length]; lia).
  assert (last (path w) = Some 0 /\ head (path w) = Some 0) as [Hlw Hhw].
  { rewrite Hp. split; [by rewrite app_assoc, last_snoc | by destruct p]. }
  pose proof (at_app_l _ _ _ Ha) as Ha1. pose proof (fits_app_l _ _ _ Hf) as Hf1.
  pose proof (plain_props ps w (at_app_l _ _ _ Ha1) Hps Hch ltac:(lia) ltac:(lia) (fits_app_l _ _ _ Hf1)) as W1.
  destruct (plain_kids ks (moved (flat_map flat_prop ps) w) Hks) as (k & W2 & L2); try done; cbn [path moved skip_len in_chosen];
    [by apply at_moved | lia | by apply fits_moved |].
  rewrite moved_app in W2. pose proof (at_moved _ _ _ Ha) as (rest & Hb & He & _). rewrite word_length in He.
  exists (length ps + k)%nat. replace (S (length ps + k)) with (length ps + (k + 1))%nat by lia. split.
  - eapply walks_trans; [exact W1 |]. eapply walks_trans; [exact W2 |]. apply walks_one.
    + apply (step_end n p _ _ rest Hb He (leave_plain _ (moved _ w) Hch)); try done. by apply fits_moved.
    + cbn. by destruct p.
  - pose proof (props_count ps). rewrite length_app. lia.
Qed.

Lemma plain_tree_ok t : plain_tree t.
Proof.
  induction t as [n ps ks IH] using tree_induction. intros w Ha Hwf Hch Hl Hh Hk Hf Hsp.
  inversion Hwf as [? ? ? ? Hn Hlen Hps Hks]; subst. rewrite flat_eq in *.
  set (p' := path w ++ n ++ [0]). set (w1 := set_path p' (moved (node_head n) w)).
  assert (zlen p' = zlen (path w) + zlen n + 1) as Hp' by (subst p'; rewrite !length_app; cbn [length]; lia).
  assert (path w <> []) as Hne by by destruct (path w).
  destruct (at_app_l _ _ _ Ha) as (rest & Hb & He & H31).
  assert (step w = Ok (Some w1)) as Hs.
  { rewrite (step_node n w w rest Hb Hn He H31 (leave_plain _ _ Hch)); [| done | lia |].
    - rewrite enter_plain by done. fold p'. rewrite advance_moved by (cbn [skip_len set_path path]; lia). done.
    - rewrite enter_plain by done. by apply (fits_app_l _ _ _ Hf). }
  destruct (node_rest n (path w) ps ks w1 IH) as (k & W & L); try done.
  - by apply (at_moved w).
  - cbn [w1 set_path path]. by rewrite Hp'.
  - cbn [w1 set_path path skip_len moved]. lia.
  - by apply (fits_moved _ _ w).
  - exists (1 + S k)%nat. split.
    + eapply walks_trans; [apply (walks_one w w1 Hs); intros Hx; cbn in Hx; rewrite Hx in Hp'; cbn in Hp'; lia |].
      rewrite advance_moved in W by (unfold w1; cbn [skip_len set_path path moved]; lia).
      replace (moved _ (set_path (path w) (moved _ w1))) with
        (moved (node_head n ++ (flat_map flat_prop ps ++ flat_map flat ks) ++ word FDT_CMD_NODE_END) w) in W; [done |].
      rewrite !moved_path, <- !moved_app. unfold w1. rewrite !moved_path. by rewrite set_path_path.
    + pose proof (node_head_length n). rewrite !length_app in *. rewrite !Nat2Z.inj_add, word_length. dlia.
Qed.

(** *** Replaced parts *)

(** The old memory node is dropped. *)
Lemma memory_dropped ps ks w : let t := Node memory_name ps ks in
  at_toks w (flat t) -> tree_wf 1 t -> path w = [0] -> skip_len w = 0 -> in_chosen w = false ->
  exists n, walks n w (set_toks (toks w + zlen (flat t)) w) /\ 4 * Z.of_nat n <= zlen (flat t).
Proof.
  intros t Ha Hwf Hp Hk Hch. inversion Hwf as [? ? ? ? Hn Hlen Hps Hks]; subst t; subst. rewrite flat_eq in *.
  destruct (at_app_l _ _ _ Ha) as (rest & Hb & He & H31).
  set (w0 := set_path (0 :: memory_name ++ [0]) (set_skip 1 w)). set (w1 := moved (node_head memory_name) w0).
  assert (enter memory_name w = w0) as Hen.
  { unfold enter. rewrite Hp. change ((zlen [0] =? 1) && bool_decide (memory_name = memory_name)) with true.
    cbn [path set_path set_skip]. by rewrite Hp. }
  assert (step w = Ok (Some w1)) as Hs.
  { rewrite (step_node memory_name w w rest Hb Hn He H31 (leave_plain _ _ Hch)); [| done | by rewrite Hp |].
    - by rewrite Hen, advance_moved.
    - rewrite Hen. done. }
  destruct (node_rest memory_name [0] ps ks w1) as (k & W & L); try done.
  - apply Forall_forall. intros. apply plain_tree_ok.
  - by apply (at_moved w0).
  - exists (1 + S k)%nat. split.
    + eapply walks_trans; [by apply (walks_one w w1 Hs) |].
      replace (set_toks _ w) with (advance (word FDT_CMD_NODE_END) (set_path [0] (moved (flat_map flat_prop ps ++ flat_map flat ks) w1))); [done |].
      destruct w; cbn in Hp, Hk; subst. unfold w1, w0, advance, moved, set_path, set_skip, set_toks.
      cbn [toks path skip_len addr_cells size_cells in_chosen out]. f_equal. rewrite !length_app. lia.
    + pose proof (node_head_length memory_name). rewrite !length_app in *. rewrite !Nat2Z.inj_add, word_length. dlia.
Qed.

(** The insertion happens when the first token behind the properties is met. *)
Lemma chosen_left cmd w o l : at_toks w (word cmd ++ l) -> cmd = FDT_CMD_NODE \/ cmd = FDT_CMD_NODE_END ->
  in_chosen w = true -> insert_chosen_props cap (out w) info (addr_cells w) ssize = Ok (Some o) ->
  step w = step (set_chosen false (set_written o w)).
Proof.
  intros (rest & Hb & _) Hc Hch Ho. rewrite <- app_assoc in Hb.
  assert (ld_be32 m (toks w) = Ok cmd) as Hld.
  { apply (ld_be32_ok _ _ cmd _ Hb). unfold FDT_CMD_NODE, FDT_CMD_NODE_END in Hc. lia. }
  assert ((cmd =? FDT_CMD_PROP) = false /\ (cmd =? FDT_CMD_NOP) = false) as [Hc1 Hc2] by by destruct Hc as [-> | ->].
  unfold walk_token. cbn [toks set_chosen set_written]. destruct (fdt_token_size m (toks w) e) as [size | t]; [| done].
  cbn [mbind res_bind]. destruct (size =? 0); [done |]. rewrite Hld. cbn [mbind res_bind]. rewrite Hc2.
  replace (leave cmd w) with (@Ok (option walk) (Some (set_chosen false (set_written o w)))); [done |].
  unfold leave_chosen. rewrite Hch, Hc1, Ho. done.
Qed.

(** *** Names *)
Fixpoint cstr (l : list Z) : list Z :=
  match l with [] => [] | c :: l => if c =? 0 then [] else c :: cstr l end.

Lemma cstr_split l : last l = Some 0 -> Forall is_byte l -> exists r, l = cstr l ++ 0 :: r /\ c_chars (cstr l).
Proof.
  induction l as [| c l IH]; [done |]. intros Hl Hb. inversion Hb as [| ? ? Hc Hbl]; subst. cbn [cstr].
  destruct (Z.eqb_spec c 0) as [-> | Hne]; [exists l; split; [done | constructor] |].
  destruct l as [| d l]; [cbn in Hl; simplify_eq; done |].
  destruct (IH Hl Hbl) as (r & Hr & Hcc). exists r. split; [cbn [app]; by rewrite <- Hr |].
  constructor; [unfold is_byte in Hc; lia | done].
Qed.

Lemma last_drop {A} (l : list A) n x : last l = Some x -> (n < length l)%nat -> last (drop n l) = Some x.
Proof. intros Hl Hn. rewrite last_lookup in *. rewrite lookup_drop, length_drop. rewrite <- Hl. f_equal. lia. Qed.

Context (strs : list Z) (HS : bytes_at m str strs) (HSl : zlen strs = ssize) (HS0 : last strs = Some 0) (HSb : Forall is_byte strs).

(** The name at an offset of the strings block. *)
Definition name_at (off : Z) : list Z := cstr (drop (Z.to_nat off) strs).

Lemma strncmp_eq a b x y rx ry n : reads a 0 (x ++ 0 :: rx) -> reads b 0 (y ++ 0 :: ry) -> c_chars x -> c_chars y ->
  zlen x < n -> exists r, strncmp a b n = Ok r /\ (r =? 0) = bool_decide (x = y).
Proof.
  intros Ha Hb Hx Hy Hn. unfold strncmp. destruct (strncmp_ok (Z.to_nat n) a b 0 x y rx ry Ha Hb Hx Hy) as (r & Hr & Hs).
  exists r. split; [done |]. unfold has_sign in Hs. rewrite (take_ge x) in Hs by lia.
  assert (take (Z.to_nat n) y = x <-> x = y) as Hxy.
  { destruct (decide (length y <= Z.to_nat n)%nat); [rewrite take_ge by done; by split |].
    split; intros E; [| subst; lia]. apply (f_equal length) in E. rewrite length_take in E. lia. }
  destruct (Z.eqb_spec r 0) as [-> | Hne]; symmetry.
  - apply bool_decide_eq_true, Hxy. symmetry. by apply lex_eq.
  - apply bool_decide_eq_false. intros E. apply Hxy in E. rewrite E, (proj2 (lex_eq x x) eq_refl) in Hs. by apply Z.compare_eq_iff in Hs.
Qed.

Lemma name_is_ok off y ry : 0 <= off < ssize -> c_chars y -> name_is m str ssize off (y ++ 0 :: ry) = Ok (bool_decide (name_at off = y)).
Proof.
  intros Ho Hy. unfold name_is.
  assert (bytes_at m (str + off) (drop (Z.to_nat off) strs)) as Hb.
  { rewrite <- (take_drop (Z.to_nat off) strs) in HS. apply bytes_at_app in HS as [_ H]. rewrite length_take in H.
    by replace (str + Z.of_nat (Z.to_nat off `min` length strs)) with (str + off) in H by lia. }
  destruct (cstr_split (drop (Z.to_nat off) strs)) as (r & Hr & Hc); [apply last_drop; [done | lia] | by apply Forall_drop |].
  fold (name_at off) in *. rewrite Hr in Hb.
  assert (zlen (name_at off) < ssize - off) as Hlen.
  { apply (f_equal (@length Z)) in Hr. rewrite length_drop, length_app in Hr. cbn [length] in Hr. lia. }
  destruct (strncmp_eq (at_addr m (str + off)) (literal (y ++ 0 :: ry)) (name_at off) y r ry (ssize - off)) as (v & -> & Hv); try done;
    [by apply reads_mem | apply reads_literal |].
  cbn [mbind res_bind]. by rewrite Hv.
Qed.

Definition replaced_names : list (list Z) :=
  [text "linux,initrd-start"; text "linux,initrd-end"; text "kaslr-seed"; text "rng-seed"].

Definition is_replaced (p : fprop) : bool := bool_decide (name_at (p_name p) ∈ replaced_names).

Lemma any_name_ok off : 0 <= off < ssize -> any_name m str ssize off replaced_props = Ok (bool_decide (name_at off ∈ replaced_names)).
Proof.
  intros Ho. unfold replaced_props, replaced_names. cbn [map any_name].
  assert (forall y, c_chars y -> (length y < 24)%nat ->
    name_is m str ssize off (y ++ replicate (24 - length y) 0) = Ok (bool_decide (name_at off = y))) as Hn.
  { intros y Hy Hl. destruct (24 - length y)%nat as [| k] eqn:Hk; [lia |]. cbn [replicate]. by apply name_is_ok. }
  rewrite !Hn by ((repeat constructor; lia) || (vm_compute; lia)). cbn [mbind res_bind]. f_equal.
  apply eq_true_iff_eq. rewrite !orb_true_iff, !bool_decide_eq_true, !elem_of_cons, elem_of_nil. intuition done.
Qed.

(** The walk over the properties of [/chosen]: the replaced ones are dropped. *)
Definition kept (p : fprop) : bool := negb (is_replaced p).

Definition moved_to (l l' : list Z) (w : walk) : walk := set_written (out w ++ l') (set_toks (toks w + zlen l) w).

Lemma chosen_props ps w : at_toks w (flat_map flat_prop ps) -> Forall prop_ok ps -> in_chosen w = true ->
  path w = chosen_path -> skip_len w = 0 -> zlen (out w) + zlen (flat_map flat_prop (List.filter kept ps)) <= cap ->
  walks (length ps) w (moved_to (flat_map flat_prop ps) (flat_map flat_prop (List.filter kept ps)) w).
Proof.
  intros Ha Hps Hch Hp Hk Hf. induction Hps as [| p ps Hpok Hps IH] in w, Ha, Hch, Hp, Hk, Hf |- *.
  { replace (moved_to _ _ w) with w; [constructor |]. destruct w. unfold moved_to, set_written, set_toks. cbn.
    by rewrite app_nil_r, Z.add_0_r. }
  cbn [flat_map length] in *. pose proof (at_app_l _ _ _ Ha) as (rest & Hb & He & H31).
  assert (prop_token m str ssize (12 + zlen (p_data p)) w = Ok (Some (if negb (is_replaced p) then w else set_skip 8 w))) as Ht.
  { unfold prop_token. rewrite (prop_offset p w rest Hb) by (unfold prop_ok in Hpok; lia). cbn [mbind res_bind].
    destruct (Z.leb_spec ssize (p_name p)); [unfold prop_ok in Hpok; lia |].
    rewrite Hp. change (zlen chosen_path =? 1) with false. cbn [andb]. rewrite Hch.
    rewrite any_name_ok by done. cbn [mbind res_bind]. reflexivity. }
  set (l' := flat_map flat_prop (if kept p then [p] else [])).
  assert (flat_map flat_prop (List.filter kept (p :: ps)) = l' ++ flat_map flat_prop (List.filter kept ps)) as El.
  { subst l'. cbn [List.filter]. destruct (kept p); cbn [flat_map]; [by rewrite app_nil_r | done]. }
  rewrite El in *. rewrite length_app in Hf.
  eapply walks_step with (w1 := moved_to (flat_prop p) l' w).
  - rewrite (step_prop p w _ rest Hb He H31 Ht).
    + do 2 f_equal. subst l'. unfold kept, advance, moved_to, set_written, set_toks in *. destruct w. cbn in Hp, Hk, Hch. subst.
      destruct (is_replaced p); cbn [negb flat_map] in *; unfold set_skip; cbn [toks path skip_len addr_cells size_cells in_chosen out];
        rewrite ?app_nil_r; done.
    + by destruct (is_replaced p).
    + intros H0. subst l'. unfold kept in Hf. destruct (is_replaced p); [done |]. cbn in Hf |- *. rewrite app_nil_r in Hf. lia.
  - cbn. by rewrite Hp.
  - replace (moved_to (flat_prop p ++ _) _ w) with (moved_to (flat_map flat_prop ps) (flat_map flat_prop (List.filter kept ps)) (moved_to (flat_prop p) l' w)).
    + apply IH; try done; [by apply (at_moved w) | cbn; rewrite length_app; lia].
    + unfold moved_to, set_written, set_toks. cbn. rewrite length_app, <- app_assoc. f_equal. lia.
Qed.

(** *** Inserted parts *)
Lemma pad4_aligned l : zlen l mod 4 = 0 -> pad4 l = l.
Proof.
  intros H. unfold pad4. replace ((- zlen l) mod 4) with 0 by dlia. apply app_nil_r.
Qed.

Lemma raw_words_length l : zlen (raw_words l) = 4 * zlen l.
Proof. unfold raw_words. induction l as [| v l IH]; [done |]. cbn [flat_map]. rewrite length_app, le_bytes_length. cbn [length]. lia. Qed.

Definition inserted_prop (i : nat) (data : list Z) : fprop := {| p_name := ssize + insstr_off i; p_data := data |}.

(** A number as [cells] words, the upper ones zero. *)
Definition cells_data (cells v : Z) : list Z := replicate (Z.to_nat (4 * (cells - 1))) 0 ++ word (u32 v).

Definition initrd_props (ac : Z) : list fprop :=
  if initcpio_start info =? initcpio_end info then []
  else [inserted_prop 2 (cells_data ac (initcpio_start info)); inserted_prop 3 (cells_data ac (initcpio_end info))].

Definition entropy_props : list fprop :=
  if entropy_words info <? 2 then []
  else inserted_prop 4 (raw_words (take 2 (entropy info)))
       :: (if entropy_words info <=? 2 then [] else [inserted_prop 5 (raw_words (drop 2 (entropy info)))]).

Definition new_props (ac : Z) : list fprop := initrd_props ac ++ entropy_props.

Lemma flat_inserted i data : (i <= 5)%nat -> zlen data mod 4 = 0 ->
  flat_prop (inserted_prop i data) = word 3 ++ word (zlen data) ++ word (u32 (ssize + insstr_off i)) ++ data.
Proof.
  intros Hi Hd. unfold flat_prop. cbn [p_data p_name inserted_prop]. rewrite pad4_aligned by done.
  rewrite u32_small; [done |]. assert (0 <= insstr_off i <= 100); [| lia].
  destruct i as [| [| [| [| [| [| i]]]]]]; [split; vm_compute; discriminate .. | lia].
Qed.

Lemma cells_data_length ac v : 1 <= ac -> zlen (cells_data ac v) = 4 * ac.
Proof. intros H. unfold cells_data. rewrite length_app, Nat2Z.inj_add, word_length, length_replicate. lia. Qed.

Lemma zero_words_ok n o : 0 <= n < 2 ^ 30 -> zlen o + 4 * n <= cap -> zero_words cap n o = Ok (o ++ replicate (Z.to_nat (4 * n)) 0).
Proof. intros Hn H. unfold zero_words. rewrite u32_small by lia. case_bool; [lia | done]. Qed.

Lemma insert_initrd_ok ac o : (initcpio_start info <> initcpio_end info -> 1 <= ac <= 4) ->
  zlen o + zlen (flat_map flat_prop (initrd_props ac)) <= cap ->
  insert_initrd cap o info ac ssize = Ok (Some (o ++ flat_map flat_prop (initrd_props ac))).
Proof.
  intros Hac. unfold insert_initrd, initrd_props. destruct (Z.eqb_spec (initcpio_start info) (initcpio_end info)) as [_ | Hne].
  { intros _. by rewrite app_nil_r. }
  specialize (Hac Hne). cbn [flat_map]. rewrite app_nil_r.
  rewrite !flat_inserted by (lia || (rewrite cells_data_length by lia; dlia)). rewrite !cells_data_length by lia. unfold cells_data.
  intros Hcap. rewrite !length_app, !length_replicate, !Nat2Z.inj_add, !word_length in Hcap.
  rewrite room_ok by lia. rewrite (u32_small (2 * ac)) by lia.
  destruct (Z.ltb_spec (room cap o - 6) (2 * ac)); [unfold room in *; dlia |].
  rewrite (u32_small (4 * ac)) by lia.
  repeat (first [rewrite store_ok | rewrite zero_words_ok]; cbn [mbind res_bind];
    [| rewrite ?length_app, ?length_replicate, ?Nat2Z.inj_add, ?word_length; lia ..]).
  unfold INSSTR_OFF_INITRD_START, INSSTR_OFF_INITRD_END. by rewrite <- !app_assoc.
Qed.

Lemma insert_entropy_ok o : zlen o + zlen (flat_map flat_prop entropy_props) <= cap -> entropy_words info < 2 ^ 28 ->
  insert_entropy cap o info ssize = Ok (Some (o ++ flat_map flat_prop entropy_props)).
Proof.
  intros Hcap He. unfold insert_entropy, entropy_props, entropy_words in *. set (n := zlen (entropy info)) in *.
  assert (2 <= n -> zlen (raw_words (take 2 (entropy info))) = 8) as H2 by (intros; rewrite raw_words_length, length_take; lia).
  assert (2 <= n -> zlen (raw_words (drop 2 (entropy info))) = 4 * (n - 2)) as Hd by (intros; rewrite raw_words_length, length_drop; lia).
  destruct (Z.ltb_spec n 2) as [Hlt | Hge]; [by rewrite app_nil_r |]. specialize (H2 Hge). specialize (Hd Hge).
  cbn [flat_map] in *. rewrite flat_inserted in * by (lia || by rewrite H2). rewrite H2 in *.
  unfold INSSTR_OFF_KASLR_SEED, INSSTR_OFF_RNG_SEED. rewrite length_app, !length_app, !Nat2Z.inj_add, !word_length, H2 in Hcap.
  rewrite room_ok by lia. rewrite store_ok by (rewrite !length_app, !Nat2Z.inj_add, !word_length, H2; lia). cbn [mbind res_bind].
  destruct (Z.leb_spec n 2) as [Hle | Hgt]; [cbn [flat_map]; by rewrite app_nil_r |].
  cbn [flat_map] in *. rewrite flat_inserted in * by (lia || (rewrite Hd; dlia)). rewrite app_nil_r in *. rewrite Hd in *.
  rewrite !length_app, !Nat2Z.inj_add, !word_length, Hd in Hcap.
  assert (zlen (o ++ word 3 ++ word 8 ++ word (u32 (ssize + insstr_off 4)) ++ raw_words (take 2 (entropy info))) = zlen o + 20) as Ho.
  { rewrite !length_app, !Nat2Z.inj_add, !word_length, H2. lia. }
  rewrite room_ok by lia. match goal with |- context [?a <? ?b] => destruct (Z.ltb_spec a b) end; [unfold room in *; dlia |].
  rewrite (u32_small (4 * (n - 2))) by lia.
  rewrite store_ok by (rewrite Ho, !length_app, !Nat2Z.inj_add, !word_length, Hd; lia). cbn [mbind res_bind]. by rewrite <- !app_assoc.
Qed.

Lemma insert_chosen_ok ac o : (initcpio_start info <> initcpio_end info -> 1 <= ac <= 4) -> entropy_words info < 2 ^ 28 ->
  zlen o + zlen (flat_map flat_prop (new_props ac)) <= cap ->
  insert_chosen_props cap o info ac ssize = Ok (Some (o ++ flat_map flat_prop (new_props ac))).
Proof.
  intros Hac He Hcap. unfold insert_chosen_props, new_props in *. rewrite flat_map_app, length_app in *.
  rewrite insert_initrd_ok by (done || lia). cbn [mbind res_bind].
  rewrite insert_entropy_ok by (rewrite ?length_app; done || lia). by rewrite <- app_assoc.
Qed.

(** The new memory node. *)
Definition memory_node (ac sc : Z) : tree :=
  Node memory_name
    [inserted_prop 0 (memory_name ++ [0]);
     inserted_prop 1 (cell_words ac (dram_start info) ++ cell_words sc (dram_size info))] [].

(** The addresses can be expressed with this many cells. *)
Definition representable (v cells : Z) : Prop := 0 <= v < 2 ^ 64 /\ (v = 0 \/ 2 <= cells \/ v < 2 ^ 32 /\ 1 <= cells).

Lemma cell_words_length cells v : 0 <= cells -> zlen (cell_words cells v) = 4 * cells.
Proof.
  intros Hc. unfold cell_words. replace (4 * cells) with (4 * Z.of_nat (Z.to_nat cells)) by lia.
  assert (forall (f : nat -> list Z) l, (forall i, zlen (f i) = 4) -> zlen (flat_map f l) = 4 * zlen l) as H.
  { intros f l Hf. induction l as [| i l IH]; [done |]. cbn [flat_map length]. rewrite length_app, Nat2Z.inj_add, Hf. lia. }
  rewrite H, length_seq; [done |]. intros i. cbv zeta. case_bool; [done | apply word_length].
Qed.

Lemma insert_memory_ok ac sc o : 0 <= ac <= 4 -> 0 <= sc <= 4 -> representable (dram_start info) ac -> representable (dram_size info) sc ->
  zlen o + zlen (flat (memory_node ac sc)) <= cap ->
  insert_memory_node cap o info ac sc ssize = Ok (Some (o ++ flat (memory_node ac sc))).
Proof.
  intros Hac Hsc [Hs1 Hs2] [Hd1 Hd2] Hcap. unfold memory_node in *. rewrite flat_eq in *. cbn [flat_map] in *. rewrite !app_nil_r in *.
  pose proof (cell_words_length ac (dram_start info) ltac:(lia)) as La.
  pose proof (cell_words_length sc (dram_size info) ltac:(lia)) as Ls.
  assert (zlen (cell_words ac (dram_start info) ++ cell_words sc (dram_size info)) = (ac + sc) * 4) as Lc by (rewrite length_app; lia).
  assert (flat_prop (inserted_prop 0 (memory_name ++ [0])) = word 3 ++ word 7 ++ word (u32 (ssize + insstr_off 0)) ++ memory_name ++ [0; 0]) as E0.
  { unfold flat_prop. cbn [p_data p_name inserted_prop].
    rewrite u32_small by (assert (insstr_off 0 = 0) as -> by reflexivity; lia). reflexivity. }
  rewrite E0 in *. rewrite flat_inserted in * by (lia || (rewrite Lc; dlia)). rewrite Lc in *.
  change (node_head memory_name) with (word FDT_CMD_NODE ++ memory_name ++ [0; 0]) in *.
  assert (zlen memory_name = 6) as Lm by done. assert (zlen [0; 0] = 2) as L0 by done.
  rewrite !length_app, !Nat2Z.inj_add, !word_length, La, Ls, Lm, L0 in Hcap.
  unfold insert_memory_node. rewrite (u32_small (12 + ac + sc)) by lia. rewrite (room_ok o) by lia.
  replace (_ || _ || _ || _ || false) with false.
  2: { symmetry. rewrite !orb_false_iff, !andb_false_iff, !Z.ltb_ge, !Z.eqb_neq. lia. }
  rewrite (u32_small ((ac + sc) * 4)) by lia.
  repeat (rewrite store_ok; cbn [mbind res_bind];
    [| rewrite ?length_app, ?Nat2Z.inj_add, ?word_length, ?La, ?Ls; change (zlen (text "memory")) with 6; change (zlen [0; 0]) with 2; lia]).
  unfold INSSTR_OFF_DEVICE_TYPE, INSSTR_OFF_REG, memory_name, FDT_CMD_PROP. rewrite <- !app_assoc. reflexivity.
Qed.

(** *** The new [/chosen] *)
Lemma set_chosen_path b p w : set_chosen b (set_path p w) = set_path p (set_chosen b w).
Proof. done. Qed.

Lemma chosen_node ps ks w : let t := Node chosen_name ps ks in
  let t' := Node chosen_name (List.filter kept ps ++ new_props (addr_cells w)) ks in
  at_toks w (flat t) -> tree_wf 1 t -> path w = [0] -> skip_len w = 0 -> in_chosen w = false ->
  (initcpio_start info <> initcpio_end info -> 1 <= addr_cells w <= 4) -> entropy_words info < 2 ^ 28 ->
  zlen (out w) + zlen (flat t') <= cap ->
  exists n, walks n w (moved_to (flat t) (flat t') w) /\ 4 * Z.of_nat n <= zlen (flat t).
Proof.
  intros t t' Ha Hwf Hp Hk Hch Hac Hent Hcap. inversion Hwf as [? ? ? ? Hn Hlen Hps Hks]; subst t; subst t'; subst.
  rewrite !flat_eq in *. rewrite flat_map_app in *.
  destruct (at_app_l _ _ _ Ha) as (rest & Hb & He & H31).
  set (kp := flat_map flat_prop (List.filter kept ps)) in *. set (np := flat_map flat_prop (new_props (addr_cells w))) in *.
  set (w1 := set_chosen true (set_path chosen_path (moved (node_head chosen_name) w))).
  assert (zlen (node_head chosen_name) = 12) as Lh by reflexivity.
  rewrite !length_app, !Nat2Z.inj_add in Hcap.
  assert (enter chosen_name w = set_chosen true (set_path chosen_path w)) as Hen.
  { unfold enter. rewrite Hp. change ((zlen [0] =? 1) && bool_decide (chosen_name = memory_name)) with false.
    cbn [path set_path]. by rewrite Hp. }
  assert (step w = Ok (Some w1)) as Hs.
  { rewrite (step_node chosen_name w w rest Hb Hn He H31 (leave_plain _ _ Hch)); [| done | by rewrite Hp |].
    - rewrite Hen, advance_moved; [done |]. cbn. lia.
    - rewrite Hen. intros _. cbn [out set_chosen set_path]. rewrite Lh. lia. }
  assert (out w1 = out w ++ node_head chosen_name) as Ho1 by (cbn [w1 out set_chosen set_path moved]; by rewrite Hk).
  assert (at_toks w1 ((flat_map flat_prop ps ++ flat_map flat ks) ++ word FDT_CMD_NODE_END)) as Ha1 by by apply (at_moved w).
  rewrite <- app_assoc in Ha1.
  pose proof (chosen_props ps w1 (at_app_l _ _ _ Ha1) Hps eq_refl eq_refl Hk) as W2.
  fold kp in W2. rewrite Ho1, length_app in W2. specialize (W2 ltac:(lia)).
  set (w2 := moved_to (flat_map flat_prop ps) kp w1) in *.
  assert (out w2 = (out w ++ node_head chosen_name) ++ kp) as Ho2 by (cbn [w2 out moved_to set_written]; by rewrite Ho1).
  assert (at_toks w2 (flat_map flat ks ++ word FDT_CMD_NODE_END)) as Ha2 by by apply (at_moved w1).
  assert (insert_chosen_props cap (out w2) info (addr_cells w2) ssize = Ok (Some (out w2 ++ np))) as Hins.
  { change (addr_cells w2) with (addr_cells w). apply insert_chosen_ok; [done | done |]. fold np. rewrite Ho2, !length_app. lia. }
  set (w3 := set_chosen false (set_written (out w2 ++ np) w2)) in *.
  assert (step w2 = step w3) as Heq.
  { destruct ks as [| [n' ps' ks'] ks'']; cbn [flat_map app] in Ha2.
    - apply (chosen_left FDT_CMD_NODE_END w2 _ []); [by rewrite app_nil_r | by right | done | done].
    - rewrite flat_eq in Ha2. unfold node_head in Ha2. rewrite <- !app_assoc in Ha2. eapply (chosen_left FDT_CMD_NODE w2); [exact Ha2 | by left | done | done]. }
  destruct (node_rest chosen_name [0] [] ks w3) as (k & W3 & L3); try done.
  { apply Forall_forall. intros. apply plain_tree_ok. }
  { change (skip_len w3) with (skip_len w). rewrite Hk. done. }
  { intros _. cbn [flat_map app]. change (out w3) with (out w2 ++ np). rewrite Ho2, !length_app. lia. }
  cbn [flat_map app] in W3, L3. inversion W3 as [| ? ? w4 ? Hs4 Hp4 Hw4]; subst.
  exists (1 + (length ps + S k))%nat. split.
  - eapply walks_trans; [by apply (walks_one w w1 Hs) |]. eapply walks_trans; [exact W2 |].
    eapply walks_step; [rewrite Heq; exact Hs4 | done |].
    replace (moved_to _ _ w) with (advance (word FDT_CMD_NODE_END) (set_path [0] (moved (flat_map flat ks) w3))); [done |].
    assert (skip_len w3 = 0) as Hk3 by exact Hk.
    assert (toks w3 = toks w + zlen (node_head chosen_name) + zlen (flat_map flat_prop ps)) as Ht3 by reflexivity.
    assert (out w3 = ((out w ++ node_head chosen_name) ++ kp) ++ np) as Ho3 by (rewrite <- Ho2; reflexivity).
    apply walk_ext; cbn [toks path skip_len addr_cells size_cells in_chosen out advance set_path moved moved_to set_written set_toks].
    + rewrite Ht3, !length_app. lia.
    + done.
    + by rewrite Hk3, Hk.
    + done.
    + done.
    + by rewrite Hch.
    + rewrite Hk3, Ho3. cbn [Z.eqb]. by rewrite <- !app_assoc.
  - pose proof (props_count ps). rewrite !length_app in *. rewrite !Nat2Z.inj_add, word_length, Lh. lia.
Qed.

(** *** The root *)
Definition addr_cells_name : list Z := text "#address-cells".
Definition size_cells_name : list Z := text "#size-cells".

(** The cell counts of the root, each of which may be given once. *)
Definition read_cells (c : option (Z * Z)) (p : fprop) : option (Z * Z) :=
  match c with
  | None => None
  | Some (ac, sc) =>
      let v := be_val (p_data p) in
      if negb (zlen (p_data p) =? 4) then c
      else if bool_decide (name_at (p_name p) = addr_cells_name) then
        if (ac =? 0) && (v <=? 4) then Some (v, sc) else None
      else if bool_decide (name_at (p_name p) = size_cells_name) then
        if (sc =? 0) && (v <=? 4) then Some (ac, v) else None
      else c
  end.

Lemma read_cells_none ps : foldl read_cells None ps = None.
Proof. by induction ps. Qed.

Lemma prop_value p w rest : bytes_at m (toks w) (flat_prop p ++ rest) -> zlen (p_data p) = 4 ->
  ld_be32 m (toks w + 12) = Ok (be_val (p_data p)).
Proof.
  intros Hb Hl. unfold flat_prop in Hb. rewrite pad4_aligned in Hb by (rewrite Hl; done). rewrite <- !app_assoc in Hb.
  do 3 (apply bytes_at_app in Hb as [_ Hb]; rewrite word_length in Hb). apply bytes_at_app in Hb as [Hb _].
  replace (toks w + 4 + 4 + 4) with (toks w + 12) in Hb by lia. unfold ld_be32.
  replace 4%nat with (length (p_data p)) by lia. by rewrite (ld_bytes_at _ _ _ Hb).
Qed.

Lemma root_prop p w ac sc rest : bytes_at m (toks w) (flat_prop p ++ rest) -> prop_ok p -> path w = [0] -> in_chosen w = false ->
  read_cells (Some (addr_cells w, size_cells w)) p = Some (ac, sc) ->
  prop_token m str ssize (12 + zlen (p_data p)) w = Ok (Some (set_cells ac sc w)).
Proof.
  intros Hb Hpok Hp Hch Hc. assert (set_cells (addr_cells w) (size_cells w) w = w) as Hid by by destruct w.
  unfold prop_token. rewrite (prop_offset p w rest Hb) by (unfold prop_ok in Hpok; lia). cbn [mbind res_bind].
  destruct (Z.leb_spec ssize (p_name p)); [unfold prop_ok in Hpok; lia |].
  rewrite Hp. change (zlen [0] =? 1) with true. cbn [andb]. unfold read_cells in Hc. cbv zeta in Hc.
  destruct (Z.eqb_spec (zlen (p_data p)) 4) as [H4 | H4]; cbn [negb] in Hc.
  2: { destruct (Z.eqb_spec (12 + zlen (p_data p)) 16); [lia |]. rewrite Hch. simplify_eq. by rewrite Hid. }
  destruct (Z.eqb_spec (12 + zlen (p_data p)) 16); [| lia].
  change (text "#address-cells") with addr_cells_name. change (text "#size-cells") with size_cells_name.
  rewrite (name_is_ok _ addr_cells_name []) by (done || (repeat constructor; lia)). cbn [mbind res_bind].
  destruct (bool_decide (name_at (p_name p) = addr_cells_name)); cbn [negb].
  - destruct (addr_cells w =? 0); [| done]. cbn [negb andb] in *. rewrite (prop_value p w rest Hb H4). cbn [mbind res_bind].
    rewrite Z.ltb_antisym. destruct (be_val (p_data p) <=? 4); [| done]. injection Hc as <- <-. reflexivity.
  - rewrite (name_is_ok _ size_cells_name []) by (done || (repeat constructor; lia)). cbn [mbind res_bind].
    destruct (bool_decide (name_at (p_name p) = size_cells_name)); cbn [negb]; [| simplify_eq; by rewrite Hid].
    destruct (size_cells w =? 0); [| done]. cbn [negb andb] in *. rewrite (prop_value p w rest Hb H4). cbn [mbind res_bind].
    rewrite Z.ltb_antisym. destruct (be_val (p_data p) <=? 4); [| done]. injection Hc as <- <-. reflexivity.
Qed.

Lemma root_props ps w ac sc : at_toks w (flat_map flat_prop ps) -> Forall prop_ok ps -> in_chosen w = false ->
  path w = [0] -> skip_len w = 0 -> fits_out (flat_map flat_prop ps) w ->
  foldl read_cells (Some (addr_cells w, size_cells w)) ps = Some (ac, sc) ->
  walks (length ps) w (set_cells ac sc (moved (flat_map flat_prop ps) w)).
Proof.
  intros Ha Hps Hch Hp Hk Hf Hc. induction Hps as [| p ps Hpok Hps IH] in w, Ha, Hch, Hp, Hk, Hf, Hc |- *.
  { cbn in Hc. simplify_eq. cbn [flat_map]. rewrite moved_nil. replace (set_cells _ _ w) with w by by destruct w. constructor. }
  cbn [flat_map length foldl] in *. pose proof (at_app_l _ _ _ Ha) as (rest & Hb & He & H31).
  destruct (read_cells (Some (addr_cells w, size_cells w)) p) as [[ac1 sc1] |] eqn:Hr; [| by rewrite read_cells_none in Hc].
  assert (step w = Ok (Some (set_cells ac1 sc1 (moved (flat_prop p) w)))) as Hs.
  { rewrite (step_prop p w _ rest Hb He H31 (root_prop p w ac1 sc1 rest Hb Hpok Hp Hch Hr)); [| done | by apply (fits_app_l _ _ w Hf)].
    rewrite advance_moved; [done |]. cbn. rewrite Hp, Hk. done. }
  eapply walks_step; [exact Hs | cbn; by rewrite Hp |]. rewrite <- moved_app.
  apply (IH (set_cells ac1 sc1 (moved (flat_prop p) w))); try done; [by apply (at_moved w) | by apply (fits_moved _ _ w)].
Qed.

(** The children of the root. *)
Definition new_kid (ac : Z) (k : tree) : list tree :=
  match k with
  | Node n ps ks =>
      if bool_decide (n = memory_name) then []
      else if bool_decide (n = chosen_name) then [Node n (List.filter kept ps ++ new_props ac) ks]
      else [k]
  end.

Lemma moved_to_app l1 l2 o1 o2 w : moved_to l2 o2 (moved_to l1 o1 w) = moved_to (l1 ++ l2) (o1 ++ o2) w.
Proof. apply walk_ext; cbn; try done; [rewrite length_app; lia | by rewrite <- app_assoc]. Qed.

Lemma root_kids ks w : at_toks w (flat_map flat ks) -> Forall (tree_wf 1) ks -> in_chosen w = false -> path w = [0] -> skip_len w = 0 ->
  (initcpio_start info <> initcpio_end info -> 1 <= addr_cells w <= 4) -> entropy_words info < 2 ^ 28 ->
  zlen (out w) + zlen (flat_map flat (flat_map (new_kid (addr_cells w)) ks)) <= cap ->
  exists n, walks n w (moved_to (flat_map flat ks) (flat_map flat (flat_map (new_kid (addr_cells w)) ks)) w) /\
    4 * Z.of_nat n <= zlen (flat_map flat ks).
Proof.
  intros Ha Hwf. induction Hwf as [| k ks Hk Hks IH] in w, Ha |- *; intros Hch Hp Hs Hac Hent Hcap.
  { exists 0%nat. split; [| cbn; lia]. replace (moved_to _ _ w) with w; [constructor |].
    apply walk_ext; cbn; try done; [lia | by rewrite app_nil_r]. }
  cbn [flat_map] in *. rewrite flat_map_app, length_app in Hcap. rewrite flat_map_app.
  assert (exists n, walks n w (moved_to (flat k) (flat_map flat (new_kid (addr_cells w) k)) w) /\ 4 * Z.of_nat n <= zlen (flat k))
    as (n1 & W1 & L1).
  { destruct k as [n ps ks0]. unfold new_kid in *. destruct (decide (n = memory_name)) as [-> | Hm].
    - rewrite bool_decide_eq_true_2 by done. destruct (memory_dropped ps ks0 w (at_app_l _ _ _ Ha) Hk Hp Hs Hch) as (n & W & L).
      exists n. split; [| done]. replace (moved_to _ _ w) with (set_toks (toks w + zlen (flat (Node memory_name ps ks0))) w); [done |].
      apply walk_ext; try done. cbn. by rewrite app_nil_r.
    - rewrite (bool_decide_eq_false_2 (n = memory_name)) in * by done. destruct (decide (n = chosen_name)) as [-> | Hc].
      + rewrite bool_decide_eq_true_2 in * by done. cbn [flat_map] in *. rewrite app_nil_r in *.
        apply (chosen_node ps ks0 w (at_app_l _ _ _ Ha) Hk Hp Hs Hch Hac Hent). lia.
      + rewrite (bool_decide_eq_false_2 (n = chosen_name)) in * by done. cbn [flat_map] in *. rewrite app_nil_r in *.
        destruct (plain_tree_ok (Node n ps ks0) w) as (n1 & W & L); try done.
        * by apply (at_app_l _ _ _ Ha).
        * by rewrite Hp.
        * by rewrite Hp.
        * by rewrite Hp.
        * rewrite Hp, Hs. done.
        * intros _. lia.
        * exists n1. split; [| done]. replace (moved_to _ _ w) with (moved (flat (Node n ps ks0)) w); [done |].
          apply walk_ext; try done. cbn. by rewrite Hs. }
  destruct (IH (moved_to (flat k) (flat_map flat (new_kid (addr_cells w) k)) w)) as (n2 & W2 & L2); try done.
  - by apply (at_moved w).
  - change (addr_cells (moved_to _ _ w)) with (addr_cells w).
    change (out (moved_to (flat k) (flat_map flat (new_kid (addr_cells w) k)) w)) with (out w ++ flat_map flat (new_kid (addr_cells w) k)).
    rewrite length_app. lia.
  - exists (n1 + n2)%nat. rewrite moved_to_app in W2. split; [by eapply walks_trans | rewrite length_app; lia].
Qed.

Lemma step_root_end w ac sc rest : bytes_at m (toks w) (word FDT_CMD_NODE_END ++ rest) -> toks w + 4 <= e ->
  path w = [0] -> skip_len w = 0 -> in_chosen w = false -> addr_cells w = ac -> size_cells w = sc ->
  0 <= ac <= 4 -> 0 <= sc <= 4 -> representable (dram_start info) ac -> representable (dram_size info) sc ->
  zlen (out w) + zlen (flat (memory_node ac sc)) + 4 <= cap ->
  step w = Ok (Some (advance (word FDT_CMD_NODE_END) (set_path [] (set_written (out w ++ flat (memory_node ac sc)) w)))).
Proof.
  intros Hb He Hp Hk Hch <- <- Hac Hsc H1 H2 Hcap. unfold walk_token. rewrite (size_end _ _ _ _ Hb) by lia. cbn [mbind res_bind].
  change (4 =? 0) with false. cbv iota. rewrite (ld_be32_ok _ _ FDT_CMD_NODE_END _ Hb) by (unfold FDT_CMD_NODE_END; lia).
  cbn [mbind res_bind]. change (FDT_CMD_NODE_END =? FDT_CMD_NOP) with false. cbv iota. rewrite leave_plain by done. cbn [mbind res_bind].
  change (FDT_CMD_NODE_END =? FDT_CMD_NODE) with false. rewrite Z.eqb_refl. cbv iota.
  unfold end_token. rewrite Hp. change (1 <? zlen [0]) with false. change (zlen [0] =? 1) with true. cbv iota.
  rewrite insert_memory_ok by (done || lia). cbn [mbind res_bind].
  apply copy_token_ok; [by rewrite word_length | by apply bytes_at_app in Hb as [? _] |].
  intros _. change (out (set_path _ (set_written ?o w))) with o. rewrite length_app, word_length. lia.
Qed.

(** The tree that comes out. *)
Definition new_tree (t : tree) (ac sc : Z) : tree :=
  match t with Node n ps ks => Node n ps (flat_map (new_kid ac) ks ++ [memory_node ac sc]) end.

Definition root_cells (t : tree) (ac sc : Z) : Prop :=
  match t with Node n ps ks => foldl read_cells (Some (0, 0)) ps = Some (ac, sc) end /\ 0 <= ac <= 4 /\ 0 <= sc <= 4.

Lemma root_walk ps ks w ac sc fuel : let t := Node [] ps ks in
  at_toks w (flat t) -> tree_wf 0 t -> root_cells t ac sc ->
  path w = [] -> skip_len w = 0 -> in_chosen w = false -> addr_cells w = 0 -> size_cells w = 0 ->
  (initcpio_start info <> initcpio_end info -> 1 <= ac) -> entropy_words info < 2 ^ 28 ->
  representable (dram_start info) ac -> representable (dram_size info) sc ->
  zlen (out w) + zlen (flat (new_tree t ac sc)) <= cap -> zlen (flat t) <= 4 * Z.of_nat fuel ->
  exists w', walk_tokens cap m info e str ssize fuel w = Ok (Some w') /\
    toks w' = toks w + zlen (flat t) /\ out w' = out w ++ flat (new_tree t ac sc).
Proof.
  intros t Ha Hwf [Hc [Hac Hsc]] Hp Hk Hch Hac0 Hsc0 Hini Hent Hr1 Hr2 Hcap Hfuel.
  inversion Hwf as [? ? ? ? Hn Hlen Hps Hks]; subst t; subst. unfold new_tree in *. rewrite !flat_eq in *.
  rewrite flat_map_app in *. cbn [flat_map] in *. rewrite app_nil_r in *.
  set (nk := flat_map flat (flat_map (new_kid ac) ks)) in *. set (mn := flat (memory_node ac sc)) in *.
  assert (zlen (node_head []) = 8) as Lh by reflexivity.
  rewrite !length_app, !Nat2Z.inj_add, !word_length in Hcap.
  destruct (at_app_l _ _ _ Ha) as (rest & Hb & He & H31).
  set (w1 := set_path [0] (moved (node_head []) w)).
  assert (enter [] w = set_path [0] w) as Hen.
  { unfold enter. rewrite Hp. change ((zlen (@nil Z) =? 1) && bool_decide ([] = memory_name)) with false.
    cbn [path set_path]. by rewrite Hp. }
  assert (step w = Ok (Some w1)) as Hs.
  { rewrite (step_node [] w w rest Hb Hn He H31 (leave_plain _ _ Hch)); [| done | by rewrite Hp |].
    - rewrite Hen, advance_moved; [done |]. cbn. lia.
    - rewrite Hen. intros _. cbn [out set_path]. rewrite Lh. lia. }
  assert (out w1 = out w ++ node_head []) as Ho1 by (cbn [w1 out set_path moved]; by rewrite Hk).
  assert (at_toks w1 ((flat_map flat_prop ps ++ flat_map flat ks) ++ word FDT_CMD_NODE_END)) as Ha1 by by apply (at_moved w).
  rewrite <- app_assoc in Ha1.
  assert (walks (length ps) w1 (set_cells ac sc (moved (flat_map flat_prop ps) w1))) as W2.
  { apply root_props; try done; [by eapply at_app_l | | by change (addr_cells w1) with (addr_cells w); change (size_cells w1) with (size_cells w); rewrite Hac0, Hsc0].
    intros _. rewrite Ho1, length_app. lia. }
  set (w2 := set_cells ac sc (moved (flat_map flat_prop ps) w1)) in *.
  assert (out w2 = (out w ++ node_head []) ++ flat_map flat_prop ps) as Ho2.
  { change (out w2) with (if skip_len w =? 0 then out w1 ++ flat_map flat_prop ps else out w1). by rewrite Hk, Ho1. }
  assert (at_toks w2 (flat_map flat ks ++ word FDT_CMD_NODE_END)) as Ha2 by by apply (at_moved w1).
  destruct (root_kids ks w2) as (n3 & W3 & L3); try done; [by eapply at_app_l | | |].
  { intros Hx. specialize (Hini Hx). change (addr_cells w2) with ac. lia. }
  { change (addr_cells w2) with ac. fold nk. rewrite Ho2, !length_app. lia. }
  change (addr_cells w2) with ac in W3. fold nk in W3. set (w3 := moved_to (flat_map flat ks) nk w2) in *.
  assert (at_toks w3 (word FDT_CMD_NODE_END)) as (rest3 & Hb3 & He3 & _) by by apply (at_moved w2). rewrite word_length in He3.
  assert (out w3 = ((out w ++ node_head []) ++ flat_map flat_prop ps) ++ nk) as Ho3 by (rewrite <- Ho2; reflexivity).
  assert (toks w3 = toks w + 8 + zlen (flat_map flat_prop ps) + zlen (flat_map flat ks)) as Ht3 by (rewrite <- Lh; reflexivity).
  pose proof (step_root_end w3 ac sc rest3 Hb3 He3 eq_refl Hk Hch eq_refl eq_refl Hac Hsc Hr1 Hr2) as Hs4. fold mn in Hs4.
  rewrite Ho3, !length_app in Hs4. specialize (Hs4 ltac:(lia)). rewrite <- Ho3 in Hs4.
  pose proof (walks_trans _ _ _ _ _ (walks_one w w1 Hs ltac:(done)) (walks_trans _ _ _ _ _ W2 W3)) as W.
  assert (1 + (length ps + n3) + 1 <= fuel)%nat as Hf.
  { pose proof (props_count ps). rewrite !length_app in Hfuel. rewrite !Nat2Z.inj_add, word_length, Lh in Hfuel. lia. }
  eexists. split_and!.
  - replace fuel with (1 + (length ps + n3) + (S (fuel - (1 + (length ps + n3) + 1))))%nat by lia.
    rewrite (walks_run _ _ _ _ W). cbn [walk_tokens]. rewrite Hs4. cbn [mbind res_bind]. cbn [path advance set_path length Z.of_nat Z.eqb]. reflexivity.
  - cbn [toks advance set_path set_written]. rewrite Ht3, word_length, !length_app, !Nat2Z.inj_add, word_length, Lh. lia.
  - cbn [out advance set_path set_written skip_len]. change (skip_len w3) with (skip_len w). rewrite Hk. cbn [Z.eqb].
    rewrite Ho3. by rewrite <- !app_assoc.
Qed.
End Steps.

(** ** The whole transformation *)

(** A reservation: start and length as they are stored, the length not zero. *)
Definition resv_ok (r : list Z * list Z) : Prop := length r.1 = 8%nat /\ length r.2 = 8%nat /\ le_val r.2 <> 0.
Definition flat_resv (r : list Z * list Z) : list Z := r.1 ++ r.2.

(** The header fields in the order of [struct fdt_header]. *)
Record fdt_fields : Type := {
  f_totalsize : Z; f_struct : Z; f_string : Z; f_resv : Z; f_version : Z; f_compat : Z; f_cpu : Z; f_string_size : Z; f_struct_size : Z;
}.
Definition field_words (f : fdt_fields) : list Z :=
  [FDT_MAGIC; f_totalsize f; f_struct f; f_string f; f_resv f; f_version f; f_compat f; f_cpu f; f_string_size f; f_struct_size f].

(** A device tree in memory, in version 17 of the format or a compatible one. *)
Record fdt_input (m : mem) (h in_end : Z) (f : fdt_fields) (resv : list (list Z * list Z)) (t : tree) (strs : list Z) : Prop := {
  in_header : bytes_at m h (flat_map word (field_words f));
  in_fields : Forall (fun v => 0 <= v < 2 ^ 31) (tail (field_words f));
  in_version : 17 <= f_version f /\ f_compat f <= 17;
  in_size : f_totalsize f <= in_end - h < 2 ^ 31;
  in_struct : f_struct f mod 4 = 0 /\ f_struct_size f mod 4 = 0 /\ f_struct f + f_struct_size f <= (in_end - h) / 4 * 4;
  in_tree : bytes_at m (h + f_struct f) (flat t ++ word FDT_CMD_END) /\ zlen (flat t) <= f_struct_size f;
  in_tree_wf : tree_wf (f_string_size f) 0 t;
  in_root : match t with Node n _ _ => n = [] end;
  in_strings : bytes_at m (h + f_string f) strs /\ zlen strs = f_string_size f /\ last strs = Some 0 /\ Forall is_byte strs /\
    f_string f + f_string_size f <= f_totalsize f;
  in_resv : bytes_at m (h + f_resv f) (flat_map flat_resv resv ++ replicate 16 0) /\ Forall resv_ok resv /\
    f_resv f mod 8 = 0 /\ f_resv f + 16 * (zlen resv + 1) <= f_totalsize f;
}.

(** What can be said in the output, and fits into it. *)
Record fdt_target (cap : Z) (info : fdt_addendum) (resv : list (list Z * list Z)) (t : tree) (strs : list Z) (ac sc : Z) : Prop := {
  tg_cells : root_cells strs t ac sc;
  tg_initcpio : initcpio_start info <> initcpio_end info -> 1 <= ac;
  tg_entropy : entropy_words info < 2 ^ 28;
  tg_dram : representable (dram_start info) ac /\ representable (dram_size info) sc;
  tg_cap : cap <= 2 ^ 31;
}.

(** The reservations behind that of the tree itself. *)
Definition out_resv (info : fdt_addendum) (resv : list (list Z * list Z)) : list Z :=
  (if initcpio_start info =? initcpio_end info then []
   else be_bytes 8 (initcpio_start info) ++ be_bytes 8 (u64 (initcpio_end info - initcpio_start info)))
  ++ flat_map flat_resv resv ++ replicate 16 0.

(** The output: header, reservations, structure block, strings. *)
Definition out_fdt (info : fdt_addendum) (junk : list Z) (resv : list (list Z * list Z)) (t' : tree) (strs : list Z) : list Z :=
  let struct_off := 64 + zlen (out_resv info resv) in
  let string_off := struct_off + zlen (flat t') + 4 in
  let string_size := zlen strs + zlen inserted_strings in
  out_header info junk struct_off string_off string_size
  ++ out_resv info resv ++ flat t' ++ word FDT_CMD_END ++ strs ++ inserted_strings.

Lemma ld_field m h l k v a : bytes_at m h (flat_map word l) -> l !! k = Some v -> 0 <= v < 2 ^ 32 -> a = h + 4 * Z.of_nat k ->
  ld_be32 m a = Ok v.
Proof.
  intros Hb Hk Hv ->. induction l as [| x l IH] in h, k, Hb, Hk |- *; [done |]. cbn [flat_map] in Hb.
  destruct k as [| k]; cbn in Hk.
  - simplify_eq. rewrite Z.add_0_r. by apply (ld_be32_ok _ _ _ _ Hb).
  - apply bytes_at_app in Hb as [_ Hb]. rewrite word_length in Hb. replace (h + 4 * Z.of_nat (S k)) with (h + 4 + 4 * Z.of_nat k) by lia.
    by apply IH.
Qed.

Lemma copy_reservations_ok cap m resv a e o fuel :
  bytes_at m a (flat_map flat_resv resv ++ replicate 16 0) -> Forall resv_ok resv -> a + 16 * (zlen resv + 1) <= e ->
  zlen o + 16 * (zlen resv + 1) <= cap -> (length resv < fuel)%nat ->
  copy_reservations cap fuel m a e o = Ok (Some (o ++ flat_map flat_resv resv ++ replicate 16 0)).
Proof.
  intros Hb Hr. induction Hr as [| [s l] resv (Hs & Hl & Hne) Hr IH] in a, o, fuel, Hb |- *; intros He Hcap Hf;
    (destruct fuel as [| fuel]; [lia |]); cbn [copy_reservations].
  - cbn [flat_map app] in Hb. change (replicate 16 0) with (replicate 8 0 ++ replicate 8 0) in Hb. apply bytes_at_app in Hb as [Hb1 Hb2].
    cbn [length] in He, Hcap. destruct (Z.ltb_spec ((e - a) / 8) 2); [dlia |].
    assert (ld 8 m a = Ok (replicate 8 0)) as -> by exact (ld_bytes_at _ _ _ Hb1).
    assert (ld 8 m (a + 8) = Ok (replicate 8 0)) as -> by exact (ld_bytes_at _ _ _ Hb2). cbn [mbind res_bind].
    rewrite room_ok by lia. change (le_val (replicate 8 0) =? 0) with true. cbv iota.
    rewrite store_ok; [done |]. change (zlen (replicate 16 0)) with 16. lia.
  - cbn [flat_map fst snd] in *. unfold flat_resv at 1 in Hb. cbn [fst snd] in Hb. rewrite <- !app_assoc in Hb.
    apply bytes_at_app in Hb as [Hb1 Hb2]. apply bytes_at_app in Hb2 as [Hb2 Hb3]. cbn [length] in He, Hcap, Hf.
    rewrite Hs in Hb2, Hb3. rewrite Hl in Hb3. change (Z.of_nat 8) with 8 in Hb2, Hb3.
    destruct (Z.ltb_spec ((e - a) / 8) 2); [dlia |].
    pose proof (ld_bytes_at _ _ _ Hb1) as Hld1. rewrite Hs in Hld1. pose proof (ld_bytes_at _ _ _ Hb2) as Hld2. rewrite Hl in Hld2.
    rewrite Hld1. cbn [mbind res_bind]. rewrite Hld2. cbn [mbind res_bind]. rewrite room_ok by lia.
    destruct (Z.eqb_spec (le_val l) 0); [done |]. rewrite store_ok by (rewrite length_app; lia). cbn [mbind res_bind].
    rewrite IH; [unfold flat_resv at 2; cbn [fst snd]; by rewrite <- !app_assoc | | lia | rewrite !length_app; lia | lia].
    by replace (a + 16) with (a + 8 + 8) by lia.
Qed.

Lemma out_header_length info junk a b c : length junk = 8%nat -> zlen (out_header info junk a b c) = 64.
Proof. intros Hj. unfold out_header. rewrite !length_app, !Nat2Z.inj_add, !word_length, !be_bytes_length, Hj. done. Qed.

Lemma out_fdt_length info junk resv t' strs : length junk = 8%nat ->
  zlen (out_fdt info junk resv t' strs)
    = 64 + zlen (out_resv info resv) + zlen (flat t') + 4 + zlen strs + zlen inserted_strings.
Proof. intros Hj. unfold out_fdt. rewrite !length_app, !Nat2Z.inj_add, word_length, out_header_length by done. lia. Qed.

Section Transform.
Context (cap : Z) (m : mem) (h in_end : Z) (f : fdt_fields) (resv : list (list Z * list Z)) (t : tree) (strs : list Z).
Context (Hin : fdt_input m h in_end f resv t strs).

Lemma field k v a : field_words f !! S k = Some v -> a = h + 4 * Z.of_nat (S k) -> ld_be32 m a = Ok v.
Proof.
  intros Hk Ha. apply (ld_field m h (field_words f) (S k) v); [apply Hin | done | | done].
  pose proof (in_fields _ _ _ _ _ _ _ Hin) as Hf. rewrite Forall_lookup in Hf. specialize (Hf k v Hk). lia.
Qed.

Lemma field_bounds : 0 <= f_totalsize f < 2 ^ 31 /\ 0 <= f_struct f < 2 ^ 31 /\ 0 <= f_string f < 2 ^ 31 /\ 0 <= f_resv f < 2 ^ 31 /\
  0 <= f_string_size f < 2 ^ 31 /\ 0 <= f_struct_size f < 2 ^ 31.
Proof.
  pose proof (in_fields _ _ _ _ _ _ _ Hin) as Hf. unfold field_words in Hf. cbn [tail] in Hf.
  repeat match goal with H : Forall _ (_ :: _) |- _ => inversion H; subst; clear H end. done.
Qed.

Lemma root_name : exists r, bytes_at m (h + f_struct f) (word FDT_CMD_NODE ++ [0; 0; 0; 0] ++ r).
Proof.
  destruct (in_tree _ _ _ _ _ _ _ Hin) as [Hb _]. pose proof (in_root _ _ _ _ _ _ _ Hin) as Hr. destruct t as [n ps ks]. subst n.
  rewrite flat_eq in Hb. change (node_head []) with (word FDT_CMD_NODE ++ [0; 0; 0; 0]) in Hb. rewrite <- !app_assoc in Hb. eauto.
Qed.
End Transform.

(** One check of the input that succeeds. *)
Ltac fdt_check :=
  match goal with |- context [if ?b then Ok None else _] => replace b with false end;
  [cbv iota | symmetry; rewrite ?andb_false_iff, ?orb_false_iff, ?negb_false_iff, ?Z.eqb_eq, ?Z.ltb_ge, ?Z.leb_gt; try dlia].

(** The part behind the header, with the output that was written so far. *)
Lemma strings_end cap out2 strs : zlen out2 + zlen strs + zlen inserted_strings + 3 <= cap -> cap <= 2 ^ 31 ->
  (u32 (zlen inserted_strings + zlen strs) <? zlen strs) || (room cap out2 * 4 <? u32 (zlen inserted_strings + zlen strs)) = false /\
  store cap (strs ++ inserted_strings) out2 = Ok (out2 ++ strs ++ inserted_strings).
Proof.
  intros Hcap Hc. rewrite u32_small by lia. split.
  - apply orb_false_iff. unfold room. split; apply Z.ltb_ge; [lia | dlia].
  - apply store_ok. rewrite length_app. lia.
Qed.

(** The body, on a checked header. *)
Lemma transform_body_ok cap m h in_end f resv t strs info junk ac sc :
  let t' := new_tree info (f_string_size f) strs t ac sc in
  fdt_input m h in_end f resv t strs -> fdt_target cap info resv t strs ac sc -> length junk = 8%nat ->
  zlen (out_fdt info junk resv t' strs) + 3 <= cap ->
  transform_body cap m info junk (h + f_struct f) (h + f_struct f + f_struct_size f) (h + f_string f) (f_string_size f)
    (h + f_resv f) (h + f_resv f + (f_totalsize f - f_resv f) / 8 * 8) = Ok (Some (out_fdt info junk resv t' strs)).
Proof.
  intros t' Hin [Hcells Hini Hent [Hr1 Hr2] Hc31] Hj Hcap. rewrite out_fdt_length in Hcap by done.
  pose proof (field_bounds m h in_end f resv t strs Hin) as (B1 & B2 & B3 & B4 & B5 & B6).
  pose proof Hin as [_ _ _ [Hs1 Hs2] (Hst1 & Hst2 & Hst3) [Htree Hts] Hwf Hrt (Hstr & Hsl & Hs0 & Hsb & Hst4) (Hrb & Hrok & Hr8 & Hrs)].
  unfold transform_body.
  assert (80 <= 64 + zlen (out_resv info resv)) as H80 by (unfold out_resv; rewrite !length_app, length_replicate; lia).
  fdt_check.
  set (ini := if initcpio_start info =? initcpio_end info then _ else _).
  assert (out_resv info resv = ini ++ flat_map flat_resv resv ++ replicate 16 0) as Hor by reflexivity.
  assert (zlen (flat_map flat_resv resv) = 16 * zlen resv) as Hrl.
  { clear -Hrok. induction Hrok as [| [s l] resv (Hs & Hl & _) _ IH]; [done |]. cbn [flat_map]. unfold flat_resv at 1.
    cbn [fst snd] in *. rewrite !length_app, Hs, Hl. cbn [length]. lia. }
  rewrite (copy_reservations_ok cap m resv) by
    (try done; try dlia; rewrite Hor, !length_app, ?length_replicate in Hcap; rewrite ?length_app, ?length_replicate; dlia).
  cbn [mbind res_bind]. rewrite <- app_assoc, <- Hor. set (out1 := replicate 64 0 ++ out_resv info resv).
  assert (zlen out1 = 64 + zlen (out_resv info resv)) as Hl1 by (subst out1; rewrite length_app, length_replicate; lia).
  destruct t as [n ps ks]. subst n.
  edestruct (root_walk cap m info (h + f_struct f + f_struct_size f) (h + f_string f) (f_string_size f) ltac:(lia) strs Hstr Hsl Hs0 Hsb ps ks
    {| toks := h + f_struct f; path := []; skip_len := 0; addr_cells := 0; size_cells := 0; in_chosen := false; out := out1 |} ac sc)
    as (w & -> & Ht & Ho); try done.
  { exists (word FDT_CMD_END). cbn [toks]. split_and!; [done | lia | lia]. }
  { cbn [out]. fold t'. lia. }
  { dlia. }
  cbn [mbind res_bind]. cbn [toks out] in Ht, Ho. fold t' in Ho. rewrite Ht, Ho.
  apply bytes_at_app in Htree as [_ Hend].
  rewrite <- (app_nil_r (word FDT_CMD_END)) in Hend. rewrite (ld_be32_ok _ _ FDT_CMD_END _ Hend) by (unfold FDT_CMD_END; lia).
  cbn [mbind res_bind]. rewrite Z.eqb_refl. cbn [negb].
  assert ((room cap (out1 ++ flat t') <=? 0) = false) as ->.
  { apply Z.leb_gt. unfold room. rewrite length_app. dlia. }
  rewrite store_ok by (rewrite length_app, word_length; lia). cbn [mbind res_bind].
  set (out2 := (out1 ++ flat t') ++ word FDT_CMD_END).
  assert (zlen out2 = 64 + zlen (out_resv info resv) + zlen (flat t') + 4) as Hl2.
  { subst out2. rewrite !length_app, !Nat2Z.inj_add, word_length. lia. }
  rewrite <- Hsl. destruct (strings_end cap out2 strs) as [-> Hst]; [lia | lia |].
  replace (Z.to_nat (zlen strs)) with (length strs) by lia. rewrite (ld_bytes_at _ _ _ Hstr). cbn [mbind res_bind].
  rewrite Hst. cbn [mbind res_bind]. do 2 f_equal. rewrite Hl1, Hl2, u32_small by lia. unfold out_fdt. cbv zeta.
  rewrite (Z.add_comm (zlen inserted_strings)). f_equal.
  subst out2 out1. rewrite <- !app_assoc. by rewrite drop_app_length' by by rewrite length_replicate.
Qed.

(** C1: [transform_fdt] maps device trees to device trees.  For every tree in
    memory in version 17 of the format (any number of reservations, any
    properties and nodes, with path names of at most 256 bytes) whose root
    gives enough address and size cells, the output is a well-formed device
    tree again: a header with the right offsets and sizes, the reservations
    with those of the tree and the initial file system in front, the strings
    with the inserted names behind them, and the structure block of the tree
    in which the memory node is replaced, the old boot properties of
    [/chosen] are replaced by the new ones, and everything else is kept. *)
Theorem transform_fdt_correct cap m h in_end f resv t strs info junk ac sc :
  let t' := new_tree info (f_string_size f) strs t ac sc in
  fdt_input m h in_end f resv t strs -> fdt_target cap info resv t strs ac sc -> length junk = 8%nat ->
  zlen (out_fdt info junk resv t' strs) + 3 <= cap ->
  transform_fdt cap m h in_end info junk = Ok (Some (out_fdt info junk resv t' strs)).
Proof.
  intros t' Hin Htg Hj Hcap. pose proof (tg_cap _ _ _ _ _ _ _ Htg) as Hc31.
  pose proof (field_bounds m h in_end f resv t strs Hin) as (B1 & B2 & B3 & B4 & B5 & B6).
  pose proof (field m h in_end f resv t strs Hin) as F. pose proof (root_name m h in_end f resv t strs Hin) as [r Hroot].
  pose proof Hin as [Hhdr _ [Hv1 Hv2] [Hs1 Hs2] (Hst1 & Hst2 & Hst3) [Htree Hts] Hwf Hrt (Hstr & Hsl & Hs0 & Hsb & Hst4) (Hrb & Hrok & Hr8 & Hrs)].
  unfold transform_fdt. rewrite c_assert_true by (apply Z.leb_le; dlia). cbn [mbind res_bind].
  rewrite (ld_field m h (field_words f) 0 FDT_MAGIC h Hhdr eq_refl) by (lia || (unfold FDT_MAGIC; lia)). cbn [mbind res_bind]. rewrite Z.eqb_refl. cbn [negb].
  rewrite (F 4%nat (f_version f) (h + 20) eq_refl) by lia. cbn [mbind res_bind].
  rewrite (F 5%nat (f_compat f) (h + 24) eq_refl) by lia. cbn [mbind res_bind]. fdt_check.
  rewrite (F 0%nat (f_totalsize f) (h + 4) eq_refl) by lia. cbn [mbind res_bind]. fdt_check.
  rewrite (F 1%nat (f_struct f) (h + 8) eq_refl) by lia. cbn [mbind res_bind]. fdt_check.
  destruct (Z.leb_spec 17 (f_version f)); [| lia]. rewrite (F 8%nat (f_struct_size f) (h + 36) eq_refl) by lia. cbn [mbind res_bind andb].
  fdt_check.
  rewrite (ld_be32_ok _ _ FDT_CMD_NODE _ Hroot) by (unfold FDT_CMD_NODE; lia). cbn [mbind res_bind].
  apply bytes_at_app in Hroot as [_ Hroot]. rewrite word_length in Hroot. apply bytes_at_app in Hroot as [Hroot _].
  assert (ld 4 m (h + f_struct f + 4) = Ok [0; 0; 0; 0]) as -> by exact (ld_bytes_at _ _ _ Hroot). cbn [mbind res_bind].
  change (negb (FDT_CMD_NODE =? FDT_CMD_NODE) || negb (le_val [0; 0; 0; 0] =? 0)) with false. cbv iota.
  rewrite (F 7%nat (f_string_size f) (h + 32) eq_refl) by lia. cbn [mbind res_bind].
  rewrite (F 2%nat (f_string f) (h + 12) eq_refl) by lia. cbn [mbind res_bind].
  assert (1 <= zlen strs) as Hsp by (destruct strs; [done | cbn [length]; lia]).
  rewrite (u32_small (f_string f + f_string_size f)) by lia. fdt_check.
  rewrite (F 3%nat (f_resv f) (h + 16) eq_refl) by lia. cbn [mbind res_bind]. fdt_check.
  by apply (transform_body_ok cap m h in_end f resv t strs info junk ac sc).
Qed.

(** A small tree with all the nodes that are replaced. *)
Definition demo_names : list (list Z) :=
  [addr_cells_name; size_cells_name; text "device_type"; text "reg"; text "kaslr-seed"; text "bootargs"].
Definition demo_strs : list Z := flat_map (fun s => s ++ [0]) demo_names.
Definition demo_off (i : nat) : Z := zlen (flat_map (fun s => s ++ [0]) (take i demo_names)).
Definition demo_prop (i : nat) (data : list Z) : fprop := {| p_name := demo_off i; p_data := data |}.
Definition demo_tree : tree :=
  Node [] [demo_prop 0 (word 2); demo_prop 1 (word 1)]
    [Node memory_name [demo_prop 2 (memory_name ++ [0]); demo_prop 3 (word 0)] [];
     Node chosen_name [demo_prop 5 (text "quiet" ++ [0]); demo_prop 4 (word 1 ++ word 2)] [Node (text "sub") [] []];
     Node (text "cpus") [] [Node (text "cpu@0") [demo_prop 3 (word 0)] []]].
Definition demo_info : fdt_addendum :=
  {| fdt_address := 0x180000; initcpio_start := 0x8000000; initcpio_end := 0x8001000; dram_start := 0x200000; dram_size := 0xf7e00000;
     entropy := [1; 2; 3; 4]; boot_cpu := 0 |}.
Definition demo_resv : list (list Z * list Z) := [(be_bytes 8 0x1000, be_bytes 8 0x2000)].
Definition demo_struct_off : Z := 40 + zlen (flat_map flat_resv demo_resv ++ replicate 16 0).
Definition demo_string_off : Z := demo_struct_off + zlen (flat demo_tree ++ word FDT_CMD_END).
Definition demo_fields : fdt_fields :=
  {| f_totalsize := demo_string_off + zlen demo_strs; f_struct := demo_struct_off; f_string := demo_string_off; f_resv := 40;
     f_version := 17; f_compat := 16; f_cpu := 0; f_string_size := zlen demo_strs; f_struct_size := zlen (flat demo_tree ++ word FDT_CMD_END) |}.
Definition demo_fdt : list Z :=
  flat_map word (field_words demo_fields) ++ (flat_map flat_resv demo_resv ++ replicate 16 0)
  ++ (flat demo_tree ++ word FDT_CMD_END) ++ demo_strs.

Lemma demo_input : fdt_input (mem_of 0 demo_fdt) 0 (zlen demo_fdt) demo_fields demo_resv demo_tree demo_strs.
Proof.
  assert (bytes_at (mem_of 0 demo_fdt) 0 demo_fdt) as Hb by apply mem_of_bytes_at.
  set (m := mem_of 0 demo_fdt) in *. clearbody m. unfold demo_fdt in Hb.
  assert (zlen (flat_map word (field_words demo_fields)) = 40) as L1 by (vm_compute; reflexivity).
  assert (40 + zlen (flat_map flat_resv demo_resv ++ replicate 16 0) = f_struct demo_fields) as L2 by reflexivity.
  assert (f_struct demo_fields + zlen (flat demo_tree ++ word FDT_CMD_END) = f_string demo_fields) as L3 by reflexivity.
  apply bytes_at_app in Hb as [Hb1 Hb]. rewrite L1 in Hb. apply bytes_at_app in Hb as [Hb2 Hb].
  rewrite <- Z.add_assoc, L2 in Hb. apply bytes_at_app in Hb as [Hb3 Hb4]. rewrite <- Z.add_assoc, L3 in Hb4.
  constructor.
  - exact Hb1.
  - unfold field_words. cbn [tail]. repeat (apply Forall_cons; split; [vm_compute; split; [discriminate | reflexivity] |]). constructor.
  - vm_compute. split; discriminate.
  - vm_compute. split; [discriminate | reflexivity].
  - vm_compute. split_and!; [done | done | discriminate].
  - split; [exact Hb3 | vm_compute; discriminate].
  - unfold demo_tree.
    repeat first [apply wf_node | apply Forall_cons; split | apply Forall_nil; exact I]; vm_compute; try discriminate; split; done.
  - done.
  - split_and!; [exact Hb4 | done | done | | vm_compute; discriminate].
    unfold demo_strs. cbn. repeat (apply Forall_cons; split; [split; [discriminate | reflexivity] |]). constructor.
  - split_and!; [exact Hb2 | | done | vm_compute; discriminate].
    apply Forall_cons. split; [| constructor]. split_and!; [done | done | vm_compute; discriminate].
Qed.

Lemma transform_fdt_correct_witness :
  transform_fdt 4096 (mem_of 0 demo_fdt) 0 (zlen demo_fdt) demo_info (replicate 8 0)
    = Ok (Some (out_fdt demo_info (replicate 8 0) demo_resv (new_tree demo_info (f_string_size demo_fields) demo_strs demo_tree 2 1) demo_strs)).
Proof.
  apply (transform_fdt_correct 4096 (mem_of 0 demo_fdt) 0 (zlen demo_fdt) demo_fields demo_resv demo_tree demo_strs demo_info (replicate 8 0) 2 1).
  - apply demo_input.
  - constructor.
    + split; [reflexivity | lia].
    + intros _. lia.
    + reflexivity.
    + split; (split; [split; [discriminate | reflexivity] | right; lia || (right; split; [reflexivity | lia])]).
    + lia.
  - reflexivity.
  - vm_compute. discriminate.
Defined.

(** ** Boundary behaviour *)

(** Without address cells in the root, the loop that stores the upper words of
    the address counts to [addr_cells - 1 = 2^32 - 1]. *)
Lemma initrd_without_cells cap o info ssize : initcpio_start info <> initcpio_end info -> 0 <= cap <= 2 ^ 31 ->
  zlen o + 24 <= cap -> insert_chosen_props cap o info 0 ssize = Trap (TrapOob cap).
Proof.
  intros Hne Hc Ho. unfold insert_chosen_props, insert_initrd.
  destruct (Z.eqb_spec (initcpio_start info) (initcpio_end info)); [done |]. rewrite room_ok by lia.
  change (u32 (2 * 0)) with 0. destruct (Z.ltb_spec (room cap o - 6) 0); [unfold room in *; dlia |].
  rewrite store_ok by (rewrite !length_app, !Nat2Z.inj_add, !word_length; lia). cbn [mbind res_bind].
  unfold zero_words. change (u32 (0 - 1)) with (2 ^ 32 - 1). rewrite !length_app, !Nat2Z.inj_add, !word_length.
  match goal with |- context [?a <? ?b] => destruct (Z.ltb_spec a b) end; [done | lia].
Qed.

(** The space left is counted from before the token: a name may end four bytes
    behind the structure block. *)
Lemma token_size_overreads : fdt_token_size (mem_of 0 (word FDT_CMD_NODE ++ text "abcdef" ++ [0; 0])) 0 8 = Ok 11.
Proof. vm_compute. reflexivity. Qed.

(** A property length near [2^32] wraps around to a small token. *)
Lemma token_size_wraps : fdt_token_size (mem_of 0 (word FDT_CMD_PROP ++ word 0xfffffff8 ++ word 0)) 0 12 = Ok 4.
Proof. vm_compute. reflexivity. Qed.
