(* ===== verification/Blockdev.v ===== *)
(** * Block devices as transfers
      ([src/dramstage/blk_sd.c], [src/dramstage/blk_emmc.c])

    SD and eMMC deliver a range of blocks into a buffer, one request ahead of
    the reader.  Both drivers have the same [start], [wait_xfer] and [pump];
    they differ in the size of a request and in the host controller, which is
    a parameter: its operations, over a state of its own, answer with an I/O
    status.  The drivers are shown to be transfers in the sense of the
    decompression driver, for every behaviour of the controller. *)
From S2P Require Export Decompression.

Open Scope Z_scope.

(** ** Definitions *)

(** The operations of the host controller drivers that the pumps use:
    - [ctl_wait]: [dwmmc_wait_xfer], [sdhci_wait_xfer];
    - [ctl_begin]: [dwmmc_start_request]; for eMMC [sdhci_reset_xfer], whose
      failure is [IOST_INVALID];
    - [ctl_add]: [dwmmc_add_phys_buffer], [sdhci_add_phys_buffer];
    - [ctl_go]: [dwmmc_start_xfer], [sdhci_start_xfer]. *)
Record controller (C : Type) : Type := {
  ctl_wait : C -> Z * C;
  ctl_begin : Z -> C -> Z * C;
  ctl_add : Z -> Z -> C -> bool * C;
  ctl_go : Z -> C -> Z * C;
}.
Arguments ctl_wait {C}. Arguments ctl_begin {C}. Arguments ctl_add {C}. Arguments ctl_go {C}.

Record blockdev (C : Type) : Type := {
  block_size : Z; num_blocks : Z;
  consume_ptr : Z; end_ptr : Z; next_end_ptr : Z; stop_ptr : Z;
  next_lba : Z;
  xfer : C;
}.
Arguments block_size {C}. Arguments num_blocks {C}. Arguments consume_ptr {C}. Arguments end_ptr {C}.
Arguments next_end_ptr {C}. Arguments stop_ptr {C}. Arguments next_lba {C}. Arguments xfer {C}.

Definition SD_REQUEST_SIZE : Z := Z.shiftl 1 19.
Definition EMMC_REQUEST_SIZE : Z := Z.shiftl 2 20.

(** [parse_cardinfo] of SD: the number of blocks from the CSD register. *)
Definition sd_num_blocks (csd : list Z) : res (option Z) :=
  c1 ← geti csd 1; c2 ← geti csd 2; c3 ← geti csd 3;
  if negb (Z.shiftr c3 30 =? 1) then Ok None
  else Ok (Some (u64 (u32 (Z.lor (Z.shiftr c1 16) (Z.land (u32 (Z.shiftl c2 16)) 0x3f0000)) * 1024 + 1024))).

Section Pump.
Context {C : Type} (ctl : controller C) (request_size : Z) (iost_u8 : Z).

Definition set_ptrs (c e ne st lba : Z) (x : C) (d : blockdev C) : blockdev C :=
  {| block_size := block_size d; num_blocks := num_blocks d; consume_ptr := c; end_ptr := e; next_end_ptr := ne; stop_ptr := st;
     next_lba := lba; xfer := x |}.

Definition wait_xfer (d : blockdev C) : Z * blockdev C :=
  let '(r, x) := ctl_wait ctl (xfer d) in
  if negb (r =? IOST_OK) then (r, set_ptrs (consume_ptr d) (end_ptr d) (next_end_ptr d) (stop_ptr d) (next_lba d) x d)
  else (IOST_OK, set_ptrs (consume_ptr d) (next_end_ptr d) (next_end_ptr d) (stop_ptr d) (next_lba d) x d).

(** [(struct async_buf) {iost_u8 + res, iost_u8}] *)
Definition io_error (r : Z) : async_buf := {| b_start := iost_u8 + r; b_end := iost_u8 |}.
Definition io_buf (d : blockdev C) : async_buf := {| b_start := consume_ptr d; b_end := end_ptr d |}.

Definition start_next (d : blockdev C) : res (Z * blockdev C) :=
  let end_ := if request_size <? stop_ptr d - end_ptr d then end_ptr d + request_size else stop_ptr d in
  let '(r, x) := ctl_begin ctl (next_lba d) (xfer d) in
  let d := set_ptrs (consume_ptr d) (end_ptr d) (next_end_ptr d) (stop_ptr d) (next_lba d) x d in
  if negb (r =? IOST_OK) then Ok (r, d)
  else
  let '(ok, x) := ctl_add ctl (end_ptr d) end_ x in
  c_assert ok;;
  let '(r, x) := ctl_go ctl (next_lba d) x in
  if negb (r =? IOST_OK) then Ok (r, set_ptrs (consume_ptr d) (end_ptr d) (next_end_ptr d) (stop_ptr d) (next_lba d) x d)
  else Ok (IOST_OK, set_ptrs (consume_ptr d) (end_ptr d) end_ (stop_ptr d) (u32 (next_lba d + request_size / block_size d)) x d).

(** [while ((size_t)(dev->end_ptr - dev->consume_ptr) < min_size)] *)
Fixpoint pump_loop (fuel : nat) (min_size : Z) (d : blockdev C) : res (blockdev C * async_buf) :=
  if negb (u64 (end_ptr d - consume_ptr d) <? min_size) then Ok (d, io_buf d)
  else
  match fuel with
  | O => Trap TrapFuel
  | S fuel =>
      let '(r, d) := if negb (end_ptr d =? next_end_ptr d) then wait_xfer d else (IOST_OK, d) in
      if negb (r =? IOST_OK) then Ok (d, io_error r)
      else if stop_ptr d =? end_ptr d then Ok (d, io_buf d)
      else
      '(r, d) ← start_next d;
      if negb (r =? IOST_OK) then Ok (d, io_error r) else pump_loop fuel min_size d
  end.

(** Each round starts a request; there are at most as many as there are bytes. *)
Definition pump (d : blockdev C) (consume min_size : Z) : res (blockdev C * async_buf) :=
  c_assert (consume <=? u64 (end_ptr d - consume_ptr d));;
  let d := set_ptrs (consume_ptr d + consume) (end_ptr d) (next_end_ptr d) (stop_ptr d) (next_lba d) (xfer d) d in
  pump_loop (S (Z.to_nat (stop_ptr d - next_end_ptr d))) min_size d.

Definition start (d : blockdev C) (addr buf buf_end : Z) : Z * blockdev C :=
  if (buf_end <? buf) || negb (u64 (buf_end - buf) mod block_size d =? 0) || (num_blocks d <=? addr) then (IOST_INVALID, d)
  else
  let '(r, d) := wait_xfer d in
  if negb (r =? IOST_OK) then (r, d)
  else (IOST_OK, set_ptrs buf buf buf buf_end (u32 addr) (xfer d) d).
End Pump.

Definition sd_pump {C} (ctl : controller C) := pump ctl SD_REQUEST_SIZE.
Definition emmc_pump {C} (ctl : controller C) := pump ctl EMMC_REQUEST_SIZE.

(** ** Correctness

    What is assumed of the controller: its answers are I/O statuses, and there
    are enough descriptors for one request. *)
Class Controller {C : Type} (ctl : controller C) (request_size : Z) : Prop := {
  ctl_wait_status x : 0 <= (ctl_wait ctl x).1;
  ctl_begin_status lba x : 0 <= (ctl_begin ctl lba x).1;
  ctl_go_status lba x : 0 <= (ctl_go ctl lba x).1;
  ctl_add_room s e x : s <= e <= s + request_size -> (ctl_add ctl s e x).1 = true;
}.

(** The blocks from [lba0] on are read to [buf]: what was requested so far is
    a whole number of blocks, and the next request reads the block that
    belongs to its place in the buffer. *)
Record dev_ok {C} (request_size buf lba0 : Z) (d : blockdev C) : Prop := {
  ok_ptrs : 0 <= buf /\ buf <= consume_ptr d <= end_ptr d /\ end_ptr d <= next_end_ptr d <= stop_ptr d /\ stop_ptr d < 2 ^ 64;
  ok_size : 0 < block_size d /\ request_size mod block_size d = 0 /\ 0 < request_size;
  ok_aligned : (next_end_ptr d - buf) mod block_size d = 0 /\ (stop_ptr d - buf) mod block_size d = 0;
  ok_range : 0 <= lba0 /\ lba0 * block_size d + (stop_ptr d - buf) <= 2 ^ 32 * block_size d;
  ok_next : next_end_ptr d < stop_ptr d -> next_lba d * block_size d = lba0 * block_size d + (next_end_ptr d - buf);
}.

Section Correct.
Context {C : Type} (ctl : controller C) (request_size iost_u8 : Z) `{!Controller ctl request_size}.
Context (buf lba0 : Z).

Abbreviation ok := (@dev_ok C request_size buf lba0).

Lemma ok_xfer d x : ok d -> ok (set_ptrs (consume_ptr d) (end_ptr d) (next_end_ptr d) (stop_ptr d) (next_lba d) x d).
Proof. by intros [H1 H2 H3 H4 H5]. Qed.

Lemma wait_xfer_ok d r d' : ok d -> wait_xfer ctl d = (r, d') ->
  ok d' /\ consume_ptr d' = consume_ptr d /\ stop_ptr d' = stop_ptr d /\ next_end_ptr d' = next_end_ptr d /\ 0 <= r /\
  end_ptr d' = if r =? IOST_OK then next_end_ptr d else end_ptr d.
Proof.
  intros Hok. unfold wait_xfer. pose proof (ctl_wait_status (xfer d)) as Hr. destruct (ctl_wait ctl (xfer d)) as [r0 x]. cbn in Hr.
  destruct (Z.eqb_spec r0 IOST_OK) as [E | E]; cbn [negb]; intros [= <- <-]; cbn.
  - split_and!; try done. destruct Hok as [H1 H2 H3 H4 H5]. constructor; cbn; try done; lia.
  - split_and!; try done; [by apply ok_xfer |]. unfold IOST_OK in *. destruct (Z.eqb_spec r0 0); [lia | done].
Qed.

Lemma start_next_ok d : ok d -> end_ptr d = next_end_ptr d -> end_ptr d < stop_ptr d ->
  exists r d', start_next ctl request_size d = Ok (r, d') /\ ok d' /\ 0 <= r /\
    consume_ptr d' = consume_ptr d /\ stop_ptr d' = stop_ptr d /\ end_ptr d' = end_ptr d /\
    (r = IOST_OK -> end_ptr d < next_end_ptr d').
Proof.
  intros Hok Hne Hlt. pose proof Hok as [H1 H2 H3 H4 H5]. unfold start_next.
  set (e := if request_size <? stop_ptr d - end_ptr d then _ else _).
  assert (e = Z.min (end_ptr d + request_size) (stop_ptr d)) as He by (subst e; case_bool; lia). clearbody e.
  pose proof (ctl_begin_status (next_lba d) (xfer d)) as Hr. destruct (ctl_begin ctl (next_lba d) (xfer d)) as [r x]. cbn in Hr.
  destruct (Z.eqb_spec r IOST_OK) as [-> | Hr0]; cbn [negb].
  2: { eexists _, _. split; [done |]. by split_and!. }
  cbn [end_ptr set_ptrs].
  assert ((ctl_add ctl (end_ptr d) e x).1 = true) as Ha by (apply ctl_add_room; lia). destruct (ctl_add ctl (end_ptr d) e x) as [b x1]. cbn in Ha. subst b.
  cbn [c_assert mbind res_bind next_lba set_ptrs].
  pose proof (ctl_go_status (next_lba d) x1) as Hg. destruct (ctl_go ctl (next_lba d) x1) as [r x2]. cbn in Hg.
  destruct (Z.eqb_spec r IOST_OK) as [-> | Hr0]; cbn [negb].
  2: { eexists _, _. split; [done |]. by split_and!. }
  eexists _, _. split; [done |]. cbn. split_and!; try done; [| lia].
  assert (next_lba d * block_size d = lba0 * block_size d + (end_ptr d - buf)) as Hlba by (rewrite H5; lia).
  assert (request_size = request_size / block_size d * block_size d) as Hq.
  { pose proof (Z.div_mod request_size (block_size d) ltac:(lia)). lia. }
  set (q := request_size / block_size d) in *.
  constructor; cbn; try done; try lia.
  - split; [| by apply H3]. destruct (Z.le_gt_cases (end_ptr d + request_size) (stop_ptr d)).
    + replace (e - buf) with (next_end_ptr d - buf + q * block_size d) by lia. rewrite Z.mod_add by lia. by apply H3.
    + replace (e - buf) with (stop_ptr d - buf) by lia. by apply H3.
  - intros Hs. assert (e = end_ptr d + request_size) as Ee by lia.
    assert (0 <= q) by (apply Z.div_pos; lia).
    rewrite u32_small; [nia |]. split; [nia |]. apply (Z.mul_lt_mono_pos_r (block_size d)); nia.
Qed.

Lemma pump_loop_ok fuel min_size d : ok d -> stop_ptr d - next_end_ptr d < Z.of_nat fuel ->
  exists d' b, pump_loop ctl request_size iost_u8 fuel min_size d = Ok (d', b) /\ ok d' /\
    consume_ptr d' = consume_ptr d /\ stop_ptr d' = stop_ptr d /\
    (pump_failed b = true \/
     b_start b = consume_ptr d /\ b_end b = end_ptr d' /\ end_ptr d <= end_ptr d' /\
     (min_size <= end_ptr d' - consume_ptr d \/ end_ptr d' = stop_ptr d)).
Proof.
  induction fuel as [| fuel IH] in d |- *; intros Hok Hf; pose proof Hok as [H1 H2 H3 H4 H5]; [lia |]. cbn [pump_loop].
  rewrite u64_small by lia. destruct (Z.ltb_spec (end_ptr d - consume_ptr d) min_size) as [Hlt | Hge]; cbn [negb].
  2: { eexists _, _. split; [done |]. split_and!; try done. right. split_and!; try done. by left. }
  destruct (if negb (end_ptr d =? next_end_ptr d) then wait_xfer ctl d else (IOST_OK, d)) as [r d1] eqn:Hw.
  assert (ok d1 /\ consume_ptr d1 = consume_ptr d /\ stop_ptr d1 = stop_ptr d /\ next_end_ptr d1 = next_end_ptr d /\ 0 <= r /\
    end_ptr d <= end_ptr d1 /\ (r = IOST_OK -> end_ptr d1 = next_end_ptr d)) as (Hok1 & Hc1 & Hs1 & Hn1 & Hr & He1 & He1').
  { destruct (Z.eqb_spec (end_ptr d) (next_end_ptr d)) as [E | E]; cbn [negb] in Hw.
    - simplify_eq. split_and!; try done; lia.
    - apply wait_xfer_ok in Hw as (A1 & A2 & A3 & A4 & A5 & A6); [| done]. split_and!; try done; rewrite A6; destruct (Z.eqb_spec r IOST_OK); try lia. }
  assert (forall r' d', 0 <= r' -> r' <> IOST_OK -> ok d' -> consume_ptr d' = consume_ptr d -> stop_ptr d' = stop_ptr d ->
    exists d2 b, Ok (d', io_error iost_u8 r') = Ok (d2, b) /\ ok d2 /\ consume_ptr d2 = consume_ptr d /\ stop_ptr d2 = stop_ptr d /\
      (pump_failed b = true \/ b_start b = consume_ptr d /\ b_end b = end_ptr d2 /\ end_ptr d <= end_ptr d2 /\
       (min_size <= end_ptr d2 - consume_ptr d \/ end_ptr d2 = stop_ptr d))) as Herr.
  { intros r' d' Hr' Hne Hok' Hc' Hs'. eexists _, _. split; [done |]. split_and!; try done. left. unfold pump_failed, io_error. cbn.
    apply Z.ltb_lt. unfold IOST_OK in Hne. lia. }
  destruct (Z.eqb_spec r IOST_OK) as [-> | Hne]; cbn [negb]; [| by apply Herr]. specialize (He1' eq_refl).
  destruct (Z.eqb_spec (stop_ptr d1) (end_ptr d1)) as [Hst | Hst].
  { eexists _, _. split; [done |]. split_and!; try done. right. cbn. split_and!; try done. right. lia. }
  pose proof (ok_ptrs _ _ _ _ Hok1).
  destruct (start_next_ok d1) as (r2 & d2 & -> & Hok2 & Hr2 & Hc2 & Hs2 & He2 & Hn2); [done | lia | lia |]. cbn [mbind res_bind].
  destruct (Z.eqb_spec r2 IOST_OK) as [-> | Hne]; cbn [negb]; [| apply Herr; done || lia]. specialize (Hn2 eq_refl).
  destruct (IH d2) as (d3 & b & Hp & Hok3 & Hc3 & Hs3 & Hb); [done | lia |].
  exists d3, b. split_and!; try done; [lia | lia |]. destruct Hb as [Hb | (B1 & B2 & B3 & B4)]; [by left | right]. split_and!; try done; lia.
Qed.

Lemma pump_step d consume min_size : ok d -> 0 <= consume <= end_ptr d - consume_ptr d ->
  exists d' b, pump ctl request_size iost_u8 d consume min_size = Ok (d', b) /\ ok d' /\
    consume_ptr d' = consume_ptr d + consume /\ stop_ptr d' = stop_ptr d /\
    (pump_failed b = true \/
     b_start b = consume_ptr d + consume /\ b_end b = end_ptr d' /\ end_ptr d <= end_ptr d' /\
     (min_size <= end_ptr d' - (consume_ptr d + consume) \/ end_ptr d' = stop_ptr d)).
Proof.
  intros Hok Hc. pose proof Hok as [H1 H2 H3 H4 H5]. unfold pump. rewrite u64_small by lia. assert_ok.
  set (d1 := set_ptrs _ _ _ _ _ _ d). assert (ok d1) as Hok1 by (constructor; cbn; try done; lia).
  apply (pump_loop_ok _ min_size d1 Hok1). change (stop_ptr d1) with (stop_ptr d). change (next_end_ptr d1) with (next_end_ptr d). lia.
Qed.
End Correct.

(** The pump as the decompression driver calls it; an assertion never fails. *)
Definition dev_pump {C} (ctl : controller C) (request_size iost_u8 : Z) : pump_func (blockdev C) := fun d consume min_size =>
  match pump ctl request_size iost_u8 d consume min_size with
  | Ok r => r
  | Trap _ => (d, {| b_start := 1; b_end := 0 |})
  end.

#[export, program] Instance dev_transfer {C} (ctl : controller C) request_size iost_u8 `{!Controller ctl request_size} :
    Transfer (dev_pump ctl request_size iost_u8) := {|
  transfer_view d s e L := s = consume_ptr d /\ e = end_ptr d /\ L = stop_ptr d /\ exists buf lba0, dev_ok request_size buf lba0 d |}.
Next Obligation.
  intros C ctl rs io Hctl d s e L consume min_size (-> & -> & -> & buf & lba0 & Hok) Hc d' b Hp. unfold dev_pump in Hp.
  destruct (pump_step ctl rs io buf lba0 d consume min_size Hok Hc) as (d1 & b1 & Hp1 & Hok1 & Hc1 & Hs1 & Hb).
  rewrite Hp1 in Hp. injection Hp as <- <-. destruct Hb as [Hb | (B1 & B2 & B3 & B4)]; [by left | right].
  pose proof (ok_ptrs _ _ _ _ Hok1). rewrite B1, B2. split_and!; try done; try lia. by exists buf, lba0.
Qed.

Lemma start_ready {C} (ctl : controller C) request_size d addr buf buf_end r d' :
  start ctl d addr buf buf_end = (r, d') -> 0 <= buf -> buf_end < 2 ^ 64 -> 0 <= addr -> num_blocks d <= 2 ^ 32 ->
  0 < block_size d -> 0 < request_size -> request_size mod block_size d = 0 ->
  addr * block_size d + (buf_end - buf) <= 2 ^ 32 * block_size d ->
  r = IOST_OK -> dev_ok request_size buf addr d' /\ consume_ptr d' = buf /\ end_ptr d' = buf /\ stop_ptr d' = buf_end.
Proof.
  intros Hs Hb He Ha Hn Hbs Hrs Hm Hr -> . unfold start in Hs.
  destruct (Z.ltb_spec buf_end buf); [done |]. cbn [orb] in Hs. rewrite u64_small in Hs by lia.
  destruct (Z.eqb_spec ((buf_end - buf) mod block_size d) 0) as [Hal |]; cbn [negb orb] in Hs; [| done].
  destruct (Z.leb_spec (num_blocks d) addr); [done |]. unfold wait_xfer in Hs.
  destruct (ctl_wait ctl (xfer d)) as [r x]. destruct (Z.eqb_spec r IOST_OK) as [-> | Hne]; cbn [negb] in Hs.
  2: { destruct (Z.eqb_spec r IOST_OK); [done |]. cbn [negb] in Hs. simplify_eq. }
  rewrite Z.eqb_refl in Hs. cbn [negb] in Hs. injection Hs as <-. cbn. split_and!; try done. constructor; cbn; try done; try lia.
  - replace (buf - buf) with 0 by lia. by rewrite Z.mod_0_l by lia.
  - intros _. rewrite u32_small by lia. lia.
Qed.

(** A range that the driver is asked to read. *)
Record range_ok {C} (request_size addr buf buf_end : Z) (d : blockdev C) : Prop := {
  rg_buf : 0 <= buf /\ buf_end < 2 ^ 64;
  rg_lba : 0 <= addr /\ num_blocks d <= 2 ^ 32 /\ addr * block_size d + (buf_end - buf) <= 2 ^ 32 * block_size d;
  rg_size : 0 < block_size d /\ 0 < request_size /\ request_size mod block_size d = 0;
}.

(** The states of a driver: started, and pumped any number of times. *)
Inductive reachable {C} (ctl : controller C) (request_size iost_u8 addr buf buf_end : Z) : blockdev C -> Prop :=
| reach_start d d' : range_ok request_size addr buf buf_end d -> start ctl d addr buf buf_end = (IOST_OK, d') ->
    reachable ctl request_size iost_u8 addr buf buf_end d'
| reach_pump d consume min_size d' b : reachable ctl request_size iost_u8 addr buf buf_end d ->
    0 <= consume <= end_ptr d - consume_ptr d -> pump ctl request_size iost_u8 d consume min_size = Ok (d', b) ->
    reachable ctl request_size iost_u8 addr buf buf_end d'.

Lemma reachable_ok {C} (ctl : controller C) request_size iost_u8 `{!Controller ctl request_size} addr buf buf_end d :
  reachable ctl request_size iost_u8 addr buf buf_end d -> dev_ok request_size buf addr d /\ stop_ptr d = buf_end.
Proof.
  induction 1 as [d d' [H1 H2 H3] Hs | d consume min_size d' b _ [IH IHs] Hc Hp].
  - destruct (start_ready ctl request_size d addr buf buf_end IOST_OK d' Hs) as (Hok & _ & _ & Hst); try lia; done.
  - destruct (pump_step ctl request_size iost_u8 buf addr d consume min_size IH Hc) as (d1 & b1 & Hp1 & Hok1 & _ & Hs1 & _).
    rewrite Hp1 in Hp. injection Hp as <- <-. split; [done | congruence].
Qed.

(** SD and eMMC deliver the right blocks.  After a successful [start] at
    block [addr] and any number of pumps, whatever the controller answers, the
    assertions of [pump] hold, it returns within its bound, the requests are
    consecutive and each reads the blocks that belong to its place in the
    buffer ([dev_ok]); and a pump either reports an error or advances by what
    was consumed and delivers what was asked for, unless the end of the range
    is reached. *)
Theorem blockdev_pump_correct {C} (ctl : controller C) request_size iost_u8 `{!Controller ctl request_size} addr buf buf_end d consume min_size :
  reachable ctl request_size iost_u8 addr buf buf_end d -> 0 <= consume <= end_ptr d - consume_ptr d ->
  exists d' b, pump ctl request_size iost_u8 d consume min_size = Ok (d', b) /\ dev_ok request_size buf addr d' /\
    consume_ptr d' = consume_ptr d + consume /\
    (pump_failed b = true \/
     b_start b = consume_ptr d + consume /\ b_end b = end_ptr d' /\ end_ptr d <= end_ptr d' <= buf_end /\
     (min_size <= b_end b - b_start b \/ b_end b = buf_end)).
Proof.
  intros Hr Hc. destruct (reachable_ok _ _ _ _ _ _ _ Hr) as [Hok Hst].
  destruct (pump_step ctl request_size iost_u8 buf addr d consume min_size Hok Hc) as (d' & b & Hp & Hok' & Hc' & Hs' & Hb).
  exists d', b. split_and!; try done. destruct Hb as [Hb | (B1 & B2 & B3 & B4)]; [by left | right].
  pose proof (ok_ptrs _ _ _ _ Hok'). rewrite B1, B2. split_and!; try done; lia.
Qed.

(** A controller that never fails. *)
Definition demo_ctl : controller unit :=
  {| ctl_wait x := (IOST_OK, x); ctl_begin _ x := (IOST_OK, x); ctl_add _ _ x := (true, x); ctl_go _ x := (IOST_OK, x) |}.
#[export] Instance demo_controller : Controller demo_ctl SD_REQUEST_SIZE.
Proof. constructor; intros; cbn; done || lia. Qed.
Definition demo_dev : blockdev unit :=
  {| block_size := 512; num_blocks := 2 ^ 20; consume_ptr := 0x1000; end_ptr := 0x1000; next_end_ptr := 0x1000; stop_ptr := 0x101000;
     next_lba := 7; xfer := tt |}.

Lemma blockdev_pump_correct_witness :
  exists d' b, pump demo_ctl SD_REQUEST_SIZE 16 demo_dev 0 700000 = Ok (d', b) /\ dev_ok SD_REQUEST_SIZE 0x1000 7 d' /\
    consume_ptr d' = consume_ptr demo_dev + 0 /\
    (pump_failed b = true \/
     b_start b = consume_ptr demo_dev + 0 /\ b_end b = end_ptr d' /\ end_ptr demo_dev <= end_ptr d' <= 0x101000 /\
     (700000 <= b_end b - b_start b \/ b_end b = 0x101000)).
Proof.
  apply (blockdev_pump_correct demo_ctl SD_REQUEST_SIZE 16 7 0x1000 0x101000 demo_dev 0 700000).
  - apply (reach_start demo_ctl SD_REQUEST_SIZE 16 7 0x1000 0x101000 demo_dev); [| reflexivity].
    constructor; vm_compute; split_and!; (reflexivity || discriminate).
  - cbn. lia.
Defined.
