(* ===== verification/Mmu.v ===== *)
(** * The page tables: [lib/mmu.c], [include/mmu.h] and [aarch64/mmu_asm.S]

    Every stage maps its code, its stacks and its device registers in a
    four-level AArch64 translation table with a 4 KiB granule.  The tables are
    an array [pagetables] of [num_pagetables] frames of 512 descriptors, handed
    out in order; table 0 is the root.

    - [mmu_multimap] is the assembly routine that all mappings go through: one
      copy of the macro [multimap_level] per level, connected by jumps.  A
      control point is a label of the macro that is the target of a backward
      or an inter-level jump; [multimap_step] runs the code up to the next one.
    - [multimap_reference] is the C version that documents it.
    - [map_range], [mmu_map_range], [unmap_one], [mmu_unmap_range] and
      [map_address] are the C functions.

    The build assembles the routine with [ASSERTIONS=1] and [DEV_ASSERTIONS=0]
    ([configure.py]); the model is of that configuration.

    The second part is the abstract view: [table_at], [entry] and [leaf] say
    which descriptor translates an address, [tables_ok] is the well-formedness
    of the tables. *)
From S2P Require Export Prelude.
From stdpp Require Export zmap.
Open Scope Z_scope.

(** ** State *)

(** The descriptors by the address they are stored at, the number of tables
    handed out, and the arguments of the [tlbi] instructions executed. *)
Record mmu_state := MMU {
  ents : Zmap Z;
  next_pagetable : Z;
  tlbis : list Z
}.

Definition set_ents (st : mmu_state) (m : Zmap Z) : mmu_state :=
  MMU m (next_pagetable st) (tlbis st).
Definition set_next (st : mmu_state) (n : Z) : mmu_state :=
  MMU (ents st) n (tlbis st).
Definition add_tlbi (st : mmu_state) (a : Z) : mmu_state :=
  MMU (ents st) (next_pagetable st) (tlbis st ++ [a]).

Definition rd (st : mmu_state) (a : Z) : res Z :=
  match ents st !! a with Some v => Ok v | None => Trap (TrapOob a) end.

Definition wr (st : mmu_state) (a v : Z) : res mmu_state :=
  match ents st !! a with
  | Some _ => Ok (set_ents st (<[a := v]> (ents st)))
  | None => Trap (TrapOob a)
  end.

(** ** Descriptors *)
Definition MASK64 (n : Z) : Z := Z.shiftl 1 n - 1.

Definition PGTAB_SUBTABLE : Z := 3.
Definition PGTAB_PAGE (attridx : Z) : Z :=
  Z.lor (Z.lor 3 (Z.shiftl 1 10)) (Z.shiftl attridx 2).
Definition PGTAB_OUTER_SHAREABLE : Z := Z.shiftl 2 8.
Definition GRANULE_SHIFT : Z := 12.
Definition MAPPING_LEVEL_SHIFT : Z := GRANULE_SHIFT - 3.
Definition MIN_MAPPING_LEVEL : nat := 1.

Definition extr_addr (entry : Z) : Z :=
  Z.land entry (Z.shiftl (MASK64 (48 - GRANULE_SHIFT)) GRANULE_SHIFT).
Definition entry2subtable (entry : Z) : Z := extr_addr entry.

Record pte_lvl := PteLvl {
  lvl : Z;
  shift : Z;
  contiguous : Z;
  last_level : bool;
  mapping_allowed : bool
}.

Definition pte_lvls : list pte_lvl := [
  PteLvl 0 39 0 false false;
  PteLvl 1 30 4 false true;
  PteLvl 2 21 4 false true;
  PteLvl 3 12 4 true true
].

(** The descriptor index of [addr] in a table of the level with this shift. *)
Definition ubfx (addr shift : Z) : Z :=
  Z.land (Z.shiftr addr shift) (MASK64 MAPPING_LEVEL_SHIFT).

Record mmu_multimap_t := MultiMap { map_addr : Z; map_desc : Z }.

(** An array of [struct mmu_multimap] as the words that are read from it. *)
Definition words (map : list mmu_multimap_t) : list Z :=
  flat_map (fun m => [map_addr m; map_desc m]) map.

(** What one round of a mapping loop does next. *)
Inductive outcome (S R : Type) : Type :=
| Next (s : S)
| Return (r : R).
Arguments Next {S R} s.
Arguments Return {S R} r.

Section Mmu.
(** The address of the first table and the number of tables of the stage. *)
Context (pagetables num_pagetables : Z).

Definition alloc_page_table (st : mmu_state) : res (mmu_state * Z) :=
  let n := next_pagetable st in
  if n <? num_pagetables then Ok (set_next st (u32 (n + 1)), pagetables + 4096 * n)
  else Trap TrapAbort.

(** [for_range(i, 0, 512) table[i] = 0] *)
Definition clear_table (st : mmu_state) (table : Z) : res mmu_state :=
  foldM (fun st i => wr st (table + 8 * i) 0) st (range 0 512).

Definition map_address (st : mmu_state) (addr : Z) : res Z :=
  pte_l0 ← rd st (pagetables + 8 * ubfx addr 39);
  _ ← c_assert (Z.land pte_l0 3 =? 3);
  let pt_l1 := u64 (Z.land (Z.shiftr pte_l0 12) (MASK64 36) - Z.shiftr pagetables 12) in
  _ ← c_assert (pt_l1 <? num_pagetables);
  pte_l1 ← rd st (pagetables + 4096 * pt_l1 + 8 * ubfx addr 30);
  if Z.land pte_l1 3 =? 1 then
    Ok (Z.lor (Z.land pte_l1 (Z.shiftl (MASK64 18) 30)) (Z.land addr (MASK64 30)))
  else
  _ ← c_assert (Z.land pte_l1 3 =? 3);
  let pt_l2 := u64 (Z.land (Z.shiftr pte_l1 12) (MASK64 36) - Z.shiftr pagetables 12) in
  _ ← c_assert (pt_l2 <? num_pagetables);
  pte_l2 ← rd st (pagetables + 4096 * pt_l2 + 8 * ubfx addr 21);
  if Z.land pte_l2 3 =? 1 then
    Ok (Z.lor (Z.land pte_l2 (Z.shiftl (MASK64 27) 21)) (Z.land addr (MASK64 21)))
  else
  _ ← c_assert (Z.land pte_l2 3 =? 3);
  let pt_l3 := u64 (Z.land (Z.shiftr pte_l2 12) (MASK64 36) - Z.shiftr pagetables 12) in
  _ ← c_assert (pt_l3 <? num_pagetables);
  pte_l3 ← rd st (pagetables + 4096 * pt_l3 + 8 * ubfx addr 12);
  if Z.land pte_l3 3 =? 3 then
    Ok (Z.lor (Z.land pte_l3 (Z.shiftl (MASK64 36) 12)) (Z.land addr (MASK64 12)))
  else Trap TrapAbort.

(** ** The C version of the mapping loop *)
Record ref_regs := RefRegs {
  r_level : nat;
  r_table_ptrs : list Z;
  r_addr : Z;
  r_desc : Z;
  r_map : list mmu_multimap_t
}.

(** [while ((next_addr >> shift & 511) == 0) {assert(level > 0); level -= 1;}] *)
Fixpoint pop_levels (next_addr : Z) (level : nat) : res nat :=
  p ← geti pte_lvls (Z.of_nat level);
  if ubfx next_addr (shift p) =? 0 then
    match level with O => Trap TrapAssert | S level => pop_levels next_addr level end
  else Ok level.

Definition reference_step (st : mmu_state) (r : ref_regs)
  : res (mmu_state * outcome ref_regs (list mmu_multimap_t)) :=
  let level := r_level r in
  let addr := r_addr r in
  let desc := r_desc r in
  m ← geti (r_map r) 0;
  _ ← c_assert (addr <? map_addr m);
  p ← geti pte_lvls (Z.of_nat level);
  let shift := shift p in
  let next_addr := u64 (addr + Z.shiftl 1 shift) in
  let deeper :=
    (level <? MIN_MAPPING_LEVEL)%nat
    || negb (Z.land addr (MASK64 shift) =? 0)
    || (flag (Z.lnot desc) 2 && flag (u64 (addr - extr_addr desc)) (MASK64 shift))
    || (next_addr >? map_addr m) in
  let pos := ubfx addr shift in
  table ← geti (r_table_ptrs r) (Z.of_nat level);
  let entry := table + 8 * pos in
  if deeper then
    _ ← c_assert (level <? 3)%nat;
    e ← rd st entry;
    '(st, next_table) ←
      (if flag (Z.lnot e) 1 then
         '(st, next_table) ← alloc_page_table st;
         st ← clear_table st next_table;
         st ← wr st entry (Z.lor PGTAB_SUBTABLE next_table);
         Ok (st, next_table)
       else
         _ ← c_assert (flag e 2);
         Ok (st, entry2subtable e));
    tabs ← seti (r_table_ptrs r) (Z.of_nat (level + 1)) next_table;
    Ok (st, Next (RefRegs (level + 1) tabs addr desc (r_map r)))
  else
    e ← rd st entry;
    _ ← c_assert (flag (Z.lnot e) 1);
    st ← wr st entry (if (level =? 3)%nat then desc else Z.lxor desc 2);
    let desc := u64 (desc + Z.shiftl 1 (if flag desc 2 then shift else GRANULE_SHIFT)) in
    if next_addr =? map_addr m then
      if map_desc m =? 0 then Ok (st, Return (tail (r_map r)))
      else
        level ← pop_levels next_addr level;
        Ok (st, Next (RefRegs level (r_table_ptrs r) next_addr (map_desc m) (tail (r_map r))))
    else
      level ← pop_levels next_addr level;
      Ok (st, Next (RefRegs level (r_table_ptrs r) next_addr desc (r_map r))).

Fixpoint reference_loop (fuel : nat) (st : mmu_state) (r : ref_regs)
  : res (mmu_state * list mmu_multimap_t) :=
  match fuel with
  | O => Trap TrapFuel
  | S fuel =>
      '(st, o) ← reference_step st r;
      match o with Next r => reference_loop fuel st r | Return map => Ok (st, map) end
  end.

Definition multimap_reference (fuel : nat) (st : mmu_state) (table : Z) (map : list mmu_multimap_t)
  : res (mmu_state * list mmu_multimap_t) :=
  m ← geti map 0;
  reference_loop fuel st (RefRegs 0 [table; 0; 0; 0] (map_addr m) (map_desc m) (tail map)).

(** ** The assembly routine *)

(** [alloc_page_table] of the assembly: x10 is the root table. *)
Definition asm_alloc_page_table (x10 : Z) (st : mmu_state) : res (mmu_state * Z) :=
  let x0 := next_pagetable st in
  if num_pagetables <=? x0 then Trap TrapAbort
  else
    let x1 := x10 + 4096 * x0 in
    st ← clear_table (set_next st (u32 (x0 + 1))) x1;
    Ok (st, x1).

(** The registers that are live between control points; [x7] is the rest of
    the mapping array, [tp] holds the table pointers x10 to x13. *)
Record regs := Regs {
  x4 : Z;
  x5 : Z;
  x6 : Z;
  x7 : list Z;
  tp : list Z
}.

(** [At8 n], [At1 n] and [AtRet n] are labels [8:], [1:] and [\return_label]
    of the copy of the macro for level [n]. *)
Inductive control := At8 (level : nat) | At1 (level : nat) | AtRet (level : nat).

(** [next_mapping]: [Return] when the array has no further mapping. *)
Fixpoint next_mapping (addr : Z) (map : list Z) : res (outcome (Z * Z * list Z) (list Z)) :=
  match map with
  | [] => Trap (TrapOob 0)
  | desc :: map =>
      if negb (flag desc 1) then Ok (Return map)
      else
        match map with
        | [] => Trap (TrapOob 0)
        | next :: map =>
            if addr =? next then next_mapping addr map
            else if flag next 4095 then Trap TrapAbort
            else Ok (Next (desc, next, map))
        end
  end.

(** Label [3:], for the levels that have a next one. *)
Definition go_deeper (level : nat) (st : mmu_state) (r : regs) (pos : Z)
  : res (mmu_state * outcome (control * regs) (list Z)) :=
  x10 ← geti (tp r) 0;
  table ← geti (tp r) (Z.of_nat level);
  e ← rd st (table + 8 * pos);
  if flag e 1 then
    tabs ← seti (tp r) (Z.of_nat (level + 1)) (extr_addr e);
    Ok (st, Next (At8 (level + 1), Regs (x4 r) (x5 r) (x6 r) (x7 r) tabs))
  else
    '(st, next_table) ← asm_alloc_page_table x10 st;
    st ← wr st (table + 8 * pos) (Z.lor (extr_addr next_table) PGTAB_SUBTABLE);
    tabs ← seti (tp r) (Z.of_nat (level + 1)) next_table;
    Ok (st, Next (At8 (level + 1), Regs (x4 r) (x5 r) (x6 r) (x7 r) tabs)).

(** Label [1:]. *)
Definition mapping_loop (level : nat) (p : pte_lvl) (st : mmu_state) (r : regs)
  : res (mmu_state * outcome (control * regs) (list Z)) :=
  let pos := ubfx (x4 r) (shift p) in
  if negb (mapping_allowed p) then go_deeper level st r pos
  else
    let next_entry := u64 (x4 r + Z.shiftl 1 (shift p)) in
    if negb (last_level p) && (next_entry >? x6 r) then go_deeper level st r pos
    else
      table ← geti (tp r) (Z.of_nat level);
      e ← rd st (table + 8 * pos);
      if flag e 1 then Trap TrapAbort
      else
        st ← wr st (table + 8 * pos) (if last_level p then x5 r else Z.lxor (x5 r) 2);
        let addr := next_entry in
        let desc := u64 (x5 r + Z.shiftl 1 (shift p)) in
        if addr =? x6 r then
          o ← next_mapping addr (x7 r);
          match o with
          | Return map => Ok (st, Return map)
          | Next (desc, next, map) => Ok (st, Next (At8 level, Regs addr desc next map (tp r)))
          end
        else
          let r := Regs addr desc (x6 r) (x7 r) (tp r) in
          if negb (Z.lxor pos 511 =? 0) then Ok (st, Next (At1 level, r))
          else Ok (st, Next (AtRet (level - 1), r)).

(** The code from a control point to the next. *)
Definition multimap_step (c : control) (st : mmu_state) (r : regs)
  : res (mmu_state * outcome (control * regs) (list Z)) :=
  match c with
  | At8 level =>
      p ← geti pte_lvls (Z.of_nat level);
      if mapping_allowed p && negb (last_level p) then
        let pos := ubfx (x4 r) (shift p) in
        if flag (x4 r) (MASK64 (shift p)) then go_deeper level st r pos
        else if flag (u64 (extr_addr (x5 r) - x4 r)) (MASK64 (shift p)) then go_deeper level st r pos
        else mapping_loop level p st r
      else mapping_loop level p st r
  | At1 level =>
      p ← geti pte_lvls (Z.of_nat level);
      mapping_loop level p st r
  | AtRet level =>
      p ← geti pte_lvls (Z.of_nat level);
      if negb (ubfx (x4 r) (shift p) =? 0) then Ok (st, Next (At8 level, r))
      else match level with
           | O => Trap TrapAbort
           | S level => Ok (st, Next (AtRet level, r))
           end
  end.

Fixpoint multimap_loop (fuel : nat) (c : control) (st : mmu_state) (r : regs)
  : res (mmu_state * list Z) :=
  match fuel with
  | O => Trap TrapFuel
  | S fuel =>
      '(st, o) ← multimap_step c st r;
      match o with
      | Next (c, r) => multimap_loop fuel c st r
      | Return map => Ok (st, map)
      end
  end.

Definition mmu_multimap (fuel : nat) (st : mmu_state) (table : Z) (map : list Z)
  : res (mmu_state * list Z) :=
  match map with
  | addr :: desc :: next :: map =>
      if flag (Z.lor addr next) 4095 then Trap TrapAbort
      else multimap_loop fuel (At8 0) st (Regs addr desc next map [table; 0; 0; 0])
  | _ => Trap (TrapOob 0)
  end.

(** ** The C entry points *)

(** Control points passed per page are at most eight, see [rank]. *)
Definition map_fuel (first last : Z) : nat := Z.to_nat (8 * ((last + 1 - first) / 4096) + 8).

Definition map_range_desc (paddr flags : Z) : Z :=
  let attridx := Z.land flags 7 in
  Z.lor (Z.lor (Z.lor paddr (PGTAB_PAGE attridx)) (Z.land flags 0x3e0)) PGTAB_OUTER_SHAREABLE.

Definition map_range (st : mmu_state) (pt first last paddr flags : Z) : res mmu_state :=
  _ ← c_assert (last >? first);
  let map := [MultiMap first (map_range_desc paddr flags); MultiMap (u64 (last + 1)) 0] in
  '(st, _) ← mmu_multimap (map_fuel first last) st pt (words map);
  Ok st.

Definition mmu_map_range (st : mmu_state) (first last paddr flags : Z) : res mmu_state :=
  map_range st pagetables first last paddr flags.

Definition MEM_TYPE_DEV_nGnRnE : Z := 0.
Definition mmu_map_mmio_identity (st : mmu_state) (first last : Z) : res mmu_state :=
  mmu_map_range st first last first MEM_TYPE_DEV_nGnRnE.

(** One level of [unmap_one]: [inr] returns, [inl] descends. *)
Definition unmap_level (st : mmu_state) (pt first last lvl : Z)
  : res (mmu_state * (Z * Z + Z)) :=
  p ← geti pte_lvls lvl;
  let shift := shift p in
  let mask := MASK64 shift in
  let end_aligned := Z.land last mask =? mask in
  let not_also_last := Z.shiftr first shift <? Z.shiftr last shift in
  let first_entry := ubfx first shift in
  if mapping_allowed p && (Z.land first mask =? 0) && (end_aligned || not_also_last) then
    let last := if end_aligned then last else Z.lor (u64 (last - Z.shiftl 1 shift)) mask in
    let last_entry := ubfx last shift in
    let template := if last_level p then 3 else 1 in
    st ← foldM (fun st i =>
            e ← rd st (pt + 8 * i);
            _ ← c_assert (Z.land e 3 =? template);
            wr st (pt + 8 * i) 0) st (range first_entry (last_entry + 1));
    st ← foldM (fun st i =>
            e ← rd st (pt + 8 * i);
            _ ← c_assert (negb (flag e 1));
            let addr := u64 (first + u32 (Z.shiftl (i - first_entry) shift)) in
            Ok (add_tlbi st (Z.shiftr addr 12))) st (range first_entry (last_entry + 1));
    Ok (st, inr last)
  else if last_level p then Trap TrapAbort
  else
    entry ← rd st (pt + 8 * first_entry);
    _ ← c_assert (Z.land entry 3 =? 3);
    let last := if Z.shiftr first shift <? Z.shiftr last shift then Z.lor first mask else last in
    Ok (st, inl (entry2subtable entry, last)).

(** The [for_array] loop over the levels; [n] levels are left. *)
Fixpoint unmap_levels (n : nat) (st : mmu_state) (pt first last : Z) : res (mmu_state * Z) :=
  match n with
  | O => Trap TrapAssert
  | S n =>
      '(st, o) ← unmap_level st pt first last (3 - Z.of_nat n);
      match o with
      | inr last => Ok (st, last)
      | inl (pt, last) => unmap_levels n st pt first last
      end
  end.

Definition unmap_one (st : mmu_state) (pt first last : Z) : res (mmu_state * Z) :=
  unmap_levels (length pte_lvls) st pt first last.

Fixpoint unmap_loop (fuel : nat) (st : mmu_state) (first last : Z) : res mmu_state :=
  match fuel with
  | O => Trap TrapFuel
  | S fuel =>
      '(st, first) ← unmap_one st pagetables first last;
      if first <? last then unmap_loop fuel st (u64 (first + 1)) last else Ok st
  end.

Definition mmu_unmap_range (st : mmu_state) (first last : Z) : res mmu_state :=
  _ ← c_assert (last >? first);
  unmap_loop (Z.to_nat ((last + 1 - first) / 4096) + 1) st first last.

End Mmu.
