(* ===== verification/MmuTables.v ===== *)
(** * The translation tables as a tree

    Which descriptor translates an address ([table_at], [entry], [leaf]), the
    well-formedness of the tables ([tables_ok]), what a store to one descriptor
    can change, and that [map_address] computes the translation. *)
From S2P Require Export Mmu.

(** ** Slots

    [sh l] is the shift of level [l]; a slot of level [l] is the address range
    of one descriptor, [sb l va] the start of the slot of [va]; a table of
    level [l] covers the 512 slots of that level from [tb l va] on. *)
Definition sh (l : nat) : Z := 39 - 9 * Z.of_nat l.
Definition ix (l : nat) (va : Z) : Z := va / 2 ^ sh l mod 512.
Definition sb (l : nat) (va : Z) : Z := va / 2 ^ sh l * 2 ^ sh l.
Definition tb (l : nat) (va : Z) : Z := va / 2 ^ (sh l + 9) * 2 ^ (sh l + 9).

(** The sizes as numbers, for [lia]. *)
Lemma level_cases l : (l <= 3)%nat -> l = 0%nat \/ l = 1%nat \/ l = 2%nat \/ l = 3%nat.
Proof. lia. Qed.

Ltac levels l := destruct (level_cases l) as [-> | [-> | [-> | ->]]]; [lia | ..].

Lemma sh_range l : (l <= 3)%nat -> 12 <= sh l <= 39.
Proof. unfold sh. lia. Qed.

Lemma pow_sh l : (l <= 3)%nat -> exists q, 2 ^ sh l = 4096 * q /\ 0 < q.
Proof.
  intros Hl. exists (2 ^ (sh l - 12)). pose proof (sh_range l Hl).
  split; [| lia]. change 4096 with (2 ^ 12). rewrite <- Z.pow_add_r by lia. f_equal. lia.
Qed.

Lemma pow_cover l : (l <= 3)%nat -> 2 ^ (sh l + 9) = 512 * 2 ^ sh l.
Proof. intros Hl. pose proof (sh_range l Hl). rewrite Z.pow_add_r by lia. lia. Qed.

Lemma pow_up l : (l < 3)%nat -> 2 ^ sh l = 512 * 2 ^ sh (S l).
Proof.
  intros Hl. rewrite <- pow_cover by lia. f_equal. unfold sh. lia.
Qed.

Lemma tb_succ l va : (l < 3)%nat -> tb (S l) va = sb l va.
Proof. intros Hl. unfold tb, sb. replace (sh (S l) + 9) with (sh l) by (unfold sh; lia). done. Qed.

Lemma sb_le l va : (l <= 3)%nat -> sb l va <= va < sb l va + 2 ^ sh l.
Proof.
  intros Hl. pose proof (sh_range l Hl). unfold sb.
  pose proof (Z.div_mod va (2 ^ sh l) ltac:(lia)).
  pose proof (Z.mod_pos_bound va (2 ^ sh l) ltac:(lia)). lia.
Qed.

Lemma sb_sub l va : (l <= 3)%nat -> va mod 2 ^ sh l = va - sb l va.
Proof.
  intros Hl. pose proof (sh_range l Hl). unfold sb. pose proof (Z.div_mod va (2 ^ sh l) ltac:(lia)). lia.
Qed.

Lemma sb_mult l va : exists q, sb l va = q * 2 ^ sh l.
Proof. by exists (va / 2 ^ sh l). Qed.

Lemma sb_unique l va q : (l <= 3)%nat ->
  q * 2 ^ sh l <= va < q * 2 ^ sh l + 2 ^ sh l -> sb l va = q * 2 ^ sh l.
Proof.
  intros Hl Hq. pose proof (sh_range l Hl). unfold sb. f_equal.
  symmetry. apply (Z.div_unique _ _ _ (va - q * 2 ^ sh l)); lia.
Qed.

(** Addresses of one slot. *)
Lemma sb_same l va w : (l <= 3)%nat -> sb l va <= w < sb l va + 2 ^ sh l -> sb l w = sb l va.
Proof. intros Hl Hw. destruct (sb_mult l va) as [q Hq]. rewrite Hq in *. by apply sb_unique. Qed.

Lemma sb_mod0 l va : (l <= 3)%nat -> va mod 2 ^ sh l = 0 <-> sb l va = va.
Proof. intros Hl. rewrite sb_sub by done. lia. Qed.

Lemma tb_sb l va : (l <= 3)%nat -> sb l va = tb l va + ix l va * 2 ^ sh l.
Proof.
  intros Hl. pose proof (sh_range l Hl). unfold sb, tb, ix.
  rewrite pow_cover by done. replace (512 * 2 ^ sh l) with (2 ^ sh l * 512) by lia.
  rewrite <- Z.div_div by lia.
  pose proof (Z.div_mod (va / 2 ^ sh l) 512 ltac:(lia)). nia.
Qed.

Lemma ix_range l va : 0 <= ix l va < 512.
Proof. unfold ix. apply Z.mod_pos_bound. lia. Qed.

(** A slot of a deeper level lies in one slot of this level. *)
Lemma sb_nested l l' va : (l <= l')%nat -> (l' <= 3)%nat ->
  sb l va <= sb l' va /\ sb l' va + 2 ^ sh l' <= sb l va + 2 ^ sh l.
Proof.
  intros Hl. induction Hl as [|l' Hl IH]; intros Hl'; [lia |].
  destruct (IH ltac:(lia)) as [H1 H2].
  pose proof (tb_sb (S l') va ltac:(lia)) as Ht. rewrite tb_succ in Ht by lia.
  pose proof (pow_up l' ltac:(lia)). pose proof (ix_range (S l') va).
  pose proof (sh_range (S l') ltac:(lia)). assert (0 < 2 ^ sh (S l')) by lia. nia.
Qed.

Lemma ix_same l va w : (l <= 3)%nat -> sb l va = sb l w -> ix l va = ix l w.
Proof.
  intros Hl H. pose proof (sh_range l Hl). unfold sb in H. unfold ix.
  apply Z.mul_cancel_r in H; [by rewrite H | lia].
Qed.

Lemma sb_same_up l l' va w : (l <= l')%nat -> (l' <= 3)%nat -> sb l' va = sb l' w -> sb l va = sb l w.
Proof.
  intros Hl Hl' H. symmetry. apply sb_same; [lia |].
  pose proof (sb_nested l l' va Hl Hl'). pose proof (sb_le l' w ltac:(lia)). lia.
Qed.

(** [ubfx] of the code is the index. *)
Lemma ubfx_ix l va : (l <= 3)%nat -> ubfx va (sh l) = ix l va.
Proof.
  intros Hl. pose proof (sh_range l Hl). unfold ubfx, ix, MASK64.
  change (Z.shiftl 1 MAPPING_LEVEL_SHIFT - 1) with (2 ^ 9 - 1).
  rewrite land_ones_mod, Z.shiftr_div_pow2 by lia. done.
Qed.

Lemma pte_lvls_get l : (l <= 3)%nat ->
  geti pte_lvls (Z.of_nat l) =
  Ok (PteLvl (Z.of_nat l) (sh l) (if (l =? 0)%nat then 0 else 4) (l =? 3)%nat (negb (l =? 0)%nat)).
Proof. intros Hl. levels l; done. Qed.

Lemma mask_sh l : MASK64 (sh l) = 2 ^ sh l - 1.
Proof. unfold MASK64. rewrite Z.shiftl_1_l. done. Qed.

Lemma land_mask l x : (l <= 3)%nat -> Z.land x (MASK64 (sh l)) = x mod 2 ^ sh l.
Proof. intros Hl. pose proof (sh_range l Hl). rewrite mask_sh. apply land_ones_mod. lia. Qed.

(** ** Descriptors *)
Definition valid (e : Z) : bool := Z.testbit e 0.
Definition is_subtable (e : Z) : bool := Z.land e 3 =? 3.

Lemma flag1_valid e : flag e 1 = valid e.
Proof. apply (flag_bit e 0). lia. Qed.

Lemma flag_not1_valid e : flag (Z.lnot e) 1 = negb (valid e).
Proof. rewrite (flag_bit _ 0) by lia. by rewrite Z.lnot_spec. Qed.

Lemma low2 e : Z.land e 3 = Z.b2z (Z.testbit e 0) + 2 * Z.b2z (Z.testbit e 1).
Proof.
  change 3 with (2 ^ 2 - 1). rewrite land_ones_mod by lia.
  pose proof (Z.testbit_spec' e 0 ltac:(lia)) as H0. pose proof (Z.testbit_spec' e 1 ltac:(lia)) as H1.
  rewrite H0, H1. change (2 ^ 0) with 1. change (2 ^ 1) with 2. change (2 ^ 2) with 4.
  rewrite Z.div_1_r. dlia.
Qed.

Lemma subtable_valid e : is_subtable e = true -> valid e = true.
Proof.
  unfold is_subtable, valid. rewrite low2. intros H%Z.eqb_eq.
  destruct (Z.testbit e 0); [done |]. pose proof (b2z_01 (Z.testbit e 1)). simpl in H. lia.
Qed.

Lemma land_field e s : 0 <= s <= 48 ->
  Z.land e (Z.shiftl (MASK64 (48 - s)) s) = e mod 2 ^ 48 - e mod 2 ^ s.
Proof.
  intros Hs. assert (MASK64 (48 - s) = Z.ones (48 - s)) as -> by done.
  assert (Z.land e (Z.shiftl (Z.ones (48 - s)) s) = Z.shiftl (Z.shiftr e s mod 2 ^ (48 - s)) s) as ->.
  { rewrite <- Z.land_ones by lia. apply Z.bits_inj'; intros n Hn. rewrite Z.land_spec.
    destruct (Z.lt_ge_cases n s).
    - rewrite !Z.shiftl_spec_low by lia. apply andb_false_r.
    - rewrite !Z.shiftl_spec, Z.land_spec, Z.shiftr_spec by lia. do 2 f_equal. lia. }
  rewrite Z.shiftl_mul_pow2, Z.shiftr_div_pow2 by lia.
  pose proof (Z.div_mod e (2 ^ s) ltac:(lia)) as H1.
  pose proof (Z.rem_mul_r e (2 ^ s) (2 ^ (48 - s)) ltac:(lia) ltac:(lia)) as H2.
  rewrite <- Z.pow_add_r in H2 by lia. replace (s + (48 - s)) with 48 in H2 by lia. lia.
Qed.

Lemma extr_addr_spec e : extr_addr e = e mod 2 ^ 48 - e mod 2 ^ 12.
Proof. apply (land_field e 12). lia. Qed.

(** The address that a leaf [e] of level [l] translates [va] to. *)
Definition pa (l : nat) (e va : Z) : Z := e mod 2 ^ 48 - e mod 2 ^ sh l + va mod 2 ^ sh l.

Lemma pa_code l e va : (l <= 3)%nat ->
  Z.lor (Z.land e (Z.shiftl (MASK64 (48 - sh l)) (sh l))) (Z.land va (MASK64 (sh l))) = pa l e va.
Proof.
  intros Hl. pose proof (sh_range l Hl). rewrite land_mask by done.
  pose proof (Z.mod_pos_bound va (2 ^ sh l) ltac:(lia)).
  rewrite land_field by lia. unfold pa.
  assert (exists q, e mod 2 ^ 48 - e mod 2 ^ sh l = q * 2 ^ sh l) as [q ->].
  { exists (e mod 2 ^ 48 / 2 ^ sh l). rewrite <- (Z.mod_mod_divide e (2 ^ 48) (2 ^ sh l)).
    - pose proof (Z.div_mod (e mod 2 ^ 48) (2 ^ sh l) ltac:(lia)). lia.
    - exists (2 ^ (48 - sh l)). rewrite <- Z.pow_add_r by lia. f_equal. lia. }
  rewrite Z.lor_comm, <- Z.shiftl_mul_pow2, lor_shiftl_add by lia.
  rewrite Z.shiftl_mul_pow2 by lia. lia.
Qed.

Lemma extr_addr_or a n : 0 <= a < 2 ^ 48 -> a mod 4096 = 0 -> 0 <= n < 4096 ->
  extr_addr (a + n) = a.
Proof.
  intros Ha Hm Hn. rewrite extr_addr_spec. rewrite Z.mod_small by dlia. dlia.
Qed.

(** ** The tree *)
Section Tables.
Context (pagetables num_pagetables : Z).

(** The address of descriptor [i] of table [k]. *)
Definition tab (k : nat) : Z := pagetables + 4096 * Z.of_nat k.
Definition ea (k : nat) (i : Z) : Z := tab k + 8 * i.

Fixpoint table_at (m : Zmap Z) (l : nat) (va : Z) : option Z :=
  match l with
  | O => Some pagetables
  | S l =>
      t ← table_at m l va;
      e ← m !! (t + 8 * ix l va);
      if is_subtable e then Some (extr_addr e) else None
  end.

(** The descriptor of level [l] that the translation of [va] reads. *)
Definition entry (m : Zmap Z) (l : nat) (va : Z) : option Z :=
  t ← table_at m l va; m !! (t + 8 * ix l va).

Definition is_leaf (l : nat) (e : Z) : bool :=
  if (l =? 3)%nat then is_subtable e else (1 <=? l)%nat && (Z.land e 3 =? 1).

(** [va] is translated by the descriptor [e] of level [l]. *)
Definition leaf (m : Zmap Z) (va : Z) (l : nat) (e : Z) : Prop :=
  (l <= 3)%nat /\ entry m l va = Some e /\ is_leaf l e = true.

(** The translation of [va] ends at an invalid descriptor at level [l] or above. *)
Definition free (m : Zmap Z) (l : nat) (va : Z) : Prop :=
  exists l' e, (l' <= l)%nat /\ entry m l' va = Some e /\ valid e = false.

(** [G] gives for each table handed out its level and the first address it
    covers. *)
Definition entry_ok (G : list (nat * Z)) (l : nat) (b i e : Z) : Prop :=
  valid e = false \/ is_leaf l e = true \/
  ((l < 3)%nat /\ is_subtable e = true /\
   exists k, extr_addr e = tab k /\ G !! k = Some (S l, b + i * 2 ^ sh l)).

Record tables_ok (st : mmu_state) (G : list (nat * Z)) : Prop := {
  ok_base : 0 <= pagetables /\ pagetables mod 4096 = 0 /\
            pagetables + 4096 * num_pagetables <= 2 ^ 48 /\ num_pagetables < 2 ^ 32;
  ok_next : next_pagetable st = zlen G /\ zlen G <= num_pagetables;
  ok_root : G !! 0%nat = Some (0%nat, 0);
  ok_level : forall k l b, G !! k = Some (l, b) -> (l <= 3)%nat;
  ok_dom : forall k i, Z.of_nat k < num_pagetables -> 0 <= i < 512 -> is_Some (ents st !! ea k i);
  ok_entry : forall k l b i e, G !! k = Some (l, b) -> 0 <= i < 512 ->
    ents st !! ea k i = Some e -> entry_ok G l b i e
}.

(** The translation as the code of [map_address] gives it. *)
Definition translate (st : mmu_state) (va : Z) : option Z :=
  match map_address pagetables num_pagetables st va with Ok pa => Some pa | Trap _ => None end.

Lemma ea_inj k i k' i' : 0 <= i < 512 -> 0 <= i' < 512 -> ea k i = ea k' i' -> k = k' /\ i = i'.
Proof. unfold ea, tab. intros. lia. Qed.

(** Every table reached is one that was handed out for the addresses it is
    reached for. *)
Lemma table_at_G st G l va t : tables_ok st G -> 0 <= va < 2 ^ 48 -> (l <= 3)%nat ->
  table_at (ents st) l va = Some t -> exists k, t = tab k /\ G !! k = Some (l, tb l va).
Proof.
  intros HI Hva. revert t. induction l as [|l IH]; intros t Hl Ht.
  - injection Ht as <-. exists 0%nat. split; [unfold tab; lia |].
    rewrite (ok_root _ _ HI). unfold tb. rewrite Z.div_small; [done | unfold sh; lia].
  - cbn [table_at] in Ht. destruct (table_at (ents st) l va) as [t0|] eqn:Ht0; [| done].
    destruct (IH t0 ltac:(lia) eq_refl) as (k & -> & Hk). cbn in Ht.
    destruct (ents st !! _) as [e|] eqn:He; [| done]. cbn in Ht.
    destruct (is_subtable e) eqn:Hs; [| done]. injection Ht as <-.
    destruct (ok_entry _ _ HI k l _ (ix l va) e Hk (ix_range l va) He) as [Hv | [Hf | (_ & _ & k' & Hx & Hk')]].
    + by rewrite (subtable_valid _ Hs) in Hv.
    + unfold is_leaf in Hf. destruct (Nat.eqb_spec l 3); [lia |].
      unfold is_subtable in Hs. apply Z.eqb_eq in Hs. rewrite Hs in Hf.
      by rewrite andb_false_r in Hf.
    + exists k'. split; [done |]. rewrite Hk'. rewrite tb_succ, tb_sb by lia. done.
Qed.

Lemma entry_some st G l va t : tables_ok st G -> 0 <= va < 2 ^ 48 -> (l <= 3)%nat ->
  table_at (ents st) l va = Some t ->
  exists k e, t = tab k /\ G !! k = Some (l, tb l va) /\
    ents st !! ea k (ix l va) = Some e /\ entry (ents st) l va = Some e /\
    entry_ok G l (tb l va) (ix l va) e.
Proof.
  intros HI Hva Hl Ht. destruct (table_at_G st G l va t HI Hva Hl Ht) as (k & -> & Hk).
  assert (Z.of_nat k < num_pagetables) as Hn.
  { apply lookup_lt_Some in Hk. destruct (ok_next _ _ HI). lia. }
  destruct (ok_dom _ _ HI k (ix l va) Hn (ix_range l va)) as [e He].
  exists k, e. split; [done |]. split; [done |]. split; [done |]. split.
  - unfold entry. rewrite Ht. done.
  - by apply (ok_entry _ _ HI k); [| apply ix_range |].
Qed.

(** What one store can change: only translations whose path goes through it. *)
Lemma table_at_local m m' l va :
  (forall l' t, (l' < l)%nat -> table_at m l' va = Some t ->
     m' !! (t + 8 * ix l' va) = m !! (t + 8 * ix l' va)) ->
  table_at m' l va = table_at m l va.
Proof.
  induction l as [|l IH]; intros H; [done |]. cbn [table_at].
  rewrite IH by (intros; apply H; [lia | done]).
  destruct (table_at m l va) as [t|] eqn:Ht; [| done]. cbn.
  by rewrite (H l t ltac:(lia) Ht).
Qed.

Lemma entry_local m m' l va :
  (forall l' t, (l' <= l)%nat -> table_at m l' va = Some t ->
     m' !! (t + 8 * ix l' va) = m !! (t + 8 * ix l' va)) ->
  entry m' l va = entry m l va.
Proof.
  intros H. unfold entry. rewrite (table_at_local m m') by (intros; apply H; [lia | done]).
  destruct (table_at m l va) as [t|] eqn:Ht; [| done]. cbn. by apply H.
Qed.

(** Addresses with the same slots take the same path. *)
Lemma table_at_cong m l va w : (l <= 3)%nat -> tb l va = tb l w -> 0 <= va < 2 ^ 48 -> 0 <= w < 2 ^ 48 ->
  table_at m l va = table_at m l w.
Proof.
  revert va w. induction l as [|l IH]; intros va w Hl H Hva Hw; [done |].
  rewrite !tb_succ in H by lia. cbn [table_at].
  rewrite (IH va w); [| lia | | done | done].
  - by rewrite (ix_same l va w) by (done || lia).
  - destruct l as [|l].
    + unfold tb. rewrite !Z.div_small by (unfold sh; lia). done.
    + rewrite !tb_succ by lia. by apply (sb_same_up l (S l)); [lia | lia |].
Qed.

Lemma table_at_up m l l' va t : (l' <= l)%nat -> table_at m l va = Some t -> is_Some (table_at m l' va).
Proof.
  intros Hle. revert t. induction Hle as [|l Hle IH]; intros t Ht; [by eexists |].
  cbn [table_at] in Ht. destruct (table_at m l va) as [t'|] eqn:Ht'; [| done]. by eapply IH.
Qed.

Lemma entry_above m l l' va t : (l' < l)%nat -> table_at m l va = Some t ->
  exists e, entry m l' va = Some e /\ is_subtable e = true /\ table_at m (S l') va = Some (extr_addr e).
Proof.
  intros Hlt Ht. destruct (table_at_up m l (S l') va t ltac:(lia) Ht) as [t' Ht'].
  rewrite Ht'. cbn [table_at] in Ht'.
  destruct (table_at m l' va) as [u|] eqn:Hu; [| done]. cbn in Ht'.
  destruct (m !! _) as [e|] eqn:He; [| done]. cbn in Ht'.
  destruct (is_subtable e) eqn:Hs; [| done]. exists e. unfold entry. rewrite Hu. cbn.
  rewrite He. injection Ht' as <-. done.
Qed.

(** On well-formed tables every address is translated by one descriptor or by
    none. *)
Lemma leaf_or_free st G va : tables_ok st G -> 0 <= va < 2 ^ 48 ->
  (exists l e, leaf (ents st) va l e) \/ free (ents st) 3 va.
Proof.
  intros HI Hva.
  assert (forall n l t, (l + n = 3)%nat -> table_at (ents st) l va = Some t ->
    (exists l e, leaf (ents st) va l e) \/ free (ents st) 3 va) as H.
  { induction n as [|n IH]; intros l t Hl Ht;
      destruct (entry_some st G l va t HI Hva ltac:(lia) Ht) as (k & e & -> & Hk & He & Hen & [Hv | [Hf | (Hl3 & Hs & k' & Hx & Hk')]]).
    - right. exists l, e. split; [lia | done].
    - left. exists l, e. split; [lia | done].
    - lia.
    - right. exists l, e. split; [lia | done].
    - left. exists l, e. split; [lia | done].
    - apply (IH (S l) (extr_addr e)); [lia |]. cbn [table_at]. rewrite Ht. cbn.
      unfold ea in He. rewrite He. cbn. by rewrite Hs. }
  apply (H 3%nat 0%nat pagetables); done.
Qed.

Lemma leaf_valid l e : is_leaf l e = true -> valid e = true.
Proof.
  unfold is_leaf. destruct (l =? 3)%nat; [apply subtable_valid |].
  intros [_ H]%andb_true_iff. unfold valid. rewrite low2 in H. apply Z.eqb_eq in H.
  destruct (Z.testbit e 0); [done |]. pose proof (b2z_01 (Z.testbit e 1)). simpl in H. lia.
Qed.

Lemma leaf_not_subtable l e : (l < 3)%nat -> is_leaf l e = true -> is_subtable e = false.
Proof.
  intros Hl. unfold is_leaf. destruct (Nat.eqb_spec l 3); [lia |].
  intros [_ H]%andb_true_iff. unfold is_subtable. apply Z.eqb_eq in H. by rewrite H.
Qed.

(** An entry that ends the walk: nothing is read below it. *)
Lemma entry_end m l l' va e e' : (l < l')%nat -> entry m l va = Some e -> is_subtable e = false ->
  entry m l' va = Some e' -> False.
Proof.
  intros Hlt He Hs He'. unfold entry in He'. destruct (table_at m l' va) as [t|] eqn:Ht; [| done].
  destruct (entry_above m l' l va t Hlt Ht) as (e2 & He2 & Hs2 & _).
  rewrite He in He2. injection He2 as <-. by rewrite Hs in Hs2.
Qed.

Lemma leaf_unique m va l e l' e' : leaf m va l e -> leaf m va l' e' -> l = l' /\ e = e'.
Proof.
  intros (Hl & He & Hf) (Hl' & He' & Hf').
  destruct (Nat.lt_trichotomy l l') as [Hlt | [-> | Hlt]].
  - exfalso. eapply (entry_end m l l'); eauto.
    eapply leaf_not_subtable; [| done]. lia.
  - split; [done |]. congruence.
  - exfalso. eapply (entry_end m l' l); eauto.
    eapply leaf_not_subtable; [| done]. lia.
Qed.

Lemma invalid_not_subtable e : valid e = false -> is_subtable e = false.
Proof. intros H. destruct (is_subtable e) eqn:Hs; [| done]. apply subtable_valid in Hs. congruence. Qed.

Lemma leaf_not_free m va l e n : (n <= 3)%nat -> leaf m va l e -> free m n va -> False.
Proof.
  intros Hn (Hl & He & Hf) (l' & e' & Hl' & He' & Hv).
  destruct (Nat.lt_trichotomy l l') as [Hlt | [-> | Hlt]].
  - eapply (entry_end m l l'); eauto. eapply leaf_not_subtable; [| done]. lia.
  - rewrite He in He'. injection He' as <-. apply leaf_valid in Hf. congruence.
  - eapply (entry_end m l' l); eauto. by apply invalid_not_subtable.
Qed.

(** ** [map_address] *)
Lemma subtable_index st G e k : tables_ok st G -> extr_addr e = tab k -> (k < length G)%nat ->
  u64 (Z.land (Z.shiftr e 12) (MASK64 36) - Z.shiftr pagetables 12) = Z.of_nat k.
Proof.
  intros HI He Hk. destruct (ok_base _ _ HI) as (Hb & Hm & Hmax & Hn). destruct (ok_next _ _ HI).
  assert (Z.land (Z.shiftr e 12) (MASK64 36) = extr_addr e / 4096) as ->.
  { change (MASK64 36) with (2 ^ 36 - 1). rewrite land_ones_mod, Z.shiftr_div_pow2 by lia.
    rewrite extr_addr_spec. change 4096 with (2 ^ 12).
    pose proof (Z.rem_mul_r e (2 ^ 12) (2 ^ 36) ltac:(lia) ltac:(lia)) as H2.
    change (2 ^ 12 * 2 ^ 36) with (2 ^ 48) in H2. rewrite H2.
    replace (e mod 2 ^ 12 + _ - _) with ((e / 2 ^ 12) mod 2 ^ 36 * 2 ^ 12) by lia.
    by rewrite Z.div_mul by lia. }
  rewrite He. unfold tab. rewrite Z.shiftr_div_pow2 by lia. rewrite u64_small; dlia.
Qed.

Lemma low_invalid e : valid e = false -> (Z.land e 3 =? 3) = false /\ (Z.land e 3 =? 1) = false.
Proof.
  unfold valid. rewrite low2. intros ->. simpl. pose proof (b2z_01 (Z.testbit e 1)).
  split; apply Z.eqb_neq; lia.
Qed.

(** One level of the walk. *)
Lemma walk_level st G l va k : tables_ok st G -> 0 <= va < 2 ^ 48 -> (l <= 3)%nat ->
  table_at (ents st) l va = Some (tab k) ->
  exists e, rd st (tab k + 8 * ix l va) = Ok e /\
    ((valid e = false /\ free (ents st) 3 va) \/
     (leaf (ents st) va l e) \/
     ((l < 3)%nat /\ Z.land e 3 = 3 /\ exists k', table_at (ents st) (S l) va = Some (tab k') /\
        u64 (Z.land (Z.shiftr e 12) (MASK64 36) - Z.shiftr pagetables 12) = Z.of_nat k' /\
        (Z.of_nat k' <? num_pagetables) = true)).
Proof.
  intros HI Hva Hl Ht.
  destruct (entry_some st G l va _ HI Hva Hl Ht) as (k0 & e & Hk0 & Hk & He & Hen & Hok).
  assert (k0 = k) as -> by (unfold tab in Hk0; lia).
  exists e. split; [unfold rd; fold (ea k (ix l va)); by rewrite He |].
  destruct Hok as [Hv | [Hf | (Hl3 & Hs & k' & Hx & Hk')]].
  - left. split; [done |]. by exists l, e.
  - right. left. done.
  - right. right. split; [done |]. apply Z.eqb_eq in Hs as Hs'. split; [done |].
    exists k'. split; [| split].
    + cbn [table_at]. rewrite Ht. cbn. fold (ea k (ix l va)). rewrite He. cbn. by rewrite Hs, Hx.
    + eapply subtable_index; [done | done | by eapply lookup_lt_Some].
    + apply lookup_lt_Some in Hk'. destruct (ok_next _ _ HI). zb.
Qed.

Ltac walk HI Hva l Ht k :=
  let e := fresh "e" in let Hrd := fresh "Hrd" in let Hv := fresh "Hv" in
  let Hf := fresh "Hf" in let Hs := fresh "Hs" in let k' := fresh "k" in let Ht' := fresh "Ht" in
  let Hix := fresh "Hix" in let Hlt := fresh "Hlt" in let Hn := fresh "Hn" in
  destruct (walk_level _ _ l _ k HI Hva ltac:(lia) Ht)
    as (e & Hrd & [[Hv Hf] | [Hf | (Hlt & Hs & k' & Ht' & Hix & Hn)]]);
  unfold tab in Hrd; rewrite Hrd; cbn [mbind res_bind];
  [ right; split; [done |];
    destruct (low_invalid _ Hv) as [H3 H1]; rewrite ?H1, ?H3; by eexists
  | left; exists l, e; split; [done |]; destruct Hf as (_ & _ & Hf); unfold is_leaf in Hf; cbn in Hf
  | rewrite ?Hs; cbn [Z.eqb Pos.eqb c_assert mbind res_bind]; rewrite ?Hix, ?Hn;
    cbn [c_assert mbind res_bind] ].

(** The walk of [map_address], which is total on well-formed tables. *)
Lemma map_address_spec st G va : tables_ok st G -> 0 <= va < 2 ^ 48 ->
  (exists l e, leaf (ents st) va l e /\
     map_address pagetables num_pagetables st va = Ok (pa l e va)) \/
  (free (ents st) 3 va /\ exists t, map_address pagetables num_pagetables st va = Trap t).
Proof.
  intros HI Hva. unfold map_address.
  change (ubfx va 39) with (ubfx va (sh 0)). change (ubfx va 30) with (ubfx va (sh 1)).
  change (ubfx va 21) with (ubfx va (sh 2)). change (ubfx va 12) with (ubfx va (sh 3)).
  rewrite !ubfx_ix by lia.
  replace (pagetables + 8 * ix 0 va) with (pagetables + 4096 * Z.of_nat 0 + 8 * ix 0 va) by lia.
  assert (table_at (ents st) 0 va = Some (tab 0)) as Ht by (cbn; f_equal; unfold tab; lia).
  walk HI Hva 0%nat Ht 0%nat; [done |].
  walk HI Hva 1%nat Ht0 k.
  { rewrite Hf. by rewrite <- (pa_code 1) by lia. }
  walk HI Hva 2%nat Ht1 k0.
  { rewrite Hf. by rewrite <- (pa_code 2) by lia. }
  walk HI Hva 3%nat Ht2 k1; [| lia].
  unfold is_subtable in Hf. rewrite Hf. by rewrite <- (pa_code 3) by lia.
Qed.

Lemma translate_leaf st G va l e : tables_ok st G -> 0 <= va < 2 ^ 48 ->
  leaf (ents st) va l e -> translate st va = Some (pa l e va).
Proof.
  intros HI Hva Hl. unfold translate.
  destruct (map_address_spec st G va HI Hva) as [(l' & e' & Hl' & ->) | (Hf & _)].
  - by destruct (leaf_unique _ _ _ _ _ _ Hl Hl') as [-> ->].
  - exfalso. by eapply leaf_not_free; [| done |].
Qed.

Lemma translate_none st G va : tables_ok st G -> 0 <= va < 2 ^ 48 ->
  (forall l e, ~ leaf (ents st) va l e) -> translate st va = None.
Proof.
  intros HI Hva Hn. unfold translate.
  destruct (map_address_spec st G va HI Hva) as [(l' & e' & Hl' & ->) | (_ & t & ->)]; [| done].
  by edestruct Hn.
Qed.

(** States that have the same leaves translate alike. *)
Lemma translate_ext st G st' G' va : tables_ok st G -> tables_ok st' G' -> 0 <= va < 2 ^ 48 ->
  (forall l e, leaf (ents st') va l e <-> leaf (ents st) va l e) ->
  translate st' va = translate st va.
Proof.
  intros HI HI' Hva H. destruct (leaf_or_free st G va HI Hva) as [(l & e & Hl) | Hf].
  - rewrite (translate_leaf st G va l e), (translate_leaf st' G' va l e); try done. by apply H.
  - rewrite (translate_none st G va), (translate_none st' G' va); try done; intros l e Hl.
    + apply H in Hl. by eapply leaf_not_free; [| done |].
    + by eapply leaf_not_free; [| done |].
Qed.
End Tables.
