(* ===== verification/MmuStore.v ===== *)
(** * Stores to the translation tables

    The three stores of the code: a leaf put in place of an invalid
    descriptor or taken away again ([swap]), and a cleared table linked in
    place of an invalid descriptor ([link]).  For each: the tables stay
    well-formed, and what the translation of every address becomes. *)
From S2P Require Export MmuTables.

Section Store.
Context (pagetables num_pagetables : Z).
Abbreviation tab := (tab pagetables).
Abbreviation ea := (ea pagetables).
Abbreviation table_at := (table_at pagetables).
Abbreviation entry := (entry pagetables).
Abbreviation leaf := (leaf pagetables).
Abbreviation free := (free pagetables).
Abbreviation tables_ok := (tables_ok pagetables num_pagetables).

Lemma rd_ok st a e : ents st !! a = Some e -> rd st a = Ok e.
Proof. unfold rd. by intros ->. Qed.

Lemma wr_ok st a v e : ents st !! a = Some e -> wr st a v = Ok (set_ents st (<[a := v]> (ents st))).
Proof. unfold wr. by intros ->. Qed.

Lemma slot_ix l va b i : (l <= 3)%nat -> tb l va = b -> sb l va = b + i * 2 ^ sh l <-> (tb l va = b /\ ix l va = i).
Proof.
  intros Hl Hb. rewrite tb_sb by done. pose proof (sh_range l Hl).
  assert (0 < 2 ^ sh l) by lia. split; [intros; split; [done | nia] | intros [? ?]; nia].
Qed.

(** A table that a walk reads belongs to the address walked. *)
Lemma read_slot st G l va t k b i : tables_ok st G -> 0 <= va < 2 ^ 48 ->
  G !! k = Some b -> 0 <= i < 512 -> (l <= 3)%nat ->
  table_at (ents st) l va = Some t -> t + 8 * ix l va = ea k i ->
  b = (l, tb l va) /\ ix l va = i.
Proof.
  intros HI Hva Hk Hi Hl Ht He.
  destruct (table_at_G _ _ st G l va t HI Hva Hl Ht) as (k' & -> & Hk').
  destruct (ea_inj pagetables k' (ix l va) k i (ix_range l va) Hi He) as [-> ?].
  split; [congruence | done].
Qed.

(** ** A descriptor that is not a subtable for one that is not *)
Section Swap.
Context (st : mmu_state) (G : list (nat * Z)) (k l : nat) (b i e v : Z).
Hypothesis HI : tables_ok st G.
Hypothesis Hk : G !! k = Some (l, b).
Hypothesis Hi : 0 <= i < 512.
Hypothesis He : ents st !! ea k i = Some e.
Hypothesis Hold : l = 3%nat \/ is_subtable e = false.
Hypothesis Hnew : l = 3%nat \/ is_subtable v = false.

Local Abbreviation m' := (<[ea k i := v]> (ents st)).

Lemma swap_table_at l1 va : 0 <= va < 2 ^ 48 -> (l1 <= 3)%nat ->
  table_at m' l1 va = table_at (ents st) l1 va.
Proof.
  intros Hva. induction l1 as [|l1 IH]; intros Hl1; [done |].
  cbn [MmuTables.table_at]. rewrite IH by lia.
  destruct (table_at (ents st) l1 va) as [t|] eqn:Ht; [| done]. cbn.
  destruct (decide (t + 8 * ix l1 va = ea k i)) as [Heq | Hne]; [| by rewrite lookup_insert_ne].
  destruct (read_slot st G l1 va t k _ i HI Hva Hk Hi ltac:(lia) Ht Heq) as [[= -> ->] _].
  rewrite Heq, lookup_insert_eq, He. cbn.
  destruct Hold as [? | ->]; [lia |]. by destruct Hnew as [? | ->]; [lia |].
Qed.

Lemma swap_entry_in va : 0 <= va < 2 ^ 48 -> table_at (ents st) l va = Some (tab k) -> ix l va = i ->
  entry m' l va = Some v.
Proof.
  intros Hva Ht Hix. unfold entry. pose proof (ok_level _ _ _ _ HI _ _ _ Hk).
  rewrite swap_table_at, Ht by done. cbn. rewrite Hix. apply lookup_insert_eq.
Qed.

Lemma swap_entry_out l1 va : 0 <= va < 2 ^ 48 -> (l1 <= 3)%nat ->
  ~ (l1 = l /\ sb l va = b + i * 2 ^ sh l) ->
  entry m' l1 va = entry (ents st) l1 va.
Proof.
  intros Hva Hl1 Hout. unfold entry. rewrite swap_table_at by done.
  destruct (table_at (ents st) l1 va) as [t|] eqn:Ht; [| done]. cbn.
  apply lookup_insert_ne. intros Heq. apply Hout.
  destruct (read_slot st G l1 va t k _ i HI Hva Hk Hi ltac:(lia) Ht (eq_sym Heq)) as [[= -> ->] ?].
  split; [done |]. rewrite tb_sb by done. congruence.
Qed.

Lemma swap_ok : entry_ok pagetables G l b i v -> tables_ok (set_ents st m') G.
Proof.
  intros Hv. constructor; cbn [ents set_ents next_pagetable].
  - apply (ok_base _ _ _ _ HI).
  - apply (ok_next _ _ _ _ HI).
  - apply (ok_root _ _ _ _ HI).
  - apply (ok_level _ _ _ _ HI).
  - intros k' i' Hk' Hi'. destruct (decide (ea k i = ea k' i')) as [-> | Hne].
    + rewrite lookup_insert_eq. by eexists.
    + rewrite lookup_insert_ne by done. by apply (ok_dom _ _ _ _ HI).
  - intros k' l' b' i' e' Hk' Hi' He'.
    destruct (decide (ea k i = ea k' i')) as [Heq | Hne].
    + destruct (ea_inj _ _ _ _ _ Hi Hi' Heq) as [<- <-]. rewrite lookup_insert_eq in He'.
      rewrite Hk in Hk'. by simplify_eq.
    + rewrite lookup_insert_ne in He' by done. by apply (ok_entry _ _ _ _ HI k').
Qed.
End Swap.

(** ** A new table *)
Lemma clear_table_ok st t : (forall i, 0 <= i < 512 -> is_Some (ents st !! (t + 8 * i))) ->
  exists st', clear_table st t = Ok st' /\ next_pagetable st' = next_pagetable st /\
    tlbis st' = tlbis st /\
    (forall i, 0 <= i < 512 -> ents st' !! (t + 8 * i) = Some 0) /\
    (forall a, (forall i, 0 <= i < 512 -> a <> t + 8 * i) -> ents st' !! a = ents st !! a).
Proof.
  intros Hdom. unfold clear_table.
  destruct (foldM_range (fun n x =>
    next_pagetable x = next_pagetable st /\ tlbis x = tlbis st /\
    (forall i, 0 <= i < n -> ents x !! (t + 8 * i) = Some 0) /\
    (forall a, (forall i, 0 <= i < n -> a <> t + 8 * i) -> ents x !! a = ents st !! a))
    (fun st i => wr st (t + 8 * i) 0) st 0 512) as (st' & Heq & HI); [lia | | | eauto].
  - repeat split; intros; lia.
  - intros i x Hi (Hn & Ht & Hz & Ho).
    destruct (Hdom i Hi) as [w Hw].
    assert (ents x !! (t + 8 * i) = Some w) as Hx by (rewrite Ho by lia; done).
    rewrite (wr_ok x _ 0 w Hx). eexists. split; [done |]. cbn. split; [done |]. split; [done |]. split.
    + intros j Hj. destruct (decide (j = i)) as [-> | Hne]; [apply lookup_insert_eq |].
      rewrite lookup_insert_ne by lia. apply Hz. lia.
    + intros a Ha. rewrite lookup_insert_ne by (intros <-; apply (Ha i); lia).
      apply Ho. intros j Hj. apply Ha. lia.
Qed.

Section Link.
Context (st : mmu_state) (G : list (nat * Z)) (k l : nat) (b i e : Z).
Hypothesis HI : tables_ok st G.
Hypothesis Hk : G !! k = Some (l, b).
Hypothesis Hl : (l < 3)%nat.
Hypothesis Hi : 0 <= i < 512.
Hypothesis He : ents st !! ea k i = Some e.
Hypothesis Hv : valid e = false.
Hypothesis Hroom : next_pagetable st < num_pagetables.

Local Abbreviation n := (length G).
Local Abbreviation G' := (G ++ [(S l, b + i * 2 ^ sh l)]).

Lemma tab_next : pagetables + 4096 * next_pagetable st = tab n.
Proof. destruct (ok_next _ _ _ _ HI) as [-> _]. done. Qed.

Lemma tab_bounds j : Z.of_nat j < num_pagetables -> 0 <= tab j < 2 ^ 48 /\ tab j mod 4096 = 0.
Proof.
  intros Hj. destruct (ok_base _ _ _ _ HI) as (H1 & H2 & H3 & H4). unfold tab. split; [lia | dlia].
Qed.

Lemma tab_next_bounds : 0 <= tab n < 2 ^ 48 /\ tab n mod 4096 = 0.
Proof. apply tab_bounds. destruct (ok_next _ _ _ _ HI). lia. Qed.

Lemma link_desc : Z.lor PGTAB_SUBTABLE (tab n) = tab n + 3 /\
  Z.lor (extr_addr (tab n)) PGTAB_SUBTABLE = tab n + 3 /\
  extr_addr (tab n + 3) = tab n /\ is_subtable (tab n + 3) = true.
Proof.
  destruct tab_next_bounds as [Hb Hm]. unfold PGTAB_SUBTABLE.
  assert (Z.lor 3 (tab n) = tab n + 3) as H3.
  { replace (tab n) with (Z.shiftl (tab n / 2 ^ 12) 12) at 1
      by (rewrite Z.shiftl_mul_pow2 by lia; dlia).
    rewrite lor_shiftl_add by lia. dlia. }
  assert (extr_addr (tab n) = tab n) as Hx.
  { rewrite <- (Z.add_0_r (tab n)) at 1. by apply extr_addr_or; [.. | lia]. }
  split; [done |]. split; [by rewrite Hx, Z.lor_comm |]. split; [apply extr_addr_or; [done | done | lia] |].
  unfold is_subtable. change 3 with (2 ^ 2 - 1) at 2. rewrite land_ones_mod by lia. apply Z.eqb_eq. dlia.
Qed.

(** What both versions of the code do. *)
Record linked (st' : mmu_state) : Prop := {
  lk_next : next_pagetable st' = next_pagetable st + 1;
  lk_tlbis : tlbis st' = tlbis st;
  lk_link : ents st' !! ea k i = Some (tab n + 3);
  lk_zero : forall j, 0 <= j < 512 -> ents st' !! ea n j = Some 0;
  lk_old : forall k' j, k' <> n -> 0 <= j < 512 -> (k', j) <> (k, i) ->
    ents st' !! ea k' j = ents st !! ea k' j
}.

Lemma link_run : exists st1 st',
  clear_table (set_next st (u32 (next_pagetable st + 1))) (tab n) = Ok st1 /\
  wr st1 (ea k i) (tab n + 3) = Ok st' /\ linked st'.
Proof.
  destruct (ok_next _ _ _ _ HI) as [Hn Hle]. destruct (ok_base _ _ _ _ HI) as (_ & _ & _ & H32).
  destruct (clear_table_ok (set_next st (u32 (next_pagetable st + 1))) (tab n))
    as (st1 & Hc & Hn1 & Ht1 & Hz & Ho).
  { intros j Hj. apply (ok_dom _ _ _ _ HI n j); lia. }
  assert (k < n)%nat as Hkn by by eapply lookup_lt_Some.
  assert (forall k' j j', k' <> n -> 0 <= j < 512 -> 0 <= j' < 512 -> ea k' j <> tab n + 8 * j') as Hd.
  { intros k' j j' Hk' Hj Hj' Heq. by destruct (ea_inj _ k' j n j' Hj Hj' Heq). }
  exists st1. rewrite (wr_ok st1 _ _ e) by (rewrite Ho; [done | intros; apply Hd; [lia | done..]]).
  eexists. split; [done |]. split; [done |].
  constructor; cbn [next_pagetable tlbis ents set_ents].
  - rewrite Hn1. cbn. rewrite u32_small; lia.
  - done.
  - apply lookup_insert_eq.
  - intros j Hj. rewrite lookup_insert_ne; [by apply Hz |].
    intros Heq. destruct (ea_inj _ k i n j Hi Hj Heq). lia.
  - intros k' j Hk' Hj Hne. rewrite lookup_insert_ne.
    + apply Ho. intros j' Hj'. by apply Hd.
    + intros Heq. destruct (ea_inj _ k i k' j Hi Hj Heq). by subst.
Qed.

Context (st' : mmu_state) (HL : linked st').

(** The translations that go through the descriptor. *)
Definition through (va : Z) : Prop := table_at (ents st) l va = Some (tab k) /\ ix l va = i.

#[local] Instance through_dec va : Decision (through va).
Proof. unfold through. apply _. Defined.

Lemma link_read l' va t : 0 <= va < 2 ^ 48 -> (l' <= 3)%nat -> table_at (ents st) l' va = Some t ->
  ~ (l' = l /\ through va) -> ents st' !! (t + 8 * ix l' va) = ents st !! (t + 8 * ix l' va).
Proof.
  intros Hva Hl' Ht Hout.
  destruct (table_at_G _ _ st G l' va t HI Hva Hl' Ht) as (k' & -> & Hk').
  apply (lk_old _ HL); [apply lookup_lt_Some in Hk'; lia | apply ix_range |].
  intros [= -> Hix]. rewrite Hk in Hk'. simplify_eq. by apply Hout.
Qed.

Lemma link_table_out l1 va : 0 <= va < 2 ^ 48 -> (l1 <= 3)%nat -> ~ ((l < l1)%nat /\ through va) ->
  table_at (ents st') l1 va = table_at (ents st) l1 va.
Proof.
  intros Hva Hl1 Hout. apply table_at_local. intros l' t Hl' Ht.
  apply link_read; [done | lia | done |]. intros [-> H]. by apply Hout.
Qed.

Lemma link_entry_out l1 va : 0 <= va < 2 ^ 48 -> (l1 <= 3)%nat -> ~ ((l <= l1)%nat /\ through va) ->
  entry (ents st') l1 va = entry (ents st) l1 va.
Proof.
  intros Hva Hl1 Hout. apply entry_local. intros l' t Hl' Ht.
  apply link_read; [done | lia | done |]. intros [-> H]. by apply Hout.
Qed.

Lemma link_table_in va : 0 <= va < 2 ^ 48 -> through va ->
  table_at (ents st') (S l) va = Some (tab n) /\
  entry (ents st') l va = Some (tab n + 3) /\ entry (ents st') (S l) va = Some 0.
Proof.
  intros Hva [Ht Hix]. destruct link_desc as (_ & _ & Hx & Hs).
  assert (table_at (ents st') l va = Some (tab k)) as Ht0 by (rewrite link_table_out; [done | done | lia | lia]).
  assert (ents st' !! (tab k + 8 * ix l va) = Some (tab n + 3)) as Hl'.
  { rewrite Hix. apply (lk_link _ HL). }
  assert (table_at (ents st') (S l) va = Some (tab n)) as Ht'.
  { cbn [MmuTables.table_at]. rewrite Ht0. cbn. rewrite Hl'. cbn. by rewrite Hs, Hx. }
  split; [done |]. unfold entry. rewrite Ht0, Ht'. cbn. rewrite Hl'. split; [done |].
  apply (lk_zero _ HL), ix_range.
Qed.

Lemma link_ok : tables_ok st' G'.
Proof.
  destruct (ok_next _ _ _ _ HI) as [Hn Hle]. destruct link_desc as (_ & _ & Hx & Hs).
  assert (k < n)%nat as Hkn by by eapply lookup_lt_Some.
  constructor.
  - apply (ok_base _ _ _ _ HI).
  - rewrite (lk_next _ HL), length_app. simpl. lia.
  - apply lookup_app_l_Some, (ok_root _ _ _ _ HI).
  - intros k' l' b' [H | [Hge H]]%lookup_app_Some; [by eapply (ok_level _ _ _ _ HI) |].
    apply list_lookup_singleton_Some in H as [_ [= <- <-]]. lia.
  - intros k' j Hk' Hj. destruct (decide (k' = n)) as [-> | Hne].
    { rewrite (lk_zero _ HL) by done. by eexists. }
    destruct (decide ((k', j) = (k, i))) as [[= -> ->] | Hne'].
    { rewrite (lk_link _ HL). by eexists. }
    rewrite (lk_old _ HL) by done. by apply (ok_dom _ _ _ _ HI).
  - intros k' l' b' j e' Hk' Hj He'. apply lookup_app_Some in Hk' as [Hk' | [Hge H]].
    + assert (k' < n)%nat by by eapply lookup_lt_Some.
      destruct (decide ((k', j) = (k, i))) as [[= -> ->] | Hne'].
      * rewrite (lk_link _ HL) in He'. rewrite Hk in Hk'. simplify_eq.
        right. right. split; [done |]. split; [done |]. exists n. split; [done |].
        rewrite lookup_app_r, Nat.sub_diag by lia. done.
      * rewrite (lk_old _ HL) in He' by (done || lia).
        destruct (ok_entry _ _ _ _ HI k' l' b' j e' Hk' Hj He') as [? | [? | (? & ? & k2 & ? & ?)]];
          [by left | by right; left |].
        right. right. split; [done |]. split; [done |]. exists k2. split; [done |].
        by apply lookup_app_l_Some.
    + apply list_lookup_singleton_Some in H as [Hz [= <- <-]]. assert (k' = n) as -> by lia.
      rewrite (lk_zero _ HL) in He' by done. injection He' as <-. by left.
Qed.

Lemma through_entry va : through va -> entry (ents st) l va = Some e.
Proof. intros [Ht Hix]. unfold entry. rewrite Ht. cbn. rewrite Hix. apply He. Qed.

(** No translation changes. *)
Lemma link_leaf va l1 e1 : 0 <= va < 2 ^ 48 -> leaf (ents st') va l1 e1 <-> leaf (ents st) va l1 e1.
Proof.
  intros Hva. destruct (decide (through va /\ (l <= l1)%nat)) as [[Hin Hge] | Hout].
  - destruct (link_table_in va Hva Hin) as (_ & Hl' & HS). pose proof (through_entry va Hin) as Hl0.
    destruct link_desc as (_ & _ & _ & Hs).
    split; intros (H1 & H2 & H3); exfalso.
    + destruct (decide (l1 = l)) as [-> | Hne1].
      { rewrite Hl' in H2. injection H2 as <-. by rewrite (leaf_not_subtable l) in Hs by done. }
      destruct (decide (l1 = S l)) as [-> | Hne2].
      { rewrite HS in H2. injection H2 as <-. apply leaf_valid in H3. done. }
      by eapply (entry_end _ (ents st') (S l) l1); [lia | exact HS | |].
    + destruct (decide (l1 = l)) as [-> | Hne1].
      { rewrite Hl0 in H2. injection H2 as <-. apply leaf_valid in H3. congruence. }
      eapply (entry_end _ (ents st) l l1); [lia | exact Hl0 | | exact H2].
      by apply invalid_not_subtable.
  - split; intros (H1 & H2 & H3); (split; [done |]; split; [| done]);
      [rewrite <- link_entry_out | rewrite link_entry_out]; (done || tauto).
Qed.

(** What is unmapped stays unmapped; only the slot itself is no longer empty. *)
Lemma link_free l1 va : 0 <= va < 2 ^ 48 -> (l1 <= 3)%nat -> ~ (l1 = l /\ through va) ->
  free (ents st) l1 va -> free (ents st') l1 va.
Proof.
  intros Hva Hl1 Hne (l2 & e2 & Hl2 & He2 & Hv2).
  destruct (decide (through va /\ (l <= l2)%nat)) as [[Hin Hge] | Hout].
  - destruct (link_table_in va Hva Hin) as (_ & _ & HS).
    exists (S l), 0. split; [| done]. assert (l1 <> l) by tauto. lia.
  - exists l2, e2. split; [done |]. split; [| done]. rewrite link_entry_out; [done | done | lia | tauto].
Qed.

Lemma link_grow l1 va t : 0 <= va < 2 ^ 48 -> (l1 <= 3)%nat ->
  table_at (ents st) l1 va = Some t -> table_at (ents st') l1 va = Some t.
Proof.
  intros Hva Hl1 Ht. rewrite link_table_out; [done | done | done |]. intros [Hlt Hin].
  pose proof (through_entry va Hin) as Hl0.
  destruct (entry_above _ (ents st) l1 l va t Hlt Ht) as (e2 & He2 & Hs & _).
  rewrite Hl0 in He2. injection He2 as <-. apply subtable_valid in Hs. congruence.
Qed.
End Link.
End Store.
