(* ===== verification/MmuMap.v ===== *)
(** * Mapping a range

    The state of a mapping loop between two descriptors is [progress]; the two
    things that a round does, to descend ([deeper_*]) and to write a descriptor
    ([write_ok]), keep it.  Both versions of the loop are sequences of these:
    the assembly routine for every range ([multimap_correct]), the C version
    for ranges whose displacement is aligned ([reference_correct]). *)
From S2P Require Export MmuStore.

(** ** What a mapping does *)
Section Spec.
(** [first, stop) is mapped with the displacement [delta]. *)
Context (first stop delta : Z).

(** The slot of level [l] that holds [va] can be mapped by one descriptor. *)
Definition mappable (l : nat) (va : Z) : Prop :=
  (1 <= l <= 3)%nat /\ first <= sb l va /\ sb l va + 2 ^ sh l <= stop /\ delta mod 2 ^ sh l = 0.

(** The level at which [va] is mapped: the largest descriptor that fits. *)
Definition greedy (l : nat) (va : Z) : Prop := mappable l va /\ ~ mappable (l - 1) va.

#[global] Instance mappable_dec l va : Decision (mappable l va).
Proof. unfold mappable. apply _. Defined.

Lemma mappable_down l l' va : (1 <= l <= l')%nat -> (l' <= 3)%nat -> mappable l va -> mappable l' va.
Proof.
  intros Hl Hl' (_ & H1 & H2 & H3). pose proof (sb_nested l l' va ltac:(lia) Hl').
  split; [lia |]. split; [lia |]. split; [lia |].
  apply Z.mod_divide in H3; [| pose proof (sh_range l ltac:(lia)); lia].
  apply Z.mod_divide; [pose proof (sh_range l' Hl'); lia |].
  eapply Z.divide_trans; [| done]. exists (2 ^ (sh l - sh l')).
  rewrite <- Z.pow_add_r by (unfold sh; lia). f_equal. lia.
Qed.

Lemma mappable_same l va w : sb l va = sb l w -> mappable l va -> mappable l w.
Proof. unfold mappable. by intros ->. Qed.

Lemma mappable_bounds l va : mappable l va -> first <= va < stop.
Proof. intros (Hl & H1 & H2 & _). pose proof (sb_le l va ltac:(lia)). lia. Qed.

Lemma mappable_page va : first mod 4096 = 0 -> stop mod 4096 = 0 -> delta mod 4096 = 0 ->
  first <= va < stop -> mappable 3 va.
Proof.
  intros Hf Hs Hd Hva. split; [lia |]. unfold sb. change (2 ^ sh 3) with 4096.
  split; [dlia |]. split; [dlia | done].
Qed.

(** When no mappable slot straddles [addr] and the slot of [addr] is handled,
    none straddles its end. *)
Lemma split_next l addr :
  (forall n va, mappable n va -> sb n va < addr -> sb n va + 2 ^ sh n <= addr) ->
  (forall l', (l' < l)%nat -> ~ mappable l' addr) ->
  (l <= 3)%nat -> sb l addr = addr ->
  forall n va, mappable n va -> sb n va < addr + 2 ^ sh l -> sb n va + 2 ^ sh n <= addr + 2 ^ sh l.
Proof.
  intros Hsplit Habove Hl Hsb n va Hn Hlt.
  assert (1 <= n <= 3)%nat as Hn' by (by destruct Hn).
  pose proof (sh_range l ltac:(lia)). pose proof (sb_le n va ltac:(lia)) as Hva.
  destruct (decide (sb n va < addr)) as [Hb | Hb].
  { pose proof (Hsplit n va Hn Hb). lia. }
  assert (sb l (sb n va) = addr) as Hx by (rewrite <- Hsb; apply sb_same; lia).
  assert (sb n (sb n va) = sb n va) as Hid by (apply sb_same; lia).
  destruct (decide (l <= n)%nat) as [Hle | Hgt].
  - pose proof (sb_nested l n (sb n va) Hle ltac:(lia)) as [_ H2]. rewrite Hid in H2. lia.
  - exfalso. apply (Habove n ltac:(lia)). eapply mappable_same; [| exact Hn].
    rewrite <- Hid. apply (sb_same_up n l); [lia | lia |]. by rewrite Hx.
Qed.

(** The slot of [addr] is mapped from its start on. *)
Lemma mappable_start n addr :
  (forall n va, mappable n va -> sb n va < addr -> sb n va + 2 ^ sh n <= addr) ->
  mappable n addr -> sb n addr = addr.
Proof.
  intros Hsplit Hn. pose proof (sb_le n addr ltac:(destruct Hn; lia)).
  destruct (decide (sb n addr < addr)) as [Hs |]; [| lia]. pose proof (Hsplit n addr Hn Hs). lia.
Qed.

Lemma greedy_exists va : mappable 3 va -> exists l, greedy l va.
Proof.
  intros H3. destruct (decide (mappable 1 va)) as [H1 | H1].
  { exists 1%nat. split; [done |]. intros [? _]. lia. }
  destruct (decide (mappable 2 va)); [by exists 2%nat | by exists 3%nat].
Qed.

Lemma greedy_unique l l' va : greedy l va -> greedy l' va -> l = l'.
Proof.
  intros [H1 H2] [H1' H2']. assert (1 <= l <= 3)%nat by (by destruct H1).
  assert (1 <= l' <= 3)%nat by (by destruct H1').
  destruct (Nat.lt_trichotomy l l') as [Hlt | [? | Hlt]]; [| done |]; exfalso.
  - apply H2'. by apply (mappable_down l); [lia | lia |].
  - apply H2. by apply (mappable_down l'); [lia | lia |].
Qed.

(** An aligned displacement does not restrict the levels. *)
Lemma mappable_delta l va : delta mod 2 ^ 30 = 0 ->
  mappable l va <-> (1 <= l <= 3)%nat /\ first <= sb l va /\ sb l va + 2 ^ sh l <= stop.
Proof.
  intros Hd. split; [by intros (? & ? & ? & _) |]. intros (Hl & H1 & H2). do 3 (split; [done |]).
  apply Z.mod_divide in Hd; [| lia]. apply Z.mod_divide; [pose proof (sh_range l ltac:(lia)); lia |].
  eapply Z.divide_trans; [| exact Hd]. exists (2 ^ (30 - sh l)).
  rewrite <- Z.pow_add_r by (unfold sh; lia). f_equal. lia.
Qed.

(** Slots that get a table of their own: they are mapped in part. *)
Definition needs_table (pagetables : Z) (m : Zmap Z) (s : nat * Z) : Prop :=
  (s.1 < 3)%nat /\ sb s.1 s.2 = s.2 /\ 0 <= s.2 < stop /\ first < s.2 + 2 ^ sh s.1 /\
  ~ mappable s.1 s.2 /\ table_at pagetables m (S s.1) s.2 = None.

(** The tables left are enough: however many slots need one, they fit. *)
Definition room (pagetables num_pagetables : Z) (st : mmu_state) : Prop :=
  forall A, NoDup A -> Forall (needs_table pagetables (ents st)) A ->
    next_pagetable st + zlen A <= num_pagetables.

End Spec.

Section Map.
Context (pagetables num_pagetables : Z).
Abbreviation tab := (tab pagetables).
Abbreviation ea := (ea pagetables).
Abbreviation table_at := (table_at pagetables).
Abbreviation entry := (entry pagetables).
Abbreviation leaf := (leaf pagetables).
Abbreviation free := (free pagetables).
Abbreviation tables_ok := (tables_ok pagetables num_pagetables).

Context (first stop paddr attr : Z) (st0 : mmu_state) (G0 : list (nat * Z)).
Abbreviation delta := (paddr - first).
Abbreviation mappable := (mappable first stop delta).
Abbreviation greedy := (greedy first stop delta).
Abbreviation needs := (needs_table first stop delta pagetables (ents st0)).

(** The descriptor of level [l] for the slot that starts at [b]. *)
Definition leaf_desc (l : nat) (b : Z) : Z :=
  paddr + (b - first) + attr - (if (l =? 3)%nat then 0 else 2).

Hypothesis Hrange : 0 <= first < stop /\ stop <= 2 ^ 48.
Hypothesis Halign : first mod 4096 = 0 /\ stop mod 4096 = 0 /\ paddr mod 4096 = 0.
Hypothesis Hpaddr : 0 <= paddr /\ paddr + (stop - first) <= 2 ^ 48.
Hypothesis Hattr : 0 <= attr < 4096 /\ attr mod 4 = 3.
Hypothesis HI0 : tables_ok st0 G0.
Hypothesis Hfree : forall l va, mappable l va -> free (ents st0) l va.
Hypothesis Hroom : room first stop delta pagetables num_pagetables st0.

(** [first, addr) is mapped, nothing else has changed. *)
Record progress (st : mmu_state) (G : list (nat * Z)) (addr : Z) : Prop := {
  p_ok : tables_ok st G;
  p_range : first <= addr <= stop /\ addr mod 4096 = 0;
  p_done : forall va, first <= va < addr ->
    exists l, greedy l va /\ leaf (ents st) va l (leaf_desc l (sb l va));
  p_frame : forall va l e, 0 <= va < 2 ^ 48 -> ~ (first <= va < addr) ->
    leaf (ents st) va l e <-> leaf (ents st0) va l e;
  p_free : forall l va, mappable l va -> addr <= sb l va -> free (ents st) l va;
  p_split : forall l va, mappable l va -> sb l va < addr -> sb l va + 2 ^ sh l <= addr;
  p_grow : forall l va t, 0 <= va < 2 ^ 48 -> (l <= 3)%nat ->
    table_at (ents st0) l va = Some t -> table_at (ents st) l va = Some t;
  p_alloc : exists A, NoDup A /\ Forall needs A /\
    Forall (fun s => is_Some (table_at (ents st) (S s.1) s.2)) A /\
    next_pagetable st = next_pagetable st0 + zlen A
}.

(** The table pointers of the levels down to [l] are the ones for [va], which
    cannot be mapped at a level above. *)
Record path (st : mmu_state) (tabs : list Z) (l : nat) (va : Z) : Prop := {
  t_level : (l <= 3)%nat;
  t_len : length tabs = 4%nat;
  t_tabs : forall l', (l' <= l)%nat -> exists t, tabs !! l' = Some t /\ table_at (ents st) l' va = Some t;
  t_above : forall l', (l' < l)%nat -> ~ mappable l' va
}.

Lemma progress_start : progress st0 G0 first.
Proof.
  constructor; try done.
  - split; [lia | tauto].
  - intros va Hva. lia.
  - intros l va Hm _. by apply Hfree.
  - intros l va (_ & H & _) ?. lia.
  - exists []. repeat split; try constructor. simpl. lia.
Qed.

Lemma path_start va : path st0 [pagetables; 0; 0; 0] 0 va.
Proof.
  constructor; [lia | done | | lia]. intros l' Hl'. assert (l' = 0%nat) as -> by lia.
  by exists pagetables.
Qed.

(** ** The descriptor that a round looks at *)
Lemma free_path m n l va t e : free m n va -> (l <= n)%nat -> table_at m l va = Some t ->
  entry m l va = Some e -> valid e = false \/ ((l < n)%nat /\ is_subtable e = true).
Proof.
  intros (l' & e' & Hl' & He' & Hv) Hn Ht He.
  destruct (Nat.lt_trichotomy l' l) as [Hlt | [-> | Hlt]].
  - destruct (entry_above _ m l l' va t Hlt Ht) as (e2 & He2 & Hs & _).
    rewrite He' in He2. injection He2 as <-. apply subtable_valid in Hs. congruence.
  - left. congruence.
  - right. split; [lia |]. unfold entry in He'. destruct (table_at m l' va) as [t'|] eqn:Ht'; [| done].
    destruct (entry_above _ m l' l va t' Hlt Ht') as (e2 & He2 & Hs & _). congruence.
Qed.

Lemma at_entry st G tabs l addr : progress st G addr -> path st tabs l addr -> addr < stop ->
  exists k e, tabs !! l = Some (tab k) /\ table_at (ents st) l addr = Some (tab k) /\
    G !! k = Some (l, tb l addr) /\ ents st !! ea k (ix l addr) = Some e /\
    entry (ents st) l addr = Some e /\
    (valid e = false \/ ((l < 3)%nat /\ is_subtable e = true)) /\
    (mappable l addr -> sb l addr = addr /\ valid e = false).
Proof.
  intros HP HT Hlt. destruct (p_range _ _ _ HP) as [Hr Hm4].
  destruct (t_tabs _ _ _ _ HT l ltac:(lia)) as (t & Htt & Ht).
  destruct (entry_some _ _ st G l addr t (p_ok _ _ _ HP) ltac:(lia) (t_level _ _ _ _ HT) Ht)
    as (k & e & -> & Hk & He & Hen & _).
  exists k, e. do 5 (split; [done |]).
  assert (forall n, mappable n addr -> sb n addr = addr) as Hsb.
  { intros n. apply mappable_start, (p_split _ _ _ HP). }
  split.
  - assert (mappable 3 addr) as H3 by (apply mappable_page; try tauto; dlia).
    eapply free_path; [| apply (t_level _ _ _ _ HT) | exact Ht | done].
    apply (p_free _ _ _ HP); [done |]. rewrite Hsb by done. lia.
  - intros Hmp. split; [by apply Hsb |].
    destruct (free_path (ents st) l l addr (tab k) e) as [? | [? _]]; [| lia | done | done | done | lia].
    apply (p_free _ _ _ HP); [done |]. rewrite Hsb by done. lia.
Qed.

(** ** Moving the path *)
Lemma path_same st tabs l va w : 0 <= va < 2 ^ 48 -> 0 <= w < 2 ^ 48 -> tb l va = tb l w ->
  path st tabs l va -> path st tabs l w.
Proof.
  intros Hva Hw Htb HT. pose proof (t_level _ _ _ _ HT) as Hl.
  assert (forall l', (l' < l)%nat -> sb l' va = sb l' w) as Hsb.
  { intros l' Hl'. destruct l as [|l]; [lia |]. rewrite !tb_succ in Htb by lia.
    by apply (sb_same_up l' l); [lia | lia |]. }
  assert (forall l', (l' <= l)%nat -> tb l' va = tb l' w) as Htbs.
  { intros [|l'] Hl'; [| rewrite !tb_succ by lia; apply Hsb; lia].
    unfold tb. rewrite !Z.div_small by (unfold sh; lia). done. }
  constructor; [done | apply (t_len _ _ _ _ HT) | |].
  - intros l' Hl'. destruct (t_tabs _ _ _ _ HT l' Hl') as (t & H1 & H2). exists t. split; [done |].
    rewrite <- H2. symmetry. apply table_at_cong; [lia | by apply Htbs | done | done].
  - intros l' Hl' Hm. apply (t_above _ _ _ _ HT l' Hl'). eapply mappable_same; [| done].
    symmetry. by apply Hsb.
Qed.

Lemma path_pop st tabs l va : path st tabs (S l) va -> path st tabs l va.
Proof.
  intros HT. constructor.
  - pose proof (t_level _ _ _ _ HT). lia.
  - apply (t_len _ _ _ _ HT).
  - intros l' Hl'. apply (t_tabs _ _ _ _ HT). lia.
  - intros l' Hl'. apply (t_above _ _ _ _ HT). lia.
Qed.

Lemma tb_next l a : (l <= 3)%nat -> a mod 2 ^ sh l = 0 -> ix l a <> 0 -> tb l (a - 1) = tb l a.
Proof.
  intros Hl Ha Hix. pose proof (sh_range l Hl). unfold tb, ix in *. rewrite pow_cover by done.
  f_equal. replace (512 * 2 ^ sh l) with (2 ^ sh l * 512) by lia. rewrite <- !Z.div_div by lia.
  assert ((a - 1) / 2 ^ sh l = a / 2 ^ sh l - 1) as ->.
  { symmetry. apply (Z.div_unique _ _ _ (2 ^ sh l - 1)); [lia |].
    pose proof (Z.div_mod a (2 ^ sh l) ltac:(lia)). lia. }
  set (q := a / 2 ^ sh l) in *. clearbody q. dlia.
Qed.

(** ** Descending *)
Lemma path_extend st st' tabs l addr t : (l < 3)%nat ->
  path st tabs l addr -> 0 <= addr < 2 ^ 48 ->
  (forall l' t, (l' <= l)%nat -> table_at (ents st) l' addr = Some t -> table_at (ents st') l' addr = Some t) ->
  table_at (ents st') (S l) addr = Some t -> ~ mappable l addr ->
  path st' (<[S l := t]> tabs) (S l) addr.
Proof.
  intros Hl HT Ha Hkeep Ht Hm. pose proof (t_len _ _ _ _ HT) as Hlen.
  constructor; [lia | by rewrite length_insert | |].
  - intros l' Hl'. destruct (decide (l' = S l)) as [-> | Hne].
    + exists t. split; [apply list_lookup_insert_eq; lia | done].
    + destruct (t_tabs _ _ _ _ HT l' ltac:(lia)) as (t' & H1 & H2). exists t'.
      rewrite list_lookup_insert_ne by lia. split; [done |]. apply Hkeep; [lia | done].
  - intros l' Hl'. destruct (decide (l' = l)) as [-> | Hne]; [done |].
    apply (t_above _ _ _ _ HT). lia.
Qed.

Lemma deeper_old st G tabs l addr k e : progress st G addr -> path st tabs l addr -> addr < stop ->
  table_at (ents st) l addr = Some (tab k) -> ents st !! ea k (ix l addr) = Some e ->
  (l < 3)%nat -> is_subtable e = true -> ~ mappable l addr ->
  path st (<[S l := extr_addr e]> tabs) (S l) addr.
Proof.
  intros HP HT Hlt Ht He Hl Hs Hm. destruct (p_range _ _ _ HP).
  apply (path_extend st st); try done; [lia |].
  cbn [MmuTables.table_at]. rewrite Ht. cbn. unfold ea in He. rewrite He. cbn. by rewrite Hs.
Qed.

(** The slot that a round gives a table had none, and is one of those counted. *)
Lemma alloc_room st G l addr k e : progress st G addr -> addr < stop -> (l < 3)%nat ->
  table_at (ents st) l addr = Some (tab k) -> ents st !! ea k (ix l addr) = Some e ->
  valid e = false -> ~ mappable l addr ->
  exists A, NoDup ((l, sb l addr) :: A) /\ Forall needs ((l, sb l addr) :: A) /\
    Forall (fun s => is_Some (table_at (ents st) (S s.1) s.2)) A /\
    next_pagetable st = next_pagetable st0 + zlen A.
Proof.
  intros HP Hlt Hl Ht He Hv Hm. destruct (p_range _ _ _ HP) as [Hr _].
  destruct (p_alloc _ _ _ HP) as (A & Hnd & Hneed & Hhas & Hn).
  pose proof (sb_le l addr ltac:(lia)) as Hsb.
  assert (0 <= sb l addr) as H0 by (apply Z.mul_nonneg_nonneg; [apply Z.div_pos | ]; lia).
  assert (sb l (sb l addr) = sb l addr) as Hsb2 by (apply sb_same; lia).
  assert (table_at (ents st) (S l) (sb l addr) = None) as Hnone.
  { rewrite (table_at_cong _ _ (S l) _ addr); [| lia | by rewrite !tb_succ by lia | lia | lia].
    cbn [MmuTables.table_at]. rewrite Ht. cbn. unfold ea in He. rewrite He. cbn.
    by rewrite invalid_not_subtable. }
  exists A. split; [| split; [| done]].
  - constructor; [| done]. intros Hin. rewrite Forall_forall in Hhas.
    specialize (Hhas _ Hin). cbn [fst snd] in Hhas. rewrite Hnone in Hhas. by destruct Hhas.
  - constructor; [| done]. unfold needs_table; cbn [fst snd]. split; [done |]. split; [done |].
    split; [lia |]. split; [lia |]. split.
    + intros Hm'. apply Hm. by eapply mappable_same.
    + destruct (table_at (ents st0) (S l) (sb l addr)) as [t|] eqn:Ht0; [| done].
      apply (p_grow _ _ _ HP) in Ht0; [congruence | lia | lia].
Qed.

Lemma deeper_new st G tabs l addr k e : progress st G addr -> path st tabs l addr -> addr < stop ->
  table_at (ents st) l addr = Some (tab k) -> ents st !! ea k (ix l addr) = Some e ->
  (l < 3)%nat -> G !! k = Some (l, tb l addr) -> valid e = false -> ~ mappable l addr ->
  next_pagetable st < num_pagetables /\
  forall st', linked pagetables st G k (ix l addr) st' ->
    progress st' (G ++ [(S l, tb l addr + ix l addr * 2 ^ sh l)]) addr /\
    path st' (<[S l := tab (length G)]> tabs) (S l) addr.
Proof.
  intros HP HT Hlt Ht He Hl Hk Hv Hm. destruct (p_range _ _ _ HP) as [Hr Hr4].
  destruct (alloc_room st G l addr k e HP Hlt Hl Ht He Hv Hm) as (A & Hnd & Hneed & Hhas & Hn).
  pose proof (Hroom _ Hnd Hneed) as Hfit. cbn [length] in Hfit.
  assert (next_pagetable st < num_pagetables) as Hlt' by lia. split; [done |]. intros st' HL.
  pose proof (p_ok _ _ _ HP) as HI. pose proof (ix_range l addr) as Hix.
  assert (through pagetables st k l (ix l addr) addr) as Hthr by done.
  destruct (link_table_in _ _ st G k l (tb l addr) (ix l addr) HI Hk Hl Hix Hlt' st' HL addr ltac:(lia) Hthr)
    as (HtS & _ & _).
  assert (forall l1 va t, 0 <= va < 2 ^ 48 -> (l1 <= 3)%nat ->
    table_at (ents st) l1 va = Some t -> table_at (ents st') l1 va = Some t) as Hgrow.
  { intros l1 va t. by eapply link_grow. }
  split.
  2: { apply (path_extend st); try done; [lia |]. intros l' t Hl' Ht'. apply Hgrow; [lia | lia | done]. }
  assert (forall va l1 e1, 0 <= va < 2 ^ 48 -> leaf (ents st') va l1 e1 <-> leaf (ents st) va l1 e1) as Hleaf.
  { intros va l1 e1 Hva. by eapply link_leaf. }
  constructor.
  - by eapply link_ok.
  - done.
  - intros va Hva. destruct (p_done _ _ _ HP va Hva) as (lv & Hg & Hlf). exists lv. split; [done |].
    apply Hleaf; [lia | done].
  - intros va l1 e1 Hva Hout. rewrite Hleaf by done. by apply (p_frame _ _ _ HP).
  - intros l1 va Hmp Hsb. pose proof (mappable_bounds _ _ _ _ _ Hmp).
    eapply (link_free _ _ st G k l); try done; [lia | destruct Hmp; lia | | by apply (p_free _ _ _ HP)].
    intros [-> [Htv Hixv]]. apply Hm. eapply mappable_same; [| exact Hmp].
    destruct (table_at_G _ _ st G l va _ HI ltac:(lia) ltac:(lia) Htv) as (k' & Hk' & HG).
    assert (k' = k) as -> by (unfold MmuTables.tab in Hk'; lia). rewrite Hk in HG. injection HG as Htb.
    rewrite !tb_sb by lia. congruence.
  - apply (p_split _ _ _ HP).
  - intros l1 va t Hva Hl1 Ht1. apply Hgrow; [done | done |]. by apply (p_grow _ _ _ HP).
  - exists ((l, sb l addr) :: A). split; [done |]. split; [done |]. split.
    + constructor; cbn [fst snd].
      * rewrite (table_at_cong _ _ (S l) _ addr); [by eexists | lia | | | lia].
        { rewrite !tb_succ by lia. pose proof (sb_le l addr ltac:(lia)). apply sb_same; lia. }
        { rewrite Forall_cons in Hneed. destruct Hneed as [(_ & _ & H & _) _]. cbn in H. lia. }
      * rewrite Forall_cons in Hneed. destruct Hneed as [_ Hneed].
        rewrite Forall_forall in Hhas, Hneed |- *. intros s Hs. destruct (Hhas s Hs) as [t Hst].
        destruct (Hneed s Hs) as (? & _ & ? & _). exists t. apply Hgrow; [lia | lia | done].
    + rewrite (lk_next _ _ _ _ _ _ HL), Hn. cbn [length]. lia.
Qed.

(** ** Writing a descriptor *)
Lemma leaf_desc_leaf l b : (1 <= l <= 3)%nat -> b mod 4096 = 0 -> is_leaf l (leaf_desc l b) = true.
Proof.
  intros Hl Hb. destruct Halign as (H1 & _ & H3). destruct Hattr as [_ H4].
  assert (forall x, Z.land x 3 = x mod 4) as Hland by (intros x; apply (land_ones_mod x 2); lia).
  unfold is_leaf, is_subtable, leaf_desc. rewrite !Hland.
  destruct (Nat.eqb_spec l 3) as [-> | Hne].
  - apply Z.eqb_eq. dlia.
  - apply andb_true_intro. split; [apply Nat.leb_le; lia |]. apply Z.eqb_eq. dlia.
Qed.

Lemma leaf_or_last l e : is_leaf l e = true -> (l <= 3)%nat -> l = 3%nat \/ is_subtable e = false.
Proof.
  intros He Hl. destruct (decide (l = 3%nat)); [by left |]. right.
  eapply leaf_not_subtable; [| done]. lia.
Qed.

Lemma write_ok st G tabs l addr k e : progress st G addr -> path st tabs l addr ->
  table_at (ents st) l addr = Some (tab k) -> ents st !! ea k (ix l addr) = Some e ->
  G !! k = Some (l, tb l addr) -> mappable l addr -> sb l addr = addr -> valid e = false ->
  let st' := set_ents st (<[ea k (ix l addr) := leaf_desc l addr]> (ents st)) in
  progress st' G (addr + 2 ^ sh l) /\ path st' tabs l (addr + 2 ^ sh l - 1).
Proof.
  intros HP HT Ht He Hk Hm Hsb Hv st'. destruct (p_range _ _ _ HP) as [Hr Hr4].
  pose proof (mappable_bounds _ _ _ _ _ Hm) as Hb.
  assert (1 <= l <= 3)%nat as Hl by (by destruct Hm).
  destruct (pow_sh l ltac:(lia)) as (q & Hq & Hq0).
  assert (addr + 2 ^ sh l <= stop) as Hend by (destruct Hm; lia).
  pose proof (p_ok _ _ _ HP) as HI. pose proof (ix_range l addr) as Hix.
  pose proof (leaf_desc_leaf l addr Hl Hr4) as Hleaf.
  pose proof (leaf_or_last l _ Hleaf ltac:(lia)) as Hnew.
  assert (l = 3%nat \/ is_subtable e = false) as Hold by (right; by apply invalid_not_subtable).
  assert (tb l addr + ix l addr * 2 ^ sh l = addr) as Hslot by (rewrite <- tb_sb by lia; done).
  assert (forall l1 va, 0 <= va < 2 ^ 48 -> (l1 <= 3)%nat ->
    table_at (ents st') l1 va = table_at (ents st) l1 va) as Htab.
  { intros. by eapply swap_table_at. }
  assert (forall l1 va, 0 <= va < 2 ^ 48 -> (l1 <= 3)%nat -> ~ (addr <= va < addr + 2 ^ sh l) ->
    entry (ents st') l1 va = entry (ents st) l1 va) as Hout.
  { intros l1 va Hva Hl1 Hne. eapply swap_entry_out; try done. rewrite Hslot. intros [-> Hs].
    pose proof (sb_le l va ltac:(lia)). lia. }
  assert (forall va, addr <= va < addr + 2 ^ sh l -> sb l va = addr /\ tb l va = tb l addr /\
    leaf (ents st') va l (leaf_desc l addr)) as Hin.
  { intros va Hva. assert (sb l va = addr) as Hs by (rewrite <- Hsb; apply sb_same; lia).
    assert (tb l va = tb l addr) as Htb.
    { destruct l as [|l]; [lia |]. rewrite !tb_succ by lia.
      apply (sb_same_up l (S l)); [lia | lia |]. congruence. }
    split; [done |]. split; [done |]. split; [lia |]. split; [| done].
    eapply swap_entry_in; try done; [lia | |].
    - rewrite <- Ht. by apply table_at_cong; [lia | | lia | lia].
    - apply ix_same; [lia |]. congruence. }
  split.
  - constructor.
    + eapply swap_ok; try done. by right; left.
    + split; [lia |]. rewrite Hq. dlia.
    + intros va Hva. destruct (decide (va < addr)) as [Hlt | Hge].
      * destruct (p_done _ _ _ HP va ltac:(lia)) as (lv & Hg & H1 & H2 & H3). exists lv.
        split; [done |]. split; [done |]. split; [| done]. rewrite Hout; [done | lia | lia | lia].
      * destruct (Hin va ltac:(lia)) as (Hs & Htb & Hlf). exists l. rewrite Hs. split; [| done]. split.
        { eapply mappable_same; [| exact Hm]. congruence. }
        intros Hm'. apply (t_above _ _ _ _ HT (l - 1) ltac:(lia)). eapply mappable_same; [| exact Hm'].
        apply (sb_same_up (l - 1) l); [lia | lia |]. congruence.
    + intros va l1 e1 Hva Hne. rewrite <- (p_frame _ _ _ HP va l1 e1 Hva ltac:(lia)).
      unfold MmuTables.leaf. destruct (decide (l1 <= 3)%nat); [| tauto].
      by rewrite Hout by (done || lia).
    + intros l1 va Hm1 Hs1. pose proof (mappable_bounds _ _ _ _ _ Hm1).
      pose proof (sb_le l1 va ltac:(destruct Hm1; lia)).
      destruct (p_free _ _ _ HP l1 va Hm1 ltac:(lia)) as (l2 & e2 & Hl2 & He2 & Hv2).
      exists l2, e2. split; [done |]. split; [| done].
      rewrite Hout; [done | lia | destruct Hm1; lia | lia].
    + apply split_next; [apply (p_split _ _ _ HP) | apply (t_above _ _ _ _ HT) | lia | done].
    + intros l1 va t Hva Hl1 Ht1. rewrite Htab by done. by apply (p_grow _ _ _ HP).
    + destruct (p_alloc _ _ _ HP) as (A & Hnd & Hneed & Hhas & Hn). exists A. do 2 (split; [done |]).
      split; [| done]. rewrite Forall_forall in Hhas, Hneed |- *. intros s Hs.
      destruct (Hneed s Hs) as (? & _ & ? & _). rewrite Htab by lia. by apply Hhas.
  - apply (path_same st' tabs l addr); [lia | lia | |].
    + symmetry. apply Hin. lia.
    + constructor; [lia | apply (t_len _ _ _ _ HT) | | apply (t_above _ _ _ _ HT)].
      intros l' Hl'. rewrite Htab by lia. by apply (t_tabs _ _ _ _ HT).
Qed.

(** ** The assembly routine *)

(** The descriptor in x5 when [addr] is next. *)
Definition desc_at (addr : Z) : Z := paddr + (addr - first) + attr.

Lemma desc_at_extr addr : first <= addr < stop -> addr mod 4096 = 0 ->
  extr_addr (desc_at addr) = paddr + (addr - first).
Proof.
  intros Ha Hm. unfold desc_at. apply extr_addr_or; [lia | | lia].
  destruct Halign as (H1 & _ & H3). dlia.
Qed.

Lemma desc_at_mod4 addr : addr mod 4096 = 0 -> desc_at addr mod 4 = 3.
Proof. intros Hm. unfold desc_at. destruct Halign as (H1 & _ & H3). destruct Hattr. dlia. Qed.

Lemma lxor2 x : x mod 4 = 3 -> Z.lxor x 2 = x - 2.
Proof.
  intros H. rewrite Z.sub_nocarry_ldiff.
  - apply Z.bits_inj'; intros n Hn. rewrite Z.lxor_spec, Z.ldiff_spec.
    destruct (decide (n = 1)) as [-> |].
    + assert (Z.testbit x 1 = true) as ->; [| done].
      apply Z.b2z_inj. rewrite Z.testbit_spec' by lia. change (2 ^ 1) with 2. simpl. dlia.
    + assert (Z.testbit 2 n = false) as ->; [| by rewrite xorb_false_r, andb_true_r].
      change 2 with (2 ^ 1). by rewrite Z.pow2_bits_false by lia.
  - apply Z.bits_inj'; intros n Hn. rewrite Z.ldiff_spec, Z.bits_0.
    destruct (decide (n = 1)) as [-> |].
    + assert (Z.testbit x 1 = true) as ->; [| done].
      apply Z.b2z_inj. rewrite Z.testbit_spec' by lia. change (2 ^ 1) with 2. simpl. dlia.
    + change 2 with (2 ^ 1). by rewrite Z.pow2_bits_false by lia.
Qed.

Lemma desc_at_leaf l addr : addr mod 4096 = 0 ->
  (if (l =? 3)%nat then desc_at addr else Z.lxor (desc_at addr) 2) = leaf_desc l addr.
Proof.
  intros Hm. unfold leaf_desc. rewrite lxor2 by by apply desc_at_mod4. unfold desc_at.
  destruct (l =? 3)%nat; lia.
Qed.

Lemma flag_mask l x : (l <= 3)%nat -> flag x (MASK64 (sh l)) = negb (x mod 2 ^ sh l =? 0).
Proof. intros Hl. unfold flag. by rewrite land_mask. Qed.

Lemma mod_u64 l x : (l <= 3)%nat -> u64 x mod 2 ^ sh l = x mod 2 ^ sh l.
Proof.
  intros Hl. pose proof (sh_range l Hl). unfold u64. apply Z.mod_mod_divide.
  exists (2 ^ (64 - sh l)). rewrite <- Z.pow_add_r by lia. f_equal. lia.
Qed.

(** The alignment test of the displacement. *)
Lemma delta_flag l addr : (l <= 3)%nat -> first <= addr < stop -> addr mod 4096 = 0 ->
  flag (u64 (extr_addr (desc_at addr) - addr)) (MASK64 (sh l)) = negb (delta mod 2 ^ sh l =? 0).
Proof.
  intros Hl Ha Hm. rewrite flag_mask, mod_u64, desc_at_extr by done. do 2 f_equal.
  f_equal. lia.
Qed.

Abbreviation regs_at addr tabs := (Regs addr (desc_at addr) stop [0] tabs).

Lemma geti_lookup {A} (xs : list A) (n : nat) x : xs !! n = Some x -> geti xs (Z.of_nat n) = Ok x.
Proof. intros H. apply geti_ok; [lia |]. by rewrite Nat2Z.id. Qed.

Lemma seti_nat {A} (xs : list A) (n : nat) x : (n < length xs)%nat ->
  seti xs (Z.of_nat n) x = Ok (<[n := x]> xs).
Proof. intros H. rewrite seti_ok by lia. by rewrite Nat2Z.id. Qed.

Lemma go_deeper_ok st G tabs l addr : progress st G addr -> path st tabs l addr -> addr < stop ->
  (l < 3)%nat -> ~ mappable l addr ->
  exists st' G' tabs', go_deeper num_pagetables l st (regs_at addr tabs) (ix l addr)
    = Ok (st', Next (At8 (l + 1), regs_at addr tabs')) /\
    progress st' G' addr /\ path st' tabs' (l + 1) addr.
Proof.
  intros HP HT Hlt Hl Hm. replace (l + 1)%nat with (S l) by lia.
  destruct (at_entry st G tabs l addr HP HT Hlt) as (k & e & Htk & Ht & Hk & He & Hen & Hc & _).
  destruct (t_tabs _ _ _ _ HT 0 ltac:(lia)) as (t0 & Ht0 & [= <-]).
  unfold go_deeper. cbn [tp x4 x5 x6 x7].
  pose proof (geti_lookup tabs 0 pagetables Ht0) as Hg. change (Z.of_nat 0) with 0 in Hg.
  rewrite Hg, (geti_lookup tabs l _ Htk).
  cbn [mbind res_bind]. fold (ea k (ix l addr)). rewrite (rd_ok _ _ _ He). cbn [mbind res_bind].
  pose proof (t_len _ _ _ _ HT) as Hlen. replace (l + 1)%nat with (S l) by lia.
  rewrite flag1_valid. destruct Hc as [Hv | [_ Hs]].
  - rewrite Hv. destruct (deeper_new st G tabs l addr k e) as [Hn Hnew]; try done.
    pose proof (p_ok _ _ _ HP) as HI. pose proof (ix_range l addr) as Hix.
    destruct (link_run _ _ st G k l (tb l addr) (ix l addr) e HI Hk Hl Hix He Hn)
      as (st1 & st' & Hc & Hw & HL).
    destruct (link_desc _ _ st G l (ix l addr) HI Hl Hix Hn) as (_ & Hd & _).
    unfold asm_alloc_page_table. rewrite (proj2 (Z.leb_gt _ _) Hn).
    rewrite (tab_next _ _ st G HI), Hc. cbn [mbind res_bind]. rewrite Hd, Hw. cbn [mbind res_bind].
    rewrite seti_nat by lia. cbn [mbind res_bind]. destruct (Hnew st' HL) as [HP' HT'].
    by eexists st', _, _.
  - rewrite (subtable_valid _ Hs). rewrite seti_nat by lia. cbn [mbind res_bind].
    eexists st, G, _. split; [done |]. split; [done |]. by eapply deeper_old.
Qed.

(** Where the routine is between two control points. *)
Definition ready (c : control) (st : mmu_state) (tabs : list Z) (addr : Z) : Prop :=
  match c with
  | At8 l => path st tabs l addr
  | At1 l => path st tabs l addr /\ (1 <= l)%nat /\ sb l addr = addr /\ delta mod 2 ^ sh l = 0
  | AtRet l => path st tabs l (addr - 1) /\ (l <= 2)%nat /\ first < addr /\ addr mod 2 ^ sh l = 0
  end.

Definition rank (c : control) : Z :=
  match c with
  | At8 l => 3 - Z.of_nat l
  | At1 l => 3 - Z.of_nat l
  | AtRet l => 4 + Z.of_nat l
  end.
Definition measure (addr : Z) (c : control) : Z := 8 * ((stop - addr) / 4096) + rank c.

(** A step goes on with less to do, or returns with everything mapped. *)
Definition step_to (addr : Z) (c : control) (o : res (mmu_state * outcome (control * regs) (list Z))) : Prop :=
  (exists st' G' c' tabs' addr', o = Ok (st', Next (c', regs_at addr' tabs')) /\
     progress st' G' addr' /\ ready c' st' tabs' addr' /\ addr' < stop /\
     measure addr' c' < measure addr c) \/
  (exists st' G', o = Ok (st', Return []) /\ progress st' G' stop).

Lemma ix_succ l a : (l <= 3)%nat -> ix l (a + 2 ^ sh l) = (ix l a + 1) mod 512.
Proof.
  intros Hl. pose proof (sh_range l Hl). unfold ix.
  replace (a + 2 ^ sh l) with (a + 1 * 2 ^ sh l) by lia. rewrite Z.div_add by lia.
  by rewrite Zplus_mod_idemp_l.
Qed.

Lemma ix_zero_up l a : (l < 3)%nat -> a mod 2 ^ sh (S l) = 0 -> ix (S l) a = 0 -> a mod 2 ^ sh l = 0.
Proof.
  intros Hl Ha Hix. pose proof (sh_range (S l) ltac:(lia)). rewrite pow_up by done. unfold ix in Hix.
  replace (512 * 2 ^ sh (S l)) with (2 ^ sh (S l) * 512) by lia.
  rewrite Z.rem_mul_r by lia. rewrite Ha, Hix. lia.
Qed.

Lemma measure_write l addr c : (l <= 3)%nat -> addr + 2 ^ sh l <= stop -> rank c < 8 ->
  measure (addr + 2 ^ sh l) c < 8 * ((stop - addr) / 4096).
Proof.
  intros Hl Hle Hc. unfold measure. destruct (pow_sh l Hl) as (q & Hq & Hq0). rewrite Hq in *.
  replace (stop - (addr + 4096 * q)) with (stop - addr + (- q) * 4096) by lia.
  rewrite Z.div_add by lia. lia.
Qed.

(** After a store: the next slot of the table, or back to the level above. *)
Lemma after_write st G tabs l addr : (1 <= l <= 3)%nat -> addr mod 2 ^ sh l = 0 ->
  delta mod 2 ^ sh l = 0 ->
  progress st G (addr + 2 ^ sh l) -> path st tabs l (addr + 2 ^ sh l - 1) ->
  first <= addr -> addr + 2 ^ sh l < stop ->
  ready (if negb (Z.lxor (ix l addr) 511 =? 0) then At1 l else AtRet (l - 1)) st tabs (addr + 2 ^ sh l).
Proof.
  intros Hl Ha Hd HP HT Hf Hlt. pose proof (sh_range l ltac:(lia)).
  pose proof (ix_succ l addr ltac:(lia)) as Hsucc. pose proof (ix_range l addr) as Hix.
  assert ((addr + 2 ^ sh l) mod 2 ^ sh l = 0) as Ha'.
  { replace (addr + 2 ^ sh l) with (addr + 1 * 2 ^ sh l) by lia. by rewrite Z.mod_add by lia. }
  destruct (Z.eqb_spec (Z.lxor (ix l addr) 511) 0) as [He | Hne]; cbn [negb ready].
  - apply Z.lxor_eq in He. rewrite He in Hsucc. change ((511 + 1) mod 512) with 0 in Hsucc.
    destruct l as [|l]; [lia |]. replace (S l - 1)%nat with l by lia.
    split; [by apply path_pop |]. split; [lia |]. split; [lia |]. by apply ix_zero_up; [lia | |].
  - assert (ix l addr <> 511) by (intros Heq; apply Hne; by rewrite Heq).
    rewrite Z.mod_small in Hsucc by lia.
    split; [| split; [lia |]; split; [by apply sb_mod0; [lia |] | done]].
    apply (path_same st tabs l (addr + 2 ^ sh l - 1)); [lia | lia | | done].
    apply tb_next; [lia | done | lia].
Qed.

(** Label [1:]. *)
Lemma mapping_loop_ok st G tabs l addr : progress st G addr -> path st tabs l addr -> addr < stop ->
  (l = 0%nat \/ (sb l addr = addr /\ delta mod 2 ^ sh l = 0)) ->
  exists p, geti pte_lvls (Z.of_nat l) = Ok p /\
  step_to addr (At8 l) (mapping_loop num_pagetables l p st (regs_at addr tabs)).
Proof.
  intros HP HT Hlt Hal. pose proof (t_level _ _ _ _ HT) as Hl. destruct (p_range _ _ _ HP) as [Hr Hr4].
  rewrite pte_lvls_get by done. eexists. split; [done |]. unfold mapping_loop.
  cbn [shift mapping_allowed last_level x4 x5 x6 x7 tp]. rewrite ubfx_ix by done.
  assert (forall n, (n < 3)%nat -> n = l -> ~ mappable n addr ->
    step_to addr (At8 l) (go_deeper num_pagetables l st (regs_at addr tabs) (ix l addr))) as Hdeep.
  { intros n Hn -> Hm. destruct (go_deeper_ok st G tabs l addr HP HT Hlt Hn Hm) as (st' & G' & tabs' & -> & HP' & HT').
    left. exists st', G', (At8 (l + 1)), tabs', addr. do 4 (split; [done |]). unfold measure, rank. lia. }
  destruct (Nat.eqb_spec l 0) as [-> | Hne0]; cbn [negb].
  { apply (Hdeep 0%nat); [lia | done |]. intros [? _]. lia. }
  destruct Hal as [? | [Hsb Hd]]; [lia |].
  pose proof (sh_range l ltac:(lia)) as Hsh.
  assert (2 ^ sh l <= 2 ^ 39) as Hp39 by (apply Z.pow_le_mono_r; lia).
  rewrite Z.shiftl_1_l, !u64_small by (unfold desc_at; lia).
  destruct (negb (l =? 3)%nat && (addr + 2 ^ sh l >? stop)) eqn:Hgt.
  { apply andb_true_iff in Hgt as [H3 Hgt]. apply negb_true_iff, Nat.eqb_neq in H3.
    apply Z.gtb_lt in Hgt. apply (Hdeep l); [lia | done |]. intros (_ & _ & ? & _). lia. }
  assert (mappable l addr) as Hm.
  { apply andb_false_iff in Hgt as [H3 | Hgt].
    - apply negb_false_iff, Nat.eqb_eq in H3 as ->. apply mappable_page; (tauto || lia || exact Hd).
    - rewrite Z.gtb_ltb in Hgt. apply Z.ltb_ge in Hgt. split; [lia |]. rewrite Hsb. split; [lia |]. done. }
  destruct (at_entry st G tabs l addr HP HT Hlt) as (k & e & Htk & Ht & Hk & He & _ & _ & Hc).
  destruct (Hc Hm) as [_ Hv]. rewrite (geti_lookup tabs l _ Htk). cbn [mbind res_bind].
  fold (ea k (ix l addr)). rewrite (rd_ok _ _ _ He). cbn [mbind res_bind]. rewrite flag1_valid, Hv.
  rewrite (wr_ok _ _ _ _ He). cbn [mbind res_bind]. rewrite desc_at_leaf by done.
  destruct (write_ok st G tabs l addr k e HP HT Ht He Hk Hm Hsb Hv) as [HP' HT'].
  assert (desc_at addr + 2 ^ sh l = desc_at (addr + 2 ^ sh l)) as Hdesc by (unfold desc_at; lia).
  rewrite Hdesc. destruct (Z.eqb_spec (addr + 2 ^ sh l) stop) as [Heq | Hne].
  { cbn. right. eexists _, G. split; [done |]. by rewrite <- Heq. }
  assert (addr + 2 ^ sh l < stop) as Hlt' by (destruct Hm; lia).
  pose proof (after_write _ G tabs l addr ltac:(lia) ltac:(by apply sb_mod0) Hd HP' HT' ltac:(lia) Hlt') as Hrd.
  assert (forall c, rank c < 8 -> measure (addr + 2 ^ sh l) c < measure addr (At8 l)) as Hms.
  { intros c Hc8. pose proof (measure_write l addr c ltac:(lia) ltac:(lia) Hc8).
    unfold measure at 2. unfold rank at 1. lia. }
  left. destruct (negb (Z.lxor (ix l addr) 511 =? 0)); eexists _, G, _, tabs, _;
    (split; [done |]; split; [done |]; split; [exact Hrd |]; split; [done |]; apply Hms; unfold rank; lia).
Qed.

Lemma multimap_step_ok st G c tabs addr : progress st G addr -> ready c st tabs addr -> addr < stop ->
  step_to addr c (multimap_step num_pagetables c st (regs_at addr tabs)).
Proof.
  intros HP HR Hlt. destruct (p_range _ _ _ HP) as [Hr Hr4]. destruct c as [l | l | l]; cbn [ready] in HR.
  - pose proof (t_level _ _ _ _ HR) as Hl. unfold multimap_step.
    pose proof (mapping_loop_ok st G tabs l addr HP HR Hlt) as Hloop.
    rewrite pte_lvls_get in Hloop |- * by done. cbn [mbind res_bind].
    cbn [shift mapping_allowed last_level x4 x5]. rewrite ubfx_ix by done.
    assert (~ mappable l addr -> (l < 3)%nat ->
      step_to addr (At8 l) (go_deeper num_pagetables l st (regs_at addr tabs) (ix l addr))) as Hdeep.
    { intros Hm Hn. destruct (go_deeper_ok st G tabs l addr HP HR Hlt Hn Hm) as (st' & G' & tabs' & -> & HP' & HT').
      left. exists st', G', (At8 (l + 1)), tabs', addr. do 4 (split; [done |]). unfold measure, rank. lia. }
    rewrite flag_mask, delta_flag by (done || lia).
    destruct (Nat.eqb_spec l 0) as [H0 | H0]; destruct (Nat.eqb_spec l 3) as [H3 | H3]; cbn [negb andb]; try lia.
    + destruct Hloop as (p & [= <-] & Hs); [by left | done].
    + destruct Hloop as (p & [= <-] & Hs); [right | done]. subst l. split.
      * apply sb_mod0; [lia |]. by change (2 ^ sh 3) with 4096.
      * change (2 ^ sh 3) with 4096. destruct Halign as (? & ? & ?). dlia.
    + destruct (Z.eqb_spec (addr mod 2 ^ sh l) 0) as [Ha | Ha]; cbn [negb].
      2: { apply Hdeep; [| lia]. intros Hm. apply Ha, sb_mod0; [done |].
           destruct (at_entry st G tabs l addr HP HR Hlt) as (k & e & _ & _ & _ & _ & _ & _ & Hc).
           by apply Hc. }
      destruct (Z.eqb_spec (delta mod 2 ^ sh l) 0) as [Hd | Hd]; cbn [negb].
      2: { apply Hdeep; [| lia]. by intros (_ & _ & _ & ?). }
      destruct Hloop as (p & [= <-] & Hs); [right; split; [by apply sb_mod0 | done] | done].
  - destruct HR as (HT & Hl1 & Hsb & Hd). unfold multimap_step.
    destruct (mapping_loop_ok st G tabs l addr HP HT Hlt ltac:(by right)) as (p & -> & Hs).
    cbn [mbind res_bind]. exact Hs.
  - destruct HR as (HT & Hl2 & Hf & Ha). unfold multimap_step. rewrite pte_lvls_get by lia.
    cbn [mbind res_bind shift x4]. rewrite ubfx_ix by lia. left.
    destruct (Z.eqb_spec (ix l addr) 0) as [Hz | Hz]; cbn [negb].
    + destruct l as [|l].
      * exfalso. unfold ix in Hz. change (2 ^ sh 0) with (2 ^ 39) in *. dlia.
      * exists st, G, (AtRet l), tabs, addr. split; [done |]. split; [done |]. split.
        { split; [by apply path_pop |]. split; [lia |]. split; [done |]. by apply ix_zero_up; [lia | |]. }
        split; [done |]. unfold measure, rank. lia.
    + exists st, G, (At8 l), tabs, addr. split; [done |]. split; [done |]. split.
      { apply (path_same st tabs l (addr - 1)); [lia | lia | | done]. apply tb_next; [lia | done | done]. }
      split; [done |]. unfold measure, rank. lia.
Qed.

Lemma multimap_loop_ok fuel st G c tabs addr : progress st G addr -> ready c st tabs addr -> addr < stop ->
  measure addr c < Z.of_nat fuel ->
  exists st' G', multimap_loop num_pagetables fuel c st (regs_at addr tabs) = Ok (st', []) /\
    progress st' G' stop.
Proof.
  revert st G c tabs addr. induction fuel as [|fuel IH]; intros st G c tabs addr HP HR Hlt Hf.
  { exfalso. unfold measure in Hf. assert (0 <= (stop - addr) / 4096) by (apply Z.div_pos; lia).
    assert (c = c /\ 0 <= rank c) as [_ ?]; [| lia]. split; [done |].
    destruct c as [l | l | l]; cbn in *; [pose proof (t_level _ _ _ _ HR) |
      destruct HR as [HR _]; pose proof (t_level _ _ _ _ HR) |]; lia. }
  cbn [multimap_loop].
  destruct (multimap_step_ok st G c tabs addr HP HR Hlt)
    as [(st' & G' & c' & tabs' & addr' & -> & HP' & HR' & Hlt' & Hm) | (st' & G' & -> & HP')];
    cbn [mbind res_bind].
  - apply (IH st' G'); [done.. | lia].
  - by exists st', G'.
Qed.

(** ** What a finished mapping translates *)
Lemma leaf_desc_pa l va : mappable l va -> pa l (leaf_desc l (sb l va)) va = paddr + (va - first).
Proof.
  intros Hm. pose proof (mappable_bounds _ _ _ _ _ Hm) as Hb. destruct Hm as (Hl & H1 & H2 & H3).
  pose proof (sb_le l va ltac:(lia)). destruct (sb_mult l va) as [q Hq].
  destruct (pow_sh l ltac:(lia)) as (r & Hr & Hr0). pose proof (sh_range l ltac:(lia)).
  apply Z.mod_divide in H3 as [d Hd]; [| lia].
  unfold pa. rewrite (sb_sub l va) by lia. unfold leaf_desc.
  set (x := attr - (if (l =? 3)%nat then 0 else 2)).
  assert (0 <= x < 4096) as Hx by (unfold x; destruct Hattr; destruct (l =? 3)%nat; dlia).
  replace (paddr + (sb l va - first) + attr - (if (l =? 3)%nat then 0 else 2))
    with (x + (d + q) * 2 ^ sh l) by (unfold x; lia).
  clearbody x.
  assert ((x + (d + q) * 2 ^ sh l) mod 2 ^ sh l = x) as ->.
  { rewrite Z.mod_add by lia. apply Z.mod_small. lia. }
  rewrite Z.mod_small; [lia |].
  assert ((d + q) * 2 ^ sh l = paddr + (sb l va - first)) as -> by lia. lia.
Qed.

Lemma progress_inside st G va : progress st G stop -> first <= va < stop ->
  translate pagetables num_pagetables st va = Some (paddr + (va - first)) /\
  exists l, greedy l va /\ leaf (ents st) va l (leaf_desc l (sb l va)).
Proof.
  intros HP Hva. destruct (p_done _ _ _ HP va Hva) as (l & Hg & Hlf). split; [| by exists l].
  rewrite (translate_leaf _ _ st G va l _ (p_ok _ _ _ HP) ltac:(lia) Hlf).
  by rewrite leaf_desc_pa by apply Hg.
Qed.

Lemma progress_outside st G va : progress st G stop -> 0 <= va < 2 ^ 48 -> ~ (first <= va < stop) ->
  translate pagetables num_pagetables st va = translate pagetables num_pagetables st0 va.
Proof.
  intros HP Hva Hout. eapply translate_ext; [exact HI0 | exact (p_ok _ _ _ HP) | done |].
  intros l e. by apply (p_frame _ _ _ HP).
Qed.

(** ** The C version *)

(** It tests the displacement only for descriptors without bit 1, which are
    none of those that are passed to it; the displacement has to be aligned. *)
Hypothesis Hdelta : delta mod 2 ^ 30 = 0.

Abbreviation ref_at l tabs addr := (RefRegs l tabs addr (desc_at addr) [MultiMap stop 0]).

Lemma pop_levels_ok st tabs l addr : path st tabs l (addr - 1) -> addr mod 2 ^ sh l = 0 ->
  0 < addr < 2 ^ 48 -> exists l', pop_levels addr l = Ok l' /\ path st tabs l' addr.
Proof.
  induction l as [|l IH]; intros HT Ha Hr; pose proof (t_level _ _ _ _ HT) as Hl;
    cbn [pop_levels]; rewrite pte_lvls_get by done; cbn [mbind res_bind shift]; rewrite ubfx_ix by done.
  - assert (ix 0 addr <> 0) as Hz.
    { unfold ix. change (2 ^ sh 0) with (2 ^ 39) in *. dlia. }
    rewrite (proj2 (Z.eqb_neq _ _) Hz). exists 0%nat. split; [done |].
    by apply (path_same st tabs 0 (addr - 1)); [lia | lia | apply tb_next |].
  - destruct (Z.eqb_spec (ix (S l) addr) 0) as [Hz | Hz].
    + apply IH; [by apply path_pop | by apply ix_zero_up; [lia | |] | done].
    + exists (S l). split; [done |].
      by apply (path_same st tabs (S l) (addr - 1)); [lia | lia | apply tb_next |].
Qed.

(** The condition [deeper] is that the slot is not mappable. *)
Lemma ref_deeper st G tabs l addr : progress st G addr -> path st tabs l addr -> addr < stop ->
  (l <? MIN_MAPPING_LEVEL)%nat || negb (Z.land addr (MASK64 (sh l)) =? 0)
  || (flag (Z.lnot (desc_at addr)) 2 && flag (u64 (addr - extr_addr (desc_at addr))) (MASK64 (sh l)))
  || (u64 (addr + Z.shiftl 1 (sh l)) >? stop) = bool_decide (~ mappable l addr).
Proof.
  intros HP HT Hlt. pose proof (t_level _ _ _ _ HT) as Hl. destruct (p_range _ _ _ HP) as [Hr Hr4].
  pose proof (sh_range l Hl). assert (2 ^ sh l <= 2 ^ 39) by (apply Z.pow_le_mono_r; lia).
  assert (flag (Z.lnot (desc_at addr)) 2 = false) as ->.
  { change 2 with (2 ^ 1). rewrite flag_bit, Z.lnot_spec by lia. apply negb_false_iff, Z.b2z_inj.
    rewrite Z.testbit_spec' by lia. pose proof (desc_at_mod4 addr Hr4). change (2 ^ 1) with 2. simpl. dlia. }
  cbn [andb]. rewrite orb_false_r, land_mask, Z.shiftl_1_l, u64_small by (done || lia).
  symmetry. destruct (decide (mappable l addr)) as [Hm | Hm].
  - rewrite bool_decide_eq_false_2 by tauto.
    destruct (at_entry st G tabs l addr HP HT Hlt) as (k & e & _ & _ & _ & _ & _ & _ & Hc).
    destruct (Hc Hm) as [Hsb _]. destruct Hm as (Hl1 & _ & Hend & _).
    rewrite (proj2 (sb_mod0 l addr Hl) Hsb). rewrite Z.gtb_ltb, (proj2 (Z.ltb_ge _ _)) by lia.
    unfold MIN_MAPPING_LEVEL. by rewrite (proj2 (Nat.ltb_ge _ _)) by lia.
  - rewrite bool_decide_eq_true_2 by done. unfold MIN_MAPPING_LEVEL.
    destruct (Nat.ltb_spec l 1); [done |].
    destruct (Z.eqb_spec (addr mod 2 ^ sh l) 0) as [Ha | Ha]; [| done]. cbn [negb orb].
    symmetry. apply Z.gtb_lt. apply sb_mod0 in Ha; [| done].
    destruct (Z.lt_ge_cases stop (addr + 2 ^ sh l)); [done |]. exfalso. apply Hm.
    apply mappable_delta; [done |]. split; [lia |]. rewrite Ha. lia.
Qed.

Definition ref_measure (l : nat) (addr : Z) : Z := 4 * ((stop - addr) / 4096) + (3 - Z.of_nat l).

Lemma reference_step_ok st G tabs l addr : progress st G addr -> path st tabs l addr -> addr < stop ->
  (exists st' G' l' tabs' addr',
     reference_step pagetables num_pagetables st (ref_at l tabs addr) = Ok (st', Next (ref_at l' tabs' addr')) /\
     progress st' G' addr' /\ path st' tabs' l' addr' /\ addr' < stop /\
     ref_measure l' addr' < ref_measure l addr) \/
  (exists st' G',
     reference_step pagetables num_pagetables st (ref_at l tabs addr) = Ok (st', Return []) /\ progress st' G' stop).
Proof.
  intros HP HT Hlt. pose proof (t_level _ _ _ _ HT) as Hl. destruct (p_range _ _ _ HP) as [Hr Hr4].
  destruct (at_entry st G tabs l addr HP HT Hlt) as (k & e & Htk & Ht & Hk & He & Hen & Hc & Hcm).
  unfold reference_step. cbn [r_level r_addr r_desc r_map r_table_ptrs].
  change (geti [MultiMap stop 0] 0) with (Ok (MultiMap stop 0)). cbn [mbind res_bind map_addr map_desc tail].
  assert_ok. rewrite pte_lvls_get by done. cbn [mbind res_bind shift].
  rewrite (geti_lookup tabs l _ Htk), ubfx_ix by done. cbn [mbind res_bind].
  rewrite (ref_deeper st G tabs) by done. fold (ea k (ix l addr)).
  destruct (decide (mappable l addr)) as [Hm | Hm].
  - rewrite bool_decide_eq_false_2 by tauto. destruct (Hcm Hm) as [Hsb Hv].
    assert (1 <= l)%nat as Hl1 by (destruct Hm; lia).
    rewrite (rd_ok _ _ _ He). cbn [mbind res_bind]. rewrite flag_not1_valid, Hv. cbn [negb c_assert mbind res_bind].
    rewrite (wr_ok _ _ _ _ He). cbn [mbind res_bind]. rewrite desc_at_leaf by done.
    destruct (write_ok st G tabs l addr k e HP HT Ht He Hk Hm Hsb Hv) as [HP' HT'].
    pose proof (sh_range l Hl). assert (2 ^ sh l <= 2 ^ 39) by (apply Z.pow_le_mono_r; lia).
    assert (flag (desc_at addr) 2 = true) as ->.
    { change 2 with (2 ^ 1). rewrite flag_bit by lia. apply Z.b2z_inj.
      rewrite Z.testbit_spec' by lia. pose proof (desc_at_mod4 addr Hr4). change (2 ^ 1) with 2. simpl. dlia. }
    rewrite Z.shiftl_1_l, !u64_small by (unfold desc_at; lia).
    destruct (Z.eqb_spec (addr + 2 ^ sh l) stop) as [Heq | Hne].
    { right. eexists _, G. split; [done |]. by rewrite <- Heq. }
    assert (addr + 2 ^ sh l < stop) as Hlt' by (destruct Hm; lia).
    destruct (pop_levels_ok _ tabs l (addr + 2 ^ sh l) HT') as (l' & -> & HT2); [| lia |].
    { replace (addr + 2 ^ sh l) with (addr + 1 * 2 ^ sh l) by lia. rewrite Z.mod_add by lia. by apply sb_mod0. }
    cbn [mbind res_bind]. left.
    assert (desc_at addr + 2 ^ sh l = desc_at (addr + 2 ^ sh l)) as -> by (unfold desc_at; lia).
    eexists _, G, l', tabs, _. split; [done |]. split; [done |]. split; [done |]. split; [done |].
    unfold ref_measure. destruct (pow_sh l Hl) as (q & Hq & Hq0). rewrite Hq.
    replace (stop - (addr + 4096 * q)) with (stop - addr + (- q) * 4096) by lia. rewrite Z.div_add by lia. lia.
  - rewrite bool_decide_eq_true_2 by done.
    assert (l < 3)%nat as Hl3.
    { destruct (decide (l = 3%nat)) as [-> | ?]; [| lia]. exfalso. apply Hm, mappable_page;
        first [tauto | lia | change 4096 with (2 ^ 12); dlia]. }
    rewrite (proj2 (Nat.ltb_lt _ _) Hl3). cbn [c_assert mbind res_bind].
    rewrite (rd_ok _ _ _ He). cbn [mbind res_bind]. rewrite flag_not1_valid.
    pose proof (t_len _ _ _ _ HT) as Hlen. replace (l + 1)%nat with (S l) by lia.
    left. destruct Hc as [Hv | [_ Hs]].
    + rewrite Hv. cbn [negb]. destruct (deeper_new st G tabs l addr k e) as [Hn Hnew]; try done.
      pose proof (p_ok _ _ _ HP) as HI. pose proof (ix_range l addr) as Hix.
      destruct (link_run _ _ st G k l (tb l addr) (ix l addr) e HI Hk Hl3 Hix He Hn)
        as (st1 & st' & Hcl & Hw & HL).
      destruct (link_desc _ _ st G l (ix l addr) HI Hl3 Hix Hn) as (Hd & _).
      unfold alloc_page_table. rewrite (proj2 (Z.ltb_lt _ _) Hn), (tab_next _ _ st G HI). cbn [mbind res_bind].
      rewrite Hcl. cbn [mbind res_bind]. rewrite Hd, Hw. cbn [mbind res_bind].
      rewrite seti_nat by lia. cbn [mbind res_bind]. destruct (Hnew st' HL) as [HP' HT'].
      eexists st', _, (S l), _, addr. do 4 (split; [done |]). unfold ref_measure. lia.
    + rewrite (subtable_valid _ Hs). cbn [negb].
      assert (flag e 2 = true) as ->.
      { change 2 with (2 ^ 1). rewrite flag_bit by lia. unfold is_subtable in Hs. rewrite low2 in Hs.
        apply Z.eqb_eq in Hs. pose proof (b2z_01 (Z.testbit e 0)). destruct (Z.testbit e 1); [done |].
        change (Z.b2z false) with 0 in Hs. lia. }
      cbn [c_assert mbind res_bind]. rewrite seti_nat by lia. cbn [mbind res_bind].
      eexists st, G, (S l), _, addr. split; [done |]. split; [done |]. split; [by eapply deeper_old |].
      split; [done |]. unfold ref_measure. lia.
Qed.

Lemma reference_loop_ok fuel st G tabs l addr : progress st G addr -> path st tabs l addr -> addr < stop ->
  ref_measure l addr < Z.of_nat fuel ->
  exists st' G', reference_loop pagetables num_pagetables fuel st (ref_at l tabs addr) = Ok (st', []) /\
    progress st' G' stop.
Proof.
  revert st G tabs l addr. induction fuel as [|fuel IH]; intros st G tabs l addr HP HT Hlt Hf.
  { exfalso. unfold ref_measure in Hf. assert (0 <= (stop - addr) / 4096) by (apply Z.div_pos; lia).
    pose proof (t_level _ _ _ _ HT). lia. }
  cbn [reference_loop].
  destruct (reference_step_ok st G tabs l addr HP HT Hlt)
    as [(st' & G' & l' & tabs' & addr' & -> & HP' & HT' & Hlt' & Hm) | (st' & G' & -> & HP')];
    cbn [mbind res_bind].
  - apply (IH st' G'); [done.. | lia].
  - by exists st', G'.
Qed.
End Map.

(** ** The entry points *)

(** The attribute bits of the descriptors: those of [map_range_desc]. *)
Definition map_attr (flags : Z) : Z := map_range_desc 0 flags.

Lemma map_attr_range flags : 0 <= map_attr flags < 4096 /\ map_attr flags mod 4 = 3.
Proof.
  unfold map_attr, map_range_desc, PGTAB_PAGE, PGTAB_OUTER_SHAREABLE.
  assert (0 <= Z.land flags 7 < 2 ^ 3) as H7.
  { change 7 with (2 ^ 3 - 1). rewrite land_ones_mod by lia. apply Z.mod_pos_bound. lia. }
  assert (0 <= Z.land flags 0x3e0 < 2 ^ 12) as H3e0.
  { change 0x3e0 with (Z.land 0x3e0 (2 ^ 12 - 1)). rewrite Z.land_assoc, land_ones_mod by lia.
    apply Z.mod_pos_bound. lia. }
  split.
  - change 4096 with (2 ^ 12). apply lor_bound; [lia | | done]. apply lor_bound; [lia | | done].
    rewrite Z.lor_0_l. apply lor_bound; [lia | done |].
    rewrite Z.shiftl_mul_pow2 by lia. change (2 ^ 12) with (2 ^ 10 * 2 ^ 2). lia.
  - rewrite <- (land_ones_mod _ 2) by lia. change (2 ^ 2 - 1) with 3. rewrite low2.
    rewrite !Z.lor_spec, !Z.bits_0. simpl. done.
Qed.

Lemma map_range_desc_add paddr flags : 0 <= paddr -> paddr mod 4096 = 0 ->
  map_range_desc paddr flags = paddr + map_attr flags.
Proof.
  intros Hp Hm. destruct (map_attr_range flags) as [Ha _].
  assert (map_range_desc paddr flags = Z.lor (map_attr flags) paddr) as ->.
  { unfold map_attr, map_range_desc. rewrite Z.lor_0_l, (Z.lor_comm _ paddr), !Z.lor_assoc. done. }
  replace paddr with (Z.shiftl (paddr / 4096) 12) at 1
    by (rewrite Z.shiftl_mul_pow2 by lia; change (2 ^ 12) with 4096; dlia).
  rewrite lor_shiftl_add by lia. change (2 ^ 12) with 4096. dlia.
Qed.

(** No descriptor that the mapping writes is in use. *)
Definition range_free (pagetables first stop delta : Z) (st : mmu_state) : Prop :=
  forall l va, mappable first stop delta l va -> free pagetables (ents st) l va.

(** The callers' side: page-aligned bounds inside of the 48-bit address spaces,
    free descriptors, enough tables. *)
Record map_request (pagetables num_pagetables first last paddr : Z) (st : mmu_state) : Prop := {
  req_range : 0 <= first < last /\ last < 2 ^ 48;
  req_align : first mod 4096 = 0 /\ (last + 1) mod 4096 = 0 /\ paddr mod 4096 = 0;
  req_paddr : 0 <= paddr /\ paddr + (last + 1 - first) <= 2 ^ 48;
  req_free : range_free pagetables first (last + 1) (paddr - first) st;
  req_room : room first (last + 1) (paddr - first) pagetables num_pagetables st
}.

Section Requests.
Context (pagetables num_pagetables first last paddr flags : Z) (st : mmu_state) (G : list (nat * Z)).
Hypothesis HI : tables_ok pagetables num_pagetables st G.
Hypothesis HR : map_request pagetables num_pagetables first last paddr st.

Local Abbreviation finished st' G' :=
  (progress pagetables num_pagetables first (last + 1) paddr (map_attr flags) st st' G' (last + 1)).

Lemma map_fuel_bound : 0 <= (last + 1 - first) / 4096 /\
  8 * ((last + 1 - first) / 4096) + 7 < Z.of_nat (map_fuel first last).
Proof.
  destruct (req_range _ _ _ _ _ _ HR). unfold map_fuel.
  assert (0 <= (last + 1 - first) / 4096) by (apply Z.div_pos; lia). lia.
Qed.

Lemma mmu_map_range_run : exists st' G',
  mmu_map_range pagetables num_pagetables st first last paddr flags = Ok st' /\ finished st' G'.
Proof.
  destruct (req_range _ _ _ _ _ _ HR) as [Hr Hl]. destruct (req_align _ _ _ _ _ _ HR) as (Ha1 & Ha2 & Ha3).
  destruct (map_attr_range flags) as [Hat Hat3].
  unfold mmu_map_range, map_range. assert_ok.
  rewrite u64_small, map_range_desc_add by (done || lia || apply (req_paddr _ _ _ _ _ _ HR)).
  unfold words, mmu_multimap; cbn [flat_map app map_addr map_desc].
  assert (flag (Z.lor first (last + 1)) 4095 = false) as ->.
  { unfold flag. apply negb_false_iff, Z.eqb_eq. rewrite Z.land_lor_distr_l.
    change 4095 with (2 ^ 12 - 1). rewrite !land_ones_mod by lia. change (2 ^ 12) with 4096.
    by rewrite Ha1, Ha2. }
  replace (paddr + map_attr flags) with (desc_at first paddr (map_attr flags) first) by (unfold desc_at; lia).
  edestruct (multimap_loop_ok pagetables num_pagetables first (last + 1) paddr (map_attr flags) st)
    with (c := At8 0) (addr := first) (tabs := [pagetables; 0; 0; 0]) (fuel := map_fuel first last)
    as (st' & G' & -> & HP).
  - lia.
  - done.
  - apply (req_paddr _ _ _ _ _ _ HR).
  - done.
  - apply (req_room _ _ _ _ _ _ HR).
  - eapply progress_start; try done; [lia | apply HR | apply HR].
  - apply path_start.
  - lia.
  - unfold measure, rank. pose proof map_fuel_bound. lia.
  - by exists st', G'.
Qed.

Lemma multimap_reference_run : (paddr - first) mod 2 ^ 30 = 0 -> exists st' G',
  multimap_reference pagetables num_pagetables (map_fuel first last) st pagetables
    [MultiMap first (map_range_desc paddr flags); MultiMap (last + 1) 0] = Ok (st', []) /\ finished st' G'.
Proof.
  intros Hd.
  destruct (req_range _ _ _ _ _ _ HR) as [Hr Hl]. destruct (req_align _ _ _ _ _ _ HR) as (Ha1 & Ha2 & Ha3).
  destruct (map_attr_range flags) as [Hat Hat3].
  unfold multimap_reference. cbn [geti Z.ltb Z.compare]. cbn [Z.to_nat lookup list_lookup mbind res_bind map_addr map_desc tail].
  rewrite map_range_desc_add by (done || lia || apply (req_paddr _ _ _ _ _ _ HR)).
  replace (paddr + map_attr flags) with (desc_at first paddr (map_attr flags) first) by (unfold desc_at; lia).
  eapply reference_loop_ok.
  - lia.
  - done.
  - apply (req_paddr _ _ _ _ _ _ HR).
  - done.
  - apply (req_room _ _ _ _ _ _ HR).
  - done.
  - eapply progress_start; try done; [lia | apply HR | apply HR].
  - apply path_start.
  - lia.
  - unfold ref_measure. pose proof map_fuel_bound. lia.
Qed.

(** What holds when either has returned. *)
Lemma finished_inside st' G' va : finished st' G' -> first <= va <= last ->
  translate pagetables num_pagetables st' va = Some (paddr + (va - first)) /\
  exists l, greedy first (last + 1) (paddr - first) l va /\
    leaf pagetables (ents st') va l (leaf_desc first paddr (map_attr flags) l (sb l va)).
Proof.
  intros HP Hva. destruct (req_range _ _ _ _ _ _ HR). destruct (map_attr_range flags).
  eapply progress_inside; [| | done | exact HP | lia]; [lia | apply HR].
Qed.

Lemma finished_outside st' G' va : finished st' G' -> 0 <= va < 2 ^ 48 -> ~ (first <= va <= last) ->
  (forall l e, leaf pagetables (ents st') va l e <-> leaf pagetables (ents st) va l e) /\
  translate pagetables num_pagetables st' va = translate pagetables num_pagetables st va.
Proof.
  intros HP Hva Hout. destruct (req_range _ _ _ _ _ _ HR). split.
  - intros l e. apply (p_frame _ _ _ _ _ _ _ _ _ _ HP); [done | lia].
  - eapply progress_outside; [exact HI | exact HP | done | lia].
Qed.
End Requests.
