(* ===== verification/MmuUnmap.v ===== *)
(** * Unmapping a range

    [mmu_unmap_range] takes away the descriptors of a range from its start on.
    Its state between two descriptors is [unmapped_to]; [clear_slot] is one
    store, [unmap_level_ok] one level of [unmap_one]. *)
From S2P Require Export MmuMap.

(** ** Slots of one table *)
Lemma slot_at l x i : (l <= 3)%nat -> 0 <= i < 512 -> let a := tb l x + i * 2 ^ sh l in
  sb l a = a /\ ix l a = i /\ tb l a = tb l x.
Proof.
  intros Hl Hi a. pose proof (sh_range l Hl). pose proof (pow_cover l Hl) as Hc.
  assert (0 < 2 ^ sh l) as Hp by lia.
  assert (tb l a = tb l x) as Htb.
  { unfold tb at 1. assert (a / 2 ^ (sh l + 9) = x / 2 ^ (sh l + 9)) as ->; [| done].
    symmetry. apply (Z.div_unique _ _ _ (i * 2 ^ sh l)); [nia |]. unfold a, tb. lia. }
  assert (sb l a = a) as Hsb.
  { unfold a, tb. rewrite Hc.
    replace (x / (512 * 2 ^ sh l) * (512 * 2 ^ sh l) + i * 2 ^ sh l)
      with ((x / (512 * 2 ^ sh l) * 512 + i) * 2 ^ sh l) by lia.
    apply sb_unique; lia. }
  split; [done |]. split; [| done]. pose proof (tb_sb l a Hl) as Ht. rewrite Hsb, Htb in Ht.
  unfold a in Ht at 1. nia.
Qed.

Lemma tb_same l x y : (l <= 3)%nat -> tb l x <= y < tb l x + 2 ^ (sh l + 9) -> tb l y = tb l x.
Proof.
  intros Hl Hy. pose proof (sh_range l Hl). unfold tb in *.
  assert (y / 2 ^ (sh l + 9) = x / 2 ^ (sh l + 9)) as ->; [| done].
  symmetry. apply (Z.div_unique _ _ _ (y - x / 2 ^ (sh l + 9) * 2 ^ (sh l + 9))); lia.
Qed.

Lemma tb_le l x : (l <= 3)%nat -> tb l x <= x < tb l x + 2 ^ (sh l + 9).
Proof.
  intros Hl. pose proof (sh_range l Hl). unfold tb. pose proof (Z.div_mod x (2 ^ (sh l + 9)) ltac:(lia)).
  pose proof (Z.mod_pos_bound x (2 ^ (sh l + 9)) ltac:(lia)). lia.
Qed.

Lemma tb_above l l' x y : (l' < l)%nat -> (l <= 3)%nat -> tb l x = tb l y -> sb l' x = sb l' y.
Proof.
  intros Hl' Hl H. destruct l as [|l]; [lia |]. rewrite !tb_succ in H by lia.
  by apply (sb_same_up l' l); [lia | lia |].
Qed.

(** The last address of a run of slots. *)
Lemma run_end l x y : (l <= 3)%nat -> tb l x = tb l y -> (y + 1) mod 2 ^ sh l = 0 ->
  y + 1 = tb l x + (ix l y + 1) * 2 ^ sh l.
Proof.
  intros Hl Htb Hy. pose proof (sh_range l Hl). pose proof (tb_sb l y Hl) as Ht.
  apply Z.mod_divide in Hy as [q Hq]; [| lia].
  rewrite (sb_unique l y (q - 1)) in Ht by lia. rewrite Htb. lia.
Qed.

Section Unmap.
Context (pagetables num_pagetables : Z).
Abbreviation tab := (tab pagetables).
Abbreviation ea := (ea pagetables).
Abbreviation table_at := (table_at pagetables).
Abbreviation entry := (entry pagetables).
Abbreviation leaf := (leaf pagetables).
Abbreviation tables_ok := (tables_ok pagetables num_pagetables).

(** [lo, stop) is unmapped. *)
Context (lo stop : Z) (st0 : mmu_state).
Abbreviation mappable := (mappable lo stop 0).
Abbreviation greedy := (greedy lo stop 0).

Hypothesis Hrange : 0 <= lo < stop /\ stop <= 2 ^ 48.
Hypothesis Halign : lo mod 4096 = 0 /\ stop mod 4096 = 0.

(** [lo, addr) is unmapped, the rest is mapped by the largest descriptors. *)
Record unmapped_to (st : mmu_state) (G : list (nat * Z)) (addr : Z) : Prop := {
  u_ok : tables_ok st G;
  u_range : lo <= addr <= stop /\ addr mod 4096 = 0;
  u_leaf : forall va l, addr <= va < stop -> greedy l va -> exists e, leaf (ents st) va l e;
  u_gone : forall va l e, lo <= va < addr -> ~ leaf (ents st) va l e;
  u_frame : forall va l e, 0 <= va < 2 ^ 48 -> ~ (lo <= va < addr) ->
    leaf (ents st) va l e <-> leaf (ents st0) va l e;
  u_split : forall l va, mappable l va -> sb l va < addr -> sb l va + 2 ^ sh l <= addr
}.

(** The translations of [lo, addr) have been dropped from the TLB.  The code
    computes the offset in 32 bits. *)
Definition flushed (st : mmu_state) (addr : Z) : Prop :=
  stop - lo <= 2 ^ 32 ->
  forall va l, lo <= va < addr -> greedy l va -> sb l va / 4096 ∈ tlbis st.

Lemma in_range_greedy va : lo <= va < stop -> exists l, greedy l va.
Proof.
  intros Hva. apply greedy_exists. apply mappable_page; [tauto | tauto | done | done].
Qed.

(** One descriptor taken away. *)
Lemma clear_slot st G l k addr : unmapped_to st G addr -> mappable l addr ->
  (forall l', (l' < l)%nat -> ~ mappable l' addr) ->
  table_at (ents st) l addr = Some (tab k) -> G !! k = Some (l, tb l addr) ->
  exists e, ents st !! ea k (ix l addr) = Some e /\
    Z.land e 3 = (if (l =? 3)%nat then 3 else 1) /\
    let st' := set_ents st (<[ea k (ix l addr) := 0]> (ents st)) in
    unmapped_to st' G (addr + 2 ^ sh l) /\
    forall va, 0 <= va < 2 ^ 48 -> table_at (ents st') l va = table_at (ents st) l va.
Proof.
  intros HU Hm Habove Ht Hk. destruct (u_range _ _ _ HU) as [Hr Hr4].
  pose proof (mappable_start _ _ _ l addr (u_split _ _ _ HU) Hm) as Hsb.
  pose proof (mappable_bounds _ _ _ _ _ Hm) as Hb.
  assert (1 <= l <= 3)%nat as Hl by (by destruct Hm).
  destruct (pow_sh l ltac:(lia)) as (q & Hq & Hq0).
  assert (addr + 2 ^ sh l <= stop) as Hend by (destruct Hm as (_ & _ & H & _); lia).
  assert (greedy l addr) as Hg by (split; [done | apply Habove; lia]).
  destruct (u_leaf _ _ _ HU addr l ltac:(lia) Hg) as (e & _ & He & Hleaf).
  unfold entry in He. rewrite Ht in He. cbn in He. fold (ea k (ix l addr)) in He.
  exists e. split; [done |]. split.
  { unfold is_leaf, is_subtable in Hleaf. destruct (l =? 3)%nat; [by apply Z.eqb_eq |].
    apply andb_true_iff in Hleaf as [_ H]. by apply Z.eqb_eq. }
  intros st'. pose proof (u_ok _ _ _ HU) as HI. pose proof (ix_range l addr) as Hix.
  pose proof (leaf_or_last l e Hleaf ltac:(lia)) as Hold.
  assert (l = 3%nat \/ is_subtable 0 = false) as Hnew by by right.
  assert (tb l addr + ix l addr * 2 ^ sh l = addr) as Hslot by (rewrite <- tb_sb by lia; done).
  assert (forall l1 va, 0 <= va < 2 ^ 48 -> (l1 <= 3)%nat -> ~ (addr <= va < addr + 2 ^ sh l) ->
    entry (ents st') l1 va = entry (ents st) l1 va) as Hout.
  { intros l1 va Hva Hl1 Hne. eapply swap_entry_out; try done. rewrite Hslot. intros [-> Hs].
    pose proof (sb_le l va ltac:(lia)). lia. }
  assert (forall va l1 e1, addr <= va < addr + 2 ^ sh l -> ~ leaf (ents st') va l1 e1) as Hin.
  { intros va l1 e1 Hva Hlf. assert (sb l va = addr) as Hs by (rewrite <- Hsb; apply sb_same; lia).
    eapply (leaf_not_free _ _ va l1 e1 3); [lia | exact Hlf |]. exists l, 0. split; [lia |].
    split; [| done]. eapply swap_entry_in; try done; [lia | |].
    - rewrite <- Ht. apply table_at_cong; [lia | | lia | lia].
      destruct l as [|l]; [lia |]. rewrite !tb_succ by lia.
      apply (sb_same_up l (S l)); [lia | lia |]. congruence.
    - apply ix_same; [lia |]. congruence. }
  split; [| intros va Hva; by eapply swap_table_at; try done; lia].
  constructor.
  - eapply swap_ok; try done. by left.
  - split; [lia |]. rewrite Hq. dlia.
  - intros va l1 Hva Hg1. destruct (u_leaf _ _ _ HU va l1 ltac:(lia) Hg1) as (e1 & H1 & H2 & H3).
    exists e1. split; [done |]. split; [| done]. rewrite Hout; [done | lia | done | lia].
  - intros va l1 e1 Hva. destruct (decide (addr <= va)); [apply Hin; lia |].
    intros (H1 & H2 & H3). rewrite Hout in H2 by lia. eapply (u_gone _ _ _ HU va l1 e1); [lia | done].
  - intros va l1 e1 Hva Hne. rewrite <- (u_frame _ _ _ HU va l1 e1 Hva ltac:(lia)).
    unfold MmuTables.leaf. destruct (decide (l1 <= 3)%nat); [| tauto]. by rewrite Hout by (done || lia).
  - apply split_next; [apply (u_split _ _ _ HU) | done | lia | done].
Qed.

(** ** A run of descriptors of one table *)
Section Run.
Context (st : mmu_state) (G : list (nat * Z)) (l k : nat) (first last : Z).
Hypothesis HU : unmapped_to st G first.
Hypothesis Hm : mappable l first.
Hypothesis Habove : forall l', (l' < l)%nat -> ~ mappable l' first.
Hypothesis Ht : table_at (ents st) l first = Some (tab k).
Hypothesis Hk : G !! k = Some (l, tb l first).
Hypothesis Hlast : first <= last < stop /\ (last + 1) mod 2 ^ sh l = 0 /\ tb l last = tb l first.

Lemma run_level : (1 <= l <= 3)%nat.
Proof. by destruct Hm. Qed.

(** The slots of the run. *)
Lemma run_slot i : ix l first <= i <= ix l last ->
  let a := tb l first + i * 2 ^ sh l in
  0 <= i < 512 /\ sb l a = a /\ ix l a = i /\ tb l a = tb l first /\ first <= a /\ a + 2 ^ sh l <= last + 1.
Proof.
  intros Hi a. pose proof run_level as Hl. destruct Hlast as (Hl1 & Hl2 & Hl3).
  pose proof (ix_range l first). pose proof (ix_range l last).
  destruct (slot_at l first i ltac:(lia) ltac:(lia)) as (H1 & H2 & H3). fold a in H1, H2, H3.
  pose proof (mappable_start _ _ _ l first (u_split _ _ _ HU) Hm) as Hsb.
  pose proof (tb_sb l first ltac:(lia)) as Htb. rewrite Hsb in Htb.
  pose proof (run_end l first last ltac:(lia) (eq_sym Hl3) Hl2) as Hend.
  pose proof (sh_range l ltac:(lia)). assert (0 < 2 ^ sh l) by lia.
  split; [lia |]. do 3 (split; [done |]). unfold a.
  pose proof (Z.mul_le_mono_nonneg_r (ix l first) i (2 ^ sh l) ltac:(lia) ltac:(lia)).
  pose proof (Z.mul_le_mono_nonneg_r i (ix l last) (2 ^ sh l) ltac:(lia) ltac:(lia)). lia.
Qed.

Lemma run_mappable i : ix l first <= i <= ix l last ->
  mappable l (tb l first + i * 2 ^ sh l) /\
  forall l', (l' < l)%nat -> ~ mappable l' (tb l first + i * 2 ^ sh l).
Proof.
  intros Hi. pose proof run_level as Hl. destruct (run_slot i Hi) as (_ & Hsb & _ & Htb & Hlo & Hhi).
  destruct (u_range _ _ _ HU). destruct Hlast as (Hl1 & _). split.
  - split; [done |]. rewrite Hsb. split; [lia |]. split; [lia |]. apply Zmod_0_l.
  - intros l' Hl' Hm'. apply (Habove l' Hl'). eapply mappable_same; [| exact Hm'].
    by apply (tb_above l); [done | lia |].
Qed.

Definition clear_entry (x : mmu_state) (i : Z) : res mmu_state :=
  e ← rd x (tab k + 8 * i);
  _ ← c_assert (Z.land e 3 =? (if (l =? 3)%nat then 3 else 1));
  wr x (tab k + 8 * i) 0.

Lemma clear_run : exists st1,
  foldM clear_entry st (range (ix l first) (ix l last + 1)) = Ok st1 /\
  unmapped_to st1 G (last + 1) /\ tlbis st1 = tlbis st /\
  forall j, ix l first <= j <= ix l last -> ents st1 !! ea k j = Some 0.
Proof.
  pose proof run_level as Hl. destruct Hlast as (Hl1 & Hl2 & Hl3).
  pose proof (mappable_start _ _ _ l first (u_split _ _ _ HU) Hm) as Hsb.
  pose proof (tb_sb l first ltac:(lia)) as Htb. rewrite Hsb in Htb.
  pose proof (run_end l first last ltac:(lia) (eq_sym Hl3) Hl2) as Hend.
  pose proof (sh_range l ltac:(lia)). assert (0 < 2 ^ sh l) as Hp by lia.
  assert (ix l first <= ix l last) as Hle by nia.
  destruct (u_range _ _ _ HU) as [Hr _].
  destruct (foldM_range (fun i x =>
    unmapped_to x G (tb l first + i * 2 ^ sh l) /\ tlbis x = tlbis st /\
    (forall j, ix l first <= j < i -> ents x !! ea k j = Some 0) /\
    (forall va, 0 <= va < 2 ^ 48 -> table_at (ents x) l va = table_at (ents st) l va))
    clear_entry st (ix l first) (ix l last + 1)) as (st1 & Hf & HU1 & Htl & Hz & _).
  - lia.
  - split; [by rewrite <- Htb |]. split; [done |]. split; [intros; lia | done].
  - intros i x Hi (HUx & Htl & Hz & Htx).
    destruct (run_slot i ltac:(lia)) as (Hi512 & Hs & Hix & Htbi & Hlo & Hhi).
    destruct (run_mappable i ltac:(lia)) as [Hmi Hai].
    set (a := tb l first + i * 2 ^ sh l) in *.
    destruct (clear_slot x G l k a HUx Hmi Hai) as (e & He & H3 & HU' & Ht').
    { rewrite Htx by lia. rewrite <- Ht. apply table_at_cong; [lia | done | lia | lia]. }
    { by rewrite Htbi. }
    rewrite Hix in He, HU', Ht'. unfold clear_entry. fold (ea k i). rewrite (rd_ok _ _ _ He). cbn [mbind res_bind].
    rewrite H3, Z.eqb_refl. cbn [c_assert mbind res_bind]. rewrite (wr_ok _ _ _ _ He).
    eexists. split; [done |]. split; [| split; [done | split]].
    + replace (tb l first + (i + 1) * 2 ^ sh l) with (a + 2 ^ sh l) by (unfold a; lia). done.
    + intros j Hj. cbn [ents set_ents]. destruct (decide (j = i)) as [-> | Hne]; [apply lookup_insert_eq |].
      rewrite lookup_insert_ne; [apply Hz; lia |]. unfold ea. lia.
    + intros va Hva. rewrite Ht' by done. by apply Htx.
  - exists st1. split; [done |]. rewrite Hend. split; [done |]. split; [done |]. intros j Hj. apply Hz. lia.
Qed.

Definition flush_entry (x : mmu_state) (i : Z) : res mmu_state :=
  e ← rd x (tab k + 8 * i);
  _ ← c_assert (negb (flag e 1));
  let addr := u64 (first + u32 (Z.shiftl (i - ix l first) (sh l))) in
  Ok (add_tlbi x (Z.shiftr addr 12)).

Lemma flush_run st1 : (forall j, ix l first <= j <= ix l last -> ents st1 !! ea k j = Some 0) ->
  exists st2, foldM flush_entry st1 (range (ix l first) (ix l last + 1)) = Ok st2 /\
    ents st2 = ents st1 /\ next_pagetable st2 = next_pagetable st1 /\
    (forall t, t ∈ tlbis st1 -> t ∈ tlbis st2) /\
    (stop - lo <= 2 ^ 32 -> forall i, ix l first <= i <= ix l last ->
      (tb l first + i * 2 ^ sh l) / 4096 ∈ tlbis st2).
Proof.
  intros Hz. pose proof run_level as Hl. destruct Hlast as (Hl1 & Hl2 & Hl3).
  pose proof (mappable_start _ _ _ l first (u_split _ _ _ HU) Hm) as Hsb.
  pose proof (tb_sb l first ltac:(lia)) as Htb. rewrite Hsb in Htb.
  pose proof (run_end l first last ltac:(lia) (eq_sym Hl3) Hl2) as Hend.
  pose proof (sh_range l ltac:(lia)). assert (0 < 2 ^ sh l) as Hp by lia.
  assert (ix l first <= ix l last) as Hle by nia.
  destruct (u_range _ _ _ HU) as [Hr _].
  destruct (foldM_range (fun i x =>
    ents x = ents st1 /\ next_pagetable x = next_pagetable st1 /\
    (forall t, t ∈ tlbis st1 -> t ∈ tlbis x) /\
    (stop - lo <= 2 ^ 32 -> forall j, ix l first <= j < i ->
      (tb l first + j * 2 ^ sh l) / 4096 ∈ tlbis x))
    flush_entry st1 (ix l first) (ix l last + 1)) as (st2 & Hf & He & Hn & Ho & Hnew).
  - lia.
  - split; [done |]. split; [done |]. split; [done |]. intros; lia.
  - intros i x Hi (He & Hn & Ho & Hnew). unfold flush_entry. fold (ea k i).
    rewrite (rd_ok x (ea k i) 0) by (rewrite He; apply Hz; lia). cbn [mbind res_bind].
    change (negb (flag 0 1)) with true. cbn [c_assert mbind res_bind].
    eexists. split; [done |]. cbn [ents next_pagetable tlbis add_tlbi]. split; [done |]. split; [done |].
    split; [intros t Hin; apply elem_of_app; left; by apply Ho |].
    intros H32 j Hj. apply elem_of_app. destruct (decide (j = i)) as [-> | Hne]; [right | left; apply Hnew; [done | lia]].
    apply list_elem_of_singleton.
    destruct (run_slot i ltac:(lia)) as (_ & _ & _ & _ & Hlo & Hhi).
    rewrite Z.shiftl_mul_pow2 by lia. rewrite u32_small by nia. rewrite u64_small by nia.
    rewrite Z.shiftr_div_pow2 by lia. change (2 ^ 12) with 4096. f_equal. lia.
  - exists st2. split; [done |]. split; [done |]. split; [done |]. split; [done |].
    intros H32 i Hi. apply Hnew; [done | lia].
Qed.

(** Both loops of the branch. *)
Lemma run_ok : flushed st first -> exists st1 st2,
  foldM clear_entry st (range (ix l first) (ix l last + 1)) = Ok st1 /\
  foldM flush_entry st1 (range (ix l first) (ix l last + 1)) = Ok st2 /\
  unmapped_to st2 G (last + 1) /\ flushed st2 (last + 1).
Proof.
  intros Hfl. destruct clear_run as (st1 & Hc & HU1 & Htl & Hz).
  destruct (flush_run st1 Hz) as (st2 & Hf & He & Hn & Ho & Hnew).
  exists st1, st2. split; [done |]. split; [done |].
  pose proof run_level as Hl. destruct Hlast as (Hl1 & Hl2 & Hl3). destruct (u_range _ _ _ HU) as [Hr _]. split.
  - destruct HU1 as [[] ? ? ? ? ?]. constructor; rewrite ?He; try done. constructor; rewrite ?He, ?Hn; done.
  - intros H32 va lv Hva Hg. destruct (decide (va < first)) as [Hlt | Hge].
    { apply Ho. rewrite Htl. by apply Hfl; [| lia |]. }
    pose proof (tb_le l first ltac:(lia)). pose proof (tb_le l last ltac:(lia)) as Htl'. rewrite Hl3 in Htl'.
    assert (tb l va = tb l first) as Htv by (apply tb_same; lia).
    pose proof (tb_sb l va ltac:(lia)) as Hsv. rewrite Htv in Hsv.
    pose proof (mappable_start _ _ _ l first (u_split _ _ _ HU) Hm) as Hsb.
    pose proof (tb_sb l first ltac:(lia)) as Htb. rewrite Hsb in Htb.
    pose proof (run_end l first last ltac:(lia) (eq_sym Hl3) Hl2) as Hend.
    pose proof (sh_range l ltac:(lia)). assert (0 < 2 ^ sh l) as Hp by lia.
    pose proof (sb_le l va ltac:(lia)) as Hsle.
    assert (ix l first <= ix l va <= ix l last) as Hi by nia.
    destruct (run_mappable _ Hi) as [Hmi Hai]. destruct (run_slot _ Hi) as (_ & Hss & _).
    rewrite <- Hsv in Hmi, Hai, Hss.
    assert (greedy l va) as Hgl.
    { split; [by eapply mappable_same; [| exact Hmi] |]. intros Hm'. apply (Hai (l - 1)%nat ltac:(lia)).
      eapply mappable_same; [| exact Hm']. apply (sb_same_up (l - 1) l); [lia | lia | done]. }
    rewrite (greedy_unique _ _ _ _ _ _ Hg Hgl), Hsv. by apply Hnew.
Qed.
End Run.

(** ** One level of [unmap_one] *)

(** The end of the range, clipped to the table of level [l]. *)
Definition clip (l : nat) (first : Z) : Z := Z.min (stop - 1) (tb l first + 2 ^ (sh l + 9) - 1).

Lemma lor_mask l x : (l <= 3)%nat -> 0 <= x -> Z.lor x (MASK64 (sh l)) = sb l x + 2 ^ sh l - 1.
Proof.
  intros Hl Hx. pose proof (sh_range l Hl). rewrite mask_sh. unfold sb.
  assert (Z.lor x (2 ^ sh l - 1) = Z.lor (2 ^ sh l - 1) (Z.shiftl (x / 2 ^ sh l) (sh l))) as ->.
  { rewrite <- Z.shiftr_div_pow2 by lia. apply Z.bits_inj'; intros n Hn. rewrite !Z.lor_spec.
    rewrite Z.sub_1_r, <- Z.ones_equiv. destruct (Z.lt_ge_cases n (sh l)).
    - rewrite Z.ones_spec_low by lia. by rewrite orb_true_r.
    - rewrite Z.shiftl_spec, Z.shiftr_spec by lia. replace (n - sh l + sh l) with n by lia.
      rewrite Z.ones_spec_high by lia. by rewrite orb_false_r. }
  rewrite lor_shiftl_add by lia. lia.
Qed.

(** The part of a run that fits: its last address, as the code rounds it. *)
Lemma round_down l first last : (l <= 3)%nat -> 0 <= first -> sb l first = first ->
  first + 2 ^ sh l <= last + 1 -> last < 2 ^ 48 ->
  let last' := if Z.land last (MASK64 (sh l)) =? MASK64 (sh l) then last
               else Z.lor (u64 (last - Z.shiftl 1 (sh l))) (MASK64 (sh l)) in
  first <= last' <= last /\ (last' + 1) mod 2 ^ sh l = 0.
Proof.
  intros Hl Hf Hsb Hle Hmax. pose proof (sh_range l Hl). cbv zeta. rewrite land_mask by done. rewrite mask_sh.
  pose proof (sb_sub l last Hl) as Hmod. pose proof (sb_le l last Hl).
  destruct (Z.eqb_spec (last mod 2 ^ sh l) (2 ^ sh l - 1)) as [He | He].
  - split; [lia |]. destruct (sb_mult l last) as [q Hq].
    replace (last + 1) with ((q + 1) * 2 ^ sh l) by lia. apply Z.mod_mul. lia.
  - destruct (sb_mult l last) as [q Hq]. destruct (sb_mult l first) as [r Hr].
    assert (r < q) as Hrq by nia. assert (first + 2 ^ sh l <= last) by nia.
    rewrite Z.shiftl_1_l, u64_small by lia. rewrite <- mask_sh, lor_mask by lia.
    assert (sb l (last - 2 ^ sh l) = (q - 1) * 2 ^ sh l) as -> by (apply sb_unique; lia).
    split; [nia |].
    replace ((q - 1) * 2 ^ sh l + 2 ^ sh l - 1 + 1) with (q * 2 ^ sh l) by lia. apply Z.mod_mul. lia.
Qed.

Lemma slot_in_table l x : (l <= 3)%nat ->
  tb l x <= sb l x /\ sb l x + 2 ^ sh l <= tb l x + 2 ^ (sh l + 9).
Proof.
  intros Hl. rewrite (tb_sb l x Hl), pow_cover by done. pose proof (ix_range l x).
  pose proof (sh_range l Hl). assert (0 < 2 ^ sh l) by lia. nia.
Qed.

(** The comparison of the code: [b] lies behind the slot of [a]. *)
Lemma shiftr_lt l a b : (l <= 3)%nat ->
  (Z.shiftr a (sh l) <? Z.shiftr b (sh l)) = (sb l a + 2 ^ sh l <=? b).
Proof.
  intros Hl. pose proof (sh_range l Hl). rewrite !Z.shiftr_div_pow2 by lia. unfold sb.
  apply eq_true_iff_eq. rewrite Z.ltb_lt, Z.leb_le.
  replace (a / 2 ^ sh l * 2 ^ sh l + 2 ^ sh l) with (2 ^ sh l * (a / 2 ^ sh l + 1)) by lia.
  split; intros H1.
  - transitivity (2 ^ sh l * (b / 2 ^ sh l)); [apply Z.mul_le_mono_nonneg_l; lia | apply Z.mul_div_le; lia].
  - apply Z.div_le_lower_bound in H1; lia.
Qed.

(** The test of the code is that the slot can be unmapped as a whole. *)
Lemma unmap_test st G l first : unmapped_to st G first -> (l <= 3)%nat -> first < stop ->
  let last := clip l first in let mask := MASK64 (sh l) in
  negb (l =? 0)%nat && (Z.land first mask =? 0) &&
  ((Z.land last mask =? mask) || (Z.shiftr first (sh l) <? Z.shiftr last (sh l)))
  = bool_decide (mappable l first).
Proof.
  intros HU Hl Hlt. cbv zeta. destruct (u_range _ _ _ HU) as [Hr _]. pose proof (sh_range l Hl).
  rewrite shiftr_lt, !land_mask by done. rewrite mask_sh.
  pose proof (slot_in_table l first Hl) as Hin. pose proof (sb_le l first Hl) as Hs.
  pose proof (sb_sub l (clip l first) Hl) as Hmod. pose proof (sb_le l (clip l first) Hl) as Hsl.
  destruct (decide (mappable l first)) as [Hm | Hm].
  - rewrite bool_decide_eq_true_2 by done.
    pose proof (mappable_start _ _ _ l first (u_split _ _ _ HU) Hm) as Hsb. destruct Hm as (Hl1 & _ & Hend & _).
    rewrite (proj2 (Nat.eqb_neq l 0)) by lia. rewrite (proj2 (sb_mod0 l first Hl) Hsb). cbn [negb Z.eqb andb].
    apply orb_true_iff. destruct (Z.le_gt_cases (sb l first + 2 ^ sh l) (clip l first)) as [? | Hgt]; [right; zb |].
    left. apply Z.eqb_eq. assert (clip l first = first + 2 ^ sh l - 1) as Hcl by (unfold clip in *; lia).
    rewrite Hmod, Hcl. rewrite (sb_same l first) by lia. lia.
  - rewrite bool_decide_eq_false_2 by done. apply not_true_is_false. intros Hc1.
    apply andb_true_iff in Hc1 as [[H1 H2]%andb_true_iff H3]. apply Hm.
    apply negb_true_iff, Nat.eqb_neq in H1. apply Z.eqb_eq, sb_mod0 in H2; [| done].
    split; [lia |]. rewrite H2. split; [lia |]. split; [| apply Zmod_0_l].
    assert (first + 2 ^ sh l <= clip l first + 1); [| unfold clip in *; lia].
    apply orb_true_iff in H3 as [H3%Z.eqb_eq | H3%Z.leb_le]; [| lia].
    assert (first <= clip l first) as Hfc by (unfold clip; lia).
    destruct (Z.le_gt_cases (first + 2 ^ sh l) (clip l first)) as [? | Hgt]; [lia |].
    rewrite (sb_same l first (clip l first)) in Hmod by lia. lia.
Qed.

Lemma clip_next l first : (l < 3)%nat -> 0 <= first < stop ->
  (if Z.shiftr first (sh l) <? Z.shiftr (clip l first) (sh l) then Z.lor first (MASK64 (sh l)) else clip l first)
  = clip (S l) first.
Proof.
  intros Hl Hf. rewrite shiftr_lt, lor_mask by lia.
  pose proof (slot_in_table l first ltac:(lia)) as Hin. pose proof (sb_le l first ltac:(lia)) as Hs.
  unfold clip. rewrite tb_succ by done. replace (sh (S l) + 9) with (sh l) by (unfold sh; lia).
  case_bool; lia.
Qed.

Lemma unmap_level_ok st G l k first : unmapped_to st G first -> flushed st first -> first < stop ->
  (l <= 3)%nat -> table_at (ents st) l first = Some (tab k) -> G !! k = Some (l, tb l first) ->
  (forall l', (l' < l)%nat -> ~ mappable l' first) ->
  (exists st' last, unmap_level st (tab k) first (clip l first) (Z.of_nat l) = Ok (st', inr last) /\
     first <= last < stop /\ unmapped_to st' G (last + 1) /\ flushed st' (last + 1)) \/
  ((l < 3)%nat /\ ~ mappable l first /\ exists k',
     unmap_level st (tab k) first (clip l first) (Z.of_nat l) = Ok (st, inl (tab k', clip (S l) first)) /\
     table_at (ents st) (S l) first = Some (tab k') /\ G !! k' = Some (S l, tb (S l) first)).
Proof.
  intros HU Hfl Hlt Hl Ht Hk Habove. destruct (u_range _ _ _ HU) as [Hr Hr4].
  unfold unmap_level. rewrite pte_lvls_get by done.
  cbn [mbind res_bind shift mapping_allowed last_level].
  rewrite (unmap_test st G) by done. rewrite !ubfx_ix by done.
  destruct (decide (mappable l first)) as [Hm | Hm].
  - left. rewrite bool_decide_eq_true_2 by done.
    pose proof (mappable_start _ _ _ l first (u_split _ _ _ HU) Hm) as Hsb.
    pose proof (tb_sb l first Hl) as Htb. pose proof (ix_range l first) as Hix.
    pose proof (pow_cover l Hl) as Hc. pose proof (sh_range l Hl). assert (0 < 2 ^ sh l) as Hp by lia.
    destruct (round_down l first (clip l first)) as [Hb Ha]; [done | lia | done | | unfold clip; lia |].
    { destruct Hm as (_ & _ & Hend & _). unfold clip. nia. }
    set (last := if Z.land (clip l first) (MASK64 (sh l)) =? MASK64 (sh l) then _ else _) in *.
    clearbody last. assert (clip l first < stop /\ clip l first < tb l first + 2 ^ (sh l + 9)) as Hcs by (unfold clip; lia).
    pose proof (tb_le l first Hl) as Htl.
    destruct (run_ok st G l k first last HU Hm Habove Ht Hk) as (st1 & st2 & H1 & H2 & HU2 & Hfl2).
    { split; [lia |]. split; [done |]. apply tb_same; [done | lia]. }
    { done. }
    exists st2, last. split; [| split; [lia | done]].
    change (foldM _ st (range (ix l first) (ix l last + 1)))
      with (foldM (clear_entry l k) st (range (ix l first) (ix l last + 1))).
    rewrite H1. cbn [mbind res_bind].
    change (foldM _ st1 (range (ix l first) (ix l last + 1)))
      with (foldM (flush_entry l k first) st1 (range (ix l first) (ix l last + 1))).
    rewrite H2. done.
  - right. rewrite bool_decide_eq_false_2 by done.
    destruct (in_range_greedy first ltac:(lia)) as [lv Hg].
    destruct (u_leaf _ _ _ HU first lv ltac:(lia) Hg) as (e0 & Hlv & He0 & _).
    assert (l < lv)%nat as Hlv'.
    { destruct Hg as [Hg _]. destruct (Nat.lt_trichotomy l lv) as [? | [-> | ?]]; [done | done |].
      exfalso. by apply (Habove lv). }
    assert (l < 3)%nat as Hl3 by lia. split; [done |]. split; [done |].
    rewrite (proj2 (Nat.eqb_neq l 3)) by lia.
    unfold entry in He0. destruct (table_at (ents st) lv first) as [t|] eqn:Htv; [| done].
    destruct (entry_above _ _ lv l first t Hlv' Htv) as (e & He & Hs & HtS).
    destruct (table_at_G _ _ st G (S l) first _ (u_ok _ _ _ HU) ltac:(lia) ltac:(lia) HtS) as (k' & Hk' & HG').
    unfold entry in He. rewrite Ht in He. cbn in He. rewrite (rd_ok _ _ _ He). cbn [mbind res_bind].
    unfold is_subtable in Hs. rewrite Hs. cbn [c_assert mbind res_bind]. unfold entry2subtable.
    exists k'. rewrite clip_next by lia. rewrite Hk' in *. done.
Qed.

(** ** The whole range *)
Lemma unmap_levels_ok n st G l k first : (l + n = 4)%nat -> (l <= 3)%nat ->
  unmapped_to st G first -> flushed st first -> first < stop ->
  table_at (ents st) l first = Some (tab k) -> G !! k = Some (l, tb l first) ->
  (forall l', (l' < l)%nat -> ~ mappable l' first) ->
  exists st' last, unmap_levels n st (tab k) first (clip l first) = Ok (st', last) /\
    first <= last < stop /\ unmapped_to st' G (last + 1) /\ flushed st' (last + 1).
Proof.
  revert l k. induction n as [|n IH]; intros l k Hn Hl HU Hfl Hlt Ht Hk Habove; [lia |].
  cbn [unmap_levels]. replace (3 - Z.of_nat n) with (Z.of_nat l) by lia.
  destruct (unmap_level_ok st G l k first HU Hfl Hlt Hl Ht Hk Habove)
    as [(st' & last & -> & H) | (Hl3 & Hm & k' & -> & Ht' & Hk')]; cbn [mbind res_bind].
  - by exists st', last.
  - apply (IH (S l)); try done; [lia |]. intros l' Hl'. destruct (decide (l' = l)) as [-> |]; [done |].
    apply Habove. lia.
Qed.

Lemma unmap_one_ok st G first : unmapped_to st G first -> flushed st first -> first < stop ->
  exists st' last, unmap_one st pagetables first (stop - 1) = Ok (st', last) /\
    first <= last < stop /\ unmapped_to st' G (last + 1) /\ flushed st' (last + 1).
Proof.
  intros HU Hfl Hlt. destruct (u_range _ _ _ HU) as [Hr _]. unfold unmap_one.
  assert (tb 0 first = 0) as Htb by (unfold tb; rewrite Z.div_small by (unfold sh; lia); done).
  assert (clip 0 first = stop - 1) as Hc.
  { unfold clip. rewrite Htb. change (2 ^ (sh 0 + 9)) with (2 ^ 48). lia. }
  assert (tab 0 = pagetables) as Ht0 by (unfold tab; lia).
  replace (unmap_levels (length pte_lvls) st pagetables first (stop - 1))
    with (unmap_levels 4 st (tab 0) first (clip 0 first)) by (by rewrite Hc, Ht0).
  apply unmap_levels_ok; try done; try lia.
  - cbn [MmuTables.table_at]. by rewrite Ht0.
  - rewrite Htb. apply (ok_root _ _ _ _ (u_ok _ _ _ HU)).
Qed.

Lemma unmap_loop_ok fuel st G first : unmapped_to st G first -> flushed st first -> first < stop ->
  (stop - first) / 4096 < Z.of_nat fuel ->
  exists st', unmap_loop pagetables fuel st first (stop - 1) = Ok st' /\
    unmapped_to st' G stop /\ flushed st' stop.
Proof.
  revert st first. induction fuel as [|fuel IH]; intros st first HU Hfl Hlt Hf.
  { assert (0 <= (stop - first) / 4096) by (apply Z.div_pos; lia). lia. }
  cbn [unmap_loop]. destruct (unmap_one_ok st G first HU Hfl Hlt) as (st' & last & -> & Hb & HU' & Hfl').
  cbn [mbind res_bind]. destruct (u_range _ _ _ HU) as [Hr Hr4]. destruct (u_range _ _ _ HU') as [Hr' Hr4'].
  destruct (Z.ltb_spec last (stop - 1)) as [Hl | Hl].
  - rewrite u64_small by lia. apply IH; [done | done | lia |].
    assert (first + 4096 <= last + 1) by dlia. destruct Halign. dlia.
  - exists st'. replace stop with (last + 1) by lia. done.
Qed.
End Unmap.

(** ** The entry point *)

(** The range is mapped the way [mmu_map_range] maps it: each address by the
    largest descriptor that lies in the range. *)
Definition range_mapped (pagetables first last : Z) (st : mmu_state) : Prop :=
  forall va l, first <= va <= last -> greedy first (last + 1) 0 l va ->
    exists e, leaf pagetables (ents st) va l e.

Lemma mmu_unmap_range_run pagetables num_pagetables st G first last :
  tables_ok pagetables num_pagetables st G ->
  0 <= first < last -> last < 2 ^ 48 -> first mod 4096 = 0 -> (last + 1) mod 4096 = 0 ->
  range_mapped pagetables first last st ->
  exists st', mmu_unmap_range pagetables st first last = Ok st' /\
    unmapped_to pagetables num_pagetables first (last + 1) st st' G (last + 1) /\
    flushed first (last + 1) st' (last + 1).
Proof.
  intros HI Hr Hl Ha1 Ha2 Hmap. unfold mmu_unmap_range. assert_ok.
  assert (forall f, unmap_loop pagetables f st first last = unmap_loop pagetables f st first (last + 1 - 1)) as ->.
  { intros f. f_equal. lia. }
  eapply unmap_loop_ok.
  - lia.
  - done.
  - constructor; try done.
    + split; [lia | done].
    + intros va l Hva Hg. apply Hmap; [lia | done].
    + intros va l e Hva. lia.
    + intros l va (_ & H & _) ?. lia.
  - intros _ va l Hva. lia.
  - lia.
  - assert (0 <= (last + 1 - first) / 4096) by (apply Z.div_pos; lia). lia.
Qed.
