(* ===== verification/MmuRange.v ===== *)
(** * The page tables: what the entry points do

    [mmu_map_range] maps a range and nothing else, [mmu_unmap_range] takes it
    away again, and the C version of the mapping loop agrees with the assembly
    routine.  [room_enough] gives the number of tables a range can need, and
    [fresh] is the state of the tables at entry.  The last part shows where the
    two versions of the loop and their documentation differ. *)
From S2P Require Import MmuUnmap.

(** ** How many tables a range needs *)
Ltac in_list := apply list_elem_of_In; simpl; auto 10.

(** A range inside of one 512 GiB slot whose displacement is a multiple of
    1 GiB: one table below the root and two for each end. *)
Lemma needs_cases first last delta pagetables m s :
  0 <= first < last -> delta mod 2 ^ 30 = 0 -> sb 0 first = sb 0 last ->
  needs_table first (last + 1) delta pagetables m s ->
  s ∈ [(0%nat, sb 0 first); (1%nat, sb 1 first); (1%nat, sb 1 last); (2%nat, sb 2 first); (2%nat, sb 2 last)].
Proof.
  destruct s as [l b]. intros Hf Hd H0 (Hl & Hb & Hlo & Hhi & Hm & _). cbn [fst snd] in *.
  assert (b <= first < b + 2 ^ sh l -> b = sb l first) as Hfirst.
  { intros H. rewrite <- Hb. symmetry. apply sb_same; [lia |]. rewrite Hb. done. }
  assert (b <= last < b + 2 ^ sh l -> b = sb l last) as Hlast.
  { intros H. rewrite <- Hb. symmetry. apply sb_same; [lia |]. rewrite Hb. done. }
  destruct (decide (l = 0%nat)) as [-> | Hl0].
  - destruct (Z.le_gt_cases b first) as [? | Hgt].
    + rewrite <- Hfirst by lia. in_list.
    + destruct (Z.lt_ge_cases last (b + 2 ^ sh 0)); [rewrite H0, <- Hlast by lia; in_list |].
      exfalso. pose proof (sb_le 0 first ltac:(lia)). pose proof (sb_le 0 last ltac:(lia)). lia.
  - assert (b = sb l first \/ b = sb l last) as Hor.
    { destruct (Z.le_gt_cases b first) as [? | Hgt]; [left; apply Hfirst; lia |].
      destruct (Z.lt_ge_cases last (b + 2 ^ sh l)); [right; apply Hlast; lia |].
      exfalso. apply Hm, mappable_delta; [done |]. rewrite Hb. lia. }
    assert (l = 1%nat \/ l = 2%nat) as [-> | ->] by lia; destruct Hor as [-> | ->]; in_list.
Qed.

Lemma room_enough pagetables num_pagetables first last delta st :
  0 <= first < last -> delta mod 2 ^ 30 = 0 -> sb 0 first = sb 0 last ->
  next_pagetable st + 5 <= num_pagetables ->
  room first (last + 1) delta pagetables num_pagetables st.
Proof.
  intros Hf Hd H0 Hn A Hnd HA.
  assert (length A <= 5)%nat; [| lia].
  change 5%nat with (length [(0%nat, sb 0 first); (1%nat, sb 1 first); (1%nat, sb 1 last); (2%nat, sb 2 first); (2%nat, sb 2 last)]).
  apply submseteq_length, NoDup_submseteq; [done |]. intros s Hs.
  rewrite Forall_forall in HA. by eapply needs_cases; [| | | apply HA].
Qed.

(** ** The tables at entry: the root is empty, no other is handed out *)
Definition fresh (pagetables num_pagetables : Z) : mmu_state :=
  MMU (list_to_map ((fun i => (pagetables + 8 * i, 0)) <$> seqZ 0 (512 * num_pagetables))) 1 [].

Lemma fresh_entry pagetables num_pagetables i : 0 <= i < 512 * num_pagetables ->
  ents (fresh pagetables num_pagetables) !! (pagetables + 8 * i) = Some 0.
Proof.
  intros Hi. cbn [ents fresh]. apply elem_of_list_to_map_1.
  - rewrite <- list_fmap_compose. apply NoDup_fmap_2; [| apply NoDup_seqZ].
    intros x y H. cbn in H. lia.
  - apply list_elem_of_fmap. exists i. split; [done |]. apply elem_of_seqZ. lia.
Qed.

Lemma fresh_ok pagetables num_pagetables :
  0 <= pagetables -> pagetables mod 4096 = 0 -> 1 <= num_pagetables < 2 ^ 32 ->
  pagetables + 4096 * num_pagetables <= 2 ^ 48 ->
  tables_ok pagetables num_pagetables (fresh pagetables num_pagetables) [(0%nat, 0)].
Proof.
  intros Hb Ha Hn Hmax.
  assert (forall k i, Z.of_nat k < num_pagetables -> 0 <= i < 512 ->
    ents (fresh pagetables num_pagetables) !! ea pagetables k i = Some 0) as He.
  { intros k i Hk Hi. unfold ea, tab.
    replace (pagetables + 4096 * Z.of_nat k + 8 * i) with (pagetables + 8 * (512 * Z.of_nat k + i)) by lia.
    apply fresh_entry. lia. }
  constructor.
  - lia.
  - cbn. lia.
  - done.
  - intros k l b H. apply list_lookup_singleton_Some in H as [_ [= <- <-]]. lia.
  - intros k i Hk Hi. rewrite He by done. by eexists.
  - intros k l b i e H Hi Hei. apply list_lookup_singleton_Some in H as [-> _].
    rewrite He in Hei by (done || lia). injection Hei as <-. by left.
Qed.

Lemma fresh_free pagetables num_pagetables first stop delta : 1 <= num_pagetables ->
  range_free pagetables first stop delta (fresh pagetables num_pagetables).
Proof.
  intros Hn l va _. exists 0%nat, 0. split; [lia |]. split; [| done].
  unfold entry. cbn [table_at mbind option_bind]. apply fresh_entry. pose proof (ix_range 0 va). lia.
Qed.

Section Theorems.
Context (pagetables num_pagetables : Z).
Abbreviation translate := (translate pagetables num_pagetables).
Abbreviation tables_ok := (tables_ok pagetables num_pagetables).

(** C10: [mmu_map_range], through the assembly routine, maps [first, last] to
    [paddr] with the attributes asked for, leaves every other translation as it
    was, keeps the tables well-formed, and always returns: for every
    page-aligned request whose descriptors are free and whose tables fit. *)
Theorem mmu_map_range_correct st G first last paddr flags :
  tables_ok st G -> map_request pagetables num_pagetables first last paddr st ->
  exists st' G', mmu_map_range pagetables num_pagetables st first last paddr flags = Ok st' /\
    tables_ok st' G' /\
    (forall va, first <= va <= last -> translate st' va = Some (paddr + (va - first))) /\
    (forall va, first <= va <= last -> exists l e, leaf pagetables (ents st') va l e /\
       e mod 4096 = map_range_desc 0 flags - (if (l =? 3)%nat then 0 else 2)) /\
    (forall va, 0 <= va < 2 ^ 48 -> ~ (first <= va <= last) -> translate st' va = translate st va).
Proof.
  intros HI HR. destruct (map_attr_range flags) as [Hat Hat3].
  destruct (req_align _ _ _ _ _ _ HR) as (Ha & _ & Hp).
  destruct (mmu_map_range_run _ _ first last paddr flags st G HI HR) as (st' & G' & Hrun & HP).
  exists st', G'. split; [done |]. split; [by apply (p_ok _ _ _ _ _ _ _ _ _ _ HP) |].
  split; [intros va Hva; by apply (finished_inside _ _ _ _ _ _ _ HR _ _ _ HP) |]. split.
  - intros va Hva. destruct (finished_inside _ _ _ _ _ _ _ HR _ _ va HP Hva) as (_ & l & _ & Hlf).
    eexists l, _. split; [exact Hlf |]. destruct Hlf as [Hl _]. unfold leaf_desc. fold (map_attr flags).
    destruct (sb_mult l va) as [q ->]. destruct (pow_sh l Hl) as (r & -> & _).
    destruct (l =? 3)%nat; dlia.
  - intros va Hva Hout. by apply (finished_outside _ _ _ _ _ _ _ _ HI HR _ _ _ HP).
Qed.

(** [mmu_unmap_range] of a range that is mapped by the largest descriptors
    returns, drops every translation of the range and no other, keeps the
    tables well-formed, and has executed a [tlbi] for the slot of every
    descriptor it took away (for ranges of at most 4 GiB). *)
Theorem mmu_unmap_range_correct st G first last :
  tables_ok st G -> 0 <= first < last -> last < 2 ^ 48 ->
  first mod 4096 = 0 -> (last + 1) mod 4096 = 0 -> range_mapped pagetables first last st ->
  exists st', mmu_unmap_range pagetables st first last = Ok st' /\ tables_ok st' G /\
    (forall va, first <= va <= last -> translate st' va = None) /\
    (forall va, 0 <= va < 2 ^ 48 -> ~ (first <= va <= last) -> translate st' va = translate st va) /\
    (last + 1 - first <= 2 ^ 32 -> forall va l e, first <= va <= last ->
       leaf pagetables (ents st) va l e -> sb l va / 4096 ∈ tlbis st').
Proof.
  intros HI Hr Hl Ha1 Ha2 Hmap.
  destruct (mmu_unmap_range_run _ _ st G first last HI Hr Hl Ha1 Ha2 Hmap) as (st' & Hrun & HU & Hfl).
  pose proof (u_ok _ _ _ _ _ _ _ _ HU) as HI'. exists st'. split; [done |]. split; [done |]. split; [| split].
  - intros va Hva. eapply translate_none; [done | lia |]. intros l e. apply (u_gone _ _ _ _ _ _ _ _ HU). lia.
  - intros va Hva Hout. eapply translate_ext; [done | done | done |]. intros l e.
    apply (u_frame _ _ _ _ _ _ _ _ HU); [done | lia].
  - intros H32 va l e Hva Hlf.
    destruct (in_range_greedy first (last + 1) ltac:(lia) (conj Ha1 Ha2) va ltac:(lia)) as [lv Hg].
    destruct (Hmap va lv Hva Hg) as [e' Hlf'].
    destruct (leaf_unique _ _ _ _ _ _ _ Hlf Hlf') as [-> _]. apply Hfl; [done | lia | done].
Qed.

(** What [mmu_map_range] leaves is what [mmu_unmap_range] expects. *)
Lemma finished_mapped st st' G' first last paddr flags :
  map_request pagetables num_pagetables first last paddr st -> (paddr - first) mod 2 ^ 30 = 0 ->
  progress pagetables num_pagetables first (last + 1) paddr (map_attr flags) st st' G' (last + 1) ->
  range_mapped pagetables first last st'.
Proof.
  intros HR Hd HP va l Hva [Hg1 Hg2].
  destruct (finished_inside _ _ _ _ _ _ _ HR _ _ va HP Hva) as (_ & l' & Hg' & Hlf).
  assert (greedy first (last + 1) (paddr - first) l va) as Hg.
  { split; [apply mappable_delta; [done |]; by apply mappable_delta in Hg1 |].
    intros H. apply Hg2. apply mappable_delta; [done |]. by apply mappable_delta in H. }
  rewrite (greedy_unique _ _ _ _ _ _ Hg Hg'). by eexists.
Qed.

(** C30: Mapping a range of free addresses and unmapping it again gives back
    the translations of before, for a displacement [paddr - first] that is a
    multiple of 1 GiB, such as the 0 of an identity mapping.  For other
    displacements unmapping can fail an assertion, see
    [unmap_displaced_asserts]. *)
Theorem mmu_map_unmap_roundtrip st G first last paddr flags :
  tables_ok st G -> map_request pagetables num_pagetables first last paddr st ->
  (paddr - first) mod 2 ^ 30 = 0 ->
  exists st1 st2 G2, mmu_map_range pagetables num_pagetables st first last paddr flags = Ok st1 /\
    mmu_unmap_range pagetables st1 first last = Ok st2 /\ tables_ok st2 G2 /\
    forall va, 0 <= va < 2 ^ 48 -> translate st2 va = translate st va.
Proof.
  intros HI HR Hd. destruct (req_range _ _ _ _ _ _ HR) as [Hr Hl]. destruct (req_align _ _ _ _ _ _ HR) as (Ha & Ha2 & Hp).
  destruct (mmu_map_range_run _ _ first last paddr flags st G HI HR) as (st1 & G1 & Hrun & HP).
  pose proof (p_ok _ _ _ _ _ _ _ _ _ _ HP) as HI1.
  destruct (mmu_unmap_range_run _ _ st1 G1 first last HI1 Hr Hl Ha Ha2 (finished_mapped _ _ _ _ _ _ _ HR Hd HP))
    as (st2 & Hrun2 & HU & _).
  pose proof (u_ok _ _ _ _ _ _ _ _ HU) as HI2.
  exists st1, st2, G1. do 3 (split; [done |]). intros va Hva.
  destruct (decide (first <= va <= last)) as [Hin | Hout].
  - rewrite (translate_none _ _ st2 G1 va), (translate_none _ _ st G va); try done.
    + intros l e Hlf. eapply (leaf_not_free _ _ va l e 3); [lia | exact Hlf |]. apply (req_free _ _ _ _ _ _ HR).
      apply mappable_page; try done; [| lia]. dlia.
    + intros l e. apply (u_gone _ _ _ _ _ _ _ _ HU). lia.
  - eapply translate_ext; [done | done | done |]. intros l e.
    rewrite (u_frame _ _ _ _ _ _ _ _ HU) by lia.
    by apply (finished_outside _ _ _ _ _ _ _ _ HI HR _ _ _ HP).
Qed.

(** The C version of the mapping loop that documents the assembly routine
    returns on every request whose displacement is a multiple of 1 GiB, and then
    every address is translated as after the assembly routine. *)
Theorem multimap_reference_equiv st G first last paddr flags :
  tables_ok st G -> map_request pagetables num_pagetables first last paddr st ->
  (paddr - first) mod 2 ^ 30 = 0 ->
  exists st1 st2,
    multimap_reference pagetables num_pagetables (map_fuel first last) st pagetables
      [MultiMap first (map_range_desc paddr flags); MultiMap (last + 1) 0] = Ok (st1, []) /\
    mmu_map_range pagetables num_pagetables st first last paddr flags = Ok st2 /\
    forall va, 0 <= va < 2 ^ 48 -> translate st1 va = translate st2 va.
Proof.
  intros HI HR Hd.
  destruct (multimap_reference_run _ _ first last paddr flags st G HI HR Hd) as (st1 & G1 & Hrun1 & HP1).
  destruct (mmu_map_range_run _ _ first last paddr flags st G HI HR) as (st2 & G2 & Hrun2 & HP2).
  exists st1, st2. do 2 (split; [done |]). intros va Hva.
  destruct (decide (first <= va <= last)) as [Hin | Hout].
  - destruct (finished_inside _ _ _ _ _ _ _ HR _ _ va HP1 Hin) as [-> _].
    by destruct (finished_inside _ _ _ _ _ _ _ HR _ _ va HP2 Hin) as [-> _].
  - destruct (finished_outside _ _ _ _ _ _ _ _ HI HR _ _ va HP1 Hva Hout) as [_ ->].
    by destruct (finished_outside _ _ _ _ _ _ _ _ HI HR _ _ va HP2 Hva Hout) as [_ ->].
Qed.
End Theorems.

(** ** A concrete request: DRAM of the SRAM stage, with tables at 0xff8d0000 *)
Definition demo_tables : Z := 0xff8d0000.
Abbreviation demo_fresh := (fresh demo_tables 6).

Lemma demo_fresh_ok : tables_ok demo_tables 6 demo_fresh [(0%nat, 0)].
Proof. apply fresh_ok; unfold demo_tables; (lia || done). Qed.

Lemma demo_request : map_request demo_tables 6 0 0xf7ffffff 0 demo_fresh.
Proof.
  constructor; [lia | done | lia | apply fresh_free; lia |].
  apply room_enough; [lia | done | done |]. cbn. lia.
Qed.

Lemma mmu_map_range_correct_witness : exists st' G',
  mmu_map_range demo_tables 6 demo_fresh 0 0xf7ffffff 0 4 = Ok st' /\
  tables_ok demo_tables 6 st' G' /\ translate demo_tables 6 st' 0x12345678 = Some 0x12345678.
Proof.
  destruct (mmu_map_range_correct demo_tables 6 demo_fresh [(0%nat, 0)] 0 0xf7ffffff 0 4 demo_fresh_ok demo_request)
    as (st' & G' & H1 & H2 & H3 & _).
  exists st', G'. split; [exact H1 |]. split; [exact H2 |]. apply H3. lia.
Defined.

Lemma mmu_unmap_range_correct_witness : exists st st',
  mmu_map_range demo_tables 6 demo_fresh 0 0xf7ffffff 0 4 = Ok st /\
  mmu_unmap_range demo_tables st 0 0xf7ffffff = Ok st' /\ translate demo_tables 6 st' 0x12345678 = None.
Proof.
  destruct (mmu_map_range_run demo_tables 6 0 0xf7ffffff 0 4 demo_fresh [(0%nat, 0)] demo_fresh_ok demo_request)
    as (st & G & Hrun & HP).
  destruct (mmu_unmap_range_correct demo_tables 6 st G 0 0xf7ffffff) as (st' & H1 & _ & H3 & _).
  - exact (p_ok _ _ _ _ _ _ _ _ _ _ HP).
  - lia.
  - lia.
  - reflexivity.
  - reflexivity.
  - by eapply finished_mapped; [apply demo_request | | exact HP].
  - exists st, st'. split; [exact Hrun |]. split; [exact H1 |]. apply H3. lia.
Defined.

Lemma mmu_map_unmap_roundtrip_witness : exists st1 st2 G2,
  mmu_map_range demo_tables 6 demo_fresh 0 0xf7ffffff 0 4 = Ok st1 /\
  mmu_unmap_range demo_tables st1 0 0xf7ffffff = Ok st2 /\ tables_ok demo_tables 6 st2 G2 /\
  forall va, 0 <= va < 2 ^ 48 -> translate demo_tables 6 st2 va = translate demo_tables 6 demo_fresh va.
Proof.
  apply (mmu_map_unmap_roundtrip demo_tables 6 demo_fresh [(0%nat, 0)] 0 0xf7ffffff 0 4 demo_fresh_ok demo_request).
  reflexivity.
Defined.

Lemma multimap_reference_equiv_witness : exists st1 st2,
  multimap_reference demo_tables 6 (map_fuel 0 0xf7ffffff) demo_fresh demo_tables
    [MultiMap 0 (map_range_desc 0 4); MultiMap (0xf7ffffff + 1) 0] = Ok (st1, []) /\
  mmu_map_range demo_tables 6 demo_fresh 0 0xf7ffffff 0 4 = Ok st2 /\
  forall va, 0 <= va < 2 ^ 48 -> translate demo_tables 6 st1 va = translate demo_tables 6 st2 va.
Proof.
  apply (multimap_reference_equiv demo_tables 6 demo_fresh [(0%nat, 0)] 0 0xf7ffffff 0 4 demo_fresh_ok demo_request).
  reflexivity.
Defined.

(** ** Where the code differs from what it means to do *)
Definition translate_ok (r : res (mmu_state * list Z)) (va : Z) : option Z :=
  match r with Ok (st, _) => translate demo_tables 6 st va | Trap _ => None end.
Definition translate_ref (r : res (mmu_state * list mmu_multimap_t)) (va : Z) : option Z :=
  match r with Ok (st, _) => translate demo_tables 6 st va | Trap _ => None end.

(** Two adjacent mappings that meet at the end of a table: after the first the
    assembly routine continues at label [8:] with the table pointer it has,
    although [addr] now belongs to the next table; the second mapping ends up at
    the start of the first table.  The C version goes up a level. *)
Definition adjacent : list mmu_multimap_t :=
  [MultiMap 0x1ff000 (map_range_desc 0x1ff000 4); MultiMap 0x200000 (map_range_desc 0x1000000 4);
   MultiMap 0x201000 0].

Lemma multimap_table_boundary :
  let asm := mmu_multimap 6 100 demo_fresh demo_tables (words adjacent) in
  let c := multimap_reference demo_tables 6 100 demo_fresh demo_tables adjacent in
  translate_ok asm 0x200000 = None /\ translate_ok asm 0 = Some 0x1000000 /\
  translate_ref c 0x200000 = Some 0x1000000 /\ translate_ref c 0 = None.
Proof. vm_compute. done. Qed.

(** A displacement that is not a multiple of the block size: the test of the C
    version is disabled for page descriptors, so it writes a 2 MiB block whose
    address is rounded; the assembly routine maps pages. *)
Definition misaligned : list mmu_multimap_t :=
  [MultiMap 0x200000 (map_range_desc 0x1001000 4); MultiMap 0x400000 0].

Lemma reference_misaligned :
  translate_ref (multimap_reference demo_tables 6 100 demo_fresh demo_tables misaligned) 0x200000
    = Some 0x1000000 /\
  translate_ok (mmu_multimap 6 5000 demo_fresh demo_tables (words misaligned)) 0x200000
    = Some 0x1001000.
Proof. vm_compute. done. Qed.

(** A page inside of a block that is mapped already: the C version asserts, the
    assembly routine takes the block for a table and follows its address. *)
Lemma multimap_block_as_table :
  match mmu_map_range demo_tables 6 demo_fresh 0x40000000 0x7fffffff 0x40000000 4 with
  | Ok st =>
      mmu_map_range demo_tables 6 st 0x40001000 0x40001fff 0x40001000 0 = Trap (TrapOob 0x40000000) /\
      multimap_reference demo_tables 6 100 st demo_tables
        [MultiMap 0x40001000 (map_range_desc 0x40001000 0); MultiMap 0x40002000 0] = Trap TrapAssert
  | Trap _ => False
  end.
Proof. vm_compute. done. Qed.

(** The address of a [tlbi] is computed from a 32-bit offset: unmapping 5 GiB
    invalidates the first block twice and the fifth never. *)
Lemma unmap_tlbi_overflow :
  match mmu_map_range demo_tables 6 demo_fresh 0 0x13fffffff 0 4 with
  | Ok st =>
      match mmu_unmap_range demo_tables st 0 0x13fffffff with
      | Ok st => tlbis st = [0; 0x40000; 0x80000; 0xc0000; 0]
      | Trap _ => False
      end
  | Trap _ => False
  end.
Proof. vm_compute. done. Qed.

(** Unmapping chooses the size of its blocks by the virtual addresses alone,
    the mapping routine by the displacement too: 2 MiB that are mapped with a
    displacement that is not a multiple of 2 MiB have been mapped by pages, and
    unmapping them fails the assertion on the kind of the entry. *)
Lemma unmap_displaced_asserts :
  match mmu_map_range demo_tables 6 demo_fresh 0x200000 0x3fffff 0x1001000 4 with
  | Ok st => mmu_unmap_range demo_tables st 0x200000 0x3fffff = Trap TrapAssert
  | Trap _ => False
  end.
Proof. vm_compute. done. Qed.
