(* ===== verification/Gpt.v ===== *)
(** * Finding the payload partition ([src/dramstage/boot_blockdev.c])

    [boot_blockdev] reads the protective MBR, the GPT header and the partition
    entries of a block device through its [start] and [pump] operations,
    chooses among the partitions with the three levinboot payload types, and
    hands a transfer of the chosen one to the decompression.  The device is an
    interface ([BlockDevice]); the payload decompression, modelled in
    [Decompression], is an argument. *)
From S2P Require Export Decompression.

Open Scope Z_scope.

(** ** The device *)

(** [struct async_blockdev]: a state [A], which includes the memory that the
    device transfers to. *)
Record async_blockdev (A : Type) : Type := {
  bd_block_size : Z;
  bd_num_blocks : Z;
  bd_mem : A -> mem;
  bd_start : A -> Z -> Z -> Z -> Z * A;
  bd_pump : pump_func A;
}.
Arguments bd_block_size {A}. Arguments bd_num_blocks {A}. Arguments bd_mem {A}.
Arguments bd_start {A}. Arguments bd_pump {A}.

(** ** Effects

    Operations on the device can end the function with an I/O status: [inr].
    They thread the state of the device. *)
Definition io (A X : Type) : Type := A -> res ((X + Z) * A).

Definition io_ret {A X} (x : X) : io A X := fun a => Ok (inl x, a).
Definition io_fail {A X} (status : Z) : io A X := fun a => Ok (inr status, a).
Definition io_bind {A X Y} (e : io A X) (k : X -> io A Y) : io A Y := fun a =>
  '(r, a) ← e a; match r with inl x => k x a | inr s => Ok (inr s, a) end.
Definition io_lift {A X} (r : res X) : io A X := fun a => x ← r; Ok (inl x, a).

Declare Scope io_scope.
Delimit Scope io_scope with io.
Notation "'let!' x := e 'in' k" := (io_bind e (fun x => k))
  (at level 10, x name, k at level 200) : io_scope.
Open Scope io_scope.

Definition bswap64 (v : Z) : Z := le_val (rev (le_bytes 8 v)).

(** The local variables of the scan: [mask], [first] and [last]; the elements
    of the arrays are not initialised. *)
Record scan : Type := Scan { s_mask : Z; s_first : list (option Z); s_last : list (option Z) }.

Definition scan_init : scan := Scan 0 [None; None; None] [None; None; None].

Definition PARTITION_TABLE_BUFFER_SIZE : Z := 4 * 4096.
Definition blob_addr : Z := 0x04400000.
Definition blob_end : Z := initcpio_addr.

Section Boot.
Context {A : Type} (blk : async_blockdev A) (ptb : Z).

Abbreviation bs := (bd_block_size blk).

Definition rd8 (p : Z) : io A Z := fun a => v ← ld8 (bd_mem blk a) p; Ok (inl v, a).
Definition rd32 (p : Z) : io A Z := fun a => v ← ldw 4 (bd_mem blk a) p; Ok (inl v, a).
Definition rd64 (p : Z) : io A Z := fun a => v ← ldw 8 (bd_mem blk a) p; Ok (inl v, a).

(** [blk->async.pump], and the test of its result. *)
Definition pump_raw (consume min_size : Z) : io A async_buf := fun a =>
  let '(a, buf) := bd_pump blk a consume min_size in Ok (inl buf, a).
Definition check_buf (buf : async_buf) : io A unit :=
  if pump_failed buf then io_fail (pump_error buf) else io_ret tt.
Definition pump_checked (consume min_size : Z) : io A async_buf :=
  let! buf := pump_raw consume min_size in
  let! _ := check_buf buf in
  io_ret buf.

(** [if (IOST_OK != (res = blk->start(...))) {return res;}] *)
Definition start_checked (lba buf buf_end : Z) : io A unit := fun a =>
  let '(r, a) := bd_start blk a lba buf buf_end in
  if negb (r =? IOST_OK) then Ok (inr r, a) else Ok (inl tt, a).

(** [for_range(partition, 0, 4)] in the MBR *)
Fixpoint find_gpt (p : Z) (partitions : list Z) : io A bool :=
  match partitions with
  | [] => io_ret false
  | i :: partitions =>
      let! t := rd8 (p + 446 + 16 * i + 4) in
      if t =? 0xee then io_ret true else find_gpt p partitions
  end.

Definition check_mbr (p : Z) : io A unit :=
  let! b510 := rd8 (p + 510) in
  if negb (b510 =? 0x55) then io_fail IOST_INVALID else
  let! b511 := rd8 (p + 511) in
  if negb (b511 =? 0xaa) then io_fail IOST_INVALID else
  let! found := find_gpt p [0; 1; 2; 3] in
  if found : bool then io_ret tt else io_fail IOST_INVALID.

(** The GPT header: [last_usable_lba] and [num_partition_entries]. *)
Definition check_header (p : Z) : io A (Z * Z) :=
  let! sig := rd64 p in
  if negb (sig =? 0x5452415020494645) then io_fail IOST_INVALID else
  let! version := rd32 (p + 8) in
  if negb (version =? 0x00010000) then io_fail IOST_INVALID else
  let! size := rd32 (p + 12) in
  if negb (size =? 92) then io_fail IOST_INVALID else
  let! current := rd64 (p + 24) in
  if negb (current =? 1) then io_fail IOST_INVALID else
  let! backup_lba := rd64 (p + 32) in
  if negb (backup_lba =? u64 (bd_num_blocks blk - 1)) then io_fail IOST_INVALID else
  let! first_usable_lba := rd64 (p + 40) in
  let! last_usable_lba := rd64 (p + 48) in
  let! num_partition_entries := rd32 (p + 80) in
  let entries_per_block := bs / 128 in
  let partition_table_size := num_partition_entries / entries_per_block in
  if first_usable_lba <? u32 (2 + partition_table_size) then io_fail IOST_INVALID else
  if u64 (bd_num_blocks blk - 2 - partition_table_size) <? last_usable_lba then io_fail IOST_INVALID else
  if 0x10000 <? num_partition_entries then io_fail IOST_INVALID else
  io_ret (last_usable_lba, num_partition_entries).

(** [for_range(j, 0, 16) {if (buf.start[j] != 0) {goto entry_exists;}}] *)
Fixpoint entry_exists (p : Z) (n : nat) : io A bool :=
  match n with
  | O => io_ret false
  | S n =>
      let! b := rd8 p in
      if negb (b =? 0) then io_ret true else entry_exists (p + 1) n
  end.

Definition payload_index (head tail : Z) : Z :=
  let index := 3 in
  let index := if (head =? 0x46f68e5ee5ab07a0) && (tail =? 0x9ce841a518929b7c) then 0 else index in
  let index := if (head =? 0x4b6dc9205f04b556) && (tail =? 0xbd77804efe6fae01) then 1 else index in
  if (head =? 0x4b78d766c195cc59) && (tail =? 0x813fa0e1519099d8) then 2 else index.

(** The body at [entry_exists], up to the pump. *)
Definition scan_entry (p last_usable_lba : Z) (s : scan) : io A scan :=
  let! head := rd64 p in
  let! tail := rd64 (p + 8) in
  let tail := bswap64 tail in
  let index := payload_index head tail in
  if 3 <=? index then io_ret s
  else if flag (s_mask s) (Z.shiftl 1 index) then io_ret s
  else
  let! f := rd64 (p + 32) in
  let! l := rd64 (p + 40) in
  let! first := io_lift (seti (s_first s) index (Some f)) in
  let! last := io_lift (seti (s_last s) index (Some l)) in
  if (l <? f) || (last_usable_lba <? l) then io_ret (Scan (s_mask s) first last)
  else io_ret (Scan (Z.lor (s_mask s) (Z.shiftl 1 index)) first last).

(** The table is read on when the buffer is used up. *)
Definition refill_entry (i : Z) (buf : async_buf) : io A async_buf :=
  if u64 (b_end buf - b_start buf) <? 128 then
    let! _ := start_checked (2 + i / (bs / 128)) ptb (ptb + PARTITION_TABLE_BUFFER_SIZE) in
    pump_checked 0 128
  else io_ret buf.

(** One round of the loop over the entries. *)
Definition scan_round (last_usable_lba num_partition_entries i : Z) (buf : async_buf) (s : scan)
    : io A (async_buf * scan) :=
  let! _ := check_buf buf in
  let! buf := refill_entry i buf in
  let! exists_ := entry_exists (b_start buf) 16 in
  let! s := (if exists_ : bool then scan_entry (b_start buf) last_usable_lba s else io_ret s) in
  let! buf := pump_raw 128 (if i <? num_partition_entries - 1 then 128 else 0) in
  io_ret (buf, s).

Fixpoint scan_loop (last_usable_lba num_partition_entries : Z) (entries : list Z) (buf : async_buf) (s : scan)
    : io A scan :=
  match entries with
  | [] => io_ret s
  | i :: entries =>
      let! r := scan_round last_usable_lba num_partition_entries i buf s in
      let '(buf, s) := r in
      scan_loop last_usable_lba num_partition_entries entries buf s
  end.

Definition used_index (mask : Z) : Z :=
  let i := 0 in
  let i := if (mask =? 2) || (mask =? 6) then 1 else i in
  if (mask =? 4) || (mask =? 5) then 2 else i.

Definition read_slot (l : list (option Z)) (i : Z) : res Z :=
  v ← geti l i; match v with Some v => Ok v | None => Trap TrapAbort end.

(** [used_last], which is computed and not used afterwards. *)
Definition clip_last (used_first used_last : Z) : Z :=
  let max_length := u32 (u32 (Z.shiftl 60 20 + bs - 1) / bs) in
  if max_length <=? u64 (used_last - used_first) then u64 (used_first + max_length - 1) else used_last.

Definition boot_blockdev (decompress_payload : io A Z) : io A Z :=
  let! _ := io_lift (c_assert ((bs <=? 8192) && (128 <=? bs))) in
  let! _ := io_lift (c_assert (bs mod 128 =? 0)) in
  let! _ := start_checked 0 ptb (ptb + PARTITION_TABLE_BUFFER_SIZE) in
  let! buf := pump_checked 0 bs in
  let! _ := check_mbr (b_start buf) in
  let! buf := pump_checked 512 (u32 (2 * bs - 512)) in
  let! header := check_header (b_start buf + u32 (bs - 512)) in
  let '(last_usable_lba, num_partition_entries) := header in
  let! buf := pump_checked bs 128 in
  let! s := scan_loop last_usable_lba num_partition_entries (range 0 num_partition_entries) buf scan_init in
  if s_mask s =? 0 then io_fail IOST_INVALID else
  let index := used_index (s_mask s) in
  let! used_first := io_lift (read_slot (s_first s) index) in
  let! used_last := io_lift (read_slot (s_last s) index) in
  let used_last := clip_last used_first used_last in
  let! _ := start_checked used_first blob_addr blob_end in
  let! r := decompress_payload in
  if negb (r =? IOST_OK) then io_fail IOST_INVALID else io_ret IOST_OK.

End Boot.

(** ** What is on the disk

    A disk is the function from byte offsets to bytes. *)
Definition disk_bytes (disk : Z -> Z) (o n : Z) : list Z := map disk (seqZ o n).
Definition disk_le (disk : Z -> Z) (o n : Z) : Z := le_val (disk_bytes disk o n).

(** The boot signature and a partition of the protective type. *)
Definition has_mbr (disk : Z -> Z) : bool :=
  bool_decide (disk_bytes disk 510 2 = [0x55; 0xaa]) &&
  existsb (fun i => disk (446 + 16 * i + 4) =? 0xee) [0; 1; 2; 3].

(** ["EFI PART"], revision 1.0 *)
Definition gpt_magic : list Z := [0x45; 0x46; 0x49; 0x20; 0x50; 0x41; 0x52; 0x54; 0; 0; 1; 0].

(** The header in block 1: the last usable block and the number of entries. *)
Definition gpt_header (disk : Z -> Z) (bs num_blocks : Z) : option (Z * Z) :=
  let last_usable := disk_le disk (bs + 48) 8 in
  let n := disk_le disk (bs + 80) 4 in
  if bool_decide (disk_bytes disk bs 12 = gpt_magic) && (disk_le disk (bs + 12) 4 =? 92) &&
     (disk_le disk (bs + 24) 8 =? 1) && (disk_le disk (bs + 32) 8 =? num_blocks - 1) &&
     (2 + n / (bs / 128) <=? disk_le disk (bs + 40) 8) && (last_usable <=? num_blocks - 2 - n / (bs / 128)) &&
     (n <=? 0x10000)
  then Some (last_usable, n) else None.

(** The three types of the documentation, as the bytes of an entry:
    e5ab07a0-8e5e-46f6-9ce8-41a518929b7c, 5f04b556-c920-4b6d-bd77-804efe6fae01,
    c195cc59-d766-4b78-813f-a0e1519099d8. *)
Definition payload_guids : list (list Z) :=
  [[0xa0; 0x07; 0xab; 0xe5; 0x5e; 0x8e; 0xf6; 0x46; 0x9c; 0xe8; 0x41; 0xa5; 0x18; 0x92; 0x9b; 0x7c];
   [0x56; 0xb5; 0x04; 0x5f; 0x20; 0xc9; 0x6d; 0x4b; 0xbd; 0x77; 0x80; 0x4e; 0xfe; 0x6f; 0xae; 0x01];
   [0x59; 0xcc; 0x95; 0xc1; 0x66; 0xd7; 0x78; 0x4b; 0x81; 0x3f; 0xa0; 0xe1; 0x51; 0x90; 0x99; 0xd8]].

(** Which payload types are present so far, and where. *)
Abbreviation slots := (list (option (Z * Z))).

(** The entry at offset [o]: the first usable one of each type counts. *)
Definition see_entry (disk : Z -> Z) (last_usable o : Z) (sl : slots) : slots :=
  match list_find (fun g => disk_bytes disk o 16 = g) payload_guids with
  | None => sl
  | Some (k, _) =>
      match sl !! k with
      | Some None =>
          let f := disk_le disk (o + 32) 8 in
          let l := disk_le disk (o + 40) 8 in
          if (f <=? l) && (l <=? last_usable) then <[k := Some (f, l)]> sl else sl
      | _ => sl
      end
  end.

Definition see_entries (disk : Z -> Z) (base last_usable : Z) (is_ : list Z) (sl : slots) : slots :=
  foldl (fun sl i => see_entry disk last_usable (base + 128 * i) sl) sl is_.

(** The rule of the documentation: of two payloads the one before the gap in
    the cycle A, B, C wins; of three, A. *)
Definition choose (sl : slots) : option (Z * Z) :=
  match sl with
  | [Some a; None; None] => Some a
  | [None; Some b; None] => Some b
  | [None; None; Some c] => Some c
  | [Some a; Some _; None] => Some a
  | [None; Some b; Some _] => Some b
  | [Some _; None; Some c] => Some c
  | [Some a; Some _; Some _] => Some a
  | _ => None
  end.

(** The block at which the payload starts, for a table of entries at offset
    [base] of the disk. *)
Definition payload_lba (disk : Z -> Z) (bs num_blocks base : Z) : option Z :=
  if has_mbr disk then
    match gpt_header disk bs num_blocks with
    | Some (last_usable, n) =>
        match choose (see_entries disk base last_usable (range 0 n) [None; None; None]) with
        | Some (f, _) => Some f
        | None => None
        end
    | None => None
    end
  else None.

(** *** The rule of the documentation

    "For each type, it will ignore all but the first one present in partition
    table order": the first entry of the type [k], usable or not. *)
Definition has_type (disk : Z -> Z) (base : Z) (k : nat) (i : Z) : bool :=
  bool_decide (payload_guids !! k = Some (disk_bytes disk (base + 128 * i) 16)).

Definition entry_lbas (disk : Z -> Z) (base i : Z) : Z * Z :=
  (disk_le disk (base + 128 * i + 32) 8, disk_le disk (base + 128 * i + 40) 8).

Definition first_entry (disk : Z -> Z) (base : Z) (is_ : list Z) (k : nat) : option (Z * Z) :=
  entry_lbas disk base <$> find (has_type disk base k) is_.

(** The entries start with block 2. *)
Definition documented_lba (disk : Z -> Z) (bs num_blocks : Z) : option Z :=
  if has_mbr disk then
    match gpt_header disk bs num_blocks with
    | Some (_, n) => fst <$> choose (map (first_entry disk (2 * bs) (range 0 n)) [0; 1; 2]%nat)
    | None => None
    end
  else None.

(** The first entry of each type has blocks that exist. *)
Definition first_entries_usable (disk : Z -> Z) (bs num_blocks : Z) : Prop :=
  forall lu n k f l, gpt_header disk bs num_blocks = Some (lu, n) ->
    first_entry disk (2 * bs) (range 0 n) k = Some (f, l) -> f <= l <= lu.

(** ** What is assumed of the device

    [bd_view a lba buf s e L]: blocks from [lba] on are being read to [buf],
    the part from [s] to [e] is handed out, the transfer ends at [L].  A
    transfer can be started in the states [bd_inv], to the buffers [bd_buf];
    after a transfer to a buffer [bd_short] another one can be started.
    [bd_failed] are the states after a failure: [start] fails only with
    arguments that are not in order or when the device fails, [pump] only when
    the device fails. *)
Class BlockDevice {A} (blk : async_blockdev A) (disk : Z -> Z) : Type := {
  bd_inv : A -> Prop;
  bd_buf : Z -> Z -> Prop;
  bd_short : Z -> Z -> Prop;
  bd_failed : A -> Prop;
  bd_view : A -> Z -> Z -> Z -> Z -> Z -> Prop;
  bd_view_mem a lba buf s e L x : bd_view a lba buf s e L -> buf <= x < e ->
    bd_mem blk a !! x = Some (disk (lba * bd_block_size blk + (x - buf)));
  bd_view_inv a lba buf s e L : bd_view a lba buf s e L -> bd_short buf L -> bd_inv a;
  bd_start_ok a lba buf e r a' : bd_inv a -> bd_buf buf e -> 0 <= lba -> bd_start blk a lba buf e = (r, a') ->
    0 <= r /\ (r = IOST_OK -> bd_view a' lba buf buf buf e) /\
    (buf <= e -> (e - buf) mod bd_block_size blk = 0 -> lba < bd_num_blocks blk -> r <> IOST_OK -> bd_failed a');
  bd_pump_ok a lba buf s e L consume min_size a' b : bd_view a lba buf s e L -> 0 <= consume <= e - s ->
    bd_pump blk a consume min_size = (a', b) ->
    pump_failed b = true /\ bd_failed a' \/
    b_start b = s + consume /\ e <= b_end b <= L /\
      (min_size <= b_end b - b_start b \/ b_end b = L) /\ bd_view a' lba buf (b_start b) (b_end b) L;
  bd_pump_zero a lba buf s e L consume : bd_view a lba buf s e L -> 0 <= consume <= e - s ->
    pump_failed (bd_pump blk a consume 0).2 = false;
  bd_disk_byte o : is_byte (disk o);
}.

(** ** Lemmas *)
Lemma io_bind_ok {A X Y} (e : io A X) (k : X -> io A Y) a x a' :
  e a = Ok (inl x, a') -> io_bind e k a = k x a'.
Proof. unfold io_bind. by intros ->. Qed.

(** Runs the first operation of a sequence with a lemma about it. *)
Ltac io_step tac := erewrite io_bind_ok; [| tac].

Lemma io_bind_fail {A X Y} (e : io A X) (k : X -> io A Y) a s a' :
  e a = Ok (inr s, a') -> io_bind e k a = Ok (inr s, a').
Proof. unfold io_bind. by intros ->. Qed.

Lemma disk_bytes_length disk o n : 0 <= n -> length (disk_bytes disk o n) = Z.to_nat n.
Proof. intros. unfold disk_bytes. rewrite length_map, length_seqZ. done. Qed.

Lemma disk_bytes_lookup disk o n (i : nat) : Z.of_nat i < n ->
  disk_bytes disk o n !! i = Some (disk (o + Z.of_nat i)).
Proof.
  intros Hi. unfold disk_bytes.
  change (map disk) with (fmap (M := list) disk). rewrite list_lookup_fmap, lookup_seqZ_lt by lia. done.
Qed.

Lemma disk_bytes_cons disk o n : 0 < n -> disk_bytes disk o n = disk o :: disk_bytes disk (o + 1) (n - 1).
Proof. intros Hn. unfold disk_bytes. rewrite seqZ_cons by lia. cbn. do 3 f_equal; lia. Qed.

Lemma disk_bytes_app disk o n k : 0 <= n -> 0 <= k ->
  disk_bytes disk o (n + k) = disk_bytes disk o n ++ disk_bytes disk (o + n) k.
Proof. intros. unfold disk_bytes. rewrite seqZ_app, map_app by lia. done. Qed.

(** Equality of words is equality of their bytes. *)
Lemma le_val_inj l k : length l = length k -> Forall is_byte l -> Forall is_byte k -> le_val l = le_val k -> l = k.
Proof. intros Hlen Hl Hk He. rewrite <- (le_bytes_val l), <- (le_bytes_val k) by done. by rewrite Hlen, He. Qed.

Section Correct.
Context {A : Type} (blk : async_blockdev A) (disk : Z -> Z) `{HB : !BlockDevice blk disk}.
Abbreviation bs := (bd_block_size blk).

Lemma disk_byte_all o n : Forall is_byte (disk_bytes disk o n).
Proof. unfold disk_bytes. induction (seqZ o n) as [|x xs IH]; constructor; [apply bd_disk_byte | done]. Qed.

Lemma view_bytes a lba buf s e L p n : bd_view a lba buf s e L -> buf <= p -> 0 <= n -> p + n <= e ->
  bytes_at (bd_mem blk a) p (disk_bytes disk (lba * bs + (p - buf)) n).
Proof.
  intros HV Hp Hn He i Hi. rewrite disk_bytes_length in Hi by done. rewrite disk_bytes_lookup by lia.
  rewrite (bd_view_mem a lba buf s e L) by (done || lia). do 2 f_equal. lia.
Qed.

Lemma rd8_view a lba buf s e L p : bd_view a lba buf s e L -> buf <= p < e ->
  rd8 blk p a = Ok (inl (disk (lba * bs + (p - buf))), a).
Proof. intros HV Hp. unfold rd8. by rewrite (ld8_eq _ _ _ (bd_view_mem a lba buf s e L p HV Hp)). Qed.

Lemma ldw_view a lba buf s e L p (n : nat) : bd_view a lba buf s e L -> buf <= p -> p + Z.of_nat n <= e ->
  p mod Z.of_nat n = 0 ->
  ldw n (bd_mem blk a) p = Ok (disk_le disk (lba * bs + (p - buf)) (Z.of_nat n)).
Proof.
  intros HV Hp He Ha. rewrite ldw_aligned by done.
  pose proof (ld_bytes_at _ _ _ (view_bytes a lba buf s e L p (Z.of_nat n) HV Hp ltac:(lia) He)) as H.
  rewrite disk_bytes_length, Nat2Z.id in H by lia. by rewrite H.
Qed.

Lemma rd32_view a lba buf s e L p : bd_view a lba buf s e L -> buf <= p -> p + 4 <= e -> p mod 4 = 0 ->
  rd32 blk p a = Ok (inl (disk_le disk (lba * bs + (p - buf)) 4), a).
Proof. intros. unfold rd32. by rewrite (ldw_view a lba buf s e L p 4). Qed.

Lemma rd64_view a lba buf s e L p : bd_view a lba buf s e L -> buf <= p -> p + 8 <= e -> p mod 8 = 0 ->
  rd64 blk p a = Ok (inl (disk_le disk (lba * bs + (p - buf)) 8), a).
Proof. intros. unfold rd64. by rewrite (ldw_view a lba buf s e L p 8). Qed.

(** *** The master boot record *)
Lemma find_gpt_ok a e L ptb s is_ : bd_view a 0 ptb s e L -> ptb + 512 <= e ->
  Forall (fun i => 0 <= i < 4) is_ ->
  find_gpt blk ptb is_ a = Ok (inl (existsb (fun i => disk (446 + 16 * i + 4) =? 0xee) is_), a).
Proof.
  intros HV He. induction is_ as [|i is_ IH]; intros Hi; [done |]. apply Forall_cons_1 in Hi as [Hi His].
  cbn [find_gpt existsb]. io_step ltac:(eapply rd8_view; [exact HV | lia]).
  replace (0 * bs + (ptb + 446 + 16 * i + 4 - ptb)) with (446 + 16 * i + 4) by lia.
  destruct (_ =? 0xee); [done |]. by apply IH.
Qed.

Lemma check_mbr_ok a s e L ptb : bd_view a 0 ptb s e L -> ptb + 512 <= e ->
  check_mbr blk ptb a = Ok (if has_mbr disk then inl tt else inr IOST_INVALID, a).
Proof.
  intros HV He. unfold check_mbr, has_mbr.
  io_step ltac:(eapply rd8_view; [exact HV | lia]).
  replace (0 * bs + (ptb + 510 - ptb)) with 510 by lia.
  rewrite disk_bytes_cons, disk_bytes_cons by lia. change (510 + 1) with 511.
  change (disk_bytes disk (511 + 1) (2 - 1 - 1)) with (@nil Z).
  destruct (Z.eqb_spec (disk 510) 0x55) as [H1 | H1]; cbn [negb].
  2: { rewrite bool_decide_eq_false_2 by congruence. done. }
  io_step ltac:(eapply rd8_view; [exact HV | lia]).
  replace (0 * bs + (ptb + 511 - ptb)) with 511 by lia.
  destruct (Z.eqb_spec (disk 511) 0xaa) as [H2 | H2]; cbn [negb].
  2: { rewrite bool_decide_eq_false_2 by congruence. done. }
  rewrite bool_decide_eq_true_2 by congruence. cbn [andb].
  io_step ltac:(eapply find_gpt_ok; [exact HV | lia | by repeat constructor]).
  by destruct (existsb _ _).
Qed.

(** *** The header *)
Lemma disk_le_eqb o n l : length l = Z.to_nat n -> 0 <= n -> Forall is_byte l ->
  (disk_le disk o n =? le_val l) = bool_decide (disk_bytes disk o n = l).
Proof.
  intros Hlen Hn Hl. apply eq_true_iff_eq. rewrite Z.eqb_eq, bool_decide_eq_true. unfold disk_le. split; [| by intros ->].
  intros He. apply le_val_inj; [by rewrite disk_bytes_length | apply disk_byte_all | done | done].
Qed.

Lemma disk_le_range o n : 0 <= n -> 0 <= disk_le disk o n < 2 ^ (8 * n).
Proof.
  intros Hn. pose proof (le_val_bound _ (disk_byte_all o n)) as H.
  by rewrite disk_bytes_length, Z2Nat.id in H.
Qed.

Lemma gpt_magic_split o : bool_decide (disk_bytes disk o 12 = gpt_magic) =
  (disk_le disk o 8 =? 0x5452415020494645) && (disk_le disk (o + 8) 4 =? 0x00010000).
Proof.
  change 0x5452415020494645 with (le_val (take 8 gpt_magic)).
  change 0x00010000 with (le_val (drop 8 gpt_magic)).
  rewrite !disk_le_eqb by (done || lia || (repeat constructor; done)).
  change 12 with (8 + 4). rewrite disk_bytes_app by lia.
  apply eq_true_iff_eq. rewrite andb_true_iff, !bool_decide_eq_true. split.
  - intros H. apply (app_inj_1 (disk_bytes disk o 8) (take 8 gpt_magic)); [by rewrite disk_bytes_length by lia |].
    by rewrite take_drop.
  - intros [-> ->]. apply take_drop.
Qed.

(** The header test as the code orders it. *)
Lemma gpt_header_code num_blocks : 65538 <= num_blocks < 2 ^ 64 -> 512 <= bs -> bs mod 128 = 0 ->
  let last_usable := disk_le disk (bs + 48) 8 in
  let n := disk_le disk (bs + 80) 4 in
  gpt_header disk bs num_blocks =
  if negb (disk_le disk bs 8 =? 0x5452415020494645) then None else
  if negb (disk_le disk (bs + 8) 4 =? 0x00010000) then None else
  if negb (disk_le disk (bs + 12) 4 =? 92) then None else
  if negb (disk_le disk (bs + 24) 8 =? 1) then None else
  if negb (disk_le disk (bs + 32) 8 =? u64 (num_blocks - 1)) then None else
  if disk_le disk (bs + 40) 8 <? u32 (2 + n / (bs / 128)) then None else
  if u64 (num_blocks - 2 - n / (bs / 128)) <? last_usable then None else
  if 0x10000 <? n then None else Some (last_usable, n).
Proof.
  intros Hnum Hbs Hm. cbv zeta. unfold gpt_header. rewrite gpt_magic_split.
  rewrite (u64_small (num_blocks - 1)) by lia.
  assert (4 <= bs / 128) as Hepb by dlia.
  pose proof (disk_le_range (bs + 80) 4 ltac:(lia)) as Hn. change (2 ^ (8 * 4)) with (2 ^ 32) in Hn.
  set (n := disk_le disk (bs + 80) 4) in *. clearbody n.
  assert (0 <= n / (bs / 128) <= n / 4) as Hq.
  { split; [apply Z.div_pos; lia | apply Z.div_le_compat_l; lia]. }
  set (q := n / (bs / 128)) in *. clearbody q. rewrite (u32_small (2 + q)) by dlia.
  destruct (disk_le disk bs 8 =? _); [| done]. destruct (disk_le disk (bs + 8) 4 =? _); [| done].
  destruct (disk_le disk (bs + 12) 4 =? 92); [| done]. destruct (disk_le disk (bs + 24) 8 =? 1); [| done].
  destruct (disk_le disk (bs + 32) 8 =? num_blocks - 1); [| done]. cbn [negb andb].
  rewrite (Z.leb_antisym _ (2 + q)). destruct (disk_le disk (bs + 40) 8 <? 2 + q); [done |]. cbn [negb andb].
  rewrite (Z.leb_antisym 0x10000 n). destruct (Z.ltb_spec 0x10000 n) as [Hbig | Hsmall]; cbn [negb].
  - rewrite andb_false_r. by destruct (u64 _ <? _).
  - rewrite u64_small by dlia. rewrite Z.leb_antisym. by destruct (_ <? _).
Qed.

Lemma check_header_ok a s e L ptb : bd_view a 0 ptb s e L -> ptb + 2 * bs <= e -> ptb mod 4096 = 0 ->
  512 <= bs -> bs mod 128 = 0 -> 65538 <= bd_num_blocks blk < 2 ^ 64 ->
  check_header blk (ptb + bs) a =
  Ok (match gpt_header disk bs (bd_num_blocks blk) with Some h => inl h | None => inr IOST_INVALID end, a).
Proof.
  intros HV He Hp Hbs Hm Hnum. rewrite gpt_header_code by done. unfold check_header.
  assert (forall o, 0 <= o -> o + 8 <= bs -> o mod 8 = 0 ->
    rd64 blk (ptb + bs + o) a = Ok (inl (disk_le disk (bs + o) 8), a)) as H64.
  { intros o H1 H2 H3. rewrite (rd64_view a 0 ptb s e L) by (done || lia || dlia). do 4 f_equal. lia. }
  assert (forall o, 0 <= o -> o + 4 <= bs -> o mod 4 = 0 ->
    rd32 blk (ptb + bs + o) a = Ok (inl (disk_le disk (bs + o) 4), a)) as H32.
  { intros o H1 H2 H3. rewrite (rd32_view a 0 ptb s e L) by (done || lia || dlia). do 4 f_equal. lia. }
  pose proof (H64 0 ltac:(lia) ltac:(lia) eq_refl) as Hsig. rewrite !Z.add_0_r in Hsig.
  io_step ltac:(exact Hsig). destruct (disk_le disk bs 8 =? _); cbn [negb]; [| done].
  io_step ltac:(apply H32; (done || lia)). destruct (disk_le disk (bs + 8) 4 =? _); cbn [negb]; [| done].
  io_step ltac:(apply H32; (done || lia)). destruct (disk_le disk (bs + 12) 4 =? _); cbn [negb]; [| done].
  io_step ltac:(apply H64; (done || lia)). destruct (disk_le disk (bs + 24) 8 =? _); cbn [negb]; [| done].
  io_step ltac:(apply H64; (done || lia)). destruct (disk_le disk (bs + 32) 8 =? _); cbn [negb]; [| done].
  io_step ltac:(apply H64; (done || lia)). io_step ltac:(apply H64; (done || lia)).
  io_step ltac:(apply H32; (done || lia)). cbv zeta.
  destruct (disk_le disk (bs + 40) 8 <? _); [done |].
  destruct (u64 _ <? _); [done |]. by destruct (0x10000 <? _).
Qed.

(** *** An entry *)
Lemma entry_exists_ok a lba buf s e L p n : bd_view a lba buf s e L -> buf <= p -> p + Z.of_nat n <= e ->
  entry_exists blk p n a =
  Ok (inl (existsb (fun b => negb (b =? 0)) (disk_bytes disk (lba * bs + (p - buf)) (Z.of_nat n))), a).
Proof.
  intros HV. revert p. induction n as [|n IH]; intros p Hp He; [done |]. cbn [entry_exists].
  io_step ltac:(eapply rd8_view; [exact HV | lia]).
  rewrite disk_bytes_cons by lia. cbn [existsb].
  destruct (negb (disk (lba * bs + (p - buf)) =? 0)); [done |]. cbn [orb]. rewrite IH by lia.
  do 5 f_equal; lia.
Qed.

Lemma bswap64_val l : length l = 8%nat -> Forall is_byte l -> bswap64 (le_val l) = le_val (rev l).
Proof. intros Hlen Hl. unfold bswap64. by rewrite le_bytes_val_n. Qed.

(** The comparison of the two halves is that of the bytes. *)
Lemma guid_eqb o g : length g = 16%nat -> Forall is_byte g ->
  (disk_le disk o 8 =? le_val (take 8 g)) && (bswap64 (disk_le disk (o + 8) 8) =? le_val (rev (drop 8 g)))
  = bool_decide (disk_bytes disk o 16 = g).
Proof.
  intros Hlen Hg. unfold disk_le at 2. rewrite bswap64_val by (apply disk_byte_all || by rewrite disk_bytes_length).
  rewrite disk_le_eqb; [| rewrite length_take; lia | lia | by apply Forall_take].
  change 16 with (8 + 8). rewrite disk_bytes_app by lia.
  apply eq_true_iff_eq. rewrite andb_true_iff, !bool_decide_eq_true, Z.eqb_eq. split.
  - intros [-> H]. apply le_val_inj in H.
    + apply (f_equal (@rev Z)) in H. rewrite !rev_involutive in H. rewrite H. apply take_drop.
    + rewrite !length_rev, disk_bytes_length, length_drop by lia. lia.
    + apply Forall_rev, disk_byte_all.
    + by apply Forall_rev, Forall_drop.
  - intros H. rewrite <- H. rewrite take_app_length', drop_app_length' by by rewrite disk_bytes_length. done.
Qed.

Lemma payload_index_ok o :
  payload_index (disk_le disk o 8) (bswap64 (disk_le disk (o + 8) 8)) =
  match list_find (fun g => disk_bytes disk o 16 = g) payload_guids with Some (k, _) => Z.of_nat k | None => 3 end.
Proof.
  unfold payload_index.
  assert (forall k g h t, payload_guids !! k = Some g -> h = le_val (take 8 g) -> t = le_val (rev (drop 8 g)) ->
    (disk_le disk o 8 =? h) && (bswap64 (disk_le disk (o + 8) 8) =? t) = bool_decide (disk_bytes disk o 16 = g)) as H.
  { intros k g h t Hk -> ->. apply guid_eqb; destruct k as [|[|[|k]]]; cbn in Hk; simplify_eq; try done;
      repeat constructor; done. }
  rewrite (H 0%nat _ 0x46f68e5ee5ab07a0 0x9ce841a518929b7c eq_refl) by done.
  rewrite (H 1%nat _ 0x4b6dc9205f04b556 0xbd77804efe6fae01 eq_refl) by done.
  rewrite (H 2%nat _ 0x4b78d766c195cc59 0x813fa0e1519099d8 eq_refl) by done.
  unfold payload_guids. cbn [list_find]. generalize (disk_bytes disk o 16). intros l.
  repeat case_decide; repeat case_bool_decide; subst; (done || congruence || naive_solver).
Qed.

(** *** The scan *)
Definition present {X} (o : option X) : Z := match o with Some _ => 1 | None => 0 end.

Record scan_rel (s : scan) (sl : slots) : Prop := {
  sr_slots : exists oa ob oc, sl = [oa; ob; oc] /\ s_mask s = present oa + 2 * present ob + 4 * present oc;
  sr_first : length (s_first s) = 3%nat;
  sr_last : length (s_last s) = 3%nat;
  sr_val : forall k f l, sl !! k = Some (Some (f, l)) ->
    s_first s !! k = Some (Some f) /\ s_last s !! k = Some (Some l)
}.

Lemma scan_rel_init : scan_rel scan_init [None; None; None].
Proof.
  constructor; [by exists None, None, None | done | done |].
  intros k f l H. by destruct k as [|[|[|k]]].
Qed.

Lemma scan_rel_flag s sl k : scan_rel s sl -> (k < 3)%nat ->
  exists o, sl !! k = Some o /\ flag (s_mask s) (Z.shiftl 1 (Z.of_nat k)) = bool_decide (is_Some o).
Proof.
  intros HR Hk. destruct (sr_slots _ _ HR) as (oa & ob & oc & -> & ->).
  destruct k as [|[|[|k]]]; [| | | lia]; eexists; (split; [reflexivity |]);
    destruct oa, ob, oc; reflexivity.
Qed.

(** Recording an entry: the arrays are written, the bit is set when it counts. *)
Lemma scan_rel_set s sl k f l (take_ : bool) : scan_rel s sl -> (k < 3)%nat -> sl !! k = Some None ->
  scan_rel (Scan (if take_ then Z.lor (s_mask s) (Z.shiftl 1 (Z.of_nat k)) else s_mask s)
              (<[k := Some f]> (s_first s)) (<[k := Some l]> (s_last s)))
    (if take_ then <[k := Some (f, l)]> sl else sl).
Proof.
  intros HR Hk Hsl. pose proof (sr_first _ _ HR) as H1. pose proof (sr_last _ _ HR) as H2.
  constructor; cbn [s_mask s_first s_last].
  - destruct (sr_slots _ _ HR) as (oa & ob & oc & -> & ->). destruct take_; [| by exists oa, ob, oc].
    destruct k as [|[|[|k]]]; [| | | lia]; cbn in Hsl; simplify_eq; cbn [insert list_insert];
      (do 3 eexists; split; [reflexivity |]); repeat match goal with x : option (Z * Z) |- _ => destruct x end; reflexivity.
  - by rewrite length_insert.
  - by rewrite length_insert.
  - intros j f' l' Hj. destruct (decide (j = k)) as [-> | Hne].
    + destruct take_; [| congruence].
      rewrite list_lookup_insert_eq in Hj; [| by apply lookup_lt_Some in Hsl].
      simplify_eq. rewrite !list_lookup_insert_eq by lia. done.
    + rewrite !list_lookup_insert_ne by done. apply (sr_val _ _ HR).
      destruct take_; [by rewrite list_lookup_insert_ne in Hj | done].
Qed.

Lemma scan_entry_ok a lba buf s e L p lu sc sl : bd_view a lba buf s e L -> buf <= p -> p + 128 <= e ->
  p mod 8 = 0 -> scan_rel sc sl ->
  exists sc', scan_entry blk p lu sc a = Ok (inl sc', a) /\
    scan_rel sc' (see_entry disk lu (lba * bs + (p - buf)) sl).
Proof.
  intros HV Hp He H8 HR. set (o := lba * bs + (p - buf)).
  assert (forall d, 0 <= d -> d + 8 <= 128 -> d mod 8 = 0 ->
    rd64 blk (p + d) a = Ok (inl (disk_le disk (o + d) 8), a)) as H64.
  { intros d H1 H2 H3. rewrite (rd64_view a lba buf s e L) by (done || lia || dlia). unfold o. do 4 f_equal. lia. }
  pose proof (H64 0 ltac:(lia) ltac:(lia) eq_refl) as H0. rewrite !Z.add_0_r in H0.
  unfold scan_entry. io_step ltac:(exact H0). io_step ltac:(apply H64; (done || lia)).
  rewrite payload_index_ok. unfold see_entry.
  destruct (list_find _ payload_guids) as [[k g]|] eqn:Hf; [| by exists sc].
  assert (k < 3)%nat as Hk.
  { apply list_find_Some in Hf as (Hk & _ & _). apply lookup_lt_Some in Hk. exact Hk. }
  rewrite (proj2 (Z.leb_gt 3 _)) by lia.
  destruct (scan_rel_flag sc sl k HR Hk) as (ok & Hok & ->). rewrite Hok.
  destruct ok as [v|]; [by exists sc |]. rewrite bool_decide_eq_false_2 by (by intros [? ?]).
  io_step ltac:(apply H64; (done || lia)). io_step ltac:(apply H64; (done || lia)).
  unfold io_lift.
  rewrite !seti_ok by (rewrite ?(sr_first _ _ HR), ?(sr_last _ _ HR); lia). rewrite Nat2Z.id.
  unfold io_bind. cbn [mbind res_bind].
  set (f := disk_le disk (o + 32) 8). set (l := disk_le disk (o + 40) 8).
  pose proof (scan_rel_set sc sl k f l ((f <=? l) && (l <=? lu)) HR Hk Hok) as HS.
  rewrite (Z.ltb_antisym f l), (Z.ltb_antisym l lu), <- negb_andb.
  destruct ((f <=? l) && (l <=? lu)); cbn [negb]; (eexists; split; [reflexivity | exact HS]).
Qed.

(** *** Device operations *)

(** The function has ended because the device failed. *)
Definition device_failed {X} (r : res ((X + Z) * A)) : Prop :=
  exists e a', r = Ok (inr e, a') /\ 0 < e /\ bd_failed a'.

Lemma device_failed_bind {X Y} (m : io A X) (k : X -> io A Y) a :
  device_failed (m a) -> device_failed (io_bind m k a).
Proof. intros (e & a' & He & H). exists e, a'. split; [by apply io_bind_fail | done]. Qed.

Lemma start_checked_ok a lba buf e : bd_inv a -> bd_buf buf e -> buf <= e -> (e - buf) mod bs = 0 -> 0 <= lba < bd_num_blocks blk ->
  device_failed (start_checked blk lba buf e a) \/
  exists a', start_checked blk lba buf e a = Ok (inl tt, a') /\ bd_view a' lba buf buf buf e.
Proof.
  intros Hinv Hbuf He Hm Hlba. unfold start_checked. destruct (bd_start blk a lba buf e) as [r a'] eqn:Hs.
  destruct (bd_start_ok a lba buf e r a' Hinv Hbuf (proj1 Hlba) Hs) as (Hr & Hv & Hfail).
  destruct (Z.eqb_spec r IOST_OK) as [-> | Hne]; cbn [negb]; [right | left].
  - exists a'. split; [done | by apply Hv].
  - exists r, a'. split; [done |]. split; [unfold IOST_OK in Hne; lia |]. apply Hfail; [done | done | lia | done].
Qed.

Lemma pump_raw_ok a lba buf s e L consume min_size : bd_view a lba buf s e L -> 0 <= consume <= e - s ->
  exists a' b, pump_raw blk consume min_size a = Ok (inl b, a') /\
    (pump_failed b = true /\ bd_failed a' \/
     pump_failed b = false /\ b_start b = s + consume /\ e <= b_end b <= L /\
       (min_size <= b_end b - b_start b \/ b_end b = L) /\ bd_view a' lba buf (b_start b) (b_end b) L).
Proof.
  intros HV Hc. unfold pump_raw. destruct (bd_pump blk a consume min_size) as [a' b] eqn:Hp.
  exists a', b. split; [done |]. destruct (bd_pump_ok a lba buf s e L consume min_size a' b HV Hc Hp) as [? | H]; [by left |].
  destruct (pump_failed b) eqn:Hf; [| by right]. exfalso. unfold pump_failed in Hf. apply Z.ltb_lt in Hf. lia.
Qed.

Lemma pump_failed_fails b : pump_failed b = true -> 0 < pump_error b.
Proof. unfold pump_failed, pump_error. intros H%Z.ltb_lt. lia. Qed.

Lemma pump_checked_ok a lba buf s e L consume min_size : bd_view a lba buf s e L -> 0 <= consume <= e - s ->
  device_failed (pump_checked blk consume min_size a) \/
  exists a' b, pump_checked blk consume min_size a = Ok (inl b, a') /\
    b_start b = s + consume /\ e <= b_end b <= L /\
    (min_size <= b_end b - b_start b \/ b_end b = L) /\ bd_view a' lba buf (b_start b) (b_end b) L.
Proof.
  intros HV Hc. unfold pump_checked.
  destruct (pump_raw_ok a lba buf s e L consume min_size HV Hc) as (a' & b & Hp & [[Hf Hr] | (Hf & H)]);
    (rewrite (io_bind_ok _ _ _ _ _ Hp)); unfold check_buf; rewrite Hf; [left | right].
  - exists (pump_error b), a'. split; [done |]. split; [by apply pump_failed_fails | done].
  - exists a', b. split; [done |]. done.
Qed.

(** *** The loop over the entries *)
Section Loop.
Context (ptb lu n : Z).
Hypothesis Hptb : ptb mod 4096 = 0.
Hypothesis Hbs : 512 <= bs <= 8192 /\ bs mod 128 = 0 /\ PARTITION_TABLE_BUFFER_SIZE mod bs = 0.
Hypothesis Hn : n <= 0x10000.
Hypothesis Hnum : 65538 <= bd_num_blocks blk.
Hypothesis Hbuf : bd_buf ptb (ptb + PARTITION_TABLE_BUFFER_SIZE) /\ bd_short ptb (ptb + PARTITION_TABLE_BUFFER_SIZE).

Abbreviation stop := (ptb + PARTITION_TABLE_BUFFER_SIZE).

(** The buffer is at entry [i], or its last pump has failed. *)
Definition at_entry (i : Z) (a : A) (b : async_buf) : Prop :=
  pump_failed b = true /\ bd_failed a \/
  pump_failed b = false /\ exists lba, bd_view a lba ptb (b_start b) (b_end b) stop /\ 0 <= lba /\
    ptb <= b_start b <= b_end b /\ b_end b <= stop /\ lba * bs + (b_start b - ptb) = bs + 512 + 128 * i /\
    (128 <= b_end b - b_start b \/ b_end b = stop).

(** The buffer is refilled at the block of entry [i], which starts there. *)
Lemma restart_lba i lba : 0 <= i -> lba * bs + PARTITION_TABLE_BUFFER_SIZE = bs + 512 + 128 * i ->
  (2 + i / (bs / 128)) * bs = bs + 512 + 128 * i /\ 2 + i / (bs / 128) <= 2 + i.
Proof.
  intros Hi He. destruct Hbs as (H1 & H2 & H3). apply Z.mod_divide in H3 as [K HK]; [| lia].
  assert (bs = 128 * (bs / 128)) as Hepb by dlia. set (epb := bs / 128) in *.
  assert (4 <= epb) as H4 by dlia.
  assert (i = (epb - 4) + (lba + K - 2) * epb) as Hie by nia.
  assert (i / epb = lba + K - 2) as ->.
  { rewrite Hie, Z.div_add, Z.div_small by lia. lia. }
  split; [nia |]. nia.
Qed.

Lemma zero_entry o sl : existsb (fun b => negb (b =? 0)) (disk_bytes disk o 16) = false ->
  see_entry disk lu o sl = sl.
Proof.
  intros Hz. rewrite disk_bytes_cons in Hz by lia. cbn [existsb] in Hz.
  apply orb_false_iff in Hz as [H0 _]. apply negb_false_iff, Z.eqb_eq in H0.
  unfold see_entry. destruct (list_find _ payload_guids) as [[k g]|] eqn:Hf; [| done]. exfalso.
  apply list_find_Some in Hf as (Hk & Hg & _). rewrite disk_bytes_cons in Hg by lia.
  destruct k as [|[|[|k]]]; cbn in Hk; simplify_eq; congruence.
Qed.

Lemma refill_entry_ok i a b lba : 0 <= i < n -> bd_view a lba ptb (b_start b) (b_end b) stop -> 0 <= lba ->
  ptb <= b_start b <= b_end b -> b_end b <= stop -> lba * bs + (b_start b - ptb) = bs + 512 + 128 * i ->
  (128 <= b_end b - b_start b \/ b_end b = stop) ->
  device_failed (refill_entry blk ptb i b a) \/
  exists a1 b1 lba1, refill_entry blk ptb i b a = Ok (inl b1, a1) /\
    bd_view a1 lba1 ptb (b_start b1) (b_end b1) stop /\ 0 <= lba1 /\ ptb <= b_start b1 /\ b_end b1 <= stop /\
    lba1 * bs + (b_start b1 - ptb) = bs + 512 + 128 * i /\ 128 <= b_end b1 - b_start b1.
Proof.
  intros Hi HV Hlba Hb Hbe Hpos Hmin. destruct Hbs as (H1 & H2 & H3). unfold refill_entry.
  unfold PARTITION_TABLE_BUFFER_SIZE in *. rewrite u64_small by lia.
  destruct (Z.ltb_spec (b_end b - b_start b) 128) as [Hlt | Hge].
  2: { right. exists a, b, lba. split; [done |]. split; [done |]. lia. }
  assert (b_start b = ptb + 4 * 4096) as Hst.
  { destruct Hmin as [? | Hend]; [lia |]. apply Z.mod_divide in H2 as [c Hc]; [| lia].
    assert (b_end b - b_start b = (124 + lba * c - c - i) * 128) by nia. lia. }
  destruct (restart_lba i lba ltac:(lia)) as [Hl1 Hl2]; [unfold PARTITION_TABLE_BUFFER_SIZE; lia |].
  assert (0 <= i / (bs / 128)) by (apply Z.div_pos; dlia).
  destruct (start_checked_ok a (2 + i / (bs / 128)) ptb (ptb + 4 * 4096)) as [Hfl | (a1 & Hs & HV1)];
    [eapply bd_view_inv; [done | apply Hbuf] | apply Hbuf | lia | by replace (ptb + 4 * 4096 - ptb) with (4 * 4096) by lia | lia | by left; apply device_failed_bind |].
  rewrite (io_bind_ok _ _ _ _ _ Hs).
  destruct (pump_checked_ok a1 _ ptb ptb ptb (ptb + 4 * 4096) 0 128 HV1 ltac:(lia))
    as [Hfl | (a2 & b2 & Hp & P1 & P2 & P3 & P4)]; [by left | right].
  exists a2, b2, (2 + i / (bs / 128)). split; [done |]. split; [done |]. lia.
Qed.

Lemma scan_round_ok i a b sc sl : 0 <= i < n -> at_entry i a b -> scan_rel sc sl ->
  device_failed (scan_round blk ptb lu n i b sc a) \/
  exists a' b' sc', scan_round blk ptb lu n i b sc a = Ok (inl (b', sc'), a') /\
    scan_rel sc' (see_entry disk lu (bs + 512 + 128 * i) sl) /\
    (i + 1 < n -> at_entry (i + 1) a' b') /\ (i + 1 = n -> bd_inv a').
Proof.
  intros Hi Hat HR. unfold scan_round, check_buf.
  destruct Hat as [[Hf Hr] | (Hf & lba & HV & Hlba & Hb & Hbe & Hpos & Hmin)]; rewrite Hf.
  { left. exists (pump_error b), a. split; [done |]. split; [by apply pump_failed_fails | done]. }
  rewrite (io_bind_ok (io_ret tt) _ a tt a) by done.
  destruct (refill_entry_ok i a b lba Hi HV Hlba Hb Hbe Hpos Hmin)
    as [Hfail | (a1 & b1 & lba1 & Hre & HV1 & Hlba1 & Hb1 & Hbe1 & Hpos1 & Hmin1)];
    [left; by apply device_failed_bind |].
  rewrite (io_bind_ok _ _ _ _ _ Hre), (io_bind_ok _ _ _ _ _ (entry_exists_ok a1 lba1 ptb _ _ _ _ 16 HV1 Hb1 ltac:(lia))).
  rewrite Hpos1.
  assert (exists sc', (if existsb (fun b => negb (b =? 0)) (disk_bytes disk (bs + 512 + 128 * i) (Z.of_nat 16))
    then scan_entry blk (b_start b1) lu sc else io_ret sc) a1 = Ok (inl sc', a1) /\
    scan_rel sc' (see_entry disk lu (bs + 512 + 128 * i) sl)) as (sc' & Hsc & HR').
  { destruct (existsb _ _) eqn:Hz.
    - rewrite <- Hpos1. eapply scan_entry_ok; [exact HV1 | lia | lia | | done].
      destruct Hbs as (H1 & H2 & _). clear - Hpos1 H2 Hptb.
      apply Z.mod_divide in H2 as [c Hc]; [| lia]. apply Z.mod_divide in Hptb as [d Hd]; [| lia].
      replace (b_start b1) with ((512 * d + 16 * c + 64 + 16 * i - 16 * lba1 * c) * 8) by nia. apply Z.mod_mul. lia.
    - exists sc. split; [done |]. by rewrite zero_entry. }
  rewrite (io_bind_ok _ _ _ _ _ Hsc).
  destruct (pump_raw_ok a1 lba1 ptb _ _ _ 128 (if i <? n - 1 then 128 else 0) HV1 ltac:(lia)) as (a2 & b2 & Hp & Hb2).
  rewrite (io_bind_ok _ _ _ _ _ Hp). right. exists a2, b2, sc'. split; [done |]. split; [done |]. split; intros Hin.
  - rewrite (proj2 (Z.ltb_lt i (n - 1))) in Hb2 by lia.
    destruct Hb2 as [? | (Hf2 & P1 & P2 & P3 & P4)]; [by left | right]. split; [done |].
    exists lba1. split; [done |]. lia.
  - rewrite (proj2 (Z.ltb_ge i (n - 1))) in Hp by lia. unfold pump_raw in Hp.
    pose proof (bd_pump_zero a1 lba1 ptb _ _ _ 128 HV1 ltac:(lia)) as Hz. destruct (bd_pump blk a1 128 0) as [a3 b3]. simplify_eq.
    destruct Hb2 as [[Hf2 _] | (_ & _ & _ & _ & HV2)]; [cbn in Hz; congruence | eapply bd_view_inv; [done | apply Hbuf]].
Qed.

Lemma scan_loop_ok is_ i a b sc sl : is_ = range i n -> 0 <= i <= n -> (i < n -> at_entry i a b) -> (i = n -> bd_inv a) -> scan_rel sc sl ->
  device_failed (scan_loop blk ptb lu n is_ b sc a) \/
  exists a' sc', scan_loop blk ptb lu n is_ b sc a = Ok (inl sc', a') /\ scan_rel sc' (see_entries disk (bs + 512) lu is_ sl) /\ bd_inv a'.
Proof.
  revert i a b sc sl. induction is_ as [|x is_ IH]; intros i a b sc sl His Hi Hat Hinv HR.
  { right. exists a, sc. split; [done |]. split; [done |]. apply Hinv. unfold range in His.
    destruct (Z.lt_ge_cases i n); [| lia]. rewrite seqZ_cons in His by lia. done. }
  assert (i < n) as Hlt.
  { destruct (Z.lt_ge_cases i n); [done |]. unfold range in His. rewrite seqZ_nil in His by lia. done. }
  unfold range in His. rewrite seqZ_cons in His by lia. injection His as -> His.
  cbn [scan_loop see_entries foldl].
  destruct (scan_round_ok i a b sc sl ltac:(lia) (Hat Hlt) HR) as [Hfail | (a1 & b1 & sc1 & Hr & HR1 & Hat1 & Hinv1)];
    [left; by apply device_failed_bind |].
  rewrite (io_bind_ok _ _ _ _ _ Hr).
  apply (IH (i + 1)); [| lia | intros; apply Hat1; lia | intros; apply Hinv1; lia | done].
  rewrite His. unfold range. f_equal; lia.
Qed.
End Loop.

(** *** The choice *)
Lemma read_slot_ok l (k : nat) v : l !! k = Some (Some v) -> read_slot l (Z.of_nat k) = Ok v.
Proof. intros H. unfold read_slot. rewrite (geti_ok l (Z.of_nat k) (Some v)) by (rewrite ?Nat2Z.id; done || lia). done. Qed.

Lemma choose_ok sc sl : scan_rel sc sl ->
  if s_mask sc =? 0 then choose sl = None
  else exists k f l, sl !! k = Some (Some (f, l)) /\ choose sl = Some (f, l) /\
    read_slot (s_first sc) (used_index (s_mask sc)) = Ok f /\
    read_slot (s_last sc) (used_index (s_mask sc)) = Ok l.
Proof.
  intros HR. pose proof (sr_val _ _ HR) as Hval. destruct (sr_slots _ _ HR) as (oa & ob & oc & -> & ->).
  assert (forall (k : nat) f l, [oa; ob; oc] !! k = Some (Some (f, l)) ->
    read_slot (s_first sc) (Z.of_nat k) = Ok f /\ read_slot (s_last sc) (Z.of_nat k) = Ok l) as Hread.
  { intros k f l Hk. destruct (Hval k f l Hk). by split; apply read_slot_ok. }
  destruct oa as [[fa la]|], ob as [[fb lb]|], oc as [[fc lc]|]; try done;
    solve [ exists 0%nat, fa, la; split; [done |]; split; [done |]; by apply (Hread 0%nat)
          | exists 1%nat, fb, lb; split; [done |]; split; [done |]; by apply (Hread 1%nat)
          | exists 2%nat, fc, lc; split; [done |]; split; [done |]; by apply (Hread 2%nat) ].
Qed.

(** What is recorded lies in the usable range. *)
Definition slots_within (lu : Z) (sl : slots) : Prop :=
  forall k f l, sl !! k = Some (Some (f, l)) -> 0 <= f <= l /\ l <= lu.

Lemma see_entry_within lu o sl : slots_within lu sl -> slots_within lu (see_entry disk lu o sl).
Proof.
  intros Hw. unfold see_entry. destruct (list_find _ _) as [[k g]|]; [| done].
  destruct (sl !! k) as [[v|]|] eqn:Hk; try done.
  destruct (Z.leb_spec (disk_le disk (o + 32) 8) (disk_le disk (o + 40) 8)); [| done].
  destruct (Z.leb_spec (disk_le disk (o + 40) 8) lu); [| done]. cbn [andb].
  intros j f l Hj. destruct (decide (j = k)) as [-> | Hne].
  - rewrite list_lookup_insert_eq in Hj by by apply lookup_lt_Some in Hk. simplify_eq.
    pose proof (disk_le_range (o + 32) 8 ltac:(lia)). lia.
  - rewrite list_lookup_insert_ne in Hj by done. by eapply Hw.
Qed.

Lemma see_entries_within base lu is_ sl : slots_within lu sl -> slots_within lu (see_entries disk base lu is_ sl).
Proof.
  revert sl. induction is_ as [|i is_ IH]; intros sl Hw; [done |]. cbn. by apply IH, see_entry_within.
Qed.

Lemma gpt_header_bounds num_blocks lu n : 0 < bs / 128 -> gpt_header disk bs num_blocks = Some (lu, n) ->
  0 <= n <= 0x10000 /\ lu <= num_blocks - 2.
Proof.
  intros Hbs. unfold gpt_header. cbv zeta. pose proof (disk_le_range (bs + 80) 4 ltac:(lia)) as Hn.
  set (n0 := disk_le disk (bs + 80) 4) in *. clearbody n0. set (q := n0 / (bs / 128)).
  assert (0 <= q) by (apply Z.div_pos; lia). clearbody q.
  destruct (_ && _) eqn:Hc; [| done]. intros [= <- <-].
  apply andb_true_iff in Hc as [Hc H1%Z.leb_le]. apply andb_true_iff in Hc as [Hc H2%Z.leb_le]. lia.
Qed.

(** *** The whole function *)
Section Verdict.
Context (ptb : Z) (decompress_payload : io A Z).
Hypothesis Hbs : 512 <= bs <= 8192 /\ bs mod 128 = 0 /\ PARTITION_TABLE_BUFFER_SIZE mod bs = 0.
Hypothesis Hnum : 65538 <= bd_num_blocks blk < 2 ^ 64.
Hypothesis Hptb : ptb mod 4096 = 0.
Hypothesis Hbuf : bd_buf ptb (ptb + PARTITION_TABLE_BUFFER_SIZE) /\ bd_short ptb (ptb + PARTITION_TABLE_BUFFER_SIZE).
Hypothesis Hblob : bd_buf blob_addr blob_end.

(** The end of the function. *)
Definition hand_over : io A Z :=
  io_bind decompress_payload (fun r => if negb (r =? IOST_OK) then io_fail IOST_INVALID else io_ret IOST_OK).

(** [r] is what the function returns when the payload is at [spec]. *)
Definition verdict (spec : option Z) (r : res ((Z + Z) * A)) : Prop :=
  (exists e a', r = Ok (inr e, a') /\ 0 < e /\ (bd_failed a' \/ e = IOST_INVALID /\ spec = None)) \/
  (exists lba a1, spec = Some lba /\ bd_view a1 lba blob_addr blob_addr blob_addr blob_end /\ r = hand_over a1).

Lemma verdict_failed {X} spec (m : io A X) (k : X -> io A Z) a :
  device_failed (m a) -> verdict spec (io_bind m k a).
Proof.
  intros (e & a' & He & Hpos & Hnr)%(device_failed_bind m k a). left. exists e, a'.
  split; [done |]. split; [done |]. by left.
Qed.

Lemma verdict_invalid {X} (m : io A X) (k : X -> io A Z) a a' :
  m a = Ok (inr IOST_INVALID, a') -> verdict None (io_bind m k a).
Proof. intros H. left. exists IOST_INVALID, a'. split; [by apply io_bind_fail |]. split; [done | by right]. Qed.

(** From the entries on. *)
Definition after_header (lu n : Z) : io A Z :=
  let! buf := pump_checked blk bs 128 in
  let! s := scan_loop blk ptb lu n (range 0 n) buf scan_init in
  if s_mask s =? 0 then io_fail IOST_INVALID else
  let! used_first := io_lift (read_slot (s_first s) (used_index (s_mask s))) in
  let! used_last := io_lift (read_slot (s_last s) (used_index (s_mask s))) in
  let! _ := start_checked blk used_first blob_addr blob_end in
  hand_over.

Lemma after_header_ok a e lu n : bd_view a 0 ptb (ptb + 512) e (ptb + PARTITION_TABLE_BUFFER_SIZE) ->
  2 * bs <= e - ptb -> e <= ptb + PARTITION_TABLE_BUFFER_SIZE -> 0 <= n <= 0x10000 -> lu <= bd_num_blocks blk - 2 ->
  verdict (match choose (see_entries disk (bs + 512) lu (range 0 n) [None; None; None]) with Some (f, _) => Some f | None => None end)
    (after_header lu n a).
Proof.
  intros HV He He2 Hn Hlu. unfold after_header.
  destruct (pump_checked_ok a _ _ _ _ _ bs 128 HV ltac:(lia)) as [Hf | (a1 & b1 & Hp & P1 & P2 & P3 & HV1)];
    [by apply verdict_failed |].
  rewrite (io_bind_ok _ _ _ _ _ Hp).
  destruct (scan_loop_ok ptb lu n Hptb Hbs ltac:(lia) ltac:(lia) Hbuf (range 0 n) 0 a1 b1 scan_init [None; None; None]
    eq_refl ltac:(lia)) as [Hf | (a2 & sc & Hsc & HR & Hinv2)]; [| intros _; eapply bd_view_inv; [done | apply Hbuf] | apply scan_rel_init | by apply verdict_failed |].
  { intros _. right. split; [unfold pump_failed; zb |]. exists 0. split; [done |]. lia. }
  rewrite (io_bind_ok _ _ _ _ _ Hsc). pose proof (choose_ok sc _ HR) as Hch.
  destruct (s_mask sc =? 0).
  { rewrite Hch. left. exists IOST_INVALID, a2. split; [done |]. split; [done | by right]. }
  destruct Hch as (k & f & l & Hk & -> & Hf & Hl).
  rewrite (io_bind_ok (io_lift _) _ a2 f a2) by (unfold io_lift; by rewrite Hf).
  rewrite (io_bind_ok (io_lift _) _ a2 l a2) by (unfold io_lift; by rewrite Hl).
  apply see_entries_within in Hk; [| by intros [|[|[|j]]] ? ?].
  destruct (start_checked_ok a2 f blob_addr blob_end) as [Hf2 | (a3 & Hs & HV3)];
    [done | apply Hblob | done | | lia | by apply verdict_failed |].
  { destruct Hbs as (? & _ & Hd). change (blob_end - blob_addr) with (3840 * PARTITION_TABLE_BUFFER_SIZE).
    apply Z.mod_divide in Hd as [c ->]; [| lia]. rewrite Z.mul_assoc. apply Z.mod_mul. lia. }
  rewrite (io_bind_ok _ _ _ _ _ Hs). right. by exists f, a3.
Qed.

Lemma boot_verdict a : bd_inv a ->
  verdict (payload_lba disk bs (bd_num_blocks blk) (bs + 512)) (boot_blockdev blk ptb decompress_payload a).
Proof.
  intros Hinv. destruct Hbs as (Hb & H128 & Hdiv). unfold boot_blockdev.
  rewrite (io_bind_ok (io_lift _) _ a tt a) by (unfold io_lift; rewrite c_assert_true; [done |]; apply andb_true_iff; split; zb).
  rewrite (io_bind_ok (io_lift _) _ a tt a) by (unfold io_lift; rewrite c_assert_true; [done |]; zb).
  assert (PARTITION_TABLE_BUFFER_SIZE = 16384) as Hsz by done.
  destruct (start_checked_ok a 0 ptb (ptb + PARTITION_TABLE_BUFFER_SIZE)) as [Hf | (a1 & Hs & HV1)];
    [done | apply Hbuf | lia | by replace (ptb + PARTITION_TABLE_BUFFER_SIZE - ptb) with PARTITION_TABLE_BUFFER_SIZE by lia | lia
    | by apply verdict_failed |].
  rewrite (io_bind_ok _ _ _ _ _ Hs).
  destruct (pump_checked_ok a1 _ _ _ _ _ 0 bs HV1 ltac:(lia)) as [Hf | (a2 & b2 & Hp2 & P1 & P2 & P3 & HV2)];
    [by apply verdict_failed |].
  rewrite (io_bind_ok _ _ _ _ _ Hp2). rewrite Z.add_0_r in P1. rewrite P1 in HV2 |- *.
  pose proof (check_mbr_ok a2 _ _ _ ptb HV2 ltac:(lia)) as Hmbr. unfold payload_lba.
  destruct (has_mbr disk); [| by eapply verdict_invalid]. rewrite (io_bind_ok _ _ _ _ _ Hmbr).
  destruct (pump_checked_ok a2 _ _ _ _ _ 512 (u32 (2 * bs - 512)) HV2 ltac:(lia))
    as [Hf | (a3 & b3 & Hp3 & Q1 & Q2 & Q3 & HV3)]; [by apply verdict_failed |].
  rewrite (io_bind_ok _ _ _ _ _ Hp3). rewrite u32_small in Q3 by lia. rewrite (u32_small (bs - 512)) by lia.
  rewrite Q1 in HV3 |- *. replace (ptb + 512 + (bs - 512)) with (ptb + bs) by lia.
  pose proof (check_header_ok a3 _ _ _ ptb HV3 ltac:(lia) Hptb ltac:(lia) H128 Hnum) as Hhdr.
  destruct (gpt_header disk bs (bd_num_blocks blk)) as [[lu n]|] eqn:Hgpt; [| by eapply verdict_invalid].
  rewrite (io_bind_ok _ _ _ _ _ Hhdr).
  destruct (gpt_header_bounds _ lu n ltac:(dlia) Hgpt) as [Hn Hlu].
  by apply (after_header_ok a3 (b_end b3)); [| lia | lia | |].
Qed.
End Verdict.
End Correct.

(** *** The rule of the code and that of the documentation *)
Lemma guid_types disk base i k g : list_find (fun g => disk_bytes disk (base + 128 * i) 16 = g) payload_guids = Some (k, g) ->
  (k < 3)%nat /\ forall j, has_type disk base j i = bool_decide (j = k).
Proof.
  intros (Hk & Hg & _)%list_find_Some. pose proof (lookup_lt_Some _ _ _ Hk) as Hlt. cbn in Hlt. split; [lia |]. intros j.
  unfold has_type. rewrite Hg. apply bool_decide_ext. split; [| by intros ->].
  assert (NoDup payload_guids) as Hnd by (apply (bool_decide_unpack _); vm_compute; exact I).
  intros Hj. by apply (NoDup_lookup _ _ _ _ Hnd Hj).
Qed.

Lemma first_entry_snoc disk base is_ i k : first_entry disk base (is_ ++ [i]) k =
  match first_entry disk base is_ k with Some x => Some x | None => if has_type disk base k i then Some (entry_lbas disk base i) else None end.
Proof.
  unfold first_entry. induction is_ as [| j is_ IH]; cbn [app find]; [by destruct (has_type _ _ _ _) |].
  by destruct (has_type disk base k j).
Qed.

Lemma first_entry_other disk base is_ k : first_entry disk base is_ (S (S (S k))) = None.
Proof. unfold first_entry. induction is_ as [| i is_ IH]; [done |]. cbn [find]. by unfold has_type at 1. Qed.

Lemma see_entries_first disk base lu is_ :
  (forall k f l, first_entry disk base is_ k = Some (f, l) -> f <= l <= lu) ->
  see_entries disk base lu is_ [None; None; None] = map (first_entry disk base is_) [0; 1; 2]%nat.
Proof.
  induction is_ as [| i is_ IH] using rev_ind; intros Hu; [done |].
  unfold see_entries. rewrite foldl_app. cbn [foldl]. fold (see_entries disk base lu is_ [None; None; None]).
  rewrite IH. 2: { intros k f l H. apply (Hu k). rewrite first_entry_snoc. by rewrite H. }
  unfold see_entry. destruct (list_find _ payload_guids) as [[k g] |] eqn:Hg.
  - destruct (guid_types _ _ _ _ _ Hg) as [Hk Ht]. pose proof (Hu k) as Huk. rewrite first_entry_snoc, Ht, bool_decide_eq_true_2 in Huk by done.
    unfold entry_lbas in Huk. pose proof (first_entry_snoc disk base is_ i) as Hs.
    assert (k = 0 \/ k = 1 \/ k = 2)%nat as Hcases by lia. cbn [map].
    destruct Hcases as [-> | [-> | ->]]; cbn [lookup list_lookup]; destruct (first_entry disk base is_ _) eqn:Hf;
      try specialize (Huk _ _ eq_refl); repeat (rewrite Hs, Ht); rewrite ?Hf; cbn [bool_decide decide Nat.eqb];
      repeat (destruct (bool_decide _) eqn:Hbd; [apply bool_decide_eq_true in Hbd | apply bool_decide_eq_false in Hbd]; try done);
      repeat (case_match; simplify_eq; try done; try lia).
  - apply list_find_None in Hg. assert (forall k, has_type disk base k i = false) as Ht.
    { intros k. apply bool_decide_eq_false. intros Hk. rewrite Forall_lookup in Hg. by apply (Hg k _ Hk). }
    cbn [map]. rewrite !first_entry_snoc, !Ht. by repeat case_match.
Qed.

Lemma payload_documented disk bs num_blocks : first_entries_usable disk bs num_blocks ->
  payload_lba disk bs num_blocks (2 * bs) = documented_lba disk bs num_blocks.
Proof.
  intros Hu. unfold payload_lba, documented_lba. destruct (has_mbr disk); [| done].
  destruct (gpt_header disk bs num_blocks) as [[lu n] |] eqn:Hh; [| done].
  rewrite see_entries_first by (intros k f l; by apply (Hu lu n k f l)).
  by destruct (choose _) as [[f l] |].
Qed.

(** C11: [boot_blockdev] starts the payload that it should, on every device
    with blocks of 512 bytes and at least 65538 of them.  It returns without a
    failed assertion or a read outside of what was transferred.  It reports an
    error only after a failure of the device, or [IOST_INVALID] when the disk
    has no valid partition table with a usable payload partition; otherwise it
    hands over to the payload, reading it to the blob buffer from the first
    block of the partition that [payload_lba] finds: of each type the first
    usable entry counts, and the rules for several types are those of the
    documentation.  When the first entry of each type is usable, that is
    [documented_lba], where all other entries of the type are ignored, as the
    documentation says. *)
Theorem boot_blockdev_correct {A} (blk : async_blockdev A) (disk : Z -> Z) `{HB : !BlockDevice blk disk}
    (ptb : Z) (decompress_payload : io A Z) (a : A) :
  let spec := payload_lba disk 512 (bd_num_blocks blk) (2 * 512) in
  bd_block_size blk = 512 -> 65538 <= bd_num_blocks blk < 2 ^ 64 -> ptb mod 4096 = 0 ->
  bd_buf ptb (ptb + PARTITION_TABLE_BUFFER_SIZE) -> bd_short ptb (ptb + PARTITION_TABLE_BUFFER_SIZE) -> bd_buf blob_addr blob_end -> bd_inv a ->
  ((exists e a', boot_blockdev blk ptb decompress_payload a = Ok (inr e, a') /\ 0 < e /\ (bd_failed a' \/ e = IOST_INVALID /\ spec = None)) \/
   (exists lba a1, spec = Some lba /\ bd_view a1 lba blob_addr blob_addr blob_addr blob_end /\
     boot_blockdev blk ptb decompress_payload a =
       io_bind decompress_payload (fun r => if negb (r =? IOST_OK) then io_fail IOST_INVALID else io_ret IOST_OK) a1)) /\
  (first_entries_usable disk 512 (bd_num_blocks blk) -> spec = documented_lba disk 512 (bd_num_blocks blk)).
Proof.
  intros spec Hbs Hnum Hptb Hbuf Hshort Hblob Hinv. split; [| apply payload_documented].
  assert (spec = payload_lba disk (bd_block_size blk) (bd_num_blocks blk) (bd_block_size blk + 512)) as -> by (by rewrite Hbs).
  apply boot_verdict; try done. rewrite Hbs. split_and!; (done || lia).
Qed.

(** ** The update scheme of the documentation

    With two payloads present, the one in use gets the type that was absent:
    from then on the other one is used.  There is no state in between. *)
Lemma payload_update_scheme u v w : 0 <= u < 3 -> 0 <= v < 3 -> 0 <= w < 3 -> u <> v -> u <> w -> v <> w ->
  used_index (Z.lor (Z.shiftl 1 u) (Z.shiftl 1 v)) = u ->
  used_index (Z.lor (Z.shiftl 1 v) (Z.shiftl 1 w)) = v.
Proof.
  intros ? ? ? ? ? ?.
  assert (u = 0 \/ u = 1 \/ u = 2) as Hu by lia. assert (v = 0 \/ v = 1 \/ v = 2) as Hv by lia.
  assert (w = 0 \/ w = 1 \/ w = 2) as Hw by lia.
  destruct Hu as [-> | [-> | ->]], Hv as [-> | [-> | ->]], Hw as [-> | [-> | ->]];
    first [lia | vm_compute; congruence].
Qed.

(** ** A device in memory *)
Record ram_disk : Type := Ram {
  ram_mem : mem; ram_lba : Z; ram_buf : Z; ram_s : Z; ram_e : Z; ram_stop : Z
}.

Definition ram_start (bs num_blocks : Z) (a : ram_disk) (lba buf e : Z) : Z * ram_disk :=
  if (e <? buf) || negb ((e - buf) mod bs =? 0) || negb ((0 <=? lba) && (lba <? num_blocks)) then (IOST_INVALID, a)
  else (IOST_OK, Ram (ram_mem a) lba buf buf buf e).

(** A pump transfers everything that is left. *)
Definition ram_pump (bs : Z) (disk : Z -> Z) : pump_func ram_disk := fun a consume _ =>
  let bytes := disk_bytes disk (ram_lba a * bs + (ram_e a - ram_buf a)) (ram_stop a - ram_e a) in
  let a := Ram (mem_of (ram_e a) bytes ∪ ram_mem a) (ram_lba a) (ram_buf a) (ram_s a + consume) (ram_stop a) (ram_stop a) in
  (a, {| b_start := ram_s a; b_end := ram_e a |}).

Definition ram_dev (bs num_blocks : Z) (disk : Z -> Z) : async_blockdev ram_disk := {|
  bd_block_size := bs; bd_num_blocks := num_blocks; bd_mem := ram_mem;
  bd_start := ram_start bs num_blocks; bd_pump := ram_pump bs disk;
|}.

Definition ram_view (bs : Z) (disk : Z -> Z) (a : ram_disk) (lba buf s e L : Z) : Prop :=
  a = Ram (ram_mem a) lba buf s e L /\ buf <= s <= e /\ e <= L /\
  forall x, buf <= x < e -> ram_mem a !! x = Some (disk (lba * bs + (x - buf))).

Lemma ram_pump_view bs disk a lba buf s e L consume min_size a' b :
  ram_view bs disk a lba buf s e L -> 0 <= consume <= e - s -> ram_pump bs disk a consume min_size = (a', b) ->
  b_start b = s + consume /\ b_end b = L /\ ram_view bs disk a' lba buf (s + consume) L L.
Proof.
  intros (Ha & Hs & HL & Hm) Hc Hp. rewrite Ha in Hp. unfold ram_pump in Hp. cbn in Hp. injection Hp as <- <-. cbn.
  split; [done |]. split; [done |]. split; [done |]. split; [lia |]. split; [lia |]. cbn. intros x Hx.
  pose proof (mem_of_lookup e (disk_bytes disk (lba * bs + (e - buf)) (L - e)) x) as Hl.
  rewrite disk_bytes_length, Z2Nat.id in Hl by lia.
  destruct (Z.leb_spec e x), (Z.ltb_spec x (e + (L - e))); cbn [andb] in Hl; try lia.
  - apply lookup_union_Some_l. rewrite Hl, disk_bytes_lookup by lia. do 2 f_equal. lia.
  - rewrite lookup_union_r by done. apply Hm. lia.
Qed.

#[export, program] Instance ram_device bs num_blocks disk (Hd : forall o, is_byte (disk o)) :
    BlockDevice (ram_dev bs num_blocks disk) disk :=
  {| bd_inv _ := True; bd_buf _ _ := True; bd_short _ _ := True; bd_failed _ := False; bd_view := ram_view bs disk |}.
Next Obligation. intros bs nb disk Hd a lba buf s e L x (_ & _ & _ & Hm) Hx. by apply Hm. Qed.
Next Obligation. done. Qed.
Next Obligation.
  intros bs nb disk Hd a lba buf e r a' _ _ Hlba Hs. cbn in Hs |- *. unfold ram_start in Hs.
  destruct (Z.ltb_spec e buf); [injection Hs as <- <-; unfold IOST_INVALID, IOST_OK; lia |]. cbn [orb] in Hs.
  destruct (Z.eqb_spec ((e - buf) mod bs) 0) as [Hm | Hm]; cbn [negb orb] in Hs; [| injection Hs as <- <-; unfold IOST_INVALID, IOST_OK; lia].
  destruct (Z.leb_spec 0 lba), (Z.ltb_spec lba nb); cbn [andb negb] in Hs; injection Hs as <- <-; unfold IOST_INVALID, IOST_OK; try lia.
  split; [lia |]. split; [| lia]. intros _. split; [done |]. split; [lia |]. split; [lia |]. intros x Hx. lia.
Qed.
Next Obligation.
  intros bs nb disk Hd a lba buf s e L consume min_size a' b HV Hc Hp. right.
  destruct (ram_pump_view bs disk a lba buf s e L consume min_size a' b HV Hc Hp) as (-> & -> & HV').
  destruct HV as (_ & H1 & H2 & _). split; [done |]. split; [lia |]. split; [by right | done].
Qed.
Next Obligation.
  intros bs nb disk Hd a lba buf s e L consume HV Hc. cbn [bd_pump ram_dev].
  destruct (ram_pump bs disk a consume 0) as [a' b] eqn:Hp.
  destruct (ram_pump_view bs disk a lba buf s e L consume 0 a' b HV Hc Hp) as (H1 & H2 & _).
  destruct HV as (_ & ? & ? & _). unfold pump_failed. cbn [snd]. zb.
Qed.
Next Obligation. intros bs nb disk Hd o. apply Hd. Qed.

(** A disk with payloads A and C in its first two entries; everything else of
    the entries is zero. *)
Definition demo_header (num_blocks : Z) : list Z :=
  gpt_magic ++ le_bytes 4 92 ++ le_bytes 8 0 ++ le_bytes 8 1 ++ le_bytes 8 (num_blocks - 1) ++
  le_bytes 8 34 ++ le_bytes 8 (num_blocks - 100) ++ replicate 24 0 ++ le_bytes 4 4 ++ le_bytes 4 128.
Definition demo_entry (k : nat) (f l : Z) : list Z :=
  nth k payload_guids [] ++ replicate 16 0 ++ le_bytes 8 f ++ le_bytes 8 l ++ replicate 80 0.

Definition demo_disk (bs num_blocks : Z) : Z -> Z :=
  let parts := [(450, [0xee]); (510, [0x55; 0xaa]); (bs, demo_header num_blocks);
                (2 * bs, demo_entry 0 100 199 ++ demo_entry 2 200 299)] in
  fun o => u8 (foldr (fun '(a, l) r => if (a <=? o) && (o <? a + zlen l) then nth (Z.to_nat (o - a)) l 0 else r) 0 parts).

Lemma demo_disk_byte bs num_blocks o : is_byte (demo_disk bs num_blocks o).
Proof. apply u8_range. Qed.

Lemma boot_blockdev_correct_witness :
  exists lba, payload_lba (demo_disk 512 0x100000) 512 0x100000 1024 = Some lba /\ lba = 200 /\
  documented_lba (demo_disk 512 0x100000) 512 0x100000 = Some lba /\
  exists a1, boot_blockdev (ram_dev 512 0x100000 (demo_disk 512 0x100000)) 0x10000 (io_ret IOST_OK) (Ram ∅ 0 0 0 0 0)
    = Ok (inl IOST_OK, a1).
Proof.
  assert (payload_lba (demo_disk 512 0x100000) 512 0x100000 1024 = Some 200) as Hl by (vm_compute; reflexivity).
  exists 200. split; [exact Hl |]. split; [reflexivity |].
  destruct (boot_blockdev_correct (ram_dev 512 0x100000 (demo_disk 512 0x100000)) (demo_disk 512 0x100000)
    (HB := ram_device 512 0x100000 (demo_disk 512 0x100000) (demo_disk_byte 512 0x100000))
    0x10000 (io_ret IOST_OK) (Ram ∅ 0 0 0 0 0)) as [Hres Hdoc].
  - reflexivity.
  - cbn. lia.
  - reflexivity.
  - exact I.
  - exact I.
  - exact I.
  - exact I.
  - cbn [bd_num_blocks ram_dev] in Hdoc, Hres. change (2 * 512) with 1024 in Hdoc, Hres. split.
    + rewrite <- Hdoc; [exact Hl |]. intros lu n k f l Hh Hf.
      assert (gpt_header (demo_disk 512 0x100000) 512 0x100000 = Some (0x100000 - 100, 4)) as H by (vm_compute; reflexivity).
      rewrite H in Hh. injection Hh as <- <-. destruct k as [| [| [| k]]]; [vm_compute in Hf; simplify_eq; lia .. |].
      by rewrite first_entry_other in Hf.
    + destruct Hres as [(e & a' & _ & _ & [[] | [_ Hn]]) | (lba & a1 & _ & _ & Hrun)]; [rewrite Hl in Hn; discriminate |].
      exists a1. rewrite Hrun. reflexivity.
Defined.

(** ** Where the code differs from what it means to do

    The pump that skips the header block consumes one block from 512 bytes
    into the first one.  With larger blocks the scan starts inside of the
    header block: on a disk with blocks of 4096 bytes and a table of four
    entries none of the payloads is found. *)
Lemma gpt_large_blocks :
  payload_lba (demo_disk 4096 0x100000) 4096 0x100000 (2 * 4096) = Some 200 /\
  match boot_blockdev (ram_dev 4096 0x100000 (demo_disk 4096 0x100000)) 0x10000 (io_ret IOST_OK) (Ram ∅ 0 0 0 0 0) with
  | Ok (r, _) => r = inr IOST_INVALID
  | Trap _ => False
  end.
Proof. vm_compute. done. Qed.

(** When the first entry of a type is not usable, the next one of the type is
    taken, which the documentation says is ignored: a table in which payload A
    first has its last block before its first, and then blocks 100 to 199. *)
Definition two_entries_disk : Z -> Z :=
  let parts := [(450, [0xee]); (510, [0x55; 0xaa]); (512, demo_header 0x100000);
                (1024, demo_entry 0 50 40 ++ demo_entry 0 100 199)] in
  fun o => u8 (foldr (fun '(a, l) r => if (a <=? o) && (o <? a + zlen l) then nth (Z.to_nat (o - a)) l 0 else r) 0 parts).

Lemma gpt_second_entry :
  documented_lba two_entries_disk 512 0x100000 = Some 50 /\
  payload_lba two_entries_disk 512 0x100000 (2 * 512) = Some 100 /\
  match boot_blockdev (ram_dev 512 0x100000 two_entries_disk) 0x10000 (io_ret IOST_OK) (Ram ∅ 0 0 0 0 0) with
  | Ok (r, a) => r = inl IOST_OK /\ ram_lba a = 100
  | Trap _ => False
  end.
Proof. vm_compute. done. Qed.
