(* ===== verification/Nvme.v ===== *)
(** * NVMe ([src/lib/nvme.c], [src/lib/nvme_xfer.c], [src/dramstage/blk_nvme.c])

    The definitions of the NVMe driver: construction of PRP lists, commands,
    submission and completion queues, the set-up of the I/O queues and the
    transfer that reads blocks.  The controller shares memory with the driver;
    its state is part of the machine and it moves, through a function [tick] of
    the machine, whenever the driver looks at what the controller may write.
    The proofs are in [NvmePrp], [NvmeQueue] and [NvmeBlk]. *)
From stdpp Require Export gmap zmap.
From S2P Require Export Gpt.

Open Scope Z_scope.

(** ** Addresses *)
Definition PLAT_PAGE_SHIFT : Z := 12.
Definition PLAT_INVALID_PHYS_ADDR : Z := 0xffffffff.
Definition plat_is_page_aligned (ptr : Z) : bool := ptr mod Z.shiftl 1 PLAT_PAGE_SHIFT =? 0.
Definition plat_virt_to_phys (ptr : Z) : Z :=
  if 0xffe00000 <=? ptr then PLAT_INVALID_PHYS_ADDR else u32 ptr.

Definition page : Z := Z.shiftl 1 PLAT_PAGE_SHIFT.
Definition page_mask : Z := Z.shiftl 1 PLAT_PAGE_SHIFT - 1.

(** ** Data *)

Definition NVME_CREATING : Z := 0.
Definition NVME_SUBMITTED : Z := 2.

Record nvme_req : Type := Req { req_data : Z * Z; req_aux : Z; req_status : Z }.

(** [dw10] to [dw15] overlap with [cmd_spec]. *)
Record nvme_cmd : Type := Cmd {
  c_opc : Z; c_fuse_psdt : Z; c_cid : Z; c_nsid : Z; c_reserved : Z; c_mptr : Z; c_dptr0 : Z; c_dptr1 : Z;
  c_dw10 : Z; c_dw11 : Z; c_dw12 : Z; c_dw13 : Z; c_dw14 : Z; c_dw15 : Z
}.
Definition zero_cmd : nvme_cmd := Cmd 0 0 0 0 0 0 0 0 0 0 0 0 0 0.
Definition set_cid (cid : Z) (c : nvme_cmd) : nvme_cmd :=
  Cmd (c_opc c) (c_fuse_psdt c) cid (c_nsid c) (c_reserved c) (c_mptr c) (c_dptr0 c) (c_dptr1 c)
    (c_dw10 c) (c_dw11 c) (c_dw12 c) (c_dw13 c) (c_dw14 c) (c_dw15 c).

Record nvme_completion : Type := Cqe {
  ce_cmd_spec : Z; ce_reserved : Z; ce_sqhd : Z; ce_sqid : Z; ce_cid : Z; ce_status : Z
}.
Definition zero_cqe : nvme_completion := Cqe 0 0 0 0 0 0.

(** The doorbells are offsets of registers.  [sq_cmd] is the table of requests
    by command identifier: addresses, 0 for a free identifier. *)
Record nvme_sq : Type := Sq {
  sq_doorbell : Z; sq_buf : list nvme_cmd; sq_size : Z; sq_tail : Z; sq_cq : Z; sq_head : Z;
  sq_max_cid : Z; sq_cmd : option (list Z)
}.
Record nvme_cq : Type := Cq {
  cq_doorbell : Z; cq_buf : list nvme_completion; cq_phase : bool; cq_size : Z; cq_pos : Z
}.
Record nvme_state : Type := St {
  st_cap : Z; st_cfg : Z; st_rtd3e : Z; st_lba_shift : Z; st_num_iosq : Z; st_num_iocq : Z;
  st_sq : list nvme_sq; st_cq : list nvme_cq
}.

Record nvme_xfer : Type := Xfer {
  xf_req : Z;
  prp_list_addr : Z; first_prp_entry : Z; last_prp_entry : Z;
  prp_size : Z; prp_cap : Z; xfer_bytes : Z; prp_list : Z
}.

(** What the controller keeps of a pair of queues: how far it has fetched,
    which commands it works on, where it puts the next completion. *)
Record dev_queue : Type := Dq { d_head : Z; d_work : list nvme_cmd; d_tail : Z; d_phase : bool }.

(** The machine.  [m_words]: the memory of the PRP list in words of 64 bits;
    [m_mem]: the memory that data are read to; [m_regs]: the registers that
    the driver writes. *)
Record machine : Type := Mach {
  m_st : nvme_state;
  m_reqs : gmap Z nvme_req;
  m_regs : gmap Z Z;
  m_words : gmap Z Z;
  m_mem : mem;
  m_dev : list dev_queue;
  m_time : nat
}.
Definition set_st (st : nvme_state) (m : machine) : machine :=
  Mach st (m_reqs m) (m_regs m) (m_words m) (m_mem m) (m_dev m) (m_time m).
Definition set_reqs (reqs : gmap Z nvme_req) (m : machine) : machine :=
  Mach (m_st m) reqs (m_regs m) (m_words m) (m_mem m) (m_dev m) (m_time m).
Definition set_reg (r v : Z) (m : machine) : machine :=
  Mach (m_st m) (m_reqs m) (<[r := v]> (m_regs m)) (m_words m) (m_mem m) (m_dev m) (m_time m).
Definition set_words (w : gmap Z Z) (m : machine) : machine :=
  Mach (m_st m) (m_reqs m) (m_regs m) w (m_mem m) (m_dev m) (m_time m).

Definition set_sqs (l : list nvme_sq) (st : nvme_state) : nvme_state :=
  St (st_cap st) (st_cfg st) (st_rtd3e st) (st_lba_shift st) (st_num_iosq st) (st_num_iocq st) l (st_cq st).
Definition set_cqs (l : list nvme_cq) (st : nvme_state) : nvme_state :=
  St (st_cap st) (st_cfg st) (st_rtd3e st) (st_lba_shift st) (st_num_iosq st) (st_num_iocq st) (st_sq st) l.

Definition sq_set_buf (b : list nvme_cmd) (s : nvme_sq) : nvme_sq :=
  Sq (sq_doorbell s) b (sq_size s) (sq_tail s) (sq_cq s) (sq_head s) (sq_max_cid s) (sq_cmd s).
Definition sq_set_tail (b : list nvme_cmd) (tail : Z) (cmd : list Z) (s : nvme_sq) : nvme_sq :=
  Sq (sq_doorbell s) b (sq_size s) tail (sq_cq s) (sq_head s) (sq_max_cid s) (Some cmd).
Definition sq_set_head (head : Z) (cmd : list Z) (s : nvme_sq) : nvme_sq :=
  Sq (sq_doorbell s) (sq_buf s) (sq_size s) (sq_tail s) (sq_cq s) head (sq_max_cid s) (Some cmd).
Definition cq_set_pos (pos : Z) (phase : bool) (c : nvme_cq) : nvme_cq :=
  Cq (cq_doorbell c) (cq_buf c) phase (cq_size c) pos.

(** Access through a pointer: traps when nothing is there. *)
Definition deref {A} (h : gmap Z A) (p : Z) : res A :=
  match h !! p with Some v => Ok v | None => Trap (TrapOob p) end.
Definition assign {A} (h : gmap Z A) (p : Z) (v : A) : res (gmap Z A) :=
  match h !! p with Some _ => Ok (<[p := v]> h) | None => Trap (TrapOob p) end.

Definition set_status (s : Z) (r : nvme_req) : nvme_req := Req (req_data r) (req_aux r) s.

(** ** [nvme_reset_xfer]

    [cas_fails t s n]: whether the weak compare-and-exchange number [n] of the
    call at time [t], on a word that holds [s], fails spuriously. *)
Fixpoint reset_loop (fuel : nat) (cas_fails : Z -> nat -> bool) (n : nat) (status word : Z) : res (Z * Z) :=
  match fuel with
  | O => Trap TrapFuel
  | S fuel =>
      if status =? NVME_SUBMITTED then Ok (IOST_TRANSIENT, word)
      else if (word =? status) && negb (cas_fails word n) then reset_loop fuel cas_fails (S n) status NVME_CREATING
      else Ok (IOST_OK, word)
  end.

Definition nvme_reset_xfer (fuel : nat) (cas_fails : nat -> Z -> nat -> bool) (m : machine) (x : nvme_xfer)
    : res (Z * machine * nvme_xfer) :=
  r ← deref (m_reqs m) (xf_req x);
  '(res, word) ← reset_loop fuel (cas_fails (m_time m)) 0 (req_status r) (req_status r);
  let m := set_reqs (<[xf_req x := set_status word r]> (m_reqs m)) m in
  if negb (res =? IOST_OK) then Ok (res, m, x) else
  Ok (IOST_OK, m, Xfer (xf_req x) (prp_list_addr x) 0 0 0 (prp_cap x) (xfer_bytes x) (prp_list x)).

(** ** [nvme_add_phys_buffer]; the words are the memory of the PRP list. *)
Definition set_first (first size bytes : Z) (x : nvme_xfer) : nvme_xfer :=
  Xfer (xf_req x) (prp_list_addr x) first (last_prp_entry x) size (prp_cap x) bytes (prp_list x).
Definition set_last (last size bytes : Z) (x : nvme_xfer) : nvme_xfer :=
  Xfer (xf_req x) (prp_list_addr x) (first_prp_entry x) last size (prp_cap x) bytes (prp_list x).

Definition prp_slot (x : nvme_xfer) (idx : Z) : Z := prp_list x + 8 * idx.

Fixpoint prp_loop (fuel : nat) (w : gmap Z Z) (x : nvme_xfer) (start e : Z) : res (bool * gmap Z Z * nvme_xfer) :=
  match fuel with
  | O => Trap TrapFuel
  | S fuel =>
      let put idx w :=
        w ← assign w (prp_slot x idx) (last_prp_entry x);
        if u32 (e - start) <=? page then
          Ok (true, w, set_last start (idx + 3) (u64 (xfer_bytes x + u32 (e - start))) x)
        else
          prp_loop fuel w (set_last start (idx + 3) (u64 (xfer_bytes x + page)) x) (u32 (start + page)) e
      in
      let idx := u64 (prp_size x - 2) in
      if u64 (prp_cap x - 1) <=? idx then Ok (false, w, x)
      else if plat_is_page_aligned (prp_slot x (idx + 1)) then
        w ← assign w (prp_slot x idx) (plat_virt_to_phys (prp_slot x (idx + 1)));
        let idx := idx + 1 in
        if u64 (prp_cap x - 1) <=? idx then Ok (false, w, x) else put idx w
      else put idx w
  end.

Definition prp_fuel (start e : Z) : nat := S (Z.to_nat ((e - start) / page)).

(** The part behind the first page. *)
Definition add_pages (w : gmap Z Z) (x : nvme_xfer) (start e : Z) : res (bool * gmap Z Z * nvme_xfer) :=
  _ ← c_assert (Z.land start page_mask =? 0);
  if e <=? start then Ok (true, w, x) else
  let rest x start :=
    _ ← c_assert (2 <=? prp_size x);
    _ ← c_assert (start <? e);
    prp_loop (prp_fuel start e) w x start e
  in
  if prp_size x <? 2 then
    _ ← c_assert (prp_size x =? 1);
    if u32 (e - start) <=? page then Ok (true, w, set_last start 2 (u64 (xfer_bytes x + u32 (e - start))) x)
    else rest (set_last start 2 (u64 (xfer_bytes x + page)) x) (u32 (start + page))
  else rest x start.

Definition nvme_add_phys_buffer (reqs : gmap Z nvme_req) (w : gmap Z Z) (x : nvme_xfer) (start e : Z)
    : res (bool * gmap Z Z * nvme_xfer) :=
  r ← deref reqs (xf_req x);
  _ ← c_assert (req_status r =? NVME_CREATING);
  _ ← c_assert (negb (flag start 3 || flag e 3 || (e <? start)));
  if prp_size x =? 0 then
    if Z.shiftr e PLAT_PAGE_SHIFT <=? Z.shiftr start PLAT_PAGE_SHIFT then
      Ok (true, w, set_first start 1 (u32 (e - start)) x)
    else
      add_pages w (set_first start 1 (u32 (page - Z.land start page_mask)) x)
        (u32 (Z.land start (u32 (Z.lnot page_mask)) + page)) e
  else
    _ ← c_assert (Z.land (xfer_bytes x) page_mask =? u32 (page - Z.land (first_prp_entry x) page_mask));
    add_pages w x start e.

(** ** [nvme_emit_read] *)
Definition NVME_NVM_READ : Z := 2.
Definition NVME_PSDT_PRP : Z := 0.

Definition nvme_emit_read (lba_shift : Z) (w : gmap Z Z) (sq : nvme_sq) (x : nvme_xfer) (nsid lba : Z)
    : res (bool * gmap Z Z * nvme_sq) :=
  if flag (xfer_bytes x) (Z.shiftl 1 lba_shift - 1) then Ok (false, w, sq) else
  w ← (if 2 <? prp_size x then assign w (prp_slot x (prp_size x - 2)) (last_prp_entry x) else Ok w);
  let dptr1 :=
    if prp_size x =? 2 then u32 (last_prp_entry x)
    else if 2 <? prp_size x then u32 (prp_list_addr x) else 0 in
  let cmd := Cmd NVME_NVM_READ NVME_PSDT_PRP 0 nsid 0 0 (first_prp_entry x) dptr1
    (u32 lba) (u32 (Z.shiftr lba 32)) (u32 (Z.shiftr (xfer_bytes x) lba_shift - 1)) 0 0 0 in
  buf ← seti (sq_buf sq) (sq_tail sq) cmd;
  Ok (true, w, sq_set_buf buf sq).

(** ** Queues *)

(** [nvme_process_cqe] *)
Definition nvme_process_cqe (m : machine) (cqid : Z) : res (Z * machine) :=
  let st := m_st m in
  cq ← geti (st_cq st) cqid;
  let pos := cq_pos cq in
  let phase := cq_phase cq in
  cqe ← geti (cq_buf cq) pos;
  let cmd_st := ce_status cqe in
  if negb (Bool.eqb (flag cmd_st 1) phase) then Ok (IOST_TRANSIENT, m) else
  let sqid := ce_sqid cqe in
  if st_num_iosq st <? sqid then Ok (IOST_GLOBAL, m) else
  sq ← geti (st_sq st) sqid;
  if negb (sq_cq sq =? cqid) then Ok (IOST_GLOBAL, m) else
  let cid := ce_cid cqe in
  match sq_cmd sq with
  | None => Ok (IOST_GLOBAL, m)
  | Some cmds =>
      if sq_max_cid sq <? cid then Ok (IOST_GLOBAL, m) else
      cmd ← geti cmds cid;
      _ ← deref (m_reqs m) cmd;
      let req := Req (ce_cmd_spec cqe, ce_reserved cqe) 0 (Z.lor cmd_st 1) in
      cmds ← seti cmds cid 0;
      sqs ← seti (st_sq st) sqid (sq_set_head (ce_sqhd cqe) cmds sq);
      let '(pos, phase) := if pos <? cq_size cq then (u16 (pos + 1), phase) else (0, negb phase) in
      cqs ← seti (st_cq st) cqid (cq_set_pos pos phase cq);
      Ok (IOST_OK, set_reg (cq_doorbell cq) pos
        (set_reqs (<[cmd := req]> (m_reqs m)) (set_st (set_cqs cqs (set_sqs sqs st)) m)))
  end.

(** The loop for a free command identifier. *)
Fixpoint find_cid (cmds : list Z) (cids : list Z) : res (option Z) :=
  match cids with
  | [] => Ok None
  | i :: cids => c ← geti cmds i; if c =? 0 then Ok (Some i) else find_cid cmds cids
  end.

(** [nvme_submit_single_command] *)
Definition nvme_submit_single_command (m : machine) (sqid req : Z) : res (bool * machine) :=
  let st := m_st m in
  _ ← c_assert (sqid <=? st_num_iosq st);
  sq ← geti (st_sq st) sqid;
  let tail := sq_tail sq in
  let next := if tail =? sq_size sq then 0 else u16 (tail + 1) in
  if next =? sq_head sq then Ok (false, m) else
  r ← deref (m_reqs m) req;
  let m := set_reqs (<[req := set_status NVME_SUBMITTED r]> (m_reqs m)) m in
  cmds ← match sq_cmd sq with Some cmds => Ok cmds | None => Trap (TrapOob 0) end;
  cid ← find_cid cmds (range 0 (sq_max_cid sq + 1));
  match cid with
  | None => Ok (false, m)
  | Some cid =>
      cmds ← seti cmds cid req;
      cmd ← geti (sq_buf sq) tail;
      buf ← seti (sq_buf sq) tail (set_cid (u16 cid) cmd);
      sqs ← seti (st_sq st) sqid (sq_set_tail buf next cmds sq);
      Ok (true, set_reg (sq_doorbell sq) next (set_st (set_sqs sqs st) m))
  end.

(** ** Waiting

    [tick] is what the controller does before the driver looks at a completion
    queue or at the status register, [csts] what the status register reads. *)
Definition NVME_CSTS_CFS : Z := 2.

Section Wait.
Context (tick : nat -> machine -> machine) (csts : nat -> Z).

Definition elapse (m : machine) : machine :=
  let m := tick (m_time m) m in
  Mach (m_st m) (m_reqs m) (m_regs m) (m_words m) (m_mem m) (m_dev m) (S (m_time m)).

(** [while (1) {switch (nvme_process_cqe(st, cqid)) ...}] *)
Fixpoint drain_cq (fuel : nat) (m : machine) (cqid : Z) : res (bool * machine) :=
  match fuel with
  | O => Trap TrapFuel
  | S fuel =>
      '(r, m) ← nvme_process_cqe (elapse m) cqid;
      if r =? IOST_TRANSIENT then Ok (true, m)
      else if r =? IOST_OK then drain_cq fuel m cqid
      else Ok (false, m)
  end.

(** The queues hold no more completions than there are command identifiers. *)
Definition drain_fuel (m : machine) : nat :=
  S (foldr (fun sq n => (Z.to_nat (sq_max_cid sq) + 1 + n)%nat) 0%nat (st_sq (m_st m))).

Fixpoint drain_cqs (m : machine) (cqids : list Z) : res (bool * machine) :=
  match cqids with
  | [] => Ok (true, m)
  | cqid :: cqids =>
      '(ok, m) ← drain_cq (drain_fuel m) m cqid;
      if ok : bool then drain_cqs m cqids else Ok (false, m)
  end.

(** [nvme_wait_req] *)
Fixpoint wait_loop (fuel : nat) (m : machine) (req : Z) : res (Z * machine) :=
  match fuel with
  | O => Trap TrapFuel
  | S fuel =>
      '(ok, m) ← drain_cqs m (range 0 (st_num_iocq (m_st m) + 1));
      if negb ok then Ok (IOST_GLOBAL, m) else
      r ← deref (m_reqs m) req;
      if negb (req_status r =? NVME_SUBMITTED) then
        Ok (if flag (req_status r) 0xfffe then IOST_LOCAL else IOST_OK, m)
      else
      let m := elapse m in
      if flag (csts (m_time m)) NVME_CSTS_CFS then Ok (IOST_GLOBAL, m) else wait_loop fuel m req
  end.

Definition nvme_wait_req (fuel : nat) (m : machine) (req : Z) : res (Z * machine) := wait_loop fuel m req.

(** [wait_single_command]; [req] is the address of the local variable. *)
Definition wait_single_command (fuel : nat) (m : machine) (sqid req : Z) : res (Z * machine) :=
  let m := set_reqs (<[req := Req (0, 0) 0 0]> (m_reqs m)) m in
  '(ok, m) ← nvme_submit_single_command m sqid req;
  if negb ok then Ok (IOST_TRANSIENT, m) else nvme_wait_req fuel m req.

(** ** [nvme_init_queues] *)
Definition NVME_ADMIN_CREATE_IOSQ : Z := 1.
Definition NVME_ADMIN_CREATE_IOCQ : Z := 5.
Definition NVME_ADMIN_IDENTIFY : Z := 6.
Definition NVME_ADMIN_SET_FEATURES : Z := 9.
Definition NVME_IDENTIFY_CONTROLLER : Z := 1.
Definition NVME_FEATURE_NUM_QUEUES : Z := 7.
Definition NVME_CC_IOSQES_SHIFT : Z := 16.
Definition NVME_CC_IOCQES_SHIFT : Z := 20.
Definition NVME_REG_CONFIG : Z := 0x14.

Definition nvme_extr_cap_dstrd (cap : Z) : Z := Z.shiftr (Z.land cap (Z.shiftl 15 32)) 32.

(** The fields of the data that the controller identifies itself with. *)
Definition nvme_extr_idctl_rtd3e (m : mem) (idctl : Z) : res Z :=
  b0 ← ld8 m (idctl + 88); b1 ← ld8 m (idctl + 89); b2 ← ld8 m (idctl + 90); b3 ← ld8 m (idctl + 91);
  Ok (Z.lor (Z.lor (Z.lor b0 (Z.shiftl b1 8)) (Z.shiftl b2 16)) (Z.shiftl b3 24)).
Definition nvme_extr_idctl_sqes (m : mem) (idctl : Z) : res Z := ld8 m (idctl + 512).
Definition nvme_extr_idctl_cqes (m : mem) (idctl : Z) : res Z := ld8 m (idctl + 513).

(** [cmd = st->sq[0].buf + st->sq[0].tail; memset(cmd, 0, sizeof( *cmd));] and
    the assignments that follow. *)
Definition put_admin (cmd : nvme_cmd) (m : machine) : res machine :=
  sq ← geti (st_sq (m_st m)) 0;
  buf ← seti (sq_buf sq) (sq_tail sq) cmd;
  sqs ← seti (st_sq (m_st m)) 0 (sq_set_buf buf sq);
  Ok (set_st (set_sqs sqs (m_st m)) m).

Definition set_rtd3e (v : Z) (st : nvme_state) : nvme_state :=
  St (st_cap st) (st_cfg st) v (st_lba_shift st) (st_num_iosq st) (st_num_iocq st) (st_sq st) (st_cq st).
Definition set_cfg (v : Z) (st : nvme_state) : nvme_state :=
  St (st_cap st) v (st_rtd3e st) (st_lba_shift st) (st_num_iosq st) (st_num_iocq st) (st_sq st) (st_cq st).
Definition set_num (iosq iocq : Z) (st : nvme_state) : nvme_state :=
  St (st_cap st) (st_cfg st) (st_rtd3e st) (st_lba_shift st) iosq iocq (st_sq st) (st_cq st).

(** [st->cq[1]] is set up: empty, with phase 1. *)
Definition init_iocq (m : machine) : res machine :=
  let st := m_st m in
  let dstrd := Z.shiftl 4 (nvme_extr_cap_dstrd (st_cap st)) in
  cq ← geti (st_cq st) 1;
  cqs ← seti (st_cq st) 1 (Cq (0x1000 + 3 * dstrd) (replicate (Z.to_nat (cq_size cq + 1)) zero_cqe) true (cq_size cq) 0);
  Ok (set_st (set_cqs cqs st) m).

Definition sq_set_doorbell (d : Z) (s : nvme_sq) : nvme_sq :=
  Sq d (sq_buf s) (sq_size s) (sq_tail s) (sq_cq s) (sq_head s) (sq_max_cid s) (sq_cmd s).
Definition sq_set_cq (q : Z) (s : nvme_sq) : nvme_sq :=
  Sq (sq_doorbell s) (sq_buf s) (sq_size s) (sq_tail s) q (sq_head s) (sq_max_cid s) (sq_cmd s).
Definition init_iosq (f : nvme_sq -> nvme_sq) (m : machine) : res machine :=
  sq ← geti (st_sq (m_st m)) 1;
  sqs ← seti (st_sq (m_st m)) 1 (f sq);
  Ok (set_st (set_sqs sqs (m_st m)) m).

(** [cq_addr] and [sq_addr] are the addresses of the buffers of the I/O queues. *)
Definition nvme_init_queues (fuel : nat) (m : machine) (req num_iocq num_iosq idctl cq_addr sq_addr : Z)
    : res (Z * machine) :=
  _ ← c_assert (negb (num_iocq =? 0) && negb (num_iosq =? 0));
  m ← put_admin (Cmd NVME_ADMIN_IDENTIFY 0 0 0 0 0 idctl 0 NVME_IDENTIFY_CONTROLLER 0 0 0 0 0) m;
  '(r, m) ← wait_single_command fuel m 0 req;
  if negb (r =? IOST_OK) then Ok (r, m) else
  rtd3e ← nvme_extr_idctl_rtd3e (m_mem m) idctl;
  let m := if rtd3e =? 0 then set_st (set_rtd3e rtd3e (m_st m)) m else m in
  sqes ← nvme_extr_idctl_sqes (m_mem m) idctl;
  cqes ← nvme_extr_idctl_cqes (m_mem m) idctl;
  if (6 <? Z.land sqes 15) || (4 <? Z.land cqes 15) then Ok (IOST_INVALID, m) else
  let cfg := Z.lor (st_cfg (m_st m)) (Z.lor (Z.shiftl 4 NVME_CC_IOCQES_SHIFT) (Z.shiftl 6 NVME_CC_IOSQES_SHIFT)) in
  let m := set_reg NVME_REG_CONFIG cfg (set_st (set_cfg cfg (m_st m)) m) in
  m ← put_admin (Cmd NVME_ADMIN_SET_FEATURES 0 0 0 0 0 0 0 NVME_FEATURE_NUM_QUEUES
        (Z.lor (Z.shiftl (num_iocq - 1) 16) (num_iosq - 1)) 0 0 0 0) m;
  '(r, m) ← wait_single_command fuel m 0 req;
  if negb (r =? IOST_OK) then Ok (r, m) else
  m ← init_iocq m;
  cq ← geti (st_cq (m_st m)) 1;
  m ← put_admin (Cmd NVME_ADMIN_CREATE_IOCQ 0 0 0 0 0 (plat_virt_to_phys cq_addr) 0 (Z.lor 1 (Z.shiftl (cq_size cq) 16)) 1 0 0 0 0) m;
  '(r, m) ← wait_single_command fuel m 0 req;
  if negb (r =? IOST_OK) then Ok (r, m) else
  let m := set_st (set_num (st_num_iosq (m_st m)) 1 (m_st m)) m in
  let dstrd := Z.shiftl 4 (nvme_extr_cap_dstrd (st_cap (m_st m))) in
  m ← init_iosq (sq_set_doorbell (0x1000 + 2 * dstrd)) m;
  m ← put_admin (Cmd NVME_ADMIN_CREATE_IOSQ 0 0 0 0 0 (plat_virt_to_phys sq_addr) 0 (Z.lor 1 (Z.shiftl 3 16)) (Z.lor (Z.shiftl 1 16) 1) 0 0 0 0) m;
  '(r, m) ← wait_single_command fuel m 0 req;
  if negb (r =? IOST_OK) then Ok (r, m) else
  m ← init_iosq (sq_set_cq 1) m;
  Ok (IOST_OK, set_st (set_num 1 (st_num_iocq (m_st m)) (m_st m)) m).

(** ** The block device *)
Record nvme_blockdev : Type := Nb {
  nb_block_size : Z; nb_num_blocks : Z; nb_xfer : nvme_xfer;
  nb_consume_ptr : Z; nb_end_ptr : Z; nb_next_end_ptr : Z; nb_stop_ptr : Z;
  nb_next_lba : Z; nb_xfer_shift : Z; nb_nsid : Z
}.
Definition nb_set_ptrs (c e n s lba : Z) (x : nvme_xfer) (d : nvme_blockdev) : nvme_blockdev :=
  Nb (nb_block_size d) (nb_num_blocks d) x c e n s lba (nb_xfer_shift d) (nb_nsid d).

Context (cas_fuel wait_fuel : nat) (cas_fails : nat -> Z -> nat -> bool) (iost_u8 : Z).

Definition nvme_error (status : Z) : async_buf := {| b_start := iost_u8 + status; b_end := iost_u8 |}.
Definition nvme_buf (d : nvme_blockdev) : async_buf := {| b_start := nb_consume_ptr d; b_end := nb_end_ptr d |}.

(** A new request is made: lines 147 to 161 of [pump]. *)
Definition nvme_start_next (m : machine) (d : nvme_blockdev) : res (Z * machine * nvme_blockdev) :=
  let xfer_size := u32 (Z.shiftl 1 (nb_xfer_shift d)) in
  let e := if xfer_size <? nb_stop_ptr d - nb_end_ptr d then nb_end_ptr d + xfer_size else nb_stop_ptr d in
  let with_xfer x := nb_set_ptrs (nb_consume_ptr d) (nb_end_ptr d) (nb_next_end_ptr d) (nb_stop_ptr d) (nb_next_lba d) x d in
  '(r, m, x) ← nvme_reset_xfer cas_fuel cas_fails m (nb_xfer d);
  if negb (r =? IOST_OK) then Ok (r, m, with_xfer x) else
  '(success, w, x) ← nvme_add_phys_buffer (m_reqs m) (m_words m) x (plat_virt_to_phys (nb_end_ptr d)) (plat_virt_to_phys e);
  let m := set_words w m in
  _ ← c_assert success;
  sq ← geti (st_sq (m_st m)) 1;
  '(ok, w, sq) ← nvme_emit_read (st_lba_shift (m_st m)) (m_words m) sq x (nb_nsid d) (nb_next_lba d);
  sqs ← seti (st_sq (m_st m)) 1 sq;
  let m := set_st (set_sqs sqs (m_st m)) (set_words w m) in
  if negb ok then Ok (IOST_INVALID, m, with_xfer x) else
  '(ok, m) ← nvme_submit_single_command m 1 (xf_req x);
  if negb ok then Ok (IOST_TRANSIENT, m, with_xfer x) else
  Ok (IOST_OK, m, nb_set_ptrs (nb_consume_ptr d) (nb_end_ptr d) e (nb_stop_ptr d)
    (u64 (nb_next_lba d + xfer_size / nb_block_size d)) x d).

Fixpoint nvme_pump_loop (fuel : nat) (min_size : Z) (m : machine) (d : nvme_blockdev) : res (machine * nvme_blockdev * async_buf) :=
  match fuel with
  | O => Trap TrapFuel
  | S fuel =>
      if negb (u64 (nb_end_ptr d - nb_consume_ptr d) <? min_size) then Ok (m, d, nvme_buf d) else
      '(r, m, d) ← (if negb (nb_end_ptr d =? nb_next_end_ptr d) then
          '(r, m) ← nvme_wait_req wait_fuel m (xf_req (nb_xfer d));
          Ok (r, m, if r =? IOST_OK then
            nb_set_ptrs (nb_consume_ptr d) (nb_next_end_ptr d) (nb_next_end_ptr d) (nb_stop_ptr d) (nb_next_lba d) (nb_xfer d) d else d)
        else Ok (IOST_OK, m, d));
      if negb (r =? IOST_OK) then Ok (m, d, nvme_error r)
      else if nb_stop_ptr d =? nb_end_ptr d then Ok (m, d, nvme_buf d) else
      '(r, m, d) ← nvme_start_next m d;
      if negb (r =? IOST_OK) then Ok (m, d, nvme_error r) else nvme_pump_loop fuel min_size m d
  end.

Definition nvme_pump_fuel (d : nvme_blockdev) : nat := S (S (Z.to_nat (nb_stop_ptr d - nb_end_ptr d))).

Definition nvme_pump (m : machine) (d : nvme_blockdev) (consume min_size : Z) : res (machine * nvme_blockdev * async_buf) :=
  _ ← c_assert (consume <=? u64 (nb_end_ptr d - nb_consume_ptr d));
  let d := nb_set_ptrs (nb_consume_ptr d + consume) (nb_end_ptr d) (nb_next_end_ptr d) (nb_stop_ptr d) (nb_next_lba d) (nb_xfer d) d in
  nvme_pump_loop (nvme_pump_fuel d) min_size m d.

Definition nvme_start (d : nvme_blockdev) (addr buf buf_end : Z) : Z * nvme_blockdev :=
  if (buf_end <? buf) || negb (u64 (buf_end - buf) mod nb_block_size d =? 0) || (nb_num_blocks d <=? addr)
  then (IOST_INVALID, d)
  else (IOST_OK, nb_set_ptrs buf buf buf buf_end (u32 addr) (nb_xfer d) d).
End Wait.
