(* ===== verification/NvmePrp.v ===== *)
(** * PRP lists ([src/lib/nvme_xfer.c])

    A read command names the memory that it reads to by two entries and, when
    they are not enough, by lists of page addresses that are linked through
    their last entries.  The list that [nvme_add_phys_buffer] and
    [nvme_emit_read] build denotes, to a controller that follows the rules of
    NVMe, exactly the buffers that were added. *)
From S2P Require Export Nvme.

Open Scope Z_scope.

(** ** How a controller reads the entries *)

(** The page addresses for [rem] bytes, from the list entry at [p]: the last
    entry of a page is a link when more than one page is left. *)
Fixpoint prp_entries (fuel : nat) (w : gmap Z Z) (p rem : Z) : option (list Z) :=
  if rem <=? 0 then Some [] else
  match fuel with
  | O => None
  | S fuel =>
      v ← w !! p;
      if (page <? rem) && plat_is_page_aligned (p + 8) then prp_entries fuel w v rem
      else l ← prp_entries fuel w (p + 8) (rem - page); Some (v :: l)
  end.

(** The addresses of [rem] bytes in pages. *)
Fixpoint fill (pages : list Z) (rem : Z) : list Z :=
  match pages with
  | [] => []
  | p :: pages => seqZ p (Z.min rem page) ++ fill pages (rem - page)
  end.

(** The addresses of the bytes that a command transfers, in order. *)
Definition prp_decode (w : gmap Z Z) (prp1 prp2 len : Z) : option (list Z) :=
  let n1 := Z.min len (page - prp1 mod page) in
  let rem := len - n1 in
  if rem <=? 0 then Some (seqZ prp1 n1)
  else if rem <=? page then Some (seqZ prp1 n1 ++ fill [prp2] rem)
  else l ← prp_entries (S (2 * Z.to_nat (rem / page + 1))) w prp2 rem; Some (seqZ prp1 n1 ++ fill l rem).

(** Several buffers, and the addresses of their bytes. *)
Fixpoint add_buffers (reqs : gmap Z nvme_req) (w : gmap Z Z) (x : nvme_xfer) (bufs : list (Z * Z))
    : res (bool * gmap Z Z * nvme_xfer) :=
  match bufs with
  | [] => Ok (true, w, x)
  | (s, e) :: bufs =>
      '(ok, w, x) ← nvme_add_phys_buffer reqs w x s e;
      if ok : bool then add_buffers reqs w x bufs else Ok (false, w, x)
  end.
Definition buffer_addrs (bufs : list (Z * Z)) : list Z := concat (map (fun '(s, e) => seqZ s (e - s)) bufs).

(** ** Pages *)
Lemma fill_snoc l p rem : zlen l * page <= rem ->
  fill (l ++ [p]) rem = fill l rem ++ seqZ p (Z.min (rem - zlen l * page) page).
Proof.
  induction l as [| q l IH] in rem |- *; cbn [length app fill]; intros H.
  - rewrite app_nil_r. do 2 f_equal. lia.
  - rewrite IH by lia. rewrite <- app_assoc. do 3 f_equal. f_equal; lia.
Qed.

Lemma fill_sat l rem rem' : zlen l * page <= rem -> zlen l * page <= rem' -> fill l rem = fill l rem'.
Proof.
  induction l as [| q l IH] in rem, rem' |- *; cbn [length app fill]; intros H H'; [done |].
  assert (0 < page) by (vm_compute; done). f_equal; [f_equal; lia | apply IH; lia].
Qed.

Lemma page_eq : page = 4096. Proof. reflexivity. Qed.

Lemma land_page_mask x : Z.land x page_mask = x mod page.
Proof. rewrite page_eq. exact (land_ones_mod x 12 ltac:(lia)). Qed.

Lemma aligned_spec p : plat_is_page_aligned p = (p mod page =? 0).
Proof. reflexivity. Qed.

Lemma seqZ_split a n k : 0 <= n <= k -> seqZ a k = seqZ a n ++ seqZ (a + n) (k - n).
Proof. intros H. rewrite <- seqZ_app by lia. f_equal. lia. Qed.

(** ** The list under construction *)
Section List_.
Context (x0 : nvme_xfer).

Record xfer_static (w : gmap Z Z) : Prop := {
  xs_ptr : 0 <= prp_list x0 /\ prp_list x0 mod 8 = 0 /\ prp_list x0 + 8 * prp_cap x0 <= 0xffe00000;
  xs_addr : prp_list_addr x0 = prp_list x0;
  xs_cap : 1 <= prp_cap x0;
  xs_words i : 0 <= i < prp_cap x0 -> is_Some (w !! prp_slot x0 i);
}.

(** The entries [es] are stored from entry [i] on, with links where a page of
    the list ends; [idx] is the next entry. *)
Fixpoint stored (w : gmap Z Z) (i : Z) (es : list Z) (idx : Z) : Prop :=
  match es with
  | [] => i = idx
  | e :: es =>
      if plat_is_page_aligned (prp_slot x0 (i + 1)) then
        w !! prp_slot x0 i = Some (prp_slot x0 (i + 1)) /\ w !! prp_slot x0 (i + 1) = Some e /\ stored w (i + 2) es idx
      else w !! prp_slot x0 i = Some e /\ stored w (i + 1) es idx
  end.

Lemma slot_inj i j : prp_slot x0 i = prp_slot x0 j -> i = j.
Proof. unfold prp_slot. lia. Qed.

Lemma stored_bounds w i es idx : stored w i es idx -> i + zlen es <= idx <= i + 2 * zlen es.
Proof.
  induction es as [| e es IH] in i |- *; cbn [stored length]; [lia |].
  destruct (plat_is_page_aligned _); [intros (_ & _ & H) | intros (_ & H)]; apply IH in H; lia.
Qed.

Lemma stored_frame w w' i es idx : stored w i es idx ->
  (forall j, i <= j < idx -> w' !! prp_slot x0 j = w !! prp_slot x0 j) -> stored w' i es idx.
Proof.
  induction es as [| e es IH] in i |- *; cbn [stored]; [done |]. intros H Hw.
  destruct (plat_is_page_aligned _).
  - destruct H as (H1 & H2 & H3). pose proof (stored_bounds _ _ _ _ H3).
    rewrite !Hw by lia. split; [done |]. split; [done |]. apply IH; [done |]. intros j Hj. apply Hw. lia.
  - destruct H as (H1 & H3). pose proof (stored_bounds _ _ _ _ H3).
    rewrite !Hw by lia. split; [done |]. apply IH; [done |]. intros j Hj. apply Hw. lia.
Qed.

Lemma stored_snoc w i es idx e : stored w i es idx ->
  stored w idx [e] (if plat_is_page_aligned (prp_slot x0 (idx + 1)) then idx + 2 else idx + 1) ->
  stored w i (es ++ [e]) (if plat_is_page_aligned (prp_slot x0 (idx + 1)) then idx + 2 else idx + 1).
Proof.
  induction es as [| a es IH] in i |- *; intros H He.
  - cbn in H. by subst i.
  - cbn [stored app] in H |- *. destruct (plat_is_page_aligned (prp_slot x0 (i + 1))).
    + destruct H as (? & ? & ?). split_and!; auto.
    + destruct H as (? & ?). split_and!; auto.
Qed.

(** A controller that reads the list gets the entries back. *)
Lemma prp_entries_stored w i es last idx rem fuel : stored w i es idx -> w !! prp_slot x0 idx = Some last ->
  0 <= i -> zlen es * page < rem <= (zlen es + 1) * page -> (2 * length es < fuel)%nat -> 0 <= prp_list x0 -> prp_list x0 mod 8 = 0 ->
  prp_entries fuel w (prp_slot x0 i) rem = Some (es ++ [last]).
Proof.
  rewrite page_eq. induction es as [| e es IH] in i, rem, fuel |- *; intros Hs Hl Hi Hr Hf Hp H8; cbn [length] in Hr.
  - cbn in Hs. subst i. destruct fuel as [| fuel]; [lia |]. cbn [prp_entries].
    rewrite page_eq. assert ((rem <=? 0) = false) as -> by zb. rewrite Hl. cbn [mbind option_bind].
    assert ((4096 <? rem) = false) as -> by zb. cbn [andb].
    assert (prp_entries fuel w (prp_slot x0 idx + 8) (rem - 4096) = Some []) as ->; [| done].
    assert ((rem - 4096 <=? 0) = true) as H by zb. destruct fuel; cbn [prp_entries]; by rewrite H.
  - destruct fuel as [| fuel]; [cbn in Hf; lia |]. cbn [prp_entries]. rewrite page_eq.
    assert ((rem <=? 0) = false) as Hr0 by zb. assert ((4096 <? rem) = true) as Hr1 by zb. rewrite Hr0, Hr1. cbn [andb].
    cbn [stored] in Hs. replace (prp_slot x0 i + 8) with (prp_slot x0 (i + 1)) by (unfold prp_slot; lia).
    destruct (plat_is_page_aligned (prp_slot x0 (i + 1))) eqn:Ha.
    + destruct Hs as (H1 & H2 & H3). rewrite H1. cbn [mbind option_bind].
      destruct fuel as [| fuel]; [cbn in Hf; lia |]. cbn [prp_entries]. rewrite Hr0, page_eq, Hr1, H2. cbn [mbind option_bind andb].
      replace (prp_slot x0 (i + 1) + 8) with (prp_slot x0 (i + 2)) by (unfold prp_slot; lia).
      assert (plat_is_page_aligned (prp_slot x0 (i + 2)) = false) as ->.
      { rewrite aligned_spec, page_eq in *. apply Z.eqb_eq in Ha. apply Z.eqb_neq. unfold prp_slot in *. dlia. }
      rewrite (IH (i + 2)); try done; try lia. cbn in Hf. lia.
    + destruct Hs as (H1 & H3). rewrite H1. cbn [mbind option_bind].
      rewrite (IH (i + 1)); try done; try lia. cbn in Hf. lia.
Qed.

Definition same_static (x : nvme_xfer) : Prop :=
  xf_req x = xf_req x0 /\ prp_list_addr x = prp_list_addr x0 /\ prp_cap x = prp_cap x0 /\ prp_list x = prp_list x0.

(** The bytes behind the first page. *)
Definition rest_bytes (x : nvme_xfer) : Z := xfer_bytes x - (page - first_prp_entry x mod page).

(** A transfer of at least two pages to the addresses [data]. *)
Record prp_many (w : gmap Z Z) (x : nvme_xfer) (init data : list Z) : Prop := {
  pm_same : same_static x;
  pm_entries : 0 <= first_prp_entry x < 2 ^ 32 /\ 0 <= last_prp_entry x < 2 ^ 32;
  pm_size : 2 <= prp_size x <= prp_cap x0 + 1;
  pm_stored : stored w 0 init (prp_size x - 2);
  pm_rest : zlen init * page < rest_bytes x <= (zlen init + 1) * page;
  pm_data : data = seqZ (first_prp_entry x) (page - first_prp_entry x mod page) ++ fill (init ++ [last_prp_entry x]) (rest_bytes x);
}.

Definition full (x : nvme_xfer) (init : list Z) : Prop := rest_bytes x = (zlen init + 1) * page.

Lemma prp_bytes w x init data : xfer_static w -> prp_many w x init data -> 0 <= xfer_bytes x /\ xfer_bytes x + page < 2 ^ 64.
Proof.
  intros [Hp _ Hc _] [_ He Hz Hst Hr _]. pose proof (stored_bounds _ _ _ _ Hst) as Hb. unfold rest_bytes in Hr. rewrite page_eq in *.
  pose proof (Z.mod_pos_bound (first_prp_entry x) 4096 ltac:(lia)). lia.
Qed.

Lemma full_next w x init data start j : xfer_static w -> prp_many w x init data -> full x init ->
  full (set_last start j (u64 (xfer_bytes x + page)) x) (init ++ [last_prp_entry x]).
Proof.
  intros Hx Hm Hf. pose proof (prp_bytes _ _ _ _ Hx Hm). unfold full, rest_bytes in *. cbn. rewrite length_app. cbn.
  rewrite page_eq in *. rewrite u64_small by lia. lia.
Qed.

(** The next page: the last entry goes to the list. *)
Lemma prp_put w x init data j w' start n : xfer_static w -> prp_many w x init data -> full x init ->
  j + 1 = (if plat_is_page_aligned (prp_slot x0 (prp_size x - 2 + 1)) then prp_size x - 2 + 2 else prp_size x - 2 + 1) ->
  j + 1 < prp_cap x0 -> stored w' (prp_size x - 2) [last_prp_entry x] (j + 1) ->
  (forall i, i < prp_size x - 2 -> w' !! prp_slot x0 i = w !! prp_slot x0 i) -> 0 < n <= page -> 0 <= start < 2 ^ 32 ->
  prp_many w' (set_last start (j + 3) (u64 (xfer_bytes x + n)) x) (init ++ [last_prp_entry x]) (data ++ seqZ start n).
Proof.
  intros Hx Hm. pose proof (prp_bytes _ _ _ _ Hx Hm) as Hbytes. revert Hx Hm. intros [Hp _ Hc _] [Hs He Hz Hst Hr Hd] Hf Hj Hj1 Hsto Hw Hn Hst0. unfold full in Hf.
  pose proof (stored_bounds _ _ _ _ Hst) as Hb. rewrite page_eq in *.
  assert (u64 (xfer_bytes x + n) = xfer_bytes x + n) as Hu by (apply u64_small; lia).
  assert (rest_bytes (set_last start (j + 3) (u64 (xfer_bytes x + n)) x) = (zlen init + 1) * 4096 + n) as Hr'.
  { unfold rest_bytes in *. rewrite page_eq in *. cbn. rewrite Hu. lia. }
  constructor; rewrite ?Hr', ?page_eq; cbn.
  - done.
  - lia.
  - split; [destruct (plat_is_page_aligned _); lia |]. lia.
  - replace (j + 3 - 2) with (j + 1) by lia. rewrite Hj. apply stored_snoc.
    + apply (stored_frame w); [done |]. intros i Hi. apply Hw. lia.
    + by rewrite <- Hj.
  - rewrite length_app. cbn. lia.
  - rewrite fill_snoc by (rewrite length_app, page_eq; cbn; lia). rewrite length_app, page_eq, Hd, Hf, <- app_assoc. cbn. do 2 f_equal.
    + apply fill_sat; rewrite length_app, page_eq; cbn; lia.
    + f_equal. lia.
Qed.

Lemma assign_ok w i v : xfer_static w -> 0 <= i < prp_cap x0 ->
  assign w (prp_slot x0 i) v = Ok (<[prp_slot x0 i := v]> w) /\ xfer_static (<[prp_slot x0 i := v]> w).
Proof.
  intros [Hp Ha Hc Hw] Hi. destruct (Hw i Hi) as [u Hu]. split; [unfold assign; by rewrite Hu |].
  constructor; try done. intros k Hk. destruct (decide (prp_slot x0 i = prp_slot x0 k)) as [-> | Hne].
  - by rewrite lookup_insert_eq.
  - rewrite lookup_insert_ne by done. by apply Hw.
Qed.

(** The bytes from [start] on were added, all of them or as many as the list
    has room for. *)
Definition added (data : list Z) (start e : Z) (r : res (bool * gmap Z Z * nvme_xfer)) : Prop :=
  exists b w x init n, r = Ok (b, w, x) /\ xfer_static w /\
    prp_many w x init (data ++ seqZ start n) /\ 0 <= n <= e - start /\
    if b : bool then n = e - start else prp_cap x0 <= 2 + 2 * zlen init.

Lemma added_stop w w' x init data start e : xfer_static w' -> prp_many w x init data ->
  (forall i, i < prp_size x - 2 -> w' !! prp_slot x0 i = w !! prp_slot x0 i) -> prp_cap x0 <= prp_size x -> start <= e ->
  added data start e (Ok (false, w', x)).
Proof.
  intros Hx [H1 H2 H3 H4 H5 H6] Hw Hc Hse. pose proof (stored_bounds _ _ _ _ H4).
  exists false, w', x, init, 0. rewrite seqZ_nil, app_nil_r by lia. split_and!; try done; try lia.
  constructor; try done. apply (stored_frame w); [done |]. intros i Hi. apply Hw. lia.
Qed.

Lemma added_more data start n e r : 0 <= n <= e - start -> added (data ++ seqZ start n) (start + n) e r -> added data start e r.
Proof.
  intros Hn (b & w & x & init & k & -> & Hx & Hm & Hk & Hb). exists b, w, x, init, (n + k).
  rewrite <- app_assoc, <- seqZ_app in Hm by lia. split_and!; try done; [lia | lia |]. destruct b; lia.
Qed.

Lemma prp_loop_ok fuel w x init data start e : xfer_static w -> prp_many w x init data -> full x init ->
  start mod page = 0 -> 0 <= start < e -> e < 2 ^ 32 -> e - start <= Z.of_nat fuel * page ->
  added data start e (prp_loop fuel w x start e).
Proof.
  induction fuel as [| fuel IH] in w, x, init, data, start |- *; intros Hx Hm Hf Hal Hs He Hfuel; [lia |].
  pose proof Hm as [(S1 & S2 & S3 & S4) _ Hsize Hsto _ _]. pose proof Hx as [Hp _ Hc _].
  assert (forall i, prp_slot x i = prp_slot x0 i) as Hslot by (intros; unfold prp_slot; by rewrite S4).
  cbn [prp_loop]. rewrite S3, !Hslot, (u64_small (prp_size x - 2)), (u64_small (prp_cap x0 - 1)) by lia.
  assert (forall j w1, xfer_static w1 ->
    j + 1 = (if plat_is_page_aligned (prp_slot x0 (prp_size x - 2 + 1)) then prp_size x - 2 + 2 else prp_size x - 2 + 1) ->
    j + 1 < prp_cap x0 -> stored (<[prp_slot x0 j := last_prp_entry x]> w1) (prp_size x - 2) [last_prp_entry x] (j + 1) ->
    (forall i, i < prp_size x - 2 -> w1 !! prp_slot x0 i = w !! prp_slot x0 i) ->
    added data start e (w ← assign w1 (prp_slot x0 j) (last_prp_entry x);
      if u32 (e - start) <=? page then Ok (true, w, set_last start (j + 3) (u64 (xfer_bytes x + u32 (e - start))) x)
      else prp_loop fuel w (set_last start (j + 3) (u64 (xfer_bytes x + page)) x) (u32 (start + page)) e)) as Hput.
  { intros j w1 Hx1 Hj Hj1 Hsto1 Hw1.
    assert (prp_size x - 2 <= j) by (destruct (plat_is_page_aligned _); lia).
    destruct (assign_ok w1 j (last_prp_entry x) Hx1 ltac:(lia)) as [-> Hx2]. cbn [mbind res_bind].
    rewrite (u32_small (e - start)) by lia. pose proof (fun n => prp_put w x init data j _ start n Hx Hm Hf Hj Hj1 Hsto1) as Hnext.
    set (w2 := <[prp_slot x0 j := _]> w1) in *.
    assert (forall i, i < prp_size x - 2 -> w2 !! prp_slot x0 i = w !! prp_slot x0 i) as Hw2.
    { intros i Hi. subst w2. rewrite lookup_insert_ne; [by apply Hw1 |]. intros E. apply slot_inj in E. lia. }
    destruct (Z.leb_spec (e - start) page) as [Hlast | Hlast].
    - exists true, w2, (set_last start (j + 3) (u64 (xfer_bytes x + (e - start))) x), (init ++ [last_prp_entry x]), (e - start).
      split_and!; try done; try lia. apply Hnext; [done | lia | lia].
    - rewrite u32_small by (rewrite page_eq in *; lia).
      apply (added_more data start page); [rewrite page_eq in *; lia |].
      apply (IH w2 _ (init ++ [last_prp_entry x])); try done.
      + apply Hnext; [done | rewrite page_eq; lia | lia].
      + by apply (full_next w _ _ data).
      + rewrite page_eq in *. dlia.
      + rewrite page_eq in *. lia.
      + rewrite page_eq in *. lia. }
  destruct (Z.leb_spec (prp_cap x0 - 1) (prp_size x - 2)) as [Hfull | Hroom]; [apply (added_stop w w x init); try done; lia |].
  destruct (plat_is_page_aligned (prp_slot x0 (prp_size x - 2 + 1))) eqn:Ha.
  - assert (plat_virt_to_phys (prp_slot x0 (prp_size x - 2 + 1)) = prp_slot x0 (prp_size x - 2 + 1)) as ->.
    { unfold plat_virt_to_phys, prp_slot. assert ((0xffe00000 <=? prp_list x0 + 8 * (prp_size x - 2 + 1)) = false) as -> by zb.
      apply u32_small. lia. }
    destruct (assign_ok w (prp_size x - 2) (prp_slot x0 (prp_size x - 2 + 1)) Hx ltac:(lia)) as [-> Hx1]. cbn [mbind res_bind].
    set (w1 := <[_ := _]> w) in *.
    assert (forall i, i < prp_size x - 2 -> w1 !! prp_slot x0 i = w !! prp_slot x0 i) as Hw1.
    { intros i Hi. subst w1. rewrite lookup_insert_ne; [done |]. intros E. apply slot_inj in E. lia. }
    destruct (Z.leb_spec (prp_cap x0 - 1) (prp_size x - 2 + 1)) as [Hfull | Hroom'].
    + apply (added_stop w w1 x init); try done; lia.
    + apply Hput; try done; try lia. cbn [stored]. rewrite Ha. split_and!.
      * rewrite lookup_insert_ne by (intros E; apply slot_inj in E; lia). apply lookup_insert_eq.
      * apply lookup_insert_eq.
      * lia.
  - apply Hput; try done; try lia. cbn [stored]. rewrite Ha. split; [by rewrite lookup_insert_eq | done].
Qed.

Lemma fill_length l rem : 0 <= rem <= zlen l * page -> zlen (fill l rem) = rem.
Proof.
  induction l as [| q l IH] in rem |- *; cbn [length fill]; [lia |]. intros H. rewrite length_app, length_seqZ.
  destruct (Z.le_gt_cases rem page).
  - assert (fill l (rem - page) = []) as ->; [| cbn; lia].
    clear IH H. revert rem H0. induction l as [| p l IH]; intros rem H0; [done |]. cbn [fill].
    rewrite seqZ_nil by lia. apply IH. rewrite page_eq. rewrite page_eq in H0. lia.
  - rewrite page_eq in *. rewrite Nat2Z.inj_add, IH by lia. lia.
Qed.

(** A transfer to the addresses [data], of any number of pages. *)
Definition prp_one (x : nvme_xfer) (data : list Z) : Prop :=
  same_static x /\ prp_size x = 1 /\ 0 <= first_prp_entry x < 2 ^ 32 /\
  0 <= xfer_bytes x <= page - first_prp_entry x mod page /\ data = seqZ (first_prp_entry x) (xfer_bytes x).
Definition prp_inv (w : gmap Z Z) (x : nvme_xfer) (data : list Z) : Prop :=
  prp_one x data \/ exists init, prp_many w x init data.

(** The last page is full. *)
Definition page_end (w : gmap Z Z) (x : nvme_xfer) (data : list Z) : Prop :=
  prp_one x data /\ xfer_bytes x = page - first_prp_entry x mod page \/
  exists init, prp_many w x init data /\ full x init.

Lemma prp_many_length w x init data : prp_many w x init data -> zlen data = xfer_bytes x.
Proof.
  intros [_ He _ _ Hr ->]. rewrite length_app, length_seqZ, Nat2Z.inj_add, fill_length.
  - pose proof (Z.mod_pos_bound (first_prp_entry x) page ltac:(done)). unfold rest_bytes in *. lia.
  - rewrite length_app. cbn. rewrite page_eq in *. lia.
Qed.

Lemma prp_inv_length w x data : prp_inv w x data -> zlen data = xfer_bytes x.
Proof.
  intros [(_ & _ & _ & Hb & ->) | (init & Hm)]; [rewrite length_seqZ; lia | by apply (prp_many_length w x init)].
Qed.

Lemma prp_inv_same w x data : prp_inv w x data -> same_static x.
Proof. intros [H | (init & H)]; [apply H | by destruct H]. Qed.

(** What adding a buffer gives: all of it was added, or the list is full. *)
Definition buffer_added (data : list Z) (start e : Z) (r : res (bool * gmap Z Z * nvme_xfer)) : Prop :=
  exists b w x n, r = Ok (b, w, x) /\ xfer_static w /\ prp_inv w x (data ++ seqZ start n) /\ 0 <= n <= e - start /\
    if b : bool then n = e - start else (prp_cap x0 - 2) * page < 2 * (zlen data + (e - start)).

Lemma added_buffer data start e r : added data start e r -> buffer_added data start e r.
Proof.
  intros (b & w & x & init & n & -> & Hx & Hm & Hn & Hb). exists b, w, x, n. split; [done |]. split; [done |]. split; [right; by exists init |]. split; [done |].
  destruct b; [done |]. pose proof (prp_many_length _ _ _ _ Hm) as Hl. destruct Hm as [_ _ _ _ Hr _].
  rewrite length_app, length_seqZ in Hl. unfold rest_bytes in Hr. rewrite page_eq in *.
  pose proof (Z.mod_pos_bound (first_prp_entry x) 4096 ltac:(lia)). lia.
Qed.

Lemma add_pages_ok w x data start e : xfer_static w -> page_end w x data -> start mod page = 0 -> 0 <= start <= e -> e < 2 ^ 32 ->
  buffer_added data start e (add_pages w x start e).
Proof.
  intros Hx Hend Hal Hs He. unfold add_pages. rewrite land_page_mask, Hal. cbn [c_assert Z.eqb mbind res_bind].
  destruct (Z.leb_spec e start) as [Hle | Hlt].
  { exists true, w, x, 0. rewrite seqZ_nil, app_nil_r by lia. split_and!; try done; try lia.
    destruct Hend as [[? _] | (init & ? & _)]; [by left | right; by exists init]. }
  assert (forall start x init data, prp_many w x init data -> full x init -> start mod page = 0 -> 0 <= start < e ->
    buffer_added data start e (_ ← c_assert (2 <=? prp_size x); _ ← c_assert (start <? e); prp_loop (prp_fuel start e) w x start e)) as Hrest.
  { intros s y init d Hm Hf Hsal Hse. pose proof (pm_size _ _ _ _ Hm). do 2 assert_ok. apply added_buffer, (prp_loop_ok _ _ _ init); try done; try lia.
    unfold prp_fuel. rewrite page_eq. dlia. }
  destruct Hend as [[(Hsame & Hz & Hfst & Hb & Hd) Hend] | (init & Hm & Hf)].
  2: { pose proof (pm_size _ _ _ _ Hm). assert ((prp_size x <? 2) = false) as -> by zb. apply (Hrest start x init); try done; lia. }
  rewrite Hz. cbn [Z.ltb Z.compare Pos.compare Pos.compare_cont Z.eqb Pos.eqb c_assert mbind res_bind].
  pose proof Hx as [Hp _ Hc _]. pose proof (Z.mod_pos_bound (first_prp_entry x) page ltac:(done)).
  assert (forall n, 0 < n <= page -> prp_many w (set_last start 2 (u64 (xfer_bytes x + n)) x) [] (data ++ seqZ start n)) as Hm.
  { intros n Hn. rewrite page_eq in *. assert (u64 (xfer_bytes x + n) = xfer_bytes x + n) as Hu by (apply u64_small; lia).
    assert (rest_bytes (set_last start 2 (u64 (xfer_bytes x + n)) x) = n) as Hr.
    { unfold rest_bytes. cbn. rewrite Hu, page_eq. lia. }
    constructor; rewrite ?Hr; cbn [length app fill set_last first_prp_entry last_prp_entry prp_size]; try done; try lia.
    rewrite Hd, Hend, page_eq, app_nil_r. do 2 f_equal. lia. }
  rewrite u32_small by lia. destruct (Z.leb_spec (e - start) page) as [Hlast | Hmore].
  - eexists true, w, _, (e - start). split; [done |]. split; [done |]. split; [right; exists []; apply Hm; lia |]. split; [lia | done].
  - rewrite u32_small by (rewrite page_eq in *; lia).
    specialize (Hm page ltac:(rewrite page_eq; lia)).
    destruct (Hrest (start + page) _ [] _ Hm) as (b & w' & x' & n & -> & Hx' & Hinv & Hn & Hbn).
    + unfold full, rest_bytes. cbn. rewrite page_eq in *. rewrite u64_small by lia. lia.
    + rewrite page_eq in *. dlia.
    + rewrite page_eq in *. lia.
    + exists b, w', x', (page + n). rewrite <- app_assoc, <- seqZ_app in Hinv by (rewrite ?page_eq; lia).
      rewrite length_app, length_seqZ in Hbn. rewrite page_eq in *.
      split; [done |]. split; [done |]. split; [done |]. split; [lia |]. destruct b; lia.
Qed.

(** A buffer as the driver adds it. *)
Definition buffer_ok (s e : Z) : Prop := 0 <= s <= e /\ e < 2 ^ 32 /\ s mod 4 = 0 /\ e mod 4 = 0.

Lemma buffer_assert s e : buffer_ok s e -> negb (flag s 3 || flag e 3 || (e <? s)) = true.
Proof.
  intros (H1 & H2 & H3 & H4). unfold flag. change 3 with (2 ^ 2 - 1). rewrite !land_ones_mod by lia. change (2 ^ 2) with 4.
  rewrite H3, H4. cbn. apply negb_true_iff. zb.
Qed.

Lemma clear_offset s : 0 <= s < 2 ^ 32 -> Z.land s (u32 (Z.lnot page_mask)) = s - s mod page.
Proof.
  intros Hs. change (u32 (Z.lnot page_mask)) with 0xfffff000. rewrite page_eq.
  change 0xfffff000 with (Z.shiftl (Z.ones 20) 12). change 4096 with (2 ^ 12).
  replace (s - s mod 2 ^ 12) with (Z.shiftl (Z.shiftr s 12) 12).
  2: { rewrite Z.shiftl_mul_pow2, Z.shiftr_div_pow2 by lia. pose proof (Z.div_mod s (2 ^ 12) ltac:(lia)). lia. }
  apply Z.bits_inj'. intros i Hi. rewrite Z.land_spec. destruct (Z.lt_ge_cases i 12).
  - rewrite !Z.shiftl_spec_low by lia. apply andb_false_r.
  - rewrite !Z.shiftl_spec, Z.shiftr_spec by lia. replace (i - 12 + 12) with i by lia.
    destruct (Z.lt_ge_cases i 32).
    + rewrite Z.ones_spec_low by lia. apply andb_true_r.
    + by rewrite (testbit_small s 32 i) by lia.
Qed.

Section Add.
Context (reqs : gmap Z nvme_req) (Hreq : req_status <$> reqs !! xf_req x0 = Some NVME_CREATING).

Lemma add_enter {X} x s e (k : res X) : same_static x -> buffer_ok s e ->
  (r ← deref reqs (xf_req x); _ ← c_assert (req_status r =? NVME_CREATING);
   _ ← c_assert (negb (flag s 3 || flag e 3 || (e <? s))); k) = k.
Proof.
  intros (-> & _) Hb. unfold deref. destruct (reqs !! xf_req x0) as [r |]; [| discriminate]. injection Hreq as Hr.
  cbn [mbind res_bind]. rewrite Hr, (buffer_assert s e Hb). done.
Qed.

(** The first buffer of a transfer. *)
Lemma add_first w x s e : xfer_static w -> same_static x -> prp_size x = 0 -> buffer_ok s e ->
  buffer_added [] s e (nvme_add_phys_buffer reqs w x s e).
Proof.
  intros Hx Hsame Hz Hb. unfold nvme_add_phys_buffer. rewrite add_enter, Hz by done. cbn [Z.eqb].
  destruct Hb as (H1 & H2 & H3 & H4). change PLAT_PAGE_SHIFT with 12. rewrite !Z.shiftr_div_pow2 by lia. change (2 ^ 12) with 4096.
  rewrite (u32_small (e - s)) by lia. pose proof (Z.mod_pos_bound s 4096 ltac:(lia)) as Hoff.
  destruct (Z.leb_spec (e / 4096) (s / 4096)) as [Hone | Hmany].
  - eexists true, w, _, (e - s). split; [done |]. split; [done |]. split; [| split; [lia | done]].
    left. unfold prp_one. cbn. rewrite page_eq. split; [done |]. split; [done |]. split; [lia |]. split; [| done]. dlia.
  - rewrite land_page_mask, clear_offset, page_eq by lia. rewrite !u32_small by dlia.
    set (x1 := set_first s 1 _ x).
    assert (page_end w x1 (seqZ s (4096 - s mod 4096))) as Hend.
    { left. unfold prp_one. cbn. rewrite page_eq. split_and!; try done; lia. }
    destruct (add_pages_ok w x1 _ (s - s mod 4096 + 4096) e Hx Hend) as (b & w' & x' & n & -> & Hx' & Hinv & Hn & Hbn);
      rewrite ?page_eq; [dlia | dlia | dlia |].
    exists b, w', x', (4096 - s mod 4096 + n).
    replace (s - s mod 4096 + 4096) with (s + (4096 - s mod 4096)) in Hinv by lia. rewrite <- seqZ_app in Hinv by lia.
    rewrite length_seqZ in Hbn. cbn [length app]. rewrite page_eq in *.
    split; [done |]. split; [done |]. split; [done |]. split; [lia |]. destruct b; lia.
Qed.

(** A further buffer: it starts where a page starts, and the ones before it
    end where a page ends. *)
Lemma add_next w x data s e : xfer_static w -> page_end w x data -> first_prp_entry x mod page <> 0 -> buffer_ok s e -> s mod page = 0 ->
  buffer_added data s e (nvme_add_phys_buffer reqs w x s e).
Proof.
  intros Hx Hend Hoff Hb Hs. unfold nvme_add_phys_buffer.
  assert (same_static x /\ 1 <= prp_size x /\ 0 <= first_prp_entry x /\
    exists k, xfer_bytes x = page - first_prp_entry x mod page + k * page) as (Hsame & Hz & Hf & k & Hk).
  { destruct Hend as [[(H1 & H2 & H3 & H4 & H5) H] | (init & [H1 H2 H3 H4 H5 H6] & Hfull)].
    - split_and!; try done; try lia. exists 0. lia.
    - split_and!; try done; try lia. exists (zlen init + 1). unfold full, rest_bytes in Hfull. lia. }
  rewrite add_enter by done. assert ((prp_size x =? 0) = false) as -> by zb.
  rewrite !land_page_mask, Hk, Z.mod_add, page_eq in * by done.
  pose proof (Z.mod_pos_bound (first_prp_entry x) 4096 ltac:(lia)).
  rewrite (Z.mod_small (4096 - _)), u32_small, Z.eqb_refl by lia. cbn [c_assert mbind res_bind].
  destruct Hb as (H1 & H2 & _ & _). apply add_pages_ok; rewrite ?page_eq; try done.
Qed.
End Add.
End List_.

(** ** The command *)

(** What a controller makes of a command: a read of the blocks from [lba] on
    to the addresses [data]. *)
Record reads (w : gmap Z Z) (lba_shift : Z) (cmd : nvme_cmd) (nsid lba : Z) (data : list Z) : Prop := {
  rc_opc : c_opc cmd = NVME_NVM_READ /\ c_fuse_psdt cmd = NVME_PSDT_PRP /\ c_nsid cmd = nsid;
  rc_lba : c_dw10 cmd + 2 ^ 32 * c_dw11 cmd = lba;
  rc_blocks : 0 <= c_dw12 cmd < 2 ^ 16;
  rc_data : prp_decode w (c_dptr0 cmd) (c_dptr1 cmd) ((c_dw12 cmd + 1) * 2 ^ lba_shift) = Some data;
}.

Lemma lba_split lba : 0 <= lba < 2 ^ 64 -> u32 lba + 2 ^ 32 * u32 (Z.shiftr lba 32) = lba.
Proof.
  intros H. rewrite Z.shiftr_div_pow2 by lia. rewrite (u32_small (lba / 2 ^ 32)) by dlia.
  unfold u32. pose proof (Z.div_mod lba (2 ^ 32) ltac:(lia)). lia.
Qed.

Lemma prp_decode_one w p n k : 0 <= n <= page - p mod page -> prp_decode w p k n = Some (seqZ p n).
Proof. intros Hn. unfold prp_decode. rewrite Z.min_l by lia. assert ((n - n <=? 0) = true) as -> by zb. done. Qed.

Lemma prp_decode_many x0 w x init data w' : xfer_static x0 w -> prp_many x0 w x init data ->
  (forall i, i < prp_size x - 2 -> w' !! prp_slot x0 i = w !! prp_slot x0 i) ->
  (2 < prp_size x -> w' !! prp_slot x0 (prp_size x - 2) = Some (last_prp_entry x)) ->
  prp_decode w' (first_prp_entry x) (if prp_size x =? 2 then last_prp_entry x else prp_list x0) (xfer_bytes x) = Some data.
Proof.
  intros [Hp _ _ _] [_ He Hz Hst Hr ->] Hw Hl. pose proof (stored_bounds _ _ _ _ _ Hst) as Hb. unfold prp_decode.
  pose proof (Z.mod_pos_bound (first_prp_entry x) page ltac:(done)). assert (0 < rest_bytes x) by (rewrite page_eq in *; lia).
  unfold rest_bytes in *. rewrite Z.min_r by lia. assert ((xfer_bytes x - (page - first_prp_entry x mod page) <=? 0) = false) as -> by zb.
  set (rem := xfer_bytes x - _) in *. clearbody rem.
  destruct (Z.eqb_spec (prp_size x) 2) as [E | E].
  - rewrite E in Hst. destruct init as [| i init]; [| exfalso; cbn [length] in Hb; lia].
    assert ((rem <=? page) = true) as -> by (rewrite page_eq in *; cbn in Hr; zb). done.
  - destruct init as [| i init]; [exfalso; cbn in Hb; lia |].
    assert ((rem <=? page) = false) as -> by (rewrite page_eq in *; cbn [length] in Hr; zb).
    pose proof (prp_entries_stored x0 w' 0 (i :: init) (last_prp_entry x) (prp_size x - 2) rem (S (2 * Z.to_nat (rem / page + 1)))) as Hent.
    replace (prp_slot x0 0) with (prp_list x0) in Hent by (unfold prp_slot; lia). rewrite Hent; try done; try lia.
    + apply (stored_frame _ w); [done |]. intros j Hj. apply Hw. lia.
    + apply Hl. lia.
    + rewrite page_eq in *. assert (zlen (i :: init) <= rem / 4096 + 1) by dlia. lia.
Qed.

Lemma nvme_emit_read_ok x0 w x data sq lba_shift nsid lba : xfer_static x0 w -> prp_inv x0 w x data ->
  0 <= lba_shift <= 32 -> zlen data mod 2 ^ lba_shift = 0 -> 0 < zlen data <= 2 ^ 16 * 2 ^ lba_shift ->
  0 <= lba < 2 ^ 64 -> 0 <= sq_tail sq < zlen (sq_buf sq) ->
  exists w' cmd, nvme_emit_read lba_shift w sq x nsid lba = Ok (true, w', sq_set_buf (<[Z.to_nat (sq_tail sq) := cmd]> (sq_buf sq)) sq) /\
    xfer_static x0 w' /\ reads w' lba_shift cmd nsid lba data.
Proof.
  intros Hx Hinv Hsh Hmod Hlen Hlba Htail. pose proof (prp_inv_length _ _ _ _ Hinv) as Hl. rewrite Hl in *.
  unfold nvme_emit_read, flag. rewrite Z.shiftl_1_l, land_ones_mod, Hmod by lia. cbn [Z.eqb negb].
  rewrite (Z.shiftr_div_pow2 (xfer_bytes x)) by lia.
  assert (0 < 2 ^ lba_shift) by (apply Z.pow_pos_nonneg; lia).
  assert (xfer_bytes x = 2 ^ lba_shift * (xfer_bytes x / 2 ^ lba_shift)) as Hq by (apply Z.div_exact; lia).
  set (nb := xfer_bytes x / 2 ^ lba_shift) in *. assert (0 < nb <= 2 ^ 16) as Hnb by nia.
  rewrite (u32_small (nb - 1)) by lia.
  assert (forall w' p1, prp_decode w' (first_prp_entry x) p1 (xfer_bytes x) = Some data ->
    reads w' lba_shift (Cmd NVME_NVM_READ NVME_PSDT_PRP 0 nsid 0 0 (first_prp_entry x) p1 (u32 lba) (u32 (Z.shiftr lba 32)) (nb - 1) 0 0 0) nsid lba data) as Hreads.
  { intros w' p1 Hd. constructor; cbn; [done | by apply lba_split | lia |].
    replace ((nb - 1 + 1) * 2 ^ lba_shift) with (xfer_bytes x) by lia. done. }
  destruct Hinv as [(Hs & Hz & Hf & Hb & Hdata) | (init & Hm)].
  - rewrite Hz. cbn [Z.ltb Z.eqb Z.compare Pos.compare Pos.compare_cont Pos.eqb mbind res_bind]. rewrite seti_ok by done. cbn [mbind res_bind].
    eexists w, _. split; [done |]. split; [done |]. apply Hreads. rewrite prp_decode_one by done. by rewrite Hdata.
  - pose proof (pm_size _ _ _ _ _ Hm) as Hsz. destruct (pm_entries _ _ _ _ _ Hm) as [_ Hle]. pose proof (pm_same _ _ _ _ _ Hm) as (S1 & S2 & S3 & S4).
    pose proof Hx as [Hp Ha Hc _]. assert (forall i, prp_slot x i = prp_slot x0 i) as Hslot by (intros; unfold prp_slot; by rewrite S4).
    rewrite Hslot, S2, Ha, (u32_small (last_prp_entry x)), (u32_small (prp_list x0)) by lia.
    destruct (Z.ltb_spec 2 (prp_size x)) as [Hbig | Hsmall].
    + destruct (assign_ok x0 w (prp_size x - 2) (last_prp_entry x) Hx ltac:(lia)) as [-> Hx']. cbn [mbind res_bind]. rewrite seti_ok by done.
      cbn [mbind res_bind]. eexists _, _. split; [done |]. split; [done |]. apply Hreads. apply (prp_decode_many x0 w x init); try done.
      * intros i Hi. apply lookup_insert_ne. intros E. apply slot_inj in E. lia.
      * intros _. apply lookup_insert_eq.
    + cbn [mbind res_bind]. rewrite seti_ok by done. cbn [mbind res_bind]. eexists w, _. split; [done |]. split; [done |]. apply Hreads.
      pose proof (prp_decode_many x0 w x init data w Hx Hm) as Hd. assert ((prp_size x =? 2) = true) as E by zb. rewrite E in *.
      apply Hd; [done | lia].
Qed.

(** ** Several buffers *)
Fixpoint tail_ok (bufs : list (Z * Z)) : Prop :=
  match bufs with
  | [] => True
  | (s, e) :: bufs => buffer_ok s e /\ s mod page = 0 /\ (bufs <> [] -> e mod page = 0) /\ tail_ok bufs
  end.

(** The rules for buffers: all but the last end, and all but the first start,
    on a page boundary.  The first one does not, if there are others. *)
Definition bufs_ok (bufs : list (Z * Z)) : Prop :=
  match bufs with
  | [] => True
  | (s, e) :: bufs => buffer_ok s e /\ (bufs <> [] -> s mod page <> 0 /\ e mod page = 0) /\ tail_ok bufs
  end.

Lemma prp_inv_first x0 w x data : prp_inv x0 w x data -> 0 < zlen data -> data !! 0%nat = Some (first_prp_entry x).
Proof.
  intros Hinv Hlen. assert (forall n, 0 < n -> seqZ (first_prp_entry x) n !! 0%nat = Some (first_prp_entry x)) as Hs.
  { intros n Hn. rewrite seqZ_cons by lia. done. }
  destruct Hinv as [(_ & _ & _ & _ & ->) | (init & [_ _ _ _ _ ->])].
  - apply Hs. rewrite length_seqZ in Hlen. lia.
  - pose proof (Z.mod_pos_bound (first_prp_entry x) page ltac:(done)).
    rewrite lookup_app_l; [apply Hs; lia | rewrite length_seqZ; lia].
Qed.

Lemma prp_inv_page_end x0 w x data : prp_inv x0 w x data -> 0 < zlen data -> (first_prp_entry x + zlen data) mod page = 0 ->
  page_end x0 w x data.
Proof.
  intros Hinv Hlen Hend. rewrite (prp_inv_length _ _ _ _ Hinv) in *. rewrite page_eq in *. destruct Hinv as [Hone | (init & Hm)].
  - left. split; [done |]. destruct Hone as (_ & _ & Hf & Hb & _). rewrite page_eq in *. dlia.
  - right. exists init. split; [done |]. destruct Hm as [_ He _ _ Hr _]. unfold full, rest_bytes in *. rewrite page_eq in *.
    set (n := zlen init) in *. clearbody n. dlia.
Qed.

Lemma buffer_addrs_length s e bufs : s <= e -> zlen (buffer_addrs ((s, e) :: bufs)) = e - s + zlen (buffer_addrs bufs).
Proof. intros H. unfold buffer_addrs. cbn. rewrite length_app, length_seqZ. lia. Qed.

Lemma add_rest x0 reqs w x bufs data : req_status <$> reqs !! xf_req x0 = Some NVME_CREATING -> xfer_static x0 w ->
  prp_inv x0 w x data -> 0 < zlen data -> first_prp_entry x mod page <> 0 -> (bufs <> [] -> (first_prp_entry x + zlen data) mod page = 0) ->
  tail_ok bufs -> 2 * (zlen data + zlen (buffer_addrs bufs)) <= (prp_cap x0 - 2) * page ->
  exists w' x', add_buffers reqs w x bufs = Ok (true, w', x') /\ xfer_static x0 w' /\ prp_inv x0 w' x' (data ++ buffer_addrs bufs).
Proof.
  intros Hreq. induction bufs as [| [s e] bufs IH] in w, x, data |- *; intros Hx Hinv Hlen Hoff Hend Hok Hcap.
  { exists w, x. unfold buffer_addrs. cbn. by rewrite app_nil_r. }
  destruct Hok as (Hb & Hs & He & Hok). specialize (Hend ltac:(done)). cbn [add_buffers].
  rewrite buffer_addrs_length in Hcap by apply Hb.
  destruct (add_next x0 reqs Hreq w x data s e Hx) as (b & w1 & x1 & n & -> & Hx1 & Hinv1 & Hn & Hbn); try done.
  { by apply prp_inv_page_end. }
  cbn [mbind res_bind]. destruct b; [| lia]. subst n.
  assert (first_prp_entry x1 = first_prp_entry x) as Hfst.
  { pose proof (prp_inv_first _ _ _ _ Hinv Hlen) as H1. pose proof (prp_inv_first _ _ _ _ Hinv1) as H2.
    rewrite lookup_app_l in H2 by lia. rewrite length_app in H2. specialize (H2 ltac:(lia)). congruence. }
  assert (zlen (data ++ seqZ s (e - s)) = zlen data + (e - s)) as Hl by (rewrite length_app, length_seqZ; lia).
  destruct (IH w1 x1 (data ++ seqZ s (e - s))) as (w2 & x2 & H1 & H2 & H3); rewrite ?Hl, ?Hfst; try done; try lia.
  { intros Hne. specialize (He Hne). rewrite page_eq in *. destruct Hb as (? & _). dlia. }
  exists w2, x2. split; [done |]. split; [done |]. unfold buffer_addrs in *. cbn. by rewrite <- app_assoc in H3.
Qed.

Lemma add_all x0 reqs w bufs : req_status <$> reqs !! xf_req x0 = Some NVME_CREATING -> xfer_static x0 w -> prp_size x0 = 0 ->
  bufs <> [] -> bufs_ok bufs -> 2 * zlen (buffer_addrs bufs) <= (prp_cap x0 - 2) * page ->
  exists w' x', add_buffers reqs w x0 bufs = Ok (true, w', x') /\ xfer_static x0 w' /\ prp_inv x0 w' x' (buffer_addrs bufs).
Proof.
  intros Hreq Hx Hz Hne Hok Hcap. destruct bufs as [| [s e] bufs]; [done |]. destruct Hok as (Hb & Hfst & Hok). cbn [add_buffers].
  rewrite buffer_addrs_length in Hcap by apply Hb.
  destruct (add_first x0 reqs Hreq w x0 s e Hx) as (b & w1 & x1 & n & -> & Hx1 & Hinv1 & Hn & Hbn); try done.
  cbn [mbind res_bind]. cbn [length app] in *. destruct b; [| lia]. subst n.
  destruct bufs as [| b2 bufs].
  { exists w1, x1. unfold buffer_addrs. cbn. by rewrite app_nil_r. }
  destruct (Hfst ltac:(done)) as [Hs He]. destruct Hb as (H1 & _).
  assert (0 < e - s) by (rewrite page_eq in *; dlia).
  assert (first_prp_entry x1 = s) as E.
  { pose proof (prp_inv_first _ _ _ _ Hinv1) as H2. rewrite length_seqZ, seqZ_cons in H2 by lia. specialize (H2 ltac:(lia)). by injection H2. }
  destruct (add_rest x0 reqs w1 x1 (b2 :: bufs) (seqZ s (e - s)) Hreq Hx1 Hinv1) as (w2 & x2 & H2 & H3 & H4);
    rewrite ?length_seqZ, ?E; try done; try lia.
  { intros _. rewrite <- He. f_equal. lia. }
  exists w2, x2. split; [done |]. split; [done |]. unfold buffer_addrs in *. done.
Qed.

(** C13: The buffers that are added to a transfer are those that the controller
    reads to.  For every list of buffers that keeps the rules, when the list
    has room for twice as many entries as there are pages (one half for the
    links, at most), adding them and making the read command succeeds, and a
    controller that follows the entries of the command reads the blocks from
    [lba] on to exactly the addresses of the buffers, in order. *)
Theorem nvme_prp_correct reqs w x bufs sq lba_shift nsid lba :
  req_status <$> reqs !! xf_req x = Some NVME_CREATING -> xfer_static x w -> prp_size x = 0 ->
  bufs <> [] -> bufs_ok bufs -> 2 * zlen (buffer_addrs bufs) <= (prp_cap x - 2) * page ->
  0 <= lba_shift <= 32 -> zlen (buffer_addrs bufs) mod 2 ^ lba_shift = 0 -> 0 < zlen (buffer_addrs bufs) <= 2 ^ 16 * 2 ^ lba_shift ->
  0 <= lba < 2 ^ 64 -> 0 <= sq_tail sq < zlen (sq_buf sq) ->
  exists w' x' w'' cmd, add_buffers reqs w x bufs = Ok (true, w', x') /\
    nvme_emit_read lba_shift w' sq x' nsid lba = Ok (true, w'', sq_set_buf (<[Z.to_nat (sq_tail sq) := cmd]> (sq_buf sq)) sq) /\
    reads w'' lba_shift cmd nsid lba (buffer_addrs bufs).
Proof.
  intros Hreq Hx Hz Hne Hok Hcap Hsh Hmod Hlen Hlba Htail.
  destruct (add_all x reqs w bufs) as (w1 & x1 & H1 & Hx1 & Hinv); try done.
  destruct (nvme_emit_read_ok x w1 x1 (buffer_addrs bufs) sq lba_shift nsid lba) as (w2 & cmd & H2 & _ & H3); try done.
  by exists w1, x1, w2, cmd.
Qed.

(** A list of 16 entries that starts at the fourth last entry of a page. *)
Definition demo_xfer : nvme_xfer := Xfer 1 0x3fe0 0 0 0 16 0 0x3fe0.
Definition demo_words : gmap Z Z := list_to_map (map (fun i => (0x3fe0 + 8 * i, 0)) (seqZ 0 16)).
Definition demo_reqs : gmap Z nvme_req := {[ 1 := Req (0, 0) 0 NVME_CREATING ]}.
Definition demo_sq : nvme_sq := Sq 0x1008 (replicate 4 zero_cmd) 3 2 1 0 3 (Some [0; 0; 0; 0]).
Definition demo_bufs : list (Z * Z) := [(0x10200, 0x13000); (0x50000, 0x52000); (0x71000, 0x72e00)].

Lemma nvme_prp_correct_witness :
  exists w' x' w'' cmd, add_buffers demo_reqs demo_words demo_xfer demo_bufs = Ok (true, w', x') /\
    nvme_emit_read 9 w' demo_sq x' 7 1000 = Ok (true, w'', sq_set_buf (<[2%nat := cmd]> (sq_buf demo_sq)) demo_sq) /\
    reads w'' 9 cmd 7 1000 (buffer_addrs demo_bufs).
Proof.
  assert (zlen (buffer_addrs demo_bufs) = 27648) as Hl by (vm_compute; reflexivity).
  apply (nvme_prp_correct demo_reqs demo_words demo_xfer demo_bufs demo_sq 9 7 1000); rewrite ?Hl.
  - reflexivity.
  - constructor; [vm_compute; split_and!; (reflexivity || discriminate) | reflexivity | cbn; lia |]. intros i Hi.
    assert (is_Some (demo_words !! (0x3fe0 + 8 * i))) as H; [| exact H].
    unfold demo_words. apply elem_of_dom. rewrite dom_list_to_map_L. apply elem_of_list_to_set.
    apply list_elem_of_fmap. exists (0x3fe0 + 8 * i, 0). split; [done |]. apply list_elem_of_fmap. exists i. split; [done |].
    apply elem_of_seqZ. cbn in Hi. lia.
  - reflexivity.
  - done.
  - cbn. unfold buffer_ok. rewrite page_eq. split_and!; (lia || reflexivity || (intros; reflexivity) || (intros []; reflexivity) || (intros; split; [discriminate | reflexivity])).
  - rewrite page_eq. cbn. lia.
  - lia.
  - reflexivity.
  - cbn. lia.
  - lia.
  - cbn. lia.
Defined.

(** ** Where the code differs from what it means to do

    The assertion that the buffers before ended at the end of a page compares
    with the size of a whole page when the first buffer starts on a page
    boundary: then no second buffer can be added, although both keep the
    rules of the comments. *)
Lemma aligned_first_buffer :
  add_buffers demo_reqs demo_words demo_xfer [(0x10000, 0x11000); (0x50000, 0x51000)] = Trap TrapAssert.
Proof. vm_compute. reflexivity. Qed.

(** The loop of [nvme_reset_xfer] goes on while the exchange succeeds.  On a
    transfer that was not used yet it does not end unless the processor makes
    an exchange fail without reason. *)
Lemma reset_unused_hangs fuel : reset_loop fuel (fun _ _ => false) 0 NVME_CREATING NVME_CREATING = Trap TrapFuel.
Proof.
  assert (forall n, reset_loop fuel (fun _ _ => false) n NVME_CREATING NVME_CREATING = Trap TrapFuel) as H; [| apply H].
  induction fuel as [| fuel IH]; intros n; [done |]. cbn. apply IH.
Qed.

(** When the exchange fails without reason on a transfer that was completed,
    it is not set to [NVME_CREATING], and success is reported. *)
Lemma reset_spurious_failure : reset_loop 2 (fun _ _ => true) 0 1 1 = Ok (IOST_OK, 1).
Proof. reflexivity. Qed.
