(* ===== verification/NvmeQueue.v ===== *)
(** * Submission and completion queues ([src/lib/nvme.c])

    The driver and the controller share rings of commands and completions;
    who owns an entry follows from the doorbells, the head that completions
    report and a phase bit.  The controller is modelled by its steps: it
    fetches commands, and posts completions for the commands it works on in any
    order.  The invariant relates both sides in every interleaving; from it
    follows that completions are processed exactly once and in the order of
    their posting, that the right request is finished by each, and that waiting
    for a request ends when the controller completes it. *)
From S2P Require Export NvmePrp.
From stdpp Require Import base list list_numbers gmap zmap.

Open Scope Z_scope.

(** ** The controller *)
Definition reg (m : machine) (r : Z) : Z := default 0 (m_regs m !! r).
Definition advance (size i : Z) : Z := if i =? size then 0 else i + 1.
Definition set_dev (d : list dev_queue) (m : machine) : machine :=
  Mach (m_st m) (m_reqs m) (m_regs m) (m_words m) (m_mem m) d (m_time m).
Definition set_mem (mm : mem) (m : machine) : machine :=
  Mach (m_st m) (m_reqs m) (m_regs m) (m_words m) mm (m_dev m) (m_time m).
Definition set_time (t : nat) (m : machine) : machine :=
  Mach (m_st m) (m_reqs m) (m_regs m) (m_words m) (m_mem m) (m_dev m) t.

Definition cq_set_buf (b : list nvme_completion) (c : nvme_cq) : nvme_cq :=
  Cq (cq_doorbell c) b (cq_phase c) (cq_size c) (cq_pos c).

Section Queues.
(** [effect m c code mm]: when the command [c] ends with status code [code],
    the memory may be [mm] afterwards. *)
Context (effect : machine -> nvme_cmd -> Z -> mem -> Prop).

(** What can be observed of a step.  [req_of m q cid] is the request with the
    identifier [cid] in the table of queue [q]. *)
Inductive event : Type :=
| Posted (q : nat) (p status : Z)
| Finished (q : nat) (p status : Z)
| Silent.

Definition req_of (m : machine) (q : nat) (cid : Z) : Z :=
  match st_sq (m_st m) !! q ≫= sq_cmd with Some cmds => default 0 (cmds !! Z.to_nat cid) | None => 0 end.

Inductive dev_step (m : machine) : event -> machine -> Prop :=
| dev_fetch (q : nat) sq dq c :
    Z.of_nat q <= st_num_iosq (m_st m) -> st_sq (m_st m) !! q = Some sq -> m_dev m !! q = Some dq -> d_head dq <> reg m (sq_doorbell sq) ->
    sq_buf sq !! Z.to_nat (d_head dq) = Some c ->
    dev_step m Silent (set_dev (<[q := Dq (advance (sq_size sq) (d_head dq)) (d_work dq ++ [c]) (d_tail dq) (d_phase dq)]> (m_dev m)) m)
| dev_post (q : nat) cq dq w1 c w2 spec rsv code mm :
    Z.of_nat q <= st_num_iosq (m_st m) -> st_cq (m_st m) !! q = Some cq -> m_dev m !! q = Some dq -> d_work dq = w1 ++ c :: w2 ->
    advance (cq_size cq) (d_tail dq) <> reg m (cq_doorbell cq) -> 0 <= code < 2 ^ 15 -> effect m c code mm ->
    dev_step m (Posted q (req_of m q (c_cid c)) (2 * code + 1))
      (set_mem mm
        (set_st (set_cqs (<[q := cq_set_buf (<[Z.to_nat (d_tail dq) :=
            Cqe spec rsv (d_head dq) (Z.of_nat q) (c_cid c) (2 * code + Z.b2z (d_phase dq))]> (cq_buf cq)) cq]> (st_cq (m_st m))) (m_st m))
          (set_dev (<[q := Dq (d_head dq) (w1 ++ w2) (advance (cq_size cq) (d_tail dq))
            (if d_tail dq =? cq_size cq then negb (d_phase dq) else d_phase dq)]> (m_dev m)) m))).

Definition dev_move (m m' : machine) : Prop := exists ev, dev_step m ev m'.

(** ** The invariant *)

(** The commands that are not fetched yet, the completions that are not
    processed yet; how many commands were fetched since the head that the
    driver knows, and what the posted completions will say about this. *)
Record ghost : Type := Gh { g_unf : list nvme_cmd; g_posted : list nvme_completion; g_ks : list Z; g_k : Z }.

Definition ring {X} (l : list X) (size p i : Z) : option X := l !! Z.to_nat ((p + i) mod (size + 1)).
(** The phase of the entry [i] behind the next one. *)
Definition phase_at (cq : nvme_cq) (i : Z) : bool := if cq_pos cq + i <=? cq_size cq then cq_phase cq else negb (cq_phase cq).

Definition live (g : ghost) (dq : dev_queue) : list Z :=
  map c_cid (g_unf g) ++ map c_cid (d_work dq) ++ map ce_cid (g_posted g).

Fixpoint chain (lo : Z) (ks : list Z) (hi : Z) : Prop :=
  match ks with [] => lo <= hi | k :: ks => lo <= k /\ chain k ks hi end.

Record sq_inv (sq : nvme_sq) (dq : dev_queue) (g : ghost) (tail_reg : Z) : Prop := {
  si_size : 0 < sq_size sq < 65535 /\ sq_size sq < zlen (sq_buf sq) /\ 0 <= sq_head sq <= sq_size sq;
  si_head : d_head dq = (sq_head sq + g_k g) mod (sq_size sq + 1) /\ 0 <= g_k g /\ g_k g + zlen (g_unf g) <= sq_size sq;
  si_tail : sq_tail sq = (d_head dq + zlen (g_unf g)) mod (sq_size sq + 1) /\ tail_reg = sq_tail sq;
  si_unf i c : g_unf g !! i = Some c -> ring (sq_buf sq) (sq_size sq) (d_head dq) (Z.of_nat i) = Some c;
  si_ack : d_work dq = [] -> List.last (g_ks g) 0 = g_k g;
}.

Record cq_inv (q : nat) (sq : nvme_sq) (cq : nvme_cq) (dq : dev_queue) (g : ghost) (pos_reg : Z) : Prop := {
  ci_size : 0 < cq_size cq < 65535 /\ cq_size cq < zlen (cq_buf cq) /\ 0 <= cq_pos cq <= cq_size cq;
  ci_tail : d_tail dq = (cq_pos cq + zlen (g_posted g)) mod (cq_size cq + 1) /\ zlen (g_posted g) <= cq_size cq;
  ci_phase : d_phase dq = phase_at cq (zlen (g_posted g)) /\ pos_reg = cq_pos cq;
  ci_posted i e : g_posted g !! i = Some e ->
    ring (cq_buf cq) (cq_size cq) (cq_pos cq) (Z.of_nat i) = Some e /\ flag (ce_status e) 1 = phase_at cq (Z.of_nat i);
  ci_free i : zlen (g_posted g) <= i <= cq_size cq ->
    exists e, ring (cq_buf cq) (cq_size cq) (cq_pos cq) i = Some e /\ flag (ce_status e) 1 = negb (phase_at cq i);
  ci_heads : map ce_sqhd (g_posted g) = map (fun k => (sq_head sq + k) mod (sq_size sq + 1)) (g_ks g) /\ chain 0 (g_ks g) (g_k g);
  ci_ids : Forall (fun e => ce_sqid e = Z.of_nat q /\ 0 <= ce_status e < 2 ^ 16) (g_posted g);
}.

(** The request [p] was submitted with command identifier [cid]. *)
Definition pending (sq : nvme_sq) (cid p : Z) : Prop :=
  p <> 0 /\ 0 <= cid /\ exists cmds, sq_cmd sq = Some cmds /\ cmds !! Z.to_nat cid = Some p.

Record cid_inv (q : nat) (sq : nvme_sq) (dq : dev_queue) (g : ghost) (reqs : gmap Z nvme_req) : Prop := {
  di_cq : sq_cq sq = Z.of_nat q;
  di_cmds : exists cmds, sq_cmd sq = Some cmds /\ zlen cmds = sq_max_cid sq + 1 /\ 0 <= sq_max_cid sq < 65536;
  di_live : NoDup (live g dq) /\ forall cid, cid ∈ live g dq <-> exists p, pending sq cid p;
  di_reqs cid p : pending sq cid p -> req_status <$> reqs !! p = Some NVME_SUBMITTED;
}.

(** ** Rings *)
Lemma advance_mod size p i : 0 <= p <= size -> (advance size p + i) mod (size + 1) = (p + (i + 1)) mod (size + 1).
Proof.
  intros Hp. unfold advance. destruct (Z.eqb_spec p size) as [-> |].
  - replace (size + (i + 1)) with (0 + i + 1 * (size + 1)) by lia. by rewrite Z.mod_add by lia.
  - f_equal. lia.
Qed.

Lemma advance_range size p : 0 <= p <= size -> 0 <= advance size p <= size.
Proof. unfold advance. destruct (Z.eqb_spec p size); lia. Qed.

Lemma advance_eq_mod size p : 0 <= p <= size -> advance size p = (p + 1) mod (size + 1).
Proof.
  intros Hp. pose proof (advance_mod size p 0 Hp) as H. rewrite Z.add_0_r, Z.add_0_l in H. rewrite <- H, Z.mod_small; [done |].
  pose proof (advance_range size p Hp). lia.
Qed.

Lemma ring_advance {X} (l : list X) size p i : 0 <= p <= size -> ring l size (advance size p) i = ring l size p (i + 1).
Proof. intros Hp. unfold ring. by rewrite advance_mod. Qed.

Lemma ring_wrap {X} (l : list X) size p i : 0 <= size -> ring l size p (i + (size + 1)) = ring l size p i.
Proof. intros Hs. unfold ring. replace (p + (i + (size + 1))) with (p + i + 1 * (size + 1)) by lia. by rewrite Z.mod_add by lia. Qed.

Lemma ring_mod {X} (l : list X) size p i j : 0 <= size -> ring l size ((p + i) mod (size + 1)) j = ring l size p (i + j).
Proof. intros Hs. unfold ring. rewrite Zplus_mod_idemp_l. do 2 f_equal. f_equal. lia. Qed.

(** Two places of a ring that are less than a turn apart are different. *)
Lemma mod_far p i j n : 0 < n -> i < j < i + n -> (p + i) mod n <> (p + j) mod n.
Proof.
  intros Hn Hij E. pose proof (Z.div_mod (p + i) n ltac:(lia)). pose proof (Z.div_mod (p + j) n ltac:(lia)).
  set (a := (p + i) / n) in *. set (b := (p + j) / n) in *. assert (n * (b - a) = j - i) by lia. clearbody a b.
  assert (b - a = 0 \/ 1 <= b - a \/ b - a <= -1) as [| []] by lia; nia.
Qed.

Lemma ring_insert_ne {X} (l : list X) size p i j v : 0 <= size -> i < j < i + (size + 1) \/ j < i < j + (size + 1) ->
  ring (<[Z.to_nat ((p + i) mod (size + 1)) := v]> l) size p j = ring l size p j.
Proof.
  intros Hs Hij. unfold ring. apply list_lookup_insert_ne. intros E.
  pose proof (Z.mod_pos_bound (p + i) (size + 1) ltac:(lia)). pose proof (Z.mod_pos_bound (p + j) (size + 1) ltac:(lia)).
  assert ((p + i) mod (size + 1) = (p + j) mod (size + 1)) as E' by lia.
  destruct Hij as [Hij | Hij]; [by apply (mod_far p i j (size + 1)) in E'; [| lia |] | symmetry in E'; by apply (mod_far p j i (size + 1)) in E'; [| lia |]].
Qed.

Lemma ring_insert_eq {X} (l : list X) size p i v : 0 <= size -> size < zlen l ->
  ring (<[Z.to_nat ((p + i) mod (size + 1)) := v]> l) size p i = Some v.
Proof.
  intros Hs Hl. unfold ring. apply list_lookup_insert_eq.
  pose proof (Z.mod_pos_bound (p + i) (size + 1) ltac:(lia)). lia.
Qed.

(** ** A completion is processed *)
Definition popped (cq : nvme_cq) : nvme_cq :=
  cq_set_pos (advance (cq_size cq) (cq_pos cq)) (if cq_pos cq =? cq_size cq then negb (cq_phase cq) else cq_phase cq) cq.

Lemma phase_popped cq i : 0 <= cq_pos cq <= cq_size cq -> 0 <= i <= cq_size cq -> phase_at (popped cq) i = phase_at cq (i + 1).
Proof.
  intros Hp Hi. unfold phase_at, popped, advance. cbn. destruct (Z.eqb_spec (cq_pos cq) (cq_size cq)) as [E | E]; cbn.
  - destruct (Z.leb_spec (0 + i) (cq_size cq)); [| lia]. destruct (Z.leb_spec (cq_pos cq + (i + 1)) (cq_size cq)); [lia | done].
  - by replace (cq_pos cq + 1 + i) with (cq_pos cq + (i + 1)) by lia.
Qed.

Lemma chain_shift lo ks hi d : chain lo ks hi -> chain (lo - d) (map (fun k => k - d) ks) (hi - d).
Proof. induction ks as [| k ks IH] in lo |- *; cbn; [lia |]. intros [H1 H2]. split; [lia | by apply IH]. Qed.

Lemma chain_bounds lo ks hi : chain lo ks hi -> lo <= hi.
Proof. induction ks as [| k ks IH] in lo |- *; cbn; [done |]. intros [H1 H2]. apply IH in H2. lia. Qed.

Lemma last_shift k0 ks d : List.last (map (fun k => k - d) (k0 :: ks)) 0 = List.last (k0 :: ks) 0 - d.
Proof. induction ks as [| k ks IH] in k0 |- *; [done |]. cbn [map List.last] in *. apply (IH k). Qed.

Definition pop_ghost (g : ghost) : ghost :=
  match g_posted g, g_ks g with
  | _ :: posted, k0 :: ks => Gh (g_unf g) posted (map (fun k => k - k0) ks) (g_k g - k0)
  | _, _ => g
  end.

Lemma sq_pop q sq cq dq g tr pr e posted cmds : sq_inv sq dq g tr -> cq_inv q sq cq dq g pr -> g_posted g = e :: posted ->
  sq_inv (sq_set_head (ce_sqhd e) cmds sq) dq (pop_ghost g) tr.
Proof.
  intros [H1 (H2 & H3 & H4) H5 H6 H7] [_ _ _ _ _ [Hh Hc] _] Hp. destruct g as [unf ps ks k]; cbn in *; subst ps.
  destruct ks as [| k0 ks]; [done |]. cbn in Hh, Hc. injection Hh as He _. destruct Hc as [Hk0 Hc]. apply chain_bounds in Hc as Hk.
  constructor; cbn.
  - rewrite He. pose proof (Z.mod_pos_bound (sq_head sq + k0) (sq_size sq + 1) ltac:(lia)). lia.
  - rewrite He, Zplus_mod_idemp_l. split; [rewrite H2; f_equal; lia | lia].
  - done.
  - done.
  - intros Hw. specialize (H7 Hw). destruct ks as [| k1 ks]; cbn in H7; [cbn; lia |]. rewrite last_shift. by rewrite <- H7.
Qed.

Lemma cq_pop q sq cq dq g tr pr e posted cmds : sq_inv sq dq g tr -> cq_inv q sq cq dq g pr -> g_posted g = e :: posted ->
  cq_inv q (sq_set_head (ce_sqhd e) cmds sq) (popped cq) dq (pop_ghost g) (cq_pos (popped cq)).
Proof.
  intros Hsq [H1 [H2 H2'] [H3 H3'] H4 H5 [Hh Hc] H7] Hp. destruct g as [unf ps ks k]; cbn in *; subst ps.
  destruct ks as [| k0 ks]; [done |]. cbn [map] in Hh. injection Hh as He Hh. cbn [chain] in Hc. destruct Hc as [Hk0 Hc].
  cbn [length] in *. destruct H1 as (Hs & Hl & Hpos).
  assert (forall i, 0 <= i <= cq_size cq -> phase_at (popped cq) i = phase_at cq (i + 1)) as Hph by (intros; by apply phase_popped).
  constructor; cbn [g_posted g_ks g_k pop_ghost cq_pos cq_size cq_buf popped cq_set_pos sq_head sq_size sq_set_head].
  - pose proof (advance_range (cq_size cq) (cq_pos cq)). lia.
  - rewrite advance_mod by lia. split; [rewrite H2; f_equal; lia | lia].
  - rewrite Hph by lia. split; [rewrite H3; f_equal; lia | done].
  - intros i a Hi. apply lookup_lt_Some in Hi as Hlt. rewrite ring_advance, Hph by lia.
    destruct (H4 (S i) a Hi) as [Hr Hf]. by replace (Z.of_nat i + 1) with (Z.of_nat (S i)) by lia.
  - intros i Hi. rewrite ring_advance, Hph by lia. destruct (Z.eq_dec i (cq_size cq)) as [-> | Hne].
    + destruct (H4 0%nat e eq_refl) as [Hr Hf]. exists e.
      rewrite <- (ring_wrap _ _ _ (Z.of_nat 0)) in Hr by lia. split; [by rewrite <- Hr; f_equal; lia |]. rewrite Hf. unfold phase_at.
      destruct (Z.leb_spec (cq_pos cq + Z.of_nat 0) (cq_size cq)); [| lia]. destruct (Z.leb_spec (cq_pos cq + (cq_size cq + 1)) (cq_size cq)); [lia |].
      by rewrite negb_involutive.
    + apply H5. lia.
  - split.
    + rewrite Hh, map_map. apply map_ext. intros k1. rewrite He, Zplus_mod_idemp_l. f_equal. lia.
    + replace 0 with (k0 - k0) by lia. by apply chain_shift.
  - by inversion H7.
Qed.

Lemma pending_head h cmds0 cmds sq cid p : pending (sq_set_head h cmds sq) cid p -> sq_cmd sq = Some cmds0 ->
  p <> 0 /\ 0 <= cid /\ cmds !! Z.to_nat cid = Some p.
Proof. intros (H1 & H2 & c & [= <-] & H3) _. done. Qed.

(** The identifier [cid] is given back. *)
Lemma pending_release h cmds sq cid cid' p : sq_cmd sq = Some cmds -> 0 <= cid < zlen cmds ->
  pending (sq_set_head h (<[Z.to_nat cid := 0]> cmds) sq) cid' p <-> pending sq cid' p /\ cid' <> cid.
Proof.
  intros Hc Hcid. unfold pending. cbn. split.
  - intros (Hp & H0 & c & [= <-] & Hl). destruct (decide (cid' = cid)) as [-> | Hne].
    + rewrite list_lookup_insert_eq in Hl by lia. congruence.
    + rewrite list_lookup_insert_ne in Hl by lia. split; [| done]. split; [done |]. split; [done |]. by exists cmds.
  - intros [(Hp & H0 & c & Hc' & Hl) Hne]. simplify_eq. split; [done |]. split; [done |]. eexists. split; [done |].
    by rewrite list_lookup_insert_ne by lia.
Qed.

Lemma pending_range q sq dq g reqs cid p cmds : cid_inv q sq dq g reqs -> sq_cmd sq = Some cmds -> pending sq cid p ->
  0 <= cid <= sq_max_cid sq /\ cmds !! Z.to_nat cid = Some p.
Proof.
  intros [_ (c & Hc & Hl & Hm) _ _] Hcmds (Hp & H0 & c' & Hc' & Hl'). simplify_eq. apply lookup_lt_Some in Hl' as ?. split; [lia | done].
Qed.

Lemma cid_pop q sq dq g reqs e posted k0 ks cmds p0 r : cid_inv q sq dq g reqs -> g_posted g = e :: posted -> g_ks g = k0 :: ks ->
  sq_cmd sq = Some cmds -> pending sq (ce_cid e) p0 -> (forall cid p, pending sq cid p -> p = p0 -> cid = ce_cid e) ->
  cid_inv q (sq_set_head (ce_sqhd e) (<[Z.to_nat (ce_cid e) := 0]> cmds) sq) dq (pop_ghost g) (<[p0 := r]> reqs).
Proof.
  intros Hinv Hp Hk Hcmds Hpend Huniq. pose proof (pending_range _ _ _ _ _ _ _ _ Hinv Hcmds Hpend) as [Hcid _].
  destruct Hinv as [H1 (c & Hc & Hl & Hm) [Hnd Hlive] H4]. simplify_eq.
  assert (live g dq ≡ₚ ce_cid e :: live (pop_ghost g) dq) as Hperm.
  { destruct g as [unf ps ks' k]; cbn in *; subst ps ks'. unfold live, pop_ghost. cbn. rewrite !app_assoc. by rewrite Permutation_middle. }
  rewrite Hperm in Hnd. apply NoDup_cons in Hnd as [Hnin Hnd].
  constructor.
  - done.
  - eexists. cbn. split; [done |]. rewrite length_insert. lia.
  - split; [done |]. intros cid. setoid_rewrite pending_release; [| done | lia]. split.
    + intros Hin. assert (cid ∈ live g dq) as Hin' by (rewrite Hperm; by apply list_elem_of_further). apply Hlive in Hin' as [p Hp']. exists p. split; [done |]. congruence.
    + intros (p & Hp' & Hne). assert (cid ∈ live g dq) as Hin by (apply Hlive; by exists p). rewrite Hperm in Hin.
      apply elem_of_cons in Hin as [? |]; done.
  - intros cid p. rewrite pending_release by (done || lia). intros [Hp' Hne].
    rewrite lookup_insert_ne; [by apply (H4 cid) |]. intros <-. by apply Hne, (Huniq cid p0).
Qed.

(** ** All queues *)
Definition pair_inv (m : machine) (q : nat) (g : ghost) (sq : nvme_sq) (cq : nvme_cq) (dq : dev_queue) : Prop :=
  sq_inv sq dq g (reg m (sq_doorbell sq)) /\ cq_inv q sq cq dq g (reg m (cq_doorbell cq)) /\ cid_inv q sq dq g (m_reqs m).

(** The queues that are in use. *)
Definition has_pair (m : machine) (q : nat) (sq : nvme_sq) (cq : nvme_cq) (dq : dev_queue) : Prop :=
  Z.of_nat q <= st_num_iosq (m_st m) /\ st_sq (m_st m) !! q = Some sq /\ st_cq (m_st m) !! q = Some cq /\ m_dev m !! q = Some dq.

(** A completion queue without a submission queue yet: nothing is in it. *)
Definition spare (m : machine) (q : nat) : Prop :=
  exists cq e, st_cq (m_st m) !! q = Some cq /\ geti (cq_buf cq) (cq_pos cq) = Ok e /\ flag (ce_status e) 1 = negb (cq_phase cq).

Record queues_ok (m : machine) (G : nat -> ghost) : Prop := {
  qo_num : 0 <= st_num_iosq (m_st m) <= st_num_iocq (m_st m);
  qo_pair q : Z.of_nat q <= st_num_iosq (m_st m) -> exists sq cq dq, has_pair m q sq cq dq /\ pair_inv m q (G q) sq cq dq;
  qo_regs q sq cq dq q' sq' cq' dq' : has_pair m q sq cq dq -> has_pair m q' sq' cq' dq' ->
    sq_doorbell sq <> cq_doorbell cq' /\ (q <> q' -> sq_doorbell sq <> sq_doorbell sq' /\ cq_doorbell cq <> cq_doorbell cq');
  qo_req q sq cq dq cid q' sq' cq' dq' cid' p : has_pair m q sq cq dq -> has_pair m q' sq' cq' dq' ->
    pending sq cid p -> pending sq' cid' p -> q = q' /\ cid = cid';
  qo_spare q : st_num_iosq (m_st m) < Z.of_nat q <= st_num_iocq (m_st m) -> spare m q;
}.

Definition upd (G : nat -> ghost) (q : nat) (g : ghost) : nat -> ghost := fun i => if decide (i = q) then g else G i.

Lemma has_pair_fun m q sq cq dq sq' cq' dq' : has_pair m q sq cq dq -> has_pair m q sq' cq' dq' -> sq = sq' /\ cq = cq' /\ dq = dq'.
Proof. intros (_ & H1 & H2 & H3) (_ & H4 & H5 & H6). by simplify_eq. Qed.

(** A step that concerns one pair of queues and one request. *)
Record changes (m m' : machine) (q : nat) (sq : nvme_sq) (cq : nvme_cq) (sq1 : nvme_sq) (cq1 : nvme_cq) (dq1 : dev_queue) (P : Z) : Prop := {
  ch_num : st_num_iosq (m_st m') = st_num_iosq (m_st m) /\ st_num_iocq (m_st m') = st_num_iocq (m_st m);
  ch_lists : st_sq (m_st m') = <[q := sq1]> (st_sq (m_st m)) /\ st_cq (m_st m') = <[q := cq1]> (st_cq (m_st m)) /\ m_dev m' = <[q := dq1]> (m_dev m);
  ch_bells : sq_doorbell sq1 = sq_doorbell sq /\ cq_doorbell cq1 = cq_doorbell cq;
  ch_regs r : r <> sq_doorbell sq -> r <> cq_doorbell cq -> reg m' r = reg m r;
  ch_reqs p : p <> P -> m_reqs m' !! p = m_reqs m !! p;
}.

Lemma has_pair_changes m m' q sq cq sq1 cq1 dq1 P i s c d dq0 : changes m m' q sq cq sq1 cq1 dq1 P -> has_pair m q sq cq dq0 ->
  has_pair m' i s c d -> (i = q /\ s = sq1 /\ c = cq1 /\ d = dq1) \/ (i <> q /\ has_pair m i s c d).
Proof.
  intros [[H1 _] (H2 & H3 & H4) _ _ _] (Hn & L1 & L2 & L3) (Hi & A & B & C). rewrite H1 in Hi. rewrite H2 in A. rewrite H3 in B. rewrite H4 in C.
  apply lookup_lt_Some in L1. apply lookup_lt_Some in L2. apply lookup_lt_Some in L3.
  destruct (decide (i = q)) as [-> | Hne].
  - left. rewrite list_lookup_insert_eq in A by done. rewrite list_lookup_insert_eq in B by done. rewrite list_lookup_insert_eq in C by done. by simplify_eq.
  - right. rewrite list_lookup_insert_ne in A by done. rewrite list_lookup_insert_ne in B by done. rewrite list_lookup_insert_ne in C by done. done.
Qed.

Lemma queues_change m m' G q g1 sq cq dq sq1 cq1 dq1 P : queues_ok m G -> has_pair m q sq cq dq -> changes m m' q sq cq sq1 cq1 dq1 P ->
  (forall i s c d cid, i <> q -> has_pair m i s c d -> ~ pending s cid P) ->
  (forall cid p, pending sq1 cid p -> p = P \/ exists cid0, pending sq cid0 p) ->
  (forall cid cid' p, pending sq1 cid p -> pending sq1 cid' p -> cid = cid') ->
  pair_inv m' q g1 sq1 cq1 dq1 -> queues_ok m' (upd G q g1).
Proof.
  intros [Hnum Hpair Hregs Hreq Hspare] Hq Hch Hother Hnew Huniq Hinv. pose proof Hch as [[N1 N2] (L1 & L2 & L3) [B1 B2] HR HP].
  constructor.
  - by rewrite N1, N2.
  - intros i Hi. rewrite N1 in Hi. unfold upd. destruct (decide (i = q)) as [-> | Hne].
    + exists sq1, cq1, dq1. split; [| done]. destruct Hq as (_ & A & B & C). apply lookup_lt_Some in A, B, C.
      split; [by rewrite N1 |]. rewrite L1, L2, L3, !list_lookup_insert_eq by done. done.
    + destruct (Hpair i Hi) as (s & c & d & Hp & I1 & I2 & [I3 I4 I5 I6]). exists s, c, d. pose proof Hp as (_ & A & B & C). split.
      * split; [by rewrite N1 |]. by rewrite L1, L2, L3, !list_lookup_insert_ne by done.
      * destruct (Hregs _ _ _ _ _ _ _ _ Hq Hp) as [R1 R2]. destruct (Hregs _ _ _ _ _ _ _ _ Hp Hq) as [R3 R4]. destruct (R2 ltac:(done)) as [R5 R6].
        split; [by rewrite HR |]. split; [by rewrite HR |]. constructor; try done.
        intros cid p Hpp. rewrite HP; [by apply (I6 cid) |]. intros ->. by apply (Hother i s c d cid).
  - intros i s c d i' s' c' d' Hi Hi'.
    apply (has_pair_changes _ _ _ _ _ _ _ _ _ _ _ _ _ _ Hch Hq) in Hi, Hi'.
    destruct Hi as [(-> & -> & -> & ->) | [Hne Hi]], Hi' as [(-> & -> & -> & ->) | [Hne' Hi']]; rewrite ?B1, ?B2; eauto.
  - intros i s c d cid i' s' c' d' cid' p Hi Hi' Hp Hp'.
    apply (has_pair_changes _ _ _ _ _ _ _ _ _ _ _ _ _ _ Hch Hq) in Hi, Hi'.
    destruct Hi as [(-> & -> & -> & ->) | [Hne Hi]], Hi' as [(-> & -> & -> & ->) | [Hne' Hi']]; eauto.
    + destruct (Hnew _ _ Hp) as [-> | [cid0 Hp0]]; [by destruct (Hother i' s' c' d' cid') |].
      destruct (Hreq _ _ _ _ _ _ _ _ _ _ _ Hq Hi' Hp0 Hp'). congruence.
    + destruct (Hnew _ _ Hp') as [-> | [cid0 Hp0]]; [by destruct (Hother i s c d cid) |].
      destruct (Hreq _ _ _ _ _ _ _ _ _ _ _ Hq Hi Hp0 Hp). congruence.
  - intros i Hi. rewrite N1, N2 in Hi. destruct (Hspare i Hi) as (c & e & Hc & He). exists c, e. split; [| done].
    destruct Hq as (Hqn & _). rewrite L2, list_lookup_insert_ne by lia. done.
Qed.

(** ** The driver processes a completion *)
Lemma geti_nat {X} (l : list X) (i : nat) v : l !! i = Some v -> geti l (Z.of_nat i) = Ok v.
Proof. intros H. apply geti_ok; [lia |]. by rewrite Nat2Z.id. Qed.

Lemma ring_0 {X} (l : list X) size p v : 0 <= p <= size -> ring l size p 0 = Some v -> geti l p = Ok v.
Proof. intros Hp H. apply geti_ok; [lia |]. unfold ring in H. by rewrite Z.add_0_r, Z.mod_small in H by lia. Qed.

Lemma phase_0 cq : 0 <= cq_pos cq <= cq_size cq -> phase_at cq 0 = cq_phase cq.
Proof. intros H. unfold phase_at. destruct (Z.leb_spec (cq_pos cq + 0) (cq_size cq)); [done | lia]. Qed.

Lemma process_idle m G q : queues_ok m G -> Z.of_nat q <= st_num_iosq (m_st m) -> g_posted (G q) = [] ->
  nvme_process_cqe m (Z.of_nat q) = Ok (IOST_TRANSIENT, m).
Proof.
  intros Hok Hq Hp. destruct (qo_pair _ _ Hok q Hq) as (sq & cq & dq & (_ & L1 & L2 & L3) & _ & [C1 _ _ _ C5 _ _] & _).
  unfold nvme_process_cqe. rewrite (geti_nat _ _ _ L2). cbn [mbind res_bind]. rewrite Hp in C5. cbn [length Z.of_nat] in C5.
  destruct (C5 0 ltac:(lia)) as (e & He & Hf). rewrite (ring_0 _ (cq_size cq) (cq_pos cq) e ltac:(lia) He). cbn [mbind res_bind].
  rewrite Hf, phase_0 by lia. by destruct (cq_phase cq).
Qed.

Lemma process_spare m q : spare m q -> nvme_process_cqe m (Z.of_nat q) = Ok (IOST_TRANSIENT, m).
Proof.
  intros (cq & e & Hc & He & Hf). unfold nvme_process_cqe. rewrite (geti_nat _ _ _ Hc). cbn [mbind res_bind]. rewrite He. cbn [mbind res_bind].
  rewrite Hf. by destruct (cq_phase cq).
Qed.

(** The machine after the completion [e] of the request [p]. *)
Definition finish (m : machine) (q : nat) (sq : nvme_sq) (cq : nvme_cq) (e : nvme_completion) (cmds : list Z) (p : Z) : machine :=
  set_reg (cq_doorbell cq) (cq_pos (popped cq))
    (set_reqs (<[p := Req (ce_cmd_spec e, ce_reserved e) 0 (Z.lor (ce_status e) 1)]> (m_reqs m))
      (set_st (set_cqs (<[q := popped cq]> (st_cq (m_st m)))
        (set_sqs (<[q := sq_set_head (ce_sqhd e) (<[Z.to_nat (ce_cid e) := 0]> cmds) sq]> (st_sq (m_st m))) (m_st m))) m)).

Lemma reg_set_reg m r v r' : reg (set_reg r v m) r' = if decide (r = r') then v else reg m r'.
Proof. unfold reg. cbn. destruct (decide (r = r')) as [-> |]; [by rewrite lookup_insert_eq | by rewrite lookup_insert_ne]. Qed.

Lemma process_result m G q sq cq dq e posted : queues_ok m G -> has_pair m q sq cq dq -> pair_inv m q (G q) sq cq dq ->
  g_posted (G q) = e :: posted ->
  exists cmds p, sq_cmd sq = Some cmds /\ pending sq (ce_cid e) p /\
    nvme_process_cqe m (Z.of_nat q) = Ok (IOST_OK, finish m q sq cq e cmds p).
Proof.
  intros Hok (Hq & L1 & L2 & L3) (_ & [C1 _ _ C4 _ _ C7] & Hcid) Hp. pose proof Hcid as [D1 (cmds & Dc & Dl & Dm) [_ Dlive] D4].
  assert (ce_cid e ∈ live (G q) dq) as Hin.
  { unfold live. rewrite Hp. cbn. rewrite !elem_of_app. right. right. apply list_elem_of_here. }
  apply Dlive in Hin as [p Hpend]. exists cmds, p. split; [done |]. split; [done |].
  destruct (pending_range _ _ _ _ _ _ _ _ Hcid Dc Hpend) as [Hcr Hcl].
  rewrite Hp in C4, C7. destruct (C4 0%nat e eq_refl) as [He Hf]. inversion C7 as [| ? ? [Hid Hst] _]; subst.
  unfold nvme_process_cqe. rewrite (geti_nat _ _ _ L2). cbn [mbind res_bind]. rewrite (ring_0 _ (cq_size cq) (cq_pos cq) e ltac:(lia) He). cbn [mbind res_bind].
  rewrite Hf. change (Z.of_nat 0) with 0. rewrite phase_0 by lia. rewrite eqb_reflx. cbn [negb]. rewrite Hid.
  assert ((st_num_iosq (m_st m) <? Z.of_nat q) = false) as -> by zb. rewrite (geti_nat _ _ _ L1). cbn [mbind res_bind].
  rewrite D1, Z.eqb_refl. cbn [negb]. rewrite Dc. assert ((sq_max_cid sq <? ce_cid e) = false) as -> by zb.
  rewrite (geti_ok cmds (ce_cid e) p) by (done || lia). cbn [mbind res_bind]. pose proof (D4 _ _ Hpend) as Hr. unfold deref.
  destruct (m_reqs m !! p) as [r |] eqn:Hrp; [| done]. cbn [mbind res_bind]. rewrite seti_ok by lia. cbn [mbind res_bind].
  apply lookup_lt_Some in L1, L2. rewrite (seti_ok (st_sq (m_st m))) by lia. cbn [mbind res_bind]. rewrite Nat2Z.id.
  unfold finish, popped, advance. destruct (Z.ltb_spec (cq_pos cq) (cq_size cq)) as [Hlt | Hge].
  - assert ((cq_pos cq =? cq_size cq) = false) as -> by zb. rewrite u16_small by lia. rewrite (seti_ok (st_cq (m_st m))) by lia. cbn [mbind res_bind].
    by rewrite Nat2Z.id.
  - assert ((cq_pos cq =? cq_size cq) = true) as -> by zb. rewrite (seti_ok (st_cq (m_st m))) by lia. cbn [mbind res_bind].
    by rewrite Nat2Z.id.
Qed.

Lemma process_keeps m G q sq cq dq e posted cmds p : queues_ok m G -> has_pair m q sq cq dq -> pair_inv m q (G q) sq cq dq ->
  g_posted (G q) = e :: posted -> sq_cmd sq = Some cmds -> pending sq (ce_cid e) p ->
  queues_ok (finish m q sq cq e cmds p) (upd G q (pop_ghost (G q))).
Proof.
  intros Hok Hpair (Hsq & Hcq & Hcid) Hp Hcmds Hpend.
  destruct (pending_range _ _ _ _ _ _ _ _ Hcid Hcmds Hpend) as [Hcr _]. destruct (di_cmds _ _ _ _ _ Hcid) as (c & Hc & Hcl & Hcm). simplify_eq.
  assert (forall cid' p', pending (sq_set_head (ce_sqhd e) (<[Z.to_nat (ce_cid e) := 0]> cmds) sq) cid' p' <-> pending sq cid' p' /\ cid' <> ce_cid e) as Hrel.
  { intros. apply pending_release; [done | lia]. }
  assert (forall cid p', pending sq cid p' -> p' = p -> cid = ce_cid e) as Huniq.
  { intros cid p' Hp' ->. by destruct (qo_req _ _ Hok _ _ _ _ _ _ _ _ _ _ _ Hpair Hpair Hp' Hpend). }
  apply (queues_change m _ G q _ sq cq dq (sq_set_head (ce_sqhd e) (<[Z.to_nat (ce_cid e) := 0]> cmds) sq) (popped cq) dq p); try done.
  - destruct Hpair as (_ & L1 & L2 & L3). constructor; try done.
    + unfold finish. cbn. by rewrite (list_insert_id _ _ _ L3).
    + intros r Hr1 Hr2. unfold finish. rewrite reg_set_reg. by destruct (decide _).
    + intros p' Hp'. unfold finish. cbn. by rewrite lookup_insert_ne.
  - intros i s c d cid Hne Hi Hpi. by destruct (qo_req _ _ Hok _ _ _ _ _ _ _ _ _ _ _ Hi Hpair Hpi Hpend).
  - intros cid p' [H _]%Hrel. right. by exists cid.
  - intros cid cid' p' [H _]%Hrel [H' _]%Hrel. by destruct (qo_req _ _ Hok _ _ _ _ _ _ _ _ _ _ _ Hpair Hpair H H').
  - destruct (qo_regs _ _ Hok _ _ _ _ _ _ _ _ Hpair Hpair) as [Hbell _]. unfold pair_inv. cbn [sq_doorbell sq_set_head cq_doorbell popped cq_set_pos].
    assert (reg (finish m q sq cq e cmds p) (sq_doorbell sq) = reg m (sq_doorbell sq)) as ->.
    { unfold finish. rewrite reg_set_reg. by destruct (decide _). }
    assert (reg (finish m q sq cq e cmds p) (cq_doorbell cq) = cq_pos (popped cq)) as ->.
    { unfold finish. rewrite reg_set_reg. by destruct (decide _). }
    split; [by eapply sq_pop |]. split; [by eapply cq_pop |].
    destruct Hcq as [_ _ _ _ _ [Hh _] _]. rewrite Hp in Hh. destruct (g_ks (G q)) as [| k0 ks] eqn:Hks; [done |].
    unfold finish. cbn. by eapply cid_pop.
Qed.

(** ** The controller fetches a command *)
Definition fetch_ghost (g : ghost) : ghost := Gh (tail (g_unf g)) (g_posted g) (g_ks g) (g_k g + 1).
Definition fetched (sq : nvme_sq) (dq : dev_queue) (c : nvme_cmd) : dev_queue :=
  Dq (advance (sq_size sq) (d_head dq)) (d_work dq ++ [c]) (d_tail dq) (d_phase dq).

Lemma chain_weaken lo ks hi hi' : chain lo ks hi -> hi <= hi' -> chain lo ks hi'.
Proof. induction ks as [| k ks IH] in lo |- *; cbn; [lia |]. intros [H1 H2] H. split; [done | by apply IH]. Qed.

Lemma head_range sq dq g tr : sq_inv sq dq g tr -> 0 <= d_head dq <= sq_size sq.
Proof. intros [H1 (H2 & _) _ _ _]. rewrite H2. pose proof (Z.mod_pos_bound (sq_head sq + g_k g) (sq_size sq + 1) ltac:(lia)). lia. Qed.

Lemma fetch_unf sq dq g tr c : sq_inv sq dq g tr -> d_head dq <> tr -> sq_buf sq !! Z.to_nat (d_head dq) = Some c ->
  g_unf g = c :: tail (g_unf g).
Proof.
  intros Hsq Hne Hc. pose proof (head_range _ _ _ _ Hsq) as Hr. destruct Hsq as [H1 H2 [H3 ->] H4 _].
  destruct (g_unf g) as [| c' unf] eqn:Hu.
  - exfalso. apply Hne. rewrite H3. cbn. rewrite Z.add_0_r, Z.mod_small by lia. done.
  - cbn. f_equal. pose proof (H4 0%nat c' eq_refl) as H. unfold ring in H. change (Z.of_nat 0) with 0 in H.
    rewrite Z.add_0_r, Z.mod_small in H by lia. congruence.
Qed.

Lemma fetch_keeps m G q sq cq dq c : queues_ok m G -> has_pair m q sq cq dq -> pair_inv m q (G q) sq cq dq ->
  g_unf (G q) = c :: tail (g_unf (G q)) ->
  queues_ok (set_dev (<[q := fetched sq dq c]> (m_dev m)) m) (upd G q (fetch_ghost (G q))).
Proof.
  intros Hok Hpair (Hsq & Hcq & Hcid) Hu. pose proof (head_range _ _ _ _ Hsq) as Hhr.
  apply (queues_change m _ G q _ sq cq dq sq cq (fetched sq dq c) 0); try done.
  - destruct Hpair as (_ & L1 & L2 & L3). constructor; try done. cbn. by rewrite (list_insert_id _ _ _ L1), (list_insert_id _ _ _ L2).
  - intros i s c' d cid _ _ (H & _). done.
  - intros cid p Hp. right. by exists cid.
  - intros cid cid' p H H'. by destruct (qo_req _ _ Hok _ _ _ _ _ _ _ _ _ _ _ Hpair Hpair H H').
  - destruct (G q) as [unf posted ks k]; cbn in Hu. rewrite Hu in *. set (unf' := tail unf) in *. clearbody unf'. clear Hu unf.
    unfold pair_inv, fetch_ghost. cbn [g_unf g_posted g_ks g_k tail]. change (reg (set_dev _ m)) with (reg m).
    destruct Hsq as [H1 (H2 & H3 & H4) [H5 H6] H7 H8]. cbn [g_unf g_k g_ks length] in *. split; [| split].
    + constructor; cbn [g_unf g_k g_ks fetched d_head d_work].
      * done.
      * rewrite advance_eq_mod, H2, Zplus_mod_idemp_l by lia. split; [f_equal; lia | lia].
      * rewrite advance_mod by lia. split; [rewrite H5; f_equal; lia | done].
      * intros i c' Hi. rewrite ring_advance by lia. rewrite <- (H7 (S i) c' Hi). f_equal. lia.
      * intros Hw. by destruct (d_work dq).
    + destruct Hcq as [C1 C2 C3 C4 C5 [C6 C6'] C7]. constructor; try done. split; [done |]. apply (chain_weaken _ _ _ _ C6'). cbn. lia.
    + destruct Hcid as [D1 D2 [D3 D3'] D4].
      assert (live (Gh unf' posted ks (k + 1)) (fetched sq dq c) ≡ₚ live (Gh (c :: unf') posted ks k) dq) as Hperm.
      { unfold live. cbn. rewrite map_app. cbn. rewrite <- !app_assoc. cbn. by rewrite !Permutation_middle. }
      constructor; try done. split; [by rewrite Hperm |]. intros cid. by rewrite Hperm.
Qed.

(** ** The controller posts a completion *)
Definition post_ghost (g : ghost) (e : nvme_completion) : ghost := Gh (g_unf g) (g_posted g ++ [e]) (g_ks g ++ [g_k g]) (g_k g).
Definition posted (cq : nvme_cq) (dq : dev_queue) (work : list nvme_cmd) : dev_queue :=
  Dq (d_head dq) work (advance (cq_size cq) (d_tail dq)) (if d_tail dq =? cq_size cq then negb (d_phase dq) else d_phase dq).
Definition completion (q : nat) (dq : dev_queue) (c : nvme_cmd) (spec rsv code : Z) : nvme_completion :=
  Cqe spec rsv (d_head dq) (Z.of_nat q) (c_cid c) (2 * code + Z.b2z (d_phase dq)).

Lemma flag_odd code b : flag (2 * code + Z.b2z b) 1 = b.
Proof.
  change 1 with (2 ^ 0). rewrite flag_bit by lia. destruct b; cbn [Z.b2z].
  - apply Z.testbit_odd_0.
  - rewrite Z.add_0_r. apply Z.testbit_even_0.
Qed.

Lemma chain_snoc lo ks hi : chain lo ks hi -> chain lo (ks ++ [hi]) hi.
Proof. induction ks as [| k ks IH] in lo |- *; cbn; [lia |]. intros [H1 H2]. split; [done | by apply IH]. Qed.

Lemma cq_room q sq cq dq g pr : cq_inv q sq cq dq g pr -> advance (cq_size cq) (d_tail dq) <> pr -> zlen (g_posted g) < cq_size cq.
Proof.
  intros [C1 [C2 C2'] [_ ->] _ _ _ _] Hne. destruct (Z.eq_dec (zlen (g_posted g)) (cq_size cq)) as [E | ?]; [| lia]. exfalso. apply Hne.
  pose proof (Z.mod_pos_bound (cq_pos cq + zlen (g_posted g)) (cq_size cq + 1) ltac:(lia)).
  rewrite advance_eq_mod, C2, Zplus_mod_idemp_l, E by lia. replace (cq_pos cq + cq_size cq + 1) with (cq_pos cq + 1 * (cq_size cq + 1)) by lia.
  rewrite Z.mod_add, Z.mod_small by lia. done.
Qed.

Lemma phase_next q sq cq dq g pr : cq_inv q sq cq dq g pr -> zlen (g_posted g) < cq_size cq ->
  (if d_tail dq =? cq_size cq then negb (d_phase dq) else d_phase dq) = phase_at cq (zlen (g_posted g) + 1).
Proof.
  intros [C1 [C2 C2'] [C3 _] _ _ _ _] Hlt. rewrite C3. set (n := zlen (g_posted g)) in *. unfold phase_at.
  destruct (Z.eqb_spec (d_tail dq) (cq_size cq)) as [E | E]; rewrite C2 in E.
  - assert (cq_pos cq + n = cq_size cq) as Hn.
    { destruct (Z.le_gt_cases (cq_pos cq + n) (cq_size cq)); [by rewrite Z.mod_small in E by lia |]. exfalso.
      replace (cq_pos cq + n) with (cq_pos cq + n - (cq_size cq + 1) + 1 * (cq_size cq + 1)) in E by lia.
      rewrite Z.mod_add, Z.mod_small in E by lia. lia. }
    destruct (Z.leb_spec (cq_pos cq + n) (cq_size cq)); [| lia]. destruct (Z.leb_spec (cq_pos cq + (n + 1)) (cq_size cq)); [lia | done].
  - destruct (Z.leb_spec (cq_pos cq + n) (cq_size cq)), (Z.leb_spec (cq_pos cq + (n + 1)) (cq_size cq)); try done; try lia.
    exfalso. apply E. rewrite Z.mod_small; lia.
Qed.

Lemma cq_post q sq cq dq g pr c spec rsv code w1 w2 tr : sq_inv sq dq g tr -> cq_inv q sq cq dq g pr -> zlen (g_posted g) < cq_size cq -> 0 <= code < 2 ^ 15 ->
  cq_inv q sq (cq_set_buf (<[Z.to_nat (d_tail dq) := completion q dq c spec rsv code]> (cq_buf cq)) cq) (posted cq dq (w1 ++ w2))
    (post_ghost g (completion q dq c spec rsv code)) pr.
Proof.
  intros Hsq Hcq Hlt Hcode. pose proof (phase_next _ _ _ _ _ _ Hcq Hlt) as Hph. destruct Hcq as [C1 [C2 C2'] [C3 C3'] C4 C5 [C6 C6'] C7].
  set (e := completion q dq c spec rsv code). destruct C1 as (S1 & S2 & S3).
  pose proof (Z.mod_pos_bound (cq_pos cq + zlen (g_posted g)) (cq_size cq + 1) ltac:(lia)).
  constructor; cbn [post_ghost g_posted g_ks g_k cq_set_buf cq_size cq_pos cq_buf posted d_tail d_phase]; rewrite ?length_app, ?Nat2Z.inj_add.
  - rewrite length_insert. lia.
  - change (zlen [e]) with 1. split; [| lia]. rewrite advance_eq_mod, C2, Zplus_mod_idemp_l by lia. f_equal. lia.
  - split; [exact Hph | done].
  - intros i a Hi. rewrite C2. change (phase_at (cq_set_buf _ cq)) with (phase_at cq).
    apply lookup_app_Some in Hi as [Hi | [Hge Hi]].
    + apply lookup_lt_Some in Hi as ?. rewrite ring_insert_ne by lia. by apply C4.
    + assert (i = length (g_posted g) /\ a = e) as [-> ->].
      { apply list_lookup_singleton_Some in Hi as [Hi <-]. split; [lia | done]. }
      rewrite ring_insert_eq by lia. split; [done |]. cbn. rewrite flag_odd. done.
  - change (zlen [e]) with 1. intros i Hi. rewrite C2, ring_insert_ne by lia. apply C5. lia.
  - rewrite !map_app, C6. split; [| by apply chain_snoc]. cbn. by rewrite (proj1 (si_head _ _ _ _ Hsq)).
  - apply Forall_app. split; [done |]. apply Forall_singleton. split; [done |]. cbn. pose proof (b2z_01 (d_phase dq)). lia.
Qed.

Lemma post_keeps m G q sq cq dq w1 c w2 spec rsv code mm : queues_ok m G -> has_pair m q sq cq dq -> pair_inv m q (G q) sq cq dq ->
  d_work dq = w1 ++ c :: w2 -> zlen (g_posted (G q)) < cq_size cq -> 0 <= code < 2 ^ 15 ->
  queues_ok (set_mem mm (set_st (set_cqs (<[q := cq_set_buf (<[Z.to_nat (d_tail dq) := completion q dq c spec rsv code]> (cq_buf cq)) cq]>
      (st_cq (m_st m))) (m_st m)) (set_dev (<[q := posted cq dq (w1 ++ w2)]> (m_dev m)) m)))
    (upd G q (post_ghost (G q) (completion q dq c spec rsv code))).
Proof.
  intros Hok Hpair (Hsq & Hcq & Hcid) Hw Hlt Hcode.
  apply (queues_change m _ G q _ sq cq dq sq
    (cq_set_buf (<[Z.to_nat (d_tail dq) := completion q dq c spec rsv code]> (cq_buf cq)) cq) (posted cq dq (w1 ++ w2)) 0); try done.
  - destruct Hpair as (_ & L1 & L2 & L3). constructor; try done. cbn. by rewrite (list_insert_id _ _ _ L1).
  - intros i s c' d cid _ _ (H & _). done.
  - intros cid p Hp. right. by exists cid.
  - intros cid cid' p H H'. by destruct (qo_req _ _ Hok _ _ _ _ _ _ _ _ _ _ _ Hpair Hpair H H').
  - unfold pair_inv. split; [| split].
    + destruct Hsq as [H1 H2 H3 H4 H5]. constructor; try done. intros _. cbn. apply List.last_last.
    + by eapply cq_post.
    + destruct Hcid as [D1 D2 [D3 D3'] D4].
      assert (live (post_ghost (G q) (completion q dq c spec rsv code)) (posted cq dq (w1 ++ w2)) ≡ₚ live (G q) dq) as Hperm.
      { unfold live. cbn. rewrite Hw, !map_app. cbn. apply Permutation_app_head.
        rewrite app_assoc, <- Permutation_cons_append, <- (Permutation_middle (map c_cid w1)). done. }
      constructor; try done. split; [by rewrite Hperm |]. intros cid. by rewrite Hperm.
Qed.

(** What the controller cannot change. *)
Record same_driver (m m' : machine) : Prop := {
  sd_st : st_sq (m_st m') = st_sq (m_st m) /\ st_num_iosq (m_st m') = st_num_iosq (m_st m) /\ st_num_iocq (m_st m') = st_num_iocq (m_st m) /\
    st_lba_shift (m_st m') = st_lba_shift (m_st m);
  sd_mem : m_reqs m' = m_reqs m /\ m_regs m' = m_regs m /\ m_words m' = m_words m;
}.

Definition grows (G G' : nat -> ghost) : Prop := forall q, g_posted (G q) `prefix_of` g_posted (G' q).

#[export] Instance same_driver_preorder : PreOrder same_driver.
Proof.
  split; [by intros m |]. intros m1 m2 m3 [(A1 & A2 & A3 & A4) (A5 & A6 & A7)] [(B1 & B2 & B3 & B4) (B5 & B6 & B7)].
  constructor; split_and!; congruence.
Qed.
#[export] Instance grows_preorder : PreOrder grows.
Proof. split; [by intros G q |]. intros G1 G2 G3 H1 H2 q. etrans; [apply H1 | apply H2]. Qed.

Lemma grows_upd G q g : g_posted (G q) `prefix_of` g_posted g -> grows G (upd G q g).
Proof. intros H i. unfold upd. by destruct (decide (i = q)) as [-> |]. Qed.

(** Completions that are posted, with the request that each will finish and
    the status it will get. *)
Definition will_finish (m : machine) (q : nat) (e : nvme_completion) (ps : Z * Z) : Prop :=
  (exists sq, st_sq (m_st m) !! q = Some sq /\ pending sq (ce_cid e) ps.1) /\ ps.2 = Z.lor (ce_status e) 1.

Definition posted_of (q : nat) (ev : event) : list (Z * Z) :=
  match ev with Posted q' p s => if decide (q' = q) then [(p, s)] else [] | _ => [] end.
Definition finished_of (q : nat) (ev : event) : list (Z * Z) :=
  match ev with Finished q' p s => if decide (q' = q) then [(p, s)] else [] | _ => [] end.

Lemma req_of_pending m q sq cid p : st_sq (m_st m) !! q = Some sq -> pending sq cid p -> req_of m q cid = p.
Proof. intros Hs (_ & _ & cmds & Hc & Hl). unfold req_of. rewrite Hs. cbn. rewrite Hc. by rewrite Hl. Qed.

Lemma lor_phase code b : Z.lor (2 * code + Z.b2z b) 1 = 2 * code + 1.
Proof.
  apply Z.bits_inj'. intros i Hi. rewrite Z.lor_spec. destruct (Z.eq_dec i 0) as [-> | Hne].
  - by rewrite Z.testbit_odd_0, orb_true_r.
  - replace i with (Z.succ (i - 1)) by lia. rewrite Z.testbit_odd_succ by lia.
    rewrite (Z.bits_above_log2 1) by (cbn; lia). rewrite orb_false_r. destruct b; cbn [Z.b2z]; [apply Z.testbit_odd_succ; lia |].
    rewrite Z.add_0_r. apply Z.testbit_even_succ. lia.
Qed.

Lemma dev_step_ok m ev m' G : queues_ok m G -> dev_step m ev m' ->
  exists G', queues_ok m' G' /\ same_driver m m' /\
    forall q, exists l, g_posted (G' q) = g_posted (G q) ++ l /\ Forall2 (will_finish m q) l (posted_of q ev).
Proof.
  intros Hok Hs. inversion Hs as [q sq dq c Hq L1 L3 Hne Hc | q cq dq w1 c w2 spec rsv code mm Hq L2 L3 Hw Hne Hcode _]; subst.
  - destruct (qo_pair _ _ Hok q Hq) as (sq' & cq & dq' & Hpair & Hinv). pose proof Hpair as (_ & L1' & _ & L3'). simplify_eq.
    pose proof Hinv as (Hsq & _ & _). eexists. split; [apply (fetch_keeps m G q sq cq dq c); try done; by eapply fetch_unf |].
    split; [done |]. intros i. exists []. split; [| constructor]. rewrite app_nil_r. unfold upd. by destruct (decide (i = q)) as [-> |].
  - destruct (qo_pair _ _ Hok q Hq) as (sq & cq' & dq' & Hpair & Hinv). pose proof Hpair as (_ & L1 & L2' & L3'). simplify_eq.
    pose proof Hinv as (_ & Hcq & [_ _ [_ Hlive] _]).
    eexists. split; [apply (post_keeps m G q sq cq dq w1 c w2 spec rsv code mm); try done; by eapply cq_room |]. split; [done |]. intros i.
    unfold upd. cbn [posted_of]. destruct (decide (i = q)) as [-> | Hi].
    + exists [completion q dq c spec rsv code]. split; [done |]. rewrite decide_True by done. apply Forall2_cons. split; [| constructor].
      assert (c_cid c ∈ live (G q) dq) as Hin.
      { unfold live. rewrite Hw, !elem_of_app, !map_app, !elem_of_app. cbn. right. left. right. apply list_elem_of_here. }
      apply Hlive in Hin as [p Hp]. split; [exists sq; cbn; by rewrite (req_of_pending _ _ _ _ _ L1 Hp) |]. cbn. by rewrite lor_phase.
    + exists []. rewrite app_nil_r. split; [done |]. rewrite decide_False by done. constructor.
Qed.

Lemma dev_moves_ok m m' G : queues_ok m G -> rtc dev_move m m' -> exists G', queues_ok m' G' /\ grows G G' /\ same_driver m m'.
Proof.
  intros Hok Hs. induction Hs as [m | m m1 m' [ev Hs] _ IH] in G, Hok |- *; [by exists G |].
  destruct (dev_step_ok _ _ _ _ Hok Hs) as (G1 & Hok1 & Hd1 & Hg1). destruct (IH G1 Hok1) as (G2 & Hok2 & Hg2 & Hd2).
  exists G2. split; [done |]. split; [| by etrans]. etrans; [| done]. intros q. destruct (Hg1 q) as (l & -> & _). by eexists.
Qed.

(** ** The driver submits a command *)
Lemma find_cid_ok cmds cids : Forall (fun i => 0 <= i < zlen cmds) cids ->
  exists o, find_cid cmds cids = Ok o /\
    match o with
    | Some cid => cid ∈ cids /\ cmds !! Z.to_nat cid = Some 0
    | None => forall i, i ∈ cids -> cmds !! Z.to_nat i <> Some 0
    end.
Proof.
  induction 1 as [| i cids Hi Hall IH]; [exists None; split; [done |]; intros i Hin; by apply not_elem_of_nil in Hin |]. cbn [find_cid].
  destruct (geti_in cmds i Hi) as (v & -> & Hv). cbn [mbind res_bind]. destruct (Z.eqb_spec v 0) as [-> | Hne].
  - exists (Some i). split; [done |]. split; [apply list_elem_of_here | done].
  - destruct IH as (o & -> & Ho). exists o. split; [done |]. destruct o as [cid |].
    + destruct Ho as [Hin Hz]. split; [by apply list_elem_of_further | done].
    + intros j [-> | Hj]%elem_of_cons; [congruence | by apply Ho].
Qed.

Definition submit_ghost (g : ghost) (c : nvme_cmd) : ghost := Gh (g_unf g ++ [c]) (g_posted g) (g_ks g) (g_k g).

(** The machine after a submission of the request [p]. *)
Definition submitted (m : machine) (q : nat) (sq : nvme_sq) (cmd : nvme_cmd) (cid p : Z) (r : nvme_req) (cmds : list Z) : machine :=
  set_reg (sq_doorbell sq) (advance (sq_size sq) (sq_tail sq))
    (set_st (set_sqs (<[q := sq_set_tail (<[Z.to_nat (sq_tail sq) := set_cid cid cmd]> (sq_buf sq)) (advance (sq_size sq) (sq_tail sq))
        (<[Z.to_nat cid := p]> cmds) sq]> (st_sq (m_st m))) (m_st m))
      (set_reqs (<[p := set_status NVME_SUBMITTED r]> (m_reqs m)) m)).

Definition not_pending (m : machine) (p : Z) : Prop := forall q sq cq dq cid, has_pair m q sq cq dq -> ~ pending sq cid p.

Lemma tail_range sq dq g tr : sq_inv sq dq g tr -> 0 <= sq_tail sq <= sq_size sq.
Proof. intros [H1 _ [-> _] _ _]. pose proof (Z.mod_pos_bound (d_head dq + zlen (g_unf g)) (sq_size sq + 1) ltac:(lia)). lia. Qed.

(** The ring is full when the next tail is the head that the driver knows. *)
Lemma sq_full sq dq g tr : sq_inv sq dq g tr -> (advance (sq_size sq) (sq_tail sq) =? sq_head sq) = (g_k g + zlen (g_unf g) =? sq_size sq).
Proof.
  intros Hsq. pose proof (tail_range _ _ _ _ Hsq). destruct Hsq as [H1 (H2 & H3 & H4) [H5 _] _ _].
  assert (advance (sq_size sq) (sq_tail sq) = (sq_head sq + (g_k g + zlen (g_unf g) + 1)) mod (sq_size sq + 1)) as ->.
  { rewrite advance_eq_mod by lia. rewrite H5, H2, Zplus_mod_idemp_l, <- Z.add_assoc, Zplus_mod_idemp_l. f_equal. lia. }
  destruct (Z.eqb_spec (g_k g + zlen (g_unf g)) (sq_size sq)) as [E | E].
  - rewrite E. replace (sq_head sq + (sq_size sq + 1)) with (sq_head sq + 1 * (sq_size sq + 1)) by lia.
    rewrite Z.mod_add, Z.mod_small by lia. apply Z.eqb_refl.
  - apply Z.eqb_neq. intros F. apply (mod_far (sq_head sq) 0 (g_k g + zlen (g_unf g) + 1) (sq_size sq + 1)); [lia | lia |].
    rewrite F, Z.add_0_r, Z.mod_small by lia. done.
Qed.

Lemma submit_result m G q sq cq dq p r : queues_ok m G -> has_pair m q sq cq dq -> pair_inv m q (G q) sq cq dq ->
  m_reqs m !! p = Some r ->
  exists cmds, sq_cmd sq = Some cmds /\
    ((g_k (G q) + zlen (g_unf (G q)) = sq_size sq /\ nvme_submit_single_command m (Z.of_nat q) p = Ok (false, m)) \/
     ((forall cid, 0 <= cid <= sq_max_cid sq -> cid ∈ live (G q) dq) /\
      nvme_submit_single_command m (Z.of_nat q) p = Ok (false, set_reqs (<[p := set_status NVME_SUBMITTED r]> (m_reqs m)) m)) \/
     exists cid cmd, 0 <= cid <= sq_max_cid sq /\ cmds !! Z.to_nat cid = Some 0 /\ sq_buf sq !! Z.to_nat (sq_tail sq) = Some cmd /\
       g_k (G q) + zlen (g_unf (G q)) < sq_size sq /\
       nvme_submit_single_command m (Z.of_nat q) p = Ok (true, submitted m q sq cmd cid p r cmds)).
Proof.
  intros Hok (Hq & L1 & L2 & L3) (Hsq & Hcq & Hcid) Hr. pose proof Hcid as [D1 (cmds & Dc & Dl & Dm) [_ Dlive] D4]. exists cmds. split; [done |].
  pose proof (tail_range _ _ _ _ Hsq) as Ht. pose proof (sq_full _ _ _ _ Hsq) as Hfull. pose proof (si_size _ _ _ _ Hsq) as Hsize.
  unfold nvme_submit_single_command. assert_ok. rewrite (geti_nat _ _ _ L1). cbn [mbind res_bind].
  assert ((if sq_tail sq =? sq_size sq then 0 else u16 (sq_tail sq + 1)) = advance (sq_size sq) (sq_tail sq)) as ->.
  { unfold advance. destruct (Z.eqb_spec (sq_tail sq) (sq_size sq)); [done |]. apply u16_small. lia. }
  rewrite Hfull. destruct (Z.eqb_spec (g_k (G q) + zlen (g_unf (G q))) (sq_size sq)) as [E | E]; [by left |]. right.
  unfold deref. rewrite Hr. cbn [mbind res_bind]. rewrite Dc. cbn [mbind res_bind].
  destruct (find_cid_ok cmds (range 0 (sq_max_cid sq + 1))) as (o & -> & Ho).
  { apply Forall_forall. intros i. unfold range. rewrite elem_of_seqZ. lia. }
  cbn [mbind res_bind]. destruct o as [cid |].
  - right. destruct Ho as [Hin Hz]. unfold range in Hin. apply elem_of_seqZ in Hin.
    destruct (geti_in (sq_buf sq) (sq_tail sq)) as (cmd & Hg & Hcmd); [lia |]. exists cid, cmd.
    split; [lia |]. split; [done |]. split; [done |]. split; [destruct (si_head _ _ _ _ Hsq) as (_ & _ & ?); lia |].
    rewrite seti_ok by lia. cbn [mbind res_bind]. rewrite Hg. cbn [mbind res_bind]. rewrite (seti_ok (sq_buf sq)) by lia. cbn [mbind res_bind].
    apply lookup_lt_Some in L1. rewrite (seti_ok (st_sq (m_st m))) by lia. cbn [mbind res_bind]. rewrite Nat2Z.id, u16_small by lia. done.
  - left. split; [| done]. intros cid Hci. apply Dlive. destruct (geti_in cmds cid) as (v & _ & Hv); [lia |]. exists v.
    split; [| split; [lia | by exists cmds]]. intros ->. apply (Ho cid); [| done]. unfold range. apply elem_of_seqZ. lia.
Qed.

Lemma pending_tail b t sq cmds cid p cid' p' : sq_cmd sq = Some cmds -> cmds !! Z.to_nat cid = Some 0 -> 0 <= cid -> p <> 0 ->
  pending (sq_set_tail b t (<[Z.to_nat cid := p]> cmds) sq) cid' p' <-> (cid' = cid /\ p' = p) \/ pending sq cid' p'.
Proof.
  intros Hc Hz Hcid Hp. apply lookup_lt_Some in Hz as Hlt. unfold pending. cbn. split.
  - intros (Hp' & H0 & c & [= <-] & Hl). destruct (decide (cid' = cid)) as [-> | Hne].
    + rewrite list_lookup_insert_eq in Hl by done. left. split; congruence.
    + rewrite list_lookup_insert_ne in Hl by lia. right. split; [done |]. split; [done |]. by exists cmds.
  - intros [[-> ->] | (Hp' & H0 & c & Hc' & Hl)].
    + split; [done |]. split; [done |]. eexists. split; [done |]. by apply list_lookup_insert_eq.
    + simplify_eq. split; [done |]. split; [done |]. eexists. split; [done |]. rewrite list_lookup_insert_ne; [done |]. intros E. rewrite E in Hz. congruence.
Qed.

Lemma sq_submit sq dq g tr b cmds c : sq_inv sq dq g tr -> b = <[Z.to_nat (sq_tail sq) := c]> (sq_buf sq) -> g_k g + zlen (g_unf g) < sq_size sq ->
  sq_inv (sq_set_tail b (advance (sq_size sq) (sq_tail sq)) cmds sq) dq (submit_ghost g c) (advance (sq_size sq) (sq_tail sq)).
Proof.
  intros Hsq -> Hroom. pose proof (tail_range _ _ _ _ Hsq) as Ht. destruct Hsq as [H1 (H2 & H3 & H4) [H5 H6] H7 H8].
  constructor; cbn [sq_set_tail sq_size sq_buf sq_head sq_tail submit_ghost g_unf g_k g_ks]; rewrite ?length_insert, ?length_app, ?Nat2Z.inj_add;
    change (zlen [c]) with 1.
  - done.
  - split; [done | lia].
  - split; [| done]. rewrite advance_eq_mod by lia. rewrite H5, Zplus_mod_idemp_l. f_equal. lia.
  - intros i a Hi. rewrite H5. apply lookup_app_Some in Hi as [Hi | [Hge Hi]].
    + apply lookup_lt_Some in Hi as ?. rewrite ring_insert_ne by lia. by apply H7.
    + assert (i = length (g_unf g) /\ a = c) as [-> ->].
      { apply list_lookup_singleton_Some in Hi as [Hi <-]. split; [lia | done]. }
      apply ring_insert_eq; lia.
  - done.
Qed.

Lemma submit_keeps m G q sq cq dq cmd cid p r cmds : queues_ok m G -> has_pair m q sq cq dq -> pair_inv m q (G q) sq cq dq ->
  sq_cmd sq = Some cmds -> 0 <= cid <= sq_max_cid sq -> cmds !! Z.to_nat cid = Some 0 -> p <> 0 -> not_pending m p -> m_reqs m !! p = Some r ->
  g_k (G q) + zlen (g_unf (G q)) < sq_size sq ->
  queues_ok (submitted m q sq cmd cid p r cmds) (upd G q (submit_ghost (G q) (set_cid cid cmd))).
Proof.
  intros Hok Hpair (Hsq & Hcq & Hcid) Hcmds Hcr Hz Hp Hnp Hr Hroom.
  set (sq1 := sq_set_tail (<[Z.to_nat (sq_tail sq) := set_cid cid cmd]> (sq_buf sq)) (advance (sq_size sq) (sq_tail sq)) (<[Z.to_nat cid := p]> cmds) sq).
  assert (forall cid' p', pending sq1 cid' p' <-> (cid' = cid /\ p' = p) \/ pending sq cid' p') as Hpend by (intros; apply pending_tail; done || lia).
  apply (queues_change m _ G q _ sq cq dq sq1 cq dq p); try done.
  - destruct Hpair as (_ & L1 & L2 & L3). constructor; try done.
    + unfold submitted. cbn. by rewrite (list_insert_id _ _ _ L2), (list_insert_id _ _ _ L3).
    + intros r' Hr1 Hr2. unfold submitted. rewrite reg_set_reg. by destruct (decide _).
    + intros p' Hp'. unfold submitted. cbn. by rewrite lookup_insert_ne.
  - intros i s c d cid' Hne Hi. by apply (Hnp i s c d).
  - intros cid' p' [[_ ->] | H]%Hpend; [by left | right; by exists cid'].
  - intros c1 c2 p' [[E1 E2] | H]%Hpend [[E1' E2'] | H']%Hpend; subst; try done.
    + by destruct (Hnp q sq cq dq _ Hpair H').
    + by destruct (Hnp q sq cq dq _ Hpair H).
    + by destruct (qo_req _ _ Hok _ _ _ _ _ _ _ _ _ _ _ Hpair Hpair H H').
  - destruct (qo_regs _ _ Hok _ _ _ _ _ _ _ _ Hpair Hpair) as [Hbell _]. unfold pair_inv. cbn [sq_doorbell sq1 sq_set_tail].
    assert (reg (submitted m q sq cmd cid p r cmds) (sq_doorbell sq) = advance (sq_size sq) (sq_tail sq)) as ->.
    { unfold submitted. rewrite reg_set_reg. by destruct (decide _). }
    assert (reg (submitted m q sq cmd cid p r cmds) (cq_doorbell cq) = reg m (cq_doorbell cq)) as ->.
    { unfold submitted. rewrite reg_set_reg. by destruct (decide _). }
    split; [by eapply sq_submit |]. split; [by destruct Hcq |].
    destruct Hcid as [D1 (c & Dc & Dl & Dm) [D3 D3'] D4]. simplify_eq.
    assert (live (submit_ghost (G q) (set_cid cid cmd)) dq ≡ₚ cid :: live (G q) dq) as Hperm.
    { unfold live. cbn. rewrite map_app. cbn. rewrite <- app_assoc. cbn. by rewrite <- Permutation_middle. }
    assert (cid ∉ live (G q) dq) as Hnin.
    { intros [p' (Hp' & _ & c0 & Hc & Hl)]%D3'. simplify_eq. }
    constructor.
    + done.
    + eexists. cbn. split; [done |]. rewrite length_insert. lia.
    + split; [rewrite Hperm; by constructor |]. intros cid'. rewrite Hperm, elem_of_cons, D3'. setoid_rewrite Hpend. split.
      * intros [-> | [p' H]]; [exists p; by left | exists p'; by right].
      * intros [p' [[-> _] | H]]; [by left | right; by exists p'].
    + intros cid' p' [[-> ->] | H]%Hpend; unfold submitted; cbn; [by rewrite lookup_insert_eq |].
      rewrite lookup_insert_ne; [by apply (D4 cid') |]. intros <-. by apply (Hnp q sq cq dq cid').
Qed.

(** ** What else the driver does: a command is written to the tail of a queue,
    requests that are not pending are changed. *)
Definition put_cmd (m : machine) (q : nat) (sq : nvme_sq) (c : nvme_cmd) : machine :=
  set_st (set_sqs (<[q := sq_set_buf (<[Z.to_nat (sq_tail sq) := c]> (sq_buf sq)) sq]> (st_sq (m_st m))) (m_st m)) m.

Lemma put_keeps m G q sq cq dq c : queues_ok m G -> has_pair m q sq cq dq -> queues_ok (put_cmd m q sq c) G.
Proof.
  intros Hok Hpair. destruct (qo_pair _ _ Hok q) as (sq' & cq' & dq' & Hpair' & Hsq & Hcq & Hcid); [by destruct Hpair |].
  destruct (has_pair_fun _ _ _ _ _ _ _ _ Hpair Hpair') as (<- & <- & <-). clear Hpair'.
  pose proof (tail_range _ _ _ _ Hsq) as Ht.
  assert (queues_ok (put_cmd m q sq c) (upd G q (G q))) as Hupd.
  { apply (queues_change m _ G q _ sq cq dq (sq_set_buf (<[Z.to_nat (sq_tail sq) := c]> (sq_buf sq)) sq) cq dq 0); try done.
    - destruct Hpair as (_ & L1 & L2 & L3). constructor; try done. cbn. by rewrite (list_insert_id _ _ _ L2), (list_insert_id _ _ _ L3).
    - intros i s c' d cid _ _ (H & _). done.
    - intros cid p Hp. right. by exists cid.
    - intros cid cid' p H H'. by destruct (qo_req _ _ Hok _ _ _ _ _ _ _ _ _ _ _ Hpair Hpair H H').
    - unfold pair_inv. split; [| split; [by destruct Hcq | by destruct Hcid]].
      destruct Hsq as [H1 (H2 & H3 & H4) [H5 H6] H7 H8]. constructor; try done.
      + cbn. by rewrite length_insert.
      + intros i a Hi. cbn. apply lookup_lt_Some in Hi as ?. rewrite H5, ring_insert_ne by lia. by apply H7. }
  destruct Hupd as [U1 U2 U3 U4]. constructor; try done. intros i Hi. destruct (U2 i Hi) as (s & c' & d & H). exists s, c', d.
  unfold upd in H. by destruct (decide (i = q)) as [-> |].
Qed.

Lemma req_keeps m G p r : queues_ok m G -> not_pending m p -> queues_ok (set_reqs (<[p := r]> (m_reqs m)) m) G.
Proof.
  intros [Q1 Q2 Q3 Q4 Q5] Hnp. constructor; try done. intros q Hq. destruct (Q2 q Hq) as (sq & cq & dq & Hp & Hsq & Hcq & [D1 D2 D3 D4]).
  exists sq, cq, dq. split; [done |]. split; [done |]. split; [done |]. constructor; try done. intros cid p' Hp'. cbn.
  rewrite lookup_insert_ne; [by apply (D4 cid) |]. intros <-. by apply (Hnp q sq cq dq cid).
Qed.

(** The other parts of the machine do not matter. *)
Lemma other_keeps m G w mm t : queues_ok m G -> queues_ok (set_time t (set_mem mm (set_words w m))) G.
Proof. by intros [Q1 Q2 Q3 Q4 Q5]. Qed.

(** ** A queue without pending requests is empty, and a request can be
    submitted. *)
Lemma not_pending_empty m G q sq cq dq : queues_ok m G -> has_pair m q sq cq dq -> (forall cid p, ~ pending sq cid p) ->
  g_unf (G q) = [] /\ d_work dq = [] /\ g_posted (G q) = [] /\ g_k (G q) = 0.
Proof.
  intros Hok Hpair Hnp. destruct (qo_pair _ _ Hok q) as (sq' & cq' & dq' & Hpair' & Hsq & Hcq & Hcid); [by destruct Hpair |].
  destruct (has_pair_fun _ _ _ _ _ _ _ _ Hpair Hpair') as (<- & <- & <-). destruct (di_live _ _ _ _ _ Hcid) as [_ Hl].
  assert (live (G q) dq = []) as Hnil.
  { destruct (live (G q) dq) as [| cid l] eqn:E; [done |]. exfalso. destruct (proj1 (Hl cid)) as [p' Hp']; [apply list_elem_of_here |].
    by apply (Hnp cid p'). }
  unfold live in Hnil. apply app_eq_nil in Hnil as [H1 Hnil]. apply app_eq_nil in Hnil as [H2 H3].
  apply map_eq_nil in H1, H2, H3. split; [done |]. split; [done |]. split; [done |].
  pose proof (si_ack _ _ _ _ Hsq H2) as Hk. destruct (ci_heads _ _ _ _ _ _ Hcq) as [Hh _]. rewrite H3 in Hh. cbn in Hh. symmetry in Hh.
  apply map_eq_nil in Hh. rewrite Hh in Hk. by cbn in Hk.
Qed.

Lemma submit_empty m G q sq cq dq p r : queues_ok m G -> has_pair m q sq cq dq -> (forall cid p, ~ pending sq cid p) -> m_reqs m !! p = Some r ->
  exists cmds cid cmd, sq_cmd sq = Some cmds /\ 0 <= cid <= sq_max_cid sq /\ cmds !! Z.to_nat cid = Some 0 /\ sq_buf sq !! Z.to_nat (sq_tail sq) = Some cmd /\
    g_k (G q) + zlen (g_unf (G q)) < sq_size sq /\ nvme_submit_single_command m (Z.of_nat q) p = Ok (true, submitted m q sq cmd cid p r cmds).
Proof.
  clear effect. intros Hok Hpair Hnp Hr. destruct (not_pending_empty m G q sq cq dq Hok Hpair Hnp) as (Hu & Hw & Hpo & Hk).
  destruct (qo_pair _ _ Hok q) as (sq' & cq' & dq' & Hpair' & Hinv); [by destruct Hpair |].
  destruct (has_pair_fun _ _ _ _ _ _ _ _ Hpair Hpair') as (<- & <- & <-).
  destruct (submit_result m G q sq cq dq p r Hok Hpair Hinv Hr) as (cmds & Hcmds & Hcases).
  pose proof Hinv as (Hsq & _ & Hcid). destruct (di_cmds _ _ _ _ _ Hcid) as (c0 & Hc0 & Hcl & Hcm).
  destruct Hcases as [[H _] | [[H _] | (cid & cmd & H)]].
  - exfalso. pose proof (si_size _ _ _ _ Hsq). rewrite Hu, Hk in H. cbn [length] in H. lia.
  - exfalso. specialize (H 0 ltac:(lia)). unfold live in H. rewrite Hu, Hw, Hpo in H. by apply not_elem_of_nil in H.
  - exists cmds, cid, cmd. split; [done |]. tauto.
Qed.

(** ** Runs of the driver and the controller *)

(** The completion that the driver looks at next. *)
Definition next_cid (m : machine) (q : nat) : Z :=
  match st_cq (m_st m) !! q with
  | Some cq => match cq_buf cq !! Z.to_nat (cq_pos cq) with Some e => ce_cid e | None => 0 end
  | None => 0
  end.

Inductive step (m : machine) : event -> machine -> Prop :=
| step_dev ev m' : dev_step m ev m' -> step m ev m'
| step_process (q : nat) r m' : Z.of_nat q <= st_num_iocq (m_st m) -> nvme_process_cqe m (Z.of_nat q) = Ok (r, m') ->
    let p := req_of m q (next_cid m q) in
    step m (if r =? IOST_OK then Finished q p (default 0 (req_status <$> m_reqs m' !! p)) else Silent) m'
| step_submit (q : nat) p b m' : Z.of_nat q <= st_num_iosq (m_st m) -> p <> 0 -> not_pending m p -> is_Some (m_reqs m !! p) ->
    nvme_submit_single_command m (Z.of_nat q) p = Ok (b, m') -> step m Silent m'
| step_put (q : nat) sq c : Z.of_nat q <= st_num_iosq (m_st m) -> st_sq (m_st m) !! q = Some sq -> step m Silent (put_cmd m q sq c)
| step_req p r : not_pending m p -> step m Silent (set_reqs (<[p := r]> (m_reqs m)) m)
| step_other w mm t : step m Silent (set_time t (set_mem mm (set_words w m))).

Inductive run : machine -> list event -> machine -> Prop :=
| run_nil m : run m [] m
| run_cons m ev m1 tr m' : step m ev m1 -> run m1 tr m' -> run m (ev :: tr) m'.

(** The completions that are posted and not processed, for all queues. *)
Definition waiting (m : machine) (G : nat -> ghost) (L : nat -> list (Z * Z)) : Prop :=
  forall q, Z.of_nat q <= st_num_iosq (m_st m) -> Forall2 (will_finish m q) (g_posted (G q)) (L q).

Lemma will_finish_mono m m' q e ps :
  (forall sq cid p, st_sq (m_st m) !! q = Some sq -> pending sq cid p -> cid = ce_cid e -> exists sq', st_sq (m_st m') !! q = Some sq' /\ pending sq' cid p) ->
  will_finish m q e ps -> will_finish m' q e ps.
Proof. intros H [(sq & Hs & Hp) Hst]. split; [| done]. by apply (H sq). Qed.

(** Steps that post and process nothing. *)
Lemma silent_step m m' G G' L : queues_ok m' G' -> st_num_iosq (m_st m') = st_num_iosq (m_st m) -> waiting m G L ->
  (forall q, g_posted (G' q) = g_posted (G q)) ->
  (forall q sq cid p, st_sq (m_st m) !! q = Some sq -> pending sq cid p -> exists sq', st_sq (m_st m') !! q = Some sq' /\ pending sq' cid p) ->
  exists G' L', queues_ok m' G' /\ waiting m' G' L' /\ st_num_iosq (m_st m') = st_num_iosq (m_st m) /\
    forall q, Z.of_nat q <= st_num_iosq (m_st m) -> L q ++ posted_of q Silent = finished_of q Silent ++ L' q.
Proof.
  intros Hok Hn HL Hg Hp. exists G', L. split; [done |]. split; [| split; [done | intros q _; by rewrite app_nil_r]].
  intros q Hq. rewrite Hg. rewrite Hn in Hq. eapply Forall2_impl; [by apply HL |]. intros e ps. apply will_finish_mono. intros. by apply (Hp q sq).
Qed.

Lemma process_step m G L q sq cq dq e posted0 cmds p : queues_ok m G -> waiting m G L -> has_pair m q sq cq dq -> pair_inv m q (G q) sq cq dq ->
  g_posted (G q) = e :: posted0 -> sq_cmd sq = Some cmds -> pending sq (ce_cid e) p ->
  exists L', waiting (finish m q sq cq e cmds p) (upd G q (pop_ghost (G q))) L' /\
    forall i, L i = finished_of i (Finished q p (Z.lor (ce_status e) 1)) ++ L' i.
Proof.
  intros Hok HL Hpair Hinv Hp Hcmds Hpend. pose proof Hpair as (Hq & L1 & L2 & L3). pose proof Hinv as (_ & Hcq & Hcid).
  destruct (pending_range _ _ _ _ _ _ _ _ Hcid Hcmds Hpend) as [Hcr Hcl]. destruct (di_cmds _ _ _ _ _ Hcid) as (c & Hc & Hcl' & Hcm). simplify_eq.
  exists (fun i => if decide (i = q) then tail (L q) else L i).
  pose proof (HL q Hq) as HLq. rewrite Hp in HLq. apply Forall2_cons_inv_l in HLq as ([p0 s0] & l & [(sq0 & Hs0 & Hp0) Hst0] & Hall & HLq).
  cbn in Hp0, Hst0. assert (p0 = p) as ->.
  { simplify_eq. destruct (pending_range _ _ _ _ _ _ _ _ Hcid Hcmds Hp0) as [_ ?]. congruence. }
  split.
  - intros i Hi. change (st_num_iosq _) with (st_num_iosq (m_st m)) in Hi. unfold upd. destruct (decide (i = q)) as [-> | Hne].
    + rewrite HLq. cbn [tail].
      assert (g_posted (pop_ghost (G q)) = posted0) as ->.
      { destruct (ci_heads _ _ _ _ _ _ Hcq) as [Hh _]. rewrite Hp in Hh. unfold pop_ghost. rewrite Hp. by destruct (g_ks (G q)). }
      destruct (di_live _ _ _ _ _ Hcid) as [Hnd _]. unfold live in Hnd. rewrite Hp in Hnd. cbn in Hnd.
      apply NoDup_app in Hnd as (_ & _ & Hnd). apply NoDup_app in Hnd as (_ & _ & Hnd). apply NoDup_cons in Hnd as [Hnin _].
      apply Forall2_same_length_lookup. split; [by eapply Forall2_length |]. intros j e' ps He' Hps.
      pose proof (Forall2_lookup_lr _ _ _ _ _ _ Hall He' Hps) as Hw. revert Hw. apply will_finish_mono.
      intros s cid p' Hs' Hp' ->. simplify_eq. eexists. split; [apply list_lookup_insert_eq; by apply lookup_lt_Some in L1 |].
      rewrite pending_release by (done || lia). split; [done |]. intros E. apply Hnin. rewrite <- E. apply list_elem_of_fmap. exists e'.
      split; [done |]. by eapply list_elem_of_lookup_2.
    + eapply Forall2_impl; [by apply HL |]. intros e' ps. apply will_finish_mono. intros s cid p' Hs Hp' _. exists s. split; [| done].
      cbn. by rewrite list_lookup_insert_ne.
  - intros i. cbn [finished_of]. destruct (decide (i = q)) as [-> | Hne].
    + rewrite decide_True by done. rewrite HLq. cbn. by rewrite Hst0.
    + by rewrite decide_False by done.
Qed.

Lemma step_ok m ev m' G L : queues_ok m G -> waiting m G L -> step m ev m' ->
  exists G' L', queues_ok m' G' /\ waiting m' G' L' /\ st_num_iosq (m_st m') = st_num_iosq (m_st m) /\
    forall q, Z.of_nat q <= st_num_iosq (m_st m) -> L q ++ posted_of q ev = finished_of q ev ++ L' q.
Proof.
  intros Hok HL Hs. destruct Hs as [ev m' Hd | q r m' Hq Hpr p | q p b m' Hq Hp Hnp [r Hr] Hsub | q sq c Hq L1 | p r Hnp | w mm t].
  - destruct (dev_step_ok _ _ _ _ Hok Hd) as (G' & Hok' & Hsame & Hg). exists G', (fun q => L q ++ posted_of q ev).
    split; [done |]. destruct Hsame as [(S1 & S2 & _) _]. split; [| split; [done |]].
    + intros q Hq. rewrite S2 in Hq. destruct (Hg q) as (l & -> & Hl). apply Forall2_app.
      * eapply Forall2_impl; [by apply HL |]. intros e ps. apply will_finish_mono. intros sq cid p Hsq Hp _. exists sq. by rewrite S1.
      * eapply Forall2_impl; [done |]. intros e ps. apply will_finish_mono. intros sq cid p Hsq Hp _. exists sq. by rewrite S1.
    + intros q _. assert (finished_of q ev = []) as ->; [| done]. by inversion Hd.
  - destruct (Z.le_gt_cases (Z.of_nat q) (st_num_iosq (m_st m))) as [Hle | Hgt].
    2: { rewrite (process_spare _ _ (qo_spare _ _ Hok q ltac:(lia))) in Hpr. injection Hpr as <- <-. apply (silent_step m m G G L); try done. intros. by eexists. }
    clear Hq. rename Hle into Hq. destruct (qo_pair _ _ Hok q Hq) as (sq & cq & dq & Hpair & Hinv).
    destruct (g_posted (G q)) as [| e posted0] eqn:Hpost.
    + rewrite (process_idle _ _ _ Hok Hq Hpost) in Hpr. injection Hpr as <- <-. apply (silent_step m m G G L); try done. intros. by eexists.
    + destruct (process_result m G q sq cq dq e posted0 Hok Hpair Hinv Hpost) as (cmds & p1 & Hcmds & Hpend & Hres).
      rewrite Hres in Hpr. injection Hpr as <- <-.
      assert (p = p1) as ->.
      { pose proof Hpair as (_ & L1 & L2 & _). subst p. unfold next_cid. rewrite L2. destruct Hinv as (_ & [C1 _ _ C4 _ _ _] & _).
        rewrite Hpost in C4. destruct (C4 0%nat e eq_refl) as [Hr _]. unfold ring in Hr. change (Z.of_nat 0) with 0 in Hr.
        rewrite Z.add_0_r, Z.mod_small in Hr by lia. rewrite Hr. by apply (req_of_pending _ _ sq). }
      assert (default 0 (req_status <$> m_reqs (finish m q sq cq e cmds p1) !! p1) = Z.lor (ce_status e) 1) as ->.
      { unfold finish. cbn. by rewrite lookup_insert_eq. }
      destruct (process_step m G L q sq cq dq e posted0 cmds p1 Hok HL Hpair Hinv Hpost Hcmds Hpend) as (L' & HL' & Hev).
      exists (upd G q (pop_ghost (G q))), L'. split; [by eapply process_keeps |]. split; [done |]. split; [done |].
      intros i _. cbn [Z.eqb IOST_OK]. change (IOST_OK =? IOST_OK) with true. cbn [posted_of]. rewrite app_nil_r. apply Hev.
  - destruct (qo_pair _ _ Hok q Hq) as (sq & cq & dq & Hpair & Hinv).
    destruct (submit_result m G q sq cq dq p r Hok Hpair Hinv Hr) as (cmds & Hcmds & [[_ H] | [[_ H] | (cid & cmd & Hcid & Hz & Hcmd & Hroom & H)]]);
      rewrite H in Hsub; injection Hsub as <- <-.
    + apply (silent_step m m G G L); try done. intros. by eexists.
    + apply (silent_step m _ G G L); try done; [by apply req_keeps |]. intros. by eexists.
    + apply (silent_step m _ G (upd G q (submit_ghost (G q) (set_cid cid cmd))) L); try done; [by eapply submit_keeps | |].
      * intros i. unfold upd. by destruct (decide (i = q)) as [-> |].
      * intros i s cid' p' Hs Hp'. pose proof Hpair as (_ & L1 & _). destruct (decide (i = q)) as [-> | Hne].
        -- simplify_eq. eexists. split; [cbn; apply list_lookup_insert_eq; by eapply lookup_lt_Some |].
           apply pending_tail; try done; [lia | by right].
        -- exists s. split; [| done]. cbn. by rewrite list_lookup_insert_ne.
  - destruct (qo_pair _ _ Hok q Hq) as (sq' & cq & dq & Hpair & Hinv). pose proof Hpair as (_ & L1' & _). simplify_eq.
    apply (silent_step m _ G G L); try done; [by eapply put_keeps |]. intros i s cid p Hs Hp. destruct (decide (i = q)) as [-> | Hne].
    + simplify_eq. eexists. split; [cbn; apply list_lookup_insert_eq; by apply lookup_lt_Some in L1 | done].
    + exists s. split; [| done]. cbn. by rewrite list_lookup_insert_ne.
  - apply (silent_step m _ G G L); try done; [by apply req_keeps |]. intros. by eexists.
  - apply (silent_step m _ G G L); try done; [by apply other_keeps |]. intros. by eexists.
Qed.

Lemma queue_run_ok m tr m' G L : queues_ok m G -> waiting m G L -> run m tr m' ->
  exists G' L', queues_ok m' G' /\ waiting m' G' L' /\
    forall q, Z.of_nat q <= st_num_iosq (m_st m) -> L q ++ (tr ≫= posted_of q) = (tr ≫= finished_of q) ++ L' q.
Proof.
  intros Hok HL Hr. induction Hr as [m | m ev m1 tr m' Hs _ IH] in G, L, Hok, HL |- *.
  { exists G, L. split; [done |]. split; [done |]. intros q _. cbn. by rewrite app_nil_r. }
  destruct (step_ok _ _ _ _ _ Hok HL Hs) as (G1 & L1 & Hok1 & HL1 & Hn & H1). destruct (IH G1 L1 Hok1 HL1) as (G2 & L2 & Hok2 & HL2 & H2).
  exists G2, L2. split; [done |]. split; [done |]. intros q Hq. cbn. rewrite app_assoc, H1, <- !app_assoc by done. f_equal. apply H2. by rewrite Hn.
Qed.

(** A machine in which nothing is under way. *)
Definition quiet (m : machine) : Prop := exists G, queues_ok m G /\ forall q, g_posted (G q) = [].
End Queues.

(** C12: Completions are processed in the order in which the controller posts
    them, each once, and each finishes the request that it belongs to with the
    status that was posted.  From a state in which no completion is under way,
    in every interleaving of submissions, processing and steps of the
    controller, which may complete commands in any order, the requests that
    were finished, with their status, are at any time a prefix of those whose
    completions were posted, for every queue. *)
Theorem nvme_completions_fifo effect m tr m' q : quiet m -> run effect m tr m' -> Z.of_nat q <= st_num_iosq (m_st m) ->
  (tr ≫= finished_of q) `prefix_of` (tr ≫= posted_of q).
Proof.
  intros (G & Hok & Hq0) Hr Hq. destruct (queue_run_ok effect m tr m' G (fun _ => [])) as (G' & L' & _ & _ & H); [done | | done |].
  - intros i _. rewrite Hq0. constructor.
  - rewrite <- (app_nil_l (tr ≫= posted_of q)), H by done. by eexists.
Qed.

(** A controller with an admin queue of four entries, after a reset. *)
Definition demo_machine : machine := Mach
  (St 0 0 0 9 0 0 [Sq 0x1000 (replicate 4 zero_cmd) 3 0 0 0 1 (Some [0; 0])] [Cq 0x1004 (replicate 4 zero_cqe) true 3 0])
  {[ 100 := Req (0, 0) 0 0; 200 := Req (0, 0) 0 0 ]} ∅ ∅ ∅ [Dq 0 [] 0 true] 0.

Lemma pending_demo cid p : ~ pending (Sq 0x1000 (replicate 4 zero_cmd) 3 0 0 0 1 (Some [0; 0])) cid p.
Proof.
  intros (Hp & _ & cmds & [= <-] & Hl). apply list_elem_of_lookup_2 in Hl. rewrite !elem_of_cons in Hl.
  destruct Hl as [| [| Hl]]; [done | done |]. by apply not_elem_of_nil in Hl.
Qed.

Lemma has_pair_demo q sq cq dq : has_pair demo_machine q sq cq dq ->
  q = 0%nat /\ sq = Sq 0x1000 (replicate 4 zero_cmd) 3 0 0 0 1 (Some [0; 0]) /\ cq = Cq 0x1004 (replicate 4 zero_cqe) true 3 0.
Proof. intros (Hq & H1 & H2 & _). cbn in Hq. assert (q = 0%nat) as -> by lia. cbn in H1, H2. by simplify_eq. Qed.

Lemma demo_quiet : quiet demo_machine.
Proof.
  exists (fun _ => Gh [] [] [] 0). split; [| done]. constructor.
  - cbn. lia.
  - intros q Hq. cbn in Hq. assert (q = 0%nat) as -> by lia. eexists _, _, _. split; [by split_and! |]. split; [| split].
    + constructor; cbn; try lia; done.
    + constructor; cbn [g_posted g_ks g_k length cq_size cq_pos cq_buf d_tail d_phase map chain]; try done; try (cbn; lia).
      intros i Hi. assert (i = 0 \/ i = 1 \/ i = 2 \/ i = 3) as [-> | [-> | [-> | ->]]] by lia; by exists zero_cqe.
    + constructor; [done | by exists [0; 0] | | intros cid p Hp; by apply pending_demo in Hp]. split; [constructor |]. intros cid. split.
      * intros H. by apply not_elem_of_nil in H.
      * intros [p Hp]. by apply pending_demo in Hp.
  - intros q sq cq dq q' sq' cq' dq' (-> & -> & ->)%has_pair_demo (-> & -> & ->)%has_pair_demo. done.
  - intros q sq cq dq cid q' sq' cq' dq' cid' p (-> & -> & ->)%has_pair_demo _ Hp. by apply pending_demo in Hp.
  - intros q Hq. cbn in Hq. lia.
Qed.

Lemma nvme_completions_fifo_witness :
  exists tr m', run (fun _ _ _ _ => True) demo_machine tr m' /\ (tr ≫= finished_of 0) `prefix_of` (tr ≫= posted_of 0) /\
    (tr ≫= finished_of 0) = [(100, 7)].
Proof.
  eassert (run (fun _ _ _ _ => True) demo_machine _ _) as Hr.
  { eapply run_cons.
    { eapply (step_submit _ _ 0 100); [cbn; lia | lia | | by eexists | vm_compute; reflexivity].
      intros q sq cq dq cid (_ & -> & _)%has_pair_demo. apply pending_demo. }
    eapply run_cons; [eapply step_dev, (dev_fetch _ _ 0); [cbn; lia | reflexivity | reflexivity | vm_compute; discriminate | reflexivity] |].
    eapply run_cons; [eapply step_dev, (dev_post _ _ 0 _ _ [] _ [] 5 0 3 ∅); [cbn; lia | reflexivity | reflexivity | reflexivity | vm_compute; discriminate | lia | done] |].
    eapply run_cons; [eapply (step_process _ _ 0); [cbn; lia | vm_compute; reflexivity] |]. apply run_nil. }
  eexists _, _. split; [exact Hr |]. split; [exact (nvme_completions_fifo _ _ _ _ 0 demo_quiet Hr ltac:(cbn; lia)) | vm_compute; reflexivity].
Defined.
