(* ===== verification/NvmeWait.v ===== *)
(** * Waiting for a request ([nvme_wait_req] in [src/lib/nvme.c])

    The driver polls all completion queues until the request that it waits for
    is finished.  The controller moves on between any two looks of the driver.
    Waiting ends, with the status that the controller gave, as soon as the
    controller has completed the command. *)
From S2P Require Export NvmeQueue.
From stdpp Require Import base list list_numbers gmap zmap.

Open Scope Z_scope.

(** The completions that the driver has not read yet: entries from its position
    on, as long as their phase is the expected one. *)
Fixpoint unread_from (cq : nvme_cq) (n : nat) (i : Z) : list nvme_completion :=
  match n with
  | O => []
  | S n =>
      match ring (cq_buf cq) (cq_size cq) (cq_pos cq) i with
      | Some e => if Bool.eqb (flag (ce_status e) 1) (phase_at cq i) then e :: unread_from cq n (i + 1) else []
      | None => []
      end
  end.
Definition unread (cq : nvme_cq) : list nvme_completion := unread_from cq (Z.to_nat (cq_size cq + 1)) 0.

Lemma unread_drop q sq cq dq g pr (i : nat) : cq_inv q sq cq dq g pr -> (i <= length (g_posted g))%nat ->
  unread_from cq (Z.to_nat (cq_size cq + 1) - i) (Z.of_nat i) = drop i (g_posted g).
Proof.
  intros [C1 [C2 C2'] _ C4 C5 _ _] Hi. remember (length (g_posted g) - i)%nat as k eqn:Hk. revert i Hi Hk. induction k as [| k IH]; intros i Hi Hk.
  - rewrite drop_ge by lia. destruct (Z.to_nat (cq_size cq + 1) - i)%nat as [| n] eqn:Hn; [lia |]. cbn [unread_from].
    destruct (C5 (Z.of_nat i)) as (e & -> & ->); [lia |]. by destruct (phase_at cq (Z.of_nat i)).
  - destruct (lookup_lt_is_Some_2 (g_posted g) i) as [e He]; [lia |]. rewrite (drop_S _ e) by done.
    destruct (Z.to_nat (cq_size cq + 1) - i)%nat as [| n] eqn:Hn; [lia |]. cbn [unread_from].
    destruct (C4 i e He) as [-> ->]. rewrite eqb_reflx. f_equal.
    replace n with (Z.to_nat (cq_size cq + 1) - S i)%nat by lia. replace (Z.of_nat i + 1) with (Z.of_nat (S i)) by lia. apply IH; lia.
Qed.

Lemma unread_posted q sq cq dq g pr : cq_inv q sq cq dq g pr -> unread cq = g_posted g.
Proof. intros Hcq. pose proof (unread_drop q sq cq dq g pr 0 Hcq ltac:(lia)) as H. by rewrite Nat.sub_0_r in H. Qed.

(** The completion of the request [p] is there to be read, in queue [q]. *)
Definition answered (m : machine) (q : nat) (p : Z) : Prop :=
  exists sq cq e, st_sq (m_st m) !! q = Some sq /\ st_cq (m_st m) !! q = Some cq /\ e ∈ unread cq /\ pending sq (ce_cid e) p.

(** Pending requests are only taken away. *)
Record progress (m m' : machine) : Prop := {
  pg_num : st_num_iosq (m_st m') = st_num_iosq (m_st m) /\ st_num_iocq (m_st m') = st_num_iocq (m_st m);
  pg_cids : map sq_max_cid (st_sq (m_st m')) = map sq_max_cid (st_sq (m_st m));
  pg_time : (m_time m <= m_time m')%nat;
  pg_pending q sq' cid p : st_sq (m_st m') !! q = Some sq' -> pending sq' cid p -> exists sq, st_sq (m_st m) !! q = Some sq /\ pending sq cid p;
}.
#[export] Instance progress_preorder : PreOrder progress.
Proof.
  split.
  - intros m. constructor; try done. intros. by eexists.
  - intros m1 m2 m3 [A1 A2 A3 A4] [B1 B2 B3 B4]. constructor; [lia | congruence | lia |].
    intros q sq cid p Hs Hp. destruct (B4 _ _ _ _ Hs Hp) as (sq2 & Hs2 & Hp2). by apply (A4 q sq2).
Qed.

Definition in_use (m : machine) (q : nat) : nat :=
  match st_sq (m_st m) !! q ≫= sq_cmd with Some cmds => length (filter (fun c => c <> 0) cmds) | None => 0%nat end.

Lemma filter_zero (cmds : list Z) i p : cmds !! i = Some p -> p <> 0 ->
  length (filter (fun c => c <> 0) cmds) = S (length (filter (fun c => c <> 0) (<[i := 0]> cmds))).
Proof.
  revert i. induction cmds as [| c cmds IH]; intros i Hi Hp; [done |]. destruct i as [| i]; cbn in Hi.
  - injection Hi as ->. change (<[0%nat := 0]> (p :: cmds)) with (0 :: cmds). rewrite !filter_cons.
    rewrite decide_True, decide_False by (done || lia). done.
  - change (<[S i := 0]> (c :: cmds)) with (c :: <[i := 0]> cmds). rewrite !filter_cons. pose proof (IH i Hi Hp).
    destruct (decide (c <> 0)); cbn [length]; lia.
Qed.

(** ** One look at a queue *)
Lemma has_pair_st m q sq cq dq : has_pair m q sq cq dq -> st_sq (m_st m) !! q = Some sq.
Proof. by intros (_ & H & _). Qed.

Lemma finish_progress m G q sq cq dq e posted0 cmds p : queues_ok m G -> has_pair m q sq cq dq -> pair_inv m q (G q) sq cq dq ->
  g_posted (G q) = e :: posted0 -> sq_cmd sq = Some cmds -> pending sq (ce_cid e) p ->
  progress m (finish m q sq cq e cmds p) /\ in_use m q = S (in_use (finish m q sq cq e cmds p) q).
Proof.
  intros Hok (Hq & L1 & L2 & L3) (_ & _ & Hcid) Hp Hcmds Hpend. apply lookup_lt_Some in L1 as Hlt.
  destruct (pending_range _ _ _ _ _ _ _ _ Hcid Hcmds Hpend) as [Hcr Hcl]. destruct (di_cmds _ _ _ _ _ Hcid) as (c & Hc & Hcl' & Hcm). simplify_eq.
  split.
  - constructor; try done.
    + cbn. rewrite list_fmap_insert. cbn. apply list_insert_id. rewrite list_lookup_fmap, L1. done.
    + intros i s cid p' Hs Hp'. cbn in Hs. destruct (decide (i = q)) as [-> | Hne].
      * rewrite list_lookup_insert_eq in Hs by done. injection Hs as <-. exists sq. split; [done |]. apply pending_release in Hp' as [? _]; [done | done | lia].
      * rewrite list_lookup_insert_ne in Hs by done. by exists s.
  - unfold in_use. cbn. rewrite list_lookup_insert_eq, L1 by done. cbn. rewrite Hcmds. destruct Hpend as [Hne _]. by apply (filter_zero _ _ p).
Qed.

Section Waiting.
Context (effect : machine -> nvme_cmd -> Z -> mem -> Prop) (tick : nat -> machine -> machine) (csts : nat -> Z).
Context (tick_dev : forall t m G, queues_ok m G -> rtc (dev_move effect) m (tick t m)).

(** A property of the machine that the controller and the processing of
    completions keep. *)
Context (Q : machine -> Prop).
Context (Q_dev : forall m ev m' G, queues_ok m G -> Q m -> dev_step effect m ev m' -> Q m').
Context (Q_process : forall m G q r m', queues_ok m G -> Q m -> Z.of_nat q <= st_num_iosq (m_st m) ->
  nvme_process_cqe m (Z.of_nat q) = Ok (r, m') -> Q m').
Context (Q_time : forall m t, Q m -> Q (set_time t m)).

Lemma Q_moves m m' G : queues_ok m G -> Q m -> rtc (dev_move effect) m m' -> Q m'.
Proof.
  intros Hok HQ Hs. induction Hs as [m | m m1 m' [ev Hs] _ IH] in G, Hok, HQ |- *; [done |].
  destruct (dev_step_ok _ _ _ _ _ Hok Hs) as (G1 & Hok1 & _). apply (IH G1 Hok1). by apply (Q_dev m ev m1 G).
Qed.

Lemma moves_time m m' : rtc (dev_move effect) m m' -> m_time m' = m_time m.
Proof. induction 1 as [| m m1 m' [ev Hs] _ IH]; [done |]. rewrite IH. by inversion Hs. Qed.

Lemma elapse_ok m G : queues_ok m G -> Q m ->
  exists G', queues_ok (elapse tick m) G' /\ Q (elapse tick m) /\ grows G G' /\ same_driver m (elapse tick m) /\ m_time (elapse tick m) = S (m_time m).
Proof.
  intros Hok HQ. pose proof (tick_dev (m_time m) m G Hok) as Ht. destruct (dev_moves_ok _ _ _ _ Hok Ht) as (G' & Hok' & Hg & Hd).
  exists G'. split; [by destruct Hok' |]. split; [apply (Q_time _ (S (m_time (tick (m_time m) m)))); exact (Q_moves m _ G Hok HQ Ht) |]. split; [done |].
  split; [by destruct Hd |]. cbn. f_equal. by apply moves_time.
Qed.

Lemma same_driver_progress m m' : same_driver m m' -> (m_time m <= m_time m')%nat -> progress m m'.
Proof. intros [(H1 & H2 & H3 & _) _] Ht. constructor; [done | by rewrite H1 | done |]. intros q sq cid p. rewrite H1. intros. by exists sq. Qed.

(** ** The request that is waited for *)
Context (p : Z).

Definition waits (m : machine) (q : nat) : Prop := exists sq cid, st_sq (m_st m) !! q = Some sq /\ pending sq cid p.

(** It is pending, or it has a final status. *)
Definition tracked (m : machine) : Prop :=
  exists r, m_reqs m !! p = Some r /\ ((exists q, Z.of_nat q <= st_num_iosq (m_st m) /\ waits m q) \/ req_status r <> NVME_SUBMITTED).

Lemma tracked_same m m' : same_driver m m' -> tracked m -> tracked m'.
Proof.
  intros [(H1 & H2 & H3 & _) (H4 & _)] (r & Hr & Ht). exists r. rewrite H4, H2. split; [done |]. unfold waits. by rewrite H1.
Qed.

Lemma odd_status e : Z.lor (ce_status e) 1 <> NVME_SUBMITTED.
Proof.
  intros E. assert (Z.testbit (Z.lor (ce_status e) 1) 0 = true) as H by (rewrite Z.lor_spec; cbn; apply orb_true_r). by rewrite E in H.
Qed.

Lemma tracked_finish m G q sq cq dq e posted0 cmds p' : queues_ok m G -> has_pair m q sq cq dq -> pair_inv m q (G q) sq cq dq ->
  g_posted (G q) = e :: posted0 -> sq_cmd sq = Some cmds -> pending sq (ce_cid e) p' -> tracked m -> tracked (finish m q sq cq e cmds p').
Proof.
  intros Hok Hpair (_ & _ & Hcid) Hp Hcmds Hpend (r & Hr & Ht). pose proof Hpair as (Hq & L1 & L2 & L3).
  destruct (pending_range _ _ _ _ _ _ _ _ Hcid Hcmds Hpend) as [Hcr Hcl]. destruct (di_cmds _ _ _ _ _ Hcid) as (c & Hc & Hcl' & Hcm). simplify_eq.
  destruct (decide (p' = p)) as [-> | Hne].
  - eexists. split; [apply lookup_insert_eq |]. right. apply odd_status.
  - exists r. split; [cbn; by rewrite lookup_insert_ne |]. destruct Ht as [(i & Hi & s & cid & Hs & Hpc) | Ht]; [left | by right].
    exists i. split; [done |]. destruct (decide (i = q)) as [-> | Hni].
    + simplify_eq. eexists _, cid. split; [cbn; apply list_lookup_insert_eq; by eapply lookup_lt_Some |].
      rewrite pending_release by (done || lia). split; [done |]. intros ->. destruct (pending_range _ _ _ _ _ _ _ _ Hcid Hcmds Hpc) as [_ ?]. congruence.
    + exists s, cid. split; [| done]. cbn. by rewrite list_lookup_insert_ne.
Qed.

(** [T]: from this time on the controller completes the command, when the
    completions before it have been read. *)
Context (T : nat).
Context (deadline : forall t m G q sq cq dq, (T <= t)%nat -> queues_ok m G -> has_pair m q sq cq dq -> waits m q -> unread cq = [] ->
  answered (tick t m) q p).

Lemma deadline_met m G G1 q : queues_ok m G -> queues_ok (elapse tick m) G1 -> grows G G1 -> same_driver m (elapse tick m) ->
  Z.of_nat q <= st_num_iosq (m_st m) -> (T <= m_time m)%nat -> g_posted (G1 q) = [] -> ~ waits (elapse tick m) q.
Proof.
  intros Hok Hok1 Hg [(H1 & H2 & _) _] Hq HT Hp (s & cid & Hs & Hpend). rewrite H1 in Hs.
  destruct (qo_pair _ _ Hok q Hq) as (sq & cq & dq & Hpair & _ & Hcq & _).
  destruct (qo_pair _ _ Hok1 q) as (sq1 & cq1 & dq1 & (_ & _ & L2 & _) & _ & Hcq1 & _); [by rewrite H2 |].
  destruct (deadline (m_time m) m G q sq cq dq HT Hok Hpair) as (sq' & cq' & e & _ & L2' & Hin & _).
  - by exists s, cid.
  - rewrite (unread_posted _ _ _ _ _ _ Hcq). specialize (Hg q). rewrite Hp in Hg. by apply prefix_nil_inv in Hg.
  - change (st_cq (m_st (elapse tick m))) with (st_cq (m_st (tick (m_time m) m))) in L2. simplify_eq.
    rewrite (unread_posted _ _ _ _ _ _ Hcq1), Hp in Hin. by apply not_elem_of_nil in Hin.
Qed.

Lemma drain_cq_ok fuel m G q : queues_ok m G -> Q m -> tracked m -> Z.of_nat q <= st_num_iosq (m_st m) -> (in_use m q < fuel)%nat ->
  exists m' G', drain_cq tick fuel m (Z.of_nat q) = Ok (true, m') /\ queues_ok m' G' /\ Q m' /\ tracked m' /\ progress m m' /\ (m_time m < m_time m')%nat /\
    ((T <= m_time m)%nat -> ~ waits m' q).
Proof.
  induction fuel as [| fuel IH] in m, G |- *; intros Hok HQ Htr Hq Hfuel; [lia |]. cbn [drain_cq].
  destruct (elapse_ok m G Hok HQ) as (G1 & Hok1 & HQ1 & Hg1 & Hsame & Htime).
  pose proof (deadline_met m G G1 q Hok Hok1 Hg1 Hsame Hq) as Hdead. set (m1 := elapse tick m) in *.
  assert (st_num_iosq (m_st m1) = st_num_iosq (m_st m)) as Hn1 by (destruct Hsame as [(_ & ? & _) _]; done).
  assert (in_use m1 q = in_use m q) as Hu1 by (unfold in_use; destruct Hsame as [(-> & _) _]; done).
  pose proof (same_driver_progress m m1 Hsame ltac:(lia)) as Hpg. pose proof (tracked_same m m1 Hsame Htr) as Htr1.
  destruct (qo_pair _ _ Hok1 q) as (sq & cq & dq & Hpair & Hinv); [lia |].
  destruct (g_posted (G1 q)) as [| e posted0] eqn:Hpost.
  - rewrite (process_idle m1 G1 q Hok1) by (done || lia). cbn [mbind res_bind]. change (IOST_TRANSIENT =? IOST_TRANSIENT) with true. cbn match.
    exists m1, G1. split_and!; try done; [lia |]. intros HT. by apply Hdead.
  - destruct (process_result m1 G1 q sq cq dq e posted0 Hok1 Hpair Hinv Hpost) as (cmds & p1 & Hcmds & Hpend & Hres).
    assert (Q (finish m1 q sq cq e cmds p1)) as HQ2 by (apply (Q_process m1 G1 q IOST_OK); try done; lia).
    rewrite Hres. cbn [mbind res_bind]. change (IOST_OK =? IOST_TRANSIENT) with false. change (IOST_OK =? IOST_OK) with true. cbn match.
    destruct (finish_progress m1 G1 q sq cq dq e posted0 cmds p1 Hok1 Hpair Hinv Hpost Hcmds Hpend) as [Hpg2 Huse].
    destruct (IH (finish m1 q sq cq e cmds p1) (upd G1 q (pop_ghost (G1 q)))) as (m' & G' & Hd & Hok' & HQ' & Htr' & Hpg' & Ht' & Hw').
    + by eapply process_keeps.
    + done.
    + by eapply tracked_finish.
    + change (st_num_iosq _) with (st_num_iosq (m_st m1)). lia.
    + lia.
    + exists m', G'. change (m_time (finish m1 q sq cq e cmds p1)) with (m_time m1) in *.
      split_and!; try done; [by do 2 (etrans; [done |]) | lia |]. intros HT. apply Hw'. lia.
Qed.

Lemma drain_fuel_progress m m' : progress m m' -> drain_fuel m' = drain_fuel m.
Proof.
  intros [_ Hc _ _]. unfold drain_fuel. f_equal. revert Hc. generalize (st_sq (m_st m)). generalize (st_sq (m_st m')).
  induction l as [| s l IH]; intros [| s' l'] H; try done. cbn in H |- *. injection H as Hs Hl. by rewrite Hs, (IH l' Hl).
Qed.

Lemma drain_fuel_enough m G q : queues_ok m G -> Z.of_nat q <= st_num_iosq (m_st m) -> (in_use m q < drain_fuel m)%nat.
Proof.
  intros Hok Hq. destruct (qo_pair _ _ Hok q Hq) as (sq & cq & dq & (_ & L1 & _) & _ & _ & [_ (cmds & Hc & Hl & Hm) _ _]).
  unfold in_use, drain_fuel. rewrite L1. cbn. rewrite Hc. pose proof (length_filter (fun c => c <> 0) cmds) as Hf.
  assert (length cmds <= foldr (fun sq n => (Z.to_nat (sq_max_cid sq) + 1 + n)%nat) 0%nat (st_sq (m_st m)))%nat; [| lia].
  assert (length cmds = Z.to_nat (sq_max_cid sq) + 1)%nat as -> by lia. clear - L1. revert q L1. induction (st_sq (m_st m)) as [| s l IH]; intros q L1; [done |].
  destruct q as [| q]; cbn in L1 |- *; [simplify_eq; lia |]. specialize (IH q L1). lia.
Qed.

Lemma waits_progress m m' q : progress m m' -> waits m' q -> waits m q.
Proof. intros [_ _ _ H] (sq & cid & Hs & Hp). destruct (H _ _ _ _ Hs Hp) as (sq0 & ? & ?). by exists sq0, cid. Qed.

(** A queue without a submission queue is looked at once. *)
Lemma drain_spare m G q : queues_ok m G -> Q m -> tracked m -> st_num_iosq (m_st m) < Z.of_nat q <= st_num_iocq (m_st m) ->
  exists m' G', drain_cq tick (drain_fuel m) m (Z.of_nat q) = Ok (true, m') /\ queues_ok m' G' /\ Q m' /\ tracked m' /\ progress m m' /\ (m_time m < m_time m')%nat.
Proof.
  intros Hok HQ Htr Hq. unfold drain_fuel. cbn [drain_cq]. destruct (elapse_ok m G Hok HQ) as (G1 & Hok1 & HQ1 & Hg1 & Hsame & Htime).
  pose proof Hsame as [(_ & S1 & S2 & _) _]. rewrite (process_spare _ _ (qo_spare _ _ Hok1 q ltac:(lia))). cbn [mbind res_bind].
  change (IOST_TRANSIENT =? IOST_TRANSIENT) with true. cbn match. exists (elapse tick m), G1.
  split_and!; try done; [by eapply tracked_same | apply same_driver_progress; [done | lia] | lia].
Qed.

Lemma drain_cqs_ok m G n a : queues_ok m G -> Q m -> tracked m -> Z.of_nat (a + n) <= st_num_iocq (m_st m) + 1 ->
  exists m' G', drain_cqs tick m (seqZ (Z.of_nat a) (Z.of_nat n)) = Ok (true, m') /\ queues_ok m' G' /\ Q m' /\ tracked m' /\ progress m m' /\
    ((T <= m_time m)%nat -> forall q, (a <= q < a + n)%nat -> Z.of_nat q <= st_num_iosq (m_st m) -> ~ waits m' q).
Proof.
  induction n as [| n IH] in m, G, a |- *; intros Hok HQ Htr Hn.
  { exists m, G. split_and!; try done. intros _ q Hq. lia. }
  rewrite seqZ_cons by lia. cbn [drain_cqs].
  assert (exists m1 G1, drain_cq tick (drain_fuel m) m (Z.of_nat a) = Ok (true, m1) /\ queues_ok m1 G1 /\ Q m1 /\ tracked m1 /\ progress m m1 /\
    (m_time m < m_time m1)%nat /\ ((T <= m_time m)%nat -> Z.of_nat a <= st_num_iosq (m_st m) -> ~ waits m1 a)) as (m1 & G1 & -> & Hok1 & HQ1 & Htr1 & Hpg1 & Ht1 & Hw1).
  { destruct (Z.le_gt_cases (Z.of_nat a) (st_num_iosq (m_st m))) as [Hle | Hgt].
    - destruct (drain_cq_ok (drain_fuel m) m G a) as (m1 & G1 & H); try done; [by eapply drain_fuel_enough |]. exists m1, G1. tauto.
    - destruct (drain_spare m G a) as (m1 & G1 & H); try done; [lia |]. exists m1, G1. split_and!; try apply H. lia. }
  cbn [mbind res_bind]. replace (Z.succ (Z.of_nat a)) with (Z.of_nat (S a)) by lia. replace (Z.pred (Z.of_nat (S n))) with (Z.of_nat n) by lia.
  destruct (pg_num _ _ Hpg1) as [N1 N2].
  destruct (IH m1 G1 (S a)) as (m2 & G2 & -> & Hok2 & HQ2 & Htr2 & Hpg2 & Hw2); try done; [lia |].
  exists m2, G2. split_and!; try done; [by etrans |]. intros HT q Hq Hqn. destruct (decide (q = a)) as [-> | Hne].
  - intros Hw. apply (Hw1 HT Hqn). by eapply waits_progress.
  - apply Hw2; lia.
Qed.

(** The request was finished, and [r] is what [nvme_wait_req] makes of it. *)
Definition wait_done (m : machine) (r : Z) : Prop :=
  (forall q, Z.of_nat q <= st_num_iosq (m_st m) -> ~ waits m q) /\
  exists rq, m_reqs m !! p = Some rq /\ req_status rq <> NVME_SUBMITTED /\ r = if flag (req_status rq) 0xfffe then IOST_LOCAL else IOST_OK.

Lemma waits_submitted m G q : queues_ok m G -> Z.of_nat q <= st_num_iosq (m_st m) -> waits m q -> req_status <$> m_reqs m !! p = Some NVME_SUBMITTED.
Proof.
  intros Hok Hq (s & cid & Hs & Hp). destruct (qo_pair _ _ Hok q Hq) as (sq & cq & dq & (_ & L1 & _) & _ & _ & Hcid). simplify_eq.
  by apply (di_reqs _ _ _ _ _ Hcid cid).
Qed.

Lemma wait_loop_ok fuel m G : queues_ok m G -> Q m -> tracked m -> (T < m_time m + fuel)%nat -> (0 < fuel)%nat ->
  exists m' G' r, wait_loop tick csts fuel m p = Ok (r, m') /\ queues_ok m' G' /\ Q m' /\ progress m m' /\
    (wait_done m' r \/ r = IOST_GLOBAL /\ exists t, flag (csts t) NVME_CSTS_CFS = true).
Proof.
  induction fuel as [| fuel IH] in m, G |- *; intros Hok HQ Htr Hfuel Hpos; [lia |]. cbn [wait_loop].
  pose proof (qo_num _ _ Hok) as Hnum. unfold range.
  replace (seqZ 0 (st_num_iocq (m_st m) + 1 - 0)) with (seqZ (Z.of_nat 0) (Z.of_nat (Z.to_nat (st_num_iocq (m_st m) + 1)))) by (f_equal; lia).
  destruct (drain_cqs_ok m G (Z.to_nat (st_num_iocq (m_st m) + 1)) 0) as (m1 & G1 & -> & Hok1 & HQ1 & Htr1 & Hpg1 & Hw1); try done; [lia |].
  cbn [mbind res_bind negb]. destruct Htr1 as (rq & Hrq & Ht). unfold deref. rewrite Hrq. cbn [mbind res_bind].
  pose proof (proj1 (pg_num _ _ Hpg1)) as Hn1. destruct (Z.eqb_spec (req_status rq) NVME_SUBMITTED) as [E | E]; cbn [negb].
  - destruct Ht as [(q & Hq & Hw) | Ht]; [| done].
    assert (m_time m < T)%nat as HT. { destruct (Nat.lt_ge_cases (m_time m) T) as [| HT]; [done |]. destruct (Hw1 HT q ltac:(lia) ltac:(lia) Hw). }
    destruct (elapse_ok m1 G1 Hok1 HQ1) as (G2 & Hok2 & HQ2 & _ & Hsame & Htime).
    assert (tracked m1) as Htr1. { exists rq. split; [done |]. left. by exists q. }
    pose proof (pg_time _ _ Hpg1). pose proof (same_driver_progress m1 _ Hsame ltac:(lia)) as Hpg2.
    destruct (flag (csts _) NVME_CSTS_CFS) eqn:Hcfs.
    + eexists _, G2, _. split; [done |]. split; [done |]. split; [done |]. split; [by etrans |]. right. split; [done |]. by eexists.
    + destruct (IH (elapse tick m1) G2) as (m' & G' & r & Hr & Hok' & HQ' & Hpg' & Hres); try done; [by eapply tracked_same | lia | lia |].
      exists m', G', r. split_and!; try done. by do 2 (etrans; [done |]).
  - eexists m1, G1, _. split; [done |]. split; [done |]. split; [done |]. split; [done |]. left. split; [| by exists rq].
    intros q Hq Hw. pose proof (waits_submitted _ _ _ Hok1 Hq Hw) as Hs. rewrite Hrq in Hs. by injection Hs.
Qed.
End Waiting.
