(* ===== verification/NvmeDev.v ===== *)
(** * A controller that runs

    The steps of a controller are a relation ([dev_step]).  Here is a function
    that takes such steps: it fetches all commands of the queue that holds a
    given request, executes the command of the request and posts its
    completion.  It meets every hypothesis that the theorems on waiting and on
    the NVMe block device make about controllers. *)
From S2P Require Export NvmeWait.
From stdpp Require Import base list list_numbers gmap zmap.

Open Scope Z_scope.

Section Controller.
(** [exec m c]: the status code of the command [c], and the memory. *)
Context (effect : machine -> nvme_cmd -> Z -> mem -> Prop) (exec : machine -> nvme_cmd -> Z * mem).

Fixpoint fetch_all (n : nat) (q : nat) (m : machine) : machine :=
  match n with
  | O => m
  | S n =>
      match st_sq (m_st m) !! q, m_dev m !! q with
      | Some sq, Some dq =>
          match sq_buf sq !! Z.to_nat (d_head dq) with
          | Some c => if d_head dq =? reg m (sq_doorbell sq) then m else
              fetch_all n q (set_dev (<[q := fetched sq dq c]> (m_dev m)) m)
          | None => m
          end
      | _, _ => m
      end
  end.

Definition post_cmd (q : nat) (cid : Z) (m : machine) : machine :=
  match st_cq (m_st m) !! q, m_dev m !! q with
  | Some cq, Some dq =>
      match list_find (fun c => c_cid c = cid) (d_work dq) with
      | Some (i, c) =>
          if advance (cq_size cq) (d_tail dq) =? reg m (cq_doorbell cq) then m else
          set_mem (exec m c).2
            (set_st (set_cqs (<[q := cq_set_buf (<[Z.to_nat (d_tail dq) := completion q dq c 0 0 (exec m c).1]> (cq_buf cq)) cq]>
                (st_cq (m_st m))) (m_st m))
              (set_dev (<[q := posted cq dq (take i (d_work dq) ++ drop (S i) (d_work dq))]> (m_dev m)) m))
      | None => m
      end
  | _, _ => m
  end.

Fixpoint find_req (m : machine) (p : Z) (qs : list nat) : option (nat * Z) :=
  match qs with
  | [] => None
  | q :: qs =>
      match st_sq (m_st m) !! q ≫= sq_cmd with
      | Some cmds => match list_find (fun c => c = p) cmds with Some (i, _) => Some (q, Z.of_nat i) | None => find_req m p qs end
      | None => find_req m p qs
      end
  end.

Definition serve (p : Z) (m : machine) : machine :=
  match find_req m p (seq 0 (Z.to_nat (st_num_iosq (m_st m) + 1))) with
  | Some (q, cid) =>
      match st_sq (m_st m) !! q with
      | Some sq => post_cmd q cid (fetch_all (Z.to_nat (sq_size sq)) q m)
      | None => m
      end
  | None => m
  end.

Lemma fetch_all_ok n q m G : queues_ok m G -> Z.of_nat q <= st_num_iosq (m_st m) ->
  rtc (dev_move effect) m (fetch_all n q m) /\
  exists G', queues_ok (fetch_all n q m) G' /\ same_driver m (fetch_all n q m) /\ m_mem (fetch_all n q m) = m_mem m /\
    g_posted (G' q) = g_posted (G q) /\ length (g_unf (G' q)) = (length (g_unf (G q)) - n)%nat.
Proof.
  induction n as [| n IH] in m, G |- *; intros Hok Hq; cbn [fetch_all].
  { split; [done |]. exists G. split_and!; try done. lia. }
  destruct (qo_pair _ _ Hok q Hq) as (sq & cq & dq & Hpair & Hinv). pose proof Hpair as (_ & L1 & L2 & L3). rewrite L1, L3.
  pose proof Hinv as (Hsq & _ & _). pose proof (head_range _ _ _ _ Hsq) as Hhr. pose proof (si_size _ _ _ _ Hsq).
  destruct (lookup_lt_is_Some_2 (sq_buf sq) (Z.to_nat (d_head dq))) as [c Hc]; [lia |]. rewrite Hc.
  destruct (Z.eqb_spec (d_head dq) (reg m (sq_doorbell sq))) as [E | E].
  - split; [done |]. exists G. split_and!; try done.
    assert (g_unf (G q) = []) as ->; [| done]. destruct (si_tail _ _ _ _ Hsq) as [Ht Ht']. destruct (si_head _ _ _ _ Hsq) as (_ & Hk & Hkl).
    rewrite Ht' in E. rewrite Ht in E. destruct (g_unf (G q)) as [| c' l] eqn:Hu; [done |]. exfalso. cbn [length] in *.
    apply (mod_far (d_head dq) 0 (Z.of_nat (S (length l))) (sq_size sq + 1)); [lia | lia |]. rewrite <- E, Z.add_0_r, Z.mod_small by lia. done.
  - pose proof (fetch_unf _ _ _ _ _ Hsq E Hc) as Hu. set (m1 := set_dev _ m).
    pose proof (fetch_keeps m G q sq cq dq c Hok Hpair Hinv Hu) as Hok1. fold m1 in Hok1.
    destruct (IH m1 _ Hok1 Hq) as (Hr & G' & Hok' & Hsame & Hmem & Hp & Hl). split.
    + eapply rtc_l; [| done]. exists Silent. by apply (dev_fetch _ _ q sq dq c).
    + exists G'. unfold upd in Hp, Hl. rewrite decide_True in Hp, Hl by done. split; [done |]. split; [by destruct Hsame |].
      split; [done |]. split; [done |]. rewrite Hl, Hu. cbn. lia.
Qed.

Context (exec_ok : forall m c, 0 <= (exec m c).1 < 2 ^ 15 /\ effect m c (exec m c).1 (exec m c).2).

Lemma post_cmd_move q cid m : Z.of_nat q <= st_num_iosq (m_st m) -> rtc (dev_move effect) m (post_cmd q cid m).
Proof.
  intros Hq. unfold post_cmd. destruct (st_cq (m_st m) !! q) as [cq |] eqn:L2; [| done]. destruct (m_dev m !! q) as [dq |] eqn:L3; [| done].
  destruct (list_find _ _) as [[i c] |] eqn:Hf; [| done]. apply list_find_Some in Hf as (Hi & Hc & _).
  destruct (Z.eqb_spec (advance (cq_size cq) (d_tail dq)) (reg m (cq_doorbell cq))) as [E | E]; [done |].
  destruct (exec_ok m c) as [He1 He2]. apply rtc_once. eexists.
  apply (dev_post _ _ q cq dq (take i (d_work dq)) c (drop (S i) (d_work dq)) 0 0 (exec m c).1 (exec m c).2); try done.
  by rewrite take_drop_middle.
Qed.

Lemma find_req_some m p qs q cid : find_req m p qs = Some (q, cid) -> p <> 0 ->
  q ∈ qs /\ exists sq, st_sq (m_st m) !! q = Some sq /\ pending sq cid p.
Proof.
  intros H Hp. induction qs as [| i qs IH]; [done |]. cbn [find_req] in H.
  assert (find_req m p qs = Some (q, cid) -> q ∈ i :: qs /\ exists sq, st_sq (m_st m) !! q = Some sq /\ pending sq cid p) as Hrec.
  { intros Hf. destruct (IH Hf) as [Hin Hs]. split; [by apply list_elem_of_further | done]. }
  destruct (st_sq (m_st m) !! i) as [sq |] eqn:L1; cbn in H; [| auto]. destruct (sq_cmd sq) as [cmds |] eqn:Hc; [| auto].
  destruct (list_find _ _) as [[k c] |] eqn:Hf; [| auto]. injection H as -> <-. apply list_find_Some in Hf as (Hk & -> & _).
  split; [apply list_elem_of_here |]. exists sq. split; [done |]. split; [done |]. split; [lia |]. exists cmds. split; [done |]. by rewrite Nat2Z.id.
Qed.

Lemma find_req_found m p qs q sq cid : q ∈ qs -> st_sq (m_st m) !! q = Some sq -> pending sq cid p -> is_Some (find_req m p qs).
Proof.
  intros Hin Hs (Hp & H0 & cmds & Hc & Hl). induction qs as [| i qs IH]; [by apply not_elem_of_nil in Hin |]. cbn [find_req].
  apply elem_of_cons in Hin as [-> | Hin].
  - rewrite Hs. cbn. rewrite Hc. destruct (list_find _ _) as [[k c] |] eqn:Hf; [by eexists |]. apply list_find_None in Hf.
    eapply Forall_lookup_1 in Hf; [| done]. done.
  - destruct (st_sq (m_st m) !! i ≫= sq_cmd) as [cmds' |]; [| auto]. destruct (list_find _ _) as [[k c] |]; [by eexists | auto].
Qed.

Lemma serve_dev p m G : p <> 0 -> queues_ok m G -> rtc (dev_move effect) m (serve p m).
Proof.
  intros Hp Hok. unfold serve. destruct (find_req _ _ _) as [[q cid] |] eqn:Hf; [| done].
  destruct (find_req_some _ _ _ _ _ Hf Hp) as (Hin & sq & Hs & Hpend). apply elem_of_seq in Hin. rewrite Hs.
  destruct (fetch_all_ok (Z.to_nat (sq_size sq)) q m G Hok) as (Hr & G' & _ & [(_ & Hn & _) _] & _); [lia |].
  etrans; [done |]. apply post_cmd_move. rewrite Hn. lia.
Qed.

(** The completion is posted when the ones before it have been read. *)
Lemma serve_answers p m G q sq cq dq : p <> 0 -> queues_ok m G -> has_pair m q sq cq dq -> waits p m q -> unread cq = [] ->
  answered (serve p m) q p.
Proof.
  intros Hp Hok Hpair (s & cid & Hs & Hpend) Hun. pose proof Hpair as (Hq & L1 & L2 & L3).
  assert (s = sq) as -> by congruence. unfold serve.
  destruct (find_req_found m p (seq 0 (Z.to_nat (st_num_iosq (m_st m) + 1))) q sq cid) as [[q' cid'] Hf]; [apply elem_of_seq; lia | done | done |].
  rewrite Hf. destruct (find_req_some _ _ _ _ _ Hf Hp) as (Hin & sq' & Hs' & Hpend'). apply elem_of_seq in Hin.
  assert (q' = q /\ cid' = cid) as [-> ->].
  { destruct (qo_pair _ _ Hok q') as (s2 & c2 & d2 & Hpair2 & _); [lia |]. pose proof Hpair2 as (_ & Hs2 & _).
    assert (s2 = sq') as -> by congruence.
    by apply (qo_req _ _ Hok _ _ _ _ _ _ _ _ _ _ p Hpair2 Hpair). }
  rewrite L1. destruct (qo_pair _ _ Hok q Hq) as (s3 & c3 & d3 & Hpair3 & Hsq & Hcq & _). destruct (has_pair_fun _ _ _ _ _ _ _ _ Hpair Hpair3) as (<- & <- & <-).
  destruct (fetch_all_ok (Z.to_nat (sq_size sq)) q m G Hok Hq) as (_ & G' & Hok' & [(S1 & S2 & _) _] & _ & Hp' & Hl').
  rewrite (unread_posted _ _ _ _ _ _ Hcq) in Hun. rewrite Hun in Hp'. set (m1 := fetch_all _ q m) in *.
  assert (g_unf (G' q) = []) as Hu. { apply length_zero_iff_nil. destruct (si_head _ _ _ _ Hsq) as (_ & ? & ?). lia. }
  destruct (qo_pair _ _ Hok' q) as (sq1 & cq1 & dq1 & Hpair1 & Hinv1); [lia |]. pose proof Hpair1 as (_ & M1 & M2 & M3). rewrite S1, L1 in M1. injection M1 as <-.
  pose proof Hinv1 as (_ & Hcq1 & Hcid1). assert (cid ∈ live (G' q) dq1) as Hlive by (apply (di_live _ _ _ _ _ Hcid1); by exists p).
  unfold live in Hlive. rewrite Hu, Hp' in Hlive. cbn in Hlive. rewrite app_nil_r in Hlive. apply list_elem_of_fmap in Hlive as (c & -> & Hc).
  unfold post_cmd. rewrite M2, M3. destruct (list_find _ _) as [[i c'] |] eqn:Hfind.
  2: { apply list_find_None in Hfind. rewrite Forall_forall in Hfind. by apply Hfind in Hc. }
  apply list_find_Some in Hfind as (Hi & Hcc & _). pose proof (take_drop_middle _ _ _ Hi) as Hw.
  assert ((advance (cq_size cq1) (d_tail dq1) =? reg m1 (cq_doorbell cq1)) = false) as ->.
  { apply Z.eqb_neq. pose proof Hcq1 as [C1 [C2 _] [_ ->] _ _ _ _]. rewrite Hp' in C2. cbn [length Z.of_nat] in C2.
    rewrite Z.add_0_r, Z.mod_small in C2 by lia. rewrite C2. unfold advance. destruct (Z.eqb_spec (cq_pos cq1) (cq_size cq1)); lia. }
  destruct (exec_ok m1 c') as [He1 _]. set (e := completion q dq1 c' 0 0 (exec m1 c').1).
  pose proof (post_keeps m1 G' q sq cq1 dq1 _ c' _ 0 0 (exec m1 c').1 (exec m1 c').2 Hok' Hpair1 Hinv1 (eq_sym Hw)) as Hok2.
  rewrite Hp' in Hok2. specialize (Hok2 ltac:(destruct Hcq1 as [? _ _ _ _ _ _]; cbn; lia) He1). fold e in Hok2. set (m2 := set_mem _ _) in *.
  destruct (qo_pair _ _ Hok2 q) as (s4 & c4 & d4 & (_ & N1 & N2 & N3) & _ & Hcq4 & _); [change (st_num_iosq (m_st m2)) with (st_num_iosq (m_st m1)); lia |].
  exists sq, c4, e. split; [change (st_sq (m_st m2)) with (st_sq (m_st m1)); by rewrite S1 |]. split; [done |].
  rewrite (unread_posted _ _ _ _ _ _ Hcq4). unfold upd. rewrite decide_True by done. cbn. rewrite Hp'. split; [apply list_elem_of_here |].
  cbn. by rewrite Hcc.
Qed.
End Controller.

(** Waiting for a request ends when the controller completes it.  Let the
    controller take any steps it may, such that from some time [T] on, whenever
    the driver has read all completions of the queue of the request, it posts
    its completion, and let it not report a fatal error.  Then [nvme_wait_req]
    returns after at most [T] rounds, the request is no longer pending, and the
    result tells whether the controller reported success. *)
Theorem nvme_wait_completes effect tick csts m G p q T fuel :
  queues_ok m G -> Z.of_nat q <= st_num_iosq (m_st m) -> waits p m q ->
  (forall t m G, queues_ok m G -> rtc (dev_move effect) m (tick t m)) ->
  (forall t m G q sq cq dq, (T <= t)%nat -> queues_ok m G -> has_pair m q sq cq dq -> waits p m q -> unread cq = [] -> answered (tick t m) q p) ->
  (forall t, flag (csts t) NVME_CSTS_CFS = false) -> (T < m_time m + fuel)%nat -> (0 < fuel)%nat ->
  exists m' G' r, nvme_wait_req tick csts fuel m p = Ok (r, m') /\ queues_ok m' G' /\ wait_done p m' r.
Proof.
  intros Hok Hq Hw Htick Hdead Hcfs Hfuel Hpos. pose proof (waits_submitted p m G q Hok Hq Hw) as Hs.
  destruct (wait_loop_ok effect tick csts Htick (fun _ => True) ltac:(done) ltac:(done) ltac:(done) p T Hdead fuel m G) as (m' & G' & r & Hr & Hok' & _ & _ & Hres);
    try done.
  - destruct (m_reqs m !! p) as [rq |] eqn:Hrq; [| done]. exists rq. split; [done |]. left. by exists q.
  - exists m', G', r. split; [done |]. split; [done |]. destruct Hres as [| [_ [t Ht]]]; [done |]. by rewrite Hcfs in Ht.
Qed.

Definition demo_exec (m : machine) (c : nvme_cmd) : Z * mem := (if c_opc c =? 0 then 0 else 1, m_mem m).

Lemma nvme_wait_completes_witness :
  exists m, nvme_submit_single_command demo_machine 0 100 = Ok (true, m) /\
    exists m' G' r, nvme_wait_req (fun _ => serve demo_exec 100) (fun _ => 1) 1 m 100 = Ok (r, m') /\ queues_ok m' G' /\ wait_done 100 m' r.
Proof.
  eexists. split; [vm_compute; reflexivity |]. set (m := Mach _ _ _ _ _ _ _).
  destruct demo_quiet as (G & Hok & Hq0).
  assert (exists G', queues_ok m G') as [G' Hok'].
  { destruct (step_ok (fun _ _ _ _ => True) demo_machine Silent m G (fun _ => []) Hok) as (G' & _ & Hok' & _).
    - intros q _. rewrite Hq0. constructor.
    - eapply (step_submit _ _ 0 100); [cbn; lia | lia | | by eexists | vm_compute; reflexivity].
      intros q sq cq dq cid (_ & -> & _)%has_pair_demo. apply pending_demo.
    - by exists G'. }
  apply (nvme_wait_completes (fun _ _ _ _ => True) (fun _ => serve demo_exec 100) (fun _ => 1) m G' 100 0 0 1).
  - done.
  - cbn. lia.
  - eexists _, 0. split; [reflexivity |]. split; [lia |]. split; [lia |]. eexists. split; reflexivity.
  - intros t m1 G1 H1. apply (serve_dev (fun _ _ _ _ => True) demo_exec) with (G := G1); [| lia | done].
    intros m2 c. unfold demo_exec. destruct (c_opc c =? 0); cbn; lia.
  - intros t m1 G1 q sq cq dq _ H1 H2 H3 H4. apply (serve_answers (fun _ _ _ _ => True) demo_exec) with (G := G1) (sq := sq) (cq := cq) (dq := dq); try done.
    intros m2 c. unfold demo_exec. destruct (c_opc c =? 0); cbn; lia.
  - reflexivity.
  - cbn. lia.
  - lia.
Defined.
