(* ===== verification/NvmeBlk.v ===== *)
(** * NVMe as a block device ([src/dramstage/blk_nvme.c])

    [pump] of the NVMe driver puts everything together: it builds the PRP list
    of a request, submits the command, polls for its completion and hands the
    buffer out.  With a controller that reads blocks to the addresses that a
    command denotes, the driver is a block device in the sense of [Gpt], so
    that the payload is found on an NVMe drive. *)
From S2P Require Export NvmeDev.
From stdpp Require Import base list list_numbers gmap zmap.

Open Scope Z_scope.

Section Blk.
Context (disk : Z -> Z) (nsid lba_shift : Z) (x0 : nvme_xfer).
Abbreviation p := (xf_req x0).
Abbreviation bs := (2 ^ lba_shift).

(** The bytes at the addresses [data] are those of the disk from block [lba]
    on. *)
Definition data_ok (mm : mem) (data : list Z) (lba : Z) : Prop :=
  forall i x, data !! i = Some x -> mm !! x = Some (disk (lba * bs + Z.of_nat i)).

(** What a controller does to the memory: a read command writes to the
    addresses that it denotes, and when it succeeds, what it writes is on the
    disk. *)
Definition read_effect (m : machine) (c : nvme_cmd) (code : Z) (mm : mem) : Prop :=
  forall lba data, reads (m_words m) lba_shift c nsid lba data ->
    (forall x, x ∉ data -> mm !! x = m_mem m !! x) /\ (code = 0 -> data_ok mm data lba).

(** ** A request under way

    The request [p] is the only one.  [M0] is the memory before. *)
Record flight_at (lba : Z) (data : list Z) (M0 : mem) (m : machine) (G : nat -> ghost) : Prop := {
  fa_st : st_num_iosq (m_st m) = 1 /\ st_lba_shift (m_st m) = lba_shift;
  fa_only q sq cid p' : Z.of_nat q <= 1 -> st_sq (m_st m) !! q = Some sq -> pending sq cid p' -> p' = p /\ q = 1%nat;
  fa_words : xfer_static x0 (m_words m);
  fa_req : is_Some (m_reqs m !! p);
  fa_out x : x ∉ data -> m_mem m !! x = M0 !! x;
  fa_cmd dq c : m_dev m !! 1%nat = Some dq -> c ∈ g_unf (G 1%nat) \/ c ∈ d_work dq -> reads (m_words m) lba_shift c nsid lba data;
  fa_posted e : e ∈ g_posted (G 1%nat) -> flag (Z.lor (ce_status e) 1) 0xfffe = false -> data_ok (m_mem m) data lba;
  fa_done rq : ~ waits p m 1 -> m_reqs m !! p = Some rq ->
    flag (req_status rq) 0xfffe = false -> data_ok (m_mem m) data lba;
  fa_used rq : ~ waits p m 1 -> m_reqs m !! p = Some rq -> req_status rq <> NVME_CREATING;
}.

Definition flight (lba : Z) (data : list Z) (M0 : mem) (m : machine) : Prop := exists G, queues_ok m G /\ flight_at lba data M0 m G.

(** Only one command identifier is in use, in queue 1. *)
Lemma flight_live lba data M0 m G q sq cq dq cid : queues_ok m G -> flight_at lba data M0 m G -> has_pair m q sq cq dq -> cid ∈ live (G q) dq ->
  q = 1%nat /\ pending sq cid p.
Proof.
  intros Hok Hfa Hpair Hin. destruct (qo_pair _ _ Hok q) as (sq' & cq' & dq' & Hpair' & _ & _ & Hcid); [by destruct Hpair |].
  destruct (has_pair_fun _ _ _ _ _ _ _ _ Hpair Hpair') as (<- & <- & <-). apply (di_live _ _ _ _ _ Hcid) in Hin as [p' Hp'].
  destruct (fa_st _ _ _ _ _ Hfa) as [Hn _]. destruct Hpair as (Hq & L1 & _). rewrite Hn in Hq.
  by destruct (fa_only _ _ _ _ _ Hfa _ _ _ _ Hq L1 Hp') as [-> ->].
Qed.

Lemma flight_single lba data M0 m G sq cq dq cid cid' : queues_ok m G -> flight_at lba data M0 m G -> has_pair m 1 sq cq dq ->
  cid ∈ live (G 1%nat) dq -> cid' ∈ live (G 1%nat) dq -> cid = cid'.
Proof.
  intros Hok Hfa Hpair H1 H2. destruct (flight_live _ _ _ _ _ _ _ _ _ _ Hok Hfa Hpair H1) as [_ P1]. destruct (flight_live _ _ _ _ _ _ _ _ _ _ Hok Hfa Hpair H2) as [_ P2].
  by destruct (qo_req _ _ Hok _ _ _ _ _ _ _ _ _ _ _ Hpair Hpair P1 P2).
Qed.

(** When a command is being worked on, no completion is posted. *)
Lemma flight_work lba data M0 m G sq cq dq c : queues_ok m G -> flight_at lba data M0 m G -> has_pair m 1 sq cq dq -> c ∈ d_work dq -> g_posted (G 1%nat) = [].
Proof.
  intros Hok Hfa Hpair Hc. destruct (g_posted (G 1%nat)) as [| e l] eqn:Hp; [done |]. exfalso.
  destruct (qo_pair _ _ Hok 1%nat) as (sq' & cq' & dq' & Hpair' & _ & _ & Hcid); [by destruct Hpair |].
  destruct (has_pair_fun _ _ _ _ _ _ _ _ Hpair Hpair') as (<- & <- & <-). destruct (di_live _ _ _ _ _ Hcid) as [Hnd _].
  assert (c_cid c = ce_cid e) as E.
  { apply (flight_single lba data M0 m G sq cq dq); try done; unfold live; rewrite !elem_of_app.
    - right. left. by apply list_elem_of_fmap_2.
    - right. right. rewrite Hp. apply list_elem_of_here. }
  unfold live in Hnd. apply NoDup_app in Hnd as (_ & _ & Hnd). apply NoDup_app in Hnd as (_ & Hd & _).
  apply (Hd (c_cid c)); [by apply list_elem_of_fmap_2 |]. rewrite Hp, E. apply list_elem_of_here.
Qed.

Lemma success_code code b : 0 <= code < 2 ^ 15 -> flag (Z.lor (2 * code + Z.b2z b) 1) 0xfffe = false -> code = 0.
Proof.
  intros Hc Hf. rewrite lor_phase in Hf. unfold flag in Hf. apply negb_false_iff, Z.eqb_eq in Hf.
  destruct (Z.eq_dec code 0) as [| Hne]; [done |]. exfalso.
  set (i := Z.log2 code). assert (0 <= i < 15) as Hi.
  { split; [apply Z.log2_nonneg |]. apply Z.log2_lt_pow2; lia. }
  assert (Z.testbit (Z.land (2 * code + 1) 0xfffe) (Z.succ i) = true) as Hb; [| rewrite Hf, Z.bits_0 in Hb; done].
  rewrite Z.land_spec, Z.testbit_odd_succ by lia. subst i. rewrite Z.bit_log2 by lia. cbn [andb].
  change 0xfffe with (Z.shiftl (Z.ones 15) 1). rewrite Z.shiftl_spec by lia. rewrite Z.ones_spec_low by lia. done.
Qed.

Lemma flight_fetch lba data M0 m q sq dq c : flight lba data M0 m -> Z.of_nat q <= st_num_iosq (m_st m) -> st_sq (m_st m) !! q = Some sq ->
  m_dev m !! q = Some dq -> d_head dq <> reg m (sq_doorbell sq) -> sq_buf sq !! Z.to_nat (d_head dq) = Some c ->
  flight lba data M0 (set_dev (<[q := fetched sq dq c]> (m_dev m)) m).
Proof.
  intros (G & Hok & Hfa) Hq L1 L3 Hne Hc. destruct (qo_pair _ _ Hok q Hq) as (sq' & cq & dq' & Hpair & Hinv).
  pose proof Hpair as (_ & L1' & _ & L3'). assert (sq' = sq) as -> by congruence. assert (dq' = dq) as -> by congruence.
  pose proof Hinv as (Hsq & _ & _). pose proof (fetch_unf _ _ _ _ _ Hsq Hne Hc) as Hu.
  exists (upd G q (fetch_ghost (G q))). split; [by apply (fetch_keeps m G q sq cq dq c) |].
  assert (q = 1%nat) as ->.
  { eapply (flight_live lba data M0 m G q sq cq dq (c_cid c)); try done. unfold live. rewrite Hu. cbn. apply list_elem_of_here. }
  destruct Hfa as [F1 F2 F3 F4 F5 F6 F7 F8 F9]. constructor; try done.
  intros dq1 c1 Hd Hc1. cbn in Hd. rewrite list_lookup_insert_eq in Hd by by eapply lookup_lt_Some. injection Hd as <-.
  unfold upd in Hc1. rewrite decide_True in Hc1 by done. cbn in Hc1. apply (F6 dq c1); [done |]. rewrite Hu. rewrite elem_of_app, list_elem_of_singleton in Hc1.
  rewrite elem_of_cons. tauto.
Qed.

Lemma flight_post lba data M0 m q cq dq w1 c w2 spec rsv code mm : flight lba data M0 m -> Z.of_nat q <= st_num_iosq (m_st m) ->
  st_cq (m_st m) !! q = Some cq -> m_dev m !! q = Some dq -> d_work dq = w1 ++ c :: w2 ->
  advance (cq_size cq) (d_tail dq) <> reg m (cq_doorbell cq) -> 0 <= code < 2 ^ 15 -> read_effect m c code mm ->
  flight lba data M0 (set_mem mm (set_st (set_cqs (<[q := cq_set_buf (<[Z.to_nat (d_tail dq) := completion q dq c spec rsv code]> (cq_buf cq)) cq]>
      (st_cq (m_st m))) (m_st m)) (set_dev (<[q := posted cq dq (w1 ++ w2)]> (m_dev m)) m))).
Proof.
  intros (G & Hok & Hfa) Hq L2 L3 Hw Hne Hcode Heff. destruct (qo_pair _ _ Hok q Hq) as (sq & cq' & dq' & Hpair & Hinv).
  pose proof Hpair as (_ & L1 & L2' & L3'). assert (cq' = cq) as -> by congruence. assert (dq' = dq) as -> by congruence.
  pose proof Hinv as (_ & Hcq & _). exists (upd G q (post_ghost (G q) (completion q dq c spec rsv code))).
  split; [apply (post_keeps m G q sq cq dq w1 c w2 spec rsv code mm); try done; by eapply cq_room |].
  assert (c ∈ d_work dq) as Hin by (rewrite Hw, elem_of_app; right; apply list_elem_of_here).
  assert (q = 1%nat /\ pending sq (c_cid c) p) as [-> Hpend].
  { apply (flight_live lba data M0 m G q sq cq dq (c_cid c)); try done. unfold live. rewrite !elem_of_app. right. left. by apply list_elem_of_fmap_2. }
  pose proof (flight_work lba data M0 m G sq cq dq c Hok Hfa Hpair Hin) as Hempty.
  destruct Hfa as [F1 F2 F3 F4 F5 F6 F7 F8 F9]. destruct (Heff lba data) as [E1 E2]; [apply (F6 dq); [done | by right] |].
  constructor; try done.
  - intros x Hx. cbn. rewrite E1 by done. by apply F5.
  - intros dq1 c1 Hd Hc1. cbn in Hd. rewrite list_lookup_insert_eq in Hd by by eapply lookup_lt_Some. injection Hd as <-.
    unfold upd in Hc1. rewrite decide_True in Hc1 by done. cbn in Hc1. apply (F6 dq c1); [done |]. rewrite Hw, elem_of_app, elem_of_cons. rewrite elem_of_app in Hc1. tauto.
  - intros e He Hf. unfold upd in He. rewrite decide_True in He by done. cbn in He. rewrite Hempty, app_nil_l, list_elem_of_singleton in He. subst e.
    cbn in Hf. apply success_code in Hf; [| done]. by apply E2.
  - intros rq Hnw. destruct Hnw. by exists sq, (c_cid c).
Qed.

Lemma flight_dev lba data M0 m ev m' G : queues_ok m G -> flight lba data M0 m -> dev_step read_effect m ev m' -> flight lba data M0 m'.
Proof.
  intros _ Hf Hs. destruct Hs as [q sq dq c Hq L1 L3 Hne Hc | q cq dq w1 c w2 spec rsv code mm Hq L2 L3 Hw Hne Hcode Heff].
  - by apply (flight_fetch lba data M0 m q sq dq c).
  - by apply (flight_post lba data M0 m q cq dq w1 c w2 spec rsv code mm).
Qed.

Lemma odd_not_creating e : Z.lor (ce_status e) 1 <> NVME_CREATING.
Proof.
  intros E. assert (Z.testbit (Z.lor (ce_status e) 1) 0 = true) as H by (rewrite Z.lor_spec; cbn; apply orb_true_r). by rewrite E in H.
Qed.

Lemma flight_process lba data M0 m G q r m' : queues_ok m G -> flight lba data M0 m -> Z.of_nat q <= st_num_iosq (m_st m) ->
  nvme_process_cqe m (Z.of_nat q) = Ok (r, m') -> flight lba data M0 m'.
Proof.
  intros _ (G1 & Hok & Hfa) Hq Hpr. destruct (qo_pair _ _ Hok q Hq) as (sq & cq & dq & Hpair & Hinv).
  destruct (g_posted (G1 q)) as [| e posted0] eqn:Hpost.
  { rewrite (process_idle _ _ _ Hok Hq Hpost) in Hpr. injection Hpr as _ <-. by exists G1. }
  destruct (process_result m G1 q sq cq dq e posted0 Hok Hpair Hinv Hpost) as (cmds & p1 & Hcmds & Hpend & Hres).
  rewrite Hres in Hpr. injection Hpr as _ <-. destruct (finish_progress m G1 q sq cq dq e posted0 cmds p1 Hok Hpair Hinv Hpost Hcmds Hpend) as [Hpg _].
  exists (upd G1 q (pop_ghost (G1 q))). split; [by eapply process_keeps |].
  assert (q = 1%nat /\ p1 = p) as [-> ->].
  { destruct (fa_st _ _ _ _ _ Hfa) as [Hn _]. destruct Hpair as (_ & L1 & _). destruct (fa_only _ _ _ _ _ Hfa q sq (ce_cid e) p1); try done. lia. }
  assert (g_unf (pop_ghost (G1 1%nat)) = g_unf (G1 1%nat) /\ forall e', e' ∈ g_posted (pop_ghost (G1 1%nat)) -> e' ∈ g_posted (G1 1%nat)) as [Hunf Hsub].
  { unfold pop_ghost. rewrite Hpost. destruct (g_ks (G1 1%nat)); [by rewrite Hpost |]. split; [done |]. intros. by apply list_elem_of_further. }
  destruct Hfa as [F1 F2 F3 F4 F5 F6 F7 F8 F9]. constructor; try done.
  - intros q sq' cid p' Hq' Hs Hp'. destruct (pg_pending _ _ Hpg _ _ _ _ Hs Hp') as (sq0 & Hs0 & Hp0). by apply (F2 q sq0 cid).
  - cbn. rewrite lookup_insert_eq. by eexists.
  - intros dq1 c1 Hd Hc1. unfold upd in Hc1. rewrite decide_True, Hunf in Hc1 by done. by apply (F6 dq1).
  - intros e1 He Hf. unfold upd in He. rewrite decide_True in He by done. apply (F7 e1); [by apply Hsub | done].
  - intros rq _ Hrq Hf. cbn in Hrq. rewrite lookup_insert_eq in Hrq. injection Hrq as <-. apply (F7 e); [rewrite Hpost; apply list_elem_of_here | done].
  - intros rq _ Hrq. cbn in Hrq. rewrite lookup_insert_eq in Hrq. injection Hrq as <-. cbn. apply odd_not_creating.
Qed.

(** ** The driver

    [nvme_reset_xfer] loops while the weak compare-and-exchange succeeds.  It
    can stop the driver in two ways ([NvmePrp.reset_unused_hangs],
    [reset_spurious_failure]): on a transfer that was not used before it loops
    until an exchange fails spuriously; on one that was completed a spurious
    failure leaves the old status, and the next assertion on it fails. *)
Inductive reset_stops (cas_fuel : nat) (cas_fails : nat -> Z -> nat -> bool) (m : machine) : trap -> Prop :=
| reset_hangs rq : m_reqs m !! p = Some rq -> req_status rq = NVME_CREATING ->
    (forall n, (n < cas_fuel)%nat -> cas_fails (m_time m) NVME_CREATING n = false) -> reset_stops cas_fuel cas_fails m TrapFuel
| reset_unset t st : st <> NVME_CREATING -> st <> NVME_SUBMITTED -> cas_fails t st 0%nat = true -> reset_stops cas_fuel cas_fails m TrapAssert.

Lemma reset_unused fuel f k :
  reset_loop fuel f k NVME_CREATING NVME_CREATING = Ok (IOST_OK, NVME_CREATING) \/
  reset_loop fuel f k NVME_CREATING NVME_CREATING = Trap TrapFuel /\ forall n, (k <= n < k + fuel)%nat -> f NVME_CREATING n = false.
Proof.
  induction fuel as [| fuel IH] in k |- *; cbn [reset_loop]; [right; split; [done | lia] |].
  change (NVME_CREATING =? NVME_SUBMITTED) with false. rewrite Z.eqb_refl. cbn [andb].
  destruct (f NVME_CREATING k) eqn:Hfk; [by left |]. cbn [negb].
  destruct (IH (S k)) as [-> | [-> Hall]]; [by left | right]. split; [done |]. intros n Hn.
  destruct (decide (n = k)) as [-> | Hne]; [done |]. apply Hall. lia.
Qed.

Lemma reset_loop_cases fuel f st : (2 <= fuel)%nat -> st <> NVME_SUBMITTED ->
  reset_loop fuel f 0 st st = Ok (IOST_OK, NVME_CREATING) \/
  st = NVME_CREATING /\ reset_loop fuel f 0 st st = Trap TrapFuel /\ (forall n, (n < fuel)%nat -> f NVME_CREATING n = false) \/
  st <> NVME_CREATING /\ reset_loop fuel f 0 st st = Ok (IOST_OK, st) /\ f st 0%nat = true.
Proof.
  intros Hf Hs. destruct (Z.eq_dec st NVME_CREATING) as [-> | Hne].
  - destruct (reset_unused fuel f 0) as [? | [? Hall]]; [by left | right; left]. split_and!; try done. intros n Hn. apply Hall. lia.
  - destruct fuel as [| [| fuel]]; [lia | lia |]. cbn [reset_loop].
    assert ((st =? NVME_SUBMITTED) = false) as -> by zb. rewrite Z.eqb_refl. cbn [andb].
    destruct (f st 0%nat); cbn [negb]; [by right; right | left].
    assert ((NVME_CREATING =? st) = false) as -> by zb. done.
Qed.

(** No request is under way. *)
Record idle_at (m : machine) (G : nat -> ghost) : Prop := {
  ia_ok : queues_ok m G;
  ia_st : st_num_iosq (m_st m) = 1 /\ st_lba_shift (m_st m) = lba_shift;
  ia_none q sq cid p' : Z.of_nat q <= 1 -> st_sq (m_st m) !! q = Some sq -> ~ pending sq cid p';
  ia_words : xfer_static x0 (m_words m);
  ia_req : exists r, m_reqs m !! p = Some r /\ req_status r <> NVME_SUBMITTED;
}.
Definition idle (m : machine) : Prop := exists G, idle_at m G.

Lemma idle_not_pending m G p' : idle_at m G -> not_pending m p'.
Proof. intros [_ [Hn _] Hnone _ _] q sq cq dq cid (Hq & L1 & _). rewrite Hn in Hq. by apply (Hnone q sq). Qed.

(** All rings are empty. *)
Lemma idle_empty m G q sq cq dq : idle_at m G -> has_pair m q sq cq dq ->
  g_unf (G q) = [] /\ d_work dq = [] /\ g_posted (G q) = [] /\ g_k (G q) = 0.
Proof.
  intros Hid Hpair. apply (not_pending_empty m G q sq cq dq (ia_ok _ _ Hid) Hpair). intros cid p'. by apply (idle_not_pending m G p' Hid q sq cq dq cid).
Qed.

Lemma idle_req m G r : idle_at m G -> req_status r <> NVME_SUBMITTED -> idle_at (set_reqs (<[p := r]> (m_reqs m)) m) G.
Proof.
  intros Hid Hr. pose proof (idle_not_pending m G p Hid) as Hnp. destruct Hid as [H1 H2 H3 H4 H5]. constructor; try done.
  - by apply req_keeps.
  - exists r. cbn. by rewrite lookup_insert_eq.
Qed.

Lemma idle_words m G w : idle_at m G -> xfer_static x0 w -> idle_at (set_words w m) G.
Proof. intros [H1 H2 H3 H4 H5] Hw. constructor; try done. by apply (other_keeps m G w (m_mem m) (m_time m)). Qed.

Lemma idle_put m G sq cq dq c : idle_at m G -> has_pair m 1 sq cq dq -> idle_at (put_cmd m 1 sq c) G.
Proof.
  intros [H1 H2 H3 H4 H5] Hpair. constructor; try done; [by eapply put_keeps |]. intros q s cid p' Hq Hs Hp'. cbn in Hs.
  pose proof Hpair as (_ & L1 & _). destruct (decide (q = 1%nat)) as [-> | Hne].
  - rewrite list_lookup_insert_eq in Hs by by eapply lookup_lt_Some. injection Hs as <-. by apply (H3 1%nat sq cid p').
  - rewrite list_lookup_insert_ne in Hs by done. by apply (H3 q s cid p').
Qed.

Lemma submit_flight m G sq cq dq cmd lba data : p <> 0 -> idle_at m G -> has_pair m 1 sq cq dq ->
  sq_buf sq !! Z.to_nat (sq_tail sq) = Some cmd -> reads (m_words m) lba_shift cmd nsid lba data ->
  exists m', nvme_submit_single_command m 1 p = Ok (true, m') /\ flight lba data (m_mem m) m' /\ waits p m' 1 /\ m_mem m' = m_mem m.
Proof.
  intros Hp Hid Hpair Hcmd Hreads. pose proof (ia_ok _ _ Hid) as Hok. destruct (ia_req _ _ Hid) as (r & Hr & _).
  destruct (qo_pair _ _ Hok 1%nat) as (sq' & cq' & dq' & Hpair' & Hinv); [by destruct Hpair |].
  destruct (has_pair_fun _ _ _ _ _ _ _ _ Hpair Hpair') as (<- & <- & <-). clear Hpair'.
  destruct (idle_empty m G 1 sq cq dq Hid Hpair) as (Hu & Hw & Hpo & Hk).
  destruct (submit_empty m G 1 sq cq dq p r Hok Hpair) as (cmds & cid & cmd' & Hcmds & Hci & Hz & Hcmd' & Hroom & Hres); [| done |].
  { intros cid p'. by apply (idle_not_pending m G p' Hid 1%nat sq cq dq cid). }
  assert (cmd' = cmd) as -> by congruence. eexists. split; [exact Hres |]. pose proof Hpair as (_ & L1 & L2 & L3).
  assert (forall cid' p', pending (sq_set_tail (<[Z.to_nat (sq_tail sq) := set_cid cid cmd]> (sq_buf sq)) (advance (sq_size sq) (sq_tail sq)) (<[Z.to_nat cid := p]> cmds) sq) cid' p'
    <-> (cid' = cid /\ p' = p) \/ pending sq cid' p') as Hpend by (intros; apply pending_tail; done || lia).
  assert (waits p (submitted m 1 sq cmd cid p r cmds) 1) as Hwaits.
  { eexists _, cid. split; [cbn; apply list_lookup_insert_eq; by eapply lookup_lt_Some |]. apply Hpend. by left. }
  split; [| done]. exists (upd G 1 (submit_ghost (G 1%nat) (set_cid cid cmd))).
  split; [apply (submit_keeps m G 1 sq cq dq cmd cid p r cmds); try done; by eapply idle_not_pending |].
  destruct Hid as [H1 H2 H3 H4 H5]. constructor; try done.
  - intros q s cid' p' Hq Hs Hp'. cbn in Hs. destruct (decide (q = 1%nat)) as [-> | Hne].
    + rewrite list_lookup_insert_eq in Hs by by eapply lookup_lt_Some. injection Hs as <-. apply Hpend in Hp' as [[_ ->] | Hp']; [done |].
      exfalso. by apply (H3 1%nat sq cid' p').
    + rewrite list_lookup_insert_ne in Hs by done. exfalso. by apply (H3 q s cid' p').
  - cbn. rewrite lookup_insert_eq. by eexists.
  - intros dq1 c Hd Hc. change (m_dev (submitted m 1 sq cmd cid p r cmds)) with (m_dev m) in Hd. assert (dq1 = dq) as -> by congruence.
    unfold upd in Hc. rewrite decide_True, Hw in Hc by done. cbn in Hc. rewrite Hu in Hc. cbn in Hc. rewrite list_elem_of_singleton in Hc.
    destruct Hc as [-> | Hc]; [| by apply not_elem_of_nil in Hc]. destruct Hreads as [R1 R2 R3 R4]. by constructor.
  - intros e He. unfold upd in He. rewrite decide_True in He by done. cbn in He. rewrite Hpo in He. by apply not_elem_of_nil in He.
Qed.

(** ** [pump] *)
Section Pump.
Context (tick : nat -> machine -> machine) (csts : nat -> Z) (cas_fuel wait_fuel T : nat) (cas_fails : nat -> Z -> nat -> bool) (iost_u8 num_blocks xfer_shift : Z).
Context (Hp : p <> 0) (Hcas : (2 <= cas_fuel)%nat).
Context (Htick : forall t m G, queues_ok m G -> rtc (dev_move read_effect) m (tick t m)).
Context (Hdead : forall t m G q sq cq dq, (T <= t)%nat -> queues_ok m G -> has_pair m q sq cq dq -> waits p m q -> unread cq = [] -> answered (tick t m) q p).
Context (Hfuel : (T < wait_fuel)%nat).
Context (Hshift : 2 <= lba_shift <= xfer_shift /\ xfer_shift <= 16 + lba_shift /\ xfer_shift < 32).
Context (Hcap : 2 * 2 ^ xfer_shift <= (prp_cap x0 - 2) * page).

Abbreviation xs := (2 ^ xfer_shift).

Record blk_static (d : nvme_blockdev) : Prop := {
  bt_size : nb_block_size d = bs /\ nb_num_blocks d = num_blocks;
  bt_xfer : nb_xfer_shift d = xfer_shift /\ nb_nsid d = nsid /\ same_static x0 (nb_xfer d);
}.

Lemma bs_pos : 4 <= bs /\ bs <= xs /\ xs mod bs = 0 /\ xs <= 2 ^ 16 * bs /\ xs < 2 ^ 32.
Proof.
  destruct Hshift as ([H1 H2] & H3 & H4). split; [change 4 with (2 ^ 2); apply Z.pow_le_mono_r; lia |].
  split; [apply Z.pow_le_mono_r; lia |]. split.
  - replace xfer_shift with ((xfer_shift - lba_shift) + lba_shift) by lia. rewrite Z.pow_add_r by lia. apply Z.mod_mul. apply Z.pow_nonzero; lia.
  - split; [rewrite <- Z.pow_add_r by lia; apply Z.pow_le_mono_r; lia | apply Z.pow_lt_mono_r; lia].
Qed.

Lemma phys_id a : 0 <= a < 0xffe00000 -> plat_virt_to_phys a = a.
Proof. intros H. unfold plat_virt_to_phys. assert ((0xffe00000 <=? a) = false) as -> by zb. apply u32_small. lia. Qed.

Lemma mod4 a : a mod bs = 0 -> a mod 4 = 0.
Proof.
  intros H. destruct Hshift as ([H1 _] & _). apply Z.mod_divide in H as [c ->]; [| apply Z.pow_nonzero; lia].
  replace lba_shift with ((lba_shift - 2) + 2) by lia. rewrite Z.pow_add_r by lia. change (2 ^ 2) with 4. rewrite Z.mul_assoc. apply Z.mod_mul. lia.
Qed.

Lemma start_next_stops m d r : same_static x0 (nb_xfer d) ->
  m_reqs m !! p = Some r -> req_status r <> NVME_SUBMITTED ->
  let loop := reset_loop cas_fuel (cas_fails (m_time m)) 0 (req_status r) (req_status r) in
  req_status r = NVME_CREATING /\ loop = Trap TrapFuel /\ (forall n, (n < cas_fuel)%nat -> cas_fails (m_time m) NVME_CREATING n = false) \/
  req_status r <> NVME_CREATING /\ loop = Ok (IOST_OK, req_status r) /\ cas_fails (m_time m) (req_status r) 0%nat = true ->
  exists tr, nvme_start_next cas_fuel cas_fails m d = Trap tr /\ reset_stops cas_fuel cas_fails m tr.
Proof.
  intros (S1 & _) Hr Hrs loop Hcases. unfold nvme_start_next, nvme_reset_xfer, deref. rewrite S1, Hr. cbn [mbind res_bind].
  fold loop. destruct Hcases as [(Hst & -> & Hall) | (Hst & -> & Hcf)]; cbn [mbind res_bind].
  - exists TrapFuel. split; [done |]. by apply (reset_hangs _ _ _ r).
  - exists TrapAssert. do 2 (change (negb (IOST_OK =? IOST_OK)) with false; cbn match; cbn [mbind res_bind]).
    split; [| by apply (reset_unset _ _ _ (m_time m) (req_status r))].
    unfold nvme_add_phys_buffer, deref. cbn [xf_req set_reqs m_reqs]. rewrite lookup_insert_eq. cbn [mbind res_bind set_status req_status].
    assert ((req_status r =? NVME_CREATING) = false) as -> by zb. done.
Qed.

(** A new request for the blocks that belong to the rest of the buffer. *)
Lemma nvme_start_next_ok m d G e L : idle_at m G -> blk_static d -> nb_end_ptr d = e -> nb_stop_ptr d = L -> 0 <= e < L -> L < 0xffe00000 ->
  e mod 4 = 0 -> (L - e) mod bs = 0 -> 0 <= nb_next_lba d < 2 ^ 34 ->
  let n := Z.min xs (L - e) in
  (exists tr, nvme_start_next cas_fuel cas_fails m d = Trap tr /\ reset_stops cas_fuel cas_fails m tr) \/
  exists m' x', nvme_start_next cas_fuel cas_fails m d =
      Ok (IOST_OK, m', nb_set_ptrs (nb_consume_ptr d) e (e + n) L (nb_next_lba d + xs / bs) x' d) /\
    same_static x0 x' /\ flight (nb_next_lba d) (seqZ e n) (m_mem m) m' /\ waits p m' 1 /\ m_mem m' = m_mem m.
Proof.
  intros Hid [Hbt1 Hbt2] He HL HeL HLmax He4 Hmod Hlba n. destruct Hbt1 as [B1 B2]. destruct Hbt2 as (B3 & B4 & B5).
  pose proof bs_pos as (P1 & P2 & P3 & P4 & P5). destruct (ia_req _ _ Hid) as (r & Hr & Hrs).
  destruct (reset_loop_cases cas_fuel (cas_fails (m_time m)) (req_status r) Hcas Hrs) as [Hloop | Hstop].
  2: { left. by apply (start_next_stops m d r). }
  right. unfold nvme_start_next. rewrite B3, Z.shiftl_1_l, (u32_small xs), He, HL, B1, B4 by lia.
  assert ((if xs <? L - e then e + xs else L) = e + n) as ->. { subst n. destruct (Z.ltb_spec xs (L - e)); lia. }
  assert (0 < n <= xs /\ e + n <= L /\ n mod bs = 0) as (Hn1 & Hn2 & Hn3).
  { subst n. destruct (Z.min_spec xs (L - e)) as [[? ->] | [? ->]]; split_and!; try lia; done. } clearbody n.
  (* nvme_reset_xfer *)
  unfold nvme_reset_xfer. destruct B5 as (S1 & S2 & S3 & S4). rewrite S1. unfold deref at 1. rewrite Hr. cbn [mbind res_bind].
  rewrite Hloop. cbn [mbind res_bind]. change (negb (IOST_OK =? IOST_OK)) with false. cbn match.
  assert (idle_at (set_reqs (<[p := set_status NVME_CREATING r]> (m_reqs m)) m) G) as Hid1 by by apply idle_req.
  set (m1 := set_reqs _ m) in *. set (x1 := Xfer _ _ _ _ _ _ _ _).
  assert (same_static x0 x1) as Hsame1 by done. cbn [mbind res_bind]. change (negb (IOST_OK =? IOST_OK)) with false. cbn match.
  (* nvme_add_phys_buffer *)
  rewrite !phys_id by lia.
  destruct (add_first x0 (m_reqs m1)) with (w := m_words m1) (x := x1) (s := e) (e := e + n) as (b & w2 & x2 & k & -> & Hx2 & Hinv2 & Hk & Hb); try done.
  { cbn. by rewrite lookup_insert_eq. }
  { apply (ia_words _ _ Hid1). }
  { pose proof (mod4 n Hn3). split; [lia |]. split; [lia |]. split; [done |]. dlia. }
  cbn [mbind res_bind]. cbn [length app] in *. destruct b; [| lia]. subst k. replace (e + n - e) with n in * by lia. cbn [c_assert mbind res_bind].
  assert (idle_at (set_words w2 m1) G) as Hid2 by by apply idle_words. set (m2 := set_words w2 m1) in *.
  (* nvme_emit_read *)
  destruct (qo_pair _ _ (ia_ok _ _ Hid2) 1%nat) as (sq & cq & dq & Hpair & Hsq & _); [rewrite (proj1 (ia_st _ _ Hid2)); lia |].
  pose proof Hpair as (_ & L1 & _). rewrite (geti_nat (st_sq (m_st m2)) 1 sq L1 : geti _ 1 = _). cbn [mbind res_bind].
  pose proof (tail_range _ _ _ _ Hsq). pose proof (si_size _ _ _ _ Hsq). rewrite (proj2 (ia_st _ _ Hid2)).
  destruct (nvme_emit_read_ok x0 w2 x2 (seqZ e n) sq lba_shift nsid (nb_next_lba d)) as (w3 & cmd & Hemit & Hx3 & Hreads); try done; rewrite ?length_seqZ, ?Z2Nat.id; try done; try lia.
  change (m_words m2) with w2. rewrite Hemit. cbn [mbind res_bind]. apply lookup_lt_Some in L1 as Hlt. rewrite (seti_ok (st_sq (m_st m2))) by lia. cbn [mbind res_bind negb].
  change (Z.to_nat 1) with 1%nat.
  assert (idle_at (set_words w3 m2) G) as Hid3 by by apply idle_words.
  assert (idle_at (put_cmd (set_words w3 m2) 1 sq cmd) G) as Hid4 by (by eapply idle_put).
  change (set_st _ _) with (put_cmd (set_words w3 m2) 1 sq cmd). set (m4 := put_cmd _ _ _ _) in *.
  (* nvme_submit_single_command *)
  destruct (prp_inv_same x0 w2 x2 _ Hinv2) as (X1 & _). rewrite X1.
  destruct (submit_flight m4 G (sq_set_buf (<[Z.to_nat (sq_tail sq) := cmd]> (sq_buf sq)) sq) cq dq cmd (nb_next_lba d) (seqZ e n)) as (m5 & Hsub & Hfl & Hw & Hmem); try done.
  { destruct Hpair as (A1 & _ & A3 & A4). split; [done |]. split; [| done]. cbn. by apply list_lookup_insert_eq. }
  { cbn. apply list_lookup_insert_eq. lia. }
  rewrite Hsub. cbn [mbind res_bind negb]. exists m5, x2. rewrite u64_small.
  - split; [done |]. split; [by eapply prp_inv_same |]. done.
  - assert (0 <= xs / bs < 2 ^ 32); [| lia]. split; [apply Z.div_pos; lia |]. apply Z.div_lt_upper_bound; nia.
Qed.

(** The blocks from [lba] on are read to [buf]; the part up to [e] is there,
    of which the part up to [s] has been consumed. *)
Record blk_base (m : machine) (d : nvme_blockdev) (lba buf s e L : Z) : Prop := {
  bb_static : blk_static d;
  bb_ptrs : nb_consume_ptr d = s /\ nb_end_ptr d = e /\ nb_stop_ptr d = L;
  bb_range : 0 <= buf <= s /\ s <= e <= L /\ L < 0xffe00000 /\ 0 <= lba < 2 ^ 33;
  bb_align : buf mod 4 = 0 /\ (e - buf) mod bs = 0 /\ (L - buf) mod bs = 0;
  bb_mem x : buf <= x < e -> m_mem m !! x = Some (disk (lba * bs + (x - buf)));
}.

(** The block that the next request starts with. *)
Definition next_ok (d : nvme_blockdev) (lba buf e L : Z) : Prop := e < L -> nb_next_lba d * bs = lba * bs + (e - buf).

Definition at_rest (m : machine) (d : nvme_blockdev) (lba buf e L : Z) : Prop :=
  idle m /\ nb_next_end_ptr d = e /\ next_ok d lba buf e L.

(** The next part of the buffer is being read. *)
Definition under_way (m : machine) (d : nvme_blockdev) (lba buf e L : Z) : Prop :=
  let n := Z.min xs (L - e) in
  e < L /\ nb_next_end_ptr d = e + n /\ next_ok d lba buf (e + n) L /\ waits p m 1 /\
  exists lba' M0, lba' * bs = lba * bs + (e - buf) /\ flight lba' (seqZ e n) M0 m.

Lemma begin_ok m d lba buf s e L : blk_base m d lba buf s e L -> at_rest m d lba buf e L -> e < L ->
  (exists tr, nvme_start_next cas_fuel cas_fails m d = Trap tr /\ reset_stops cas_fuel cas_fails m tr) \/
  exists m' d', nvme_start_next cas_fuel cas_fails m d = Ok (IOST_OK, m', d') /\ blk_base m' d' lba buf s e L /\ under_way m' d' lba buf e L.
Proof.
  intros [Hst (P1 & P2 & P3) Hr (A1 & A2 & A3) Hm] ((G & Hid) & Hne & Hnext) HeL. specialize (Hnext HeL).
  pose proof bs_pos as (B1 & B2 & B3 & B4 & B5).
  assert (0 <= nb_next_lba d < 2 ^ 34) as Hlba by nia. pose proof (mod4 (e - buf) A2).
  destruct (nvme_start_next_ok m d G e L) as [Hstop | (m' & x' & -> & Hx & Hfl & Hw & Hmem)]; try done; try lia.
  { dlia. }
  { replace (L - e) with ((L - buf) - (e - buf)) by lia. rewrite Zminus_mod, A2, A3. cbn. apply Z.mod_0_l. lia. }
  { by left. }
  right. eexists m', _. split; [done |]. split.
  - constructor; cbn; try done; [destruct Hst as [? (? & ? & ?)]; by constructor |]. by rewrite Hmem.
  - split; [done |]. split; [done |]. split; [| split; [done |]].
    + intros Hlt. cbn. rewrite Z.mul_add_distr_r. assert (xs / bs * bs = xs) as ->; [| lia].
      rewrite Z.mul_comm. symmetry. apply Z.div_exact; [lia | done].
    + by exists (nb_next_lba d), (m_mem m).
Qed.

(** The controller has reported an error: for the request, or a fatal one. *)
Definition controller_error (m : machine) : Prop :=
  (exists rq, m_reqs m !! p = Some rq /\ flag (req_status rq) 0xfffe = true) \/ (exists t, flag (csts t) NVME_CSTS_CFS = true).

Definition used (m : machine) : Prop := forall rq, m_reqs m !! p = Some rq -> req_status rq <> NVME_CREATING.

Lemma end_ok m d lba buf s e L : blk_base m d lba buf s e L -> under_way m d lba buf e L ->
  let e' := nb_next_end_ptr d in
  exists r m', nvme_wait_req tick csts wait_fuel m p = Ok (r, m') /\ 0 <= r /\ (r <> IOST_OK -> controller_error m') /\
    (r = IOST_OK -> used m' /\ e < e' <= L /\ (e' < L -> e' = e + xs) /\
      let d' := nb_set_ptrs s e' e' L (nb_next_lba d) (nb_xfer d) d in
      blk_base m' d' lba buf s e' L /\ at_rest m' d' lba buf e' L).
Proof.
  intros [Hst (P1 & P2 & P3) Hr (A1 & A2 & A3) Hm] (HeL & Hne & Hnext & Hw & lba' & M0 & Hlba' & Hfl) e'. subst e'. rewrite Hne.
  pose proof bs_pos as (B1 & B2 & B3 & B4 & B5). set (n := Z.min xs (L - e)) in *.
  pose proof Hfl as (G & Hok & Hfa). destruct (fa_st _ _ _ _ _ Hfa) as [Hn1 Hsh]. destruct (fa_req _ _ _ _ _ Hfa) as [rq0 Hrq0].
  assert (forall x, buf <= x < e -> M0 !! x = Some (disk (lba * bs + (x - buf)))) as HM0.
  { intros x Hx. rewrite <- (fa_out _ _ _ _ _ Hfa); [by apply Hm |]. rewrite elem_of_seqZ. lia. }
  destruct (wait_loop_ok read_effect tick csts Htick (flight lba' (seqZ e n) M0)) with (p := p) (T := T) (fuel := wait_fuel) (m := m) (G := G)
    as (m' & G' & r & Hr' & Hok' & HQ & Hpg & Hres); try done; try lia.
  { intros. by eapply flight_dev. }
  { intros. by eapply flight_process. }
  { intros m1 t (G1 & Hok1 & Hf1). exists G1. split; [by apply (other_keeps m1 G1 (m_words m1) (m_mem m1) t) |]. by destruct Hf1. }
  { exists rq0. split; [done |]. left. exists 1%nat. split; [lia | done]. }
  exists r, m'. split; [done |].
  destruct Hres as [(Hnw & rq & Hrq & Hsub & ->) | [-> Hcfs]].
  2: { split; [done |]. split; [intros _; by right | discriminate]. }
  split; [by destruct (flag _ _) |]. split; [intros Hrne; left; exists rq; split; [done |]; by destruct (flag _ _) |]. intros Hrok.
  assert (flag (req_status rq) 0xfffe = false) as Hflag by (by destruct (flag _ _)). clear Hrok.
  destruct HQ as (G2 & Hok2 & Hfa2). pose proof Hfa2 as [F1 F2 F3 F4 F5 F6 F7 F8 F9].
  assert (~ waits p m' 1) as Hnw1 by (apply Hnw; lia). pose proof (F8 rq Hnw1 Hrq Hflag) as Hdata.
  split; [intros rq1; by apply F9 |]. split; [lia |]. split; [lia |]. split.
  - constructor; cbn; try done; [by destruct Hst | lia | |].
    + split; [done |]. split; [| done]. subst n. destruct (Z.min_spec xs (L - e)) as [[? ->] | [? ->]].
      * replace (e + xs - buf) with ((e - buf) + xs) by lia. rewrite Z.add_mod, A2, B3 by lia. cbn. apply Z.mod_0_l. lia.
      * by replace (e + (L - e) - buf) with (L - buf) by lia.
    + intros x Hx. destruct (Z.lt_ge_cases x e) as [Hlt | Hge].
      * rewrite F5 by (rewrite elem_of_seqZ; lia). apply HM0. lia.
      * rewrite (Hdata (Z.to_nat (x - e)) x); [do 2 f_equal; lia |]. apply lookup_seqZ. lia.
  - split; [| done]. exists G2. constructor; try done.
    + intros q sq cid p' Hq Hs Hpd. destruct (F2 q sq cid p' Hq Hs Hpd) as [-> ->]. apply Hnw1. by exists sq, cid.
    + by exists rq.
Qed.

(** The driver as the decompression and the partition table see it.  Between
    two pumps a request can be under way, but not the first one. *)
Definition nvme_view (a : machine * nvme_blockdev) (lba buf s e L : Z) : Prop :=
  blk_base a.1 a.2 lba buf s e L /\
  (at_rest a.1 a.2 lba buf e L \/ under_way a.1 a.2 lba buf e L /\ buf + xs <= e).

(** What a pump from the machine [m0] gives: it stops in [nvme_reset_xfer], or
    it fails because the controller reported an error, or it hands out what was
    asked for. *)
Definition loop_spec (m0 : machine) (min_size lba buf s e L : Z) (r : res (machine * nvme_blockdev * async_buf)) : Prop :=
  (exists tr, r = Trap tr /\ reset_stops cas_fuel cas_fails m0 tr) \/
  exists m d b, r = Ok (m, d, b) /\
    (pump_failed b = true /\ controller_error m \/
     exists e', b = {| b_start := s; b_end := e' |} /\ e <= e' /\ (min_size <= e' - s \/ e' = L) /\ nvme_view (m, d) lba buf s e' L).

Lemma loop_error m0 min_size lba buf s e L m d r : 0 <= r -> r <> IOST_OK -> controller_error m ->
  loop_spec m0 min_size lba buf s e L (Ok (m, d, nvme_error iost_u8 r)).
Proof.
  intros H1 H2 H3. right. exists m, d, (nvme_error iost_u8 r). split; [done |]. left. split; [| done].
  unfold pump_failed, nvme_error. cbn. unfold IOST_OK in H2. zb.
Qed.

Lemma loop_more m0 min_size lba buf s e e' L r : e <= e' -> loop_spec m0 min_size lba buf s e' L r -> loop_spec m0 min_size lba buf s e L r.
Proof.
  intros He [Hs | (m & d & b & -> & [Hf | (e2 & H1 & H2 & H3)])]; [by left | |]; right; exists m, d, b; (split; [done |]); [by left | right].
  exists e2. split; [done |]. split; [lia | done].
Qed.

(** Once a request has been completed, only a spurious failure can stop the
    driver. *)
Lemma used_stops m m0 tr : used m -> reset_stops cas_fuel cas_fails m tr -> reset_stops cas_fuel cas_fails m0 tr.
Proof. intros Hu [rq Hrq Hst _ | t st]; [by apply Hu in Hrq | by apply (reset_unset _ _ _ t st)]. Qed.

Abbreviation pump_loop := (nvme_pump_loop tick csts cas_fuel wait_fuel cas_fails iost_u8).

(** From a state at rest in which the loop goes on: a request is made, and the
    loop is entered again. *)
Lemma loop_begin m0 fuel min_size m d lba buf s e L : blk_base m d lba buf s e L -> at_rest m d lba buf e L -> e < L ->
  (forall tr, reset_stops cas_fuel cas_fails m tr -> reset_stops cas_fuel cas_fails m0 tr) ->
  (forall m' d', blk_base m' d' lba buf s e L -> under_way m' d' lba buf e L -> loop_spec m0 min_size lba buf s e L (pump_loop fuel min_size m' d')) ->
  loop_spec m0 min_size lba buf s e L ('(r, m, d) ← nvme_start_next cas_fuel cas_fails m d;
    if negb (r =? IOST_OK) then Ok (m, d, nvme_error iost_u8 r) else pump_loop fuel min_size m d).
Proof.
  intros Hb Hrest HeL Hst Hk. destruct (begin_ok m d lba buf s e L Hb Hrest HeL) as [(tr & -> & Hs) | (m' & d' & -> & Hb' & Hu')].
  - left. exists tr. split; [done |]. by apply Hst.
  - cbn [mbind res_bind]. change (negb (IOST_OK =? IOST_OK)) with false. by apply Hk.
Qed.

Lemma base_ptrs m d lba buf s e L : blk_base m d lba buf s e L -> nb_consume_ptr d = s /\ nb_end_ptr d = e /\ nb_stop_ptr d = L /\
  0 <= s /\ s <= e <= L /\ L < 2 ^ 64 /\ buf <= s.
Proof.
  clear Hfuel Hcas. intros [_ (-> & -> & ->) H _ _]. split_and!; lia. Qed.

Lemma loop_under_way m0 fuel min_size m d lba buf s e L : blk_base m d lba buf s e L -> under_way m d lba buf e L ->
  buf + xs <= e \/ e - s < min_size -> L - e < Z.of_nat fuel -> loop_spec m0 min_size lba buf s e L (pump_loop fuel min_size m d).
Proof.
  induction fuel as [| fuel IH] in m, d, e |- *; intros Hb Hu Hor Hf.
  { pose proof (base_ptrs _ _ _ _ _ _ _ Hb). lia. }
  cbn [nvme_pump_loop]. destruct (base_ptrs _ _ _ _ _ _ _ Hb) as (P1 & P2 & P3 & R1 & R2 & R3 & R4). rewrite P1, P2, u64_small by lia.
  destruct (Z.ltb_spec (e - s) min_size) as [Hlt | Hge]; cbn [negb].
  2: { right. exists m, d, (nvme_buf d). split; [done |]. right. exists e. unfold nvme_buf. rewrite P1, P2. split; [done |]. split; [lia |]. split; [by left |].
       split; [done |]. right. split; [done |]. cbn. lia. }
  destruct (end_ok m d lba buf s e L Hb Hu) as (r & m' & Hw & Hr0 & Herr & Hrok). pose proof Hu as (HeL & Hne & _).
  assert ((e =? nb_next_end_ptr d) = false) as -> by (pose proof bs_pos; zb). cbn [negb].
  destruct (bb_static _ _ _ _ _ _ _ Hb) as [_ (_ & _ & Hx & _)]. rewrite Hx, Hw. cbn [mbind res_bind].
  destruct (Z.eqb_spec r IOST_OK) as [-> | Hrne]; cbn [negb]; [| by apply loop_error; [| | apply Herr]].
  destruct (Hrok eq_refl) as (Hused & He' & Hfull & Hb' & Hrest'). set (e' := nb_next_end_ptr d) in *. rewrite P3. cbn [nb_set_ptrs nb_stop_ptr nb_end_ptr].
  apply (loop_more _ _ _ _ _ _ e'); [lia |]. destruct (Z.eqb_spec L e') as [HLe | HLe].
  - right. eexists _, _, _. split; [done |]. right. exists e'. split; [done |]. split; [lia |]. split; [by right |]. split; [done | by left].
  - apply loop_begin; try done; [lia | intros tr; by apply used_stops |]. intros m2 d2 Hb2 Hu2. apply IH; try done; [| lia]. left. specialize (Hfull ltac:(lia)). lia.
Qed.

Lemma nvme_pump_loop_ok fuel min_size m d lba buf s e L : nvme_view (m, d) lba buf s e L -> L - e + 1 < Z.of_nat fuel ->
  loop_spec m min_size lba buf s e L (pump_loop fuel min_size m d).
Proof.
  intros [Hb [Hrest | [Hu Hx]]] Hf; cbn [fst snd] in *; [| apply loop_under_way; try done; [by left | lia]].
  destruct fuel as [| fuel]; [pose proof (base_ptrs _ _ _ _ _ _ _ Hb); lia |]. cbn [nvme_pump_loop].
  destruct (base_ptrs _ _ _ _ _ _ _ Hb) as (P1 & P2 & P3 & R1 & R2 & R3 & R4). rewrite P1, P2, u64_small by lia.
  assert (forall e2, e2 = e -> min_size <= e - s \/ e = L -> loop_spec m min_size lba buf s e L (Ok (m, d, nvme_buf d))) as Hret.
  { intros _ _ Hm. right. exists m, d, (nvme_buf d). split; [done |]. right. exists e. unfold nvme_buf. rewrite P1, P2. split; [done |]. split; [lia |].
    split; [done |]. split; [done | by left]. }
  destruct (Z.ltb_spec (e - s) min_size) as [Hlt | Hge]; cbn [negb]; [| apply (Hret e); [done | by left]].
  destruct Hrest as (Hid & Hne & Hnext). rewrite Hne, Z.eqb_refl. cbn [negb mbind res_bind]. change (negb (IOST_OK =? IOST_OK)) with false. cbn match.
  rewrite P3, P2. destruct (Z.eqb_spec L e) as [HLe | HLe]; [apply (Hret e); [done | by right] |].
  apply loop_begin; try done; [lia |]. intros m2 d2 Hb2 Hu2. apply loop_under_way; try done; [by right | lia].
Qed.

Lemma nvme_pump_ok m d lba buf s e L consume min_size : nvme_view (m, d) lba buf s e L -> 0 <= consume <= e - s ->
  loop_spec m min_size lba buf (s + consume) e L (nvme_pump tick csts cas_fuel wait_fuel cas_fails iost_u8 m d consume min_size).
Proof.
  intros [Hb Hst] Hc. cbn [fst snd] in *. destruct (base_ptrs _ _ _ _ _ _ _ Hb) as (P1 & P2 & P3 & R1 & R2 & R3 & R4).
  unfold nvme_pump. rewrite P1, P2, u64_small by lia. assert_ok. apply nvme_pump_loop_ok.
  - split; cbn [fst snd].
    + destruct Hb as [H1 H2 H3 H4 H5]. constructor; cbn; try done; [by destruct H1 | lia].
    + destruct Hst as [Hr | [Hu Hx]]; [left | right; split; [| done]]; done.
  - unfold nvme_pump_fuel. cbn [nb_set_ptrs nb_stop_ptr nb_end_ptr]. rewrite P3. lia.
Qed.
End Pump.
End Blk.

(** ** The block device *)

(** The driver with the operations that [boot_blockdev] calls.  Its state is
    [Trap] when the program has stopped in one of them, by a failed assertion or
    in an endless loop; whatever is called then gives an error and does not
    change that, so that a stop shows in the state at the end. *)
Definition nvme_dev (tick : nat -> machine -> machine) (csts : nat -> Z) (cas_fuel wait_fuel : nat) (cas_fails : nat -> Z -> nat -> bool)
    (iost_u8 block_size num_blocks : Z) : async_blockdev (res (machine * nvme_blockdev)) := {|
  bd_block_size := block_size;
  bd_num_blocks := num_blocks;
  bd_mem a := match a with Ok (m, _) => m_mem m | Trap _ => ∅ end;
  bd_start a lba buf e :=
    match a with
    | Ok (m, d) => let '(r, d) := nvme_start d lba buf e in (r, Ok (m, d))
    | Trap t => (IOST_GLOBAL, Trap t)
    end;
  bd_pump a consume min_size :=
    match a with
    | Ok (m, d) =>
        match nvme_pump tick csts cas_fuel wait_fuel cas_fails iost_u8 m d consume min_size with
        | Ok (m, d, b) => (Ok (m, d), b)
        | Trap t => (Trap t, {| b_start := 1; b_end := 0 |})
        end
    | Trap t => (Trap t, {| b_start := 1; b_end := 0 |})
    end;
|}.

(** The state after a failure: the controller reported an error, or the
    program has stopped in [nvme_reset_xfer]. *)
Definition nvme_failed (x0 : nvme_xfer) (csts : nat -> Z) (cas_fuel : nat) (cas_fails : nat -> Z -> nat -> bool)
    (a : res (machine * nvme_blockdev)) : Prop :=
  match a with
  | Ok (m, _) => controller_error x0 csts m
  | Trap tr => exists m, reset_stops x0 cas_fuel cas_fails m tr
  end.

Definition when_ok {X} (P : X -> Prop) (a : res X) : Prop := match a with Ok x => P x | Trap _ => False end.

(** What is assumed: the controller takes steps of the model, it completes a
    command from time [T] on, its read commands read from the disk; the PRP list
    has room for the largest transfer; blocks are numbered with 32 bits.
    Nothing is assumed of the exchanges of [nvme_reset_xfer]. *)
Record nvme_setup (disk : Z -> Z) (nsid lba_shift : Z) (x0 : nvme_xfer) (tick : nat -> machine -> machine) (cas_fuel wait_fuel T : nat)
    (xfer_shift num_blocks : Z) : Prop := {
  ns_req : xf_req x0 <> 0;
  ns_cas : (2 <= cas_fuel)%nat;
  ns_tick t m G : queues_ok m G -> rtc (dev_move (read_effect disk nsid lba_shift)) m (tick t m);
  ns_dead t m G q sq cq dq : (T <= t)%nat -> queues_ok m G -> has_pair m q sq cq dq -> waits (xf_req x0) m q -> unread cq = [] ->
    answered (tick t m) q (xf_req x0);
  ns_fuel : (T < wait_fuel)%nat;
  ns_shift : 2 <= lba_shift <= xfer_shift /\ xfer_shift <= 16 + lba_shift /\ xfer_shift < 32;
  ns_cap : 2 * 2 ^ xfer_shift <= (prp_cap x0 - 2) * page;
  ns_blocks : num_blocks <= 2 ^ 32;
  ns_disk o : is_byte (disk o);
}.

(** A driver that is ready for [start]. *)
Definition nvme_ready (nsid lba_shift : Z) (x0 : nvme_xfer) (num_blocks xfer_shift : Z) (a : machine * nvme_blockdev) : Prop :=
  idle lba_shift x0 a.1 /\ blk_static nsid lba_shift x0 num_blocks xfer_shift a.2.

Lemma nvme_start_ok disk nsid lba_shift x0 tick cas_fuel wait_fuel T xfer_shift num_blocks m d0 lba buf e r d :
  nvme_setup disk nsid lba_shift x0 tick cas_fuel wait_fuel T xfer_shift num_blocks ->
  nvme_ready nsid lba_shift x0 num_blocks xfer_shift (m, d0) -> 0 <= buf -> e < 0xffe00000 -> buf mod 4 = 0 -> 0 <= lba ->
  nvme_start d0 lba buf e = (r, d) ->
  r = IOST_INVALID /\ (e < buf \/ (e - buf) mod 2 ^ lba_shift <> 0 \/ num_blocks <= lba) \/
  r = IOST_OK /\ nvme_view disk nsid lba_shift x0 num_blocks xfer_shift (m, d) lba buf buf buf e.
Proof.
  intros Hns [Hid Hst] Hb He Hb4 Hlba Hs. unfold nvme_start in Hs. cbn [fst snd] in *. destruct Hst as [[B1 B2] B3].
  rewrite B1, B2 in Hs. destruct (Z.ltb_spec e buf); cbn [orb] in Hs; [injection Hs as <- <-; auto |].
  rewrite u64_small in Hs by lia. destruct (Z.eqb_spec ((e - buf) mod 2 ^ lba_shift) 0) as [Hm |]; cbn [negb orb] in Hs; [| injection Hs as <- <-; auto].
  destruct (Z.leb_spec num_blocks lba); injection Hs as <- <-; [auto | right]. split; [done |].
  pose proof (ns_blocks _ _ _ _ _ _ _ _ _ _ Hns). pose proof (ns_shift _ _ _ _ _ _ _ _ _ _ Hns).
  assert (0 < 2 ^ lba_shift) by (apply Z.pow_pos_nonneg; lia). rewrite u32_small by lia. split.
  - constructor; cbn; try done; try lia. rewrite Z.sub_diag, Z.mod_0_l by lia. done.
  - left. cbn. split; [done |]. split; [done |]. intros _. cbn. lia.
Qed.

#[export, program] Instance nvme_device disk nsid lba_shift x0 tick csts cas_fuel wait_fuel T cas_fails iost_u8 xfer_shift num_blocks
    (Hns : nvme_setup disk nsid lba_shift x0 tick cas_fuel wait_fuel T xfer_shift num_blocks) :
    BlockDevice (nvme_dev tick csts cas_fuel wait_fuel cas_fails iost_u8 (2 ^ lba_shift) num_blocks) disk := {|
  bd_inv := when_ok (nvme_ready nsid lba_shift x0 num_blocks xfer_shift);
  bd_buf buf e := 0 <= buf /\ e < 0xffe00000 /\ buf mod 4 = 0;
  bd_short buf e := e - buf <= 2 ^ xfer_shift;
  bd_failed := nvme_failed x0 csts cas_fuel cas_fails;
  bd_view a lba buf s e L := when_ok (fun a => nvme_view disk nsid lba_shift x0 num_blocks xfer_shift a lba buf s e L) a;
|}.
Next Obligation. intros. destruct a as [[m d] |]; [| done]. destruct H as [Hb _]. by apply (bb_mem _ _ _ _ _ _ _ _ _ _ _ _ _ Hb). Qed.
Next Obligation.
  intros until L. destruct a as [[m d] |]; [| done]. intros [Hb Hst] Hs. split; [| by destruct Hb].
  destruct Hst as [[Hid _] | [(HeL & _) Hx]]; [done |]. lia.
Qed.
Next Obligation.
  intros until a'. destruct a as [[m d0] |]; [| done]. intros Hr (H1 & H2 & H3) Hl Hs. cbn in Hs.
  destruct (nvme_start d0 lba buf e) as [r0 d] eqn:Hst. injection Hs as <- <-.
  destruct (nvme_start_ok disk nsid lba_shift x0 tick cas_fuel wait_fuel T xfer_shift num_blocks m d0 lba buf e r0 d Hns Hr H1 H2 H3 Hl Hst) as [[-> Hbad] | [-> HV]].
  - split; [done |]. split; [done |]. cbn. intros. lia.
  - done.
Qed.
Next Obligation.
  intros until b. destruct a as [[m d] |]; [| done]. intros HV Hc Hp. cbn in Hp. destruct Hns as [N1 N2 N3 N4 N5 N6 N7 N8 N9].
  destruct (nvme_pump_ok disk nsid lba_shift x0 tick csts cas_fuel wait_fuel T cas_fails iost_u8 num_blocks xfer_shift N1 N2 N3 N4 N5 N6 N7 m d lba buf s e L consume min_size HV Hc)
    as [(tr & Hr & Hstop) | (m' & d' & b' & Hr & Hres)]; rewrite Hr in Hp; injection Hp as <- <-; [left; split; [done | by exists m] |].
  destruct Hres as [[Hf Hce] | (e' & -> & He & Hmin & HV')]; [by left | right]. cbn.
  destruct HV' as [Hb Hst]. pose proof (base_ptrs _ _ _ _ _ _ N6 _ _ _ _ _ _ _ Hb). split; [done |]. split; [lia |]. split; [done |]. by split.
Qed.
Next Obligation.
  intros until consume. destruct a as [[m d] |]; [| done]. intros HV Hc. destruct HV as [Hb _]. cbn [fst snd] in Hb.
  destruct (base_ptrs _ _ _ _ _ _ (ns_shift _ _ _ _ _ _ _ _ _ _ Hns) _ _ _ _ _ _ _ Hb) as (P1 & P2 & P3 & R1 & R2 & R3 & R4). cbn [bd_pump nvme_dev fst snd].
  unfold nvme_pump. rewrite P1, P2, u64_small by lia. assert_ok. unfold nvme_pump_fuel. cbn [nvme_pump_loop nb_set_ptrs nb_end_ptr nb_consume_ptr].
  rewrite u64_small by lia. assert ((e - (s + consume) <? 0) = false) as -> by zb. cbn. unfold pump_failed. cbn. zb.
Qed.
Next Obligation. intros. apply Hns. Qed.
