(* ===== verification/NvmeBoot.v ===== *)
(** * Booting from NVMe

    The NVMe driver is a block device ([NvmeBlk.nvme_device]), so the partition
    table and the payload are read through it.  The theorems of this file put
    the layers together: PRP lists, commands, queues, waiting, the pump and the
    partition table.  A controller that reads from a disk in memory shows that
    what they assume can be met. *)
From S2P Require Export NvmeBlk.
From stdpp Require Import base list list_numbers gmap zmap.

Open Scope Z_scope.

(** ** What a client of the driver sees

    The client pumps with the given amounts, one call after the other.  Each
    call returns, unless the program stops in [nvme_reset_xfer] ([stops]).  It
    fails only after an error of the controller ([err]).  Otherwise the buffer
    starts where the client said and does not shrink, it is as large as the
    client asked for or ends with the transfer, and everything up to its end is
    what the disk holds. *)
Fixpoint session_ok (stops : machine -> trap -> Prop) (err : machine -> Prop) (disk : Z -> Z) (bs lba buf stop : Z)
    (pump : machine -> nvme_blockdev -> Z -> Z -> res (machine * nvme_blockdev * async_buf))
    (m : machine) (d : nvme_blockdev) (s e : Z) (calls : list (Z * Z)) : Prop :=
  match calls with
  | [] => True
  | (consume, min_size) :: calls =>
      0 <= consume <= e - s ->
      (exists tr, pump m d consume min_size = Trap tr /\ stops m tr) \/
      exists m' d' b, pump m d consume min_size = Ok (m', d', b) /\
        (pump_failed b = true /\ err m' \/
         b_start b = s + consume /\ e <= b_end b <= stop /\ (min_size <= b_end b - b_start b \/ b_end b = stop) /\
         (forall x, buf <= x < b_end b -> m_mem m' !! x = Some (disk (lba * bs + (x - buf)))) /\
         session_ok stops err disk bs lba buf stop pump m' d' (b_start b) (b_end b) calls)
  end.

Lemma session_view disk nsid lba_shift x0 tick csts cas_fuel wait_fuel T cas_fails iost_u8 xfer_shift num_blocks m d lba buf s e L calls :
  nvme_setup disk nsid lba_shift x0 tick cas_fuel wait_fuel T xfer_shift num_blocks ->
  nvme_view disk nsid lba_shift x0 num_blocks xfer_shift (m, d) lba buf s e L ->
  session_ok (reset_stops x0 cas_fuel cas_fails) (controller_error x0 csts) disk (2 ^ lba_shift) lba buf L
    (nvme_pump tick csts cas_fuel wait_fuel cas_fails iost_u8) m d s e calls.
Proof.
  intros Hns HV. induction calls as [| [consume min_size] calls IH] in m, d, s, e, HV |- *; [done |]. cbn [session_ok]. intros Hc.
  destruct Hns as [N1 N2 N3 N4 N5 N6 N7 N8 N9].
  destruct (nvme_pump_ok disk nsid lba_shift x0 tick csts cas_fuel wait_fuel T cas_fails iost_u8 num_blocks xfer_shift N1 N2 N3 N4 N5 N6 N7 m d lba buf s e L consume min_size HV Hc)
    as [Hstop | (m' & d' & b & Hr & Hres)]; [by left | right].
  exists m', d', b. split; [done |]. destruct Hres as [Hf | (e' & -> & He & Hmin & HV')]; [by left | right]. cbn.
  pose proof HV' as [Hb _]. pose proof (base_ptrs _ _ _ _ _ _ N6 _ _ _ _ _ _ _ Hb). split; [done |]. split; [lia |]. split; [done |].
  split; [apply (bb_mem _ _ _ _ _ _ _ _ _ _ _ _ _ Hb) |]. by apply IH.
Qed.

(** C9: A transfer through the NVMe driver delivers the blocks of the disk.
    Let the controller take any steps it may, complete a command from some time
    on, and let its successful read commands put the blocks that they denote to
    the addresses that they denote; let blocks have numbers below 2^32.  From a
    driver with no request under way, [start] either reports that the arguments
    are invalid, which they then are, or every sequence of calls of [pump]
    behaves as in [session_ok]: each call ends, it reports an error only when the
    controller reported one, and otherwise the buffer holds what is on the disk,
    whatever the chunks and however requests and consumption overlap.  The weak
    compare-and-exchange of [nvme_reset_xfer] may succeed and fail in any way;
    no assertion fails and no loop is endless but by [reset_stops]: on a
    transfer that was not used before none of the exchanges fails, or one fails
    spuriously on a transfer that was completed. *)
Theorem nvme_transfer_correct disk nsid lba_shift x0 tick csts cas_fuel wait_fuel T cas_fails iost_u8 xfer_shift num_blocks m d lba buf e r d' calls :
  nvme_setup disk nsid lba_shift x0 tick cas_fuel wait_fuel T xfer_shift num_blocks ->
  nvme_ready nsid lba_shift x0 num_blocks xfer_shift (m, d) ->
  0 <= buf -> e < 0xffe00000 -> buf mod 4 = 0 -> 0 <= lba ->
  nvme_start d lba buf e = (r, d') ->
  r = IOST_INVALID /\ (e < buf \/ (e - buf) mod 2 ^ lba_shift <> 0 \/ num_blocks <= lba) \/
  r = IOST_OK /\ session_ok (reset_stops x0 cas_fuel cas_fails) (controller_error x0 csts) disk (2 ^ lba_shift) lba buf e
    (nvme_pump tick csts cas_fuel wait_fuel cas_fails iost_u8) m d' buf buf calls.
Proof.
  intros Hns Hr H1 H2 H3 H4 Hs.
  destruct (nvme_start_ok _ _ _ _ _ _ _ _ _ _ m d lba buf e r d' Hns Hr H1 H2 H3 H4 Hs) as [? | [-> HV]]; [by left | right].
  split; [done |]. by eapply session_view.
Qed.


(** ** A controller with a disk in memory

    A read command is carried out with [prp_decode]; it is checked afterwards
    whether the bytes are there, which they are unless the addresses repeat. *)
Definition read_addrs (nsid lba_shift : Z) (m : machine) (c : nvme_cmd) : option (list Z) :=
  if (c_opc c =? NVME_NVM_READ) && (c_fuse_psdt c =? NVME_PSDT_PRP) && (c_nsid c =? nsid)
  then prp_decode (m_words m) (c_dptr0 c) (c_dptr1 c) ((c_dw12 c + 1) * 2 ^ lba_shift) else None.

Fixpoint write_disk (disk : Z -> Z) (o : Z) (data : list Z) (mm : mem) : mem :=
  match data with [] => mm | x :: data => write_disk disk (o + 1) data (<[x := disk o]> mm) end.
Fixpoint check_disk (disk : Z -> Z) (o : Z) (data : list Z) (mm : mem) : bool :=
  match data with
  | [] => true
  | x :: data => match mm !! x with Some b => (b =? disk o) && check_disk disk (o + 1) data mm | None => false end
  end.

Definition exec_read (disk : Z -> Z) (nsid lba_shift : Z) (m : machine) (c : nvme_cmd) : Z * mem :=
  match read_addrs nsid lba_shift m c with
  | Some data =>
      let o := (c_dw10 c + 2 ^ 32 * c_dw11 c) * 2 ^ lba_shift in
      let mm := write_disk disk o data (m_mem m) in
      (if check_disk disk o data mm then 0 else 1, mm)
  | None => (1, m_mem m)
  end.

Lemma write_disk_out disk o data mm x : x ∉ data -> write_disk disk o data mm !! x = mm !! x.
Proof.
  induction data as [| y data IH] in o, mm |- *; [done |]. intros [Hne Hin]%not_elem_of_cons. cbn. rewrite IH by done. by apply lookup_insert_ne.
Qed.

Lemma check_disk_ok disk o data mm i x : check_disk disk o data mm = true -> data !! i = Some x -> mm !! x = Some (disk (o + Z.of_nat i)).
Proof.
  induction data as [| y data IH] in o, i |- *; [done |]. cbn [check_disk]. destruct (mm !! y) as [b |] eqn:Hy; [| done].
  intros [Hb Hc]%andb_true_iff Hi. destruct i as [| i]; cbn in Hi.
  - injection Hi as ->. rewrite Hy, Z.add_0_r. f_equal. lia.
  - rewrite (IH (o + 1) i Hc Hi). do 2 f_equal. lia.
Qed.

Lemma exec_read_ok disk nsid lba_shift m c :
  0 <= (exec_read disk nsid lba_shift m c).1 < 2 ^ 15 /\
  read_effect disk nsid lba_shift m c (exec_read disk nsid lba_shift m c).1 (exec_read disk nsid lba_shift m c).2.
Proof.
  unfold exec_read. split; [destruct (read_addrs _ _ _ _); [destruct (check_disk _ _ _ _) |]; cbn; lia |].
  intros lba data [(O1 & O2 & O3) Hl _ Hd]. unfold read_addrs. rewrite O1, O2, O3, !Z.eqb_refl, Hd. cbn [andb].
  split; [intros x Hx; by apply write_disk_out |]. cbn [fst snd]. destruct (check_disk _ _ _ _) eqn:Hc; [| done].
  intros _ i x Hi. rewrite <- Hl. by apply (check_disk_ok _ _ data).
Qed.

(** The state that the driver has after [nvme_init_queues]. *)
Definition boot_xfer : nvme_xfer := Xfer 0x200 0x4000 0 0 0 512 0 0x4000.
Definition boot_words : gmap Z Z := list_to_map (map (fun i => (0x4000 + 8 * i, 0)) (seqZ 0 512)).
Definition admin_pair : nvme_sq * nvme_cq * dev_queue :=
  (Sq 0x1000 (replicate 4 zero_cmd) 3 0 0 0 1 (Some [0; 0]), Cq 0x1004 (replicate 4 zero_cqe) true 3 0, Dq 0 [] 0 true).
Definition io_pair : nvme_sq * nvme_cq * dev_queue :=
  (Sq 0x1008 (replicate 4 zero_cmd) 3 0 1 0 3 (Some [0; 0; 0; 0]), Cq 0x100c (replicate 4 zero_cqe) true 3 0, Dq 0 [] 0 true).
Definition boot_machine : machine := Mach
  (St 0 0 0 9 1 1 [admin_pair.1.1; io_pair.1.1] [admin_pair.1.2; io_pair.1.2])
  {[ 0x200 := Req (0, 0) 0 0 ]} ∅ boot_words ∅ [admin_pair.2; io_pair.2] 0.
Definition boot_dev (num_blocks : Z) : nvme_blockdev := Nb 512 num_blocks boot_xfer 0 0 0 0 0 17 1.

Lemma boot_pairs q sq cq dq : has_pair boot_machine q sq cq dq ->
  q = 0%nat /\ (sq, cq, dq) = admin_pair \/ q = 1%nat /\ (sq, cq, dq) = io_pair.
Proof.
  intros (Hq & H1 & H2 & H3). cbn in Hq. assert (q = 0%nat \/ q = 1%nat) as [-> | ->] by lia; cbn in H1, H2, H3; simplify_eq; auto.
Qed.

Lemma boot_not_pending q sq cid p : (q <= 1)%nat -> st_sq (m_st boot_machine) !! q = Some sq -> ~ pending sq cid p.
Proof.
  intros Hq Hs (Hp & _ & cmds & Hc & Hl).
  assert (Forall (fun c => c = 0) cmds) as Hall.
  { assert (q = 0%nat \/ q = 1%nat) as [-> | ->] by lia; cbn in Hs; injection Hs as <-; cbn in Hc; injection Hc as <-; by repeat constructor. }
  rewrite Forall_lookup in Hall. by apply Hall in Hl.
Qed.

Lemma boot_idle : idle 9 boot_xfer boot_machine.
Proof.
  exists (fun _ => Gh [] [] [] 0). constructor.
  - constructor.
    + cbn. lia.
    + intros q Hq. cbn in Hq. assert (q = 0%nat \/ q = 1%nat) as Hq' by lia.
      assert (exists sq cq dq, has_pair boot_machine q sq cq dq) as (sq & cq & dq & Hpair).
      { destruct Hq' as [-> | ->]; eexists _, _, _; by split_and!. }
      exists sq, cq, dq. split; [done |]. pose proof Hpair as (_ & Hs & _).
      assert (forall cid p, ~ pending sq cid p) as Hnp by (intros cid p; apply (boot_not_pending q); [lia | done]).
      destruct (boot_pairs _ _ _ _ Hpair) as [[-> [= -> -> ->]] | [-> [= -> -> ->]]].
      all: split; [| split].
      1, 4: constructor; cbn; try lia; done.
      1, 3: constructor; cbn [g_posted g_ks g_k length cq_size cq_pos cq_buf d_tail d_phase map chain]; try done; try (cbn; lia);
        intros i Hi; assert (i = 0 \/ i = 1 \/ i = 2 \/ i = 3) as [-> | [-> | [-> | ->]]] by lia; by exists zero_cqe.
      all: constructor; [done | by eexists | | intros cid p Hp; by apply Hnp in Hp]; split; [constructor |]; intros cid; split;
        [intros H; by apply not_elem_of_nil in H | intros [p Hp]; by apply Hnp in Hp].
    + intros q sq cq dq q' sq' cq' dq' [[-> [= -> -> ->]] | [-> [= -> -> ->]]]%boot_pairs [[-> [= -> -> ->]] | [-> [= -> -> ->]]]%boot_pairs; done.
    + intros q sq cq dq cid q' sq' cq' dq' cid' p (Hq & Hs & _) _ Hp. cbn in Hq. by apply (boot_not_pending q) in Hp; [| lia |].
    + intros q Hq. cbn in Hq. lia.
  - done.
  - intros q sq cid p Hq. apply boot_not_pending. lia.
  - constructor; [vm_compute; split_and!; (reflexivity || discriminate) | reflexivity | cbn; lia |]. intros i Hi.
    assert (is_Some (boot_words !! (0x4000 + 8 * i))) as H; [| exact H].
    unfold boot_words. apply elem_of_dom. rewrite dom_list_to_map_L. apply elem_of_list_to_set.
    apply list_elem_of_fmap. exists (0x4000 + 8 * i, 0). split; [done |]. apply list_elem_of_fmap. exists i. split; [done |].
    apply elem_of_seqZ. cbn in Hi. lia.
  - eexists. split; [reflexivity | done].
Qed.

(** The exchange fails once on a transfer that was not used before. *)
Definition boot_cas (_ : nat) (s : Z) (_ : nat) : bool := s =? NVME_CREATING.
Definition boot_tick (disk : Z -> Z) (_ : nat) : machine -> machine := serve (exec_read disk 1 9) 0x200.

Lemma boot_setup disk num_blocks : num_blocks <= 2 ^ 32 -> (forall o, is_byte (disk o)) ->
  nvme_setup disk 1 9 boot_xfer (boot_tick disk) 2 1 0 17 num_blocks.
Proof.
  intros Hn Hd. constructor.
  - done.
  - lia.
  - intros t m G Hok. apply (serve_dev (read_effect disk 1 9) (exec_read disk 1 9)) with (G := G); [| done | done]. intros. apply exec_read_ok.
  - intros t m G q sq cq dq _ H1 H2 H3 H4.
    apply (serve_answers (read_effect disk 1 9) (exec_read disk 1 9)) with (G := G) (sq := sq) (cq := cq) (dq := dq); try done. intros. apply exec_read_ok.
  - lia.
  - lia.
  - rewrite page_eq. cbn. lia.
  - done.
  - done.
Qed.

Lemma boot_ready num_blocks : nvme_ready 1 9 boot_xfer num_blocks 17 (boot_machine, boot_dev num_blocks).
Proof. split; [apply boot_idle | by constructor]. Qed.

Lemma nvme_transfer_correct_witness :
  exists d', nvme_start (boot_dev 0x100000) 1 0x10000 0x10400 = (IOST_OK, d') /\
    session_ok (reset_stops boot_xfer 2 boot_cas) (controller_error boot_xfer (fun _ => 1)) (demo_disk 512 0x100000) 512 1 0x10000 0x10400
      (nvme_pump (boot_tick (demo_disk 512 0x100000)) (fun _ => 1) 2 1 boot_cas 0)
      boot_machine d' 0x10000 0x10000 [(0, 8); (8, 512); (512, 504)].
Proof.
  eexists. split; [reflexivity |].
  destruct (nvme_transfer_correct (demo_disk 512 0x100000) 1 9 boot_xfer (boot_tick (demo_disk 512 0x100000)) (fun _ => 1) 2 1 0 boot_cas 0 17 0x100000
    boot_machine (boot_dev 0x100000) 1 0x10000 0x10400 IOST_OK (nvme_start (boot_dev 0x100000) 1 0x10000 0x10400).2 [(0, 8); (8, 512); (512, 504)])
    as [[Hbad _] | [_ H]].
  - apply boot_setup; [lia | apply demo_disk_byte].
  - apply boot_ready.
  - lia.
  - lia.
  - reflexivity.
  - lia.
  - reflexivity.
  - discriminate Hbad.
  - exact H.
Defined.


(** ** Where the code differs from what it means to do

    [start] does not wait for a request that the last [pump] began: with a
    maximal transfer of 4 KiB, after the first pump of 16 KiB the next [start]
    succeeds and the pump after it fails. *)
Definition small_dev : nvme_blockdev := Nb 512 0x100000 boot_xfer 0 0 0 0 0 12 1.

Lemma start_during_request :
  let pump := nvme_pump (boot_tick (demo_disk 512 0x100000)) (fun _ => 1) 3 1 boot_cas 0 in
  let d := (nvme_start small_dev 0 0x10000 0x14000).2 in
  match pump boot_machine d 0 512 with
  | Ok (m, d, b) =>
      b = {| b_start := 0x10000; b_end := 0x11000 |} /\ (nvme_start d 200 0x20000 0x30000).1 = IOST_OK /\
      match pump m (nvme_start d 200 0x20000 0x30000).2 0 512 with
      | Ok (_, _, b) => b = {| b_start := IOST_TRANSIENT; b_end := 0 |}
      | Trap _ => False
      end
  | Trap _ => False
  end.
Proof. vm_compute. done. Qed.

(** [start] reads from the block whose address is truncated to 32 bits. *)
Lemma start_truncates : nb_next_lba (nvme_start (boot_dev (2 ^ 40)) (2 ^ 32 + 5) 0x10000 0x10200).2 = 5.
Proof. reflexivity. Qed.

(** A request for which no command identifier is free keeps the status of a
    submitted one, so that the transfer can not be reset afterwards. *)
Lemma submit_failed_status :
  let sq := Sq 0x1008 (replicate 8 zero_cmd) 7 0 1 0 1 (Some [0x300; 0x400]) in
  let m := Mach (St 0 0 0 9 1 1 [admin_pair.1.1; sq] [admin_pair.1.2; io_pair.1.2]) {[ 0x200 := Req (0, 0) 0 0 ]} ∅ ∅ ∅ [] 0 in
  match nvme_submit_single_command m 1 0x200 with
  | Ok (ok, m') => ok = false /\ req_status <$> m_reqs m' !! 0x200 = Some NVME_SUBMITTED
  | Trap _ => False
  end.
Proof. vm_compute. done. Qed.

(** With a compare-and-exchange that never fails without reason, the first
    request of the driver is never made: the pump loops in [nvme_reset_xfer]. *)
Lemma first_request_hangs :
  nvme_pump (boot_tick (demo_disk 512 0x100000)) (fun _ => 1) 1000 1 (fun _ _ _ => false) 0
    boot_machine (nvme_start (boot_dev 0x100000) 1 0x10000 0x10400).2 0 8 = Trap TrapFuel.
Proof. vm_compute. done. Qed.
