(* ===== verification/NvmeInit.v ===== *)
(** * Start-up and shutdown of the NVMe controller ([src/lib/nvme.c])

    [nvme_init] disables the controller, sets up the queue for administration
    commands and enables the controller; [nvme_init_queues] creates the queues
    for I/O; [nvme_reset] shuts the controller down.  The first two establish
    the invariant of the queues, so that a drive that was brought up by them is
    ready for transfers. *)
From S2P Require Export NvmeBlk.
From stdpp Require Import base list list_numbers gmap zmap.

Open Scope Z_scope.

(** ** Time *)
Definition TICKS_PER_MICROSECOND : Z := 24.
Definition MSECS (n : Z) : Z := u64 (n * 1024 * TICKS_PER_MICROSECOND).

(** ** Registers and capabilities *)
Definition NVME_CSTS_RDY : Z := 1.
Definition NVME_CMDSET_NVM : Z := 0.
Definition NVME_CC_EN : Z := 1.
Definition NVME_CC_CSS_SHIFT : Z := 4.
Definition NVME_CC_SHN_SHIFT : Z := 14.
Definition NVME_CAP_MPSMIN_MASK : Z := Z.shiftl 15 48.
Definition NVME_REG_ADMINQ_ATTR : Z := 0x24.
Definition NVME_REG_ADMINSQ_BASE : Z := 0x28.
Definition NVME_REG_ADMINCQ_BASE : Z := 0x30.
Definition nvme_extr_cap_css (cap : Z) : Z := Z.shiftr (Z.land cap (Z.shiftl 0xff 37)) 37.
Definition nvme_extr_cap_mqes (cap : Z) : Z := Z.shiftr (Z.land cap (Z.shiftl 0xffff 0)) 0.
Definition nvme_extr_cap_to (cap : Z) : Z := Z.shiftr (Z.land cap (Z.shiftl 0xff 24)) 24.
Definition nvme_extr_csts_shst (csts : Z) : Z := Z.land (Z.shiftr csts 2) 3.

Definition set_cap (v : Z) (st : nvme_state) : nvme_state :=
  St v (st_cfg st) (st_rtd3e st) (st_lba_shift st) (st_num_iosq st) (st_num_iocq st) (st_sq st) (st_cq st).

Section Init.
(** [off] is what the controller does while it is disabled, [tick] what it does
    while it is enabled; [csts] is what the status register reads and [clock]
    the time, of which [get_timestamp] returns 64 bits. *)
Context (off tick : nat -> machine -> machine) (csts clock : nat -> Z).

Definition get_timestamp (m : machine) : Z := u64 (clock (m_time m)).

(** The loops that wait for a status: [Ok (true, t, m)] when it was seen at the
    time [t], [Ok (false, t, m)] when the time was up. *)
Fixpoint status_loop (fuel : nat) (move : nat -> machine -> machine) (seen : Z -> bool) (start timeout : Z) (m : machine) : res (bool * Z * machine) :=
  match fuel with
  | O => Trap TrapFuel
  | S fuel =>
      let m := elapse move m in
      let status := csts (m_time m) in
      let t := get_timestamp m in
      if seen status then Ok (true, t, m)
      else if timeout <? u64 (t - start) then Ok (false, t, m)
      else status_loop fuel move seen start timeout m
  end.

(** The queue for administration commands is set up: lines 55 to 64. *)
Definition init_admin (dstrd : Z) (m : machine) : res machine :=
  let st := set_num 0 0 (m_st m) in
  cq ← geti (st_cq st) 0;
  cqs ← seti (st_cq st) 0 (Cq (0x1000 + dstrd) (replicate (Z.to_nat (cq_size cq + 1)) zero_cqe) true (cq_size cq) 0);
  sq ← geti (st_sq st) 0;
  sqs ← seti (st_sq st) 0 (Sq 0x1000 (sq_buf sq) (sq_size sq) 0 0 0 (sq_max_cid sq) (sq_cmd sq));
  Ok (set_st (set_cqs cqs (set_sqs sqs st)) m).

(** [capabilities] and [version] are the registers of these names, [sq_addr] and
    [cq_addr] the addresses of the buffers of the queue. *)
Definition nvme_init (fuel : nat) (m : machine) (capabilities version sq_addr cq_addr : Z) : res (Z * machine) :=
  let nvme_cap := capabilities in
  let m := set_st (set_cap nvme_cap (m_st m)) m in
  if negb (Z.shiftr version 16 =? 1) then Ok (IOST_INVALID, m) else
  if flag (Z.lnot (nvme_extr_cap_css nvme_cap)) (Z.shiftl 1 NVME_CMDSET_NVM) then Ok (IOST_INVALID, m) else
  if flag nvme_cap NVME_CAP_MPSMIN_MASK then Ok (IOST_INVALID, m) else
  if nvme_extr_cap_mqes nvme_cap <? 3 then Ok (IOST_INVALID, m) else
  let timeout := u64 (nvme_extr_cap_to nvme_cap * MSECS 500) in
  let t_wait_idle := get_timestamp m in
  let cfg := 0 in
  let m := set_reg NVME_REG_CONFIG 0 m in
  '(idle, t_idle, m) ← status_loop fuel off (fun status => negb (flag status NVME_CSTS_RDY)) t_wait_idle timeout m;
  if negb idle then Ok (IOST_GLOBAL, m) else
  let dstrd := u32 (Z.shiftl 4 (nvme_extr_cap_dstrd (st_cap (m_st m)))) in
  m ← init_admin dstrd m;
  cq ← geti (st_cq (m_st m)) 0;
  sq ← geti (st_sq (m_st m)) 0;
  let m := set_reg NVME_REG_ADMINQ_ATTR (u32 (Z.lor (Z.shiftl (cq_size cq) 16) (sq_size sq))) m in
  let m := set_reg NVME_REG_ADMINSQ_BASE (plat_virt_to_phys sq_addr) m in
  let m := set_reg NVME_REG_ADMINCQ_BASE (plat_virt_to_phys cq_addr) m in
  let cfg := Z.lor cfg (Z.shiftl NVME_CMDSET_NVM NVME_CC_CSS_SHIFT) in
  let m := set_reg NVME_REG_CONFIG cfg m in
  let cfg := Z.lor cfg NVME_CC_EN in
  let m := set_reg NVME_REG_CONFIG cfg m in
  '(ready, _, m) ← status_loop fuel tick (fun status => flag status NVME_CSTS_RDY) t_idle timeout m;
  if negb ready then Ok (IOST_GLOBAL, m) else
  Ok (IOST_OK, set_st (set_rtd3e 1000000 (set_cfg cfg (m_st m))) m).

(** [st->cfg & ~NVME_CC_EN] *)
Definition disable (m : machine) : machine := set_reg NVME_REG_CONFIG (Z.land (st_cfg (m_st m)) (u32 (Z.lnot NVME_CC_EN))) m.

Definition nvme_reset (fuel : nat) (m : machine) : res machine :=
  let m := set_reg NVME_REG_CONFIG (Z.lor (st_cfg (m_st m)) (Z.shiftl 1 NVME_CC_SHN_SHIFT)) m in
  let shutdown_timeout := u32 (st_rtd3e (m_st m) * TICKS_PER_MICROSECOND) in
  let t_wait_shutdown := get_timestamp m in
  let complete status := nvme_extr_csts_shst status =? 2 in
  '(done, _, m) ← status_loop fuel tick complete t_wait_shutdown shutdown_timeout m;
  if done : bool then Ok (disable m) else
  let m := set_reg NVME_REG_CONFIG (Z.lor (st_cfg (m_st m)) (Z.shiftl 2 NVME_CC_SHN_SHIFT)) m in
  '(_, _, m) ← status_loop fuel tick complete t_wait_shutdown (u64 (2 * shutdown_timeout)) m;
  Ok (disable m).

(** ** Waiting for a status ends

    From one look to the next the clock advances by [d] at least, and by less
    than [2 ^ 32] ticks, which are almost three minutes. *)
Context (d : Z).
Context (clock_runs : forall t, d <= clock (S t) - clock t < 2 ^ 32) (d_pos : 0 < d).

Definition since (t0 : nat) (m : machine) : Z := clock (m_time m) - clock t0.

Lemma timestamp_since t0 m : 0 <= since t0 m < 2 ^ 64 -> u64 (get_timestamp m - u64 (clock t0)) = since t0 m.
Proof. intros H. unfold get_timestamp, u64. rewrite <- Zminus_mod. by apply Z.mod_small. Qed.

(** A property that the controller keeps holds at the end; the status was seen
    at the last look, or the time was up. *)
Lemma status_loop_ok (P : machine -> Prop) move seen timeout fuel t0 m : P m ->
  (forall m, P m -> P (elapse move m) /\ m_time (elapse move m) = S (m_time m)) ->
  0 <= since t0 m < 2 ^ 63 -> 0 <= timeout < 2 ^ 63 -> timeout - since t0 m < d * Z.of_nat fuel -> (0 < fuel)%nat ->
  exists b m1, let m' := elapse move m1 in
    status_loop fuel move seen (u64 (clock t0)) timeout m = Ok (b, get_timestamp m', m') /\ P m1 /\ m_time m' = S (m_time m1) /\
    b = seen (csts (m_time m')) /\ (b = false -> timeout < since t0 m') /\ since t0 m < since t0 m' < Z.max timeout (since t0 m) + 2 ^ 32.
Proof.
  intros HP Hstep Hs0 Hto Hfuel Hpos. induction fuel as [| fuel IH] in m, HP, Hs0, Hfuel, Hpos |- *; [lia |]. cbn [status_loop].
  destruct (Hstep m HP) as [HP1 Ht1]. pose proof (clock_runs (m_time m)) as Hr.
  assert (since t0 (elapse move m) = since t0 m + (clock (S (m_time m)) - clock (m_time m))) as Hs1 by (unfold since; rewrite Ht1; lia).
  rewrite timestamp_since by lia. destruct (seen (csts (m_time (elapse move m)))) eqn:Hs.
  - exists true, m. rewrite Hs. split_and!; (done || lia).
  - destruct (Z.ltb_spec timeout (since t0 (elapse move m))) as [Hlt | Hge].
    + exists false, m. rewrite Hs. split_and!; (done || lia).
    + destruct (Nat.eq_dec fuel 0%nat) as [-> | Hf]; [lia |].
      destruct (IH (elapse move m)) as (b & m1 & Hr1 & H1 & H2 & H3 & H4 & H5); [done | lia | lia | lia |].
      exists b, m1. split; [done |]. split; [done |]. split; [done |]. split; [done |]. split; [done |]. lia.
Qed.
End Init.

(** ** A queue that was just set up *)
Record sq_free (sq : nvme_sq) : Prop := {
  sf_size : 0 < sq_size sq < 65535 /\ sq_size sq < zlen (sq_buf sq);
  sf_cmds : exists cmds, sq_cmd sq = Some cmds /\ zlen cmds = sq_max_cid sq + 1 /\ 0 <= sq_max_cid sq < 65536 /\ Forall (fun c => c = 0) cmds;
}.
Definition fresh_cq (bell size : Z) : nvme_cq := Cq bell (replicate (Z.to_nat (size + 1)) zero_cqe) true size 0.
Definition fresh_dq : dev_queue := Dq 0 [] 0 true.
Definition no_ghost : ghost := Gh [] [] [] 0.

Lemma sq_free_pending sq cid p : sq_free sq -> ~ pending sq cid p.
Proof.
  intros [_ (cmds & Hc & _ & _ & Hall)] (Hp & _ & c & Hc' & Hl). rewrite Hc in Hc'. injection Hc' as <-. rewrite Forall_lookup in Hall. by apply Hall in Hl.
Qed.

Lemma fresh_pair m q sq bell size : sq_free sq -> sq_tail sq = 0 -> sq_head sq = 0 -> sq_cq sq = Z.of_nat q -> 0 < size < 65535 ->
  reg m (sq_doorbell sq) = 0 -> reg m bell = 0 -> pair_inv m q no_ghost sq (fresh_cq bell size) fresh_dq.
Proof.
  intros Hf Ht Hh Hq Hsize R1 R2. pose proof Hf as [F1 (cmds & F2 & F3 & F4 & F5)]. split; [| split].
  - assert ((0 + 0) mod (sq_size sq + 1) = 0) as Hz by (apply Z.mod_0_l; lia).
    rewrite R1. constructor; cbn [fresh_dq no_ghost d_head d_work g_k g_unf g_ks length Z.of_nat List.last]; rewrite ?Hh, ?Ht, ?Hz; (done || lia).
  - cbn [fresh_cq cq_doorbell]. rewrite R2. constructor; cbn [fresh_cq fresh_dq no_ghost g_posted g_ks g_k length cq_size cq_pos cq_buf d_tail d_phase map chain]; try done.
    + rewrite length_replicate. lia.
    + cbn. split; [| lia]. symmetry. apply Z.mod_small. lia.
    + split; [| done]. unfold phase_at. cbn [fresh_cq cq_pos cq_size cq_phase]. change (0 + Z.of_nat 0) with 0. by destruct (Z.leb_spec 0 size); [| lia].
    + intros i Hi. exists zero_cqe. unfold ring, phase_at. cbn [fresh_cq cq_pos cq_size cq_phase]. change (Z.of_nat 0) with 0 in Hi. rewrite Z.add_0_l, Z.mod_small by lia.
      split; [apply lookup_replicate; split; [done | lia] |]. by destruct (Z.leb_spec i size); [| lia].
  - constructor; [done | by exists cmds | | intros cid p Hp; by apply sq_free_pending in Hp]. split; [constructor |]. intros cid. split.
    + intros H. by apply not_elem_of_nil in H.
    + intros [p Hp]. by apply sq_free_pending in Hp.
Qed.

(** ** Administration commands

    What an administration command, with the request [p], leaves as it is. *)
Section Admin.
Context (p : Z).

Definition scalars (st : nvme_state) : nvme_state := set_sqs [] (set_cqs [] st).
Definition bells (m : machine) : option Z * option Z := (sq_doorbell <$> st_sq (m_st m) !! 0%nat, cq_doorbell <$> st_cq (m_st m) !! 0%nat).

Record beside (m0 m : machine) : Prop := {
  be_st : scalars (m_st m) = scalars (m_st m0);
  be_lists q : q <> 0%nat -> st_sq (m_st m) !! q = st_sq (m_st m0) !! q /\ st_cq (m_st m) !! q = st_cq (m_st m0) !! q /\ m_dev m !! q = m_dev m0 !! q;
  be_bells : bells m = bells m0;
  be_regs r : Some r <> (bells m0).1 -> Some r <> (bells m0).2 -> reg m r = reg m0 r;
  be_reqs p' : p' <> p -> m_reqs m !! p' = m_reqs m0 !! p';
  be_words : m_words m = m_words m0;
  be_mem x : is_Some (m_mem m0 !! x) -> is_Some (m_mem m !! x);
}.
#[export] Instance beside_preorder : PreOrder beside.
Proof.
  split.
  - by intros m.
  - intros m1 m2 m3 [A1 A2 A3 A4 A5 A6 A7] [B1 B2 B3 B4 B5 B6 B7]. constructor; try congruence.
    + intros q Hq. destruct (B2 q Hq) as (-> & -> & ->). by apply A2.
    + intros r H1 H2. rewrite B4, A4 by (rewrite ?A3; done). done.
    + intros p' Hp. rewrite B5, A5 by done. done.
    + intros x Hx. by apply B7, A7.
Qed.

(** Only [p] is pending, in queue 0. *)
Definition admin (m : machine) : Prop :=
  forall q sq cid p', Z.of_nat q <= st_num_iosq (m_st m) -> st_sq (m_st m) !! q = Some sq -> pending sq cid p' -> q = 0%nat /\ p' = p.
Definition admin_idle (m : machine) : Prop :=
  (exists G, queues_ok m G) /\ forall q sq cid p', Z.of_nat q <= st_num_iosq (m_st m) -> st_sq (m_st m) !! q = Some sq -> ~ pending sq cid p'.

(** Nothing happens in the other queues. *)
Lemma admin_empty m G q sq cq dq : queues_ok m G -> admin m -> has_pair m q sq cq dq -> q <> 0%nat ->
  g_unf (G q) = [] /\ d_work dq = [] /\ g_posted (G q) = [].
Proof.
  intros Hok Ha Hpair Hq. destruct (not_pending_empty m G q sq cq dq Hok Hpair) as (H1 & H2 & H3 & _); [| done].
  intros cid p' Hp'. destruct Hpair as (Hn & Hs & _). by destruct (Ha q sq cid p' Hn Hs Hp').
Qed.

Context (effect : machine -> nvme_cmd -> Z -> mem -> Prop).
Context (effect_dom : forall m c code mm, effect m c code mm -> forall x, is_Some (m_mem m !! x) -> is_Some (mm !! x)).

Lemma beside_dev m0 m ev m' G : queues_ok m G -> beside m0 m -> admin m -> dev_step effect m ev m' -> beside m0 m' /\ admin m'.
Proof.
  intros Hok Hb Ha Hs.
  inversion Hs as [q sq dq c Hq L1 L3 Hne Hc | q cq dq w1 c w2 spec rsv code mm Hq L2 L3 Hw Hne Hcode Heff]; subst;
    destruct (qo_pair _ _ Hok q Hq) as (sq' & cq' & dq' & Hpair & Hinv); pose proof Hpair as (_ & P1 & P2 & P3); simplify_eq;
    (destruct (decide (q = 0%nat)) as [-> | Hq0]; [split; [| done]; etrans; [exact Hb |] | exfalso; destruct (admin_empty m G _ _ _ _ Hok Ha Hpair Hq0) as (E1 & E2 & _)]).
  - constructor; try done. intros q Hq0. cbn. by rewrite list_lookup_insert_ne by lia.
  - destruct Hinv as (Hsq & _). pose proof (fetch_unf _ _ _ _ _ Hsq Hne Hc) as Hu. by rewrite E1 in Hu.
  - constructor; try done.
    + intros q Hq0. cbn. by rewrite !list_lookup_insert_ne by lia.
    + unfold bells. cbn. rewrite list_lookup_insert_eq by (by eapply lookup_lt_Some). by rewrite L2.
    + intros x Hx. cbn. by eapply effect_dom.
  - rewrite Hw in E2. by destruct w1.
Qed.

Lemma beside_process m0 m G q r m' : queues_ok m G -> beside m0 m -> admin m -> Z.of_nat q <= st_num_iosq (m_st m) ->
  nvme_process_cqe m (Z.of_nat q) = Ok (r, m') -> beside m0 m' /\ admin m'.
Proof.
  intros Hok Hb Ha Hq Hpr. destruct (qo_pair _ _ Hok q Hq) as (sq & cq & dq & Hpair & Hinv).
  destruct (g_posted (G q)) as [| e posted0] eqn:Hpost.
  { rewrite (process_idle _ _ _ Hok Hq Hpost) in Hpr. by injection Hpr as _ <-. }
  destruct (decide (q = 0%nat)) as [-> | Hq0]. 2: { exfalso. destruct (admin_empty m G _ _ _ _ Hok Ha Hpair Hq0) as (_ & _ & E). congruence. }
  destruct (process_result m G 0 sq cq dq e posted0 Hok Hpair Hinv Hpost) as (cmds & p1 & Hcmds & Hpend & Hres).
  rewrite Hres in Hpr. injection Hpr as _ <-. destruct (finish_progress m G 0 sq cq dq e posted0 cmds p1 Hok Hpair Hinv Hpost Hcmds Hpend) as [Hpg _].
  pose proof Hpair as (_ & L1 & L2 & L3). assert (p1 = p) as -> by by apply (Ha 0%nat sq (ce_cid e)). split.
  - etrans; [exact Hb |]. constructor; try done.
    + intros q Hq0. cbn. by rewrite !list_lookup_insert_ne by lia.
    + unfold bells. cbn. rewrite !list_lookup_insert_eq by (by eapply lookup_lt_Some). by rewrite L1, L2.
    + intros r' H1 H2. unfold finish. rewrite reg_set_reg. destruct (decide (cq_doorbell cq = r')) as [<- | Hne]; [| done].
      exfalso. apply H2. cbn. by rewrite L2.
    + intros p' Hp'. cbn. by rewrite lookup_insert_ne.
  - intros q s cid p' Hqn Hs Hp'. destruct (pg_pending _ _ Hpg _ _ _ _ Hs Hp') as (s0 & Hs0 & Hp0). by apply (Ha q s0 cid).
Qed.

Lemma admin_pair m : admin_idle m -> exists G sq cq dq, queues_ok m G /\ has_pair m 0 sq cq dq /\ forall cid p', ~ pending sq cid p'.
Proof.
  intros ([G Hok] & Hnp). pose proof (qo_num _ _ Hok). destruct (qo_pair _ _ Hok 0%nat) as (sq & cq & dq & Hpair & _); [lia |]. exists G, sq, cq, dq.
  split; [done |]. split; [done |]. intros cid p'. destruct Hpair as (Hq & Hs & _). by apply (Hnp 0%nat).
Qed.

Lemma admin_not_pending m p' : admin_idle m -> not_pending m p'.
Proof. intros (_ & Hnp) q sq cq dq cid (Hq & L1 & _). by apply (Hnp q). Qed.

(** The next command. *)
Definition next_cmd (m : machine) (c : nvme_cmd) : Prop := exists sq, st_sq (m_st m) !! 0%nat = Some sq /\ sq_buf sq !! Z.to_nat (sq_tail sq) = Some c.

(** A command is written to the tail of the queue. *)
Lemma put_admin_ok c m : admin_idle m -> exists m1, put_admin c m = Ok m1 /\ admin_idle m1 /\ beside m m1 /\ next_cmd m1 c /\ m_mem m1 = m_mem m.
Proof.
  intros Had. destruct (admin_pair m Had) as (G & sq & cq & dq & Hok & Hpair & Hnp). pose proof Hpair as (_ & L1 & L2 & L3).
  destruct (qo_pair _ _ Hok 0%nat) as (sq' & cq' & dq' & Hpair' & Hsq & _); [by destruct Hpair |].
  destruct (has_pair_fun _ _ _ _ _ _ _ _ Hpair Hpair') as (<- & <- & <-). pose proof (tail_range _ _ _ _ Hsq). pose proof (si_size _ _ _ _ Hsq).
  apply lookup_lt_Some in L1 as Hlt.
  exists (put_cmd m 0 sq c). unfold put_admin. rewrite (geti_nat _ 0%nat _ L1 : geti _ 0 = _). cbn [mbind res_bind]. rewrite seti_ok by lia. cbn [mbind res_bind].
  rewrite (seti_ok (st_sq (m_st m)) 0) by lia. cbn [mbind res_bind]. split; [done |]. split; [| split; [| split; [| done]]].
  - split; [exists G; by eapply put_keeps |]. intros q s cid p' Hq Hs Hpd. cbn in Hs. destruct (decide (q = 0%nat)) as [-> | Hq0].
    + rewrite list_lookup_insert_eq in Hs by done. injection Hs as <-. by apply (Hnp cid p').
    + rewrite list_lookup_insert_ne in Hs by done. by apply (proj2 Had q s cid p').
  - constructor; try done.
    + intros q Hq. cbn. by rewrite list_lookup_insert_ne by lia.
    + unfold bells. cbn. rewrite list_lookup_insert_eq by done. by rewrite L1.
  - eexists. split; [cbn; by apply list_lookup_insert_eq |]. cbn. apply list_lookup_insert_eq. lia.
Qed.

(** ** What comes of a command

    The command [c] was carried out on the memory [M0], and [mm] is the memory after
    it; [st] is the status of the request. *)
Definition outcome (c : nvme_cmd) (M0 mm : mem) (st : Z) : Prop :=
  exists mx cid code, m_mem mx = M0 /\ 0 <= code < 2 ^ 15 /\ effect mx (set_cid cid c) code mm /\ flag st 0xfffe = negb (code =? 0).

(** While [c] is the command of the request [p]. *)
Record carried_at (c : nvme_cmd) (M0 : mem) (m : machine) (G : nat -> ghost) : Prop := {
  ca_cmd dq c' : m_dev m !! 0%nat = Some dq -> c' ∈ g_unf (G 0%nat) \/ c' ∈ d_work dq -> exists cid, c' = set_cid cid c;
  ca_mem : waits p m 0 -> g_posted (G 0%nat) = [] -> m_mem m = M0;
  ca_posted e : e ∈ g_posted (G 0%nat) -> outcome c M0 (m_mem m) (Z.lor (ce_status e) 1);
  ca_done rq : ~ waits p m 0 -> m_reqs m !! p = Some rq -> outcome c M0 (m_mem m) (req_status rq);
}.
Definition carried (c : nvme_cmd) (M0 : mem) (m : machine) : Prop := admin m /\ exists G, queues_ok m G /\ carried_at c M0 m G.

(** The identifiers in queue 0 are those of [p]. *)
Lemma admin_live m G sq cq dq cid : queues_ok m G -> admin m -> has_pair m 0 sq cq dq -> cid ∈ live (G 0%nat) dq -> pending sq cid p.
Proof.
  intros Hok Ha Hpair Hin. destruct (qo_pair _ _ Hok 0%nat) as (sq' & cq' & dq' & Hpair' & _ & _ & Hcid); [by destruct Hpair |].
  destruct (has_pair_fun _ _ _ _ _ _ _ _ Hpair Hpair') as (<- & <- & <-). apply (di_live _ _ _ _ _ Hcid) in Hin as [p' Hp']. destruct Hpair as (Hq & L1 & _).
  by destruct (Ha 0%nat sq cid p' Hq L1 Hp') as [_ <-].
Qed.
Lemma admin_work m G sq cq dq c : queues_ok m G -> admin m -> has_pair m 0 sq cq dq -> c ∈ d_work dq -> g_posted (G 0%nat) = [].
Proof.
  intros Hok Ha Hpair Hc. destruct (g_posted (G 0%nat)) as [| e l] eqn:Hp; [done |]. exfalso.
  destruct (qo_pair _ _ Hok 0%nat) as (sq' & cq' & dq' & Hpair' & _ & _ & Hcid); [by destruct Hpair |].
  destruct (has_pair_fun _ _ _ _ _ _ _ _ Hpair Hpair') as (<- & <- & <-). destruct (di_live _ _ _ _ _ Hcid) as [Hnd _].
  assert (c_cid c ∈ live (G 0%nat) dq /\ ce_cid e ∈ live (G 0%nat) dq) as [I1 I2].
  { unfold live. rewrite !elem_of_app, Hp. split; [right; left; by apply list_elem_of_fmap_2 | right; right; apply list_elem_of_here]. }
  pose proof (admin_live m G sq cq dq _ Hok Ha Hpair I1) as P1. pose proof (admin_live m G sq cq dq _ Hok Ha Hpair I2) as P2.
  destruct (qo_req _ _ Hok _ _ _ _ _ _ _ _ _ _ _ Hpair Hpair P1 P2) as [_ E].
  unfold live in Hnd. apply NoDup_app in Hnd as (_ & _ & Hnd). apply NoDup_app in Hnd as (_ & Hd & _).
  apply (Hd (c_cid c)); [by apply list_elem_of_fmap_2 |]. rewrite Hp, E. apply list_elem_of_here.
Qed.

Lemma code_flag code b : 0 <= code < 2 ^ 15 -> flag (Z.lor (2 * code + Z.b2z b) 1) 0xfffe = negb (code =? 0).
Proof.
  intros Hc. destruct (Z.eqb_spec code 0) as [-> | Hne]; [by destruct b |]. destruct (flag _ _) eqn:Hf; [done |]. by apply success_code in Hf.
Qed.

Lemma carried_dev c M0 m ev m' G : queues_ok m G -> carried c M0 m -> dev_step effect m ev m' -> carried c M0 m'.
Proof.
  intros _ (Ha & G1 & Hok & Hca) Hs.
  assert (admin m') as Ha' by (apply (beside_dev m m ev m' G1 Hok); done). split; [done |].
  inversion Hs as [q sq dq c1 Hq L1 L3 Hne Hc | q cq dq w1 c1 w2 spec rsv code mm Hq L2 L3 Hw Hne Hcode Heff]; subst;
    destruct (qo_pair _ _ Hok q Hq) as (sq' & cq' & dq' & Hpair & Hinv); pose proof Hpair as (_ & P1 & P2 & P3); simplify_eq;
    (destruct (decide (q = 0%nat)) as [-> | Hq0]; [| exfalso; destruct (admin_empty m G1 _ _ _ _ Hok Ha Hpair Hq0) as (E1 & E2 & _)]).
  - pose proof Hinv as (Hsq & _ & _). pose proof (fetch_unf _ _ _ _ _ Hsq Hne Hc) as Hu. exists (upd G1 0 (fetch_ghost (G1 0%nat))). split; [by apply (fetch_keeps m G1 0 sq cq' dq c1) |].
    destruct Hca as [C1 C2 C3 C4]. constructor; try done.
    intros dq1 c' Hd Hc1. cbn in Hd. rewrite list_lookup_insert_eq in Hd by by eapply lookup_lt_Some. injection Hd as <-.
    unfold upd in Hc1. rewrite decide_True in Hc1 by done. cbn in Hc1. apply (C1 dq c'); [done |]. rewrite Hu. rewrite elem_of_app, list_elem_of_singleton in Hc1. rewrite elem_of_cons. tauto.
  - destruct Hinv as (Hsq & _). pose proof (fetch_unf _ _ _ _ _ Hsq Hne Hc) as Hu. by rewrite E1 in Hu.
  - pose proof Hinv as (_ & Hcq & _). exists (upd G1 0 (post_ghost (G1 0%nat) (completion 0 dq c1 spec rsv code))).
    split; [apply (post_keeps m G1 0 sq' cq dq w1 c1 w2 spec rsv code mm); try done; by eapply cq_room |].
    assert (c1 ∈ d_work dq) as Hin by (rewrite Hw, elem_of_app; right; apply list_elem_of_here).
    assert (pending sq' (c_cid c1) p) as Hpend.
    { apply (admin_live m G1 sq' cq dq); try done. unfold live. rewrite !elem_of_app. right. left. by apply list_elem_of_fmap_2. }
    pose proof (admin_work m G1 sq' cq dq c1 Hok Ha Hpair Hin) as Hempty. assert (waits p m 0) as Hwaits by (by exists sq', (c_cid c1)).
    destruct Hca as [C1 C2 C3 C4]. destruct (C1 dq c1 L3 (or_intror Hin)) as [cid ->]. constructor.
    + intros dq1 c' Hd Hc1. cbn in Hd. rewrite list_lookup_insert_eq in Hd by by eapply lookup_lt_Some. injection Hd as <-.
      unfold upd in Hc1. rewrite decide_True in Hc1 by done. cbn in Hc1. apply (C1 dq c'); [done |]. rewrite Hw, elem_of_app, elem_of_cons. rewrite elem_of_app in Hc1. tauto.
    + intros _. unfold upd. rewrite decide_True by done. cbn. by destruct (g_posted (G1 0%nat)).
    + intros e He. unfold upd in He. rewrite decide_True in He by done. cbn in He. rewrite Hempty, app_nil_l, list_elem_of_singleton in He. subst e.
      exists m, cid, code. split; [by apply C2 |]. split; [done |]. split; [exact Heff |]. by apply code_flag.
    + intros rq Hnw. destruct Hnw. by exists sq', (c_cid (set_cid cid c)).
  - rewrite Hw in E2. by destruct w1.
Qed.

Lemma carried_process c M0 m G q r m' : queues_ok m G -> carried c M0 m -> Z.of_nat q <= st_num_iosq (m_st m) ->
  nvme_process_cqe m (Z.of_nat q) = Ok (r, m') -> carried c M0 m'.
Proof.
  intros _ (Ha & G1 & Hok & Hca) Hq Hpr. assert (admin m') as Ha' by (apply (beside_process m m G1 q r m' Hok); done). split; [done |].
  destruct (qo_pair _ _ Hok q Hq) as (sq & cq & dq & Hpair & Hinv). destruct (g_posted (G1 q)) as [| e posted0] eqn:Hpost.
  { rewrite (process_idle _ _ _ Hok Hq Hpost) in Hpr. injection Hpr as _ <-. by exists G1. }
  destruct (decide (q = 0%nat)) as [-> | Hq0]. 2: { exfalso. destruct (admin_empty m G1 _ _ _ _ Hok Ha Hpair Hq0) as (_ & _ & E). congruence. }
  destruct (process_result m G1 0 sq cq dq e posted0 Hok Hpair Hinv Hpost) as (cmds & p1 & Hcmds & Hpend & Hres).
  rewrite Hres in Hpr. injection Hpr as _ <-. pose proof Hpair as (_ & L1 & L2 & L3). assert (p1 = p) as -> by by apply (Ha 0%nat sq (ce_cid e)).
  exists (upd G1 0 (pop_ghost (G1 0%nat))). split; [by eapply process_keeps |].
  assert (g_unf (pop_ghost (G1 0%nat)) = g_unf (G1 0%nat) /\ forall e', e' ∈ g_posted (pop_ghost (G1 0%nat)) -> e' ∈ g_posted (G1 0%nat)) as [Hunf Hsub].
  { unfold pop_ghost. rewrite Hpost. destruct (g_ks (G1 0%nat)); [by rewrite Hpost |]. split; [done |]. intros. by apply list_elem_of_further. }
  destruct Hca as [C1 C2 C3 C4]. constructor.
  - intros dq1 c1 Hd Hc1. unfold upd in Hc1. rewrite decide_True, Hunf in Hc1 by done. by apply (C1 dq1).
  - intros (s & cid & Hs & Hp'). exfalso. cbn in Hs. rewrite list_lookup_insert_eq in Hs by by eapply lookup_lt_Some. injection Hs as <-.
    pose proof Hinv as (_ & _ & Hcid). destruct (pending_range _ _ _ _ _ _ _ _ Hcid Hcmds Hpend) as [Hr _]. destruct (di_cmds _ _ _ _ _ Hcid) as (cm & Hcm & Hl & _). rewrite Hcmds in Hcm. injection Hcm as <-.
    apply pending_release in Hp' as [Hp' Hne]; [| done | lia]. by destruct (qo_req _ _ Hok _ _ _ _ _ _ _ _ _ _ _ Hpair Hpair Hp' Hpend) as [_ ?].
  - intros e1 He. unfold upd in He. rewrite decide_True in He by done. by apply (C3 e1), Hsub.
  - intros rq _ Hrq. cbn in Hrq. rewrite lookup_insert_eq in Hrq. injection Hrq as <-. apply (C3 e). rewrite Hpost. apply list_elem_of_here.
Qed.

(** The request is made. *)
Context (Hp : p <> 0).

Lemma admin_submit_ok c m r0 : admin_idle m -> next_cmd m c -> m_reqs m !! p = Some r0 ->
  exists m2 G2, nvme_submit_single_command m 0 p = Ok (true, m2) /\ queues_ok m2 G2 /\ beside m m2 /\ carried c (m_mem m) m2 /\ waits p m2 0 /\
    is_Some (m_reqs m2 !! p) /\ m_time m2 = m_time m.
Proof.
  intros Had (sqc & Hsqc & Hnext) Hr0. destruct (admin_pair m Had) as (G & sq & cq & dq & Hok & Hpair & Hnp). pose proof Hpair as (_ & L1 & L2 & L3).
  destruct (submit_empty m G 0 sq cq dq p r0 Hok Hpair Hnp Hr0) as (cmds & cid & cmd & Hcmds & Hci & Hz & Hcmd & Hroom & Hres).
  destruct (qo_pair _ _ Hok 0%nat) as (sq' & cq' & dq' & Hpair' & Hinv); [by destruct Hpair |].
  destruct (has_pair_fun _ _ _ _ _ _ _ _ Hpair Hpair') as (<- & <- & <-). apply lookup_lt_Some in L1 as Hlt.
  set (sq2 := sq_set_tail (<[Z.to_nat (sq_tail sq) := set_cid cid cmd]> (sq_buf sq)) (advance (sq_size sq) (sq_tail sq)) (<[Z.to_nat cid := p]> cmds) sq).
  assert (forall cid' p', pending sq2 cid' p' <-> (cid' = cid /\ p' = p) \/ pending sq cid' p') as Hpend by (intros; apply pending_tail; done || lia).
  exists (submitted m 0 sq cmd cid p r0 cmds), (upd G 0 (submit_ghost (G 0%nat) (set_cid cid cmd))). split; [done |].
  assert (sqc = sq) as -> by congruence. assert (c = cmd) as -> by congruence.
  set (m2 := submitted m 0 sq cmd cid p r0 cmds) in *. assert (st_sq (m_st m2) !! 0%nat = Some sq2) as HL1 by (cbn; by apply list_lookup_insert_eq).
  assert (queues_ok m2 (upd G 0 (submit_ghost (G 0%nat) (set_cid cid cmd)))) as Hok2 by (apply (submit_keeps m G 0 sq cq dq cmd cid p _ cmds); try done; by apply admin_not_pending).
  assert (waits p m2 0) as Hw2 by (exists sq2, cid; split; [done |]; apply Hpend; by left).
  destruct (not_pending_empty m G 0 sq cq dq Hok Hpair Hnp) as (Hu & Hw & Hpo & _).
  split; [done |]. split; [| split; [split |]]; [| | | split; [done | split; [| done]]].
  - constructor; try done.
    + intros q Hq. cbn. by rewrite list_lookup_insert_ne by lia.
    + unfold bells. by rewrite HL1, L1.
    + intros r' H1 _. unfold m2, submitted. rewrite reg_set_reg. destruct (decide (sq_doorbell sq = r')) as [<- | Hne]; [| done].
      exfalso. apply H1. unfold bells. by rewrite L1.
    + intros p' Hp'. cbn. by rewrite !lookup_insert_ne.
  - intros q s cid' p' Hq Hs Hpd. destruct (decide (q = 0%nat)) as [-> | Hq0].
    + rewrite HL1 in Hs. injection Hs as <-. apply Hpend in Hpd as [[_ ->] | Hpd]; [done |]. by apply Hnp in Hpd.
    + cbn in Hs. rewrite list_lookup_insert_ne in Hs by done. by apply (proj2 Had q s cid' p') in Hpd.
  - eexists. split; [exact Hok2 |]. constructor.
    + intros dq1 c' Hd Hc. change (m_dev m2) with (m_dev m) in Hd. assert (dq1 = dq) as -> by congruence.
      unfold upd in Hc. rewrite decide_True, Hw in Hc by done. cbn in Hc. rewrite Hu in Hc. cbn in Hc. rewrite list_elem_of_singleton in Hc.
      destruct Hc as [-> | Hc]; [by eexists | by apply not_elem_of_nil in Hc].
    + done.
    + intros e He. unfold upd in He. rewrite decide_True in He by done. cbn in He. rewrite Hpo in He. by apply not_elem_of_nil in He.
    + done.
  - cbn. rewrite lookup_insert_eq. by eexists.
Qed.

Context (tick : nat -> machine -> machine) (csts : nat -> Z) (wait_fuel T : nat).
Context (Htick : forall t m G, queues_ok m G -> rtc (dev_move effect) m (tick t m)).
Context (Hdead : forall t m G q sq cq dq, (T <= t)%nat -> queues_ok m G -> has_pair m q sq cq dq -> waits p m q -> unread cq = [] -> answered (tick t m) q p).
Context (Hfuel : (T < wait_fuel)%nat).

(** The command is carried out; the result is an error, or that of the
    controller. *)
Lemma admin_wait_ok c m : admin_idle m -> next_cmd m c ->
  exists r m', wait_single_command tick csts wait_fuel m 0 p = Ok (r, m') /\ beside m m' /\ (m_time m <= m_time m')%nat /\
    (r = IOST_GLOBAL /\ (exists t, flag (csts t) NVME_CSTS_CFS = true) \/
     admin_idle m' /\ exists mx cid code, m_mem mx = m_mem m /\ effect mx (set_cid cid c) code (m_mem m') /\ r = if code =? 0 then IOST_OK else IOST_LOCAL).
Proof.
  intros Had Hnext. set (m1 := set_reqs (<[p := Req (0, 0) 0 0]> (m_reqs m)) m).
  assert (admin_idle m1) as Had1.
  { pose proof (admin_not_pending m p Had) as Hnp. destruct Had as ([G Hok] & Hnpd). split; [exists G; by apply req_keeps | done]. }
  assert (beside m m1) as Hb1. { constructor; try done. intros p' Hp'. cbn. by rewrite lookup_insert_ne. }
  destruct (admin_submit_ok c m1 (Req (0, 0) 0 0) Had1) as (m2 & G2 & Hres & Hok2 & Hb2 & Ha2 & Hw2 & [rq2 Hrq2] & Ht2); [exact Hnext | apply lookup_insert_eq |].
  change (m_mem m1) with (m_mem m) in Ha2.
  unfold wait_single_command. fold m1. rewrite Hres. cbn [mbind res_bind negb]. change (m_time m1) with (m_time m) in Ht2.
  destruct (wait_loop_ok effect tick csts Htick (fun m' => beside m m' /\ carried c (m_mem m) m')) with (p := p) (T := T) (fuel := wait_fuel) (m := m2) (G := G2)
    as (m' & G' & r & Hr & Hok' & [Hb' [Ha' (G1 & Hok1 & Hca)]] & Hpg & Hw); try done; try lia.
  { intros m3 ev m4 G3 ? [? Hc] ?. split; [apply (beside_dev m m3 ev m4 G3); try done; by destruct Hc | by apply (carried_dev c (m_mem m) m3 ev m4 G3)]. }
  { intros m3 G3 q r m4 H3 [? Hc] Hq Hpr. split; [apply (beside_process m m3 G3 q r); try done; by destruct Hc | by apply (carried_process c (m_mem m) m3 G3 q r)]. }
  { intros m3 t [Hb3 (H3 & G3 & H4 & H5)]. split; [by destruct Hb3 |]. split; [exact H3 |]. exists G3. split; [by destruct H4 | by destruct H5]. }
  { split; [by etrans | done]. }
  { exists rq2. split; [done |]. left. exists 0%nat. split; [pose proof (qo_num _ _ Hok2); lia | done]. }
  exists r, m'. split; [done |]. split; [done |]. split; [rewrite <- Ht2; exact (pg_time _ _ Hpg) |]. destruct Hw as [(Hnw & rq & Hrq & _ & ->) | Hw]; [right | by left].
  assert (~ waits p m' 0) as Hnw0 by (apply Hnw; pose proof (qo_num _ _ Hok'); lia).
  split. 2: { destruct (ca_done _ _ _ _ Hca rq Hnw0 Hrq) as (mx & cid & code & E1 & _ & E2 & E3). exists mx, cid, code. split; [done |]. split; [done |]. rewrite E3. by destruct (code =? 0). }
  split; [by exists G' |]. intros q s cid' p' Hq Hs Hpd.
  destruct (Ha' q s cid' p' Hq Hs Hpd) as [-> ->]. apply (Hnw 0%nat Hq). by exists s, cid'.
Qed.
End Admin.

(** The rest of the machine can change. *)
Lemma admin_change m m' : admin_idle m -> st_num_iosq (m_st m) = 0 -> st_num_iosq (m_st m') = 0 -> 0 <= st_num_iocq (m_st m') ->
  st_sq (m_st m') !! 0%nat = st_sq (m_st m) !! 0%nat -> st_cq (m_st m') !! 0%nat = st_cq (m_st m) !! 0%nat -> m_dev m' !! 0%nat = m_dev m !! 0%nat ->
  (forall r, Some r = (bells m).1 \/ Some r = (bells m).2 -> reg m' r = reg m r) -> m_reqs m' = m_reqs m ->
  (forall q, 0 < Z.of_nat q <= st_num_iocq (m_st m') -> spare m' q) -> admin_idle m'.
Proof.
  intros ([G Hok] & Hnp) Hn Hn' Hc' Hs Hc Hd Hr Hq Hsp. split.
  - assert (forall q sq cq dq, has_pair m' q sq cq dq -> has_pair m q sq cq dq /\ q = 0%nat) as Hback.
    { intros q sq cq dq (H1 & H2 & H3 & H4). assert (q = 0%nat) as -> by lia. split; [| done]. unfold has_pair. rewrite <- Hs, <- Hc, <- Hd. split; [lia | done]. }
    exists G. constructor.
    + lia.
    + intros q Hq0. rewrite Hn' in Hq0. assert (q = 0%nat) as -> by lia. destruct (qo_pair _ _ Hok 0%nat) as (sq & cq & dq & Hpair & H1 & H2 & H3); [lia |].
      pose proof Hpair as (_ & L1 & L2 & L3). exists sq, cq, dq. split; [unfold has_pair; rewrite Hs, Hc, Hd; split; [lia | done] |].
      unfold pair_inv, bells in *. rewrite L1, L2 in Hr. cbn in Hr. rewrite !Hr, Hq by auto. done.
    + intros q sq cq dq q' sq' cq' dq' [H1 ->]%Hback [H2 ->]%Hback. by apply (qo_regs _ _ Hok _ _ _ _ _ _ _ _ H1 H2).
    + intros q sq cq dq cid q' sq' cq' dq' cid' p [H1 ->]%Hback [H2 ->]%Hback. by apply (qo_req _ _ Hok _ _ _ _ _ _ _ _ _ _ _ H1 H2).
    + intros q Hq0. apply Hsp. lia.
  - intros q sq cid p Hq0. rewrite Hn' in Hq0. assert (q = 0%nat) as -> by lia. rewrite Hs. apply Hnp. lia.
Qed.

(** ** [nvme_init_queues] *)
Section Queues1.
Context (p : Z) (acc : Z -> Prop) (dstrd lba_shift : Z) (w0 : gmap Z Z) (reqs0 : gmap Z nvme_req).

(** The first queue is set up; the second one has the driver's side [sq1] and
    [cq1], and [n] is the number of completion queues for I/O.  The addresses in
    [acc] are accessible. *)
Record bring (m : machine) (sq1 : nvme_sq) (cq1 : nvme_cq) (n : Z) : Prop := {
  br_idle : admin_idle m;
  br_num : st_num_iosq (m_st m) = 0;
  br_st : st_num_iocq (m_st m) = n /\ Z.shiftl 4 (nvme_extr_cap_dstrd (st_cap (m_st m))) = dstrd /\ st_lba_shift (m_st m) = lba_shift;
  br_bells : bells m = (Some 0x1000, Some (0x1000 + dstrd));
  br_io : st_sq (m_st m) !! 1%nat = Some sq1 /\ st_cq (m_st m) !! 1%nat = Some cq1 /\ m_dev m !! 1%nat = Some fresh_dq;
  br_regs : reg m (0x1000 + 2 * dstrd) = 0 /\ reg m (0x1000 + 3 * dstrd) = 0;
  br_mem x : acc x -> is_Some (m_mem m !! x);
  br_words : m_words m = w0;
  br_reqs p' : p' <> p -> m_reqs m !! p' = reqs0 !! p';
}.
Context (Hdstrd : 0 < dstrd).

Lemma bring_beside m sq1 cq1 n m' : bring m sq1 cq1 n -> beside p m m' -> admin_idle m' -> bring m' sq1 cq1 n.
Proof.
  intros [B1 B0 (B2 & B3 & B4) B5 B6 (B7 & B8) B9 B10 B11] [E1 E2 E3 E4 E5 E6 E7] Had. unfold scalars in E1. injection E1 as E11 E12 E13 E14 E15 E16.
  destruct (E2 1%nat ltac:(done)) as (F1 & F2 & F3). rewrite B5 in E4. cbn [fst snd] in E4. constructor.
  - done.
  - congruence.
  - rewrite E16, E11, E14. done.
  - congruence.
  - rewrite F1, F2, F3. done.
  - rewrite !E4; [done | | | |]; intros [= H]; lia.
  - intros x Hx. by apply E7, B9.
  - congruence.
  - intros p' Hp'. rewrite E5 by done. by apply B11.
Qed.

(** Parts of the driver's state are changed that an administration command does
    not use. *)
Lemma bring_change m sq1 cq1 n m' sq1' cq1' n' : bring m sq1 cq1 n -> 0 <= n' ->
  st_num_iosq (m_st m') = 0 -> st_num_iocq (m_st m') = n' -> st_cap (m_st m') = st_cap (m_st m) -> st_lba_shift (m_st m') = st_lba_shift (m_st m) ->
  st_sq (m_st m') !! 0%nat = st_sq (m_st m) !! 0%nat -> st_cq (m_st m') !! 0%nat = st_cq (m_st m) !! 0%nat -> m_dev m' = m_dev m ->
  st_sq (m_st m') !! 1%nat = Some sq1' -> st_cq (m_st m') !! 1%nat = Some cq1' ->
  (forall r, 0x1000 <= r -> reg m' r = reg m r) -> m_reqs m' = m_reqs m -> m_mem m' = m_mem m -> m_words m' = m_words m ->
  (forall q, 0 < Z.of_nat q <= n' -> spare m' q) -> bring m' sq1' cq1' n'.
Proof.
  intros [B1 B0 (B2 & B3 & B4) B5 B6 (B7 & B8) B9 B10 B11] Hn' Hs Hc Hcap Hl S0 C0 D S1 C1 R Q M W Hsp.
  assert (bells m' = bells m) as Hb by (unfold bells; by rewrite S0, C0). constructor.
  - apply (admin_change m); try done; rewrite ?Hc, ?D; try done. intros r Hr. apply R. rewrite B5 in Hr. cbn in Hr. destruct Hr as [[= ->] | [= ->]]; lia.
  - done.
  - rewrite Hcap, Hl. done.
  - by rewrite Hb.
  - rewrite D. destruct B6 as (_ & _ & ?). done.
  - rewrite !R by lia. done.
  - intros x Hx. rewrite M. by apply B9.
  - congruence.
  - intros p' Hp'. rewrite Q. by apply B11.
Qed.
(** The second queue goes into use. *)
Lemma bring_final x0 m sq1 size m' : bring m sq1 (fresh_cq (0x1000 + 3 * dstrd) size) 1 -> 0 < size < 65535 ->
  sq_free sq1 -> sq_tail sq1 = 0 -> sq_head sq1 = 0 -> sq_doorbell sq1 = 0x1000 + 2 * dstrd ->
  m' = set_st (set_num 1 1 (set_sqs (<[1%nat := sq_set_cq 1 sq1]> (st_sq (m_st m))) (m_st m))) m ->
  xfer_static x0 w0 -> xf_req x0 <> p -> (exists r, reqs0 !! xf_req x0 = Some r /\ req_status r <> NVME_SUBMITTED) -> idle lba_shift x0 m'.
Proof.
  intros [B1 B0 (B2 & B3 & B4) B5 (S1 & C1 & D1) (R1 & R2) B9 B10 B11] Hsize Hf Ht Hh Hd Hm' Hx Hne Hrq.
  destruct B1 as ([G Hok] & Hnp). destruct (qo_pair _ _ Hok 0%nat) as (sq & cq & dq & Hpair & Hinv); [lia |]. pose proof Hpair as (_ & L1 & L2 & L3).
  assert (sq_doorbell sq = 0x1000 /\ cq_doorbell cq = 0x1000 + dstrd) as [E1 E2] by (unfold bells in B5; rewrite L1, L2 in B5; by injection B5).
  assert (forall q s c d, has_pair m' q s c d -> q = 0%nat /\ s = sq /\ c = cq /\ d = dq \/
    q = 1%nat /\ s = sq_set_cq 1 sq1 /\ c = fresh_cq (0x1000 + 3 * dstrd) size /\ d = fresh_dq) as Hback.
  { intros q s c d (H1 & H2 & H3 & H4). rewrite Hm' in H1, H2, H3, H4. cbn in H1, H2, H3, H4. assert (q = 0%nat \/ q = 1%nat) as [-> | ->] by lia; [left | right].
    - rewrite list_lookup_insert_ne in H2 by done. split; [done |]. split_and!; congruence.
    - rewrite list_lookup_insert_eq in H2 by (by eapply lookup_lt_Some). split; [done |]. split_and!; congruence. }
  assert (forall q s c d cid p', has_pair m' q s c d -> ~ pending s cid p') as Hnone.
  { intros q s c d cid p' [(-> & -> & _) | (-> & -> & _)]%Hback; [apply (Hnp 0%nat); [lia | done] |]. apply sq_free_pending. destruct Hf as [F1 F2]. by constructor. }
  exists (upd G 1 no_ghost). constructor.
  - constructor.
    + rewrite Hm'. cbn. lia.
    + intros q Hq. rewrite Hm' in Hq. cbn in Hq. assert (q = 0%nat \/ q = 1%nat) as [-> | ->] by lia.
      * exists sq, cq, dq. split; [| rewrite Hm'; exact Hinv]. rewrite Hm'. split; [cbn; lia |]. cbn. by rewrite list_lookup_insert_ne.
      * exists (sq_set_cq 1 sq1), (fresh_cq (0x1000 + 3 * dstrd) size), fresh_dq. split.
        -- rewrite Hm'. split; [cbn; lia |]. cbn. rewrite list_lookup_insert_eq by (by eapply lookup_lt_Some). done.
        -- unfold upd. rewrite decide_True by done. apply fresh_pair; try done; [destruct Hf as [F1 F2]; by constructor | |]; rewrite Hm'; [| exact R2].
           cbn [sq_set_cq sq_doorbell]. rewrite Hd. exact R1.
    + intros q s c d q' s' c' d' [(-> & -> & -> & ->) | (-> & -> & -> & ->)]%Hback [(-> & -> & -> & ->) | (-> & -> & -> & ->)]%Hback;
        cbn [sq_set_cq sq_doorbell fresh_cq cq_doorbell]; rewrite ?E1, ?E2, ?Hd; (split; [lia |]); intros ?; (done || split; lia).
    + intros q s c d cid q' s' c' d' cid' p' Hp _ Hpd. by apply (Hnone _ _ _ _ _ _ Hp) in Hpd.
    + intros q Hq. rewrite Hm' in Hq. cbn in Hq. lia.
  - rewrite Hm'. split; [done |]. exact B4.
  - intros q s cid p' Hq Hs. rewrite Hm' in Hs. cbn in Hs. assert (q = 0%nat \/ q = 1%nat) as [-> | ->] by lia.
    + rewrite list_lookup_insert_ne in Hs by done. apply (Hnp 0%nat); [lia | done].
    + rewrite list_lookup_insert_eq in Hs by (by eapply lookup_lt_Some). injection Hs as <-. apply sq_free_pending. destruct Hf as [F1 F2]. by constructor.
  - rewrite Hm'. cbn. by rewrite B10.
  - rewrite Hm'. cbn. by rewrite B11.
Qed.
End Queues1.

Lemma init_iosq_ok f m sq1 : st_sq (m_st m) !! 1%nat = Some sq1 ->
  init_iosq f m = Ok (set_st (set_sqs (<[1%nat := f sq1]> (st_sq (m_st m))) (m_st m)) m).
Proof.
  intros H. apply lookup_lt_Some in H as Hlt. unfold init_iosq. rewrite (geti_nat _ 1%nat _ H : geti _ 1 = _). cbn [mbind res_bind].
  rewrite seti_ok by lia. done.
Qed.

Lemma init_iocq_ok m cq1 dstrd : st_cq (m_st m) !! 1%nat = Some cq1 -> Z.shiftl 4 (nvme_extr_cap_dstrd (st_cap (m_st m))) = dstrd ->
  init_iocq m = Ok (set_st (set_cqs (<[1%nat := fresh_cq (0x1000 + 3 * dstrd) (cq_size cq1)]> (st_cq (m_st m))) (m_st m)) m).
Proof.
  intros H <-. apply lookup_lt_Some in H as Hlt. unfold init_iocq. rewrite (geti_nat _ 1%nat _ H : geti _ 1 = _). cbn [mbind res_bind].
  rewrite seti_ok by lia. done.
Qed.

(** ** The administration commands of a drive

    The commands that matter here, from the fields of a command: identifying the
    controller or a namespace, asking for numbers of queues, and creating a completion
    or a submission queue (physically contiguous, and without interrupts). *)
Inductive admin_cmd : Type :=
| IdentifyController (addr : Z)
| IdentifyNamespace (nsid addr : Z)
| NumberOfQueues (sqs cqs : Z)
| CreateCq (id entries addr : Z)
| CreateSq (id entries addr cq : Z).
Definition decode_admin (c : nvme_cmd) : option admin_cmd :=
  if c_opc c =? 6 then
    if c_dw10 c mod 256 =? 1 then Some (IdentifyController (c_dptr0 c))
    else if c_dw10 c mod 256 =? 0 then Some (IdentifyNamespace (c_nsid c) (c_dptr0 c)) else None
  else if c_opc c =? 9 then
    if c_dw10 c mod 256 =? 7 then Some (NumberOfQueues (c_dw11 c mod 2 ^ 16 + 1) (c_dw11 c / 2 ^ 16 + 1)) else None
  else if c_opc c =? 5 then
    if c_dw11 c mod 4 =? 1 then Some (CreateCq (c_dw10 c mod 2 ^ 16) (c_dw10 c / 2 ^ 16 + 1) (c_dptr0 c)) else None
  else if c_opc c =? 1 then
    if Z.testbit (c_dw11 c) 0 then Some (CreateSq (c_dw10 c mod 2 ^ 16) (c_dw10 c / 2 ^ 16 + 1) (c_dptr0 c) (c_dw11 c / 2 ^ 16)) else None
  else None.

(** Little-endian fields of the data that a drive identifies itself with. *)
Fixpoint le_field (f : Z -> Z) (off : Z) (n : nat) : Z :=
  match n with O => 0 | S n => f off + 256 * le_field f (off + 1) n end.

(** A drive: the data of the controller and of its namespaces, and whether it reports
    an error for a command that is correct. *)
Record drive : Type := Drive { dr_controller : Z -> Z; dr_namespace : Z -> Z -> Z; dr_fails : Prop }.
Definition dr_namespaces (dr : drive) : Z := le_field (dr_controller dr) 516 4.
Record drive_bytes (dr : drive) : Prop := {
  db_controller i : is_byte (dr_controller dr i);
  db_namespace nsid i : is_byte (dr_namespace dr nsid i);
}.
(** The queues for I/O that the driver works with. *)
Record layout : Type := Layout { io_cq_entries : Z; io_cq_addr : Z; io_sq_entries : Z; io_sq_addr : Z }.

(** The drive takes the commands that fit these queues, and identifies itself to whole
    pages; everything else is an error. *)
Definition accepts (dr : drive) (lay : layout) (a : admin_cmd) : bool :=
  match a with
  | IdentifyController addr => addr mod 4096 =? 0
  | IdentifyNamespace nsid addr => (1 <=? nsid) && (nsid <=? dr_namespaces dr) && (addr mod 4096 =? 0)
  | NumberOfQueues sqs cqs => (sqs =? 1) && (cqs =? 1)
  | CreateCq id entries addr => (id =? 1) && (entries =? io_cq_entries lay) && (addr =? io_cq_addr lay)
  | CreateSq id entries addr cq => (id =? 1) && (entries =? io_sq_entries lay) && (addr =? io_sq_addr lay) && (cq =? 1)
  end.
Definition page_written (addr : Z) (f : Z -> Z) (M0 mm : mem) : Prop :=
  (forall i, 0 <= i < 4096 -> mm !! (addr + i) = Some (f i)) /\ forall x, ~ (addr <= x < addr + 4096) -> mm !! x = M0 !! x.
Definition admin_mem (dr : drive) (a : admin_cmd) (M0 mm : mem) : Prop :=
  match a with
  | IdentifyController addr => page_written addr (dr_controller dr) M0 mm
  | IdentifyNamespace nsid addr => page_written addr (dr_namespace dr nsid) M0 mm
  | _ => mm = M0
  end.
Definition drive_effect (dr : drive) (lay : layout) (m : machine) (c : nvme_cmd) (code : Z) (mm : mem) : Prop :=
  (forall x, is_Some (m_mem m !! x) -> is_Some (mm !! x)) /\
  match decode_admin c with
  | Some a => if accepts dr lay a then code = 0 /\ admin_mem dr a (m_mem m) mm \/ code <> 0 /\ dr_fails dr else code <> 0
  | None => code <> 0
  end.

Lemma page_ld8 addr f M0 mm i : page_written addr f M0 mm -> 0 <= i < 4096 -> ld8 mm (addr + i) = Ok (f i).
Proof. intros [H _] Hi. unfold ld8. by rewrite H. Qed.

(** Registers below the doorbells, and their copy in the driver. *)
Definition same_low (m m' : machine) : Prop := (forall r, r < 0x1000 -> reg m' r = reg m r) /\ st_cfg (m_st m') = st_cfg (m_st m) /\ st_cap (m_st m') = st_cap (m_st m).
#[export] Instance same_low_preorder : PreOrder same_low.
Proof.
  split; [done |]. intros m1 m2 m3 (A1 & A2 & A3) (B1 & B2 & B3). split; [| split; congruence]. intros r Hr. rewrite B1, A1 by done. done.
Qed.

Section Start.
Context (dr : drive) (lay : layout) (Hbytes : drive_bytes dr).
Context (tick : nat -> machine -> machine) (csts : nat -> Z) (wait_fuel T : nat) (p idctl : Z) (acc : Z -> Prop).
Context (Hp : p <> 0) (Hpage : idctl mod 4096 = 0).
Context (Htick : forall t m G, queues_ok m G -> rtc (dev_move (drive_effect dr lay)) m (tick t m)).
Context (Hdead : forall t m G q sq cq dq, (T <= t)%nat -> queues_ok m G -> has_pair m q sq cq dq -> waits p m q -> unread cq = [] -> answered (tick t m) q p).
Context (Hfuel : (T < wait_fuel)%nat).
Context (dstrd lba_shift : Z) (w0 : gmap Z Z) (reqs0 : gmap Z nvme_req) (Hdstrd : 0 < dstrd).
Abbreviation bring := (bring p acc dstrd lba_shift w0 reqs0).

(** The drive reports an error for a correct command, or a fatal one. *)
Definition complaint : Prop := dr_fails dr \/ exists t, flag (csts t) NVME_CSTS_CFS = true.

Lemma drive_dom m c code mm : drive_effect dr lay m c code mm -> forall x, is_Some (m_mem m !! x) -> is_Some (mm !! x).
Proof. by intros [H _]. Qed.

(** A command that the drive takes: it is carried out, unless the drive complains. *)
Lemma admin_run c a m : admin_idle m -> decode_admin c = Some a -> accepts dr lay a = true ->
  exists r m1 m', put_admin c m = Ok m1 /\ wait_single_command tick csts wait_fuel m1 0 p = Ok (r, m') /\ beside p m m' /\
    (r <> IOST_OK -> complaint) /\ (r = IOST_OK -> admin_idle m' /\ admin_mem dr a (m_mem m) (m_mem m')).
Proof.
  intros Had Hdec Hacc. destruct (put_admin_ok p c m Had) as (m1 & Hput & Had1 & Hb1 & Hn1 & Hm1).
  destruct (admin_wait_ok p (drive_effect dr lay) drive_dom Hp tick csts wait_fuel T Htick Hdead Hfuel c m1 Had1 Hn1) as (r & m' & Hwait & Hb2 & _ & Hres).
  exists r, m1, m'. split; [done |]. split; [done |]. split; [by etrans |]. destruct Hres as [[-> Ht] | (Had' & mx & cid & code & Hmx & [_ Heff] & ->)]; [split; [by right | done] |].
  change (decode_admin (set_cid cid c)) with (decode_admin c) in Heff. rewrite Hdec, Hacc, Hmx, Hm1 in Heff. destruct Heff as [[-> Hmem] | [Hne Hf]]; [done |].
  rewrite (proj2 (Z.eqb_neq code 0) Hne). split; [by left | done].
Qed.

(** A command, and what is known after it. *)
Lemma bring_cmd c a m sq1 cq1 n {A} (k : Z * machine -> res A) (P : A -> Prop) : bring m sq1 cq1 n -> decode_admin c = Some a -> accepts dr lay a = true ->
  (forall r m', r <> IOST_OK -> complaint -> exists a, k (r, m') = Ok a /\ P a) ->
  (forall m', bring m' sq1 cq1 n -> same_low m m' -> admin_mem dr a (m_mem m) (m_mem m') -> exists a, k (IOST_OK, m') = Ok a /\ P a) ->
  exists a, (m1 ← put_admin c m; rm ← wait_single_command tick csts wait_fuel m1 0 p; k rm) = Ok a /\ P a.
Proof.
  intros Hb Hdec Hacc Herr Hok. destruct (admin_run c a m (br_idle _ _ _ _ _ _ _ _ _ _ Hb) Hdec Hacc) as (r & m1 & m' & -> & Hwait & Hbe & Hbad & Hgood). cbn [mbind res_bind]. rewrite Hwait. cbn [mbind res_bind].
  destruct (Z.eq_dec r IOST_OK) as [-> | Hr]; [| by apply Herr; auto]. destruct (Hgood eq_refl) as [Had' Hmem].
  apply Hok; [by eapply bring_beside | | done]. split.
  - intros r Hr. apply (be_regs _ _ _ Hbe); rewrite (br_bells _ _ _ _ _ _ _ _ _ _ Hb); intros [= ->]; lia.
  - pose proof (be_st _ _ _ Hbe) as E. unfold scalars in E. by injection E.
Qed.

Context (x0 : nvme_xfer) (Hx : xfer_static x0 w0) (Hxp : xf_req x0 <> p) (Hxr : exists r, reqs0 !! xf_req x0 = Some r /\ req_status r <> NVME_SUBMITTED).

(** The entries of the queues are larger than what the driver uses. *)
Definition large_entries : Prop := 6 < dr_controller dr 512 mod 16 \/ 4 < dr_controller dr 513 mod 16.
(** What [nvme_init_queues] returns, from the machine [m0]: an error for which there is
    a reason; or the queues are ready, the data of the controller are in the buffer,
    and of the registers below the doorbells only the configuration was changed, to
    entries of [2 ^ 4] and [2 ^ 6] bytes. *)
Definition started (m0 : machine) (a : Z * machine) : Prop :=
  (a.1 <> IOST_OK -> complaint \/ large_entries) /\
  (a.1 = IOST_OK -> idle lba_shift x0 a.2 /\ (forall i, 0 <= i < 4096 -> m_mem a.2 !! (idctl + i) = Some (dr_controller dr i)) /\ (forall x, acc x -> is_Some (m_mem a.2 !! x)) /\
     (forall r, r < 0x1000 -> r <> NVME_REG_CONFIG -> reg a.2 r = reg m0 r) /\ reg a.2 NVME_REG_CONFIG = Z.lor (st_cfg (m_st m0)) 0x460000 /\ st_cap (m_st a.2) = st_cap (m_st m0)).

Lemma started_error m0 r m : r <> IOST_OK -> complaint \/ large_entries -> exists a, Ok (r, m) = Ok a /\ started m0 a.
Proof. intros H Hc. exists (r, m). split; [done |]. split; [done |]. intros E. done. Qed.

(** From the creation of the completion queue on. *)
Lemma create_iosq_ok m0 m sq1 size sq_addr : bring m sq1 (fresh_cq (0x1000 + 3 * dstrd) size) 0 -> 0 < size < 65535 ->
  sq_free sq1 -> sq_tail sq1 = 0 -> sq_head sq1 = 0 -> io_sq_entries lay = 4 -> io_sq_addr lay = plat_virt_to_phys sq_addr ->
  (forall i, 0 <= i < 4096 -> m_mem m !! (idctl + i) = Some (dr_controller dr i)) ->
  (forall r, r < 0x1000 -> r <> NVME_REG_CONFIG -> reg m r = reg m0 r) -> reg m NVME_REG_CONFIG = Z.lor (st_cfg (m_st m0)) 0x460000 -> st_cap (m_st m) = st_cap (m_st m0) ->
  exists a,
    (let m := set_st (set_num (st_num_iosq (m_st m)) 1 (m_st m)) m in
     let dstrd := Z.shiftl 4 (nvme_extr_cap_dstrd (st_cap (m_st m))) in
     m ← init_iosq (sq_set_doorbell (0x1000 + 2 * dstrd)) m;
     m ← put_admin (Cmd NVME_ADMIN_CREATE_IOSQ 0 0 0 0 0 (plat_virt_to_phys sq_addr) 0 (Z.lor 1 (Z.shiftl 3 16)) (Z.lor (Z.shiftl 1 16) 1) 0 0 0 0) m;
     '(r, m) ← wait_single_command tick csts wait_fuel m 0 p;
     if negb (r =? IOST_OK) then Ok (r, m) else
     m ← init_iosq (sq_set_cq 1) m;
     Ok (IOST_OK, set_st (set_num 1 (st_num_iocq (m_st m)) (m_st m)) m)) = Ok a /\ started m0 a.
Proof.
  intros Hb Hsize Hf Ht Hh Hent Haddr Hid Hlow Hcfg Hcap. cbn zeta. cbn [set_st m_st set_num st_cap].
  pose proof (br_st _ _ _ _ _ _ _ _ _ _ Hb) as (_ & Hds & _). rewrite Hds. destruct (br_io _ _ _ _ _ _ _ _ _ _ Hb) as (S1 & C1 & D1).
  apply lookup_lt_Some in S1 as Hlt. rewrite (init_iosq_ok _ _ sq1) by exact S1. cbn [mbind res_bind].
  set (m1 := set_st (set_sqs _ _) _). set (sq2 := sq_set_doorbell (0x1000 + 2 * dstrd) sq1).
  assert (bring m1 sq2 (fresh_cq (0x1000 + 3 * dstrd) size) 1) as Hb1.
  { apply (bring_change p acc dstrd lba_shift w0 reqs0 Hdstrd m sq1 (fresh_cq (0x1000 + 3 * dstrd) size) 0); try done.
    - exact (br_num _ _ _ _ _ _ _ _ _ _ Hb).
    - cbn. by rewrite list_lookup_insert_ne.
    - cbn. apply list_lookup_insert_eq. lia.
    - intros q Hq. assert (q = 1%nat) as -> by lia. exists (fresh_cq (0x1000 + 3 * dstrd) size), zero_cqe. split; [done |]. split; [| done].
      apply geti_ok; [done |]. apply lookup_replicate. split; [done |]. cbn [cq_pos fresh_cq]. lia. }
  apply (bring_cmd _ (CreateSq 1 4 (plat_virt_to_phys sq_addr) 1) m1 sq2 (fresh_cq (0x1000 + 3 * dstrd) size) 1); [done | done | | |].
  { unfold accepts. by rewrite Hent, Haddr, !Z.eqb_refl. }
  { intros r m' Hr Hc. assert ((r =? IOST_OK) = false) as -> by zb. by apply started_error; [| left]. }
  intros m' Hb' (Hl1 & Hl2 & Hl3) Hmem. change (negb (IOST_OK =? IOST_OK)) with false. cbn match. destruct (br_io _ _ _ _ _ _ _ _ _ _ Hb') as (S1' & C1' & D1').
  rewrite (init_iosq_ok _ _ _ S1'). cbn [mbind res_bind].
  eexists. split; [done |]. split; [done |]. intros _. cbn [snd]. cbn [admin_mem] in Hmem. split; [| split; [| split; [exact (br_mem _ _ _ _ _ _ _ _ _ _ Hb') | split; [| split]]]].
  2: { cbn [set_st m_mem]. rewrite Hmem. exact Hid. }
  2: { intros r Hr Hne. etrans; [by apply Hl1 | by apply Hlow]. }
  2: { etrans; [by apply Hl1 | exact Hcfg]. }
  2: { etrans; [exact Hl3 | exact Hcap]. }
  apply (bring_final p acc dstrd lba_shift w0 reqs0 Hdstrd x0 m' sq2 size); try done.
  - destruct Hf as [F1 F2]. by constructor.
  - destruct (br_st _ _ _ _ _ _ _ _ _ _ Hb') as (Hn & _). unfold set_st, set_num, set_sqs. cbn. by rewrite Hn.
Qed.
(** After the controller was identified. *)
Lemma config_ok m sq1 cq1 v : bring m sq1 cq1 0 -> bring (set_reg NVME_REG_CONFIG v (set_st (set_cfg v (m_st m)) m)) sq1 cq1 0.
Proof.
  intros Hb. destruct (br_io _ _ _ _ _ _ _ _ _ _ Hb) as (S1 & C1 & D1).
  apply (bring_change p acc dstrd lba_shift w0 reqs0 Hdstrd m sq1 cq1 0); try done.
  - exact (br_num _ _ _ _ _ _ _ _ _ _ Hb).
  - by destruct (br_st _ _ _ _ _ _ _ _ _ _ Hb) as (? & _).
  - intros r Hr. rewrite reg_set_reg. unfold NVME_REG_CONFIG. destruct (decide _); [lia | done].
  - lia.
Qed.

Lemma rtd3e_ok m sq1 cq1 v : bring m sq1 cq1 0 -> bring (if v =? 0 then set_st (set_rtd3e v (m_st m)) m else m) sq1 cq1 0.
Proof.
  intros Hb. destruct (v =? 0); [| done]. destruct (br_io _ _ _ _ _ _ _ _ _ _ Hb) as (S1 & C1 & D1).
  apply (bring_change p acc dstrd lba_shift w0 reqs0 Hdstrd m sq1 cq1 0); try done.
  - exact (br_num _ _ _ _ _ _ _ _ _ _ Hb).
  - by destruct (br_st _ _ _ _ _ _ _ _ _ _ Hb) as (? & _).
  - lia.
Qed.

Lemma iocq_ok m sq1 cq1 : bring m sq1 cq1 0 ->
  exists m', init_iocq m = Ok m' /\ bring m' sq1 (fresh_cq (0x1000 + 3 * dstrd) (cq_size cq1)) 0 /\ same_low m m' /\ m_mem m' = m_mem m.
Proof.
  intros Hb. destruct (br_io _ _ _ _ _ _ _ _ _ _ Hb) as (S1 & C1 & D1). apply lookup_lt_Some in C1 as Hlt.
  destruct (br_st _ _ _ _ _ _ _ _ _ _ Hb) as (Hn & Hds & _). eexists. split; [by apply init_iocq_ok |]. split; [| done].
  apply (bring_change p acc dstrd lba_shift w0 reqs0 Hdstrd m sq1 cq1 0); try done.
  - exact (br_num _ _ _ _ _ _ _ _ _ _ Hb).
  - cbn. by rewrite list_lookup_insert_ne.
  - cbn. by apply list_lookup_insert_eq.
  - lia.
Qed.

Lemma nvme_init_queues_ok m sq1 cq1 cq_addr sq_addr : bring m sq1 cq1 0 -> 0 < cq_size cq1 < 65535 ->
  sq_free sq1 -> sq_tail sq1 = 0 -> sq_head sq1 = 0 -> lay = Layout (cq_size cq1 + 1) (plat_virt_to_phys cq_addr) 4 (plat_virt_to_phys sq_addr) ->
  exists a, nvme_init_queues tick csts wait_fuel m p 1 1 idctl cq_addr sq_addr = Ok a /\ started m a.
Proof.
  intros Hb Hsize Hf Ht Hh Hlay. unfold nvme_init_queues. cbn [c_assert Z.eqb negb andb mbind res_bind].
  apply (bring_cmd _ (IdentifyController idctl) m sq1 cq1 0); [done | done | by cbn; rewrite Hpage | |].
  { intros r m' Hr Hc. assert ((r =? IOST_OK) = false) as -> by zb. by apply started_error; [| left]. }
  intros m1 Hb1 Hl1 Hpg. change (negb (IOST_OK =? IOST_OK)) with false. cbn match. unfold nvme_extr_idctl_rtd3e, nvme_extr_idctl_sqes, nvme_extr_idctl_cqes. cbn [admin_mem] in Hpg.
  rewrite !(page_ld8 _ _ _ _ _ Hpg) by lia. cbn [mbind res_bind].
  set (rtd3e := Z.lor _ (Z.shiftl _ 24)). pose proof (rtd3e_ok m1 sq1 cq1 rtd3e Hb1) as Hb2. set (m2 := if rtd3e =? 0 then _ else m1) in *.
  assert (same_low m m2 /\ m_mem m2 = m_mem m1) as [Hl2 Hm2] by (unfold m2; by destruct (rtd3e =? 0)). clearbody m2.
  rewrite Hm2, !(page_ld8 _ _ _ _ _ Hpg) by lia. cbn [mbind res_bind]. destruct ((6 <? Z.land (dr_controller dr 512) 15) || (4 <? Z.land (dr_controller dr 513) 15)) eqn:Hlarge.
  { apply started_error; [done |]. right. change 15 with (Z.ones 4) in Hlarge. rewrite !Z.land_ones in Hlarge by lia. apply orb_true_iff in Hlarge as [H | H]; apply Z.ltb_lt in H; [by left | by right]. }
  change (Z.lor (Z.shiftl 4 NVME_CC_IOCQES_SHIFT) (Z.shiftl 6 NVME_CC_IOSQES_SHIFT)) with 0x460000.
  set (cfg := Z.lor (st_cfg (m_st m2)) 0x460000). set (m2' := set_reg NVME_REG_CONFIG cfg _).
  apply (bring_cmd _ (NumberOfQueues 1 1) m2' sq1 cq1 0); [by apply config_ok | done | done | |].
  { intros r m' Hr Hc. assert ((r =? IOST_OK) = false) as -> by zb. by apply started_error; [| left]. }
  intros m3 Hb3 Hl3 Hm3. change (negb (IOST_OK =? IOST_OK)) with false. cbn match. destruct (iocq_ok m3 sq1 cq1 Hb3) as (m4 & -> & Hb4 & Hl4 & Hm4). cbn [mbind res_bind].
  destruct (br_io _ _ _ _ _ _ _ _ _ _ Hb4) as (S4 & C4 & D4). rewrite (geti_nat _ 1%nat _ C4 : geti _ 1 = _). cbn [mbind res_bind fresh_cq cq_size].
  apply (bring_cmd _ (CreateCq 1 (cq_size cq1 + 1) (plat_virt_to_phys cq_addr)) m4 sq1 (fresh_cq (0x1000 + 3 * dstrd) (cq_size cq1)) 0); [done | | | |].
  { unfold decode_admin. cbn [c_opc c_dw10 c_dw11 c_dptr0]. rewrite lor_shiftl_add by lia. change (NVME_ADMIN_CREATE_IOCQ =? 6) with false. change (NVME_ADMIN_CREATE_IOCQ =? 9) with false.
    change (NVME_ADMIN_CREATE_IOCQ =? 5) with true. change (1 mod 4 =? 1) with true. cbv iota. rewrite Z.mod_add, Z.div_add by lia. done. }
  { unfold accepts. rewrite Hlay. cbn [io_cq_entries io_cq_addr]. by rewrite !Z.eqb_refl. }
  { intros r m' Hr Hc. assert ((r =? IOST_OK) = false) as -> by zb. by apply started_error; [| left]. }
  intros m5 Hb5 Hl5 Hm5. change (negb (IOST_OK =? IOST_OK)) with false. cbn match. cbn [admin_mem] in Hm3, Hm5.
  assert (same_low m2' m5) as (R1 & R2 & R3) by by do 2 (etrans; [done |]). destruct Hl2 as (Q1 & Q2 & Q3).
  apply (create_iosq_ok m m5 sq1 (cq_size cq1)); try done; [by rewrite Hlay | by rewrite Hlay | | | |].
  - rewrite Hm5, Hm4, Hm3. change (m_mem m2') with (m_mem m2). rewrite Hm2. apply Hpg.
  - intros r Hr Hne. rewrite R1 by done. unfold m2'. rewrite reg_set_reg, decide_False by done. by apply Q1.
  - rewrite R1 by done. unfold m2'. rewrite reg_set_reg, decide_True by done. unfold cfg. by rewrite Q2.
  - rewrite R3. exact Q3.
Qed.
End Start.

(** ** [nvme_init] *)

(** What the driver's state is before, and remains while the controller is
    disabled. *)
Record driver_static (sq0 : nvme_sq) (cq0 : nvme_cq) (sq1 : nvme_sq) (cq1 : nvme_cq) (st : nvme_state) : Prop := {
  dt_sq : st_sq st !! 0%nat = Some sq0 /\ st_sq st !! 1%nat = Some sq1;
  dt_cq : st_cq st !! 0%nat = Some cq0 /\ st_cq st !! 1%nat = Some cq1;
  dt_free : sq_free sq0 /\ sq_free sq1 /\ sq_tail sq1 = 0 /\ sq_head sq1 = 0;
  dt_size : 0 < cq_size cq0 < 65535 /\ 0 < cq_size cq1 < 65535;
}.

(** A controller that is disabled leaves the memory alone; when it says that it
    is not ready it has forgotten its queues, and the doorbells are 0. *)
Record disabled (off : nat -> machine -> machine) (csts : nat -> Z) : Prop := {
  of_driver t m : m_st (off t m) = m_st m /\ m_reqs (off t m) = m_reqs m /\ m_words (off t m) = m_words m /\ m_mem (off t m) = m_mem m /\ m_time (off t m) = m_time m;
  of_reset t m : flag (csts (S t)) NVME_CSTS_RDY = false ->
    m_dev (off t m) !! 0%nat = Some fresh_dq /\ m_dev (off t m) !! 1%nat = Some fresh_dq /\ forall r, 0x1000 <= r -> reg (off t m) r = 0;
}.

(** The checks of the capabilities. *)
Definition supported (cap version : Z) : bool :=
  (Z.shiftr version 16 =? 1) && Z.testbit cap 37 && (Z.land cap (Z.shiftl 15 48) =? 0) && (3 <=? cap mod 2 ^ 16).

Lemma dstrd_range cap : 0 <= nvme_extr_cap_dstrd cap <= 15.
Proof.
  unfold nvme_extr_cap_dstrd. rewrite Z.shiftr_land, (Z.shiftr_shiftl_l 15 32 32) by lia. change (Z.shiftl 15 (32 - 32)) with (Z.ones 4).
  rewrite Z.land_ones by lia. pose proof (Z.mod_pos_bound (Z.shiftr cap 32) (2 ^ 4) ltac:(lia)). lia.
Qed.

Lemma dstrd_u32 cap : u32 (Z.shiftl 4 (nvme_extr_cap_dstrd cap)) = Z.shiftl 4 (nvme_extr_cap_dstrd cap) /\ 0 < Z.shiftl 4 (nvme_extr_cap_dstrd cap).
Proof.
  pose proof (dstrd_range cap) as H. rewrite Z.shiftl_mul_pow2 by lia.
  assert (0 < 2 ^ nvme_extr_cap_dstrd cap <= 2 ^ 15) by (split; [apply Z.pow_pos_nonneg; lia | apply Z.pow_le_mono_r; lia]).
  split; [apply u32_small |]; lia.
Qed.

Lemma css_flag cap : flag (Z.lnot (nvme_extr_cap_css cap)) (Z.shiftl 1 NVME_CMDSET_NVM) = negb (Z.testbit cap 37).
Proof.
  change (Z.shiftl 1 NVME_CMDSET_NVM) with (2 ^ 0). rewrite flag_bit by lia. rewrite Z.lnot_spec by lia. f_equal.
  unfold nvme_extr_cap_css. rewrite Z.shiftr_spec, Z.land_spec by lia. rewrite Z.add_0_l. rewrite (Z.shiftl_spec 0xff 37 37) by lia.
  cbn. apply andb_true_r.
Qed.

Lemma mqes_mod cap : nvme_extr_cap_mqes cap = cap mod 2 ^ 16.
Proof. unfold nvme_extr_cap_mqes. rewrite Z.shiftr_0_r. change (Z.shiftl 0xffff 0) with (Z.ones 16). by rewrite Z.land_ones by lia. Qed.

(** The queue for administration commands is as [init_admin] leaves it. *)
Definition admin_sq (sq0 : nvme_sq) : nvme_sq := Sq 0x1000 (sq_buf sq0) (sq_size sq0) 0 0 0 (sq_max_cid sq0) (sq_cmd sq0).

Lemma init_admin_ok dstrd m sq0 cq0 sq1 cq1 : driver_static sq0 cq0 sq1 cq1 (m_st m) ->
  exists m', init_admin dstrd m = Ok m' /\ m_st m' = set_cqs (<[0%nat := fresh_cq (0x1000 + dstrd) (cq_size cq0)]> (st_cq (m_st m)))
      (set_sqs (<[0%nat := admin_sq sq0]> (st_sq (m_st m))) (set_num 0 0 (m_st m))) /\
    m' = set_st (m_st m') m.
Proof.
  intros [[S0 _] [C0 _] _ _]. unfold init_admin. cbn [set_num st_cq st_sq]. apply lookup_lt_Some in S0 as HS. apply lookup_lt_Some in C0 as HC.
  rewrite (geti_nat _ 0%nat _ C0 : geti _ 0 = _). cbn [mbind res_bind]. rewrite seti_ok by lia. cbn [mbind res_bind].
  rewrite (geti_nat _ 0%nat _ S0 : geti _ 0 = _). cbn [mbind res_bind]. rewrite seti_ok by lia. cbn [mbind res_bind]. by eexists.
Qed.

Lemma bring_start p acc dstrd m sq0 size0 sq1 cq1 : 0 < dstrd -> st_num_iosq (m_st m) = 0 -> st_num_iocq (m_st m) = 0 ->
  Z.shiftl 4 (nvme_extr_cap_dstrd (st_cap (m_st m))) = dstrd -> sq_free sq0 -> 0 < size0 < 65535 ->
  st_sq (m_st m) !! 0%nat = Some (admin_sq sq0) -> st_sq (m_st m) !! 1%nat = Some sq1 ->
  st_cq (m_st m) !! 0%nat = Some (fresh_cq (0x1000 + dstrd) size0) -> st_cq (m_st m) !! 1%nat = Some cq1 ->
  m_dev m !! 0%nat = Some fresh_dq -> m_dev m !! 1%nat = Some fresh_dq -> (forall r, 0x1000 <= r -> reg m r = 0) ->
  (forall x, acc x -> is_Some (m_mem m !! x)) ->
  bring p acc dstrd (st_lba_shift (m_st m)) (m_words m) (m_reqs m) m sq1 cq1 0.
Proof.
  intros Hd Hn Hnc Hcap Hf Hsize S0 S1 C0 C1 D0 D1 Hr Hm.
  assert (forall q sq cq dq, has_pair m q sq cq dq -> q = 0%nat /\ sq = admin_sq sq0 /\ cq = fresh_cq (0x1000 + dstrd) size0 /\ dq = fresh_dq) as Hback.
  { intros q sq cq dq (H1 & H2 & H3 & H4). assert (q = 0%nat) as -> by lia. split; [done |]. split_and!; congruence. }
  assert (forall cid p', ~ pending (admin_sq sq0) cid p') as Hnp by (intros cid p'; apply sq_free_pending; destruct Hf; by constructor).
  constructor; try done.
  - split.
    + exists (fun _ => no_ghost). constructor.
      * lia.
      * intros q Hq. assert (q = 0%nat) as -> by lia. eexists _, _, _. split; [split; [lia |]; split_and!; done |].
        apply fresh_pair; try done; [destruct Hf; by constructor | apply Hr; cbn; lia | apply Hr; lia].
      * intros q sq cq dq q' sq' cq' dq' (-> & -> & -> & _)%Hback (-> & -> & -> & _)%Hback. cbn. split; [lia | done].
      * intros q sq cq dq cid q' sq' cq' dq' cid' p' (-> & -> & _)%Hback _ Hpd. by apply Hnp in Hpd.
      * lia.
    + intros q sq cid p' Hq Hs. assert (q = 0%nat) as -> by lia. rewrite S0 in Hs. injection Hs as <-. apply Hnp.
  - unfold bells. by rewrite S0, C0.
  - rewrite !Hr by lia. done.
Qed.

(** The controller moves while it gets ready. *)
Lemma bring_elapse effect tick p acc dstrd lba_shift w0 reqs0 m sq1 cq1 n :
  (forall m c code mm, effect m c code mm -> forall x, is_Some (m_mem m !! x) -> is_Some (mm !! x)) ->
  (forall t m G, queues_ok m G -> rtc (dev_move effect) m (tick t m)) -> 0 < dstrd ->
  bring p acc dstrd lba_shift w0 reqs0 m sq1 cq1 n ->
  bring p acc dstrd lba_shift w0 reqs0 (elapse tick m) sq1 cq1 n /\ beside p m (elapse tick m) /\ m_time (elapse tick m) = S (m_time m).
Proof.
  intros Hdom Htick Hd Hb. pose proof (br_idle _ _ _ _ _ _ _ _ _ _ Hb) as ([G Hok] & Hnp).
  destruct (elapse_ok effect tick Htick (fun m' => beside p m m' /\ admin p m')) with (m := m) (G := G) as (G' & Hok' & [Hb' _] & _ & Hs & Ht); try done.
  - intros m3 ev m4 G3 ? [? ?]. by apply (beside_dev p effect Hdom m m3 ev m4 G3).
  - intros m3 t [Hb3 H3]. split; [by destruct Hb3 | exact H3].
  - split; [done |]. intros q sq cid p' Hq Hs Hpd. by apply (Hnp q) in Hpd.
  - split; [| done]. eapply bring_beside; [done | exact Hb | exact Hb' |]. destruct Hs as [(S1 & S2 & _) _]. split; [by exists G' |].
    intros q sq cid p'. rewrite S1, S2. apply Hnp.
Qed.

(** What is assumed of the controller and of the clock; [p] is the request of
    administration commands. *)
Record controller (effect : machine -> nvme_cmd -> Z -> mem -> Prop) (off tick : nat -> machine -> machine) (csts clock : nat -> Z) (d : Z) (T : nat) (p : Z) : Prop := {
  cn_off : disabled off csts;
  cn_clock t : d <= clock (S t) - clock t < 2 ^ 32;
  cn_d : 0 < d;
  cn_dom m c code mm : effect m c code mm -> forall x, is_Some (m_mem m !! x) -> is_Some (mm !! x);
  cn_tick t m G : queues_ok m G -> rtc (dev_move effect) m (tick t m);
  cn_dead t m G q sq cq dq : (T <= t)%nat -> queues_ok m G -> has_pair m q sq cq dq -> waits p m q -> unread cq = [] -> answered (tick t m) q p;
}.

Definition init_timeout (cap : Z) : Z := u64 (nvme_extr_cap_to cap * MSECS 500).

Lemma init_timeout_bound cap : 0 <= init_timeout cap < 2 ^ 33.
Proof.
  unfold init_timeout. assert (0 <= nvme_extr_cap_to cap <= 255) as H.
  { unfold nvme_extr_cap_to. rewrite Z.shiftr_land, (Z.shiftr_shiftl_l 255 24 24) by lia. change (Z.shiftl 255 (24 - 24)) with (Z.ones 8).
    rewrite Z.land_ones by lia. pose proof (Z.mod_pos_bound (Z.shiftr cap 24) (2 ^ 8) ltac:(lia)). lia. }
  change (MSECS 500) with 12288000. rewrite u64_small by lia. lia.
Qed.

Lemma unsupported_checks {A} cap version (a b : A) :
  (if negb (Z.shiftr version 16 =? 1) then a else
   if flag (Z.lnot (nvme_extr_cap_css cap)) (Z.shiftl 1 NVME_CMDSET_NVM) then a else
   if flag cap NVME_CAP_MPSMIN_MASK then a else
   if nvme_extr_cap_mqes cap <? 3 then a else b) = if supported cap version then b else a.
Proof.
  rewrite css_flag, mqes_mod. unfold supported, flag, NVME_CAP_MPSMIN_MASK. destruct (Z.shiftr version 16 =? 1); [| done]. cbn [negb andb].
  destruct (Z.testbit cap 37); [| done]. cbn [negb andb]. destruct (Z.land cap (Z.shiftl 15 48) =? 0); [| done]. cbn [negb andb].
  destruct (Z.ltb_spec (cap mod 2 ^ 16) 3), (Z.leb_spec 3 (cap mod 2 ^ 16)); (done || lia).
Qed.

Section Up.
Context (effect : machine -> nvme_cmd -> Z -> mem -> Prop) (off tick : nat -> machine -> machine) (csts clock : nat -> Z) (d : Z) (T : nat) (p : Z).
Context (Hcn : controller effect off tick csts clock d T p).
Context (cap version : Z) (fuel : nat) (Hfuel : init_timeout cap < d * Z.of_nat fuel).

(** What [nvme_init] returns: the controller is not supported; it did not
    change its status in time; or it is ready, with empty queues. *)
Definition init_result (acc : Z -> Prop) (sq_addr cq_addr : Z) (m : machine) (sq0 : nvme_sq) (cq0 : nvme_cq) (sq1 : nvme_sq) (cq1 : nvme_cq) (r : Z) (m' : machine) : Prop :=
  r = IOST_INVALID /\ supported cap version = false /\ m_regs m' = m_regs m \/
  r = IOST_GLOBAL /\ supported cap version = true /\ (exists t0 t1, init_timeout cap < clock t1 - clock t0) \/
  r = IOST_OK /\ supported cap version = true /\
    bring p acc (Z.shiftl 4 (nvme_extr_cap_dstrd cap)) (st_lba_shift (m_st m)) (m_words m) (m_reqs m) m' sq1 cq1 0 /\
    st_cap (m_st m') = cap /\ st_cfg (m_st m') = NVME_CC_EN /\ st_rtd3e (m_st m') = 1000000 /\
    reg m' NVME_REG_CONFIG = NVME_CC_EN /\ reg m' NVME_REG_ADMINQ_ATTR = Z.lor (Z.shiftl (cq_size cq0) 16) (sq_size sq0) /\
    reg m' NVME_REG_ADMINSQ_BASE = plat_virt_to_phys sq_addr /\ reg m' NVME_REG_ADMINCQ_BASE = plat_virt_to_phys cq_addr.

(** The driver's side while the controller is disabled. *)
Lemma off_elapse m : let m' := elapse off m in
  m_st m' = m_st m /\ m_reqs m' = m_reqs m /\ m_words m' = m_words m /\ m_mem m' = m_mem m /\ m_time m' = S (m_time m).
Proof. destruct (of_driver _ _ (cn_off _ _ _ _ _ _ _ _ Hcn) (m_time m) m) as (H1 & H2 & H3 & H4 & H5). cbn. by rewrite H5. Qed.

Lemma wait_idle m : exists b m1, let m' := elapse off m1 in
  status_loop csts clock fuel off (fun status => negb (flag status NVME_CSTS_RDY)) (get_timestamp clock m) (init_timeout cap) m = Ok (b, get_timestamp clock m', m') /\
  m_st m' = m_st m /\ m_reqs m' = m_reqs m /\ m_words m' = m_words m /\ m_mem m' = m_mem m /\
  if b : bool then m_dev m' !! 0%nat = Some fresh_dq /\ m_dev m' !! 1%nat = Some fresh_dq /\ forall r, 0x1000 <= r -> reg m' r = 0
  else init_timeout cap < clock (m_time m') - clock (m_time m).
Proof.
  pose proof (init_timeout_bound cap) as Hto. pose proof Hcn as [C1 C2 C3 _ _ _].
  destruct (status_loop_ok csts clock d C2 C3 (fun m' => m_st m' = m_st m /\ m_reqs m' = m_reqs m /\ m_words m' = m_words m /\ m_mem m' = m_mem m)
    off (fun status => negb (flag status NVME_CSTS_RDY)) (init_timeout cap) fuel (m_time m) m) as (b & m1 & Hr & (P1 & P2 & P3 & P4) & Ht & Hb & Hf & _).
  - done.
  - intros m2 (P1 & P2 & P3 & P4). destruct (off_elapse m2) as (E1 & E2 & E3 & E4 & E5). split; [split_and!; congruence | done].
  - unfold since. lia.
  - lia.
  - unfold since. lia.
  - nia.
  - destruct (off_elapse m1) as (E1 & E2 & E3 & E4 & E5). exists b, m1. split; [exact Hr |]. split; [congruence |]. split; [congruence |]. split; [congruence |]. split; [congruence |].
    destruct b; [| by apply Hf]. symmetry in Hb. apply negb_true_iff in Hb. rewrite Ht in Hb. exact (of_reset _ _ C1 (m_time m1) m1 Hb).
Qed.
Lemma wait_ready acc dstrd lba_shift w0 reqs0 m sq1 cq1 : 0 < dstrd -> bring p acc dstrd lba_shift w0 reqs0 m sq1 cq1 0 ->
  exists b t m', status_loop csts clock fuel tick (fun status => flag status NVME_CSTS_RDY) (get_timestamp clock m) (init_timeout cap) m = Ok (b, t, m') /\
    bring p acc dstrd lba_shift w0 reqs0 m' sq1 cq1 0 /\ beside p m m' /\ (b = false -> init_timeout cap < clock (m_time m') - clock (m_time m)).
Proof.
  intros Hd Hb. pose proof (init_timeout_bound cap) as Hto. pose proof Hcn as [_ C2 C3 C4 C5 _].
  pose proof (fun m' H => bring_elapse effect tick p acc dstrd lba_shift w0 reqs0 m' sq1 cq1 0 C4 C5 Hd H) as Hstep.
  destruct (status_loop_ok csts clock d C2 C3 (fun m' => bring p acc dstrd lba_shift w0 reqs0 m' sq1 cq1 0 /\ beside p m m')
    tick (fun status => flag status NVME_CSTS_RDY) (init_timeout cap) fuel (m_time m) m) as (b & m1 & Hr & (P1 & P2) & Ht & _ & Hf & _).
  - done.
  - intros m2 (P1 & P2). destruct (Hstep m2 P1) as (E1 & E2 & E3). split; [split; [done | by etrans] | done].
  - unfold since. lia.
  - lia.
  - unfold since. lia.
  - nia.
  - destruct (Hstep m1 P1) as (E1 & E2 & E3). eexists b, _, _. split; [exact Hr |]. split; [done |]. split; [by etrans | done].
Qed.

Lemma nvme_init_ok acc sq_addr cq_addr m sq0 cq0 sq1 cq1 : driver_static sq0 cq0 sq1 cq1 (m_st m) ->
  (forall x, acc x -> is_Some (m_mem m !! x)) ->
  exists r m', nvme_init off tick csts clock fuel m cap version sq_addr cq_addr = Ok (r, m') /\ init_result acc sq_addr cq_addr m sq0 cq0 sq1 cq1 r m'.
Proof.
  intros Hst Hmem. unfold nvme_init. cbn zeta. rewrite unsupported_checks. destruct (supported cap version) eqn:Hsup.
  2: { eexists _, _. split; [done |]. by left. }
  fold (init_timeout cap). set (m1 := set_reg NVME_REG_CONFIG 0 (set_st (set_cap cap (m_st m)) m)).
  change (get_timestamp clock (set_st _ m)) with (get_timestamp clock m1).
  destruct (wait_idle m1) as (b & m2' & Hr & S2 & Q2 & W2 & M2 & Hb). rewrite Hr. cbn [mbind res_bind]. set (m2 := elapse off m2') in *. clearbody m2.
  destruct b; cbn [negb]. 2: { eexists _, _. split; [done |]. right. left. split; [done |]. split; [done |]. eexists _, _. exact Hb. }
  destruct Hb as (D0 & D1 & R2). pose proof Hst as [[T1 T2] [T3 T4] (T5 & T6 & T7 & T8) [T9 T10]].
  assert (st_cap (m_st m2) = cap) as Hcap by by rewrite S2. rewrite Hcap. destruct (dstrd_u32 cap) as [-> Hd]. set (dstrd := Z.shiftl 4 (nvme_extr_cap_dstrd cap)) in *.
  destruct (init_admin_ok dstrd m2 sq0 cq0 sq1 cq1) as (m3 & -> & S3 & E3); [rewrite S2; done |]. cbn [mbind res_bind].
  assert (st_sq (m_st m3) !! 0%nat = Some (admin_sq sq0) /\ st_cq (m_st m3) !! 0%nat = Some (fresh_cq (0x1000 + dstrd) (cq_size cq0))) as [A0 B0].
  { rewrite S3, S2. cbn. by rewrite !list_lookup_insert_eq by (by eapply lookup_lt_Some). }
  assert (st_sq (m_st m3) !! 1%nat = Some sq1 /\ st_cq (m_st m3) !! 1%nat = Some cq1) as [A1 B1] by (rewrite S3, S2; cbn; by rewrite !list_lookup_insert_ne).
  rewrite (geti_nat _ 0%nat _ A0 : geti _ 0 = _), (geti_nat _ 0%nat _ B0 : geti _ 0 = _). cbn [mbind res_bind].
  cbn [admin_sq fresh_cq cq_size sq_size]. set (m4 := set_reg NVME_REG_CONFIG (Z.lor _ NVME_CC_EN) _).
  assert (bring p acc dstrd (st_lba_shift (m_st m)) (m_words m) (m_reqs m) m4 sq1 cq1 0) as Hb4.
  { assert (st_lba_shift (m_st m4) = st_lba_shift (m_st m)) as <- by (change (st_lba_shift (m_st m3) = st_lba_shift (m_st m)); by rewrite S3, S2).
    assert (m_words m4 = m_words m) as <- by (change (m_words m3 = m_words m); by rewrite E3).
    assert (m_reqs m4 = m_reqs m) as <- by (change (m_reqs m3 = m_reqs m); by rewrite E3).
    assert (m_dev m4 = m_dev m2) as Hdev by (change (m_dev m3 = m_dev m2); by rewrite E3).
    apply (bring_start p acc dstrd m4 sq0 (cq_size cq0)); rewrite ?Hdev; try done.
    - change (m_st m4) with (m_st m3). by rewrite S3.
    - change (m_st m4) with (m_st m3). by rewrite S3.
    - change (m_st m4) with (m_st m3). rewrite S3. cbn. by rewrite Hcap.
    - intros r Hr4. unfold m4. rewrite !reg_set_reg. unfold NVME_REG_CONFIG, NVME_REG_ADMINQ_ATTR, NVME_REG_ADMINSQ_BASE, NVME_REG_ADMINCQ_BASE.
      rewrite !decide_False by lia. rewrite E3. by apply R2.
    - intros x Hx. change (m_mem m4) with (m_mem m3). rewrite E3. change (is_Some (m_mem m2 !! x)). rewrite M2. by apply Hmem. }
  change (get_timestamp clock m2) with (get_timestamp clock (set_st (m_st m3) m2)). rewrite <- E3. change (get_timestamp clock m3) with (get_timestamp clock m4).
  destruct (wait_ready acc dstrd _ _ _ m4 sq1 cq1 Hd Hb4) as (b & t & m5 & -> & Hb5 & Hbe & Hto). cbn [mbind res_bind].
  destruct b; cbn [negb]. 2: { eexists _, _. split; [done |]. right. left. split; [done |]. split; [done |]. eexists _, _. by apply Hto. }
  eexists _, _. split; [done |]. right. right. split; [done |]. split; [done |].
  assert (forall r, r < 0x1000 -> reg m5 r = reg m4 r) as Hregs.
  { intros r Hr5. apply (be_regs _ _ _ Hbe); rewrite (br_bells _ _ _ _ _ _ _ _ _ _ Hb4); intros [= ->]; lia. }
  split; [| split; [| split; [done | split; [done |]]]].
  2: { pose proof (be_st _ _ _ Hbe) as E. unfold scalars in E. injection E as E _ _ _ _ _. cbn [set_st m_st set_rtd3e set_cfg st_cap]. rewrite E. change (m_st m4) with (m_st m3). by rewrite S3. }
  - destruct (br_io _ _ _ _ _ _ _ _ _ _ Hb5) as (S5 & C5 & _). destruct (br_st _ _ _ _ _ _ _ _ _ _ Hb5) as (N5 & _).
    apply (bring_change p acc dstrd _ _ _ Hd m5 sq1 cq1 0); try done; [exact (br_num _ _ _ _ _ _ _ _ _ _ Hb5) | lia].
  - assert (u32 (Z.lor (Z.shiftl (cq_size cq0) 16) (sq_size sq0)) = Z.lor (Z.shiftl (cq_size cq0) 16) (sq_size sq0)) as Hattr.
    { destruct (sf_size _ T5) as [Hs0 _]. rewrite Z.lor_comm, lor_shiftl_add by lia. apply u32_small. lia. }
    split_and!; (etrans; [apply Hregs; done |]); unfold m4; rewrite !reg_set_reg; done.
Qed.
End Up.

(** ** [nvme_reset]

    Shutting down ends, whether or not the controller says that it is done, and
    leaves it disabled; the queues stay as they are. *)
Section Reset.
Context (effect : machine -> nvme_cmd -> Z -> mem -> Prop) (off tick : nat -> machine -> machine) (csts clock : nat -> Z) (d : Z) (T : nat) (p : Z).
Context (Hcn : controller effect off tick csts clock d T p).

Definition all_bells (st : nvme_state) : list Z := map sq_doorbell (st_sq st) ++ map cq_doorbell (st_cq st).
Definition running (st : nvme_state) (m : machine) : Prop :=
  (exists G, queues_ok m G) /\ scalars (m_st m) = scalars st /\ all_bells (m_st m) = all_bells st.
Context (st : nvme_state) (Hbells : Forall (fun r => 0x1000 <= r) (all_bells st)).

Lemma running_elapse m : running st m -> running st (elapse tick m) /\ m_time (elapse tick m) = S (m_time m).
Proof.
  intros ([G Hok] & Hs). destruct (elapse_ok effect tick (cn_tick _ _ _ _ _ _ _ _ Hcn) (fun m' => scalars (m_st m') = scalars st /\ all_bells (m_st m') = all_bells st))
    with (m := m) (G := G) as (G' & Hok' & HQ & _ & _ & Ht); try done.
  - intros m1 ev m2 G1 _ [H1 H2] Hstep. inversion Hstep as [| q cq dq w1 c w2 spec rsv code mm Hq L2 L3 Hw Hne Hcode Heff]; subst; [done |].
    split; [done |]. rewrite <- H2. unfold all_bells. cbn. f_equal. rewrite list_fmap_insert. cbn. apply list_insert_id. rewrite list_lookup_fmap, L2. done.
  - split; [| done]. split; [by exists G' | done].
Qed.

(** The register is not one of the doorbells. *)
Lemma running_config m v : running st m -> running st (set_reg NVME_REG_CONFIG v m).
Proof.
  intros ([G [Q1 Q2 Q3 Q4 Q5]] & Hs & Hb). split; [| done]. exists G. constructor; try done. intros q Hq. destruct (Q2 q Hq) as (sq & cq & dq & Hp & H1 & H2 & H3).
  exists sq, cq, dq. split; [done |]. destruct Hp as (_ & L1 & L2 & _). rewrite <- Hb in Hbells. unfold all_bells in Hbells. rewrite Forall_app, !Forall_map, !Forall_lookup in Hbells.
  destruct Hbells as [B1 B2]. specialize (B1 q sq L1). specialize (B2 q cq L2). cbn in B1, B2. unfold NVME_REG_CONFIG.
  split; [| split; [| done]]; rewrite reg_set_reg, decide_False by lia; done.
Qed.

Lemma nvme_reset_ok fuel m : running st m -> 2 ^ 33 < d * Z.of_nat fuel ->
  exists m', nvme_reset tick csts clock fuel m = Ok m' /\ running st m' /\ reg m' NVME_REG_CONFIG = Z.land (st_cfg st) (u32 (Z.lnot NVME_CC_EN)).
Proof.
  intros Hr Hfuel. pose proof Hcn as [_ C2 C3 _ _ _].
  assert (forall m', running st m' -> st_cfg (m_st m') = st_cfg st) as Hcfg by (intros m' (_ & H & _); unfold scalars in H; by injection H).
  assert (forall m', running st m' -> running st (disable m') /\ reg (disable m') NVME_REG_CONFIG = Z.land (st_cfg st) (u32 (Z.lnot NVME_CC_EN))) as Hdis.
  { intros m' H. split; [by apply running_config |]. unfold disable. by rewrite reg_set_reg, decide_True, Hcfg. }
  unfold nvme_reset. cbn zeta. set (m1 := set_reg NVME_REG_CONFIG (Z.lor _ _) m). assert (running st m1) as Hr1 by by apply running_config.
  set (timeout := u32 (st_rtd3e (m_st m1) * _)). pose proof (u32_range (st_rtd3e (m_st m1) * TICKS_PER_MICROSECOND)) as Hto. fold timeout in Hto.
  destruct (status_loop_ok csts clock d C2 C3 (running st) tick (fun status => nvme_extr_csts_shst status =? 2) timeout fuel (m_time m1) m1)
    as (b & m2 & Hl & P2 & Ht2 & _ & _ & Hs2); try done; [by apply running_elapse | unfold since; lia | lia | unfold since; lia | nia |].
  fold (get_timestamp clock m1) in Hl. rewrite Hl. cbn [mbind res_bind]. destruct (running_elapse m2 P2) as [P2' _].
  destruct b; [eexists; split; [done | by apply Hdis] |]. rewrite u64_small by lia. set (m3 := set_reg NVME_REG_CONFIG _ (elapse tick m2)).
  assert (running st m3) as Hr3 by by apply running_config. change (since clock (m_time m1) (elapse tick m2)) with (since clock (m_time m1) m3) in Hs2.
  assert (since clock (m_time m1) m1 = 0) as E1 by (unfold since; lia). rewrite E1 in Hs2.
  destruct (status_loop_ok csts clock d C2 C3 (running st) tick (fun status => nvme_extr_csts_shst status =? 2) (2 * timeout) fuel (m_time m1) m3)
    as (b3 & m4 & Hl3 & P4 & _); try done; [by apply running_elapse | lia | lia | lia | nia |].
  fold (get_timestamp clock m1) in Hl3. rewrite Hl3. cbn [mbind res_bind]. destruct (running_elapse m4 P4) as [P4' _]. eexists. split; [done | by apply Hdis].
Qed.
End Reset.
