(* ===== verification/NvmeDrive.v ===== *)
(** * From reset to a drive that can be read ([src/dramstage/blk_nvme.c])

    The part of [boot_nvme] that follows the set-up of PCIe: the controller is
    started, the I/O queues are created and a namespace is identified.  After
    it the block device is ready for [start] and [pump]. *)
From S2P Require Export NvmeInit NvmeBoot.
From stdpp Require Import base list list_numbers gmap zmap.

Open Scope Z_scope.

Definition NVME_IDENTIFY_NS : Z := 0.
Definition nvme_extr_cap_mpsmin (cap : Z) : Z := Z.shiftr (Z.land cap (Z.shiftl 15 48)) 48.
Definition nvme_extr_idctl_mdts (m : mem) (idctl : Z) : res Z := ld8 m (idctl + 77).
Definition nvme_extr_idctl_nn (m : mem) (idctl : Z) : res Z :=
  b0 ← ld8 m (idctl + 516); b1 ← ld8 m (idctl + 517); b2 ← ld8 m (idctl + 518); b3 ← ld8 m (idctl + 519);
  Ok (Z.lor (Z.lor (Z.lor b0 (Z.shiftl b1 8)) (Z.shiftl b2 16)) (Z.shiftl b3 24)).
Definition nvme_extr_idns_nsze (m : mem) (idns : Z) : res Z :=
  b0 ← ld8 m idns; b1 ← ld8 m (idns + 1); b2 ← ld8 m (idns + 2); b3 ← ld8 m (idns + 3);
  b4 ← ld8 m (idns + 4); b5 ← ld8 m (idns + 5); b6 ← ld8 m (idns + 6); b7 ← ld8 m (idns + 7);
  Ok (Z.lor (Z.lor (Z.lor (Z.lor (Z.lor (Z.lor (Z.lor b0 (Z.shiftl b1 8)) (Z.shiftl b2 16)) (Z.shiftl b3 24))
    (Z.shiftl b4 32)) (Z.shiftl b5 40)) (Z.shiftl b6 48)) (Z.shiftl b7 56)).
Definition nvme_extr_idns_flbas (m : mem) (idns : Z) : res Z := ld8 m (idns + 26).

(** The size of the requests: lines 294 to 300. *)
Definition read_shift_of (mdts cap : Z) : Z :=
  let read_shift := 17 in
  let mpsmin := u8 (nvme_extr_cap_mpsmin cap + 12) in
  if negb (mdts =? 0) && (mdts <? read_shift - mpsmin) then u8 (mdts + mpsmin) else read_shift.

Definition nb_set_format (block_size num_blocks nsid : Z) (d : nvme_blockdev) : nvme_blockdev :=
  Nb block_size num_blocks (nb_xfer d) (nb_consume_ptr d) (nb_end_ptr d) (nb_next_end_ptr d) (nb_stop_ptr d) (nb_next_lba d) (nb_xfer_shift d) nsid.
Definition nb_set_shift (prp_addr shift : Z) (d : nvme_blockdev) : nvme_blockdev :=
  let x := nb_xfer d in
  Nb (nb_block_size d) (nb_num_blocks d)
    (Xfer (xf_req x) prp_addr (first_prp_entry x) (last_prp_entry x) (prp_size x) (prp_cap x) (xfer_bytes x) (prp_list x))
    (nb_consume_ptr d) (nb_end_ptr d) (nb_next_end_ptr d) (nb_stop_ptr d) (nb_next_lba d) shift (nb_nsid d).
Definition set_lba_shift (v : Z) (st : nvme_state) : nvme_state :=
  St (st_cap st) (st_cfg st) (st_rtd3e st) v (st_num_iosq st) (st_num_iocq st) (st_sq st) (st_cq st).

(** The addresses of the buffers. *)
Record buffers : Type := Bufs { buf_asq : Z; buf_acq : Z; buf_iosq : Z; buf_iocq : Z; buf_idctl : Z; buf_idns : Z }.

(** Where the code goes when something fails. *)
Inductive nvme_exit : Set := Out | ShutDownLog | ShutDownNvme.

Section Drive.
Context (off tick : nat -> machine -> machine) (csts clock : nat -> Z) (fuel wait_fuel : nat) (cap version req : Z) (bufs : buffers).

(** Lines 285 to 311; the result has the number of namespaces. *)
Definition nvme_start_up (m : machine) (d : nvme_blockdev) : res (machine * nvme_blockdev * (nvme_exit + Z)) :=
  '(r, m) ← nvme_init off tick csts clock fuel m cap version (buf_asq bufs) (buf_acq bufs);
  if r =? IOST_INVALID then Ok (m, d, inl Out) else
  if negb (r =? IOST_OK) then Ok (m, d, inl ShutDownLog) else
  '(r, m) ← nvme_init_queues tick csts wait_fuel m req 1 1 (buf_idctl bufs) (buf_iocq bufs) (buf_iosq bufs);
  if negb (r =? IOST_OK) then Ok (m, d, inl ShutDownNvme) else
  mdts ← nvme_extr_idctl_mdts (m_mem m) (buf_idctl bufs);
  let d := nb_set_shift (plat_virt_to_phys (prp_list (nb_xfer d))) (read_shift_of mdts (st_cap (m_st m))) d in
  num_ns ← nvme_extr_idctl_nn (m_mem m) (buf_idctl bufs);
  if num_ns =? 0 then Ok (m, d, inl ShutDownNvme) else
  if num_ns =? 0xffffffff then Ok (m, d, inl ShutDownNvme) else
  Ok (m, d, inr num_ns).

(** Lines 313 to 342: one round of the loop over the namespaces, up to the point
    where it is booted from. *)
Definition identify_ns (m : machine) (d : nvme_blockdev) (nsid : Z) : res (machine * nvme_blockdev * bool) :=
  let idns := buf_idns bufs in
  m ← put_admin (Cmd NVME_ADMIN_IDENTIFY 0 0 nsid 0 0 idns 0 NVME_IDENTIFY_NS 0 0 0 0 0) m;
  '(r, m) ← wait_single_command tick csts wait_fuel m 0 req;
  if negb (r =? IOST_OK) then Ok (m, d, false) else
  ns_size ← nvme_extr_idns_nsze (m_mem m) idns;
  flbas ← nvme_extr_idns_flbas (m_mem m) idns;
  let lbaf := idns + 128 + 4 * Z.land flbas 15 in
  l0 ← ld8 (m_mem m) lbaf;
  l1 ← ld8 (m_mem m) (lbaf + 1);
  if negb (l0 =? 0) || negb (l1 =? 0) then Ok (m, d, false) else
  l2 ← ld8 (m_mem m) (lbaf + 2);
  if (12 <? l2) || (l2 <? 9) then Ok (m, d, false) else
  let m := set_st (set_lba_shift l2 (m_st m)) m in
  Ok (m, nb_set_format (u32 (Z.shiftl 1 l2)) ns_size nsid d, true).
End Drive.

(** ** The fields of the data *)
Lemma le_field_range f off n : (forall i, is_byte (f i)) -> 0 <= le_field f off n < 2 ^ (8 * Z.of_nat n).
Proof.
  intros Hf. induction n as [| n IH] in off |- *; cbn [le_field]; [done |]. specialize (IH (off + 1)). specialize (Hf off). unfold is_byte in Hf.
  replace (8 * Z.of_nat (S n)) with (8 + 8 * Z.of_nat n) by lia. rewrite Z.pow_add_r by lia. change (2 ^ 8) with 256. lia.
Qed.
Lemma le_field_4 f off : (forall i, is_byte (f i)) ->
  Z.lor (Z.lor (Z.lor (f off) (Z.shiftl (f (off + 1)) 8)) (Z.shiftl (f (off + 2)) 16)) (Z.shiftl (f (off + 3)) 24) = le_field f off 4.
Proof.
  intros Hf. pose proof (Hf off) as H0. pose proof (Hf (off + 1)) as H1. pose proof (Hf (off + 2)) as H2. unfold is_byte in *.
  rewrite (lor_shiftl_add _ _ 8), (lor_shiftl_add _ _ 16), (lor_shiftl_add _ _ 24) by lia. cbn [le_field]. replace (off + 1 + 1) with (off + 2) by lia. replace (off + 2 + 1) with (off + 3) by lia. lia.
Qed.
Lemma le_field_8 f off : (forall i, is_byte (f i)) ->
  Z.lor (Z.lor (Z.lor (Z.lor (Z.lor (Z.lor (Z.lor (f off) (Z.shiftl (f (off + 1)) 8)) (Z.shiftl (f (off + 2)) 16)) (Z.shiftl (f (off + 3)) 24))
    (Z.shiftl (f (off + 4)) 32)) (Z.shiftl (f (off + 5)) 40)) (Z.shiftl (f (off + 6)) 48)) (Z.shiftl (f (off + 7)) 56) = le_field f off 8.
Proof.
  intros Hf. rewrite le_field_4 by done. pose proof (le_field_range f off 4 Hf) as H. pose proof (Hf (off + 4)) as H4. pose proof (Hf (off + 5)) as H5. pose proof (Hf (off + 6)) as H6. unfold is_byte in *.
  change (2 ^ (8 * Z.of_nat 4)) with (2 ^ 32) in H. rewrite (lor_shiftl_add _ _ 32), (lor_shiftl_add _ _ 40), (lor_shiftl_add _ _ 48), (lor_shiftl_add _ _ 56) by lia. cbn [le_field].
  replace (off + 1 + 1) with (off + 2) by lia. replace (off + 2 + 1) with (off + 3) by lia. replace (off + 3 + 1) with (off + 4) by lia.
  replace (off + 4 + 1) with (off + 5) by lia. replace (off + 5 + 1) with (off + 6) by lia. replace (off + 6 + 1) with (off + 7) by lia. lia.
Qed.

(** The limit of a transfer is a power of two of pages of the smallest size, which is
    4 KiB for the controllers that are supported; 0 is no limit. *)
Definition max_read_shift (mdts : Z) : Z := if mdts =? 0 then 17 else Z.min 17 (mdts + 12).
Lemma read_shift_ok mdts cap version : is_byte mdts -> supported cap version = true -> read_shift_of mdts cap = max_read_shift mdts.
Proof.
  intros Hm Hs. unfold supported in Hs. apply andb_prop in Hs as [Hs _]. apply andb_prop in Hs as [_ Hs]. apply Z.eqb_eq in Hs.
  unfold read_shift_of, nvme_extr_cap_mpsmin, max_read_shift. rewrite Hs. change (u8 (Z.shiftr 0 48 + 12)) with 12. unfold is_byte in Hm. destruct (Z.eqb_spec mdts 0); [done |]. cbn [negb andb].
  destruct (Z.ltb_spec mdts (17 - 12)); [rewrite u8_small by lia |]; lia.
Qed.

(** The format of a namespace: the size of its blocks is [2 ^ s], without metadata. *)
Definition formatted (dr : drive) (nsid s : Z) : Prop :=
  let lbaf := 128 + 4 * (dr_namespace dr nsid 26 mod 16) in
  le_field (dr_namespace dr nsid) lbaf 2 = 0 /\ dr_namespace dr nsid (lbaf + 2) = s /\ 9 <= s <= 12.

(** ** Administration commands while the I/O queues are in use *)
Lemma idle_admin lba_shift x0 m : idle lba_shift x0 m -> admin_idle m.
Proof. intros [G [H1 [H2 _] H3 _ _]]. split; [by exists G |]. intros q sq cid p'. rewrite H2. apply H3. Qed.

Lemma idle_beside p lba_shift x0 m m' : idle lba_shift x0 m -> xf_req x0 <> p -> beside p m m' -> admin_idle m' -> idle lba_shift x0 m'.
Proof.
  intros [G [H1 [H2 H2'] H3 H4 H5]] Hne [E1 _ _ _ E5 E6 _] [[G' Hok] Hnp]. unfold scalars in E1. injection E1 as E11 E12 E13 E14 E15 E16.
  exists G'. constructor; [done | split; congruence | | congruence | by rewrite E5].
  intros q sq cid p' Hq. apply Hnp. lia.
Qed.

Lemma idle_shift v lba_shift x0 m : idle lba_shift x0 m -> idle v x0 (set_st (set_lba_shift v (m_st m)) m).
Proof. intros [G [[Q1 Q2 Q3 Q4 Q5] [H2 _] H3 H4 H5]]. exists G. by constructor. Qed.

Section Ready.
Context (dr : drive) (lay : layout) (Hbytes : drive_bytes dr) (off tick : nat -> machine -> machine) (csts clock : nat -> Z) (dt : Z) (T : nat) (req : Z).
Context (Hcn : controller (drive_effect dr lay) off tick csts clock dt T req).
Context (wait_fuel : nat) (bufs : buffers) (Hreq : req <> 0) (Hwait : (T < wait_fuel)%nat) (Hpages : buf_idctl bufs mod 4096 = 0 /\ buf_idns bufs mod 4096 = 0).

Lemma identify_ns_ok lba_shift x0 m d nsid : idle lba_shift x0 m -> xf_req x0 <> req -> same_static x0 (nb_xfer d) -> 1 <= nsid <= dr_namespaces dr ->
  exists m' d' b, identify_ns tick csts wait_fuel req bufs m d nsid = Ok (m', d', b) /\
    (b = false -> complaint dr csts \/ ~ exists s, formatted dr nsid s) /\
    (b = true -> exists s, formatted dr nsid s /\ nvme_ready nsid s x0 (le_field (dr_namespace dr nsid) 0 8) (nb_xfer_shift d) (m', d')).
Proof.
  intros Hid Hne Hx Hns. unfold identify_ns. pose proof Hcn as [_ _ _ _ C5 C6]. pose proof (db_namespace _ Hbytes nsid) as Hb.
  destruct (admin_run dr lay tick csts wait_fuel T req Hreq C5 C6 Hwait (Cmd NVME_ADMIN_IDENTIFY 0 0 nsid 0 0 (buf_idns bufs) 0 NVME_IDENTIFY_NS 0 0 0 0 0) (IdentifyNamespace nsid (buf_idns bufs)) m (idle_admin _ _ _ Hid) eq_refl)
    as (r & m1 & m2 & -> & Hw & Hbe & Hbad & Hgood).
  { cbn [accepts]. rewrite (proj2 (Z.leb_le 1 nsid)), (proj2 (Z.leb_le nsid (dr_namespaces dr))) by lia. destruct Hpages as [_ ->]. done. }
  cbn [mbind res_bind]. rewrite Hw. cbn [mbind res_bind]. destruct (Z.eqb_spec r IOST_OK) as [-> | Hr]; cbn [negb].
  2: { eexists _, _, false. split; [done |]. split; [intros _; left; by apply Hbad | done]. }
  destruct (Hgood eq_refl) as [Had2 Hpg]. cbn [admin_mem] in Hpg. pose proof (idle_beside _ _ _ _ _ Hid Hne Hbe Had2) as Hid2. set (f := dr_namespace dr nsid) in *.
  unfold nvme_extr_idns_nsze, nvme_extr_idns_flbas. cbv zeta. assert (ld8 (m_mem m2) (buf_idns bufs) = Ok (f 0)) as -> by (pose proof (page_ld8 _ _ _ _ 0 Hpg ltac:(lia)) as H; by rewrite Z.add_0_r in H). cbn [mbind res_bind]. rewrite !(page_ld8 _ _ _ _ _ Hpg) by lia. cbn [mbind res_bind].
  change 15 with (Z.ones 4). rewrite Z.land_ones by lia. change (2 ^ 4) with 16. pose proof (Z.mod_pos_bound (f 26) 16 ltac:(lia)) as Hi. set (lbaf := 128 + 4 * (f 26 mod 16)).
  assert (buf_idns bufs + 128 + 4 * (f 26 mod 16) = buf_idns bufs + lbaf) as -> by lia. rewrite <- !Z.add_assoc. rewrite !(page_ld8 _ _ _ _ _ Hpg) by lia. cbn [mbind res_bind].
  pose proof (Hb lbaf) as B0. pose proof (Hb (lbaf + 1)) as B1. fold f in B0, B1. unfold is_byte in B0, B1.
  assert (le_field f lbaf 2 = f lbaf + 256 * f (lbaf + 1)) as Hle by (cbn [le_field]; lia).
  destruct (negb (f lbaf =? 0) || negb (f (lbaf + 1) =? 0)) eqn:Hmeta.
  { eexists _, _, false. split; [done |]. split; [| done]. intros _. right. intros (s & Hs & _). change (le_field f lbaf 2 = 0) in Hs. rewrite Hle in Hs. apply orb_true_iff in Hmeta as [H%negb_true_iff%Z.eqb_neq | H%negb_true_iff%Z.eqb_neq]; lia. }
  apply orb_false_iff in Hmeta as [M0%negb_false_iff%Z.eqb_eq M1%negb_false_iff%Z.eqb_eq].
  destruct ((12 <? f (lbaf + 2)) || (f (lbaf + 2) <? 9)) eqn:Hs.
  { eexists _, _, false. split; [done |]. split; [| done]. intros _. right. intros (s & _ & Hs2 & Hs3). change (f (lbaf + 2) = s) in Hs2. apply orb_true_iff in Hs as [H%Z.ltb_lt | H%Z.ltb_lt]; lia. }
  apply orb_false_iff in Hs as [S1%Z.ltb_ge S2%Z.ltb_ge]. eexists _, _, true. split; [done |]. split; [done |]. intros _. exists (f (lbaf + 2)). split; [split; [change (le_field f lbaf 2 = 0); rewrite Hle, M0, M1; done | split; [done | lia]] |].
  split; [by eapply idle_shift |]. pose proof (le_field_8 f 0 Hb) as Hnum. rewrite !Z.add_0_l in Hnum. rewrite Hnum. constructor; [| done].
  cbn. split; [| done]. rewrite Z.shiftl_1_l, u32_small; [done |]. split; [apply Z.pow_nonneg; lia |]. apply Z.pow_lt_mono_r; lia.
Qed.
Context (fuel : nat) (cap version : Z) (Hfuel : init_timeout cap < dt * Z.of_nat fuel).

(** How [nvme_start_up] ends. *)
Definition start_up_result (sq0 : nvme_sq) (cq0 : nvme_cq) (x0 : nvme_xfer) (lba_shift : Z) (a : machine * nvme_blockdev * (nvme_exit + Z)) : Prop :=
  let '(m, d, o) := a in
  (o = inl Out <-> supported cap version = false) /\
  (o = inl ShutDownLog -> exists t0 t1, init_timeout cap < clock t1 - clock t0) /\
  (o = inl ShutDownNvme -> complaint dr csts \/ large_entries dr \/ dr_namespaces dr = 0 \/ dr_namespaces dr = 0xffffffff) /\
  (forall n, o = inr n -> n = dr_namespaces dr /\ n <> 0 /\ nb_xfer_shift d = max_read_shift (dr_controller dr 77) /\ idle lba_shift x0 m /\ same_static x0 (nb_xfer d) /\
     reg m NVME_REG_CONFIG = 0x460001 /\ reg m NVME_REG_ADMINQ_ATTR = cq_size cq0 * 2 ^ 16 + sq_size sq0 /\
     reg m NVME_REG_ADMINSQ_BASE = plat_virt_to_phys (buf_asq bufs) /\ reg m NVME_REG_ADMINCQ_BASE = plat_virt_to_phys (buf_acq bufs)).

Lemma nvme_start_up_ok m d sq0 cq0 sq1 cq1 r0 : driver_static sq0 cq0 sq1 cq1 (m_st m) ->
  lay = Layout (cq_size cq1 + 1) (plat_virt_to_phys (buf_iocq bufs)) 4 (plat_virt_to_phys (buf_iosq bufs)) ->
  let x0 := nb_xfer (nb_set_shift (plat_virt_to_phys (prp_list (nb_xfer d))) 0 d) in
  xfer_static x0 (m_words m) -> xf_req x0 <> req -> m_reqs m !! xf_req x0 = Some r0 -> req_status r0 <> NVME_SUBMITTED ->
  exists a, nvme_start_up off tick csts clock fuel wait_fuel cap version req bufs m d = Ok a /\ start_up_result sq0 cq0 x0 (st_lba_shift (m_st m)) a.
Proof.
  intros Hst Hlay x0 Hx Hne Hr0 Hs0. unfold nvme_start_up.
  destruct (nvme_init_ok (drive_effect dr lay) off tick csts clock dt T req Hcn cap version fuel Hfuel (fun _ => False) (buf_asq bufs) (buf_acq bufs) m sq0 cq0 sq1 cq1 Hst) as (r & m1 & -> & Hres); [done |].
  cbn [mbind res_bind]. destruct Hres as [(-> & Hsup & _) | [(-> & Hsup & Hto) | (-> & Hsup & Hb & Hcap & Hcfg & _ & R1 & R2 & R3 & R4)]].
  - eexists. split; [done |]. split; [done |]. done.
  - eexists. split; [done |]. split; [by rewrite Hsup |]. done.
  - change (IOST_OK =? IOST_INVALID) with false. change (negb (IOST_OK =? IOST_OK)) with false. cbn match. pose proof Hcn as [_ _ _ C4 C5 C6].
    pose proof Hst as [_ _ (F0 & F1 & F2 & F3) [_ F4]]. destruct (dstrd_u32 cap) as [_ Hd]. pose proof (db_controller _ Hbytes) as Hbc.
    destruct (nvme_init_queues_ok dr lay tick csts wait_fuel T req (buf_idctl bufs) (fun _ => False) Hreq (proj1 Hpages) C5 C6 Hwait _ _ _ _ Hd x0 Hx Hne
      (ex_intro _ r0 (conj Hr0 Hs0)) m1 sq1 cq1 (buf_iocq bufs) (buf_iosq bufs) Hb F4 F1 F2 F3 Hlay) as ([r m2] & -> & Hbad & Hs). cbn [mbind res_bind].
    cbn [fst snd] in Hbad, Hs. destruct (Z.eqb_spec r IOST_OK) as [-> | Hr]; cbn [negb].
    2: { eexists. split; [done |]. split; [by rewrite Hsup |]. split; [done |]. split; [| done]. intros _. destruct (Hbad Hr); auto. }
    destruct (Hs eq_refl) as (Hid & Hpg & _ & Hlow & Hcfg2 & Hcap2). clear Hs Hbad.
    assert (forall i, 0 <= i < 4096 -> ld8 (m_mem m2) (buf_idctl bufs + i) = Ok (dr_controller dr i)) as Hld by (intros i Hi; unfold ld8; by rewrite Hpg).
    unfold nvme_extr_idctl_mdts, nvme_extr_idctl_nn. rewrite !Hld by lia. cbn [mbind res_bind]. rewrite Hcap2, Hcap, (read_shift_ok _ _ version (Hbc 77) Hsup).
    pose proof (le_field_4 (dr_controller dr) 516 Hbc) as Hnn. change (516 + 1) with 517 in Hnn. change (516 + 2) with 518 in Hnn. change (516 + 3) with 519 in Hnn. rewrite Hnn. fold (dr_namespaces dr).
    destruct (Z.eqb_spec (dr_namespaces dr) 0) as [E | E]; [eexists; split; [done |]; split; [by rewrite Hsup |]; split; [done |]; split; [auto | done] |].
    destruct (Z.eqb_spec (dr_namespaces dr) 0xffffffff) as [E' | E']; (eexists; split; [done |]); (split; [by rewrite Hsup |]); (split; [done |]); (split; [by auto |]); [done |].
    intros n [= <-]. split_and!; try done.
    + rewrite Hcfg2, Hcfg. done.
    + rewrite Hlow, R2, Z.lor_comm, lor_shiftl_add by (try done; try lia; destruct (sf_size _ F0); lia). lia.
    + by rewrite Hlow.
    + by rewrite Hlow.
Qed.
End Ready.


(** ** A drive *)
Definition demo_drive : drive := Drive
  (fun i => if i =? 77 then 5 else if i =? 512 then 0x66 else if i =? 513 then 0x44 else if i =? 516 then 1 else 0)
  (fun nsid i => if i =? 2 then 16 else if i =? 130 then 9 else 0) False.
Definition drive_sq (max_cid : Z) (cmds : list Z) : nvme_sq := Sq 0 (replicate 4 zero_cmd) 3 0 0 0 max_cid (Some cmds).
Definition drive_cq : nvme_cq := Cq 0 [] false 3 0.
Definition drive_machine : machine := Mach
  (St 0 0 0 0 0 0 [drive_sq 1 [0; 0]; drive_sq 3 [0; 0; 0; 0]] [drive_cq; drive_cq]) {[ 0x200 := Req (0, 0) 0 0 ]} ∅ boot_words ∅ [] 0.
Definition drive_dev : nvme_blockdev := Nb 0 0 (Xfer 0x200 0 0 0 0 512 0 0x4000) 0 0 0 0 0 0 0.
Definition drive_bufs : buffers := Bufs 0x50000 0x51000 0x52000 0x53000 0x20000 0x30000.
Definition drive_layout : layout := Layout 4 0x53000 4 0x52000.

(** The controller resets at once and answers at once. *)
Definition drive_off (_ : nat) (m : machine) : machine := Mach (m_st m) (m_reqs m) ∅ (m_words m) (m_mem m) [fresh_dq; fresh_dq] (m_time m).
Definition write_page (addr : Z) (f : Z -> Z) (mm : mem) : mem := list_to_map (map (fun i => (addr + i, f i)) (seqZ 0 4096)) ∪ mm.
Definition drive_run (a : admin_cmd) (mm : mem) : mem :=
  match a with
  | IdentifyController addr => write_page addr (dr_controller demo_drive) mm
  | IdentifyNamespace nsid addr => write_page addr (dr_namespace demo_drive nsid) mm
  | _ => mm
  end.
Definition drive_exec (m : machine) (c : nvme_cmd) : Z * mem :=
  match decode_admin c with
  | Some a => if accepts demo_drive drive_layout a then (0, drive_run a (m_mem m)) else (2, m_mem m)
  | None => (1, m_mem m)
  end.
Definition drive_csts (t : nat) : Z := if (t =? 1)%nat then 0 else 1.

Lemma write_page_ok addr f mm : page_written addr f mm (write_page addr f mm) /\ forall x, is_Some (mm !! x) -> is_Some (write_page addr f mm !! x).
Proof.
  unfold write_page. set (l := map _ _). assert (NoDup l.*1) as Hnd.
  { unfold l. rewrite <- list_fmap_compose. apply NoDup_fmap_2_strong; [| apply NoDup_seqZ]. intros x y _ _ H. cbn in H. lia. }
  assert (forall x, ~ (addr <= x < addr + 4096) -> (list_to_map l : mem) !! x = None) as Hout.
  { intros x Hx. apply not_elem_of_list_to_map_1. unfold l. rewrite <- list_fmap_compose. intros (i & -> & Hi)%list_elem_of_fmap. apply elem_of_seqZ in Hi. cbn in Hx. lia. }
  assert (forall i, 0 <= i < 4096 -> (list_to_map l : mem) !! (addr + i) = Some (f i)) as Hin.
  { intros i Hi. apply elem_of_list_to_map_1; [done |]. unfold l. apply list_elem_of_fmap. exists i. split; [done |]. apply elem_of_seqZ. lia. }
  split; [split |].
  - intros i Hi. apply lookup_union_Some_l. by apply Hin.
  - intros x Hx. apply lookup_union_r. by apply Hout.
  - intros x Hx. apply lookup_union_is_Some. by right.
Qed.
Lemma drive_exec_ok m c : 0 <= (drive_exec m c).1 < 2 ^ 15 /\ drive_effect demo_drive drive_layout m c (drive_exec m c).1 (drive_exec m c).2.
Proof.
  unfold drive_effect, drive_exec. destruct (decode_admin c) as [a |]; [| by cbn]. destruct (accepts demo_drive drive_layout a); [| by cbn]. cbn [fst snd]. split; [lia |].
  destruct a as [addr | nsid addr | | |]; cbn [drive_run admin_mem]; try (split; [done | by left]).
  - destruct (write_page_ok addr (dr_controller demo_drive) (m_mem m)) as [H1 H2]. split; [exact H2 |]. by left.
  - destruct (write_page_ok addr (dr_namespace demo_drive nsid) (m_mem m)) as [H1 H2]. split; [exact H2 |]. by left.
Qed.

Lemma drive_controller : controller (drive_effect demo_drive drive_layout) drive_off (fun _ => serve drive_exec 0x300) drive_csts (fun t => 24000 * Z.of_nat t) 24000 0 0x300.
Proof.
  constructor.
  - by constructor.
  - intros t. lia.
  - lia.
  - intros m c code mm [H _]. exact H.
  - intros t m G Hok. by apply (serve_dev (drive_effect demo_drive drive_layout) drive_exec drive_exec_ok 0x300 m G).
  - intros t m G q sq cq dq _ H1 H2 H3 H4. by apply (serve_answers (drive_effect demo_drive drive_layout) drive_exec drive_exec_ok 0x300 m G q sq cq dq).
Qed.

