(* ===== verification/Elf.v ===== *)
(** * Loading the trusted firmware ([src/dramstage/commit.c])

    [load_elf] checks the header of an ELF file and copies its segments to where
    they belong.  The file is a list of bytes in memory; what the segments are
    is read off this list, and the memory afterwards is given as a whole. *)
From S2P Require Export Cmem.
From stdpp Require Import base list list_numbers zmap.

Open Scope Z_scope.

(** ** The code *)
Definition elf_magic : list Z := [0x00010102464c457f; 0; 0x0000000100b70002].

(** [while (dest < end) { *dest++ = *src++;}] *)
Fixpoint copy_loop (fuel : nat) (m : mem) (dest src e : Z) : res (mem * Z) :=
  match fuel with
  | O => Trap TrapFuel
  | S fuel =>
      if dest <? e then
        w ← ldw 8 m src;
        m ← stw 8 m dest w;
        copy_loop fuel m (u64 (dest + 8)) (u64 (src + 8)) e
      else Ok (m, dest)
  end.

(** [while (dest < end) { *dest++ = 0;}] *)
Fixpoint clear_loop (fuel : nat) (m : mem) (dest e : Z) : res mem :=
  match fuel with
  | O => Trap TrapFuel
  | S fuel => if dest <? e then m ← stw 8 m dest 0; clear_loop fuel m (u64 (dest + 8)) e else Ok m
  end.

(** [a % b], undefined for 0. *)
Definition c_rem (a b : Z) : res Z := if b =? 0 then Trap TrapDiv else Ok (a mod b).

(** One round of the loop over the program headers. *)
Definition load_segment (header : Z) (m : mem) (ph : Z) : res mem :=
  type ← ldw 4 m ph;
  if type =? 0x6474e551 then Ok m else
  _ ← c_assert (type =? 1);
  vaddr ← ldw 8 m (ph + 16);
  paddr ← ldw 8 m (ph + 24);
  _ ← c_assert (vaddr =? paddr);
  flags ← ldw 4 m (ph + 4);
  _ ← c_assert (flags =? 7);
  offset ← ldw 8 m (ph + 8);
  alignment ← ldw 8 m (ph + 48);
  r ← c_rem offset alignment;
  _ ← c_assert (r =? 0);
  r ← c_rem vaddr alignment;
  _ ← c_assert (r =? 0);
  _ ← c_assert (alignment mod 16 =? 0);
  file_size ← ldw 8 m (ph + 32);
  mem_size ← ldw 8 m (ph + 40);
  let words_copied := Z.shiftr (u64 (file_size + 7)) 3 in
  let words_clear := u64 (Z.shiftr (u64 (mem_size + 7)) 3 - words_copied) in
  let src := u64 (header + offset) in
  let e := u64 (vaddr + 8 * words_copied) in
  '(m, dest) ← copy_loop (S (Z.to_nat words_copied)) m vaddr src e;
  let e := u64 (e + 8 * words_clear) in
  clear_loop (S (Z.to_nat words_clear)) m dest e.

(** The output of the first 256 bytes reads them. *)
Definition dump_header (m : mem) (header : Z) : res unit :=
  foldM (fun _ i =>
    let x := u64 (header + 16 * i) in
    _ ← ldw 4 m x; _ ← ldw 4 m (x + 4); _ ← ldw 4 m (x + 8); _ ← ldw 4 m (x + 12); Ok tt) tt (range 0 16).

Definition load_elf (m : mem) (header : Z) : res mem :=
  _ ← dump_header m header;
  _ ← foldM (fun _ i => a ← ldw 8 m (header + 8 * i); b ← geti elf_magic i; c_assert (a =? b)) tt (range 0 3);
  prog_h_entry_size ← ldw 2 m (header + 54);
  _ ← c_assert (prog_h_entry_size =? 0x38);
  prog_h_off ← ldw 8 m (header + 32);
  _ ← c_assert (Z.land prog_h_off 7 =? 0);
  num_prog_h ← ldw 2 m (header + 56);
  foldM (fun m i =>
    prog_h_off ← ldw 8 m (header + 32);
    prog_h_entry_size ← ldw 2 m (header + 54);
    load_segment header m (u64 (header + prog_h_off + prog_h_entry_size * i))) m (range 0 num_prog_h).

(** ** The format *)
Definition field (image : list Z) (o n : Z) : Z := le_val (take (Z.to_nat n) (drop (Z.to_nat o) image)).

Record segment : Type := Seg {
  sg_type : Z; sg_flags : Z; sg_offset : Z; sg_vaddr : Z; sg_paddr : Z; sg_file_size : Z; sg_mem_size : Z; sg_alignment : Z
}.
Definition segment_at (image : list Z) (o : Z) : segment :=
  Seg (field image o 4) (field image (o + 4) 4) (field image (o + 8) 8) (field image (o + 16) 8) (field image (o + 24) 8)
    (field image (o + 32) 8) (field image (o + 40) 8) (field image (o + 48) 8).
Definition prog_h_off (image : list Z) : Z := field image 32 8.
Definition num_prog_h (image : list Z) : Z := field image 56 2.
Definition segments (image : list Z) : list segment :=
  map (fun i => segment_at image (prog_h_off image + 56 * i)) (range 0 (num_prog_h image)).

Definition is_stack (s : segment) : bool := sg_type s =? 0x6474e551.
Definition segment_ok (s : segment) : bool :=
  is_stack s ||
  (sg_type s =? 1) && (sg_vaddr s =? sg_paddr s) && (sg_flags s =? 7) && (sg_offset s mod sg_alignment s =? 0) &&
  (sg_vaddr s mod sg_alignment s =? 0) && (sg_alignment s mod 16 =? 0).
Definition header_ok (image : list Z) : bool :=
  bool_decide (map (fun i => field image (8 * i) 8) [0; 1; 2] = elf_magic) && (field image 54 2 =? 0x38) && (prog_h_off image mod 8 =? 0).

(** What a segment has in memory: its bytes of the file, followed by zeros up to
    its size in memory. *)
Definition contents (image : list Z) (s : segment) : list Z :=
  take (Z.to_nat (sg_file_size s)) (drop (Z.to_nat (sg_offset s)) image) ++ replicate (Z.to_nat (sg_mem_size s - sg_file_size s)) 0.

(** The memory with a segment in its place. *)
Definition place (image : list Z) (m : mem) (s : segment) : mem :=
  if is_stack s then m else mem_of (sg_vaddr s) (contents image s) ∪ m.

(** ** Memory *)
Lemma put_lookup a l (m : mem) x : (mem_of a l ∪ m) !! x = if (a <=? x) && (x <? a + zlen l) then l !! Z.to_nat (x - a) else m !! x.
Proof.
  destruct ((a <=? x) && (x <? a + zlen l)) eqn:E.
  - apply andb_true_iff in E as [E1 E2]. destruct (lookup_lt_is_Some_2 l (Z.to_nat (x - a))) as [v Hv]; [lia |]. rewrite Hv.
    apply lookup_union_Some_l. rewrite mem_of_lookup, E1, E2. done.
  - rewrite lookup_union_r; [done |]. by rewrite mem_of_lookup, E.
Qed.

Lemma st_put m a l : accessible m a (zlen l) -> Forall is_byte l -> st m a l = Ok (mem_of a l ∪ m).
Proof.
  intros Ha Hl. destruct (st_ok m a l Ha Hl) as (m' & -> & Hb & Hf). f_equal. apply map_eq. intros x. rewrite put_lookup.
  destruct (Z.leb_spec a x), (Z.ltb_spec x (a + zlen l)); cbn [andb]; try (apply Hf; lia).
  rewrite <- Hb by lia. f_equal. lia.
Qed.

Lemma put_put a l1 l2 (m : mem) : mem_of (a + zlen l1) l2 ∪ (mem_of a l1 ∪ m) = mem_of a (l1 ++ l2) ∪ m.
Proof.
  apply map_eq. intros x. rewrite !put_lookup, length_app, Nat2Z.inj_add.
  destruct (Z.leb_spec (a + zlen l1) x), (Z.ltb_spec x (a + zlen l1 + zlen l2)), (Z.leb_spec a x), (Z.ltb_spec x (a + zlen l1)),
    (Z.ltb_spec x (a + (zlen l1 + zlen l2))); cbn [andb]; try lia; try done.
  - rewrite lookup_app_r by lia. f_equal. lia.
  - rewrite lookup_app_l by lia. done.
Qed.

Lemma put_accessible a l m b n : accessible m b n -> accessible (mem_of a l ∪ m) b n.
Proof.
  intros H x Hx. rewrite put_lookup. destruct ((a <=? x) && (x <? a + zlen l)) eqn:E; [| by apply H].
  apply andb_true_iff in E as [E1 E2]. apply lookup_lt_is_Some_2. lia.
Qed.

Lemma put_bytes_at a l m b k : bytes_at m b k -> b + zlen k <= a \/ a + zlen l <= b -> bytes_at (mem_of a l ∪ m) b k.
Proof. intros H Hd i Hi. rewrite put_lookup. destruct (Z.leb_spec a (b + Z.of_nat i)), (Z.ltb_spec (b + Z.of_nat i) (a + zlen l)); cbn [andb]; (lia || by apply H). Qed.

Lemma bytes_at_sub m a image o n : bytes_at m a image -> 0 <= o -> 0 <= n -> o + n <= zlen image ->
  bytes_at m (a + o) (take (Z.to_nat n) (drop (Z.to_nat o) image)).
Proof.
  intros H Ho Hn Hl i Hi. rewrite length_take, length_drop in Hi. rewrite lookup_take_lt by lia. rewrite lookup_drop.
  replace (a + o + Z.of_nat i) with (a + Z.of_nat (Z.to_nat o + i)) by lia. apply H. lia.
Qed.

Section Load.
Context (header : Z) (image : list Z).
Context (Hbytes : Forall is_byte image) (Hhdr : 0 <= header /\ header mod 8 = 0 /\ header + zlen image < 2 ^ 64).

(** A field of the file is read. *)
Lemma ldw_field m n o : bytes_at m header image -> 0 <= o -> o + Z.of_nat n <= zlen image -> (o mod Z.of_nat n = 0) -> (n = 2 \/ n = 4 \/ n = 8)%nat ->
  ldw n m (header + o) = Ok (field image o (Z.of_nat n)).
Proof.
  intros Hm Ho Hl Ha Hn. rewrite ldw_aligned.
  - pose proof (bytes_at_sub m header image o (Z.of_nat n) Hm Ho ltac:(lia) Hl) as Hb. apply ld_bytes_at in Hb.
    rewrite length_take, length_drop, Nat.min_l in Hb by lia. rewrite Nat2Z.id in Hb. rewrite Hb. cbn [mbind res_bind]. unfold field. by rewrite Nat2Z.id.
  - destruct Hhdr as (_ & H8 & _). destruct Hn as [-> | [-> | ->]]; cbn [Z.of_nat Pos.of_succ_nat Pos.succ] in *; dlia.
Qed.

Lemma field_range o n : 0 <= n -> 0 <= field image o n < 2 ^ (8 * n).
Proof.
  intros Hn. unfold field. set (l := take _ _). assert (Forall is_byte l) as Hl by (by apply Forall_take, Forall_drop).
  pose proof (le_val_bound l Hl) as H. assert (zlen l <= n) as Hz by (unfold l; rewrite length_take; lia).
  assert (2 ^ (8 * zlen l) <= 2 ^ (8 * n)) by (apply Z.pow_le_mono_r; lia). lia.
Qed.

(** [n] words are copied. *)
Lemma copy_loop_ok l fuel m dest src : bytes_at m src l -> Forall is_byte l -> accessible m dest (zlen l) -> src + zlen l <= dest \/ dest + zlen l <= src ->
  zlen l mod 8 = 0 -> dest mod 8 = 0 -> src mod 8 = 0 -> 0 <= dest -> 0 <= src -> dest + zlen l < 2 ^ 64 -> src + zlen l < 2 ^ 64 -> zlen l / 8 < Z.of_nat fuel ->
  copy_loop fuel m dest src (dest + zlen l) = Ok (mem_of dest l ∪ m, dest + zlen l).
Proof.
  induction fuel as [| fuel IH] in l, m, dest, src |- *; intros Hs Hl Ha Hd H8 Hd8 Hs8 Hd0 Hs0 Hde Hse Hf; [dlia |]. cbn [copy_loop].
  destruct (Z.ltb_spec dest (dest + zlen l)) as [Hlt | Hge].
  - assert (8 <= zlen l) by dlia. rewrite <- (take_drop 8 l) in Hs, Hl, Ha. apply bytes_at_app in Hs as [Hs1 Hs2]. apply Forall_app in Hl as [Hl1 Hl2].
    assert (length (take 8 l) = 8%nat) as HL1 by (rewrite length_take; lia). assert (zlen (drop 8 l) = zlen l - 8) as HL2 by (rewrite length_drop; lia).
    rewrite HL1 in Hs2. change (Z.of_nat 8) with 8 in Hs2. pose proof (ld_bytes_at _ _ _ Hs1) as Hld. rewrite HL1 in Hld.
    rewrite ldw_aligned by done. rewrite Hld. cbn [mbind res_bind]. rewrite stw_aligned by done. rewrite (le_bytes_val_n 8) by done.
    rewrite length_app, HL1, Nat2Z.inj_add, HL2 in Ha. rewrite st_put; [| rewrite HL1; eapply accessible_sub; [done | lia | lia] | done]. cbn [mbind res_bind].
    rewrite !u64_small by lia. replace (dest + zlen l) with (dest + 8 + zlen (drop 8 l)) by lia.
    rewrite (IH (drop 8 l)); try done; try lia; rewrite ?HL2, ?HL1; try dlia.
    + pose proof (put_put dest (take 8 l) (drop 8 l) m) as E. rewrite HL1, take_drop in E. change (Z.of_nat 8) with 8 in E. by rewrite E.
    + apply put_bytes_at; [done |]. rewrite HL1, HL2. lia.
    + apply put_accessible. eapply accessible_sub; [done | lia | lia].
  - assert (l = []) as -> by (destruct l; [done | cbn [length] in *; lia]). change (zlen (@nil Z)) with 0. rewrite Z.add_0_r.
    change (mem_of dest []) with (∅ : mem). by rewrite (left_id_L ∅ (∪)).
Qed.
Lemma clear_loop_ok n fuel m dest : accessible m dest (8 * Z.of_nat n) -> dest mod 8 = 0 -> 0 <= dest -> dest + 8 * Z.of_nat n < 2 ^ 64 -> (n < fuel)%nat ->
  clear_loop fuel m dest (dest + 8 * Z.of_nat n) = Ok (mem_of dest (replicate (8 * n) 0) ∪ m).
Proof.
  induction fuel as [| fuel IH] in n, m, dest |- *; intros Ha Hd8 Hd0 Hde Hf; [lia |]. cbn [clear_loop]. destruct n as [| n].
  - assert ((dest <? dest + 8 * Z.of_nat 0) = false) as -> by zb. change (mem_of dest (replicate (8 * 0) 0)) with (∅ : mem). by rewrite (left_id_L ∅ (∪)).
  - assert ((dest <? dest + 8 * Z.of_nat (S n)) = true) as -> by zb. rewrite stw_aligned by done. change (le_bytes 8 0) with (replicate 8 0).
    rewrite st_put; [| eapply accessible_sub; [done | lia | cbn [length replicate]; lia] | by repeat constructor]. cbn [mbind res_bind]. rewrite u64_small by lia.
    replace (dest + 8 * Z.of_nat (S n)) with (dest + 8 + 8 * Z.of_nat n) by lia. rewrite IH; [| | dlia | lia | lia | lia].
    + replace (8 * S n)%nat with (8 + 8 * n)%nat by lia. rewrite replicate_add, <- put_put. done.
    + apply put_accessible. eapply accessible_sub; [done | lia | lia].
Qed.

Lemma align8 x a : x mod a = 0 -> a mod 16 = 0 -> x mod 8 = 0.
Proof.
  intros Hx Ha. destruct (Z.eq_dec a 0) as [-> | Hne]; [rewrite Z.mod_0_r in Hx; by rewrite Hx |].
  apply Z.mod_divide in Hx; [| done]. apply Z.mod_divide in Ha; [| done]. apply Z.mod_divide; [done |]. etrans; [| exact Hx]. etrans; [| exact Ha]. by exists 2.
Qed.

(** A segment has its contents in the file and its place outside of it, its
    sizes are whole words and its alignment is not 0. *)
Record fits (m : mem) (s : segment) : Prop := {
  ft_src : sg_offset s + sg_file_size s <= zlen image;
  ft_dest : sg_vaddr s + sg_mem_size s < 2 ^ 64 /\ accessible m (sg_vaddr s) (sg_mem_size s);
  ft_apart : sg_vaddr s + sg_mem_size s <= header \/ header + zlen image <= sg_vaddr s;
  ft_sizes : sg_file_size s <= sg_mem_size s /\ sg_file_size s mod 8 = 0 /\ sg_mem_size s mod 8 = 0;
  ft_align : sg_alignment s <> 0;
}.

(** The segment is copied, and the rest of its memory cleared. *)
Lemma copy_segment m s : bytes_at m header image -> fits m s -> 0 <= sg_offset s -> 0 <= sg_vaddr s -> 0 <= sg_file_size s -> 0 <= sg_mem_size s ->
  sg_offset s mod 8 = 0 -> sg_vaddr s mod 8 = 0 ->
  let words_copied := Z.shiftr (u64 (sg_file_size s + 7)) 3 in
  let words_clear := u64 (Z.shiftr (u64 (sg_mem_size s + 7)) 3 - words_copied) in
  let e := u64 (sg_vaddr s + 8 * words_copied) in
  ('(m, dest) ← copy_loop (S (Z.to_nat words_copied)) m (sg_vaddr s) (u64 (header + sg_offset s)) e;
   clear_loop (S (Z.to_nat words_clear)) m dest (u64 (e + 8 * words_clear))) = Ok (mem_of (sg_vaddr s) (contents image s) ∪ m).
Proof.
  intros Hm [F1 [F2 F3] F4 (F5 & F6 & F7) _] Ho Hv Hfs Hms Ho8 Hv8. destruct Hhdr as (H0 & H8 & H64). cbn zeta. unfold contents. set (c := sg_file_size s) in *. set (t := sg_mem_size s) in *.
  assert (8 * ((c + 7) / 8) = c) as Hce by dlia. assert (8 * ((t + 7) / 8) = t) as Hte by dlia.
  rewrite !Z.shiftr_div_pow2 by lia. change (2 ^ 3) with 8. rewrite !(u64_small (_ + 7)) by lia. clearbody c t.
  set (wc := (c + 7) / 8) in *. set (wt := (t + 7) / 8) in *. clearbody wc wt.
  rewrite (u64_small (header + sg_offset s)), (u64_small (sg_vaddr s + 8 * wc)), Hce by lia.
  pose proof (bytes_at_sub m header image (sg_offset s) c Hm Ho Hfs F1) as Hsrc. set (l := take (Z.to_nat c) (drop (Z.to_nat (sg_offset s)) image)) in *.
  assert (zlen l = c) as Hl by (unfold l; rewrite length_take, length_drop; lia).
  assert (Forall is_byte l) as Hlb by (by apply Forall_take, Forall_drop).
  pose proof (copy_loop_ok l (S (Z.to_nat wc)) m (sg_vaddr s) (header + sg_offset s)) as Hcopy. rewrite Hl in Hcopy.
  rewrite Hcopy; try done; try lia; [| eapply accessible_sub; [done | lia | lia] | dlia | dlia]. cbn [mbind res_bind]. clear Hcopy.
  rewrite (u64_small (wt - wc)), u64_small by lia.
  pose proof (clear_loop_ok (Z.to_nat (wt - wc)) (S (Z.to_nat (wt - wc))) (mem_of (sg_vaddr s) l ∪ m) (sg_vaddr s + c)) as Hclear.
  rewrite Z2Nat.id in Hclear by lia. rewrite Hclear; try lia; [| | dlia].
  - rewrite <- Hl, put_put. do 5 f_equal. lia.
  - apply put_accessible. eapply accessible_sub; [done | lia | lia].
Qed.
Lemma load_segment_ok m o : bytes_at m header image -> 0 <= o -> o mod 8 = 0 -> o + 56 <= zlen image ->
  let s := segment_at image o in (sg_type s = 1 -> fits m s) ->
  load_segment header m (header + o) = if segment_ok s then Ok (place image m s) else Trap TrapAssert.
Proof.
  intros Hm Ho H8 Hl s Hfit. unfold load_segment.
  assert (forall n k, (n = 2 \/ n = 4 \/ n = 8)%nat -> 0 <= k -> k + Z.of_nat n <= 56 -> (o + k) mod Z.of_nat n = 0 -> ldw n m (header + o + k) = Ok (field image (o + k) (Z.of_nat n))) as Hld.
  { intros n k Hn Hk Hkn Ha. rewrite <- Z.add_assoc. apply ldw_field; (done || lia). }
  rewrite (ldw_field m 4 o) by (done || lia || dlia || auto). cbn [mbind res_bind]. change (field image o (Z.of_nat 4)) with (sg_type s).
  unfold segment_ok, place, is_stack. destruct (Z.eqb_spec (sg_type s) 0x6474e551) as [| Hns]; [done |]. cbn [orb].
  destruct (Z.eqb_spec (sg_type s) 1) as [Ht |]; [| done]. cbn [c_assert mbind res_bind andb]. specialize (Hfit Ht).
  rewrite (Hld 8%nat 16), (Hld 8%nat 24) by (lia || dlia || auto). cbn [mbind res_bind].
  change (field image (o + 16) (Z.of_nat 8)) with (sg_vaddr s). change (field image (o + 24) (Z.of_nat 8)) with (sg_paddr s).
  destruct (sg_vaddr s =? sg_paddr s); [| done]. cbn [c_assert mbind res_bind andb].
  rewrite (Hld 4%nat 4) by (lia || dlia || auto). cbn [mbind res_bind]. change (field image (o + 4) (Z.of_nat 4)) with (sg_flags s).
  destruct (sg_flags s =? 7); [| done]. cbn [c_assert mbind res_bind andb]. rewrite (Hld 8%nat 8), (Hld 8%nat 48) by (lia || dlia || auto). cbn [mbind res_bind].
  change (field image (o + 8) (Z.of_nat 8)) with (sg_offset s). change (field image (o + 48) (Z.of_nat 8)) with (sg_alignment s).
  unfold c_rem. assert ((sg_alignment s =? 0) = false) as -> by (apply Z.eqb_neq, Hfit). cbn [mbind res_bind].
  destruct (Z.eqb_spec (sg_offset s mod sg_alignment s) 0) as [Ha1 |]; [| done]. cbn [c_assert mbind res_bind andb].
  destruct (Z.eqb_spec (sg_vaddr s mod sg_alignment s) 0) as [Ha2 |]; [| done]. cbn [c_assert mbind res_bind andb].
  destruct (Z.eqb_spec (sg_alignment s mod 16) 0) as [Ha3 |]; [| done]. cbn [c_assert mbind res_bind andb].
  rewrite (Hld 8%nat 32), (Hld 8%nat 40) by (lia || dlia || auto). cbn [mbind res_bind].
  change (field image (o + 32) (Z.of_nat 8)) with (sg_file_size s). change (field image (o + 40) (Z.of_nat 8)) with (sg_mem_size s).
  apply copy_segment; try done; try (apply field_range; lia); by apply (align8 _ (sg_alignment s)).
Qed.

(** The places of the segments are apart from the file, so that it stays. *)
Lemma place_keeps m s s' : bytes_at m header image -> (sg_type s = 1 -> fits m s) -> (sg_type s' = 1 -> fits m s') -> segment_ok s = true ->
  0 <= sg_file_size s -> bytes_at (place image m s) header image /\ (sg_type s' = 1 -> fits (place image m s) s').
Proof.
  intros Hm Hf Hf' Hok Ho. unfold place. destruct (is_stack s) eqn:Hst; [done |].
  assert (sg_type s = 1) as Ht by (unfold segment_ok in Hok; rewrite Hst in Hok; cbn [orb] in Hok; repeat (apply andb_true_iff in Hok as [Hok _]); lia).
  destruct (Hf Ht) as [F1 [F2 F3] F4 F5 F6].
  assert (zlen (contents image s) <= sg_mem_size s) as Hlen by (unfold contents; rewrite length_app, length_take, length_drop, length_replicate; lia).
  split; [apply put_bytes_at; [done | lia] |]. intros Ht'. destruct (Hf' Ht') as [E1 [E2 E3] E4 E5 E6]. constructor; [done | | done | done | done]. split; [done | by apply put_accessible].
Qed.
Context (Hsize : 256 <= zlen image) (Htable : prog_h_off image + 56 * num_prog_h image <= zlen image).

Abbreviation step := (fun m i =>
  prog_h_off ← ldw 8 m (header + 32);
  prog_h_entry_size ← ldw 2 m (header + 54);
  load_segment header m (u64 (header + prog_h_off + prog_h_entry_size * i))).

Lemma segments_ok m l : bytes_at m header image -> field image 54 2 = 0x38 -> prog_h_off image mod 8 = 0 ->
  Forall (fun i => 0 <= i < num_prog_h image) l ->
  let ss := map (fun i => segment_at image (prog_h_off image + 56 * i)) l in (forall s, s ∈ ss -> sg_type s = 1 -> fits m s) ->
  foldM step m l = if forallb segment_ok ss then Ok (foldl (place image) m ss) else Trap TrapAssert.
Proof.
  intros Hm Hes Hoff Hl. induction l as [| i l IH] in m, Hm, Hl |- *; intros ss Hf; [done |]. subst ss. inversion Hl as [| ? ? Hi Hl']; subst. cbn [foldM map forallb foldl].
  rewrite (ldw_field m 8 32), (ldw_field m 2 54) by (done || lia || auto). cbn [mbind res_bind]. change (Z.of_nat 8) with 8. change (Z.of_nat 2) with 2. rewrite Hes.
  fold (prog_h_off image). pose proof (field_range 32 8 ltac:(lia)) as Hor. fold (prog_h_off image) in Hor. destruct Hhdr as (H0 & H8 & H64).
  rewrite u64_small by lia. replace (header + prog_h_off image + 56 * i) with (header + (prog_h_off image + 56 * i)) by lia.
  set (s := segment_at image (prog_h_off image + 56 * i)) in *.
  assert (sg_type s = 1 -> fits m s) as Hfs by (intros; apply Hf; [apply list_elem_of_here | done]).
  rewrite (load_segment_ok m (prog_h_off image + 56 * i)); [| done | lia | dlia | lia | done]. fold s.
  destruct (segment_ok s) eqn:Hok; [| done]. cbn [mbind res_bind andb].
  assert (0 <= sg_file_size s) as Hfz by (apply field_range; lia). apply IH; [| done |].
  - by apply (place_keeps m s s Hm).
  - intros s' Hs'. apply (place_keeps m s s' Hm); try done. intros. apply Hf; [by apply list_elem_of_further | done].
Qed.

Lemma dump_header_ok m : bytes_at m header image -> dump_header m header = Ok tt.
Proof.
  intros Hm. destruct Hhdr as (H0 & H8 & H64). unfold dump_header.
  match goal with |- foldM ?f _ _ = _ => destruct (foldM_range (fun _ _ => True) f tt 0 16) as ([] & Hr & _); [lia | done | | exact Hr] end.
  intros i [] Hi _. exists tt. cbn zeta. rewrite u64_small by lia.
  assert (forall k, k = 0 \/ k = 4 \/ k = 8 \/ k = 12 -> ldw 4 m (header + 16 * i + k) = Ok (field image (16 * i + k) 4)) as Hk.
  { intros k Hk. rewrite <- Z.add_assoc. apply (ldw_field m 4); (done || lia || dlia || auto). }
  pose proof (Hk 0 ltac:(auto)) as Hk0. rewrite Z.add_0_r in Hk0. rewrite Hk0, !Hk by auto. done.
Qed.

Lemma magic_ok m : bytes_at m header image ->
  foldM (fun (_ : unit) i => a ← ldw 8 m (header + 8 * i); b ← geti elf_magic i; c_assert (a =? b)) tt (range 0 3) =
    c_assert (bool_decide (map (fun i => field image (8 * i) 8) [0; 1; 2] = elf_magic)).
Proof.
  intros Hm. change (range 0 3) with [0; 1; 2]. cbn [foldM map]. rewrite !(ldw_field m 8) by (done || lia || auto). cbn [mbind res_bind]. change (Z.of_nat 8) with 8.
  unfold elf_magic. change (geti _ 0) with (@Ok Z 0x00010102464c457f). change (geti _ 1) with (@Ok Z 0). change (geti _ 2) with (@Ok Z 0x0000000100b70002). cbn [mbind res_bind].
  set (a := field image (8 * 0) 8). set (b := field image (8 * 1) 8). set (c := field image (8 * 2) 8).
  destruct (Z.eqb_spec a 0x00010102464c457f) as [Ea |]; [| rewrite bool_decide_false by (intros [=]; lia); done]. cbn [c_assert mbind res_bind].
  destruct (Z.eqb_spec b 0) as [Eb |]; [| rewrite bool_decide_false by (intros [=]; lia); done]. cbn [c_assert mbind res_bind].
  destruct (Z.eqb_spec c 0x0000000100b70002) as [Ec |]; [| rewrite bool_decide_false by (intros [=]; lia); done]. rewrite bool_decide_true by congruence. done.
Qed.
End Load.

(** C17: [load_elf] puts every segment of the file in its place, and accepts
    exactly the files that it means to.  Let the file be in memory, with its
    table of program headers inside, and let each segment that is to be loaded
    have its contents inside and its place outside of the file, sizes that are
    multiples of 8 bytes and an alignment other than 0.  Then, if the magic
    number, the size of the entries, the offset of the table and all program
    headers are as required, the memory afterwards is the one before with the
    contents of the segments, in the order of the table and followed by zeros,
    put in their places, and nothing else changed; otherwise an assertion stops
    the boot.  Sizes that are not multiples of 8 are rounded up
    ([bss_not_cleared]). *)
Theorem load_elf_correct m header image :
  bytes_at m header image -> Forall is_byte image -> 0 <= header -> header mod 8 = 0 -> header + zlen image < 2 ^ 64 -> 256 <= zlen image ->
  prog_h_off image + 56 * num_prog_h image <= zlen image ->
  (forall s, s ∈ segments image -> sg_type s = 1 -> fits header image m s) ->
  load_elf m header =
    if header_ok image && forallb segment_ok (segments image) then Ok (foldl (place image) m (segments image)) else Trap TrapAssert.
Proof.
  intros Hm Hb H0 H8 H64 Hsize Htab Hf. pose proof (conj H0 (conj H8 H64)) as Hhdr. unfold load_elf, header_ok.
  rewrite (dump_header_ok header image Hhdr Hsize m Hm). cbn [mbind res_bind]. rewrite (magic_ok header image Hhdr Hsize m Hm).
  destruct (bool_decide _); [| done]. cbn [c_assert mbind res_bind andb].
  rewrite (ldw_field header image Hhdr m 2 54) by (done || lia || auto). cbn [mbind res_bind]. change (Z.of_nat 2) with 2.
  destruct (Z.eqb_spec (field image 54 2) 0x38) as [Hes |]; [| done]. cbn [c_assert mbind res_bind andb].
  rewrite (ldw_field header image Hhdr m 8 32), (ldw_field header image Hhdr m 2 56) by (done || lia || auto). cbn [mbind res_bind].
  change (field image 32 (Z.of_nat 8)) with (prog_h_off image). change (field image 56 (Z.of_nat 2)) with (num_prog_h image).
  change 7 with (Z.ones 3). rewrite Z.land_ones by lia. change (2 ^ 3) with 8.
  destruct (Z.eqb_spec (prog_h_off image mod 8) 0) as [Hoff |]; [| done]. cbn [c_assert mbind res_bind andb].
  apply (segments_ok header image Hb Hhdr Hsize Htab); try done. apply Forall_forall. intros i Hi. unfold range in Hi. apply elem_of_seqZ in Hi. lia.
Qed.

(** ** A file *)
Definition demo_ph (type offset vaddr file_size mem_size : Z) : list Z :=
  le_bytes 4 type ++ le_bytes 4 7 ++ le_bytes 8 offset ++ le_bytes 8 vaddr ++ le_bytes 8 vaddr ++ le_bytes 8 file_size ++ le_bytes 8 mem_size ++ le_bytes 8 16.
Definition demo_elf_of (file_size : Z) : list Z :=
  concat (map (le_bytes 8) elf_magic) ++ le_bytes 8 0x20000 ++ le_bytes 8 64 ++ le_bytes 8 0 ++ le_bytes 4 0 ++ le_bytes 2 64 ++ le_bytes 2 0x38 ++ le_bytes 2 2 ++
  le_bytes 2 0 ++ le_bytes 2 0 ++ le_bytes 2 0 ++ demo_ph 1 192 0x20000 file_size 24 ++ demo_ph 0x6474e551 0 0 0 0 ++ replicate 16 0 ++ [1; 2; 3; 4; 5; 6; 7; 8] ++ replicate 56 0.
Definition demo_elf : list Z := demo_elf_of 8.
Definition elf_memory_of (file_size : Z) : mem := mem_of 0x10000 (demo_elf_of file_size) ∪ mem_of 0x20000 (replicate 32 0xff).
Definition elf_memory : mem := elf_memory_of 8.

Lemma load_elf_correct_witness :
  load_elf elf_memory 0x10000 = Ok (mem_of 0x20000 ([1; 2; 3; 4; 5; 6; 7; 8] ++ replicate 16 0) ∪ elf_memory).
Proof.
  assert (segments demo_elf = [Seg 1 7 192 0x20000 0x20000 8 24 16; Seg 0x6474e551 7 0 0 0 0 0 16]) as Hs by (vm_compute; reflexivity).
  rewrite (load_elf_correct elf_memory 0x10000 demo_elf).
  - rewrite Hs. vm_compute. reflexivity.
  - intros i Hi. unfold elf_memory, elf_memory_of. fold demo_elf. rewrite put_lookup. rewrite (proj2 (Z.leb_le _ _)) by lia. rewrite (proj2 (Z.ltb_lt _ _)) by lia. cbn [andb]. f_equal. lia.
  - apply Forall_forall. intros b Hb. assert (forallb (fun b => (0 <=? b) && (b <? 256)) demo_elf = true) as H by (vm_compute; reflexivity).
    rewrite forallb_forall in H. specialize (H b ltac:(by apply list_elem_of_In)). apply andb_true_iff in H as [H1 H2]. split; [by apply Z.leb_le | by apply Z.ltb_lt].
  - lia.
  - reflexivity.
  - reflexivity.
  - vm_compute. discriminate.
  - vm_compute. discriminate.
  - intros s Hin Ht. rewrite Hs in Hin. apply elem_of_cons in Hin as [-> | Hin].
    + constructor; [vm_compute; discriminate | split; [reflexivity |] | right; vm_compute; discriminate | vm_compute; split; [discriminate | done] | discriminate].
      intros x Hx. change (0x20000 <= x < 0x20000 + 24) in Hx. unfold elf_memory, elf_memory_of. fold demo_elf. rewrite put_lookup. assert ((x <? 0x10000 + zlen demo_elf) = false) as ->.
      { apply Z.ltb_ge. change (zlen demo_elf) with 256. lia. }
      rewrite andb_false_r, mem_of_lookup, (proj2 (Z.leb_le _ _)), (proj2 (Z.ltb_lt _ _)) by (rewrite ?length_replicate; lia). cbn [andb].
      apply lookup_lt_is_Some_2. rewrite length_replicate. lia.
    + apply list_elem_of_singleton in Hin as ->. discriminate Ht.
Defined.

(** ** Where the code differs from what it means to do

    The size in the file is rounded up to words before the rest is cleared: of
    a segment of 5 bytes with 24 bytes in memory, the three bytes behind it in
    the file end up in memory that should be zero. *)
Lemma bss_not_cleared :
  match load_elf (elf_memory_of 5) 0x10000 with Ok m => m !! 0x20005 = Some 6 /\ m !! 0x20007 = Some 8 /\ m !! 0x20008 = Some 0 | Trap _ => False end.
Proof. vm_compute. done. Qed.

(** An alignment of 0, which the format allows and takes for none, is divided by. *)
Lemma alignment_zero m ph header : ldw 4 m ph = Ok 1 -> ldw 4 m (ph + 4) = Ok 7 -> ldw 8 m (ph + 8) = Ok 0 -> ldw 8 m (ph + 16) = Ok 0x20000 ->
  ldw 8 m (ph + 24) = Ok 0x20000 -> ldw 8 m (ph + 48) = Ok 0 -> load_segment header m ph = Trap TrapDiv.
Proof. intros H1 H2 H3 H4 H5 H6. unfold load_segment. rewrite H1. cbn [mbind res_bind]. change (1 =? 0x6474e551) with false. cbn [c_assert Z.eqb Pos.eqb mbind res_bind]. by rewrite H4, H5, H2, H3, H6. Qed.
