(* ===== verification/Spi.v ===== *)
(** * The SPI controller and the transfer from flash memory

    [rkspi.c] and [spi.c].  The controller with the flash memory behind it is a
    part of the state that changes by itself: [hw_step] says what it may do,
    and a function [bus] says what it does before the processor looks at a
    register.  The driver fills a buffer from interrupts while the boot thread
    waits for data in [spi1_pump]; a polling variant is used for small reads.
    Messages, the interrupt controller and cache maintenance are left out. *)
From S2P Require Import Prelude Cmem Decompression.
From stdpp Require Import gmap relations.
Open Scope Z_scope.

(** ** The device on the bus

    [xfer f b] clocks a byte out to the device and one in; [deselect] is the
    end of a command. *)
Record spi_device (F : Type) : Type := {
  xfer : F -> Z -> F * Z;
  deselect : F -> F;
}.
Arguments xfer {F}.
Arguments deselect {F}.

(** Constants of [rkspi_regs.h]; [hw_mode] is the field of the mode bits. *)
Definition RKSPI_DFS_8BIT : Z := 1.
Definition RKSPI_CSM_KEEP_LOW : Z := 0.
Definition RKSPI_SSD_FULL_CYCLE : Z := Z.shiftl 1 10.
Definition RKSPI_LITTLE_ENDIAN : Z := 0.
Definition RKSPI_MSB_FIRST : Z := 0.
Definition RKSPI_BHT_APB_16BIT : Z := 0.
Definition RKSPI_BHT_APB_8BIT : Z := Z.shiftl 1 13.
Definition RKSPI_XFM_TR : Z := 0.
Definition RKSPI_XFM_TX : Z := Z.shiftl 1 18.
Definition RKSPI_XFM_RX : Z := Z.shiftl 2 18.
Definition RKSPI_MASTER : Z := 0.
Definition RKSPI_RX_FULL_INTR : Z := 16.
Definition RKSPI_MAX_RECV : Z := 0xfffe.
Definition RKSPI_PHASE (n : Z) : Z := Z.shiftl n 6.
Definition RKSPI_POLARITY (n : Z) : Z := Z.shiftl n 7.
Definition rkspi_mode_base : Z :=
  Z.lor RKSPI_MASTER (Z.lor RKSPI_CSM_KEEP_LOW (Z.lor RKSPI_SSD_FULL_CYCLE (Z.lor RKSPI_LITTLE_ENDIAN
    (Z.lor RKSPI_MSB_FIRST (Z.lor (RKSPI_POLARITY 1) (Z.lor (RKSPI_PHASE 1) RKSPI_DFS_8BIT)))))).

(** The registers that the driver uses, the FIFOs behind [tx] and [rx], and
    what the driver cannot see: the bytes of a receive transfer that are still
    to come, and whether an item was lost because [rx] was full. *)
Record spi_hw (F : Type) : Type := mkHw {
  hw_ctrl0 : Z;
  hw_ctrl1 : Z;
  hw_enable : bool;
  hw_select : bool;
  hw_threshold : Z;
  hw_intr_mask : Z;
  hw_txq : list Z;
  hw_fifo : list Z;
  hw_left : Z;
  hw_overrun : bool;
  hw_time : Z;
  hw_dev : F;
}.
Arguments mkHw {F}.
Arguments hw_ctrl0 {F}. Arguments hw_ctrl1 {F}. Arguments hw_enable {F}. Arguments hw_select {F}.
Arguments hw_threshold {F}. Arguments hw_intr_mask {F}. Arguments hw_txq {F}. Arguments hw_fifo {F}.
Arguments hw_left {F}. Arguments hw_overrun {F}. Arguments hw_time {F}. Arguments hw_dev {F}.

Definition fifo_depth : Z := 32.
Definition hw_mode {F} (h : spi_hw F) : Z := Z.land (hw_ctrl0 h) (Z.shiftl 3 18).

Section Hardware.
Context {F : Type} (dev : spi_device F).
Implicit Types h : spi_hw F.

(** *** Register writes *)
Definition set_ctrl0 (v : Z) h : spi_hw F :=
  mkHw v (hw_ctrl1 h) (hw_enable h) (hw_select h) (hw_threshold h) (hw_intr_mask h) (hw_txq h) (hw_fifo h) (hw_left h) (hw_overrun h) (hw_time h) (hw_dev h).
Definition set_ctrl1 (v : Z) h : spi_hw F :=
  mkHw (hw_ctrl0 h) (u32 v) (hw_enable h) (hw_select h) (hw_threshold h) (hw_intr_mask h) (hw_txq h) (hw_fifo h) (hw_left h) (hw_overrun h) (hw_time h) (hw_dev h).
Definition set_threshold (v : Z) h : spi_hw F :=
  mkHw (hw_ctrl0 h) (hw_ctrl1 h) (hw_enable h) (hw_select h) (u32 v) (hw_intr_mask h) (hw_txq h) (hw_fifo h) (hw_left h) (hw_overrun h) (hw_time h) (hw_dev h).
Definition set_intr_mask (v : Z) h : spi_hw F :=
  mkHw (hw_ctrl0 h) (hw_ctrl1 h) (hw_enable h) (hw_select h) (hw_threshold h) v (hw_txq h) (hw_fifo h) (hw_left h) (hw_overrun h) (hw_time h) (hw_dev h).
(** Enabling starts a transfer of [ctrl1 + 1] bytes in receive mode; disabling
    empties the FIFOs. *)
Definition set_enable (v : bool) h : spi_hw F :=
  let left := if v then if hw_mode h =? RKSPI_XFM_RX then u16 (hw_ctrl1 h) + 1 else 0 else 0 in
  mkHw (hw_ctrl0 h) (hw_ctrl1 h) v (hw_select h) (hw_threshold h) (hw_intr_mask h) [] [] left (hw_overrun h) (hw_time h) (hw_dev h).
Definition set_select (v : bool) h : spi_hw F :=
  mkHw (hw_ctrl0 h) (hw_ctrl1 h) (hw_enable h) v (hw_threshold h) (hw_intr_mask h) (hw_txq h) (hw_fifo h) (hw_left h) (hw_overrun h) (hw_time h)
    (if v then hw_dev h else deselect dev (hw_dev h)).
(** A byte written to a full [tx] is lost. *)
Definition write_tx (v : Z) h : spi_hw F :=
  let q := if hw_enable h && (zlen (hw_txq h) <? fifo_depth) then hw_txq h ++ [u8 v] else hw_txq h in
  mkHw (hw_ctrl0 h) (hw_ctrl1 h) (hw_enable h) (hw_select h) (hw_threshold h) (hw_intr_mask h) q (hw_fifo h) (hw_left h) (hw_overrun h) (hw_time h) (hw_dev h).
(** Reading [rx] when it is empty gives no data: the driver must not do it. *)
Definition read_rx h : res (Z * spi_hw F) :=
  match hw_fifo h with
  | [] => Trap TrapAbort
  | x :: q => Ok (x, mkHw (hw_ctrl0 h) (hw_ctrl1 h) (hw_enable h) (hw_select h) (hw_threshold h) (hw_intr_mask h) (hw_txq h) q (hw_left h) (hw_overrun h) (hw_time h) (hw_dev h))
  end.
(** [status & 1]: bytes are still to be sent. *)
Definition busy h : bool := match hw_txq h with [] => false | _ => true end.
Definition rx_level h : Z := zlen (hw_fifo h).
Definition intr_status h : Z :=
  Z.land (hw_intr_mask h) (if hw_threshold h <? rx_level h then RKSPI_RX_FULL_INTR else 0).

(** *** What the controller does *)
Definition push_rx (x : Z) h : spi_hw F :=
  let room := rx_level h <? fifo_depth in
  mkHw (hw_ctrl0 h) (hw_ctrl1 h) (hw_enable h) (hw_select h) (hw_threshold h) (hw_intr_mask h) (hw_txq h)
    (if room then hw_fifo h ++ [x] else hw_fifo h) (hw_left h) (hw_overrun h || negb room) (hw_time h) (hw_dev h).
Definition move_on (txq : list Z) (left : Z) (f : F) h : spi_hw F :=
  mkHw (hw_ctrl0 h) (hw_ctrl1 h) (hw_enable h) (hw_select h) (hw_threshold h) (hw_intr_mask h) txq (hw_fifo h) left (hw_overrun h) (hw_time h) f.
Definition pass_time (t : Z) h : spi_hw F :=
  mkHw (hw_ctrl0 h) (hw_ctrl1 h) (hw_enable h) (hw_select h) (hw_threshold h) (hw_intr_mask h) (hw_txq h) (hw_fifo h) (hw_left h) (hw_overrun h) t (hw_dev h).

Definition receiving h : bool := hw_enable h && (hw_mode h =? RKSPI_XFM_RX) && (2 <=? hw_left h).

Definition send h : spi_hw F :=
  match hw_txq h with
  | b :: q =>
      let '(f, x) := xfer dev (hw_dev h) b in
      let h := move_on q (hw_left h) f h in
      if hw_mode h =? RKSPI_XFM_TR then push_rx x h else h
  | [] => h
  end.

(** Two bytes make an item, the first is the low one. *)
Definition receive h : spi_hw F :=
  let '(f, x) := xfer dev (hw_dev h) 0 in
  let '(f, y) := xfer dev f 0 in
  push_rx (x + 256 * y) (move_on (hw_txq h) (hw_left h - 2) f h).

(** A byte can be sent and, where one comes back for it, there is room for that. *)
Definition sending h : bool :=
  hw_enable h && busy h && ((hw_mode h =? RKSPI_XFM_TX) || (hw_mode h =? RKSPI_XFM_TR) && (rx_level h <? fifo_depth)).

Inductive hw_step : spi_hw F -> spi_hw F -> Prop :=
| step_send h : hw_enable h = true -> busy h = true -> hw_mode h <> RKSPI_XFM_RX -> hw_step h (send h)
| step_receive h : receiving h = true -> hw_step h (receive h)
| step_time h t : hw_time h <= t -> hw_step h (pass_time t h).
End Hardware.

(** ** The driver

    [struct rkspi_xfer_state] without its list of waiting threads; the machine
    is the controller, the memory and this state. *)
Record rkspi_xfer_state : Type := {
  this_xfer_items : Z;
  xs_buf : Z;
  xs_end : Z;
}.
Record spi (F : Type) : Type := mkSpi {
  sp_hw : spi_hw F;
  sp_mem : mem;
  sp_state : rkspi_xfer_state;
}.
Arguments mkSpi {F}. Arguments sp_hw {F}. Arguments sp_mem {F}. Arguments sp_state {F}.

Definition irq_threshold : Z := 24.
Definition max_transfer : Z := u16 (0xffff / (2 * irq_threshold) * irq_threshold * 2).
Definition USECS (n : Z) : Z := u64 (n * 24).

Section Driver.
Context {F : Type} (dev : spi_device F).
(** [bus] is what the controller does before a register is read; [patience]
    bounds the loops that wait for it. *)
Context (bus : spi_hw F -> spi_hw F) (patience : spi_hw F -> nat).

Fixpoint busy_loop (fuel : nat) (h : spi_hw F) : res (spi_hw F) :=
  match fuel with
  | O => Trap TrapFuel
  | S fuel => let h := bus h in if busy h then busy_loop fuel h else Ok h
  end.

Definition rkspi_tx_cmd4_dummy1 (h : spi_hw F) (cmd : Z) : res (spi_hw F) :=
  let h := set_ctrl0 (Z.lor rkspi_mode_base (Z.lor RKSPI_XFM_TX RKSPI_BHT_APB_8BIT)) h in
  let h := set_enable true h in
  let h := write_tx (Z.shiftr cmd 24) h in
  let h := write_tx (Z.land (Z.shiftr cmd 16) 0xff) h in
  let h := write_tx (Z.land (Z.shiftr cmd 8) 0xff) h in
  let h := write_tx (Z.land cmd 0xff) h in
  let h := write_tx 0xff h in
  h ← busy_loop (patience h) h;
  Ok (set_enable false h).

Definition rkspi_tx_fast_read_cmd (h : spi_hw F) (addr : Z) : res (spi_hw F) :=
  _ ← c_assert (Z.shiftr addr 24 =? 0);
  rkspi_tx_cmd4_dummy1 h (Z.lor (Z.shiftl 0x0b 24) addr).

(** *** Transfers driven by interrupts *)
Definition rkspi_start_rx_xfer (st : rkspi_xfer_state) (h : spi_hw F) (bytes : Z) : res (rkspi_xfer_state * spi_hw F) :=
  _ ← c_assert (bytes mod 2 =? 0);
  let '(bytes, h) :=
    if bytes / 2 <? irq_threshold then (bytes, set_threshold (bytes / 2 - 1) h)
    else
      (if max_transfer <? bytes then max_transfer else bytes / (irq_threshold * 2) * irq_threshold * 2,
       set_threshold (irq_threshold - 1) h) in
  let st := {| this_xfer_items := u16 (bytes / 2); xs_buf := xs_buf st; xs_end := xs_end st |} in
  let h := set_ctrl1 (bytes - 1) h in
  Ok (st, set_enable true h).

(** [for_range(i, 0, read_items) {*buf++ = to_le16((u16)spi->rx);}] *)
Fixpoint read_items_loop (n : nat) (m : mem) (buf : Z) (h : spi_hw F) : res (mem * Z * spi_hw F) :=
  match n with
  | O => Ok (m, buf, h)
  | S n =>
      '(x, h) ← read_rx (bus h);
      m ← stw 2 m buf (u16 x);
      read_items_loop n m (buf + 2) h
  end.

Definition rkspi_handle_interrupt (s : spi F) : res (spi F) :=
  let h := bus (sp_hw s) in
  if negb (flag (intr_status h) RKSPI_RX_FULL_INTR) then Trap TrapAbort else
  let st := sp_state s in
  let buf := xs_buf st in
  _ ← c_assert (negb (buf =? 0));
  let read_items := if irq_threshold <=? this_xfer_items st then irq_threshold else u8 (this_xfer_items st) in
  let end_ := xs_end st in
  _ ← c_assert (read_items <=? u64 ((end_ - buf) / 2));
  '(m, buf, h) ← read_items_loop (Z.to_nat read_items) (sp_mem s) buf h;
  let st := {| this_xfer_items := u16 (this_xfer_items st - read_items); xs_buf := buf; xs_end := end_ |} in
  if this_xfer_items st =? 0 then
    if end_ <=? buf then Ok (mkSpi h m st) else
    let h := set_enable false h in
    '(st, h) ← rkspi_start_rx_xfer st h (u64 ((end_ - buf) / 2 * 2));
    Ok (mkSpi h m st)
  else Ok (mkSpi h m st).

Definition start_irq_flash_read (s : spi F) (addr buf end_ : Z) : res (spi F) :=
  let total_bytes := u64 (end_ - buf) in
  _ ← c_assert (total_bytes mod 2 =? 0);
  let h := set_intr_mask RKSPI_RX_FULL_INTR (sp_hw s) in
  let h := set_select dev true h in
  h ← rkspi_tx_fast_read_cmd h addr;
  let st := {| this_xfer_items := this_xfer_items (sp_state s); xs_buf := buf; xs_end := end_ |} in
  let h := set_ctrl0 (Z.lor rkspi_mode_base (Z.lor RKSPI_XFM_RX RKSPI_BHT_APB_16BIT)) h in
  '(st, h) ← rkspi_start_rx_xfer st h total_bytes;
  Ok (mkSpi h (sp_mem s) st).

Definition rkspi_end_irq_flash_read (s : spi F) : spi F :=
  let h := set_enable false (sp_hw s) in
  let h := set_select dev false h in
  mkSpi (set_intr_mask 0 h) (sp_mem s) (sp_state s).

(** The processor takes an interrupt when the controller asks for it. *)
Definition tick (s : spi F) : res (spi F) :=
  let s := mkSpi (bus (sp_hw s)) (sp_mem s) (sp_state s) in
  if intr_status (sp_hw s) =? 0 then Ok s else rkspi_handle_interrupt s.

(** [call_cc_ptr2_int1(sched_finish_u8ptr, &spi1_state.buf, ...)]: the thread
    sleeps until the pointer has changed. *)
Fixpoint sleep_loop (fuel : nat) (ptr : Z) (s : spi F) : res (spi F) :=
  match fuel with
  | O => Trap TrapFuel
  | S fuel => s ← tick s; if xs_buf (sp_state s) =? ptr then sleep_loop fuel ptr s else Ok s
  end.

Fixpoint spi1_pump_loop (fuel : nat) (start min_size : Z) (s : spi F) : res (spi F) :=
  match fuel with
  | O => Trap TrapFuel
  | S fuel =>
      let ptr := xs_buf (sp_state s) in
      if (min_size <=? u64 (ptr - start)) || (ptr =? xs_end (sp_state s)) then Ok s
      else s ← sleep_loop (patience (sp_hw s)) ptr s; spi1_pump_loop fuel start min_size s
  end.

Definition spi1_pump (a : async_buf * spi F) (consume min_size : Z) : res ((async_buf * spi F) * async_buf) :=
  let '(buf, s) := a in
  let start := b_start buf + consume in
  s ← spi1_pump_loop (S (Z.to_nat (xs_end (sp_state s) - xs_buf (sp_state s)))) start min_size s;
  let buf := {| b_start := start; b_end := xs_buf (sp_state s) |} in
  Ok ((buf, s), buf).

(** *** Polling *)
Definition spi_timestamp (h : spi_hw F) : Z := u64 (hw_time h).

(** [while (!(rx_lvl = spi->rx_fifo_level))] *)
Fixpoint level_loop (fuel : nat) (wait_ts : Z) (h : spi_hw F) : res (Z * spi_hw F) :=
  match fuel with
  | O => Trap TrapFuel
  | S fuel =>
      let h := bus h in
      let rx_lvl := rx_level h in
      if negb (rx_lvl =? 0) then Ok (rx_lvl, h)
      else
        let h := bus h in
        if USECS 1000 <? u64 (spi_timestamp h - wait_ts) then Trap TrapAbort else level_loop fuel wait_ts h
  end.

(** [while (rx_lvl--)]; the flag says that the end was reached. *)
Fixpoint rx_loop (rx_lvl : nat) (m : mem) (ptr end_ : Z) (h : spi_hw F) : res (bool * mem * Z * spi_hw F) :=
  match rx_lvl with
  | O => Ok (false, m, ptr, h)
  | S rx_lvl =>
      '(x, h) ← read_rx (bus h);
      m ← stw 2 m ptr (u16 x);
      let ptr := ptr + 2 in
      if end_ <=? ptr then Ok (true, m, ptr, h) else rx_loop rx_lvl m ptr end_ h
  end.

Fixpoint recv_loop (fuel : nat) (m : mem) (ptr end_ : Z) (h : spi_hw F) : res (mem * spi_hw F) :=
  match fuel with
  | O => Trap TrapFuel
  | S fuel =>
      let h := bus h in
      let wait_ts := spi_timestamp h in
      '(rx_lvl, h) ← level_loop (patience h) wait_ts h;
      '(finished, m, ptr, h) ← rx_loop (Z.to_nat rx_lvl) m ptr end_ h;
      if finished : bool then Ok (m, h) else recv_loop fuel m ptr end_ h
  end.

Definition rkspi_recv_fast (h : spi_hw F) (m : mem) (buf buf_size : Z) : res (mem * spi_hw F) :=
  _ ← c_assert ((buf mod 2 =? 0) && (buf_size mod 2 =? 0) && (buf_size <=? 0xffff));
  let h := set_ctrl1 (buf_size - 1) h in
  let h := set_ctrl0 (Z.lor rkspi_mode_base (Z.lor RKSPI_XFM_RX RKSPI_BHT_APB_16BIT)) h in
  let h := set_enable true h in
  '(m, h) ← recv_loop (S (Z.to_nat buf_size)) m buf (buf + buf_size) h;
  Ok (m, set_enable false h).

Fixpoint poll_loop (fuel : nat) (m : mem) (pos buf_end : Z) (h : spi_hw F) : res (mem * spi_hw F) :=
  match fuel with
  | O => Trap TrapFuel
  | S fuel =>
      if pos <? buf_end then
        let read_size := u32 (buf_end - pos) in
        let read_size := if RKSPI_MAX_RECV <? read_size then RKSPI_MAX_RECV else read_size in
        _ ← c_assert (read_size mod 2 =? 0);
        '(m, h) ← rkspi_recv_fast h m pos read_size;
        poll_loop fuel m (pos + read_size) buf_end h
      else Ok (m, h)
  end.

Definition rkspi_read_flash_poll (h : spi_hw F) (m : mem) (buf buf_size addr : Z) : res (mem * spi_hw F) :=
  let h := set_select dev true h in
  h ← rkspi_tx_fast_read_cmd h addr;
  '(m, h) ← poll_loop (S (Z.to_nat buf_size)) m buf (buf + buf_size) h;
  Ok (m, set_select dev false h).
End Driver.
