(* ===== verification/SpiXfer.v ===== *)
(** * Transfers from flash memory deliver its contents

    Proofs for [Spi]: for every behaviour of the controller that [hw_step]
    allows the interrupt handler neither stops the machine nor leaves its
    buffer; as long as no item is lost the buffer holds the contents of the
    flash memory; and a controller that goes on and a processor that keeps
    pace bring every transfer to its end. *)
From S2P Require Import Prelude Cmem Decompression Spi.
From stdpp Require Import gmap relations.
Open Scope Z_scope.

(** Commands are sent byte by byte. *)
Definition send_all {F} (dev : spi_device F) (f : F) (l : list Z) : F := foldl (fun f b => fst (xfer dev f b)) f l.

(** What the driver knows of a flash memory with the contents [data]: after the
    command for a fast read, an address and a dummy byte it sends its contents
    from that address on, until it is deselected. *)
Class Flash {F} (dev : spi_device F) (data : Z -> Z) : Type := {
  fl_idle : F -> Prop;
  fl_reading : F -> Z -> Prop;
  fl_byte a : is_byte (data a);
  fl_fast_read f addr d : fl_idle f -> 0 <= addr < 2 ^ 24 ->
    fl_reading (send_all dev f [0x0b; addr / 65536; addr / 256 mod 256; addr mod 256; d]) addr;
  fl_stream f a b : fl_reading f a -> exists f', xfer dev f b = (f', data a) /\ fl_reading f' (a + 1);
  fl_deselect f a : fl_reading f a -> fl_idle (deselect dev f);
}.

(** A controller that goes on: it does only what [hw_step] allows, and
    [bus_wait] is how long it may take. *)
Class Bus {F} (dev : spi_device F) (bus : spi_hw F -> spi_hw F) (bus_wait : spi_hw F -> nat) : Prop := {
  bus_steps h : rtc (hw_step dev) h (bus h);
  bus_positive h : (0 < bus_wait h)%nat;
  bus_progress h : sending h = true \/ receiving h = true /\ rx_level h < fifo_depth -> (bus_wait (bus h) < bus_wait h)%nat;
}.

(** The processor keeps pace: nothing is lost. *)
Definition keeps_pace {F} (bus : spi_hw F -> spi_hw F) : Prop := forall h, hw_overrun (bus h) = hw_overrun h.

Definition flash_item (data : Z -> Z) (a : Z) : Z := data a + 256 * data (a + 1).
Fixpoint flash_items (data : Z -> Z) (k : nat) (a : Z) : list Z :=
  match k with O => [] | S k => flash_item data a :: flash_items data k (a + 2) end.

(** [filled data m buf e a]: the bytes from [buf] to [e] are those of the flash memory
    from [a] on. *)
Definition filled (data : Z -> Z) (m : mem) (buf e a : Z) : Prop :=
  forall x, buf <= x < e -> m !! x = Some (data (a + (x - buf))).

(** Only [buf, e) changed, and holds the flash memory's contents unless [lost]. *)
Record wrote (data : Z -> Z) (lost : bool) (m m' : mem) (buf e a : Z) : Prop := {
  wr_frame : frame m m' buf e;
  wr_dom : same_dom m m';
  wr_data : lost = false -> filled data m' buf e a;
}.

Section Items.
Context (data : Z -> Z) (data_byte : forall a, is_byte (data a)).

Lemma items_length k a : length (flash_items data k a) = k.
Proof. revert a. induction k; intros; cbn; auto. Qed.

Lemma items_snoc k a : flash_items data k a ++ [flash_item data (a + 2 * Z.of_nat k)] = flash_items data (S k) a.
Proof.
  revert a. induction k as [| k IH]; intros a; [cbn [flash_items app]; do 2 f_equal; lia |].
  cbn [flash_items app]. f_equal. etrans; [| exact (IH (a + 2))]. do 3 f_equal. lia.
Qed.

Lemma filled_nil m buf a : filled data m buf buf a.
Proof. intros x Hx. lia. Qed.

Lemma filled_app m b1 b2 b3 a a' : b1 <= b2 <= b3 -> a' = a + (b2 - b1) ->
  filled data m b1 b2 a -> filled data m b2 b3 a' -> filled data m b1 b3 a.
Proof.
  intros Hb -> H1 H2 x Hx. destruct (Z.lt_ge_cases x b2); [by apply H1; lia |].
  rewrite H2 by lia. do 2 f_equal. lia.
Qed.

Lemma filled_frame m m' lo hi buf e a : frame m m' lo hi -> e <= lo \/ hi <= buf -> filled data m buf e a -> filled data m' buf e a.
Proof. intros Hf Hd H x Hx. rewrite Hf by lia. by apply H. Qed.

Lemma wrote_refl lost m buf a : wrote data lost m m buf buf a.
Proof. split; [apply frame_refl | apply same_dom_refl | intros _; apply filled_nil]. Qed.

Lemma wrote_trans lost m1 m2 m3 b1 b2 b3 a a' : b1 <= b2 <= b3 -> a' = a + (b2 - b1) ->
  wrote data lost m1 m2 b1 b2 a -> wrote data lost m2 m3 b2 b3 a' -> wrote data lost m1 m3 b1 b3 a.
Proof.
  intros Hb Ha [F1 D1 W1] [F2 D2 W2]. split.
  - eapply frame_trans; eapply frame_weaken; try done; lia.
  - by eapply same_dom_trans.
  - intros Hl. eapply filled_app; [exact Hb | exact Ha | | by apply W2]. eapply filled_frame; [exact F2 | lia | by apply W1].
Qed.

Lemma wrote_weaken m m' lost lost' buf e a : (lost' = false -> lost = false) -> wrote data lost m m' buf e a -> wrote data lost' m m' buf e a.
Proof. intros Hl [H1 H2 H3]. split; auto. Qed.

(** One item is stored. *)
Lemma store_item (lost : bool) m buf x a : accessible m buf 2 -> buf mod 2 = 0 -> (lost = false -> x = flash_item data a) ->
  exists m', stw 2 m buf (u16 x) = Ok m' /\ wrote data lost m m' buf (buf + 2) a.
Proof using data_byte.
  intros Hacc Hal Hx. destruct (stw_ok 2 m buf (u16 x)) as (m' & Hs & Hat & Hfr); [done | done |].
  exists m'. split; [done |]. split; [done | |].
  - eapply st_frame_dom; [| exact Hat | by rewrite le_bytes_length]. by rewrite le_bytes_length.
  - intros Hl y Hy. specialize (Hx Hl). subst x. unfold flash_item in *. pose proof (data_byte a) as B1. pose proof (data_byte (a + 1)) as B2. unfold is_byte in *.
    rewrite u16_small in Hat by lia. destruct (Z.eq_dec y buf) as [-> | Hne].
    + pose proof (Hat 0%nat ltac:(rewrite le_bytes_length; lia)) as H0. change (Z.of_nat 0) with 0 in H0. rewrite Z.add_0_r in H0. rewrite H0. cbn -[Z.shiftr u8]. f_equal.
      unfold u8. replace (a + (buf - buf)) with a by lia. dlia.
    + pose proof (Hat 1%nat ltac:(rewrite le_bytes_length; lia)) as H1. replace (buf + Z.of_nat 1) with y in H1 by lia. rewrite H1. cbn -[Z.shiftr u8]. f_equal.
      unfold u8. rewrite Z.shiftr_div_pow2 by lia. replace (a + (y - buf)) with (a + 1) by lia. dlia.
Qed.
End Items.

(** ** What the controller keeps *)
Section Controller.
Context {F : Type} (dev : spi_device F) (data : Z -> Z) `{!Flash dev data}.
Implicit Types h : spi_hw F.

Record later h h' : Prop := {
  la_ctrl0 : hw_ctrl0 h' = hw_ctrl0 h;
  la_ctrl1 : hw_ctrl1 h' = hw_ctrl1 h;
  la_enable : hw_enable h' = hw_enable h;
  la_select : hw_select h' = hw_select h;
  la_threshold : hw_threshold h' = hw_threshold h;
  la_mask : hw_intr_mask h' = hw_intr_mask h;
  la_overrun : hw_overrun h' = false -> hw_overrun h = false;
  la_level : rx_level h <= rx_level h';
  la_time : hw_time h <= hw_time h';
}.

#[export] Instance later_preorder : PreOrder later.
Proof.
  split; [intros h; by split |]. intros h1 h2 h3 [A1 A2 A3 A4 A5 A6 A7 A8 A9] [B1 B2 B3 B4 B5 B6 B7 B8 B9].
  split; try congruence; [auto | lia | lia].
Qed.

Lemma push_later x h : later h (push_rx x h).
Proof.
  split; try done; cbn.
  - by intros [? _]%orb_false_iff.
  - unfold rx_level. cbn. case_match; rewrite ?length_app; lia.
Qed.

Lemma move_later q l f h : later h (move_on q l f h).
Proof. by split. Qed.

Lemma step_later h h' : hw_step dev h h' -> later h h'.
Proof.
  intros [h1 _ _ _ | h1 _ | h1 t Ht]; [| | by split].
  - unfold send. destruct (hw_txq h1) as [| b q]; [done |]. destruct (xfer dev (hw_dev h1) b) as [f x].
    case_match; [| apply move_later]. etrans; [apply move_later | apply push_later].
  - unfold receive. destruct (xfer dev _ _) as [f x]. destruct (xfer dev f _) as [f' y].
    etrans; [apply move_later | apply push_later].
Qed.

Lemma steps_later h h' : rtc (hw_step dev) h h' -> later h h'.
Proof. induction 1; [done |]. etrans; [by apply step_later | done]. Qed.

(** A receive transfer: [n] items are still to be read, the first of them is at
    the address [a] of the flash memory. *)
Record rx_ok (a n : Z) h : Prop := {
  rx_enable : hw_enable h = true;
  rx_mode : hw_mode h = RKSPI_XFM_RX;
  rx_left : 0 <= hw_left h;
  rx_count : 2 * rx_level h + hw_left h <= 2 * n;
  rx_data : hw_overrun h = false -> 2 * rx_level h + hw_left h = 2 * n /\
    hw_fifo h = flash_items data (length (hw_fifo h)) a /\ fl_reading (hw_dev h) (a + 2 * rx_level h);
}.

Lemma push_fields x h : rx_level (push_rx x h) = rx_level h /\ hw_overrun (push_rx x h) = true \/
  hw_fifo (push_rx x h) = hw_fifo h ++ [x] /\ hw_overrun (push_rx x h) = hw_overrun h.
Proof.
  unfold push_rx. destruct (rx_level h <? fifo_depth); [right | left]; cbn; split; try done; [apply orb_false_r | apply orb_true_r].
Qed.

Lemma receive_rx_ok a n h : rx_ok a n h -> receiving h = true -> rx_ok a n (receive dev h).
Proof.
  intros [H1 H2 H3 H4 H5] Hr. unfold receiving in Hr. apply andb_true_iff in Hr as [_ Hl%Z.leb_le]. unfold receive.
  destruct (xfer dev (hw_dev h) 0) as [f x] eqn:Hx. destruct (xfer dev f 0) as [f' y] eqn:Hy.
  set (h1 := move_on _ _ _ _). assert (rx_level h1 = rx_level h) as Hl1 by done.
  assert (hw_left (push_rx (x + 256 * y) h1) = hw_left h - 2) as Hl2 by done.
  destruct (push_fields (x + 256 * y) h1) as [[Hv Ho] | [Hf Ho]].
  - split; try done; [lia | lia | congruence].
  - assert (rx_level (push_rx (x + 256 * y) h1) = rx_level h + 1) as Hv.
    { unfold rx_level at 1. rewrite Hf, length_app. unfold rx_level. cbn. lia. }
    split; try done; [lia | lia |]. rewrite Ho. intros Hno. destruct (H5 Hno) as (G1 & G2 & G3).
    destruct (fl_stream _ _ 0 G3) as (f1 & E1 & G4). rewrite Hx in E1. injection E1 as -> ->.
    destruct (fl_stream _ _ 0 G4) as (f2 & E2 & G5). rewrite Hy in E2. injection E2 as -> ->.
    split_and!; [lia | |].
    + rewrite Hf, length_app. change (hw_fifo h1) with (hw_fifo h). cbn [length]. rewrite Nat.add_1_r, <- items_snoc, <- G2. done.
    + rewrite Hv. change (hw_dev _) with f2. by replace (a + 2 * (rx_level h + 1)) with (a + 2 * rx_level h + 1 + 1) by lia.
Qed.

Lemma steps_rx_ok a n h h' : rtc (hw_step dev) h h' -> rx_ok a n h -> rx_ok a n h'.
Proof.
  induction 1 as [| h1 h2 h3 Hs _ IH]; [done |]. intros Hok. apply IH.
  destruct Hs as [h1 _ _ Hm | h1 Hr | h1 t _]; [by destruct Hok | by apply receive_rx_ok | by destruct Hok].
Qed.

(** A transmission: the device has got the first bytes of [l]. *)
Record tx_ok (f : F) (l : list Z) h : Prop := {
  tx_enable : hw_enable h = true;
  tx_mode : hw_mode h = RKSPI_XFM_TX;
  tx_sent : exists sent, l = sent ++ hw_txq h /\ hw_dev h = send_all dev f sent;
}.

Lemma send_all_snoc (f : F) l b : send_all dev f (l ++ [b]) = fst (xfer dev (send_all dev f l) b).
Proof. unfold send_all. by rewrite foldl_app. Qed.

Lemma steps_tx_ok f l h h' : rtc (hw_step dev) h h' -> tx_ok f l h -> tx_ok f l h'.
Proof.
  induction 1 as [| h1 h2 h3 Hs _ IH]; [done |]. intros [H1 H2 (sent & Hl & Hd)]. apply IH.
  destruct Hs as [h1 _ Hb Hm | h1 Hr | h1 t _].
  - unfold send, busy in *. destruct (hw_txq h1) as [| b q] eqn:Hq; [done |]. destruct (xfer dev (hw_dev h1) b) as [f1 x] eqn:Hx.
    change (hw_mode (move_on q (hw_left h1) f1 h1)) with (hw_mode h1). rewrite H2. change (RKSPI_XFM_TX =? RKSPI_XFM_TR) with false.
    split; try done. exists (sent ++ [b]). split; [by rewrite <- app_assoc |]. rewrite send_all_snoc, <- Hd, Hx. done.
  - exfalso. unfold receiving in Hr. rewrite H2 in Hr. by rewrite andb_false_r in Hr.
  - split; try done. eauto.
Qed.
End Controller.

(** ** Sending a command *)
Section Command.
Context {F : Type} (dev : spi_device F) (bus : spi_hw F -> spi_hw F) (bus_wait : spi_hw F -> nat) `{!Bus dev bus bus_wait}.
Implicit Types h : spi_hw F.

Lemma bus_later h : later h (bus h).
Proof. eapply steps_later, bus_steps. Qed.

Lemma tx_sending f l h : tx_ok dev f l h -> busy h = true -> sending h = true.
Proof. clear. intros [H1 H2 _] Hb. unfold sending. by rewrite H1, H2, Hb. Qed.

(** A waiting loop ends: as long as it goes on, the controller gets on. *)
Lemma busy_loop_ok f l fuel h : tx_ok dev f l h -> (0 < fuel)%nat -> (busy (bus h) = true -> bus_wait (bus h) < fuel)%nat ->
  exists h', busy_loop bus fuel h = Ok h' /\ later h h' /\ hw_dev h' = send_all dev f l.
Proof.
  revert h. induction fuel as [| fuel IH]; intros h Htx Hf Hw; [lia |]. cbn [busy_loop].
  assert (tx_ok dev f l (bus h)) as Htx1 by (eapply steps_tx_ok; [apply bus_steps | done]).
  destruct (busy (bus h)) eqn:Hb.
  - specialize (Hw eq_refl). pose proof (bus_progress (bus h) (or_introl (tx_sending _ _ _ Htx1 Hb))) as Hp.
    destruct (IH (bus h)) as (h' & -> & Hl & Hd); [done | lia | intros _; lia |]. exists h'. split_and!; try done. etrans; [apply bus_later | done].
  - exists (bus h). split_and!; [done | apply bus_later |]. destruct Htx1 as [_ _ (sent & Hl & Hd)]. unfold busy in Hb.
    destruct (hw_txq (bus h)); [| done]. by rewrite app_nil_r in Hl; subst.
Qed.

Lemma write_tx_ok f l v h : tx_ok dev f l h -> zlen l < fifo_depth -> tx_ok dev f (l ++ [u8 v]) (write_tx v h) /\ busy (write_tx v h) = true.
Proof.
  intros [H1 H2 (sent & -> & Hd)] Hl. rewrite length_app in Hl. unfold write_tx. rewrite H1.
  rewrite (proj2 (Z.ltb_lt (zlen (hw_txq h)) fifo_depth)) by lia. cbn [andb]. split; [split; try done |].
  - exists sent. split; [by rewrite <- app_assoc | done].
  - unfold busy. cbn. by destruct (hw_txq h).
Qed.

Lemma write_tx_later v h : later h (write_tx v h).
Proof. done. Qed.

Definition command_bytes (cmd : Z) : list Z :=
  [Z.shiftr cmd 24; Z.land (Z.shiftr cmd 16) 0xff; Z.land (Z.shiftr cmd 8) 0xff; Z.land cmd 0xff; 0xff].

(** Registers that a command leaves alone. *)
Record after_command h h' : Prop := {
  ac_select : hw_select h' = hw_select h;
  ac_mask : hw_intr_mask h' = hw_intr_mask h;
  ac_off : hw_enable h' = false;
  ac_overrun : hw_overrun h' = false -> hw_overrun h = false;
}.

Lemma tx_cmd4_dummy1_ok h cmd : 0 <= cmd < 2 ^ 32 ->
  exists h', rkspi_tx_cmd4_dummy1 bus bus_wait h cmd = Ok h' /\ after_command h h' /\ hw_dev h' = send_all dev (hw_dev h) (command_bytes cmd).
Proof.
  intros Hc. unfold rkspi_tx_cmd4_dummy1.
  assert (forall x, u8 (Z.land x 255) = Z.land x 255) as Hb.
  { intros x. apply u8_small. change 255 with (2 ^ 8 - 1). rewrite land_ones_mod by lia. apply Z.mod_pos_bound; lia. }
  set (h0 := set_enable true _). assert (tx_ok dev (hw_dev h) [] h0) as Htx by (split; [done | done | by exists []]).
  apply (write_tx_ok _ _ (Z.shiftr cmd 24)) in Htx as [Htx _]; [| done].
  apply (write_tx_ok _ _ (Z.land (Z.shiftr cmd 16) 0xff)) in Htx as [Htx _]; [| done].
  apply (write_tx_ok _ _ (Z.land (Z.shiftr cmd 8) 0xff)) in Htx as [Htx _]; [| done].
  apply (write_tx_ok _ _ (Z.land cmd 0xff)) in Htx as [Htx _]; [| done].
  apply (write_tx_ok _ _ 0xff) in Htx as [Htx Hbusy]; [| done]. cbn [app] in Htx. rewrite !Hb in Htx.
  rewrite (u8_small (Z.shiftr cmd 24)) in Htx by (rewrite Z.shiftr_div_pow2 by lia; dlia). change (u8 255) with 255 in Htx.
  set (h1 := write_tx 255 _) in *. assert (later h0 h1) as Hl1 by (repeat (etrans; [| apply write_tx_later]); done). clearbody h1.
  destruct (busy_loop_ok _ _ (bus_wait h1) h1 Htx) as (h2 & -> & Hl & Hd); [apply bus_positive | intros _; apply bus_progress; left; by eapply tx_sending |].
  pose proof (transitivity Hl1 Hl) as [].
  cbn [mbind res_bind]. eexists. split; [done |]. split; [split |]; done.
Qed.
End Command.

(** ** Transfers driven by interrupts *)
Section Transfer.
Context {F : Type} (dev : spi_device F) (data : Z -> Z) `{!Flash dev data}.
Context (bus : spi_hw F -> spi_hw F) (bus_wait : spi_hw F -> nat) `{!Bus dev bus bus_wait}.
Implicit Types (h : spi_hw F) (s : spi F).

Lemma fast_read_cmd_ok h addr : fl_idle (hw_dev h) -> 0 <= addr < 2 ^ 24 ->
  exists h', rkspi_tx_fast_read_cmd bus bus_wait h addr = Ok h' /\ after_command h h' /\ fl_reading (hw_dev h') addr.
Proof.
  intros Hi Ha. unfold rkspi_tx_fast_read_cmd. rewrite Z.shiftr_div_pow2, Z.div_small by lia. assert_ok.
  assert (Z.lor (Z.shiftl 11 24) addr = 11 * 2 ^ 24 + addr) as Hcmd.
  { rewrite Z.lor_comm, lor_shiftl_add by lia. lia. }
  rewrite Hcmd. destruct (tx_cmd4_dummy1_ok dev bus bus_wait h (11 * 2 ^ 24 + addr)) as (h' & -> & Hac & Hd); [lia |].
  exists h'. split_and!; try done. rewrite Hd. unfold command_bytes.
  change 255 with (2 ^ 8 - 1). rewrite !land_ones_mod, !Z.shiftr_div_pow2 by lia.
  replace ((11 * 2 ^ 24 + addr) / 2 ^ 24) with 0x0b by dlia.
  replace ((11 * 2 ^ 24 + addr) / 2 ^ 16 mod 2 ^ 8) with (addr / 65536) by dlia.
  replace ((11 * 2 ^ 24 + addr) / 2 ^ 8 mod 2 ^ 8) with (addr / 256 mod 256) by dlia.
  replace ((11 * 2 ^ 24 + addr) mod 2 ^ 8) with (addr mod 256) by dlia. by apply fl_fast_read.
Qed.

Lemma bus_rx_ok a n h : rx_ok dev data a n h -> rx_ok dev data a n (bus h).
Proof. apply steps_rx_ok, bus_steps. Qed.

Lemma read_rx_ok a n h : rx_ok dev data a n h -> 0 < rx_level h ->
  exists x h', read_rx h = Ok (x, h') /\ rx_ok dev data (a + 2) (n - 1) h' /\ rx_level h' = rx_level h - 1 /\
    hw_overrun h' = hw_overrun h /\ hw_left h' = hw_left h /\ (hw_overrun h = false -> x = flash_item data a) /\
    hw_threshold h' = hw_threshold h /\ hw_intr_mask h' = hw_intr_mask h /\ hw_select h' = hw_select h.
Proof.
  intros [H1 H2 H3 H4 H5] Hl. unfold read_rx, rx_level in *. destruct (hw_fifo h) as [| x q] eqn:Hq; [cbn in Hl; lia |].
  eexists x, _. split; [done |]. cbn [length] in *. split_and!; try done; [| cbn; lia |].
  - split; try done; unfold rx_level; cbn; [lia |]. intros Ho. destruct (H5 Ho) as (G1 & G2 & G3). cbn [flash_items] in G2. injection G2 as -> G2.
    split_and!; [lia | done |]. by replace (a + 2 + 2 * zlen q) with (a + 2 * Z.of_nat (S (length q))) by lia.
  - intros Ho. destruct (H5 Ho) as (_ & G2 & _). by injection G2 as -> _.
Qed.

(** Items are read one by one, while others arrive. *)
Lemma read_items_loop_ok k m buf h a n : rx_ok dev data a n h -> Z.of_nat k <= rx_level h -> buf mod 2 = 0 -> accessible m buf (2 * Z.of_nat k) ->
  exists m' h', read_items_loop bus k m buf h = Ok (m', buf + 2 * Z.of_nat k, h') /\
    rx_ok dev data (a + 2 * Z.of_nat k) (n - Z.of_nat k) h' /\ (hw_overrun h' = false -> hw_overrun h = false) /\
    wrote data (hw_overrun h') m m' buf (buf + 2 * Z.of_nat k) a /\
    hw_threshold h' = hw_threshold h /\ hw_intr_mask h' = hw_intr_mask h /\ hw_select h' = hw_select h.
Proof.
  revert m buf h a n. induction k as [| k IH]; intros m buf h a n Hrx Hl Hal Hacc.
  { exists m, h. cbn [read_items_loop]. change (2 * Z.of_nat 0) with 0. rewrite !Z.add_0_r, Z.sub_0_r. split_and!; try done. apply wrote_refl. }
  cbn [read_items_loop]. pose proof (bus_later dev bus bus_wait h) as [_ _ _ L4 L5 L6 L7 L8 _].
  destruct (read_rx_ok _ _ _ (bus_rx_ok _ _ _ Hrx)) as (x & h1 & -> & Hrx1 & Hl1 & Ho1 & _ & Hx & Ht1 & Hm1 & Hs1); [lia |].
  cbn [mbind res_bind].
  destruct (store_item data fl_byte (hw_overrun (bus h)) m buf x a) as (m1 & -> & Hw); [| done | done |].
  { intros y Hy. apply Hacc. lia. }
  cbn [mbind res_bind]. destruct (IH m1 (buf + 2) h1 (a + 2) (n - 1) Hrx1) as (m2 & h2 & -> & Hrx2 & Ho2 & Hw2 & Ht2 & Hm2 & Hs2).
  - lia.
  - dlia.
  - eapply accessible_same_dom; [apply Hw |]. eapply accessible_sub; [exact Hacc | lia | lia].
  - exists m2, h2. replace (buf + 2 + 2 * Z.of_nat k) with (buf + 2 * Z.of_nat (S k)) in * by lia.
    replace (a + 2 + 2 * Z.of_nat k) with (a + 2 * Z.of_nat (S k)) in Hrx2 by lia.
    replace (n - 1 - Z.of_nat k) with (n - Z.of_nat (S k)) in Hrx2 by lia. split_and!; try done; try congruence.
    + intros Ho. apply L7. rewrite <- Ho1. auto.
    + eapply wrote_trans; [| | | exact Hw2]; [lia | lia |]. eapply wrote_weaken; [| exact Hw]. intros Ho. rewrite <- Ho1. auto.
Qed.

(** A transfer is set up so that an interrupt comes when there is as much to
    read as the handler will read. *)
Record xfer_ok (items threshold : Z) : Prop := {
  xo_items : 0 < items < 2 ^ 15;
  xo_threshold : threshold = Z.min irq_threshold items - 1;
  xo_multiple : irq_threshold <= items -> items mod irq_threshold = 0;
}.

Lemma start_rx_xfer_ok st h a bytes : hw_mode h = RKSPI_XFM_RX -> fl_reading (hw_dev h) a \/ hw_overrun h = true ->
  0 < bytes < 2 ^ 64 -> bytes mod 2 = 0 ->
  exists n h', rkspi_start_rx_xfer st h bytes = Ok ({| this_xfer_items := n; xs_buf := xs_buf st; xs_end := xs_end st |}, h') /\
    xfer_ok n (hw_threshold h') /\ 2 * n <= bytes /\ rx_ok dev data a n h' /\
    hw_overrun h' = hw_overrun h /\ hw_intr_mask h' = hw_intr_mask h /\ hw_select h' = hw_select h.
Proof.
  intros Hm Hd Hb He. unfold rkspi_start_rx_xfer. assert_ok.
  assert (exists bytes1 t, (if bytes / 2 <? irq_threshold then (bytes, set_threshold (bytes / 2 - 1) h)
    else (if max_transfer <? bytes then max_transfer else bytes / (irq_threshold * 2) * irq_threshold * 2, set_threshold (irq_threshold - 1) h)) =
      (bytes1, set_threshold t h) /\ bytes1 mod 2 = 0 /\ 2 <= bytes1 <= bytes /\ bytes1 <= 65520 /\ 0 <= t < 2 ^ 32 /\ xfer_ok (bytes1 / 2) t)
    as (bytes1 & t & -> & B1 & B2 & B3 & B4 & B5).
  { change max_transfer with 65520. unfold irq_threshold. destruct (Z.ltb_spec (bytes / 2) 24); [| destruct (Z.ltb_spec 65520 bytes)].
    - eexists bytes, _. split; [done |]. split_and!; try lia; try dlia. split; unfold irq_threshold; dlia.
    - eexists _, _. split; [done |]. split_and!; try lia; try dlia. split; unfold irq_threshold; dlia.
    - eexists _, _. split; [done |]. split_and!; try lia; try dlia. split; unfold irq_threshold; dlia. }
  rewrite u16_small by dlia. exists (bytes1 / 2). eexists. split; [done |].
  assert (hw_left (set_enable true (set_ctrl1 (bytes1 - 1) (set_threshold t h))) = bytes1) as Hl.
  { cbn -[u16 u32 hw_mode RKSPI_XFM_RX Z.eqb]. change (hw_mode (set_ctrl1 _ _)) with (hw_mode h). rewrite Hm, Z.eqb_refl, (u32_small (_ - 1)), u16_small by lia. lia. }
  split_and!; try done.
  - cbn. by rewrite u32_small.
  - dlia.
  - split; try done; unfold rx_level; rewrite ?Hl; cbn [hw_fifo set_enable length]; [lia | dlia |].
    intros Ho. split_and!; [dlia | done |]. destruct Hd as [Hd | Hd]; [| cbn in Ho; congruence]. by rewrite Z.mul_0_r, Z.add_0_r.
Qed.

(** The state of a transfer from the address [addr] to [start]: what is in front of [buf] has
    arrived. *)
Record spi_ok (start addr : Z) s : Prop := {
  so_ptr : 0 < start <= xs_buf (sp_state s) /\ xs_buf (sp_state s) <= xs_end (sp_state s) < 2 ^ 63;
  so_align : start mod 2 = 0 /\ xs_buf (sp_state s) mod 2 = 0 /\ xs_end (sp_state s) mod 2 = 0;
  so_acc : accessible (sp_mem s) start (xs_end (sp_state s) - start);
  so_mask : hw_intr_mask (sp_hw s) = RKSPI_RX_FULL_INTR;
  so_rx : rx_ok dev data (addr + (xs_buf (sp_state s) - start)) (this_xfer_items (sp_state s)) (sp_hw s);
  so_items : 2 * this_xfer_items (sp_state s) <= xs_end (sp_state s) - xs_buf (sp_state s);
  so_run : xs_buf (sp_state s) < xs_end (sp_state s) -> xfer_ok (this_xfer_items (sp_state s)) (hw_threshold (sp_hw s));
  so_threshold : 0 <= hw_threshold (sp_hw s);
  so_data : hw_overrun (sp_hw s) = false -> filled data (sp_mem s) start (xs_buf (sp_state s)) addr;
}.

Lemma intr_pending h : hw_intr_mask h = RKSPI_RX_FULL_INTR ->
  intr_status h = (if hw_threshold h <? rx_level h then RKSPI_RX_FULL_INTR else 0).
Proof. intros Hm. unfold intr_status. rewrite Hm. by case_bool. Qed.

(** The machine got on: bytes were only added at the end of what was there. *)
Record advanced s s' : Prop := {
  ad_end : xs_end (sp_state s') = xs_end (sp_state s);
  ad_buf : xs_buf (sp_state s) <= xs_buf (sp_state s');
  ad_frame : frame (sp_mem s) (sp_mem s') (xs_buf (sp_state s)) (xs_buf (sp_state s'));
  ad_dom : same_dom (sp_mem s) (sp_mem s');
}.

#[export] Instance advanced_preorder : PreOrder advanced.
Proof.
  split; [intros s; split; [done | lia | apply frame_refl | apply same_dom_refl] |].
  intros s1 s2 s3 [A1 A2 A3 A4] [B1 B2 B3 B4]. split; [congruence | lia | | by eapply same_dom_trans].
  eapply frame_trans; eapply frame_weaken; try done; lia.
Qed.

Lemma handle_interrupt_ok start addr s : spi_ok start addr s -> hw_threshold (sp_hw s) < rx_level (sp_hw s) ->
  exists s', rkspi_handle_interrupt bus s = Ok s' /\ spi_ok start addr s' /\ advanced s s' /\ xs_buf (sp_state s) < xs_buf (sp_state s').
Proof.
  intros [[P1 P2] (A1 & A2 & A3) Hacc Hmask Hrx Hit Hrun Hth Hdata] Hlvl. destruct s as [h m [n buf e]]. cbn in *.
  pose proof (bus_later dev bus bus_wait h) as [L1 _ _ L4 L5 L6 L7 L8 _]. apply bus_rx_ok in Hrx.
  unfold rkspi_handle_interrupt. cbn [sp_hw sp_state sp_mem xs_buf xs_end this_xfer_items].
  rewrite intr_pending, (proj2 (Z.ltb_lt _ _)) by (congruence || lia). change (negb (flag _ _)) with false. cbn match.
  rewrite (proj2 (Z.eqb_neq buf 0)) by lia. cbn [negb c_assert mbind res_bind].
  assert (buf < e) as Hbe. { destruct Hrx as [_ _ R3 R4 _]. lia. }
  specialize (Hrun Hbe) as [X1 X2 X3]. unfold irq_threshold in X2, X3.
  set (k := if irq_threshold <=? n then irq_threshold else u8 n).
  assert (k = Z.min 24 n) as Hk by (subst k; unfold irq_threshold; destruct (Z.leb_spec 24 n); [| rewrite u8_small]; lia).
  clearbody k. rewrite u64_small by dlia. assert (k <= (e - buf) / 2) by dlia. assert_ok.
  destruct (read_items_loop_ok (Z.to_nat k) m buf (bus h) (addr + (buf - start)) n Hrx) as (m' & h' & -> & Hrx' & Ho & Hw & Ht' & Hm' & Hs').
  { lia. } { done. } { eapply accessible_sub; [exact Hacc | lia | lia]. }
  cbn [mbind res_bind this_xfer_items]. rewrite Z2Nat.id in * by lia. rewrite u16_small by lia. pose proof Hw as [W1 W2 W3].
  assert (hw_overrun h' = false -> filled data m' start (buf + 2 * k) addr) as Hdata'.
  { intros Hno. eapply (filled_app _ _ start buf); [lia | done | | by apply W3]. eapply filled_frame; [exact W1 | lia | auto]. }
  assert (forall s1, sp_mem s1 = m' -> xs_buf (sp_state s1) = buf + 2 * k -> xs_end (sp_state s1) = e ->
    advanced (mkSpi h m {| this_xfer_items := n; xs_buf := buf; xs_end := e |}) s1) as Hadv.
  { intros s1 E1 E2 E3. split; cbn; rewrite ?E1, ?E2, ?E3; done || lia. }
  assert (accessible m' start (e - start)) as Hacc' by (eapply accessible_same_dom; done).
  assert ((buf + 2 * k) mod 2 = 0) as Hal by dlia.
  replace (addr + (buf - start) + 2 * k) with (addr + (buf + 2 * k - start)) in Hrx' by lia.
  destruct (Z.eqb_spec (n - k) 0) as [Hn | Hn].
  - destruct (Z.leb_spec e (buf + 2 * k)).
    + eexists. split; [done |]. split_and!; [| by apply Hadv | cbn; lia]. split; cbn; try done; try lia; try congruence.
    + destruct (start_rx_xfer_ok {| this_xfer_items := n - k; xs_buf := buf + 2 * k; xs_end := e |} (set_enable false h')
        (addr + (buf + 2 * k - start)) (u64 ((e - (buf + 2 * k)) / 2 * 2))) as (n2 & h2 & -> & X & Hn2 & Hrx2 & Ho2 & Hm2 & Hs2).
      * apply Hrx'.
      * cbn. destruct (hw_overrun h') eqn:Hov; [by right | left]. destruct Hrx' as [_ _ R3 R4 R5]. destruct (R5 Hov) as (_ & _ & R6).
        assert (0 <= rx_level h') by (unfold rx_level; lia). replace (addr + (buf + 2 * k - start)) with (addr + (buf + 2 * k - start) + 2 * rx_level h') by lia. done.
      * rewrite u64_small by dlia. dlia.
      * rewrite u64_small by dlia. dlia.
      * rewrite u64_small in Hn2 by dlia. cbn [mbind res_bind xs_buf xs_end]. eexists. split; [done |]. split_and!; [| by apply Hadv | cbn; lia].
        destruct X as [Y1 Y2 Y3]. unfold irq_threshold in Y2.
        split; cbn; try done; try lia; try congruence; [cbn in Hm2; congruence | dlia | rewrite Ho2; done].
  - eexists. split; [done |]. split_and!; [| by apply Hadv | cbn; lia]. split; cbn; try done; try lia; try congruence.
    intros _. split; unfold irq_threshold in *; [lia | | dlia]. rewrite Ht', L5, X2. dlia.
Qed.

Lemma bus_spi_ok start addr s : spi_ok start addr s -> spi_ok start addr (mkSpi (bus (sp_hw s)) (sp_mem s) (sp_state s)).
Proof.
  intros [H1 H2 H3 H4 H5 H6 H7 H8 H9]. pose proof (bus_later dev bus bus_wait (sp_hw s)) as [_ _ _ L4 L5 L6 L7 L8 _].
  split; cbn; try done; rewrite ?L5, ?L6; try done; [by apply bus_rx_ok | auto].
Qed.

Lemma tick_ok start addr s : spi_ok start addr s ->
  exists s', tick bus s = Ok s' /\ spi_ok start addr s' /\ advanced s s' /\
    (xs_buf (sp_state s') = xs_buf (sp_state s) -> sp_hw s' = bus (sp_hw s) /\ rx_level (sp_hw s') <= hw_threshold (sp_hw s')).
Proof.
  intros Hok. apply bus_spi_ok in Hok. unfold tick. set (s1 := mkSpi _ _ _) in *.
  assert (advanced s s1) as Hadv by (split; cbn; [done | done | apply frame_refl | apply same_dom_refl]).
  rewrite intr_pending by apply Hok. destruct (Z.ltb_spec (hw_threshold (sp_hw s1)) (rx_level (sp_hw s1))) as [Hl | Hl].
  - change (RKSPI_RX_FULL_INTR =? 0) with false. cbn match. destruct (handle_interrupt_ok _ _ _ Hok Hl) as (s2 & -> & Hok2 & Hadv2 & Hb).
    exists s2. split_and!; [done | done | by etrans |]. intros Heq. change (xs_buf (sp_state s1)) with (xs_buf (sp_state s)) in Hb. lia.
  - change (0 =? 0) with true. cbn match. exists s1. split_and!; done.
Qed.

(** As long as the thread sleeps, items arrive. *)
Lemma sleeping_receives start addr s : spi_ok start addr s -> hw_overrun (sp_hw s) = false -> xs_buf (sp_state s) < xs_end (sp_state s) ->
  rx_level (sp_hw s) <= hw_threshold (sp_hw s) -> receiving (sp_hw s) = true /\ rx_level (sp_hw s) < fifo_depth.
Proof.
  intros Hok Ho Hb Hl. destruct (so_run _ _ _ Hok Hb) as [X1 X2 _]. destruct (so_rx _ _ _ Hok) as [R1 R2 R3 R4 R5].
  destruct (R5 Ho) as (R6 & _). unfold irq_threshold, fifo_depth in *. split; [| lia]. unfold receiving. rewrite R1, R2. cbn. apply Z.leb_le. lia.
Qed.

Section Pace.
Context (pace : keeps_pace bus).

Lemma read_items_pace k m buf h m' buf' h' : read_items_loop bus k m buf h = Ok (m', buf', h') -> hw_overrun h' = hw_overrun h.
Proof using pace.
  clear Bus0. revert m buf h. induction k as [| k IH]; intros m buf h; cbn [read_items_loop]; [by intros [= -> -> ->] |].
  unfold read_rx. pose proof (pace h) as Hp. destruct (hw_fifo (bus h)); [done |]. cbn [mbind res_bind].
  destruct (stw 2 m buf _) as [m1 |]; [| done]. cbn [mbind res_bind]. intros E%IH. rewrite E. done.
Qed.

Lemma tick_pace s s' : tick bus s = Ok s' -> hw_overrun (sp_hw s') = hw_overrun (sp_hw s).
Proof using pace.
  clear Bus0. unfold tick. case_match; [intros [= <-]; apply pace |]. unfold rkspi_handle_interrupt. cbn [sp_hw sp_mem sp_state].
  destruct (negb (flag _ _)); [done |]. destruct (c_assert (negb _)) as [[] |]; cbn [mbind res_bind]; [| by intros [=]].
  destruct (c_assert _) as [[] |]; cbn [mbind res_bind]; [| by intros [=]].
  destruct (read_items_loop bus _ _ _ _) as [[[m b] h] |] eqn:Hr; cbn [mbind res_bind]; [| by intros [=]]. apply read_items_pace in Hr. rewrite !pace in Hr. cbn [mbind res_bind].
  destruct (this_xfer_items {| this_xfer_items := _; xs_buf := _; xs_end := _ |} =? 0); [| by intros [= <-]]. destruct (_ <=? b); [by intros [= <-] |]. unfold rkspi_start_rx_xfer.
  destruct (c_assert _) as [[] |]; cbn [mbind res_bind]; [| by intros [=]]. destruct (_ <? irq_threshold); cbn [mbind res_bind]; by intros [= <-].
Qed.

Lemma sleep_loop_ok start addr fuel s : spi_ok start addr s -> hw_overrun (sp_hw s) = false -> xs_buf (sp_state s) < xs_end (sp_state s) ->
  (0 < fuel)%nat -> (rx_level (bus (sp_hw s)) <= hw_threshold (bus (sp_hw s)) -> (bus_wait (bus (sp_hw s)) < fuel)%nat) ->
  exists s', sleep_loop bus fuel (xs_buf (sp_state s)) s = Ok s' /\ spi_ok start addr s' /\ advanced s s' /\
    hw_overrun (sp_hw s') = false /\ xs_buf (sp_state s) < xs_buf (sp_state s').
Proof using pace Bus0.
  revert s. induction fuel as [| fuel IH]; intros s Hok Ho Hb Hf Hw; [lia |]. cbn [sleep_loop].
  destruct (tick_ok _ _ _ Hok) as (s1 & Ht & Hok1 & Hadv & Hsame). rewrite Ht. apply tick_pace in Ht. rewrite Ho in Ht. cbn [mbind res_bind].
  destruct (Z.eqb_spec (xs_buf (sp_state s1)) (xs_buf (sp_state s))) as [He | He].
  - destruct (Hsame He) as [Eh Hl]. rewrite <- Eh in Hw. specialize (Hw Hl). pose proof Hadv as [E1 _ _ _].
    assert (receiving (sp_hw s1) = true /\ rx_level (sp_hw s1) < fifo_depth) as Hrec by (eapply sleeping_receives; try done; lia).
    pose proof (bus_progress (sp_hw s1) (or_intror Hrec)) as Hp.
    destruct (IH s1) as (s2 & Hs2 & Hok2 & Hadv2 & Ho2 & Hb2); [done | done | lia | lia | intros _; lia |].
    rewrite He in Hs2, Hb2. exists s2. split_and!; try done. by etrans.
  - exists s1. split_and!; try done. pose proof (ad_buf _ _ Hadv). lia.
Qed.

Lemma spi1_pump_loop_ok start addr fuel from min_size s : spi_ok start addr s -> hw_overrun (sp_hw s) = false -> 
  start <= from <= xs_buf (sp_state s) -> (Z.to_nat (xs_end (sp_state s) - xs_buf (sp_state s)) < fuel)%nat ->
  exists s', spi1_pump_loop bus bus_wait fuel from min_size s = Ok s' /\ spi_ok start addr s' /\ advanced s s' /\ hw_overrun (sp_hw s') = false /\
    (min_size <= xs_buf (sp_state s') - from \/ xs_buf (sp_state s') = xs_end (sp_state s')).
Proof using pace Bus0.
  revert s. induction fuel as [| fuel IH]; intros s Hok Ho Hfr Hf; [lia |]. cbn [spi1_pump_loop]. pose proof (so_ptr _ _ _ Hok) as [P1 P2].
  rewrite u64_small by lia. destruct (Z.leb_spec min_size (xs_buf (sp_state s) - from)); [exists s; split_and!; try done; by left |].
  destruct (Z.eqb_spec (xs_buf (sp_state s)) (xs_end (sp_state s))); [exists s; split_and!; try done; by right |]. cbn [orb].
  destruct (sleep_loop_ok start addr (bus_wait (sp_hw s)) s) as (s1 & -> & Hok1 & Hadv & Ho1 & Hb1); [done | done | lia | apply bus_positive | |].
  { intros Hl. pose proof (bus_later dev bus bus_wait (sp_hw s)) as [_ _ _ _ L5 _ _ L8 _].
    apply bus_progress; right. eapply sleeping_receives; try done; lia. }
  cbn [mbind res_bind]. pose proof (ad_end _ _ Hadv). pose proof (so_ptr _ _ _ Hok1) as [Q1 Q2].
  destruct (IH s1) as (s2 & -> & Hok2 & Hadv2 & Ho2 & Hm2); [done | done | lia | lia |]. exists s2. split_and!; try done. by etrans.
Qed.
End Pace.

Lemma start_irq_flash_read_ok s addr buf e : fl_idle (hw_dev (sp_hw s)) -> 0 <= addr < 2 ^ 24 -> 0 < buf < e -> e < 2 ^ 63 ->
  buf mod 2 = 0 -> e mod 2 = 0 -> accessible (sp_mem s) buf (e - buf) ->
  exists s', start_irq_flash_read dev bus bus_wait s addr buf e = Ok s' /\ spi_ok buf addr s' /\ sp_mem s' = sp_mem s /\
    xs_buf (sp_state s') = buf /\ xs_end (sp_state s') = e /\ (hw_overrun (sp_hw s') = false -> hw_overrun (sp_hw s) = false).
Proof.
  intros Hi Ha Hb He A1 A2 Hacc. unfold start_irq_flash_read. rewrite u64_small by lia.
  assert ((e - buf) mod 2 = 0) as Hm by dlia. assert_ok.
  set (h0 := set_select dev true _). destruct (fast_read_cmd_ok h0 addr) as (h1 & -> & [C1 C2 C3 C4] & Hd); [done | done |]. cbn [mbind res_bind].
  set (st := Build_rkspi_xfer_state _ _ _). set (h2 := set_ctrl0 _ h1).
  destruct (start_rx_xfer_ok st h2 addr (e - buf)) as (n & h3 & -> & X & Hn & Hrx & Ho & Hmask & Hs); [done | by left | lia | done |].
  cbn [mbind res_bind]. eexists. split; [done |]. cbn. split_and!; try done.
  - destruct X as [X1 X2 X3]. unfold irq_threshold in *. split; cbn; try done; try lia; try (split_and!; done || lia).
    + rewrite Hmask. cbn. by rewrite C2.
    + by replace (addr + (buf - buf)) with addr by lia.
    + intros _. apply filled_nil.
  - rewrite Ho. cbn. exact C4.
Qed.
End Transfer.

(** ** Polling

    The device answers in time: while the driver waits for an item, the clock
    advances by no more than the timeout. *)
Definition answers_in_time {F} (bus : spi_hw F -> spi_hw F) : Prop := forall k h, receiving h = true ->
  (forall j, (j < k)%nat -> rx_level (Nat.iter j bus h) = 0) -> hw_time (Nat.iter k bus h) - hw_time h <= USECS 1000.

Section Polling.
Context {F : Type} (dev : spi_device F) (data : Z -> Z) `{!Flash dev data}.
Context (bus : spi_hw F -> spi_hw F) (bus_wait : spi_hw F -> nat) `{!Bus dev bus bus_wait}.
Context (pace : keeps_pace bus) (prompt : answers_in_time bus).
Implicit Types h : spi_hw F.

Lemma empty_receives a n h : rx_ok dev data a n h -> hw_overrun h = false -> 0 < n -> rx_level h = 0 -> receiving h = true /\ rx_level h < fifo_depth.
Proof.
  intros [R1 R2 R3 R4 R5] Ho Hn Hl. destruct (R5 Ho) as (R6 & _). split; [| by rewrite Hl]. unfold receiving. rewrite R1, R2. cbn. apply Z.leb_le. lia.
Qed.

Lemma iter_later k h : later h (Nat.iter k bus h).
Proof using Bus0. clear pace prompt. induction k as [| k IH]; [done |]. cbn. etrans; [exact IH | by eapply bus_later]. Qed.

(** [h] comes after [h0], where the driver began to wait, and nothing has arrived. *)
Definition spi_waiting h0 h : Prop := receiving h0 = true /\
  exists j, h = Nat.iter j bus h0 /\ forall i, (i < j)%nat -> rx_level (Nat.iter i bus h0) = 0.

Lemma waiting_bus h0 h : spi_waiting h0 h -> rx_level h = 0 -> spi_waiting h0 (bus h).
Proof.
  clear pace prompt Bus0. intros (Hr & j & -> & Hj) Hl. split; [done |]. exists (S j). split; [done |]. intros i Hi.
  destruct (decide (i = j)) as [-> | Hne]; [done |]. apply Hj. lia.
Qed.

Lemma waiting_time h0 h : spi_waiting h0 h -> (USECS 1000 <? u64 (spi_timestamp h - spi_timestamp h0)) = false.
Proof using prompt Bus0.
  clear pace. intros (Hr & j & -> & Hj). apply Z.ltb_ge. pose proof (la_time _ _ (iter_later j h0)) as Ht. pose proof (prompt j h0 Hr Hj) as Hp.
  unfold spi_timestamp, u64. rewrite <- Zminus_mod, Z.mod_small; [done |]. change (USECS 1000) with 24000 in Hp. lia.
Qed.

Lemma level_loop_ok a n h0 fuel h : rx_ok dev data a n h -> hw_overrun h = false -> 0 < n -> (rx_level h = 0 -> spi_waiting h0 h) ->
  (0 < fuel)%nat -> (rx_level (bus h) = 0 -> (bus_wait (bus h) < fuel)%nat) ->
  exists h', level_loop bus fuel (spi_timestamp h0) h = Ok (rx_level h', h') /\ rx_ok dev data a n h' /\ hw_overrun h' = false /\ 0 < rx_level h'.
Proof using pace prompt Bus0.
  revert h. induction fuel as [| fuel IH]; intros h Hrx Ho Hn Hwt Hf Hw; [lia |]. cbn [level_loop].
  pose proof (bus_rx_ok _ _ bus bus_wait _ _ _ Hrx) as Hrx1. pose proof (pace h) as Ho1. rewrite Ho in Ho1.
  pose proof (la_level _ _ (bus_later dev bus bus_wait h)). assert (0 <= rx_level h) by (unfold rx_level; lia).
  destruct (Z.eqb_spec (rx_level (bus h)) 0) as [Hl | Hl]; cbn [negb].
  2: { exists (bus h). split_and!; try done. lia. }
  specialize (Hw Hl). assert (spi_waiting h0 (bus h)) as Hwt1 by (apply waiting_bus; [apply Hwt |]; lia).
  pose proof (waiting_bus _ _ Hwt1 Hl) as Hwt2. rewrite (waiting_time _ _ Hwt2).
  assert (forall h, rx_ok dev data a n h -> hw_overrun h = false -> rx_level h = 0 -> (bus_wait (bus h) < bus_wait h)%nat) as Hprog.
  { intros h1 R1 R2 R3. apply bus_progress; right. by eapply empty_receives. }
  pose proof (Hprog _ Hrx1 Ho1 Hl).
  pose proof (bus_rx_ok _ _ bus bus_wait _ _ _ Hrx1) as Hrx2. pose proof (pace (bus h)) as Ho2. rewrite Ho1 in Ho2.
  apply IH; try done; [lia |]. intros Hl3. enough (bus_wait (bus (bus (bus h))) < bus_wait (bus (bus h)))%nat by lia.
  apply Hprog; try done. pose proof (la_level _ _ (bus_later dev bus bus_wait (bus (bus h)))).
  assert (0 <= rx_level (bus (bus h))) by (unfold rx_level; lia). lia.
Qed.

Lemma rx_loop_ok k m ptr e h a n : rx_ok dev data a n h -> hw_overrun h = false -> 0 < n -> e = ptr + 2 * n ->
  Z.of_nat k <= rx_level h -> ptr mod 2 = 0 -> accessible m ptr (2 * n) ->
  exists m' h', rx_loop bus k m ptr e h = Ok (Z.of_nat k =? n, m', ptr + 2 * Z.of_nat k, h') /\
    rx_ok dev data (a + 2 * Z.of_nat k) (n - Z.of_nat k) h' /\ hw_overrun h' = false /\
    wrote data false m m' ptr (ptr + 2 * Z.of_nat k) a.
Proof using pace Bus0.
  clear prompt. revert m ptr h a n. induction k as [| k IH]; intros m ptr h a n Hrx Ho Hn He Hl Hal Hacc.
  { exists m, h. cbn [rx_loop]. change (Z.of_nat 0) with 0. rewrite (proj2 (Z.eqb_neq 0 n)), Z.mul_0_r, !Z.add_0_r, Z.sub_0_r by lia.
    split_and!; try done. apply wrote_refl. }
  cbn [rx_loop]. pose proof (bus_later dev bus bus_wait h) as [_ _ _ _ _ _ _ L8 _].
  apply (bus_rx_ok _ _ bus bus_wait) in Hrx. pose proof (pace h) as Ho1. rewrite Ho in Ho1.
  destruct (read_rx_ok _ _ _ _ _ Hrx) as (x & h1 & -> & Hrx1 & Hl1 & Ho2 & _ & Hx & _); [lia |]. cbn [mbind res_bind].
  destruct (store_item data fl_byte false m ptr x a) as (m1 & -> & Hw); [| done | auto |].
  { intros y Hy. apply Hacc. lia. }
  cbn [mbind res_bind]. assert (Z.of_nat (S k) <= n). { destruct Hrx as [_ _ R3 R4 _]. lia. }
  destruct (Z.leb_spec e (ptr + 2)).
  - assert (n = 1) as -> by lia. assert (k = 0%nat) as -> by lia. exists m1, h1. split_and!; try done; congruence.
  - destruct (IH m1 (ptr + 2) h1 (a + 2) (n - 1)) as (m2 & h2 & -> & Hrx2 & Ho3 & Hw2); [exact Hrx1 | by rewrite Ho2 | lia | lia | lia | dlia | |].
    { eapply accessible_same_dom; [apply Hw |]. eapply accessible_sub; [exact Hacc | lia | lia]. }
    exists m2, h2. replace (ptr + 2 + 2 * Z.of_nat k) with (ptr + 2 * Z.of_nat (S k)) in * by lia.
    replace (a + 2 + 2 * Z.of_nat k) with (a + 2 * Z.of_nat (S k)) in Hrx2 by lia.
    replace (n - 1 - Z.of_nat k) with (n - Z.of_nat (S k)) in Hrx2 by lia. split_and!; try done.
    + do 4 f_equal. destruct (Z.eqb_spec (Z.of_nat k) (n - 1)), (Z.eqb_spec (Z.of_nat (S k)) n); lia || done.
    + eapply wrote_trans; [| | exact Hw | exact Hw2]; lia.
Qed.

Lemma recv_loop_ok fuel m ptr e h a n : rx_ok dev data a n h -> hw_overrun h = false -> 0 < n -> e = ptr + 2 * n ->
  (Z.to_nat n < fuel)%nat -> ptr mod 2 = 0 -> accessible m ptr (2 * n) ->
  exists m' h', recv_loop bus bus_wait fuel m ptr e h = Ok (m', h') /\ rx_ok dev data (a + 2 * n) 0 h' /\ hw_overrun h' = false /\
    wrote data false m m' ptr e a.
Proof using pace prompt Bus0.
  revert m ptr h a n. induction fuel as [| fuel IH]; intros m ptr h a n Hrx Ho Hn He Hf Hal Hacc; [lia |]. cbn [recv_loop].
  apply (bus_rx_ok _ _ bus bus_wait) in Hrx. pose proof (pace h) as Ho1. rewrite Ho in Ho1. set (h0 := bus h) in *. clearbody h0.
  assert (rx_level h0 = 0 -> spi_waiting h0 h0) as Hwt.
  { intros Hl. split; [by eapply empty_receives |]. exists 0%nat. split; [done | lia]. }
  destruct (level_loop_ok a n h0 (bus_wait h0) h0) as (h1 & -> & Hrx1 & Ho2 & Hl1); [done | done | done | done | by eapply bus_positive | |].
  { intros Hl. pose proof (la_level _ _ (bus_later dev bus bus_wait h0)). assert (0 <= rx_level h0) by (unfold rx_level; lia).
    apply bus_progress; right. eapply empty_receives; try done. lia. }
  cbn [mbind res_bind].
  destruct (rx_loop_ok (Z.to_nat (rx_level h1)) m ptr e h1 a n) as (m2 & h2 & -> & Hrx2 & Ho3 & Hw); try done; [lia |].
  cbn [mbind res_bind]. rewrite Z2Nat.id in * by lia. destruct (Z.eqb_spec (rx_level h1) n) as [Heq | Hne].
  - exists m2, h2. rewrite Heq in *. rewrite <- He in Hw. rewrite Z.sub_diag in Hrx2. done.
  - assert (rx_level h1 < n) by (destruct Hrx1 as [_ _ R3 R4 _]; lia).
    destruct (IH m2 (ptr + 2 * rx_level h1) h2 (a + 2 * rx_level h1) (n - rx_level h1)) as (m3 & h3 & -> & Hrx3 & Ho4 & Hw3); try done; try lia; [dlia | |].
    { eapply accessible_same_dom; [apply Hw |]. eapply accessible_sub; [exact Hacc | lia | lia]. }
    exists m3, h3. replace (a + 2 * rx_level h1 + 2 * (n - rx_level h1)) with (a + 2 * n) in Hrx3 by lia. split_and!; try done.
    eapply wrote_trans; [| | exact Hw | exact Hw3]; lia.
Qed.

(** [reading_at h a]: the controller is off and the device goes on with the address [a]. *)
Definition reading_at h (a : Z) : Prop := fl_reading (hw_dev h) a /\ hw_overrun h = false.

Lemma recv_fast_ok h m buf size a : reading_at h a -> 0 < size <= RKSPI_MAX_RECV -> size mod 2 = 0 -> buf mod 2 = 0 -> accessible m buf size ->
  exists m' h', rkspi_recv_fast bus bus_wait h m buf size = Ok (m', h') /\ reading_at h' (a + size) /\ hw_enable h' = false /\
    wrote data false m m' buf (buf + size) a.
Proof using pace prompt Bus0.
  intros [Hd Ho] Hs He Hal Hacc. change RKSPI_MAX_RECV with 65534 in Hs. unfold rkspi_recv_fast. rewrite Hal, He.
  rewrite (proj2 (Z.leb_le size 65535)) by lia. change (c_assert _) with (Ok tt). cbn [mbind res_bind].
  set (h1 := set_enable true _). assert (rx_ok dev data a (size / 2) h1) as Hrx.
  { assert (hw_left h1 = size) as Hl.
    { unfold h1. cbn -[u16 u32 hw_mode RKSPI_XFM_RX Z.eqb]. change (hw_mode _ =? RKSPI_XFM_RX) with true. cbn match. rewrite (u32_small (size - 1)), u16_small by lia. lia. }
    split; [done | done | lia | | ]; change (rx_level h1) with 0; rewrite ?Hl; [dlia |]. intros _. split_and!; [dlia | done |].
    by rewrite Z.mul_0_r, Z.add_0_r. }
  destruct (recv_loop_ok (S (Z.to_nat size)) m buf (buf + size) h1 a (size / 2) Hrx) as (m2 & h2 & -> & Hrx2 & Ho2 & Hw); [done | dlia | dlia | dlia | done | |].
  { eapply accessible_sub; [exact Hacc | lia | dlia]. }
  cbn [mbind res_bind]. exists m2. eexists. split; [done |]. split_and!; try done. split; [| done]. cbn. destruct Hrx2 as [_ _ R3 R4 R5].
  destruct (R5 Ho2) as (_ & _ & R6). assert (0 <= rx_level h2) by (unfold rx_level; lia).
  replace (a + size) with (a + 2 * (size / 2) + 2 * rx_level h2) by dlia. done.
Qed.

Lemma poll_loop_ok fuel m pos e h a : reading_at h a -> pos <= e -> e - pos < 2 ^ 32 -> (e - pos) mod 2 = 0 -> pos mod 2 = 0 ->
  accessible m pos (e - pos) -> (Z.to_nat (e - pos) < fuel)%nat ->
  exists m' h', poll_loop bus bus_wait fuel m pos e h = Ok (m', h') /\ reading_at h' (a + (e - pos)) /\ wrote data false m m' pos e a.
Proof using pace prompt Bus0.
  revert m pos h a. induction fuel as [| fuel IH]; intros m pos h a Hr Hp Hlt He Hal Hacc Hf; [lia |]. cbn [poll_loop].
  destruct (Z.ltb_spec pos e).
  2: { assert (e = pos) as -> by lia. exists m, h. rewrite Z.sub_diag, Z.add_0_r. split_and!; try done. apply wrote_refl. }
  rewrite u32_small by lia. set (size := if _ <? _ then _ else _).
  assert (0 < size <= RKSPI_MAX_RECV /\ size <= e - pos /\ size mod 2 = 0) as (S1 & S2 & S3).
  { subst size. change RKSPI_MAX_RECV with 65534. destruct (Z.ltb_spec 65534 (e - pos)); split_and!; done || lia. }
  clearbody size. assert_ok. destruct (recv_fast_ok h m pos size a Hr S1 S3 Hal) as (m1 & h1 & -> & Hr1 & _ & Hw).
  { eapply accessible_sub; [exact Hacc | lia | lia]. }
  cbn [mbind res_bind]. destruct (IH m1 (pos + size) h1 (a + size)) as (m2 & h2 & -> & Hr2 & Hw2); try done; try lia; try dlia.
  { eapply accessible_same_dom; [apply Hw |]. eapply accessible_sub; [exact Hacc | lia | lia]. }
  exists m2, h2. replace (a + size + (e - (pos + size))) with (a + (e - pos)) in Hr2 by lia. split_and!; try done.
  eapply wrote_trans; [| | exact Hw | exact Hw2]; lia.
Qed.
End Polling.

(** ** Results

    A place for the data and an idle flash memory. *)
Record request_ok {F} (dev : spi_device F) (data : Z -> Z) `{!Flash dev data} (h : spi_hw F) (m : mem) (addr buf size : Z) : Prop := {
  rq_idle : fl_idle (hw_dev h);
  rq_addr : 0 <= addr < 2 ^ 24;
  rq_buf : 0 < buf /\ 0 < size < 2 ^ 32 /\ buf + size < 2 ^ 63;
  rq_align : buf mod 2 = 0 /\ size mod 2 = 0;
  rq_mem : accessible m buf size;
}.

(** The states of a transfer: it is started, then the controller and the
    interrupt handler run any number of times. *)
Inductive in_transfer {F} (dev : spi_device F) (bus : spi_hw F -> spi_hw F) (bus_wait : spi_hw F -> nat) (s0 : spi F) (addr buf e : Z) : spi F -> Prop :=
| transfer_start s : start_irq_flash_read dev bus bus_wait s0 addr buf e = Ok s -> in_transfer dev bus bus_wait s0 addr buf e s
| transfer_tick s s' : in_transfer dev bus bus_wait s0 addr buf e s -> tick bus s = Ok s' -> in_transfer dev bus bus_wait s0 addr buf e s'.

Section Results.
Context {F : Type} (dev : spi_device F) (data : Z -> Z) `{!Flash dev data}.
Context (bus : spi_hw F -> spi_hw F) (bus_wait : spi_hw F -> nat) `{!Bus dev bus bus_wait}.

Lemma in_transfer_ok s0 addr buf size s : request_ok dev data (sp_hw s0) (sp_mem s0) addr buf size ->
  in_transfer dev bus bus_wait s0 addr buf (buf + size) s ->
  spi_ok dev data buf addr s /\ xs_end (sp_state s) = buf + size /\ frame (sp_mem s0) (sp_mem s) buf (xs_buf (sp_state s)).
Proof.
  intros [Q1 Q2 Q3 [Q4 Q5] Q6]. induction 1 as [s Hs | s s' _ (Hok & He & Hf) Ht].
  - destruct (start_irq_flash_read_ok dev data bus bus_wait s0 addr buf (buf + size)) as (s1 & Hs1 & Hok & Hm & Hb & He & _);
      [done | done | lia | lia | done | dlia | by replace (buf + size - buf) with size by lia |].
    rewrite Hs1 in Hs. injection Hs as <-. split_and!; try done. rewrite Hm. apply frame_refl.
  - destruct (tick_ok dev data bus bus_wait _ _ _ Hok) as (s1 & Ht1 & Hok1 & [A1 A2 A3 A4] & _). rewrite Ht1 in Ht. injection Ht as <-.
    split_and!; try done; [congruence |]. pose proof (so_ptr _ _ _ _ _ Hok) as [P1 P2].
    eapply frame_trans; eapply frame_weaken; try done; lia.
Qed.

(** Pumping is nothing but a number of interrupts. *)
Lemma sleep_loop_ticks s0 addr buf e fuel ptr s s' : sleep_loop bus fuel ptr s = Ok s' ->
  in_transfer dev bus bus_wait s0 addr buf e s -> in_transfer dev bus bus_wait s0 addr buf e s'.
Proof.
  clear Bus0. revert s. induction fuel as [| fuel IH]; intros s; cbn [sleep_loop]; [done |].
  destruct (tick bus s) as [s1 |] eqn:Ht; cbn [mbind res_bind]; [| done]. intros Hs Hin. assert (in_transfer dev bus bus_wait s0 addr buf e s1) by by eapply transfer_tick.
  destruct (_ =? _) in Hs; [by eapply IH | by injection Hs as <-].
Qed.

Lemma pump_loop_ticks s0 addr buf e fuel from min_size s s' : spi1_pump_loop bus bus_wait fuel from min_size s = Ok s' ->
  in_transfer dev bus bus_wait s0 addr buf e s -> in_transfer dev bus bus_wait s0 addr buf e s'.
Proof.
  clear Bus0. revert s. induction fuel as [| fuel IH]; intros s; cbn [spi1_pump_loop]; [done |].
  destruct (_ || _); [by intros [= <-] |]. destruct (sleep_loop _ _ _ s) as [s1 |] eqn:Hs; cbn [mbind res_bind]; [| done].
  intros Hp Hin. eapply IH; [exact Hp |]. by eapply sleep_loop_ticks.
Qed.

Lemma busy_loop_pace fuel h h' : keeps_pace bus -> busy_loop bus fuel h = Ok h' -> hw_overrun h' = hw_overrun h.
Proof.
  clear Bus0. intros pace. revert h. induction fuel as [| fuel IH]; intros h; cbn [busy_loop]; [done |].
  destruct (busy (bus h)); [intros ->%IH | intros [= <-]]; apply pace.
Qed.

Lemma fast_read_cmd_pace h addr h' : keeps_pace bus -> rkspi_tx_fast_read_cmd bus bus_wait h addr = Ok h' -> hw_overrun h' = hw_overrun h.
Proof.
  clear Bus0. intros pace. unfold rkspi_tx_fast_read_cmd, rkspi_tx_cmd4_dummy1. destruct (c_assert _); cbn [mbind res_bind]; [| done].
  destruct (busy_loop _ _ _) as [h1 |] eqn:Hb; cbn [mbind res_bind]; [| done]. intros [= <-]. by apply busy_loop_pace in Hb.
Qed.

Lemma start_pace s0 addr buf e s : keeps_pace bus -> start_irq_flash_read dev bus bus_wait s0 addr buf e = Ok s ->
  hw_overrun (sp_hw s) = hw_overrun (sp_hw s0).
Proof.
  clear Bus0. intros pace. unfold start_irq_flash_read. destruct (c_assert _); cbn [mbind res_bind]; [| done].
  destruct (rkspi_tx_fast_read_cmd _ _ _ _) as [h1 |] eqn:Hc; cbn [mbind res_bind]; [| done]. apply fast_read_cmd_pace in Hc; [| done].
  unfold rkspi_start_rx_xfer. destruct (c_assert _); cbn [mbind res_bind]; [| done].
  destruct (_ <? irq_threshold); cbn [mbind res_bind]; by intros [= <-].
Qed.

Lemma in_transfer_pace s0 addr buf e s : keeps_pace bus -> hw_overrun (sp_hw s0) = false ->
  in_transfer dev bus bus_wait s0 addr buf e s -> hw_overrun (sp_hw s) = false.
Proof.
  clear Bus0. intros pace Ho. induction 1 as [s Hs | s s' _ IH Ht]; [apply start_pace in Hs; [congruence | done] |].
  apply tick_pace in Ht; [congruence | done].
Qed.

(** C19: The interrupt handler of the SPI controller is safe.  A transfer from
    flash memory to a buffer can be started, and in every state that follows,
    whatever the controller does in between and even if items get lost, the
    handler runs without a failed assertion, an unexpected interrupt or a read
    of an empty FIFO; it has changed nothing but the buffer up to its pointer,
    and unless items were lost what is there are the contents of the flash
    memory. *)
Theorem spi_handler_safe s0 addr buf size : request_ok dev data (sp_hw s0) (sp_mem s0) addr buf size ->
  (exists s, start_irq_flash_read dev bus bus_wait s0 addr buf (buf + size) = Ok s) /\
  forall s, in_transfer dev bus bus_wait s0 addr buf (buf + size) s ->
    (exists s', tick bus s = Ok s') /\ buf <= xs_buf (sp_state s) <= buf + size /\
    frame (sp_mem s0) (sp_mem s) buf (xs_buf (sp_state s)) /\
    (hw_overrun (sp_hw s) = false -> filled data (sp_mem s) buf (xs_buf (sp_state s)) addr).
Proof.
  intros Hrq. split.
  - destruct Hrq as [Q1 Q2 Q3 [Q4 Q5] Q6].
    destruct (start_irq_flash_read_ok dev data bus bus_wait s0 addr buf (buf + size)) as (s1 & Hs1 & _);
      [done | done | lia | lia | done | dlia | by replace (buf + size - buf) with size by lia | by exists s1].
  - intros s Hin. destruct (in_transfer_ok _ _ _ _ _ Hrq Hin) as (Hok & He & Hf). pose proof (so_ptr _ _ _ _ _ Hok) as [P1 P2].
    destruct (tick_ok dev data bus bus_wait _ _ _ Hok) as (s1 & Ht1 & _). split_and!; [by exists s1 | lia | lia | done | apply Hok].
Qed.

(** C20: Reading from SPI flash with interrupts delivers its contents.  When the
    controller goes on and the processor keeps pace, a pump of the transfer
    returns in every state: it has moved the start of the data by what was
    consumed, the data is as long as was asked for or ends where the request
    ends, it is the contents of the flash memory, and the transfer goes on from
    there. *)
Theorem spi_pump_correct s0 addr buf size s from e consume min_size : keeps_pace bus ->
  request_ok dev data (sp_hw s0) (sp_mem s0) addr buf size -> hw_overrun (sp_hw s0) = false ->
  in_transfer dev bus bus_wait s0 addr buf (buf + size) s -> buf <= from -> 0 <= consume <= e - from -> e <= xs_buf (sp_state s) ->
  exists s' b, spi1_pump bus bus_wait ({| b_start := from; b_end := e |}, s) consume min_size = Ok ((b, s'), b) /\
    in_transfer dev bus bus_wait s0 addr buf (buf + size) s' /\
    b_start b = from + consume /\ e <= b_end b <= buf + size /\ b_end b = xs_buf (sp_state s') /\
    (min_size <= b_end b - b_start b \/ b_end b = buf + size) /\
    filled data (sp_mem s') buf (b_end b) addr /\ frame (sp_mem s0) (sp_mem s') buf (b_end b).
Proof.
  intros pace Hrq Ho Hin Hfrom Hc He. destruct (in_transfer_ok _ _ _ _ _ Hrq Hin) as (Hok & Hend & _).
  pose proof (in_transfer_pace _ _ _ _ _ pace Ho Hin) as Hos. unfold spi1_pump. cbn [b_start].
  destruct (spi1_pump_loop_ok dev data bus bus_wait pace buf addr (S (Z.to_nat (xs_end (sp_state s) - xs_buf (sp_state s)))) (from + consume) min_size s)
    as (s' & Hp & Hok' & Hadv & Ho' & Hmin); [done | done | lia | lia |].
  rewrite Hp. cbn [mbind res_bind]. eapply pump_loop_ticks in Hp; [| exact Hin]. destruct (in_transfer_ok _ _ _ _ _ Hrq Hp) as (_ & Hend' & Hf).
  eexists s', _. split; [done |]. cbn [b_start b_end]. pose proof (so_ptr _ _ _ _ _ Hok') as [P1 P2]. pose proof (ad_buf _ _ Hadv).
  rewrite Hend' in *. split_and!; try done; try lia. by apply Hok'.
Qed.

(** Reading from SPI flash by polling delivers its contents: when the
    device answers in time and the processor keeps pace,
    [rkspi_read_flash_poll] returns, the buffer holds the contents of the flash
    memory, nothing else has changed, and the device is idle again. *)
Theorem spi_poll_correct h m addr buf size : keeps_pace bus -> answers_in_time bus ->
  request_ok dev data h m addr buf size -> hw_overrun h = false ->
  exists m' h', rkspi_read_flash_poll dev bus bus_wait h m buf size addr = Ok (m', h') /\
    filled data m' buf (buf + size) addr /\ frame m m' buf (buf + size) /\ fl_idle (hw_dev h') /\ hw_select h' = false.
Proof.
  intros pace prompt [Q1 Q2 Q3 [Q4 Q5] Q6] Ho. unfold rkspi_read_flash_poll. set (h0 := set_select dev true h).
  destruct (fast_read_cmd_ok dev data bus bus_wait h0 addr) as (h1 & Hc & _ & Hd); [done | done |]. rewrite Hc. apply fast_read_cmd_pace in Hc; [| done].
  cbn [mbind res_bind].
  destruct (poll_loop_ok dev data bus bus_wait pace prompt (S (Z.to_nat size)) m buf (buf + size) h1 addr) as (m2 & h2 & -> & [Hr2 Ho2] & [W1 W2 W3]);
    try done; try lia.
  - split; [done |]. by rewrite Hc.
  - by replace (buf + size - buf) with size by lia.
  - by replace (buf + size - buf) with size by lia.
  - cbn [mbind res_bind]. eexists m2, _. split; [done |]. split_and!; [by apply W3 | done | | done]. cbn. by eapply fl_deselect.
Qed.
End Results.

(** The pump as the decompression driver calls it. *)
Definition spi_pump {F} (bus : spi_hw F -> spi_hw F) (bus_wait : spi_hw F -> nat) : pump_func (async_buf * spi F) := fun a consume min_size =>
  match spi1_pump bus bus_wait a consume min_size with
  | Ok r => r
  | Trap _ => (a, {| b_start := 1; b_end := 0 |})
  end.

#[export, program] Instance spi_transfer {F} (dev : spi_device F) (data : Z -> Z) `{!Flash dev data} bus bus_wait `{!Bus dev bus bus_wait}
    (pace : keeps_pace bus) : Transfer (spi_pump bus bus_wait) := {|
  transfer_view a s e L := fst a = {| b_start := s; b_end := e |} /\ L = xs_end (sp_state (snd a)) /\ hw_overrun (sp_hw (snd a)) = false /\
    e <= xs_buf (sp_state (snd a)) /\ exists start addr, start <= s /\ spi_ok dev data start addr (snd a) |}.
Next Obligation.
  intros F dev data HF bus bus_wait HB pace [b0 s0] s e L consume min_size (Hb & -> & Ho & He & start & addr & Hs & Hok) Hc a' b Hp. cbn in *. subst b0.
  unfold spi_pump, spi1_pump in Hp. cbn [b_start] in Hp.
  destruct (spi1_pump_loop_ok dev data bus bus_wait pace start addr (S (Z.to_nat (xs_end (sp_state s0) - xs_buf (sp_state s0)))) (s + consume) min_size s0)
    as (s1 & Hl & Hok1 & Hadv & Ho1 & Hmin); [done | done | lia | lia |].
  rewrite Hl in Hp. cbn [mbind res_bind] in Hp. injection Hp as <- <-. right. cbn. pose proof (so_ptr _ _ _ _ _ Hok1) as [P1 P2].
  pose proof (ad_buf _ _ Hadv). pose proof (ad_end _ _ Hadv). split_and!; try done; try lia. exists start, addr. split; [lia | done].
Qed.

(** *** A flash memory and a controller, for examples

    The flash memory remembers the bytes since it was selected; the controller
    moves one byte or item whenever it can. *)
Definition demo_data (a : Z) : Z := (a * 7 + a / 256) mod 256.
Definition demo_addr (l : list Z) : Z :=
  match l with _ :: a2 :: a1 :: a0 :: _ => a2 * 65536 + a1 * 256 + a0 | _ => 0 end.
Definition demo_flash : spi_device (list Z) := {|
  xfer := fun l b => (l ++ [b], if 5 <=? zlen l then demo_data (demo_addr l + (zlen l - 5)) else 255);
  deselect := fun _ => [];
|}.

#[export, program] Instance demo_flash_ok : Flash demo_flash demo_data := {|
  fl_idle l := l = [];
  fl_reading l a := 5 <= zlen l /\ a = demo_addr l + (zlen l - 5) |}.
Next Obligation. intros a. apply Z.mod_pos_bound. lia. Qed.
Next Obligation.
  intros f addr d -> Ha. cbn. split; [lia |]. dlia.
Qed.
Next Obligation.
  intros l a b [Hl ->]. eexists. split; [cbn [xfer demo_flash]; rewrite (proj2 (Z.leb_le _ _)) by done; done |].
  rewrite length_app. cbn [length]. split; [lia |].
  assert (demo_addr (l ++ [b]) = demo_addr l) as ->; [| lia].
  destruct l as [| ? [| ? [| ? [| ? l]]]]; cbn in Hl; try lia. done.
Qed.
Next Obligation. done. Qed.

Definition demo_bus (h : spi_hw (list Z)) : spi_hw (list Z) :=
  if sending h then send demo_flash h
  else if receiving h && (rx_level h <? fifo_depth) then receive demo_flash h
  else pass_time (hw_time h + 1) h.
Definition flash_wait (h : spi_hw (list Z)) : nat := S (length (hw_txq h) + Z.to_nat (hw_left h)).

Lemma sending_receiving (h : spi_hw (list Z)) : receiving h = true -> sending h = false.
Proof.
  unfold receiving, sending. intros [[_ H%Z.eqb_eq]%andb_true_iff _]%andb_true_iff. rewrite H. cbn. apply andb_false_r.
Qed.

Lemma push_room x (h : spi_hw (list Z)) : rx_level h < fifo_depth -> hw_overrun (push_rx x h) = hw_overrun h /\ rx_level (push_rx x h) = rx_level h + 1.
Proof.
  intros Hl. unfold push_rx. rewrite (proj2 (Z.ltb_lt _ _)) by done. unfold rx_level. cbn. rewrite length_app, orb_false_r. cbn. split; [done | lia].
Qed.

Lemma demo_receive h : receiving h = true -> rx_level h < fifo_depth -> demo_bus h = receive demo_flash h.
Proof.
  intros Hr Hl. unfold demo_bus. rewrite (sending_receiving _ Hr), Hr, (proj2 (Z.ltb_lt _ _)) by done. done.
Qed.

Lemma demo_bus_pace : keeps_pace demo_bus.
Proof.
  intros h. unfold demo_bus. destruct (sending h) eqn:Hs; [| destruct (receiving h && _) eqn:Hr; [| done]].
  - unfold sending in Hs. apply andb_true_iff in Hs as [_ Hs]. unfold send. destruct (hw_txq h); [done |]. cbn [xfer demo_flash].
    change (hw_mode (move_on _ _ _ _)) with (hw_mode h). destruct (Z.eqb_spec (hw_mode h) RKSPI_XFM_TR) as [He | He]; [| done].
    rewrite He in Hs. apply (push_room _ (move_on _ _ _ h)). by apply Z.ltb_lt.
  - apply andb_true_iff in Hr as [_ Hr%Z.ltb_lt]. unfold receive. cbn [xfer demo_flash]. by apply (push_room _ (move_on _ _ _ h)).
Qed.

Lemma demo_bus_ok : Bus demo_flash demo_bus flash_wait.
Proof.
  split.
  - intros h. apply rtc_once. unfold demo_bus. destruct (sending h) eqn:Hs; [| destruct (receiving h && _) eqn:Hr].
    + unfold sending in Hs. apply andb_true_iff in Hs as [[H1 H2]%andb_true_iff H3]. constructor; [done | done |].
      intros Hm. by rewrite Hm in H3.
    + apply andb_true_iff in Hr as [Hr _]. by constructor.
    + constructor. lia.
  - intros h. unfold flash_wait. lia.
  - intros h [Hs | [Hr Hl]].
    + unfold demo_bus. rewrite Hs. unfold sending in Hs. apply andb_true_iff in Hs as [[_ Hb]%andb_true_iff _]. unfold busy in Hb.
      unfold send, flash_wait. destruct (hw_txq h) as [| b q]; [done |]. cbn [xfer demo_flash]. destruct (_ =? _); cbn; lia.
    + rewrite demo_receive by done. unfold receiving in Hr. apply andb_true_iff in Hr as [_ Hr%Z.leb_le]. unfold flash_wait, receive. cbn. lia.
Qed.
#[export] Existing Instance demo_bus_ok.

Lemma demo_in_time : answers_in_time demo_bus.
Proof.
  intros k h Hr Hj. destruct k as [| k]; [cbn; change (USECS 1000) with 24000; lia |].
  pose proof (Hj 0%nat ltac:(lia)) as H0. cbn in H0. assert (demo_bus h = receive demo_flash h) as E by (apply demo_receive; [done | by rewrite H0]).
  destruct k as [| k]; [cbn; rewrite E; cbn; change (USECS 1000) with 24000; lia |].
  pose proof (Hj 1%nat ltac:(lia)) as H1. change (Nat.iter 1 demo_bus h) with (demo_bus h) in H1. rewrite E in H1. unfold receive in H1. cbn [xfer demo_flash] in H1.
  rewrite (proj2 (push_room _ (move_on _ _ _ h) ltac:(unfold fifo_depth; change (rx_level h < 32); lia))) in H1.
  change (rx_level (move_on _ _ _ h)) with (rx_level h) in H1. lia.
Qed.

Definition flash_hw : spi_hw (list Z) := mkHw 0 0 false false 0 0 [] [] 0 false 0 [].
Definition demo_spi : spi (list Z) := mkSpi flash_hw (mem_of 4096 (replicate 200 0)) {| this_xfer_items := 0; xs_buf := 0; xs_end := 0 |}.

Lemma flash_request : request_ok demo_flash demo_data (sp_hw demo_spi) (sp_mem demo_spi) 0x40000 4096 150.
Proof. split; [done | lia | lia | done |]. apply mem_of_accessible; cbn; lia. Qed.

Definition demo_start : spi (list Z) :=
  match start_irq_flash_read demo_flash demo_bus flash_wait demo_spi 0x40000 4096 4246 with Ok s => s | Trap _ => demo_spi end.

Lemma demo_started : in_transfer demo_flash demo_bus flash_wait demo_spi 0x40000 4096 4246 demo_start.
Proof. apply transfer_start. vm_compute. reflexivity. Qed.

Lemma spi_handler_safe_witness : request_ok demo_flash demo_data (sp_hw demo_spi) (sp_mem demo_spi) 0x40000 4096 150 /\
  exists s', tick demo_bus demo_start = Ok s'.
Proof.
  split; [exact flash_request |].
  exact (proj1 (proj2 (spi_handler_safe demo_flash demo_data demo_bus flash_wait demo_spi 0x40000 4096 150 flash_request) demo_start
    demo_started)).
Defined.

Lemma spi_pump_correct_witness : exists s' b,
  spi1_pump demo_bus flash_wait ({| b_start := 4096; b_end := 4096 |}, demo_start) 0 100 = Ok ((b, s'), b) /\
  b_end b = 4240 /\ filled demo_data (sp_mem s') 4096 4240 0x40000.
Proof.
  destruct (spi_pump_correct demo_flash demo_data demo_bus flash_wait demo_spi 0x40000 4096 150 demo_start 4096 4096 0 100 demo_bus_pace flash_request
    eq_refl demo_started ltac:(lia) ltac:(lia) ltac:(vm_compute; discriminate))
    as (s' & b & Hp & _ & _ & _ & _ & _ & Hf & _).
  exists s', b. assert (b_end b = 4240) as Hb.
  { assert (match spi1_pump demo_bus flash_wait ({| b_start := 4096; b_end := 4096 |}, demo_start) 0 100 with Ok (_, b) => b_end b | Trap _ => 0 end = 4240) as E
      by (vm_compute; reflexivity). rewrite Hp in E. exact E. }
  rewrite Hb in Hf. split; [exact Hp | split; [exact Hb | exact Hf]].
Defined.

Lemma spi_poll_correct_witness : exists m' h',
  rkspi_read_flash_poll demo_flash demo_bus flash_wait flash_hw (sp_mem demo_spi) 4096 150 0x40000 = Ok (m', h') /\
  filled demo_data m' 4096 4246 0x40000.
Proof.
  destruct (spi_poll_correct demo_flash demo_data demo_bus flash_wait flash_hw (sp_mem demo_spi) 0x40000 4096 150 demo_bus_pace demo_in_time flash_request eq_refl)
    as (m' & h' & Hp & Hf & _). exists m', h'. split; [exact Hp | exact Hf].
Defined.
