(* ===== verification/BootOrder.v ===== *)
(** * The order in which boot media are tried

    [main.c] of the DRAM stage: one thread per boot medium prepares its device,
    announces that it is ready and waits for its cue; a monitor thread gives
    the cue to one medium after the other, until one of them has loaded a
    payload that the user does not override.  The threads share a word of bits
    ([boot_state]), the number of the medium that was cued ([current_boot_cue])
    and two lists of sleeping threads.  A configuration holds these and the
    position of each thread; a step is one access to what is shared, so that
    runs are interleavings of such accesses.

    The wait for the detection of the board at the end of the monitor is left
    out. *)
From S2P Require Import Prelude.
From stdpp Require Import functions well_founded relations.
Open Scope Z_scope.

(** [enum boot_medium] and the cues behind it. *)
Definition NUM_BOOT_MEDIUM : nat := 4.
Definition BOOT_CUE_NONE : Z := 4.
Definition BOOT_CUE_EXIT : Z := 5.

(** The bits of a medium in [boot_state]. *)
Definition exit_bit (i : nat) : Z := Z.shiftl 1 (4 * Z.of_nat i).
Definition ready_bit (i : nat) : Z := Z.shiftl 2 (4 * Z.of_nat i).
Definition loaded_bit (i : nat) : Z := Z.shiftl 4 (4 * Z.of_nat i).

Definition all_exit_mask : Z := Z.lor (exit_bit 0) (Z.lor (exit_bit 1) (Z.lor (exit_bit 2) (exit_bit 3))).
(** The media that the configuration of the build includes. *)
Definition available_boot_media (present : nat -> bool) : Z :=
  let bit i := if present i then exit_bit i else 0 in
  Z.lor (bit 0%nat) (Z.lor (bit 1%nat) (Z.lor (bit 2%nat) (bit 3%nat))).

(** ** Threads of boot media

    Where a thread is: preparing its device, in [wait_for_boot_cue], loading,
    in [boot_medium_loaded], shutting down, in [boot_medium_exit], dead. [seen]
    is the cue that was read before going to sleep. *)
Inductive medium_pc : Type :=
| Probing
| Signalled
| CheckCue
| Enqueue (seen : Z)
| Recheck (seen : Z)
| Asleep
| Loading
| LoadedSet
| Closing
| ExitSet
| Exited.

(** [t_listed]: the thread is on [boot_cue_waiters].  [t_tries]: how many more
    places the medium has to look for a payload, such as namespaces of a drive. *)
Record thread : Type := mkThread {
  t_pc : medium_pc;
  t_listed : bool;
  t_tries : nat;
}.

(** ** The monitor *)
Inductive wait_for : Type := ForReady | ForLoaded.

(** [state] is the local variable of that name; the positions with [w] are
    inside of [monitor_boot_state].  [MEmbedded]: without boot media, the payload
    that comes with the program has been decompressed. *)
Inductive monitor_pc : Type :=
| MStart
| MNext (k : nat) (state : Z)
| MTest (w : wait_for) (k : nat) (state : Z)
| MEnqueue (w : wait_for) (k : nat)
| MRecheck (w : wait_for) (k : nat)
| MAsleep (w : wait_for) (k : nat)
| MLoad (w : wait_for) (k : nat)
| MCue (k : nat) (state : Z)
| MCueWake (k : nat) (state : Z)
| MDecide (k : nat) (state : Z)
| MAccept (k : nat)
| MAcceptWake (k : nat)
| MDone (k : nat)
| MEmbedded
| MDie.

(** [c_payload] says whose payload is in memory, [c_overridden] which payloads
    the user rejected; the code does not have these. *)
Record boot_config : Type := mkConfig {
  c_state : Z;
  c_cue : Z;
  c_mon : monitor_pc;
  c_mon_listed : bool;
  c_threads : nat -> thread;
  c_payload : option nat;
  c_overridden : nat -> bool;
}.

Definition set_thread (i : nat) (t : thread) (c : boot_config) : boot_config :=
  mkConfig (c_state c) (c_cue c) (c_mon c) (c_mon_listed c) (<[i := t]> (c_threads c)) (c_payload c) (c_overridden c).
Definition set_pc (i : nat) (p : medium_pc) (c : boot_config) : boot_config :=
  set_thread i (mkThread p (t_listed (c_threads c i)) (t_tries (c_threads c i))) c.
Definition set_mon (p : monitor_pc) (c : boot_config) : boot_config :=
  mkConfig (c_state c) (c_cue c) p (c_mon_listed c) (c_threads c) (c_payload c) (c_overridden c).
Definition set_cue (v : Z) (c : boot_config) : boot_config :=
  mkConfig (c_state c) v (c_mon c) (c_mon_listed c) (c_threads c) (c_payload c) (c_overridden c).
Definition set_payload (p : option nat) (c : boot_config) : boot_config :=
  mkConfig (c_state c) (c_cue c) (c_mon c) (c_mon_listed c) (c_threads c) p (c_overridden c).
(** [atomic_fetch_or_explicit(&boot_state, ...)] *)
Definition fetch_or (bits : Z) (c : boot_config) : boot_config :=
  mkConfig (Z.lor (c_state c) bits) (c_cue c) (c_mon c) (c_mon_listed c) (c_threads c) (c_payload c) (c_overridden c).

(** [sched_queue_list(CURRENT_RUNQUEUE, &boot_monitors)] *)
Definition wake_monitor (c : boot_config) : boot_config :=
  if c_mon_listed c then
    mkConfig (c_state c) (c_cue c) (match c_mon c with MAsleep w k => MLoad w k | p => p end) false (c_threads c) (c_payload c) (c_overridden c)
  else c.

(** [sched_queue_list(CURRENT_RUNQUEUE, &boot_cue_waiters)] *)
Definition wake_thread (t : thread) : thread :=
  if t_listed t then mkThread (match t_pc t with Asleep => CheckCue | p => p end) false (t_tries t) else t.
Definition wake_cue_waiters (c : boot_config) : boot_config :=
  mkConfig (c_state c) (c_cue c) (c_mon c) (c_mon_listed c) (fun i => wake_thread (c_threads c i)) (c_payload c) (c_overridden c).

(** What a device does: it can be used, it cannot, or the next place may have
    a payload. *)
Inductive choice : Type := Good | Bad | Again.

(** [boot_medium_exit], [boot_medium_loaded] and [wait_for_boot_cue] begin with
    setting a bit. *)
Definition boot_medium_exit (i : nat) (c : boot_config) : boot_config := set_pc i ExitSet (fetch_or (exit_bit i) c).
Definition boot_medium_loaded (i : nat) (c : boot_config) : boot_config := set_pc i LoadedSet (fetch_or (loaded_bit i) c).
Definition wait_for_boot_cue (i tries : nat) (c : boot_config) : boot_config :=
  set_thread i (mkThread Signalled (t_listed (c_threads c i)) tries) (fetch_or (ready_bit i) c).

(** [sched_finish_u32(continuation, &current_boot_cue, &boot_cue_waiters, ~(u32)0, seen)]
    after the thread was put on the list. *)
Definition cue_finish (i : nat) (seen : Z) (c : boot_config) : boot_config :=
  if negb (Z.land (c_cue c) 0xffffffff =? seen) then set_pc i CheckCue (wake_cue_waiters c)
  else if t_listed (c_threads c i) then set_pc i Asleep c else set_pc i CheckCue c.

Definition medium_step (i : nat) (x : choice) (c : boot_config) : option boot_config :=
  let t := c_threads c i in
  match t_pc t with
  | Probing => match x with Good => Some (wait_for_boot_cue i (t_tries t) c) | _ => Some (set_pc i Closing c) end
  | Signalled => Some (set_pc i CheckCue (wake_monitor c))
  | CheckCue =>
      let curr := c_cue c in
      if curr =? BOOT_CUE_EXIT then Some (set_pc i Closing c)
      else if curr =? Z.of_nat i then Some (set_payload None (set_pc i Loading c))
      else Some (set_pc i (Enqueue curr) c)
  | Enqueue seen => Some (set_thread i (mkThread (Recheck seen) true (t_tries t)) c)
  | Recheck seen => Some (cue_finish i seen c)
  | Asleep => None
  | Loading =>
      match x with
      | Good => Some (set_payload (Some i) (boot_medium_loaded i c))
      | Bad => Some (set_pc i Closing c)
      | Again =>
          match t_tries t with
          | O => None
          | S n => Some (wait_for_boot_cue i n c)
          end
      end
  | LoadedSet => Some (set_pc i Closing (wake_monitor c))
  | Closing => Some (boot_medium_exit i c)
  | ExitSet => Some (set_pc i Exited (wake_monitor c))
  | Exited => None
  end.

Definition wait_mask (w : wait_for) (k : nat) : Z :=
  match w with ForReady => Z.lor (ready_bit k) (exit_bit k) | ForLoaded => Z.lor (loaded_bit k) (exit_bit k) end.

(** What [boot_monitor] does with the state that it waited for. *)
Definition after_wait (w : wait_for) (k : nat) (state : Z) : monitor_pc :=
  match w with
  | ForReady => if flag state (exit_bit k) then MNext (S k) state else MCue k state
  | ForLoaded => if flag state (loaded_bit k) then MDecide k state else MNext (S k) state
  end.

(** The user holds the button down and there are media left. *)
Definition boot_overridden (present : nat -> bool) (pressed : bool) (k : nat) : bool :=
  pressed && negb (Z.shiftr (Z.shiftr (available_boot_media present) 1) (Z.of_nat k) =? 0).

Definition monitor_step (present : nat -> bool) (x : choice) (c : boot_config) : option boot_config :=
  match c_mon c with
  | MStart =>
      if available_boot_media present =? 0 then
        match x with Good => Some (set_mon MEmbedded c) | _ => Some (set_mon MDie c) end
      else Some (set_mon (MNext 0 (c_state c)) c)
  | MNext k state =>
      if (k <? NUM_BOOT_MEDIUM)%nat then
        if flag (Z.lnot (available_boot_media present)) (exit_bit k) then Some (set_mon (MNext (S k) state) c)
        else Some (set_mon (MTest ForReady k state) c)
      else Some (set_mon MDie c)
  | MTest w k state =>
      if Z.land state (wait_mask w k) =? 0 then Some (set_mon (MEnqueue w k) c) else Some (set_mon (after_wait w k state) c)
  | MEnqueue w k => Some (mkConfig (c_state c) (c_cue c) (MRecheck w k) true (c_threads c) (c_payload c) (c_overridden c))
  | MRecheck w k =>
      if negb (Z.land (c_state c) (wait_mask w k) =? 0) then Some (set_mon (MLoad w k) (wake_monitor c))
      else if c_mon_listed c then Some (set_mon (MAsleep w k) c) else Some (set_mon (MLoad w k) c)
  | MAsleep _ _ => None
  | MLoad w k => Some (set_mon (MTest w k (c_state c)) c)
  | MCue k state => Some (set_mon (MCueWake k state) (set_cue (Z.of_nat k) c))
  | MCueWake k state => Some (set_mon (MTest ForLoaded k state) (wake_cue_waiters c))
  | MDecide k state =>
      let pressed := match x with Good => false | _ => true end in
      if boot_overridden present pressed k then
        Some (mkConfig (c_state c) (c_cue c) (MNext (S k) state) (c_mon_listed c) (c_threads c) (c_payload c) (<[k := true]> (c_overridden c)))
      else Some (set_mon (MAccept k) c)
  | MAccept k => Some (set_mon (MAcceptWake k) (set_cue BOOT_CUE_EXIT c))
  | MAcceptWake k => Some (set_mon (MDone k) (wake_cue_waiters c))
  | MDone _ | MEmbedded | MDie => None
  end.

(** A step of the monitor ([None]) or of a medium; [die] stops the machine. *)
Definition boot_step (present : nat -> bool) (who : option nat) (x : choice) (c : boot_config) : option boot_config :=
  match c_mon c with
  | MDie => None
  | _ =>
      match who with
      | None => monitor_step present x c
      | Some i => if (i <? NUM_BOOT_MEDIUM)%nat then medium_step i x c else None
      end
  end.

(** [boot_state] starts with the exit bits of the media that the build leaves
    out; these have no threads. *)
Definition boot_init (present : nat -> bool) (tries : nat -> nat) : boot_config := {|
  c_state := Z.lxor (available_boot_media present) all_exit_mask;
  c_cue := BOOT_CUE_NONE;
  c_mon := MStart;
  c_mon_listed := false;
  c_threads := fun i => mkThread (if present i then Probing else Exited) false (tries i);
  c_payload := None;
  c_overridden := fun _ => false;
|}.

#[export] Instance wait_for_eq_dec : EqDecision wait_for.
Proof. solve_decision. Defined.
#[export] Instance monitor_pc_eq_dec : EqDecision monitor_pc.
Proof. solve_decision. Defined.

(** ** Bits *)
Definition exits (st : Z) (i : nat) : bool := Z.testbit st (4 * Z.of_nat i).
Definition readies (st : Z) (i : nat) : bool := Z.testbit st (4 * Z.of_nat i + 1).
Definition loads (st : Z) (i : nat) : bool := Z.testbit st (4 * Z.of_nat i + 2).

Lemma exit_bit_pow i : exit_bit i = 2 ^ (4 * Z.of_nat i).
Proof. unfold exit_bit. rewrite Z.shiftl_mul_pow2 by lia. lia. Qed.
Lemma ready_bit_pow i : ready_bit i = 2 ^ (4 * Z.of_nat i + 1).
Proof. unfold ready_bit. rewrite Z.shiftl_mul_pow2, Z.pow_add_r by lia. lia. Qed.
Lemma loaded_bit_pow i : loaded_bit i = 2 ^ (4 * Z.of_nat i + 2).
Proof. unfold loaded_bit. rewrite Z.shiftl_mul_pow2, Z.pow_add_r by lia. lia. Qed.

Lemma flag_exit st i : flag st (exit_bit i) = exits st i.
Proof. rewrite exit_bit_pow. apply flag_bit. lia. Qed.
Lemma flag_loaded st i : flag st (loaded_bit i) = loads st i.
Proof. rewrite loaded_bit_pow. apply flag_bit. lia. Qed.

(** [bits_spec]: how setting a bit of the medium [j] looks for [i]. *)
Ltac bits_spec :=
  intros; unfold exits, readies, loads;
  rewrite ?exit_bit_pow, ?ready_bit_pow, ?loaded_bit_pow, Z.lor_spec, Z.pow2_bits_eqb by lia;
  f_equal; repeat case_bool_decide; try lia;
  match goal with |- (?x =? ?y) = _ => destruct (Z.eqb_spec x y); [try done; lia | try done; lia] end.

Lemma exits_set_exit st j i : exits (Z.lor st (exit_bit j)) i = exits st i || bool_decide (i = j).
Proof. bits_spec. Qed.
Lemma exits_set_ready st j i : exits (Z.lor st (ready_bit j)) i = exits st i || false.
Proof. bits_spec. Qed.
Lemma exits_set_loaded st j i : exits (Z.lor st (loaded_bit j)) i = exits st i || false.
Proof. bits_spec. Qed.
Lemma readies_set_exit st j i : readies (Z.lor st (exit_bit j)) i = readies st i || false.
Proof. bits_spec. Qed.
Lemma readies_set_ready st j i : readies (Z.lor st (ready_bit j)) i = readies st i || bool_decide (i = j).
Proof. bits_spec. Qed.
Lemma readies_set_loaded st j i : readies (Z.lor st (loaded_bit j)) i = readies st i || false.
Proof. bits_spec. Qed.
Lemma loads_set_exit st j i : loads (Z.lor st (exit_bit j)) i = loads st i || false.
Proof. bits_spec. Qed.
Lemma loads_set_ready st j i : loads (Z.lor st (ready_bit j)) i = loads st i || false.
Proof. bits_spec. Qed.
Lemma loads_set_loaded st j i : loads (Z.lor st (loaded_bit j)) i = loads st i || bool_decide (i = j).
Proof. bits_spec. Qed.

(** The bit that a wait is for, besides the exit bit. *)
Definition awaited (w : wait_for) (st : Z) (k : nat) : bool := match w with ForReady => readies st k | ForLoaded => loads st k end.

Lemma land_pow2_pair st a b : 0 <= a -> 0 <= b -> (Z.land st (Z.lor (2 ^ a) (2 ^ b)) =? 0) = negb (Z.testbit st a || Z.testbit st b).
Proof.
  intros Ha Hb. destruct (Z.eqb_spec (Z.land st (Z.lor (2 ^ a) (2 ^ b))) 0) as [He | He]; symmetry.
  - apply negb_true_iff. apply orb_false_iff.
    assert (forall n, 0 <= n -> Z.testbit (Z.land st (Z.lor (2 ^ a) (2 ^ b))) n = false) as H by (intros; rewrite He; apply Z.bits_0).
    split; [specialize (H a Ha) | specialize (H b Hb)]; rewrite Z.land_spec, Z.lor_spec, !Z.pow2_bits_eqb, Z.eqb_refl, ?orb_true_r, ?andb_true_r in H by lia;
      rewrite ?orb_true_r, ?orb_true_l, ?andb_true_r in H; done.
  - apply negb_false_iff. destruct (Z.testbit st a || Z.testbit st b) eqn:Hab; [done |]. exfalso. apply He.
    apply orb_false_iff in Hab as [H1 H2]. apply Z.bits_inj'. intros n Hn. rewrite Z.land_spec, Z.lor_spec, !Z.pow2_bits_eqb, Z.bits_0 by lia.
    destruct (Z.eqb_spec a n) as [<- |]; [by rewrite H1 |]. destruct (Z.eqb_spec b n) as [<- |]; [by rewrite H2 |]. apply andb_false_r.
Qed.

Lemma wait_mask_test w st k : (Z.land st (wait_mask w k) =? 0) = negb (awaited w st k || exits st k).
Proof.
  destruct w; cbn [wait_mask awaited]; rewrite ?ready_bit_pow, ?loaded_bit_pow, exit_bit_pow; apply land_pow2_pair; lia.
Qed.

Lemma available_bit present i : (i < NUM_BOOT_MEDIUM)%nat -> exits (available_boot_media present) i = present i.
Proof.
  unfold NUM_BOOT_MEDIUM, available_boot_media. intros Hi.
  destruct i as [| [| [| [|]]]]; try lia; by destruct (present 0%nat), (present 1%nat), (present 2%nat), (present 3%nat).
Qed.

Lemma unavailable_flag present k : (k < NUM_BOOT_MEDIUM)%nat -> flag (Z.lnot (available_boot_media present)) (exit_bit k) = negb (present k).
Proof. intros Hk. rewrite flag_exit. unfold exits. rewrite Z.lnot_spec by lia. by rewrite (available_bit present k Hk : Z.testbit _ _ = _). Qed.

(** ** The invariant *)

(** The thread will not load any more. *)
Definition over (p : medium_pc) : bool := match p with LoadedSet | Closing | ExitSet | Exited => true | _ => false end.
Definition gone (p : medium_pc) : bool := match p with ExitSet | Exited => true | _ => false end.
Definition announced (p : medium_pc) : bool :=
  match p with Signalled | CheckCue | Enqueue _ | Recheck _ | Asleep | Loading => true | _ => false end.
(** It has set a bit and will wake the monitor. *)
Definition notifying (p : medium_pc) : bool := match p with Signalled | LoadedSet | ExitSet => true | _ => false end.

(** The monitor has stored a cue and will wake the waiting threads. *)
Definition waking (p : monitor_pc) : bool := match p with MCueWake _ _ | MAcceptWake _ => true | _ => false end.

Record thread_ok (st cue : Z) (wake : bool) (i : nat) (t : thread) : Prop := {
  th_exit : exits st i = gone (t_pc t);
  th_loads : loads st i = true -> over (t_pc t) = true;
  th_ready : announced (t_pc t) = true -> readies st i = true;
  th_asleep : t_pc t = Asleep -> t_listed t = true /\ (wake = true \/ cue <> Z.of_nat i /\ cue <> BOOT_CUE_EXIT);
  th_listed : t_listed t = true -> t_pc t = Asleep \/ exists seen, t_pc t = Recheck seen;
  th_loading : t_pc t = Loading -> cue = Z.of_nat i;
  th_seen seen : t_pc t = Enqueue seen \/ t_pc t = Recheck seen -> seen <> Z.of_nat i /\ seen <> BOOT_CUE_EXIT;
}.

(** The medium that the monitor deals with, the media that are behind it, and
    its local variable. *)
Definition mon_at (p : monitor_pc) : nat :=
  match p with
  | MStart | MEmbedded => 0
  | MNext k _ | MTest _ k _ | MEnqueue _ k | MRecheck _ k | MAsleep _ k | MLoad _ k | MCue k _ | MCueWake k _
  | MDecide k _ | MAccept k | MAcceptWake k | MDone k => k
  | MDie => NUM_BOOT_MEDIUM
  end.
Definition accepted (p : monitor_pc) : bool := match p with MDecide _ _ | MAccept _ | MAcceptWake _ | MDone _ => true | _ => false end.
Definition mon_past (p : monitor_pc) : nat := if accepted p then S (mon_at p) else mon_at p.
Definition mon_local (p : monitor_pc) : option Z :=
  match p with MNext _ s | MTest _ _ s | MCue _ s | MCueWake _ s | MDecide _ s => Some s | _ => None end.

(** The cue that goes with a position of the monitor. *)
Definition mon_cue (p : monitor_pc) (cue : Z) : Prop :=
  match p with
  | MStart | MEmbedded | MNext _ _ | MTest ForReady _ _ | MEnqueue ForReady _ | MRecheck ForReady _ | MAsleep ForReady _ | MLoad ForReady _ | MCue _ _ =>
      cue = BOOT_CUE_NONE \/ 0 <= cue < Z.of_nat (mon_at p)
  | MTest ForLoaded k _ | MEnqueue ForLoaded k | MRecheck ForLoaded k | MAsleep ForLoaded k | MLoad ForLoaded k
  | MCueWake k _ | MDecide k _ | MAccept k => cue = Z.of_nat k
  | MAcceptWake _ | MDone _ => cue = BOOT_CUE_EXIT
  | MDie => True
  end.

Definition mon_bound (present : nat -> bool) (p : monitor_pc) : Prop :=
  match p with MNext k _ => (k <= NUM_BOOT_MEDIUM)%nat | MEmbedded => forall i, (i < NUM_BOOT_MEDIUM)%nat -> present i = false | MDie => True | _ => (mon_at p < NUM_BOOT_MEDIUM)%nat end.

(** A value of [boot_state] that was read earlier: bits are only added, and a
    medium that is gone adds none. *)
Record snapshot (s st : Z) : Prop := {
  sn_exits i : exits s i = true -> exits st i = true;
  sn_loads i : loads s i = true -> loads st i = true;
  sn_gone i : exits s i = true -> loads s i = loads st i;
}.

Section Invariant.
Context (present : nat -> bool).

Record boot_ok (c : boot_config) : Prop := {
  bo_thread i : (i < NUM_BOOT_MEDIUM)%nat -> thread_ok (c_state c) (c_cue c) (waking (c_mon c)) i (c_threads c i);
  bo_absent i : (i < NUM_BOOT_MEDIUM)%nat -> present i = false -> t_pc (c_threads c i) = Exited /\ loads (c_state c) i = false;
  bo_bound : mon_bound present (c_mon c);
  bo_range : 0 <= c_cue c < 2 ^ 32;
  bo_cue : mon_cue (c_mon c) (c_cue c);
  bo_past i : (i < mon_past (c_mon c))%nat -> (i < NUM_BOOT_MEDIUM)%nat -> over (t_pc (c_threads c i)) = true;
  bo_loads i : (i < NUM_BOOT_MEDIUM)%nat -> loads (c_state c) i = true -> (i < mon_past (c_mon c))%nat \/ c_cue c = Z.of_nat i;
  bo_local s : mon_local (c_mon c) = Some s -> snapshot s (c_state c);
  bo_payload i : (i < NUM_BOOT_MEDIUM)%nat -> loads (c_state c) i = true ->
    c_cue c = Z.of_nat i \/ accepted (c_mon c) = true /\ mon_at (c_mon c) = i -> c_payload c = Some i;
  bo_rejected i : (i < mon_at (c_mon c))%nat -> (i < NUM_BOOT_MEDIUM)%nat -> loads (c_state c) i = true -> c_overridden c i = true;
  bo_accepted : accepted (c_mon c) = true -> loads (c_state c) (mon_at (c_mon c)) = true;
  bo_asleep w k : c_mon c = MAsleep w k -> c_mon_listed c = true /\
    (awaited w (c_state c) k || exits (c_state c) k = false \/ exists j, (j < NUM_BOOT_MEDIUM)%nat /\ notifying (t_pc (c_threads c j)) = true);
  bo_listed : c_mon_listed c = true -> exists w k, c_mon c = MAsleep w k \/ c_mon c = MRecheck w k;
}.

Definition boot_reachable : boot_config -> boot_config -> Prop := rtc (fun c c' => exists who x, boot_step present who x c = Some c').

(** *** Waking *)
Lemma wake_thread_ok st cue wake i t : thread_ok st cue wake i t -> thread_ok st cue false i (wake_thread t).
Proof.
  intros [H1 H2 H3 H4 H5 H6 H7]. destruct t as [p l n]. unfold wake_thread. cbn in *. destruct l; cbn.
  - destruct (H5 eq_refl) as [-> | [seen ->]]; split; cbn in *; done || auto || by intros ? [?|?].
  - split; cbn; try done. intros E. by destruct (H4 E).
Qed.

Lemma wake_over t : over (t_pc t) = true -> over (t_pc (wake_thread t)) = true.
Proof. destruct t as [p l n]. unfold wake_thread. cbn. by destruct l, p. Qed.

Lemma wake_notifying t : notifying (t_pc (wake_thread t)) = notifying (t_pc t).
Proof. destruct t as [p l n]. unfold wake_thread. cbn. by destruct l, p. Qed.

Lemma wake_exited t : t_pc t = Exited -> t_pc (wake_thread t) = Exited.
Proof. destruct t as [p l n]. unfold wake_thread. cbn. by destruct l, p. Qed.

(** The waiting threads are woken; the position of the monitor may change to
    one that has nothing to do but go on. *)
Lemma wake_cue_ok c : boot_ok c -> boot_ok (wake_cue_waiters c).
Proof.
  intros [B1 B2 B3 Br B4 B5 B6 B7 B8 B9 B10 B11 B12]. split; cbn; try done.
  - intros i Hi. eapply wake_thread_ok in B1; [| exact Hi]. destruct B1 as [H1 H2 H3 H4 H5 H6 H7]. split; try done.
    intros E. destruct (H4 E) as [? [? | ?]]; [done |]. auto.
  - intros i Hi Hp. destruct (B2 i Hi Hp). split; [by apply wake_exited | done].
  - intros i Hi Hn. apply wake_over. auto.
  - intros w k E. destruct (B11 w k E) as [? [? | (j & Hj & Hn)]]; split; auto. right. exists j. by rewrite wake_notifying.
Qed.

Lemma wake_monitor_ok c : boot_ok c -> boot_ok (wake_monitor c) /\ (forall w k, c_mon (wake_monitor c) <> MAsleep w k).
Proof.
  intros Hok. pose proof Hok as [B1 B2 B3 Br B4 B5 B6 B7 B8 B9 B10 B11 B12]. unfold wake_monitor. destruct (c_mon_listed c) eqn:Hl.
  - destruct (B12 eq_refl) as (w & k & [E | E]); rewrite E in *; (split; [| done]); split; cbn; try done; by destruct w.
  - split; [done |]. intros w k E. destruct (B11 w k E); congruence.
Qed.

(** *** Steps of a medium

    [grown i st st']: the medium [i] has set bits. *)
Record grown (i : nat) (st st' : Z) : Prop := {
  gr_exits j : exits st' j = exits st j || (bool_decide (j = i) && exits st' i);
  gr_readies j : readies st' j = readies st j || (bool_decide (j = i) && readies st' i);
  gr_loads j : loads st' j = loads st j || (bool_decide (j = i) && loads st' i);
  gr_gone : exits st i = true -> loads st' i = loads st i;
}.

Lemma grown_same i st : grown i st st.
Proof. split; [intros j | intros j | intros j | done]; case_bool_decide; subst; cbn; rewrite ?orb_diag, ?orb_false_r; done. Qed.

Lemma grown_other i st st' j : grown i st st' -> j <> i -> exits st' j = exits st j /\ readies st' j = readies st j /\ loads st' j = loads st j.
Proof.
  intros [G1 G2 G3 _] Hne. rewrite G1, G2, G3, !bool_decide_eq_false_2 by done. by rewrite !orb_false_r.
Qed.

Lemma grown_snapshot i st st' s : grown i st st' -> snapshot s st -> snapshot s st'.
Proof.
  intros [G1 G2 G3 G4] [S1 S2 S3]. split; intros j Hj.
  - by rewrite G1, (S1 j Hj).
  - by rewrite G3, (S2 j Hj).
  - rewrite (S3 j Hj). destruct (decide (j = i)) as [-> | Hne]; [symmetry; auto |].
    rewrite G3, bool_decide_eq_false_2 by done. by rewrite orb_false_r.
Qed.

Lemma medium_update c i st' t' pay' : boot_ok c -> (i < NUM_BOOT_MEDIUM)%nat -> t_pc (c_threads c i) <> Exited ->
  grown i (c_state c) st' -> thread_ok st' (c_cue c) (waking (c_mon c)) i t' ->
  (over (t_pc (c_threads c i)) = true -> over (t_pc t') = true) ->
  (loads st' i = true -> loads (c_state c) i = true \/ c_cue c = Z.of_nat i) ->
  (pay' = c_payload c /\ loads st' i = loads (c_state c) i \/
   c_cue c = Z.of_nat i /\ over (t_pc (c_threads c i)) = false /\ (loads st' i = true -> pay' = Some i)) ->
  (forall w k, c_mon c = MAsleep w k -> notifying (t_pc t') = true \/ notifying (t_pc (c_threads c i)) = false /\ st' = c_state c) ->
  boot_ok (mkConfig st' (c_cue c) (c_mon c) (c_mon_listed c) (<[i := t']> (c_threads c)) pay' (c_overridden c)).
Proof.
  intros [B1 B2 B3 Br B4 B5 B6 B7 B8 B9 B10 B11 B12] Hi Hne Hg Hth Hov Hld Hpay Hsl. pose proof Hg as [_ _ G3 _].
  assert (forall j, loads st' j = true -> loads (c_state c) j = true \/ j = i /\ c_cue c = Z.of_nat i) as Hloads.
  { intros j Hj. destruct (decide (j = i)) as [-> | Hji]; [destruct (Hld Hj); auto |]. left. by destruct (grown_other _ _ _ j Hg Hji) as (_ & _ & <-). }
  split; cbn [c_state c_cue c_mon c_mon_listed c_threads c_payload c_overridden]; try done.
  - intros j Hj. destruct (decide (j = i)) as [-> | Hji]; [by rewrite fn_lookup_insert |]. rewrite fn_lookup_insert_ne by done.
    destruct (grown_other _ _ _ j Hg Hji) as (E1 & E2 & E3). destruct (B1 j Hj) as [T1 T2 T3 T4 T5 T6 T7].
    split; rewrite ?E1, ?E2, ?E3; done.
  - intros j Hj Hp. destruct (B2 j Hj Hp) as [E1 E2]. destruct (decide (j = i)) as [-> | Hji]; [done |]. rewrite fn_lookup_insert_ne by done.
    destruct (grown_other _ _ _ j Hg Hji) as (_ & _ & ->). done.
  - intros j Hp Hj. destruct (decide (j = i)) as [-> | Hji]; [rewrite fn_lookup_insert; auto |]. rewrite fn_lookup_insert_ne by done. auto.
  - intros j Hj Hl. destruct (Hloads j Hl) as [? | [-> ?]]; auto.
  - intros s Hs. eapply grown_snapshot; [exact Hg | auto].
  - intros j Hj Hl Hc. destruct Hpay as [[-> Hsame] | (P1 & P2 & P3)].
    + apply B8; [done | | done]. destruct (decide (j = i)) as [-> | Hji]; [congruence |]. by destruct (grown_other _ _ _ j Hg Hji) as (_ & _ & <-).
    + assert (j = i) as ->; [| auto]. destruct Hc as [Hc | [Ha Hm]]; [lia |]. exfalso.
      unfold mon_cue, BOOT_CUE_EXIT, NUM_BOOT_MEDIUM in *. destruct (c_mon c) eqn:Em; cbn in Ha, Hm, B4; try done; try lia;
        (rewrite (B5 i) in P2; [done | cbn; lia | done]).
  - intros j Hj Hj4 Hl. destruct (loads (c_state c) j) eqn:Hold; [auto |]. exfalso. destruct (Hloads j Hl) as [? | [-> Hc]]; [congruence |].
    destruct Hpay as [[_ Hs] | (_ & P2 & _)]; [congruence |]. rewrite B5 in P2; [done | unfold mon_past; case_match; lia | done].
  - intros Ha. by rewrite G3, (B10 Ha).
  - intros w k E. destruct (B11 w k E) as [Hl Hd]. split; [done |]. destruct (Hsl w k E) as [Hn | [Hn ->]].
    + right. exists i. by rewrite fn_lookup_insert.
    + destruct Hd as [? | (j & Hj & Hnj)]; [by left | right]. exists j. split; [done |]. rewrite fn_lookup_insert_ne; [done |]. intros ->. congruence.
Qed.

(** A step that sets no bit. *)
Lemma medium_move c i t' : boot_ok c -> (i < NUM_BOOT_MEDIUM)%nat -> t_pc (c_threads c i) <> Exited ->
  thread_ok (c_state c) (c_cue c) (waking (c_mon c)) i t' ->
  (over (t_pc (c_threads c i)) = true -> over (t_pc t') = true) ->
  (notifying (t_pc (c_threads c i)) = false \/ forall w k, c_mon c <> MAsleep w k) -> boot_ok (set_thread i t' c).
Proof.
  intros Hok Hi Hne Hth Hov Hn. apply (medium_update c i (c_state c) t' (c_payload c)); try done; try apply grown_same; auto.
  intros w k E. right. split; [| done]. destruct Hn as [? | Hn]; [done | by destruct (Hn w k)].
Qed.

Lemma thread_ok_move st cue wake i t p : thread_ok st cue wake i t -> gone p = gone (t_pc t) -> (loads st i = true -> over p = true) ->
  (announced p = true -> announced (t_pc t) = true \/ readies st i = true) ->
  (p = Asleep -> t_listed t = true /\ (wake = true \/ cue <> Z.of_nat i /\ cue <> BOOT_CUE_EXIT)) ->
  (t_listed t = true -> p = Asleep \/ exists seen, p = Recheck seen) -> (p = Loading -> cue = Z.of_nat i) ->
  (forall seen, p = Enqueue seen \/ p = Recheck seen -> seen <> Z.of_nat i /\ seen <> BOOT_CUE_EXIT) ->
  thread_ok st cue wake i (mkThread p (t_listed t) (t_tries t)).
Proof.
  intros [H1 H2 H3 H4 H5 H6 H7] Hg Hl Ha Hs Hli Hlo Hse. split; cbn; try done; [congruence |]. intros E. destruct (Ha E); auto.
Qed.

Ltac grow :=
  split; intros; rewrite ?exits_set_exit, ?readies_set_exit, ?loads_set_exit, ?exits_set_ready, ?readies_set_ready, ?loads_set_ready,
    ?exits_set_loaded, ?readies_set_loaded, ?loads_set_loaded; try congruence;
  try match goal with |- context [bool_decide (?x = ?y)] => destruct (decide (x = y)); subst;
    rewrite ?(bool_decide_eq_true_2 (y = y)), ?(bool_decide_eq_false_2 (x = y)) by done end;
  cbn; rewrite ?orb_false_r, ?orb_true_r, ?orb_diag; done.

Lemma grown_exit i st : grown i st (Z.lor st (exit_bit i)).
Proof. grow. Qed.
Lemma grown_ready i st : grown i st (Z.lor st (ready_bit i)).
Proof. grow. Qed.
Lemma grown_loaded i st : exits st i = false -> grown i st (Z.lor st (loaded_bit i)).
Proof. intros He. grow. Qed.

Lemma not_listed st cue wake i t : thread_ok st cue wake i t -> t_pc t <> Asleep -> (forall seen, t_pc t <> Recheck seen) -> t_listed t = false.
Proof. intros [_ _ _ _ H5 _ _] H1 H2. destruct (t_listed t); [| done]. destruct (H5 eq_refl) as [? | [seen ?]]; [done | by destruct (H2 seen)]. Qed.

(** [wait_for_boot_cue] can be called before a payload was found. *)
Lemma announce_ok c i n : boot_ok c -> (i < NUM_BOOT_MEDIUM)%nat -> t_pc (c_threads c i) = Probing \/ t_pc (c_threads c i) = Loading ->
  boot_ok (mkConfig (Z.lor (c_state c) (ready_bit i)) (c_cue c) (c_mon c) (c_mon_listed c)
    (<[i := mkThread Signalled (t_listed (c_threads c i)) n]> (c_threads c)) (c_payload c) (c_overridden c)).
Proof.
  intros Hok Hi Hpc. pose proof (bo_thread _ Hok i Hi) as Ht.
  assert (t_listed (c_threads c i) = false) as Hl by (eapply not_listed; [exact Ht | |]; intros; destruct Hpc; congruence).
  apply medium_update; try done; rewrite ?loads_set_ready, ?orb_false_r; auto.
  - destruct Hpc; congruence.
  - apply grown_ready.
  - destruct Ht as [H1 H2 H3 H4 H5 H6 H7]. split; cbn; rewrite ?exits_set_ready, ?loads_set_ready, ?readies_set_ready, ?orb_false_r, ?bool_decide_eq_true_2, ?orb_true_r by done; try done.
    + rewrite H1. by destruct Hpc as [-> | ->].
    + intros E. specialize (H2 E). by destruct Hpc as [Hpc | Hpc]; rewrite Hpc in H2.
    + rewrite Hl. done.
    + by intros ? [? | ?].
  - by destruct Hpc as [-> | ->].
Qed.

Lemma cue_finish_ok c i seen : boot_ok c -> (i < NUM_BOOT_MEDIUM)%nat -> t_pc (c_threads c i) = Recheck seen ->
  boot_ok (cue_finish i seen c).
Proof.
  intros Hok Hi Hpc. destruct (th_seen _ _ _ _ _ (bo_thread _ Hok i Hi) seen (or_intror Hpc)) as [Hs1 Hs2]. pose proof (bo_range _ Hok). unfold cue_finish. change 0xffffffff with (2 ^ 32 - 1). rewrite land_ones_mod, Z.mod_small by lia.
  destruct (Z.eqb_spec (c_cue c) seen) as [He | He]; cbn [negb]; [destruct (t_listed (c_threads c i)) eqn:Hl |].
  - pose proof (bo_thread _ Hok i Hi) as Ht. apply medium_move; try done; rewrite ?Hpc; auto. cbn.
    apply thread_ok_move; rewrite ?Hpc, ?Hl; try done; auto; try by intros ? [? | ?].
    + intros E. pose proof (th_loads _ _ _ _ _ Ht E) as Ho. by rewrite Hpc in Ho.
    + intros _. split; [done |]. right. by rewrite He.
  - pose proof (bo_thread _ Hok i Hi) as Ht. apply medium_move; try done; rewrite ?Hpc; auto. cbn.
    apply thread_ok_move; rewrite ?Hpc, ?Hl; try done; auto; try by intros ? [? | ?].
    intros E. pose proof (th_loads _ _ _ _ _ Ht E) as Ho. by rewrite Hpc in Ho.
  - apply wake_cue_ok in Hok. set (c1 := wake_cue_waiters c) in *. pose proof (bo_thread _ Hok i Hi) as Ht.
    assert (t_pc (c_threads c1 i) = Recheck seen /\ t_listed (c_threads c1 i) = false) as [Hpc1 Hl1].
    { unfold c1. cbn. unfold wake_thread. rewrite Hpc. destruct (t_listed (c_threads c i)) eqn:E; cbn; [done | by rewrite Hpc, E]. }
    apply medium_move; try done; rewrite ?Hpc1; auto. apply thread_ok_move; rewrite ?Hpc1, ?Hl1; try done; auto; try by intros ? [? | ?].
    intros E. pose proof (th_loads _ _ _ _ _ Ht E) as Ho. by rewrite Hpc1 in Ho.
Qed.

(** A thread that goes from one position to the next without setting a bit. *)
Lemma medium_pc_ok c i p : boot_ok c -> (i < NUM_BOOT_MEDIUM)%nat ->
  (notifying (t_pc (c_threads c i)) = false \/ forall w k, c_mon c <> MAsleep w k) ->
  match t_pc (c_threads c i), p with
  | Probing, Closing | Signalled, CheckCue | CheckCue, Closing | Loading, Closing | LoadedSet, Closing | ExitSet, Exited => True
  | CheckCue, Enqueue seen => seen <> Z.of_nat i /\ seen <> BOOT_CUE_EXIT
  | _, _ => False
  end -> boot_ok (set_pc i p c).
Proof.
  intros Hok Hi Hn Hm. pose proof (bo_thread _ Hok i Hi) as Ht. pose proof (th_loads _ _ _ _ _ Ht) as Hl.
  assert (t_listed (c_threads c i) = false) as Hli.
  { eapply not_listed; [exact Ht | |]; intros; intros E; rewrite E in Hm; by destruct p. }
  pose proof (th_ready _ _ _ _ _ Ht) as Hr.
  apply medium_move; try done; [by intros E; rewrite E in Hm | |].
  - apply thread_ok_move; rewrite ?Hli; try done.
    all: destruct (t_pc (c_threads c i)) eqn:E, p; try done; cbn in *; auto.
    all: intros seen' [[= <-] | ?]; done.
  - by destruct (t_pc (c_threads c i)), p.
Qed.

Lemma medium_step_ok c i x c' : boot_ok c -> (i < NUM_BOOT_MEDIUM)%nat -> medium_step i x c = Some c' -> boot_ok c'.
Proof.
  intros Hok Hi Hs. pose proof (bo_thread _ Hok i Hi) as Ht. unfold medium_step in Hs.
  assert (c_threads (wake_monitor c) = c_threads c) as Hw by (unfold wake_monitor; by destruct (c_mon_listed c)).
  destruct (wake_monitor_ok c Hok) as [Hok1 Hn1].
  destruct (t_pc (c_threads c i)) eqn:Hpc; try done.
  - destruct x; injection Hs as <-; [exact (announce_ok c i _ Hok Hi (or_introl Hpc)) | |]; apply medium_pc_ok; rewrite ?Hpc; auto.
  - injection Hs as <-. apply medium_pc_ok; auto. by rewrite Hw, Hpc.
  - destruct (Z.eqb_spec (c_cue c) BOOT_CUE_EXIT) as [He | He]; [injection Hs as <-; apply medium_pc_ok; rewrite ?Hpc; auto |].
    destruct (Z.eqb_spec (c_cue c) (Z.of_nat i)) as [Hc | Hc]; injection Hs as <-; [| apply medium_pc_ok; rewrite ?Hpc; auto].
    assert (loads (c_state c) i = false) as Hnl.
    { destruct (loads (c_state c) i) eqn:E; [| done]. pose proof (th_loads _ _ _ _ _ Ht E) as Ho. by rewrite Hpc in Ho. }
    apply (medium_update c i (c_state c) (mkThread Loading _ _) None); try done; try apply grown_same; rewrite ?Hpc, ?Hnl; auto; try (right; split_and!; done).
    apply thread_ok_move; rewrite ?Hpc, ?Hnl; try done; auto; try by intros ? [? | ?].
    rewrite (not_listed _ _ _ _ _ Ht); rewrite ?Hpc; done.
  - injection Hs as <-. apply medium_move; rewrite ?Hpc; auto; try done. destruct Ht as [H1 H2 H3 H4 H5 H6 H7]. rewrite Hpc in *. split; cbn; try done; eauto.
    intros seen' [? | [= <-]]; [done | auto].
  - injection Hs as <-. by apply cue_finish_ok.
  - destruct x.
    + injection Hs as <-. pose proof (th_loading _ _ _ _ _ Ht Hpc) as Hc.
      assert (exits (c_state c) i = false) as Hx by (rewrite (th_exit _ _ _ _ _ Ht); by rewrite Hpc).
      apply (medium_update c i (Z.lor (c_state c) (loaded_bit i)) (mkThread LoadedSet _ _) (Some i)); try done; rewrite ?Hpc; auto; try by apply grown_loaded.
      destruct Ht as [H1 H2 H3 H4 H5 H6 H7]. rewrite Hpc in *.
      split; cbn; rewrite ?exits_set_loaded, ?loads_set_loaded, ?readies_set_loaded, ?orb_false_r; try done; try by intros ? [? | ?].
      intros E. by destruct (H5 E) as [? | [? ?]].
    + injection Hs as <-. apply medium_pc_ok; rewrite ?Hpc; auto.
    + destruct (t_tries (c_threads c i)) as [| n] eqn:Htr; [done |]. injection Hs as <-.
      exact (announce_ok c i _ Hok Hi (or_intror Hpc)).
  - injection Hs as <-. apply medium_pc_ok; auto. by rewrite Hw, Hpc.
  - injection Hs as <-. assert (loads (Z.lor (c_state c) (exit_bit i)) i = loads (c_state c) i) as Hls by (rewrite loads_set_exit; apply orb_false_r).
    apply (medium_update c i (Z.lor (c_state c) (exit_bit i)) (mkThread ExitSet _ _) (c_payload c)); try done; rewrite ?Hpc, ?Hls; auto; try by apply grown_exit.
    destruct Ht as [H1 H2 H3 H4 H5 H6 H7]. rewrite Hpc in *.
    split; cbn; rewrite ?exits_set_exit, ?Hls, ?bool_decide_eq_true_2, ?orb_true_r by done; try done; try by intros ? [? | ?].
    intros E. by destruct (H5 E) as [? | [? ?]].
  - injection Hs as <-. apply medium_pc_ok; auto. by rewrite Hw, Hpc.
Qed.

(** *** Steps of the monitor *)
Lemma monitor_move c p : boot_ok c -> waking (c_mon c) = false -> waking p = false -> mon_bound present p -> mon_cue p (c_cue c) ->
  (mon_past (c_mon c) <= mon_past p)%nat ->
  (forall i, (mon_past (c_mon c) <= i < mon_past p)%nat -> (i < NUM_BOOT_MEDIUM)%nat -> over (t_pc (c_threads c i)) = true) ->
  (forall s, mon_local p = Some s -> snapshot s (c_state c)) ->
  (forall i, (mon_at (c_mon c) <= i < mon_at p)%nat -> (i < NUM_BOOT_MEDIUM)%nat -> loads (c_state c) i = true -> c_overridden c i = true) ->
  (accepted p = true -> loads (c_state c) (mon_at p) = true /\ c_cue c = Z.of_nat (mon_at p)) ->
  (forall w k, p = MAsleep w k -> c_mon_listed c = true /\ awaited w (c_state c) k || exits (c_state c) k = false) ->
  (c_mon_listed c = true -> exists w k, p = MAsleep w k \/ p = MRecheck w k) ->
  boot_ok (set_mon p c).
Proof.
  intros [B1 B2 B3 Br B4 B5 B6 B7 B8 B9 B10 B11 B12] W1 W2 Hb Hc Hle Hpast Hlocal Hrej Hacc Hsl Hli.
  split; cbn [set_mon c_state c_cue c_mon c_mon_listed c_threads c_payload c_overridden]; try done.
  - intros i Hi. rewrite W2, <- W1. auto.
  - intros i Hp Hi. destruct (decide (i < mon_past (c_mon c))%nat); [auto |]. apply Hpast; lia.
  - intros i Hi Hl. destruct (B6 i Hi Hl); [left; lia | by right].
  - intros i Hi Hl [E | [Ha E]]; [auto |]. apply B8; [done | done |]. left. destruct (Hacc Ha). congruence.
  - intros i Hp Hi Hl. destruct (decide (i < mon_at (c_mon c))%nat); [auto |]. apply Hrej; [lia | done | done].
  - intros Ha. by destruct (Hacc Ha).
  - intros w k E. destruct (Hsl w k E). auto.
Qed.

Lemma snapshot_refl st : snapshot st st.
Proof. by split. Qed.

(** The value that a wait ends with. *)
Lemma after_wait_ok c w k state : boot_ok c -> c_mon c = MTest w k state -> awaited w state k || exits state k = true ->
  boot_ok (set_mon (after_wait w k state) c).
Proof.
  intros Hok Em Hv. pose proof Hok as [B1 B2 B3 Br B4 B5 B6 B7 B8 B9 B10 B11 B12]. rewrite Em in *. cbn in B3, B4, B5, B6.
  assert (snapshot state (c_state c)) as Hsn by by apply B7. pose proof Hsn as [S1 S2 S3]. pose proof (B1 k B3) as Ht.
  assert (c_mon_listed c = false) as Hnl. { destruct (c_mon_listed c); [| done]. destruct (B12 eq_refl) as (? & ? & [? | ?]); done. }
  assert (exits state k = true -> over (t_pc (c_threads c k)) = true) as Hgone.
  { intros E%S1. rewrite (th_exit _ _ _ _ _ Ht) in E. by destruct (t_pc (c_threads c k)). }
  destruct w; unfold after_wait; cbn [awaited] in *.
  - rewrite flag_exit. destruct (exits state k) eqn:Hx.
    + apply monitor_move; rewrite ?Em, ?Hnl; try done; cbn -[NUM_BOOT_MEDIUM] in *; try lia.
      * intros i Hi _. replace i with k by lia. auto.
      * intros i Hi Hi4 Hl. replace i with k in * by lia. destruct (B6 k Hi4 Hl); unfold BOOT_CUE_NONE, NUM_BOOT_MEDIUM in *; lia.
    + apply monitor_move; rewrite ?Em, ?Hnl; try done; cbn -[NUM_BOOT_MEDIUM] in *; try lia.
  - rewrite flag_loaded. destruct (loads state k) eqn:Hx.
    + apply monitor_move; rewrite ?Em, ?Hnl; try done; cbn -[NUM_BOOT_MEDIUM] in *; unfold mon_past; cbn; try lia.
      * intros i Hi _. replace i with k by lia. apply (th_loads _ _ _ _ _ Ht). auto.
      * intros _. split; [auto | done].
    + cbn in Hv. apply monitor_move; rewrite ?Em, ?Hnl; try done; cbn -[NUM_BOOT_MEDIUM] in *; unfold mon_past; cbn; try lia.
      * intros i Hi _. replace i with k by lia. auto.
      * intros i Hi Hi4 Hl. replace i with k in * by lia. rewrite <- (S3 k Hv) in Hl. congruence.
Qed.

(** A new cue is stored.  The medium that was cued before is done. *)
Lemma cue_move c p v : boot_ok c -> waking p = true -> mon_bound present p -> mon_cue p v -> 0 <= v < 2 ^ 32 -> c_mon_listed c = false ->
  mon_at p = mon_at (c_mon c) -> accepted p = accepted (c_mon c) -> (mon_local p = None \/ mon_local p = mon_local (c_mon c)) ->
  (forall i, (i < NUM_BOOT_MEDIUM)%nat -> c_cue c = Z.of_nat i -> (i < mon_past (c_mon c))%nat) ->
  (forall i, (i < NUM_BOOT_MEDIUM)%nat -> v = Z.of_nat i -> loads (c_state c) i = false) ->
  boot_ok (set_mon p (set_cue v c)).
Proof.
  intros [B1 B2 B3 Br B4 B5 B6 B7 B8 B9 B10 B11 B12] W Hb Hc Hv Hnl Hat Hac Hloc Hold Hnew.
  assert (mon_past p = mon_past (c_mon c)) as Hpast by (unfold mon_past; by rewrite Hac, Hat).
  split; cbn [set_mon set_cue c_state c_cue c_mon c_mon_listed c_threads c_payload c_overridden]; rewrite ?Hpast, ?Hat, ?Hac; try done.
  - intros i Hi. destruct (B1 i Hi) as [T1 T2 T3 T4 T5 T6 T7]. split; try done.
    + intros E. destruct (T4 E). rewrite W. auto.
    + intros E. pose proof (T6 E) as Hci. pose proof (B5 i (Hold i Hi Hci) Hi) as Ho. by rewrite E in Ho.
  - intros i Hi Hl. left. destruct (B6 i Hi Hl); auto.
  - intros s Hs. apply B7. destruct Hloc; congruence.
  - intros i Hi Hl [E | E]; [rewrite (Hnew i Hi E) in Hl; done | auto].
  - intros w k ->. done.
  - congruence.
Qed.

(** The waiting threads are woken after a cue was stored. *)
Lemma wake_move c p : boot_ok c -> waking p = false -> mon_bound present p -> mon_cue p (c_cue c) -> c_mon_listed c = false ->
  mon_at p = mon_at (c_mon c) -> accepted p = accepted (c_mon c) -> (mon_local p = None \/ mon_local p = mon_local (c_mon c)) ->
  (forall w k, p <> MAsleep w k) -> boot_ok (set_mon p (wake_cue_waiters c)).
Proof.
  intros Hok W Hb Hc Hnl Hat Hac Hloc Hns. pose proof (wake_cue_ok c Hok) as [B1 B2 B3 Br B4 B5 B6 B7 B8 B9 B10 B11 B12]. cbn in *.
  assert (mon_past p = mon_past (c_mon c)) as Hpast by (unfold mon_past; by rewrite Hac, Hat).
  split; cbn [set_mon wake_cue_waiters c_state c_cue c_mon c_mon_listed c_threads c_payload c_overridden]; rewrite ?Hpast, ?Hat, ?Hac; try done.
  - intros i Hi. rewrite W. eapply wake_thread_ok, (bo_thread _ Hok i Hi).
  - intros s Hs. apply B7. destruct Hloc; congruence.
  - intros w k E. by destruct (Hns w k).
  - congruence.
Qed.

Lemma listed_false c : boot_ok c -> (forall w k, c_mon c <> MAsleep w k) -> (forall w k, c_mon c <> MRecheck w k) -> c_mon_listed c = false.
Proof.
  intros Hok H1 H2. destruct (c_mon_listed c) eqn:E; [| done]. destruct (bo_listed _ Hok E) as (w & k & [? | ?]); [by destruct (H1 w k) | by destruct (H2 w k)].
Qed.

Lemma enlist_ok c w k : boot_ok c -> c_mon c = MRecheck w k ->
  boot_ok (mkConfig (c_state c) (c_cue c) (c_mon c) true (c_threads c) (c_payload c) (c_overridden c)).
Proof.
  intros [B1 B2 B3 Br B4 B5 B6 B7 B8 B9 B10 B11 B12] Em. split; cbn; try done; [rewrite Em; done |]. intros _. exists w, k. by right.
Qed.

Lemma override_ok c k state : boot_ok c -> c_mon c = MDecide k state ->
  boot_ok (mkConfig (c_state c) (c_cue c) (MNext (S k) state) (c_mon_listed c) (c_threads c) (c_payload c) (<[k := true]> (c_overridden c))).
Proof.
  intros Hok Em. pose proof (listed_false c Hok ltac:(congruence) ltac:(congruence)) as Hnl.
  pose proof Hok as [B1 B2 B3 Br B4 B5 B6 B7 B8 B9 B10 B11 B12]. rewrite Em in *. unfold mon_past in *. cbn -[NUM_BOOT_MEDIUM] in *.
  split; cbn -[NUM_BOOT_MEDIUM]; rewrite ?Hnl; try done.
  - right. lia.
  - intros i Hi Hl [E | [? ?]]; [auto | done].
  - intros i Hi Hi4 Hl. destruct (decide (i = k)) as [-> | Hne]; [by rewrite fn_lookup_insert |]. rewrite fn_lookup_insert_ne by done. apply B9; [lia | done | done].
Qed.

Lemma available_none i : available_boot_media present = 0 -> (i < NUM_BOOT_MEDIUM)%nat -> present i = false.
Proof.
  unfold available_boot_media. intros [H0 [H1 [H2 H3]%Z.lor_eq_0_iff]%Z.lor_eq_0_iff]%Z.lor_eq_0_iff Hi.
  destruct i as [| [| [| [| i]]]]; [by destruct (present 0%nat) | by destruct (present 1%nat) | by destruct (present 2%nat) | by destruct (present 3%nat) | unfold NUM_BOOT_MEDIUM in Hi; lia].
Qed.

Lemma monitor_step_ok c x c' : boot_ok c -> monitor_step present x c = Some c' -> boot_ok c'.
Proof.
  intros Hok Hs. pose proof Hok as [B1 B2 B3 Br B4 B5 B6 B7 B8 B9 B10 B11 B12]. pose proof (listed_false c Hok) as Hnl. unfold monitor_step in Hs.
  destruct (c_mon c) eqn:Em; try done; try (specialize (Hnl ltac:(congruence) ltac:(congruence))); cbn in B3, B4.
  - destruct (Z.eqb_spec (available_boot_media present) 0) as [Ha | _]; [destruct x |]; injection Hs as <-; apply monitor_move; rewrite ?Em, ?Hnl; try done; cbn -[NUM_BOOT_MEDIUM]; try lia.
    1: intros i Hi; by apply available_none.
    5: intros s [= <-]; apply snapshot_refl.
    all: intros i _ Hi; destruct (B2 i Hi (available_none i Ha Hi)) as [Hp Hl]; by rewrite ?Hp, ?Hl.
  - destruct (Nat.ltb_spec k NUM_BOOT_MEDIUM) as [Hk | Hk]; [rewrite unavailable_flag in Hs by done; destruct (present k) eqn:Hp; cbn [negb] in Hs |];
      injection Hs as <-; apply monitor_move; rewrite ?Em, ?Hnl; try done; cbn -[NUM_BOOT_MEDIUM]; try lia.
    + intros i Hi _. replace i with k by lia. by destruct (B2 k Hk Hp) as [-> _].
    + intros i Hi _ Hl. replace i with k in * by lia. destruct (B2 k Hk Hp). congruence.
  - rewrite wait_mask_test in Hs. destruct (awaited w state k || exits state k) eqn:Hv; cbn [negb] in Hs; injection Hs as <-; [by apply after_wait_ok |].
    apply monitor_move; rewrite ?Em, ?Hnl; try done; cbn -[NUM_BOOT_MEDIUM]; try lia; by destruct w.
  - injection Hs as <-. apply (enlist_ok (set_mon (MRecheck w k) c) w k); [| done].
    apply monitor_move; rewrite ?Em, ?Hnl; try done; cbn -[NUM_BOOT_MEDIUM]; try lia; by destruct w.
  - rewrite wait_mask_test, negb_involutive in Hs. destruct (awaited w (c_state c) k || exits (c_state c) k) eqn:Hv.
    + injection Hs as <-. destruct (wake_monitor_ok c Hok) as [Hok1 _].
      assert (c_mon (wake_monitor c) = MRecheck w k /\ c_mon_listed (wake_monitor c) = false) as [Em1 Hnl1].
      { unfold wake_monitor. rewrite Em. by destruct (c_mon_listed c) eqn:E. }
      pose proof (bo_bound _ Hok1) as C3. pose proof (bo_cue _ Hok1) as C4. rewrite Em1 in C3, C4.
      apply monitor_move; rewrite ?Em1, ?Hnl1; try done; cbn -[NUM_BOOT_MEDIUM]; try lia; by destruct w.
    + destruct (c_mon_listed c) eqn:Hl; injection Hs as <-; apply monitor_move; rewrite ?Em, ?Hl; try done; cbn -[NUM_BOOT_MEDIUM]; try lia; try by destruct w.
      * intros w' k' [= -> ->]. done.
      * intros _. eauto.
  - injection Hs as <-. apply monitor_move; rewrite ?Em, ?Hnl; try done; cbn -[NUM_BOOT_MEDIUM]; try lia; try by destruct w.
    intros s [= <-]. apply snapshot_refl.
  - injection Hs as <-. apply cue_move; rewrite ?Em, ?Hnl; try done; auto; unfold BOOT_CUE_NONE, NUM_BOOT_MEDIUM, mon_past in *; cbn in *; try lia.
    intros i Hi E. destruct (loads (c_state c) i) eqn:Hl; [| done]. destruct (B6 i Hi Hl); lia.
  - injection Hs as <-. apply wake_move; rewrite ?Em, ?Hnl; try done; auto.
  - destruct (boot_overridden present _ k); injection Hs as <-; [by apply override_ok |].
    apply monitor_move; rewrite ?Em, ?Hnl; try done; cbn -[NUM_BOOT_MEDIUM]; try lia. intros _. split; [| done]. by apply B10.
  - injection Hs as <-. apply cue_move; rewrite ?Em, ?Hnl; try done; auto; unfold BOOT_CUE_EXIT, NUM_BOOT_MEDIUM, mon_past in *; cbn in *; try lia.
  - injection Hs as <-. apply wake_move; rewrite ?Em, ?Hnl; try done; auto.
Qed.

Lemma boot_step_ok who x c c' : boot_ok c -> boot_step present who x c = Some c' -> boot_ok c'.
Proof.
  intros Hok Hs. assert (match who with None => monitor_step present x c | Some i => if (i <? NUM_BOOT_MEDIUM)%nat then medium_step i x c else None end = Some c') as Hs'.
  { unfold boot_step in Hs. by destruct (c_mon c). }
  destruct who as [i |]; [| by eapply monitor_step_ok]. destruct (Nat.ltb_spec i NUM_BOOT_MEDIUM); [by eapply medium_step_ok | done].
Qed.

Lemma init_bits i : (i < NUM_BOOT_MEDIUM)%nat -> let st := Z.lxor (available_boot_media present) all_exit_mask in
  exits st i = negb (present i) /\ loads st i = false.
Proof.
  unfold NUM_BOOT_MEDIUM, available_boot_media. intros Hi.
  destruct i as [| [| [| [|]]]]; try lia; by destruct (present 0%nat), (present 1%nat), (present 2%nat), (present 3%nat).
Qed.

Lemma boot_init_ok tries : boot_ok (boot_init present tries).
Proof.
  split; cbn -[NUM_BOOT_MEDIUM]; try done; try lia.
  - intros i Hi. destruct (init_bits i Hi) as [E1 E2]. split; cbn; rewrite ?E1, ?E2; try done; destruct (present i); try done; by intros ? [? | ?].
  - intros i Hi Hp. destruct (init_bits i Hi) as [E1 E2]. by rewrite Hp.
  - unfold NUM_BOOT_MEDIUM. lia.
  - intros i Hi Hl. destruct (init_bits i Hi) as [E1 E2]. congruence.
  - intros i Hi Hl. destruct (init_bits i Hi) as [E1 E2]. congruence.
Qed.

Lemma boot_reachable_ok tries c : boot_reachable (boot_init present tries) c -> boot_ok c.
Proof.
  intros Hr. assert (forall c0 c1, boot_reachable c0 c1 -> boot_ok c0 -> boot_ok c1) as H; [| by eapply H, boot_init_ok].
  induction 1 as [| c1 c2 c3 (who & x & Hs) _ IH]; [done |]. intros Hok. by eapply IH, boot_step_ok.
Qed.

(** ** Progress *)
Definition boot_final (c : boot_config) : Prop :=
  c_mon c = MDie \/ (c_mon c = MEmbedded \/ exists k, c_mon c = MDone k) /\ forall i, (i < NUM_BOOT_MEDIUM)%nat -> t_pc (c_threads c i) = Exited.

Definition stuck (p : medium_pc) : bool := match p with Asleep | Exited => true | _ => false end.

Lemma medium_can_step i c : stuck (t_pc (c_threads c i)) = false -> exists c', medium_step i Good c = Some c'.
Proof. unfold medium_step. destruct (t_pc (c_threads c i)); try done; eauto. intros _. repeat case_match; eauto. Qed.

Lemma all_stuck_or c : (exists i, (i < NUM_BOOT_MEDIUM)%nat /\ stuck (t_pc (c_threads c i)) = false) \/
  forall i, (i < NUM_BOOT_MEDIUM)%nat -> stuck (t_pc (c_threads c i)) = true.
Proof.
  unfold NUM_BOOT_MEDIUM.
  destruct (stuck (t_pc (c_threads c 0%nat))) eqn:E0; [| left; exists 0%nat; split; [lia | done]].
  destruct (stuck (t_pc (c_threads c 1%nat))) eqn:E1; [| left; exists 1%nat; split; [lia | done]].
  destruct (stuck (t_pc (c_threads c 2%nat))) eqn:E2; [| left; exists 2%nat; split; [lia | done]].
  destruct (stuck (t_pc (c_threads c 3%nat))) eqn:E3; [| left; exists 3%nat; split; [lia | done]].
  right. intros i Hi. destruct i as [| [| [| [|]]]]; try lia; done.
Qed.

(** No wake-up is missing: when every medium sleeps or is done, the monitor
    can go on or everything is over. *)
Lemma monitor_can_step c : boot_ok c -> (forall i, (i < NUM_BOOT_MEDIUM)%nat -> stuck (t_pc (c_threads c i)) = true) ->
  boot_final c \/ exists c', monitor_step present Good c = Some c'.
Proof.
  intros Hok Hst. pose proof Hok as [B1 B2 B3 Br B4 B5 B6 B7 B8 B9 B10 B11 B12].
  assert (forall i, (i < NUM_BOOT_MEDIUM)%nat -> waking (c_mon c) = false -> c_cue c = Z.of_nat i \/ c_cue c = BOOT_CUE_EXIT -> t_pc (c_threads c i) = Exited) as Hex.
  { intros i Hi Hw Hc. pose proof (Hst i Hi) as Hs. destruct (t_pc (c_threads c i)) eqn:E; try done.
    destruct (th_asleep _ _ _ _ _ (B1 i Hi) E) as [_ [? | [? ?]]]; [congruence |]. by destruct Hc. }
  unfold monitor_step. destruct (c_mon c) eqn:Em; eauto; cbn in B3, B4, Hex.
  - right. destruct (_ =? 0); eauto.
  - right. destruct (k <? NUM_BOOT_MEDIUM)%nat; [destruct (flag _ _) |]; eauto.
  - right. destruct (Z.land state _ =? 0); eauto.
  - right. destruct (negb _); [| destruct (c_mon_listed c)]; eauto.
  - exfalso. destruct (B11 w k eq_refl) as [_ [[Ha Hx]%orb_false_iff | (j & Hj & Hn)]].
    2: { pose proof (Hst j Hj). by destruct (t_pc (c_threads c j)). }
    assert (t_pc (c_threads c k) = Asleep) as Hk.
    { pose proof (Hst k B3). pose proof (th_exit _ _ _ _ _ (B1 k B3)) as E. rewrite Hx in E. by destruct (t_pc (c_threads c k)). }
    destruct w; cbn in Ha.
    + assert (readies (c_state c) k = true) by (apply (th_ready _ _ _ _ _ (B1 k B3)); by rewrite Hk). congruence.
    + rewrite Hex in Hk; auto. done.
  - left. right. split; [eauto |]. intros i Hi. apply Hex; auto.
  - left. right. split; [by left |]. intros i Hi. by apply B2, B3.
  - left. by left.
Qed.

Lemma boot_progress c : boot_ok c -> boot_final c \/ exists who x c', boot_step present who x c = Some c'.
Proof.
  intros Hok. destruct (decide (c_mon c = MDie)) as [Hd | Hd]; [left; by left |].
  assert (forall who x, boot_step present who x c = match who with None => monitor_step present x c
    | Some i => if (i <? NUM_BOOT_MEDIUM)%nat then medium_step i x c else None end) as Hstep.
  { intros. unfold boot_step. by destruct (c_mon c). }
  destruct (all_stuck_or c) as [(i & Hi & Hs) | Hs].
  - right. destruct (medium_can_step i c Hs) as [c' Hc]. exists (Some i), Good, c'. rewrite Hstep. by rewrite (proj2 (Nat.ltb_lt _ _) Hi).
  - destruct (monitor_can_step c Hok Hs) as [? | [c' Hc]]; [by left | right]. exists None, Good, c'. by rewrite Hstep.
Qed.
End Invariant.

(** ** Termination

    [todo] counts the work that is left and that is done once; [churn] what may
    happen until the next such step: a thread that goes back to sleep, or that
    finds out that the value it has seen is not the current one. *)
Definition sum4 (f : nat -> nat) : nat := (f 0 + f 1 + f 2 + f 3)%nat.

Definition thread_todo (t : thread) : nat :=
  (match t_pc t with
   | Probing => 7 + 10 * t_tries t
   | Signalled => 6 + 10 * t_tries t
   | CheckCue | Enqueue _ | Recheck _ | Asleep => 5 + 10 * t_tries t
   | Loading => 4 + 10 * t_tries t
   | LoadedSet => 3
   | Closing => 2
   | ExitSet => 1
   | Exited => 0
   end)%nat.

Definition wait_todo (w : wait_for) : nat := match w with ForReady => 8 | ForLoaded => 4 end.
Definition mon_todo (p : monitor_pc) : nat :=
  (match p with
   | MStart => 200
   | MNext k _ => 20 * (4 - k) + 10
   | MTest w k _ | MEnqueue w k | MRecheck w k | MAsleep w k | MLoad w k => 20 * (4 - k) + wait_todo w
   | MCue k _ => 20 * (4 - k) + 6
   | MCueWake k _ => 20 * (4 - k) + 5
   | MDecide k _ => 20 * (4 - k) + 3
   | MAccept _ => 2
   | MAcceptWake _ => 1
   | MDone _ | MEmbedded | MDie => 0
   end)%nat.
Definition todo (c : boot_config) : nat := (sum4 (fun i => thread_todo (c_threads c i)) + mon_todo (c_mon c))%nat.

Definition thread_churn (cue : Z) (t : thread) : nat :=
  (match t_pc t with
   | CheckCue => 3
   | Enqueue seen => 2 + if (cue =? seen)%Z then 0 else 20
   | Recheck seen => (if t_listed t then 1 else 5) + if (cue =? seen)%Z then 0 else 20
   | _ => 0
   end)%nat.
Definition satisfied (w : wait_for) (st : Z) (k : nat) : nat := if awaited w st k || exits st k then 10%nat else 0%nat.
Definition mon_churn (c : boot_config) : nat :=
  (match c_mon c with
   | MLoad _ _ => 4
   | MTest w k s => if awaited w s k || exits s k then 3 else 3 + satisfied w (c_state c) k
   | MEnqueue w k => 2 + satisfied w (c_state c) k
   | MRecheck w k => (if c_mon_listed c then 1 else 5) + satisfied w (c_state c) k
   | _ => 0
   end)%nat.
Definition churn (c : boot_config) : nat := (sum4 (fun i => thread_churn (c_cue c) (c_threads c i)) + mon_churn c)%nat.

Definition boot_measure (c : boot_config) : nat := (200 * todo c + churn c)%nat.

Section Termination.
Context (present : nat -> bool).

Lemma sum4_insert (g : thread -> nat) f i t : (i < NUM_BOOT_MEDIUM)%nat -> 
  (sum4 (fun j => g ((<[i := t]> f) j)) + g (f i) = sum4 (fun j => g (f j)) + g t)%nat.
Proof.
  unfold NUM_BOOT_MEDIUM, sum4. intros Hi. destruct i as [| [| [| [| i]]]]; try lia.
  all: rewrite !fn_lookup_insert; rewrite ?fn_lookup_insert_ne by done; lia.
Qed.

Lemma churn_bound c : (churn c < 200)%nat.
Proof.
  assert (forall t, thread_churn (c_cue c) t <= 25)%nat as H.
  { intros [p l n]. unfold thread_churn. cbn. destruct p; try lia; destruct (_ =? _); try destruct l; lia. }
  assert (mon_churn c <= 15)%nat.
  { unfold mon_churn, satisfied. destruct (c_mon c); try lia; repeat case_match; lia. }
  unfold churn, sum4. pose proof (H (c_threads c 0%nat)). pose proof (H (c_threads c 1%nat)). pose proof (H (c_threads c 2%nat)). pose proof (H (c_threads c 3%nat)). lia.
Qed.

Lemma todo_less c c' : (todo c' < todo c)%nat -> (boot_measure c' < boot_measure c)%nat.
Proof. unfold boot_measure. pose proof (churn_bound c'). lia. Qed.

Lemma churn_less c c' : todo c' = todo c -> (churn c' < churn c)%nat -> (boot_measure c' < boot_measure c)%nat.
Proof. unfold boot_measure. lia. Qed.

Lemma wake_todo c : todo (wake_cue_waiters c) = todo c.
Proof.
  unfold todo, wake_cue_waiters. cbn. f_equal. unfold sum4.
  assert (forall t, thread_todo (wake_thread t) = thread_todo t) as H. { intros [p l n]. unfold wake_thread, thread_todo. by destruct l, p. }
  by rewrite !H.
Qed.

Lemma wake_monitor_todo c : todo (wake_monitor c) = todo c.
Proof. unfold todo, wake_monitor. destruct (c_mon_listed c); [| done]. cbn. by destruct (c_mon c). Qed.

Lemma thread_less c c' i t : (i < NUM_BOOT_MEDIUM)%nat -> (forall j, c_threads c' j = (<[i := t]> (c_threads c)) j) -> mon_todo (c_mon c') = mon_todo (c_mon c) ->
  (thread_todo t < thread_todo (c_threads c i))%nat -> (todo c' < todo c)%nat.
Proof.
  intros Hi Ht Hm Hl. unfold todo. rewrite Hm. pose proof (sum4_insert thread_todo (c_threads c) i t Hi). unfold sum4 in *. rewrite !Ht. lia.
Qed.

Lemma thread_churn_less c i t : (i < NUM_BOOT_MEDIUM)%nat -> thread_todo t = thread_todo (c_threads c i) ->
  (thread_churn (c_cue c) t < thread_churn (c_cue c) (c_threads c i))%nat -> (boot_measure (set_thread i t c) < boot_measure c)%nat.
Proof.
  intros Hi Ht Hc. apply churn_less.
  - unfold todo. cbn [set_thread c_threads c_mon c_cue wake_cue_waiters]. pose proof (sum4_insert thread_todo (c_threads c) i t Hi). lia.
  - unfold churn. cbn [set_thread c_threads c_mon c_cue wake_cue_waiters]. change (mon_churn _) with (mon_churn c). pose proof (sum4_insert (thread_churn (c_cue c)) (c_threads c) i t Hi). lia.
Qed.

(** A thread that was put to sleep with an outdated value wakes all others. *)
Lemma wake_all_measure c i seen : (i < NUM_BOOT_MEDIUM)%nat -> t_pc (c_threads c i) = Recheck seen -> c_cue c <> seen ->
  (boot_measure (set_pc i CheckCue (wake_cue_waiters c)) < boot_measure c)%nat.
Proof.
  intros Hi Hp Hne. assert (forall t, thread_churn (c_cue c) (wake_thread t) <= thread_churn (c_cue c) t + 4)%nat as Hw.
  { intros [p l n]. unfold thread_churn, wake_thread. cbn. destruct l, p; cbn; lia. }
  assert (t_pc (wake_thread (c_threads c i)) = Recheck seen) as Hp1 by (unfold wake_thread; by destruct (t_listed _); cbn; rewrite Hp).
  apply churn_less.
  - rewrite <- (wake_todo c). unfold todo, set_pc. cbn [set_thread c_threads c_mon c_cue wake_cue_waiters]. pose proof (sum4_insert thread_todo (fun i => wake_thread (c_threads c i)) i
      (mkThread CheckCue (t_listed (wake_thread (c_threads c i))) (t_tries (wake_thread (c_threads c i)))) Hi) as E. cbn beta in E.
    enough (thread_todo (wake_thread (c_threads c i)) = 5 + 10 * t_tries (wake_thread (c_threads c i)))%nat by (unfold thread_todo at 4 in E; cbn [t_pc t_tries] in E; lia).
    unfold thread_todo. by rewrite Hp1.
  - unfold churn, set_pc. cbn [set_thread c_threads c_mon c_cue wake_cue_waiters]. change (mon_churn _) with (mon_churn c).
    pose proof (sum4_insert (thread_churn (c_cue c)) (fun i => wake_thread (c_threads c i)) i
      (mkThread CheckCue (t_listed (wake_thread (c_threads c i))) (t_tries (wake_thread (c_threads c i)))) Hi) as E. cbn beta in E.
    assert (thread_churn (c_cue c) (wake_thread (c_threads c i)) >= 20 /\ thread_churn (c_cue c) (c_threads c i) >= 21)%nat as [H1 H2].
    { unfold thread_churn. rewrite Hp, Hp1, (proj2 (Z.eqb_neq _ _)) by done. destruct (t_listed (c_threads c i)); lia. }
    assert (sum4 (fun j => thread_churn (c_cue c) (wake_thread (c_threads c j))) + 16 <=
      sum4 (fun j => thread_churn (c_cue c) (c_threads c j)) + 32)%nat as H3.
    { unfold sum4. pose proof (Hw (c_threads c 0%nat)). pose proof (Hw (c_threads c 1%nat)). pose proof (Hw (c_threads c 2%nat)). pose proof (Hw (c_threads c 3%nat)). lia. }
    change (thread_churn _ (mkThread CheckCue _ _)) with 3%nat in E. lia.
Qed.

Lemma medium_measure c i x c' : boot_ok present c -> (i < NUM_BOOT_MEDIUM)%nat -> medium_step i x c = Some c' -> (boot_measure c' < boot_measure c)%nat.
Proof.
  intros Hok Hi Hs. pose proof (bo_range _ _ Hok) as Hr. unfold medium_step in Hs.
  assert (c_threads (wake_monitor c) = c_threads c /\ mon_todo (c_mon (wake_monitor c)) = mon_todo (c_mon c)) as [Hw1 Hw2].
  { unfold wake_monitor. destruct (c_mon_listed c); [| done]. cbn. by destruct (c_mon c). }
  assert (forall c1 t, (forall j, c_threads c1 j = (<[i := t]> (c_threads c)) j) -> mon_todo (c_mon c1) = mon_todo (c_mon c) ->
    (thread_todo t < thread_todo (c_threads c i))%nat -> (boot_measure c1 < boot_measure c)%nat) as Hless.
  { intros c1 t H1 H2 H3. apply todo_less. by eapply thread_less. }
  assert (forall p, thread_todo (mkThread p (t_listed (c_threads c i)) (t_tries (c_threads c i))) < thread_todo (c_threads c i) ->
    boot_measure (set_pc i p (wake_monitor c)) < boot_measure c /\ boot_measure (set_pc i p c) < boot_measure c)%nat as Hpc.
  { intros p Hp. split; (eapply Hless; [intros j; cbn; rewrite ?Hw1; reflexivity | cbn; congruence | done]). }
  unfold thread_todo at 2 in Hpc. unfold thread_todo at 2 in Hless. destruct (t_pc (c_threads c i)) eqn:E; try done.
  - destruct x; injection Hs as <-; [| refine (proj2 (Hpc _ _)); cbn; lia | refine (proj2 (Hpc _ _)); cbn; lia]. eapply Hless; [reflexivity | done | cbn; lia].
  - injection Hs as <-. refine (proj1 (Hpc _ _)). cbn. lia.
  - destruct (_ =? BOOT_CUE_EXIT); [injection Hs as <-; refine (proj2 (Hpc _ _)); cbn; lia |]. destruct (_ =? Z.of_nat i); injection Hs as <-.
    + eapply Hless; [reflexivity | done | cbn; lia].
    + apply thread_churn_less; [done | by unfold thread_todo; cbn; rewrite E | unfold thread_churn; cbn; rewrite E, Z.eqb_refl; lia].
  - injection Hs as <-. apply thread_churn_less; [done | by unfold thread_todo; cbn; rewrite E | unfold thread_churn; cbn; rewrite E; lia].
  - injection Hs as <-. unfold cue_finish. change 0xffffffff with (2 ^ 32 - 1). rewrite land_ones_mod, Z.mod_small by lia.
    destruct (Z.eqb_spec (c_cue c) seen) as [He | He]; cbn [negb]; [| by eapply wake_all_measure].
    destruct (t_listed (c_threads c i)) eqn:El; (apply thread_churn_less; [done | by unfold thread_todo; cbn; rewrite E |]);
      unfold thread_churn; cbn; rewrite E, El; destruct (_ =? _); lia.
  - destruct x.
    + injection Hs as <-. eapply Hless; [reflexivity | done | cbn; lia].
    + injection Hs as <-. refine (proj2 (Hpc _ _)). cbn. lia.
    + destruct (t_tries (c_threads c i)) as [| n] eqn:Et; [done |]. injection Hs as <-. eapply Hless; [reflexivity | done | cbn; lia].
  - injection Hs as <-. refine (proj1 (Hpc _ _)). cbn. lia.
  - injection Hs as <-. eapply Hless; [reflexivity | done | cbn; lia].
  - injection Hs as <-. refine (proj1 (Hpc _ _)). cbn. lia.
Qed.

Lemma mon_less c c' : (forall j, c_threads c' j = c_threads c j \/ c_threads c' j = wake_thread (c_threads c j)) ->
  (mon_todo (c_mon c') < mon_todo (c_mon c))%nat -> (boot_measure c' < boot_measure c)%nat.
Proof.
  intros Ht Hm. apply todo_less. unfold todo, sum4.
  assert (forall j, thread_todo (c_threads c' j) = thread_todo (c_threads c j)) as H; [| rewrite !H; lia].
  intros j. destruct (Ht j) as [-> | ->]; [done |]. destruct (c_threads c j) as [p l n]. unfold wake_thread, thread_todo. by destruct l, p.
Qed.

Lemma mon_churn_less c c' : c_threads c' = c_threads c -> c_cue c' = c_cue c -> mon_todo (c_mon c') = mon_todo (c_mon c) ->
  (mon_churn c' < mon_churn c)%nat -> (boot_measure c' < boot_measure c)%nat.
Proof. intros Ht Hc Hm Hl. apply churn_less; [unfold todo; by rewrite Ht, Hm |]. unfold churn. rewrite Ht, Hc. lia. Qed.

Lemma monitor_measure c x c' : boot_ok present c -> monitor_step present x c = Some c' -> (boot_measure c' < boot_measure c)%nat.
Proof.
  intros Hok Hs. pose proof (bo_bound _ _ Hok) as Hb. unfold monitor_step, NUM_BOOT_MEDIUM in *.
  destruct (c_mon c) eqn:Em; try done; cbn in Hb; unfold NUM_BOOT_MEDIUM in Hb.
  - destruct (_ =? 0); [destruct x |]; injection Hs as <-; (apply mon_less; [by left | rewrite Em; cbn [mon_todo set_mon c_mon wait_todo set_cue wake_cue_waiters]; lia]).
  - destruct (Nat.ltb_spec k 4); [destruct (flag _ _) |]; injection Hs as <-; (apply mon_less; [by left | rewrite Em; cbn [mon_todo set_mon c_mon wait_todo set_cue wake_cue_waiters]; lia]).
  - rewrite wait_mask_test in Hs. destruct (awaited w state k || exits state k) eqn:Hv; cbn [negb] in Hs; injection Hs as <-.
    + apply mon_less; [by left |]. rewrite Em. unfold after_wait. destruct w; [destruct (flag _ _) | destruct (flag _ _)]; cbn [mon_todo set_mon c_mon wait_todo set_cue wake_cue_waiters]; lia.
    + apply mon_churn_less; rewrite ?Em; try done. unfold mon_churn. cbn [set_mon c_mon c_state]. rewrite Em, Hv. lia.
  - injection Hs as <-. apply mon_churn_less; rewrite ?Em; try done. unfold mon_churn. cbn [set_mon c_mon c_state c_mon_listed]. rewrite Em. lia.
  - rewrite wait_mask_test, negb_involutive in Hs. destruct (awaited w (c_state c) k || exits (c_state c) k) eqn:Hv.
    + injection Hs as <-. assert (c_threads (wake_monitor c) = c_threads c /\ c_cue (wake_monitor c) = c_cue c) as [E1 E2].
      { unfold wake_monitor. by destruct (c_mon_listed c). }
      apply mon_churn_less; cbn [set_mon c_threads c_cue c_mon]; rewrite ?Em; try done. unfold mon_churn, satisfied. cbn [set_mon c_mon]. rewrite Em, Hv. lia.
    + destruct (c_mon_listed c) eqn:Hl; injection Hs as <-; (apply mon_churn_less; rewrite ?Em; try done); unfold mon_churn; cbn [set_mon c_mon]; rewrite Em, Hl; lia.
  - injection Hs as <-. apply mon_churn_less; rewrite ?Em; try done. unfold mon_churn, satisfied. cbn [set_mon c_mon c_state]. rewrite Em.
    destruct (awaited w (c_state c) k || exits (c_state c) k); lia.
  - injection Hs as <-. apply mon_less; [by left | rewrite Em; cbn [mon_todo set_mon c_mon wait_todo set_cue wake_cue_waiters]; lia].
  - injection Hs as <-. apply mon_less; [by right | rewrite Em; cbn [mon_todo set_mon c_mon wait_todo set_cue wake_cue_waiters]; lia].
  - destruct (boot_overridden _ _ _); injection Hs as <-; (apply mon_less; [by left | rewrite Em; cbn [mon_todo set_mon c_mon wait_todo set_cue wake_cue_waiters]; lia]).
  - injection Hs as <-. apply mon_less; [by left | rewrite Em; cbn [mon_todo set_mon c_mon wait_todo set_cue wake_cue_waiters]; lia].
  - injection Hs as <-. apply mon_less; [by right | rewrite Em; cbn [mon_todo set_mon c_mon wait_todo set_cue wake_cue_waiters]; lia].
Qed.

Lemma boot_step_measure who x c c' : boot_ok present c -> boot_step present who x c = Some c' -> (boot_measure c' < boot_measure c)%nat.
Proof.
  intros Hok Hs. assert (match who with None => monitor_step present x c | Some i => if (i <? NUM_BOOT_MEDIUM)%nat then medium_step i x c else None end = Some c') as Hs'.
  { unfold boot_step in Hs. by destruct (c_mon c). }
  destruct who as [i |]; [| by eapply monitor_measure]. destruct (Nat.ltb_spec i NUM_BOOT_MEDIUM); [by eapply medium_measure | done].
Qed.
End Termination.

(** ** Results *)
Section Results.
Context (present : nat -> bool) (tries : nat -> nat).

Lemma steps_bound c n c' : boot_ok present c -> nsteps (fun c c' => exists who x, boot_step present who x c = Some c') n c c' ->
  (n + boot_measure c' <= boot_measure c)%nat.
Proof.
  intros Hok Hn. induction Hn as [c | n c1 c2 c3 (who & x & Hs) _ IH]; [lia |].
  pose proof (boot_step_measure present who x c1 c2 Hok Hs). specialize (IH (boot_step_ok present who x c1 c2 Hok Hs)). lia.
Qed.

(** C18: Boot media do not get into each other's way.  In every interleaving of
    the threads at most one medium loads a payload at a time, it is the one that
    was cued, the monitor is waiting for it, and once a payload was accepted no
    medium touches the memory again: the payload that is there is the accepted
    one. *)
Theorem boot_media_exclusive c : boot_reachable present (boot_init present tries) c ->
  (forall i j, (i < NUM_BOOT_MEDIUM)%nat -> (j < NUM_BOOT_MEDIUM)%nat -> t_pc (c_threads c i) = Loading -> t_pc (c_threads c j) = Loading -> i = j) /\
  (forall i, (i < NUM_BOOT_MEDIUM)%nat -> t_pc (c_threads c i) = Loading -> c_cue c = Z.of_nat i /\
    accepted (c_mon c) = false /\ (c_mon c = MDie \/ mon_at (c_mon c) = i)) /\
  (accepted (c_mon c) = true -> c_payload c = Some (mon_at (c_mon c))).
Proof.
  intros Hr. pose proof (boot_reachable_ok _ _ _ Hr) as [B1 B2 B3 Br B4 B5 B6 B7 B8 B9 B10 B11 B12].
  assert (forall i, (i < NUM_BOOT_MEDIUM)%nat -> t_pc (c_threads c i) = Loading -> c_cue c = Z.of_nat i) as Hl.
  { intros i Hi Hp. by apply (th_loading _ _ _ _ _ (B1 i Hi)). }
  split_and!.
  - intros i j Hi Hj Hp Hq. pose proof (Hl i Hi Hp). pose proof (Hl j Hj Hq). lia.
  - intros i Hi Hp. pose proof (Hl i Hi Hp) as Hc.
    assert (~ (i < mon_past (c_mon c))%nat) as Hnp by (intros Hlt; pose proof (B5 i Hlt Hi) as Ho; by rewrite Hp in Ho).
    split_and!; [done | |]; unfold mon_past, BOOT_CUE_NONE, BOOT_CUE_EXIT, NUM_BOOT_MEDIUM in *; destruct (c_mon c); cbn in *; auto;
      try destruct w; unfold BOOT_CUE_NONE, BOOT_CUE_EXIT, NUM_BOOT_MEDIUM in *; try lia.
  - intros Ha. apply B8; [| auto | auto]. destruct (c_mon c); done.
Qed.

End Results.

(** The test whether there are media left compares the wrong bits: it finds
    some behind a medium that is the only one, and then the payload of this one
    is rejected. *)
Lemma override_of_only_medium k : k = 1%nat \/ k = 2%nat \/ k = 3%nat -> boot_overridden (fun i => bool_decide (i = k)) true k = true.
Proof. by intros [-> | [-> | ->]]. Qed.

(** The loop at the end of [boot_monitor] waits for the detection of the board
    with [boot_state] and [boot_monitors], and the value [BOARD_UNKNOWN], 0: the
    word is never 0 then, so that the thread is never put to sleep. *)
Lemma board_wait_spins present tries c k : boot_reachable present (boot_init present tries) c -> c_mon c = MDone k -> Z.land (c_state c) 0xffffffff <> 0.
Proof.
  intros Hr Em E. pose proof (boot_reachable_ok _ _ _ Hr) as Hok. pose proof (bo_accepted _ _ Hok) as Ha. pose proof (bo_bound _ _ Hok) as Hb.
  rewrite Em in Ha, Hb. specialize (Ha eq_refl). cbn in Ha, Hb. unfold loads in Ha.
  assert (Z.testbit (Z.land (c_state c) 0xffffffff) (4 * Z.of_nat k + 2) = false) as H by (rewrite E; apply Z.bits_0).
  rewrite Z.land_spec, Ha in H. change 0xffffffff with (Z.ones 32) in H. unfold NUM_BOOT_MEDIUM in Hb. rewrite Z.ones_spec_low in H by lia. done.
Qed.

(** *** Runs, for examples *)
Fixpoint run_schedule (present : nat -> bool) (l : list (option nat * choice)) (c : boot_config) : option boot_config :=
  match l with
  | [] => Some c
  | (who, x) :: l => c ← boot_step present who x c; run_schedule present l c
  end.

Lemma run_reachable present l c : run_schedule present l c <> None -> boot_reachable present c (default c (run_schedule present l c)).
Proof.
  assert (forall c', run_schedule present l c = Some c' -> boot_reachable present c c') as H.
  { revert c. induction l as [| [who x] l IH]; intros c c'; cbn; [intros [= ->]; reflexivity |].
    destruct (boot_step present who x c) as [c1 |] eqn:Hs; cbn; [| done]. intros Hr. eapply rtc_l; [by exists who, x | by apply IH]. }
  intros Hne. destruct (run_schedule present l c) as [c' |]; [by apply H | done].
Qed.

(** An SD card without a payload and an eMMC with one. *)
Definition demo_media (i : nat) : bool := (i <? 2)%nat.
Definition mon (n : nat) : list (option nat * choice) := replicate n (None, Good).
Definition med (i n : nat) (x : choice) : list (option nat * choice) := replicate n (Some i, x).
(** The monitor sleeps until the card is ready, the eMMC sleeps until it is cued. *)
Definition demo_loading : list (option nat * choice) :=
  mon 5 ++ med 1 5 Good ++ med 0 2 Good ++ mon 4 ++ med 0 1 Good ++ med 0 1 Bad ++ mon 3 ++ med 0 2 Good ++ mon 7 ++ med 1 1 Good.
Definition demo_booted : list (option nat * choice) := demo_loading ++ med 1 2 Good ++ mon 7 ++ med 1 2 Good.
Definition booted_config (l : list (option nat * choice)) : boot_config :=
  let c := boot_init demo_media (fun _ => 0%nat) in default c (run_schedule demo_media l c).

Lemma boot_media_exclusive_witness : t_pc (c_threads (booted_config demo_loading) 1%nat) = Loading /\ c_cue (booted_config demo_loading) = 1 /\
  c_payload (booted_config demo_booted) = Some 1%nat.
Proof.
  assert (boot_reachable demo_media (boot_init demo_media (fun _ => 0%nat)) (booted_config demo_loading)) as H1 by (apply run_reachable; vm_compute; discriminate).
  assert (boot_reachable demo_media (boot_init demo_media (fun _ => 0%nat)) (booted_config demo_booted)) as H2 by (apply run_reachable; vm_compute; discriminate).
  split; [vm_compute; reflexivity |]. split.
  - exact (proj1 (proj1 (proj2 (boot_media_exclusive demo_media (fun _ => 0%nat) _ H1)) 1%nat ltac:(unfold NUM_BOOT_MEDIUM; lia) ltac:(vm_compute; reflexivity))).
  - exact (proj2 (proj2 (boot_media_exclusive demo_media (fun _ => 0%nat) _ H2)) ltac:(vm_compute; reflexivity)).
Defined.

Lemma demo_booted_stops who x : boot_step demo_media who x (booted_config demo_booted) = None.
Proof. destruct who as [[| [| [| [|]]]] |], x; vm_compute; reflexivity. Qed.

