(* ===== verification/RegExpr.v ===== *)
(** * Value expressions of regtool

    [regtool_rpn.c] and the parsing functions of [regtool.c].  The host tool
    regtool computes the values of the DRAM controller's registers; the value of
    a field is given by an expression in reverse polish notation with typed
    values and text macros.  Strings are lists of characters, a pair of pointers
    is the list between them, and [check] that fails, which ends the program,
    is an error. *)
From S2P Require Import Prelude.
From Stdlib Require Import String Ascii.
From stdpp Require Import list.
Open Scope Z_scope.
Open Scope list_scope.

Definition ascii_text (s : string) : list Z := List.map (fun c => Z.of_N (N_of_ascii c)) (list_ascii_of_string s).

(** ** Errors *)
Inductive reg_error : Set :=
| E_not_raw
| E_not_timing
| E_types_differ
| E_negative
| E_no_raw_factor
| E_denominator
| E_zero_denominator
| E_not_boolean
| E_unmatched
| E_underflow
| E_token
| E_assert
| E_out_of_bounds
| E_indent
| E_start_offset
| E_end_offset
| E_nested
| E_global
| E_sync
| E_unclosed
| E_arguments
| E_results
| E_result_type
| E_too_big
| E_tabs
| E_specifier
| E_extended
| E_macro
| E_pragma
| E_offset
| E_lines
| E_fuel.

Definition reg_outcome (A : Type) : Type := (reg_error + A)%type.
#[export] Instance outcome_bind : MBind reg_outcome := fun A B k r => match r with inl e => inl e | inr a => k a end.
#[export] Instance outcome_ret : MRet reg_outcome := fun A a => inr a.

Definition reg_check (b : bool) (e : reg_error) : reg_outcome unit := if b then inr tt else inl e.
Definition lookup_or {A} (l : list A) (i : Z) (e : reg_error) : reg_outcome A :=
  if i <? 0 then inl e else match l !! Z.to_nat i with Some x => inr x | None => inl e end.

(** ** Characters and numbers *)
Definition ch_space : Z := 32.
Definition is_blank (c : Z) : bool := (c =? 32) || (c =? 9) || (c =? 13) || (c =? 10).
Definition is_digit (c : Z) : bool := (48 <=? c) && (c <=? 57).

Fixpoint stripl (s : list Z) : list Z :=
  match s with
  | [] => []
  | c :: s' => if is_blank c then stripl s' else s
  end.

Definition stripr (s : list Z) : list Z := reverse (stripl (reverse s)).

Definition UINT32_MAX : Z := 0xffffffff.

(** The loops of [parse_dec] and [parse_hex] return nothing when the number is
    too big. *)
Fixpoint dec_digits (val : Z) (s : list Z) : option (Z * list Z) :=
  match s with
  | [] => Some (val, [])
  | c :: s' =>
      if is_digit c then
        if u32 (UINT32_MAX - c + 48) / 10 <? val then None else dec_digits (u32 (val * 10 + (c - 48))) s'
      else Some (val, s)
  end.

Definition parse_dec (s : list Z) : option (Z * list Z) :=
  match s with
  | [] => None
  | c :: _ => if (57 <? c) || (c <? 48) then None else dec_digits 0 s
  end.

Definition ishex (c : Z) : bool :=
  if c <=? 70 then if c <=? 57 then 48 <=? c else 65 <=? c else (c <=? 102) && (97 <=? c).

Definition hex_digit_value (c : Z) : option Z :=
  if c <=? 70 then
    if c <=? 57 then if c <? 48 then None else Some (c - 48)
    else if 65 <=? c then Some (c - (65 - 10)) else None
  else if (97 <=? c) && (c <=? 102) then Some (c - (97 - 10)) else None.

Fixpoint hex_digits (val : Z) (s : list Z) : option (Z * list Z) :=
  match s with
  | [] => Some (val, [])
  | c :: s' =>
      match hex_digit_value c with
      | None => Some (val, s)
      | Some d => if Z.shiftr UINT32_MAX 4 <? val then None else hex_digits (Z.lor (u32 (Z.shiftl val 4)) d) s'
      end
  end.

Definition parse_hex (s : list Z) : option (Z * list Z) :=
  match s with
  | z :: x :: c :: _ => if (z =? 48) && (x =? 120) && ishex c then hex_digits 0 (drop 2 s) else None
  | _ => None
  end.

Definition UINT16_MAX : Z := 0xffff.

(** [UINT16_MAX] stands for an error. *)
Definition parse_offset (s : list Z) : Z :=
  match parse_dec s with
  | None => UINT16_MAX
  | Some (reg, s) =>
      match s with
      | c :: s =>
          if negb (c =? 43) then UINT16_MAX
          else match s with
          | [] => UINT16_MAX
          | _ =>
              match parse_dec s with
              | None => UINT16_MAX
              | Some (bit, _) =>
                  if (32 <? bit) || (UINT16_MAX <=? u32 (reg * 32 + bit)) then UINT16_MAX else u16 (reg * 32 + bit)
              end
          end
      | [] => UINT16_MAX
      end
  end.

(** ** The stack machine *)
Inductive value_type : Set := VAL_NUMBER | VAL_QMCYC | VAL_PARENTHESIS | VAL_BOOL.
#[export] Instance value_type_eq_dec : EqDecision value_type.
Proof. solve_decision. Defined.

Record value : Type := mkValue {
  v_type : value_type;
  v_val : Z;
}.
Record macro : Type := {
  m_name : list Z;
  m_value : list Z;
}.

(** What expressions use of [struct context]; [freq_steps] holds the tabulated
    values of the step for each frequency. *)
Record context : Type := {
  global_reps : Z;
  rep_values : list Z;
  freq_mhz : list Z;
  freq_steps : list (list Z);
  macros : list macro;
}.

Definition REP_FREQ : Z := 0.

(** The stack, its top first. *)
Abbreviation vstack := (list value).

Section Ops.
Context (ctx : context) (local : list Z).

Definition is_type (v : value) (t : value_type) : bool := bool_decide (v_type v = t).
Definition same_type (a b : value) : bool := bool_decide (v_type a = v_type b).

Definition current_freq : reg_outcome Z :=
  if flag (global_reps ctx) (Z.shiftl 1 REP_FREQ) then lookup_or (rep_values ctx) REP_FREQ E_out_of_bounds
  else lookup_or local REP_FREQ E_out_of_bounds.

Definition op_timeunit (param : Z) (st : vstack) : reg_outcome vstack :=
  match st with
  | v :: st =>
      if negb (is_type v VAL_NUMBER) then inl E_not_raw else
      let val := u64 (u64 (v_val v * Z.shiftr param 16) + Z.land param 0xffff) in
      freq ← current_freq;
      _ ← reg_check (freq <? 3) E_assert;
      mhz ← lookup_or (freq_mhz ctx) freq E_out_of_bounds;
      inr (mkValue VAL_QMCYC (u64 (val * mhz)) :: st)
  | _ => inl E_underflow
  end.

Definition op_clocks (param : Z) (st : vstack) : reg_outcome vstack :=
  match st with
  | v :: st =>
      if negb (is_type v VAL_NUMBER) then inl E_not_raw else
      inr (mkValue VAL_QMCYC (u64 (u64 (v_val v * 4000) + param)) :: st)
  | _ => inl E_underflow
  end.

(** Operators on two values of the same type. *)
Definition op_max (st : vstack) : reg_outcome vstack :=
  match st with
  | b :: a :: st =>
      if negb (same_type a b) then inl E_types_differ else
      inr (mkValue (v_type a) (if v_val a <? v_val b then v_val b else v_val a) :: st)
  | _ => inl E_underflow
  end.
Definition op_plus (st : vstack) : reg_outcome vstack :=
  match st with
  | b :: a :: st =>
      if negb (same_type a b) then inl E_types_differ else inr (mkValue (v_type a) (u64 (v_val a + v_val b)) :: st)
  | _ => inl E_underflow
  end.
Definition op_minus (st : vstack) : reg_outcome vstack :=
  match st with
  | b :: a :: st =>
      if negb (same_type a b) then inl E_types_differ else
      if v_val a <? v_val b then inl E_negative else inr (mkValue (v_type a) (u64 (v_val a - v_val b)) :: st)
  | _ => inl E_underflow
  end.
Definition op_times (st : vstack) : reg_outcome vstack :=
  match st with
  | b :: a :: st =>
      if negb (is_type a VAL_NUMBER) && negb (is_type b VAL_NUMBER) then inl E_no_raw_factor else
      inr (mkValue (v_type a) (u64 (v_val a * v_val b)) :: st)
  | _ => inl E_underflow
  end.
Definition op_div_p (st : vstack) : reg_outcome vstack :=
  match st with
  | b :: a :: st =>
      if negb (is_type b VAL_NUMBER) then inl E_denominator else
      if v_val b =? 0 then inl E_zero_denominator else
      inr (mkValue (v_type a) (u64 (u64 (v_val a + v_val b) - 1) / v_val b) :: st)
  | _ => inl E_underflow
  end.
Definition op_div_n (st : vstack) : reg_outcome vstack :=
  match st with
  | b :: a :: st =>
      if negb (is_type b VAL_NUMBER) then inl E_denominator else
      if v_val b =? 0 then inl E_zero_denominator else inr (mkValue (v_type a) (v_val a / v_val b) :: st)
  | _ => inl E_underflow
  end.
Definition op_less (st : vstack) : reg_outcome vstack :=
  match st with
  | b :: a :: st =>
      if negb (same_type a b) then inl E_types_differ else inr (mkValue VAL_BOOL (Z.b2z (v_val a <? v_val b)) :: st)
  | _ => inl E_underflow
  end.
Definition op_nogreater (st : vstack) : reg_outcome vstack :=
  match st with
  | b :: a :: st =>
      if negb (same_type a b) then inl E_types_differ else inr (mkValue VAL_BOOL (Z.b2z (v_val a <=? v_val b)) :: st)
  | _ => inl E_underflow
  end.

Definition op_tabulated_latency (param : Z) (st : vstack) : reg_outcome vstack :=
  match st with
  | v :: st =>
      if negb (is_type v VAL_NUMBER) then inl E_not_raw else
      freq ← current_freq;
      step ← lookup_or (freq_steps ctx) freq E_out_of_bounds;
      x ← lookup_or step param E_out_of_bounds;
      inr (mkValue VAL_NUMBER (u64 (v_val v * x)) :: st)
  | _ => inl E_underflow
  end.

Definition op_round (param : Z) (st : vstack) : reg_outcome vstack :=
  match st with
  | v :: st =>
      if negb (is_type v VAL_QMCYC) then inl E_not_timing else
      let val := u64 (v_val v + param) in
      inr (mkValue VAL_QMCYC (u64 (val - val mod 4000)) :: st)
  | _ => inl E_underflow
  end.

Definition op_select (st : vstack) : reg_outcome vstack :=
  match st with
  | v :: b :: a :: st =>
      if negb (is_type v VAL_BOOL) then inl E_not_boolean else
      inr (mkValue (v_type a) (if v_val v =? 0 then v_val b else v_val a) :: st)
  | _ => inl E_underflow
  end.

Definition op_mhz (st : vstack) : reg_outcome vstack :=
  freq ← current_freq;
  mhz ← lookup_or (freq_mhz ctx) freq E_out_of_bounds;
  inr (mkValue VAL_NUMBER mhz :: st).

Definition op_paren_open (st : vstack) : reg_outcome vstack := inr (mkValue VAL_PARENTHESIS 0 :: st).

Definition op_paren_close (st : vstack) : reg_outcome vstack :=
  match st with
  | b :: a :: st => if negb (is_type a VAL_PARENTHESIS) then inl E_unmatched else inr (b :: st)
  | _ => inl E_underflow
  end.

(** [init_ops]: the operators, in the order in which they are tried. *)
Inductive op_name : Set :=
| O_mhz | O_paren_open | O_timeunit (param : Z) | O_clocks (param : Z) | O_round (param : Z) | O_tabulated (param : Z)
| O_max | O_plus | O_minus | O_times | O_div_p | O_div_n | O_nogreater | O_less | O_paren_close | O_select.

Definition op_inputs (o : op_name) : nat :=
  match o with
  | O_mhz | O_paren_open => 0
  | O_timeunit _ | O_clocks _ | O_round _ | O_tabulated _ => 1
  | O_select => 3
  | _ => 2
  end.

Definition run_op (o : op_name) (st : vstack) : reg_outcome vstack :=
  match o with
  | O_mhz => op_mhz st
  | O_paren_open => op_paren_open st
  | O_timeunit param => op_timeunit param st
  | O_clocks param => op_clocks param st
  | O_round param => op_round param st
  | O_tabulated param => op_tabulated_latency param st
  | O_max => op_max st
  | O_plus => op_plus st
  | O_minus => op_minus st
  | O_times => op_times st
  | O_div_p => op_div_p st
  | O_div_n => op_div_n st
  | O_nogreater => op_nogreater st
  | O_less => op_less st
  | O_paren_close => op_paren_close st
  | O_select => op_select st
  end.
End Ops.

Definition rpn_ops : list (list Z * op_name) := [
  (ascii_text "MHz", O_mhz); (ascii_text "(", O_paren_open);
  (ascii_text "ns", O_timeunit (Z.shiftl 4 16)); (ascii_text ".5ns", O_timeunit (Z.lor (Z.shiftl 4 16) 2));
  (ascii_text ".75ns", O_timeunit (Z.lor (Z.shiftl 4 16) 3)); (ascii_text "us", O_timeunit (Z.shiftl 4000 16));
  (ascii_text "tCK", O_clocks 0); (ascii_text ".5tCK", O_clocks 2000); (ascii_text "tRFC", O_timeunit (Z.shiftl (180 * 4) 16));
  (ascii_text "ceil", O_round 3999); (ascii_text "floor", O_round 0);
  (ascii_text "RL_nDBI", O_tabulated 0); (ascii_text "RL_DBI", O_tabulated 1); (ascii_text "WL_A", O_tabulated 2); (ascii_text "WL_B", O_tabulated 3);
  (ascii_text "nWR", O_tabulated 4); (ascii_text "nRTP", O_tabulated 5); (ascii_text "MRVal", O_tabulated 6);
  (ascii_text "max", O_max); (ascii_text "+", O_plus); (ascii_text "-", O_minus); (ascii_text "*", O_times); (ascii_text "div_p", O_div_p); (ascii_text "div_n", O_div_n);
  (ascii_text "<=", O_nogreater); (ascii_text "<", O_less); (ascii_text ")", O_paren_close);
  (ascii_text "sel", O_select)].

(** ** Running an expression *)
Fixpoint first_word (s : list Z) : list Z :=
  match s with
  | c :: s => if c =? ch_space then [] else c :: first_word s
  | [] => []
  end.

Definition prefixb (p s : list Z) : bool := bool_decide (take (length p) s = p).

Fixpoint find_op (ops : list (list Z * op_name)) (w : list Z) : option (nat * op_name) :=
  match ops with
  | [] => None
  | (tok, o) :: ops => if prefixb tok w then Some (length tok, o) else find_op ops w
  end.

Fixpoint find_macro (ms : list macro) (i : nat) (w : list Z) : option (nat * macro) :=
  match ms with
  | [] => None
  | m :: ms => if bool_decide (w = m_name m) then Some (i, m) else find_macro ms (S i) w
  end.

(** What stands at the beginning of the input; the rest follows the token. *)
Inductive token : Type :=
| T_number (v : Z) (rest : list Z)
| T_op (o : op_name) (rest : list Z)
| T_macro (i : nat) (m : macro) (rest : list Z)
| T_bad.

Definition next_token (ctx : context) (macro_end : nat) (pos : list Z) : token :=
  match (match parse_hex pos with Some r => Some r | None => parse_dec pos end) with
  | Some (v, rest) => T_number v rest
  | None =>
      let w := first_word pos in
      match find_op rpn_ops w with
      | Some (len, o) => T_op o (drop len pos)
      | None =>
          match find_macro (take macro_end (macros ctx)) 0 w with
          | Some (i, m) => T_macro i m (stripl (drop (length w) pos))
          | None => T_bad
          end
      end
  end.

Definition exec_op (ctx : context) (local : list Z) (o : op_name) (st : vstack) : reg_outcome vstack :=
  _ ← reg_check (op_inputs o <=? length st)%nat E_underflow;
  run_op ctx local o st.

(** [run_expression]: [expansion] holds what follows the macros that are being
    expanded, and which macros may be used there. *)
Fixpoint run_loop (fuel : nat) (ctx : context) (local : list Z) (pos : list Z) (macro_end : nat) (expansion : list (list Z * nat)) (st : vstack) :
    reg_outcome vstack :=
  match fuel with
  | O => inl E_fuel
  | S fuel =>
      let step pos macro_end expansion :=
        match next_token ctx macro_end pos with
        | T_number v rest => run_loop fuel ctx local (stripl rest) macro_end expansion (mkValue VAL_NUMBER v :: st)
        | T_op o rest => st ← exec_op ctx local o st; run_loop fuel ctx local (stripl rest) macro_end expansion st
        | T_macro i m rest =>
            let expansion := match rest with [] => expansion | _ => (rest, macro_end) :: expansion end in
            run_loop fuel ctx local (stripl (m_value m)) i expansion st
        | T_bad => inl E_token
        end in
      match pos with
      | [] => match expansion with [] => inr st | (pos, macro_end) :: expansion => step pos macro_end expansion end
      | _ => step pos macro_end expansion
      end
  end.

Definition run_expression (fuel : nat) (ctx : context) (local : list Z) (expr : list Z) (st : vstack) : reg_outcome vstack :=
  run_loop fuel ctx local expr (length (macros ctx)) [] st.

(** ** Tokens consume input *)
Lemma stripl_length s : (length (stripl s) <= length s)%nat.
Proof. induction s as [| c s IH]; cbn; [lia |]. case_match; cbn; lia. Qed.

Lemma dec_loop_length val s v rest : dec_digits val s = Some (v, rest) -> (length rest <= length s)%nat.
Proof.
  revert val. induction s as [| c s IH]; intros val; cbn; [intros [= <- <-]; cbn; lia |].
  destruct (is_digit c); [| intros [= <- <-]; cbn; lia]. case_match; [done |]. intros Hx%IH. lia.
Qed.

Lemma parse_dec_length s v rest : parse_dec s = Some (v, rest) -> (length rest < length s)%nat.
Proof.
  unfold parse_dec. destruct s as [| c s]; [done |]. destruct ((57 <? c) || (c <? 48)) eqn:Hc; [done |].
  apply orb_false_iff in Hc as [H1%Z.ltb_ge H2%Z.ltb_ge]. cbn [dec_digits]. unfold is_digit.
  rewrite (proj2 (Z.leb_le 48 c)), (proj2 (Z.leb_le c 57)) by lia. cbn [andb]. case_match; [done |]. intros Hx%dec_loop_length. cbn. lia.
Qed.

Lemma hex_loop_length val s v rest : hex_digits val s = Some (v, rest) -> (length rest <= length s)%nat.
Proof.
  revert val. induction s as [| c s IH]; intros val; cbn; [intros [= <- <-]; cbn; lia |].
  destruct (hex_digit_value c); [| intros [= <- <-]; cbn; lia]. case_match; [done |]. intros Hx%IH. lia.
Qed.

Lemma parse_hex_length s v rest : parse_hex s = Some (v, rest) -> (length rest < length s)%nat.
Proof.
  unfold parse_hex. destruct s as [| z [| x [| c s]]]; try done. destruct (_ && _ && _); [| done]. intros Hx%hex_loop_length. cbn in *. lia.
Qed.

Lemma find_op_length ops w len o : Forall (fun p => p.1 <> []) ops -> find_op ops w = Some (len, o) -> (0 < len <= length w)%nat.
Proof.
  induction 1 as [| [tok o'] ops Hne _ IH]; cbn; [done |]. unfold prefixb. case_bool_decide as Hp; [| done]. intros [= <- <-].
  assert (length (take (length tok) w) = length tok) as E by (by rewrite Hp). rewrite length_take in E. assert (0 < length tok)%nat by (destruct tok; [done | cbn; lia]). lia.
Qed.

Lemma rpn_ops_nonempty : Forall (fun p => p.1 <> []) rpn_ops.
Proof. unfold rpn_ops. repeat (constructor; [done |]). constructor. Qed.

Lemma first_word_length s : (length (first_word s) <= length s)%nat.
Proof. induction s as [| c s IH]; cbn; [lia |]. case_match; cbn; lia. Qed.

Lemma find_macro_bound ms i w k m : find_macro ms i w = Some (k, m) -> (i <= k < i + length ms)%nat /\ ms !! (k - i)%nat = Some m.
Proof.
  revert i. induction ms as [| m0 ms IH]; intros i; cbn; [done |]. case_bool_decide.
  - intros [= <- <-]. split; [lia |]. by rewrite Nat.sub_diag.
  - intros [Hk Hm]%IH. split; [lia |]. replace (k - i)%nat with (S (k - S i)) by lia. done.
Qed.

Definition token_rest (t : token) : option (list Z) :=
  match t with T_number _ rest | T_op _ rest | T_macro _ _ rest => Some (stripl rest) | T_bad => None end.

Lemma macro_rest_length s : s <> [] -> (length (stripl (drop (length (first_word s)) s)) < length s)%nat.
Proof.
  intros Hne. destruct s as [| c s]; [done |]. cbn [first_word]. destruct (Z.eqb_spec c ch_space) as [-> | Hc].
  - cbn. pose proof (stripl_length s). lia.
  - cbn [length drop]. pose proof (stripl_length (drop (length (first_word s)) s)). rewrite length_drop in *. lia.
Qed.

Section Tokens.
Context (ctx : context).

Lemma token_shorter macro_end pos rest : pos <> [] -> token_rest (next_token ctx macro_end pos) = Some rest -> (length rest < length pos)%nat.
Proof.
  intros Hne. unfold next_token. destruct (parse_hex pos) as [[v r] |] eqn:Hh; cbn [token_rest].
  { intros [= <-]. apply parse_hex_length in Hh. pose proof (stripl_length r). lia. }
  destruct (parse_dec pos) as [[v r] |] eqn:Hd; cbn [token_rest].
  { intros [= <-]. apply parse_dec_length in Hd. pose proof (stripl_length r). lia. }
  destruct (find_op rpn_ops (first_word pos)) as [[len o] |] eqn:Ho; cbn [token_rest].
  { intros [= <-]. apply find_op_length in Ho; [| apply rpn_ops_nonempty]. pose proof (first_word_length pos). pose proof (stripl_length (drop len pos)).
    rewrite length_drop in *. lia. }
  destruct (find_macro _ _ _) as [[i m] |]; cbn [token_rest]; [| done]. intros [= <-].
  pose proof (macro_rest_length pos Hne). pose proof (stripl_length (stripl (drop (length (first_word pos)) pos))). lia.
Qed.

Lemma token_macro macro_end pos i m rest : next_token ctx macro_end pos = T_macro i m rest ->
  (i < macro_end)%nat /\ macros ctx !! i = Some m /\ stripl rest = rest.
Proof.
  unfold next_token. destruct (match parse_hex pos with Some r => Some r | None => parse_dec pos end) as [[v r] |]; [done |].
  destruct (find_op _ _) as [[len o] |]; [done |]. destruct (find_macro _ _ _) as [[k m'] |] eqn:Hf; [| done]. intros [= -> -> <-].
  apply find_macro_bound in Hf as [Hb Hm]. rewrite Nat.sub_0_r in Hm. rewrite length_take in Hb. split_and!; [lia | |].
  - by apply lookup_take_Some in Hm as [Hm _].
  - generalize (drop (length (first_word pos)) pos). intros s. induction s as [| c s IH]; [done |]. cbn. destruct (is_blank c) eqn:Hc; [done |]. cbn. by rewrite Hc.
Qed.
End Tokens.

(** ** What an expression denotes

    A macro stands for its text, in which only the macros that were defined
    before it may be used; [depth] bounds the nesting.  The meaning is given for
    any machine that takes numbers and operators: besides the values, an
    expression has types. *)
Section Denote.
Context (ctx : context) {V : Type} (number : Z -> V -> V) (exec : op_name -> V -> reg_outcome V).

(** Loops over the tokens of a text, with the macros as a parameter. *)
Fixpoint tokens_denote (sub : nat -> list Z -> V -> reg_outcome V) (macro_end fuel : nat) (pos : list Z) (st : V) : reg_outcome V :=
  match fuel with
  | O => inl E_fuel
  | S fuel =>
      match pos with
      | [] => inr st
      | _ =>
          match next_token ctx macro_end pos with
          | T_number v rest => tokens_denote sub macro_end fuel (stripl rest) (number v st)
          | T_op o rest => st ← exec o st; tokens_denote sub macro_end fuel (stripl rest) st
          | T_macro i m rest => st ← sub i (stripl (m_value m)) st; tokens_denote sub macro_end fuel rest st
          | T_bad => inl E_token
          end
      end
  end.
Fixpoint tokens_cost (sub : nat -> list Z -> nat) (macro_end fuel : nat) (pos : list Z) : nat :=
  match fuel with
  | O => O
  | S fuel =>
      match pos with
      | [] => 1%nat
      | _ =>
          match next_token ctx macro_end pos with
          | T_number _ rest | T_op _ rest => S (tokens_cost sub macro_end fuel (stripl rest))
          | T_macro i m rest => S (sub i (stripl (m_value m)) + tokens_cost sub macro_end fuel rest)
          | T_bad => 1%nat
          end
      end
  end.

(** The number of tokens that are read, with those of the macros, is [cost]. *)
Fixpoint denote (depth macro_end : nat) (pos : list Z) (st : V) : reg_outcome V :=
  tokens_denote (match depth with O => fun _ _ _ => inl E_fuel | S depth => denote depth end) macro_end (S (length pos)) pos st.
Fixpoint cost (depth macro_end : nat) (pos : list Z) : nat :=
  tokens_cost (match depth with O => fun _ _ => O | S depth => cost depth end) macro_end (S (length pos)) pos.

(** *** Fuel and depth do not matter when they are large enough *)
Lemma tokens_denote_ext sub sub' macro_end : (forall i m st, (i < macro_end)%nat -> macros ctx !! i = Some m -> sub i (stripl (m_value m)) st = sub' i (stripl (m_value m)) st) ->
  forall fuel fuel' pos st, (length pos < fuel)%nat -> (length pos < fuel')%nat ->
  tokens_denote sub macro_end fuel pos st = tokens_denote sub' macro_end fuel' pos st.
Proof.
  intros Hsub. induction fuel as [| fuel IH]; intros fuel' pos st Hf Hf'; [lia |]. destruct fuel' as [| fuel']; [lia |]. cbn [tokens_denote].
  destruct pos as [| c pos]; [done |]. pose proof (token_shorter ctx macro_end (c :: pos)) as Hs.
  destruct (next_token ctx macro_end (c :: pos)) as [v rest | o rest | i m rest |] eqn:Ht; [| | | done]; cbn [token_rest] in Hs; specialize (Hs _ ltac:(done) eq_refl); cbn [length] in *.
  - apply IH; lia.
  - destruct (exec o st); cbn [mbind outcome_bind]; [done |]. apply IH; lia.
  - destruct (token_macro _ _ _ _ _ _ Ht) as (Hi & Hm & Hr). rewrite Hr in Hs. rewrite (Hsub i m st Hi Hm).
    destruct (sub' i _ st); cbn [mbind outcome_bind]; [done |]. apply IH; lia.
Qed.

Lemma denote_depth d1 d2 macro_end pos st : (macro_end <= d1)%nat -> (macro_end <= d2)%nat -> denote d1 macro_end pos st = denote d2 macro_end pos st.
Proof.
  revert d2 macro_end pos st. induction d1 as [| d1 IH]; intros d2 macro_end pos st H1 H2.
  - destruct d2 as [| d2]; [done |]. cbn [denote]. apply tokens_denote_ext; [lia | lia | lia].
  - destruct d2 as [| d2]; cbn [denote]; apply tokens_denote_ext; try lia. intros i m st' Hi _. apply IH; lia.
Qed.

(** The denotation of a text, by its first token. *)
Lemma denote_eq macro_end pos st : denote macro_end macro_end pos st =
  match pos with
  | [] => inr st
  | _ =>
      match next_token ctx macro_end pos with
      | T_number v rest => denote macro_end macro_end (stripl rest) (number v st)
      | T_op o rest => st ← exec o st; denote macro_end macro_end (stripl rest) st
      | T_macro i m rest => st ← denote i i (stripl (m_value m)) st; denote macro_end macro_end rest st
      | T_bad => inl E_token
      end
  end.
Proof.
  set (sub := match macro_end with O => fun _ _ _ => inl E_fuel | S depth => denote depth end).
  assert (forall pos st, denote macro_end macro_end pos st = tokens_denote sub macro_end (S (length pos)) pos st) as Hd by (intros; subst sub; by destruct macro_end).
  rewrite Hd. cbn [tokens_denote]. destruct pos as [| c pos]; [done |]. pose proof (token_shorter ctx macro_end (c :: pos)) as Hs.
  assert (forall pos' st', (length pos' < length (c :: pos))%nat -> tokens_denote sub macro_end (length (c :: pos)) pos' st' = denote macro_end macro_end pos' st') as Hf.
  { intros. rewrite Hd. apply tokens_denote_ext; [done | lia | lia]. }
  destruct (next_token ctx macro_end (c :: pos)) as [v rest | o rest | i m rest |] eqn:Ht; [| | | done]; cbn [token_rest] in Hs; specialize (Hs _ ltac:(done) eq_refl).
  - by apply Hf.
  - destruct (exec o st); cbn [mbind outcome_bind]; [done |]. by apply Hf.
  - destruct (token_macro _ _ _ _ _ _ Ht) as (Hi & Hm & Hr). rewrite Hr in Hs.
    assert (sub i (stripl (m_value m)) st = denote i i (stripl (m_value m)) st) as ->.
    { subst sub. destruct macro_end as [| n]; [lia |]. apply denote_depth; lia. }
    destruct (denote i i _ st); cbn [mbind outcome_bind]; [done |]. by apply Hf.
Qed.

Lemma tokens_cost_ext sub sub' macro_end : (forall i m, (i < macro_end)%nat -> macros ctx !! i = Some m -> sub i (stripl (m_value m)) = sub' i (stripl (m_value m))) ->
  forall fuel fuel' pos, (length pos < fuel)%nat -> (length pos < fuel')%nat -> tokens_cost sub macro_end fuel pos = tokens_cost sub' macro_end fuel' pos.
Proof.
  intros Hsub. induction fuel as [| fuel IH]; intros fuel' pos Hf Hf'; [lia |]. destruct fuel' as [| fuel']; [lia |]. cbn [tokens_cost].
  destruct pos as [| c pos]; [done |]. pose proof (token_shorter ctx macro_end (c :: pos)) as Hs.
  destruct (next_token ctx macro_end (c :: pos)) as [v rest | o rest | i m rest |] eqn:Ht; [| | | done]; cbn [token_rest] in Hs; specialize (Hs _ ltac:(done) eq_refl); cbn [length] in *.
  - f_equal. apply IH; lia.
  - f_equal. apply IH; lia.
  - destruct (token_macro _ _ _ _ _ _ Ht) as (Hi & Hm & Hr). rewrite Hr in Hs. rewrite (Hsub i m Hi Hm). do 2 f_equal. apply IH; lia.
Qed.

Lemma cost_depth d1 d2 macro_end pos : (macro_end <= d1)%nat -> (macro_end <= d2)%nat -> cost d1 macro_end pos = cost d2 macro_end pos.
Proof.
  revert d2 macro_end pos. induction d1 as [| d1 IH]; intros d2 macro_end pos H1 H2.
  - destruct d2 as [| d2]; [done |]. cbn [cost]. apply tokens_cost_ext; [lia | lia | lia].
  - destruct d2 as [| d2]; cbn [cost]; apply tokens_cost_ext; try lia. intros i m Hi _. apply IH; lia.
Qed.

Lemma cost_eq macro_end pos : cost macro_end macro_end pos =
  match pos with
  | [] => 1%nat
  | _ =>
      match next_token ctx macro_end pos with
      | T_number _ rest | T_op _ rest => S (cost macro_end macro_end (stripl rest))
      | T_macro i m rest => S (cost i i (stripl (m_value m)) + cost macro_end macro_end rest)
      | T_bad => 1%nat
      end
  end.
Proof.
  set (sub := match macro_end with O => fun _ _ => O | S depth => cost depth end).
  assert (forall pos, cost macro_end macro_end pos = tokens_cost sub macro_end (S (length pos)) pos) as Hd by (intros; subst sub; by destruct macro_end).
  rewrite Hd. cbn [tokens_cost]. destruct pos as [| c pos]; [done |]. pose proof (token_shorter ctx macro_end (c :: pos)) as Hs.
  assert (forall pos', (length pos' < length (c :: pos))%nat -> tokens_cost sub macro_end (length (c :: pos)) pos' = cost macro_end macro_end pos') as Hf.
  { intros. rewrite Hd. apply tokens_cost_ext; [done | lia | lia]. }
  destruct (next_token ctx macro_end (c :: pos)) as [v rest | o rest | i m rest |] eqn:Ht; [| | | done]; cbn [token_rest] in Hs; specialize (Hs _ ltac:(done) eq_refl).
  - f_equal. by apply Hf.
  - f_equal. by apply Hf.
  - destruct (token_macro _ _ _ _ _ _ Ht) as (Hi & Hm & Hr). rewrite Hr in Hs. do 2 f_equal; [| by apply Hf].
    subst sub. destruct macro_end as [| n]; [lia |]. apply cost_depth; lia.
Qed.

(** Errors are those of the machine. *)
Lemma denote_error macro_end pos st e : denote macro_end macro_end pos st = inl e -> e = E_token \/ exists o st', exec o st' = inl e.
Proof.
  assert (forall k macro_end, (macro_end < k)%nat -> forall n pos st, (length pos < n)%nat -> denote macro_end macro_end pos st = inl e ->
    e = E_token \/ exists o st', exec o st' = inl e) as H; [| apply (H (S macro_end) macro_end ltac:(lia) (S (length pos)) pos st); lia].
  clear macro_end pos st. induction k as [| k IHk]; intros macro_end Hk; [lia |]. induction n as [| n IHn]; intros pos st Hl; [lia |].
  rewrite denote_eq. destruct pos as [| c pos]; [done |]. pose proof (token_shorter ctx macro_end (c :: pos)) as Hs.
  destruct (next_token ctx macro_end (c :: pos)) as [v rest | o rest | i m rest |] eqn:Ht; [| | | by intros [= <-]; left];
    cbn [token_rest] in Hs; specialize (Hs _ ltac:(done) eq_refl).
  - apply IHn. lia.
  - destruct (exec o st) eqn:He; cbn [mbind outcome_bind]; [intros [= <-]; eauto |]. apply IHn. lia.
  - destruct (token_macro _ _ _ _ _ _ Ht) as (Hi & Hm & Hr). rewrite Hr in Hs.
    destruct (denote i i _ st) eqn:Hd; cbn [mbind outcome_bind]; [intros [= <-]; apply (IHk i ltac:(lia) (S (length (stripl (m_value m)))) _ st (Nat.lt_succ_diag_r _) Hd) |]. apply IHn. lia.
Qed.
End Denote.

Section Values.
Context (ctx : context) (local : list Z).

(** The values of an expression. *)
Definition denote_values (macro_end : nat) : list Z -> vstack -> reg_outcome vstack :=
  denote ctx (fun v st => mkValue VAL_NUMBER v :: st) (exec_op ctx local) macro_end macro_end.

(** What follows the macros that are being expanded. *)
Fixpoint finish_run (expansion : list (list Z * nat)) (st : vstack) : reg_outcome vstack :=
  match expansion with
  | [] => inr st
  | (pos, macro_end) :: expansion => st ← denote_values macro_end pos st; finish_run expansion st
  end.
Definition finish_cost (expansion : list (list Z * nat)) : nat := sum_list_with (fun p => cost ctx p.2 p.2 p.1) expansion.

Lemma denote_values_eq macro_end pos st : denote_values macro_end pos st =
  match pos with
  | [] => inr st
  | _ =>
      match next_token ctx macro_end pos with
      | T_number v rest => denote_values macro_end (stripl rest) (mkValue VAL_NUMBER v :: st)
      | T_op o rest => st ← exec_op ctx local o st; denote_values macro_end (stripl rest) st
      | T_macro i m rest => st ← denote_values i (stripl (m_value m)) st; denote_values macro_end rest st
      | T_bad => inl E_token
      end
  end.
Proof. apply denote_eq. Qed.

Lemma exec_op_fuel o st : exec_op ctx local o st <> inl E_fuel.
Proof.
  unfold exec_op, reg_check. destruct (_ <=? _)%nat; cbn [mbind outcome_bind]; [| done].
  destruct o; cbn [run_op]; unfold op_mhz, op_paren_open, op_timeunit, op_clocks, op_round, op_tabulated_latency, op_max, op_plus, op_minus, op_times, op_div_p, op_div_n,
    op_nogreater, op_less, op_paren_close, op_select, reg_check, current_freq, lookup_or, mbind, outcome_bind; repeat case_match; congruence.
Qed.

Lemma run_loop_pop fuel macro_end pos m e st : pos <> [] -> run_loop fuel ctx local [] macro_end ((pos, m) :: e) st = run_loop fuel ctx local pos m e st.
Proof. intros Hne. destruct fuel; [done |]. by destruct pos. Qed.

Lemma bind_assoc_outcome {A B C} (r : reg_outcome A) (f : A -> reg_outcome B) (g : B -> reg_outcome C) : (y ← (x ← r; f x); g y) = (x ← r; y ← f x; g y).
Proof. by destruct r. Qed.

(** The loop with a stack of expansions computes the denotation. *)
Lemma run_loop_denote fuel : forall macro_end pos expansion st, Forall (fun p => p.1 <> []) expansion ->
  (cost ctx macro_end macro_end pos + finish_cost expansion <= fuel)%nat ->
  run_loop fuel ctx local pos macro_end expansion st = (st ← denote_values macro_end pos st; finish_run expansion st).
Proof.
  induction fuel as [| fuel IH]; intros macro_end pos expansion st Hne Hc.
  { rewrite cost_eq in Hc. destruct pos; [lia |]. destruct (next_token _ _ _); lia. }
  assert (forall macro_end pos expansion, pos <> [] -> Forall (fun p => p.1 <> []) expansion -> (cost ctx macro_end macro_end pos + finish_cost expansion <= S fuel)%nat ->
    run_loop (S fuel) ctx local pos macro_end expansion st = (st ← denote_values macro_end pos st; finish_run expansion st)) as Hstep.
  { clear macro_end pos expansion Hne Hc. intros macro_end pos expansion Hpos Hne Hc. rewrite denote_values_eq. rewrite cost_eq in Hc. cbn [run_loop].
    destruct pos as [| c pos]; [done |]. destruct (next_token ctx macro_end (c :: pos)) as [v rest | o rest | i m rest |] eqn:Ht; [| | | done].
    - apply IH; [done | lia].
    - destruct (exec_op ctx local o st); cbn [mbind outcome_bind]; [done |]. apply IH; [done | lia].
    - rewrite bind_assoc_outcome. rewrite IH.
      + destruct (denote_values i _ st) as [| st']; cbn [mbind outcome_bind]; [done |]. destruct rest; [by rewrite denote_values_eq | done].
      + destruct rest; [done |]. by constructor.
      + destruct rest as [| c' rest]; [lia |]. unfold finish_cost in *. cbn [sum_list_with fst snd]. lia. }
  destruct pos as [| c pos]; [| by apply Hstep]. rewrite (denote_values_eq macro_end []). cbn [mbind outcome_bind].
  destruct expansion as [| [pos m] e]; [done |]. inversion Hne as [| ? ? Hp Hne' E1]; subst. cbn in Hp. rewrite run_loop_pop by done. apply Hstep; [done | done |].
  unfold finish_cost in *. cbn [sum_list_with fst snd] in Hc. rewrite cost_eq in Hc. lia.
Qed.

Lemma run_expression_denote expr st fuel : (cost ctx (length (macros ctx)) (length (macros ctx)) expr <= fuel)%nat ->
  run_expression fuel ctx local expr st = denote_values (length (macros ctx)) expr st.
Proof.
  intros Hf. unfold run_expression. rewrite run_loop_denote; [by destruct (denote_values _ _ _) | done |]. unfold finish_cost. cbn. lia.
Qed.

(** C23: Evaluation of value expressions ends and means what is documented.
    With as much fuel as there are tokens, those of expanded macros included,
    [run_expression] computes the denotation of the expression: tokens are
    executed from left to right, and a macro stands for the denotation of its
    text, in which only earlier macros can be used, so that expansion ends. *)
Theorem run_expression_correct expr st fuel : (cost ctx (length (macros ctx)) (length (macros ctx)) expr <= fuel)%nat ->
  run_expression fuel ctx local expr st = denote_values (length (macros ctx)) expr st /\ run_expression fuel ctx local expr st <> inl E_fuel.
Proof.
  intros Hf. pose proof (run_expression_denote expr st fuel Hf) as E. split; [done |]. rewrite E. intros [? | (o & st' & He)]%denote_error; [done |]. by apply exec_op_fuel in He.
Qed.
End Values.

(** ** Types

    What an operator does with the types of its inputs. *)
Definition type_is (t t' : value_type) : bool := bool_decide (t = t').
Definition type_op (o : op_name) (ts : list value_type) : reg_outcome (list value_type) :=
  _ ← reg_check (op_inputs o <=? length ts)%nat E_underflow;
  match o, ts with
  | O_mhz, _ => inr (VAL_NUMBER :: ts)
  | O_paren_open, _ => inr (VAL_PARENTHESIS :: ts)
  | (O_timeunit _ | O_clocks _), t :: ts => if negb (type_is t VAL_NUMBER) then inl E_not_raw else inr (VAL_QMCYC :: ts)
  | O_tabulated _, t :: ts => if negb (type_is t VAL_NUMBER) then inl E_not_raw else inr (VAL_NUMBER :: ts)
  | O_round _, t :: ts => if negb (type_is t VAL_QMCYC) then inl E_not_timing else inr (VAL_QMCYC :: ts)
  | (O_max | O_plus | O_minus), b :: a :: ts => if negb (type_is a b) then inl E_types_differ else inr (a :: ts)
  | (O_nogreater | O_less), b :: a :: ts => if negb (type_is a b) then inl E_types_differ else inr (VAL_BOOL :: ts)
  | O_times, b :: a :: ts => if negb (type_is a VAL_NUMBER) && negb (type_is b VAL_NUMBER) then inl E_no_raw_factor else inr (a :: ts)
  | (O_div_p | O_div_n), b :: a :: ts => if negb (type_is b VAL_NUMBER) then inl E_denominator else inr (a :: ts)
  | O_paren_close, b :: a :: ts => if negb (type_is a VAL_PARENTHESIS) then inl E_unmatched else inr (b :: ts)
  | O_select, t :: b :: a :: ts => if negb (type_is t VAL_BOOL) then inl E_not_boolean else inr (a :: ts)
  | _, _ => inl E_underflow
  end.

(** The types of an expression, without its values. *)
Definition infer (ctx : context) (macro_end : nat) : list Z -> list value_type -> reg_outcome (list value_type) :=
  denote ctx (fun _ ts => VAL_NUMBER :: ts) type_op macro_end macro_end.

(** Errors that depend on values. *)
Definition value_error (e : reg_error) : Prop := e = E_negative \/ e = E_zero_denominator \/ e = E_assert \/ e = E_out_of_bounds.

(** [agrees r rt]: the run [r] has the types [rt] says, or stops for a value. *)
Definition agrees (r : reg_outcome vstack) (rt : reg_outcome (list value_type)) : Prop :=
  match r, rt with
  | inr st, inr ts => List.map v_type st = ts
  | inr _, inl _ => False
  | inl e, inr _ => value_error e
  | inl e, inl e' => e = e' \/ value_error e
  end.

Section Typing.
Context (ctx : context) (local : list Z).

Lemma agrees_value_error e rt : value_error e -> agrees (inl e) rt.
Proof. destruct rt; cbn; auto. Qed.

Lemma exec_op_types o st : agrees (exec_op ctx local o st) (type_op o (List.map v_type st)).
Proof.
  unfold exec_op, type_op. rewrite List.length_map. unfold reg_check at 1 2. destruct (op_inputs o <=? length st)%nat eqn:Hin; cbn [mbind outcome_bind]; [| by left].
  assert (forall A (l : list A) i, (exists x, lookup_or l i E_out_of_bounds = inr x) \/ lookup_or l i E_out_of_bounds = inl E_out_of_bounds) as Hl.
  { intros A l i. unfold lookup_or. destruct (i <? 0); [by right |]. destruct (l !! Z.to_nat i); eauto. }
  assert ((exists x, current_freq ctx local = inr x) \/ current_freq ctx local = inl E_out_of_bounds) as Hc.
  { unfold current_freq. destruct (flag _ _); apply Hl. }
  apply Nat.leb_le in Hin. unfold value_error.
  destruct o; cbn [op_inputs] in Hin; destruct st as [| b [| a [| c st]]]; cbn [length] in Hin; try lia; cbn [run_op List.map];
    unfold op_mhz, op_paren_open, op_timeunit, op_clocks, op_round, op_tabulated_latency, op_max, op_plus, op_minus, op_times, op_div_p, op_div_n,
      op_nogreater, op_less, op_paren_close, op_select, is_type, same_type, type_is.
  all: repeat match goal with |- context [negb (bool_decide ?P)] => destruct (bool_decide P); cbn [negb andb] end.
  all: try (cbn; by auto).
  all: try (destruct Hc as [[f ->] | ->]; cbn [mbind outcome_bind]; [| by apply agrees_value_error; right; right; right]).
  all: try (unfold reg_check; destruct (f <? 3); cbn [mbind outcome_bind]; [| by apply agrees_value_error; right; right; left]).
  all: repeat match goal with |- context [lookup_or ?l ?i _] =>
    destruct (Hl _ l i) as [[? ->] | ->]; cbn [mbind outcome_bind]; [| by apply agrees_value_error; right; right; right] end.
  all: try (cbn; by auto).
  all: match goal with |- context [if ?b then _ else _] => destruct b end; cbn; unfold value_error; by auto.
Qed.

Lemma denote_types macro_end pos st : agrees (denote_values ctx local macro_end pos st) (infer ctx macro_end pos (List.map v_type st)).
Proof.
  assert (forall k macro_end, (macro_end < k)%nat -> forall n pos st, (length pos < n)%nat ->
    agrees (denote_values ctx local macro_end pos st) (infer ctx macro_end pos (List.map v_type st))) as H;
    [| apply (H (S macro_end) macro_end ltac:(lia) (S (length pos)) pos st); lia].
  clear macro_end pos st. induction k as [| k IHk]; intros macro_end Hk; [lia |]. induction n as [| n IHn]; intros pos st Hl; [lia |].
  unfold denote_values, infer. rewrite !denote_eq. fold (denote_values ctx local macro_end) (infer ctx macro_end). destruct pos as [| c pos]; [done |].
  pose proof (token_shorter ctx macro_end (c :: pos)) as Hs.
  destruct (next_token ctx macro_end (c :: pos)) as [v rest | o rest | i m rest |] eqn:Ht; [| | | by left];
    cbn [token_rest] in Hs; specialize (Hs _ ltac:(done) eq_refl).
  - apply (IHn (stripl rest) (mkValue VAL_NUMBER v :: st)). lia.
  - pose proof (exec_op_types o st) as Ho. destruct (exec_op ctx local o st) as [e | st'], (type_op o (List.map v_type st)) as [e' | ts]; cbn in Ho |- *; try done.
    + by apply agrees_value_error.
    + subst ts. apply IHn. lia.
  - destruct (token_macro _ _ _ _ _ _ Ht) as (Hi & Hm & Hr). rewrite Hr in Hs.
    pose proof (IHk i ltac:(lia) (S (length (stripl (m_value m)))) (stripl (m_value m)) st ltac:(lia)) as Ho. unfold denote_values at 1, infer at 1 in Ho.
    destruct (denote _ _ _ i i _ st) as [e | st'], (denote _ _ _ i i _ (List.map v_type st)) as [e' | ts]; cbn in Ho |- *; try done.
    + by apply agrees_value_error.
    + subst ts. apply IHn. lia.
Qed.

(** C24: The types of value expressions are static.  Whether and with which types
    an expression evaluates is determined by the types of its inputs alone: a
    successful run leaves values of the inferred types, a well-typed expression
    fails only for a difference below zero, a denominator that is zero or a
    frequency that is not in the tables, and an expression that is not well-typed
    fails. *)
Theorem expression_types expr st fuel : (cost ctx (length (macros ctx)) (length (macros ctx)) expr <= fuel)%nat ->
  match infer ctx (length (macros ctx)) expr (List.map v_type st) with
  | inr ts => (exists st', run_expression fuel ctx local expr st = inr st' /\ List.map v_type st' = ts) \/
              (exists e, run_expression fuel ctx local expr st = inl e /\ value_error e)
  | inl _ => exists e, run_expression fuel ctx local expr st = inl e
  end.
Proof.
  intros Hf. pose proof (denote_types (length (macros ctx)) expr st) as H. rewrite (run_expression_denote ctx local expr st fuel Hf). destruct (denote_values ctx local _ expr st) as [e | st'], (infer ctx _ expr _) as [e' | ts]; cbn in H; eauto; done.
Qed.
End Typing.

(** ** Numbers *)
Definition dec_value (val : Z) (ds : list Z) : Z := fold_left (fun v c => v * 10 + (c - 48)) ds val.

Lemma dec_value_ge ds val : Forall (fun c => is_digit c = true) ds -> 0 <= val -> val <= dec_value val ds.
Proof.
  intros Hd. revert val. unfold dec_value. induction Hd as [| c ds Hc Hd IH]; intros val Hv; cbn [fold_left]; [lia |].
  unfold is_digit in Hc. apply andb_true_iff in Hc as [?%Z.leb_le ?%Z.leb_le]. pose proof (IH (val * 10 + (c - 48)) ltac:(lia)). lia.
Qed.

Lemma dec_loop_value ds rest val : Forall (fun c => is_digit c = true) ds -> match rest with c :: _ => is_digit c = false | [] => True end -> 0 <= val < 2 ^ 32 ->
  dec_digits val (ds ++ rest) = if dec_value val ds <? 2 ^ 32 then Some (dec_value val ds, rest) else None.
Proof.
  intros Hd Hr. revert val. induction Hd as [| c ds Hc Hd IH]; intros val Hv.
  { cbn [app]. unfold dec_value. cbn [fold_left]. rewrite (proj2 (Z.ltb_lt _ _)) by lia. destruct rest; cbn [dec_digits]; [done |]. by rewrite Hr. }
  cbn [app dec_digits]. rewrite Hc. unfold dec_value. cbn [fold_left]. fold (dec_value (val * 10 + (c - 48)) ds).
  unfold is_digit in Hc. apply andb_true_iff in Hc as [H1%Z.leb_le H2%Z.leb_le]. unfold UINT32_MAX. rewrite u32_small by lia. destruct (_ <? val) eqn:E.
  - apply Z.ltb_lt in E. rewrite (proj2 (Z.ltb_ge _ _)); [done |]. pose proof (dec_value_ge ds (val * 10 + (c - 48)) Hd ltac:(lia)).
    pose proof (Z.mul_succ_div_gt (4294967295 - c + 48) 10 ltac:(lia)). lia.
  - apply Z.ltb_ge in E. pose proof (Z.mul_div_le (4294967295 - c + 48) 10 ltac:(lia)). rewrite u32_small by lia. apply IH. lia.
Qed.

(** Decimal numbers are read exactly.  A run of digits is accepted if and only
    if the number it denotes fits in 32 bits, whatever its length, and then the
    number and what follows it are returned. *)
Theorem parse_dec_correct c ds rest : Forall (fun c => is_digit c = true) (c :: ds) -> match rest with c :: _ => is_digit c = false | [] => True end ->
  parse_dec ((c :: ds) ++ rest) = if dec_value 0 (c :: ds) <? 2 ^ 32 then Some (dec_value 0 (c :: ds), rest) else None.
Proof.
  intros Hd Hr. rewrite <- (dec_loop_value (c :: ds) rest 0 Hd Hr) by lia. inversion Hd as [| ? ? Hc _]; subst. unfold is_digit in Hc. apply andb_true_iff in Hc as [?%Z.leb_le ?%Z.leb_le].
  unfold parse_dec. cbn [app]. by rewrite (proj2 (Z.ltb_ge 57 c)), (proj2 (Z.ltb_ge c 48)) by lia.
Qed.

(** ** Examples *)
Definition demo_context : context := {|
  global_reps := 0;
  rep_values := replicate 11 0;
  freq_mhz := [50; 400; 800];
  freq_steps := [[6; 6; 4; 4; 6; 8; 0]; [10; 12; 6; 8; 10; 8; 1]; [14; 16; 8; 12; 16; 8; 2]];
  macros := [{| m_name := ascii_text "tOffset"; m_value := ascii_text "3 2 +" |}; {| m_name := ascii_text "tWTR"; m_value := ascii_text "tOffset ns 8tCK max" |}];
|}.
Definition demo_local : list Z := 1 :: replicate 10 0.
Definition demo_expr : list Z := ascii_text "( tWTR 1 WL_B tCK + ) ceil".

Lemma demo_cost : (cost demo_context 2 2 demo_expr <= 40)%nat.
Proof. apply (proj1 (Nat.leb_le _ _)). vm_compute. reflexivity. Qed.

Lemma run_expression_correct_witness : run_expression 40 demo_context demo_local demo_expr [] = inr [mkValue VAL_QMCYC 64000].
Proof.
  rewrite (proj1 (run_expression_correct demo_context demo_local demo_expr [] 40 demo_cost)). vm_compute. reflexivity.
Defined.

Lemma expression_types_witness : exists v, run_expression 40 demo_context demo_local demo_expr [] = inr [mkValue VAL_QMCYC v].
Proof.
  pose proof (expression_types demo_context demo_local demo_expr [] 40 demo_cost) as H.
  vm_compute in H. destruct H as [(st & E & _) | (e & E & _)]; [| discriminate E]. exists 64000. vm_compute. reflexivity.
Defined.

Lemma parse_dec_correct_witness : parse_dec (ascii_text "4294967296 +") = None /\ parse_dec (ascii_text "4294967295 +") = Some (4294967295, ascii_text " +").
Proof.
  split; [change (ascii_text "4294967296 +") with ((52 :: ascii_text "294967296") ++ ascii_text " +") | change (ascii_text "4294967295 +") with ((52 :: ascii_text "294967295") ++ ascii_text " +")];
    (rewrite parse_dec_correct; [reflexivity | repeat constructor | reflexivity]).
Defined.

(** The product of a number and a timing value is a number. *)
Lemma times_drops_timing : run_expression 10 demo_context demo_local (ascii_text "2 3tCK *") [] = inr [mkValue VAL_NUMBER 24000].
Proof. vm_compute. reflexivity. Qed.

(** Selection gives the value of one input the type of another. *)
Lemma select_mixes_types : run_expression 10 demo_context demo_local (ascii_text "5 3tCK 2 1 < sel") [] = inr [mkValue VAL_NUMBER 12000].
Proof. vm_compute. reflexivity. Qed.

(** ** Frequencies

    The tabulated values, and the step that is selected for a frequency by
    [--mhz]. *)
Definition frequency_table : list (Z * list Z) := [(266, [6; 6; 4; 4; 6; 8; 0]); (533, [10; 12; 6; 8; 10; 8; 1]); (800, [14; 16; 8; 12; 16; 8; 2])].

Fixpoint find_step (table : list (Z * list Z)) (mhz : Z) : nat :=
  match table with
  | [] => 0
  | (step_mhz, _) :: table => if step_mhz <? mhz then S (find_step table mhz) else 0
  end.

(** Above 800 MHz the step is behind the end of the table. *)
Lemma find_step_in_table mhz : (find_step frequency_table mhz < length frequency_table)%nat <-> mhz <= 800.
Proof. cbn. destruct (Z.ltb_spec 266 mhz), (Z.ltb_spec 533 mhz), (Z.ltb_spec 800 mhz); lia. Qed.
