(* ===== verification/RegLayout.v ===== *)
(** * Layout of register fields

    [layout_fields] of regtool.c.  The lines of a register description are
    nested by their indentation: a repetition covers the lines below it that are
    indented more.  [layout_fields] walks over the lines with an explicit stack
    of active repetitions and jumps back to the first covered line; it is shown
    to unroll the nested repetitions as documented. *)
From S2P Require Import Prelude RegExpr.
From Stdlib Require Import String.
From stdpp Require Import list functions.
Open Scope Z_scope.
Open Scope list_scope.

Definition NUM_REP : nat := 11.
Definition REP_SYNC : nat := 10.
Definition rep_num_repetitions : list Z := [3; 2; 4; 6; 8; 2; 4; 3; 4; 10; 0].
Definition num_reps (rep : nat) : Z := default 0 (rep_num_repetitions !! rep).

Definition RO_BIT : Z := 0.
Definition VOLATILE_BIT : Z := 1.
Definition COMMAND_BIT : Z := 2.
Definition PACKED_BIT : Z := 3.
Definition SUBFIELD_BIT : Z := 4.
Definition UPPER_LIMIT_BIT : Z := 5.
Definition LOWER_LIMIT_BIT : Z := 6.

(** The two arms of the union in [struct line]. *)
Inductive line_body : Type :=
| LINE_PRAGMA (rep : nat) (offset_start offset_end : Z)
| LINE_FIELD (name val : list Z) (alignment size flags : Z).
Record line : Type := mkLine {
  l_line : Z;
  l_indent : nat;
  l_body : line_body;
}.
Record reg_field : Type := mkField {
  f_line : nat;
  f_flags : Z;
  f_offset : Z;
  f_rep_value : list Z;
}.

(** What a layout produces: the values of the repetition variables, the layout
    pointer, and the fields, the last first. *)
Record lstate : Type := mkL {
  ls_values : list Z;
  ls_offset : Z;
  ls_fields : list reg_field;
}.

Definition rep_val (s : lstate) (rep : nat) : Z := default 0 (ls_values s !! rep).
Definition set_rep (rep : nat) (v : Z) (s : lstate) : lstate := mkL (<[rep := v]> (ls_values s)) (ls_offset s) (ls_fields s).

(** Aligns a field, and starts a new register if it would straddle a boundary. *)
Definition place_field (cur_offset alignment size : Z) : Z :=
  let cur_offset := u16 (Z.land (cur_offset + alignment - 1) (Z.lnot (u16 (alignment - 1)))) in
  if (cur_offset + size - 1) / 32 =? cur_offset / 32 then cur_offset else u16 (Z.land cur_offset (Z.lnot 31) + 32).

Definition active_flags (active : list nat) : Z := fold_right (fun rep flags => Z.lor flags (Z.shiftl 1 (Z.of_nat rep))) 0 active.

Definition layout_field (pos : nat) (active : list nat) (alignment size flags : Z) (s : lstate) : lstate :=
  let cur_offset := place_field (ls_offset s) alignment size in
  let reg_field := mkField pos (active_flags active) cur_offset (ls_values s) in
  mkL (ls_values s) (if flag flags (Z.shiftl 1 PACKED_BIT) then cur_offset else u16 (cur_offset + size)) (reg_field :: ls_fields s).

Definition nonzero_rep (s : lstate) (active : list nat) : bool := existsb (fun rep => negb (rep_val s rep =? 0)) active.

(** The checks of a pragma line. *)
Definition pragma_check (global_reps : Z) (active : list nat) (rep : nat) (offset_start : Z) (s : lstate) : reg_outcome unit :=
  _ ← reg_check (negb (existsb (Nat.eqb rep) active)) E_nested;
  _ ← reg_check (nonzero_rep s active || (ls_offset s =? offset_start)) E_start_offset;
  reg_check (negb (flag global_reps (Z.shiftl 1 (Z.of_nat rep)))) E_global.

(** ** The loop *)
Record layout_state : Type := mkLayout {
  reps_active : list nat;
  rep_end : nat -> Z;
  rep_start : nat -> nat;
  ly_pos : nat;
  ly_state : lstate;
}.

Inductive closed : Type :=
| Again (st : layout_state)
| Closed (st : layout_state).

Section Layout.
Context (lines : list line) (global_reps : Z).

(** The [while] loop that ends or restarts the repetitions that do not cover
    the current line. *)
Fixpoint close_reps (cur_indent : nat) (active : list nat) (st : layout_state) : reg_outcome closed :=
  match active with
  | [] => inr (Closed (mkLayout [] (rep_end st) (rep_start st) (ly_pos st) (ly_state st)))
  | rep :: outer =>
      if (cur_indent <? length active)%nat then
        let v := u8 (rep_val (ly_state st) rep + 1) in
        let s := set_rep rep v (ly_state st) in
        if v <? num_reps rep then inr (Again (mkLayout active (rep_end st) (rep_start st) (rep_start st rep + 1) s))
        else
          _ ← reg_check (nonzero_rep s outer || (rep_end st rep =? ls_offset s)) E_end_offset;
          close_reps cur_indent outer (mkLayout outer (rep_end st) (rep_start st) (ly_pos st) (set_rep rep 0 s))
      else inr (Closed (mkLayout active (rep_end st) (rep_start st) (ly_pos st) (ly_state st)))
  end.

Definition layout_line (l : line) (st : layout_state) : reg_outcome layout_state :=
  let s := ly_state st in
  let active := reps_active st in
  match l_body l with
  | LINE_FIELD _ _ alignment size flags =>
      inr (mkLayout active (rep_end st) (rep_start st) (S (ly_pos st)) (layout_field (ly_pos st) active alignment size flags s))
  | LINE_PRAGMA rep offset_start offset_end =>
      _ ← pragma_check global_reps active rep offset_start s;
      if negb (rep =? REP_SYNC)%nat then
        _ ← reg_check (length active + 1 <? NUM_REP)%nat E_assert;
        inr (mkLayout (rep :: active) (<[rep := offset_end]> (rep_end st)) (<[rep := ly_pos st]> (rep_start st)) (S (ly_pos st)) (set_rep rep 0 s))
      else
        _ ← reg_check (length active =? 0)%nat E_sync;
        inr (mkLayout active (rep_end st) (rep_start st) (S (ly_pos st)) (mkL (ls_values s) offset_end (ls_fields s)))
  end.

Definition cur_indent (st : layout_state) : reg_outcome nat :=
  match lines !! ly_pos st with
  | Some l => _ ← reg_check (l_indent l <=? length (reps_active st))%nat E_indent; inr (l_indent l)
  | None => inr 0%nat
  end.

Fixpoint layout_loop (fuel : nat) (st : layout_state) : reg_outcome lstate :=
  match fuel with
  | O => inl E_fuel
  | S fuel =>
      indent ← cur_indent st;
      r ← close_reps indent (reps_active st) st;
      match r with
      | Again st => layout_loop fuel st
      | Closed st =>
          match lines !! ly_pos st with
          | None => inr (ly_state st)
          | Some l => st ← layout_line l st; layout_loop fuel st
          end
      end
  end.

Definition layout_fields (fuel : nat) (values : list Z) : reg_outcome lstate :=
  layout_loop fuel (mkLayout [] (fun _ => 0) (fun _ => 0%nat) 0 (mkL values 0 [])).

(** ** Unrolling the repetitions

    The documented meaning, by recursion over the nesting. *)
Fixpoint covered (d : nat) (ls : list line) : list line :=
  match ls with
  | [] => []
  | l :: ls => if (d <? l_indent l)%nat then l :: covered d ls else []
  end.

(** [times body rep k i s] runs the body for the values i, ..., i + k - 1. *)
Fixpoint times (body : lstate -> reg_outcome lstate) (rep : nat) (k : nat) (i : Z) (s : lstate) : reg_outcome lstate :=
  match k with
  | O => inr s
  | S k => s ← body (set_rep rep i s); times body rep k (i + 1) s
  end.

Fixpoint unroll (fuel : nat) (active : list nat) (pos : nat) (ls : list line) (s : lstate) : reg_outcome lstate :=
  match fuel, ls with
  | O, _ => inl E_fuel
  | _, [] => inr s
  | S fuel, l :: ls =>
      _ ← reg_check (l_indent l =? length active)%nat E_indent;
      match l_body l with
      | LINE_FIELD _ _ alignment size flags => unroll fuel active (S pos) ls (layout_field pos active alignment size flags s)
      | LINE_PRAGMA rep offset_start offset_end =>
          _ ← pragma_check global_reps active rep offset_start s;
          if (rep =? REP_SYNC)%nat then
            _ ← reg_check (length active =? 0)%nat E_sync;
            unroll fuel active (S pos) ls (mkL (ls_values s) offset_end (ls_fields s))
          else
            let body := covered (length active) ls in
            s ← times (unroll fuel (rep :: active) (S pos) body) rep (Z.to_nat (num_reps rep)) 0 s;
            _ ← reg_check (nonzero_rep s active || (offset_end =? ls_offset s)) E_end_offset;
            unroll fuel active (S pos + length body) (drop (length body) ls) (set_rep rep 0 s)
      end
  end.
End Layout.

(** ** The loop unrolls the repetitions *)
Lemma set_rep_set rep v w s : set_rep rep v (set_rep rep w s) = set_rep rep v s.
Proof. unfold set_rep. cbn. by rewrite list_insert_insert_eq. Qed.

Lemma rep_val_set rep v s : (rep < length (ls_values s))%nat -> rep_val (set_rep rep v s) rep = v.
Proof. intros H. unfold rep_val, set_rep. cbn. by rewrite list_lookup_insert_eq. Qed.

Lemma nonzero_rep_set rep v s active : rep ∉ active -> nonzero_rep (set_rep rep v s) active = nonzero_rep s active.
Proof.
  induction active as [| r active IH]; [done |]. intros [Hr Hn]%not_elem_of_cons. unfold nonzero_rep in *. cbn [existsb]. rewrite IH by done. unfold rep_val, set_rep. cbn [ls_values]. by rewrite list_lookup_insert_ne by done.
Qed.

Lemma reps_active_bound active : NoDup active -> Forall (fun r => r < REP_SYNC)%nat active -> (length active <= REP_SYNC)%nat.
Proof.
  intros Hn Hf. replace REP_SYNC with (length (seq 0 REP_SYNC)) by done. apply submseteq_length, NoDup_submseteq; [done |]. intros r Hr. rewrite Forall_forall in Hf. apply elem_of_seq. pose proof (Hf r (proj1 (list_elem_of_In _ _) Hr)). lia.
Qed.

Lemma num_reps_bound rep : (rep < REP_SYNC)%nat -> 0 < num_reps rep < 256.
Proof. unfold REP_SYNC. intros H. do 10 (destruct rep as [| rep]; [done |]). lia. Qed.

Section Unroll.
Context (lines : list line) (global_reps : Z).

Definition indent_at (pos : nat) : nat := match lines !! pos with Some l => l_indent l | None => 0%nat end.

Lemma cur_indent_at st : (indent_at (ly_pos st) <= length (reps_active st))%nat -> cur_indent lines st = inr (indent_at (ly_pos st)).
Proof. unfold indent_at, cur_indent. destruct (lines !! _) as [l |]; [| done]. intros H. by rewrite (proj2 (Nat.leb_le _ _) H). Qed.

Lemma close_reps_done active st : close_reps (length active) active st = inr (Closed (mkLayout active (rep_end st) (rep_start st) (ly_pos st) (ly_state st))).
Proof. destruct active as [| rep active]; cbn [close_reps]; [done |]. by rewrite Nat.ltb_irrefl. Qed.

Lemma loop_pop f rep active re rs pos s : rep ∉ active -> (indent_at pos <= length active)%nat -> num_reps rep <= u8 (rep_val s rep + 1) ->
  layout_loop lines global_reps (S f) (mkLayout (rep :: active) re rs pos s) =
  (_ ← reg_check (nonzero_rep s active || (re rep =? ls_offset s)) E_end_offset; layout_loop lines global_reps (S f) (mkLayout active re rs pos (set_rep rep 0 s))).
Proof.
  intros Hr Hi Hv. cbn [layout_loop]. rewrite !cur_indent_at by (cbn; lia). cbn [mbind outcome_bind ly_pos reps_active close_reps ly_state rep_end rep_start].
  rewrite (proj2 (Nat.ltb_lt _ _)) by (cbn; lia). rewrite (proj2 (Z.ltb_ge _ _)) by done. rewrite nonzero_rep_set by done. cbn [ls_offset set_rep].
  destruct (reg_check _ _) as [e | []]; [done |]. cbn [mbind outcome_bind]. fold (set_rep rep (u8 (rep_val s rep + 1)) s). by rewrite set_rep_set.
Qed.

Lemma loop_again f rep active re rs pos s : (indent_at pos <= length active)%nat -> u8 (rep_val s rep + 1) < num_reps rep ->
  layout_loop lines global_reps (S f) (mkLayout (rep :: active) re rs pos s) =
  layout_loop lines global_reps f (mkLayout (rep :: active) re rs (rs rep + 1) (set_rep rep (u8 (rep_val s rep + 1)) s)).
Proof.
  intros Hi Hv. cbn [layout_loop]. rewrite !cur_indent_at by (cbn; lia). cbn [mbind outcome_bind ly_pos reps_active close_reps ly_state rep_end rep_start].
  rewrite (proj2 (Nat.ltb_lt _ _)) by (cbn; lia). by rewrite (proj2 (Z.ltb_lt _ _)) by done.
Qed.

Lemma loop_line f active re rs pos s l : lines !! pos = Some l -> l_indent l = length active ->
  layout_loop lines global_reps (S f) (mkLayout active re rs pos s) =
  (st ← layout_line global_reps l (mkLayout active re rs pos s); layout_loop lines global_reps f st).
Proof.
  intros Hl Hi. cbn [layout_loop]. rewrite cur_indent_at by (unfold indent_at; cbn; rewrite Hl; lia). cbn [mbind outcome_bind reps_active ly_pos].
  replace (indent_at pos) with (length active) by (unfold indent_at; by rewrite Hl). rewrite close_reps_done. cbn [mbind outcome_bind ly_pos rep_end rep_start ly_state]. by rewrite Hl.
Qed.

Lemma loop_indent f active re rs pos s l : lines !! pos = Some l -> (length active < l_indent l)%nat ->
  layout_loop lines global_reps (S f) (mkLayout active re rs pos s) = inl E_indent.
Proof. intros Hl Hi. cbn [layout_loop]. unfold cur_indent. cbn. rewrite Hl. unfold reg_check. by rewrite (proj2 (Nat.leb_gt _ _)). Qed.

(** What a body leaves alone. *)
Definition keeps (active : list nat) (s s' : lstate) : Prop :=
  length (ls_values s') = length (ls_values s) /\ (forall r, r ∈ active -> ls_values s' !! r = ls_values s !! r).

Lemma keeps_refl active s : keeps active s s.
Proof. done. Qed.
Lemma keeps_trans active s1 s2 s3 : keeps active s1 s2 -> keeps active s2 s3 -> keeps active s1 s3.
Proof. intros [H1 H2] [H3 H4]. split; [congruence |]. intros r Hr. rewrite H4, H2; done. Qed.
Lemma keeps_set active rep v s : rep ∉ active -> keeps active s (set_rep rep v s).
Proof. intros Hr. split; cbn; [by rewrite length_insert |]. intros r Hi. rewrite list_lookup_insert_ne; [done |]. by intros <-. Qed.

Lemma times_keeps body rep active k i s s' : rep ∉ active -> (forall s s', body s = inr s' -> keeps active s s') ->
  times body rep k i s = inr s' -> keeps active s s'.
Proof.
  intros Hr Hb. revert i s. induction k as [| k IH]; intros i s; cbn; [intros [= <-]; apply keeps_refl |].
  destruct (body (set_rep rep i s)) as [e | s1] eqn:E; cbn [mbind outcome_bind]; [done |]. intros Ht. eapply keeps_trans; [| eapply IH, Ht]. eapply keeps_trans; [by apply keeps_set | by apply Hb].
Qed.

Lemma pragma_check_nested active rep off s : pragma_check global_reps active rep off s = inr tt -> rep ∉ active.
Proof.
  unfold pragma_check, reg_check. destruct (existsb (Nat.eqb rep) active) eqn:E; cbn [negb mbind outcome_bind]; [done |]. intros _ Hr.
  apply not_true_iff_false in E. apply E, existsb_exists. exists rep. split; [by apply list_elem_of_In | apply Nat.eqb_refl].
Qed.

Lemma unroll_keeps n active pos ls s s' : unroll global_reps n active pos ls s = inr s' -> keeps active s s'.
Proof.
  revert active pos ls s s'. induction n as [| n IH]; intros active pos ls s s'; [done |]. destruct ls as [| l ls]; cbn [unroll]; [intros [= <-]; apply keeps_refl |].
  destruct (reg_check (l_indent l =? _)%nat _) as [e | []]; cbn [mbind outcome_bind]; [done |]. destruct (l_body l) as [rep off off_end | name val al size flags].
  - destruct (pragma_check _ _ _ _ _) as [e | []] eqn:Hp; cbn [mbind outcome_bind]; [done |]. apply pragma_check_nested in Hp. destruct (rep =? REP_SYNC)%nat.
    + destruct (reg_check _ _) as [e | []]; cbn [mbind outcome_bind]; [done |]. intros Hk%IH. exact Hk.
    + destruct (times _ _ _ _ _) as [e | s1] eqn:Ht; cbn [mbind outcome_bind]; [done |]. destruct (reg_check _ _) as [e | []]; cbn [mbind outcome_bind]; [done |]. intros Hk%IH.
      apply (times_keeps _ _ active) in Ht; [| done |]; [by eapply keeps_trans, Hk; eapply keeps_trans, keeps_set |].
      intros s2 s3 [H1 H2]%IH. split; [done |]. intros r Hr. apply H2. by constructor.
  - intros Hk%IH. exact Hk.
Qed.

(** The loop, started at [pos] with the repetitions [active], reaches [pos'] with
    the same repetitions in the state [r], or stops with the error [r]. *)
Definition reaches (active : list nat) (pos : nat) (re : nat -> Z) (rs : nat -> nat) (s : lstate) (pos' : nat) (r : reg_outcome lstate) : Prop :=
  exists k re' rs', (forall x, x ∈ active -> re' x = re x /\ rs' x = rs x) /\
    forall f, layout_loop lines global_reps (k + S f) (mkLayout active re rs pos s) =
      (s' ← r; layout_loop lines global_reps (S f) (mkLayout active re' rs' pos' s')).

Lemma reaches_here active pos re rs s : reaches active pos re rs s pos (inr s).
Proof. exists 0%nat, re, rs. done. Qed.

Lemma reaches_line active pos re rs s l st pos' r : lines !! pos = Some l -> l_indent l = length active ->
  layout_line global_reps l (mkLayout active re rs pos s) = inr (mkLayout active re rs (S pos) st) ->
  reaches active (S pos) re rs st pos' r -> reaches active pos re rs s pos' r.
Proof.
  intros Hl Hi Hs (k & re' & rs' & Ha & Hf). exists (S k), re', rs'. split; [done |]. intros f. cbn [Nat.add]. rewrite (loop_line _ _ _ _ _ _ l), Hs by done. apply Hf.
Qed.

Lemma reaches_error active pos re rs s l e pos' : lines !! pos = Some l -> l_indent l = length active ->
  layout_line global_reps l (mkLayout active re rs pos s) = inl e -> reaches active pos re rs s pos' (inl e).
Proof. intros Hl Hi He. exists 0%nat, re, rs. split; [done |]. intros f. cbn [Nat.add]. by rewrite (loop_line _ _ _ _ _ _ l), He by done. Qed.

(** A repetition, from its first covered line. *)
Lemma reaches_times body rep active pos pos' j i re rs s : rep ∉ active -> (rep < REP_SYNC)%nat -> (indent_at pos' <= length active)%nat ->
  (forall re rs s, length (ls_values s) = NUM_REP -> reaches (rep :: active) (S pos) re rs s pos' (body s)) ->
  (forall s s', body s = inr s' -> keeps (rep :: active) s s') ->
  0 <= i -> i + Z.of_nat j + 1 = num_reps rep -> rs rep = pos -> length (ls_values s) = NUM_REP ->
  exists k re' rs', (forall x, x ∈ active -> re' x = re x /\ rs' x = rs x) /\
    forall f, layout_loop lines global_reps (k + S f) (mkLayout (rep :: active) re rs (S pos) (set_rep rep i s)) =
      (s' ← times body rep (S j) i s;
       _ ← reg_check (nonzero_rep s' active || (re rep =? ls_offset s')) E_end_offset;
       layout_loop lines global_reps (S f) (mkLayout active re' rs' pos' (set_rep rep 0 s'))).
Proof.
  intros Hr Hb Hi Hbody Hk. pose proof (num_reps_bound rep Hb) as Hn. revert i re rs s. induction j as [| j IH]; intros i re rs s H0 Hj Hs Hl;
    (destruct (Hbody re rs (set_rep rep i s)) as (k & re1 & rs1 & Ha & Hf); [cbn; by rewrite length_insert |]); cbn [times];
    (destruct (body (set_rep rep i s)) as [e | s1] eqn:E; cbn [mbind outcome_bind] in *; [exists k, re, rs; split; [done |]; intros f; apply Hf |]);
    destruct (Hk _ _ E) as [Hl1 Hv1]; cbn in Hl1; rewrite length_insert in Hl1;
    (assert (rep_val s1 rep = i) as Hv by (unfold rep_val; rewrite Hv1 by constructor; cbn; rewrite list_lookup_insert_eq; [done | unfold NUM_REP, REP_SYNC in *; lia]));
    (assert (u8 (rep_val s1 rep + 1) = i + 1) as Hu by (rewrite Hv; apply u8_small; lia)); destruct (Ha rep) as [Ha1 Ha2]; [by constructor | | by constructor |].
  - exists k, re1, rs1. split; [intros x Hx; apply Ha; by constructor |]. intros f. rewrite Hf, loop_pop by (done || lia). by rewrite Ha1.
  - destruct (IH (i + 1) re1 rs1 s1) as (k2 & re2 & rs2 & Hb2 & Hf2); [lia | lia | congruence | congruence |].
    exists (k + S k2)%nat, re2, rs2. split; [intros x Hx; destruct (Hb2 x Hx) as [-> ->]; apply Ha; by constructor |]. intros f.
    replace (k + S k2 + S f)%nat with (k + S (k2 + S f))%nat by lia. rewrite Hf, loop_again by (done || lia). rewrite Hu, Ha2, Hs, Nat.add_1_r, <- Ha1. apply Hf2.
Qed.

Lemma covered_drop d ls : ls = covered d ls ++ drop (length (covered d ls)) ls.
Proof. induction ls as [| l ls IH]; cbn [covered]; [done |]. destruct (d <? l_indent l)%nat; cbn; [by f_equal | done]. Qed.
Lemma covered_indent d ls : Forall (fun l => S d <= l_indent l)%nat (covered d ls).
Proof. induction ls as [| l ls IH]; cbn [covered]; [constructor |]. destruct (d <? l_indent l)%nat eqn:E; constructor; [| done]. apply Nat.ltb_lt in E. lia. Qed.
Lemma covered_next d ls l : ls !! length (covered d ls) = Some l -> (l_indent l <= d)%nat.
Proof. induction ls as [| l' ls IH]; cbn [covered]; [done |]. destruct (d <? l_indent l')%nat eqn:E; cbn; [done |]. intros [= ->]. by apply Nat.ltb_ge in E. Qed.

(** [ls] are the lines from [pos] on. *)
Definition lines_at (pos : nat) (ls : list line) : Prop := forall i l, ls !! i = Some l -> lines !! (pos + i)%nat = Some l.

Lemma lines_at_cons pos l ls : lines_at pos (l :: ls) -> lines !! pos = Some l /\ lines_at (S pos) ls.
Proof.
  intros H. split; [rewrite <- (H 0%nat l eq_refl); f_equal; lia |]. intros i l' Hi. rewrite <- (H (S i) l' Hi). f_equal. lia.
Qed.
Lemma lines_at_app pos ls1 ls2 : lines_at pos (ls1 ++ ls2) -> lines_at pos ls1 /\ lines_at (pos + length ls1) ls2.
Proof.
  intros H. split; intros i l Hi; [apply H; by apply lookup_app_l_Some |]. rewrite <- (H (length ls1 + i)%nat l); [f_equal; lia |].
  rewrite lookup_app_r by lia. rewrite <- Hi. f_equal. lia.
Qed.

Definition pragma_ok (l : line) : Prop := match l_body l with LINE_PRAGMA rep _ _ => (rep < NUM_REP)%nat | LINE_FIELD _ _ _ _ _ => True end.

Lemma indent_at_covered pos ls d : lines_at pos ls -> (indent_at (pos + length ls) <= d)%nat -> (indent_at (pos + length (covered d ls)) <= d)%nat.
Proof.
  intros Ha Hn. destruct (ls !! length (covered d ls)) as [l |] eqn:E.
  - unfold indent_at. rewrite (Ha _ _ E). by apply covered_next in E.
  - apply lookup_ge_None in E. pose proof (f_equal length (covered_drop d ls)) as Hc. rewrite length_app in Hc. by replace (length (covered d ls)) with (length ls) by lia.
Qed.

(** A repetition pragma starts a repetition. *)
Lemma loop_push f active re rs pos s l rep off off_end : lines !! pos = Some l -> l_indent l = length active -> l_body l = LINE_PRAGMA rep off off_end ->
  pragma_check global_reps active rep off s = inr tt -> rep <> REP_SYNC -> (length active + 1 < NUM_REP)%nat ->
  layout_loop lines global_reps (S f) (mkLayout active re rs pos s) =
  layout_loop lines global_reps f (mkLayout (rep :: active) (<[rep := off_end]> re) (<[rep := pos]> rs) (S pos) (set_rep rep 0 s)).
Proof.
  intros Hl Hi Hb Hp Hr Ha. rewrite (loop_line _ _ _ _ _ _ l) by done. unfold layout_line. rewrite Hb. cbn [reps_active ly_state]. rewrite Hp. cbn [mbind outcome_bind].
  rewrite (proj2 (Nat.eqb_neq _ _) Hr). cbn [negb]. unfold reg_check. by rewrite (proj2 (Nat.ltb_lt _ _) Ha).
Qed.

(** A repetition and what follows it; the lines are given by what they do. *)
Lemma reaches_rep body next active re rs pos pos' pos2 s l rep off off_end : lines !! pos = Some l -> l_indent l = length active -> l_body l = LINE_PRAGMA rep off off_end ->
  pragma_check global_reps active rep off s = inr tt -> (rep < REP_SYNC)%nat -> (length active < REP_SYNC)%nat -> (indent_at pos' <= length active)%nat -> length (ls_values s) = NUM_REP ->
  (forall re rs s, length (ls_values s) = NUM_REP -> reaches (rep :: active) (S pos) re rs s pos' (body s)) ->
  (forall s s', body s = inr s' -> keeps (rep :: active) s s') ->
  (forall re rs s, length (ls_values s) = NUM_REP -> reaches active pos' re rs s pos2 (next s)) ->
  reaches active pos re rs s pos2
    (s ← times body rep (Z.to_nat (num_reps rep)) 0 s; _ ← reg_check (nonzero_rep s active || (off_end =? ls_offset s)) E_end_offset; next (set_rep rep 0 s)).
Proof.
  intros Hl Hi Hb Hp Hr Ha Hind Hlen Hbody Hkeep Hnext. pose proof (pragma_check_nested _ _ _ _ Hp) as Hn. pose proof (num_reps_bound rep Hr) as Hnr.
  destruct (reaches_times body rep active pos pos' (Z.to_nat (num_reps rep - 1)) 0 (<[rep := off_end]> re) (<[rep := pos]> rs) s) as (k1 & re1 & rs1 & Ha1 & Hf1);
    [done | done | done | done | done | lia | lia | apply fn_lookup_insert | done |].
  replace (S (Z.to_nat (num_reps rep - 1))) with (Z.to_nat (num_reps rep)) in Hf1 by lia. rewrite fn_lookup_insert in Hf1.
  assert (forall f, layout_loop lines global_reps (S f) (mkLayout active re rs pos s) = _) as Hpush
    by (intros f; apply (loop_push f active re rs pos s l rep off off_end); unfold NUM_REP, REP_SYNC in *; done || lia).
  destruct (times body rep _ 0 s) as [e | s1] eqn:Et; cbn [mbind outcome_bind] in *; [exists (S k1), re, rs; split; [done |]; intros f; cbn [Nat.add]; rewrite Hpush, Hf1; done |].
  destruct (reg_check _ E_end_offset) as [e | []]; cbn [mbind outcome_bind] in *; [exists (S k1), re, rs; split; [done |]; intros f; cbn [Nat.add]; rewrite Hpush, Hf1; done |].
  assert (keeps active s s1) as [Hk1 _].
  { apply (times_keeps _ _ active) in Et; [done | done |]. intros s2 s3 [H1 H2]%Hkeep. split; [done |]. intros r Hr'. apply H2. by constructor. }
  destruct (Hnext re1 rs1 (set_rep rep 0 s1)) as (k2 & re2 & rs2 & Ha2 & Hf2); [cbn; rewrite length_insert; congruence |].
  exists (S (k1 + k2)), re2, rs2. split.
  - intros x Hx. destruct (Ha2 x Hx) as [-> ->], (Ha1 x Hx) as [-> ->]. rewrite !fn_lookup_insert_ne by (by intros ->). done.
  - intros f. destruct (k2 + S f)%nat as [| g] eqn:Eg; [lia |]. replace (S (k1 + k2) + S f)%nat with (S (k1 + S g)) by lia. by rewrite Hpush, Hf1, <- Eg, Hf2.
Qed.

Lemma unroll_reaches n active pos ls re rs s : (length ls < n)%nat -> lines_at pos ls -> (indent_at (pos + length ls) <= length active)%nat ->
  Forall (fun l => length active <= l_indent l)%nat ls -> Forall pragma_ok ls -> NoDup active -> Forall (fun r => r < REP_SYNC)%nat active ->
  length (ls_values s) = NUM_REP -> reaches active pos re rs s (pos + length ls) (unroll global_reps n active pos ls s).
Proof.
  revert active pos ls re rs s. induction n as [| n IH]; intros active pos ls re rs s Hn Hat Hnext Hind Hok Hnd Hact Hlen; [lia |].
  destruct ls as [| l ls]; cbn [unroll length]; [rewrite Nat.add_0_r; apply reaches_here |]. cbn [length] in *.
  apply lines_at_cons in Hat as [Hl Hat]. inversion Hind as [| ? ? Hi Hind']; subst. inversion Hok as [| ? ? Hp Hok']; subst. unfold reg_check at 1.
  destruct (Nat.eqb_spec (l_indent l) (length active)) as [Ei | Ei]; cbn [mbind outcome_bind].
  2:{ exists 0%nat, re, rs. split; [done |]. intros f. cbn [Nat.add]. rewrite (loop_indent _ _ _ _ _ _ l) by (done || lia). done. }
  rewrite Nat.add_succ_r in Hnext |- *. fold (S pos + length ls)%nat in Hnext |- *.
  destruct (l_body l) as [rep off off_end | name val al size flags] eqn:Eb.
  2:{ eapply reaches_line; [done | done | unfold layout_line; rewrite Eb; done |]. apply IH; cbn; (done || lia). }
  destruct (pragma_check global_reps active rep off s) as [e | []] eqn:Ep; cbn [mbind outcome_bind].
  { apply (reaches_error _ _ _ _ _ l); [done | done |]. unfold layout_line. rewrite Eb. cbn. by rewrite Ep. }
  destruct (Nat.eqb_spec rep REP_SYNC) as [Er | Er].
  { unfold reg_check. destruct (length active =? 0)%nat eqn:E0; cbn [mbind outcome_bind].
    - eapply reaches_line; [done | done | unfold layout_line; rewrite Eb; cbn; rewrite Ep; cbn; rewrite (proj2 (Nat.eqb_eq _ _) Er), E0; done |]. apply IH; cbn; (done || lia).
    - apply (reaches_error _ _ _ _ _ l); [done | done |]. unfold layout_line. rewrite Eb. cbn. rewrite Ep. cbn. by rewrite (proj2 (Nat.eqb_eq _ _) Er), E0. }
  apply pragma_check_nested in Ep as Hr. unfold pragma_ok in Hp. rewrite Eb in Hp. assert (rep < REP_SYNC)%nat as Hb by (unfold NUM_REP, REP_SYNC in *; lia).
  pose proof (reps_active_bound (rep :: active) ltac:(by constructor) ltac:(by constructor)) as Hlt. cbn [length] in Hlt.
  set (body := covered (length active) ls). pose proof (covered_drop (length active) ls) as Hc. fold body in Hc. set (ls' := drop (length body) ls) in *.
  pose proof (indent_at_covered _ _ _ Hat Hnext) as Hbn. fold body in Hbn. pose proof Hat as Hsplit. rewrite Hc in Hsplit. apply lines_at_app in Hsplit as [Hat1 Hat2].
  assert (length ls = length body + length ls')%nat as Hll by (rewrite Hc at 1; apply length_app).
  rewrite Hc, Forall_app in Hok', Hind'. destruct Hok' as [Hok1 Hok2], Hind' as [Hind1 Hind2].
  apply (reaches_rep _ (unroll global_reps n active (S pos + length body) ls') _ _ _ _ (S pos + length body) _ _ l _ off off_end); try done.
  - intros re0 rs0 s0 Hs0. apply IH; [lia | done | cbn [length]; lia | apply covered_indent | done | by constructor | by constructor | done].
  - intros s0 s1. apply unroll_keeps.
  - intros re0 rs0 s0 Hs0. rewrite Hll, Nat.add_assoc. apply IH; [lia | done | by rewrite <- Nat.add_assoc, <- Hll | done | done | done | done | done].
Qed.
End Unroll.

(** Errors of a layout. *)
Definition layout_error (e : reg_error) : Prop := e = E_indent \/ e = E_nested \/ e = E_start_offset \/ e = E_global \/ e = E_sync \/ e = E_end_offset.

Lemma times_error body rep k i s e (P : reg_error -> Prop) : (forall s e, body s = inl e -> P e) -> times body rep k i s = inl e -> P e.
Proof.
  intros Hb. revert i s. induction k as [| k IH]; intros i s; cbn; [done |]. destruct (body _) as [e' | s'] eqn:E; cbn [mbind outcome_bind]; [| apply IH]. intros [= <-]. by eapply Hb.
Qed.

Lemma unroll_error global_reps n active pos ls s e : (length ls < n)%nat -> unroll global_reps n active pos ls s = inl e -> layout_error e.
Proof.
  unfold layout_error. revert active pos ls s e. induction n as [| n IH]; intros active pos ls s e Hn; [lia |]. destruct ls as [| l ls]; cbn [unroll length] in *; [done |].
  unfold reg_check at 1. destruct (l_indent l =? _)%nat; cbn [mbind outcome_bind]; [| intros [= <-]; auto]. destruct (l_body l) as [rep off off_end | ]; [| apply IH; lia].
  destruct (pragma_check _ _ _ _ _) as [e' | []] eqn:Hp; cbn [mbind outcome_bind].
  { intros [= <-]. unfold pragma_check, reg_check in Hp. destruct (existsb _ _); cbn [negb mbind outcome_bind] in Hp; [injection Hp as <-; tauto |].
    destruct (nonzero_rep _ _ || _); cbn [mbind outcome_bind] in Hp; [| injection Hp as <-; tauto]. destruct (flag _ _); [injection Hp as <-; tauto | done]. }
  destruct (rep =? REP_SYNC)%nat.
  { unfold reg_check. destruct (_ =? 0)%nat; cbn [mbind outcome_bind]; [apply IH; lia |]. intros [= <-]. tauto. }
  pose proof (f_equal length (covered_drop (length active) ls)) as Hc. rewrite length_app in Hc.
  destruct (times _ _ _ _ _) as [e' | s1] eqn:Ht; cbn [mbind outcome_bind].
  { intros [= <-]. apply (times_error _ _ _ _ _ _ (fun e => e = E_indent \/ e = E_nested \/ e = E_start_offset \/ e = E_global \/ e = E_sync \/ e = E_end_offset)) in Ht; [done |].
    intros s0 e1. apply IH. lia. }
  unfold reg_check. destruct (nonzero_rep _ _ || _); cbn [mbind outcome_bind]; [apply IH; lia |]. intros [= <-]. tauto.
Qed.

Lemma layout_fields_returns lines global_reps values : Forall pragma_ok lines -> length values = NUM_REP ->
  exists rounds, forall fuel, (rounds <= fuel)%nat -> layout_fields lines global_reps fuel values = unroll global_reps (S (length lines)) [] 0 lines (mkL values 0 []).
Proof.
  intros Hok Hl.
  destruct (unroll_reaches lines global_reps (S (length lines)) [] 0 lines (fun _ => 0) (fun _ => 0%nat) (mkL values 0 [])) as (k & re & rs & _ & Hf); try done.
  - lia.
  - by intros i l Hi.
  - unfold indent_at. cbn [Nat.add]. by rewrite (proj2 (lookup_ge_None lines (length lines))) by lia.
  - rewrite Forall_forall. intros; cbn; lia.
  - constructor.
  - exists (S k). intros fuel Hfu. unfold layout_fields. replace fuel with (k + S (fuel - S k))%nat by lia. rewrite Hf. destruct (unroll _ _ _ _ _ _) as [e | s]; [done |].
    cbn. unfold cur_indent. cbn. by rewrite (proj2 (lookup_ge_None lines (length lines))) by lia.
Qed.

(** *** The lengths of packed fields

    The documentation of [PACKED_BIT] also has a rule that the code does not
    check: the subfields that follow a packed field, possibly in repetitions,
    have together the length of that field.  [documented] is unrolling with this
    rule: the second part of the state is where the packed field that is being
    described ends, and the result is [None] when a field that is no subfield, a
    sync line or the end of the description comes at another place. *)
Definition doc (X : Type) : Type := option (reg_outcome X).
Definition doc_bind {X Y} (m : doc X) (k : X -> doc Y) : doc Y :=
  match m with None => None | Some (inl e) => Some (inl e) | Some (inr x) => k x end.
Definition packed_end : Type := option Z.
Definition packed_done (p : packed_end) (s : lstate) : doc unit :=
  match p with Some e => if e =? ls_offset s then Some (inr tt) else None | None => Some (inr tt) end.

Definition doc_field (pos : nat) (active : list nat) (alignment size flags : Z) (x : lstate * packed_end) : doc (lstate * packed_end) :=
  let s := layout_field pos active alignment size flags x.1 in
  if flag flags (Z.shiftl 1 SUBFIELD_BIT) then Some (inr (s, x.2))
  else doc_bind (packed_done x.2 x.1) (fun _ =>
    Some (inr (s, if flag flags (Z.shiftl 1 PACKED_BIT) then Some (ls_offset s + size) else None))).

Fixpoint doc_times (body : lstate * packed_end -> doc (lstate * packed_end)) (rep : nat) (k : nat) (i : Z) (x : lstate * packed_end)
    : doc (lstate * packed_end) :=
  match k with
  | O => Some (inr x)
  | S k => doc_bind (body (set_rep rep i x.1, x.2)) (doc_times body rep k (i + 1))
  end.

Fixpoint doc_unroll (global_reps : Z) (fuel : nat) (active : list nat) (pos : nat) (ls : list line) (x : lstate * packed_end)
    : doc (lstate * packed_end) :=
  match fuel, ls with
  | O, _ => Some (inl E_fuel)
  | _, [] => Some (inr x)
  | S fuel, l :: ls =>
      doc_bind (Some (reg_check (l_indent l =? length active)%nat E_indent)) (fun _ =>
      match l_body l with
      | LINE_FIELD _ _ alignment size flags =>
          doc_bind (doc_field pos active alignment size flags x) (doc_unroll global_reps fuel active (S pos) ls)
      | LINE_PRAGMA rep offset_start offset_end =>
          doc_bind (Some (pragma_check global_reps active rep offset_start x.1)) (fun _ =>
          if (rep =? REP_SYNC)%nat then
            doc_bind (Some (reg_check (length active =? 0)%nat E_sync)) (fun _ =>
            doc_bind (packed_done x.2 x.1) (fun _ =>
            doc_unroll global_reps fuel active (S pos) ls (mkL (ls_values x.1) offset_end (ls_fields x.1), None)))
          else
            let body := covered (length active) ls in
            doc_bind (doc_times (doc_unroll global_reps fuel (rep :: active) (S pos) body) rep (Z.to_nat (num_reps rep)) 0 x) (fun x =>
            doc_bind (Some (reg_check (nonzero_rep x.1 active || (offset_end =? ls_offset x.1)) E_end_offset)) (fun _ =>
            doc_unroll global_reps fuel active (S pos + length body) (drop (length body) ls) (set_rep rep 0 x.1, x.2))))
      end)
  end.

Definition documented (lines : list line) (global_reps : Z) (values : list Z) : doc lstate :=
  doc_bind (doc_unroll global_reps (S (length lines)) [] 0 lines (mkL values 0 [], None)) (fun x =>
  doc_bind (packed_done x.2 x.1) (fun _ => Some (inr x.1))).

(** Where the rule on packed fields is kept, it changes nothing. *)
Definition agrees {X} (d : doc (X * packed_end)) (r : reg_outcome X) : Prop :=
  match d with None => True | Some (inl e) => r = inl e | Some (inr x) => r = inr x.1 end.

Lemma doc_times_agrees body body' rep k i x : (forall x, agrees (body x) (body' x.1)) -> agrees (doc_times body rep k i x) (times body' rep k i x.1).
Proof.
  intros Hb. induction k as [| k IH] in i, x |- *; cbn [doc_times times]; [done |]. specialize (Hb (set_rep rep i x.1, x.2)). cbn [fst] in Hb.
  destruct (body _) as [[e | y] |]; cbn [doc_bind agrees] in *; [by rewrite Hb | rewrite Hb; apply IH | done].
Qed.

Lemma doc_unroll_agrees global_reps fuel active pos ls x :
  agrees (doc_unroll global_reps fuel active pos ls x) (unroll global_reps fuel active pos ls x.1).
Proof.
  induction fuel as [| fuel IH] in active, pos, ls, x |- *; [done |]. destruct ls as [| l ls]; [done |]. cbn [doc_unroll unroll].
  destruct (reg_check _ _) as [| []]; cbn [doc_bind mbind outcome_bind]; [done |]. destruct (l_body l) as [rep off off_end | name val al size flags].
  - destruct (pragma_check _ _ _ _ _) as [| []]; cbn [doc_bind mbind outcome_bind]; [done |]. destruct (rep =? REP_SYNC)%nat.
    + destruct (reg_check _ _) as [| []]; cbn [doc_bind mbind outcome_bind]; [done |].
      destruct (packed_done x.2 x.1) as [[? | []] |] eqn:Hp; cbn [doc_bind]; [unfold packed_done in Hp; by repeat case_match | apply IH | done].
    + pose proof (doc_times_agrees (doc_unroll global_reps fuel (rep :: active) (S pos) (covered (length active) ls)) _ rep (Z.to_nat (num_reps rep)) 0 x
        (IH (rep :: active) (S pos) (covered (length active) ls))) as Ht.
      destruct (doc_times _ _ _ _ _) as [[e | y] |]; cbn [doc_bind agrees] in *; [by rewrite Ht | | done]. rewrite Ht. cbn [mbind outcome_bind].
      destruct (reg_check _ _) as [| []]; cbn [doc_bind mbind outcome_bind]; [done |]. apply (IH _ _ _ (set_rep rep 0 y.1, y.2)).
  - unfold doc_field. destruct (flag flags (Z.shiftl 1 SUBFIELD_BIT)); cbn [doc_bind]; [apply (IH _ _ _ (_, x.2)) |].
    destruct (packed_done x.2 x.1) as [[? | []] |] eqn:Hp; cbn [doc_bind]; [unfold packed_done in Hp; by repeat case_match | | done].
    apply (IH _ _ _ (layout_field pos active al size flags x.1, _)).
Qed.

(** C22: Registers are laid out as documented.  Whatever lines were read, if the
    subfields of packed fields have together the lengths of these fields, then
    [layout_fields] returns and gives what unrolling the nested repetitions
    gives, each covered line once for every value of the variable and with the
    offsets checked the first time, or it stops with the error of the first line
    that breaks a rule; its assertion does not fail.  Only a packed field with
    another length, which the documentation says is checked, is not noticed
    ([packed_length_unchecked]). *)
Theorem layout_fields_correct lines global_reps values r : Forall pragma_ok lines -> length values = NUM_REP ->
  documented lines global_reps values = Some r ->
  (exists rounds, forall fuel, (rounds <= fuel)%nat -> layout_fields lines global_reps fuel values = r) /\
  match r with inl e => layout_error e | inr _ => True end.
Proof.
  intros Hok Hl Hr. assert (unroll global_reps (S (length lines)) [] 0 lines (mkL values 0 []) = r) as Hu.
  { pose proof (doc_unroll_agrees global_reps (S (length lines)) [] 0 lines (mkL values 0 [], None)) as Ha. unfold documented in Hr.
    destruct (doc_unroll _ _ _ _ _ _) as [[e | x] |]; cbn [doc_bind agrees fst] in *; [by injection Hr as <- | | done].
    rewrite Ha. destruct (packed_done x.2 x.1) as [[? | []] |] eqn:Hp; cbn [doc_bind] in Hr; [unfold packed_done in Hp; by repeat case_match | by injection Hr as <- | done]. }
  rewrite <- Hu. split; [by apply layout_fields_returns |]. destruct (unroll _ _ _ _ _ _) as [e |] eqn:E; [| done]. by apply unroll_error in E; [| lia].
Qed.

(** ** Where fields are placed *)
Lemma ordered_pairs {A} (R : A -> A -> Prop) l i j f g : ForallOrdPairs R l -> (i < j)%nat -> l !! i = Some f -> l !! j = Some g -> R f g.
Proof.
  intros H. revert i j. induction H as [| x l Hx H IH]; intros i j Hij; [done |]. destruct j as [| j]; [lia |]. destruct i as [| i]; cbn.
  - intros [= <-] Hg. rewrite List.Forall_forall in Hx. apply Hx. apply list_elem_of_In. by apply list_elem_of_lookup_2 in Hg.
  - apply IH. lia.
Qed.

Section Placement.
Context (lines : list line) (global_reps : Z).

Section Invariant.
Context (P : lstate -> Prop).
Hypothesis P_set : forall s rep v, P s -> P (set_rep rep v s).
Hypothesis P_field : forall pos active l name val al size flags s, lines !! pos = Some l -> l_body l = LINE_FIELD name val al size flags ->
  P s -> P (layout_field pos active al size flags s).
Hypothesis P_sync : forall pos l off off_end s, lines !! pos = Some l -> l_body l = LINE_PRAGMA REP_SYNC off off_end -> ls_offset s = off ->
  P s -> P (mkL (ls_values s) off_end (ls_fields s)).

Lemma times_inv body rep k i s s' : (forall s s', P s -> body s = inr s' -> P s') -> P s -> times body rep k i s = inr s' -> P s'.
Proof.
  intros Hb. revert i s. induction k as [| k IH]; intros i s Hs; cbn; [by intros [= <-] |].
  destruct (body _) as [e | s1] eqn:E; cbn [mbind outcome_bind]; [done |]. apply IH, (Hb _ _ (P_set _ _ _ Hs) E).
Qed.

Lemma unroll_inv n active pos ls s s' : lines_at lines pos ls -> P s -> unroll global_reps n active pos ls s = inr s' -> P s'.
Proof.
  revert active pos ls s s'. induction n as [| n IH]; intros active pos ls s s' Hat Hs; [done |]. destruct ls as [| l ls]; cbn [unroll]; [by intros [= <-] |].
  apply lines_at_cons in Hat as [Hl Hat]. destruct (reg_check (l_indent l =? _)%nat _) as [e | []]; cbn [mbind outcome_bind]; [done |].
  destruct (l_body l) as [rep off off_end | name val al size flags] eqn:Eb; [| by apply IH, (P_field _ _ _ _ _ _ _ _ _ Hl Eb)].
  destruct (pragma_check _ _ _ _ _) as [e | []] eqn:Hp; cbn [mbind outcome_bind]; [done |]. destruct (Nat.eqb_spec rep REP_SYNC) as [-> | _].
  - unfold reg_check. destruct (Nat.eqb_spec (length active) 0) as [E0 | _]; cbn [mbind outcome_bind]; [| done]. apply nil_length_inv in E0 as ->.
    apply IH; [done |]. apply (P_sync _ _ _ _ _ Hl Eb); [| done]. unfold pragma_check, reg_check in Hp. cbn in Hp. destruct (Z.eqb_spec (ls_offset s) off); done.
  - destruct (times _ _ _ _ _) as [e | s1] eqn:Ht; cbn [mbind outcome_bind]; [done |]. destruct (reg_check _ _) as [e | []]; cbn [mbind outcome_bind]; [done |].
    rewrite (covered_drop (length active) ls) in Hat. apply lines_at_app in Hat as [Hat1 Hat2]. apply IH; [done |]. apply P_set. revert Ht. apply times_inv; [| done].
    intros s2 s3. by apply IH.
Qed.
End Invariant.

(** What [read_lines] guarantees for a field line. *)
Definition spec_ok (al size : Z) : Prop := (al = 1 \/ al = 8 \/ al = 16 \/ al = 32) /\ 1 <= size <= 32.

Lemma align_up cur k : 0 <= k <= 5 -> 0 <= cur -> Z.land (cur + 2 ^ k - 1) (Z.lnot (u16 (2 ^ k - 1))) = (cur + 2 ^ k - 1) / 2 ^ k * 2 ^ k.
Proof.
  intros Hk Hc. rewrite u16_small by (assert (2 ^ k <= 2 ^ 5) by (apply Z.pow_le_mono_r; lia); lia). rewrite <- Z.ldiff_land. replace (2 ^ k - 1) with (Z.ones k) by (rewrite Z.ones_equiv; lia).
  rewrite Z.ldiff_ones_r by lia. rewrite Z.shiftr_div_pow2, Z.shiftl_mul_pow2 by lia. reflexivity.
Qed.

Lemma spec_ok_pow al size : spec_ok al size -> exists k, 0 <= k <= 5 /\ al = 2 ^ k.
Proof. intros [[-> | [-> | [-> | ->]]] _]; [exists 0 | exists 3 | exists 4 | exists 5]; (split; [lia | done]). Qed.

Lemma u16_divide d x : (d | 2 ^ 16) -> (d | x) -> (d | u16 x).
Proof. intros Hd Hx. unfold u16. rewrite Z.mod_eq by lia. apply Z.divide_sub_r; [done |]. by apply Z.divide_mul_l. Qed.

Lemma next_register a : Z.land a (Z.lnot 31) + 32 = (a / 32 + 1) * 32.
Proof. change 31 with (Z.ones 5). rewrite <- Z.ldiff_land, Z.ldiff_ones_r, Z.shiftr_div_pow2, Z.shiftl_mul_pow2 by lia. change (2 ^ 5) with 32. lia. Qed.

Lemma place_field_inside cur al size : spec_ok al size -> 0 <= cur ->
  let p := place_field cur al size in 0 <= p < 2 ^ 16 /\ (al | p) /\ p mod 32 + size <= 32.
Proof.
  intros Hs Hc p. subst p. unfold place_field. destruct (spec_ok_pow _ _ Hs) as (k & Hk & ->). destruct Hs as [_ Hsz]. cbv zeta. rewrite align_up, next_register by lia.
  set (a := u16 _). assert (0 <= a < 2 ^ 16) as Ha by apply u16_range.
  assert (2 ^ k | a) as Hd. { apply u16_divide; [| by apply Z.divide_mul_r]. exists (2 ^ (16 - k)). rewrite <- Z.pow_add_r by lia. f_equal. lia. }
  destruct (Z.eqb_spec ((a + size - 1) / 32) (a / 32)) as [E | E].
  - split; [done |]. split; [done |]. pose proof (Z.div_mod (a + size - 1) 32 ltac:(lia)). pose proof (Z.div_mod a 32 ltac:(lia)). pose proof (Z.mod_pos_bound (a + size - 1) 32 ltac:(lia)). lia.
  - assert (32 | u16 ((a / 32 + 1) * 32)) as Hb by (apply u16_divide; [by exists 2048 | by exists (a / 32 + 1)]).
    split; [apply u16_range |]. split; [| apply Z.mod_divide in Hb as ->; lia].
    destruct Hb as [c ->]. exists (c * 2 ^ (5 - k)). rewrite <- Z.mul_assoc, <- Z.pow_add_r by lia. replace (5 - k + k) with 5 by lia. done.
Qed.

(** Registers from 2044 on are not usable: the layout pointer would wrap around. *)
Definition offset_limit : Z := 65408.

Lemma place_field_above cur al size : spec_ok al size -> 0 <= cur <= offset_limit + 32 -> cur <= place_field cur al size.
Proof.
  unfold offset_limit. intros Hs Hc. unfold place_field. destruct (spec_ok_pow _ _ Hs) as (k & Hk & ->). destruct Hs as [_ Hsz]. cbv zeta. rewrite align_up, next_register by lia.
  assert (1 <= 2 ^ k <= 32) as Hp. { split; [pose proof (Z.pow_pos_nonneg 2 k); lia |]. change 32 with (2 ^ 5). apply Z.pow_le_mono_r; lia. }
  pose proof (Z.div_mod (cur + 2 ^ k - 1) (2 ^ k) ltac:(lia)) as Hdm. pose proof (Z.mod_pos_bound (cur + 2 ^ k - 1) (2 ^ k) ltac:(lia)) as Hm.
  set (a := (cur + 2 ^ k - 1) / 2 ^ k * 2 ^ k). assert (cur <= a <= cur + 31) as Ha by (unfold a; lia). rewrite (u16_small a) by lia.
  destruct (_ =? _); [lia |]. pose proof (Z.div_mod a 32 ltac:(lia)). pose proof (Z.mod_pos_bound a 32 ltac:(lia)). rewrite u16_small; lia.
Qed.

(** The bits that a field takes up; packed fields enclose the fields after them. *)
Definition field_spec (f : reg_field) : option (Z * Z * Z) :=
  match lines !! f_line f with
  | Some (mkLine _ _ (LINE_FIELD _ _ al size flags)) => Some (al, size, flags)
  | _ => None
  end.
Definition field_end (f : reg_field) : Z :=
  match field_spec f with
  | Some (_, size, flags) => if flag flags (Z.shiftl 1 PACKED_BIT) then f_offset f else f_offset f + size
  | None => f_offset f
  end.

(** A field is aligned, and within one register. *)
Definition field_inside (f : reg_field) : Prop :=
  match field_spec f with
  | Some (al, size, _) => 0 <= f_offset f < 2 ^ 16 /\ (al | f_offset f) /\ f_offset f mod 32 + size <= 32
  | None => False
  end.

(** What [read_lines] guarantees, and that the layout pointer is not moved back. *)
Definition line_ok (l : line) : Prop :=
  match l_body l with
  | LINE_FIELD _ _ al size _ => spec_ok al size
  | LINE_PRAGMA rep off off_end => (rep < NUM_REP)%nat /\ (rep = REP_SYNC -> 0 <= off <= off_end /\ off_end < offset_limit)
  end.

Lemma field_spec_at pos l name val al size flags fl off vs : lines !! pos = Some l -> l_body l = LINE_FIELD name val al size flags ->
  field_spec (mkField pos fl off vs) = Some (al, size, flags).
Proof. intros Hl Hb. unfold field_spec. cbn. rewrite Hl. destruct l as [? ? b]. cbn in Hb. by rewrite Hb. Qed.

(** Fields, the last first, do not overlap; the last ends at the layout pointer. *)
Definition placed (s : lstate) : Prop :=
  Forall field_inside (ls_fields s) /\ 0 <= ls_offset s /\
  (Forall (fun f => f_offset f < offset_limit) (ls_fields s) ->
   ForallOrdPairs (fun later earlier => field_end earlier <= f_offset later) (ls_fields s) /\ Forall (fun f => field_end f <= ls_offset s) (ls_fields s) /\
   ls_offset s <= offset_limit + 32).

Lemma placed_init values : placed (mkL values 0 []).
Proof. unfold placed, offset_limit. cbn. split; [constructor |]. split; [lia |]. intros _. split; [constructor |]. split; [constructor | lia]. Qed.

Lemma placed_field pos active l name val al size flags s : line_ok l -> lines !! pos = Some l -> l_body l = LINE_FIELD name val al size flags ->
  placed s -> placed (layout_field pos active al size flags s).
Proof.
  intros Hok Hl Hb (Hin & H0 & Hs). unfold line_ok in Hok. rewrite Hb in Hok. unfold layout_field. set (p := place_field _ _ _).
  pose proof (place_field_inside _ _ _ Hok H0) as Hp. cbv zeta in Hp. fold p in Hp. destruct Hok as [Hal Hsz]. set (f := mkField pos _ p _).
  assert (field_spec f = Some (al, size, flags)) as Hf by (by eapply field_spec_at).
  split; [cbn; constructor; [unfold field_inside; rewrite Hf; done | done] |]. cbn [ls_offset ls_fields].
  split; [destruct (flag _ _); [lia | apply u16_range] |]. inversion 1 as [| ? ? Hlim Hrest]; subst. cbn [f_offset f] in Hlim. destruct (Hs Hrest) as (Ho & He & Hu).
  assert (ls_offset s <= p) as Hge by (apply place_field_above; [done | lia]). unfold offset_limit in *.
  assert (field_end f = if flag flags (Z.shiftl 1 PACKED_BIT) then p else u16 (p + size)) as Hfe.
  { unfold field_end. rewrite Hf. cbn [f_offset f]. destruct (flag _ _); [done |]. rewrite u16_small; lia. }
  assert (Forall (fun g => field_end g <= p) (ls_fields s)) as Hall by (eapply Forall_impl; [| exact He]; cbn; intros; lia).
  rewrite <- Hfe. assert (p <= field_end f <= p + 32) by (unfold field_end; rewrite Hf; cbn [f_offset f]; destruct (flag _ _); lia).
  split; [constructor; done |]. split; [constructor; [lia |]; eapply Forall_impl; [| exact Hall]; cbn; intros; lia | lia].
Qed.

Lemma layout_loop_more f g st s : layout_loop lines global_reps f st = inr s -> layout_loop lines global_reps (f + g) st = inr s.
Proof.
  revert st. induction f as [| f IH]; intros st; [done |]. cbn [layout_loop Nat.add]. destruct (cur_indent _ _) as [e | ind]; cbn [mbind outcome_bind]; [done |].
  destruct (close_reps _ _ _) as [e | [st' | st']]; cbn [mbind outcome_bind]; [done | apply IH |]. destruct (lines !! _) as [l |]; [| done].
  destruct (layout_line _ _ _); cbn [mbind outcome_bind]; [done | apply IH].
Qed.

Lemma layout_fields_unroll values fuel s : Forall pragma_ok lines -> length values = NUM_REP -> layout_fields lines global_reps fuel values = inr s ->
  unroll global_reps (S (length lines)) [] 0 lines (mkL values 0 []) = inr s.
Proof.
  intros Hok Hl Hs. destruct (layout_fields_returns lines global_reps values Hok Hl) as (N & HN). rewrite <- (HN (fuel + N)%nat) by lia. by apply layout_loop_more.
Qed.

Lemma line_ok_pragma : Forall line_ok lines -> Forall pragma_ok lines.
Proof. apply Forall_impl. intros l. unfold line_ok, pragma_ok. destruct (l_body l); tauto. Qed.

(** Fields are placed where hardware can have them.  Every field that
    [layout_fields] lays out is aligned as its line says and lies within one
    32-bit register; unless a register number is close to the limit of the 16-bit
    layout pointer, fields do not overlap and are in the order of registers. *)
Lemma layout_fields_placed values fuel s : Forall line_ok lines -> length values = NUM_REP -> layout_fields lines global_reps fuel values = inr s ->
  Forall field_inside (ls_fields s) /\
  (Forall (fun f => f_offset f < offset_limit) (ls_fields s) ->
   forall i j f g, (i < j)%nat -> reverse (ls_fields s) !! i = Some f -> reverse (ls_fields s) !! j = Some g -> field_end f <= f_offset g).
Proof.
  intros Hok Hl Hs. apply layout_fields_unroll in Hs; [| by apply line_ok_pragma | done]. assert (placed s) as (Hin & _ & Hd).
  { revert Hs. apply unroll_inv; [done | | | by intros i l | apply placed_init].
    - intros pos active l name val al size flags s0 Hpos Hb. eapply placed_field; [| done | done]. by eapply Forall_lookup_1.
    - intros pos l off off_end s0 Hpos Hb Hoff (H1 & H2 & H3). assert (line_ok l) as Hlok by (by eapply Forall_lookup_1). unfold line_ok in Hlok. rewrite Hb in Hlok.
      destruct Hlok as (_ & Hsync). destruct (Hsync eq_refl) as [? ?]. split; [done |]. cbn [ls_offset ls_fields]. split; [lia |]. intros Hf. destruct (H3 Hf) as (? & He & ?). split; [done |].
      split; [| lia]. eapply Forall_impl; [| exact He]. cbn. intros. lia. }
  split; [done |]. intros Hf i j f g Hij Hi Hj. destruct (Hd Hf) as (Ho & _ & _). apply reverse_lookup_Some in Hi as [Hi ?], Hj as [Hj ?].
  eapply (ordered_pairs _ _ _ _ _ _ Ho); [| exact Hj | exact Hi]. lia.
Qed.
End Placement.

(** ** Example

    A field for each frequency, and a timing field. *)
Definition demo_lines : list line := [
  mkLine 3 0 (LINE_PRAGMA 0 0 24);
  mkLine 4 1 (LINE_FIELD (ascii_text "A") (ascii_text "freq(1, 2 (2) +, 3)") 8 8 0);
  mkLine 5 0 (LINE_FIELD (ascii_text "B") (ascii_text "tWTR") 16 16 32)].
Definition zeros : list Z := replicate NUM_REP 0.
Definition demo_layout : lstate := mkL zeros 48 [
  mkField 2 0 32 zeros; mkField 1 1 16 (2 :: replicate 10 0); mkField 1 1 8 (1 :: replicate 10 0); mkField 1 1 0 zeros].

Lemma demo_lines_ok : Forall line_ok demo_lines.
Proof.
  constructor; [split; [unfold NUM_REP; lia | discriminate] |]. constructor; [split; lia |]. constructor; [split; lia | constructor].
Qed.

(** With a packed field of two subfields behind them. *)
Definition demo_packed (size : Z) : list line := demo_lines ++ [
  mkLine 6 0 (LINE_FIELD (ascii_text "P") [] 16 size (Z.shiftl 1 PACKED_BIT));
  mkLine 7 0 (LINE_FIELD (ascii_text "Q") (ascii_text "1") 1 4 (Z.shiftl 1 SUBFIELD_BIT));
  mkLine 8 0 (LINE_FIELD (ascii_text "R") (ascii_text "2") 1 8 (Z.shiftl 1 SUBFIELD_BIT))].
Definition demo_packed_layout : lstate := mkL zeros 60 (
  [mkField 5 0 52 zeros; mkField 4 0 48 zeros; mkField 3 0 48 zeros] ++ ls_fields demo_layout).

Lemma demo_packed_ok size : 1 <= size <= 32 -> Forall line_ok (demo_packed size).
Proof.
  intros Hs. apply Forall_app. split; [apply demo_lines_ok |]. constructor; [split; [auto | lia] |]. constructor; [split; [auto | lia] |]. constructor; [split; [auto | lia] | constructor].
Qed.

Lemma layout_fields_correct_witness : exists rounds, forall fuel, (rounds <= fuel)%nat -> layout_fields (demo_packed 12) 0 fuel zeros = inr demo_packed_layout.
Proof.
  destruct (layout_fields_correct (demo_packed 12) 0 zeros (inr demo_packed_layout)) as [H _].
  - apply line_ok_pragma, demo_packed_ok. lia.
  - reflexivity.
  - vm_compute. reflexivity.
  - exact H.
Defined.

(** A packed field of 16 bits with subfields of 12 bits. *)
Lemma packed_length_unchecked : documented (demo_packed 16) 0 zeros = None /\ exists s, layout_fields (demo_packed 16) 0 20 zeros = inr s.
Proof. split; [vm_compute; reflexivity |]. eexists. vm_compute. reflexivity. Qed.
