(* ===== verification/RegBlob.v ===== *)
(** * Values of registers

    [demultiplex] and [hex_blob] of regtool.c, and the way from the lines of a
    register description to the printed registers. *)
From S2P Require Import Prelude RegExpr RegLayout.
From Stdlib Require Import String.
From stdpp Require Import list.
Open Scope Z_scope.
Open Scope list_scope.

(** ** Demultiplexing *)
Definition rep_names : list (list Z) :=
  List.map ascii_text ["freq"; "cs"; "cs4"; "addrbit"; "databit"; "device"; "dslice"; "aslice"; "acslice"; "mystery10"; "sync"]%string.
Definition rep_macro (rep : nat) : list Z := default [] (rep_names !! rep) ++ ascii_text "(".

(** The position of the first occurrence. *)
Fixpoint memmem (haystack needle : list Z) : option nat :=
  if prefixb needle haystack then Some 0%nat
  else match haystack with
  | [] => None
  | _ :: haystack => S <$> memmem haystack needle
  end.

Definition ch_open : Z := 40.
Definition ch_close : Z := 41.
Definition ch_comma : Z := 44.

(** The loops over the arguments of a call, which return what is copied and what
    follows the call.  At depth 0 a parenthesis or a comma ends an argument; the
    inner loops, which copy or skip a unit, run while the depth is not 0. *)
Fixpoint demux_args (num value param depth : Z) (occ : list Z) : reg_outcome (list Z * list Z) :=
  match occ with
  | [] => inl E_unclosed
  | c :: occ =>
      if (depth =? 0) && (c =? ch_close) then
        _ ← reg_check (param + 1 =? num) E_arguments; inr ([], occ)
      else if (depth =? 0) && (c =? ch_comma) then
        let param := u8 (param + 1) in
        _ ← reg_check (param <? num) E_arguments; demux_args num value param 0 occ
      else
        let depth := if c =? ch_close then depth - 1 else if c =? ch_open then depth + 1 else depth in
        '(s, rest) ← demux_args num value param depth occ;
        inr (if param =? value then c :: s else s, rest)
  end.

(** All calls for one variable. *)
Fixpoint demux_rep (fuel : nat) (rep : nat) (value : Z) (str : list Z) : reg_outcome (list Z) :=
  match fuel with
  | O => inl E_fuel
  | S fuel =>
      match memmem str (rep_macro rep) with
      | None => inr str
      | Some i =>
          '(s, rest) ← demux_args (num_reps rep) value 0 0 (drop (i + length (rep_macro rep)) str);
          demux_rep fuel rep value (take i str ++ s ++ rest)
      end
  end.

Definition demux_step (fuel : nat) (ctx : context) (local_reps : Z) (values : list Z) (rep : nat) (str : list Z) : reg_outcome (list Z) :=
  let bit := Z.shiftl 1 (Z.of_nat rep) in
  if negb (flag (Z.lor local_reps (global_reps ctx)) bit) then inr str
  else demux_rep fuel rep (default 0 ((if flag local_reps bit then values else rep_values ctx) !! rep)) str.

Fixpoint demux_reps (fuel : nat) (ctx : context) (local_reps : Z) (values : list Z) (reps : list nat) (str : list Z) : reg_outcome (list Z) :=
  match reps with
  | [] => inr str
  | rep :: reps => str ← demux_step fuel ctx local_reps values rep str; demux_reps fuel ctx local_reps values reps str
  end.
Definition demultiplex (fuel : nat) (ctx : context) (expr : list Z) (local_reps : Z) (values : list Z) : reg_outcome (list Z) :=
  demux_reps fuel ctx local_reps values (seq 0 NUM_REP) expr.

(** ** Printing registers *)
Section Blob.
Context (fuel : nat) (ctx : context) (lines : list line) (first last : Z).

Definition result_value (flags size : Z) (st : vstack) : reg_outcome Z :=
  match st with
  | [v] =>
      field_value ←
        (if flag flags (Z.lor (Z.shiftl 1 LOWER_LIMIT_BIT) (Z.shiftl 1 UPPER_LIMIT_BIT)) then
           _ ← reg_check (is_type v VAL_QMCYC) E_result_type;
           inr (u32 (u64 (v_val v + (if flag flags (Z.shiftl 1 UPPER_LIMIT_BIT) then 3999 else 0)) / 4000))
         else
           _ ← reg_check (is_type v VAL_NUMBER) E_result_type;
           inr (u32 (v_val v)));
      _ ← reg_check ((size =? 32) || (Z.land field_value (Z.lnot (Z.shiftl 1 size - 1)) =? 0)) E_too_big;
      inr field_value
  | _ => inl E_results
  end.

Definition field_value (f : reg_field) (val : list Z) (size flags : Z) : reg_outcome Z :=
  demuxed ← demultiplex fuel ctx val (f_flags f) (f_rep_value f);
  _ ← reg_check (size <=? 32) E_assert;
  st ← run_expression fuel ctx (f_rep_value f) (stripl (stripr demuxed)) [];
  result_value flags size st.

Record blob_state : Type := mkBlob {
  b_reg : Z;
  b_reg_val : Z;
  b_out : list Z;
}.

Definition print_reg (b : blob_state) : list Z :=
  if (first <=? b_reg b) && (b_reg b <=? last) then b_out b ++ [b_reg_val b] else b_out b.

(** Goes on to the next register k times. *)
Fixpoint advance_regs (k : nat) (b : blob_state) : blob_state :=
  match k with
  | O => b
  | S k => advance_regs k (mkBlob (u16 (b_reg b + 1)) 0 (print_reg b))
  end.

Definition next_regs (offset : Z) (b : blob_state) : blob_state := advance_regs (Z.to_nat (offset / 32 - b_reg b)) b.

Definition or_value (offset v : Z) (b : blob_state) : blob_state :=
  mkBlob (b_reg b) (Z.lor (b_reg_val b) (u32 (Z.shiftl v (offset mod 32)))) (b_out b).

Fixpoint blob_fields (fields : list reg_field) (b : blob_state) : reg_outcome blob_state :=
  match fields with
  | [] => inr b
  | f :: fields =>
      match lines !! f_line f with
      | Some (mkLine _ _ (LINE_FIELD _ val _ size flags)) =>
          if flag flags (Z.lor (Z.shiftl 1 RO_BIT) (Z.shiftl 1 PACKED_BIT)) then blob_fields fields b
          else
            let b := next_regs (f_offset f) b in
            v ← field_value f val size flags;
            blob_fields fields (or_value (f_offset f) v b)
      | _ => inl E_out_of_bounds
      end
  end.

Definition hex_blob (fields : list reg_field) : reg_outcome (list Z) :=
  b ← blob_fields fields (mkBlob 0 0 []);
  inr (print_reg b).

(** ** What is printed *)

(** The values of the writable fields: offsets, sizes and values. *)
Fixpoint eval_fields (fields : list reg_field) : reg_outcome (list (Z * Z * Z)) :=
  match fields with
  | [] => inr []
  | f :: fields =>
      match lines !! f_line f with
      | Some (mkLine _ _ (LINE_FIELD _ val _ size flags)) =>
          if flag flags (Z.lor (Z.shiftl 1 RO_BIT) (Z.shiftl 1 PACKED_BIT)) then eval_fields fields
          else
            v ← field_value f val size flags;
            vs ← eval_fields fields;
            inr ((f_offset f, size, v) :: vs)
      | _ => inl E_out_of_bounds
      end
  end.

Definition put_value (b : blob_state) (x : Z * Z * Z) : blob_state := or_value x.1.1 x.2 (next_regs x.1.1 b).

Lemma blob_fields_eval fields b : blob_fields fields b = (vs ← eval_fields fields; inr (fold_left put_value vs b)).
Proof.
  revert b. induction fields as [| f fields IH]; intros b; cbn [blob_fields eval_fields]; [done |]. destruct (lines !! f_line f) as [[ln ind [| name val al size flags]] |]; [done | | done].
  destruct (flag _ _); [apply IH |]. destruct (field_value f val size flags) as [e | v]; cbn [mbind outcome_bind]; [done |]. rewrite IH. by destruct (eval_fields fields).
Qed.

(** The registers: what the values of the fields in them add up to. *)
Definition reg_word (vs : list (Z * Z * Z)) (r : Z) : Z :=
  fold_right (fun x w => if x.1.1 / 32 =? r then Z.lor (u32 (Z.shiftl x.2 (x.1.1 mod 32))) w else w) 0 vs.

Lemma reg_word_cons x vs r : reg_word (x :: vs) r = if x.1.1 / 32 =? r then Z.lor (u32 (Z.shiftl x.2 (x.1.1 mod 32))) (reg_word vs r) else reg_word vs r.
Proof. done. Qed.

Lemma reg_word_app vs vs' r : reg_word (vs ++ vs') r = Z.lor (reg_word vs r) (reg_word vs' r).
Proof. induction vs as [| x vs IH]; [done |]. rewrite <- app_comm_cons, !reg_word_cons, IH. destruct (_ =? _); [by rewrite Z.lor_assoc | done]. Qed.

Definition reg_in_range (r : Z) : bool := (first <=? r) && (r <=? last).
Definition regs_below (n : Z) : list Z := List.filter reg_in_range (seqZ 0 n).

Lemma regs_below_succ n : 0 <= n -> regs_below (n + 1) = regs_below n ++ (if reg_in_range n then [n] else []).
Proof. intros Hn. unfold regs_below. rewrite seqZ_app by lia. rewrite List.filter_app. cbn [seqZ]. by rewrite Z.add_0_l. Qed.

(** After the fields [vs]. *)
Definition printed (vs : list (Z * Z * Z)) (b : blob_state) : Prop :=
  0 <= b_reg b < 2048 /\ (forall x, x ∈ vs -> x.1.1 / 32 <= b_reg b) /\ b_reg_val b = reg_word vs (b_reg b) /\
  b_out b = List.map (reg_word vs) (regs_below (b_reg b)).

Lemma reg_word_none vs r : (forall x, x ∈ vs -> x.1.1 / 32 < r) -> reg_word vs r = 0.
Proof.
  induction vs as [| x vs IH]; intros H; [done |]. rewrite reg_word_cons, (proj2 (Z.eqb_neq _ _)); [apply IH; intros y Hy; apply H; by constructor |]. pose proof (H x ltac:(constructor)). lia.
Qed.

Lemma print_reg_printed vs b : printed vs b -> print_reg b = List.map (reg_word vs) (regs_below (b_reg b + 1)).
Proof.
  intros (Hr & _ & Hv & Ho). rewrite regs_below_succ by lia. rewrite List.map_app, <- Ho. unfold print_reg, reg_in_range. destruct (_ && _); cbn; [by rewrite Hv | by rewrite app_nil_r].
Qed.

Lemma advance_printed k vs b : printed vs b -> b_reg b + Z.of_nat k < 2048 -> printed vs (advance_regs k b) /\ b_reg (advance_regs k b) = b_reg b + Z.of_nat k.
Proof.
  revert b. induction k as [| k IH]; intros b Hb Hk; cbn [advance_regs]; [split; [done | lia] |]. pose proof (print_reg_printed _ _ Hb) as Hp. destruct Hb as (Hr & Hx & Hv & Ho).
  assert (u16 (b_reg b + 1) = b_reg b + 1) as Hu by (apply u16_small; lia).
  destruct (IH (mkBlob (u16 (b_reg b + 1)) 0 (print_reg b))) as [IH1 IH2].
  - rewrite Hu. unfold printed. cbn [b_reg b_reg_val b_out]. split; [lia |]. split; [intros x Hx'; pose proof (Hx x Hx'); lia |]. split; [| done].
    symmetry. apply reg_word_none. intros x Hx'. pose proof (Hx x Hx'). lia.
  - cbn [b_reg]. lia.
  - split; [done |]. rewrite IH2. cbn [b_reg]. lia.
Qed.

Lemma put_printed vs b x : printed vs b -> b_reg b <= x.1.1 / 32 < 2048 -> printed (vs ++ [x]) (put_value b x).
Proof.
  intros Hb Hx. destruct (advance_printed (Z.to_nat (x.1.1 / 32 - b_reg b)) vs b Hb) as [Ha Hr]; [lia |]. rewrite Z2Nat.id in Hr by lia. replace (b_reg b + (x.1.1 / 32 - b_reg b)) with (x.1.1 / 32) in Hr by lia.
  unfold put_value, next_regs. set (b' := advance_regs _ _) in *. destruct Ha as (H1 & H2 & H3 & H4). unfold printed, or_value. cbn [b_reg b_reg_val b_out].
  assert (forall r, r <> x.1.1 / 32 -> reg_word (vs ++ [x]) r = reg_word vs r) as Hother.
  { intros r Hne. rewrite reg_word_app, reg_word_cons, (proj2 (Z.eqb_neq _ _)) by lia. apply Z.lor_0_r. }
  split; [lia |]. split; [| split].
  - intros y [Hy | ->%list_elem_of_singleton]%elem_of_app; [by apply H2 | lia].
  - rewrite H3, Hr, reg_word_app, reg_word_cons, Z.eqb_refl. cbn [reg_word fold_right]. by rewrite Z.lor_0_r.
  - rewrite H4. apply List.map_ext_in. intros r Hin. symmetry. apply Hother. unfold regs_below in Hin. apply List.filter_In in Hin as [Hin _]. apply list_elem_of_In, elem_of_seqZ in Hin. lia.
Qed.

(** The fields of a layout: each within a register, in order and without overlap. *)
Definition value_ok (x : Z * Z * Z) : Prop := 0 <= x.1.1 < 2 ^ 16 /\ 1 <= x.1.2 /\ x.1.1 mod 32 + x.1.2 <= 32 /\ 0 <= x.2 < 2 ^ x.1.2.
Definition placed_before (x y : Z * Z * Z) : Prop := x.1.1 + x.1.2 <= y.1.1.

Lemma fold_printed vs vs' b : printed vs b -> Forall value_ok vs' -> ForallOrdPairs placed_before vs' -> (forall y, y ∈ vs' -> b_reg b <= y.1.1 / 32) ->
  printed (vs ++ vs') (fold_left put_value vs' b).
Proof.
  revert vs b. induction vs' as [| x vs' IH]; intros vs b Hb Hok Ho Hge; cbn [fold_left]; [by rewrite app_nil_r |]. inversion Hok as [| ? ? Hx Hok']; subst. inversion Ho as [| ? ? Hbx Ho']; subst.
  destruct Hx as (Hx1 & Hx2 & Hx3 & Hx4). assert (x.1.1 / 32 < 2048) as Hlt by (apply Z.div_lt_upper_bound; lia). pose proof (Hge x ltac:(constructor)) as Hgx.
  assert (b_reg (put_value b x) = x.1.1 / 32) as Hreg.
  { unfold put_value, next_regs, or_value. cbn [b_reg]. destruct (advance_printed (Z.to_nat (x.1.1 / 32 - b_reg b)) vs b Hb) as [_ ->]; lia. }
  rewrite cons_middle, app_assoc. apply IH; [by apply put_printed | done | done |]. intros y Hy. rewrite Hreg. rewrite List.Forall_forall in Hbx.
  pose proof (Hbx y (proj1 (list_elem_of_In _ _) Hy)) as Hxy. unfold placed_before in Hxy. apply Z.div_le_mono; lia.
Qed.

Lemma printed_init : printed [] (mkBlob 0 0 []).
Proof. unfold printed. cbn. split; [lia |]. split; [intros x Hx; by apply not_elem_of_nil in Hx | done]. Qed.

Lemma hex_blob_words fields vs : eval_fields fields = inr vs -> Forall value_ok vs -> ForallOrdPairs placed_before vs ->
  exists n, 0 <= n /\ (forall x, x ∈ vs -> x.1.1 / 32 < n) /\ hex_blob fields = inr (List.map (reg_word vs) (regs_below n)).
Proof.
  intros He Hok Ho. assert (printed vs (fold_left put_value vs (mkBlob 0 0 []))) as Hp.
  { apply (fold_printed [] vs); [apply printed_init | done | done |]. intros y Hy. cbn [b_reg]. rewrite List.Forall_forall in Hok. destruct (Hok y (proj1 (list_elem_of_In _ _) Hy)) as [? _]. apply Z.div_pos; lia. }
  unfold hex_blob. rewrite blob_fields_eval, He. cbn [mbind outcome_bind]. rewrite (print_reg_printed _ _ Hp). eexists. destruct Hp as (Hr & Hx & _). split; [| split; [| done]]; [lia |]. intros x Hin. pose proof (Hx x Hin). lia.
Qed.

Lemma seqZ_none m n : n <= 0 -> seqZ m n = [].
Proof. intros H. unfold seqZ. by replace (Z.to_nat n) with 0%nat by lia. Qed.

Lemma regs_below_seq n : 0 <= first -> 0 <= n -> regs_below n = seqZ first (Z.min (last + 1) n - first).
Proof.
  intros Hf. revert n. apply natlike_ind; [by rewrite (seqZ_none first) by lia |]. intros n Hn IH. unfold Z.succ. rewrite regs_below_succ, IH by lia. unfold reg_in_range.
  destruct (Z.leb_spec first n), (Z.leb_spec n last); cbn [andb]; rewrite ?app_nil_r.
  - replace (Z.min (last + 1) (n + 1) - first) with ((Z.min (last + 1) n - first) + 1) by lia. rewrite seqZ_app by lia. do 2 f_equal. rewrite seqZ_cons by lia. cbn. f_equal. lia.
  - f_equal. lia.
  - by rewrite !seqZ_none by lia.
  - by rewrite !seqZ_none by lia.
Qed.

Lemma regs_below_lookup n r i : 0 <= first -> 0 <= n -> regs_below n !! i = Some r <-> r = first + Z.of_nat i /\ r <= last /\ r < n.
Proof. intros Hf Hn. rewrite regs_below_seq by lia. rewrite lookup_seqZ. lia. Qed.

(** *** Bits of a register *)
Lemma reg_word_bit vs r k : Forall value_ok vs -> 0 <= k ->
  Z.testbit (reg_word vs r) k = true <-> exists i x, vs !! i = Some x /\ x.1.1 / 32 = r /\ x.1.1 mod 32 <= k /\ Z.testbit x.2 (k - x.1.1 mod 32) = true.
Proof.
  intros Hok Hk. induction Hok as [| x vs Hx Hok IH].
  { cbn. rewrite Z.bits_0. split; [done | intros (i & x & H & _); by rewrite lookup_nil in H]. }
  rewrite reg_word_cons. pose proof (Z.mod_pos_bound x.1.1 32 ltac:(lia)) as Hm.
  assert (Z.testbit (u32 (Z.shiftl x.2 (x.1.1 mod 32))) k = true <-> x.1.1 mod 32 <= k /\ Z.testbit x.2 (k - x.1.1 mod 32) = true) as Hbit.
  { destruct Hx as (_ & Hs & Hsz & Hv). rewrite u32_small.
    - rewrite Z.shiftl_spec by lia. split; [| by intros [_ ?]]. intros Hb. split; [| done]. destruct (Z_lt_le_dec k (x.1.1 mod 32)); [| done]. by rewrite Z.testbit_neg_r in Hb by lia.
    - rewrite Z.shiftl_mul_pow2 by lia. split; [nia |]. apply Z.lt_le_trans with (2 ^ x.1.2 * 2 ^ (x.1.1 mod 32)); [apply Z.mul_lt_mono_pos_r; lia |].
      rewrite <- Z.pow_add_r by lia. apply Z.pow_le_mono_r; lia. }
  assert ((exists i y, (x :: vs) !! i = Some y /\ y.1.1 / 32 = r /\ y.1.1 mod 32 <= k /\ Z.testbit y.2 (k - y.1.1 mod 32) = true) <->
    (x.1.1 / 32 = r /\ x.1.1 mod 32 <= k /\ Z.testbit x.2 (k - x.1.1 mod 32) = true) \/
    (exists i y, vs !! i = Some y /\ y.1.1 / 32 = r /\ y.1.1 mod 32 <= k /\ Z.testbit y.2 (k - y.1.1 mod 32) = true)) as ->.
  { split.
    - intros ([| i] & y & Hl & Hy); [injection Hl as ->; by left | right; by exists i, y].
    - intros [Hy | (i & y & Hl & Hy)]; [by exists 0%nat, x | by exists (S i), y]. }
  rewrite <- IH. destruct (Z.eqb_spec (x.1.1 / 32) r) as [E | E]; [rewrite Z.lor_spec, orb_true_iff, Hbit | ]; intuition.
Qed.

Lemma value_bit_size x k : value_ok x -> 0 <= k -> Z.testbit x.2 k = true -> k < x.1.2.
Proof.
  intros (_ & _ & _ & Hv) Hk Hb. destruct (Z_lt_le_dec k x.1.2) as [| Hge]; [done |]. destruct (Z.eq_dec x.2 0) as [E | E]; [by rewrite E, Z.bits_0 in Hb |].
  rewrite Z.bits_above_log2 in Hb; [done | lia |]. apply Z.log2_lt_pow2; [lia |]. apply Z.lt_le_trans with (2 ^ x.1.2); [lia | apply Z.pow_le_mono_r; lia].
Qed.

(** A field can be read back from its register. *)
Lemma reg_word_field vs i x : Forall value_ok vs -> ForallOrdPairs placed_before vs -> vs !! i = Some x ->
  Z.land (Z.shiftr (reg_word vs (x.1.1 / 32)) (x.1.1 mod 32)) (Z.ones x.1.2) = x.2.
Proof.
  intros Hok Ho Hi. assert (value_ok x) as Hx by (by eapply Forall_lookup_1). pose proof Hx as (Hx0 & Hx1 & Hx2 & Hx3). pose proof (Z.mod_pos_bound x.1.1 32 ltac:(lia)) as Hm.
  apply Z.bits_inj'. intros k Hk. rewrite Z.land_spec, Z.shiftr_spec, Z.testbit_ones_nonneg by lia. apply eq_true_iff_eq. rewrite andb_true_iff, Z.ltb_lt, reg_word_bit by (done || lia). split.
  - intros ((j & y & Hj & Hr & Hle & Hb) & Hlt). assert (value_ok y) as Hy by (by eapply Forall_lookup_1). pose proof (value_bit_size y (k + x.1.1 mod 32 - y.1.1 mod 32) Hy ltac:(lia) Hb) as Hsz.
    pose proof (Z.div_mod x.1.1 32 ltac:(lia)). pose proof (Z.div_mod y.1.1 32 ltac:(lia)).
    destruct (Nat.lt_trichotomy i j) as [Hlt' | [<- | Hlt']].
    + pose proof (ordered_pairs placed_before vs i j x y Ho Hlt' Hi Hj) as Hbf. unfold placed_before in Hbf. lia.
    + rewrite Hi in Hj. injection Hj as <-. by replace (k + x.1.1 mod 32 - x.1.1 mod 32) with k in Hb by lia.
    + pose proof (ordered_pairs placed_before vs j i y x Ho Hlt' Hj Hi) as Hbf. unfold placed_before in Hbf. lia.
  - intros Hb. split; [| by apply (value_bit_size x)]. exists i, x. split; [done |]. split; [done |]. split; [lia |]. by replace (k + x.1.1 mod 32 - x.1.1 mod 32) with k by lia.
Qed.

(** *** Evaluated fields *)
Definition writable (flags : Z) : bool := negb (flag flags (Z.lor (Z.shiftl 1 RO_BIT) (Z.shiftl 1 PACKED_BIT))).

Lemma result_value_range flags size st v : 1 <= size <= 32 -> result_value flags size st = inr v -> 0 <= v < 2 ^ size.
Proof.
  intros Hs. unfold result_value. destruct st as [| x [|]]; try done. set (m := if flag flags _ then _ else _).
  assert (forall v, m = inr v -> 0 <= v < 2 ^ 32) as Hm.
  { subst m. intros w. destruct (flag _ _); (destruct (reg_check _ _) as [| []]; cbn [mbind outcome_bind]; [done |]; intros [= <-]; apply u32_range). }
  destruct m as [e | w]; cbn [mbind outcome_bind]; [done |]. specialize (Hm w eq_refl). unfold reg_check. destruct (Z.eqb_spec size 32) as [-> | Hne]; cbn [orb mbind outcome_bind]; [by intros [= <-] |].
  destruct (Z.eqb_spec (Z.land w (Z.lnot (Z.shiftl 1 size - 1))) 0) as [E | E]; cbn [mbind outcome_bind]; [| done]. intros [= <-].
  rewrite Z.shiftl_1_l in E. replace (2 ^ size - 1) with (Z.ones size) in E by (rewrite Z.ones_equiv; lia). rewrite <- Z.ldiff_land, Z.ldiff_ones_r, Z.shiftr_div_pow2, Z.shiftl_mul_pow2 in E by lia.
  pose proof (Z.pow_pos_nonneg 2 size). assert (w / 2 ^ size = 0) as E0 by nia. apply Z.div_small_iff in E0; lia.
Qed.

Lemma field_value_range f val size flags v : 1 <= size <= 32 -> field_value f val size flags = inr v -> 0 <= v < 2 ^ size.
Proof.
  intros Hs. unfold field_value. destruct (demultiplex _ _ _ _ _); cbn [mbind outcome_bind]; [done |]. destruct (reg_check _ _); cbn [mbind outcome_bind]; [done |].
  destruct (run_expression _ _ _ _ _); cbn [mbind outcome_bind]; [done |]. by apply result_value_range.
Qed.

(** The value of a field's expression, without a limit on its size: the number,
    or for [<] and [>] the timing value in full cycles, rounded up or down. *)
Definition exact_value (f : reg_field) (val : list Z) (flags : Z) : reg_outcome Z :=
  demuxed ← demultiplex fuel ctx val (f_flags f) (f_rep_value f);
  st ← run_expression fuel ctx (f_rep_value f) (stripl (stripr demuxed)) [];
  match st with
  | [v] =>
      if flag flags (Z.shiftl 1 UPPER_LIMIT_BIT) then inr ((v_val v + 3999) / 4000)
      else if flag flags (Z.shiftl 1 LOWER_LIMIT_BIT) then inr (v_val v / 4000)
      else inr (v_val v)
  | _ => inl E_results
  end.

Lemma flag_or_bits x a b : flag x (Z.lor (Z.shiftl 1 a) (Z.shiftl 1 b)) = flag x (Z.shiftl 1 a) || flag x (Z.shiftl 1 b).
Proof.
  unfold flag. rewrite Z.land_lor_distr_r. apply eq_true_iff_eq. rewrite orb_true_iff, !negb_true_iff, !Z.eqb_neq, Z.lor_eq_0_iff.
  destruct (Z.eq_dec (Z.land x (Z.shiftl 1 a)) 0), (Z.eq_dec (Z.land x (Z.shiftl 1 b)) 0); tauto.
Qed.

Lemma field_value_exact f val size flags v : field_value f val size flags = inr v ->
  exists n, exact_value f val flags = inr n /\ (0 <= n < 2 ^ 32 -> v = n).
Proof.
  unfold field_value, exact_value. destruct (demultiplex _ _ _ _ _); cbn [mbind outcome_bind]; [done |]. destruct (reg_check _ _); cbn [mbind outcome_bind]; [done |].
  destruct (run_expression _ _ _ _ _) as [| st]; cbn [mbind outcome_bind]; [done |]. unfold result_value. destruct st as [| x [|]]; try done.
  rewrite flag_or_bits. destruct (flag flags (Z.shiftl 1 UPPER_LIMIT_BIT)), (flag flags (Z.shiftl 1 LOWER_LIMIT_BIT)); cbn [orb];
    (destruct (reg_check _ _) as [| []]; cbn [mbind outcome_bind]; [done |]); (destruct (reg_check _ _) as [| []]; cbn [mbind outcome_bind]; [done |]); intros [= <-];
    (eexists; split; [done |]); intros Hn; rewrite ?(u64_small (v_val x + 3999)), ?(u64_small (v_val x + 0)), ?Z.add_0_r by dlia; by rewrite u32_small.
Qed.

(** [x] is the value of the writable field [f]. *)
Definition value_of (f : reg_field) (x : Z * Z * Z) : Prop :=
  exists ln ind name val al flags, lines !! f_line f = Some (mkLine ln ind (LINE_FIELD name val al x.1.2 flags)) /\ writable flags = true /\
    x.1.1 = f_offset f /\ field_value f val x.1.2 flags = inr x.2.

Lemma eval_fields_inv f fields vs : eval_fields (f :: fields) = inr vs ->
  (eval_fields fields = inr vs /\ forall ln ind name val al size flags, lines !! f_line f = Some (mkLine ln ind (LINE_FIELD name val al size flags)) -> writable flags = false) \/
  (exists x vs', vs = x :: vs' /\ eval_fields fields = inr vs' /\ value_of f x).
Proof.
  cbn [eval_fields]. destruct (lines !! f_line f) as [[ln ind [| name val al size flags]] |] eqn:El; try done. destruct (flag _ _) eqn:Ef.
  { intros H. left. split; [done |]. intros ? ? ? ? ? ? ? [= <- <- <- <- <- <- <-]. unfold writable. by rewrite Ef. }
  destruct (field_value f val size flags) as [| v] eqn:Ev; cbn [mbind outcome_bind]; [done |]. destruct (eval_fields fields) as [| vs'] eqn:E; cbn [mbind outcome_bind]; [done |].
  intros [= <-]. right. eexists _, vs'. split; [done |]. split; [done |]. exists ln, ind, name, val, al, flags. unfold writable. by rewrite Ef.
Qed.

Lemma eval_fields_of fields vs x : eval_fields fields = inr vs -> x ∈ vs -> exists f, f ∈ fields /\ value_of f x.
Proof.
  revert vs. induction fields as [| f fields IH]; intros vs; [intros [= <-]; by intros ?%not_elem_of_nil |].
  intros [[H _] | (y & vs' & -> & H & Hy)]%eval_fields_inv.
  - intros (g & Hg & Hx)%(IH _ H). exists g. split; [by constructor | done].
  - intros [-> | (g & Hg & Hx)%(IH _ H)]%elem_of_cons; [exists f; split; [constructor | done] | exists g; split; [by constructor | done]].
Qed.

Lemma eval_fields_at fields vs f ln ind name val al size flags : eval_fields fields = inr vs -> f ∈ fields ->
  lines !! f_line f = Some (mkLine ln ind (LINE_FIELD name val al size flags)) -> writable flags = true ->
  exists v i, field_value f val size flags = inr v /\ vs !! i = Some (f_offset f, size, v).
Proof.
  intros He Hf Hl Hw. revert vs He. induction fields as [| g fields IH]; intros vs; [by apply not_elem_of_nil in Hf |]. apply elem_of_cons in Hf as [<- | Hf].
  - intros [[_ H] | (x & vs' & -> & _ & (? & ? & ? & ? & ? & ? & Hl' & _ & Ho & Hv))]%eval_fields_inv; [by rewrite (H _ _ _ _ _ _ _ Hl) in Hw |].
    rewrite Hl in Hl'. injection Hl' as <- <- <- <- <- -> <-. exists x.2, 0%nat. split; [done |]. cbn. destruct x as [[o sz] v]. cbn in *. by rewrite Ho.
  - intros [[H _] | (x & vs' & -> & H & _)]%eval_fields_inv; destruct (IH Hf _ H) as (v & i & Hv & Hi); [by exists v, i | by exists v, (S i)].
Qed.
End Blob.

Lemma ordered_of_pairs {A} (R : A -> A -> Prop) l : (forall i j f g, (i < j)%nat -> l !! i = Some f -> l !! j = Some g -> R f g) -> ForallOrdPairs R l.
Proof.
  induction l as [| x l IH]; intros H; constructor.
  - apply List.Forall_forall. intros y Hy%list_elem_of_In. apply list_elem_of_lookup in Hy as [j Hj]. by apply (H 0%nat (S j)); [lia | |].
  - apply IH. intros i j f g Hij Hi Hj. apply (H (S i) (S j)); [lia | done | done].
Qed.

Section Output.
Context (fuel : nat) (ctx : context) (lines : list line) (first last : Z).
Hypothesis Hlines : Forall line_ok lines.

Lemma value_of_ok f x : field_inside lines f -> value_of fuel ctx lines f x -> value_ok x /\ field_end lines f = x.1.1 + x.1.2.
Proof.
  intros Hin (ln & ind & name & val & al & flags & Hl & Hw & Ho & Hv). assert (field_spec lines f = Some (al, x.1.2, flags)) as Hs by (unfold field_spec; by rewrite Hl).
  unfold field_inside in Hin. rewrite Hs in Hin. destruct Hin as (H1 & _ & H3). pose proof (Forall_lookup_1 _ _ _ _ Hlines Hl) as Hok. cbn in Hok. destruct Hok as [_ Hsz].
  split; [unfold value_ok; rewrite Ho; split; [done |]; split; [lia |]; split; [done |]; by apply field_value_range in Hv |].
  unfold field_end. rewrite Hs, Ho. unfold writable in Hw. destruct (flag flags (Z.shiftl 1 PACKED_BIT)) eqn:Ep; [| done]. exfalso. apply negb_true_iff in Hw.
  revert Ep Hw. unfold flag, PACKED_BIT, RO_BIT. intros Ep Hw. apply negb_true_iff, Z.eqb_neq in Ep. apply negb_false_iff, Z.eqb_eq in Hw. apply Ep.
  change (Z.shiftl 1 3) with (Z.land (Z.lor (Z.shiftl 1 0) (Z.shiftl 1 3)) 8). by rewrite Z.land_assoc, Hw.
Qed.

Lemma eval_fields_ordered fields vs : eval_fields fuel ctx lines fields = inr vs -> Forall (field_inside lines) fields ->
  ForallOrdPairs (fun f g => field_end lines f <= f_offset g) fields -> Forall value_ok vs /\ ForallOrdPairs placed_before vs.
Proof.
  revert vs. induction fields as [| f fields IH]; intros vs; [intros [= <-]; split; constructor |]. intros He Hin Ho.
  inversion Hin as [| ? ? Hf Hin']; subst. inversion Ho as [| ? ? Hfo Ho']; subst. apply eval_fields_inv in He as [[H _] | (x & vs' & -> & H & Hx)]; [by apply IH |].
  destruct (IH _ H Hin' Ho') as [H1 H2]. destruct (value_of_ok _ _ Hf Hx) as [Hok Hend]. split; constructor; try done.
  apply List.Forall_forall. intros y Hy%list_elem_of_In. destruct (eval_fields_of _ _ _ _ _ _ H Hy) as (g & Hg & Hgy). rewrite List.Forall_forall in Hfo.
  pose proof (Hfo g (proj1 (list_elem_of_In _ _) Hg)) as Hle. cbn in Hle. destruct Hgy as (? & ? & ? & ? & ? & ? & _ & _ & Hgo & _). unfold placed_before. lia.
Qed.

(** The printed registers hold the values of the fields.  When the lines of a
    description are laid out and the registers printed, every writable field in
    the selected range can be read back from its register, with the value of its
    expression, and bits that belong to no writable field are 0. *)
Lemma regtool_output values rounds s out : length values = NUM_REP -> layout_fields lines (global_reps ctx) rounds values = inr s ->
  Forall (fun f => f_offset f < offset_limit) (ls_fields s) -> 0 <= first -> hex_blob fuel ctx lines first last (reverse (ls_fields s)) = inr out ->
  (forall f ln ind name val al size flags, f ∈ ls_fields s -> lines !! f_line f = Some (mkLine ln ind (LINE_FIELD name val al size flags)) -> writable flags = true ->
    first <= f_offset f / 32 <= last -> exists v w, field_value fuel ctx f val size flags = inr v /\ out !! Z.to_nat (f_offset f / 32 - first) = Some w /\
      Z.land (Z.shiftr w (f_offset f mod 32)) (Z.ones size) = v) /\
  (forall n w k, out !! n = Some w -> 0 <= k -> Z.testbit w k = true -> exists f x, f ∈ ls_fields s /\ value_of fuel ctx lines f x /\
    f_offset f / 32 = first + Z.of_nat n /\ f_offset f mod 32 <= k < f_offset f mod 32 + x.1.2).
Proof.
  intros Hl Hs Hlim Hf0 Hout. destruct (layout_fields_placed lines (global_reps ctx) values rounds s Hlines Hl Hs) as [Hin Hord]. specialize (Hord Hlim).
  destruct (eval_fields fuel ctx lines (reverse (ls_fields s))) as [e | vs] eqn:He; [unfold hex_blob in Hout; by rewrite blob_fields_eval, He in Hout |].
  destruct (eval_fields_ordered _ _ He) as [Hok Ho]; [by apply Forall_reverse | by apply ordered_of_pairs |].
  destruct (hex_blob_words fuel ctx lines first last _ _ He Hok Ho) as (N & HN0 & HN & Hw). rewrite Hw in Hout. injection Hout as <-. split.
  - intros f ln ind name val al size flags Hf Hfl Hwr Hr. destruct (eval_fields_at _ _ _ _ _ f _ _ _ _ _ _ _ He ltac:(by rewrite elem_of_reverse) Hfl Hwr) as (v & i & Hv & Hi).
    exists v, (reg_word vs (f_offset f / 32)). split; [done |]. pose proof (HN _ (list_elem_of_lookup_2 _ _ _ Hi)) as HNf. cbn [fst] in HNf.
    split; [| exact (reg_word_field vs i _ Hok Ho Hi)]. rewrite list_lookup_fmap_Some. exists (f_offset f / 32). split; [done |]. apply regs_below_lookup; lia.
  - intros n w k. rewrite list_lookup_fmap_Some. intros (r & -> & Hr) Hk Hb. apply regs_below_lookup in Hr as (-> & _); [| done | done].
    apply reg_word_bit in Hb as (i & x & Hi & Hxr & Hxk & Hxb); [| done | done]. pose proof (list_elem_of_lookup_2 _ _ _ Hi) as Hx.
    destruct (eval_fields_of _ _ _ _ _ _ He Hx) as (f & Hff & Hfx). exists f, x. rewrite elem_of_reverse in Hff. split; [done |]. split; [done |].
    pose proof Hfx as (? & ? & ? & ? & ? & ? & _ & _ & <- & _). split; [done |]. pose proof (Forall_lookup_1 _ _ _ _ Hok Hi) as Hxok. pose proof (value_bit_size x (k - x.1.1 mod 32) Hxok ltac:(lia) Hxb). lia.
Qed.
End Output.

(** ** What demultiplexing does *)
Lemma demux_args_length num value param depth occ s rest : demux_args num value param depth occ = inr (s, rest) -> (length s + length rest < length occ)%nat.
Proof.
  revert param depth s rest. induction occ as [| c occ IH]; intros param depth s rest; cbn [demux_args length]; [done |].
  destruct (_ && (c =? ch_close)); [destruct (reg_check _ _); cbn [mbind outcome_bind]; [done | intros [= <- <-]; cbn; lia] |].
  destruct (_ && (c =? ch_comma)); [destruct (reg_check _ _); cbn [mbind outcome_bind]; [done | intros H%IH; lia] |].
  destruct (demux_args _ _ _ _ occ) as [| [s' rest']] eqn:E; cbn [mbind outcome_bind]; [done |]. apply IH in E. intros [= <- <-]. destruct (_ =? _); cbn [length]; lia.
Qed.

Lemma demux_args_fuel num value param depth occ : demux_args num value param depth occ <> inl E_fuel.
Proof.
  revert param depth. induction occ as [| c occ IH]; intros param depth; cbn [demux_args]; [done |]. unfold reg_check.
  destruct (_ && (c =? ch_close)); [by destruct (_ =? _) |]. destruct (_ && (c =? ch_comma)); [destruct (_ <? _); [apply IH | done] |].
  destruct (demux_args _ _ _ _ occ) as [e | [s' rest']] eqn:E; cbn [mbind outcome_bind]; [| done]. intros [= ->]. by eapply IH.
Qed.

Lemma memmem_bound hay needle i : memmem hay needle = Some i -> (i + length needle <= length hay)%nat.
Proof.
  revert i. induction hay as [| c hay IH]; intros i; cbn [memmem]; unfold prefixb; case_bool_decide as Hp.
  1,3: intros [= <-]; apply (f_equal length) in Hp; rewrite length_take in Hp; cbn [length] in *; lia.
  - done.
  - destruct (memmem hay needle) as [j |]; cbn; [| done]. intros [= <-]. pose proof (IH j eq_refl). cbn. lia.
Qed.

Lemma demux_rep_returns fuel rep value str : (length str < fuel)%nat ->
  demux_rep fuel rep value str <> inl E_fuel /\ forall str', demux_rep fuel rep value str = inr str' -> (length str' <= length str)%nat.
Proof.
  revert str. induction fuel as [| fuel IH]; intros str Hf; [lia |]. cbn [demux_rep]. destruct (memmem str (rep_macro rep)) as [i |] eqn:E; [| split; [done | by intros ? [= <-]]].
  apply memmem_bound in E. destruct (demux_args _ _ _ _ _) as [e | [s rest]] eqn:Ea; cbn [mbind outcome_bind]; [split; [intros [= ->]; by apply demux_args_fuel in Ea | done] |].
  apply demux_args_length in Ea. rewrite length_drop in Ea. assert (length (take i str ++ s ++ rest) < length str)%nat as Hl by (rewrite !length_app, length_take; lia).
  destruct (IH (take i str ++ s ++ rest)) as [IH1 IH2]; [lia |]. split; [done |]. intros str' H. apply IH2 in H. lia.
Qed.

Lemma demultiplex_returns fuel ctx expr local_reps values : (length expr < fuel)%nat -> demultiplex fuel ctx expr local_reps values <> inl E_fuel.
Proof.
  unfold demultiplex. generalize (seq 0 NUM_REP). intros reps. revert expr. induction reps as [| rep reps IH]; intros expr Hf; cbn [demux_reps]; [done |].
  destruct (demux_step fuel ctx local_reps values rep expr) as [e | str] eqn:E; cbn [mbind outcome_bind]; unfold demux_step in E; destruct (negb _).
  - done.
  - intros [= ->]. by apply (proj1 (demux_rep_returns fuel rep _ expr Hf)) in E.
  - injection E as ->. by apply IH.
  - apply demux_rep_returns in E; [| done]. apply IH. lia.
Qed.

(** Text in which parentheses match; an argument has no comma outside them. *)
Inductive nested : list Z -> Prop :=
| nested_nil : nested []
| nested_char c s : c <> ch_open -> c <> ch_close -> nested s -> nested (c :: s)
| nested_paren s t : nested s -> nested t -> nested (ch_open :: s ++ ch_close :: t).
Inductive argument : list Z -> Prop :=
| argument_nil : argument []
| argument_char c s : c <> ch_open -> c <> ch_close -> c <> ch_comma -> argument s -> argument (c :: s)
| argument_paren s t : nested s -> argument t -> argument (ch_open :: s ++ ch_close :: t).

(** Copies [s] in front of a result if the argument is the selected one. *)
Definition copies (sel : bool) (s : list Z) (r : reg_outcome (list Z * list Z)) : reg_outcome (list Z * list Z) :=
  '(o, rest) ← r; inr ((if sel then s else []) ++ o, rest).

Lemma copies_nil sel r : copies sel [] r = r.
Proof. destruct r as [| [o rest]]; [done |]. by destruct sel. Qed.
Lemma copies_app sel s s' r : copies sel s (copies sel s' r) = copies sel (s ++ s') r.
Proof. destruct r as [| [o rest]]; [done |]. destruct sel; cbn; [by rewrite app_assoc | done]. Qed.

Section Call.
Context (num value : Z).
Abbreviation args := (demux_args num value).

Lemma args_char param depth c occ : (depth =? 0) && (c =? ch_close) = false -> (depth =? 0) && (c =? ch_comma) = false ->
  args param depth (c :: occ) = copies (param =? value) [c] (args param (if c =? ch_close then depth - 1 else if c =? ch_open then depth + 1 else depth) occ).
Proof. intros H1 H2. cbn [demux_args]. rewrite H1, H2. cbv zeta. unfold copies. destruct (demux_args _ _ _ _ _) as [| [o rest]]; [done |]. cbn. by destruct (param =? value). Qed.

Lemma args_nested s : nested s -> forall param depth t, 1 <= depth -> args param depth (s ++ t) = copies (param =? value) s (args param depth t).
Proof.
  induction 1 as [| c s Ho Hc _ IH | s s' _ IH _ IH']; intros param depth t Hd; [by rewrite copies_nil | |]; rewrite <- app_comm_cons.
  - rewrite args_char by (rewrite (proj2 (Z.eqb_neq depth 0)) by lia; done). rewrite (proj2 (Z.eqb_neq _ _) Ho), (proj2 (Z.eqb_neq _ _) Hc), IH, copies_app by done. done.
  - rewrite args_char by (rewrite (proj2 (Z.eqb_neq depth 0)) by lia; done). cbn [Z.eqb ch_open ch_close Pos.eqb]. rewrite <- app_assoc, IH by lia. rewrite <- app_comm_cons.
    rewrite args_char by (rewrite (proj2 (Z.eqb_neq (depth + 1) 0)) by lia; done). rewrite Z.eqb_refl. replace (depth + 1 - 1) with depth by lia. rewrite IH', !copies_app by lia. f_equal.
    by rewrite <- !app_assoc.
Qed.

Lemma args_argument s : argument s -> forall param t, args param 0 (s ++ t) = copies (param =? value) s (args param 0 t).
Proof.
  induction 1 as [| c s Ho Hc Hm _ IH | s s' Hs _ IH]; intros param t; [by rewrite copies_nil | |]; rewrite <- app_comm_cons.
  - rewrite args_char by (by rewrite ?(proj2 (Z.eqb_neq _ _) Hc), ?(proj2 (Z.eqb_neq _ _) Hm)). rewrite (proj2 (Z.eqb_neq _ _) Ho), (proj2 (Z.eqb_neq _ _) Hc), IH, copies_app. done.
  - rewrite args_char by done. cbn [Z.eqb ch_open ch_close Pos.eqb]. rewrite <- app_assoc, (args_nested s Hs) by lia. rewrite <- app_comm_cons, args_char by done. rewrite Z.eqb_refl.
    rewrite IH, !copies_app. f_equal. by rewrite <- !app_assoc.
Qed.

(** A call's text after the opening parenthesis. *)
Fixpoint call_text (a : list Z) (more : list (list Z)) : list Z :=
  match more with
  | [] => a ++ [ch_close]
  | a' :: more => a ++ ch_comma :: call_text a' more
  end.

Definition selected (l : list (list Z)) (i : Z) : list Z := if i <? 0 then [] else default [] (l !! Z.to_nat i).

Lemma args_call a more param rest : argument a -> Forall argument more -> 0 <= param < num -> num < 256 ->
  args param 0 (call_text a more ++ rest) =
  if param + Z.of_nat (S (length more)) =? num then inr (selected (a :: more) (value - param), rest) else inl E_arguments.
Proof.
  intros Ha Hm. revert a param Ha. induction Hm as [| a' more Ha' Hm IH]; intros a param Ha Hp Hn; cbn [call_text]; rewrite <- app_assoc, args_argument by done.
  - cbn [app demux_args Z.eqb andb ch_close Pos.eqb]. unfold reg_check. change (Z.of_nat (S (length []))) with 1. destruct (param + 1 =? num); [| done]. cbn [mbind outcome_bind copies].
    unfold selected. destruct (Z.eqb_spec param value) as [<- | Hne].
    + rewrite Z.sub_diag. cbn. by rewrite app_nil_r.
    + cbn. destruct (Z.ltb_spec (value - param) 0); [done |]. destruct (Z.to_nat (value - param)) as [| k] eqn:Ek; [lia | done].
  - rewrite <- app_comm_cons. cbn [demux_args Z.eqb andb ch_comma ch_close Pos.eqb]. rewrite u8_small by lia. unfold reg_check. cbv zeta. destruct (Z.ltb_spec (param + 1) num) as [Hlt | Hge]; cbn [mbind outcome_bind].
    + rewrite IH by (done || lia). replace (param + 1 + Z.of_nat (S (length more))) with (param + Z.of_nat (S (length (a' :: more)))) by (cbn [length]; lia).
      destruct (_ =? num); [| done]. cbn [copies mbind outcome_bind]. do 2 f_equal. unfold selected. destruct (Z.eqb_spec param value) as [<- | Hne].
      * rewrite Z.sub_diag, (proj2 (Z.ltb_lt _ _)) by lia. cbn. by rewrite app_nil_r.
      * cbn [app]. destruct (Z.ltb_spec (value - (param + 1)) 0), (Z.ltb_spec (value - param) 0); try (done || lia). by replace (Z.to_nat (value - param)) with (S (Z.to_nat (value - (param + 1)))) by lia.
    + rewrite (proj2 (Z.eqb_neq (param + _) num)); [done |]. cbn [length]. lia.
Qed.
End Call.

(** What follows the parenthesis that closes a call. *)
Fixpoint call_end (depth : Z) (occ : list Z) : option (list Z) :=
  match occ with
  | [] => None
  | c :: occ =>
      if (depth =? 0) && (c =? ch_close) then Some occ
      else call_end (if c =? ch_close then depth - 1 else if c =? ch_open then depth + 1 else depth) occ
  end.

Lemma args_end num value occ : forall param depth s rest, demux_args num value param depth occ = inr (s, rest) -> call_end depth occ = Some rest.
Proof.
  induction occ as [| c occ IH]; intros param depth s rest; cbn [demux_args call_end]; [done |].
  destruct (_ && (c =? ch_close)) eqn:Hc; [destruct (reg_check _ _); cbn [mbind outcome_bind]; [done |]; by intros [= _ <-] |].
  destruct (_ && (c =? ch_comma)) eqn:Hm.
  - apply andb_true_iff in Hm as [->%Z.eqb_eq ->%Z.eqb_eq]. cbv zeta. destruct (reg_check _ _); cbn [mbind outcome_bind]; [done |]. apply IH.
  - destruct (demux_args _ _ _ _ occ) as [| [s' rest']] eqn:E; cbn [mbind outcome_bind]; [done |]. intros [= _ <-]. by eapply IH.
Qed.

(** A call that is closed is a list of arguments. *)
Lemma call_end_inv occ : forall depth rest, 0 <= depth -> call_end depth occ = Some rest ->
  exists ss a more, length ss = Z.to_nat depth /\ Forall nested ss /\ argument a /\ Forall argument more /\
    occ = concat (map (fun x => x ++ [ch_close]) ss) ++ call_text a more ++ rest.
Proof.
  induction occ as [| c occ IH]; intros depth rest Hd; cbn [call_end]; [done |].
  destruct (Z.eqb_spec c ch_close) as [-> | Hc]; [| destruct (Z.eqb_spec c ch_open) as [-> | Ho]].
  - destruct (Z.eqb_spec depth 0) as [-> | Hnz]; cbn [andb].
    + intros [= <-]. exists [], [], []. repeat split; constructor.
    + intros (ss & a & more & Hl & Hss & Ha & Hmo & ->)%IH; [| lia]. exists ([] :: ss), a, more.
      split; [cbn; lia |]. split; [constructor; [constructor | done] |]. done.
  - rewrite andb_false_r. intros (ss & a & more & Hl & Hss & Ha & Hmo & ->)%IH; [| lia].
    destruct ss as [| s0 ss]; [cbn in Hl; lia |]. inversion Hss as [| ? ? H0 Hss1]; subst. destruct ss as [| s1 ss].
    + exists [], (ch_open :: s0 ++ ch_close :: a), more. split; [cbn in *; lia |]. split; [constructor |]. split; [by constructor |]. split; [done |].
      cbn. rewrite app_nil_r, <- !app_assoc. destruct more; cbn; rewrite <- ?app_assoc; done.
    + inversion Hss1 as [| ? ? H1 Hss2]; subst. exists ((ch_open :: s0 ++ ch_close :: s1) :: ss), a, more.
      split; [cbn in *; lia |]. split; [constructor; [by constructor | done] |]. split; [done |]. split; [done |].
      cbn. rewrite <- !app_assoc. done.
  - rewrite andb_false_r. intros (ss & a & more & Hl & Hss & Ha & Hmo & ->)%IH; [| done]. destruct ss as [| s0 ss].
    + destruct (Z.eqb_spec c ch_comma) as [-> | Hm].
      * exists [], [], (a :: more). split; [done |]. split; [done |]. split; [constructor |]. split; [by constructor | done].
      * exists [], (c :: a), more. split; [done |]. split; [done |]. split; [by constructor |]. split; [done |]. by destruct more.
    + inversion Hss; subst. exists ((c :: s0) :: ss), a, more. split; [done |]. split; [constructor; [by constructor | done] |]. done.
Qed.

Lemma call_end_nested s : nested s -> forall depth t, 1 <= depth -> call_end depth (s ++ t) = call_end depth t.
Proof.
  induction 1 as [| c s Ho Hc _ IH | s s' _ IH _ IH']; intros depth t Hd; [done | |]; rewrite <- app_comm_cons; cbn [call_end]; rewrite (proj2 (Z.eqb_neq depth 0)) by lia; cbn [andb].
  - rewrite (proj2 (Z.eqb_neq _ _) Ho), (proj2 (Z.eqb_neq _ _) Hc). by apply IH.
  - cbn [Z.eqb ch_open ch_close Pos.eqb]. rewrite <- app_assoc, IH by lia. rewrite <- app_comm_cons. cbn [call_end]. rewrite (proj2 (Z.eqb_neq (depth + 1) 0)) by lia.
    cbn [andb]. rewrite Z.eqb_refl. replace (depth + 1 - 1) with depth by lia. by apply IH'.
Qed.

Lemma call_end_argument s : argument s -> forall t, call_end 0 (s ++ t) = call_end 0 t.
Proof.
  induction 1 as [| c s Ho Hc Hm _ IH | s s' Hs _ IH]; intros t; [done | |]; rewrite <- app_comm_cons; cbn [call_end].
  - rewrite (proj2 (Z.eqb_neq _ _) Hc), (proj2 (Z.eqb_neq _ _) Ho), andb_false_r. apply IH.
  - cbn [Z.eqb andb ch_open ch_close Pos.eqb]. rewrite <- app_assoc, (call_end_nested s Hs) by lia. rewrite <- app_comm_cons. cbn [call_end Z.eqb andb]. apply IH.
Qed.

Lemma call_end_call a more rest : argument a -> Forall argument more -> call_end 0 (call_text a more ++ rest) = Some rest.
Proof.
  intros Ha Hm. induction Hm as [| a' more Ha' Hm IH] in a, Ha |- *; cbn [call_text]; rewrite <- app_assoc, call_end_argument by done; [done |].
  cbn [app call_end Z.eqb andb ch_open ch_close ch_comma Pos.eqb]. by apply IH.
Qed.

Lemma args_error num value param depth occ e : demux_args num value param depth occ = inl e -> e = E_unclosed \/ e = E_arguments.
Proof.
  revert param depth. induction occ as [| c occ IH]; intros param depth; cbn [demux_args]; [intros [= <-]; by left |]. unfold reg_check.
  destruct (_ && (c =? ch_close)); [destruct (_ =? _); [done |]; intros [= <-]; by right |].
  destruct (_ && (c =? ch_comma)); [destruct (_ <? _); [apply IH | intros [= <-]; by right] |].
  destruct (demux_args _ _ _ _ occ) as [e' | [s' rest']] eqn:E; cbn [mbind outcome_bind]; [| done]. intros [= <-]. by eapply IH.
Qed.

Lemma args_call_none num value a more param rest : argument a -> num <= 0 -> 0 <= param ->
  demux_args num value param 0 (call_text a more ++ rest) = inl E_arguments.
Proof.
  intros Ha Hn Hp. pose proof (u8_range (param + 1)). destruct more as [| a' more]; cbn [call_text]; rewrite <- app_assoc, args_argument by done; cbn [app demux_args Z.eqb andb ch_close ch_comma Pos.eqb]; unfold reg_check.
  - by rewrite (proj2 (Z.eqb_neq (param + 1) num)) by lia.
  - cbv zeta. by rewrite (proj2 (Z.ltb_ge (u8 (param + 1)) num)) by lia.
Qed.

(** *** The meaning of calls

    [pre] is what is in front of the first occurrence of [w] in [str], [post]
    what follows it. *)
Definition first_at (w pre post str : list Z) : Prop :=
  str = pre ++ w ++ post /\ forall pre' post', str = pre' ++ w ++ post' -> (length pre <= length pre')%nat.

Lemma prefixb_app w s : prefixb w s = true <-> exists t, s = w ++ t.
Proof.
  unfold prefixb. rewrite bool_decide_eq_true. split.
  - intros H. exists (drop (length w) s). rewrite <- H at 1. by rewrite take_drop.
  - intros [t ->]. by rewrite take_app_length.
Qed.

Lemma memmem_some str w i : memmem str w = Some i -> first_at w (take i str) (drop (i + length w) str) str.
Proof.
  intros H. revert i H. induction str as [| c str IH]; intros i; cbn [memmem]; (destruct (prefixb w _) eqn:Hp; [apply prefixb_app in Hp as [t Ht]; intros [= <-] |]).
  - rewrite Ht. split; [cbn; by rewrite drop_app_length | intros; apply Nat.le_0_l].
  - done.
  - rewrite Ht. split; [cbn; by rewrite drop_app_length | intros; apply Nat.le_0_l].
  - destruct (memmem str w) as [j |] eqn:Hj; cbn; [| done]. intros [= <-]. destruct (IH j eq_refl) as [H1 H2]. split; [cbn; by f_equal |].
    intros [| c' pre'] post' E; [exfalso; assert (prefixb w (c :: str) = true) as X by (apply prefixb_app; by exists post'); congruence |].
    injection E as -> E. specialize (H2 pre' post' E). cbn. lia.
Qed.

Lemma memmem_none str w : memmem str w = None -> forall pre post, str <> pre ++ w ++ post.
Proof.
  induction str as [| c str IH]; cbn [memmem]; (destruct (prefixb w _) eqn:Hp; [done |]); intros H pre post E.
  - destruct pre as [| x pre]; [| done]. assert (prefixb w [] = true) as X by (apply prefixb_app; by exists post). congruence.
  - destruct (memmem str w) eqn:Hm; [done |]. destruct pre as [| x pre]; [assert (prefixb w (c :: str) = true) as X by (apply prefixb_app; by exists post); congruence |].
    injection E as -> E. by apply (IH eq_refl pre post).
Qed.

(** [demuxes rep value str r]: replacing all calls of the variable [rep] in
    [str], which has the given value, gives [r].  The first call is replaced by
    the argument with the number [value]; what comes out is looked at again. *)
Inductive demuxes (rep : nat) (value : Z) : list Z -> reg_outcome (list Z) -> Prop :=
| demuxes_none str : (forall pre post, str <> pre ++ rep_macro rep ++ post) -> demuxes rep value str (inr str)
| demuxes_call str pre a more post r : first_at (rep_macro rep) pre (call_text a more ++ post) str -> argument a -> Forall argument more ->
    Z.of_nat (S (length more)) = num_reps rep -> demuxes rep value (pre ++ selected (a :: more) value ++ post) r -> demuxes rep value str r
| demuxes_count str pre a more post : first_at (rep_macro rep) pre (call_text a more ++ post) str -> argument a -> Forall argument more ->
    Z.of_nat (S (length more)) <> num_reps rep -> demuxes rep value str (inl E_arguments)
| demuxes_malformed str pre occ e : first_at (rep_macro rep) pre occ str ->
    (forall a more post, argument a -> Forall argument more -> occ <> call_text a more ++ post) -> e = E_unclosed \/ e = E_arguments ->
    demuxes rep value str (inl e).

(** The value of a variable: that of the repetition that the field is in, or
    else the one given globally; variables without a value are left alone. *)
Definition rep_value_of (ctx : context) (local_reps : Z) (values : list Z) (rep : nat) : option Z :=
  if Z.testbit local_reps (Z.of_nat rep) then values !! rep
  else if Z.testbit (global_reps ctx) (Z.of_nat rep) then rep_values ctx !! rep
  else None.

(** The variables one after the other. *)
Inductive demuxes_all (value_of : nat -> option Z) : list nat -> list Z -> reg_outcome (list Z) -> Prop :=
| demuxes_done str : demuxes_all value_of [] str (inr str)
| demuxes_skip rep reps str r : value_of rep = None -> demuxes_all value_of reps str r -> demuxes_all value_of (rep :: reps) str r
| demuxes_next rep reps v str str' r : value_of rep = Some v -> demuxes rep v str (inr str') -> demuxes_all value_of reps str' r ->
    demuxes_all value_of (rep :: reps) str r
| demuxes_stop rep reps v str e : value_of rep = Some v -> demuxes rep v str (inl e) -> demuxes_all value_of (rep :: reps) str (inl e).

Lemma num_reps_range rep : 0 <= num_reps rep < 256.
Proof.
  destruct (decide (rep < REP_SYNC)%nat) as [H | H]; [pose proof (num_reps_bound rep H); lia |]. unfold REP_SYNC in H.
  do 10 (destruct rep as [| rep]; [lia |]). by destruct rep as [| [| rep]].
Qed.

Lemma demux_rep_demuxes fuel rep value str : (length str < fuel)%nat -> demuxes rep value str (demux_rep fuel rep value str).
Proof.
  revert str. induction fuel as [| fuel IH]; intros str Hf; [lia |]. cbn [demux_rep]. destruct (memmem str (rep_macro rep)) as [i |] eqn:E.
  2: { constructor. by apply memmem_none. }
  pose proof (memmem_some _ _ _ E) as Hfirst. apply memmem_bound in E. set (occ := drop (i + length (rep_macro rep)) str) in *.
  destruct (demux_args _ _ _ _ occ) as [e | [s rest]] eqn:Ea; cbn [mbind outcome_bind].
  - assert (forall a more post, argument a -> Forall argument more -> occ = call_text a more ++ post -> e = E_arguments /\ Z.of_nat (S (length more)) <> num_reps rep) as Hwf.
    { intros a more post Ha Hm ->. pose proof (num_reps_range rep). destruct (Z.eq_dec (num_reps rep) 0) as [H0 | H0].
      - rewrite args_call_none in Ea by (done || lia). injection Ea as <-. split; [done | lia].
      - rewrite args_call in Ea by (done || lia). destruct (Z.eqb_spec (0 + Z.of_nat (S (length more))) (num_reps rep)); [done |]. injection Ea as <-. split; [done | lia]. }
    pose proof (args_error _ _ _ _ _ _ Ea) as He.
    destruct (call_end 0 occ) as [post |] eqn:Hend.
    + destruct (call_end_inv _ _ _ (Z.le_refl 0) Hend) as ([|] & a & more & Hl0 & _ & Ha & Hm & Ho); [| done]. cbn in Ho. destruct (Hwf a more post Ha Hm Ho) as [-> Hc]. rewrite Ho in Hfirst. by eapply demuxes_count.
    + eapply demuxes_malformed; [done | | done]. intros a more post Ha Hm ->. by rewrite call_end_call in Hend.
  - pose proof (demux_args_length _ _ _ _ _ _ _ Ea) as Hlen. destruct (call_end_inv _ _ _ (Z.le_refl 0) (args_end _ _ _ _ _ _ _ Ea)) as ([|] & a & more & Hl & _ & Ha & Hm & Ho); [| done]. cbn in Ho.
    assert (length (take i str ++ s ++ rest) < fuel)%nat as Hl' by (unfold occ in Hlen; rewrite length_drop in Hlen; rewrite !length_app, length_take; lia).
    pose proof (num_reps_range rep). rewrite Ho in Ea, Hfirst. destruct (Z.eq_dec (num_reps rep) 0) as [H0 | H0]; [by rewrite args_call_none in Ea by (done || lia) |].
    rewrite args_call in Ea by (done || lia). destruct (Z.eqb_spec (0 + Z.of_nat (S (length more))) (num_reps rep)) as [Hc | Hc]; [| done].
    injection Ea as Es. rewrite Z.sub_0_r in Es. eapply demuxes_call; [done | done | done | lia |]. rewrite Es. by apply IH.
Qed.

Lemma demux_reps_demuxes fuel ctx local_reps values reps str : (length str < fuel)%nat ->
  Forall (fun rep => (rep < length values)%nat /\ (rep < length (rep_values ctx))%nat) reps ->
  demuxes_all (rep_value_of ctx local_reps values) reps str (demux_reps fuel ctx local_reps values reps str).
Proof.
  intros Hf Hr. induction Hr as [| rep reps [Hv Hg] _ IH] in str, Hf |- *; cbn [demux_reps]; [constructor |].
  assert (forall l, (rep < length l)%nat -> l !! rep = Some (default 0 (l !! rep))) as Hl.
  { intros l H. apply lookup_lt_is_Some_2 in H as [x ->]. done. }
  unfold demux_step. rewrite Z.shiftl_1_l, !flag_bit, Z.lor_spec by lia.
  assert (forall v, rep_value_of ctx local_reps values rep = Some v ->
    demuxes_all (rep_value_of ctx local_reps values) (rep :: reps) str (str ← demux_rep fuel rep v str; demux_reps fuel ctx local_reps values reps str)) as Hgo.
  { intros v Hval. pose proof (demux_rep_demuxes fuel rep v str Hf) as Hd. pose proof (proj2 (demux_rep_returns fuel rep v str Hf)) as Hlen.
    destruct (demux_rep fuel rep v str) as [e | str']; cbn [mbind outcome_bind]; [by eapply demuxes_stop |].
    eapply demuxes_next; [done | done |]. apply IH. specialize (Hlen str' eq_refl). lia. }
  unfold rep_value_of in *. destruct (Z.testbit local_reps (Z.of_nat rep)) eqn:Hlb; cbn [orb negb]; [by apply Hgo, Hl |].
  destruct (Z.testbit (global_reps ctx) (Z.of_nat rep)) eqn:Hgb; cbn [negb]; [by apply Hgo, Hl |].
  cbn [mbind outcome_bind]. apply demuxes_skip; [unfold rep_value_of; by rewrite Hlb, Hgb | by apply IH].
Qed.

(** C25: Demultiplexing returns for every expression, and means what it should.
    The variables are taken in order; the value of one is that of the repetition
    that the field is in, or else the global one, and variables that have
    neither are left alone ([rep_value_of]).  As long as there is a call of the
    variable, the first one is replaced by the argument with the number of the
    value, where parentheses and the commas in them belong to an argument; a call
    with another number of arguments than the variable has values is an error,
    and so is one without a closing parenthesis ([demuxes]). *)
Theorem demultiplex_correct ctx expr local_reps values : length values = NUM_REP -> length (rep_values ctx) = NUM_REP ->
  demuxes_all (rep_value_of ctx local_reps values) (seq 0 NUM_REP) expr (demultiplex (S (length expr)) ctx expr local_reps values).
Proof.
  intros Hv Hg. apply demux_reps_demuxes; [lia |]. apply Forall_forall. intros rep Hin%elem_of_seq. lia.
Qed.

(** ** Examples *)
Lemma demo_argument : argument (ascii_text "1") /\ Forall argument [ascii_text "2 (3)"; ascii_text ""].
Proof.
  split; [repeat constructor; discriminate |]. constructor; [| constructor; [apply argument_nil | constructor]].
  do 2 (apply argument_char; [discriminate | discriminate | discriminate |]). apply (argument_paren (ascii_text "3") []); repeat constructor; discriminate.
Qed.

(** A variable that is given by the repetition and globally: the value of the
    repetition selects. *)
Lemma demultiplex_correct_witness :
  let ctx := {| global_reps := 3; rep_values := 2 :: 1 :: replicate 9 0; freq_mhz := []; freq_steps := []; macros := [] |} in
  demuxes_all (rep_value_of ctx 1 (1 :: replicate 10 0)) (seq 0 NUM_REP) (ascii_text "4 freq(1,2 (3),) cs(5,6) *") (inr (ascii_text "4 2 (3) 6 *")).
Proof.
  intros ctx. exact (demultiplex_correct ctx (ascii_text "4 freq(1,2 (3),) cs(5,6) *") 1 (1 :: replicate 10 0) eq_refl eq_refl).
Defined.

(** A value of more than 32 bits is truncated before it is checked. *)
Lemma value_truncated : result_value 0 8 [mkValue VAL_NUMBER (2 ^ 32 + 1)] = inr 1.
Proof. vm_compute. reflexivity. Qed.

(** A field behind a sync that moves backwards ends up in the wrong register. *)
Definition backwards_lines : list line := [
  mkLine 1 0 (LINE_FIELD (ascii_text "A") (ascii_text "1") 32 32 0);
  mkLine 2 0 (LINE_FIELD (ascii_text "B") (ascii_text "2") 32 32 0);
  mkLine 3 0 (LINE_PRAGMA REP_SYNC 64 0);
  mkLine 4 0 (LINE_FIELD (ascii_text "C") (ascii_text "4") 32 32 0)].
Lemma sync_backwards_misplaced : exists s, layout_fields backwards_lines 0 20 zeros = inr s /\ List.map f_offset (ls_fields s) = [0; 32; 0] /\
  hex_blob 20 demo_context backwards_lines 0 65535 (reverse (ls_fields s)) = inr [1; 6].
Proof. eexists. split; [vm_compute; reflexivity |]. split; vm_compute; reflexivity. Qed.
