(* ===== verification/RegRead.v ===== *)
(** * Reading register descriptions

    [read_lines] of regtool.c, and the whole way from the text of a description
    to the printed registers. *)
From S2P Require Import Prelude RegExpr RegLayout RegBlob.
From Stdlib Require Import String.
From stdpp Require Import list.
Open Scope Z_scope.
Open Scope list_scope.

(** [memchr]: what is before and behind the first occurrence of a character. *)
Fixpoint memchr (c : Z) (s : list Z) : option (list Z * list Z) :=
  match s with
  | [] => None
  | x :: s => if x =? c then Some ([], s) else match memchr c s with Some (a, b) => Some (x :: a, b) | None => None end
  end.
Definition before_char (c : Z) (s : list Z) : list Z := match memchr c s with Some (a, _) => a | None => s end.

Definition ch_tab : Z := 9.
Definition ch_newline : Z := 10.
Definition ch_hash : Z := 35.
Definition ch_colon : Z := 58.
Definition ch_equals : Z := 61.

Definition strip (s : list Z) : list Z := stripr (stripl s).

(** The tabs in front of a line. *)
Fixpoint read_indent (indent : nat) (s : list Z) : reg_outcome (nat * list Z) :=
  match s with
  | c :: s' => if c =? ch_tab then _ ← reg_check (indent <? NUM_REP)%nat E_tabs; read_indent (S indent) s' else inr (indent, s)
  | [] => inr (indent, [])
  end.

(** Flag characters and the alignment. *)
Fixpoint read_specifier (flags : Z) (s : list Z) : reg_outcome (Z * Z * list Z) :=
  match s with
  | [] => inl E_specifier
  | c :: s =>
      let set_flag bit :=
        _ ← reg_check (negb (flag flags (Z.shiftl 1 bit))) E_specifier;
        read_specifier (Z.lor flags (Z.shiftl 1 bit)) s in
      if c =? 33 then set_flag VOLATILE_BIT
      else if c =? 42 then set_flag COMMAND_BIT
      else if c =? 60 then set_flag UPPER_LIMIT_BIT
      else if c =? 62 then set_flag LOWER_LIMIT_BIT
      else if c =? 98 then inr (8, flags, s)
      else if c =? 104 then inr (16, flags, s)
      else if c =? 119 then inr (32, flags, s)
      else if c =? 112 then inr (1, Z.lor flags (Z.shiftl 1 SUBFIELD_BIT), s)
      else inl E_specifier
  end.

(** Extended specifiers: [item] is the current one, reversed. *)
Definition extended_flag (item : list Z) (flags : Z) : reg_outcome Z :=
  if bool_decide (item = ascii_text "packed") then inr (Z.lor flags (Z.shiftl 1 PACKED_BIT))
  else if bool_decide (item = ascii_text "ro") then inr (Z.lor flags (Z.lor (Z.shiftl 1 RO_BIT) (Z.shiftl 1 VOLATILE_BIT)))
  else if bool_decide (item = ascii_text "static") then inr (Z.lor flags (Z.shiftl 1 RO_BIT))
  else inl E_extended.

Fixpoint read_extended (item : list Z) (s : list Z) (flags : Z) : reg_outcome Z :=
  match s with
  | [] => extended_flag (strip (reverse item)) flags
  | c :: s =>
      if c =? ch_comma then flags ← extended_flag (strip (reverse item)) flags; read_extended [] s flags
      else read_extended (c :: item) s flags
  end.

(** A field line: [spec] is before the tab, [s] behind it. *)
Definition read_field (n : Z) (indent : nat) (spec s : list Z) : reg_outcome line :=
  _ ← reg_check (negb (bool_decide (spec = []))) E_assert;
  '(alignment, flags, len) ← read_specifier 0 spec;
  match parse_dec len with
  | Some (length, []) =>
      _ ← reg_check ((length <=? 32) && (0 <? length)) E_specifier;
      let name := stripl s in
      let '(name, value) := match memchr ch_equals name with Some (name, value) => (name, strip value) | None => (name, []) end in
      let name := stripr name in
      '(name, flags) ←
        match memchr ch_colon name with
        | Some (name, ext) => flags ← read_extended [] ext flags; inr (stripr name, flags)
        | None => inr (name, flags)
        end;
      inr (mkLine n indent (LINE_FIELD name value alignment length flags))
  | _ => inl E_specifier
  end.

Definition read_macro (s : list Z) : reg_outcome macro :=
  match memchr ch_equals (stripl s) with
  | Some (name, value) => inr {| m_name := stripr name; m_value := strip value |}
  | None => inl E_macro
  end.

(** [strncmp] with the length of the word: the word is a prefix of the name. *)
Fixpoint find_rep (names : list (list Z)) (rep : nat) (w : list Z) : option nat :=
  match names with
  | [] => None
  | name :: names => if prefixb w name then Some rep else find_rep names (S rep) w
  end.

Definition read_pragma (n : Z) (indent : nat) (s : list Z) : reg_outcome line :=
  match memchr ch_space s with
  | None => inl E_pragma
  | Some (w, s) =>
      match find_rep rep_names 0 w with
      | None => inl E_pragma
      | Some rep =>
          match memchr ch_space (stripl s) with
          | None => inl E_pragma
          | Some (start, s) =>
              let start_offset := parse_offset start in
              _ ← reg_check (negb (start_offset =? UINT16_MAX)) E_offset;
              let end_offset := parse_offset (stripl s) in
              _ ← reg_check (negb (end_offset =? UINT16_MAX)) E_offset;
              inr (mkLine n indent (LINE_PRAGMA rep start_offset end_offset))
          end
      end
  end.

(** What the lines read so far have added to the context. *)
Definition description : Type := list line * list macro.

Definition read_line (n : Z) (text : list Z) (d : description) : reg_outcome description :=
  '(indent, s) ← read_indent 0 text;
  let content := stripr (before_char ch_hash s) in
  match memchr ch_tab content with
  | Some (spec, s) => l ← read_field n indent spec s; inr (d.1 ++ [l], d.2)
  | None =>
      if (6 <? length content)%nat && prefixb (ascii_text "macro ") content then
        m ← read_macro (drop 6 content); inr (d.1, d.2 ++ [m])
      else match content with
      | [] => inr d
      | _ => l ← read_pragma n indent content; inr (d.1 ++ [l], d.2)
      end
  end.

(** The lines of a text; an empty text has one. *)
Fixpoint text_lines (cur : list Z) (s : list Z) : list (list Z) :=
  match s with
  | [] => [reverse cur]
  | c :: s =>
      if c =? ch_newline then reverse (c :: cur) :: match s with [] => [] | _ => text_lines [] s end
      else text_lines (c :: cur) s
  end.

Fixpoint read_text (n : Z) (texts : list (list Z)) (d : description) : reg_outcome description :=
  match texts with
  | [] => inr d
  | text :: texts =>
      d ← read_line n text d;
      _ ← reg_check (n <? UINT16_MAX) E_lines;
      read_text (n + 1) texts d
  end.

Definition read_lines (input : list Z) (d : description) : reg_outcome description := read_text 1 (text_lines [] input) d.

(** ** What has been read is well-formed *)
Definition parsed_ok (l : line) : Prop :=
  match l_body l with
  | LINE_FIELD _ _ al size flags => spec_ok al size
  | LINE_PRAGMA rep off off_end => (rep < NUM_REP)%nat /\ 0 <= off < UINT16_MAX /\ 0 <= off_end < UINT16_MAX
  end.

Lemma parse_offset_range s : 0 <= parse_offset s <= UINT16_MAX.
Proof.
  unfold parse_offset, UINT16_MAX. destruct (parse_dec s) as [[reg s1] |]; [| lia]. destruct s1 as [| c s2]; [lia |]. destruct (negb _); [lia |]. destruct s2 as [| c' s2]; [lia |].
  destruct (parse_dec _) as [[bit s3] |]; [| lia]. destruct (_ || _); [lia |]. pose proof (u16_range (reg * 32 + bit)). lia.
Qed.

Lemma read_specifier_alignment flags s al flags' rest : read_specifier flags s = inr (al, flags', rest) -> al = 1 \/ al = 8 \/ al = 16 \/ al = 32.
Proof.
  revert flags. induction s as [| c s IH]; intros flags; cbn [read_specifier]; [done |]. unfold reg_check.
  repeat match goal with |- context [if c =? ?n then _ else _] => destruct (c =? n) end;
    try (match goal with |- context [negb ?b] => destruct b end; cbn [negb mbind outcome_bind]; [done | apply IH]); try done; intros [= <- _ _]; auto.
Qed.

Lemma find_rep_bound names rep w r : find_rep names rep w = Some r -> (rep <= r < rep + length names)%nat.
Proof. revert rep. induction names as [| name names IH]; intros rep; cbn [find_rep length]; [done |]. destruct (prefixb w name); [intros [= <-]; lia | intros H%IH; lia]. Qed.

Lemma read_field_ok n indent spec s l : read_field n indent spec s = inr l -> parsed_ok l.
Proof.
  unfold read_field. destruct (reg_check _ _) as [| []]; cbn [mbind outcome_bind]; [done |]. destruct (read_specifier 0 spec) as [| [[al flags] len]] eqn:Es; cbn [mbind outcome_bind]; [done |].
  destruct (parse_dec len) as [[length [|]] |]; [| done | done]. unfold reg_check. destruct ((length <=? 32) && (0 <? length)) eqn:El; cbn [mbind outcome_bind]; [| done].
  destruct (match memchr ch_equals _ with Some _ => _ | None => _ end) as [name value]. set (m := match memchr ch_colon _ with Some _ => _ | None => _ end).
  destruct m as [| [name' flags']]; cbn [mbind outcome_bind]; [done |]. intros [= <-]. apply andb_true_iff in El as [?%Z.leb_le ?%Z.ltb_lt]. split; [by eapply read_specifier_alignment | lia].
Qed.

Lemma read_pragma_ok n indent s l : read_pragma n indent s = inr l -> parsed_ok l.
Proof.
  unfold read_pragma. destruct (memchr ch_space s) as [[w s1] |]; [| done]. destruct (find_rep rep_names 0 w) as [rep |] eqn:Er; [| done]. apply find_rep_bound in Er. cbn in Er.
  destruct (memchr ch_space (stripl s1)) as [[start s2] |]; [| done]. unfold reg_check. destruct (Z.eqb_spec (parse_offset start) UINT16_MAX); cbn [negb mbind outcome_bind]; [done |].
  destruct (Z.eqb_spec (parse_offset (stripl s2)) UINT16_MAX); cbn [negb mbind outcome_bind]; [done |]. intros [= <-]. pose proof (parse_offset_range start). pose proof (parse_offset_range (stripl s2)).
  unfold parsed_ok, NUM_REP. cbn [l_body]. lia.
Qed.

Lemma read_line_ok n text d d' : Forall parsed_ok d.1 -> read_line n text d = inr d' -> Forall parsed_ok d'.1.
Proof.
  intros Hd. unfold read_line. destruct (read_indent 0 text) as [| [indent s]]; cbn [mbind outcome_bind]; [done |]. destruct (memchr ch_tab _) as [[spec s'] |].
  - destruct (read_field n indent spec s') as [| l] eqn:E; cbn [mbind outcome_bind]; [done |]. intros [= <-]. cbn. apply Forall_app. split; [done |]. constructor; [by eapply read_field_ok | done].
  - destruct (_ && _); [destruct (read_macro _); cbn [mbind outcome_bind]; [done |]; by intros [= <-] |]. destruct (stripr _) as [| c content]; [by intros [= <-] |].
    destruct (read_pragma n indent _) as [| l] eqn:E; cbn [mbind outcome_bind]; [done |]. intros [= <-]. cbn. apply Forall_app. split; [done |]. constructor; [by eapply read_pragma_ok | done].
Qed.

Lemma read_lines_ok input d d' : Forall parsed_ok d.1 -> read_lines input d = inr d' -> Forall parsed_ok d'.1.
Proof.
  unfold read_lines. generalize (text_lines [] input), 1. intros texts. revert d. induction texts as [| text texts IH]; intros d n Hd; cbn [read_text]; [by intros [= <-] |].
  destruct (read_line n text d) as [| d1] eqn:E; cbn [mbind outcome_bind]; [done |]. destruct (reg_check _ _) as [| []]; cbn [mbind outcome_bind]; [done |]. apply IH. by eapply read_line_ok.
Qed.

(** ** From the text to the registers *)
Definition sync_forward (l : line) : Prop :=
  match l_body l with
  | LINE_PRAGMA rep off off_end => rep = REP_SYNC -> off <= off_end < offset_limit
  | LINE_FIELD _ _ _ _ _ => True
  end.

Lemma parsed_line_ok l : parsed_ok l -> sync_forward l -> line_ok l.
Proof. unfold parsed_ok, sync_forward, line_ok. destruct (l_body l); [| done]. intros (H1 & H2 & H3) Hs. split; [done |]. intros Hr. specialize (Hs Hr). lia. Qed.

(** C21: Registers that are printed hold the values that the description gives.
    Whatever text was read, if its sync lines do not move the layout pointer
    backwards and the pointer stays below its limit, then every writable field
    in the selected range can be read back from the printed register at its
    place, as the value of its expression when that is below 2^32, and bits that
    belong to no writable field are 0.  Outside of these conditions the output
    can be wrong: [RegBlob.sync_backwards_misplaced] and
    [RegBlob.value_truncated]. *)
Theorem regtool_correct input lines ms fuel ctx first last values rounds s out :
  read_lines input ([], []) = inr (lines, ms) -> Forall sync_forward lines -> length values = NUM_REP ->
  layout_fields lines (global_reps ctx) rounds values = inr s -> Forall (fun f => f_offset f < offset_limit) (ls_fields s) ->
  0 <= first -> hex_blob fuel ctx lines first last (reverse (ls_fields s)) = inr out ->
  (forall f ln ind name val al size flags, f ∈ ls_fields s -> lines !! f_line f = Some (mkLine ln ind (LINE_FIELD name val al size flags)) -> writable flags = true ->
    first <= f_offset f / 32 <= last -> exists v w, exact_value fuel ctx f val flags = inr v /\ out !! Z.to_nat (f_offset f / 32 - first) = Some w /\
      (0 <= v < 2 ^ 32 -> Z.land (Z.shiftr w (f_offset f mod 32)) (Z.ones size) = v)) /\
  (forall n w k, out !! n = Some w -> 0 <= k -> Z.testbit w k = true -> exists f x, f ∈ ls_fields s /\ value_of fuel ctx lines f x /\
    f_offset f / 32 = first + Z.of_nat n /\ f_offset f mod 32 <= k < f_offset f mod 32 + x.1.2).
Proof.
  intros Hr Hsync Hl Hlay Hlim Hf Hout. apply read_lines_ok in Hr; [| constructor].
  destruct (regtool_output fuel ctx lines first last) with values rounds s out as [Hval Hbits]; try done.
  { cbn in Hr. apply Forall_forall. intros l Hin. apply parsed_line_ok; eapply Forall_forall; eauto. }
  split; [| done]. intros f ln ind name val al size flags Hin Hline Hw Hrange.
  destruct (Hval f ln ind name val al size flags Hin Hline Hw Hrange) as (v & w & Hv & Ho & Hread).
  destruct (field_value_exact _ _ _ _ _ _ _ Hv) as (n & Hn & Heq). exists n, w. split; [done |]. split; [done |]. intros Hr32. rewrite Hread. by apply Heq.
Qed.

(** ** Example *)
Definition demo_text : list Z :=
  ascii_text "macro tOffset = 3 2 +" ++ [ch_newline] ++ ascii_text "macro tWTR = tOffset ns 8tCK max # delays" ++ [ch_newline] ++ ascii_text "freq 0+0 0+24" ++ [ch_newline] ++
  [ch_tab] ++ ascii_text "b8" ++ [ch_tab] ++ ascii_text "A = freq(1, 2 (2) +, 3)" ++ [ch_newline] ++ ascii_text "<h16" ++ [ch_tab] ++ ascii_text "B = tWTR".

Lemma demo_text_read : read_lines demo_text ([], []) = inr (demo_lines, macros demo_context).
Proof. vm_compute. reflexivity. Qed.
Lemma demo_forward : Forall sync_forward demo_lines.
Proof. repeat constructor. discriminate. Qed.
Lemma demo_laid_out : layout_fields demo_lines 0 20 zeros = inr demo_layout.
Proof. vm_compute. reflexivity. Qed.
Lemma demo_printed : hex_blob 60 demo_context demo_lines 0 65535 (reverse (ls_fields demo_layout)) = inr [0x030401; 8].
Proof. vm_compute. reflexivity. Qed.
Lemma demo_limit : Forall (fun f => f_offset f < offset_limit) (ls_fields demo_layout).
Proof. repeat constructor. Qed.

Lemma regtool_correct_witness : exists v w, exact_value 60 demo_context (mkField 1 1 8 (1 :: replicate 10 0)) (ascii_text "freq(1, 2 (2) +, 3)") 0 = inr v /\
  [0x030401; 8] !! 0%nat = Some w /\ (0 <= v < 2 ^ 32 -> Z.land (Z.shiftr w 8) (Z.ones 8) = v).
Proof.
  apply (proj1 (regtool_correct demo_text demo_lines (macros demo_context) 60 demo_context 0 65535 zeros 20 demo_layout [0x030401; 8] demo_text_read demo_forward eq_refl demo_laid_out demo_limit
    (Z.le_refl 0) demo_printed) (mkField 1 1 8 (1 :: replicate 10 0)) 4 1%nat (ascii_text "A") (ascii_text "freq(1, 2 (2) +, 3)") 8 8 0).
  - do 2 apply list_elem_of_further. apply list_elem_of_here.
  - reflexivity.
  - reflexivity.
  - vm_compute. split; discriminate.
Defined.

(** A register number that is too big wraps around, and what follows the bit is ignored. *)
Lemma offset_wraps : parse_offset (ascii_text "134217728+5") = 5 /\ parse_offset (ascii_text "0+5junk") = 5.
Proof. split; vm_compute; reflexivity. Qed.

(** Any prefix of a name, even the empty one, is a repetition directive. *)
Lemma rep_prefix_accepted : find_rep rep_names 0 (ascii_text "") = Some 0%nat /\ find_rep rep_names 0 (ascii_text "d") = Some 4%nat.
Proof. split; vm_compute; reflexivity. Qed.
