(* ===== verification/Idb.v ===== *)
(** * ID blocks

    [rc4.h] and [idbtool.c], which puts a boot loader image into the format that
    the boot ROM reads from SD cards, eMMC and SPI flash.  Standard input is a
    list of bytes; reads and writes that transfer a part are continued by the
    code, so that only the bytes count. *)
From S2P Require Import Prelude.
From stdpp Require Import list.
Open Scope Z_scope.
Open Scope list_scope.

Definition idb_byte (s : list Z) (i : Z) : Z := default 0 (s !! Z.to_nat i).
Definition set_byte (i v : Z) (s : list Z) : list Z := <[Z.to_nat i := v]> s.

(** ** RC4 *)
Fixpoint rc4_loop (buf : list Z) (i j : Z) (state : list Z) : list Z * Z * Z * list Z :=
  match buf with
  | [] => ([], i, j, state)
  | c :: buf =>
      let i := u8 (i + 1) in
      let j := u8 (j + idb_byte state i) in
      let a := idb_byte state i in
      let b := idb_byte state j in
      let state := set_byte j a (set_byte i b state) in
      let '(out, i', j', state') := rc4_loop buf i j state in
      (Z.lxor c (idb_byte state ((a + b) mod 256)) :: out, i', j', state')
  end.

Definition rc4 (buf state : list Z) : list Z * list Z :=
  let '(out, i, j, state) := rc4_loop buf (idb_byte state 256) (idb_byte state 257) state in
  (out, set_byte 257 j (set_byte 256 i state)).

Definition rc4_key : list Z := [124; 78; 3; 4; 85; 5; 9; 7; 45; 44; 123; 56; 23; 13; 23; 17].

Fixpoint rc4_schedule (k : nat) (i j : Z) (state : list Z) : list Z :=
  match k with
  | O => state
  | S k =>
      let j := u8 (j + (idb_byte state i + idb_byte rc4_key (i mod 16))) in
      let tmp := idb_byte state i in
      rc4_schedule k (i + 1) j (set_byte j tmp (set_byte i (idb_byte state j) state))
  end.

Definition rc4_init : list Z := rc4_schedule 256 0 0 (seqZ 0 256 ++ [0; 0]).

(** ** The images *)
Inductive idb_mode : Set := MODE_SD_IMAGE | MODE_SPI_IMAGE.

(** The sizes of a page and of a sector. *)
Definition idb_page : nat := Z.to_nat 2048.
Definition idb_sector : nat := Z.to_nat 512.

Definition zeroes (n : nat) : list Z := replicate n 0.
Definition padding : list Z := zeroes idb_page.
Definition idb_buffer_size : nat := Z.to_nat (2 ^ 22).

Definition idb_sectors (size : Z) : Z := (((size + 4 + 511) / 512) + 3) / 4 * 4.

(** The ID block before its first sector is encrypted. *)
Definition idb_plain (sectors : Z) : list Z :=
  set_byte 509 (u8 (Z.shiftr sectors 8)) (set_byte 508 (Z.land sectors 0xff) (set_byte 507 (u8 (Z.shiftr sectors 8)) (set_byte 506 (Z.land sectors 0xff)
    (set_byte 14 4 (set_byte 12 4 (set_byte 8 1 (set_byte 3 0x0f (set_byte 2 0xf0 (set_byte 1 0xaa (set_byte 0 0x55 (zeroes idb_page))))))))))).

Definition idb_block (sectors : Z) : list Z :=
  let idblock := idb_plain sectors in
  (rc4 (take idb_sector idblock) rc4_init).1 ++ drop idb_sector idblock.

(** The loop that writes the pages of an image for SPI flash, each followed by an
    empty one; the last part of the image is not padded. *)
Fixpoint spi_pages (fuel : nat) (pos : nat) (buf : list Z) : option (list Z) :=
  match fuel with
  | O => None
  | S fuel =>
      if (length buf - idb_page <=? pos)%nat then Some (drop pos buf)
      else match spi_pages fuel (pos + idb_page) buf with
        | Some rest => Some (take idb_page (drop pos buf) ++ padding ++ rest)
        | None => None
        end
  end.

(** What is written; [None] is a failed assertion. *)
Definition idb_write (mode : idb_mode) (buf : list Z) : option (list Z) :=
  let sectors := idb_sectors (Z.of_nat (length buf)) in
  if negb (sectors <? Z.shiftl 1 16) then None
  else match mode with
  | MODE_SD_IMAGE => Some (idb_block sectors ++ buf)
  | MODE_SPI_IMAGE =>
      if (length buf <=? idb_page)%nat then Some (idb_block sectors ++ padding ++ buf)
      else match spi_pages (S (length buf)) idb_page buf with
        | Some rest => Some (idb_block sectors ++ padding ++ take idb_page buf ++ padding ++ rest)
        | None => None
        end
  end.

(** No more is read than fits into the buffer. *)
Definition idb_image (mode : idb_mode) (input : list Z) : option (list Z) := idb_write mode (take idb_buffer_size input).

(** [MODE_DECRYPT] *)
Definition idb_decrypt (input : list Z) : list Z :=
  let buf := take idb_sector input in
  (rc4 (buf ++ zeroes (idb_sector - length buf)) rc4_init).1.

Lemma idb_sizes : Z.of_nat idb_page = 2048 /\ Z.of_nat idb_sector = 512.
Proof. unfold idb_page, idb_sector. lia. Qed.
Ltac page_lia := pose proof idb_sizes; lia || nia.

(** ** Encryption is its own inverse *)
Lemma rc4_loop_inverse buf i j state :
  let '(out, i', j', state') := rc4_loop buf i j state in length out = length buf /\ rc4_loop out i j state = (buf, i', j', state').
Proof.
  revert i j state. induction buf as [| c buf IH]; intros i j state; cbn [rc4_loop]; [done |]. cbv zeta.
  set (i1 := u8 (i + 1)). set (j1 := u8 _). set (a := idb_byte state i1). set (b := idb_byte state j1). set (st := set_byte j1 a _).
  specialize (IH i1 j1 st). destruct (rc4_loop buf i1 j1 st) as [[[out i'] j'] st'] eqn:E. destruct IH as [Hl IH]. cbn [length]. split; [page_lia |]. cbn [rc4_loop]. cbv zeta.
  fold i1. fold j1. fold a. fold b. fold st. rewrite IH. by rewrite Z.lxor_assoc, Z.lxor_nilpotent, Z.lxor_0_r.
Qed.

Lemma rc4_inverse buf state : length (rc4 buf state).1 = length buf /\ (rc4 (rc4 buf state).1 state).1 = buf.
Proof.
  unfold rc4. pose proof (rc4_loop_inverse buf (idb_byte state 256) (idb_byte state 257) state) as H. destruct (rc4_loop buf _ _ state) as [[[out i'] j'] st'] eqn:E.
  destruct H as [Hl H]. cbn [fst]. split; [done |]. by rewrite H.
Qed.

(** ** The header *)
Lemma set_byte_length i v s : length (set_byte i v s) = length s.
Proof. apply length_insert. Qed.

Lemma idb_plain_length sectors : length (idb_plain sectors) = idb_page.
Proof. unfold idb_plain. rewrite !set_byte_length. apply length_replicate. Qed.

Lemma byte_at_set i j v s : 0 <= i -> 0 <= j < Z.of_nat (length s) -> idb_byte (set_byte j v s) i = if i =? j then v else idb_byte s i.
Proof.
  intros Hi Hj. unfold idb_byte, set_byte. destruct (Z.eqb_spec i j) as [-> | Hne]; [by rewrite list_lookup_insert_eq by page_lia | by rewrite list_lookup_insert_ne by page_lia].
Qed.

Lemma idb_plain_byte sectors i : 0 <= i < 2048 -> idb_byte (idb_plain sectors) i =
  if (i =? 508) || (i =? 506) then Z.land sectors 0xff else if (i =? 509) || (i =? 507) then u8 (Z.shiftr sectors 8)
  else if i =? 0 then 0x55 else if i =? 1 then 0xaa else if i =? 2 then 0xf0 else if i =? 3 then 0x0f else if i =? 8 then 1
  else if (i =? 12) || (i =? 14) then 4 else 0.
Proof.
  intros Hi. unfold idb_plain. rewrite !byte_at_set by (rewrite ?set_byte_length; unfold zeroes; rewrite ?length_replicate; page_lia).
  repeat match goal with |- context [i =? ?n] => destruct (Z.eqb_spec i n) as [-> | ?]; [done |]; cbn [orb] end.
  unfold idb_byte, zeroes. rewrite lookup_replicate_2; [done | page_lia].
Qed.

Lemma idb_sectors_bound size : 0 <= size <= 2 ^ 22 -> size + 4 <= 512 * idb_sectors size /\ 0 <= idb_sectors size < 2 ^ 16.
Proof.
  intros Hs. unfold idb_sectors. pose proof (Z.div_mod (size + 4 + 511) 512 ltac:(page_lia)). pose proof (Z.mod_pos_bound (size + 4 + 511) 512 ltac:(page_lia)).
  set (d := (size + 4 + 511) / 512) in *. pose proof (Z.div_mod (d + 3) 4 ltac:(page_lia)). pose proof (Z.mod_pos_bound (d + 3) 4 ltac:(page_lia)). page_lia.
Qed.

(** ** The pages of an image for SPI flash *)
Definition spi_page (k : nat) (img : list Z) : list Z := take idb_page (drop (2 * idb_page * k) img).

Lemma spi_page_next p rest k : length p = idb_page -> spi_page (S k) (p ++ padding ++ rest) = spi_page k rest.
Proof.
  intros Hp. unfold spi_page. replace (2 * idb_page * S k)%nat with (length (p ++ padding) + 2 * idb_page * k)%nat.
  - by rewrite app_assoc, <- drop_drop, drop_app_length.
  - rewrite length_app, Hp. unfold padding, zeroes. rewrite length_replicate. page_lia.
Qed.

Lemma spi_page_first p rest : length p = idb_page -> spi_page 0 (p ++ rest) = p.
Proof. intros Hp. unfold spi_page. rewrite Nat.mul_0_r, drop_0. by apply take_app_length'. Qed.

Lemma spi_pages_correct fuel pos buf : (idb_page < length buf)%nat -> (pos <= length buf)%nat -> (length buf - pos < fuel)%nat ->
  exists rest, spi_pages fuel pos buf = Some rest /\ forall k, spi_page k rest = take idb_page (drop (pos + idb_page * k) buf).
Proof.
  revert pos. induction fuel as [| fuel IH]; intros pos Hb Hp Hf; [page_lia |]. cbn [spi_pages]. destruct (Nat.leb_spec (length buf - idb_page) pos) as [Hle | Hgt].
  - eexists. split; [done |]. intros [| k]; unfold spi_page.
    + by rewrite !Nat.mul_0_r, Nat.add_0_r.
    + rewrite drop_drop, !drop_ge by page_lia. done.
  - destruct (IH (pos + idb_page)%nat) as (rest & -> & Hr); [page_lia | page_lia | page_lia |]. eexists. split; [done |].
    assert (length (take idb_page (drop pos buf)) = idb_page) as Hl by (rewrite length_take, length_drop; page_lia). intros [| k].
    + rewrite spi_page_first by done. by rewrite Nat.mul_0_r, Nat.add_0_r.
    + rewrite spi_page_next, Hr by done. do 2 f_equal. page_lia.
Qed.

(** *** The header of an image *)
Lemma idb_block_length sectors : length (idb_block sectors) = idb_page.
Proof.
  unfold idb_block. cbv zeta. rewrite length_app, (proj1 (rc4_inverse _ _)), <- length_app, take_drop. apply idb_plain_length.
Qed.

Lemma idb_decrypt_block sectors rest : idb_decrypt (idb_block sectors ++ rest) = take idb_sector (idb_plain sectors).
Proof.
  unfold idb_decrypt, idb_block. cbv zeta. set (p := take idb_sector (idb_plain sectors)). assert (length p = idb_sector) as Hp by (unfold p; rewrite length_take, idb_plain_length; page_lia).
  destruct (rc4_inverse p rc4_init) as [Hl Hi]. rewrite <- app_assoc, take_app_length' by congruence. rewrite Hl, Hp, Nat.sub_diag. cbn [zeroes replicate]. by rewrite app_nil_r.
Qed.

Lemma byte_at_take n s i : 0 <= i < Z.of_nat n -> idb_byte (take n s) i = idb_byte s i.
Proof. intros Hi. unfold idb_byte. by rewrite lookup_take_lt by page_lia. Qed.

Lemma split_sectors s : 0 <= s < 2 ^ 16 -> Z.land s 0xff + 256 * u8 (Z.shiftr s 8) = s.
Proof.
  intros Hs. change 0xff with (Z.ones 8). rewrite Z.land_ones, Z.shiftr_div_pow2 by page_lia. rewrite u8_small by (split; [apply Z.div_pos; page_lia | apply Z.div_lt_upper_bound; page_lia]).
  pose proof (Z.div_mod s (2 ^ 8) ltac:(page_lia)). page_lia.
Qed.

Lemma idb_header sectors rest : 0 <= sectors < 2 ^ 16 -> let h := idb_decrypt (idb_block sectors ++ rest) in
  length h = idb_sector /\ (forall i, 0 <= i < 4 -> idb_byte h i = idb_byte [0x55; 0xaa; 0xf0; 0x0f] i) /\
  idb_byte h 506 + 256 * idb_byte h 507 = sectors /\ idb_byte h 508 + 256 * idb_byte h 509 = sectors.
Proof.
  intros Hs h. unfold h. rewrite idb_decrypt_block. split; [rewrite length_take, idb_plain_length; page_lia |]. rewrite !byte_at_take, !idb_plain_byte by page_lia.
  split; [| split; apply split_sectors, Hs]. intros i Hi. rewrite byte_at_take, idb_plain_byte by page_lia.
  assert (i = 0 \/ i = 1 \/ i = 2 \/ i = 3) as [-> | [-> | [-> | ->]]] by page_lia; done.
Qed.

(** [buf] can be found in [img]. *)
Definition holds_image (mode : idb_mode) (buf img : list Z) : Prop :=
  match mode with
  | MODE_SD_IMAGE => drop idb_page img = buf
  | MODE_SPI_IMAGE => forall k, spi_page (S k) img = take idb_page (drop (idb_page * k) buf)
  end.

Lemma idb_write_correct mode buf : idb_sectors (Z.of_nat (length buf)) < 2 ^ 16 ->
  exists rest, idb_write mode buf = Some (idb_block (idb_sectors (Z.of_nat (length buf))) ++ rest) /\
    holds_image mode buf (idb_block (idb_sectors (Z.of_nat (length buf))) ++ rest).
Proof.
  unfold idb_write. cbv zeta. set (sectors := idb_sectors _). intros Hs. rewrite (proj2 (Z.ltb_lt sectors (Z.shiftl 1 16))) by exact Hs. cbn [negb].
  pose proof (idb_block_length sectors) as Hbl. destruct mode; cbn [holds_image].
  - exists buf. split; [reflexivity |]. by apply drop_app_length'.
  - destruct (Nat.leb_spec (length buf) idb_page) as [Hle | Hgt].
    + exists (padding ++ buf). split; [reflexivity |]. intros k. rewrite spi_page_next by exact Hbl. unfold spi_page.
      destruct k as [| k]; [by rewrite !Nat.mul_0_r |]. by rewrite !drop_ge by page_lia.
    + destruct (spi_pages_correct (S (length buf)) idb_page buf) as (rest & -> & Hr); [page_lia | page_lia | page_lia |].
      exists (padding ++ take idb_page buf ++ padding ++ rest). split; [reflexivity |]. intros k. rewrite spi_page_next by exact Hbl.
      assert (length (take idb_page buf) = idb_page) as Ht by (rewrite length_take; page_lia). destruct k as [| k].
      * by rewrite spi_page_first, Nat.mul_0_r, drop_0 by exact Ht.
      * rewrite spi_page_next, Hr by exact Ht. do 2 f_equal. page_lia.
Qed.

(** ** The format

    RC4 as it is usually described: a permutation of the bytes, the key
    schedule, and the bytes that are generated. *)
Definition swap (s : Z -> Z) (i j : Z) : Z -> Z := fun k => if k =? i then s j else if k =? j then s i else s k.

Fixpoint ksa (key : list Z) (n : nat) (i j : Z) (s : Z -> Z) : Z -> Z :=
  match n with
  | O => s
  | S n =>
      let j := (j + s i + nth (Z.to_nat (i mod Z.of_nat (length key))) key 0) mod 256 in
      ksa key n (i + 1) j (swap s i j)
  end.

Fixpoint prga (n : nat) (i j : Z) (s : Z -> Z) : list Z :=
  match n with
  | O => []
  | S n =>
      let i := (i + 1) mod 256 in
      let j := (j + s i) mod 256 in
      let s := swap s i j in
      s ((s i + s j) mod 256) :: prga n i j s
  end.

(** The key of the boot ROM. *)
Definition bootrom_key : list Z :=
  [0x7c; 0x4e; 0x03; 0x04; 0x55; 0x05; 0x09; 0x07; 0x2d; 0x2c; 0x7b; 0x38; 0x17; 0x0d; 0x17; 0x11].
Definition keystream (n : nat) : list Z := prga n 0 0 (ksa bootrom_key 256 0 0 (fun k => k)).
Definition xor_bytes (a b : list Z) : list Z := zip_with Z.lxor a b.

(** The header: the magic number, no encryption of the image, where the image
    starts, and twice the number of its sectors. *)
Definition header_spec (sectors : Z) : list Z :=
  [0x55; 0xaa; 0xf0; 0x0f; 0; 0; 0; 0; 1; 0; 0; 0; 4; 0; 4; 0] ++ replicate 490 0 ++ le_bytes 2 sectors ++ le_bytes 2 sectors ++ [0; 0].

(** *** RC4 *)
Definition state_rep (state : list Z) (s : Z -> Z) : Prop := length state = 258%nat /\ forall k, 0 <= k < 256 -> idb_byte state k = s k.

Lemma state_swap state s i j : state_rep state s -> 0 <= i < 256 -> 0 <= j < 256 ->
  state_rep (set_byte j (idb_byte state i) (set_byte i (idb_byte state j) state)) (swap s i j).
Proof.
  intros [Hl Hs] Hi Hj. split; [by rewrite !set_byte_length |]. intros k Hk. unfold swap.
  rewrite !byte_at_set by (rewrite ?set_byte_length; lia). rewrite !Hs by done.
  destruct (Z.eqb_spec k i), (Z.eqb_spec k j); subst; done.
Qed.

Lemma rc4_loop_keystream buf i j state s : state_rep state s ->
  (rc4_loop buf i j state).1.1.1 = xor_bytes buf (prga (length buf) i j s).
Proof.
  intros Hs. induction buf as [| c buf IH] in i, j, state, s, Hs |- *; [done |]. cbn [rc4_loop length prga]. cbv zeta. change u8 with (fun x => x mod 256). cbv beta.
  set (i1 := (i + 1) mod 256). assert (0 <= i1 < 256) as Hi by (apply Z.mod_pos_bound; lia). rewrite (proj2 Hs i1 Hi).
  set (j1 := (j + s i1) mod 256). assert (0 <= j1 < 256) as Hj by (apply Z.mod_pos_bound; lia). rewrite (proj2 Hs j1 Hj).
  pose proof (state_swap state s i1 j1 Hs Hi Hj) as Hs1. rewrite (proj2 Hs i1 Hi), (proj2 Hs j1 Hj) in Hs1.
  specialize (IH i1 j1 _ _ Hs1). destruct (rc4_loop buf i1 j1 _) as [[[out i'] j'] st']. cbn [fst] in *.
  unfold xor_bytes in *. cbn [zip_with]. f_equal; [| exact IH]. f_equal. rewrite (proj2 Hs1) by (apply Z.mod_pos_bound; lia).
  f_equal. unfold swap at 1 2. rewrite Z.eqb_refl. destruct (Z.eqb_spec j1 i1) as [E | _]; [by rewrite E | rewrite Z.eqb_refl; f_equal; lia].
Qed.

Lemma rc4_schedule_ksa n i j state s : state_rep state s -> 0 <= i -> i + Z.of_nat n <= 256 -> 0 <= j < 256 ->
  state_rep (rc4_schedule n i j state) (ksa bootrom_key n i j s).
Proof.
  induction n as [| n IH] in i, j, state, s |- *; intros Hs Hi Hn Hj; [done |]. cbn [rc4_schedule ksa]. cbv zeta.
  change (Z.of_nat (length bootrom_key)) with 16. rewrite (proj2 Hs i) by lia.
  assert (idb_byte rc4_key (i mod 16) = nth (Z.to_nat (i mod 16)) bootrom_key 0) as ->.
  { unfold idb_byte. rewrite <- nth_lookup. done. }
  change u8 with (fun x => x mod 256). cbv beta. rewrite Z.add_assoc. set (j1 := (j + s i + _) mod 256). assert (0 <= j1 < 256) as Hj1 by (apply Z.mod_pos_bound; lia).
  apply IH; [| lia | lia | done]. pose proof (state_swap state s i j1 Hs ltac:(lia) Hj1) as H. by rewrite (proj2 Hs i) in H by lia.
Qed.

Lemma init_rep : state_rep (seqZ 0 256 ++ [0; 0]) (fun k => k).
Proof.
  split; [by rewrite length_app, length_seqZ |]. intros k Hk. unfold idb_byte.
  rewrite lookup_app_l by (rewrite length_seqZ; lia). by rewrite (proj2 (lookup_seqZ 0 256 (Z.to_nat k) k)) by lia.
Qed.

(** The registers that the code keeps behind the permutation. *)
Lemma schedule_above n i j state k : 0 <= i -> i + Z.of_nat n <= 256 -> length state = 258%nat -> 256 <= k < 258 ->
  idb_byte (rc4_schedule n i j state) k = idb_byte state k.
Proof.
  induction n as [| n IH] in i, j, state |- *; intros Hi Hn Hl Hk; [done |]. cbn [rc4_schedule]. cbv zeta. set (j1 := u8 _).
  pose proof (u8_range (j + (idb_byte state i + idb_byte rc4_key (i mod 16)))) as Hj. fold j1 in Hj.
  rewrite IH by (rewrite ?set_byte_length; lia). rewrite !byte_at_set by (rewrite ?set_byte_length; lia).
  by rewrite !(proj2 (Z.eqb_neq k _)) by lia.
Qed.

Lemma init_ksa : state_rep rc4_init (ksa bootrom_key 256 0 0 (fun k => k)) /\ idb_byte rc4_init 256 = 0 /\ idb_byte rc4_init 257 = 0.
Proof.
  assert (length (seqZ 0 256 ++ [0; 0]) = 258%nat) as Hl by done.
  split; [apply (rc4_schedule_ksa 256 0 0 _ _ init_rep); lia |].
  unfold rc4_init. split; (rewrite schedule_above; [reflexivity | lia | lia | exact Hl | lia]).
Qed.

Lemma rc4_keystream buf : (rc4 buf rc4_init).1 = xor_bytes buf (keystream (length buf)).
Proof.
  destruct init_ksa as (Hs & H1 & H2). unfold keystream. revert Hs H1 H2. generalize rc4_init, (ksa bootrom_key 256 0 0 (fun k => k)). intros state s Hs H1 H2.
  unfold rc4. rewrite H1, H2, <- (rc4_loop_keystream buf 0 0 state s Hs). by destruct (rc4_loop buf 0 0 state) as [[[out i'] j'] st'].
Qed.

(** *** The header *)
Ltac no_match := repeat match goal with |- context [?n =? ?c] => destruct (Z.eqb_spec n c); [lia |]; cbn [orb] end; done.

Lemma idb_plain_spec sectors : 0 <= sectors < 2 ^ 16 -> idb_plain sectors = header_spec sectors ++ replicate (Z.to_nat 1536) 0.
Proof.
  intros Hs. assert (length (header_spec sectors) = 512%nat) as Hh by done.
  apply list_eq_same_length with (n := idb_page); [rewrite length_app, Hh, length_replicate; page_lia | apply idb_plain_length |].
  intros n x y Hn. pose proof idb_sizes as [Hp _].
  assert (idb_byte (idb_plain sectors) (Z.of_nat n) = idb_byte (header_spec sectors ++ replicate (Z.to_nat 1536) 0) (Z.of_nat n)) as E.
  { rewrite idb_plain_byte by lia. unfold idb_byte. rewrite Nat2Z.id.
    destruct (Nat.lt_ge_cases n 512) as [Hlt | Hge].
    2: { rewrite lookup_app_r, Hh, lookup_replicate_2 by lia. cbn [default]. no_match. }
    rewrite lookup_app_l by lia. unfold header_spec.
    assert (Z.land sectors 255 = sectors mod 256) as Eland by (apply (Z.land_ones sectors 8); lia).
    assert (u8 (Z.shiftr sectors 8) = sectors / 256) as Eshr.
    { rewrite Z.shiftr_div_pow2 by lia. change (2 ^ 8) with 256. apply u8_small. split; [apply Z.div_pos; lia | apply Z.div_lt_upper_bound; lia]. }
    destruct (Nat.lt_ge_cases n 16) as [H16 | H16].
    { rewrite lookup_app_l by (cbn; lia). do 16 (destruct n as [| n]; [reflexivity |]). lia. }
    rewrite lookup_app_r by (cbn; lia). change (length [_; _; _; _; _; _; _; _; _; _; _; _; _; _; _; _]) with 16%nat.
    destruct (Nat.lt_ge_cases n 506) as [H506 | H506].
    { rewrite lookup_app_l, lookup_replicate_2 by (rewrite ?length_replicate; lia). cbn [default]. no_match. }
    rewrite lookup_app_r by (rewrite length_replicate; lia). rewrite length_replicate.
    assert (n = 506 \/ n = 507 \/ n = 508 \/ n = 509 \/ n = 510 \/ n = 511)%nat as Hc by lia.
    rewrite Eland, Eshr. assert (sectors / 256 mod 256 = sectors / 256) as Em by (apply Z.mod_small; split; [apply Z.div_pos; lia | apply Z.div_lt_upper_bound; lia]).
    destruct Hc as [-> | [-> | [-> | [-> | [-> | ->]]]]]; cbn; rewrite ?Em; done. }
  unfold idb_byte in E. rewrite Nat2Z.id in E. intros H1 H2. by rewrite H1, H2 in E.
Qed.

Lemma idb_block_spec sectors : 0 <= sectors < 2 ^ 16 ->
  idb_block sectors = xor_bytes (header_spec sectors) (keystream 512) ++ replicate (Z.to_nat 1536) 0.
Proof.
  intros Hs. assert (length (header_spec sectors) = idb_sector) as Hh by done.
  unfold idb_block. cbv zeta. rewrite idb_plain_spec by done. rewrite take_app_length', drop_app_length', rc4_keystream by done. by rewrite Hh.
Qed.

(** C29: ID blocks hold the image.  For every input of at most 4 MiB and both
    formats an image is written.  It starts with the header, encrypted by RC4
    with the key of the boot ROM and padded to 2 KiB: the magic number, the flag
    that the image is not encrypted, where the image starts, and the number of
    sectors of the image with four more bytes, in whole pages; decrypting gives
    the header back.  The input follows: contiguously for SD and eMMC, for SPI in
    the first half of every 4 KiB. *)
Theorem idb_image_correct mode input : Z.of_nat (length input) <= 2 ^ 22 ->
  let header := header_spec (4 * ((Z.of_nat (length input) + 4 + 2047) / 2048)) in
  exists rest, let img := xor_bytes header (keystream 512) ++ replicate (Z.to_nat 1536) 0 ++ rest in
    idb_image mode input = Some img /\ idb_decrypt img = header /\ holds_image mode input img.
Proof.
  intros Hb header. assert (take idb_buffer_size input = input) as Hbuf.
  { apply take_ge. unfold idb_buffer_size. clear - Hb. lia. }
  unfold idb_image. rewrite Hbuf.
  destruct (idb_sectors_bound (Z.of_nat (length input)) ltac:(lia)) as [Hs1 Hs2].
  assert (idb_sectors (Z.of_nat (length input)) = 4 * ((Z.of_nat (length input) + 4 + 2047) / 2048)) as Hsec by (unfold idb_sectors; clear; dlia).
  destruct (idb_write_correct mode input (proj2 Hs2)) as (rest & Hw & Hi). exists rest. cbv zeta. unfold header. rewrite <- Hsec.
  rewrite app_assoc, <- idb_block_spec by exact Hs2. split; [exact Hw |]. split; [| exact Hi].
  rewrite idb_decrypt_block, idb_plain_spec by exact Hs2. by apply take_app_length'.
Qed.

Lemma idb_image_correct_witness :
  exists rest, let img := xor_bytes (header_spec 4) (keystream 512) ++ replicate (Z.to_nat 1536) 0 ++ rest in
    idb_image MODE_SD_IMAGE [1; 2; 3] = Some img /\ idb_decrypt img = header_spec 4 /\ holds_image MODE_SD_IMAGE [1; 2; 3] img.
Proof. apply (idb_image_correct MODE_SD_IMAGE [1; 2; 3]). cbn. lia. Defined.
