(* ===== verification/Flash.v ===== *)
(** * Writing SPI flash

    [usb_loader-spi.c]: the flash memory says in its SFDP tables which erase
    commands it has; a range is erased with the largest commands that fit, and
    programmed page by page.  Commands go through the FIFO of the SPI controller,
    whose speed is arbitrary; the flash memory is a parameter, a machine that
    executes the bytes it is sent and works for some time, with the behaviour that
    such memories document as a class. *)
From S2P Require Import Prelude.
From stdpp Require Import list.
Open Scope Z_scope.
Open Scope list_scope.

(** ** The erase commands

    [struct erase_op]: the size as a power of two, and the command. *)
Record erase_op : Type := mkErase {
  eo_shift : Z;
  eo_opcode : Z;
}.

Section Sfdp.
Context (sfdp : Z -> Z).

(** The four entries of a parameter table at [ptp]. *)
Fixpoint table_ops (j : list Z) (ptp : Z) (ops : list erase_op) : list erase_op :=
  match j with
  | [] => ops
  | j :: js =>
      let shift := sfdp (ptp + (0x1c + j * 2)) in
      let op := sfdp (ptp + (0x1d + j * 2)) in
      table_ops js ptp (if negb (shift =? 0) && (length ops <? 16)%nat && (shift <=? 16) then ops ++ [mkErase shift op] else ops)
  end.

Definition header_ops (i : Z) (ops : list erase_op) : list erase_op :=
  let at_ k := sfdp (8 + i * 8 + k) in
  let id := at_ 0 in let rev_major := at_ 1 in let rev_minor := at_ 2 in let len := at_ 3 in
  let ptp := Z.lor (Z.lor (at_ 4) (Z.shiftl (at_ 5) 8)) (Z.shiftl (at_ 6) 16) in
  if id =? 0 then
    if negb (rev_major =? 0) || (rev_minor =? 0) || (len <? 9) then ops
    else table_ops [0; 1; 2; 3] ptp ops
  else ops.

(** [None]: not a flash memory that can be used. *)
Definition read_erase_ops : option (list erase_op) :=
  if negb ((sfdp 0 =? 83) && (sfdp 1 =? 70) && (sfdp 2 =? 68) && (sfdp 3 =? 80)) then None
  else if negb ((sfdp 4 =? 0) && negb (sfdp 5 =? 0)) then None
  else Some (fold_left (fun ops i => header_ops i ops) (seqZ 0 (sfdp 6 + 1)) []).
End Sfdp.

(** The insertion sort, as it is written: entries with a larger size are
    overwritten by the entry behind them.  [p] is the index before it is
    decremented; the result is where [tmp] is stored. *)
Definition op_at (ops : list erase_op) (i : nat) : erase_op := default (mkErase 0 0) (ops !! i).

Fixpoint sort_shift_ops (p : nat) (tmp : erase_op) (ops : list erase_op) : nat * list erase_op :=
  match p with
  | O => (0%nat, ops)
  | S p =>
      if eo_shift tmp <? eo_shift (op_at ops p) then sort_shift_ops p tmp (<[p := op_at ops (S p)]> ops)
      else (S p, ops)
  end.

Definition sort_insert (ops : list erase_op) (i : nat) : list erase_op :=
  let tmp := op_at ops i in
  let '(k, ops) := sort_shift_ops i tmp ops in <[k := tmp]> ops.

Definition sort_erase_ops (ops : list erase_op) : list erase_op := fold_left sort_insert (seq 1 (length ops - 1)) ops.

(** The largest command that fits at [erased_until]; the smallest one has to be
    aligned, but may go beyond the end. *)
Fixpoint choose_op (p : nat) (ops : list erase_op) (erased_until end_ : Z) : option erase_op :=
  let op := op_at ops p in
  let size := u32 (Z.shiftl 1 (eo_shift op)) in
  let mask := size - 1 in
  if (Z.land erased_until mask =? 0) && (erased_until + size <=? end_) then Some op
  else match p with
  | O => if Z.land erased_until mask =? 0 then Some op else None
  | S p => choose_op p ops erased_until end_
  end.

(** ** Commands

    [tx_cmd]: the bytes that reach the wire.  [sent i] is the number of bytes that
    the controller sends between writes [i - 1] and [i] to the FIFO, [level] its
    fill level; a byte that is written to a full FIFO is lost. *)
Fixpoint tx_cmd (sent : nat -> nat) (i : nat) (level fifo_left : Z) (buf : list Z) : list Z :=
  match buf with
  | [] => []
  | c :: buf =>
      let level := Z.max 0 (level - Z.of_nat (sent i)) in
      let fifo_left := if fifo_left =? 0 then u32 (32 - level) else fifo_left in
      if level <? 32 then c :: tx_cmd sent (S i) (level + 1) (u32 (fifo_left - 1)) buf
      else tx_cmd sent (S i) level (u32 (fifo_left - 1)) buf
  end.

Section Flash.
(** [exec] is what the memory does with the bytes of a command, [status] a byte of
    its status register; [sent] is the speed of the controller for every command,
    and [polls] bounds the polling. *)
Context {F : Type} (exec : list Z -> F -> F) (status : F -> Z * F) (sent : nat -> nat -> nat) (polls : nat).

(** The memory, and the number of commands up to now. *)
Record spi_bus : Type := mkBus {
  bus_flash : F;
  bus_count : nat;
}.

Definition send_cmd (cmd : list Z) (b : spi_bus) : spi_bus :=
  mkBus (exec (tx_cmd (sent (bus_count b)) 0 0 32 cmd) (bus_flash b)) (S (bus_count b)).

(** [wait_until_ready]: [None] when the memory is still busy after [fuel] polls. *)
Fixpoint poll_status (fuel : nat) (f : F) : option F :=
  let '(rx, f) := status f in
  if Z.land rx 1 =? 0 then Some f
  else match fuel with
  | O => None
  | S fuel => poll_status fuel f
  end.

Definition wait_until_ready (b : spi_bus) : option spi_bus :=
  match poll_status polls (bus_flash b) with
  | Some f => Some (mkBus f (bus_count b))
  | None => None
  end.

(** Write enable, a command and the wait for its end. *)
Definition write_cmd (cmd : list Z) (b : spi_bus) : option spi_bus := wait_until_ready (send_cmd cmd (send_cmd [6] b)).

Definition addr_bytes (a : Z) : list Z := [u8 (Z.shiftr a 16); u8 (Z.shiftr a 8); u8 a].

Definition erase_cmd (op : erase_op) (erased_until : Z) : list Z :=
  let erase_cmd := u32 (Z.lor (u32 (Z.shiftl (eo_opcode op) 24)) erased_until) in
  u8 (Z.shiftr erase_cmd 24) :: addr_bytes erase_cmd.

Fixpoint erase_loop (fuel : nat) (ops : list erase_op) (erased_until end_ : Z) (b : spi_bus) : option (Z * spi_bus) :=
  match fuel with
  | O => None
  | S fuel =>
      if erased_until <? end_ then
        match choose_op (length ops - 1) ops erased_until end_ with
        | None => None
        | Some op =>
            match write_cmd (erase_cmd op erased_until) b with
            | Some b => erase_loop fuel ops (erased_until + Z.shiftl 1 (eo_shift op)) end_ b
            | None => None
            end
        end
      else Some (erased_until, b)
  end.

(** The loops that fill the command buffer: [more] is their condition on the
    write pointer after it was incremented.  [None]: behind the end of the data. *)
Fixpoint fill_cmd (fuel : nat) (more : Z -> bool) (write_ptr : Z) (data : list Z) : option (list Z * Z * list Z) :=
  match fuel, data with
  | S fuel, c :: data =>
      let write_ptr := write_ptr + 1 in
      if more write_ptr then
        match fill_cmd fuel more write_ptr data with
        | Some (cmd, write_ptr, data) => Some (c :: cmd, write_ptr, data)
        | None => None
        end
      else Some ([c], write_ptr, data)
  | _, _ => None
  end.

Definition page_of (a : Z) : Z := Z.land a 0xffff00.
Definition program_cmd (write_ptr : Z) (bytes : list Z) : list Z := 2 :: addr_bytes write_ptr ++ bytes.

Fixpoint program_loop (fuel : nat) (write_ptr end_ : Z) (data : list Z) (b : spi_bus) : option spi_bus :=
  match fuel with
  | O => None
  | S fuel =>
      if negb (page_of write_ptr =? page_of (end_ - 1)) then
        match fill_cmd 256 (fun p => negb (Z.land p 0xff =? 0)) write_ptr data with
        | Some (bytes, write_ptr', data) =>
            match write_cmd (program_cmd write_ptr bytes) b with
            | Some b => program_loop fuel write_ptr' end_ data b
            | None => None
            end
        | None => None
        end
      else if negb (write_ptr =? end_) then
        match fill_cmd 256 (fun p => p <? end_) write_ptr data with
        | Some (bytes, _, _) => write_cmd (program_cmd write_ptr bytes) b
        | None => None
        end
      else Some b
  end.

Definition usb_flash_spi (sfdp : Z -> Z) (buf : list Z) (start len : Z) (b : spi_bus) : option spi_bus :=
  match read_erase_ops sfdp with
  | None => None
  | Some ops =>
      if (length ops =? 0)%nat then None
      else
        let ops := sort_erase_ops ops in
        if negb (len <=? u64 (0x01000000 - start)) then None
        else
          let end_ := start + len in
          match erase_loop (S (Z.to_nat len)) ops start end_ b with
          | None => None
          | Some (_, b) => program_loop (S (Z.to_nat len)) start end_ buf b
          end
  end.
End Flash.
Arguments mkBus {F} _ _.
Arguments bus_flash {F} _.
Arguments bus_count {F} _.

(** ** The sort leaves suffix minima *)
Lemma op_at_insert i j x ops : (j < length ops)%nat -> op_at (<[j := x]> ops) i = if (i =? j)%nat then x else op_at ops i.
Proof. intros Hj. unfold op_at. destruct (Nat.eqb_spec i j) as [-> | Hne]; [by rewrite list_lookup_insert_eq | by rewrite list_lookup_insert_ne]. Qed.

Lemma sort_shift_spec p tmp ops : (p < length ops)%nat -> op_at ops p = tmp ->
  let '(k, ops') := sort_shift_ops p tmp ops in
  length ops' = length ops /\ (k <= p)%nat /\ (forall j, op_at ops' j = if (k <=? j)%nat && (j <=? p)%nat then tmp else op_at ops j) /\
  (k = 0%nat \/ eo_shift (op_at ops (k - 1)) <= eo_shift tmp) /\ (forall j, (k <= j < p)%nat -> eo_shift tmp < eo_shift (op_at ops j)).
Proof.
  revert ops. induction p as [| p IH]; intros ops Hp Ht; cbn [sort_shift_ops].
  { split; [done |]. split; [lia |]. split; [by intros [| j] |]. split; [by left | intros j Hj; lia]. }
  destruct (Z.ltb_spec (eo_shift tmp) (eo_shift (op_at ops p))) as [Hlt | Hge].
  - rewrite Ht. specialize (IH (<[p := tmp]> ops)). rewrite length_insert in IH. specialize (IH ltac:(lia)). rewrite op_at_insert, Nat.eqb_refl in IH by lia. specialize (IH eq_refl).
    destruct (sort_shift_ops p tmp (<[p := tmp]> ops)) as [k ops']. destruct IH as (Hl & Hk & Hat & Hle & Hgt). split; [done |]. split; [lia |]. split; [| split].
    + intros j. rewrite Hat, op_at_insert by lia. destruct (Nat.leb_spec k j), (Nat.leb_spec j p), (Nat.leb_spec j (S p)), (Nat.eqb_spec j p); cbn [andb]; try (exfalso; lia); try done.
      by replace j with (S p) by lia.
    + destruct Hle as [-> | Hle]; [by left |]. rewrite op_at_insert in Hle by lia. destruct (Nat.eqb_spec (k - 1) p); [left; lia | by right].
    + intros j Hj. destruct (decide (j = p)) as [-> | Hne]; [done |]. pose proof (Hgt j ltac:(lia)) as H. rewrite op_at_insert, (proj2 (Nat.eqb_neq _ _) Hne) in H by lia. done.
  - split; [done |]. split; [lia |]. split; [| split; [right; by replace (S p - 1)%nat with p by lia | intros j Hj; lia]]. intros j.
    destruct (Nat.leb_spec (S p) j), (Nat.leb_spec j (S p)); cbn [andb]; try (exfalso; lia); try done. by replace j with (S p) by lia.
Qed.

(** Sorted up to [i], made of entries of [ops], with the smallest of the first in front. *)
Definition sorted_to (ops : list erase_op) (i : nat) (cur : list erase_op) : Prop :=
  length cur = length ops /\ (forall j k, (j <= k <= i)%nat -> eo_shift (op_at cur j) <= eo_shift (op_at cur k)) /\
  (forall j, (j < length ops)%nat -> exists k, (k < length ops)%nat /\ op_at cur j = op_at ops k) /\
  (forall j, (j <= i)%nat -> eo_shift (op_at cur 0) <= eo_shift (op_at ops j)) /\ (forall j, (i < j)%nat -> op_at cur j = op_at ops j).

Lemma sort_insert_spec ops i cur : (S i < length ops)%nat -> sorted_to ops i cur -> sorted_to ops (S i) (sort_insert cur (S i)).
Proof.
  intros Hi (Hl & Hs & He & Hm & Hr). unfold sort_insert. set (tmp := op_at cur (S i)). pose proof (sort_shift_spec (S i) tmp cur ltac:(lia) eq_refl) as Hsp.
  destruct (sort_shift_ops (S i) tmp cur) as [k ops']. destruct Hsp as (Hl' & Hk & Hat & Hle & Hgt).
  assert (forall j, op_at (<[k := tmp]> ops') j = if (k <=? j)%nat && (j <=? S i)%nat then tmp else op_at cur j) as Hat'.
  { intros j. rewrite op_at_insert, Hat by lia. destruct (Nat.eqb_spec j k) as [-> |]; [| done]. by rewrite Nat.leb_refl, (proj2 (Nat.leb_le _ _) Hk). }
  assert (tmp = op_at ops (S i)) as Htmp by (apply Hr; lia).
  assert (forall j, (j < k)%nat -> eo_shift (op_at cur j) <= eo_shift tmp) as Hbelow.
  { intros j Hj. destruct Hle as [-> | Hle]; [lia |]. pose proof (Hs j (k - 1)%nat ltac:(lia)). lia. }
  split; [by rewrite length_insert, Hl' |]. split; [| split; [| split]].
  - intros a b Hab. rewrite !Hat'. destruct (Nat.leb_spec k a), (Nat.leb_spec k b), (Nat.leb_spec a (S i)), (Nat.leb_spec b (S i)); cbn [andb]; try (exfalso; lia); [lia | apply Hbelow; lia | apply Hs; lia].
  - intros j Hj. rewrite Hat'. destruct (_ && _); [exists (S i); by split | by apply He].
  - intros j Hj. rewrite Hat'. assert (eo_shift (op_at cur 0) <= eo_shift (op_at ops j) \/ j = S i) as Hcase by (destruct (decide (j = S i)) as [-> | ?]; [by right | left; apply Hm; lia]).
    destruct (Nat.leb_spec k 0) as [Hk0 | Hk0]; cbn [andb Nat.leb].
    + destruct Hcase as [Hc | ->]; [| by rewrite <- Htmp]. pose proof (Hgt 0%nat ltac:(lia)). lia.
    + destruct Hcase as [Hc | ->]; [done |]. rewrite <- Htmp. apply Hbelow. lia.
  - intros j Hj. rewrite Hat'. destruct (Nat.leb_spec k j), (Nat.leb_spec j (S i)); cbn [andb]; try (exfalso; lia); apply Hr; lia.
Qed.

Lemma sort_erase_ops_sorted ops : ops <> [] -> sorted_to ops (length ops - 1) (sort_erase_ops ops).
Proof.
  intros Hne. assert (0 < length ops)%nat as H0 by (destruct ops; [done | cbn; lia]). unfold sort_erase_ops.
  assert (forall n i cur, (i + n < length ops)%nat -> sorted_to ops i cur -> sorted_to ops (i + n) (fold_left sort_insert (seq (S i) n) cur)) as H.
  { induction n as [| n IH]; intros i cur Hn Hc; cbn [seq fold_left]; [by rewrite Nat.add_0_r |].
    replace (i + S n)%nat with (S i + n)%nat by lia. apply IH; [lia |]. apply sort_insert_spec; [lia | done]. }
  apply (H (length ops - 1)%nat 0%nat ops); [lia |]. repeat split.
  - intros j k Hjk. by assert (j = 0%nat) as -> by lia; assert (k = 0%nat) as -> by lia.
  - intros j Hj. by exists j.
  - intros j Hj. by assert (j = 0%nat) as -> by lia.
Qed.

Lemma op_at_elem ops k : (k < length ops)%nat -> op_at ops k ∈ ops.
Proof. intros Hk. unfold op_at. destruct (lookup_lt_is_Some_2 ops k Hk) as [x Hx]. rewrite Hx. by apply list_elem_of_lookup_2 in Hx. Qed.

(** The sorted commands: all of them in the table, none smaller than the first. *)
Lemma sort_erase_ops_spec ops : ops <> [] -> let s := sort_erase_ops ops in
  length s = length ops /\ (forall k, (k < length s)%nat -> op_at s k ∈ ops /\ eo_shift (op_at s 0) <= eo_shift (op_at s k)) /\
  (forall op, op ∈ ops -> eo_shift (op_at s 0) <= eo_shift op).
Proof.
  intros Hne s. destruct (sort_erase_ops_sorted ops Hne) as (Hl & Hs & He & Hm & _). fold s in Hl, Hs, He, Hm. split; [done |]. split.
  - intros k Hk. split; [destruct (He k ltac:(lia)) as (j & Hj & ->); by apply op_at_elem |]. apply Hs. lia.
  - intros op Hop. apply list_elem_of_lookup in Hop as [j Hj]. pose proof (lookup_lt_Some _ _ _ Hj). pose proof (Hm j ltac:(lia)) as Hmj. unfold op_at in Hmj at 2. by rewrite Hj in Hmj.
Qed.

(** What is read from the tables can be used. *)
Definition erase_op_ok (op : erase_op) : Prop := 1 <= eo_shift op <= 16 /\ 0 <= eo_opcode op < 256.

Lemma read_erase_ops_ok sfdp ops : (forall a, is_byte (sfdp a)) -> read_erase_ops sfdp = Some ops -> Forall erase_op_ok ops.
Proof.
  intros Hb. assert (forall js ptp ops, Forall erase_op_ok ops -> Forall erase_op_ok (table_ops sfdp js ptp ops)) as Ht.
  { induction js as [| j js IH]; intros ptp ops0 Ho; cbn [table_ops]; [done |]. apply IH. destruct (negb _ && _ && _) eqn:E; [| done]. apply Forall_app. split; [done |]. constructor; [| done].
    apply andb_true_iff in E as [[E1 _]%andb_true_iff E2]. apply negb_true_iff, Z.eqb_neq in E1. apply Z.leb_le in E2. pose proof (Hb (ptp + (0x1c + j * 2))) as H1. pose proof (Hb (ptp + (0x1d + j * 2))) as H2.
    unfold is_byte in *. split; cbn; lia. }
  assert (forall i ops, Forall erase_op_ok ops -> Forall erase_op_ok (header_ops sfdp i ops)) as Hh.
  { intros i ops0 Ho. unfold header_ops. destruct (_ =? 0); [| done]. destruct (_ || _ || _); [done | by apply Ht]. }
  unfold read_erase_ops. destruct (negb _); [done |]. destruct (negb _); [done |]. intros [= <-].
  assert (forall l ops, Forall erase_op_ok ops -> Forall erase_op_ok (fold_left (fun ops i => header_ops sfdp i ops) l ops)) as Hf; [| apply Hf; constructor].
  induction l as [| i l IH]; intros ops0 Ho; cbn [fold_left]; [done | by apply IH, Hh].
Qed.

(** ** Flash memory

    What such memories document: when it is not busy, a command takes effect after
    write enable; erasing sets a block to ones, programming clears bits within a
    page of 256 bytes.  The memory is busy for a limited time then, which bit 0 of
    its status tells; [flash_result] is what it holds at the end.  [ops] are the
    erase commands of its tables. *)
Class SpiFlash {F : Type} (exec : list Z -> F -> F) (status : F -> Z * F) (polls : nat) (content : F -> Z -> Z) (ops : list erase_op) : Type := {
  flash_busy : F -> nat;
  flash_enabled : F -> Prop;
  flash_result : F -> Z -> Z;
  flash_idle : forall f, flash_busy f = 0%nat -> forall x, flash_result f x = content f x;
  flash_status : forall f, let '(rx, f') := status f in
    (if Z.land rx 1 =? 0 then flash_busy f' = 0%nat else (flash_busy f' < flash_busy f)%nat) /\ forall x, flash_result f' x = flash_result f x;
  flash_wren : forall f, flash_busy f = 0%nat ->
    flash_enabled (exec [6] f) /\ flash_busy (exec [6] f) = 0%nat /\ forall x, content (exec [6] f) x = content f x;
  flash_erase : forall f op a, flash_busy f = 0%nat -> flash_enabled f -> op ∈ ops -> 0 <= a < 2 ^ 24 -> (2 ^ eo_shift op | a) ->
    let f' := exec (eo_opcode op :: addr_bytes a) f in
    (flash_busy f' <= polls)%nat /\ forall x, flash_result f' x = if (a <=? x) && (x <? a + 2 ^ eo_shift op) then 0xff else content f x;
  flash_program : forall f a bytes, flash_busy f = 0%nat -> flash_enabled f -> 0 <= a < 2 ^ 24 -> bytes <> [] -> a mod 256 + Z.of_nat (length bytes) <= 256 ->
    let f' := exec (2 :: addr_bytes a ++ bytes) f in
    (flash_busy f' <= polls)%nat /\ forall x, flash_result f' x =
      if (a <=? x) && (x <? a + Z.of_nat (length bytes)) then Z.land (content f x) (default 0 (bytes !! Z.to_nat (x - a))) else content f x;
}.

(** ** Sending

    The controller keeps up: once the FIFO may be full, it sends a byte for every
    byte that is written. *)
Definition keeps_up (sent : nat -> nat -> nat) : Prop := forall k i, (32 <= i)%nat -> (1 <= sent k i)%nat.

Lemma tx_cmd_all sent i level fifo_left cmd : 0 <= level -> 0 <= fifo_left -> level + fifo_left <= 32 -> (forall j, (32 <= j)%nat -> (1 <= sent j)%nat) -> 32 - Z.of_nat i <= fifo_left ->
  tx_cmd sent i level fifo_left cmd = cmd.
Proof.
  intros Hl Hf Hs Hn. revert i level fifo_left Hl Hf Hs. induction cmd as [| c cmd IH]; intros i level fifo_left Hl Hf Hs Hi; cbn [tx_cmd]; [done |]. cbv zeta.
  destruct (Z.eqb_spec fifo_left 0) as [-> | Hne].
  - pose proof (Hn i ltac:(lia)). rewrite (proj2 (Z.ltb_lt _ _)), (u32_small (32 - _)), u32_small by lia. f_equal. apply IH; lia.
  - rewrite (proj2 (Z.ltb_lt _ _)), u32_small by lia. f_equal. apply IH; lia.
Qed.

Lemma tx_cmd_complete sent k cmd : keeps_up sent -> tx_cmd (sent k) 0 0 32 cmd = cmd.
Proof. intros Hk. apply tx_cmd_all; [lia | lia | lia | apply Hk | lia]. Qed.

(** ** Erasing *)
Lemma op_size s : 0 <= s <= 16 -> u32 (Z.shiftl 1 s) = 2 ^ s.
Proof.
  intros Hs. rewrite Z.shiftl_1_l. assert (0 < 2 ^ s <= 2 ^ 16) as Hp by (split; [apply Z.pow_pos_nonneg; lia | apply Z.pow_le_mono_r; lia]). by rewrite u32_small by lia.
Qed.

Lemma land_pow_mask e s : 0 <= s -> Z.land e (2 ^ s - 1) = e mod 2 ^ s.
Proof. intros Hs. replace (2 ^ s - 1) with (Z.ones s) by (rewrite Z.ones_equiv; lia). by apply Z.land_ones. Qed.

Lemma pow_divide a b : 0 <= a <= b -> (2 ^ a | 2 ^ b).
Proof. intros H. exists (2 ^ (b - a)). rewrite <- Z.pow_add_r by lia. f_equal. lia. Qed.

Lemma mod_pow_zero e s : 0 <= s -> e mod 2 ^ s = 0 <-> (2 ^ s | e).
Proof. intros Hs. apply Z.mod_divide. pose proof (Z.pow_pos_nonneg 2 s). lia. Qed.

Section Choose.
Context (ops : list erase_op).
Hypothesis Hops : forall k, (k < length ops)%nat -> erase_op_ok (op_at ops k) /\ eo_shift (op_at ops 0) <= eo_shift (op_at ops k).

Lemma choose_op_step p erased end_ : (p < length ops)%nat -> choose_op p ops erased end_ =
  let size := 2 ^ eo_shift (op_at ops p) in
  if (erased mod size =? 0) && (erased + size <=? end_) then Some (op_at ops p)
  else match p with O => if erased mod size =? 0 then Some (op_at ops p) else None | S p => choose_op p ops erased end_ end.
Proof. intros Hp. destruct (Hops _ Hp) as [[Hs _] _]. destruct p as [| p]; cbn [choose_op]; by rewrite op_size, land_pow_mask by lia. Qed.

Lemma choose_op_aligned p erased end_ : (p < length ops)%nat -> (2 ^ eo_shift (op_at ops 0) | erased) ->
  exists k, (k <= p)%nat /\ choose_op p ops erased end_ = Some (op_at ops k) /\ (2 ^ eo_shift (op_at ops k) | erased) /\
    (erased + 2 ^ eo_shift (op_at ops k) <= end_ \/ k = 0%nat).
Proof.
  intros Hp Ha. induction p as [| p IH]; rewrite choose_op_step by done; cbv zeta; destruct (Hops _ Hp) as [[Hs _] _].
  - rewrite (proj2 (mod_pow_zero erased (eo_shift (op_at ops 0)) ltac:(lia)) Ha), Z.eqb_refl. exists 0%nat. split; [lia |]. split; [by destruct (_ <=? end_) |]. split; [done | by right].
  - destruct (Z.eqb_spec (erased mod 2 ^ eo_shift (op_at ops (S p))) 0) as [Hm | Hm], (Z.leb_spec (erased + 2 ^ eo_shift (op_at ops (S p))) end_) as [Hl | Hl]; cbn [andb];
      [| destruct (IH ltac:(lia)) as (k & ? & ?); exists k; split; [lia | done] ..].
    exists (S p). split; [lia |]. split; [done |]. split; [by apply mod_pow_zero; [lia |] | by left].
Qed.

(** Without alignment to the smallest size the assertion fails. *)
Lemma choose_op_unaligned p erased end_ : (p < length ops)%nat -> ~ (2 ^ eo_shift (op_at ops 0) | erased) -> choose_op p ops erased end_ = None.
Proof.
  intros Hp Ha. assert (forall k, (k < length ops)%nat -> (erased mod 2 ^ eo_shift (op_at ops k) =? 0) = false) as Hm.
  { intros k Hk. destruct (Hops _ Hk) as [[Hs _] Hle]. destruct (Hops 0%nat ltac:(lia)) as [[Hs0 _] _]. apply Z.eqb_neq. intros Hd. apply mod_pow_zero in Hd; [| lia]. apply Ha.
    eapply Z.divide_trans; [apply pow_divide | exact Hd]. lia. }
  induction p as [| p IH]; rewrite choose_op_step by done; cbv zeta; rewrite Hm by done; cbn [andb]; [done | apply IH; lia].
Qed.
End Choose.

Lemma erase_cmd_bytes op a : erase_op_ok op -> 0 <= a < 2 ^ 24 -> erase_cmd op a = eo_opcode op :: addr_bytes a.
Proof.
  intros [_ Ho] Ha. unfold erase_cmd. rewrite (u32_small (Z.shiftl (eo_opcode op) 24)) by (rewrite Z.shiftl_mul_pow2 by lia; lia).
  assert (Z.lor (Z.shiftl (eo_opcode op) 24) a = eo_opcode op * 2 ^ 24 + a) as ->.
  { rewrite Z.lor_comm, lor_shiftl_add by lia. lia. }
  rewrite u32_small by lia. unfold addr_bytes, u8. rewrite !Z.shiftr_div_pow2 by lia. f_equal; [| f_equal; [| f_equal; [| f_equal]]].
  - rewrite Z.div_add_l, (Z.div_small a), Z.add_0_r by lia. apply Z.mod_small. lia.
  - replace (eo_opcode op * 2 ^ 24 + a) with (a + eo_opcode op * 2 ^ 8 * 2 ^ 16) by lia. rewrite Z.div_add by lia. by rewrite Z.mod_add by lia.
  - replace (eo_opcode op * 2 ^ 24 + a) with (a + eo_opcode op * 2 ^ 16 * 2 ^ 8) by lia. rewrite Z.div_add by lia.
    replace (eo_opcode op * 2 ^ 16) with (eo_opcode op * 2 ^ 8 * 2 ^ 8) by lia. by rewrite Z.mod_add by lia.
  - replace (eo_opcode op * 2 ^ 24 + a) with (a + eo_opcode op * 2 ^ 16 * 2 ^ 8) by lia. by rewrite Z.mod_add by lia.
Qed.

Section Write.
Context {F : Type} (exec : list Z -> F -> F) (status : F -> Z * F) (polls : nat) (content : F -> Z -> Z) (table : list erase_op) `{HF : !SpiFlash exec status polls content table}.
Context (sent : nat -> nat -> nat).
Hypothesis Hsent : keeps_up sent.

Definition bus_idle (b : spi_bus) : Prop := flash_busy (bus_flash b) = 0%nat.

Lemma poll_status_ok fuel f : (flash_busy f <= fuel)%nat -> exists f', poll_status status fuel f = Some f' /\ flash_busy f' = 0%nat /\ forall x, flash_result f' x = flash_result f x.
Proof.
  revert f. induction fuel as [| fuel IH]; intros f Hb; cbn [poll_status]; pose proof (flash_status f) as Hs; destruct (status f) as [rx f1]; destruct (Z.land rx 1 =? 0), Hs as [Hs Hr];
    try (by exists f1); [lia |]. destruct (IH f1 ltac:(lia)) as (f' & -> & H0 & Hr'). exists f'. split; [done |]. split; [done |]. intros x. by rewrite Hr', Hr.
Qed.

(** A command that a memory without work executes arrives, and is waited for. *)
Lemma write_cmd_ok cmd (v : Z -> Z) b : bus_idle b ->
  (forall f, flash_busy f = 0%nat -> flash_enabled f -> (forall x, content f x = content (bus_flash b) x) -> (flash_busy (exec cmd f) <= polls)%nat /\ forall x, flash_result (exec cmd f) x = v x) ->
  exists b', write_cmd exec status sent polls cmd b = Some b' /\ bus_idle b' /\ forall x, content (bus_flash b') x = v x.
Proof.
  intros Hi Hc. destruct (flash_wren (bus_flash b) Hi) as (He & Hb & Hw). destruct (Hc _ Hb He Hw) as [Ht Hr]. unfold write_cmd, wait_until_ready, send_cmd. cbn [bus_flash bus_count].
  rewrite !tx_cmd_complete by done. destruct (poll_status_ok polls (exec cmd (exec [6] (bus_flash b))) Ht) as (f' & -> & H0 & Hr'). eexists. split; [done |]. split; [done |].
  intros x. cbn [bus_flash]. by rewrite <- flash_idle, Hr', Hr by done.
Qed.

Section Erase.
Context (ops : list erase_op).
Hypothesis Hin : forall k, (k < length ops)%nat -> op_at ops k ∈ table.
Hypothesis Hops : forall k, (k < length ops)%nat -> erase_op_ok (op_at ops k) /\ eo_shift (op_at ops 0) <= eo_shift (op_at ops k).
Hypothesis Hne : (0 < length ops)%nat.

Lemma write_erase k a b : bus_idle b -> (k < length ops)%nat -> 0 <= a < 2 ^ 24 -> (2 ^ eo_shift (op_at ops k) | a) ->
  exists b', write_cmd exec status sent polls (erase_cmd (op_at ops k) a) b = Some b' /\ bus_idle b' /\
    forall x, content (bus_flash b') x = if (a <=? x) && (x <? a + 2 ^ eo_shift (op_at ops k)) then 0xff else content (bus_flash b) x.
Proof.
  intros Hi Hk Ha Hd. destruct (Hops k Hk) as [Hok _]. apply write_cmd_ok; [done |]. intros f H0 He Hc. rewrite erase_cmd_bytes by done.
  destruct (flash_erase f (op_at ops k) a H0 He (Hin k Hk) Ha Hd) as [Ht Hr]. split; [done |]. intros x. by rewrite Hr, Hc.
Qed.

Lemma erase_loop_correct fuel erased end_ b : bus_idle b -> 0 <= erased -> end_ <= 2 ^ 24 -> (Z.to_nat (end_ - erased) < fuel)%nat -> (2 ^ eo_shift (op_at ops 0) | erased) ->
  exists until b', erase_loop exec status sent polls fuel ops erased end_ b = Some (until, b') /\ bus_idle b' /\ (2 ^ eo_shift (op_at ops 0) | until) /\ Z.max erased end_ <= until /\ until < Z.max (erased + 1) (end_ + 2 ^ eo_shift (op_at ops 0)) /\
    forall x, content (bus_flash b') x = if (erased <=? x) && (x <? until) then 0xff else content (bus_flash b) x.
Proof.
  intros Hi H0 He. revert erased b Hi H0. induction fuel as [| fuel IH]; intros erased b Hi H0 Hf Hd; [lia |]. cbn [erase_loop]. destruct (Z.ltb_spec erased end_) as [Hlt | Hge].
  2:{ exists erased, b. split; [done |]. split; [done |]. split; [done |]. split; [lia |]. split; [lia |]. intros x. by destruct (Z.leb_spec erased x), (Z.ltb_spec x erased); try lia. }
  destruct (choose_op_aligned ops Hops (length ops - 1) erased end_ ltac:(lia) Hd) as (k & Hk & -> & Hkd & Hfit). destruct (Hops k ltac:(lia)) as [[Hs _] Hle]. destruct (Hops 0%nat Hne) as [[Hs0 _] _].
  rewrite Z.shiftl_1_l. destruct (write_erase k erased b Hi ltac:(lia) ltac:(lia) Hkd) as (b1 & -> & Hi1 & Hw). set (size := 2 ^ eo_shift (op_at ops k)) in *.
  assert (2 <= size) as Hsz by (change 2 with (2 ^ 1); apply Z.pow_le_mono_r; lia).
  destruct (IH (erased + size) b1 Hi1 ltac:(lia) ltac:(lia)) as (until & b' & -> & Hi' & Hud & Hu & Hb & Hc).
  { apply Z.divide_add_r; [done |]. apply pow_divide. lia. }
  exists until, b'. split; [done |]. split; [done |]. split; [done |]. split; [lia |]. split.
  - destruct Hfit as [Hfit | ->]; [lia |]. fold size in Hb |- *. lia.
  - intros x. rewrite Hc, Hw. destruct (Z.leb_spec (erased + size) x), (Z.ltb_spec x until), (Z.leb_spec erased x), (Z.ltb_spec x (erased + size)); cbn [andb]; try lia; done.
Qed.
End Erase.

(** ** Programming *)
Lemma fill_cmd_spec fuel more wp data n : (0 < n <= fuel)%nat -> (n <= length data)%nat -> (forall k, 0 < k < Z.of_nat n -> more (wp + k) = true) ->
  more (wp + Z.of_nat n) = false -> fill_cmd fuel more wp data = Some (take n data, wp + Z.of_nat n, drop n data).
Proof.
  revert wp data n. induction fuel as [| fuel IH]; intros wp data n Hn Hl Hm Hs; [lia |]. destruct data as [| c data]; cbn [length] in Hl; [lia |]. destruct n as [| n]; [lia |]. cbn [fill_cmd]. cbv zeta.
  destruct n as [| n]; [replace (wp + Z.of_nat 1) with (wp + 1) in * by lia; by rewrite Hs |]. rewrite (Hm 1) by lia. rewrite (IH (wp + 1) data (S n)); [| lia | lia | |].
  - cbn [take drop]. do 3 f_equal. lia.
  - intros k Hk. replace (wp + 1 + k) with (wp + (1 + k)) by lia. apply Hm. lia.
  - replace (wp + 1 + Z.of_nat (S n)) with (wp + Z.of_nat (S (S n))) by lia. done.
Qed.

Lemma page_of_eq a b : 0 <= a < 2 ^ 24 -> 0 <= b < 2 ^ 24 -> (page_of a =? page_of b) = (a / 256 =? b / 256).
Proof.
  assert (forall a, 0 <= a < 2 ^ 24 -> page_of a = a / 256 * 256) as H.
  { intros x Hx. unfold page_of. change 0xffff00 with (Z.land (Z.ones 24) (Z.lnot (Z.ones 8))). rewrite Z.land_assoc, Z.land_ones, Z.mod_small by lia.
    rewrite <- Z.ldiff_land, Z.ldiff_ones_r, Z.shiftr_div_pow2, Z.shiftl_mul_pow2 by lia. done. }
  intros Ha Hb. rewrite !H by done. destruct (Z.eqb_spec (a / 256) (b / 256)) as [-> | Hne]; [by rewrite Z.eqb_refl |]. apply Z.eqb_neq. lia.
Qed.

(** [data] is at [wp], and everything else as in [b]. *)
Definition holds_at (wp : Z) (data : list Z) (b b' : spi_bus) : Prop :=
  forall x, content (bus_flash b') x = if (wp <=? x) && (x <? wp + Z.of_nat (length data)) then default 0 (data !! Z.to_nat (x - wp)) else content (bus_flash b) x.
Definition blank (a e : Z) (b : spi_bus) : Prop := forall x, a <= x < e -> content (bus_flash b) x = 0xff.

Lemma write_program wp bytes b : bus_idle b -> 0 <= wp < 2 ^ 24 -> bytes <> [] -> wp mod 256 + Z.of_nat (length bytes) <= 256 -> Forall is_byte bytes ->
  blank wp (wp + Z.of_nat (length bytes)) b -> exists b', write_cmd exec status sent polls (program_cmd wp bytes) b = Some b' /\ bus_idle b' /\ holds_at wp bytes b b'.
Proof.
  intros Hi Hw Hne Hl Hb Hblank. apply write_cmd_ok; [done |]. intros f H0 He Hc. unfold program_cmd. destruct (flash_program f wp bytes H0 He Hw Hne Hl) as [Ht Hr]. split; [done |].
  intros x. rewrite Hr, Hc.
  destruct (Z.leb_spec wp x), (Z.ltb_spec x (wp + Z.of_nat (length bytes))); cbn [andb]; try done. rewrite Hblank by lia.
  destruct (bytes !! Z.to_nat (x - wp)) as [c |] eqn:E; [| apply lookup_ge_None in E; lia]. cbn [default]. pose proof (Forall_lookup_1 _ _ _ _ Hb E) as Hcb. unfold is_byte in Hcb.
  rewrite Z.land_comm. change 0xff with (Z.ones 8). rewrite Z.land_ones by lia. cbn. apply Z.mod_small. lia.
Qed.

Lemma program_step wp n end_ data f f1 f' : (n <= length data)%nat -> end_ = wp + Z.of_nat (length data) -> holds_at wp (take n data) f f1 ->
  holds_at (wp + Z.of_nat n) (drop n data) f1 f' -> holds_at wp data f f'.
Proof.
  intros Hn He H1 H2 x. rewrite H2, H1. rewrite length_drop, length_take.
  destruct (Z.leb_spec (wp + Z.of_nat n) x), (Z.ltb_spec x (wp + Z.of_nat n + Z.of_nat (length data - n))), (Z.leb_spec wp x), (Z.ltb_spec x (wp + Z.of_nat (n `min` length data))),
    (Z.ltb_spec x (wp + Z.of_nat (length data))); cbn [andb]; try lia; try done.
  - rewrite lookup_drop. do 2 f_equal. lia.
  - rewrite lookup_take_lt by lia. done.
Qed.

Lemma program_loop_correct fuel wp end_ data b : bus_idle b -> 0 <= wp < end_ -> end_ <= 2 ^ 24 -> (Z.to_nat (end_ - wp) < fuel)%nat -> Z.of_nat (length data) = end_ - wp -> Forall is_byte data ->
  blank wp end_ b -> exists b', program_loop exec status sent polls fuel wp end_ data b = Some b' /\ bus_idle b' /\ holds_at wp data b b'.
Proof.
  revert wp data b. induction fuel as [| fuel IH]; intros wp data b Hi Hw He Hf Hl Hb Hbl; [lia |]. cbn [program_loop]. rewrite page_of_eq by lia.
  pose proof (Z.div_mod wp 256 ltac:(lia)) as Hdm. pose proof (Z.mod_pos_bound wp 256 ltac:(lia)) as Hm. pose proof (Z.div_mod (end_ - 1) 256 ltac:(lia)) as Hdm'. pose proof (Z.mod_pos_bound (end_ - 1) 256 ltac:(lia)) as Hm'.
  destruct (Z.eqb_spec (wp / 256) ((end_ - 1) / 256)) as [Hp | Hp]; cbn [negb].
  - rewrite (proj2 (Z.eqb_neq wp end_)) by lia. cbn [negb]. rewrite (fill_cmd_spec _ _ _ _ (length data)); [| lia | lia | intros k Hk; apply Z.ltb_lt; lia | apply Z.ltb_ge; lia].
    rewrite firstn_all. apply write_program; [done | lia | destruct data; [cbn in Hl; lia | done] | lia | done |]. by replace (wp + Z.of_nat (length data)) with end_ by lia.
  - assert (wp / 256 < (end_ - 1) / 256) as Hlt by (pose proof (Z.div_le_mono wp (end_ - 1) 256); lia). set (n := Z.to_nat (256 - wp mod 256)). assert (Z.of_nat n = 256 - wp mod 256) as Hn by lia.
    assert (forall y, Z.land y 0xff = y mod 256) as Hland by (intros y; change 0xff with (Z.ones 8); by rewrite Z.land_ones by lia).
    rewrite (fill_cmd_spec _ _ _ _ n); [| lia | lia | |].
    2:{ intros k Hk. rewrite Hland. apply negb_true_iff, Z.eqb_neq. replace (wp + k) with (wp mod 256 + k + wp / 256 * 256) by lia. rewrite Z.mod_add, Z.mod_small by lia. lia. }
    2:{ rewrite Hland, Hn. apply negb_false_iff, Z.eqb_eq. replace (wp + (256 - wp mod 256)) with ((wp / 256 + 1) * 256) by lia. apply Z.mod_mul. lia. }
    assert (length (take n data) = n) as Htl by (rewrite length_take; lia).
    destruct (write_program wp (take n data) b) as (b1 & -> & Hi1 & H1); [done | lia | intros E; rewrite E in Htl; cbn in Htl; lia | lia | by apply Forall_take | intros x Hx; apply Hbl; lia |].
    destruct (IH (wp + Z.of_nat n) (drop n data) b1) as (b' & -> & Hi' & Hh); [done | lia | lia | lia | rewrite length_drop; lia | by apply Forall_drop | |].
    { intros x Hx. rewrite H1. rewrite (proj2 (Z.ltb_ge _ _)), andb_false_r by lia. apply Hbl. lia. }
    exists b'. split; [done |]. split; [done |]. apply (program_step wp n end_ data b b1 b'); [lia | lia | exact H1 | exact Hh].
Qed.
End Write.

(** Flashing writes the data, or stops before it has changed anything.  If the
    flash memory behaves as its tables say, the controller keeps up and the start is a multiple of the
    smallest erase size, then afterwards the range holds the data, the rest of the
    last erased block is blank, and everything else is as before; otherwise the
    assertion on the alignment fails before the first command.  The smallest size
    is the first of the sorted commands, although the sort loses entries. *)
Lemma usb_flash_spi_correct {F : Type} (exec : list Z -> F -> F) (status : F -> Z * F) (polls : nat) (content : F -> Z -> Z) (sfdp : Z -> Z) (ops : list erase_op)
    `{!SpiFlash exec status polls content ops} (sent : nat -> nat -> nat) (buf : list Z) (start : Z) (b : spi_bus) :
  keeps_up sent -> bus_idle exec status polls content ops b -> (forall a, is_byte (sfdp a)) -> read_erase_ops sfdp = Some ops -> ops <> [] -> Forall is_byte buf -> buf <> [] -> 0 <= start -> start + Z.of_nat (length buf) <= 2 ^ 24 ->
  let unit := 2 ^ eo_shift (op_at (sort_erase_ops ops) 0) in
  let end_ := start + Z.of_nat (length buf) in
  (forall op, op ∈ ops -> unit <= 2 ^ eo_shift op) /\
  ((unit | start) -> exists b' until, usb_flash_spi exec status sent polls sfdp buf start (Z.of_nat (length buf)) b = Some b' /\ bus_idle exec status polls content ops b' /\ (unit | until) /\ end_ <= until < end_ + unit /\
    forall x, content (bus_flash b') x = if (start <=? x) && (x <? end_) then default 0 (buf !! Z.to_nat (x - start)) else if (end_ <=? x) && (x <? until) then 0xff else content (bus_flash b) x) /\
  (~ (unit | start) -> usb_flash_spi exec status sent polls sfdp buf start (Z.of_nat (length buf)) b = None).
Proof.
  intros Hkeep Hi Hb Hr Hne Hbuf Hbne H0 Hend. pose proof (read_erase_ops_ok _ _ Hb Hr) as Hok. destruct (sort_erase_ops_spec ops Hne) as (Hl & Hin & Hmin). set (s := sort_erase_ops ops) in *. cbv zeta.
  assert (0 < length ops)%nat as Hlen by (destruct ops; [done | cbn; lia]). assert (0 < length buf)%nat as Hblen by (destruct buf; [done | cbn; lia]).
  assert (forall k, (k < length s)%nat -> erase_op_ok (op_at s k) /\ eo_shift (op_at s 0) <= eo_shift (op_at s k)) as Hops.
  { intros k Hk. destruct (Hin k Hk) as [He Hle]. split; [| done]. apply list_elem_of_In in He. rewrite List.Forall_forall in Hok. by apply Hok. }
  destruct (Hops 0%nat ltac:(lia)) as [[Hs0 _] _]. unfold usb_flash_spi. rewrite Hr, (proj2 (Nat.eqb_neq (length ops) 0)) by lia. fold s. cbv zeta.
  rewrite u64_small by lia. rewrite (proj2 (Z.leb_le _ _)) by lia. cbn [negb]. split; [| split].
  - intros op Hop. apply Z.pow_le_mono_r; [lia | by apply Hmin].
  - intros Hd. destruct (erase_loop_correct exec status polls content ops sent Hkeep s ltac:(intros k Hks; by apply Hin) Hops ltac:(lia) (S (Z.to_nat (Z.of_nat (length buf)))) start (start + Z.of_nat (length buf)) b)
      as (until & b1 & -> & Hi1 & Hud & Hu & Hu' & Hc1); [done | lia | lia | lia | done |].
    destruct (program_loop_correct exec status polls content ops sent Hkeep (S (Z.to_nat (Z.of_nat (length buf)))) start (start + Z.of_nat (length buf)) buf b1) as (b' & -> & Hi2 & Hc2); [done | lia | lia | lia | lia | done | |].
    { intros x Hx. rewrite Hc1, (proj2 (Z.leb_le _ _)), (proj2 (Z.ltb_lt _ _)) by lia. done. }
    pose proof (Z.pow_pos_nonneg 2 (eo_shift (op_at s 0)) ltac:(lia) ltac:(lia)). exists b', until. split; [done |]. split; [done |]. split; [done |]. split; [lia |]. intros x. rewrite Hc2, Hc1.
    destruct (Z.leb_spec start x), (Z.ltb_spec x (start + Z.of_nat (length buf))), (Z.leb_spec (start + Z.of_nat (length buf)) x), (Z.ltb_spec x until); cbn [andb]; try lia; done.
  - intros Hd. cbn [erase_loop]. rewrite (proj2 (Z.ltb_lt _ _)) by lia. by rewrite (choose_op_unaligned s Hops) by (done || lia).
Qed.

(** ** Example: a memory with two erase commands *)
Definition demo_sfdp_bytes : list Z := [83; 70; 68; 80; 0; 1; 0; 0; 0; 0; 1; 9; 48; 0; 0; 0] ++ replicate 60 0 ++ [12; 0x20; 16; 0xd8; 0; 0; 0; 0].
Definition demo_sfdp (a : Z) : Z := default 0 (demo_sfdp_bytes !! Z.to_nat a).
Definition demo_ops : list erase_op := [mkErase 12 0x20; mkErase 16 0xd8].

(** The bytes, whether writing is enabled, and for how long it is busy. *)
Definition demo_flash_state : Type := (Z -> Z) * bool * nat.
Definition demo_content (f : demo_flash_state) : Z -> Z := f.1.1.
Definition demo_status (f : demo_flash_state) : Z * demo_flash_state := (if (f.2 =? 0)%nat then 0 else 3, (f.1, pred f.2)).

Definition demo_flash_exec (cmd : list Z) (f : demo_flash_state) : demo_flash_state :=
  if negb (f.2 =? 0)%nat then f else
  match cmd with
  | [_] => (f.1.1, true, 0%nat)
  | c :: a2 :: a1 :: a0 :: data =>
      let a := a2 * 2 ^ 16 + a1 * 2 ^ 8 + a0 in
      let range n v := ((fun x => if (a <=? x) && (x <? a + n) then v x else f.1.1 x), false, 3%nat) in
      if negb f.1.2 then f
      else if c =? 2 then range (Z.of_nat (length data)) (fun x => Z.land (f.1.1 x) (default 0 (data !! Z.to_nat (x - a))))
      else if c =? 0x20 then range (2 ^ 12) (fun _ => 0xff)
      else if c =? 0xd8 then range (2 ^ 16) (fun _ => 0xff)
      else f
  | _ => f
  end.

Lemma addr_bytes_value a : 0 <= a < 2 ^ 24 -> u8 (Z.shiftr a 16) * 2 ^ 16 + u8 (Z.shiftr a 8) * 2 ^ 8 + u8 a = a.
Proof.
  intros Ha. unfold u8. rewrite !Z.shiftr_div_pow2 by lia. change (2 ^ 16) with (2 ^ 8 * 2 ^ 8). rewrite <- Z.div_div by lia.
  pose proof (Z.div_mod a (2 ^ 8) ltac:(lia)). pose proof (Z.div_mod (a / 2 ^ 8) (2 ^ 8) ltac:(lia)). rewrite (Z.mod_small (a / 2 ^ 8 / 2 ^ 8)); [lia |].
  split; [apply Z.div_pos; [apply Z.div_pos |]; lia |]. rewrite Z.div_div by lia. apply Z.div_lt_upper_bound; lia.
Qed.

#[export, program] Instance demo_flash : SpiFlash demo_flash_exec demo_status 4 demo_content demo_ops := {
  flash_busy f := f.2;
  flash_enabled f := f.1.2 = true;
  flash_result := demo_content;
}.
Next Obligation. done. Qed.
Next Obligation. intros [[m en] [| n]]; (split; [| done]); [done | apply Nat.lt_succ_diag_r]. Qed.
Next Obligation. intros [[m en] n] Hn. cbn in Hn. by subst n. Qed.
Next Obligation.
  intros [[m en] n] op a Hn He Hop Ha _. cbn in Hn, He. subst n en. apply elem_of_cons in Hop as [-> | ->%list_elem_of_singleton]; unfold demo_flash_exec, addr_bytes; cbn; rewrite addr_bytes_value by done; split; (lia || done).
Qed.
Next Obligation.
  intros [[m en] n] a bytes Hn He Ha Hne _. cbn in Hn, He. subst n en. unfold demo_flash_exec, addr_bytes. cbn. rewrite addr_bytes_value by done. split; (lia || done).
Qed.

(** A controller that sends one byte for every byte, from the third on. *)
Definition demo_sent (k i : nat) : nat := if (i <? 2)%nat then 0 else 1.
Lemma demo_keeps_up : keeps_up demo_sent.
Proof. intros k i Hi. unfold demo_sent. rewrite (proj2 (Nat.ltb_ge _ _)) by lia. lia. Qed.

Definition demo_bus : spi_bus := mkBus ((fun _ => 0, false, 0%nat) : demo_flash_state) 0.

Lemma demo_sfdp_byte a : is_byte (demo_sfdp a).
Proof.
  unfold demo_sfdp. assert (Forall is_byte demo_sfdp_bytes) as H by (unfold demo_sfdp_bytes; repeat (apply Forall_app; split); [| apply Forall_replicate |]; repeat constructor; unfold is_byte; lia).
  destruct (demo_sfdp_bytes !! Z.to_nat a) as [c |] eqn:E; [by eapply Forall_lookup_1 in E | unfold is_byte; cbn; lia].
Qed.

Lemma demo_bus_idle : bus_idle demo_flash_exec demo_status 4 demo_content demo_ops demo_bus.
Proof. unfold bus_idle. cbn. reflexivity. Qed.

Lemma demo_flash_written : exists b', usb_flash_spi demo_flash_exec demo_status demo_sent 4 demo_sfdp [1; 2; 3] 4096 3 demo_bus = Some b' /\
  demo_content (bus_flash b') 4097 = 2 /\ demo_content (bus_flash b') 4100 = 0xff /\ demo_content (bus_flash b') 0 = 0.
Proof.
  destruct (usb_flash_spi_correct demo_flash_exec demo_status 4 demo_content demo_sfdp demo_ops demo_sent [1; 2; 3] 4096 demo_bus demo_keeps_up demo_bus_idle demo_sfdp_byte) as (_ & H & _).
  - vm_compute. reflexivity.
  - discriminate.
  - repeat constructor; unfold is_byte; lia.
  - discriminate.
  - lia.
  - cbn. lia.
  - destruct H as (f' & until & Hf & _ & [q Hq] & Hu & Hc); [by exists 1 |]. change (2 ^ _) with 4096 in Hu, Hq. change (4096 + Z.of_nat (length [1; 2; 3])) with 4099 in Hu, Hc.
    assert (until = 8192) as -> by lia. exists f'. split; [exact Hf |]. rewrite !Hc. split; [reflexivity | split; reflexivity].
Qed.

(** ** Defects

    The sort overwrites larger commands, so that they are not used. *)
Lemma sort_loses_entries : sort_erase_ops [mkErase 16 0xd8; mkErase 12 0x20] = [mkErase 12 0x20; mkErase 12 0x20].
Proof. vm_compute. reflexivity. Qed.

(** Without data, a start at the beginning of a page leads to reads behind the data. *)
Lemma flash_nothing : usb_flash_spi demo_flash_exec demo_status demo_sent 4 demo_sfdp [] 4096 0 demo_bus = None.
Proof. vm_compute. reflexivity. Qed.

(** A full FIFO makes the counter wrap around, and from there on a byte that is
    written to a full FIFO is lost: a controller that has not sent anything yet
    when a page is in the command buffer receives 32 of 260 bytes. *)
Lemma tx_cmd_overflow : length (tx_cmd (fun _ => 0%nat) 0 0 32 (replicate 260 0)) = 32%nat.
Proof. vm_compute. reflexivity. Qed.
