(* ===== verification/UsbLoad.v ===== *)
(** * Loading over USB

    The host side, [usbtool.c], and the device side, [usb_loader.c], of the
    protocol that loads images into memory or SPI flash.  Bulk transfers are
    messages; the device receives each into the buffer of the request that it has
    submitted, and then runs [xfer_complete].  With [Flash], this is the way of a
    file on the host into the flash memory. *)
From S2P Require Import Prelude Idb Flash.
From stdpp Require Import list.
Open Scope Z_scope.
Open Scope list_scope.

Definition CMD_LOAD : Z := 0.
Definition CMD_CALL : Z := 1.
Definition CMD_START : Z := 2.
Definition CMD_FLASH : Z := 3.

(** ** The host *)
Definition write_le32 (off : nat) (val : Z) (buf : list Z) : list Z := take off buf ++ le_bytes 4 (u32 val) ++ drop (off + 4) buf.

(** The size of the buffer, 1 MiB. *)
Definition bulk_size : nat := Z.to_nat (2 ^ 20).

(** The last message is filled with zeroes to a multiple of 512 bytes. *)
Definition pad_512 (buf : list Z) : list Z :=
  let rem := Z.land (Z.of_nat (length buf)) 0x1ff in
  if rem =? 0 then buf else buf ++ replicate (Z.to_nat (0x200 - rem)) 0.

Definition load_header (load : bool) (size addr : Z) : list Z :=
  write_le32 20 (Z.shiftr addr 32) (write_le32 16 addr (write_le32 12 0 (write_le32 8 size (write_le32 0 (if load then CMD_LOAD else CMD_FLASH) (replicate 512 0))))).

(** The messages of --load and --flash for the rest of a file. *)
Fixpoint bulk_load (fuel : nat) (load : bool) (load_addr : Z) (file : list Z) : option (list (list Z)) :=
  match fuel with
  | O => None
  | S fuel =>
      let chunk := take bulk_size file in
      match chunk with
      | [] => Some []
      | _ =>
          let buf := pad_512 chunk in
          let size := Z.of_nat (length buf) in
          let msgs := [load_header load size load_addr; buf] in
          if (length buf <? bulk_size)%nat then Some msgs
          else match bulk_load fuel load (u64 (load_addr + size)) (drop bulk_size file) with
            | Some more => Some (msgs ++ more)
            | None => None
            end
      end
  end.

Definition run_header (call : bool) (entry_addr stack_addr : Z) : list Z :=
  write_le32 24 (Z.shiftr stack_addr 32) (write_le32 16 stack_addr (write_le32 12 (Z.shiftr entry_addr 32) (write_le32 8 entry_addr
    (write_le32 0 (if call then CMD_CALL else CMD_START) (replicate 512 0))))).

(** ** The device *)
Inductive usb_phase : Set := PHASE_HEADER | PHASE_DATA | PHASE_HANDOFF.

(** What a request receives into: the header buffer, or memory. *)
Inductive usb_target : Type := ToHeader | ToMem (addr : Z).

(** Bytes in memory. *)
Definition mem_write (a : Z) (l : list Z) (m : Z -> Z) (x : Z) : Z :=
  if (a <=? x) && (x <? a + Z.of_nat (length l)) then default 0 (l !! Z.to_nat (x - a)) else m x.
Definition mem_bytes (mem : Z -> Z) (a n : Z) : list Z := List.map (fun i => mem (a + i)) (seqZ 0 n).

Section Device.
Context {F : Type} (flash_spi : list Z -> Z -> Z -> F -> option F) (call : list Z -> option unit).

Record usb_state : Type := mkUsb {
  us_phase : usb_phase;
  us_header : list Z;
  us_trb : option (usb_target * Z);
  us_mem : Z -> Z;
  us_flash : F;
}.

Definition header_word (k : nat) (header : list Z) : Z := le_val (take 8 (drop (8 * k) header)).

Definition flash_buffer : Z := 0x100000.

(** The end of [xfer_complete]: a request for the next header. *)
Definition next_header (st : usb_state) : usb_state := mkUsb PHASE_HEADER (us_header st) (Some (ToHeader, 512)) (us_mem st) (us_flash st).

Definition xfer_complete (st : usb_state) : option usb_state :=
  let header := us_header st in
  let cmd := header_word 0 header in
  match us_phase st with
  | PHASE_HEADER =>
      if (cmd =? CMD_FLASH) || (cmd =? CMD_LOAD) then
        let size := header_word 1 header in
        if negb (Z.land size 0xff0001ff =? 0) then None
        else
          let addr := if cmd =? CMD_LOAD then header_word 2 header else flash_buffer in
          Some (mkUsb PHASE_DATA header (Some (ToMem addr, size)) (us_mem st) (us_flash st))
      else if cmd =? CMD_START then Some (mkUsb PHASE_HANDOFF header None (us_mem st) (us_flash st))
      else if cmd =? CMD_CALL then
        match call (List.map (fun k => header_word k header) (seq 1 8)) with
        | Some _ => Some (next_header st)
        | None => None
        end
      else None
  | _ =>
      if cmd =? CMD_LOAD then Some (next_header st)
      else if cmd =? CMD_FLASH then
        match flash_spi (mem_bytes (us_mem st) flash_buffer (header_word 1 header)) (header_word 2 header) (header_word 1 header) (us_flash st) with
        | Some f => Some (next_header (mkUsb (us_phase st) header (us_trb st) (us_mem st) f))
        | None => None
        end
      else None
  end.

(** The controller receives a message into the buffer of the request. *)
Definition usb_receive (msg : list Z) (st : usb_state) : option usb_state :=
  match us_trb st with
  | Some (target, size) =>
      if Z.of_nat (length msg) <=? size then
        match target with
        | ToHeader => Some (mkUsb (us_phase st) (msg ++ drop (length msg) (us_header st)) None (us_mem st) (us_flash st))
        | ToMem a => Some (mkUsb (us_phase st) (us_header st) None (mem_write a msg (us_mem st)) (us_flash st))
        end
      else None
  | None => None
  end.

Definition usb_message (msg : list Z) (st : usb_state) : option usb_state :=
  match usb_receive msg st with
  | Some st => xfer_complete st
  | None => None
  end.

Fixpoint usb_messages (msgs : list (list Z)) (st : usb_state) : option usb_state :=
  match msgs with
  | [] => Some st
  | msg :: msgs => match usb_message msg st with Some st => usb_messages msgs st | None => None end
  end.
End Device.
Arguments usb_state F : clear implicits.

(** ** Headers *)
Lemma load_header_bytes load size addr : load_header load size addr =
  le_bytes 4 (u32 (if load then CMD_LOAD else CMD_FLASH)) ++ [0; 0; 0; 0] ++ le_bytes 4 (u32 size) ++ le_bytes 4 (u32 0) ++ le_bytes 4 (u32 addr) ++ le_bytes 4 (u32 (Z.shiftr addr 32)) ++
  replicate 488 0.
Proof. reflexivity. Qed.

Lemma le_val_pair a b : 0 <= a < 2 ^ 32 -> le_val (le_bytes 4 a ++ le_bytes 4 b) = a + 2 ^ 32 * (b mod 2 ^ 32).
Proof. intros Ha. rewrite le_val_app, !le_val_bytes. cbn [Z.of_nat Pos.of_succ_nat Pos.succ Z.mul Pos.mul]. rewrite (Z.mod_small a) by done. done. Qed.

Lemma load_header_words load size addr : 0 <= size < 2 ^ 32 -> 0 <= addr < 2 ^ 64 -> let h := load_header load size addr in
  header_word 0 h = (if load then CMD_LOAD else CMD_FLASH) /\ header_word 1 h = size /\ header_word 2 h = addr /\ length h = 512%nat.
Proof.
  intros Hs Ha h. unfold h. rewrite load_header_bytes. split; [| split; [| split]].
  - change (header_word 0 _) with (le_val (le_bytes 4 (u32 (if load then CMD_LOAD else CMD_FLASH)) ++ le_bytes 4 0)). rewrite le_val_pair by apply u32_range. by destruct load.
  - change (header_word 1 _) with (le_val (le_bytes 4 (u32 size) ++ le_bytes 4 0)). rewrite le_val_pair by apply u32_range. rewrite u32_small, Z.mod_0_l by lia. lia.
  - change (header_word 2 _) with (le_val (le_bytes 4 (u32 addr) ++ le_bytes 4 (u32 (Z.shiftr addr 32)))). rewrite le_val_pair by apply u32_range. unfold u32. rewrite Z.mod_mod by lia.
    rewrite Z.shiftr_div_pow2 by lia. rewrite (Z.mod_small (addr / 2 ^ 32)); [pose proof (Z.div_mod addr (2 ^ 32)); lia |]. split; [apply Z.div_pos; lia | apply Z.div_lt_upper_bound; lia].
  - rewrite !length_app, !le_bytes_length, length_replicate. done.
Qed.

(** ** One exchange *)
Lemma load_size_mask size : 0 <= size < 2 ^ 24 -> (512 | size) -> Z.land size 0xff0001ff = 0.
Proof.
  intros Hs Hd. rewrite <- (Z.mod_small size (2 ^ 24)) by done. rewrite <- Z.land_ones by lia. rewrite <- Z.land_assoc. change (Z.land (Z.ones 24) 0xff0001ff) with (Z.ones 9).
  rewrite Z.land_ones by lia. by apply Z.mod_divide.
Qed.

Lemma mem_bytes_write a l m : mem_bytes (mem_write a l m) a (Z.of_nat (length l)) = l.
Proof.
  apply list_eq. intros i. unfold mem_bytes. destruct (decide (i < length l)%nat) as [Hi | Hi].
  - rewrite list_lookup_fmap, (proj2 (lookup_seqZ 0 (Z.of_nat (length l)) i (Z.of_nat i))) by lia. cbn. unfold mem_write.
    rewrite (proj2 (Z.leb_le _ _)), (proj2 (Z.ltb_lt _ _)) by lia. cbn [andb]. replace (Z.to_nat (a + Z.of_nat i - a)) with i by lia. by destruct (lookup_lt_is_Some_2 l i Hi) as [x ->].
  - rewrite !(proj2 (lookup_ge_None _ _)); [done | lia |]. rewrite List.length_map, length_seqZ. lia.
Qed.

(** ** Padding and chunks *)
Lemma land_511 n : Z.land n 0x1ff = n mod 512.
Proof. change 0x1ff with (Z.ones 9). by rewrite Z.land_ones. Qed.

Lemma pad_512_divide l : (512 | Z.of_nat (length (pad_512 l))).
Proof.
  unfold pad_512. cbv zeta. rewrite land_511. pose proof (Z.mod_pos_bound (Z.of_nat (length l)) 512 ltac:(lia)). pose proof (Z.div_mod (Z.of_nat (length l)) 512 ltac:(lia)).
  destruct (Z.eqb_spec (Z.of_nat (length l) mod 512) 0) as [E | E]; [by apply Z.mod_divide |]. rewrite length_app, length_replicate. exists (Z.of_nat (length l) / 512 + 1). lia.
Qed.

Lemma pad_512_length l : Z.of_nat (length l) <= Z.of_nat (length (pad_512 l)) < Z.of_nat (length l) + 512.
Proof.
  unfold pad_512. cbv zeta. rewrite land_511. pose proof (Z.mod_pos_bound (Z.of_nat (length l)) 512 ltac:(lia)). destruct (Z.eqb_spec (Z.of_nat (length l) mod 512) 0); [lia |]. rewrite length_app, length_replicate. lia.
Qed.

Lemma pad_512_app l r : (512 | Z.of_nat (length l)) -> pad_512 (l ++ r) = l ++ pad_512 r.
Proof.
  intros [q Hq]. unfold pad_512. cbv zeta. rewrite !land_511, length_app, Nat2Z.inj_add, Hq. rewrite Z.add_comm, Z.mod_add by lia. destruct (_ =? 0); [done | by rewrite app_assoc].
Qed.

Lemma pad_512_bytes l : Forall is_byte l -> Forall is_byte (pad_512 l).
Proof. intros H. unfold pad_512. cbv zeta. destruct (_ =? 0); [done |]. apply Forall_app. split; [done |]. apply Forall_replicate. unfold is_byte. lia. Qed.

Lemma bulk_size_value : Z.of_nat bulk_size = 2 ^ 20.
Proof. unfold bulk_size. lia. Qed.
#[local] Opaque bulk_size.

(** The first chunk of a file that is not empty. *)
Lemma chunk_pad file : pad_512 file = pad_512 (take bulk_size file) ++ pad_512 (drop bulk_size file).
Proof.
  pose proof bulk_size_value as Hb. destruct (Nat.leb_spec bulk_size (length file)) as [Hge | Hlt].
  - assert (512 | Z.of_nat (length (take bulk_size file))) as Hd by (rewrite length_take; exists 2048; lia). rewrite <- (take_drop bulk_size file) at 1. rewrite pad_512_app by exact Hd.
    f_equal. symmetry. rewrite <- (app_nil_r (take bulk_size file)) at 1. rewrite pad_512_app by exact Hd. apply app_nil_r.
  - rewrite (drop_ge file), (take_ge file) by lia. symmetry. apply app_nil_r.
Qed.

Lemma chunk_length file : (0 < length file)%nat -> 0 < Z.of_nat (length (pad_512 (take bulk_size file))) <= 2 ^ 20.
Proof.
  intros Hl. pose proof bulk_size_value as Hb. pose proof (pad_512_length (take bulk_size file)) as Hp. destruct (pad_512_divide (take bulk_size file)) as [q Hq]. rewrite length_take in Hp. lia.
Qed.

Lemma chunk_last file : (length (pad_512 (take bulk_size file)) < bulk_size)%nat -> drop bulk_size file = [].
Proof. intros Hlt. pose proof (pad_512_length (take bulk_size file)) as Hp. rewrite length_take in Hp. apply drop_ge. lia. Qed.

Section Exchange.
Context {F : Type} (flash_spi : list Z -> Z -> Z -> F -> option F) (call : list Z -> option unit).

Definition usb_idle (st : usb_state F) : Prop := us_phase st = PHASE_HEADER /\ us_trb st = Some (ToHeader, 512) /\ length (us_header st) = 512%nat.

Lemma exchange load addr buf st : usb_idle st -> 0 <= addr < 2 ^ 64 -> (512 | Z.of_nat (length buf)) -> Z.of_nat (length buf) < 2 ^ 24 ->
  let h := load_header load (Z.of_nat (length buf)) addr in
  usb_messages flash_spi call [h; buf] st =
    (if load then Some (mkUsb PHASE_HEADER h (Some (ToHeader, 512)) (mem_write addr buf (us_mem st)) (us_flash st))
     else match flash_spi buf addr (Z.of_nat (length buf)) (us_flash st) with
          | Some f => Some (mkUsb PHASE_HEADER h (Some (ToHeader, 512)) (mem_write flash_buffer buf (us_mem st)) f)
          | None => None
          end).
Proof.
  intros (Hp & Ht & Hh) Ha Hd Hs h. destruct (load_header_words load (Z.of_nat (length buf)) addr ltac:(lia) Ha) as (H0 & H1 & H2 & Hl). fold h in H0, H1, H2, Hl.
  cbn [usb_messages]. unfold usb_message at 1, usb_receive at 1. rewrite Ht, Hl. cbn [Z.leb Z.compare Z.of_nat]. rewrite (proj2 (Z.leb_le _ _)) by done. rewrite Hp.
  rewrite drop_ge, app_nil_r by lia. unfold xfer_complete at 1. cbn [us_header us_phase us_mem us_flash]. rewrite H0, H1, H2.
  rewrite load_size_mask by (done || lia). destruct load; cbn [Z.eqb CMD_FLASH CMD_LOAD Pos.eqb orb negb].
  - unfold usb_message, usb_receive. cbn [us_trb us_header us_phase us_mem us_flash]. rewrite Z.leb_refl. unfold xfer_complete. cbn [us_header us_phase us_mem us_flash]. rewrite H0. done.
  - unfold usb_message, usb_receive. cbn [us_trb us_header us_phase us_mem us_flash]. rewrite Z.leb_refl. unfold xfer_complete. cbn [us_header us_phase us_mem us_flash]. rewrite H0, H1, H2.
    cbn [Z.eqb CMD_FLASH CMD_LOAD Pos.eqb]. rewrite mem_bytes_write. by destruct (flash_spi _ _ _ _).
Qed.

Lemma usb_messages_app msgs msgs' st : usb_messages flash_spi call (msgs ++ msgs') st =
  match usb_messages flash_spi call msgs st with Some st => usb_messages flash_spi call msgs' st | None => None end.
Proof. revert st. induction msgs as [| msg msgs IH]; intros st; cbn [app usb_messages]; [done |]. destruct (usb_message _ _ msg st); [apply IH | done]. Qed.

Lemma mem_write_app a l l' m x : mem_write (a + Z.of_nat (length l)) l' (mem_write a l m) x = mem_write a (l ++ l') m x.
Proof.
  unfold mem_write. rewrite length_app. destruct (Z.leb_spec (a + Z.of_nat (length l)) x), (Z.ltb_spec x (a + Z.of_nat (length l) + Z.of_nat (length l'))), (Z.leb_spec a x),
    (Z.ltb_spec x (a + Z.of_nat (length l))), (Z.ltb_spec x (a + Z.of_nat (length l + length l'))); cbn [andb]; try lia; try done.
  - rewrite lookup_app_r by lia. do 2 f_equal. lia.
  - by rewrite lookup_app_l by lia.
Qed.

Lemma idle_next load addr (buf : list Z) m f : 0 <= addr < 2 ^ 64 -> Z.of_nat (length buf) < 2 ^ 24 -> usb_idle (mkUsb PHASE_HEADER (load_header load (Z.of_nat (length buf)) addr) (Some (ToHeader, 512)) m f).
Proof. intros Ha Hb. destruct (load_header_words load (Z.of_nat (length buf)) addr ltac:(lia) Ha) as (_ & _ & _ & Hl). done. Qed.

(** What the host sends and the device does for a file: its chunks, one by one.
    [P addr file f f'] is what is wanted of the device's states. *)
Lemma bulk_load_run (P : Z -> list Z -> usb_state F -> usb_state F -> Prop) (load : bool) (ok : Z -> usb_state F -> Prop) (limit : Z) fuel addr file st : limit <= 2 ^ 64 ->
  (forall addr st, ok addr st -> P addr [] st st) ->
  (forall addr buf rest st, ok addr st -> usb_idle st -> 0 <= addr -> addr + Z.of_nat (length (buf ++ rest)) < limit -> Forall is_byte buf ->
    (512 | Z.of_nat (length buf)) -> 0 < Z.of_nat (length buf) <= 2 ^ 20 -> (rest = [] \/ Z.of_nat (length buf) = 2 ^ 20) ->
    exists st1, usb_messages flash_spi call [load_header load (Z.of_nat (length buf)) addr; buf] st = Some st1 /\ usb_idle st1 /\
      (rest = [] -> P addr buf st st1) /\
      (Z.of_nat (length buf) = 2 ^ 20 -> ok (addr + 2 ^ 20) st1 /\ forall st', P (addr + 2 ^ 20) rest st1 st' -> P addr (buf ++ rest) st st')) ->
  ok addr st -> usb_idle st -> (length file < fuel)%nat -> 0 <= addr -> addr + Z.of_nat (length (pad_512 file)) < limit -> Forall is_byte file ->
  exists msgs st', bulk_load fuel load addr file = Some msgs /\ usb_messages flash_spi call msgs st = Some st' /\ usb_idle st' /\ P addr (pad_512 file) st st'.
Proof.
  intros Hlim Hnil Hstep. revert addr file st. induction fuel as [| fuel IH]; intros addr file st Hok Hi Hf Ha Hend Hb; [lia |]. destruct (decide (file = [])) as [-> | Hne].
  { exists [], st. cbn [bulk_load]. rewrite take_nil. split; [done |]. split; [done |]. split; [done | by apply Hnil]. }
  assert (0 < length file)%nat as Hl by (destruct file; [done | cbn [length]; lia]). pose proof bulk_size_value as Hbs. pose proof (chunk_length file Hl) as Hbl. rewrite (chunk_pad file) in Hend |- *.
  pose proof (chunk_last file) as Hlast. assert (Forall is_byte (pad_512 (take bulk_size file))) as Hbb by (by apply pad_512_bytes, Forall_take). pose proof (pad_512_divide (take bulk_size file)) as Hd.
  cbn [bulk_load]. destruct (take bulk_size file) as [| c chunk] eqn:Ec; [apply (f_equal length) in Ec; rewrite length_take in Ec; cbn [length] in Ec; lia |]. cbv zeta. generalize dependent (pad_512 (c :: chunk)). intros buf Hend Hbl Hlast Hbb Hd.
  assert (length (drop bulk_size file) < length file)%nat as Hdl by (rewrite length_drop; lia). assert (Forall is_byte (drop bulk_size file)) as Hdb by (by apply Forall_drop).
  generalize dependent (drop bulk_size file). intros rest Hend Hlast Hdl Hdb. destruct (Nat.ltb_spec (length buf) bulk_size) as [Hlt | Hge].
  - rewrite (Hlast Hlt) in Hend |- *. destruct (Hstep addr buf [] st) as (st1 & Hm & Hi1 & HP & _); [done | done | done | done | done | done | done | by left |].
    eexists _, st1. split; [done |]. split; [done |]. split; [done |]. change (pad_512 []) with (@nil Z). rewrite app_nil_r. by apply HP.
  - assert (Z.of_nat (length buf) = 2 ^ 20) as Hfull by lia. destruct (Hstep addr buf (pad_512 rest) st) as (st1 & Hm & Hi1 & _ & HP); [done | done | done | done | done | done | done | by right |].
    destruct (HP Hfull) as [Hok1 HP1]. rewrite length_app in Hend. rewrite Hfull, u64_small by lia. destruct (IH (addr + 2 ^ 20) rest st1) as (msgs & st' & Hm2 & Hr & Hi2 & HP2); [done | done | lia | lia | lia | done |].
    rewrite Hm2. eexists _, st'. split; [done |]. rewrite <- Hfull. split; [by rewrite usb_messages_app, Hm |]. split; [done | by apply HP1].
Qed.
End Exchange.

(** C27: Loading over USB works end to end.  For every file, the messages that
    usbtool sends leave the file, padded to a multiple of 512 bytes, in the memory
    of the device at the load address and everything else as it was, and the
    device ready for the next command. *)
Theorem usb_load_correct {F : Type} (flash_spi : list Z -> Z -> Z -> F -> option F) (call : list Z -> option unit) addr file (st : usb_state F) :
  usb_idle st -> 0 <= addr -> addr + Z.of_nat (length (pad_512 file)) < 2 ^ 64 -> Forall is_byte file ->
  exists msgs st', bulk_load (S (length file)) true addr file = Some msgs /\ usb_messages flash_spi call msgs st = Some st' /\ usb_idle st' /\
    us_flash st' = us_flash st /\ forall x, us_mem st' x = mem_write addr (pad_512 file) (us_mem st) x.
Proof.
  intros Hi Ha Hend Hb.
  destruct (bulk_load_run flash_spi call (fun addr buf st st' => us_flash st' = us_flash st /\ forall x, us_mem st' x = mem_write addr buf (us_mem st) x) true (fun _ _ => True) (2 ^ 64)
    (S (length file)) addr file st) as (msgs & st' & Hm & Hr & Hi' & HP); [lia | | | done | done | lia | done | done | done | by exists msgs, st'].
  - intros a s _. split; [done |]. intros x. unfold mem_write. cbn [length]. by destruct (Z.leb_spec a x), (Z.ltb_spec x (a + Z.of_nat 0)); try lia.
  - intros a buf rest s _ Hs Ha0 Hlim Hbb Hd Hbl Hcase. rewrite length_app in Hlim. rewrite exchange by (done || lia). eexists. split; [done |]. split; [apply idle_next; lia |].
    split; [done |]. intros Hfull. split; [done |]. intros s' [Hf Hx]. split; [done |]. intros x. rewrite Hx, <- Hfull. apply mem_write_app.
Qed.

Section FlashOverUsb.
Context {F : Type} (exec : list Z -> F -> F) (status : F -> Z * F) (polls : nat) (content : F -> Z -> Z) (sfdp : Z -> Z) (ops : list erase_op).
Context `{!SpiFlash exec status polls content ops} (sent : nat -> nat -> nat) (call : list Z -> option unit).
Hypothesis Hsfdp : forall a, is_byte (sfdp a).
Hypothesis Hread : read_erase_ops sfdp = Some ops.
Hypothesis Hops : ops <> [].
Hypothesis Hsent : keeps_up sent.

Abbreviation flash_spi := (usb_flash_spi exec status sent polls sfdp).
Abbreviation idle := (bus_idle exec status polls content ops).

(** The smallest block that can be erased. *)
Definition erase_unit : Z := 2 ^ eo_shift (op_at (sort_erase_ops ops) 0).

Lemma erase_unit_divides : (erase_unit | 2 ^ 20).
Proof.
  destruct (sort_erase_ops_spec ops Hops) as (Hl & Hin & _). destruct (Hin 0%nat) as [Hel _]; [destruct ops; [done | rewrite Hl; cbn; lia] |].
  pose proof (read_erase_ops_ok _ _ Hsfdp Hread) as Hok. rewrite List.Forall_forall in Hok. destruct (Hok _ (proj1 (list_elem_of_In _ _) Hel)) as [Hs _]. apply pow_divide. lia.
Qed.

(** [buf] is in the flash memory at [addr], blank up to a block boundary. *)
Definition flashed (addr : Z) (buf : list Z) (b b' : spi_bus) : Prop :=
  exists until, (erase_unit | until) /\ addr + Z.of_nat (length buf) <= until < addr + Z.of_nat (length buf) + erase_unit /\
    forall x, content (bus_flash b') x = if (addr <=? x) && (x <? addr + Z.of_nat (length buf)) then default 0 (buf !! Z.to_nat (x - addr))
      else if (addr + Z.of_nat (length buf) <=? x) && (x <? until) then 0xff else content (bus_flash b) x.

Lemma erase_unit_pos : 0 < erase_unit.
Proof. destruct erase_unit_divides as [q Hq]. assert (0 <= erase_unit) by (apply Z.pow_nonneg; lia). destruct (Z.eq_dec erase_unit 0) as [E | E]; [rewrite E in Hq |]; lia. Qed.

Lemma flashed_app addr buf rest f f1 f' : (erase_unit | addr) -> (erase_unit | Z.of_nat (length buf)) -> flashed addr buf f f1 ->
  flashed (addr + Z.of_nat (length buf)) rest f1 f' -> flashed addr (buf ++ rest) f f'.
Proof.
  intros Ha Hb (u1 & Hd1 & Hu1 & H1) (u2 & Hd2 & Hu2 & H2). pose proof erase_unit_pos as Hpos.
  assert (u1 = addr + Z.of_nat (length buf)) as ->.
  { assert (erase_unit | u1 - (addr + Z.of_nat (length buf))) as [c Hc] by (apply Z.divide_sub_r; [done | by apply Z.divide_add_r]). assert (c = 0) as -> by nia. lia. }
  exists u2. rewrite length_app, Nat2Z.inj_add, Z.add_assoc. split; [done |]. split; [lia |]. intros x. rewrite H2, H1. clear H1 H2.
  destruct (Z.leb_spec (addr + Z.of_nat (length buf)) x), (Z.ltb_spec x (addr + Z.of_nat (length buf) + Z.of_nat (length rest))), (Z.leb_spec addr x), (Z.ltb_spec x (addr + Z.of_nat (length buf))),
    (Z.leb_spec (addr + Z.of_nat (length buf) + Z.of_nat (length rest)) x), (Z.ltb_spec x u2); cbn [andb]; try lia; try done.
  all: rewrite ?lookup_app_r, ?lookup_app_l by lia; try done.
  all: do 2 f_equal; lia.
Qed.

(** C26: Flashing over USB works end to end.  For every file that fits into the
    flash memory, every start address that is a multiple of the smallest erase
    size, every flash memory that does what its tables say, and every controller
    that, once its FIFO has been filled, sends a byte for every byte written: the
    messages that usbtool sends leave the file, padded to a multiple of 512 bytes,
    in the flash memory, blank up to the next boundary, and everything else as it
    was; chunks do not erase each other, every command is sent as a whole and the
    memory is waited for.  (A slower controller loses bytes, [tx_cmd_overflow].) *)
Theorem usb_flash_end_to_end start file (st : usb_state spi_bus) : usb_idle st -> idle (us_flash st) -> (erase_unit | start) -> 0 <= start ->
  start + Z.of_nat (length (pad_512 file)) <= 2 ^ 24 -> Forall is_byte file ->
  exists msgs st', bulk_load (S (length file)) false start file = Some msgs /\ usb_messages flash_spi call msgs st = Some st' /\ usb_idle st' /\ idle (us_flash st') /\
    flashed start (pad_512 file) (us_flash st) (us_flash st').
Proof.
  intros Hi Hfi Hd Hs Hend Hb.
  apply (bulk_load_run flash_spi call (fun addr buf st st' => idle (us_flash st') /\ flashed addr buf (us_flash st) (us_flash st')) false
    (fun addr st => (erase_unit | addr) /\ idle (us_flash st)) (2 ^ 24 + 1)); [lia | | | done | done | lia | done | lia | done].
  - intros a s [Ha Hsi]. split; [done |]. exists a. cbn [length]. split; [done |]. pose proof erase_unit_pos. split; [lia |].
    intros x. by destruct (Z.leb_spec a x), (Z.ltb_spec x (a + Z.of_nat 0)), (Z.leb_spec (a + Z.of_nat 0) x), (Z.ltb_spec x a); try lia.
  - intros a buf rest s [Ha Hsi] Hs0 Ha0 Hlim Hbb Hd5 Hbl Hcase. rewrite length_app in Hlim. rewrite exchange by (done || lia).
    destruct (usb_flash_spi_correct exec status polls content sfdp ops sent buf a (us_flash s) Hsent Hsi Hsfdp Hread Hops Hbb ltac:(intros ->; cbn in Hbl; lia) Ha0 ltac:(lia)) as (_ & Hf & _).
    destruct (Hf Ha) as (b' & until & -> & Hbi & Hu). assert (flashed a buf (us_flash s) b') as HF by (exists until; destruct Hu as (Hu1 & Hu2 & Hu3); done).
    eexists. split; [done |]. split; [apply idle_next; lia |]. split; [done |]. intros Hfull. split; [split; [apply Z.divide_add_r; [done | apply erase_unit_divides] | done] |].
    intros s' [Hsi' HP]. split; [done |]. eapply flashed_app; [done | rewrite Hfull; apply erase_unit_divides | exact HF | by rewrite Hfull].
Qed.
End FlashOverUsb.

(** ** Examples *)
Definition demo_usb {F} (f : F) : usb_state F := mkUsb PHASE_HEADER (replicate 512 0) (Some (ToHeader, 512)) (fun _ => 0) f.

Lemma demo_usb_idle {F} (f : F) : usb_idle (demo_usb f).
Proof. done. Qed.
Lemma demo_file_bytes : Forall is_byte [1; 2; 3].
Proof. repeat constructor; unfold is_byte; lia. Qed.

Lemma usb_load_correct_witness : exists msgs st', bulk_load 4 true 0x200000 [1; 2; 3] = Some msgs /\
  usb_messages (fun _ _ _ f => Some f) (fun _ => Some tt) msgs (demo_usb tt) = Some st' /\ us_mem st' 0x200001 = 2 /\ us_mem st' 0x200200 = 0.
Proof.
  destruct (usb_load_correct (fun _ _ _ f => Some f) (fun _ => Some tt) 0x200000 [1; 2; 3] (demo_usb tt) (demo_usb_idle tt)) as (msgs & st' & Hm & Hr & _ & _ & Hx).
  - lia.
  - vm_compute. reflexivity.
  - apply demo_file_bytes.
  - exists msgs, st'. split; [exact Hm |]. split; [exact Hr |]. rewrite !Hx. split; vm_compute; reflexivity.
Defined.

Lemma demo_ops_read : read_erase_ops demo_sfdp = Some demo_ops.
Proof. vm_compute. reflexivity. Qed.

Lemma usb_flash_end_to_end_witness : exists msgs st', bulk_load 4 false 4096 [1; 2; 3] = Some msgs /\
  usb_messages (usb_flash_spi demo_flash_exec demo_status demo_sent 4 demo_sfdp) (fun _ => Some tt) msgs (demo_usb demo_bus) = Some st' /\
  demo_content (bus_flash (us_flash st')) 4097 = 2.
Proof.
  destruct (usb_flash_end_to_end demo_flash_exec demo_status 4 demo_content demo_sfdp demo_ops demo_sent (fun _ => Some tt) demo_sfdp_byte demo_ops_read ltac:(discriminate) demo_keeps_up
    4096 [1; 2; 3] (demo_usb demo_bus) (demo_usb_idle _) demo_bus_idle) as (msgs & st' & Hm & Hr & _ & _ & (until & _ & _ & Hx)).
  - by exists 1.
  - lia.
  - vm_compute. discriminate.
  - apply demo_file_bytes.
  - exists msgs, st'. split; [exact Hm |]. split; [exact Hr |]. rewrite Hx. reflexivity.
Defined.

(** ** A defect

    The upper half of the stack address of --call and --start is written to the
    wrong place. *)
Lemma stack_address_split : header_word 2 (run_header true 0 0x123456789) = 0x23456789 /\ header_word 3 (run_header true 0 0x123456789) = 1.
Proof. split; vm_compute; reflexivity. Qed.
