(* ===== verification/Dwc3.v ===== *)
(** * USB control transfers

    The control endpoint of [dwc3.c], with the descriptors and callbacks of
    [usb_loader.c].  The driver submits one transfer request (TRB) at a time; the
    controller completes it and the driver goes on with the next stage.  The
    request and the setup packet share memory (a union).  Commands to the
    endpoints are kept in a log, and the device control and endpoint enable
    registers are fields of the state.  [None] is a failed assertion, a call of
    [die] or of [abort].  Cache maintenance, waiting for the end of a command, and
    messages are left out. *)
From S2P Require Import Prelude.
From stdpp Require Import list.
Open Scope Z_scope.
Open Scope list_scope.

(** ** Data *)
Record usb_setup : Type := {
  bRequestType : Z;
  bRequest : Z;
  wValue : Z;
  wIndex : Z;
  wLength : Z;
}.
Definition usb_setup_ok (r : usb_setup) : Prop :=
  is_byte (bRequestType r) /\ is_byte (bRequest r) /\ 0 <= wValue r < 2 ^ 16 /\ 0 <= wIndex r < 2 ^ 16 /\ 0 <= wLength r < 2 ^ 16.

Definition DWC3_TRB_HWO : Z := 1.
Definition DWC3_TRB_CSP : Z := 8.
Definition LAST_TRB : Z := Z.lor (Z.lor (Z.shiftl 1 10) (Z.shiftl 1 11)) 2.
Definition DWC3_TRB_TYPE_NORMAL : Z := Z.shiftl 1 4.
Definition DWC3_TRB_TYPE_CONTROL_SETUP : Z := Z.shiftl 2 4.
Definition DWC3_TRB_TYPE_CONTROL_STATUS2 : Z := Z.shiftl 3 4.
Definition DWC3_TRB_TYPE_CONTROL_STATUS3 : Z := Z.shiftl 4 4.
Definition DWC3_TRB_TYPE_CONTROL_DATA : Z := Z.shiftl 5 4.
Record xhci_trb : Type := mkTrb {
  trb_param : Z;
  trb_status : Z;
  trb_control : Z;
}.

(** Commands to an endpoint: the configuration words, or the request. *)
Inductive depcmd : Type :=
| DEPCMD_START_NEW_CONFIG
| DEPCMD_SET_XFER_RSC_CONFIG (n : Z)
| DEPCMD_SET_EP_CONFIG (cfg0 cfg1 : Z)
| DEPCMD_SET_STALL
| DEPCMD_CLEAR_STALL
| DEPCMD_START_XFER (t : xhci_trb).

Inductive dwc3_ep0phase : Set := DWC3_EP0_SETUP | DWC3_EP0_DATA | DWC3_EP0_STATUS2 | DWC3_EP0_STATUS3 | DWC3_EP0_DISCONNECTED.
Definition phase_eqb (p q : dwc3_ep0phase) : bool :=
  match p, q with
  | DWC3_EP0_SETUP, DWC3_EP0_SETUP | DWC3_EP0_DATA, DWC3_EP0_DATA | DWC3_EP0_STATUS2, DWC3_EP0_STATUS2 | DWC3_EP0_STATUS3, DWC3_EP0_STATUS3
  | DWC3_EP0_DISCONNECTED, DWC3_EP0_DISCONNECTED => true
  | _, _ => false
  end.

Inductive usb_speed : Set := USB_LOW_SPEED | USB_FULL_SPEED | USB_HIGH_SPEED | USB_SUPER_SPEED | USB_SUPER_SPEED_PLUS.
Definition usb_max_packet_size (s : usb_speed) : Z :=
  match s with USB_LOW_SPEED => 8 | USB_FULL_SPEED => 64 | USB_HIGH_SPEED => 512 | USB_SUPER_SPEED | USB_SUPER_SPEED_PLUS => 1024 end.
Definition dwc3_speed_to_standard (v : Z) : option usb_speed :=
  match v with 0 => Some USB_HIGH_SPEED | 1 => Some USB_FULL_SPEED | 2 => Some USB_LOW_SPEED | 4 => Some USB_SUPER_SPEED | 5 => Some USB_SUPER_SPEED_PLUS | _ => None end.

(** The union in [struct dwc3_bufs]. *)
Inductive ep0_union : Type := InTrb (t : xhci_trb) | InSetup (r : usb_setup).

(** [dw_pending] is the control endpoint of the last submitted request, with the
    request, until it completes; [dw_desc] the descriptor buffer; [dw_dctl] and
    [dw_epen] the device control and endpoint enable registers; [dw_cmds] the
    commands so far, the last one first; [dw_loader] the phase of the loading
    protocol, which [usb_loader.c] keeps behind the state of the driver. *)
Record dwc3_state : Type := mkDwc {
  dw_phase : dwc3_ep0phase;
  dw_speed : usb_speed;
  dw_dcfg : Z;
  dw_ep0_buf : Z;
  dw_buf_addr : Z;
  dw_buf_size : Z;
  dw_desc : list Z;
  dw_mem : ep0_union;
  dw_pending : option (Z * xhci_trb);
  dw_dctl : Z;
  dw_epen : Z;
  dw_cmds : list (Z * depcmd);
  dw_loader : Z;
}.

Definition set_phase (p : dwc3_ep0phase) (st : dwc3_state) : dwc3_state :=
  mkDwc p (dw_speed st) (dw_dcfg st) (dw_ep0_buf st) (dw_buf_addr st) (dw_buf_size st) (dw_desc st) (dw_mem st) (dw_pending st) (dw_dctl st) (dw_epen st) (dw_cmds st) (dw_loader st).
Definition set_loader (v : Z) (st : dwc3_state) : dwc3_state :=
  mkDwc (dw_phase st) (dw_speed st) (dw_dcfg st) (dw_ep0_buf st) (dw_buf_addr st) (dw_buf_size st) (dw_desc st) (dw_mem st) (dw_pending st) (dw_dctl st) (dw_epen st) (dw_cmds st) v.
Definition set_dcfg (v : Z) (st : dwc3_state) : dwc3_state :=
  mkDwc (dw_phase st) (dw_speed st) v (dw_ep0_buf st) (dw_buf_addr st) (dw_buf_size st) (dw_desc st) (dw_mem st) (dw_pending st) (dw_dctl st) (dw_epen st) (dw_cmds st) (dw_loader st).
Definition set_buf (id addr size : Z) (desc : list Z) (st : dwc3_state) : dwc3_state :=
  mkDwc (dw_phase st) (dw_speed st) (dw_dcfg st) id addr size desc (dw_mem st) (dw_pending st) (dw_dctl st) (dw_epen st) (dw_cmds st) (dw_loader st).
Definition set_speed (s : usb_speed) (st : dwc3_state) : dwc3_state :=
  mkDwc (dw_phase st) s (dw_dcfg st) (dw_ep0_buf st) (dw_buf_addr st) (dw_buf_size st) (dw_desc st) (dw_mem st) (dw_pending st) (dw_dctl st) (dw_epen st) (dw_cmds st) (dw_loader st).
Definition set_dctl (v : Z) (st : dwc3_state) : dwc3_state :=
  mkDwc (dw_phase st) (dw_speed st) (dw_dcfg st) (dw_ep0_buf st) (dw_buf_addr st) (dw_buf_size st) (dw_desc st) (dw_mem st) (dw_pending st) v (dw_epen st) (dw_cmds st) (dw_loader st).
Definition set_epen (v : Z) (st : dwc3_state) : dwc3_state :=
  mkDwc (dw_phase st) (dw_speed st) (dw_dcfg st) (dw_ep0_buf st) (dw_buf_addr st) (dw_buf_size st) (dw_desc st) (dw_mem st) (dw_pending st) (dw_dctl st) v (dw_cmds st) (dw_loader st).
Definition set_ep0_mem (m : ep0_union) (pending : option (Z * xhci_trb)) (st : dwc3_state) : dwc3_state :=
  mkDwc (dw_phase st) (dw_speed st) (dw_dcfg st) (dw_ep0_buf st) (dw_buf_addr st) (dw_buf_size st) (dw_desc st) m pending (dw_dctl st) (dw_epen st) (dw_cmds st) (dw_loader st).

(** ** Commands and registers *)
Definition dwc3_post_depcmd (ep : Z) (cmd : depcmd) (st : dwc3_state) : dwc3_state :=
  mkDwc (dw_phase st) (dw_speed st) (dw_dcfg st) (dw_ep0_buf st) (dw_buf_addr st) (dw_buf_size st) (dw_desc st) (dw_mem st) (dw_pending st) (dw_dctl st) (dw_epen st) ((ep, cmd) :: dw_cmds st) (dw_loader st).

(** A command to each of a range of endpoints. *)
Fixpoint post_all (cmd : depcmd) (eps : list Z) (st : dwc3_state) : dwc3_state :=
  match eps with [] => st | ep :: eps => post_all cmd eps (dwc3_post_depcmd ep cmd st) end.

Definition USB_CONTROL : Z := 0.
Definition USB_BULK : Z := 2.
Definition DWC3_DEPCFG1_XFER_COMPLETE_EN : Z := Z.shiftl 1 8.
Definition configure_ep (ep cfg0 cfg1 : Z) (st : dwc3_state) : dwc3_state :=
  let cfg1 := Z.lor cfg1 0 in
  let cfg1 := Z.lor cfg1 (Z.land (u32 (Z.shiftl ep 25)) 0x3e000000) in
  let cfg0 := if negb (Z.land ep 1 =? 0) then Z.lor cfg0 (Z.land (u32 (Z.shiftl ep 16)) 0x3e0000) else cfg0 in
  dwc3_post_depcmd ep (DEPCMD_SET_EP_CONFIG cfg0 cfg1) st.
Definition DWC3_DEPCFG0_INIT : Z := 0.
Definition dwc3_configure_bulk_ep (ep action max_packet_size : Z) (st : dwc3_state) : dwc3_state :=
  let cfg0 := Z.lor (Z.lor action (u32 (Z.shiftl max_packet_size 3))) (Z.shiftl USB_BULK 1) in
  configure_ep ep cfg0 DWC3_DEPCFG1_XFER_COMPLETE_EN st.

Definition configure_control_ep (ep action max_packet_size : Z) (st : dwc3_state) : dwc3_state :=
  let cfg0 := Z.lor action (Z.lor (u32 (Z.shiftl max_packet_size 3)) (Z.shiftl USB_CONTROL 1)) in
  configure_ep ep cfg0 DWC3_DEPCFG1_XFER_COMPLETE_EN st.

Definition dwc3_new_configuration (max_packet_size num_ep : Z) (st : dwc3_state) : dwc3_state :=
  let st := dwc3_post_depcmd 0 DEPCMD_START_NEW_CONFIG st in
  let st := configure_control_ep 0 DWC3_DEPCFG0_INIT max_packet_size st in
  let st := configure_control_ep 1 DWC3_DEPCFG0_INIT max_packet_size st in
  let st := post_all (DEPCMD_SET_XFER_RSC_CONFIG 1) (seqZ 0 num_ep) st in
  set_epen 3 st.

(** The mask is 0: the shifted field and the constant have no bits in common. *)
Definition DWC3_DCTL_LST_CHANGE_REQ_MASK : Z := Z.land (u32 (Z.shiftl 15 5)) 0x1e.
Definition dwc3_write_dctl (val : Z) (st : dwc3_state) : dwc3_state :=
  set_dctl (Z.land val (Z.lnot DWC3_DCTL_LST_CHANGE_REQ_MASK)) st.
Definition DWC3_DCTL_INIT_U2 : Z := Z.shiftl 1 12.
Definition DWC3_DCTL_ACCEPT_U2 : Z := Z.shiftl 1 11.
Definition DWC3_DCTL_INIT_U1 : Z := Z.shiftl 1 10.
Definition DWC3_DCTL_ACCEPT_U1 : Z := Z.shiftl 1 9.
Definition DWC3_DCTL_TEST_CONTROL_MASK : Z := 0xe.
Definition DWC3_DCTL_HIRDTHRES_MASK : Z := Z.shiftl 31 24.
Definition DWC3_DCTL_L1_HIBERNATION_EN : Z := Z.shiftl 1 18.

(** ** Descriptors *)
Definition USB_DEVICE_DESC : Z := 1.
Definition USB_CONFIG_DESC : Z := 2.
Definition USB_DEVICE_QUALIFIER : Z := 6.
Definition device_desc : list Z := [0x12; 1; 0; 2; 0; 0; 0; 0x40; 0x07; 0x22; 0x0c; 0x33; 0; 1; 0; 0; 0; 1].
Definition device_qualifier : list Z := [0x0a; 1; 0; 2; 0; 0; 0; 0x40; 1; 0].
Definition conf_desc : list Z := [9; 2; 0x20; 0; 1; 1; 0; 0x80; 0xc8; 9; 4; 0; 0; 2; 0xff; 6; 5; 0; 7; 5; 0x81; 2; 0; 4; 0; 7; 5; 2; 2; 0; 4; 0].

Section Driver.
Context (desc_addr setup_addr header_addr num_ep : Z).

(** Copies a descriptor to the beginning of the buffer. *)
Definition copy_desc (d buf : list Z) : list Z := d ++ drop (length d) buf.

Definition prepare_descriptor (st : dwc3_state) (req : usb_setup) : Z * dwc3_state :=
  let buf := dw_desc st in
  let descriptor_type := Z.shiftr (wValue req) 8 in
  let max_packet_size := usb_max_packet_size (dw_speed st) in
  let st := set_buf (dw_ep0_buf st) desc_addr (dw_buf_size st) buf st in
  if descriptor_type =? USB_DEVICE_DESC then
    let buf := copy_desc device_desc buf in
    let buf := if max_packet_size <? 64 then <[7%nat := u8 max_packet_size]> buf else buf in
    (1, set_buf (dw_ep0_buf st) desc_addr 0x12 buf st)
  else if descriptor_type =? USB_DEVICE_QUALIFIER then
    (1, set_buf (dw_ep0_buf st) desc_addr 0x0a (copy_desc device_qualifier buf) st)
  else if descriptor_type =? USB_CONFIG_DESC then
    let buf := copy_desc conf_desc buf in
    let buf :=
      if max_packet_size <? 1024 then
        <[30%nat := u8 (Z.shiftr max_packet_size 8)]> (<[29%nat := Z.land max_packet_size 0xff]>
          (<[23%nat := u8 (Z.shiftr max_packet_size 8)]> (<[22%nat := Z.land max_packet_size 0xff]> buf)))
      else buf in
    (1, set_buf (dw_ep0_buf st) desc_addr 0x20 buf st)
  else (0, st).

(** The phase of the loading protocol, [usbstage_state.phase]. *)
Definition PHASE_HEADER : Z := 0.

Definition set_configuration (st : dwc3_state) (req : usb_setup) : option (bool * dwc3_state) :=
  if negb (wValue req =? 1) then None
  else if negb (usb_max_packet_size (dw_speed st) <=? 512) then None
  else
    let st := set_loader PHASE_HEADER st in
    let st := dwc3_configure_bulk_ep 4 DWC3_DEPCFG0_INIT (usb_max_packet_size (dw_speed st)) st in
    let ctrl := Z.lor (Z.lor (Z.lor (Z.lor DWC3_TRB_TYPE_NORMAL DWC3_TRB_CSP) LAST_TRB) DWC3_TRB_HWO) DWC3_TRB_HWO in
    Some (true, dwc3_post_depcmd 4 (DEPCMD_START_XFER (mkTrb header_addr 512 ctrl)) st).

(** ** The control endpoint *)
Definition dwc3_submit_trb (ep param status ctrl : Z) (st : dwc3_state) : dwc3_state :=
  let t := mkTrb param status (Z.lor ctrl DWC3_TRB_HWO) in
  dwc3_post_depcmd ep (DEPCMD_START_XFER t) (set_ep0_mem (InTrb t) (Some (ep, t)) st).

Definition dwc3_ep0_restart (st : dwc3_state) : dwc3_state :=
  set_phase DWC3_EP0_SETUP (dwc3_submit_trb 0 setup_addr 8 (Z.lor DWC3_TRB_TYPE_CONTROL_SETUP LAST_TRB) (dwc3_post_depcmd 0 DEPCMD_SET_STALL st)).

Definition DWC3_DCFG_DEVADDR_MASK : Z := 0x3f8.

Definition dwc3_dispatch_control_request (st : dwc3_state) (req : usb_setup) : option dwc3_state :=
  let req_header := Z.lor (Z.shiftl (bRequestType req) 8) (bRequest req) in
  let val := wValue req in let len := wLength req in let idx := wIndex req in
  let error st := Some (dwc3_ep0_restart st) in
  if Z.land req_header 0xe0ff =? 0x8006 then
    if negb (idx =? 0) then error st
    else
      let '(id, st) := prepare_descriptor st req in
      let st := set_buf id (dw_buf_addr st) (dw_buf_size st) (dw_desc st) st in
      if id =? 0 then error st
      else
        let len := if dw_buf_size st <? len then dw_buf_size st else len in
        Some (dwc3_submit_trb (Z.shiftr req_header 15) (dw_buf_addr st) len (Z.lor DWC3_TRB_TYPE_CONTROL_DATA LAST_TRB) (set_phase DWC3_EP0_DATA st))
  else if Z.land req_header 0xe0ff =? 0x0005 then
    if negb (len =? 0) || negb (idx =? 0) || (0x7f <? val) then error st
    else
      let tmp := Z.lor (Z.land (dw_dcfg st) (Z.lnot DWC3_DCFG_DEVADDR_MASK)) (Z.land (u32 (Z.shiftl val 3)) 0x3f8) in
      Some (dwc3_submit_trb 1 0 0 (Z.lor DWC3_TRB_TYPE_CONTROL_STATUS2 LAST_TRB) (set_phase DWC3_EP0_STATUS2 (set_dcfg tmp st)))
  else if Z.land req_header 0xe0ff =? 0x0009 then
    if negb (len =? 0) || negb (idx =? 0) then error st
    else match set_configuration st req with
    | None => None
    | Some (false, st) => error st
    | Some (true, st) =>
        let st := dwc3_write_dctl (Z.lor (Z.lor (dw_dctl st) DWC3_DCTL_ACCEPT_U1) DWC3_DCTL_ACCEPT_U2) st in
        Some (dwc3_submit_trb 1 0 0 (Z.lor DWC3_TRB_TYPE_CONTROL_STATUS2 LAST_TRB) (set_phase DWC3_EP0_STATUS2 st))
    end
  else error st.

Definition ep0_xfer_complete (ep : Z) (st : dwc3_state) : option dwc3_state :=
  let phase := dw_phase st in
  st ←
    match phase with
    | DWC3_EP0_SETUP => match dw_mem st with InSetup req => dwc3_dispatch_control_request st req | InTrb _ => None end
    | DWC3_EP0_DATA =>
        let st := set_phase DWC3_EP0_STATUS3 (set_buf 0 (dw_buf_addr st) (dw_buf_size st) (dw_desc st) st) in
        if negb (ep =? 1) then None else Some (dwc3_submit_trb (1 - ep) 0 0 (Z.lor DWC3_TRB_TYPE_CONTROL_STATUS3 LAST_TRB) st)
    | DWC3_EP0_STATUS2 | DWC3_EP0_STATUS3 => Some (set_phase DWC3_EP0_SETUP (dwc3_submit_trb 0 setup_addr 8 (Z.lor DWC3_TRB_TYPE_CONTROL_SETUP LAST_TRB) st))
    | DWC3_EP0_DISCONNECTED => None
    end;
  if phase_eqb (dw_phase st) phase then None else Some st.

(** ** Events *)
Definition process_device_event (device_status : Z) (event : Z) (st : dwc3_state) : option dwc3_state :=
  if negb (Z.land (Z.shiftr event 1) 0x7f =? 0) then None
  else
    let type := Z.land (Z.shiftr event 8) 15 in
    if type =? 0 then
      let st := dwc3_write_dctl (Z.land (Z.land (dw_dctl st) (Z.lnot DWC3_DCTL_INIT_U1)) (Z.lnot DWC3_DCTL_INIT_U2)) st in
      Some (set_phase DWC3_EP0_DISCONNECTED st)
    else if type =? 1 then
      let st := dwc3_write_dctl (Z.land (dw_dctl st) (Z.lnot DWC3_DCTL_TEST_CONTROL_MASK)) st in
      let st := post_all DEPCMD_CLEAR_STALL (seqZ 1 (num_ep - 1)) st in
      let st := set_dcfg (Z.land (dw_dcfg st) (Z.lnot DWC3_DCFG_DEVADDR_MASK)) st in
      Some (set_phase DWC3_EP0_SETUP st)
    else if type =? 2 then
      match dwc3_speed_to_standard (Z.land device_status 7) with
      | None => None
      | Some speed =>
          let st := set_speed speed st in
          let st := dwc3_write_dctl (Z.land (Z.land (dw_dctl st) (Z.lnot DWC3_DCTL_HIRDTHRES_MASK)) (Z.lnot DWC3_DCTL_L1_HIBERNATION_EN)) st in
          Some (set_epen (Z.lor (dw_epen st) (Z.shiftl 1 4)) st)
      end
    else if type =? 3 then Some st
    else None.

Definition process_event (device_status : Z) (ep_event : Z -> dwc3_state -> option dwc3_state) (event : Z) (st : dwc3_state) : option dwc3_state :=
  if negb (Z.land event 1 =? 0) then process_device_event device_status event st
  else
    let ep := Z.land (Z.shiftr event 1) 0x1f in
    let type := Z.land (Z.shiftr event 6) 15 in
    if ep <=? 1 then if type =? 1 then ep0_xfer_complete ep st else Some st
    else ep_event event st.

(** The events are read from a ring of [evt_slots] words. *)
Fixpoint dwc3_events (device_status : Z) (ep_event : Z -> dwc3_state -> option dwc3_state) (evtbuf : list Z) (count : nat) (evt_pos : Z) (st : dwc3_state) :
    option (Z * dwc3_state) :=
  match count with
  | O => Some (evt_pos, st)
  | S count =>
      event ← evtbuf !! Z.to_nat evt_pos;
      st ← process_event device_status ep_event event st;
      dwc3_events device_status ep_event evtbuf count ((evt_pos + 1) mod Z.of_nat (length evtbuf)) st
  end.

Definition dwc3_irq (device_status : Z) (ep_event : Z -> dwc3_state -> option dwc3_state) (evtbuf : list Z) (evtcount evt_pos : Z) (st : dwc3_state) : option (Z * dwc3_state) :=
  if negb (evtcount mod 4 =? 0) then None
  else dwc3_events device_status ep_event evtbuf (Z.to_nat (evtcount / 4)) evt_pos st.
End Driver.

(** ** Control transfers

    The controller completes the pending request: a setup packet is written over
    the request, and data is sent from the descriptor buffer. *)
Section Transfers.
Context (desc_addr setup_addr header_addr num_ep : Z) (device_status : Z) (ep_event : Z -> dwc3_state -> option dwc3_state).

(** The event that reports the completion of a request of an endpoint. *)
Definition xfer_complete_event (ep : Z) : Z := Z.lor (Z.shiftl 1 6) (Z.shiftl ep 1).

(** The kind of a request. *)
Definition trb_kind (t : xhci_trb) : Z := Z.land (trb_control t) 0x3f0.

Definition ep0_complete (req : usb_setup) (st : dwc3_state) : option dwc3_state :=
  match dw_pending st with
  | Some (ep, t) =>
      let mem := if trb_kind t =? DWC3_TRB_TYPE_CONTROL_SETUP then InSetup req else dw_mem st in
      process_event desc_addr setup_addr header_addr num_ep device_status ep_event (xfer_complete_event ep) (set_ep0_mem mem None st)
  | None => None
  end.

(** What the host receives with the completion of the pending request. *)
Definition ep0_sent (st : dwc3_state) : list Z :=
  match dw_pending st with
  | Some (ep, t) =>
      if (ep =? 1) && (trb_kind t =? DWC3_TRB_TYPE_CONTROL_DATA) then take (Z.to_nat (trb_status t)) (drop (Z.to_nat (trb_param t - desc_addr)) (dw_desc st)) else []
  | _ => []
  end.

(** The stages of a transfer, until the next setup packet is awaited. *)
Fixpoint control_transfer (stages : nat) (req : usb_setup) (st : dwc3_state) : option (list Z * dwc3_state) :=
  match stages with
  | O => None
  | S stages =>
      let sent := ep0_sent st in
      st ← ep0_complete req st;
      if phase_eqb (dw_phase st) DWC3_EP0_SETUP then Some (sent, st)
      else '(more, st) ← control_transfer stages req st; Some (sent ++ more, st)
  end.

(** The request of a stage. *)
Definition stage_trb (param len kind : Z) : xhci_trb := mkTrb param len (Z.lor (Z.lor kind LAST_TRB) DWC3_TRB_HWO).

(** A setup packet is awaited. *)
Definition ep0_idle (st : dwc3_state) : Prop :=
  dw_phase st = DWC3_EP0_SETUP /\ dw_pending st = Some (0, stage_trb setup_addr 8 DWC3_TRB_TYPE_CONTROL_SETUP) /\ length (dw_desc st) = 32%nat.

(** ** What the requests mean *)
Definition descriptor (speed : usb_speed) (type : Z) : option (list Z) :=
  let packet := usb_max_packet_size speed in
  match type with
  | 1 => Some ([0x12; 1; 0; 2; 0; 0; 0; Z.min packet 64] ++ drop 8 device_desc)
  | 2 => Some (take 22 conf_desc ++ [packet mod 256; packet / 256; 0; 7; 5; 2; 2; packet mod 256; packet / 256; 0])
  | 6 => Some device_qualifier
  | _ => None
  end.

Inductive usb_request : Type :=
| GetDescriptor (bytes : list Z)
| SetAddress (a : Z)
| SetConfiguration
| Unsupported.

Definition request_of (speed : usb_speed) (r : usb_setup) : usb_request :=
  if (Z.land (bRequestType r) 0xe0 =? 0x80) && (bRequest r =? 6) && (wIndex r =? 0) then
    match descriptor speed (wValue r / 256) with Some d => GetDescriptor (take (Z.to_nat (wLength r)) d) | None => Unsupported end
  else if (Z.land (bRequestType r) 0xe0 =? 0) && (bRequest r =? 5) && (wIndex r =? 0) && (wLength r =? 0) && (wValue r <=? 127) then SetAddress (wValue r)
  else if (Z.land (bRequestType r) 0xe0 =? 0) && (bRequest r =? 9) && (wIndex r =? 0) && (wLength r =? 0) && (wValue r =? 1) && (usb_max_packet_size speed <=? 512) then SetConfiguration
  else Unsupported.

Lemma header_masked t r : is_byte t -> is_byte r -> Z.land (Z.lor (Z.shiftl t 8) r) 0xe0ff = Z.land t 0xe0 * 2 ^ 8 + r.
Proof.
  unfold is_byte. intros Ht Hr. rewrite Z.lor_comm. rewrite <- Z.shiftl_mul_pow2 by lia. rewrite Z.add_comm.
  assert (Z.lor r (Z.shiftl (Z.land t 0xe0) 8) = r + Z.shiftl (Z.land t 0xe0) 8) as <-.
  { rewrite lor_shiftl_add by lia. by rewrite Z.shiftl_mul_pow2 by lia. }
  rewrite Z.land_lor_distr_l. f_equal.
  - change 0xe0ff with (Z.lor (Z.ones 8) (Z.shiftl 0xe0 8)). rewrite Z.land_lor_distr_r, Z.land_ones by lia. rewrite (Z.mod_small r) by lia.
    rewrite land_small_shiftl by lia. apply Z.lor_0_r.
  - rewrite Z.shiftl_land. change 0xe0ff with (Z.lor (Z.ones 8) (Z.shiftl 0xe0 8)). rewrite Z.land_lor_distr_r, (Z.land_comm _ (Z.ones 8)), land_small_shiftl; [done | lia | done].
Qed.

Lemma header_is t r a b : is_byte t -> is_byte r -> 0 <= b < 256 -> (Z.land (Z.lor (Z.shiftl t 8) r) 0xe0ff =? a * 2 ^ 8 + b) = (Z.land t 0xe0 =? a) && (r =? b).
Proof.
  intros Ht Hr Hb. rewrite header_masked by done. unfold is_byte in Hr. destruct (Z.eqb_spec (Z.land t 0xe0) a) as [-> | Hne], (Z.eqb_spec r b) as [-> | Hne']; cbn [andb]; lia.
Qed.

(** The direction of a request to the host. *)
Lemma header_direction t r : is_byte t -> is_byte r -> Z.land t 0xe0 = 0x80 -> Z.shiftr (Z.lor (Z.shiftl t 8) r) 15 = 1.
Proof.
  unfold is_byte. intros Ht Hr Hm. rewrite Z.shiftr_lor. change 15 with (8 + 7). rewrite <- !Z.shiftr_shiftr by lia. rewrite Z.shiftr_shiftl_l by lia. rewrite Z.sub_diag, Z.shiftl_0_r.
  assert (Z.shiftr r 8 = 0) as -> by (rewrite Z.shiftr_div_pow2 by lia; apply Z.div_small; lia). rewrite Z.shiftr_0_l, Z.lor_0_r, Z.shiftr_div_pow2 by lia.
  assert (128 <= t) as Hge. { destruct (Z_lt_le_dec t 128) as [Hlt |]; [| done]. assert (Z.land (Z.land t (Z.ones 7)) 0xe0 = 0x80) as Hx by (rewrite Z.land_ones, Z.mod_small by lia; done).
    rewrite <- Z.land_assoc in Hx. change (Z.land (Z.ones 7) 0xe0) with 0x60 in Hx. assert (Z.testbit (Z.land t 0x60) 7 = Z.testbit 0x80 7) as Hb by (by rewrite Hx). rewrite Z.land_spec in Hb. cbn in Hb. by rewrite andb_false_r in Hb. }
  symmetry. apply (Z.div_unique t (2 ^ 7) 1 (t - 128)); lia.
Qed.

Lemma sent_take (d rest : list Z) l a : 0 <= l -> take (Z.to_nat (if Z.of_nat (length d) <? l then Z.of_nat (length d) else l)) (drop (Z.to_nat (a - a)) (d ++ rest)) = take (Z.to_nat l) d.
Proof.
  intros Hl. rewrite Z.sub_diag. cbn [Z.to_nat]. rewrite drop_0. destruct (Z.ltb_spec (Z.of_nat (length d)) l).
  - rewrite Nat2Z.id, take_app_length. symmetry. apply take_ge. lia.
  - rewrite take_app_le by lia. done.
Qed.

Lemma length_take_Z (d : list Z) l : 0 <= l -> Z.of_nat (length (take (Z.to_nat l) d)) = (if Z.of_nat (length d) <? l then Z.of_nat (length d) else l).
Proof. intros Hl. rewrite length_take. destruct (Z.ltb_spec (Z.of_nat (length d)) l); lia. Qed.

(** The address field of the configuration register. *)
Lemma address_field dcfg a : 0 <= a <= 127 -> let v := Z.lor (Z.land dcfg (Z.lnot DWC3_DCFG_DEVADDR_MASK)) (Z.land (u32 (Z.shiftl a 3)) 0x3f8) in
  Z.land (Z.shiftr v 3) 0x7f = a /\ Z.ldiff v DWC3_DCFG_DEVADDR_MASK = Z.ldiff dcfg DWC3_DCFG_DEVADDR_MASK.
Proof.
  intros Ha v. unfold v. unfold DWC3_DCFG_DEVADDR_MASK. rewrite u32_small by (rewrite Z.shiftl_mul_pow2 by lia; lia). change 0x3f8 with (Z.shiftl (Z.ones 7) 3). rewrite <- Z.shiftl_land.
  rewrite (Z.land_ones a), (Z.mod_small a) by lia. rewrite <- Z.ldiff_land. split.
  - rewrite Z.shiftr_lor, Z.shiftr_ldiff, !Z.shiftr_shiftl_l by lia. rewrite Z.sub_diag, !Z.shiftl_0_r. rewrite Z.land_lor_distr_l. change 0x7f with (Z.ones 7).
    rewrite (Z.land_ones a), (Z.mod_small a) by lia. rewrite Z.ldiff_land, <- Z.land_assoc, (Z.land_comm (Z.lnot _)), Z.land_lnot_diag, Z.land_0_r. apply Z.lor_0_l.
  - apply Z.bits_inj'. intros k Hk. rewrite !Z.ldiff_spec, Z.lor_spec, Z.ldiff_spec. rewrite (Z.shiftl_spec a 3 k), (Z.shiftl_spec (Z.ones 7) 3 k) by lia.
    destruct (Z.testbit dcfg k), (Z.testbit (Z.ones 7) (k - 3)) eqn:E; cbn; try done; try (by rewrite andb_false_r). all: rewrite ?andb_true_r.
    all: apply not_true_iff_false; intros Hb; apply not_true_iff_false in E; apply E; rewrite Z.testbit_ones by lia.
    all: destruct (Z_lt_le_dec (k - 3) 0); [by rewrite Z.testbit_neg_r in Hb by lia |]; apply andb_true_iff; split; [by apply Z.leb_le |]; apply Z.ltb_lt; destruct (Z_lt_le_dec (k - 3) 7); [done |];
      destruct (Z.eq_dec a 0) as [-> | ?]; [by rewrite Z.bits_0 in Hb |]; rewrite Z.bits_above_log2 in Hb; [done | lia |]; apply Z.log2_lt_pow2; [lia |]; apply Z.lt_le_trans with (2 ^ 7); [lia |]; apply Z.pow_le_mono_r; lia.
Qed.

(** The commands of a request, in order. *)
Definition stage (ep param len kind : Z) : Z * depcmd := (ep, DEPCMD_START_XFER (stage_trb param len kind)).
Definition next_setup : Z * depcmd := stage 0 setup_addr 8 DWC3_TRB_TYPE_CONTROL_SETUP.
Definition request_commands (packet : Z) (q : usb_request) : list (Z * depcmd) :=
  match q with
  | GetDescriptor d => [stage 1 desc_addr (Z.of_nat (length d)) DWC3_TRB_TYPE_CONTROL_DATA; stage 0 0 0 DWC3_TRB_TYPE_CONTROL_STATUS3; next_setup]
  | SetAddress _ => [stage 1 0 0 DWC3_TRB_TYPE_CONTROL_STATUS2; next_setup]
  | SetConfiguration =>
      [(4, DEPCMD_SET_EP_CONFIG (packet * 8 + 4) (4 * 2 ^ 25 + 2 ^ 8)); (4, DEPCMD_START_XFER (mkTrb header_addr 512 0xc1b));
       stage 1 0 0 DWC3_TRB_TYPE_CONTROL_STATUS2; next_setup]
  | Unsupported => []
  end.

(** What a completed transfer leaves. *)
Definition transfer_effect (q : usb_request) (st st' : dwc3_state) : Prop :=
  ep0_idle st' /\ dw_speed st' = dw_speed st /\ dw_epen st' = dw_epen st /\
  match q with
  | SetAddress a => Z.land (Z.shiftr (dw_dcfg st') 3) 0x7f = a /\ Z.ldiff (dw_dcfg st') DWC3_DCFG_DEVADDR_MASK = Z.ldiff (dw_dcfg st) DWC3_DCFG_DEVADDR_MASK
  | _ => dw_dcfg st' = dw_dcfg st
  end /\
  dw_dctl st' = match q with SetConfiguration => Z.lor (dw_dctl st) (2 ^ 9 + 2 ^ 11) | _ => dw_dctl st end /\
  dw_loader st' = match q with SetConfiguration => PHASE_HEADER | _ => dw_loader st end /\
  dw_cmds st' = rev (request_commands (usb_max_packet_size (dw_speed st)) q) ++ dw_cmds st.
Definition request_answer (q : usb_request) : list Z := match q with GetDescriptor d => d | _ => [] end.

(** Registers that the stages leave alone. *)
Definition same_device (st st' : dwc3_state) : Prop :=
  dw_speed st' = dw_speed st /\ dw_dcfg st' = dw_dcfg st /\ dw_dctl st' = dw_dctl st /\ dw_epen st' = dw_epen st /\ dw_loader st' = dw_loader st.

Lemma process_completion ep st : 0 <= ep <= 1 -> process_event desc_addr setup_addr header_addr num_ep device_status ep_event (xfer_complete_event ep) st = ep0_xfer_complete desc_addr setup_addr header_addr ep st.
Proof.
  intros Hep. assert (ep = 0 \/ ep = 1) as [-> | ->] by lia; done.
Qed.

(** The first completion of a transfer dispatches the request. *)
Lemma control_transfer_setup n req st : ep0_idle st -> control_transfer (S n) req st =
  (st1 ← dwc3_dispatch_control_request desc_addr setup_addr header_addr
     (set_ep0_mem (InSetup req) None st) req;
   if phase_eqb (dw_phase st1) DWC3_EP0_SETUP then None else control_transfer n req st1).
Proof.
  intros (Hp & Hpend & _). destruct st as [ph sp dcfg eb ba bs dd mem pend dctl epen cmds]. cbn in Hp, Hpend. subst ph pend. cbn [control_transfer ep0_sent ep0_complete dw_pending trb_control].
  change (trb_kind (stage_trb setup_addr 8 DWC3_TRB_TYPE_CONTROL_SETUP) =? DWC3_TRB_TYPE_CONTROL_SETUP) with true. change (0 =? 1) with false. cbn [andb].
  rewrite process_completion by lia. unfold ep0_xfer_complete. cbn [dw_phase dw_mem dw_speed dw_dcfg dw_ep0_buf dw_buf_addr dw_buf_size dw_desc dw_pending set_ep0_mem].
  destruct (dwc3_dispatch_control_request _ _ _ _ _) as [st1 |]; [| done]. cbn [mbind option_bind]. destruct (phase_eqb (dw_phase st1) DWC3_EP0_SETUP) eqn:E; [done |]. cbn [mbind option_bind]. rewrite E.
  destruct (control_transfer n req st1) as [[more st2] |]; done.
Qed.

(** The last stage leads back to waiting for a setup packet. *)
Lemma status_stage n req st param k : dw_phase st = DWC3_EP0_STATUS2 \/ dw_phase st = DWC3_EP0_STATUS3 -> dw_pending st = Some (k, stage_trb param 0 DWC3_TRB_TYPE_CONTROL_STATUS2) \/ dw_pending st = Some (k, stage_trb param 0 DWC3_TRB_TYPE_CONTROL_STATUS3) ->
  0 <= k <= 1 -> length (dw_desc st) = 32%nat ->
  exists st', control_transfer (S n) req st = Some ([], st') /\ ep0_idle st' /\ same_device st st' /\ dw_cmds st' = next_setup :: dw_cmds st.
Proof.
  intros Hp Hpend Hk Hl. cbn [control_transfer]. unfold ep0_sent, ep0_complete.
  assert (exists t, dw_pending st = Some (k, t) /\ (trb_kind t =? DWC3_TRB_TYPE_CONTROL_DATA) = false) as (t & -> & ->) by (destruct Hpend as [-> | ->]; by eexists).
  rewrite andb_false_r, process_completion by done. unfold ep0_xfer_complete. change (dw_phase (set_ep0_mem _ _ st)) with (dw_phase st).
  destruct Hp as [-> | ->]; eexists; (split; [cbn [mbind option_bind phase_eqb set_phase dw_phase]; reflexivity | done]).
Qed.
Lemma data_stages n req st len : dw_phase st = DWC3_EP0_DATA -> dw_pending st = Some (1, stage_trb desc_addr len DWC3_TRB_TYPE_CONTROL_DATA) -> length (dw_desc st) = 32%nat ->
  exists st', control_transfer (S (S n)) req st = Some (take (Z.to_nat len) (drop (Z.to_nat (desc_addr - desc_addr)) (dw_desc st)), st') /\ ep0_idle st' /\
    same_device st st' /\ dw_cmds st' = [next_setup; stage 0 0 0 DWC3_TRB_TYPE_CONTROL_STATUS3] ++ dw_cmds st.
Proof.
  intros Hp Hpend Hl. remember (S n) as n' eqn:En. cbn [control_transfer]. unfold ep0_sent, ep0_complete. rewrite Hpend.
  change (trb_kind (stage_trb desc_addr len DWC3_TRB_TYPE_CONTROL_DATA) =? DWC3_TRB_TYPE_CONTROL_DATA) with true. change (1 =? 1) with true. cbn [andb]. rewrite process_completion by lia.
  unfold ep0_xfer_complete. change (dw_phase (set_ep0_mem _ _ st)) with (dw_phase st). rewrite Hp. change (1 =? 1) with true. cbn [negb mbind option_bind]. change (1 - 1) with 0.
  set (st1 := dwc3_submit_trb _ _ _ _ _). change (dw_phase st1) with DWC3_EP0_STATUS3. cbn [phase_eqb mbind option_bind]. change (dw_phase st1) with DWC3_EP0_STATUS3. cbn [phase_eqb]. subst n'.
  destruct (status_stage n req st1 0 0) as (st' & -> & Hid & Hsd & Hc); [by right | by right | lia | done |]. exists st'. cbn [mbind option_bind]. rewrite app_nil_r. split; [done |]. split; [done |]. split; [done |]. by rewrite Hc.
Qed.

(** The descriptor buffer holds what the host is to get. *)
Lemma prepare_descriptor_ok st req : length (dw_desc st) = 32%nat -> 0 <= wValue req < 2 ^ 16 ->
  match descriptor (dw_speed st) (wValue req / 256) with
  | Some d => exists rest, prepare_descriptor desc_addr st req = (1, set_buf (dw_ep0_buf st) desc_addr (Z.of_nat (length d)) (d ++ rest) st) /\ length (d ++ rest) = 32%nat
  | None => exists st', prepare_descriptor desc_addr st req = (0, st')
  end.
Proof.
  intros Hl Hv. unfold prepare_descriptor. rewrite Z.shiftr_div_pow2 by lia. change (2 ^ 8) with 256. set (ty := wValue req / 256). cbv zeta.
  assert (0 <= ty) as Hty by (apply Z.div_pos; lia). unfold descriptor.
  destruct (Z.eqb_spec ty USB_DEVICE_DESC) as [-> | H1]; [| destruct (Z.eqb_spec ty USB_DEVICE_QUALIFIER) as [-> | H6]; [| destruct (Z.eqb_spec ty USB_CONFIG_DESC) as [-> | H2]]].
  - exists (drop 18 (dw_desc st)). split; [destruct (dw_speed st); done | rewrite length_app, length_drop, Hl; done].
  - exists (drop 10 (dw_desc st)). split; [done | rewrite length_app, length_drop, Hl; done].
  - exists (drop 32 (dw_desc st)). split; [destruct (dw_speed st); done | rewrite length_app, length_drop, Hl; done].
  - unfold USB_DEVICE_DESC, USB_DEVICE_QUALIFIER, USB_CONFIG_DESC in *. destruct ty as [| [[p | p |] | [[p | p |] | [p | p |] |] |] | p]; first [lia | by eexists].
Qed.

Lemma dispatch_get st req : length (dw_desc st) = 32%nat -> usb_setup_ok req -> Z.land (bRequestType req) 0xe0 = 0x80 -> bRequest req = 6 ->
  match (if wIndex req =? 0 then descriptor (dw_speed st) (wValue req / 256) else None) with
  | Some d => exists st1 len rest, dwc3_dispatch_control_request desc_addr setup_addr header_addr st req = Some st1 /\ dw_phase st1 = DWC3_EP0_DATA /\
      dw_pending st1 = Some (1, stage_trb desc_addr len DWC3_TRB_TYPE_CONTROL_DATA) /\ len = (if Z.of_nat (length d) <? wLength req then Z.of_nat (length d) else wLength req) /\
      dw_desc st1 = d ++ rest /\ length (dw_desc st1) = 32%nat /\ same_device st st1 /\ dw_cmds st1 = stage 1 desc_addr len DWC3_TRB_TYPE_CONTROL_DATA :: dw_cmds st
  | None => exists st1, dwc3_dispatch_control_request desc_addr setup_addr header_addr st req = Some st1 /\ dw_phase st1 = DWC3_EP0_SETUP
  end.
Proof.
  intros Hl (Ht & Hr & Hv & Hi & Hlen) Hty Hrq. unfold dwc3_dispatch_control_request. cbv zeta. change 0x8006 with (0x80 * 2 ^ 8 + 6). rewrite header_is, Hty, Hrq, !Z.eqb_refl by (done || lia). cbn [andb].
  destruct (wIndex req =? 0); cbn [negb]; [| by eexists]. pose proof (prepare_descriptor_ok st req Hl Hv) as Hp. destruct (descriptor _ _) as [d |].
  - destruct Hp as (rest & -> & Hd). cbn [Z.eqb]. rewrite <- Hrq, header_direction by done. do 3 eexists. split; [done |]. cbn. done.
  - destruct Hp as (st' & ->). cbn [Z.eqb]. by eexists.
Qed.

(** A request that only has effects on the device: the new address. *)
Lemma dispatch_address st req : usb_setup_ok req -> Z.land (bRequestType req) 0xe0 = 0 -> bRequest req = 5 ->
  exists st1, dwc3_dispatch_control_request desc_addr setup_addr header_addr st req = Some st1 /\
    if (wIndex req =? 0) && (wLength req =? 0) && (wValue req <=? 127) then
      dw_phase st1 = DWC3_EP0_STATUS2 /\ dw_pending st1 = Some (1, stage_trb 0 0 DWC3_TRB_TYPE_CONTROL_STATUS2) /\ dw_desc st1 = dw_desc st /\ dw_speed st1 = dw_speed st /\
      dw_dctl st1 = dw_dctl st /\ dw_epen st1 = dw_epen st /\ dw_loader st1 = dw_loader st /\ dw_cmds st1 = stage 1 0 0 DWC3_TRB_TYPE_CONTROL_STATUS2 :: dw_cmds st /\
      Z.land (Z.shiftr (dw_dcfg st1) 3) 0x7f = wValue req /\ Z.ldiff (dw_dcfg st1) DWC3_DCFG_DEVADDR_MASK = Z.ldiff (dw_dcfg st) DWC3_DCFG_DEVADDR_MASK
    else dw_phase st1 = DWC3_EP0_SETUP.
Proof.
  intros (Ht & Hr & Hv & Hi & Hlen) Hty Hrq. unfold dwc3_dispatch_control_request. cbv zeta. change 0x8006 with (0x80 * 2 ^ 8 + 6). change 0x0005 with (0 * 2 ^ 8 + 5).
  rewrite !header_is, Hty, Hrq, !Z.eqb_refl by (done || lia). change (0 =? 0x80) with false. cbn [andb].
  destruct (wIndex req =? 0), (wLength req =? 0); cbn [negb orb andb]; try (by eexists).
  rewrite Z.ltb_antisym. destruct (Z.leb_spec (wValue req) 127); cbn [negb]; [| by eexists]. eexists. split; [done |].
  destruct (address_field (dw_dcfg st) (wValue req)) as [E1 E2]; [lia |]. done.
Qed.

(** The configuration, which has to be the first one, at a speed whose packets fit
    into the header buffer. *)
Lemma dispatch_configuration st req : usb_setup_ok req -> Z.land (bRequestType req) 0xe0 = 0 -> bRequest req = 9 ->
  if (wIndex req =? 0) && (wLength req =? 0) then
    if (wValue req =? 1) && (usb_max_packet_size (dw_speed st) <=? 512) then
      exists st1, dwc3_dispatch_control_request desc_addr setup_addr header_addr st req = Some st1 /\
        dw_phase st1 = DWC3_EP0_STATUS2 /\ dw_pending st1 = Some (1, stage_trb 0 0 DWC3_TRB_TYPE_CONTROL_STATUS2) /\ dw_desc st1 = dw_desc st /\ dw_speed st1 = dw_speed st /\
        dw_epen st1 = dw_epen st /\ dw_dcfg st1 = dw_dcfg st /\ dw_loader st1 = PHASE_HEADER /\ dw_dctl st1 = Z.lor (dw_dctl st) (2 ^ 9 + 2 ^ 11) /\
        dw_cmds st1 = rev (take 3 (request_commands (usb_max_packet_size (dw_speed st)) SetConfiguration)) ++ dw_cmds st
    else dwc3_dispatch_control_request desc_addr setup_addr header_addr st req = None
  else exists st1, dwc3_dispatch_control_request desc_addr setup_addr header_addr st req = Some st1 /\ dw_phase st1 = DWC3_EP0_SETUP.
Proof.
  intros (Ht & Hr & Hv & Hi & Hlen) Hty Hrq. unfold dwc3_dispatch_control_request. cbv zeta. change 0x8006 with (0x80 * 2 ^ 8 + 6). change 0x0005 with (0 * 2 ^ 8 + 5). change 0x0009 with (0 * 2 ^ 8 + 9).
  rewrite !header_is, Hty, Hrq, !Z.eqb_refl by (done || lia). change (0 =? 0x80) with false. change (9 =? 5) with false. cbn [andb].
  destruct (wIndex req =? 0), (wLength req =? 0); cbn [negb orb andb]; try (by eexists).
  unfold set_configuration. destruct (wValue req =? 1), (usb_max_packet_size (dw_speed st) <=? 512); cbn [negb andb]; try done. eexists. split; [done |].
  do 7 (split; [done |]). split; [| change (dw_speed (set_loader PHASE_HEADER st)) with (dw_speed st); by destruct (dw_speed st)]. cbn [dw_dctl set_dctl dwc3_write_dctl dwc3_submit_trb dwc3_post_depcmd set_ep0_mem set_phase dwc3_configure_bulk_ep configure_ep set_loader].
  change (Z.lnot DWC3_DCTL_LST_CHANGE_REQ_MASK) with (-1). rewrite Z.land_m1_r, <- Z.lor_assoc. done.
Qed.

(** Everything else is refused. *)
Lemma dispatch_other st req : usb_setup_ok req -> (Z.land (bRequestType req) 0xe0 =? 0x80) && (bRequest req =? 6) = false ->
  (Z.land (bRequestType req) 0xe0 =? 0) && (bRequest req =? 5) = false -> (Z.land (bRequestType req) 0xe0 =? 0) && (bRequest req =? 9) = false ->
  exists st1, dwc3_dispatch_control_request desc_addr setup_addr header_addr st req = Some st1 /\ dw_phase st1 = DWC3_EP0_SETUP.
Proof.
  intros (Ht & Hr & Hv & Hi & Hlen) H6 H5 H9. unfold dwc3_dispatch_control_request. cbv zeta. change 0x8006 with (0x80 * 2 ^ 8 + 6). change 0x0005 with (0 * 2 ^ 8 + 5). change 0x0009 with (0 * 2 ^ 8 + 9).
  rewrite !header_is, H6, H5, H9 by (done || lia). by eexists.
Qed.

(** C28: Control transfers work, or stop the device.  When a setup packet is
    awaited, each supported request runs through its stages, answers the host with
    the descriptor, cut to the length asked for, or takes effect, and leads back to
    waiting for a setup packet.  Every other request fails an assertion, instead of
    being refused: the stall leaves the phase unchanged, and the phase has to
    change. *)
Theorem control_transfer_correct st req : ep0_idle st -> usb_setup_ok req ->
  match request_of (dw_speed st) req with
  | Unsupported => control_transfer 3 req st = None
  | q => exists st', control_transfer 3 req st = Some (request_answer q, st') /\ transfer_effect q st st'
  end.
Proof.
  intros Hidle Hreq. rewrite control_transfer_setup by done. destruct Hidle as (_ & _ & Hl). pose proof Hreq as (Ht & Hr & Hv & Hi & Hlen).
  set (st0 := set_ep0_mem _ _ st). unfold request_of.
  destruct ((Z.land (bRequestType req) 0xe0 =? 0x80) && (bRequest req =? 6)) eqn:E6; [| destruct ((Z.land (bRequestType req) 0xe0 =? 0) && (bRequest req =? 5)) eqn:E5;
    [| destruct ((Z.land (bRequestType req) 0xe0 =? 0) && (bRequest req =? 9)) eqn:E9]]; cbn [andb].
  - apply andb_true_iff in E6 as [Hty Hrq]. apply Z.eqb_eq in Hty, Hrq. pose proof (dispatch_get st0 req Hl Hreq Hty Hrq) as Hd. rewrite Hty, Hrq. change (0x80 =? 0) with false. cbn [andb].
    change (dw_speed st0) with (dw_speed st) in Hd. destruct (wIndex req =? 0); [destruct (descriptor (dw_speed st) (wValue req / 256)) as [d |] |].
    + destruct Hd as (st1 & len & rest & -> & Hph & Hpend & Hln & Hde & Hdl & (Hsp & Hdc & Hct & Hep & Hld) & Hcm). cbn [mbind option_bind]. rewrite Hph. cbn [phase_eqb].
      destruct (data_stages 0 req st1 len Hph Hpend Hdl) as (st' & -> & Hid & (F1 & F2 & F3 & F4 & F6) & F5). exists st'. rewrite Hde, Hln, sent_take by lia. split; [done |].
      unfold transfer_effect. rewrite F1, F2, F3, F4, F6, F5, Hsp, Hdc, Hct, Hep, Hld, Hcm. do 6 (split; [done |]). unfold request_commands. rewrite length_take_Z by lia. rewrite <- Hln. done.
    + destruct Hd as (st1 & -> & Hph). cbn [mbind option_bind]. by rewrite Hph.
    + destruct Hd as (st1 & -> & Hph). cbn [mbind option_bind]. by rewrite Hph.
  - apply andb_true_iff in E5 as [Hty Hrq]. apply Z.eqb_eq in Hty, Hrq. destruct (dispatch_address st0 req Hreq Hty Hrq) as (st1 & -> & Hd). cbn [mbind option_bind]. rewrite Hrq. change (5 =? 9) with false. rewrite !andb_false_r. cbn [andb].
    destruct ((wIndex req =? 0) && (wLength req =? 0) && (wValue req <=? 127)).
    + destruct Hd as (Hph & Hpend & Hde & Hsp & Hct & Hep & Hld & Hcm & Hd1 & Hd2). rewrite Hph. cbn [phase_eqb].
      destruct (status_stage 1 req st1 0 1) as (st' & -> & Hid & (F1 & F2 & F3 & F4 & F6) & F5); [by left | by left | lia | by rewrite Hde |]. exists st'. split; [done |].
      unfold transfer_effect. rewrite F1, F2, F3, F4, F6, F5, Hsp, Hct, Hep, Hld, Hcm. done.
    + by rewrite Hd.
  - apply andb_true_iff in E9 as [Hty Hrq]. apply Z.eqb_eq in Hty, Hrq. pose proof (dispatch_configuration st0 req Hreq Hty Hrq) as Hd. change (dw_speed st0) with (dw_speed st) in Hd.
    destruct ((wIndex req =? 0) && (wLength req =? 0)); cbn [andb] in *; [destruct ((wValue req =? 1) && (usb_max_packet_size (dw_speed st) <=? 512)) |].
    + destruct Hd as (st1 & -> & Hph & Hpend & Hde & Hsp & Hep & Hdc & Hld & Hct & Hcm). cbn [mbind option_bind]. rewrite Hph. cbn [phase_eqb].
      destruct (status_stage 1 req st1 0 1) as (st' & -> & Hid & (F1 & F2 & F3 & F4 & F6) & F5); [by left | by left | lia | by rewrite Hde |]. exists st'. split; [done |].
      unfold transfer_effect. rewrite F1, F2, F3, F4, F6, F5, Hsp, Hct, Hep, Hdc, Hld, Hcm. done.
    + by rewrite Hd.
    + destruct Hd as (st1 & -> & Hph). cbn [mbind option_bind]. by rewrite Hph.
  - destruct (dispatch_other st0 req Hreq E6 E5 E9) as (st1 & -> & Hph). cbn [mbind option_bind]. by rewrite Hph.
Qed.
End Transfers.

(** ** The event ring *)
Fixpoint process_events (desc_addr setup_addr header_addr num_ep device_status : Z) (ep_event : Z -> dwc3_state -> option dwc3_state) (events : list Z) (st : dwc3_state) : option dwc3_state :=
  match events with
  | [] => Some st
  | event :: events => st ← process_event desc_addr setup_addr header_addr num_ep device_status ep_event event st; process_events desc_addr setup_addr header_addr num_ep device_status ep_event events st
  end.

Lemma dwc3_events_ring da sa ha ne ds epe evtbuf count : forall pos st, 0 <= pos < Z.of_nat (length evtbuf) -> (count <= length evtbuf)%nat ->
  dwc3_events da sa ha ne ds epe evtbuf count pos st =
  (st' ← process_events da sa ha ne ds epe (take count (drop (Z.to_nat pos) evtbuf ++ evtbuf)) st; Some ((pos + Z.of_nat count) mod Z.of_nat (length evtbuf), st')).
Proof.
  induction count as [| count IH]; intros pos st Hpos Hc.
  - cbn. rewrite Z.add_0_r, Z.mod_small by done. done.
  - cbn [dwc3_events]. destruct (lookup_lt_is_Some_2 evtbuf (Z.to_nat pos)) as [e He]; [lia |]. rewrite He. rewrite (drop_S _ _ _ He). cbn [app take process_events mbind option_bind].
    destruct (process_event da sa ha ne ds epe e st) as [st1 |]; [| done]. cbn [mbind option_bind].
    rewrite IH by (try (apply Z.mod_pos_bound); lia). rewrite Zplus_mod_idemp_l. replace (pos + 1 + Z.of_nat count) with (pos + Z.of_nat (S count)) by lia.
    assert (take count (drop (Z.to_nat ((pos + 1) mod Z.of_nat (length evtbuf))) evtbuf ++ evtbuf) = take count (drop (S (Z.to_nat pos)) evtbuf ++ evtbuf)) as ->; [| done].
    destruct (Z.eq_dec (pos + 1) (Z.of_nat (length evtbuf))) as [Heq | Hne].
    + rewrite Heq, Z.mod_same by lia. cbn [Z.to_nat]. rewrite drop_0, (drop_ge evtbuf) by lia. cbn [app]. rewrite take_app_le by lia. done.
    + rewrite Z.mod_small by lia. do 3 f_equal. lia.
Qed.

(** Events are handled in the order of the ring, each once. *)
Lemma dwc3_irq_correct da sa ha ne ds epe evtbuf count pos st : 0 <= pos < Z.of_nat (length evtbuf) -> (count <= length evtbuf)%nat ->
  dwc3_irq da sa ha ne ds epe evtbuf (4 * Z.of_nat count) pos st =
  (st' ← process_events da sa ha ne ds epe (take count (drop (Z.to_nat pos) evtbuf ++ evtbuf)) st; Some ((pos + Z.of_nat count) mod Z.of_nat (length evtbuf), st')).
Proof.
  intros Hpos Hc. unfold dwc3_irq. rewrite (Z.mul_comm 4), (Z.mod_mul _ 4), (Z.div_mul _ 4), Nat2Z.id by done. cbn [negb Z.eqb]. by apply dwc3_events_ring.
Qed.

(** ** Start and reset *)
Lemma post_all_spec cmd eps : forall st, post_all cmd eps st =
  mkDwc (dw_phase st) (dw_speed st) (dw_dcfg st) (dw_ep0_buf st) (dw_buf_addr st) (dw_buf_size st) (dw_desc st) (dw_mem st) (dw_pending st) (dw_dctl st) (dw_epen st)
    (rev (map (fun ep => (ep, cmd)) eps) ++ dw_cmds st) (dw_loader st).
Proof.
  induction eps as [| ep eps IH]; intros st; cbn [post_all map rev]; [by destruct st |]. rewrite IH. cbn. by rewrite <- app_assoc.
Qed.

(** The control endpoints are configured for their packet size, and every endpoint
    gets a transfer resource. *)
Lemma dwc3_new_configuration_correct packet num_ep st : 0 <= packet < 2 ^ 11 ->
  dw_cmds (dwc3_new_configuration packet num_ep st) =
  rev ([(0, DEPCMD_START_NEW_CONFIG); (0, DEPCMD_SET_EP_CONFIG (packet * 8) (2 ^ 8)); (1, DEPCMD_SET_EP_CONFIG (packet * 8) (2 ^ 25 + 2 ^ 8))] ++
    map (fun ep => (ep, DEPCMD_SET_XFER_RSC_CONFIG 1)) (seqZ 0 num_ep)) ++ dw_cmds st /\
  dw_epen (dwc3_new_configuration packet num_ep st) = 3.
Proof.
  intros Hp. split; [| unfold dwc3_new_configuration; by rewrite post_all_spec]. unfold dwc3_new_configuration. rewrite post_all_spec. rewrite rev_app_distr, <- app_assoc. cbn [dw_cmds set_epen]. f_equal.
  unfold configure_control_ep, configure_ep. cbn [dw_cmds dwc3_post_depcmd]. unfold DWC3_DEPCFG0_INIT. rewrite !Z.lor_0_l, u32_small by (rewrite Z.shiftl_mul_pow2 by lia; lia).
  rewrite Z.shiftl_mul_pow2 by lia. change (Z.shiftl USB_CONTROL 1) with 0. change (Z.land (u32 (Z.shiftl 1 16)) 0x3e0000) with 0. rewrite !Z.lor_0_r. done.
Qed.

(** A reset clears the address and waits for a setup packet, but does not submit
    the request that receives it. *)
Lemma reset_keeps_pending da sa ha ne ds epe st : exists st', process_event da sa ha ne ds epe 0x101 st = Some st' /\
  dw_phase st' = DWC3_EP0_SETUP /\ dw_pending st' = dw_pending st /\ dw_dcfg st' = Z.ldiff (dw_dcfg st) DWC3_DCFG_DEVADDR_MASK /\
  dw_cmds st' = rev (map (fun ep => (ep, DEPCMD_CLEAR_STALL)) (seqZ 1 (ne - 1))) ++ dw_cmds st.
Proof.
  eexists. split; [reflexivity |]. rewrite post_all_spec. cbn [dw_phase dw_pending dw_dcfg dw_cmds set_phase set_dcfg]. rewrite Z.ldiff_land. done.
Qed.

(** The host asks for the first eight bytes of the device descriptor, as it does
    first. *)
Definition idle_full_speed : dwc3_state :=
  let t := stage_trb 0x100 8 DWC3_TRB_TYPE_CONTROL_SETUP in
  mkDwc DWC3_EP0_SETUP USB_FULL_SPEED 0 0 0 0 (replicate 32 0) (InTrb t) (Some (0, t)) 0 3 [] 2.
Definition get_device_descriptor : usb_setup := {| bRequestType := 0x80; bRequest := 6; wValue := 0x100; wIndex := 0; wLength := 8 |}.

Lemma control_transfer_correct_witness : ep0_idle 0x100 idle_full_speed /\ usb_setup_ok get_device_descriptor /\
  exists st', control_transfer 0x200 0x100 0x300 6 0 (fun _ st => Some st) 3 get_device_descriptor idle_full_speed = Some ([0x12; 1; 0; 2; 0; 0; 0; 64], st').
Proof.
  assert (ep0_idle 0x100 idle_full_speed) as Hi by done. assert (usb_setup_ok get_device_descriptor) as Hr by (unfold usb_setup_ok, is_byte; cbn; lia).
  split; [done |]. split; [done |]. destruct (control_transfer_correct 0x200 0x100 0x300 6 0 (fun _ st => Some st) _ _ Hi Hr) as (st' & H & _). by exists st'.
Defined.
