(* ===== verification/HostCtl.v ===== *)
(** * Reading through a host controller

    What the block devices of [Blockdev] promise to their readers: the bytes of the
    card.  The host controller is an interface, [XferController]: a request that was
    accepted ends with an error or with the data of the card in memory, and while it
    is in flight its buffer may hold anything.  The drivers of the controllers
    ([Sdhci], [Dwmmc]) discharge it. *)
From S2P Require Export Blockdev.

Open Scope Z_scope.

(** ** Ranges as segments *)

(** A range in pieces of at most [unit_] bytes. *)
Fixpoint split_range (unit_ : Z) (n : nat) (s e : Z) : list (Z * Z) :=
  match n with
  | O => []
  | S n => if s <? e then let len := Z.min unit_ (e - s) in (s, len) :: split_range unit_ n (s + len) e else []
  end.
Definition segments_size (segs : list (Z * Z)) : Z := fold_right (fun seg n => seg.2 + n) 0 segs.

(** The bytes of the card from [pos] on are written to the segments. *)
Fixpoint write_segments (card : Z -> Z) (pos : Z) (segs : list (Z * Z)) (mem : Z -> Z) : Z -> Z :=
  match segs with
  | [] => mem
  | (s, len) :: segs => write_segments card (pos + len) segs (fun a => if (s <=? a) && (a <? s + len) then card (pos + (a - s)) else mem a)
  end.

(** The segments are adjacent and cover the range. *)
Lemma split_range_size unit_ n : forall s e, 0 < unit_ -> s <= e -> e - s <= Z.of_nat n * unit_ -> segments_size (split_range unit_ n s e) = e - s.
Proof.
  induction n as [| n IH]; intros s e Hu He Hn; cbn; [lia |]. destruct (Z.ltb_spec s e); [| cbn; lia]. cbn. change (fold_right _ 0 ?l) with (segments_size l). rewrite IH; lia.
Qed.
Lemma split_range_len unit_ n : 0 < unit_ -> forall s e, Forall (fun seg : Z * Z => 0 < seg.2 <= unit_) (split_range unit_ n s e).
Proof.
  intros Hu. induction n as [| n IH]; intros s e; cbn; [constructor |]. destruct (Z.ltb_spec s e); [| constructor]. constructor; [cbn; lia | apply IH].
Qed.
Lemma split_range_length unit_ n : forall s e, (length (split_range unit_ n s e) <= n)%nat.
Proof.
  induction n as [| n IH]; intros s e; cbn; [lia |]. destruct (Z.ltb_spec s e); cbn; [| lia]. specialize (IH (s + Z.min unit_ (e - s)) e). lia.
Qed.
Lemma write_split card unit_ n : forall pos s e mem a, 0 < unit_ -> s <= e -> e - s <= Z.of_nat n * unit_ ->
  write_segments card pos (split_range unit_ n s e) mem a = if (s <=? a) && (a <? e) then card (pos + (a - s)) else mem a.
Proof.
  induction n as [| n IH]; intros pos s e mem a Hu He Hn; cbn [split_range write_segments].
  - destruct (Z.leb_spec s a), (Z.ltb_spec a e); try lia; done.
  - destruct (Z.ltb_spec s e) as [Hlt | Hge]; cbv zeta; cbn [write_segments].
    + set (len := Z.min unit_ (e - s)). rewrite IH by lia.
      destruct (Z.leb_spec (s + len) a), (Z.ltb_spec a e), (Z.leb_spec s a), (Z.ltb_spec a (s + len)); cbn [andb]; try lia; try done. f_equal. lia.
    + destruct (Z.leb_spec s a), (Z.ltb_spec a e); try lia; done.
Qed.

(** ** The interface *)

(** A request that the drivers make: [s] to [e] below the registers, on a word
    boundary, and of a whole number of 512-byte blocks. *)
Record request_fits (request_size lba s e : Z) : Prop := {
  rf_range : 0 <= s < e /\ e < 0xffe00000 /\ e - s <= request_size;
  rf_aligned : s mod 4 = 0 /\ (e - s) mod 512 = 0;
  rf_lba : 0 <= lba < 2 ^ 32;
}.

(** Memory after the bytes of [card] from block [lba] on were read to [s] to [e]. *)
Definition read_into (card mem : Z -> Z) (lba s e : Z) (a : Z) : Z :=
  if (s <=? a) && (a <? e) then card (lba * 512 + (a - s)) else mem a.

(** Reading again replaces what was read before. *)
Lemma read_into_twice card mem mem' lba s e : (forall a, ~ (s <= a < e) -> mem' a = mem a) -> forall a, read_into card mem' lba s e a = read_into card mem lba s e a.
Proof. intros H a. unfold read_into. destruct (Z.leb_spec s a), (Z.ltb_spec a e); cbn [andb]; (done || apply H; lia). Qed.
Lemma read_into_outside card mem lba s e a : ~ (s <= a < e) -> read_into card mem lba s e a = mem a.
Proof. intros H. unfold read_into. destruct (Z.leb_spec s a), (Z.ltb_spec a e); cbn [andb]; (done || lia). Qed.

(** Between requests the controller is idle; [cx_busy x lba s e] is a request in
    flight, whose buffer may hold anything.  [begin], [add] and [go] make a request;
    the answer of [go] may be an error, and so may that of [wait], if the hardware
    reports a fault ([cx_fault]).  [cx_alive]: no assertion failed, and the thread
    does not wait forever.  [cx_stops]: there are conditions under which a request
    ends in a failed assertion. *)
Class XferController {C : Type} (ctl : controller C) (request_size : Z) (card : Z -> Z) : Type := {
  cx_mem : C -> Z -> Z;
  cx_alive : C -> Prop;
  cx_idle : C -> Prop;
  cx_busy : C -> Z -> Z -> Z -> Prop;
  cx_fault : Prop;
  cx_stops : Prop;
  cx_wait_idle x : cx_idle x -> ctl_wait ctl x = (IOST_OK, x);
  cx_request x lba s e : cx_idle x -> request_fits request_size lba s e ->
    (cx_stops /\ exists x1 x2, ctl_begin ctl lba x = (IOST_OK, x1) /\ ctl_add ctl s e x1 = (false, x2)) \/
    exists x1 x2 r x3, ctl_begin ctl lba x = (IOST_OK, x1) /\ ctl_add ctl s e x1 = (true, x2) /\ ctl_go ctl lba x2 = (r, x3) /\ 0 <= r /\
      (r <> IOST_OK -> cx_fault /\ cx_alive x3) /\ (r = IOST_OK -> cx_busy x3 lba s e /\ forall a, ~ (s <= a < e) -> cx_mem x3 a = cx_mem x a);
  cx_wait_busy x lba s e : cx_busy x lba s e ->
    exists r x', ctl_wait ctl x = (r, x') /\ 0 <= r /\ (r <> IOST_OK -> cx_fault /\ cx_alive x') /\
      (r = IOST_OK -> cx_idle x' /\ forall a, cx_mem x' a = read_into card (cx_mem x) lba s e a);
}.

(** ** The drivers *)
Section Delivery.
Context {C : Type} (ctl : controller C) (request_size : Z) (card : Z -> Z) `{!XferController ctl request_size card} (iost_u8 : Z).
Context (buf lba0 stop : Z) (mem0 : Z -> Z).

(** The range that is read. *)
Record range_fits : Prop := {
  rg_request : 0 < request_size /\ request_size mod 512 = 0;
  rg_buffer : 0 <= buf <= stop /\ stop < 0xffe00000 /\ buf mod 4 = 0 /\ (stop - buf) mod 512 = 0;
  rg_blocks : 0 <= lba0 /\ lba0 * 512 + (stop - buf) <= 2 ^ 32 * 512;
}.
Context (Hrange : range_fits).

(** What was delivered so far, and the request that is on its way. *)
Record delivered (d : blockdev C) : Prop := {
  dl_ptrs : buf <= consume_ptr d <= end_ptr d /\ end_ptr d <= next_end_ptr d <= stop /\ stop_ptr d = stop /\ block_size d = 512;
  dl_aligned : (end_ptr d - buf) mod 512 = 0 /\ (next_end_ptr d - buf) mod 512 = 0;
  dl_next : next_end_ptr d < stop -> next_lba d * 512 = lba0 * 512 + (next_end_ptr d - buf);
  dl_data a : a < end_ptr d \/ next_end_ptr d <= a -> cx_mem (xfer d) a = read_into card mem0 lba0 buf (end_ptr d) a;
  dl_flight : if end_ptr d =? next_end_ptr d then cx_idle (xfer d)
    else exists lba, lba * 512 = lba0 * 512 + (end_ptr d - buf) /\ cx_busy (xfer d) lba (end_ptr d) (next_end_ptr d);
}.

(** Adjacent reads are one read. *)
Lemma read_into_app m1 m2 lba s e : buf <= s <= e -> lba * 512 = lba0 * 512 + (s - buf) -> (forall a, a < s \/ e <= a -> m2 a = read_into card m1 lba0 buf s a) ->
  forall a, read_into card m2 lba s e a = read_into card m1 lba0 buf e a.
Proof.
  intros Hb Hl H2 a. specialize (H2 a). unfold read_into in *. destruct (Z.leb_spec s a), (Z.ltb_spec a e); cbn [andb]; [| rewrite H2 by lia.. | lia]; destruct (Z.leb_spec s a), (Z.ltb_spec a e), (Z.leb_spec buf a), (Z.ltb_spec a s); cbn [andb]; try done; try lia. f_equal. lia.
Qed.

(** A transfer that was waited for. *)
Lemma wait_delivers d : delivered d -> end_ptr d <> next_end_ptr d ->
  exists r d', wait_xfer ctl d = (r, d') /\ 0 <= r /\ (r <> IOST_OK -> cx_fault /\ cx_alive (xfer d')) /\
    (r = IOST_OK -> delivered d' /\ end_ptr d' = next_end_ptr d /\ next_end_ptr d' = next_end_ptr d /\ consume_ptr d' = consume_ptr d).
Proof.
  intros [H1 H2 H3 H4 H5] Hne. rewrite (proj2 (Z.eqb_neq _ _) Hne) in H5. destruct H5 as (lba & Hl & Hb).
  unfold wait_xfer. destruct (cx_wait_busy _ lba (end_ptr d) (next_end_ptr d) Hb) as (r & x' & -> & Hr & Hal & Hok). destruct (Z.eqb_spec r IOST_OK) as [-> | Hr0]; cbn [negb]; eexists _, _; (split; [done |]); (split; [done |]); [split; [done |] | by split; auto].
  intros _. destruct (Hok eq_refl) as [Hi Hm]. cbn. split_and!; try done. constructor; cbn; try done; [lia | by destruct H2 | |].
  - intros a _. rewrite Hm. apply (read_into_app mem0 (cx_mem (xfer d)) lba (end_ptr d)); [lia | done | done].
  - by rewrite Z.eqb_refl.
Qed.

(** A request that was made. *)
Lemma start_next_delivers d : delivered d -> end_ptr d = next_end_ptr d -> end_ptr d < stop ->
  (start_next ctl request_size d = Trap TrapAssert /\ cx_stops) \/
  exists r d', start_next ctl request_size d = Ok (r, d') /\ 0 <= r /\ (r <> IOST_OK -> cx_fault /\ cx_alive (xfer d')) /\
    (r = IOST_OK -> delivered d' /\ end_ptr d' = end_ptr d /\ end_ptr d < next_end_ptr d' /\ consume_ptr d' = consume_ptr d).
Proof.
  intros Hd Hne Hlt. pose proof Hd as [H1 H2 H3 H4 H5]. destruct Hrange as [G1 G2 G3]. rewrite Hne, Z.eqb_refl in H5. specialize (H3 ltac:(lia)).
  unfold start_next. set (e := if request_size <? stop_ptr d - end_ptr d then _ else _).
  assert (e = Z.min (end_ptr d + request_size) stop) as He by (subst e; destruct (Z.ltb_spec request_size (stop_ptr d - end_ptr d)); lia). clearbody e.
  assert ((e - buf) mod 512 = 0 /\ (e - end_ptr d) mod 512 = 0) as [Ea Eb] by (destruct (Z.le_gt_cases (end_ptr d + request_size) stop); split; subst e; dlia).
  assert (0 <= next_lba d < 2 ^ 32) as Hlba by dlia.
  destruct (cx_request (xfer d) (next_lba d) (end_ptr d) e) as [(Hst & x1 & x2 & E1 & E2) | (x1 & x2 & r & x3 & E1 & E2 & E3 & Hr & Hal & Hok)]; [done | constructor; dlia | |];
    rewrite E1; rewrite Z.eqb_refl; cbn [negb end_ptr set_ptrs]; rewrite E2; [by left | right].
  cbn [c_assert mbind res_bind next_lba set_ptrs]. rewrite E3.
  destruct (Z.eqb_spec r IOST_OK) as [-> | Hr0]; cbn [negb]; eexists _, _; (split; [done |]); (split; [done |]); [split; [done |] | by split; auto].
  intros _. destruct (Hok eq_refl) as [Hb Hm]. cbn. split_and!; try done; [| lia]. constructor; cbn; try done; [lia | by destruct H2 | | |].
  - intros Hs. assert (e = end_ptr d + request_size) as -> by lia. replace (block_size d) with 512 by lia. rewrite u32_small by dlia. dlia.
  - intros a Ha. rewrite Hm by lia. apply H4. lia.
  - destruct (Z.eqb_spec (end_ptr d) e); [lia |]. exists (next_lba d). split; [lia | done].
Qed.

(** How a pump ends: in a failed assertion, with an error, or with what was asked
    for. *)
Definition pump_ends (min_size from low : Z) (p : res (blockdev C * async_buf)) : Prop :=
  (p = Trap TrapAssert /\ cx_stops) \/
  exists d b, p = Ok (d, b) /\
    (pump_failed b = true /\ cx_fault /\ cx_alive (xfer d) \/
     delivered d /\ consume_ptr d = from /\ b = io_buf d /\ low <= end_ptr d /\ (min_size <= end_ptr d - consume_ptr d \/ end_ptr d = stop)).

Lemma pump_ends_error min_size from low (d : blockdev C) r : 0 <= r -> r <> IOST_OK -> cx_fault -> cx_alive (xfer d) -> pump_ends min_size from low (Ok (d, io_error iost_u8 r)).
Proof. intros Hr Hne Hf Hal. right. eexists _, _. split; [done |]. left. split_and!; try done. unfold pump_failed, io_error. cbn. apply Z.ltb_lt. unfold IOST_OK in Hne. lia. Qed.
Lemma pump_ends_low min_size from low low' p : low' <= low -> pump_ends min_size from low p -> pump_ends min_size from low' p.
Proof. intros Hl [H | (d & b & Hp & Hb)]; [by left | right]. eexists _, _. split; [done |]. destruct Hb as [Hb | (B1 & B2 & B3 & B4 & B5)]; [by left | right]. split_and!; try done. lia. Qed.

Lemma pump_loop_delivers fuel min_size d : delivered d -> stop - next_end_ptr d < Z.of_nat fuel ->
  pump_ends min_size (consume_ptr d) (end_ptr d) (pump_loop ctl request_size iost_u8 fuel min_size d).
Proof.
  induction fuel as [| fuel IH] in d |- *; intros Hd Hf; pose proof Hd as [H1 H2 H3 H4 H5]; pose proof (rg_buffer Hrange); [lia |]. cbn [pump_loop].
  rewrite u64_small by lia. destruct (Z.ltb_spec (end_ptr d - consume_ptr d) min_size) as [Hlt | Hge]; cbn [negb].
  2: { right. eexists _, _. split; [done |]. right. split_and!; try done. by left. }
  assert (exists r d1, (if negb (end_ptr d =? next_end_ptr d) then wait_xfer ctl d else (IOST_OK, d)) = (r, d1) /\ 0 <= r /\ (r <> IOST_OK -> cx_fault /\ cx_alive (xfer d1)) /\
    (r = IOST_OK -> delivered d1 /\ end_ptr d1 = next_end_ptr d /\ next_end_ptr d1 = next_end_ptr d /\ consume_ptr d1 = consume_ptr d)) as (r & d1 & -> & Hr & Hal & Hok).
  { destruct (Z.eqb_spec (end_ptr d) (next_end_ptr d)) as [E | E]; cbn [negb].
    - eexists _, _. split; [done |]. split_and!; try done.
    - destruct (wait_delivers d Hd E) as (r & d1 & -> & Hr & Hal & Hok). by exists r, d1. }
  destruct (Z.eqb_spec r IOST_OK) as [-> | Hne]; cbn [negb]; [| by apply pump_ends_error; [| | apply Hal | apply Hal]]. destruct (Hok eq_refl) as (Hd1 & He1 & Hn1 & Hc1). pose proof (dl_ptrs _ Hd1) as P1.
  destruct (Z.eqb_spec (stop_ptr d1) (end_ptr d1)) as [Hst | Hst].
  { right. eexists _, _. split; [done |]. right. split_and!; try done; [lia | right; lia]. }
  destruct (start_next_delivers d1) as [[-> Hstop] | (r2 & d2 & -> & Hr2 & Hal2 & Hok2)]; [done | lia | lia | by left |]. cbn [mbind res_bind].
  destruct (Z.eqb_spec r2 IOST_OK) as [-> | Hne]; cbn [negb]; [| by apply pump_ends_error; [| | apply Hal2 | apply Hal2]]. destruct (Hok2 eq_refl) as (Hd2 & He2 & Hn2 & Hc2).
  rewrite <- Hc1, <- Hc2. apply (pump_ends_low _ _ (end_ptr d2)); [lia |]. apply IH; [done | lia].
Qed.

Lemma pump_delivers_step d consume min_size : delivered d -> 0 <= consume <= end_ptr d - consume_ptr d ->
  pump_ends min_size (consume_ptr d + consume) (end_ptr d) (pump ctl request_size iost_u8 d consume min_size).
Proof.
  intros Hd Hc. pose proof Hd as [H1 H2 H3 H4 H5]. pose proof (rg_buffer Hrange). unfold pump. rewrite u64_small by lia. assert_ok.
  set (d1 := set_ptrs _ _ _ _ _ _ d). assert (delivered d1) as Hd1 by (constructor; cbn; try done; lia).
  apply (pump_loop_delivers _ min_size d1 Hd1). change (stop_ptr d1) with (stop_ptr d). change (next_end_ptr d1) with (next_end_ptr d). lia.
Qed.

(** The runs of a driver: started on an idle controller, and pumped as long as no
    error is reported. *)
Inductive reading : blockdev C -> Prop :=
| read_start d d' : cx_idle (xfer d) -> (forall a, cx_mem (xfer d) a = mem0 a) -> block_size d = 512 -> num_blocks d <= 2 ^ 32 ->
    next_end_ptr d = end_ptr d -> start ctl d lba0 buf stop = (IOST_OK, d') -> reading d'
| read_pump d consume min_size d' b : reading d -> 0 <= consume <= end_ptr d - consume_ptr d ->
    pump ctl request_size iost_u8 d consume min_size = Ok (d', b) -> pump_failed b = false -> reading d'.

Lemma reading_delivered d : reading d -> delivered d.
Proof.
  induction 1 as [d d' Hi Hm Hb Hn He Hs | d consume min_size d' b _ IH Hc Hp Hf].
  - destruct Hrange as [G1 G2 G3]. unfold start in Hs. destruct (_ || _ || _) eqn:Hg; [done |]. apply orb_false_iff in Hg as [_ Hg]. apply Z.leb_gt in Hg.
    unfold wait_xfer in Hs. rewrite cx_wait_idle in Hs by done. cbn in Hs. injection Hs as <-.
    constructor; cbn; try done; [lia | by rewrite Z.sub_diag | | |].
    + intros _. rewrite u32_small by lia. lia.
    + intros a _. rewrite Hm. unfold read_into. by destruct (Z.leb_spec buf a), (Z.ltb_spec a buf); try lia.
    + by rewrite Z.eqb_refl.
  - destruct (pump_delivers_step d consume min_size IH Hc) as [[Hp1 _] | (d1 & b1 & Hp1 & Hb)]; rewrite Hp1 in Hp; [done |]. injection Hp as <- <-.
    destruct Hb as [[Hb _] | (Hd & _)]; [congruence | done].
Qed.

(** A pump of a driver that reads.  It reports an error only if the hardware reports
    a fault; otherwise what it delivers are the bytes of the card, with the memory
    outside of what was requested as it was. *)
Lemma pump_reads_card d consume min_size : reading d -> 0 <= consume <= end_ptr d - consume_ptr d ->
  (pump ctl request_size iost_u8 d consume min_size = Trap TrapAssert /\ cx_stops) \/
  exists d' b, pump ctl request_size iost_u8 d consume min_size = Ok (d', b) /\
    (pump_failed b = true /\ cx_fault /\ cx_alive (xfer d') \/
     b_start b = consume_ptr d + consume /\ b_end b = end_ptr d' /\ end_ptr d <= b_end b <= next_end_ptr d' /\ next_end_ptr d' <= stop /\ (min_size <= b_end b - b_start b \/ b_end b = stop) /\
     (forall a, buf <= a < b_end b -> cx_mem (xfer d') a = card (lba0 * 512 + (a - buf))) /\
     (forall a, a < buf \/ next_end_ptr d' <= a -> cx_mem (xfer d') a = mem0 a)).
Proof.
  intros Hr Hc. destruct (pump_delivers_step d consume min_size (reading_delivered d Hr) Hc) as [Hp | (d' & b & Hp & Hb)]; [by left | right]. exists d', b. split; [done |].
  destruct Hb as [Hb | (Hd & Hcp & -> & He & Hm)]; [by left | right]. destruct Hd as [D1 D2 D3 D4 D5]. cbn. split_and!; try done; try lia.
  - intros a Ha. rewrite D4 by lia. unfold read_into. destruct (Z.leb_spec buf a), (Z.ltb_spec a (end_ptr d')); cbn [andb]; (done || lia).
  - intros a Ha. rewrite D4 by lia. unfold read_into. destruct (Z.leb_spec buf a), (Z.ltb_spec a (end_ptr d')); cbn [andb]; (done || lia).
Qed.
End Delivery.
