(* ===== verification/Sdhci.v ===== *)
(** * The eMMC host controller
      ([src/lib/sdhci.c], [src/lib/sdhci_common.c])

    Transfers of the SDHCI driver: the descriptors of a request, its commands, the
    interrupt handler and the waiting thread.  The controller is a part of the
    machine: it walks the descriptors (ADMA2) and moves the blocks of the card into
    memory.  While a request is in flight its buffers may hold anything; when the
    controller is done they hold the blocks.  What the driver reads from the status
    register each time it looks, with the time since the wait began, and the
    interrupts of each request are chosen by the environment.  [None] is a failed
    assertion, or a thread that sleeps without an end.  The driver implements the
    interface [XferController]. *)
From S2P Require Import Nvme.
From S2P Require Import HostCtl.

Open Scope Z_scope.

(** ** Data *)
Definition NUM_IOST : Z := 5.
Definition SDHCI_CREATING : Z := NUM_IOST.
Definition SDHCI_SUBMITTED : Z := NUM_IOST + 1.
Definition SDHCI_DESC_TRAN : Z := 32.
Definition SDHCI_DESC_END : Z := 2.
Definition SDHCI_DESC_VALID : Z := 1.
Definition SDHCI_PRESTS_DAT_INHIBIT : Z := 2.
Definition SDHCI_PRESTS_CMD_INHIBIT : Z := 1.
Definition SDHCI_INT_XFER_COMPLETE : Z := Z.shiftl 1 1.
Definition SDHCI_TRANSMOD_READ : Z := 16.
Definition SDHCI_TRANSMOD_BLOCK_COUNT : Z := 2.
Definition SDHCI_TRANSMOD_MULTIBLOCK : Z := 32.
Definition SDHCI_TRANSMOD_AUTO_CMD23 : Z := Z.shiftl 2 2.
Definition SDHCI_TRANSMOD_DMA : Z := 1.
Definition SDHCI_CMD_DATA : Z := 32.
Definition SDHCI_R1 : Z := Z.lor (Z.lor 2 8) 16.
Definition SDHCI_CMD (i : Z) : Z := Z.shiftl (u16 i) 8.

Record sdhci_adma2_desc8 : Type := mkDesc8 {
  desc_cmd : Z;
  desc_data : Z;
}.

(** [desc_cap] is the length of [xf_desc8]. *)
Record sdhci_xfer : Type := mkXfer {
  xf_status : Z;
  xf_desc8 : list sdhci_adma2_desc8;
  xf_desc_size : Z;
  xf_bytes : Z;
}.

(** The registers that a request writes. *)
Record sdhci_regs : Type := mkRegs {
  sr_arg2 : Z;
  sr_block_count : Z;
  sr_arg : Z;
  sr_transfer_mode : Z;
  sr_cmd : Z;
  sr_adma0 : Z;
  sr_adma1 : Z;
}.

(** The driver with its transfer, the registers and memory; [sm_active] says that
    the transfer is the active one, and [sm_requests] counts the requests. *)
Record sd_machine : Type := mkSd {
  sm_xfer : sdhci_xfer;
  sm_active : bool;
  sm_int_st : Z;
  sm_regs : sdhci_regs;
  sm_mem : Z -> Z;
  sm_requests : nat;
}.
Definition set_xfer (x : sdhci_xfer) (m : sd_machine) : sd_machine := mkSd x (sm_active m) (sm_int_st m) (sm_regs m) (sm_mem m) (sm_requests m).
Definition set_xf_status (s : Z) (x : sdhci_xfer) : sdhci_xfer := mkXfer s (xf_desc8 x) (xf_desc_size x) (xf_bytes x).

(** ** Building a request *)
Definition sdhci_reset_xfer (x : sdhci_xfer) : option sdhci_xfer :=
  if negb (xf_status x <? NUM_IOST) then None
  else Some (mkXfer SDHCI_CREATING (xf_desc8 x) 0 0).

(** The loop writes a descriptor for each 64 KiB; the result says whether there
    were enough of them. *)
Fixpoint add_segments (fuel : nat) (buf buf_end size : Z) (descs : list sdhci_adma2_desc8) (bytes : Z) : option (bool * list sdhci_adma2_desc8 * Z * Z) :=
  if negb (buf <? buf_end) then Some (true, descs, size, bytes)
  else match fuel with
  | O => None
  | S fuel =>
      if Z.of_nat (length descs) <=? size then Some (false, descs, size, bytes)
      else
        let addr := u32 buf in
        let '(seg_size, buf, bytes) :=
          if Z.shiftl 1 16 <=? buf_end - buf then (0, buf + Z.shiftl 1 16, bytes + Z.shiftl 1 16)
          else let seg_size := u16 (buf_end - buf) in (seg_size, buf_end, bytes + seg_size) in
        let cmd := Z.lor (Z.shiftl seg_size 16) SDHCI_DESC_TRAN in
        let cmd := if negb (size =? 0) then Z.lor cmd SDHCI_DESC_VALID else cmd in
        add_segments fuel buf buf_end (size + 1) (<[Z.to_nat size := mkDesc8 cmd addr]> descs) bytes
  end.

(** At most one descriptor per 64 KiB, and one for the rest. *)
Definition sdhci_add_phys_buffer (buf buf_end : Z) (x : sdhci_xfer) : option (bool * sdhci_xfer) :=
  if negb (xf_status x =? SDHCI_CREATING) then None
  else if negb (buf <=? buf_end) then None
  else if negb (buf_end <=? 0xffffffff) then None
  else if negb (Z.land buf 3 =? 0) || negb (Z.land buf_end 3 =? 0) then Some (false, x)
  else
    '(ok, descs, size, bytes) ← add_segments (S (Z.to_nat ((buf_end - buf) / 2 ^ 16))) buf buf_end (xf_desc_size x) (xf_desc8 x) (xf_bytes x);
    Some (ok, mkXfer (xf_status x) descs (if ok : bool then size else xf_desc_size x) bytes).

(** ** Interrupts *)
Definition sdhci_irq (int_st : Z) (m : sd_machine) : sd_machine :=
  let int_st_old := sm_int_st m in
  let m := mkSd (sm_xfer m) (sm_active m) (Z.lor int_st_old int_st) (sm_regs m) (sm_mem m) (sm_requests m) in
  if negb (Z.land int_st SDHCI_INT_XFER_COMPLETE =? 0) || negb (Z.shiftr int_st 16 =? 0) then
    if sm_active m then
      let status := if negb (Z.shiftr (Z.lor int_st int_st_old) 16 =? 0) then IOST_GLOBAL else IOST_OK in
      mkSd (set_xf_status status (sm_xfer m)) false (sm_int_st m) (sm_regs m) (sm_mem m) (sm_requests m)
    else m
  else m.

(** ** Commands *)

(** The rounds of the loop: [polls] are, for each of them, the interrupts since the
    last one (0 for none), the value of the present state register and the time since
    the beginning of the wait.  Between two rounds the thread sleeps until it is woken
    up by an interrupt, or sees the register change when it goes to sleep; at the end
    of the list it sleeps forever. *)
Fixpoint sdhci_wait_state (mask expected timeout : Z) (polls : list (Z * Z * Z)) (m : sd_machine) : option (Z * sd_machine) :=
  match polls with
  | [] => None
  | (irq, prests, elapsed) :: polls =>
      let m := sdhci_irq irq m in
      if negb (Z.shiftr (sm_int_st m) 16 =? 0) then Some (IOST_GLOBAL, m)
      else if Z.land prests mask =? expected then Some (IOST_OK, m)
      else if timeout <? elapsed then Some (IOST_TRANSIENT, m)
      else sdhci_wait_state mask expected timeout polls m
  end.

Definition USECS_1000 : Z := 1000 * 24.

Definition sdhci_submit_cmd (polls : list (Z * Z * Z)) (cmd arg : Z) (m : sd_machine) : option (Z * sd_machine) :=
  let state_mask := Z.lor SDHCI_PRESTS_CMD_INHIBIT SDHCI_PRESTS_DAT_INHIBIT in
  '(res, m) ← sdhci_wait_state state_mask 0 USECS_1000 polls m;
  if negb (res =? IOST_OK) then Some (res, m)
  else
    let r := sm_regs m in
    Some (IOST_OK, mkSd (sm_xfer m) (sm_active m) (sm_int_st m)
      (mkRegs (sr_arg2 r) (sr_block_count r) arg (sr_transfer_mode r) (u16 cmd) (sr_adma0 r) (sr_adma1 r)) (sm_mem m) (sm_requests m)).

Definition or_cmd (flag : Z) (d : sdhci_adma2_desc8) : sdhci_adma2_desc8 := mkDesc8 (Z.lor (desc_cmd d) flag) (desc_data d).

Definition sdhci_start_xfer (desc_addr : Z) (polls : nat -> list (Z * Z * Z)) (addr : Z) (m : sd_machine) : option (Z * sd_machine) :=
  let x := sm_xfer m in
  if negb (xf_status x =? SDHCI_CREATING) then None
  else if xf_desc_size x =? 0 then Some (IOST_INVALID, m)
  else
    let descs := alter (or_cmd SDHCI_DESC_END) (Z.to_nat (xf_desc_size x - 1)) (xf_desc8 x) in
    let descs := alter (or_cmd SDHCI_DESC_VALID) 0%nat descs in
    let x := mkXfer SDHCI_SUBMITTED descs (xf_desc_size x) (xf_bytes x) in
    let m := set_xfer x m in
    if negb (xf_bytes x mod 512 =? 0) then None
    else if sm_active m then Some (IOST_TRANSIENT, m)
    else
      let mode := Z.lor (Z.lor (Z.lor (Z.lor SDHCI_TRANSMOD_READ SDHCI_TRANSMOD_BLOCK_COUNT) SDHCI_TRANSMOD_MULTIBLOCK) SDHCI_TRANSMOD_AUTO_CMD23) SDHCI_TRANSMOD_DMA in
      let r := sm_regs m in
      let r := mkRegs (u32 (xf_bytes x / 512)) (u16 (xf_bytes x / 512)) (sr_arg r) mode (sr_cmd r) (u32 desc_addr) (u32 (Z.shiftr desc_addr 32)) in
      sdhci_submit_cmd (polls (sm_requests m)) (Z.lor (Z.lor (SDHCI_CMD 18) SDHCI_R1) SDHCI_CMD_DATA) addr
        (mkSd x true (sm_int_st m) r (sm_mem m) (sm_requests m)).

(** ** The controller

    ADMA2: the segments of a list of descriptors, up to the one that is marked as
    the last. *)
Fixpoint adma_segments (descs : list sdhci_adma2_desc8) : option (list (Z * Z)) :=
  match descs with
  | [] => None
  | d :: descs =>
      if Z.land (desc_cmd d) 1 =? 0 then None
      else if negb (Z.land (desc_cmd d) 0x30 =? 0x20) then None
      else
        let len := Z.shiftr (desc_cmd d) 16 in
        let seg := (desc_data d, if len =? 0 then 2 ^ 16 else len) in
        if negb (Z.land (desc_cmd d) 2 =? 0) then Some [seg] else segs ← adma_segments descs; Some (seg :: segs)
  end.
(** The buffers of a read of several blocks (CMD18, preceded by CMD23 with the number
    of blocks), if the descriptors hold as many bytes. *)
Definition sd_segments (desc_addr : Z) (m : sd_machine) : list (Z * Z) :=
  let r := sm_regs m in
  if (sr_cmd r =? 0x123a) && (sr_transfer_mode r =? 0x3b) && (sr_adma0 r + 2 ^ 32 * sr_adma1 r =? desc_addr) && (sr_arg2 r =? sr_block_count r) then
    match adma_segments (xf_desc8 (sm_xfer m)) with
    | Some segs => if segments_size segs =? 512 * sr_block_count r then segs else []
    | None => []
    end
  else [].
(** The controller writes bytes to these buffers. *)
Definition sd_transfer (bytes : Z -> Z) (desc_addr : Z) (m : sd_machine) : sd_machine :=
  mkSd (sm_xfer m) (sm_active m) (sm_int_st m) (sm_regs m) (write_segments bytes (512 * sr_arg (sm_regs m)) (sd_segments desc_addr m) (sm_mem m)) (sm_requests m).

(** An interrupt of a request in flight: whether the controller is done, and what the
    buffers hold if it is not. *)
Record sd_event : Type := mkEvent {
  ev_int_st : Z;
  ev_done : bool;
  ev_bytes : Z -> Z;
}.
Definition sd_interrupt (card : Z -> Z) (desc_addr : Z) (i : sd_event) (m : sd_machine) : sd_machine :=
  sdhci_irq (ev_int_st i) (sd_transfer (if ev_done i then card else ev_bytes i) desc_addr m).

(** The thread sleeps until an interrupt, as long as the transfer is submitted. *)
Fixpoint sdhci_wait_xfer (card : Z -> Z) (desc_addr : Z) (irqs : list sd_event) (m : sd_machine) : option (Z * sd_machine) :=
  if xf_status (sm_xfer m) <? NUM_IOST then Some (xf_status (sm_xfer m), m)
  else if negb (xf_status (sm_xfer m) =? SDHCI_SUBMITTED) then None
  else match irqs with
  | [] => None
  | i :: irqs => sdhci_wait_xfer card desc_addr irqs (sd_interrupt card desc_addr i m)
  end.

(** ** The descriptors of a range *)
Definition desc_of (first : bool) (seg : Z * Z) : sdhci_adma2_desc8 :=
  let cmd := Z.lor (Z.shiftl (seg.2 mod 2 ^ 16) 16) SDHCI_DESC_TRAN in
  mkDesc8 (if first then cmd else Z.lor cmd SDHCI_DESC_VALID) seg.1.
Fixpoint descs_of (k : Z) (segs : list (Z * Z)) : list sdhci_adma2_desc8 :=
  match segs with
  | [] => []
  | seg :: segs => desc_of (k =? 0) seg :: descs_of (k + 1) segs
  end.

Lemma length_descs_of segs : forall k, length (descs_of k segs) = length segs.
Proof. induction segs as [| seg segs IH]; intros k; cbn; [done | by rewrite IH]. Qed.

Lemma add_segments_spec n : forall s e k descs bytes, 0 <= s -> s <= e <= 0xffffffff -> 0 <= k -> e - s <= Z.of_nat n * 2 ^ 16 ->
  k + zlen (split_range (2 ^ 16) n s e) <= zlen descs ->
  add_segments n s e k descs bytes =
  Some (true, take (Z.to_nat k) descs ++ descs_of k (split_range (2 ^ 16) n s e) ++ drop (Z.to_nat k + length (split_range (2 ^ 16) n s e)) descs, k + zlen (split_range (2 ^ 16) n s e), bytes + (e - s)).
Proof.
  induction n as [| n IH]; intros s e k descs bytes Hs He Hk Hn Hl.
  - assert (s = e) as -> by lia. cbn. rewrite Z.ltb_irrefl. cbn. by rewrite Nat.add_0_r, take_drop, Z.sub_diag, !Z.add_0_r.
  - cbn [add_segments split_range] in *. destruct (Z.ltb_spec s e) as [Hlt | Hge]; cbn [negb].
    2: { assert (s = e) as -> by lia. cbn. by rewrite Nat.add_0_r, take_drop, Z.sub_diag, !Z.add_0_r. }
    cbv zeta in *. cbn [length descs_of] in *. set (len := Z.min (2 ^ 16) (e - s)) in *. destruct (Z.leb_spec (zlen descs) k); [lia |]. change (Z.shiftl 1 16) with (2 ^ 16).
    assert ((if 2 ^ 16 <=? e - s then (0, s + 2 ^ 16, bytes + 2 ^ 16) else (u16 (e - s), e, bytes + u16 (e - s))) = (len mod 2 ^ 16, s + len, bytes + len)) as ->.
    { subst len. destruct (Z.leb_spec (2 ^ 16) (e - s)); [rewrite Z.min_l by lia; done |]. rewrite Z.min_r by lia. replace (s + (e - s)) with e by lia. unfold u16. rewrite Z.mod_small by lia. done. }
    rewrite IH; [| lia | lia | lia | lia | rewrite length_insert; lia]. rewrite u32_small by lia.
    rewrite Z2Nat.inj_add by lia. change (Z.to_nat 1) with 1%nat. rewrite (Nat.add_1_r (Z.to_nat k)).
    rewrite (take_S_r _ _ (mkDesc8 (if negb (k =? 0) then Z.lor (Z.lor (Z.shiftl (len mod 2 ^ 16) 16) SDHCI_DESC_TRAN) SDHCI_DESC_VALID else Z.lor (Z.shiftl (len mod 2 ^ 16) 16) SDHCI_DESC_TRAN) s))
      by (apply list_lookup_insert_eq; lia).
    rewrite take_insert_ge by lia. rewrite drop_insert_lt by lia. rewrite <- app_assoc. cbn [app]. unfold desc_of. cbn [fst snd].
    replace (if k =? 0 then _ else _) with (if negb (k =? 0) then Z.lor (Z.lor (Z.shiftl (len mod 2 ^ 16) 16) SDHCI_DESC_TRAN) SDHCI_DESC_VALID else Z.lor (Z.shiftl (len mod 2 ^ 16) 16) SDHCI_DESC_TRAN) by (by destruct (k =? 0)).
    replace (k + 1 + zlen (split_range (2 ^ 16) n (s + len) e)) with (k + Z.of_nat (S (length (split_range (2 ^ 16) n (s + len) e)))) by lia. replace (bytes + len + (e - (s + len))) with (bytes + (e - s)) by lia.
    by rewrite Nat.add_succ_comm.
Qed.

(** What the controller reads from a descriptor. *)
Lemma adma_flags l c mask : 0 <= c < 2 ^ 16 -> 0 <= mask < 2 ^ 16 -> Z.land (Z.lor (Z.shiftl l 16) c) mask = Z.land c mask.
Proof.
  intros Hc Hm. rewrite Z.land_lor_distr_l, (Z.land_comm (Z.shiftl l 16)), land_small_shiftl by lia. apply Z.lor_0_l.
Qed.
Lemma desc_length l c : 0 <= c < 2 ^ 16 -> Z.shiftr (Z.lor (Z.shiftl l 16) c) 16 = l.
Proof.
  intros Hc. rewrite Z.shiftr_lor, Z.shiftr_shiftl_l by lia. rewrite Z.sub_diag, Z.shiftl_0_r, (Z.shiftr_div_pow2 c) by lia. rewrite Z.div_small by lia. apply Z.lor_0_r.
Qed.
Lemma adma_segments_cons seg (c : Z) descs : 0 < seg.2 <= 2 ^ 16 -> c = 33 \/ c = 35 ->
  adma_segments (mkDesc8 (Z.lor (Z.shiftl (seg.2 mod 2 ^ 16) 16) c) seg.1 :: descs) =
  if c =? 35 then Some [seg] else segs ← adma_segments descs; Some (seg :: segs).
Proof.
  intros Hs Hc. assert ((seg.1, if seg.2 mod 2 ^ 16 =? 0 then 2 ^ 16 else seg.2 mod 2 ^ 16) = seg) as E.
  { destruct seg as [a l]. cbn [fst snd] in *. destruct (Z.eq_dec l (2 ^ 16)) as [-> | Hne]; [done |]. rewrite Z.mod_small by lia. destruct (Z.eqb_spec l 0); [lia | done]. }
  cbn [adma_segments desc_cmd desc_data]. rewrite !adma_flags, desc_length, E by (destruct Hc as [-> | ->]; lia). by destruct Hc as [-> | ->].
Qed.

(** The descriptors after the last and the first one were marked. *)
Lemma adma_segments_tail segs : forall k rest, 0 < k -> segs <> [] -> Forall (fun seg : Z * Z => 0 < seg.2 <= 2 ^ 16) segs ->
  adma_segments (alter (or_cmd SDHCI_DESC_END) (Nat.pred (length segs)) (descs_of k segs ++ rest)) = Some segs.
Proof.
  induction segs as [| seg segs IH]; intros k rest Hk Hne Hall; [done |]. inversion Hall as [| ? ? Hs Hall']; subst. cbn [descs_of length app]. unfold desc_of at 1.
  rewrite (proj2 (Z.eqb_neq k 0)) by lia. rewrite <- Z.lor_assoc. change (Z.lor SDHCI_DESC_TRAN SDHCI_DESC_VALID) with 33. destruct segs as [| seg' segs].
  - cbn [length Nat.pred alter list_alter]. unfold or_cmd. cbn [desc_cmd desc_data]. rewrite <- Z.lor_assoc. change (Z.lor 33 SDHCI_DESC_END) with 35. rewrite adma_segments_cons by auto. done.
  - change (Nat.pred (S (length (seg' :: segs)))) with (S (length segs)). cbn [alter list_alter]. rewrite adma_segments_cons by auto. change (33 =? 35) with false. cbv iota.
    specialize (IH (k + 1) rest ltac:(lia) ltac:(done) Hall'). change (Nat.pred (length (seg' :: segs))) with (length segs) in IH. change (list_alter ?f ?i ?l) with (alter f i l). rewrite IH. done.
Qed.
Lemma adma_segments_marked segs rest : segs <> [] -> Forall (fun seg : Z * Z => 0 < seg.2 <= 2 ^ 16) segs ->
  adma_segments (alter (or_cmd SDHCI_DESC_VALID) 0%nat (alter (or_cmd SDHCI_DESC_END) (Nat.pred (length segs)) (descs_of 0 segs ++ rest))) = Some segs.
Proof.
  intros Hne Hall. destruct segs as [| seg segs]; [done |]. inversion Hall as [| ? ? Hs Hall']; subst. cbn [descs_of length app]. unfold desc_of at 1. change (0 =? 0) with true. cbv iota.
  destruct segs as [| seg' segs].
  - cbn [length Nat.pred alter list_alter]. unfold or_cmd. cbn [desc_cmd desc_data]. rewrite <- !Z.lor_assoc. change (Z.lor SDHCI_DESC_TRAN _) with 35. rewrite adma_segments_cons by auto. done.
  - change (Nat.pred (S (length (seg' :: segs)))) with (S (length segs)). cbn [alter list_alter]. unfold or_cmd at 1. cbn [desc_cmd desc_data]. rewrite <- Z.lor_assoc. change (Z.lor SDHCI_DESC_TRAN _) with 33.
    rewrite adma_segments_cons by auto. change (33 =? 35) with false. cbv iota. change (list_alter ?f ?i ?l) with (alter f i l).
    pose proof (adma_segments_tail (seg' :: segs) 1 rest ltac:(lia) ltac:(done) Hall') as IH. change (Nat.pred (length (seg' :: segs))) with (length segs) in IH. change (0 + 1) with 1. by rewrite IH.
Qed.

(** ** The interface of the block device *)
Section Emmc.
Context (card : Z -> Z) (desc_addr : Z) (polls : nat -> list (Z * Z * Z)) (early : nat -> Z -> Z) (irqs : nat -> list sd_event).

(** [None]: the driver stopped or waits forever; nothing is run after that. *)
Definition sd_lift {R} (stopped : R) (f : sd_machine -> option (R * sd_machine)) (x : option sd_machine) : R * option sd_machine :=
  match x with
  | Some m => match f m with Some (r, m) => (r, Some m) | None => (stopped, None) end
  | None => (stopped, None)
  end.
Definition sd_count (m : sd_machine) : sd_machine := mkSd (sm_xfer m) (sm_active m) (sm_int_st m) (sm_regs m) (sm_mem m) (S (sm_requests m)).

(** [wait_xfer] and [pump] of [blk_emmc.c] call the driver this way.  A request that
    was submitted is in flight; [early] are the bytes in its buffers at first. *)
Definition emmc_ctl : controller (option sd_machine) := {|
  ctl_wait := sd_lift IOST_GLOBAL (fun m => sdhci_wait_xfer card desc_addr (irqs (sm_requests m)) m);
  ctl_begin lba := sd_lift IOST_GLOBAL (fun m => x ← sdhci_reset_xfer (sm_xfer m); Some (IOST_OK, set_xfer x m));
  ctl_add s e := sd_lift false (fun m => '(ok, x) ← sdhci_add_phys_buffer (plat_virt_to_phys s) (plat_virt_to_phys e) (sm_xfer m); Some (ok, set_xfer x m));
  ctl_go lba := sd_lift IOST_GLOBAL (fun m =>
    '(r, m) ← sdhci_start_xfer desc_addr polls lba (sd_count m);
    Some (r, if r =? IOST_OK then sd_transfer (early (sm_requests m)) desc_addr m else m));
|}.

(** What the hardware does in the end: the inhibit bits are clear, or the time is up
    or an error is reported, while no transfer is reported as complete; a transfer
    ends or fails, and its end (the bit for it, without an error) is reported when
    the controller is done. *)
Record emmc_hardware : Prop := {
  hw_polls n : Exists (fun p : Z * Z * Z => Z.land p.1.2 3 = 0 \/ USECS_1000 < p.2 \/ Z.shiftr p.1.1 16 <> 0) (polls n);
  hw_idle n : Forall (fun p : Z * Z * Z => 0 <= p.1.1 < 2 ^ 32 /\ Z.testbit p.1.1 1 = false) (polls n);
  hw_irqs n : Exists (fun i => Z.testbit (ev_int_st i) 1 = true \/ Z.shiftr (ev_int_st i) 16 <> 0) (irqs n);
  hw_done n : Forall (fun i => 0 <= ev_int_st i < 2 ^ 32 /\ (Z.testbit (ev_int_st i) 1 = true -> Z.shiftr (ev_int_st i) 16 = 0 -> ev_done i = true)) (irqs n);
  hw_desc_addr : 0 <= desc_addr < 2 ^ 64;
}.
(** A fault: an error is reported, or the command line stays busy for too long. *)
Definition emmc_fault : Prop := exists n,
  Exists (fun p : Z * Z * Z => USECS_1000 < p.2 \/ Z.shiftr p.1.1 16 <> 0) (polls n) \/ Exists (fun i => Z.shiftr (ev_int_st i) 16 <> 0) (irqs n).
Context (Hhw : emmc_hardware).

Definition sd_idle (m : sd_machine) : Prop := xf_status (sm_xfer m) = IOST_OK /\ sm_active m = false /\ 0 <= sm_int_st m < 2 ^ 16 /\ length (xf_desc8 (sm_xfer m)) = 512%nat.
(** Both sides agree on the request. *)
Definition sd_busy (m : sd_machine) (lba s e : Z) : Prop :=
  xf_status (sm_xfer m) = SDHCI_SUBMITTED /\ sm_active m = true /\ 0 <= sm_int_st m < 2 ^ 16 /\ length (xf_desc8 (sm_xfer m)) = 512%nat /\
  forall bytes mem a, write_segments bytes (512 * sr_arg (sm_regs m)) (sd_segments desc_addr m) mem a = read_into bytes mem lba s e a.

Lemma shiftr16_small x : 0 <= x -> Z.shiftr x 16 = 0 -> x < 2 ^ 16.
Proof. intros Hx. rewrite Z.shiftr_div_pow2 by lia. intros H. apply Z.div_small_iff in H; lia. Qed.
Lemma complete_bit x : negb (Z.land x SDHCI_INT_XFER_COMPLETE =? 0) = Z.testbit x 1.
Proof. exact (flag_bit x 1 ltac:(lia)). Qed.
Lemma int_st_or a b : 0 <= a < 2 ^ 16 -> 0 <= b -> Z.shiftr b 16 = 0 -> 0 <= Z.lor a b < 2 ^ 16.
Proof.
  intros Ha Hb H. split; [apply Z.lor_nonneg; lia |]. apply shiftr16_small; [apply Z.lor_nonneg; lia |]. rewrite Z.shiftr_lor, H, Z.lor_0_r, Z.shiftr_div_pow2, Z.div_small by lia. done.
Qed.

(** An interrupt that does not concern the transfer. *)
Lemma sdhci_irq_other int_st m : Z.testbit int_st 1 = false -> Z.shiftr int_st 16 = 0 ->
  sdhci_irq int_st m = mkSd (sm_xfer m) (sm_active m) (Z.lor (sm_int_st m) int_st) (sm_regs m) (sm_mem m) (sm_requests m).
Proof. intros H1 H2. unfold sdhci_irq. by rewrite complete_bit, H1, H2. Qed.
Lemma sdhci_irq_int_st int_st m : sm_int_st (sdhci_irq int_st m) = Z.lor (sm_int_st m) int_st.
Proof. unfold sdhci_irq. destruct (negb _ || negb _); [| done]. by destruct (sm_active _). Qed.

(** The wait for the command line: it returns, and reports an error only for a
    fault. *)
Lemma wait_state_returns ps : forall m, Exists (fun p : Z * Z * Z => Z.land p.1.2 3 = 0 \/ USECS_1000 < p.2 \/ Z.shiftr p.1.1 16 <> 0) ps ->
  Forall (fun p : Z * Z * Z => 0 <= p.1.1 < 2 ^ 32 /\ Z.testbit p.1.1 1 = false) ps -> 0 <= sm_int_st m < 2 ^ 16 ->
  exists r m', sdhci_wait_state 3 0 USECS_1000 ps m = Some (r, m') /\ 0 <= r /\
    (r <> IOST_OK -> Exists (fun p : Z * Z * Z => USECS_1000 < p.2 \/ Z.shiftr p.1.1 16 <> 0) ps) /\
    (r = IOST_OK -> exists int_st, 0 <= int_st < 2 ^ 16 /\ m' = mkSd (sm_xfer m) (sm_active m) int_st (sm_regs m) (sm_mem m) (sm_requests m)).
Proof.
  induction ps as [| [[irq p] t] ps IH]; intros m Hex Hall Hi; [by apply Exists_nil in Hex |]. inversion Hall as [| ? ? [Hirq Hbit] Hall']; subst. cbn [fst snd] in Hirq, Hbit. cbn [sdhci_wait_state].
  rewrite sdhci_irq_int_st. destruct (Z.eqb_spec (Z.shiftr irq 16) 0) as [H16 | H16].
  - pose proof (int_st_or _ irq Hi ltac:(lia) H16) as Hor. rewrite Z.shiftr_div_pow2, Z.div_small by lia. cbn [negb Z.eqb]. rewrite sdhci_irq_other by done.
    destruct (Z.eqb_spec (Z.land p 3) 0) as [Hp | Hp]; [| destruct (Z.ltb_spec USECS_1000 t) as [Ht | Ht]].
    + eexists _, _. split; [done |]. split; [done |]. split; [done |]. intros _. by eexists.
    + eexists _, _. split; [done |]. split; [done |]. split; [| done]. intros _. constructor. by left.
    + destruct (IH (mkSd (sm_xfer m) (sm_active m) (Z.lor (sm_int_st m) irq) (sm_regs m) (sm_mem m) (sm_requests m))) as (r & m' & -> & Hr & Hbad & Hok); [| done | done |].
      { inversion Hex as [? ? Hx | ? ? Hx]; subst; [| done]. cbn in Hx. lia. }
      eexists _, _. split; [done |]. split; [done |]. split; [| done]. intros Hne. by apply Exists_cons_tl, Hbad.
  - assert (Z.shiftr (Z.lor (sm_int_st m) irq) 16 <> 0) as Hne by (rewrite Z.shiftr_lor; intros [_ H]%Z.lor_eq_0_iff; done).
    rewrite (proj2 (Z.eqb_neq _ _) Hne). cbn [negb]. eexists _, _. split; [done |]. split; [done |]. split; [| done]. intros _. constructor. by right.
Qed.

(** The request is made as the controller expects it. *)
Lemma sd_request m lba s e : sd_idle m -> request_fits EMMC_REQUEST_SIZE lba s e ->
  exists x1 x2 r m3, sdhci_reset_xfer (sm_xfer m) = Some x1 /\ sdhci_add_phys_buffer (plat_virt_to_phys s) (plat_virt_to_phys e) x1 = Some (true, x2) /\
    sdhci_start_xfer desc_addr polls lba (sd_count (set_xfer x2 m)) = Some (r, m3) /\ 0 <= r /\ (r <> IOST_OK -> emmc_fault) /\ (r = IOST_OK -> sd_busy m3 lba s e /\ sm_mem m3 = sm_mem m).
Proof.
  intros (Hst & Hact & Hint & Hlen) [R1 R2 R3]. change EMMC_REQUEST_SIZE with (2 ^ 21) in R1. destruct m as [[st descs sz by_] act ints regs mem reqs]. cbn in Hst, Hact, Hint, Hlen. subst st act.
  unfold plat_virt_to_phys. destruct (Z.leb_spec 0xffe00000 s); [lia |]. destruct (Z.leb_spec 0xffe00000 e); [lia |]. rewrite !u32_small by lia.
  set (n := S (Z.to_nat ((e - s) / 2 ^ 16))). assert (e - s <= Z.of_nat n * 2 ^ 16 /\ Z.of_nat n <= 33) as [Hn1 Hn2] by (subst n; dlia).
  pose proof (split_range_length (2 ^ 16) n s e) as Hsl. assert (split_range (2 ^ 16) n s e <> []) as Hne by (subst n; cbn [split_range]; rewrite (proj2 (Z.ltb_lt s e)) by lia; done).
  set (x2 := mkXfer SDHCI_CREATING (descs_of 0 (split_range (2 ^ 16) n s e) ++ drop (length (split_range (2 ^ 16) n s e)) descs) (zlen (split_range (2 ^ 16) n s e)) (e - s)).
  exists (mkXfer SDHCI_CREATING descs 0 0), x2. assert (sdhci_add_phys_buffer s e (mkXfer SDHCI_CREATING descs 0 0) = Some (true, x2)) as Hadd.
  { unfold sdhci_add_phys_buffer. cbn [xf_status xf_desc_size xf_desc8 xf_bytes]. rewrite Z.eqb_refl. cbn [negb].
    rewrite (proj2 (Z.leb_le s e)), (proj2 (Z.leb_le e 0xffffffff)) by lia. cbn [negb]. change 3 with (Z.ones 2). rewrite !Z.land_ones by lia. change (2 ^ 2) with 4.
    assert (s mod 4 = 0 /\ e mod 4 = 0) as [-> ->] by (split; dlia). cbn [Z.eqb negb orb]. fold n. rewrite add_segments_spec by lia. cbn [mbind option_bind]. rewrite Z2Nat.inj_0, take_0, Nat.add_0_l, !Z.add_0_l. done. }
  subst x2. set (segs := split_range (2 ^ 16) n s e) in *. unfold sdhci_start_xfer. cbn [sd_count set_xfer sm_xfer xf_status xf_desc_size xf_desc8 xf_bytes sm_active sm_regs sm_int_st sm_mem sm_requests]. rewrite Z.eqb_refl. cbn [negb].
  assert (length segs <> 0%nat) as Hsn by (by destruct segs). rewrite (proj2 (Z.eqb_neq (zlen segs) 0)) by lia. assert ((e - s) mod 512 = 0) as -> by lia. cbn [Z.eqb negb].
  unfold sdhci_submit_cmd. change (Z.lor SDHCI_PRESTS_CMD_INHIBIT SDHCI_PRESTS_DAT_INHIBIT) with 3.
  match goal with |- context [sdhci_wait_state 3 0 USECS_1000 ?ps ?m0] => destruct (wait_state_returns ps m0 (hw_polls Hhw _) (hw_idle Hhw _) Hint) as (r & m' & -> & Hr & Hbad & Hok) end. cbn [mbind option_bind].
  destruct (Z.eqb_spec r IOST_OK) as [-> | Hr0]; cbn [negb]; eexists _, _; (do 4 (split; [done |])); [| by split; [intros Hne0; eexists; left; apply Hbad |]].
  split; [done |]. intros _. destruct (Hok eq_refl) as (int_st & Hint' & ->). split; [| done]. unfold sd_busy. cbn [sm_xfer xf_status xf_desc8 sm_active sm_int_st sm_mem sm_regs sr_arg]. split_and!; try done; try lia.
  - rewrite !length_alter, length_app, length_descs_of, length_drop. lia.
  - intros bytes mem' a. unfold sd_segments. cbn [sm_regs sr_cmd sr_transfer_mode sr_adma0 sr_adma1 sr_arg2 sr_block_count sr_arg sm_xfer xf_desc8 sm_mem].
    change (u16 _ =? 0x123a) with true. change (_ =? 0x3b) with true. cbn [andb].
    assert (u32 desc_addr + 2 ^ 32 * u32 (Z.shiftr desc_addr 32) = desc_addr) as ->. { pose proof (hw_desc_addr Hhw). rewrite Z.shiftr_div_pow2 by lia. unfold u32. dlia. }
    assert (0 <= (e - s) / 512 < 2 ^ 16) as Hq by dlia. rewrite Z.eqb_refl, u32_small by lia. unfold u16 at 1 2. rewrite !(Z.mod_small ((e - s) / 512)) by lia. rewrite Z.eqb_refl. cbn [andb].
    rewrite Z.sub_1_r, Z2Nat.inj_pred, Nat2Z.id. rewrite adma_segments_marked by (done || by apply split_range_len). unfold segs. rewrite split_range_size by lia.
    assert ((e - s =? 512 * ((e - s) / 512)) = true) as -> by (apply Z.eqb_eq; dlia). rewrite write_split by lia. unfold read_into. by rewrite (Z.mul_comm 512 lba).
Qed.

(** The buffers of a request in flight can be written to. *)
Lemma sd_busy_transfer bytes m lba s e : sd_busy m lba s e -> sd_busy (sd_transfer bytes desc_addr m) lba s e /\ forall a, sm_mem (sd_transfer bytes desc_addr m) a = read_into bytes (sm_mem m) lba s e a.
Proof. intros (H1 & H2 & H3 & H4 & H5). split; [exact (conj H1 (conj H2 (conj H3 (conj H4 H5)))) | intros a; apply H5]. Qed.

(** The wait ends with the interrupt that ends the transfer. *)
Lemma sd_wait evs : forall m lba s e, Exists (fun i => Z.testbit (ev_int_st i) 1 = true \/ Z.shiftr (ev_int_st i) 16 <> 0) evs ->
  Forall (fun i => 0 <= ev_int_st i < 2 ^ 32 /\ (Z.testbit (ev_int_st i) 1 = true -> Z.shiftr (ev_int_st i) 16 = 0 -> ev_done i = true)) evs -> sd_busy m lba s e ->
  exists r m', sdhci_wait_xfer card desc_addr evs m = Some (r, m') /\ 0 <= r /\ (r <> IOST_OK -> Exists (fun i => Z.shiftr (ev_int_st i) 16 <> 0) evs) /\
    (r = IOST_OK -> sd_idle m' /\ forall a, sm_mem m' a = read_into card (sm_mem m) lba s e a).
Proof.
  induction evs as [| [int done_ bytes] evs IH]; intros m lba s e Hex Hall Hb; [by apply Exists_nil in Hex |].
  inversion Hall as [| ? ? [Hint Hdone] Hall']; subst. cbn [ev_int_st ev_done] in Hint, Hdone. cbn [sdhci_wait_xfer]. rewrite (proj1 Hb). change (SDHCI_SUBMITTED <? NUM_IOST) with false. rewrite Z.eqb_refl. cbn [negb].
  unfold sd_interrupt. cbn [ev_int_st ev_done ev_bytes]. destruct (sd_busy_transfer (if done_ then card else bytes) m lba s e Hb) as [Hb1 Hm1].
  set (m1 := sd_transfer _ desc_addr m) in *. clearbody m1. pose proof Hb1 as (Hst & Hact & Hi & Hlen & Htr).
  destruct (Z.testbit int 1 || negb (Z.shiftr int 16 =? 0)) eqn:Hend.
  - assert (exists st, (st = IOST_OK \/ st = IOST_GLOBAL) /\ xf_status (sm_xfer (sdhci_irq int m1)) = st /\ (st <> IOST_OK -> Z.shiftr int 16 <> 0) /\
      (st = IOST_OK -> sd_idle (sdhci_irq int m1) /\ forall a, sm_mem (sdhci_irq int m1) a = read_into card (sm_mem m) lba s e a)) as (st & Hst1 & Hx & Hbad & Hok).
    { unfold sdhci_irq. rewrite complete_bit, Hend. cbn [sm_active]. rewrite Hact, Z.shiftr_lor, (Z.shiftr_div_pow2 (sm_int_st m1)), (Z.div_small (sm_int_st m1)), Z.lor_0_r by lia.
      eexists. cbn [sm_xfer set_xf_status xf_status]. split; [| split; [done |]]; destruct (Z.eqb_spec (Z.shiftr int 16) 0) as [E | E]; cbn [negb]; auto; [| by split].
      rewrite orb_false_r in Hend. rewrite (Hdone Hend E) in Hm1. split; [done |]. intros _. split; [| exact Hm1]. pose proof (int_st_or _ int Hi ltac:(lia) E). unfold sd_idle; cbn; split_and!; (done || lia). }
    exists st, (sdhci_irq int m1). assert (sdhci_wait_xfer card desc_addr evs (sdhci_irq int m1) = Some (st, sdhci_irq int m1)) as -> by (destruct evs; cbn [sdhci_wait_xfer]; rewrite Hx; by destruct Hst1 as [-> | ->]).
    split; [done |]. split; [by destruct Hst1; subst |]. split; [| done]. intros Hne. constructor. by apply Hbad.
  - apply orb_false_iff in Hend as [E1 E2]. apply negb_false_iff, Z.eqb_eq in E2. rewrite sdhci_irq_other by done. pose proof (int_st_or _ int Hi ltac:(lia) E2) as Hor.
    destruct (IH (mkSd (sm_xfer m1) (sm_active m1) (Z.lor (sm_int_st m1) int) (sm_regs m1) (sm_mem m1) (sm_requests m1)) lba s e) as (r & m' & Hw & Hr & Hbad & Hok); [| done | unfold sd_busy; cbn [sm_xfer sm_active sm_int_st sm_regs]; by split_and!; try lia |].
    { inversion Hex as [? ? [Hx | Hx] | ? ? Hx]; subst; [by cbn [ev_int_st] in Hx; congruence | by cbn [ev_int_st] in Hx | done]. }
    exists r, m'. split; [done |]. split; [done |]. split; [intros Hne; by apply Exists_cons_tl, Hbad |]. intros Hr0. destruct (Hok Hr0) as [Hid Hm]. split; [done |]. intros a. rewrite Hm. cbn [sm_mem].
    apply read_into_twice. intros a' Ha'. rewrite Hm1. by apply read_into_outside.
Qed.

Definition emmc_mem (x : option sd_machine) : Z -> Z := match x with Some m => sm_mem m | None => fun _ => 0 end.

#[export, program] Instance emmc_controller : XferController emmc_ctl EMMC_REQUEST_SIZE card := {|
  cx_mem := emmc_mem;
  cx_alive x := x <> None;
  cx_idle x := match x with Some m => sd_idle m | None => False end;
  cx_busy x lba s e := match x with Some m => sd_busy m lba s e | None => False end;
  cx_fault := emmc_fault;
  cx_stops := False;
|}.
Next Obligation.
  intros [m |]; [| done]. intros (Hst & _). cbn. destruct (irqs (sm_requests m)); cbn [sdhci_wait_xfer]; by rewrite Hst.
Qed.
Next Obligation.
  intros [m |] lba s e; [| done]. intros Hi Hr. right. destruct (sd_request m lba s e Hi Hr) as (x1 & x2 & r & m3 & E1 & E2 & E3 & Hr3 & Hbad & Hok).
  eexists (Some (set_xfer x1 m)), (Some (set_xfer x2 m)), r, (Some _). cbn. rewrite E1. cbn. rewrite E2. cbn. rewrite E3. cbn. split_and!; try done; [by split; auto |].
  intros ->. destruct (Hok eq_refl) as [Hb Hm]. destruct (sd_busy_transfer (early (sm_requests m3)) m3 lba s e Hb) as [Hb' Hm']. split; [done |]. intros a Ha. rewrite Hm', read_into_outside, Hm by done. done.
Qed.
Next Obligation.
  intros [m |] lba s e; [| done]. intros Hb. destruct (sd_wait (irqs (sm_requests m)) m lba s e (hw_irqs Hhw _) (hw_done Hhw _) Hb) as (r & m' & E & Hr & Hbad & Hok).
  exists r, (Some m'). cbn. rewrite E. split_and!; try done. intros Hne. split; [| done]. eexists. right. by apply Hbad.
Qed.
End Emmc.

(** C15: eMMC reads the card.  The block device [blk_emmc.c] over the SDHCI driver,
    for a card with blocks of 512 bytes and a controller that ends each request and
    reports the end of a transfer when it is done (until then the buffers of a request
    may hold anything): after a start at block [lba0] and any number of pumps without
    an error, a pump returns, without a failed assertion or an endless wait.  It
    reports an error only if the controller reported one or kept the command line
    busy for too long; otherwise it makes at least [min_size] bytes available (fewer
    only at the end of the range), and memory from [buf] on holds the bytes of the
    card from block [lba0] on, with everything outside of what was requested as it
    was.  This includes the descriptors that the controller walks, the block counts
    and the commands. *)
Theorem emmc_reads_card card desc_addr polls early irqs (Hhw : emmc_hardware desc_addr polls irqs) iost_u8 buf lba0 stop mem0 d consume min_size :
  range_fits EMMC_REQUEST_SIZE buf lba0 stop ->
  reading (emmc_ctl card desc_addr polls early irqs) EMMC_REQUEST_SIZE card (XferController0 := emmc_controller card desc_addr polls early irqs Hhw) iost_u8 buf lba0 stop mem0 d ->
  0 <= consume <= end_ptr d - consume_ptr d ->
  exists d' b, emmc_pump (emmc_ctl card desc_addr polls early irqs) iost_u8 d consume min_size = Ok (d', b) /\
    (pump_failed b = true /\ emmc_fault polls irqs /\ xfer d' <> None \/
     b_start b = consume_ptr d + consume /\ b_end b = end_ptr d' /\ end_ptr d <= b_end b <= next_end_ptr d' /\ next_end_ptr d' <= stop /\ (min_size <= b_end b - b_start b \/ b_end b = stop) /\
     (forall a, buf <= a < b_end b -> emmc_mem (xfer d') a = card (lba0 * 512 + (a - buf))) /\
     (forall a, a < buf \/ next_end_ptr d' <= a -> emmc_mem (xfer d') a = mem0 a)).
Proof.
  intros Hrange Hr Hc. destruct (pump_reads_card (emmc_ctl card desc_addr polls early irqs) EMMC_REQUEST_SIZE card iost_u8 buf lba0 stop mem0 Hrange d consume min_size Hr Hc) as [[_ []] | H]. exact H.
Qed.

(** A card, and a controller that is ready at once and reports the end of a command
    and then that of the transfer, with half of the first bytes in memory before. *)
Definition demo_card (pos : Z) : Z := pos mod 251.
Definition demo_polls (n : nat) : list (Z * Z * Z) := [(0, 2, 0); (1, 0, 500)].
Definition demo_early (n : nat) (pos : Z) : Z := 0xaa.
Definition demo_irqs (n : nat) : list sd_event := [mkEvent 1 false (fun pos => if pos <? 4000 then demo_card pos else 0x55); mkEvent 2 true (fun _ => 0)].
Definition demo_emmc : blockdev (option sd_machine) :=
  {| block_size := 512; num_blocks := 2 ^ 20; consume_ptr := 0; end_ptr := 0; next_end_ptr := 0; stop_ptr := 0; next_lba := 0;
     xfer := Some (mkSd (mkXfer 0 (replicate 512 (mkDesc8 0 0)) 0 0) false 0 (mkRegs 0 0 0 0 0 0 0) (fun _ => 0) 0) |}.
Definition demo_emmc_started : blockdev (option sd_machine) := (start (emmc_ctl demo_card 0x8000 demo_polls demo_early demo_irqs) demo_emmc 7 0x100000 0x500000).2.

Lemma emmc_reads_card_witness : emmc_hardware 0x8000 demo_polls demo_irqs /\
  exists d' b, emmc_pump (emmc_ctl demo_card 0x8000 demo_polls demo_early demo_irqs) 16 demo_emmc_started 0 3000000 = Ok (d', b) /\
    b_start b = 0x100000 /\ b_end b = 0x500000 /\ emmc_mem (xfer d') 0x2abcde = demo_card (7 * 512 + (0x2abcde - 0x100000)).
Proof.
  assert (emmc_hardware 0x8000 demo_polls demo_irqs) as Hhw.
  { constructor; [intros n; apply Exists_cons_tl, Exists_cons_hd; by left | intros n; repeat constructor; cbn; lia | intros n; apply Exists_cons_tl, Exists_cons_hd; by left | intros n; repeat constructor; cbn; lia || done | lia]. }
  split; [done |].
  destruct (emmc_reads_card demo_card 0x8000 demo_polls demo_early demo_irqs Hhw 16 0x100000 7 0x500000 (fun _ => 0) demo_emmc_started 0 3000000) as (d' & b & Hp & Hb).
  - constructor; vm_compute; split_and!; (reflexivity || discriminate).
  - apply (read_start _ _ _ _ _ _ _ _ demo_emmc); done.
  - by vm_compute.
  - exists d', b. split; [done |]. assert (match emmc_pump (emmc_ctl demo_card 0x8000 demo_polls demo_early demo_irqs) 16 demo_emmc_started 0 3000000 with Ok (_, b) => b | Trap _ => {| b_start := 1; b_end := 0 |} end = {| b_start := 0x100000; b_end := 0x500000 |}) as E by (vm_compute; reflexivity).
    rewrite Hp in E. subst b. split; [reflexivity |]. split; [reflexivity |]. destruct Hb as [[Hf _] | (_ & _ & _ & _ & _ & Hd & _)]; [discriminate Hf |]. apply Hd. cbn [b_end]. lia.
Defined.

(** ** The clock

    The multiplier is not used; the result is the value of the clock control
    register and the frequency. *)
Definition SDHCI_CLKCTRL_INTCLK_EN : Z := 1.
Definition SDHCI_CLKCTRL_DIV (div : Z) : Z := Z.lor (Z.shiftl (u16 div) 8) (Z.land (Z.shiftr (u16 div) 3) 0xc0).
Definition sdhci_set_clock (caps khz : Z) : option (Z * Z) :=
  let baseclock_mhz := Z.land (Z.shiftr caps 8) 0xff in
  let clkctrl := SDHCI_CLKCTRL_INTCLK_EN in
  if baseclock_mhz * 1000 <=? khz then Some (u16 (Z.lor clkctrl (SDHCI_CLKCTRL_DIV 0)), baseclock_mhz * 1000)
  else
    let div := (baseclock_mhz * 1000 + khz - 1) / khz in
    if negb (div <? 0x7ff) then None
    else
      let clkctrl := if negb (div =? 1) then u16 (Z.lor clkctrl (SDHCI_CLKCTRL_DIV (Z.shiftr (div + 1) 1))) else clkctrl in
      Some (clkctrl, baseclock_mhz * 1000 / Z.land (div + 1) 0x7fe).

(** The divider in the register: ten bits, of which the upper two are bits 6 and 7;
    the base clock is divided by twice its value. *)
Definition register_divider (clkctrl : Z) : Z := Z.shiftr clkctrl 8 + 256 * Z.land (Z.shiftr clkctrl 6) 3.

Lemma even_part n : 0 <= n < 2 ^ 11 -> Z.land n 0x7fe = 2 * (n / 2).
Proof.
  intros Hn. replace (2 * (n / 2)) with (Z.shiftl (Z.shiftr n 1) 1) by (rewrite Z.shiftl_mul_pow2, Z.shiftr_div_pow2 by lia; change (2 ^ 1) with 2; lia). apply Z.bits_inj'. intros k Hk. rewrite Z.land_spec, Z.shiftl_spec by lia.
  destruct (Z.eq_dec k 0) as [-> | Hk0]; [by rewrite andb_false_r, Z.testbit_neg_r by lia |]. rewrite Z.shiftr_spec by lia. replace (k - 1 + 1) with k by lia.
  change 0x7fe with (Z.shiftl (Z.ones 10) 1). rewrite Z.shiftl_spec, Z.testbit_ones by lia. destruct (Z.leb_spec 0 (k - 1)); [| lia]. destruct (Z.ltb_spec (k - 1) 10); cbn [andb]; [apply andb_true_r |].
  rewrite andb_false_r. symmetry. destruct (Z.eq_dec n 0) as [-> |]; [apply Z.bits_0 |]. apply Z.bits_above_log2; [lia |]. apply Z.lt_le_trans with 11; [apply Z.log2_lt_pow2; lia | lia].
Qed.

Lemma register_divider_small q : 1 <= q < 256 -> register_divider (u16 (Z.lor SDHCI_CLKCTRL_INTCLK_EN (SDHCI_CLKCTRL_DIV q))) = q.
Proof.
  intros Hq. assert (forallb (fun q => register_divider (u16 (Z.lor SDHCI_CLKCTRL_INTCLK_EN (SDHCI_CLKCTRL_DIV q))) =? q) (seqZ 1 255) = true) as H by (vm_compute; reflexivity).
  rewrite forallb_forall in H. apply Z.eqb_eq, H, list_elem_of_In, elem_of_seqZ. lia.
Qed.

(** The card is never clocked faster than asked for, and as long as the divider has
    eight bits, the register holds it. *)
Lemma sdhci_clock_correct caps khz clkctrl real_khz : 0 < khz -> sdhci_set_clock caps khz = Some (clkctrl, real_khz) ->
  let base := Z.land (Z.shiftr caps 8) 0xff * 1000 in
  0 <= real_khz <= khz /\ (base <= khz * 510 -> real_khz = if register_divider clkctrl =? 0 then base else base / (2 * register_divider clkctrl)).
Proof.
  intros Hk. unfold sdhci_set_clock. set (mhz := Z.land (Z.shiftr caps 8) 0xff). assert (0 <= mhz < 256) as Hm by (subst mhz; change 0xff with (Z.ones 8); rewrite Z.land_ones by lia; apply Z.mod_pos_bound; lia).
  clearbody mhz. cbv zeta. destruct (Z.leb_spec (mhz * 1000) khz) as [Hle | Hgt]; [intros [= <- <-]; split; [lia | done] |].
  set (div := (mhz * 1000 + khz - 1) / khz). assert (2 <= div) as Hd2 by (subst div; apply Z.div_le_lower_bound; lia).
  assert (mhz * 1000 <= khz * div) as Hdk by (subst div; dlia). destruct (Z.ltb_spec div 0x7ff) as [Hd | Hd]; cbn [negb]; [| done]. rewrite (proj2 (Z.eqb_neq div 1)) by lia. cbn [negb]. intros [= <- <-].
  rewrite even_part by lia. assert (div <= 2 * ((div + 1) / 2)) as Hev by dlia. split.
  - split; [apply Z.div_pos; lia |]. apply Z.div_le_upper_bound; [lia |]. nia.
  - intros Hb. assert (div < 511) as Hd511 by (subst div; apply Z.div_lt_upper_bound; lia). rewrite Z.shiftr_div_pow2 by lia. change (2 ^ 1) with 2. set (q := (div + 1) / 2) in *.
    assert (1 <= q < 256) as Hq by (subst q; dlia). rewrite register_divider_small by lia. by rewrite (proj2 (Z.eqb_neq q 0)) by lia.
Qed.
(** A larger divider does not: its upper bits are put one place too low. *)
Lemma register_divider_large : register_divider (u16 (Z.lor SDHCI_CLKCTRL_INTCLK_EN (SDHCI_CLKCTRL_DIV 256))) = 0.
Proof. done. Qed.

(** ** The registers of the card *)
Definition write_cxd (a b c d : Z) : list Z :=
  [Z.lor (u32 (Z.shiftl d 8)) (Z.shiftr c 24); Z.lor (u32 (Z.shiftl c 8)) (Z.shiftr b 24); Z.lor (u32 (Z.shiftl b 8)) (Z.shiftr a 24); u32 (Z.shiftl a 8)].

Definition mmc_cardinfo_understood (cxd ext_csd : list Z) : res bool :=
  c3 ← geti cxd 3;
  if negb (Z.shiftr c3 30 =? 2) then Ok false
  else structure ← geti ext_csd 194; Ok (structure =? 2).
Definition mmc_sector_count (ext_csd : list Z) : res Z :=
  b0 ← geti ext_csd 212; b1 ← geti ext_csd 213; b2 ← geti ext_csd 214; b3 ← geti ext_csd 215;
  Ok (Z.lor (Z.lor (Z.lor b0 (u32 (Z.shiftl b1 8))) (u32 (Z.shiftl b2 16))) (u32 (Z.shiftl b3 24))).

(** [parse_cardinfo] of eMMC: the block size and the number of blocks. *)
Definition emmc_parse_cardinfo (cxd ext_csd : list Z) : res (option (Z * Z)) :=
  understood ← mmc_cardinfo_understood cxd ext_csd;
  if negb understood then Ok None
  else
  rev ← geti ext_csd 192;
  if rev <? 2 then Ok None
  else
  n ← mmc_sector_count ext_csd;
  if 6 <=? rev then
    sector_size ← geti ext_csd 61;
    if sector_size =? 1 then Ok (Some (4096, n)) else if negb (sector_size =? 0) then Ok None else Ok (Some (512, n))
  else Ok (Some (512, n)).

(** The words of a register of 128 bits: its checksum byte is not transferred. *)
Definition response_word (r i : Z) : Z := (r / 2 ^ (8 + 32 * i)) mod 2 ^ 32.

Lemma word_join hi lo : 0 <= lo < 2 ^ 32 -> 0 <= hi -> Z.lor (u32 (Z.shiftl hi 8)) (Z.shiftr lo 24) = (hi * 2 ^ 8 + lo / 2 ^ 24) mod 2 ^ 32.
Proof.
  intros Hl Hh. rewrite Z.shiftl_mul_pow2, Z.shiftr_div_pow2 by lia. assert (u32 (hi * 2 ^ 8) = Z.shiftl (hi mod 2 ^ 24) 8) as -> by (rewrite Z.shiftl_mul_pow2 by lia; unfold u32; dlia).
  rewrite Z.lor_comm, lor_shiftl_add by dlia. dlia.
Qed.

(** The words are stored with the most significant one first; bits 126 and 127, the
    version of the structure, are those of the first word, not of the one that
    [mmc_cardinfo_understood] looks at. *)
Lemma write_cxd_order r : 0 <= r < 2 ^ 128 ->
  let cxd := write_cxd (response_word r 0) (response_word r 1) (response_word r 2) (response_word r 3) in
  exists w0 w1 w2 w3, cxd = [w0; w1; w2; w3] /\ w0 * 2 ^ 96 + w1 * 2 ^ 64 + w2 * 2 ^ 32 + w3 = r - r mod 2 ^ 8 /\ Z.shiftr w0 30 = r / 2 ^ 126.
Proof.
  intros Hr cxd. set (a := response_word r 0) in cxd. set (b := response_word r 1) in cxd. set (c := response_word r 2) in cxd. set (d := response_word r 3) in cxd.
  assert (0 <= a < 2 ^ 32 /\ 0 <= b < 2 ^ 32 /\ 0 <= c < 2 ^ 32) as (Ha & Hb & Hc) by (unfold a, b, c, response_word; split_and!; apply Z.mod_pos_bound; lia).
  assert (d = r / 2 ^ 104 /\ 0 <= d < 2 ^ 24) as (Hd & Hd') by (unfold d, response_word; change (2 ^ (8 + 32 * 3)) with (2 ^ 104); rewrite Z.mod_small by (split; [apply Z.div_pos; lia | apply Z.div_lt_upper_bound; lia]); split; [done | split; [apply Z.div_pos; lia | apply Z.div_lt_upper_bound; lia]]).
  assert (r = r mod 2 ^ 8 + 2 ^ 8 * (a + 2 ^ 32 * (b + 2 ^ 32 * (c + 2 ^ 32 * d)))) as Hsum.
  { rewrite Hd. unfold a, b, c, response_word. change (8 + 32 * 0) with 8. change (8 + 32 * 1) with (8 + 32). change (8 + 32 * 2) with (8 + 32 + 32). change (2 ^ 104) with (2 ^ 8 * 2 ^ 32 * 2 ^ 32 * 2 ^ 32).
    rewrite !(Z.pow_add_r 2) by lia. rewrite <- !Z.div_div by lia. dlia. }
  unfold cxd, write_cxd. rewrite !word_join by lia. unfold u32. rewrite Z.shiftl_mul_pow2 by lia. do 4 eexists. split; [done |]. split; [dlia |]. rewrite Z.shiftr_div_pow2 by lia.
  assert (r / 2 ^ 126 = d / 2 ^ 22) as -> by (rewrite Hd, Z.div_div by lia; done). dlia.
Qed.

(** Whatever the card answers, the size that is read is one that the block device
    can work with. *)
Lemma emmc_geometry cxd ext_csd : length cxd = 8%nat -> length ext_csd = 512%nat -> Forall is_byte ext_csd ->
  exists r, emmc_parse_cardinfo cxd ext_csd = Ok r /\ match r with Some (size, n) => (size = 512 \/ size = 4096) /\ 0 <= n < 2 ^ 32 | None => True end.
Proof.
  intros Hc Hl Hb. assert (forall i, 0 <= i < 512 -> exists v, geti ext_csd i = Ok v /\ is_byte v) as Hg.
  { intros i Hi. unfold geti. destruct (Z.ltb_spec i 0); [lia |]. destruct (lookup_lt_is_Some_2 ext_csd (Z.to_nat i)) as [v Hv]; [lia |]. rewrite Hv. exists v. split; [done |]. by apply (Forall_lookup_1 _ _ _ _ Hb Hv). }
  assert (exists n, mmc_sector_count ext_csd = Ok n /\ 0 <= n < 2 ^ 32) as (n & Hn & Hn').
  { unfold mmc_sector_count. destruct (Hg 212) as (b0 & -> & H0); [lia |]. destruct (Hg 213) as (b1 & -> & H1); [lia |]. destruct (Hg 214) as (b2 & -> & H2); [lia |]. destruct (Hg 215) as (b3 & -> & H3); [lia |].
    cbn [mbind res_bind]. eexists. split; [done |]. unfold is_byte in *. rewrite !u32_small by (rewrite Z.shiftl_mul_pow2 by lia; lia).
    rewrite (lor_shiftl_add b0 b1 8), (lor_shiftl_add (b0 + b1 * 2 ^ 8) b2 16) by lia. rewrite (lor_shiftl_add _ b3 24) by lia. lia. }
  assert (exists c3, geti cxd 3 = Ok c3) as (c3 & Hc3) by (destruct cxd as [| ? [| ? [| ? [| ? ?]]]]; cbn in Hc; try lia; by eexists).
  unfold emmc_parse_cardinfo, mmc_cardinfo_understood. rewrite Hc3. cbn [mbind res_bind]. destruct (Hg 194) as (st & -> & _); [lia |]. destruct (Hg 192) as (rv & -> & _); [lia |]. destruct (Hg 61) as (sz & -> & _); [lia |]. rewrite Hn.
  destruct (Z.shiftr c3 30 =? 2); cbn [negb mbind res_bind]; [| by exists None]. destruct (st =? 2); cbn [negb]; [| by exists None]. destruct (rv <? 2); [by exists None |]. destruct (6 <=? rv); [| by exists (Some (512, n)); auto].
  destruct (sz =? 1); [by exists (Some (4096, n)); auto |]. destruct (sz =? 0); cbn [negb]; [by exists (Some (512, n)); auto | by exists None].
Qed.
