(* ===== verification/Dwmmc.v ===== *)
(** * The SD host controller
      ([src/lib/dwmmc_xfer.c], [src/lib/dwmmc_common.c])

    Transfers of the DesignWare controller: the descriptors of a request, the
    command, the interrupt handler and the waiting thread.  The controller walks the
    descriptors, each with two buffers, and moves the blocks of the card into memory.
    While a request is in flight its buffers may hold anything; when the controller is
    done they hold the blocks.  The environment chooses the interrupts of each request,
    the values read while a command is being accepted, and the spurious failures of
    [atomic_compare_exchange_weak].  [None] is a failed assertion, or a loop without an
    end; the resets of the controller, which [dwmmc_start_xfer] waits for, are taken to
    end.  The driver implements the interface [XferController]; after a spurious
    failure of the exchange in [dwmmc_start_request] it ends in a failed assertion. *)
From S2P Require Import Nvme.
From S2P Require Import HostCtl.

Open Scope Z_scope.

(** ** Data *)
Definition DWMMC_CREATING : Z := 5.
Definition DWMMC_SUBMITTED : Z := 6.
Definition DWMMC_DES_OWN : Z := Z.shiftl 1 31.
Definition DWMMC_DES_END_OF_RING : Z := 32.
Definition DWMMC_DES_CHAIN_PTR : Z := 16.
Definition DWMMC_DES_FIRST : Z := 8.
Definition DWMMC_DES_LAST : Z := 4.
Definition DWMMC_DES_DISABLE_INTERRUPT : Z := 2.
Definition DWMMC_INT_DATA_NO_BUSY : Z := 0x10000.
Definition DWMMC_INT_DATA_TRANSFER_OVER : Z := 8.
Definition DWMMC_INT_CMD_DONE : Z := 4.
Definition DWMMC_ERROR_INT_MASK : Z := 0xb8c2.
Definition DWMMC_STATUS_DATA_SM_BUSY : Z := Z.shiftl 1 10.
Definition DWMMC_STATUS_DATA_BUSY : Z := Z.shiftl 1 9.
Definition DWMMC_IDMAC_FSM_MASK : Z := Z.shiftl 15 13.
Definition DWMMC_IDMAC_INTMASK_ABNORMAL : Z := 0x214.
Definition DWMMC_CMD_START : Z := Z.shiftl 1 31.
Definition DWMMC_CMD_USE_HOLD_REG : Z := Z.shiftl 1 29.
Definition DWMMC_CMD_SYNC_DATA : Z := Z.shiftl 1 13.
Definition DWMMC_CMD_AUTO_STOP : Z := Z.shiftl 1 12.
Definition DWMMC_CMD_DATA_EXPECTED : Z := Z.shiftl 1 9.
Definition DWMMC_R1 : Z := Z.lor (Z.lor DWMMC_CMD_SYNC_DATA (Z.shiftl 1 8)) (Z.shiftl 1 6).
Definition sd_cmd_template : Z := Z.lor DWMMC_CMD_START DWMMC_CMD_USE_HOLD_REG.

Record dwmmc_idmac_desc : Type := mkIdmac {
  des_control : Z;
  des_sizes : Z;
  des_ptr1 : Z;
  des_ptr2 : Z;
}.

(** [desc_cap] is the length of [dx_desc]. *)
Record dwmmc_xfer : Type := mkDx {
  dx_status : Z;
  dx_chaining : bool;
  dx_second_buf : bool;
  dx_block_addr : Z;
  dx_desc : list dwmmc_idmac_desc;
  dx_desc_size : Z;
  dx_bytes : Z;
}.

(** The driver with its transfer, the registers of a request, and memory. *)
Record dw_machine : Type := mkDm {
  dm_xfer : dwmmc_xfer;
  dm_active : bool;
  dm_int_st : Z;
  dm_idmac_st : Z;
  dm_desc_list_base : Z;
  dm_blksiz : Z;
  dm_bytcnt : Z;
  dm_cmdarg : Z;
  dm_cmd : Z;
  dm_mem : Z -> Z;
  dm_requests : nat;
}.
Definition set_dx (x : dwmmc_xfer) (m : dw_machine) : dw_machine :=
  mkDm x (dm_active m) (dm_int_st m) (dm_idmac_st m) (dm_desc_list_base m) (dm_blksiz m) (dm_bytcnt m) (dm_cmdarg m) (dm_cmd m) (dm_mem m) (dm_requests m).

(** ** Building a request *)

(** The loop on the status: it goes on while the exchange succeeds.  [spurious] are
    the exchanges that fail although the status is the expected one; the result is
    the status after the loop, or [None] inside for [IOST_TRANSIENT]. *)
Fixpoint claim_status (spurious : list bool) (expected status : Z) : option (option Z) :=
  if expected =? DWMMC_SUBMITTED then Some None
  else match spurious with
  | [] => None
  | sp :: spurious => if (sp : bool) || negb (status =? expected) then Some (Some status) else claim_status spurious expected DWMMC_CREATING
  end.
Definition dwmmc_start_request (spurious : list bool) (block_addr : Z) (x : dwmmc_xfer) : option (Z * dwmmc_xfer) :=
  r ← claim_status spurious (dx_status x) (dx_status x);
  match r with
  | None => Some (IOST_TRANSIENT, x)
  | Some status => Some (IOST_OK, mkDx status (dx_chaining x) false block_addr (dx_desc x) 0 0)
  end.

(** The address of a descriptor, from that of the first one. *)
Definition desc_ptr (desc idx : Z) : Z := desc + 16 * idx.

Fixpoint idmac_add (fuel : nat) (desc start end_ : Z) (x : dwmmc_xfer) : option (bool * dwmmc_xfer) :=
  if end_ <=? start then Some (true, x)
  else match fuel with
  | O => None
  | S fuel =>
      if Z.of_nat (length (dx_desc x)) <=? dx_desc_size x then Some (false, x)
      else
        let size := if end_ - start <? 4096 then u32 (end_ - start) else 4096 in
        let desc_idx := dx_desc_size x in
        d ← dx_desc x !! Z.to_nat desc_idx;
        let flags := Z.lor DWMMC_DES_DISABLE_INTERRUPT (if negb (desc_idx =? 0) then DWMMC_DES_OWN else DWMMC_DES_FIRST) in
        let '(d, desc_size, second_buf) :=
          if dx_second_buf x then (mkIdmac flags (Z.lor (des_sizes d) (Z.shiftl size 13)) (des_ptr1 d) (u32 start), desc_idx + 1, false)
          else if plat_is_page_aligned (desc_ptr desc (dx_desc_size x + 1)) || dx_chaining x then
            (mkIdmac (Z.lor flags DWMMC_DES_CHAIN_PTR) size (u32 start) (plat_virt_to_phys (desc_ptr desc (dx_desc_size x))), desc_idx + 1, false)
          else (mkIdmac flags size (u32 start) (des_ptr2 d), desc_idx, true) in
        idmac_add fuel desc (start + size) end_
          (mkDx (dx_status x) (dx_chaining x) second_buf (dx_block_addr x) (<[Z.to_nat desc_idx := d]> (dx_desc x)) desc_size (dx_bytes x + size))
  end.

(** At most one round per page, and one for the rest. *)
Definition dwmmc_add_phys_buffer (desc start end_ : Z) (x : dwmmc_xfer) : option (bool * dwmmc_xfer) :=
  if negb (dx_status x =? DWMMC_CREATING) then None
  else if negb (Z.land start 3 =? 0) || negb (Z.land end_ 3 =? 0) then Some (false, x)
  else idmac_add (S (Z.to_nat ((end_ - start) / 4096))) desc start end_ x.

(** ** Commands *)
Fixpoint wait_accepted (polls : list (Z * Z)) : option Z :=
  match polls with
  | [] => None
  | (reg, elapsed) :: polls =>
      if Z.land reg DWMMC_CMD_START =? 0 then Some IOST_OK else if 10000 * 24 <? elapsed then Some IOST_GLOBAL else wait_accepted polls
  end.

Definition dwmmc_wait_cmd (polls : list (Z * Z)) (cmd : Z) (m : dw_machine) : option (Z * dw_machine) :=
  let mask := if negb (Z.land cmd DWMMC_CMD_SYNC_DATA =? 0) then Z.lor DWMMC_INT_CMD_DONE (Z.lor DWMMC_INT_DATA_NO_BUSY DWMMC_INT_DATA_TRANSFER_OVER) else DWMMC_INT_CMD_DONE in
  let int_st := dm_int_st m in
  if negb (Z.land int_st DWMMC_ERROR_INT_MASK =? 0) then Some (IOST_LOCAL, m)
  else if negb (Z.land int_st mask =? mask) then Some (IOST_TRANSIENT, m)
  else
    let cleared_int_st := Z.land int_st (Z.lnot (Z.lor DWMMC_INT_DATA_NO_BUSY DWMMC_INT_CMD_DONE)) in
    let cleared_int_st := if negb (Z.land cmd DWMMC_CMD_DATA_EXPECTED =? 0) then Z.land cleared_int_st (Z.lnot DWMMC_INT_DATA_TRANSFER_OVER) else cleared_int_st in
    let m := mkDm (dm_xfer m) (dm_active m) cleared_int_st (dm_idmac_st m) (dm_desc_list_base m) (dm_blksiz m) (dm_bytcnt m) (dm_cmdarg m) cmd (dm_mem m) (dm_requests m) in
    r ← wait_accepted polls; Some (r, m).

Definition set_control (f : Z -> Z) (d : dwmmc_idmac_desc) : dwmmc_idmac_desc := mkIdmac (f (des_control d)) (des_sizes d) (des_ptr1 d) (des_ptr2 d).
Definition mark_last (ctrl : Z) : Z := Z.lor (Z.lor (Z.land ctrl (Z.lnot DWMMC_DES_DISABLE_INTERRUPT)) DWMMC_DES_LAST) DWMMC_DES_END_OF_RING.
Definition mark_own (ctrl : Z) : Z := Z.lor ctrl DWMMC_DES_OWN.

Definition dwmmc_start_xfer (desc_addr : Z) (polls : nat -> list (Z * Z)) (m : dw_machine) : option (Z * dw_machine) :=
  let x := dm_xfer m in
  if (dx_bytes x =? 0) || ((dx_desc_size x =? 0) && negb (dx_second_buf x)) then Some (IOST_INVALID, m)
  else
    let last := dx_desc_size x + (if dx_second_buf x then 1 else 0) - 1 in
    let descs := alter (set_control mark_last) (Z.to_nat last) (dx_desc x) in
    let descs := alter (set_control mark_own) 0%nat descs in
    if negb (dx_status x =? DWMMC_CREATING) then None
    else if dm_active m then None
    else if negb (dx_bytes x mod 512 =? 0) then None
    else
      let x := mkDx DWMMC_SUBMITTED (dx_chaining x) (dx_second_buf x) (dx_block_addr x) descs (dx_desc_size x) (dx_bytes x) in
      let cmd := Z.lor (Z.lor (Z.lor (Z.lor 18 DWMMC_R1) DWMMC_CMD_AUTO_STOP) DWMMC_CMD_DATA_EXPECTED) sd_cmd_template in
      dwmmc_wait_cmd (polls (dm_requests m)) cmd
        (mkDm x true (dm_int_st m) (dm_idmac_st m) (u32 desc_addr) 512 (u32 (dx_bytes x)) (dx_block_addr x) (dm_cmd m) (dm_mem m) (dm_requests m)).

(** ** Interrupts *)
Definition data_idle (idmac_st status : Z) : bool := (Z.land (Z.shiftr idmac_st 13) 15 <? 2) && (Z.land status DWMMC_STATUS_DATA_SM_BUSY =? 0).

Definition dwmmc_irq (rintsts idmac_st status : Z) (m : dw_machine) : dw_machine :=
  let rintsts := if Z.land status (Z.lor DWMMC_STATUS_DATA_BUSY DWMMC_STATUS_DATA_SM_BUSY) =? 0 then Z.lor rintsts DWMMC_INT_DATA_NO_BUSY else rintsts in
  let int_st := Z.lor (dm_int_st m) rintsts in
  let rintsts := Z.lor rintsts (dm_int_st m) in
  let idmac_st_acc := Z.lor (Z.land (dm_idmac_st m) (Z.lnot DWMMC_IDMAC_FSM_MASK)) idmac_st in
  let m := mkDm (dm_xfer m) (dm_active m) int_st idmac_st_acc (dm_desc_list_base m) (dm_blksiz m) (dm_bytcnt m) (dm_cmdarg m) (dm_cmd m) (dm_mem m) (dm_requests m) in
  if data_idle idmac_st_acc status || negb (Z.land rintsts DWMMC_ERROR_INT_MASK =? 0) then
    if dm_active m then
      let st := if negb (Z.land rintsts DWMMC_ERROR_INT_MASK =? 0) || negb (Z.land idmac_st_acc DWMMC_IDMAC_INTMASK_ABNORMAL =? 0) then IOST_GLOBAL else IOST_OK in
      let x := dm_xfer m in
      mkDm (mkDx st (dx_chaining x) (dx_second_buf x) (dx_block_addr x) (dx_desc x) (dx_desc_size x) (dx_bytes x)) false (dm_int_st m) (dm_idmac_st m)
        (dm_desc_list_base m) (dm_blksiz m) (dm_bytcnt m) (dm_cmdarg m) (dm_cmd m) (dm_mem m) (dm_requests m)
    else m
  else m.

(** ** The controller

    The buffers of the descriptors from [idx] on: two in a descriptor, or one and
    the address of the next descriptor. *)
Fixpoint idmac_buffers (fuel : nat) (descs : list dwmmc_idmac_desc) (base : Z) (idx : nat) : option (list (Z * Z)) :=
  match fuel with
  | O => None
  | S fuel =>
      d ← descs !! idx;
      if negb (Z.testbit (des_control d) 31) then None
      else
        let size1 := Z.land (des_sizes d) 0x1fff in
        let size2 := Z.land (Z.shiftr (des_sizes d) 13) 0x1fff in
        let chained := Z.testbit (des_control d) 4 in
        let bufs := (des_ptr1 d, size1) :: if chained || (size2 =? 0) then [] else [(des_ptr2 d, size2)] in
        if Z.testbit (des_control d) 2 then Some bufs
        else rest ← idmac_buffers fuel descs base (if chained then Z.to_nat ((des_ptr2 d - base) / 16) else S idx); Some (bufs ++ rest)
  end.

(** The buffers of a read of several blocks (CMD18), if they hold as many bytes. *)
Definition dw_segments (desc_addr : Z) (m : dw_machine) : list (Z * Z) :=
  if (dm_cmd m =? 0xa0003352) && (dm_blksiz m =? 512) && (dm_desc_list_base m =? desc_addr) then
    match idmac_buffers (length (dx_desc (dm_xfer m))) (dx_desc (dm_xfer m)) desc_addr 0 with
    | Some bufs => if segments_size bufs =? dm_bytcnt m then bufs else []
    | None => []
    end
  else [].
(** The controller writes bytes to these buffers. *)
Definition dw_transfer (bytes : Z -> Z) (desc_addr : Z) (m : dw_machine) : dw_machine :=
  mkDm (dm_xfer m) (dm_active m) (dm_int_st m) (dm_idmac_st m) (dm_desc_list_base m) (dm_blksiz m) (dm_bytcnt m) (dm_cmdarg m) (dm_cmd m)
    (write_segments bytes (512 * dm_cmdarg m) (dw_segments desc_addr m) (dm_mem m)) (dm_requests m).

(** An interrupt of a request in flight: the registers that the handler reads, whether
    the controller is done, and what the buffers hold if it is not. *)
Record dw_event : Type := mkEvent {
  ev_rintsts : Z;
  ev_idmac_st : Z;
  ev_status : Z;
  ev_done : bool;
  ev_bytes : Z -> Z;
}.
Definition dw_interrupt (card : Z -> Z) (desc_addr : Z) (i : dw_event) (m : dw_machine) : dw_machine :=
  dwmmc_irq (ev_rintsts i) (ev_idmac_st i) (ev_status i) (dw_transfer (if ev_done i then card else ev_bytes i) desc_addr m).

(** The thread sleeps until an interrupt, as long as the transfer is submitted. *)
Fixpoint dwmmc_wait_xfer (card : Z -> Z) (desc_addr : Z) (irqs : list dw_event) (m : dw_machine) : option (Z * dw_machine) :=
  if dx_status (dm_xfer m) <? 5 then Some (dx_status (dm_xfer m), m)
  else if negb (dx_status (dm_xfer m) =? DWMMC_SUBMITTED) then None
  else match irqs with
  | [] => None
  | i :: irqs => dwmmc_wait_xfer card desc_addr irqs (dw_interrupt card desc_addr i m)
  end.

(** ** The descriptors of a range *)
Definition desc_flags (first : bool) : Z := Z.lor DWMMC_DES_DISABLE_INTERRUPT (if first then DWMMC_DES_FIRST else DWMMC_DES_OWN).

(** Descriptors with the given buffers, two in each. *)
Inductive descs_hold : bool -> list (Z * Z) -> list dwmmc_idmac_desc -> Prop :=
| hold_nil first : descs_hold first [] []
| hold_one first a l p : descs_hold first [(a, l)] [mkIdmac (desc_flags first) l a p]
| hold_two first a1 l1 a2 l2 bufs ds : descs_hold false bufs ds ->
    descs_hold first ((a1, l1) :: (a2, l2) :: bufs) (mkIdmac (desc_flags first) (Z.lor l1 (Z.shiftl l2 13)) a1 a2 :: ds).

(** One round of the loop. *)
Lemma idmac_add_step fuel desc s e x d : s < e -> 0 <= s -> e < 2 ^ 32 -> dx_desc_size x < zlen (dx_desc x) -> 0 <= dx_desc_size x -> dx_desc x !! Z.to_nat (dx_desc_size x) = Some d ->
  dx_chaining x = false -> plat_is_page_aligned (desc_ptr desc (dx_desc_size x + 1)) = false ->
  let size := Z.min 4096 (e - s) in let k := dx_desc_size x in
  idmac_add (S fuel) desc s e x = idmac_add fuel desc (s + size) e
    (if dx_second_buf x then mkDx (dx_status x) false false (dx_block_addr x) (<[Z.to_nat k := mkIdmac (desc_flags (k =? 0)) (Z.lor (des_sizes d) (Z.shiftl size 13)) (des_ptr1 d) s]> (dx_desc x)) (k + 1) (dx_bytes x + size)
     else mkDx (dx_status x) false true (dx_block_addr x) (<[Z.to_nat k := mkIdmac (desc_flags (k =? 0)) size s (des_ptr2 d)]> (dx_desc x)) k (dx_bytes x + size)).
Proof.
  intros Hlt Hs He Hk Hk0 Hd Hc Hp size k. cbn [idmac_add]. rewrite (proj2 (Z.leb_gt e s)) by lia. rewrite (proj2 (Z.leb_gt (zlen (dx_desc x)) (dx_desc_size x))) by lia. rewrite Hd. cbn [mbind option_bind].
  assert ((if e - s <? 4096 then u32 (e - s) else 4096) = size) as -> by (subst size; destruct (Z.ltb_spec (e - s) 4096); [rewrite u32_small by lia |]; lia).
  rewrite Hp, Hc, (u32_small s) by lia. fold k. unfold desc_flags. by destruct (dx_second_buf x), (k =? 0).
Qed.

Lemma idmac_add_done fuel desc s e x : e <= s -> idmac_add fuel desc s e x = Some (true, x).
Proof. intros H. destruct fuel; cbn [idmac_add]; by rewrite (proj2 (Z.leb_le e s)). Qed.

(** The descriptors are filled from [dx_desc_size] on, if none of them ends a page. *)
Lemma idmac_add_spec m : forall fuel n desc s e x, e - s <= Z.of_nat m * 8192 -> e - s <= Z.of_nat fuel * 4096 -> e - s <= Z.of_nat n * 4096 -> 0 <= s -> s <= e < 2 ^ 32 ->
  0 <= dx_desc_size x -> dx_desc_size x + Z.of_nat m <= zlen (dx_desc x) -> dx_chaining x = false -> dx_second_buf x = false ->
  (forall k, 0 <= k < dx_desc_size x + Z.of_nat m -> plat_is_page_aligned (desc_ptr desc (k + 1)) = false) ->
  exists ds size second, idmac_add fuel desc s e x =
    Some (true, mkDx (dx_status x) false second (dx_block_addr x) (take (Z.to_nat (dx_desc_size x)) (dx_desc x) ++ ds ++ drop (Z.to_nat (dx_desc_size x) + length ds) (dx_desc x)) size (dx_bytes x + (e - s))) /\
    descs_hold (dx_desc_size x =? 0) (split_range 4096 n s e) ds /\ size + (if second : bool then 1 else 0) = dx_desc_size x + zlen ds.
Proof.
  induction m as [| m IH]; intros fuel n desc s e x Hm Hf Hn Hs He Hk Hroom Hc H2 Hp; (destruct (Z_le_gt_dec e s) as [Hle | Hgt]; [| try lia]).
  1-2: assert (s = e) as -> by lia; rewrite idmac_add_done by lia; exists [], (dx_desc_size x), false; destruct x as [st ch sb ba descs sz by_]; cbn in *; subst ch sb; rewrite Nat.add_0_r, take_drop, Z.sub_diag, !Z.add_0_r;
    split; [done |]; split; [| done]; destruct n; cbn; rewrite ?Z.ltb_irrefl; constructor.
  destruct fuel as [| fuel]; [lia |]. destruct n as [| n]; [lia |]. set (k := dx_desc_size x) in *.
  destruct (lookup_lt_is_Some_2 (dx_desc x) (Z.to_nat k)) as [d Hd]; [lia |].
  rewrite (idmac_add_step fuel desc s e x d) by (try done; try lia; apply Hp; lia). rewrite H2. fold k. cbn [split_range]. rewrite (proj2 (Z.ltb_lt s e)) by lia. cbv zeta.
  destruct (Z_le_gt_dec (e - s) 4096) as [Hone | Htwo].
  - rewrite Z.min_r by lia. replace (s + (e - s)) with e by lia. rewrite idmac_add_done by lia. exists [mkIdmac (desc_flags (k =? 0)) (e - s) s (des_ptr2 d)], k, true.
    split; [| split; [| cbn; lia]].
    + do 3 f_equal. cbn [length]. rewrite <- (take_drop_middle _ _ _ (list_lookup_insert_eq (dx_desc x) (Z.to_nat k) _ ltac:(lia))). rewrite take_insert_ge, drop_insert_lt by lia. cbn [app]. by rewrite Nat.add_1_r.
    + assert (split_range 4096 n e e = []) as -> by (destruct n; cbn; rewrite ?Z.ltb_irrefl; done). constructor.
  - rewrite Z.min_l by lia. destruct fuel as [| fuel]; [lia |]. destruct n as [| n]; [lia |]. set (x1 := mkDx _ _ _ _ _ _ _).
    rewrite (idmac_add_step fuel desc (s + 4096) e x1 (mkIdmac (desc_flags (k =? 0)) 4096 s (des_ptr2 d)));
      [| lia | lia | lia | cbn; rewrite length_insert; lia | done | cbn; apply list_lookup_insert_eq; lia | done | apply Hp; cbn; lia].
    cbn [x1 dx_second_buf dx_status dx_block_addr dx_desc dx_desc_size dx_bytes des_sizes des_ptr1]. rewrite list_insert_insert_eq.
    cbn [split_range]. rewrite (proj2 (Z.ltb_lt (s + 4096) e)) by lia. cbv zeta. set (len := Z.min 4096 (e - (s + 4096))). set (d2 := mkIdmac _ _ _ _).
    set (x2 := mkDx _ _ _ _ _ _ _). destruct (IH fuel n desc (s + 4096 + len) e x2) as (ds & size & second & -> & Hh & Hsz);
      [lia | lia | lia | lia | lia | cbn; lia | cbn; rewrite length_insert; lia | done | done | intros j Hj; apply Hp; cbn in Hj; lia |].
    exists (d2 :: ds), size, second. cbn [x2 dx_status dx_block_addr dx_desc dx_desc_size dx_bytes] in *. split; [| split; [| cbn [length]; lia]].
    + do 2 f_equal. rewrite Z2Nat.inj_add by lia. change (Z.to_nat 1) with 1%nat. rewrite (Nat.add_1_r (Z.to_nat k)). rewrite (take_S_r _ _ d2) by (apply list_lookup_insert_eq; lia).
      rewrite take_insert_ge, drop_insert_lt by lia. rewrite <- app_assoc. cbn [app length]. rewrite Nat.add_succ_comm. f_equal. lia.
    + rewrite (proj2 (Z.eqb_neq (k + 1) 0)) in Hh by lia. constructor. done.
Qed.

(** What the controller reads from the sizes. *)
Lemma sizes_pair l1 l2 : 0 <= l1 < 2 ^ 13 -> 0 <= l2 < 2 ^ 13 -> Z.land (Z.lor l1 (Z.shiftl l2 13)) 0x1fff = l1 /\ Z.land (Z.shiftr (Z.lor l1 (Z.shiftl l2 13)) 13) 0x1fff = l2.
Proof.
  intros H1 H2. change 0x1fff with (Z.ones 13). rewrite !Z.land_ones by lia. rewrite lor_shiftl_add by lia. split.
  - rewrite Z.mod_add by lia. apply Z.mod_small. lia.
  - rewrite Z.shiftr_div_pow2, Z.div_add by lia. rewrite (Z.div_small l1), Z.add_0_l by lia. apply Z.mod_small. lia.
Qed.

(** The controller finds the buffers, if the last descriptor is marked and all of
    them are its own. *)
Lemma idmac_buffers_hold first bufs ds : descs_hold first bufs ds -> first = false -> bufs <> [] -> Forall (fun b : Z * Z => 0 < b.2 <= 4096) bufs ->
  forall fuel base pre post, (length ds <= fuel)%nat -> idmac_buffers fuel (pre ++ alter (set_control mark_last) (Nat.pred (length ds)) ds ++ post) base (length pre) = Some bufs.
Proof.
  induction 1 as [first | first a l p | first a1 l1 a2 l2 bufs ds Hh IH]; intros Hfirst Hne Hall fuel base pre post Hf; [done | |].
  - subst first. destruct fuel as [| fuel]; [cbn in Hf; lia |]. cbn [idmac_buffers length Nat.pred alter list_alter]. rewrite lookup_app_r, Nat.sub_diag by lia. cbn.
    inversion Hall as [| ? ? Hl]; subst. cbn in Hl. destruct (sizes_pair l 0) as [E1 E2]; [lia | lia |]. rewrite Z.shiftl_0_l, Z.lor_0_r in E1, E2. rewrite E1, E2. done.
  - subst first. destruct fuel as [| fuel]; [cbn in Hf; lia |]. inversion Hall as [| ? ? Hl1 Hall1]; subst. inversion Hall1 as [| ? ? Hl2 Hall2]; subst. cbn [snd] in Hl1, Hl2.
    destruct (sizes_pair l1 l2) as [E1 E2]; [lia | lia |]. destruct ds as [| d ds].
    + inversion Hh; subst. cbn [idmac_buffers length Nat.pred alter list_alter]. rewrite lookup_app_r, Nat.sub_diag by lia. cbn [lookup list_lookup app mbind option_bind set_control des_control des_sizes des_ptr1 des_ptr2].
      rewrite E1, E2, (proj2 (Z.eqb_neq l2 0)) by lia. done.
    + assert (bufs <> []) as Hbne by (intros ->; inversion Hh). change (Nat.pred (length (_ :: d :: ds))) with (S (Nat.pred (length (d :: ds)))).
      change (alter (set_control mark_last) (S ?i) (?h :: ?t)) with (h :: alter (set_control mark_last) i t). cbn [idmac_buffers]. rewrite lookup_app_r, Nat.sub_diag by lia.
      cbn [lookup list_lookup app mbind option_bind des_control des_sizes des_ptr1 des_ptr2]. rewrite E1, E2, (proj2 (Z.eqb_neq l2 0)) by lia.
      change (Z.testbit (desc_flags false) 31) with true. change (Z.testbit (desc_flags false) 4) with false. change (Z.testbit (desc_flags false) 2) with false. cbn [negb orb].
      set (h := mkIdmac _ _ _ _). replace (pre ++ h :: alter (set_control mark_last) (Nat.pred (length (d :: ds))) (d :: ds) ++ post)
        with ((pre ++ [h]) ++ alter (set_control mark_last) (Nat.pred (length (d :: ds))) (d :: ds) ++ post) by (by rewrite <- app_assoc).
      replace (S (length pre)) with (length (pre ++ [h])) by (rewrite length_app; cbn; lia). rewrite (IH eq_refl Hbne Hall2 fuel base (pre ++ [h]) post) by (cbn in Hf |- *; lia). done.
Qed.

Lemma idmac_buffers_marked bufs ds rest fuel base : descs_hold true bufs ds -> bufs <> [] -> Forall (fun b : Z * Z => 0 < b.2 <= 4096) bufs -> (length ds <= fuel)%nat ->
  idmac_buffers fuel (alter (set_control mark_own) 0%nat (alter (set_control mark_last) (Nat.pred (length ds)) (ds ++ rest))) base 0 = Some bufs.
Proof.
  intros Hh Hne Hall Hf. destruct fuel as [| fuel]; [inversion Hh; subst; cbn in Hf; (done || lia) |]. inversion Hh as [| ? a l p | ? a1 l1 a2 l2 bufs' ds' Hh']; subst; [done | |].
  - inversion Hall as [| ? ? Hl]; subst. cbn in Hl. destruct (sizes_pair l 0) as [E1 E2]; [lia | lia |]. rewrite Z.shiftl_0_l, Z.lor_0_r in E1, E2.
    cbn [idmac_buffers length Nat.pred alter list_alter app lookup list_lookup mbind option_bind set_control des_control des_sizes des_ptr1 des_ptr2]. rewrite E1, E2. done.
  - inversion Hall as [| ? ? Hl1 Hall1]; subst. inversion Hall1 as [| ? ? Hl2 Hall2]; subst. cbn [snd] in Hl1, Hl2. destruct (sizes_pair l1 l2) as [E1 E2]; [lia | lia |]. destruct ds' as [| d ds].
    + inversion Hh'; subst. cbn [idmac_buffers length Nat.pred alter list_alter app lookup list_lookup mbind option_bind set_control des_control des_sizes des_ptr1 des_ptr2]. rewrite E1, E2, (proj2 (Z.eqb_neq l2 0)) by lia. done.
    + assert (bufs' <> []) as Hbne by (intros ->; inversion Hh'). change (Nat.pred (length (_ :: d :: ds))) with (S (Nat.pred (length (d :: ds)))). set (h := mkIdmac _ _ _ _).
      change (alter (set_control mark_own) 0%nat (alter (set_control mark_last) (S ?i) ((h :: d :: ds) ++ rest))) with (set_control mark_own h :: alter (set_control mark_last) i ((d :: ds) ++ rest)).
      rewrite alter_app_l by (cbn; lia). cbn [idmac_buffers lookup list_lookup mbind option_bind]. cbn [set_control des_control des_sizes des_ptr1 des_ptr2].
      change (des_control h) with (desc_flags true). change (des_sizes h) with (Z.lor l1 (Z.shiftl l2 13)). change (des_ptr1 h) with a1. change (des_ptr2 h) with a2. rewrite E1, E2, (proj2 (Z.eqb_neq l2 0)) by lia.
      change (Z.testbit (mark_own (desc_flags true)) 31) with true. change (Z.testbit (mark_own (desc_flags true)) 4) with false. change (Z.testbit (mark_own (desc_flags true)) 2) with false. cbn [negb orb].
      pose proof (idmac_buffers_hold false bufs' (d :: ds) Hh' eq_refl Hbne Hall2 fuel base [set_control mark_own h] rest ltac:(cbn in Hf |- *; lia)) as IH. cbn [length app] in IH.
      cbn [length Nat.pred] in *. rewrite IH. done.
Qed.

(** ** The interface of the block device *)
Section Sd.
Context (card : Z -> Z) (desc_addr : Z) (spurious : nat -> list bool) (polls : nat -> list (Z * Z)) (early : nat -> Z -> Z) (irqs : nat -> list dw_event).

(** [None]: the driver stopped or waits forever; nothing is run after that. *)
Definition dw_lift {R} (stopped : R) (f : dw_machine -> option (R * dw_machine)) (x : option dw_machine) : R * option dw_machine :=
  match x with
  | Some m => match f m with Some (r, m) => (r, Some m) | None => (stopped, None) end
  | None => (stopped, None)
  end.
Definition dw_count (m : dw_machine) : dw_machine :=
  mkDm (dm_xfer m) (dm_active m) (dm_int_st m) (dm_idmac_st m) (dm_desc_list_base m) (dm_blksiz m) (dm_bytcnt m) (dm_cmdarg m) (dm_cmd m) (dm_mem m) (S (dm_requests m)).

(** [wait_xfer] and [pump] of [blk_sd.c] call the driver this way.  A request that was
    submitted is in flight; [early] are the bytes in its buffers at first. *)
Definition sd_ctl : controller (option dw_machine) := {|
  ctl_wait := dw_lift IOST_GLOBAL (fun m => dwmmc_wait_xfer card desc_addr (irqs (dm_requests m)) m);
  ctl_begin lba := dw_lift IOST_GLOBAL (fun m => '(r, x) ← dwmmc_start_request (spurious (dm_requests m)) lba (dm_xfer m); Some (r, set_dx x m));
  ctl_add s e := dw_lift false (fun m => '(ok, x) ← dwmmc_add_phys_buffer desc_addr (plat_virt_to_phys s) (plat_virt_to_phys e) (dm_xfer m); Some (ok, set_dx x m));
  ctl_go lba := dw_lift IOST_GLOBAL (fun m =>
    '(r, m) ← dwmmc_start_xfer desc_addr polls (dw_count m);
    Some (r, if r =? IOST_OK then dw_transfer (early (dm_requests m)) desc_addr m else m));
|}.

(** The errors that an interrupt can report. *)
Definition ev_error (i : dw_event) : bool := negb (Z.land (ev_rintsts i) DWMMC_ERROR_INT_MASK =? 0).
Definition ev_abnormal (i : dw_event) : bool := negb (Z.land (ev_idmac_st i) DWMMC_IDMAC_INTMASK_ABNORMAL =? 0).
(** The data path is at work: its state machine (bit 10 of the status register), or the
    transfer engine, whose state is neither idle (0) nor suspended (1). *)
Definition ev_working (i : dw_event) : bool := Z.testbit (ev_status i) 10 || (2 <=? (ev_idmac_st i / 2 ^ 13) mod 16).
(** The reports that belong to a request up to its end: of the command (bit 2), of the
    data (bit 3), and of no error, with the card not busy at the end (bit 9 of the
    status register). *)
Fixpoint reported (seen : Z) (evs : list dw_event) : bool :=
  match evs with
  | [] => false
  | i :: evs =>
      let seen := Z.lor seen (ev_rintsts i) in
      if ev_error i || ev_abnormal i then false
      else if ev_working i then reported seen evs
      else Z.testbit seen 2 && Z.testbit seen 3 && negb (Z.testbit (ev_status i) 9)
  end.

(** What the hardware does in the end: a command is accepted or the time is up; a
    transfer ends or fails, and the data path is at work until the controller is done.
    The descriptors are those of [blk_sd.c], a page of them; [spurious] has an answer
    for each exchange. *)
Record sd_hardware : Prop := {
  dw_spurious n : (2 <= length (spurious n))%nat;
  dw_polls n : Exists (fun p : Z * Z => Z.testbit p.1 31 = false \/ 10000 * 24 < p.2) (polls n);
  dw_irqs n : Exists (fun i => ev_working i = false \/ ev_error i = true) (irqs n);
  dw_done n : Forall (fun i => ev_working i = false -> ev_error i = false -> ev_abnormal i = false -> ev_done i = true) (irqs n);
  dw_desc_addr : 0 <= desc_addr < 2 ^ 32 /\ desc_addr mod 4096 = 0;
}.
(** A fault: a command is not accepted in time, or the reports of a request are not
    those of a transfer without an error. *)
Definition sd_fault : Prop := exists n, Exists (fun p : Z * Z => 10000 * 24 < p.2) (polls n) \/ reported 0 (irqs n) = false.
(** The first exchange of a request fails although the status is the expected one. *)
Definition sd_spurious : Prop := exists n, head (spurious n) = Some true.
Context (Hhw : sd_hardware).

(** The reports of the last request are complete. *)
Definition dw_ready (m : dw_machine) : Prop :=
  Z.land (dm_int_st m) DWMMC_ERROR_INT_MASK = 0 /\ Z.testbit (dm_int_st m) 2 = true /\ Z.testbit (dm_int_st m) 3 = true /\ Z.testbit (dm_int_st m) 16 = true /\
  Z.land (dm_idmac_st m) DWMMC_IDMAC_INTMASK_ABNORMAL = 0.
Definition dw_idle (m : dw_machine) : Prop :=
  dx_status (dm_xfer m) = IOST_OK /\ dm_active m = false /\ length (dx_desc (dm_xfer m)) = 256%nat /\ dx_chaining (dm_xfer m) = false /\ (sd_fault \/ dw_ready m).
(** Both sides agree on the request. *)
Definition dw_busy (m : dw_machine) (lba s e : Z) : Prop :=
  dx_status (dm_xfer m) = DWMMC_SUBMITTED /\ dm_active m = true /\ length (dx_desc (dm_xfer m)) = 256%nat /\ dx_chaining (dm_xfer m) = false /\
  (forall bytes mem a, write_segments bytes (512 * dm_cmdarg m) (dw_segments desc_addr m) mem a = read_into bytes mem lba s e a) /\
  (sd_fault \/ Z.land (dm_int_st m) DWMMC_ERROR_INT_MASK = 0 /\ Z.land (dm_idmac_st m) DWMMC_IDMAC_INTMASK_ABNORMAL = 0).

Lemma accepted_bit x : (Z.land x DWMMC_CMD_START =? 0) = negb (Z.testbit x 31).
Proof. rewrite <- (flag_bit x 31 ltac:(lia)). symmetry. apply negb_involutive. Qed.
Lemma wait_accepted_returns ps : Exists (fun p : Z * Z => Z.testbit p.1 31 = false \/ 10000 * 24 < p.2) ps ->
  exists r, wait_accepted ps = Some r /\ 0 <= r /\ (r <> IOST_OK -> Exists (fun p : Z * Z => 10000 * 24 < p.2) ps).
Proof.
  intros Hex. induction Hex as [[p t] ps Hp | [p t] ps _ (r & IH & Hr & Hbad)]; cbn [wait_accepted]; rewrite accepted_bit.
  - destruct (Z.testbit p 31) eqn:Hb; cbn [negb]; [| by eexists]. destruct Hp as [Hp | Hp]; cbn [fst snd] in Hp; [congruence |]. destruct (Z.ltb_spec (10000 * 24) t); [| lia]. eexists. split; [done |]. split; [done |]. intros _. by constructor.
  - destruct (Z.testbit p 31); cbn [negb]; [| by eexists]. destruct (Z.ltb_spec (10000 * 24) t); eexists; (split; [done |]); (split; [done |]); [intros _; by constructor | intros Hne; by apply Exists_cons_tl, Hbad].
Qed.
Lemma land_land_zero x a mask : Z.land x mask = 0 -> Z.land (Z.land x a) mask = 0.
Proof. intros H. by rewrite <- Z.land_assoc, (Z.land_comm a), Z.land_assoc, H, Z.land_0_l. Qed.
(** The mask of the reports that a command with data waits for. *)
Lemma ready_mask x : Z.testbit x 2 = true -> Z.testbit x 3 = true -> Z.testbit x 16 = true -> Z.land x 0x1000c = 0x1000c.
Proof.
  intros H2 H3 H16. apply Z.bits_inj'. intros k Hk. rewrite Z.land_spec. destruct (Z.testbit 0x1000c k) eqn:Hb; [| apply andb_false_r]. rewrite andb_true_r.
  destruct (Z.le_gt_cases k 16) as [Hle | Hgt]; [| by rewrite (Z.bits_above_log2 0x1000c k) in Hb by (done || (change (Z.log2 0x1000c) with 16; lia))].
  assert (k = 2 \/ k = 3 \/ k = 16) as [-> | [-> | ->]]; [| done | done | done].
  assert (forallb (fun k => implb (Z.testbit 0x1000c k) ((k =? 2) || (k =? 3) || (k =? 16))) (seqZ 0 17) = true) as H by (vm_compute; reflexivity).
  rewrite forallb_forall in H. specialize (H k). rewrite Hb in H. cbn [implb] in H. specialize (H ltac:(apply list_elem_of_In, elem_of_seqZ; lia)). lia.
Qed.
Lemma wait_cmd_returns ps cmd m : Exists (fun p : Z * Z => Z.testbit p.1 31 = false \/ 10000 * 24 < p.2) ps -> Z.land cmd DWMMC_CMD_SYNC_DATA <> 0 -> Z.land cmd DWMMC_CMD_DATA_EXPECTED <> 0 ->
  exists r m', dwmmc_wait_cmd ps cmd m = Some (r, m') /\ 0 <= r /\ (r <> IOST_OK -> dw_ready m -> Exists (fun p : Z * Z => 10000 * 24 < p.2) ps) /\
    (r = IOST_OK -> exists int_st, (Z.land (dm_int_st m) DWMMC_ERROR_INT_MASK = 0 -> Z.land int_st DWMMC_ERROR_INT_MASK = 0) /\
       m' = mkDm (dm_xfer m) (dm_active m) int_st (dm_idmac_st m) (dm_desc_list_base m) (dm_blksiz m) (dm_bytcnt m) (dm_cmdarg m) cmd (dm_mem m) (dm_requests m)).
Proof.
  intros Hex Hs Hd. destruct (wait_accepted_returns ps Hex) as (r & Hw & Hr & Hbad). unfold dwmmc_wait_cmd. rewrite (proj2 (Z.eqb_neq _ _) Hs), (proj2 (Z.eqb_neq _ _) Hd). cbn [negb].
  destruct (Z.eqb_spec (Z.land (dm_int_st m) DWMMC_ERROR_INT_MASK) 0) as [He | He]; cbn [negb]; [| by eexists _, _; do 2 (split; [done |]); split; [intros _ (? & _) |]].
  change (Z.lor DWMMC_INT_CMD_DONE _) with 0x1000c. destruct (Z.eqb_spec (Z.land (dm_int_st m) 0x1000c) 0x1000c) as [Hm | Hm]; cbn [negb].
  2: { eexists _, _. do 2 (split; [done |]). split; [| done]. intros _ (_ & B2 & B3 & B16 & _). by destruct Hm; apply ready_mask. }
  rewrite Hw. cbn [mbind option_bind]. eexists _, _. split; [done |]. split; [done |]. split; [by auto |]. intros _. eexists. split; [| done].
  intros _. by do 2 apply land_land_zero.
Qed.

(** The status of an idle transfer is claimed. *)
Lemma claim_idle b rest : claim_status (false :: b :: rest) IOST_OK IOST_OK = Some (Some DWMMC_CREATING).
Proof. cbn. by rewrite orb_true_r. Qed.
(** A spurious failure of the exchange ends the loop of [dwmmc_start_request] without
    a claim, and the next operation fails its assertion. *)
Lemma spurious_failure_stops x desc lba s e rest : 0 <= dx_status x < 5 ->
  exists x', dwmmc_start_request (true :: rest) lba x = Some (IOST_OK, x') /\ dwmmc_add_phys_buffer desc s e x' = None.
Proof.
  intros Hs. unfold dwmmc_start_request. cbn [claim_status]. unfold DWMMC_SUBMITTED. rewrite (proj2 (Z.eqb_neq (dx_status x) 6)) by lia. cbn. eexists. split; [done |].
  unfold dwmmc_add_phys_buffer, DWMMC_CREATING. cbn [dx_status]. by rewrite (proj2 (Z.eqb_neq (dx_status x) 5)) by lia.
Qed.

Lemma descs_hold_nil first bufs : descs_hold first bufs [] -> bufs = [].
Proof. by inversion 1. Qed.
Lemma descs_hold_length first bufs ds : descs_hold first bufs ds -> (length ds <= length bufs)%nat.
Proof. induction 1; cbn; lia. Qed.

(** The request is made as the controller expects it. *)
Lemma dw_request m lba s e : dw_idle m -> request_fits SD_REQUEST_SIZE lba s e -> head (spurious (dm_requests m)) = Some false ->
  exists x1 x2 r m3, dwmmc_start_request (spurious (dm_requests m)) lba (dm_xfer m) = Some (IOST_OK, x1) /\
    dwmmc_add_phys_buffer desc_addr (plat_virt_to_phys s) (plat_virt_to_phys e) x1 = Some (true, x2) /\
    dwmmc_start_xfer desc_addr polls (dw_count (set_dx x2 m)) = Some (r, m3) /\ 0 <= r /\ (r <> IOST_OK -> sd_fault) /\ (r = IOST_OK -> dw_busy m3 lba s e /\ dm_mem m3 = dm_mem m).
Proof.
  intros (Hst & Hact & Hlen & Hch & Hready) [R1 R2 R3] Hsp. change SD_REQUEST_SIZE with (2 ^ 19) in R1. pose proof (dw_desc_addr Hhw) as Hda.
  destruct m as [[st ch sb ba descs sz by_] act ints idm dlb blk byt arg cmd mem reqs]. cbn in Hst, Hact, Hlen, Hch. subst st act ch.
  unfold plat_virt_to_phys. destruct (Z.leb_spec 0xffe00000 s); [lia |]. destruct (Z.leb_spec 0xffe00000 e); [lia |]. rewrite !u32_small by lia.
  pose proof (dw_spurious Hhw reqs) as Hl2. unfold dwmmc_start_request. cbn [dm_xfer dm_requests dx_status dx_chaining dx_desc] in *. destruct (spurious reqs) as [| sp [| b rest]]; [done | cbn in Hl2; lia |]. injection Hsp as ->. rewrite claim_idle. cbn [mbind option_bind].
  set (x1 := mkDx DWMMC_CREATING false false lba descs 0 0). set (n := S (Z.to_nat ((e - s) / 4096))). assert (e - s <= Z.of_nat n * 4096 /\ Z.of_nat n <= 129) as [Hn1 Hn2] by (subst n; dlia).
  destruct (idmac_add_spec 64 n n desc_addr s e x1) as (ds & size & second & Hadd & Hhold & Hsize); try done; try lia; [cbn; rewrite Hlen; lia | |].
  { intros k Hk. cbn in Hk. unfold plat_is_page_aligned, desc_ptr. apply Z.eqb_neq. change (Z.shiftl 1 PLAT_PAGE_SHIFT) with 4096. dlia. }
  cbn [x1 dx_desc_size dx_desc dx_status dx_block_addr dx_bytes] in Hadd, Hhold, Hsize. rewrite Z2Nat.inj_0, take_0, !Z.add_0_l in *. cbn [app Nat.add] in Hadd.
  assert (split_range 4096 n s e <> []) as Hne by (subst n; cbn [split_range]; rewrite (proj2 (Z.ltb_lt s e)) by lia; done).
  assert (ds <> []) as Hdne by (by intros ->; apply Hne, (descs_hold_nil _ _ Hhold)). assert (length ds <> 0%nat) as Hdl by (by destruct ds).
  pose proof (descs_hold_length _ _ _ Hhold) as Hdm. pose proof (split_range_length 4096 n s e) as Hsl.
  set (x2 := mkDx DWMMC_CREATING false second lba (ds ++ drop (length ds) descs) size (e - s)).
  assert (dwmmc_add_phys_buffer desc_addr s e x1 = Some (true, x2)) as Hphys.
  { unfold dwmmc_add_phys_buffer. cbn [x1 dx_status]. rewrite Z.eqb_refl. cbn [negb]. change 3 with (Z.ones 2). rewrite !Z.land_ones by lia. change (2 ^ 2) with 4.
    assert (s mod 4 = 0 /\ e mod 4 = 0) as [-> ->] by (split; dlia). cbn [Z.eqb negb orb]. exact Hadd. }
  exists x1, x2. unfold dwmmc_start_xfer. cbn [dw_count set_dx dm_xfer dm_active dm_requests x2 dx_bytes dx_desc_size dx_second_buf dx_status dx_desc dx_block_addr dx_chaining dm_int_st dm_idmac_st dm_cmd dm_mem].
  rewrite (proj2 (Z.eqb_neq (e - s) 0)) by lia. assert ((size =? 0) && negb second = false) as -> by (destruct second, (Z.eqb_spec size 0); cbn; (done || lia)). cbn [orb].
  rewrite Z.eqb_refl. assert ((e - s) mod 512 = 0) as -> by lia. cbn [Z.eqb negb].
  set (m0 := mkDm _ _ _ _ _ _ _ _ _ _ _). destruct (wait_cmd_returns (polls (S reqs)) (Z.lor (Z.lor (Z.lor (Z.lor 18 DWMMC_R1) DWMMC_CMD_AUTO_STOP) DWMMC_CMD_DATA_EXPECTED) sd_cmd_template) m0 (dw_polls Hhw _)) as (r & m3 & Hw & Hr & Hbad & Hok); [done | done |].
  exists r, m3. do 4 (split; [done |]). split; [intros Hne0; destruct Hready as [Hf | Hready]; [done |]; eexists; left; by apply Hbad |].
  intros Hr0. destruct (Hok Hr0) as (ist & Hist & ->). split; [| done].
  unfold dw_busy. cbn [m0 dm_xfer dx_status dm_active dx_desc dx_chaining dm_mem]. split_and!; try done.
  - rewrite !length_alter, length_app, length_drop. lia.
  - intros bytes mem' a. unfold dw_segments. cbn [dm_cmd dm_blksiz dm_desc_list_base m0 dm_xfer dx_desc dm_bytcnt dm_cmdarg dm_mem dx_bytes dx_block_addr].
    change (_ =? 0xa0003352) with true. change (512 =? 512) with true. rewrite u32_small, Z.eqb_refl by lia. cbn [andb].
    assert (Z.to_nat (size + (if second then 1 else 0) - 1) = Nat.pred (length ds)) as -> by lia.
    rewrite (idmac_buffers_marked (split_range 4096 n s e)); [| done | done | by apply split_range_len | rewrite !length_alter, length_app; lia].
    rewrite split_range_size by lia. rewrite u32_small, Z.eqb_refl by lia. rewrite write_split by lia. unfold read_into. by rewrite (Z.mul_comm 512 lba).
  - destruct Hready as [Hf | (B1 & _ & _ & _ & B5)]; [by left | right]. split; [by apply Hist | exact B5].
Qed.

(** The buffers of a request in flight can be written to. *)
Lemma dw_busy_transfer bytes m lba s e : dw_busy m lba s e -> dw_busy (dw_transfer bytes desc_addr m) lba s e /\ forall a, dm_mem (dw_transfer bytes desc_addr m) a = read_into bytes (dm_mem m) lba s e a.
Proof. intros Hb. split; [exact Hb |]. destruct Hb as (_ & _ & _ & _ & H5 & _). intros a. apply H5. Qed.

(** The state of the transfer engine is that of the last interrupt. *)
Lemma idle_acc old i status : data_idle (Z.lor (Z.land old (Z.lnot DWMMC_IDMAC_FSM_MASK)) i) status = data_idle i status.
Proof.
  unfold data_idle. f_equal. f_equal. apply Z.bits_inj'. intros k Hk. rewrite !Z.land_spec, !Z.shiftr_spec, Z.lor_spec, Z.land_spec, Z.lnot_spec by lia. change 15 with (Z.ones 4). rewrite Z.testbit_ones by lia.
  destruct (Z.leb_spec 0 k), (Z.ltb_spec k 4); cbn [andb]; rewrite ?andb_false_r; try done. rewrite !andb_true_r.
  assert (Z.testbit DWMMC_IDMAC_FSM_MASK (k + 13) = true) as -> by (assert (k = 0 \/ k = 1 \/ k = 2 \/ k = 3) as [-> | [-> | [-> | ->]]] by lia; done). by rewrite andb_false_r.
Qed.
Lemma land_lor_zero a b mask : Z.land (Z.lor a b) mask = 0 -> Z.land a mask = 0 /\ Z.land b mask = 0.
Proof. rewrite Z.land_lor_distr_l. by intros H%Z.lor_eq_0_iff. Qed.

Lemma land_pow2_zero x k : 0 <= k -> Z.testbit x k = false -> Z.land x (2 ^ k) = 0.
Proof. intros Hk H. rewrite <- flag_bit in H by done. unfold flag in H. destruct (Z.eqb_spec (Z.land x (2 ^ k)) 0); [done | discriminate]. Qed.
(** The driver's test for an idle data path. *)
Lemma data_idle_working i : data_idle (ev_idmac_st i) (ev_status i) = negb (ev_working i).
Proof.
  unfold data_idle, ev_working. rewrite negb_orb, andb_comm. f_equal.
  - rewrite <- (flag_bit _ 10 ltac:(lia)). symmetry. apply negb_involutive.
  - change 15 with (Z.ones 4). rewrite Z.land_ones, Z.shiftr_div_pow2 by lia. change (2 ^ 4) with 16. destruct (Z.ltb_spec (ev_idmac_st i / 2 ^ 13 mod 16) 2), (Z.leb_spec 2 (ev_idmac_st i / 2 ^ 13 mod 16)); (done || lia).
Qed.
(** The interrupts that the handler takes note of. *)
Definition noted (i : dw_event) : Z :=
  if Z.land (ev_status i) (Z.lor DWMMC_STATUS_DATA_BUSY DWMMC_STATUS_DATA_SM_BUSY) =? 0 then Z.lor (ev_rintsts i) DWMMC_INT_DATA_NO_BUSY else ev_rintsts i.
Lemma noted_error i : Z.land (noted i) DWMMC_ERROR_INT_MASK = Z.land (ev_rintsts i) DWMMC_ERROR_INT_MASK.
Proof. unfold noted. destruct (_ =? 0); [| done]. rewrite Z.land_lor_distr_l. change (Z.land DWMMC_INT_DATA_NO_BUSY _) with 0. apply Z.lor_0_r. Qed.
Lemma noted_bit i k : Z.testbit (ev_rintsts i) k = true -> Z.testbit (noted i) k = true.
Proof. intros H. unfold noted. destruct (_ =? 0); [| done]. by rewrite Z.lor_spec, H. Qed.
Lemma noted_no_busy i : Z.testbit (ev_status i) 9 = false -> Z.testbit (ev_status i) 10 = false -> Z.testbit (noted i) 16 = true.
Proof.
  intros H9 H10. unfold noted. rewrite Z.land_lor_distr_r. change DWMMC_STATUS_DATA_BUSY with (2 ^ 9). change DWMMC_STATUS_DATA_SM_BUSY with (2 ^ 10).
  rewrite !land_pow2_zero by (done || lia). change (Z.lor 0 0 =? 0) with true. cbv iota. rewrite Z.lor_spec. apply orb_true_r.
Qed.

(** What is known of the reports so far, if there is no fault. *)
Definition noted_so_far (F : Prop) (seen : Z) (m : dw_machine) : Prop :=
  F \/ Z.land (dm_int_st m) DWMMC_ERROR_INT_MASK = 0 /\ Z.land (dm_idmac_st m) DWMMC_IDMAC_INTMASK_ABNORMAL = 0 /\
    (Z.testbit seen 2 = true -> Z.testbit (dm_int_st m) 2 = true) /\ (Z.testbit seen 3 = true -> Z.testbit (dm_int_st m) 3 = true).
Definition note (i : dw_event) (m : dw_machine) : dw_machine :=
  mkDm (dm_xfer m) (dm_active m) (Z.lor (dm_int_st m) (noted i)) (Z.lor (Z.land (dm_idmac_st m) (Z.lnot DWMMC_IDMAC_FSM_MASK)) (ev_idmac_st i))
    (dm_desc_list_base m) (dm_blksiz m) (dm_bytcnt m) (dm_cmdarg m) (dm_cmd m) (dm_mem m) (dm_requests m).
Lemma noted_step F seen i m : noted_so_far F seen m -> (ev_error i || ev_abnormal i = true -> F) -> noted_so_far F (Z.lor seen (ev_rintsts i)) (note i m).
Proof.
  intros [HF | (H1 & H2 & H3 & H4)] Hi; [by left |]. destruct (ev_error i || ev_abnormal i) eqn:Hb; [by left; auto | right]. apply orb_false_iff in Hb as [E1%negb_false_iff%Z.eqb_eq E2%negb_false_iff%Z.eqb_eq].
  cbn [note dm_int_st dm_idmac_st]. rewrite !Z.land_lor_distr_l, H1, noted_error, E1, (land_land_zero _ _ _ H2), E2. split_and!; try done; rewrite !Z.lor_spec; intros [H | H]%orb_true_iff; apply orb_true_iff; [left; auto | right; by apply noted_bit | left; auto | right; by apply noted_bit].
Qed.

(** The handler ends a transfer when the data path is idle or an error is noted. *)
Lemma dwmmc_irq_note i m : dm_active m = true ->
  let m1 := note i m in
  dwmmc_irq (ev_rintsts i) (ev_idmac_st i) (ev_status i) m =
  if negb (ev_working i) || negb (Z.land (dm_int_st m1) DWMMC_ERROR_INT_MASK =? 0) then
    let st := if negb (Z.land (dm_int_st m1) DWMMC_ERROR_INT_MASK =? 0) || negb (Z.land (dm_idmac_st m1) DWMMC_IDMAC_INTMASK_ABNORMAL =? 0) then IOST_GLOBAL else IOST_OK in
    let x := dm_xfer m in
    mkDm (mkDx st (dx_chaining x) (dx_second_buf x) (dx_block_addr x) (dx_desc x) (dx_desc_size x) (dx_bytes x)) false (dm_int_st m1) (dm_idmac_st m1)
      (dm_desc_list_base m) (dm_blksiz m) (dm_bytcnt m) (dm_cmdarg m) (dm_cmd m) (dm_mem m) (dm_requests m)
  else m1.
Proof.
  intros Hact. unfold dwmmc_irq. cbn [dm_active dm_xfer dm_int_st dm_idmac_st dm_desc_list_base dm_blksiz dm_bytcnt dm_cmdarg dm_cmd dm_mem dm_requests]. rewrite idle_acc, data_idle_working, Hact. fold (noted i).
  rewrite (Z.lor_comm (noted i)). unfold note. by rewrite Hact.
Qed.

(** The wait ends with the interrupt that ends the transfer. *)
Lemma dw_wait evs : forall seen m lba s e, Exists (fun i => ev_working i = false \/ ev_error i = true) evs ->
  Forall (fun i => ev_working i = false -> ev_error i = false -> ev_abnormal i = false -> ev_done i = true) evs ->
  (reported seen evs = false -> sd_fault) -> noted_so_far sd_fault seen m -> dw_busy m lba s e ->
  exists r m', dwmmc_wait_xfer card desc_addr evs m = Some (r, m') /\ 0 <= r /\ (r <> IOST_OK -> sd_fault) /\
    (r = IOST_OK -> dx_status (dm_xfer m') = IOST_OK /\ dm_active m' = false /\ length (dx_desc (dm_xfer m')) = 256%nat /\ dx_chaining (dm_xfer m') = false /\ (sd_fault \/ dw_ready m') /\
      forall a, dm_mem m' a = read_into card (dm_mem m) lba s e a).
Proof.
  induction evs as [| i evs IH]; intros seen m lba s e Hex Hall Hrep Hnot Hb; [by apply Exists_nil in Hex |]. inversion Hall as [| ? ? Hdone Hall']; subst.
  cbn [dwmmc_wait_xfer]. rewrite (proj1 Hb). change (DWMMC_SUBMITTED <? 5) with false. rewrite Z.eqb_refl. cbn [negb]. unfold dw_interrupt.
  destruct (dw_busy_transfer (if ev_done i then card else ev_bytes i) m lba s e Hb) as [Hb1 Hm1]. assert (noted_so_far sd_fault seen (dw_transfer (if ev_done i then card else ev_bytes i) desc_addr m)) as Hnot1 by exact Hnot.
  set (m1 := dw_transfer _ desc_addr m) in *. clearbody m1. pose proof Hb1 as (Hst & Hact & Hlen & Hch & Htr & _). rewrite (dwmmc_irq_note i m1 Hact). cbv zeta.
  cbn [reported] in Hrep. pose proof (noted_step sd_fault seen i m1 Hnot1) as Hnot2. assert (ev_error i || ev_abnormal i = true -> sd_fault) as Hbad by (intros Hbad; apply Hrep; by rewrite Hbad). specialize (Hnot2 Hbad).
  assert (Z.land (dm_int_st (note i m1)) DWMMC_ERROR_INT_MASK = 0 -> ev_error i = false) as Herr.
  { cbn [note dm_int_st]. intros [_ H]%land_lor_zero. rewrite noted_error in H. unfold ev_error. by rewrite H. }
  assert (Z.land (dm_idmac_st (note i m1)) DWMMC_IDMAC_INTMASK_ABNORMAL = 0 -> ev_abnormal i = false) as Habn.
  { cbn [note dm_idmac_st]. intros [_ H]%land_lor_zero. unfold ev_abnormal. by rewrite H. }
  destruct (negb (ev_working i) || negb (Z.land (dm_int_st (note i m1)) DWMMC_ERROR_INT_MASK =? 0)) eqn:Hend.
  - set (m2 := mkDm _ _ _ _ _ _ _ _ _ _ _). assert (exists st, (st = IOST_OK \/ st = IOST_GLOBAL) /\ dx_status (dm_xfer m2) = st /\ (st <> IOST_OK -> sd_fault) /\ (st = IOST_OK -> (sd_fault \/ dw_ready m2) /\ ev_done i = true)) as (st & Hst1 & Hx & HF & Hok).
    { eexists. cbn [m2 dm_xfer dx_status]. split; [| split; [done |]]; destruct (Z.eqb_spec (Z.land (dm_int_st (note i m1)) DWMMC_ERROR_INT_MASK) 0) as [F1 | F1], (Z.eqb_spec (Z.land (dm_idmac_st (note i m1)) DWMMC_IDMAC_INTMASK_ABNORMAL) 0) as [F2 | F2]; cbn [negb orb]; auto.
      2-4: split; [intros _; destruct Hnot2 as [? | (? & ? & _)]; done | done].
      split; [done |]. intros _. cbn [Z.eqb negb] in Hend. rewrite orb_false_r in Hend. apply negb_true_iff in Hend. specialize (Herr F1). specialize (Habn F2). split; [| by apply Hdone].
      destruct Hnot2 as [? | (_ & _ & H2 & H3)]; [by left |]. rewrite Herr, Habn, Hend in Hrep. cbn [orb] in Hrep.
      destruct (Z.testbit (Z.lor seen (ev_rintsts i)) 2) eqn:B2; [| by left; auto]. destruct (Z.testbit (Z.lor seen (ev_rintsts i)) 3) eqn:B3; [| by left; auto]. destruct (Z.testbit (ev_status i) 9) eqn:B9; [by left; auto |]. right.
      unfold dw_ready. change (dm_int_st m2) with (dm_int_st (note i m1)). change (dm_idmac_st m2) with (dm_idmac_st (note i m1)). split_and!; auto.
      cbn [note dm_int_st]. rewrite Z.lor_spec, noted_no_busy, orb_true_r; [done | done |]. unfold ev_working in Hend. by apply orb_false_iff in Hend as [? _]. }
    exists st, m2. assert (dwmmc_wait_xfer card desc_addr evs m2 = Some (st, m2)) as -> by (destruct evs; cbn [dwmmc_wait_xfer]; rewrite Hx; by destruct Hst1 as [-> | ->]).
    split; [done |]. split; [by destruct Hst1; subst |]. split; [done |]. intros Hs0. destruct (Hok Hs0) as [Hrd Hdn]. rewrite Hdn in Hm1. split_and!; try done. by rewrite Hx.
  - apply orb_false_iff in Hend as [E1 E2]. apply negb_false_iff in E1, E2. apply Z.eqb_eq in E2. specialize (Herr E2).
    destruct (IH (Z.lor seen (ev_rintsts i)) (note i m1) lba s e) as (r & m' & Hw & Hr & HF & Hok); [| done | | done | |].
    { inversion Hex as [? ? [Hx | Hx] | ? ? Hx]; subst; congruence || done. }
    { intros Hr. destruct (ev_abnormal i); [apply Hbad; by rewrite orb_true_r |]. apply Hrep. rewrite Herr, E1. done. }
    { destruct Hnot2 as [? | (? & ? & _)]; unfold dw_busy; cbn [note dm_xfer dm_active dm_cmdarg]; split_and!; try done; (by left) || (by right). }
    exists r, m'. split; [done |]. split; [done |]. split; [done |]. intros Hr0. destruct (Hok Hr0) as (K1 & K2 & K3 & K4 & K5 & Hm). split_and!; try done. intros a. rewrite Hm.
    apply read_into_twice. intros a' Ha'. change (dm_mem (note i m1) a') with (dm_mem m1 a'). rewrite Hm1. by apply read_into_outside.
Qed.

Definition sd_mem (x : option dw_machine) : Z -> Z := match x with Some m => dm_mem m | None => fun _ => 0 end.

#[export, program] Instance sd_controller : XferController sd_ctl SD_REQUEST_SIZE card := {|
  cx_mem := sd_mem;
  cx_alive x := x <> None;
  cx_idle x := match x with Some m => dw_idle m | None => False end;
  cx_busy x lba s e := match x with Some m => dw_busy m lba s e | None => False end;
  cx_fault := sd_fault;
  cx_stops := sd_spurious;
|}.
Next Obligation.
  intros [m |]; [| done]. intros (Hst & _). cbn. destruct (irqs (dm_requests m)); cbn [dwmmc_wait_xfer]; by rewrite Hst.
Qed.
Next Obligation.
  intros [m |] lba s e; [| done]. intros Hi Hr. destruct (spurious (dm_requests m)) as [| [|] rest] eqn:Hsp.
  - pose proof (dw_spurious Hhw (dm_requests m)) as Hl. rewrite Hsp in Hl. cbn in Hl. lia.
  - left. split; [exists (dm_requests m); by rewrite Hsp |]. pose proof (proj1 Hi) as Hst.
    destruct (spurious_failure_stops (dm_xfer m) desc_addr lba (plat_virt_to_phys s) (plat_virt_to_phys e) rest) as (x' & E1 & E2); [rewrite Hst; done |].
    exists (Some (set_dx x' m)), None. cbn. rewrite Hsp, E1. cbn. by rewrite E2.
  - right. destruct (dw_request m lba s e Hi Hr) as (x1 & x2 & r & m3 & E1 & E2 & E3 & Hr3 & Hbad & Hok); [by rewrite Hsp |].
    eexists (Some (set_dx x1 m)), (Some (set_dx x2 m)), r, (Some _). cbn. rewrite E1. cbn. rewrite E2. cbn. rewrite E3. cbn. split_and!; try done; [by split; auto |].
    intros ->. destruct (Hok eq_refl) as [Hb Hm]. destruct (dw_busy_transfer (early (dm_requests m3)) m3 lba s e Hb) as [Hb' Hm']. split; [done |]. intros a Ha. rewrite Hm', read_into_outside, Hm by done. done.
Qed.
Next Obligation.
  intros [m |] lba s e; [| done]. intros Hb. pose proof Hb as (_ & _ & _ & _ & _ & Hn).
  destruct (dw_wait (irqs (dm_requests m)) 0 m lba s e (dw_irqs Hhw _) (dw_done Hhw _)) as (r & m' & E & Hr & Hbad & Hok); [intros Hf; eexists; by right | | done |].
  { destruct Hn as [? | [? ?]]; [by left | right]. by rewrite !Z.bits_0. }
  exists r, (Some m'). cbn. rewrite E. split_and!; try done; [by split; auto |]. intros Hr0. by destruct (Hok Hr0) as (K1 & K2 & K3 & K4 & K5 & Hm).
Qed.
End Sd.

(** C16: SD reads the card.  The block device [blk_sd.c] over the DesignWare driver,
    for a controller that ends each request and whose data path is at work until it is
    done (until then the buffers of a request may hold anything): after a start at
    block [lba0] and any number of pumps without an error, a pump returns without an
    endless wait.  The exchange that claims the transfer may fail spuriously: in that
    case, and only in it, the pump may end in a failed assertion.  It reports an error
    only if a command was not accepted in time or the reports of a request are not those
    of a transfer without an error; otherwise it makes at least [min_size] bytes
    available (fewer only at the end of the range), and memory from [buf] on holds the
    bytes of the card from block [lba0] on, with everything outside of what was
    requested as it was.  This includes the descriptors that the controller walks, the
    byte count, the command and the detection of the end. *)
Theorem sd_reads_card card desc_addr spurious polls early irqs (Hhw : sd_hardware desc_addr spurious polls irqs) iost_u8 buf lba0 stop mem0 d consume min_size :
  range_fits SD_REQUEST_SIZE buf lba0 stop ->
  reading (sd_ctl card desc_addr spurious polls early irqs) SD_REQUEST_SIZE card (XferController0 := sd_controller card desc_addr spurious polls early irqs Hhw) iost_u8 buf lba0 stop mem0 d ->
  0 <= consume <= end_ptr d - consume_ptr d ->
  (sd_pump (sd_ctl card desc_addr spurious polls early irqs) iost_u8 d consume min_size = Trap TrapAssert /\ sd_spurious spurious) \/
  exists d' b, sd_pump (sd_ctl card desc_addr spurious polls early irqs) iost_u8 d consume min_size = Ok (d', b) /\
    (pump_failed b = true /\ sd_fault polls irqs /\ xfer d' <> None \/
     b_start b = consume_ptr d + consume /\ b_end b = end_ptr d' /\ end_ptr d <= b_end b <= next_end_ptr d' /\ next_end_ptr d' <= stop /\ (min_size <= b_end b - b_start b \/ b_end b = stop) /\
     (forall a, buf <= a < b_end b -> sd_mem (xfer d') a = card (lba0 * 512 + (a - buf))) /\
     (forall a, a < buf \/ next_end_ptr d' <= a -> sd_mem (xfer d') a = mem0 a)).
Proof.
  intros Hrange Hr Hc. exact (pump_reads_card (sd_ctl card desc_addr spurious polls early irqs) SD_REQUEST_SIZE card iost_u8 buf lba0 stop mem0 Hrange d consume min_size Hr Hc).
Qed.

(** A card, and a controller that accepts commands at once and reports the end of a
    command, then that of the transfer, with the first bytes in memory before. *)
Definition demo_sd_card (pos : Z) : Z := pos mod 251.
Definition demo_spurious (n : nat) : list bool := [false; false].
Definition demo_sd_polls (n : nat) : list (Z * Z) := [(0, 0)].
Definition demo_sd_early (n : nat) (pos : Z) : Z := 0xaa.
Definition demo_sd_irqs (n : nat) : list dw_event :=
  [mkEvent 4 (Z.shiftl 3 13) (Z.shiftl 1 10) false (fun pos => if pos <? 4000 then demo_sd_card pos else 0x55); mkEvent 8 (Z.shiftl 2 13) 0 false demo_sd_card; mkEvent 0 2 0 true (fun _ => 0)].
Definition demo_sd : blockdev (option dw_machine) :=
  {| block_size := 512; num_blocks := 2 ^ 20; consume_ptr := 0; end_ptr := 0; next_end_ptr := 0; stop_ptr := 0; next_lba := 0;
     xfer := Some (mkDm (mkDx 0 false false 0 (replicate 256 (mkIdmac 0 0 0 0)) 0 0) false 0x1000c 0 0 0 0 0 0 (fun _ => 0) 0) |}.
Definition demo_sd_ctl := sd_ctl demo_sd_card 0x8000 demo_spurious demo_sd_polls demo_sd_early demo_sd_irqs.
Definition demo_sd_started : blockdev (option dw_machine) := (start demo_sd_ctl demo_sd 7 0x100000 0x200000).2.

Lemma sd_reads_card_witness : sd_hardware 0x8000 demo_spurious demo_sd_polls demo_sd_irqs /\
  exists d' b, sd_pump demo_sd_ctl 16 demo_sd_started 0 700000 = Ok (d', b) /\
    b_start b = 0x100000 /\ b_end b = 0x200000 /\ sd_mem (xfer d') 0x1abcde = demo_sd_card (7 * 512 + (0x1abcde - 0x100000)).
Proof.
  assert (sd_hardware 0x8000 demo_spurious demo_sd_polls demo_sd_irqs) as Hhw.
  { constructor; [intros n; cbn; lia | intros n; constructor; by left | intros n; do 2 apply Exists_cons_tl; apply Exists_cons_hd; by left | intros n; repeat constructor; by vm_compute | split; [lia | done]]. }
  split; [done |].
  destruct (sd_reads_card demo_sd_card 0x8000 demo_spurious demo_sd_polls demo_sd_early demo_sd_irqs Hhw 16 0x100000 7 0x200000 (fun _ => 0) demo_sd_started 0 700000) as [[Hp _] | (d' & b & Hp & Hb)].
  - constructor; vm_compute; split_and!; (reflexivity || discriminate).
  - apply (read_start _ _ _ _ _ _ _ _ demo_sd); [| done | done | done | done | done]. repeat (split; [reflexivity |]). right. repeat split; reflexivity.
  - by vm_compute.
  - assert (match sd_pump demo_sd_ctl 16 demo_sd_started 0 700000 with Ok (_, b) => Some b | Trap _ => None end = Some {| b_start := 0x100000; b_end := 0x200000 |}) as E by (vm_compute; reflexivity). unfold demo_sd_ctl in E. rewrite Hp in E. discriminate E.
  - exists d', b. split; [done |]. assert (match sd_pump demo_sd_ctl 16 demo_sd_started 0 700000 with Ok (_, b) => Some b | Trap _ => None end = Some {| b_start := 0x100000; b_end := 0x200000 |}) as E by (vm_compute; reflexivity). unfold demo_sd_ctl in E. rewrite Hp in E. injection E as ->. split; [reflexivity |]. split; [reflexivity |]. destruct Hb as [[Hf _] | (_ & _ & _ & _ & _ & Hd & _)]; [discriminate Hf |]. apply Hd. cbn [b_end]. lia.
Defined.

(** ** Where the driver goes wrong *)

(** A request that is claimed again never gets out of the loop. *)
Lemma claim_again_loops n x lba : dx_status x = DWMMC_CREATING -> dwmmc_start_request (replicate n false) lba x = None.
Proof.
  intros Hs. unfold dwmmc_start_request. rewrite Hs. assert (claim_status (replicate n false) DWMMC_CREATING DWMMC_CREATING = None) as -> by (induction n; done). done.
Qed.
(** With chaining, the address of the next descriptor is that of the descriptor
    itself, and the controller does not get beyond it. *)
Lemma self_chain_loops fuel descs base d : descs !! 0%nat = Some d -> Z.testbit (des_control d) 31 = true -> Z.testbit (des_control d) 4 = true -> Z.testbit (des_control d) 2 = false ->
  des_ptr2 d = base -> idmac_buffers fuel descs base 0 = None.
Proof.
  intros Hd H31 H4 H2 Hp. induction fuel as [| fuel IH]; [done |]. cbn [idmac_buffers]. rewrite Hd. cbn [mbind option_bind]. rewrite H31, H4, H2, Hp, Z.sub_diag. cbn [negb]. change (Z.to_nat (0 / 16)) with 0%nat. by rewrite IH.
Qed.
Lemma chaining_points_to_itself : match dwmmc_add_phys_buffer 0x8000 0x100000 0x102000 (mkDx DWMMC_CREATING true false 0 (replicate 4 (mkIdmac 0 0 0 0)) 0 0) with
  | Some (true, x) => alter (set_control mark_own) 0%nat (dx_desc x) !! 0%nat = Some (mkIdmac 0x8000001a 4096 0x100000 0x8000)
  | _ => False
  end.
Proof. by vm_compute. Qed.
