(* ===== verification/Memtest.v ===== *)
(** * The memory test
      ([src/sramstage/memtest.c])

    Blocks of 128 MiB are filled with a pseudo-random pattern and read back, at once
    and again at the end.  The memory under test is a parameter: writing and reading
    of words, over a state of its own.  Time stamps and messages are left out. *)
From S2P Require Import Prelude.

Open Scope Z_scope.

(** ** The pattern *)
Definition ror64 (x r : Z) : Z := Z.lor (Z.shiftr x r) (u64 (Z.shiftl x (64 - r))).

(** The variables [a0] to [d3], in order. *)
Definition var (s : list Z) (i : nat) : Z := nth i s 0.
Definition LADDER (a b c : nat) (r : Z) (s : list Z) : list Z :=
  let s := <[b := u64 (var s b + var s a)]> s in
  <[c := ror64 (Z.lxor (var s c) (var s b)) r]> s.
Definition QR (a b c d : nat) (s : list Z) : list Z :=
  LADDER d c b 7 (LADDER b a d 8 (LADDER d c b 12 (LADDER b a d 16 (LADDER d c b 24 (LADDER b a d 32 s))))).
Definition DR (s : list Z) : list Z :=
  let s := QR 12 13 14 15 (QR 8 9 10 11 (QR 4 5 6 7 (QR 0 1 2 3 s))) in
  QR 3 4 9 14 (QR 2 7 8 13 (QR 1 6 11 12 (QR 0 5 10 15 s))).

Definition memtest_row (block salt : Z) : list Z :=
  let salt1 := u32 salt in let salt2 := u32 (Z.shiftr salt 32) in
  DR (DR [0x65787062; 0x6e642033; 0x322d6279; 0x7465206b; 0x65790000; block; salt1; salt2; block; salt1; salt2; block; salt1; salt2; block; salt1]).

(** ** The test *)
Section Test.
Context {M : Type} (mem_write : Z -> Z -> M -> M) (mem_read : Z -> M -> Z * M) (flush_dcache : M -> M).

Definition BLOCK_WORDS : Z := 0x01000000.
Definition block_ptr (block : Z) : Z := u32 (Z.shiftl block 27).

(** The positions of the rows of 16 words. *)
Definition block_rows (block : Z) : list Z :=
  let first := if block =? 0 then 1 else 0 in map (Z.mul 16) (seqZ first (BLOCK_WORDS / 16 - first)).

Fixpoint store_words (addr : Z) (ws : list Z) (m : M) : M :=
  match ws with
  | [] => m
  | w :: ws => store_words (addr + 8) ws (mem_write addr w m)
  end.
Definition write_block (block salt : Z) (m : M) : M :=
  fold_left (fun m word => store_words (block_ptr block + 8 * word) (memtest_row block salt) m) (block_rows block) m.

Fixpoint load_words (addr : Z) (n : nat) (m : M) : list Z * M :=
  match n with
  | O => ([], m)
  | S n => let '(x, m) := mem_read addr m in let '(xs, m) := load_words (addr + 8) n m in (x :: xs, m)
  end.
(** Four words are read and then compared; the first difference ends the test. *)
Definition CHECK_ROW (addr : Z) (expected : list Z) (m : M) : bool * M :=
  let '(xs, m) := load_words addr 4 m in (forallb (fun p => p.1 =? p.2) (combine expected xs), m).
Fixpoint check_all (checks : list (Z * list Z)) (m : M) : bool * M :=
  match checks with
  | [] => (true, m)
  | (addr, expected) :: checks => let '(ok, m) := CHECK_ROW addr expected m in if ok then check_all checks m else (false, m)
  end.
Definition row_checks (block salt word : Z) : list (Z * list Z) :=
  let row := memtest_row block salt in let addr := block_ptr block + 8 * word in
  [(addr, take 4 row); (addr + 32, take 4 (drop 4 row)); (addr + 64, take 4 (drop 8 row)); (addr + 96, take 4 (drop 12 row))].
Definition test_block (block salt : Z) (m : M) : bool * M := check_all (concat (map (row_checks block salt) (block_rows block))) m.

Fixpoint first_pass (salt : Z) (blocks : list Z) (res : bool) (m : M) : bool * M :=
  match blocks with
  | [] => (res, m)
  | block :: blocks =>
      let m := write_block block salt m in
      let m := flush_dcache m in
      let '(ok, m) := test_block block salt m in first_pass salt blocks (res && ok) m
  end.
Fixpoint retention_pass (salt : Z) (blocks : list Z) (res : bool) (m : M) : bool * M :=
  match blocks with
  | [] => (res, m)
  | block :: blocks => let '(ok, m) := test_block block salt m in retention_pass salt blocks (res && ok) m
  end.
Definition memtest (salt nblocks : Z) (m : M) : bool * M :=
  let '(res, m) := first_pass salt (seqZ 0 nblocks) true m in
  let m := flush_dcache m in
  retention_pass salt (seqZ 0 nblocks) res m.
End Test.

(** ** What is expected of a word *)
Definition expected_word (salt a : Z) : Z := var (memtest_row (a / 2 ^ 27) salt) (Z.to_nat (a / 8 mod 16)).
(** The words that are tested: all but the first row. *)
Definition tested (nblocks a : Z) : Prop := a mod 8 = 0 /\ 128 <= a < nblocks * 2 ^ 27.

Lemma length_LADDER a b c r s : length (LADDER a b c r s) = length s.
Proof. unfold LADDER. by rewrite !length_insert. Qed.
Lemma length_DR s : length (DR s) = length s.
Proof. unfold DR, QR. by rewrite !length_LADDER. Qed.
Lemma length_memtest_row block salt : length (memtest_row block salt) = 16%nat.
Proof. unfold memtest_row. by rewrite !length_DR. Qed.

Definition row_addrs (addr : Z) : list Z := map (fun j => addr + 8 * j) (seqZ 0 16).
Definition block_addrs (block : Z) : list Z := concat (map (fun word => row_addrs (block_ptr block + 8 * word)) (block_rows block)).

Lemma expected_at salt block k j : 0 <= block < 32 -> 0 <= k < 2 ^ 20 -> 0 <= j < 16 ->
  expected_word salt (block_ptr block + 8 * (16 * k) + 8 * j) = var (memtest_row block salt) (Z.to_nat j).
Proof.
  intros Hb Hk Hj. unfold expected_word, block_ptr. rewrite u32_small by (rewrite Z.shiftl_mul_pow2 by lia; lia). rewrite Z.shiftl_mul_pow2 by lia.
  assert ((block * 2 ^ 27 + 8 * (16 * k) + 8 * j) / 2 ^ 27 = block) as -> by dlia. assert ((block * 2 ^ 27 + 8 * (16 * k) + 8 * j) / 8 mod 16 = j) as -> by dlia. done.
Qed.
Lemma row_of block word : In word (block_rows block) -> exists k, word = 16 * k /\ 0 <= k < 2 ^ 20.
Proof.
  unfold block_rows. intros (k & <- & Hk)%in_map_iff. apply list_elem_of_In, elem_of_seqZ in Hk. exists k. split; [done |]. change (BLOCK_WORDS / 16) with (2 ^ 20) in Hk. destruct (block =? 0); lia.
Qed.
Lemma block_addr_in block a : 0 <= block < 32 -> (In a (block_addrs block) <-> a mod 8 = 0 /\ 128 <= a /\ a / 2 ^ 27 = block).
Proof.
  intros Hb. unfold block_addrs, row_addrs, block_ptr. rewrite u32_small by (rewrite Z.shiftl_mul_pow2 by lia; lia). rewrite Z.shiftl_mul_pow2 by lia. rewrite in_concat. split.
  - intros (l & (w & <- & Hw)%in_map_iff & (j & <- & Hj)%in_map_iff). apply list_elem_of_In, elem_of_seqZ in Hj. unfold block_rows in Hw. apply in_map_iff in Hw as (k & <- & Hk). apply list_elem_of_In, elem_of_seqZ in Hk.
    change (BLOCK_WORDS / 16) with (2 ^ 20) in Hk. destruct (Z.eqb_spec block 0); split_and!; dlia.
  - intros (H8 & H128 & Ha). exists (map (fun j => block * 2 ^ 27 + 8 * (16 * ((a - block * 2 ^ 27) / 128)) + 8 * j) (seqZ 0 16)). split.
    + apply in_map_iff. eexists. split; [done |]. unfold block_rows. apply in_map_iff. eexists. split; [done |]. apply list_elem_of_In, elem_of_seqZ. change (BLOCK_WORDS / 16) with (2 ^ 20). destruct (Z.eqb_spec block 0); dlia.
    + apply in_map_iff. exists (a / 8 mod 16). split; [dlia |]. apply list_elem_of_In, elem_of_seqZ. dlia.
Qed.

Lemma row_in block k : 0 <= k < 2 ^ 20 -> (block = 0 -> 1 <= k) -> In (16 * k) (block_rows block).
Proof.
  intros Hk Hb. unfold block_rows. apply in_map_iff. exists k. split; [done |]. apply list_elem_of_In, elem_of_seqZ. change (BLOCK_WORDS / 16) with (2 ^ 20). destruct (Z.eqb_spec block 0); lia.
Qed.

#[local] Opaque block_rows memtest_row.

(** Loops over rows. *)
Lemma fold_left_concat {A B C} (g : A -> C -> A) (f : A -> B -> A) (h : B -> list C) l m :
  (forall b m, In b l -> f m b = fold_left g (h b) m) -> fold_left f l m = fold_left g (concat (map h l)) m.
Proof.
  revert m. induction l as [| b l IH]; intros m Hf; [done |]. cbn [fold_left map concat]. rewrite fold_left_app, Hf by (by left). apply IH. intros b' m' Hb'. apply Hf. by right.
Qed.
Lemma check_all_app {M} (mem_read : Z -> M -> Z * M) c1 c2 : forall m, check_all mem_read (c1 ++ c2) m = let '(ok, m) := check_all mem_read c1 m in if ok then check_all mem_read c2 m else (false, m).
Proof.
  induction c1 as [| [addr e] c1 IH]; intros m; [done |]. cbn [app check_all]. destruct (CHECK_ROW mem_read addr e m) as [[] m1]; [apply IH | done].
Qed.
Lemma check_all_concat {M B} (mem_read : Z -> M -> Z * M) (h : B -> list (Z * list Z)) l m :
  (forall b, In b l -> check_all mem_read (h b) m = (true, m)) -> check_all mem_read (concat (map h l)) m = (true, m).
Proof.
  induction l as [| b l IH]; intros Hf; [done |]. cbn [map concat]. rewrite check_all_app, Hf by (by left). apply IH. intros b' Hb'. apply Hf. by right.
Qed.

(** ** Memory with cells

    [canon] maps addresses to cells; on memory as it should be, it is the identity. *)
Section Cells.
Context (canon : Z -> Z) (salt : Z).
Definition cell_write (a v : Z) (m : Z -> Z) : Z -> Z := fun c => if c =? canon a then v else m c.
Definition cell_read (a : Z) (m : Z -> Z) : Z * (Z -> Z) := (m (canon a), m).

(** Addresses that share a cell are in the same block, at the same place in a row. *)
Definition shares_rows : Prop := forall a b, canon a = canon b -> a / 2 ^ 27 = b / 2 ^ 27 /\ a / 8 mod 16 = b / 8 mod 16.
Context (Hcanon : shares_rows).

Definition holds (P : Z -> Prop) (m : Z -> Z) : Prop := forall a, P a -> m (canon a) = expected_word salt a.

Lemma write_holds P a m : holds P m -> holds (fun b => P b \/ b = a) (cell_write a (expected_word salt a) m).
Proof.
  intros Hm b Hb. unfold cell_write. destruct (Z.eqb_spec (canon b) (canon a)) as [E | E].
  - destruct (Hcanon b a E) as [E1 E2]. unfold expected_word. by rewrite E1, E2.
  - destruct Hb as [Hb | ->]; [by apply Hm | done].
Qed.
Lemma writes_hold as_ : forall P m, holds P m -> holds (fun b => P b \/ In b as_) (fold_left (fun m a => cell_write a (expected_word salt a) m) as_ m).
Proof.
  induction as_ as [| a as_ IH]; intros P m Hm; cbn [fold_left In]; [intros b [Hb | []]; by apply Hm |].
  intros b Hb. apply (IH _ _ (write_holds P a m Hm)). destruct Hb as [Hb | [<- | Hb]]; auto.
Qed.

(** The writes of a block. *)
Lemma store_row block k m : 0 <= block < 32 -> 0 <= k < 2 ^ 20 ->
  store_words cell_write (block_ptr block + 8 * (16 * k)) (memtest_row block salt) m = fold_left (fun m a => cell_write a (expected_word salt a) m) (row_addrs (block_ptr block + 8 * (16 * k))) m.
Proof.
  intros Hb Hk. unfold row_addrs. assert (forall ws j m, j + zlen ws = 16 -> 0 <= j -> drop (Z.to_nat j) (memtest_row block salt) = ws ->
    store_words cell_write (block_ptr block + 8 * (16 * k) + 8 * j) ws m = fold_left (fun m a => cell_write a (expected_word salt a) m) (map (fun j => block_ptr block + 8 * (16 * k) + 8 * j) (seqZ j (zlen ws))) m) as H.
  { induction ws as [| w ws IH]; intros j m0 Hj Hj0 Hd; [done |]. cbn [store_words length] in *. rewrite seqZ_cons by lia. cbn [map fold_left].
    assert (var (memtest_row block salt) (Z.to_nat j) = w) as Hw by (unfold var; apply nth_lookup_Some; rewrite <- (Nat.add_0_r (Z.to_nat j)), <- lookup_drop, Hd; done).
    rewrite expected_at, Hw by lia. replace (Z.pred (Z.of_nat (S (length ws)))) with (zlen ws) by lia. rewrite <- (IH (Z.succ j)); [f_equal; lia | lia | lia |].
    rewrite Z2Nat.inj_succ by lia. rewrite <- Nat.add_1_r, <- drop_drop, Hd. done. }
  specialize (H (memtest_row block salt) 0 m). rewrite length_memtest_row, Z.mul_0_r, Z.add_0_r in H. by apply H.
Qed.
Lemma write_block_holds block P m : 0 <= block < 32 -> holds P m -> holds (fun a => P a \/ In a (block_addrs block)) (write_block cell_write block salt m).
Proof.
  intros Hb Hm. unfold write_block. rewrite (fold_left_concat (fun m a => cell_write a (expected_word salt a) m) _ (fun word => row_addrs (block_ptr block + 8 * word))).
  - exact (writes_hold (block_addrs block) P m Hm).
  - intros w m' (k & -> & Hk)%row_of. by apply store_row.
Qed.

(** The test of a block reads what is expected. *)
Lemma check_group block k i m : 0 <= block < 32 -> 0 <= k < 2 ^ 20 -> 0 <= i <= 3 ->
  holds (fun a => In a (row_addrs (block_ptr block + 8 * (16 * k)))) m ->
  CHECK_ROW cell_read (block_ptr block + 8 * (16 * k) + 32 * i) (take 4 (drop (Z.to_nat (4 * i)) (memtest_row block salt))) m = (true, m).
Proof.
  intros Hb Hk Hi Hm. set (base := block_ptr block + 8 * (16 * k)) in *.
  assert (forall j, 0 <= j < 16 -> m (canon (base + 8 * j)) = var (memtest_row block salt) (Z.to_nat j)) as Hj.
  { intros j Hj. rewrite Hm; [by apply expected_at |]. apply in_map_iff. exists j. split; [done |]. apply list_elem_of_In, elem_of_seqZ. lia. }
  unfold CHECK_ROW, cell_read. cbn [load_words]. pose proof (length_memtest_row block salt) as Hl.
  assert (i = 0 \/ i = 1 \/ i = 2 \/ i = 3) as Hcases by lia. pose proof (Hj (4 * i)) as J0. pose proof (Hj (4 * i + 1)) as J1. pose proof (Hj (4 * i + 2)) as J2. pose proof (Hj (4 * i + 3)) as J3.
  replace (base + 8 * (4 * i)) with (base + 32 * i) in J0 by lia. replace (base + 8 * (4 * i + 1)) with (base + 32 * i + 8) in J1 by lia. replace (base + 8 * (4 * i + 2)) with (base + 32 * i + 8 + 8) in J2 by lia.
  replace (base + 8 * (4 * i + 3)) with (base + 32 * i + 8 + 8 + 8) in J3 by lia. rewrite J0, J1, J2, J3 by lia. clear - Hl Hcases. destruct (memtest_row block salt) as [| x0 row]; [done |].
  do 15 (destruct row as [| ? row]; [done |]). destruct row; [| done]. destruct Hcases as [-> | [-> | [-> | ->]]]; cbv -[Z.eqb]; by rewrite !Z.eqb_refl.
Qed.
Lemma test_row_holds block k m : 0 <= block < 32 -> 0 <= k < 2 ^ 20 -> holds (fun a => In a (row_addrs (block_ptr block + 8 * (16 * k)))) m ->
  check_all cell_read (row_checks block salt (16 * k)) m = (true, m).
Proof.
  intros Hb Hk Hm. unfold row_checks. set (row := memtest_row block salt). cbv zeta. cbn [check_all]. pose proof (fun i Hi => check_group block k i m Hb Hk Hi Hm) as Hc. fold row in Hc. clearbody row.
  pose proof (Hc 0 ltac:(lia)) as C0. pose proof (Hc 1 ltac:(lia)) as C1. pose proof (Hc 2 ltac:(lia)) as C2. pose proof (Hc 3 ltac:(lia)) as C3. rewrite Z.mul_0_r, Z.add_0_r in C0.
  change (drop (Z.to_nat (4 * 0)) row) with row in C0. change (32 * 1) with 32 in C1. change (32 * 2) with 64 in C2. change (32 * 3) with 96 in C3. change (Z.to_nat (4 * 1)) with 4%nat in C1. change (Z.to_nat (4 * 2)) with 8%nat in C2. change (Z.to_nat (4 * 3)) with 12%nat in C3.
  by rewrite C0, C1, C2, C3.
Qed.
Lemma test_block_holds block m : 0 <= block < 32 -> holds (fun a => In a (block_addrs block)) m -> test_block cell_read block salt m = (true, m).
Proof.
  intros Hb Hm. unfold test_block. apply check_all_concat. intros w Hw. destruct (row_of block w Hw) as (k & -> & Hk). apply test_row_holds; [done | done |]. intros a Ha. apply Hm, in_concat.
  eexists. split; [| exact Ha]. apply in_map_iff. by exists (16 * k).
Qed.

Lemma first_pass_holds blocks : forall P m, Forall (fun b => 0 <= b < 32) blocks -> holds P m ->
  exists m', first_pass cell_write cell_read (fun m => m) salt blocks true m = (true, m') /\ holds (fun a => P a \/ exists b, In b blocks /\ In a (block_addrs b)) m'.
Proof.
  induction blocks as [| b blocks IH]; intros P m Hall Hm; cbn [first_pass].
  - exists m. split; [done |]. intros a [Ha | (b & [] & _)]. by apply Hm.
  - inversion Hall as [| ? ? Hb Hall']; subst. pose proof (write_block_holds b P m Hb Hm) as Hw. rewrite test_block_holds by (try done; intros a Ha; apply Hw; by right). cbn [andb].
    destruct (IH _ _ Hall' Hw) as (m' & E & Hm'). exists m'. split; [done |]. intros a Ha. apply Hm'. destruct Ha as [Ha | (b' & [<- | Hb'] & Ha)]; [by left; left | by left; right | right; by exists b'].
Qed.
Lemma retention_holds blocks m : Forall (fun b => 0 <= b < 32) blocks -> (forall b, In b blocks -> holds (fun a => In a (block_addrs b)) m) -> retention_pass cell_read salt blocks true m = (true, m).
Proof.
  induction blocks as [| b blocks IH]; intros Hall Hm; [done |]. inversion Hall; subst. cbn [retention_pass]. rewrite test_block_holds; [| done | apply Hm; by left]. cbn [andb]. apply IH; [done |]. intros b' Hb'. apply Hm. by right.
Qed.

Lemma memtest_cells nblocks m : 0 <= nblocks <= 32 -> (memtest cell_write cell_read (fun m => m) salt nblocks m).1 = true.
Proof.
  intros Hn. assert (Forall (fun b => 0 <= b < 32) (seqZ 0 nblocks)) as Hall by (apply Forall_forall; intros b Hb%list_elem_of_In%elem_of_seqZ; lia).
  unfold memtest. destruct (first_pass_holds (seqZ 0 nblocks) (fun _ => False) m Hall) as (m' & -> & Hm); [by intros a |]. rewrite retention_holds; [done | done |]. intros b Hb a Ha. apply Hm. right. by exists b.
Qed.
End Cells.

(** ** Faults *)
Section Fault.
Context {M : Type} (mem_read : Z -> M -> Z * M) (salt a : Z).
Context (Hfault : forall m, (mem_read a m).1 <> expected_word salt a).

Lemma load_words_at n : forall addr m i, (i < n)%nat -> exists m', (load_words mem_read addr n m).1 !! i = Some (mem_read (addr + 8 * Z.of_nat i) m').1.
Proof.
  induction n as [| n IH]; intros addr m i Hi; [lia |]. cbn [load_words]. destruct (mem_read addr m) as [x m1] eqn:E. specialize (IH (addr + 8) m1). destruct (load_words mem_read (addr + 8) n m1) as [xs m2]. cbn [fst] in *.
  destruct i as [| i]; [exists m; rewrite Z.add_0_r, E; done |]. destruct (IH i) as [m' Hm']; [lia |]. exists m'. change ((x :: xs) !! S i) with (xs !! i). rewrite Hm'. do 3 f_equal. lia.
Qed.
Lemma combine_in {A B} (l : list A) : forall (k : list B) i x y, l !! i = Some x -> k !! i = Some y -> In (x, y) (combine l k).
Proof.
  induction l as [| a0 l IH]; intros [| b k] [| i] x y Hx Hy; cbn in *; try done; [simplify_eq; by left | right; by apply (IH k i)].
Qed.
Lemma check_fails addr expected i m : (i < 4)%nat -> a = addr + 8 * Z.of_nat i -> expected !! i = Some (expected_word salt a) -> (CHECK_ROW mem_read addr expected m).1 = false.
Proof.
  intros Hi Ha He. unfold CHECK_ROW. destruct (load_words_at 4 addr m i Hi) as [m' Hl]. rewrite <- Ha in Hl. destruct (load_words mem_read addr 4 m) as [xs m1]. cbn [fst] in *.
  apply not_true_iff_false. rewrite forallb_forall. intros H. specialize (H (expected_word salt a, (mem_read a m').1)). apply (Hfault m'). symmetry. apply Z.eqb_eq, H.
  exact (combine_in _ _ i _ _ He Hl).
Qed.
Lemma check_all_fails checks addr expected : In (addr, expected) checks -> (forall m, (CHECK_ROW mem_read addr expected m).1 = false) -> forall m, (check_all mem_read checks m).1 = false.
Proof.
  intros Hin Hf. induction checks as [| [ad ex] checks IH]; intros m; [done |]. cbn [check_all]. destruct Hin as [[= -> ->] | Hin].
  - specialize (Hf m). by destruct (CHECK_ROW mem_read addr expected m) as [[] m1].
  - destruct (CHECK_ROW mem_read ad ex m) as [[] m1]; [by apply IH | done].
Qed.

(** The block of the word fails its test. *)
Lemma test_block_fails m : 0 <= a / 2 ^ 27 < 32 -> a mod 8 = 0 -> 128 <= a -> (test_block mem_read (a / 2 ^ 27) salt m).1 = false.
Proof.
  intros Hb H8 Ha. set (block := a / 2 ^ 27) in *. set (k := (a - block * 2 ^ 27) / 128). set (j := a / 8 mod 16). assert (0 <= k < 2 ^ 20 /\ 0 <= j < 16 /\ (block = 0 -> 1 <= k)) as (Hk & Hj & Hk1) by (subst k j block; split_and!; dlia).
  assert (a = block_ptr block + 8 * (16 * k) + 32 * (j / 4) + 8 * (j mod 4)) as Haddr.
  { unfold block_ptr. rewrite u32_small by (rewrite Z.shiftl_mul_pow2 by lia; lia). rewrite Z.shiftl_mul_pow2 by lia. subst k j block. dlia. }
  assert (0 <= j / 4 <= 3 /\ 0 <= j mod 4 < 4) as [Hi Hr] by dlia.
  unfold test_block. apply (check_all_fails _ (block_ptr block + 8 * (16 * k) + 32 * (j / 4)) (take 4 (drop (Z.to_nat (4 * (j / 4))) (memtest_row block salt)))).
  - apply in_concat. exists (row_checks block salt (16 * k)). split; [apply in_map_iff; exists (16 * k); split; [done | by apply row_in] |]. unfold row_checks. cbv zeta.
    set (row := memtest_row block salt). set (base := block_ptr block + 8 * (16 * k)). assert (j / 4 = 0 \/ j / 4 = 1 \/ j / 4 = 2 \/ j / 4 = 3) as [-> | [-> | [-> | ->]]] by lia; cbn [In]; [left | right; left | right; right; left | right; right; right; left]; rewrite ?Z.add_0_r; done.
  - intros m'. apply (check_fails _ _ (Z.to_nat (j mod 4))); [lia | lia |]. rewrite lookup_take_lt, lookup_drop by lia. unfold expected_word. fold block j. unfold var.
    destruct (lookup_lt_is_Some_2 (memtest_row block salt) (Z.to_nat j)) as [v Hv]; [rewrite length_memtest_row; lia |]. replace (Z.to_nat (4 * (j / 4)) + Z.to_nat (j mod 4))%nat with (Z.to_nat j) by dlia.
    rewrite Hv. f_equal. symmetry. by apply nth_lookup_Some.
Qed.

Lemma retention_fails blocks : forall res m, 128 <= a -> a mod 8 = 0 -> 0 <= a / 2 ^ 27 < 32 -> (res = false \/ In (a / 2 ^ 27) blocks) -> (retention_pass mem_read salt blocks res m).1 = false.
Proof.
  induction blocks as [| b blocks IH]; intros res m Ha H8 Hb Hin; cbn [retention_pass]; [destruct Hin as [-> | []]; done |].
  destruct (Z.eq_dec b (a / 2 ^ 27)) as [-> | Hne].
  - pose proof (test_block_fails m Hb H8 Ha) as Hf. destruct (test_block mem_read (a / 2 ^ 27) salt m) as [ok m1]. cbn [fst] in Hf. subst ok. apply IH; try done. left. apply andb_false_r.
  - destruct (test_block mem_read b salt m) as [ok m1]. apply IH; [done | done | done |]. destruct Hin as [-> | [E | Hin]]; [by left | congruence | by right].
Qed.
End Fault.

(** What the memory test finds.  Memory that keeps what is written passes; and
    memory with a word that never reads as written fails, in whatever way else it
    behaves.  It also passes, however, if addresses share a cell, as long as they are
    in the same block and at the same place in a row of 128 bytes: the pattern does
    not depend on the row, so that faults of the address lines inside a block are not
    seen. *)
Lemma memtest_finds salt nblocks : 0 <= nblocks <= 32 ->
  (forall canon m, shares_rows canon -> (memtest (cell_write canon) (cell_read canon) (fun m => m) salt nblocks m).1 = true) /\
  (forall M (mem_write : Z -> Z -> M -> M) mem_read flush a, tested nblocks a -> (forall m, (mem_read a m).1 <> expected_word salt a) ->
    forall m, (memtest mem_write mem_read flush salt nblocks m).1 = false).
Proof.
  intros Hn. split; [intros canon m Hc; by apply memtest_cells |]. intros M mw mr fl a [H8 Ha] Hf m. unfold memtest. destruct (first_pass mw mr fl salt (seqZ 0 nblocks) true m) as [res m1].
  apply (retention_fails mr salt a Hf); [lia | done | dlia |]. right. apply list_elem_of_In, elem_of_seqZ. dlia.
Qed.

(** Sound memory, and memory in which all rows of a block are the same. *)
Definition aliased (a : Z) : Z := a / 2 ^ 27 * 2 ^ 27 + a mod 128.
Lemma shares_rows_sound : shares_rows (fun a => a).
Proof. by intros a b ->. Qed.
Lemma shares_rows_aliased : shares_rows aliased.
Proof. intros a b. unfold aliased. intros E. split; dlia. Qed.

Lemma memtest_example :
  (memtest (cell_write (fun a => a)) (cell_read (fun a => a)) (fun m => m) (5 * 2 ^ 29) 32 (fun _ => 0)).1 = true /\
  (memtest (cell_write aliased) (cell_read aliased) (fun m => m) (5 * 2 ^ 29) 32 (fun _ => 0)).1 = true.
Proof.
  destruct (memtest_finds (5 * 2 ^ 29) 32 ltac:(lia)) as [H _]. split; [exact (H _ _ shares_rows_sound) | exact (H _ _ shares_rows_aliased)].
Qed.
